(* ===== verification/_CoqProject ===== *)
-Q . S2P
Prelude.v
LinkedList.v
LinkedListSpec.v
LinkedListTheorems.v
Queue.v
Time.v
BlockingQueue.v
BlockingQueueTheorems.v
TaskExecutor.v
TaskExecutorTheorems.v
ThreadPool.v
ThreadPoolTheorems.v
DelayedTask.v
RepeatingTask.v
RepeatingTaskTheorems.v
SortedList.v
FifoBuffer.v
HashMap.v
HashMapSpec.v
HashMapIter.v
HashMapTheorems.v
StringHashMap.v
StringHashMapTheorems.v
StringUtils.v
StringUtilsTheorems.v
StringNumbers.v
UtilFormats.v
Watchdog.v
WatchdogTheorems.v
KeyMap.v
MessageQueue.v
MessageQueueSpec.v
MessageQueueTheorems.v
CommFail.v
CommFailTheorems.v
XmlHelper.v
PropertyTypes.v
Properties.v
PropertiesSpec.v
PropertiesFile.v
PropsIpc.v
PropsIpcSpec.v
PropsTheorems.v
OwnedMap.v
Json.v
DeviceModel.v
DeviceJson.v
DeviceJsonSpec.v
Storage.v
StorageSpec.v
StorageCrash.v
JsonDatabase.v
JsonDatabaseSpec.v
JsonDatabaseOps.v
JsonDatabaseMemory.v
JsonDatabaseDevices.v
JsonDatabaseMetadata.v
JsonDatabaseRestart.v
JsonDatabaseQuery.v
JsonDatabaseModel.v
JsonDatabaseInstance.v
DeviceTheorems.v
JsonDatabaseTheorems.v
StringKeyed.v
DeviceUris.v
DeviceUrisSpec.v
DeviceBuild.v
DeviceDb.v
DeviceService.v
DevicePairing.v
DeviceServiceSpec.v
DevicePairingSpec.v
DeviceServiceTheorems.v
DevicePairingTheorems.v
Discovery.v
DriverManager.v
Versions.v
DeviceDescriptors.v
DeviceDescriptorsTheorems.v
DeviceNumbers.v
