(* ===== verification/Prelude.v ===== *)
(** * Verification of the Zilker SDK: core libraries, threads, and services

    Zilker is a set of C services for home gateways (src/source/services) on
    top of C libraries (src/source/libs).  This development models the
    libraries every service stands on -- lists, queues, buffers, hash maps,
    strings, XML access, and the queues, executors, thread pools and timers
    that connect threads, and files with backups -- and parts of services built
    from them: the properties service, the process manager of the watchdog, the
    message queue of the comm service, and of the device service its operations
    on devices, pairing, discovery, driver manager, communication watchdog and
    database, with the device descriptors.
    It proves what each promises its callers.

    ** The parts and how they interact

    - libs/types: icLinkedList is the base; icQueue shares its nodes,
      icSortedLinkedList inserts into it, icHashMap keeps one list per bucket,
      icStringHashMap is icHashMap with string keys and a JSON form.
      icFifoBuffer is a growing byte block, icStringBuffer builds text in it.
    - libs/time: timespec arithmetic and time trackers.
    - libs/concurrent: icBlockingQueue is an icQueue with a mutex and two
      condition variables; taskExecutor runs the tasks of one blocking queue
      in order in one thread, threadPool in several; delayedTask and
      repeatingTask run a callback in a thread of its own after timed waits.
    - libs/util stringUtils.c: string functions, used by everything; its
      stringReplace builds its result in an icStringBuffer.  version.c reads,
      writes and compares release versions, macAddrUtils.c converts hardware
      addresses.
    - libs/xml xmlHelper.c: typed access to XML nodes, with the number parsers
      of stringUtils.
    - services/props/core: properties.c keeps an icHashMap of property objects
      and an XML file; propertyTypeDefinitions.c validates values against an
      icHashMap of type definitions; ipcHandler.c answers the requests of
      clients with both; broadcastEvent.c sends events.
    - services/watchdog/core procMgr.c: the table of service definitions, the
      processes forked for them, their deaths and acknowledgements, with
      delayed tasks as time-outs.
    - services/comm/core messageQueue.c: messages between their arrival and
      the reply of a server, in two icQueues and an icHashMap, with a thread
      that sends them and time trackers that let them expire.
    - services/device/core deviceCommunicationWatchdog.c: an icHashMap of the
      devices with the time each was last heard of, and a thread that looks
      for silent ones.
    - libs/config storage.c: texts under keys, a file and a backup for each,
      replaced by safeFileSave and chosen by chooseFileToRead (backupUtils.c)
      with the file functions of libs/util fileUtils.c.
    - services/device/core device: devices with their endpoints, resources and
      metadata, their copies and their JSON form, through libs/json
      jsonHelper.c; sensitive values are encrypted.
    - services/device/core database jsonDatabase.c: an icHashMap of cached
      devices by uuid, one of every part by URI, one of system properties, and
      a storage key per device.
    - services/device/core deviceService.c: what clients and drivers call, on top
      of the database: resources and metadata by URI, endpoints, removal, the
      black list (a property), pairing and reconfiguring a device with its
      driver and its descriptor, discovery with a thread per device class.
      deviceModelHelper.c and icInitialResourceValues.c build devices for it;
      deviceDriverManager.c holds the drivers, in a list and a hash map.
      deviceNumberAllocator.c numbers the legacy security devices through the
      metadata of the service.
    - libs/device: helper/deviceHelper.c builds URIs and takes them apart;
      descriptors reads the lists of supported devices from XML and finds the
      descriptor of a device.

    ** Files

    - Prelude: machine integers with their wrap-around, the outcomes of C code,
      C strings, byte blocks, lists gathered from maps, tactics and the hint
      database.
    - LinkedList (Module LinkedList): icLinkedList.c and list.h, nodes in a heap
      from addresses to item and next pointer; LinkedListSpec (ListSpec): the
      representation of a plain list and one lemma per operation;
      LinkedListTheorems (ListTheorems): the claims.
    - Queue: icQueue.c, its invariant (first, last, size) and claims.
    - Time: timeUtils.c, timeTracker.c and the deadlines of timedWait.c; the
      clock is an argument.
    - BlockingQueue, BlockingQueueTheorems (BlockingTheorems): icBlockingQueue.c,
      as atomic segments between the waits and a step relation that interleaves
      them with signals, time-outs and spurious wake-ups.
    - TaskExecutor, TaskExecutorTheorems (ExecutorTheorems): taskExecutor.c over
      the segments of the blocking queue, with its mutex: worker, appending,
      clearing, destroying and draining clients.
    - ThreadPool, ThreadPoolTheorems (PoolTheorems): threadPool.c in the same
      way, with any number of workers that come and go.
    - DelayedTask: delayedTask.c, the heap of task objects, the list of tasks
      and one thread per task; RepeatingTask, RepeatingTaskTheorems
      (RepeatingTheorems): repeatingTask.c, one task and its clients.
    - SortedList: icSortedLinkedList.c.
    - FifoBuffer (Fifo): icFifoBuffer.c and icStringBuffer.c on byte blocks with
      read and write positions; every memcpy is checked against the block.
    - HashMap (HashMap): icHashMap.c, items in a heap of their own, buckets as
      lists of LinkedList; HashMapSpec (MapSpec): the bucket invariant and the
      finite map it stands for; HashMapIter (MapIter): iterators, clones;
      HashMapTheorems (MapTheorems): the claims.
    - StringHashMap (StringMap), StringHashMapTheorems: icStringHashMap.c and
      hashMapPutCopy, keys and values as blocks of bytes with their NUL; cJSON is
      the parameter CJson with the laws CJsonLaws.
    - StringUtils, StringUtilsTheorems (StringTheorems), StringNumbers:
      stringUtils.c and the C library functions it calls (strstr, strcmp,
      strtoull, ...).
    - UtilFormats: version.c (ReleaseVersions) and macAddrUtils.c (MacAddrs).
    - Watchdog, WatchdogTheorems: procMgr.c.  The static variables are a record;
      the ids fork will return and what happens during each wait of an
      operation (a child is reaped, its death is handled, acknowledgements) are
      lists in the state; reaping and handling are two steps, since wait() needs
      no lock.
    - KeyMap: the interface between the hash map and the services (Class KeyMap
      with its laws KeyMapLaws); the hash map is its instance.  Everything
      below is proved for any instance.
    - MessageQueue, MessageQueueSpec (MQSpec), MessageQueueTheorems (MQTheorems):
      messageQueue.c and message.c; the segments of the thread and of the calls
      between two waits, the invariant, the claims.
    - CommFail, CommFailTheorems: deviceCommunicationWatchdog.c, in the same way.
    - XmlHelper (Xml): xmlHelper.c; libxml2 is the parameter LibXml with the laws
      LibXmlLaws; trees are an instance, used by the witnesses.
    - PropertyTypes: propertyTypeDefinitions.c.
    - Properties: properties.c and broadcastEvent.c, the static variables of the
      file as a record; PropertiesSpec (PropSpec): the abstract store and the
      effect of every operation on it, with ownership ([holds]);
      PropertiesFile (PropFile): writing and reading the XML file.
    - PropsIpc: ipcHandler.c and the dispatch of requests; PropsIpcSpec
      (IpcSpec): the abstract service and the handlers' refinement;
      PropsTheorems: the claims on the service.
    - OwnedMap: a map that owns structures of its own over any instance of
      KeyMap, again an instance; the files below use it for the index and for
      maps of strings.
    - Json: cJSON as the interface Json with the laws JsonLaws, and jsonHelper.c.
    - DeviceModel: the records of icDevice*.h, their copies, icSerDesContext.c and
      encryption as the interface Protect with its laws; DeviceJson: the
      conversions to and from JSON; DeviceJsonSpec: each part read back from what
      was written.
    - Storage: storage.c, backupUtils.c and the functions of fileUtils.c they
      use, over directories of files with a schedule of failing system calls and
      a history of the states between them; StorageSpec: the map a directory
      stands for, and the interface Store (with StoreLaws) it implements for the
      database; StorageCrash: what a load finds in each state of the history.
    - JsonDatabase: jsonDatabase.c.  Endpoints, resources, metadata, devices and
      cache entries are in a heap; the maps and the storage are instances of
      interfaces.  JsonDatabaseSpec: the representation of a list of devices
      ([repr]: heap, cache and index hold exactly its parts) and of their files
      ([filed], [db_ok]); JsonDatabaseOps, JsonDatabaseMemory,
      JsonDatabaseDevices, JsonDatabaseMetadata (with JsonDatabaseGrow),
      JsonDatabaseRestart and JsonDatabaseQuery: the specifications of the
      operations;
      JsonDatabaseModel: the abstract database, its steps, the simulation;
      JsonDatabaseInstance: concrete instances of all interfaces, used by the
      witnesses.
    - DeviceTheorems, JsonDatabaseTheorems: the claims.
    - StringKeyed: maps keyed by C strings over KeyMap, as the service uses them.
    - DeviceUris: the URI functions of deviceService.c and deviceHelper.c;
      DeviceUrisSpec: what they build and that it can be read back; DeviceBuild:
      icInitialResourceValues.c (InitialValues), deviceModelHelper.c and the
      common resources (DeviceBuild).
    - DeviceDb: the database as the service sees it (Class DeviceDb, an operation
      per function of jsonDatabase.h, with the laws DeviceDbLaws); the JSON
      database is its instance.  The service is proved against the laws.
    - DeviceService: deviceService.c up to pairing; its state is the database, the
      marks, the discoveries, the properties it reads and a log of the events
      sent.  A driver is a record of functions on this state, NULL ones are
      [None].  DevicePairing: pairing, reconfiguration, descriptors.
      Whether a property that it sets is stored is an argument.
      DeviceServiceSpec, DevicePairingSpec: the specifications of the operations;
      DeviceServiceTheorems, DevicePairingTheorems: the claims.
    - Discovery: deviceServiceDiscoverStart and Stop and the discovery threads, as
      a step relation; DriverManager: deviceDriverManager.c.
    - Versions: versionUtils.c; DeviceDescriptors: parser.c, deviceDescriptor.c
      and deviceDescriptors.c over libxml2; DeviceDescriptorsTheorems: the claims.
    - DeviceNumbers: deviceNumberAllocator.c and the ids of Zigbee devices
      (DeviceNumbers); the sequences of allocations, pairings and removals
      (DeviceNumbersTheorems).

    ** Conventions

    An operation of the C code is a function of the state it uses; its result
    is [Ok], [Fault] (undefined behaviour: a NULL, dangling or freed pointer is
    used, a block is accessed outside its bounds, something is freed that is
    not allocated) or [Hang].  The claims show that the result is [Ok], so
    they include memory safety and termination.  Loops over nodes run with the
    number of nodes of the heap as fuel and give [Hang] when it is used up: a
    chain without a cycle cannot use up more, and the specifications show that
    it does not.  Integers are kept at the width the code has where it
    matters: 16-bit sizes and key lengths, 32-bit buffer positions and hashes,
    64-bit versions and numbers.  A callback (compare, clone, release) is a
    function argument; released items are returned as lists, so that each
    release can be counted.  Allocation always succeeds.

    Code that runs in several threads is split at the points where it gives up
    its mutex: each segment is a function, and an Inductive step relation
    interleaves the segments of all threads.  A ghost log in the state records
    what the claims speak about (tasks accepted, run, released); no function
    reads it.  Claims about all interleavings are proved by induction on the
    steps; claims about one are a run that the definitions evaluate.

    ** The claims

    - C1, C30, C31: the properties service. Every sequence of well-formed
      requests is answered as by an abstract map with priorities, from an empty
      start, with exact ownership of the objects, whatever becomes of the
      written file; sources never go down; what survives a restart.
      PropsTheorems also shows restore, migration, branded defaults and the
      window in GET.
    - C2, C38: the hash map is a finite map, and iterating over it ends. C5: the
      list.
    - C3, C6, C39: the device database answers as an abstract set of devices,
      keeps cache, index and files consistent, comes back after a restart and is
      replaced by a restore.
    - C7, C10: the storage is a map from keys to texts, and a loss of power
      during a save loses nothing, as long as every key has its main file, which
      the next load restores.
    - C9, C32: devices and JSON. What is written of a storable device is read
      back; whatever is read is well formed.
    - C4, C11, C27, C20, C40: pairing. A device its driver built is in the
      database afterwards and announced; it needs a descriptor, unless its
      driver insists, it is migrated or descriptors are bypassed, and must not
      be blacklisted; reconfiguring keeps what the user changed.
    - C8, C23, C26, C19, C29: resources, metadata, modes, endpoints and URIs of
      the service. C28: the numbers of legacy devices.
    - C12: discovery under every interleaving of clients and threads.
    - C21, C22, C25: the device descriptors (what is parsed and what is found)
      and versions. C24: the drivers.
    - C14, C37: the blocking queue under every interleaving of its threads.
    - C15: the task executor; C16: the thread pool; C33: delayed tasks; C34:
      repeating tasks. Order, ownership of the arguments, and what holds when a
      cancel has returned.
    - C17, C18: the process manager. Its table is the set of its children and of
      the one reaped but not handled yet; a crash loop is bounded.
    - C13: the message queue. Every message is in one place and is reported
      once.
    - C35, C36: the communication watchdog. Every change of a device is reported
      once; exactly the silent devices are found.

    Theorems without a number: the queue (Queue), ordered insertion
    (SortedList), byte and string buffers (FifoBuffer), iterator deletion
    (LinkedListTheorems, HashMapTheorems), string maps and JSON
    (StringHashMapTheorems), validation of values (PropertyTypes), the string
    functions and number parsing (StringUtilsTheorems, StringNumbers), XML
    access (XmlHelper), copies of devices and the restore of a directory with an
    empty file (DeviceTheorems), the number of workers (ThreadPoolTheorems), the
    start of the services (WatchdogTheorems), the common resources of a device
    (DevicePairingTheorems), the readiness of the service
    (DeviceServiceTheorems), release versions and hardware addresses
    (UtilFormats), and further facts on the executor and the timers.

    Some theorems state where the code does not do what it means to: a lost
    wake-up (BlockingQueueTheorems), C31 (empty values are lost in the file), a
    failed restore that empties the store (PropsTheorems), a stranded task
    (ThreadPoolTheorems), a message removed while it is sent
    (MessageQueueTheorems), the wrong process killed, a restart not announced
    and a restart that loses a service whose process was just reaped
    (WatchdogTheorems), requests that crash the properties service
    (PropsTheorems), a save that removes the only backup (DeviceTheorems), C39
    (a failed restore leaves the database closed), refused devices and endpoints
    that break the index (JsonDatabaseTheorems), an interrupted recovery that
    truncates a file (DeviceTheorems), C40 (a removal blocks the next pairing),
    inherited resources that are never found and metadata that is dropped
    (DeviceServiceTheorems), a stop that is lost (Discovery), C28 (a shift by 64
    when no number is free), octal numbers in versions (UtilFormats), and
    checksums and version ranges of descriptors (DeviceDescriptorsTheorems).

    ** Parameters and what is not modelled

    libxml2, cJSON, the encryption of configuration data, regular expressions,
    the event producer, the delegate of the message queue, IPC to other
    processes, fork, the clock, whether a system call on a file fails and what
    becomes of the file of the properties when it is written are parameters or
    arguments.  The functions of properties.c hold PROP_MTX, so
    each is one step; handlers are sequences of such steps, and
    get_races_with_delete shows an interleaving of two of them.  The functions
    of jsonDatabase.c and storage.c hold their mutex throughout.

    Bounds of the claims on devices: a map or list has at most 65535 entries
    and a key at most 65535 bytes (their sizes are 16-bit), JSON is nested at
    most 1000 deep (the limit of cJSON: 995 for a metadata value inside its
    device), and dates are at most 2^53 (they are stored as doubles).  A loss of
    power falls between two system calls, and what a completed call did is on
    the disk; a write may fail after any number of bytes.  Of the device
    database, a change of a profile version and the queries by regular
    expression are modelled but not part of the abstract requests; deleting a
    namespace of the storage (a shell command), directories inside a namespace
    and the printing functions are not modelled.

    printf formatting other than numbers, the choice between the properties
    file and its backup, a task that destroys its own thread pool, the
    single-process debug build, and failing allocations are not modelled. Of
    deviceService.c the start and the end of the service, low power mode,
    restoring a configuration and status reports are not modelled; its
    functions are atomic here, except in Discovery and for the readiness
    callbacks. Not modelled: the drivers and subsystems of the device service
    and the camera and Zigbee protocols, which talk to hardware; libs/ipc and
    the code generated from it; wrappers of OpenSSL, curl and the system; the
    ARP table, IP addresses, base64 and property files of libs/util; the
    parser of the type definitions; the configuration of the watchdog; the
    channels of the comm service; the automation service. *)

From Stdlib Require Export Ascii.
From stdpp Require Export prelude strings numbers gmap list.

#[global] Open Scope Z_scope.

(** ** Machine integers

    A C integer of width [w] is a [Z]; every place where the C code converts
    to, or computes in, a narrower unsigned type applies the wrap-around
    written out here. *)

Definition u8 (z : Z) : Z := z `mod` 256.
Definition u16 (z : Z) : Z := z `mod` 65536.
Definition u32 (z : Z) : Z := z `mod` 4294967296.
Definition u64 (z : Z) : Z := z `mod` 18446744073709551616.

(** Conversion of an unsigned 32-bit value to [int] (two's complement). *)
Definition i32 (z : Z) : Z :=
  let w := u32 z in if decide (w < 2147483648) then w else w - 4294967296.

Lemma u16_small z : 0 ≤ z < 65536 → u16 z = z.
Proof. intros. by apply Z.mod_small. Qed.

Lemma u32_small z : 0 ≤ z < 4294967296 → u32 z = z.
Proof. intros. by apply Z.mod_small. Qed.

Lemma u64_small z : 0 ≤ z < 18446744073709551616 → u64 z = z.
Proof. intros. by apply Z.mod_small. Qed.

Lemma u16_bounds z : 0 ≤ u16 z < 65536.
Proof. by apply Z.mod_pos_bound. Qed.

Lemma u32_bounds z : 0 ≤ u32 z < 4294967296.
Proof. by apply Z.mod_pos_bound. Qed.

Lemma i32_small z : 0 ≤ z < 2147483648 → i32 z = z.
Proof. intros. unfold i32. rewrite u32_small by lia. case_decide; lia. Qed.

(** ** Outcomes of C code

    [Ok a]: the code returns [a].  [Fault]: undefined behaviour (a NULL or
    dangling pointer is dereferenced, a block is accessed out of its bounds).
    [Hang]: a loop over a node store was still running after visiting as many
    nodes as the store has, i.e. it would never end. *)

Inductive outcome (A : Type) : Type :=
  | Ok (a : A)
  | Fault
  | Hang.
Arguments Ok {A} a.
Arguments Fault {A}.
Arguments Hang {A}.

#[global] Instance outcome_ret : MRet outcome := @Ok.
#[global] Instance outcome_bind : MBind outcome := λ A B f o,
  match o with Ok a => f a | Fault => Fault | Hang => Hang end.

#[global] Instance outcome_eq_dec {A} `{EqDecision A} : EqDecision (outcome A).
Proof. solve_decision. Defined.

Lemma bind_Ok {A B} (f : A → outcome B) (o : outcome A) (b : B) :
  (a ← o; f a) = Ok b ↔ ∃ a, o = Ok a ∧ f a = Ok b.
Proof.
  destruct o; simpl; (split; [intros H; try done; by eexists|by intros (? & [= <-] & ?) || by intros (? & ? & ?)]).
Qed.

(** Reading through a pointer that may be NULL or dangling. *)
Definition of_option {A} (o : option A) : outcome A :=
  match o with Some a => Ok a | None => Fault end.

(** A loop body run over the elements of a list, left to right. *)
Fixpoint foldM {A S} (f : A → S → outcome S) (l : list A) (s : S) : outcome S :=
  match l with
  | [] => Ok s
  | x :: t => s' ← f x s; foldM f t s'
  end.

Lemma foldM_app {A S} (f : A → S → outcome S) l1 l2 s :
  foldM f (l1 ++ l2) s = (s' ← foldM f l1 s; foldM f l2 s').
Proof.
  revert s. induction l1 as [|x l1 IH]; intros s; simpl; [done|].
  destruct (f x s); simpl; auto.
Qed.

(** [unbind H] splits a hypothesis [(x ← e; k) = Ok r] into its steps. *)
Ltac unbind H :=
  let a := fresh "r" in
  let E := fresh "E" in
  apply bind_Ok in H as (a & E & H).

(** [obind] performs the next step of a monadic program whose first command
    has returned; [oread] also reads through a valid pointer. *)
Ltac obind := cbn [mbind outcome_bind].
Ltac oread := cbn [of_option mbind outcome_bind].

(** Lengths as C sees them. *)
Abbreviation zlen l := (Z.of_nat (length l)).

(** ** C strings and bytes

    A byte is an [ascii]; a C string is the list of its bytes without the
    terminating NUL. *)

Abbreviation byte := ascii.
Abbreviation cstring := (list ascii).

Definition str (s : string) : cstring := String.list_ascii_of_string s.
Definition byteZ (b : byte) : Z := Z.of_N (N_of_ascii b).

Definition strlen (s : cstring) : Z := zlen s.

Lemma byteZ_bounds b : 0 ≤ byteZ b < 256.
Proof. unfold byteZ. pose proof (N_ascii_bounded b). lia. Qed.

Lemma byteZ_inj b c : byteZ b = byteZ c → b = c.
Proof.
  unfold byteZ. intros H. rewrite <-(ascii_N_embedding b), <-(ascii_N_embedding c).
  f_equal. lia.
Qed.

(** The terminating NUL and the string a block of memory holds: the bytes
    before its first NUL; reading on past the end of the block is a fault. *)
Definition NUL : byte := "000"%char.

Fixpoint c_str (bytes : list byte) : outcome cstring :=
  match bytes with
  | [] => Fault
  | b :: t => if decide (b = NUL) then Ok [] else s ← c_str t; Ok (b :: s)
  end.

Definition no_nul (s : cstring) : Prop := NUL ∉ s.

Lemma c_str_spec s rest : no_nul s → c_str (s ++ NUL :: rest) = Ok s.
Proof.
  induction s as [|b s IH]; intros Hn; simpl.
  - done.
  - unfold no_nul in *. apply not_elem_of_cons in Hn as [Hb Hn].
    rewrite decide_False by done. by rewrite IH.
Qed.

Lemma no_nul_dec (s : cstring) : bool_decide (NUL ∈ s) = false → no_nul s.
Proof. intros H. by apply bool_decide_eq_false in H. Qed.

Lemma no_nul_app s t : no_nul s → no_nul t → no_nul (s ++ t).
Proof. unfold no_nul. intros ? ? [?|?]%elem_of_app; done. Qed.

Lemma no_nul_take n s : no_nul s → no_nul (take n s).
Proof. unfold no_nul. intros Hn Hin. apply Hn. rewrite <-(take_drop n s). apply elem_of_app. by left. Qed.

Lemma no_nul_drop n s : no_nul s → no_nul (drop n s).
Proof. unfold no_nul. intros Hn Hin. apply Hn. rewrite <-(take_drop n s). apply elem_of_app. by right. Qed.

(** ** Blocks of bytes: memcpy and memmove into and out of a block *)

Definition write_bytes (top : list byte) (off : Z) (bs : list byte) : outcome (list byte) :=
  if decide (0 ≤ off ∧ off + zlen bs ≤ zlen top)
  then Ok (take (Z.to_nat off) top ++ bs ++ drop (Z.to_nat off + length bs) top)
  else Fault.

Definition read_bytes (top : list byte) (off n : Z) : outcome (list byte) :=
  if decide (0 ≤ off ∧ 0 ≤ n ∧ off + n ≤ zlen top)
  then Ok (take (Z.to_nat n) (drop (Z.to_nat off) top))
  else Fault.

(** ** Addresses *)

Abbreviation addr := positive.

(** ** What the threads of a system hold: the lists of all entries of a map *)

Section Gather.
Context `{Countable K} {B A : Type} (f : B → list A).
Implicit Types (m : gmap K B) (k : K) (v : B).

Definition gather m : list A := concat (f <$> (map_to_list m).*2).

Lemma gather_empty : gather ∅ = [].
Proof. unfold gather. by rewrite map_to_list_empty. Qed.

Lemma gather_delete m k v : m !! k = Some v → gather m ≡ₚ f v ++ gather (delete k m).
Proof.
  intros Hk. unfold gather. rewrite <-(insert_delete_id m k v Hk) at 1.
  rewrite map_to_list_insert by (by rewrite lookup_delete_eq). done.
Qed.

Lemma gather_insert m k v : gather (<[k := v]> m) ≡ₚ f v ++ gather (delete k m).
Proof. by rewrite (gather_delete _ k v), delete_insert_eq by (by rewrite lookup_insert_eq). Qed.

Lemma gather_new m k v : m !! k = None → gather (<[k := v]> m) ≡ₚ f v ++ gather m.
Proof. intros Hk. by rewrite gather_insert, delete_id. Qed.

(** An entry changes and holds the same, or one thing more or less. *)
Lemma gather_same m k v v' : m !! k = Some v → f v' ≡ₚ f v → gather (<[k := v']> m) ≡ₚ gather m.
Proof. intros Hk Hf. by rewrite gather_insert, Hf, <-gather_delete. Qed.

Lemma gather_more m k v v' x : m !! k = Some v → f v' ≡ₚ x :: f v → gather (<[k := v']> m) ≡ₚ x :: gather m.
Proof. intros Hk Hf. by rewrite gather_insert, Hf, (gather_delete m k v Hk). Qed.

Lemma gather_less m k v v' x : m !! k = Some v → f v ≡ₚ x :: f v' → gather m ≡ₚ x :: gather (<[k := v']> m).
Proof. intros Hk Hf. by rewrite gather_insert, (gather_delete m k v Hk), Hf. Qed.
End Gather.

(** ** Automation

    The database of the development: strings without NUL (closed strings by
    computation) and, declared where they are proved, the frame lemmas of the
    property store. *)

Create HintDb zilker.
#[export] Hint Resolve no_nul_app no_nul_take no_nul_drop : zilker.
#[export] Hint Extern 2 (no_nul _) => (apply no_nul_dec; vm_compute; reflexivity) : zilker.
