(* ===== verification/LinkedListSpec.v ===== *)
(** * Behaviour of icLinkedList against lists of items

    The representation predicate [repr] of LinkedList.v's list objects and one
    lemma per operation that gives its result, the list it leaves and the
    items it releases, in terms of plain Rocq lists.  Clients (sorted list,
    hash map, property type definitions) use the lemmas on [lrepr], which
    hides the node addresses. *)

From S2P Require Import Prelude LinkedList.
Import LinkedList.

Module ListSpec.

(** ** Abstract operations on lists of items *)
Section Abstract.
Context {A : Type}.

(** The list without its first element that satisfies [p]. *)
Fixpoint delete_first (p : A → bool) (xs : list A) : list A :=
  match xs with
  | [] => []
  | x :: t => if p x then t else x :: delete_first p t
  end.

Fixpoint find_first (p : A → bool) (xs : list A) : option A :=
  match xs with
  | [] => None
  | x :: t => if p x then Some x else find_first p t
  end.

(** The callback loop of linkedListIterate on a list. *)
Fixpoint iterate_list {S} (cb : A → S → outcome (bool * S)) (xs : list A) (s : S) : outcome S :=
  match xs with
  | [] => Ok s
  | x :: t => '(go, s) ← cb x s; if go : bool then iterate_list cb t s else Ok s
  end.

Lemma find_first_Some p xs x :
  find_first p xs = Some x → x ∈ xs ∧ p x = true.
Proof.
  induction xs as [|y t IH]; simpl; [done|]. destruct (p y) eqn:E.
  - intros [= ->]. split; [by left|done].
  - intros (? & ?)%IH. split; [by right|done].
Qed.

Lemma find_first_None p xs :
  find_first p xs = None ↔ ∀ x, x ∈ xs → p x = false.
Proof.
  induction xs as [|y t IH]; simpl.
  - split; [intros _ x Hx; by apply not_elem_of_nil in Hx|done].
  - destruct (p y) eqn:E; split; [done| |intros H|intros H].
    + intros H. rewrite (H y) in E; [done|by left].
    + intros x [->|Hx]%elem_of_cons; [done|]. by apply IH.
    + apply IH. intros x Hx. apply H. by right.
Qed.

(** A successful search splits the list at the first match. *)
Lemma find_first_split p xs x :
  find_first p xs = Some x →
  ∃ l1 l2, xs = l1 ++ x :: l2 ∧ p x = true ∧ (∀ y, y ∈ l1 → p y = false) ∧
           delete_first p xs = l1 ++ l2.
Proof.
  induction xs as [|y t IH]; simpl; [done|]. destruct (p y) eqn:E.
  - intros [= ->]. exists [], t. split_and!; [done|done| |done].
    intros z Hz. by apply not_elem_of_nil in Hz.
  - intros (l1 & l2 & -> & Hx & Hl1 & ->)%IH. exists (y :: l1), l2.
    split_and!; [done|done| |done]. intros z [->|Hz]%elem_of_cons; auto.
Qed.

Lemma delete_first_None p xs : find_first p xs = None → delete_first p xs = xs.
Proof.
  induction xs as [|y t IH]; simpl; [done|]. destruct (p y); [done|].
  intros ?. f_equal. auto.
Qed.

Lemma delete_first_ext p q xs :
  (∀ x, x ∈ xs → p x = q x) → delete_first p xs = delete_first q xs.
Proof.
  induction xs as [|x t IH]; simpl; intros H; [done|].
  rewrite (H x) by (by left). destruct (q x); [done|].
  f_equal. apply IH. intros. apply H. by right.
Qed.

Lemma delete_first_length p xs x :
  find_first p xs = Some x → S (length (delete_first p xs)) = length xs.
Proof.
  intros (l1 & l2 & -> & _ & _ & ->)%find_first_split. rewrite !length_app. simpl. lia.
Qed.

Lemma delete_first_sublist p xs : delete_first p xs `sublist_of` xs.
Proof.
  induction xs as [|x t IH]; simpl; [done|].
  destruct (p x); [by apply sublist_cons|by apply sublist_skip].
Qed.

End Abstract.

Section Seg.
Context {A : Type}.
Implicit Types (ns : list (addr * option A)) (q : option addr) (m : gmap addr (listNode A)).

(** ** Segments of nodes: their store, head and last address *)

Definition hd_addr ns q : option addr :=
  match ns with [] => q | (a, _) :: _ => Some a end.

Definition last_addr ns q : option addr :=
  match last ns with Some (a, _) => Some a | None => q end.

Fixpoint seg ns q : gmap addr (listNode A) :=
  match ns with
  | [] => ∅
  | (a, x) :: t => <[a := mkNode x (hd_addr t q)]> (seg t q)
  end.

Lemma hd_addr_app n1 n2 q : hd_addr (n1 ++ n2) q = hd_addr n1 (hd_addr n2 q).
Proof. by destruct n1 as [|[]]. Qed.

Lemma last_addr_snoc n1 a x q : last_addr (n1 ++ [(a, x)]) q = Some a.
Proof. unfold last_addr. by rewrite last_snoc. Qed.

Lemma last_addr_cons a x t q : last_addr ((a, x) :: t) q = last_addr t (Some a).
Proof.
  unfold last_addr. destruct t as [|[b y] t]; [done|].
  rewrite last_cons. by destruct (last ((b, y) :: t)) as [[]|] eqn:E.
Qed.

Lemma seg_None ns q a : a ∉ ns.*1 → seg ns q !! a = None.
Proof.
  induction ns as [|[b x] t IH]; simpl; intros H; [apply lookup_empty|].
  rewrite not_elem_of_cons in H. destruct H. rewrite lookup_insert_ne by done. auto.
Qed.

Lemma seg_dom ns q : dom (seg ns q) = list_to_set ns.*1.
Proof.
  induction ns as [|[b x] t IH]; simpl; [apply dom_empty_L|].
  by rewrite dom_insert_L, IH.
Qed.

Lemma seg_size ns q : NoDup ns.*1 → size (seg ns q) = length ns.
Proof.
  induction ns as [|[b x] t IH]; simpl; intros H; [apply map_size_empty|].
  apply NoDup_cons in H as [? ?].
  rewrite map_size_insert_None by (by apply seg_None). by rewrite IH.
Qed.

Lemma seg_app n1 n2 q :
  NoDup (n1 ++ n2).*1 → seg (n1 ++ n2) q = seg n1 (hd_addr n2 q) ∪ seg n2 q.
Proof.
  induction n1 as [|[b x] t IH]; simpl; intros H; [by rewrite map_empty_union|].
  apply NoDup_cons in H as [? ?].
  by rewrite IH, hd_addr_app, insert_union_l.
Qed.

(** Redirecting the end of a segment. *)
Lemma seg_set_next n1 a x q q' :
  NoDup (n1 ++ [(a, x)]).*1 →
  <[a := mkNode x q']> (seg (n1 ++ [(a, x)]) q) = seg (n1 ++ [(a, x)]) q'.
Proof.
  induction n1 as [|[b y] t IH]; simpl; intros H; [apply insert_insert_eq|].
  apply NoDup_cons in H as [Hb ?].
  rewrite insert_insert_ne.
  - rewrite IH by done. by rewrite !hd_addr_app.
  - intros ->. apply Hb. rewrite fmap_app. apply elem_of_app. right. by left.
Qed.

Lemma seg_lookup n1 a x n2 q :
  NoDup (n1 ++ (a, x) :: n2).*1 →
  seg (n1 ++ (a, x) :: n2) q !! a = Some (mkNode x (hd_addr n2 q)).
Proof.
  induction n1 as [|[b y] t IH]; simpl; intros H; [apply lookup_insert_eq|].
  apply NoDup_cons in H as [Hb ?].
  rewrite lookup_insert_ne; [auto|]. intros ->. apply Hb.
  rewrite fmap_app. apply elem_of_app. right. by left.
Qed.

(** Unlinking a node that is not the first one. *)
Lemma seg_unlink n1 b y a x n2 q :
  NoDup (n1 ++ (b, y) :: (a, x) :: n2).*1 →
  delete a (<[b := mkNode y (hd_addr n2 q)]> (seg (n1 ++ (b, y) :: (a, x) :: n2) q))
  = seg (n1 ++ (b, y) :: n2) q.
Proof.
  induction n1 as [|[c z] t IH]; simpl; intros H.
  - apply NoDup_cons in H as [Hb H]. apply NoDup_cons in H as [Ha H].
    apply not_elem_of_cons in Hb as [Hba Hb].
    rewrite insert_insert_eq, (insert_insert_ne _ b a) by done.
    rewrite delete_insert_id; [done|].
    rewrite lookup_insert_ne by done. by apply seg_None.
  - apply NoDup_cons in H as [Hc H].
    rewrite fmap_app in Hc. simpl in Hc.
    assert (c ≠ b ∧ c ≠ a) as [? ?] by set_solver.
    rewrite (insert_insert_ne _ b c) by done.
    rewrite delete_insert_ne by done. rewrite IH by done.
    by rewrite !hd_addr_app.
Qed.

Lemma seg_delete_first a x n2 q :
  NoDup ((a, x) :: n2).*1 → delete a (seg ((a, x) :: n2) q) = seg n2 q.
Proof.
  simpl. intros [Ha ?]%NoDup_cons. rewrite delete_insert_id; [done|]. by apply seg_None.
Qed.

(** Linking a fresh node at the end. *)
Lemma seg_snoc n1 b y a x :
  NoDup ((n1 ++ [(b, y)]) ++ [(a, x)]).*1 →
  <[b := mkNode y (Some a)]> (<[a := mkNode x None]> (seg (n1 ++ [(b, y)]) None))
  = seg ((n1 ++ [(b, y)]) ++ [(a, x)]) None.
Proof.
  intros H. rewrite (seg_app (n1 ++ [(b, y)])) by done. simpl.
  rewrite fmap_app in H. apply NoDup_app in H as (H1 & H2 & _). simpl in H2.
  assert (Ha : a ∉ (n1 ++ [(b, y)]).*1) by (intros ?; eapply H2; [done|by left]).
  assert (a ≠ b).
  { intros ->. apply Ha. rewrite fmap_app. apply elem_of_app. right. by left. }
  rewrite insert_insert_ne by done. rewrite seg_set_next by done.
  rewrite <-insert_union_r by (by apply seg_None). by rewrite map_union_empty.
Qed.

(** Following a segment inside a larger store. *)
Lemma seg_sub_head a x t q m :
  NoDup ((a, x) :: t).*1 → seg ((a, x) :: t) q ⊆ m →
  m !! a = Some (mkNode x (hd_addr t q)) ∧ seg t q ⊆ m ∧ NoDup t.*1.
Proof.
  simpl. intros [Ha ?]%NoDup_cons Hsub. split_and!; [|etrans; [|exact Hsub]|done].
  - eapply lookup_weaken; [apply lookup_insert_eq|done].
  - apply insert_subseteq. by apply seg_None.
Qed.

Lemma fresh_seg ns q : fresh (dom (seg ns q)) ∉ ns.*1.
Proof.
  rewrite seg_dom. intros H. apply (is_fresh (list_to_set (C := gset addr) ns.*1)).
  by apply elem_of_list_to_set.
Qed.

End Seg.

(** ** The representation predicate *)
Section Repr.
Context {A : Type}.
Implicit Types (l : icLinkedList A) (ns : list (addr * option A)) (xs : list (option A)).

Record repr l ns : Prop := {
  r_first : ll_first l = hd_addr ns None;
  r_nodes : ll_nodes l = seg ns None;
  r_nodup : NoDup ns.*1;
  r_size : ll_size l = zlen ns;
  r_max : zlen ns ≤ 65535
}.

(** [l] holds the items [xs], in order. *)
Definition lrepr l xs : Prop := ∃ ns, repr l ns ∧ xs = ns.*2.

Lemma repr_fuel l ns : repr l ns → size (ll_nodes l) = length ns.
Proof. intros [? -> ? ? ?]. by apply seg_size. Qed.

Lemma lrepr_count l xs : lrepr l xs → ll_size l = zlen xs ∧ zlen xs ≤ 65535.
Proof. intros (ns & Hr & ->). rewrite length_fmap. by destruct Hr. Qed.

Lemma lrepr_create : lrepr linkedListCreate [].
Proof. exists []. split; [|done]. split; try done. constructor. Qed.

(** *** Append and prepend *)

Lemma find_tail_seg fuel m ns t :
  NoDup ns.*1 → seg ns None ⊆ m → (length ns ≤ fuel)%nat →
  find_tail (A := A) fuel m (hd_addr ns None) t = Ok (last_addr ns t).
Proof.
  revert fuel t. induction ns as [|[a x] ns IH]; intros fuel t Hnd Hsub Hf; [by destruct fuel|].
  destruct fuel as [|fuel]; simpl in Hf; [lia|].
  apply seg_sub_head in Hsub as (Ha & Hsub & Hnd'); [|done].
  simpl. rewrite Ha. simpl. rewrite IH by (done || lia). by rewrite last_addr_cons.
Qed.

(** What linkedListAppend computes on any chain of nodes, whatever the size
    field says. *)
Lemma append_nodes l ns x :
  ll_first l = hd_addr ns None → ll_nodes l = seg ns None → NoDup ns.*1 →
  ∃ a, (a ∉ ns.*1) ∧
    linkedListAppend (Some l) (Some x) = Ok (true, Some (mkList
      (match ns with [] => 1 | _ => u16 (ll_size l + 1) end)
      (hd_addr (ns ++ [(a, Some x)]) None) (ll_cloned l) (seg (ns ++ [(a, Some x)]) None))).
Proof.
  intros Hf Hn Hnd. exists (fresh (dom (seg ns None))). split; [apply fresh_seg|].
  pose proof (fresh_seg ns None) as Hfr. revert Hfr.
  unfold linkedListAppend. rewrite Hn, Hf, seg_size by done.
  rewrite find_tail_seg by done. simpl.
  set (a := fresh _). intros Hfr.
  unfold set_item. rewrite lookup_insert_eq. simpl. rewrite insert_insert_eq.
  destruct ns as [|[b y] ns _] using rev_ind; [done|].
  rewrite last_addr_snoc. unfold set_next.
  assert (Hba : a ≠ b).
  { intros ->. apply Hfr. rewrite fmap_app. apply elem_of_app. right. by left. }
  rewrite lookup_insert_ne by done. rewrite seg_lookup by done. simpl.
  rewrite seg_snoc.
  - by destruct ns as [|[] ?].
  - rewrite fmap_app. apply NoDup_app. split_and!; [done| |apply NoDup_singleton].
    intros z Hz ->%list_elem_of_singleton. done.
Qed.

Lemma append_repr l ns x :
  repr l ns → zlen ns < 65535 →
  ∃ a l', linkedListAppend (Some l) (Some x) = Ok (true, Some l') ∧
    repr l' (ns ++ [(a, Some x)]) ∧ ll_cloned l' = ll_cloned l.
Proof.
  intros [Hf Hn Hnd Hs Hm] Hlt.
  destruct (append_nodes l ns x) as (a & Ha & ->); [done..|].
  eexists a, _. split; [done|]. split; [|done]. split; simpl; try done.
  - rewrite fmap_app. apply NoDup_app. split_and!; [done| |apply NoDup_singleton].
    by intros z Hz ->%list_elem_of_singleton.
  - rewrite length_app. simpl. rewrite Hs. destruct ns; [done|]. simpl in *.
    rewrite u16_small; lia.
  - rewrite length_app. simpl. lia.
Qed.

Lemma lrepr_append l xs x :
  lrepr l xs → zlen xs < 65535 →
  ∃ l', linkedListAppend (Some l) (Some x) = Ok (true, Some l') ∧
    lrepr l' (xs ++ [Some x]) ∧ ll_cloned l' = ll_cloned l.
Proof.
  intros (ns & Hr & ->) Hlt. rewrite length_fmap in Hlt.
  destruct (append_repr l ns x Hr Hlt) as (a & l' & He & Hr' & Hc).
  exists l'. split; [done|]. split; [|done].
  exists (ns ++ [(a, Some x)]). by rewrite fmap_app.
Qed.

Lemma lrepr_prepend l xs x :
  lrepr l xs → zlen xs < 65535 →
  ∃ l', linkedListPrepend (Some l) (Some x) = Ok (true, Some l') ∧
    lrepr l' (Some x :: xs) ∧ ll_cloned l' = ll_cloned l.
Proof.
  intros (ns & [Hf Hn Hnd Hs Hm] & ->) Hlt. rewrite length_fmap in Hlt.
  unfold linkedListPrepend. simpl. rewrite Hn.
  pose proof (fresh_seg ns None) as Hfr. set (a := fresh _) in *.
  unfold set_item, set_next. rewrite lookup_insert_eq. simpl.
  rewrite insert_insert_eq, lookup_insert_eq. simpl. rewrite insert_insert_eq, Hf.
  eexists. split; [done|]. split; [|done]. exists ((a, Some x) :: ns). split; [|done].
  split; simpl; try done.
  - by apply NoDup_cons.
  - rewrite Hs, u16_small; lia.
  - lia.
Qed.

(** *** Search *)

Lemma find_loop_seg fuel m ns search p :
  NoDup ns.*1 → seg ns None ⊆ m → (length ns ≤ fuel)%nat →
  (∀ x, x ∈ ns.*2 → search x = Ok (p x)) →
  find_loop (A := A) fuel m (hd_addr ns None) search = Ok (mjoin (find_first p ns.*2)).
Proof.
  revert fuel. induction ns as [|[a x] ns IH]; intros fuel Hnd Hsub Hf Hp; [by destruct fuel|].
  destruct fuel as [|fuel]; simpl in Hf; [lia|].
  apply seg_sub_head in Hsub as (Ha & Hsub & Hnd'); [|done].
  simpl. rewrite Ha. simpl. rewrite Hp by (by left). simpl. destruct (p x); [done|].
  apply IH; [done|done|lia|]. intros. apply Hp. by right.
Qed.

Lemma lrepr_find {S} l xs (v : S) f p :
  lrepr l xs → (∀ x, x ∈ xs → f v x = Ok (p x)) →
  linkedListFind (Some l) (Some v) (Some f) = Ok (mjoin (find_first p xs)).
Proof.
  intros (ns & Hr & ->) Hp. unfold linkedListFind.
  rewrite (repr_fuel _ _ Hr). destruct Hr as [-> -> ? ? ?].
  by apply find_loop_seg.
Qed.

(** *** Unlinking a node: what linkedListDelete and linkedListRemove share *)

Lemma repr_unlink l n1 a x n2 :
  repr l (n1 ++ (a, x) :: n2) →
  ('(fst, m) ← match last_addr n1 None with
               | None => Ok (hd_addr n2 None, ll_nodes l)
               | Some q => m ← set_next (ll_nodes l) q (hd_addr n2 None); Ok (ll_first l, m)
               end;
   let sz := if decide (0 < ll_size l) then ll_size l - 1 else ll_size l in
   m ← free_node m a;
   Ok (mkList sz fst (ll_cloned l) m))
  = Ok (mkList (zlen (n1 ++ n2)) (hd_addr (n1 ++ n2) None) (ll_cloned l) (seg (n1 ++ n2) None)).
Proof.
  intros [Hf Hn Hnd Hs Hm].
  assert (Hsz : (if decide (0 < ll_size l) then ll_size l - 1 else ll_size l) = zlen (n1 ++ n2)).
  { rewrite Hs, !length_app. simpl. case_decide; lia. }
  rewrite Hsz, Hn.
  destruct n1 as [|[b y] n1 _] using rev_ind.
  - simpl in *. unfold free_node. rewrite lookup_insert_eq. simpl.
    pose proof (seg_delete_first a x n2 None Hnd) as E. simpl in E. by rewrite E.
  - rewrite last_addr_snoc. unfold set_next, free_node.
    rewrite <-!app_assoc in *. simpl in *. rewrite seg_lookup by done. simpl.
    assert (a ≠ b).
    { rewrite fmap_app in Hnd. simpl in Hnd. apply NoDup_app in Hnd as (_ & _ & Hnd).
      apply NoDup_cons in Hnd as [Hnd _]. intros ->. apply Hnd. by left. }
    rewrite lookup_insert_ne by done.
    replace (n1 ++ (b, y) :: (a, x) :: n2) with ((n1 ++ [(b, y)]) ++ (a, x) :: n2)
      by by rewrite <-app_assoc.
    rewrite seg_lookup by by rewrite <-app_assoc. simpl. rewrite <-app_assoc. simpl.
    rewrite seg_unlink by done. by rewrite Hf, !hd_addr_app.
Qed.

Lemma repr_without l n1 a x n2 b :
  repr l (n1 ++ (a, x) :: n2) →
  repr (mkList (zlen (n1 ++ n2)) (hd_addr (n1 ++ n2) None) b (seg (n1 ++ n2) None)) (n1 ++ n2).
Proof.
  intros [_ _ Hnd _ Hm]. split; simpl; try done.
  - rewrite fmap_app in *. simpl in Hnd. eapply sublist_NoDup; [exact Hnd|].
    apply sublist_app; [done|]. by apply sublist_cons.
  - rewrite length_app in *. simpl in Hm. lia.
Qed.

(** *** Delete *)

Lemma delete_loop_seg fuel l n1 n2 search p :
  repr l (n1 ++ n2) → (length n2 ≤ fuel)%nat →
  (∀ x, x ∈ n2.*2 → search x = Ok (p x)) →
  match find_first (p ∘ snd) n2 with
  | None => delete_loop fuel l (hd_addr n2 None) (last_addr n1 None) search = Ok (false, [], l)
  | Some (a, x) =>
      let ns' := n1 ++ delete_first (p ∘ snd) n2 in
      delete_loop fuel l (hd_addr n2 None) (last_addr n1 None) search
      = Ok (true, [x], mkList (zlen ns') (hd_addr ns' None) (ll_cloned l) (seg ns' None))
  end.
Proof.
  revert fuel n1. induction n2 as [|[a x] n2 IH]; intros fuel n1 Hr Hf Hp; [by destruct fuel|].
  destruct fuel as [|fuel]; simpl in Hf; [lia|].
  assert (Ha : ll_nodes l !! a = Some (mkNode x (hd_addr n2 None))).
  { destruct Hr as [_ -> ? _ _]. by apply seg_lookup. }
  simpl. rewrite Ha. simpl. rewrite Hp by (by left). simpl. destruct (p x) eqn:Hx.
  - pose proof (repr_unlink _ _ _ _ _ Hr) as Hu.
    destruct (last_addr n1 None) as [q|]; simpl in *.
    + destruct (set_next _ _ _) as [m| |]; simpl in *; [|done..].
      destruct (free_node _ _); simpl in *; congruence.
    + destruct (free_node _ _); simpl in *; congruence.
  - specialize (IH fuel (n1 ++ [(a, x)])).
    rewrite <-app_assoc, last_addr_snoc in IH. simpl in IH.
    assert (Hp' : ∀ x0, x0 ∈ n2.*2 → search x0 = Ok (p x0)) by (intros; apply Hp; by right).
    specialize (IH Hr ltac:(lia) Hp'). unfold compose in *.
    destruct (find_first (λ x0, p x0.2) n2) as [[b y]|]; [|done].
    by rewrite <-app_assoc in IH.
Qed.

Lemma find_first_snd p (ns : list (addr * option A)) :
  find_first p ns.*2 = snd <$> find_first (p ∘ snd) ns.
Proof. induction ns as [|[a x] ns IH]; simpl; [done|]. by destruct (p x). Qed.

Lemma delete_first_snd p (ns : list (addr * option A)) :
  (delete_first (p ∘ snd) ns).*2 = delete_first p ns.*2.
Proof.
  induction ns as [|[a x] ns IH]; simpl; [done|].
  unfold compose. simpl. destruct (p x); [done|]. simpl. f_equal. done.
Qed.

Lemma lrepr_delete {S} l xs (v : S) f p :
  lrepr l xs → (∀ x, x ∈ xs → f v x = Ok (p x)) →
  match find_first p xs with
  | None => linkedListDelete (Some l) (Some v) (Some f) = Ok (false, [], Some l)
  | Some x => ∃ l', linkedListDelete (Some l) (Some v) (Some f) = Ok (true, [x], Some l') ∧
      lrepr l' (delete_first p xs) ∧ ll_cloned l' = ll_cloned l
  end.
Proof.
  intros (ns & Hr & ->) Hp. unfold linkedListDelete. rewrite (repr_fuel _ _ Hr).
  pose proof (delete_loop_seg (length ns) l [] ns (f v) p Hr (le_n _) Hp) as H.
  rewrite (r_first _ _ Hr). rewrite find_first_snd.
  change (last_addr [] None) with (@None addr) in H.
  destruct (find_first (p ∘ snd) ns) as [[a x]|] eqn:E; simpl in *; rewrite H; [|done].
  eexists. split; [done|]. split; [|done].
  exists (delete_first (p ∘ snd) ns). rewrite delete_first_snd. split; [|done].
  apply find_first_split in E as (n1 & n2 & -> & _ & _ & Hd). rewrite Hd.
  by eapply repr_without.
Qed.

(** The same, node by node: the nodes behind the deleted one stay where they
    are. *)
Lemma repr_delete {S} l n1 a x n2 (v : S) f p :
  repr l (n1 ++ (a, x) :: n2) → (∀ y, y ∈ (n1 ++ (a, x) :: n2).*2 → f v y = Ok (p y)) →
  (∀ y, y ∈ n1.*2 → p y = false) → p x = true →
  ∃ l', linkedListDelete (Some l) (Some v) (Some f) = Ok (true, [x], Some l') ∧
    repr l' (n1 ++ n2) ∧ ll_cloned l' = ll_cloned l.
Proof.
  intros Hr Hp Hn Hx. unfold linkedListDelete. rewrite (repr_fuel _ _ Hr), (r_first _ _ Hr).
  pose proof (delete_loop_seg _ l [] _ (f v) p Hr (le_n _) Hp) as H.
  assert (find_first (p ∘ snd) (n1 ++ (a, x) :: n2) = Some (a, x) ∧
          delete_first (p ∘ snd) (n1 ++ (a, x) :: n2) = n1 ++ n2) as [Hff Hdf].
  { clear Hr Hp H. induction n1 as [|[c y] n1 IH]; simpl; unfold compose in *; simpl; [by rewrite Hx|].
    rewrite Hn by (by left). destruct IH as [-> ->]; [|done]. intros z Hz. apply Hn. by right. }
  rewrite Hff, Hdf in H. simpl in H. change (last_addr [] None) with (@None addr) in H.
  rewrite H. eexists. split; [done|]. split; [|done]. by eapply repr_without.
Qed.

(** *** Removal by position *)

Lemma remove_walk_seg fuel m n1 n2 index offset :
  NoDup (n1 ++ n2).*1 → seg (n1 ++ n2) None ⊆ m → (length n2 ≤ fuel)%nat →
  index = zlen n1 → index ≤ offset < zlen (n1 ++ n2) → zlen (n1 ++ n2) ≤ 65535 →
  ∃ k a x n3, n2 = k ++ (a, x) :: n3 ∧ offset = zlen (n1 ++ k) ∧
    remove_walk (A := A) fuel m (hd_addr n2 None) (last_addr n1 None) index offset
    = Ok (Some a, last_addr (n1 ++ k) None).
Proof.
  revert fuel n1 index. induction n2 as [|[a x] n2 IH]; intros fuel n1 index Hnd Hsub Hf Hi Ho Hm.
  { rewrite app_nil_r in Ho. lia. }
  destruct fuel as [|fuel]; simpl in Hf; [lia|]. simpl.
  assert (Hl : m !! a = Some (mkNode x (hd_addr n2 None))).
  { eapply lookup_weaken; [by apply seg_lookup|done]. }
  case_decide as Hd.
  - exists [], a, x, n2. rewrite app_nil_r. split_and!; [done|lia|done].
  - rewrite length_app in Ho, Hm. simpl in Ho, Hm. rewrite Hl. simpl.
    destruct (IH fuel (n1 ++ [(a, x)]) (u32 (index + 1))) as (k & b & y & n3 & -> & -> & Hw).
    + by rewrite <-app_assoc.
    + by rewrite <-app_assoc.
    + lia.
    + rewrite length_app, u32_small by lia. simpl. lia.
    + rewrite !length_app, u32_small by lia. simpl. lia.
    + rewrite !length_app. simpl. lia.
    + exists ((a, x) :: k), b, y, n3. rewrite <-app_assoc in *. split_and!; [done|done|].
      by rewrite last_addr_snoc in Hw.
Qed.

(** linkedListRemove takes the element at [offset] out of the list. *)
Lemma lrepr_remove l xs offset :
  lrepr l xs → 0 ≤ offset →
  if decide (offset < zlen xs) then
    ∃ x l', xs !! Z.to_nat offset = Some x ∧
      linkedListRemove (Some l) offset = Ok (x, Some l') ∧
      lrepr l' (delete (Z.to_nat offset) xs) ∧ ll_cloned l' = ll_cloned l
  else linkedListRemove (Some l) offset = Ok (None, Some l).
Proof.
  intros (ns & Hr & ->) H0. rewrite length_fmap. unfold linkedListRemove.
  rewrite (r_size _ _ Hr). case_decide as Hd; [|done].
  rewrite (repr_fuel _ _ Hr), (r_first _ _ Hr).
  destruct (remove_walk_seg (length ns) (ll_nodes l) [] ns 0 offset)
    as (k & a & x & n3 & -> & -> & Hw).
  { by destruct Hr. }
  { by destruct Hr as [_ -> _ _ _]. }
  { lia. } { done. } { simpl. lia. } { simpl. by destruct Hr. }
  simpl in Hw |- *. change (last_addr [] None) with (@None addr) in Hw. rewrite Hw. simpl.
  assert (Ha : ll_nodes l !! a = Some (mkNode x (hd_addr n3 None))).
  { destruct Hr as [_ -> ? _ _]. by apply seg_lookup. }
  rewrite Ha. simpl.
  pose proof (repr_unlink _ _ _ _ _ Hr) as Hu. rewrite (r_size _ _ Hr), (r_first _ _ Hr) in Hu.
  exists x, (mkList (zlen (k ++ n3)) (hd_addr (k ++ n3) None) (ll_cloned l) (seg (k ++ n3) None)).
  assert (Hlen : Z.to_nat (zlen k) = length k.*2) by (rewrite length_fmap; lia).
  split_and!.
  - rewrite Hlen, fmap_app. simpl. by rewrite list_lookup_middle.
  - destruct (last_addr k None) as [q|]; simpl in *.
    + destruct (set_next _ _ _) as [m| |]; simpl in *; [|done..].
      destruct (free_node _ _); simpl in *; congruence.
    + destruct (free_node _ _); simpl in *; congruence.
  - exists (k ++ n3). split; [by eapply repr_without|].
    rewrite Hlen, !fmap_app. simpl. by rewrite delete_middle.
  - done.
Qed.

(** *** Destroy and clear *)

(** The items a release loop hands to the helper or to [free]. *)
Definition released (cloned helper : bool) xs : list (option A) :=
  if cloned then [] else if helper then xs else filter (λ x, x ≠ None) xs.

Lemma release_loop_seg fuel ns cloned helper :
  NoDup ns.*1 → (length ns ≤ fuel)%nat →
  release_loop (A := A) fuel cloned helper (seg ns None) (hd_addr ns None)
  = Ok (released cloned helper ns.*2, ∅).
Proof.
  revert fuel. induction ns as [|[a x] ns IH]; intros fuel Hnd Hf.
  { destruct fuel; simpl; unfold released; by destruct cloned, helper. }
  destruct fuel as [|fuel]; simpl in Hf; [lia|].
  pose proof (seg_delete_first a x ns None Hnd) as Hdel. simpl in *.
  unfold free_node. rewrite !lookup_insert_eq. simpl. rewrite Hdel.
  apply NoDup_cons in Hnd as [_ Hnd]. rewrite IH by (done || lia). simpl.
  unfold released. destruct cloned, helper; [done..|].
  rewrite filter_cons. by destruct x.
Qed.

Lemma lrepr_destroy l xs helper :
  lrepr l xs →
  linkedListDestroy (Some l) helper = Ok (released (ll_cloned l) helper xs, ∅).
Proof.
  intros (ns & Hr & ->). unfold linkedListDestroy. rewrite (repr_fuel _ _ Hr).
  destruct Hr as [-> -> ? _ _]. by apply release_loop_seg.
Qed.

Lemma lrepr_clear l xs helper :
  lrepr l xs →
  ∃ l', linkedListClear (Some l) helper = Ok (released (ll_cloned l) helper xs, Some l') ∧
    lrepr l' [] ∧ (xs ≠ [] → ll_cloned l' = false).
Proof.
  intros (ns & Hr & ->). unfold linkedListClear. rewrite (r_size _ _ Hr).
  case_decide as Hd.
  - destruct ns; [|simpl in Hd; lia]. exists l. split_and!; [|by exists []|done].
    simpl. unfold released. by destruct (ll_cloned l), helper.
  - rewrite (repr_fuel _ _ Hr). destruct Hr as [-> -> ? _ _].
    rewrite release_loop_seg by done. simpl. eexists. split_and!; [done| |done].
    exists []. split; [|done]. split; try done. constructor.
Qed.

(** *** Iteration with a callback, and access by position *)

Lemma iterate_loop_seg {S} fuel m ns (cb : option A → S → outcome (bool * S)) s :
  NoDup ns.*1 → seg ns None ⊆ m → (length ns ≤ fuel)%nat →
  iterate_loop fuel m (hd_addr ns None) cb s = iterate_list cb ns.*2 s.
Proof.
  revert fuel s. induction ns as [|[a x] ns IH]; intros fuel s Hnd Hsub Hf; [by destruct fuel|].
  destruct fuel as [|fuel]; simpl in Hf; [lia|].
  apply seg_sub_head in Hsub as (Ha & Hsub & Hnd'); [|done].
  simpl. rewrite Ha. simpl. destruct (cb x s) as [[go s']| |]; simpl; [|done..].
  destruct go; [|done]. apply IH; [done|done|lia].
Qed.

Lemma lrepr_iterate {S} l xs (cb : option A → S → outcome (bool * S)) s :
  lrepr l xs → linkedListIterate (Some l) cb s = iterate_list cb xs s.
Proof.
  intros (ns & Hr & ->). unfold linkedListIterate. rewrite (r_size _ _ Hr).
  case_decide as Hd.
  - by destruct ns; [|simpl in Hd; lia].
  - rewrite (repr_fuel _ _ Hr). destruct Hr as [-> -> ? _ _]. by apply iterate_loop_seg.
Qed.

Lemma element_loop_seg fuel m ns count offset :
  NoDup ns.*1 → seg ns None ⊆ m → (length ns ≤ fuel)%nat →
  0 ≤ count ≤ offset → offset < count + zlen ns → count + zlen ns ≤ 65535 →
  element_loop (A := A) fuel m (hd_addr ns None) count offset
  = Ok (mjoin (ns.*2 !! Z.to_nat (offset - count))).
Proof.
  revert fuel count. induction ns as [|[a x] ns IH]; intros fuel count Hnd Hsub Hf Hc Ho Hm.
  { simpl in Ho. lia. }
  destruct fuel as [|fuel]; simpl in Hf, Ho, Hm; [lia|].
  apply seg_sub_head in Hsub as (Ha & Hsub & Hnd'); [|done].
  simpl. rewrite Ha. simpl. case_decide as Hd.
  - by replace (Z.to_nat (offset - count)) with 0%nat by lia.
  - rewrite u32_small, IH by (done || lia).
    by replace (Z.to_nat (offset - count)) with (S (Z.to_nat (offset - (count + 1)))) by lia.
Qed.

Lemma lrepr_getElementAt l xs offset :
  lrepr l xs → 0 ≤ offset →
  linkedListGetElementAt (Some l) offset = Ok (mjoin (xs !! Z.to_nat offset)).
Proof.
  intros (ns & Hr & ->) H0. unfold linkedListGetElementAt. rewrite (r_size _ _ Hr).
  case_decide as Hd.
  - rewrite lookup_ge_None_2; [done|]. rewrite length_fmap. lia.
  - rewrite (repr_fuel _ _ Hr). destruct Hr as [-> -> ? _ ?].
    rewrite element_loop_seg by (done || lia). by rewrite Z.sub_0_r.
Qed.

(** *** Clones *)

(** The items a clone receives: NULL results of the clone function are
    dropped, because linkedListAppend refuses them. *)
Fixpoint clone_items {S} (f : option A → S → outcome (option A * S)) xs (s : S)
    : outcome (list (option A) * S) :=
  match xs with
  | [] => Ok ([], s)
  | x :: t =>
      '(y, s) ← f x s;
      '(ys, s) ← clone_items f t s;
      Ok (match y with Some _ => y :: ys | None => ys end, s)
  end.

Lemma clone_loop_seg {S} (f : option A → S → outcome (option A * S)) fuel m ns l acc s ys s' :
  NoDup ns.*1 → seg ns None ⊆ m → (length ns ≤ fuel)%nat →
  lrepr l acc → zlen acc + zlen ns ≤ 65535 →
  clone_items f ns.*2 s = Ok (ys, s') →
  ∃ l', clone_loop f fuel m (hd_addr ns None) (Some l) s = Ok (Some l', s') ∧
    lrepr l' (acc ++ ys) ∧ ll_cloned l' = ll_cloned l.
Proof.
  revert fuel l acc s ys. induction ns as [|[a x] ns IH];
    intros fuel l acc s ys Hnd Hsub Hf Hl Hm Hc.
  { simpl in Hc. simplify_eq. exists l. rewrite app_nil_r. by destruct fuel. }
  destruct fuel as [|fuel]; simpl in Hf, Hm; [lia|].
  apply seg_sub_head in Hsub as (Ha & Hsub & Hnd'); [|done].
  simpl in Hc |- *. rewrite Ha. simpl.
  destruct (f x s) as [[y s1]| |]; simpl in *; [|done..].
  destruct (clone_items f _ s1) as [[zs s2]| |] eqn:Ec; simpl in *; [|done..]. simplify_eq.
  destruct y as [y|].
  - destruct (lrepr_append l acc y) as (l1 & -> & Hl1 & Hc1); [done|lia|]. simpl.
    destruct (IH fuel l1 (acc ++ [Some y]) s1 zs) as (l' & -> & Hl' & Hc');
      [done|done|lia|done|rewrite length_app; simpl; lia|done|].
    exists l'. rewrite <-app_assoc in Hl'. split_and!; [done|done|congruence].
  - simpl. destruct (IH fuel l acc s1 zs) as (l' & -> & Hl' & Hc');
      [done|done|lia|done|lia|done|]. by exists l'.
Qed.

Lemma clone_items_id (xs : list (option A)) (s : unit) :
  clone_items (λ x s, Ok (x, s)) xs s = Ok (filter (λ x, x ≠ None) xs, s).
Proof.
  induction xs as [|x xs IH]; simpl; [done|]. rewrite IH. simpl.
  rewrite filter_cons. by destruct x.
Qed.

Lemma lrepr_clone l xs :
  lrepr l xs →
  ∃ l', linkedListClone (Some l) = Ok (Some l') ∧
    lrepr l' (filter (λ x, x ≠ None) xs) ∧ ll_cloned l' = true.
Proof.
  intros (ns & Hr & ->). unfold linkedListClone.
  rewrite (repr_fuel _ _ Hr), (r_first _ _ Hr), (r_nodes _ _ Hr).
  destruct (clone_loop_seg (λ x s, Ok (x, s)) (length ns) (seg ns None) ns
    (mkList 0 None true ∅) [] tt (filter (λ x, x ≠ None) ns.*2) tt)
    as (l' & -> & Hl' & Hc'); try (by destruct Hr); [|apply clone_items_id|by exists l'].
  exists []. split; [|done]. split; try done. constructor.
Qed.

Lemma lrepr_deepClone {S} (f : option A → S → outcome (option A * S)) l xs s ys s' :
  lrepr l xs → clone_items f xs s = Ok (ys, s') →
  ∃ l', linkedListDeepClone (Some l) f s = Ok (Some l', s') ∧
    lrepr l' ys ∧ ll_cloned l' = false.
Proof.
  intros (ns & Hr & ->) Hc. unfold linkedListDeepClone. simpl.
  rewrite (repr_fuel _ _ Hr), (r_first _ _ Hr), (r_nodes _ _ Hr).
  destruct (clone_loop_seg f (length ns) (seg ns None) ns linkedListCreate [] s ys s')
    as (l' & -> & Hl' & Hc'); try (by destruct Hr); [apply lrepr_create|by exists l'].
Qed.

(** *** Iterators *)

(** The iterator [it] of a list with nodes [n1 ++ n2] stands before [n2]. *)
Definition cursor (it : icLinkedListIterator) (n2 : list (addr * option A)) : Prop :=
  it_curr it = hd_addr n2 None.

Lemma iterator_create l ns :
  repr l ns →
  linkedListIteratorCreate (Some l)
  = match ns with [] => None | _ => Some (mkIter (hd_addr ns None) None) end.
Proof.
  intros Hr. simpl. rewrite (r_size _ _ Hr), (r_first _ _ Hr).
  destruct ns as [|n ns]; [done|]. rewrite decide_False by (simpl; lia). done.
Qed.

Lemma iterator_hasNext it (n2 : list (addr * option A)) :
  cursor it n2 →
  linkedListIteratorHasNext (Some it) = match n2 with [] => false | _ => true end.
Proof. unfold cursor. simpl. intros ->. by destruct n2 as [|[]]. Qed.

Lemma iterator_getNext l n1 a x n2 it :
  repr l (n1 ++ (a, x) :: n2) → cursor it ((a, x) :: n2) →
  linkedListIteratorGetNext l (Some it) = Ok (x, Some (mkIter (hd_addr n2 None) (Some a))).
Proof.
  intros [_ Hn Hnd _ _]. unfold cursor. simpl. intros ->. rewrite Hn.
  by rewrite seg_lookup.
Qed.

Section Delete.
Context `{EqDecision A}.

(** Deleting the current item keeps the iterator on the nodes not yet
    visited; the item that goes is the first one with that pointer. *)
Lemma iterator_deleteCurrent l n1 a v n2 c :
  repr l (n1 ++ (a, Some v) :: n2) →
  ∃ n1' l', linkedListIteratorDeleteCurrent l (Some (mkIter c (Some a)))
      = Ok (true, [Some v], l', Some (mkIter c None)) ∧
    repr l' (n1' ++ n2) ∧ ll_cloned l' = ll_cloned l ∧
    n1'.*2 = delete_first (λ x, bool_decide (Some v = x)) (n1.*2 ++ [Some v]).
Proof.
  intros Hr. set (p := λ x, bool_decide (Some v = x)).
  assert (Hff : ∃ b, find_first (p ∘ snd) (n1 ++ (a, Some v) :: n2) = Some (b, Some v) ∧
            delete_first (p ∘ snd) (n1 ++ (a, Some v) :: n2)
            = delete_first (p ∘ snd) (n1 ++ [(a, Some v)]) ++ n2).
  { clear Hr. induction n1 as [|[b y] n1 IH]; simpl; unfold compose, p in *; simpl.
    - rewrite bool_decide_true by done. by exists a.
    - case_bool_decide as Hy; [subst; exists b; by rewrite <-app_assoc|]. destruct IH as (b' & -> & ->). by exists b'. }
  destruct Hff as (b & Hff & Hdel).
  unfold linkedListIteratorDeleteCurrent. simpl.
  assert (Ha : ll_nodes l !! a = Some (mkNode (Some v) (hd_addr n2 None))).
  { destruct Hr as [_ -> ? _ _]. by apply seg_lookup. }
  rewrite Ha. simpl.
  pose proof (delete_loop_seg (length (n1 ++ (a, Some v) :: n2)) l [] _ (iteratorFindByPtr v) p Hr)
    as Hd.
  unfold linkedListDelete. rewrite (repr_fuel _ _ Hr), (r_first _ _ Hr). rewrite Hff in Hd.
  change (last_addr [] None) with (@None addr) in Hd. rewrite Hd; [|done|done]. simpl.
  exists (delete_first (p ∘ snd) (n1 ++ [(a, Some v)])). eexists. split; [done|].
  rewrite Hdel. split_and!.
  - rewrite <-Hdel. apply find_first_split in Hff as (k1 & k2 & Hk & _ & _ & ->).
    rewrite Hk in Hr. by eapply repr_without.
  - done.
  - by rewrite delete_first_snd, fmap_app.
Qed.

(** Searching by pointer, as the iterator's delete does. *)
Lemma find_ptr (x : A) xs :
  find_first (λ y, bool_decide (Some x = y)) xs = if decide (Some x ∈ xs) then Some (Some x) else None.
Proof.
  destruct (find_first _ xs) as [y|] eqn:E; case_decide as Hd; try done.
  - apply find_first_Some in E as [_ E]. apply bool_decide_eq_true in E. by subst.
  - apply find_first_Some in E as [E1 E]. apply bool_decide_eq_true in E. by subst.
  - rewrite find_first_None in E. apply E in Hd. by apply bool_decide_eq_false in Hd.
Qed.

(** The loop clients write to drop items while iterating:
    while (hasNext) { item = getNext; if (p item) deleteCurrent; } *)
Fixpoint purge_loop (fuel : nat) (p : A → bool) l (it : option icLinkedListIterator)
    : outcome (list (option A) * icLinkedList A) :=
  if linkedListIteratorHasNext it then
    match fuel with
    | O => Hang
    | S fuel' =>
        '(x, it) ← linkedListIteratorGetNext l it;
        match x with
        | Some v =>
            if p v then
              '(_, rel, l, it) ← linkedListIteratorDeleteCurrent l it;
              '(rels, l) ← purge_loop fuel' p l it;
              Ok (rel ++ rels, l)
            else purge_loop fuel' p l it
        | None => purge_loop fuel' p l it
        end
    end
  else Ok ([], l).

Definition keeps (p : A → bool) (x : option A) : bool :=
  match x with Some v => negb (p v) | None => true end.

Lemma delete_first_last (q : option A → bool) xs x :
  (∀ y, y ∈ xs → q y = false) → q x = true → delete_first q (xs ++ [x]) = xs.
Proof.
  induction xs as [|y xs IH]; simpl; intros H Hx; [by rewrite Hx|].
  rewrite H by (by left). f_equal. apply IH; [|done]. intros. apply H. by right.
Qed.

Lemma purge_loop_spec fuel p l n1 n2 it :
  repr l (n1 ++ n2) → cursor it n2 → (length n2 ≤ fuel)%nat →
  (∀ x, x ∈ n1.*2 → keeps p x = true) →
  ∃ l' n', purge_loop fuel p l (Some it)
      = Ok (filter (λ x, keeps p x = false) n2.*2, l') ∧
    repr l' n' ∧ ll_cloned l' = ll_cloned l ∧
    n'.*2 = n1.*2 ++ filter (λ x, keeps p x = true) n2.*2.
Proof.
  revert fuel l n1 it. induction n2 as [|[a x] n2 IH]; intros fuel l n1 it Hr Hcur Hf Hkeep.
  { exists l, n1. rewrite app_nil_r in Hr. simpl.
    assert (purge_loop fuel p l (Some it) = Ok ([], l)) as ->.
    { unfold cursor in Hcur. simpl in Hcur. by destruct fuel; simpl; rewrite Hcur. }
    rewrite filter_nil, app_nil_r. done. }
  destruct fuel as [|fuel]; simpl in Hf; [lia|]. cbn [purge_loop].
  rewrite (iterator_hasNext _ _ Hcur), (iterator_getNext _ _ _ _ _ _ Hr Hcur). simpl.
  assert (Hskip : keeps p x = true → ∃ l' n',
    purge_loop fuel p l (Some (mkIter (hd_addr n2 None) (Some a)))
      = Ok (filter (λ x, keeps p x = false) n2.*2, l') ∧ repr l' n' ∧
    ll_cloned l' = ll_cloned l ∧
    n'.*2 = n1.*2 ++ x :: filter (λ x, keeps p x = true) n2.*2).
  { intros Hx. destruct (IH fuel l (n1 ++ [(a, x)]) (mkIter (hd_addr n2 None) (Some a)))
      as (l' & n' & He & Hr' & Hc & Hn).
    - by rewrite <-app_assoc.
    - done.
    - lia.
    - intros y. rewrite fmap_app, elem_of_app. simpl. rewrite list_elem_of_singleton.
      intros [?| ->]; auto.
    - exists l', n'. rewrite fmap_app, <-app_assoc in Hn. done. }
  rewrite !filter_cons. destruct x as [v|]; [|by apply Hskip].
  simpl. destruct (p v) eqn:Hp; simpl; [|apply Hskip; simpl; by rewrite Hp].
  destruct (iterator_deleteCurrent l n1 a v n2 (hd_addr n2 None) Hr)
    as (n1' & l1 & -> & Hr1 & Hc1 & Hn1). simpl.
  rewrite delete_first_last in Hn1; [| |by apply bool_decide_true].
  - destruct (IH fuel l1 n1' (mkIter (hd_addr n2 None) None)) as (l' & n' & -> & Hr' & Hc & Hn);
      [done|done|lia|by rewrite Hn1|].
    simpl. exists l', n'. rewrite Hn, Hn1. split_and!; [done|done|congruence|done].
  - intros y Hy%Hkeep. apply bool_decide_eq_false. intros <-. simpl in Hy. by rewrite Hp in Hy.
Qed.

End Delete.
End Repr.
End ListSpec.
