(* ===== verification/LinkedListTheorems.v ===== *)
(** * Theorems on icLinkedList

    The refinement of the pointer-level list by plain lists over whole
    sequences of calls, the iterator's deletion loop, ownership of items by
    lists and their clones, and the behaviour at the limit of the 16-bit size
    field. *)

From S2P Require Import Prelude LinkedList LinkedListSpec.
Import LinkedList ListSpec.

Module ListTheorems.

(** ** Sequences of calls *)
Section Calls.
Context {A : Type} `{EqDecision A}.

(** The calls of the API on one list; items are compared by pointer. *)
Inductive call :=
  | CAppend (x : option A)
  | CPrepend (x : option A)
  | CRemove (offset : Z)
  | CDelete (x : A)
  | CFind (x : A)
  | CGet (offset : Z)
  | CCount
  | CClear (helper : bool).

(** What a caller observes: a flag, an item, a number, the released items. *)
Inductive answer :=
  | ABool (b : bool)
  | AItem (x : option A)
  | ANum (n : Z)
  | AReleased (b : bool) (xs : list (option A)).

Definition run_call (l : icLinkedList A) (c : call) : outcome (answer * icLinkedList A) :=
  match c with
  | CAppend x => '(b, l) ← linkedListAppend (Some l) x; l ← of_option l; Ok (ABool b, l)
  | CPrepend x => '(b, l) ← linkedListPrepend (Some l) x; l ← of_option l; Ok (ABool b, l)
  | CRemove n => '(x, l) ← linkedListRemove (Some l) n; l ← of_option l; Ok (AItem x, l)
  | CDelete x =>
      '(b, rel, l) ← linkedListDelete (Some l) (Some x) (Some iteratorFindByPtr);
      l ← of_option l; Ok (AReleased b rel, l)
  | CFind x => y ← linkedListFind (Some l) (Some x) (Some iteratorFindByPtr); Ok (AItem y, l)
  | CGet n => x ← linkedListGetElementAt (Some l) n; Ok (AItem x, l)
  | CCount => Ok (ANum (linkedListCount (Some l)), l)
  | CClear h => '(rel, l) ← linkedListClear (Some l) h; l ← of_option l; Ok (AReleased true rel, l)
  end.

(** The same calls on the items and the clone flag. *)
Definition spec_call (s : list (option A) * bool) (c : call)
    : answer * (list (option A) * bool) :=
  let '(xs, cl) := s in
  match c with
  | CAppend None | CPrepend None => (ABool false, s)
  | CAppend x => (ABool true, (xs ++ [x], cl))
  | CPrepend x => (ABool true, (x :: xs, cl))
  | CRemove n =>
      if decide (n < zlen xs)
      then (AItem (mjoin (xs !! Z.to_nat n)), (delete (Z.to_nat n) xs, cl))
      else (AItem None, s)
  | CDelete x =>
      if decide (Some x ∈ xs)
      then (AReleased true [Some x], (delete_first (λ y, bool_decide (Some x = y)) xs, cl))
      else (AReleased false [], s)
  | CFind x => (AItem (if decide (Some x ∈ xs) then Some x else None), s)
  | CGet n => (AItem (mjoin (xs !! Z.to_nat n)), s)
  | CCount => (ANum (zlen xs), s)
  | CClear h => (AReleased true (released cl h xs), ([], if decide (xs = []) then cl else false))
  end.

(** A list stays below the 16-bit limit if no call starts with it full, and
    positions are unsigned. *)
Definition call_ok (s : list (option A) * bool) (c : call) : Prop :=
  match c with
  | CAppend _ | CPrepend _ => zlen s.1 < 65535
  | CRemove n | CGet n => 0 ≤ n
  | _ => True
  end.

Fixpoint run_calls (l : icLinkedList A) (cs : list call)
    : outcome (list answer * icLinkedList A) :=
  match cs with
  | [] => Ok ([], l)
  | c :: cs => '(a, l) ← run_call l c; '(r, l) ← run_calls l cs; Ok (a :: r, l)
  end.

Fixpoint spec_calls (s : list (option A) * bool) (cs : list call)
    : list answer * (list (option A) * bool) :=
  match cs with
  | [] => ([], s)
  | c :: cs => let '(a, s) := spec_call s c in let '(r, s) := spec_calls s cs in (a :: r, s)
  end.

Fixpoint calls_ok (s : list (option A) * bool) (cs : list call) : Prop :=
  match cs with
  | [] => True
  | c :: cs => call_ok s c ∧ calls_ok (spec_call s c).2 cs
  end.

(** The concrete list represents the abstract state. *)
Definition refines (l : icLinkedList A) (s : list (option A) * bool) : Prop :=
  lrepr l s.1 ∧ ll_cloned l = s.2.

Lemma append_refines l s x :
  refines l s → call_ok s (CAppend x) →
  ∃ l', run_call l (CAppend x) = Ok ((spec_call s (CAppend x)).1, l') ∧
    refines l' (spec_call s (CAppend x)).2.
Proof.
  destruct s as [xs cl]. intros [Hl Hc] Hok. simpl in *.
  destruct x as [x|]; [|by exists l].
  destruct (lrepr_append l xs x Hl Hok) as (l' & -> & Hl' & Hc'). simpl.
  exists l'. split; [done|]. split; simpl; congruence.
Qed.

Lemma prepend_refines l s x :
  refines l s → call_ok s (CPrepend x) →
  ∃ l', run_call l (CPrepend x) = Ok ((spec_call s (CPrepend x)).1, l') ∧
    refines l' (spec_call s (CPrepend x)).2.
Proof.
  destruct s as [xs cl]. intros [Hl Hc] Hok. cbn [run_call spec_call].
  destruct x as [x|]; [|by exists l].
  destruct (lrepr_prepend l xs x Hl Hok) as (l' & -> & Hl' & Hc'). simpl.
  exists l'. split; [done|]. split; simpl in *; congruence.
Qed.

Lemma remove_refines l s n :
  refines l s → call_ok s (CRemove n) →
  ∃ l', run_call l (CRemove n) = Ok ((spec_call s (CRemove n)).1, l') ∧
    refines l' (spec_call s (CRemove n)).2.
Proof.
  destruct s as [xs cl]. intros [Hl Hc] Hok. cbn [run_call spec_call].
  pose proof (lrepr_remove l xs n Hl Hok) as H. case_decide.
  - destruct H as (x & l' & -> & -> & Hl' & Hc'). simpl.
    exists l'. split; [done|]. split; simpl in *; congruence.
  - rewrite H. by exists l.
Qed.

Lemma list_delete_refines l s x :
  refines l s →
  ∃ l', run_call l (CDelete x) = Ok ((spec_call s (CDelete x)).1, l') ∧
    refines l' (spec_call s (CDelete x)).2.
Proof.
  destruct s as [xs cl]. intros [Hl Hc]. cbn [run_call spec_call].
  pose proof (lrepr_delete l xs x iteratorFindByPtr (λ y, bool_decide (Some x = y)) Hl) as H.
  rewrite find_ptr in H. specialize (H ltac:(done)). case_decide.
  - destruct H as (l' & -> & Hl' & Hc'). simpl. exists l'. split; [done|]. split; simpl in *; congruence.
  - rewrite H. by exists l.
Qed.

Lemma clear_refines l s h :
  refines l s →
  ∃ l', run_call l (CClear h) = Ok ((spec_call s (CClear h)).1, l') ∧
    refines l' (spec_call s (CClear h)).2.
Proof.
  destruct s as [xs cl]. intros [Hl Hc]. cbn [run_call spec_call]. simpl in *.
  destruct xs as [|x xs].
  - pose proof (lrepr_count _ _ Hl) as [Hs _]. unfold linkedListClear. rewrite Hs. simpl.
    exists l. split; [|done]. unfold released. by destruct cl, h.
  - destruct (lrepr_clear l _ h Hl) as (l' & -> & Hl' & Hc'). simpl. rewrite Hc.
    exists l'. split; [done|]. split; [done|]. by apply Hc'.
Qed.

Lemma call_refines l s c :
  refines l s → call_ok s c →
  ∃ l', run_call l c = Ok ((spec_call s c).1, l') ∧ refines l' (spec_call s c).2.
Proof.
  intros Hl Hok. destruct c as [x|x|n|x|x|n| |h];
    [by apply append_refines|by apply prepend_refines|by apply remove_refines
    |by apply list_delete_refines| | | |by apply clear_refines];
    exists l; destruct s as [xs cl], Hl as [Hl Hc]; simpl in *.
  - rewrite (lrepr_find l xs x _ (λ y, bool_decide (Some x = y))) by done. simpl.
    rewrite find_ptr. by case_decide.
  - by rewrite (lrepr_getElementAt l xs n).
  - by rewrite (proj1 (lrepr_count _ _ Hl)).
Qed.

(** C5: any sequence of list calls that keeps the list below 65535 elements
    runs without a memory error on the pointer-level list, gives the caller
    exactly the answers (flags, items, counts, released items) of the same
    calls on a plain list of items, and leaves a list that represents the
    final plain list. *)
Theorem linkedList_refinement (cs : list call) (l : icLinkedList A) (s : list (option A) * bool) :
  refines l s → calls_ok s cs →
  ∃ l', run_calls l cs = Ok ((spec_calls s cs).1, l') ∧ refines l' (spec_calls s cs).2.
Proof.
  revert l s. induction cs as [|c cs IH]; intros l s Hl Hok; [by exists l|].
  destruct Hok as [Hc Hcs]. cbn [run_calls spec_calls].
  destruct (call_refines l s c Hl Hc) as (l1 & -> & Hl1).
  destruct (spec_call s c) as [a s1]. simpl in *.
  destruct (IH l1 s1 Hl1 Hcs) as (l2 & -> & Hl2).
  destruct (spec_calls s1 cs) as [r s2]. simpl in *. by exists l2.
Qed.

(** Dropping items while iterating: the loop "while hasNext: item =
    getNext; if p(item) deleteCurrent" over a fresh iterator visits every
    item once, never follows a freed node, releases exactly the items that
    satisfy p, in order, and leaves the others in order. *)
Theorem iterator_delete_loop (p : A → bool) (l : icLinkedList A) (xs : list (option A)) :
  lrepr l xs →
  ∃ l', purge_loop (length xs) p l (linkedListIteratorCreate (Some l))
      = Ok (filter (λ x, keeps p x = false) xs, l') ∧
    lrepr l' (filter (λ x, keeps p x = true) xs) ∧ ll_cloned l' = ll_cloned l.
Proof.
  intros (ns & Hr & ->). rewrite (iterator_create l ns Hr).
  destruct ns as [|n ns].
  - exists l. split_and!; [done| |done]. by exists [].
  - destruct (purge_loop_spec (length (n :: ns)) p l [] (n :: ns) (mkIter (hd_addr (n :: ns) None) None))
      as (l' & n' & He & Hr' & Hc & Hn); [done|done|done| |].
    { intros x Hx. by apply not_elem_of_nil in Hx. }
    exists l'. rewrite length_fmap. split_and!; [done| |done]. by exists n'.
Qed.

End Calls.

Section Ownership.
Context {A : Type}.

(** Ownership.  Destroying a list frees all its nodes and releases every
    non-NULL item exactly once and in order; a shallow clone holds the same
    non-NULL items and destroying it releases none of them. *)
Theorem clone_owns_nothing (l : icLinkedList A) (xs : list (option A)) :
  lrepr l xs → ll_cloned l = false →
  linkedListDestroy (Some l) false = Ok (filter (λ x, x ≠ None) xs, ∅) ∧
  ∃ c, linkedListClone (Some l) = Ok (Some c) ∧
    lrepr c (filter (λ x, x ≠ None) xs) ∧ linkedListIsClone (Some c) = true ∧
    ∀ helper, linkedListDestroy (Some c) helper = Ok ([], ∅).
Proof.
  intros Hl Hc. rewrite (lrepr_destroy l xs false Hl), Hc. split; [done|].
  destruct (lrepr_clone l xs Hl) as (c & Hcl & Hr & Hcc).
  exists c. split_and!; [done|done|done|].
  intros helper. by rewrite (lrepr_destroy c _ helper Hr), Hcc.
Qed.

(** The 16-bit size field.  Appending to a list that already holds 65535
    items links the new node but wraps the size to 0: the call reports
    success, linkedListCount answers 0, and iterating or clearing the list
    does nothing although all 65536 nodes are still allocated. *)
Theorem append_size_wraps (l : icLinkedList A) (ns : list (addr * option A)) (x : A) :
  repr l ns → zlen ns = 65535 →
  ∃ l', linkedListAppend (Some l) (Some x) = Ok (true, Some l') ∧
    Z.of_nat (size (ll_nodes l')) = 65536 ∧ linkedListCount (Some l') = 0 ∧
    linkedListIteratorCreate (Some l') = None ∧
    linkedListClear (Some l') true = Ok ([], Some l') ∧
    ∀ S (cb : option A → S → outcome (bool * S)) s, linkedListIterate (Some l') cb s = Ok s.
Proof.
  intros [Hf Hn Hnd Hs _] Hlen.
  destruct (append_nodes l ns x Hf Hn Hnd) as (a & Ha & ->). eexists. split; [done|].
  assert (Hz : match ns with [] => 1 | _ => u16 (ll_size l + 1) end = 0).
  { destruct ns; [done|]. by rewrite Hs, Hlen. }
  unfold linkedListCount, linkedListIteratorCreate, linkedListClear, linkedListIterate.
  simpl. rewrite Hz. split_and!; try done.
  rewrite seg_size; [rewrite length_app; simpl; lia|].
  rewrite fmap_app. apply NoDup_app. split_and!; [done| |apply NoDup_singleton].
  by intros z Hz' ->%list_elem_of_singleton.
Qed.

End Ownership.

(** ** Witnesses *)

(** A list object with the given items in nodes 1, 2, 3, ... *)
Definition number {A} (xs : list A) : list (addr * option A) :=
  imap (λ i x, (Pos.of_succ_nat i, Some x)) xs.
Definition of_items {A} (xs : list A) : icLinkedList A :=
  let ns := number xs in mkList (zlen ns) (hd_addr ns None) false (seg ns None).

Lemma number_length {A} (xs : list A) : length (number xs) = length xs.
Proof. unfold number. by rewrite length_imap. Qed.

Lemma number_snd {A} (xs : list A) : (number xs).*2 = Some <$> xs.
Proof. unfold number. rewrite fmap_imap. induction xs using rev_ind; [done|].
  rewrite imap_app, fmap_app, IHxs. done. Qed.

Lemma number_fst {A} (xs : list A) : (number xs).*1 = Pos.of_succ_nat <$> seq 0 (length xs).
Proof.
  unfold number. rewrite fmap_imap.
  induction xs using rev_ind; [done|].
  rewrite imap_app, length_app, seq_app, fmap_app, IHxs. simpl. by rewrite Nat.add_0_r.
Qed.

Lemma of_items_repr {A} (xs : list A) :
  zlen xs ≤ 65535 → repr (of_items xs) (number xs).
Proof.
  intros H. split; simpl; try done.
  - rewrite number_fst. apply NoDup_fmap_2; [apply _|]. apply NoDup_seq.
  - by rewrite number_length.
Qed.

Lemma of_items_lrepr {A} (xs : list A) :
  zlen xs ≤ 65535 → lrepr (of_items xs) (Some <$> xs).
Proof. intros H. exists (number xs). split; [by apply of_items_repr|]. by rewrite number_snd. Qed.

Lemma linkedList_refinement_witness :
  let cs := [CAppend (Some 7); CPrepend (Some 5); CAppend None; CCount; CDelete 9; CRemove 1; CGet 0] in
  ∃ l', run_calls (of_items [9; 4]) cs
        = Ok ([ABool true; ABool true; ABool false; ANum 4; AReleased true [Some 9];
               AItem (Some 4); AItem (Some 5)], l') ∧ refines l' ([Some 5; Some 7], false).
Proof.
  intros cs.
  assert (Hs : spec_calls ([Some 9; Some 4], false) cs
    = ([ABool true; ABool true; ABool false; ANum 4; AReleased true [Some 9];
        AItem (Some 4); AItem (Some 5)], ([Some 5; Some 7], false))) by (vm_compute; reflexivity).
  pose proof (linkedList_refinement cs (of_items [9; 4]) ([Some 9; Some 4], false)) as H.
  rewrite Hs in H. apply H.
  - split; [apply (of_items_lrepr [9; 4]); simpl; lia|done].
  - repeat split; simpl; lia.
Defined.

Lemma iterator_delete_loop_witness :
  ∃ l', purge_loop 3 (λ x, Z.even x) (of_items [2; 3; 4]) (linkedListIteratorCreate (Some (of_items [2; 3; 4])))
        = Ok ([Some 2; Some 4], l') ∧ lrepr l' [Some 3] ∧ ll_cloned l' = false.
Proof.
  apply (iterator_delete_loop (λ x, Z.even x) (of_items [2; 3; 4]) [Some 2; Some 3; Some 4]).
  apply (of_items_lrepr [2; 3; 4]). simpl. lia.
Defined.

Lemma clone_owns_nothing_witness :
  linkedListDestroy (Some (of_items [2; 3])) false = Ok ([Some 2; Some 3], ∅) ∧
  ∃ c, linkedListClone (Some (of_items [2; 3])) = Ok (Some c) ∧
    lrepr c [Some 2; Some 3] ∧ linkedListIsClone (Some c) = true ∧
    ∀ helper, linkedListDestroy (Some c) helper = Ok ([], ∅).
Proof.
  apply (clone_owns_nothing (of_items [2; 3]) [Some 2; Some 3]); [|done].
  apply (of_items_lrepr [2; 3]). simpl. lia.
Defined.

Lemma append_size_wraps_witness :
  let xs := replicate (Z.to_nat 65535) tt in
  ∃ l', linkedListAppend (Some (of_items xs)) (Some tt) = Ok (true, Some l') ∧
    Z.of_nat (size (ll_nodes l')) = 65536 ∧ linkedListCount (Some l') = 0 ∧
    linkedListIteratorCreate (Some l') = None ∧
    linkedListClear (Some l') true = Ok ([], Some l') ∧
    ∀ S (cb : option unit → S → outcome (bool * S)) s, linkedListIterate (Some l') cb s = Ok s.
Proof.
  intros xs. assert (Hl : zlen xs = 65535) by (unfold xs; rewrite length_replicate; lia).
  apply (append_size_wraps (of_items xs) (number xs) tt).
  - apply of_items_repr. lia.
  - by rewrite number_length.
Defined.

End ListTheorems.
