(* ===== verification/Queue.v ===== *)
(** * icQueue: the FIFO queue of libs/types

    Models src/source/libs/types/c/src/icQueue.c: a chain of list nodes with a
    pointer to its first and to its last node.  As for the linked list, a
    queue object carries the store of its nodes, releasing an item is part of
    the result, and a bad pointer is a [Fault].  The theorems show that a
    queue of non-NULL items is a first-in first-out list, that pushing and
    popping commute as a queue must, and what NULL items do to the functions
    that drain a queue. *)

From S2P Require Import Prelude LinkedList LinkedListSpec.
Import LinkedList ListSpec.

Module Queue.
Section Code.
Context {A : Type}.

(** struct _icQueue *)
Record icQueue := mkQueue {
  q_size : Z;
  q_first : option addr;
  q_last : option addr;
  q_nodes : gmap addr (listNode A)
}.

Definition queueCreate : icQueue := mkQueue 0 None None ∅.

Definition queueCount (queue : option icQueue) : Z :=
  match queue with None => 0 | Some q => q_size q end.

Definition queuePush (queue : option icQueue) (item : option A)
    : outcome (bool * option icQueue) :=
  match queue with
  | None => Ok (false, None)
  | Some q =>
      let '(node, m) := createListNode (q_nodes q) in
      m ← set_item m node item;
      '(fst, m) ← match q_last q with
                  | Some t => m ← set_next m t (Some node); Ok (q_first q, m)
                  | None => Ok (Some node, m)
                  end;
      Ok (true, Some (mkQueue (u16 (q_size q + 1)) fst (Some node) m))
  end.

Definition queuePop (queue : option icQueue) : outcome (option A * option icQueue) :=
  match queue with
  | None => Ok (None, None)
  | Some q =>
      match q_first q with
      | None => Ok (None, Some q)
      | Some ptr =>
          n ← of_option (q_nodes q !! ptr);
          let lst := if decide (q_last q = Some ptr) then None else q_last q in
          m ← free_node (q_nodes q) ptr;
          let sz := if decide (0 < q_size q) then q_size q - 1 else q_size q in
          Ok (n_item n, Some (mkQueue sz (n_next n) lst m))
      end
  end.

(** The loop of queueDestroy and queueClear: pop until NULL comes back. *)
Fixpoint drain_loop (fuel : nat) (q : icQueue) : outcome (list A * icQueue) :=
  '(next, q') ← queuePop (Some q);
  q' ← of_option q';
  match next with
  | None => Ok ([], q')
  | Some x =>
      match fuel with
      | O => Hang
      | S fuel' => '(rel, q'') ← drain_loop fuel' q'; Ok (x :: rel, q'')
      end
  end.

(** The released items and the nodes that stay allocated. *)
Definition queueDestroy (queue : option icQueue) : outcome (list A * gmap addr (listNode A)) :=
  match queue with
  | None => Ok ([], ∅)
  | Some q => '(rel, q') ← drain_loop (size (q_nodes q)) q; Ok (rel, q_nodes q')
  end.

Definition queueClear (queue : option icQueue) : outcome (list A * option icQueue) :=
  match queue with
  | None => Ok ([], None)
  | Some q =>
      if decide (q_size q = 0) then Ok ([], Some q)
      else
        '(rel, q') ← drain_loop (size (q_nodes q)) q;
        Ok (rel, Some (mkQueue 0 None None (q_nodes q')))
  end.

Fixpoint queue_delete_loop (fuel : nat) (q : icQueue) (ptr prev : option addr)
    (search : option A → outcome bool) : outcome (bool * list (option A) * icQueue) :=
  match ptr with
  | None => Ok (false, [], q)
  | Some p =>
      match fuel with
      | O => Hang
      | S fuel' =>
          n ← of_option (q_nodes q !! p);
          b ← search (n_item n);
          if b : bool then
            '(fst, m) ← match prev with
                        | Some r => m ← set_next (q_nodes q) r (n_next n); Ok (q_first q, m)
                        | None => Ok (n_next n, q_nodes q)
                        end;
            let lst := if decide (Some p = q_last q) then prev else q_last q in
            m ← free_node m p;
            let sz := if decide (0 < q_size q) then q_size q - 1 else q_size q in
            Ok (true, [n_item n], mkQueue sz fst lst m)
          else queue_delete_loop fuel' q (n_next n) (Some p) search
      end
  end.

Definition queueDelete {S} (queue : option icQueue) (searchVal : S)
    (searchFunc : S → option A → outcome bool) : outcome (bool * list (option A) * option icQueue) :=
  match queue with
  | None => Ok (false, [], None)
  | Some q =>
      '(b, rel, q') ← queue_delete_loop (size (q_nodes q)) q (q_first q) None (searchFunc searchVal);
      Ok (b, rel, Some q')
  end.

(** The search and callback loops are those of the linked list. *)
Definition queueFind {S} (queue : option icQueue) (searchVal : S)
    (searchFunc : S → option A → outcome bool) : outcome (option A) :=
  match queue with
  | None => Ok None
  | Some q => find_loop (size (q_nodes q)) (q_nodes q) (q_first q) (searchFunc searchVal)
  end.

Definition queueIterate {S} (queue : option icQueue)
    (callback : option A → S → outcome (bool * S)) (arg : S) : outcome S :=
  match queue with
  | None => Ok arg
  | Some q =>
      if decide (q_size q = 0) then Ok arg
      else iterate_loop (size (q_nodes q)) (q_nodes q) (q_first q) callback arg
  end.

End Code.
Arguments icQueue : clear implicits.
Arguments queuePush {A} queue item : simpl never.
Arguments queuePop {A} queue : simpl never.
Arguments queueDelete {A S} queue searchVal searchFunc : simpl never.
Arguments queueClear {A} queue : simpl never.
Arguments queueDestroy {A} queue : simpl never.

Section Spec.
Context {A : Type}.
Implicit Types (q : icQueue A) (ns : list (addr * option A)) (xs : list (option A)).

Record repr q ns : Prop := {
  r_first : q_first q = hd_addr ns None;
  r_last : q_last q = last_addr ns None;
  r_nodes : q_nodes q = seg ns None;
  r_nodup : NoDup ns.*1;
  r_size : q_size q = zlen ns;
  r_max : zlen ns ≤ 65535
}.

Definition qrepr q xs : Prop := ∃ ns, repr q ns ∧ xs = ns.*2.

Lemma queue_fuel q ns : repr q ns → size (q_nodes q) = length ns.
Proof. intros [_ _ -> ? _ _]. by apply seg_size. Qed.

Lemma qrepr_create : qrepr queueCreate [].
Proof. exists []. split; [|done]. split; try done. constructor. Qed.

Lemma qrepr_push q xs x :
  qrepr q xs → zlen xs < 65535 →
  ∃ q', queuePush (Some q) x = Ok (true, Some q') ∧ qrepr q' (xs ++ [x]).
Proof.
  intros (ns & [Hf Hl Hn Hnd Hs Hm] & ->) Hlt. rewrite length_fmap in Hlt.
  unfold queuePush. simpl. rewrite Hn.
  pose proof (fresh_seg ns None) as Hfr. set (a := fresh _) in *.
  assert (Hnd' : NoDup (ns ++ [(a, x)]).*1).
  { rewrite fmap_app. apply NoDup_app. split_and!; [done| |apply NoDup_singleton].
    by intros z Hz ->%list_elem_of_singleton. }
  unfold set_item. rewrite lookup_insert_eq. simpl. rewrite insert_insert_eq, Hl.
  exists (mkQueue (zlen (ns ++ [(a, x)])) (hd_addr (ns ++ [(a, x)]) None)
    (last_addr (ns ++ [(a, x)]) None) (seg (ns ++ [(a, x)]) None)).
  split; [|exists (ns ++ [(a, x)]); split; [split; simpl; try done; rewrite length_app; simpl; lia
                                           |by rewrite fmap_app]].
  rewrite Hs, last_addr_snoc, length_app. simpl. rewrite u16_small by lia.
  replace (Z.of_nat (length ns + 1)) with (zlen ns + 1) by lia.
  destruct ns as [|[b y] ns _] using rev_ind; [done|].
  rewrite last_addr_snoc. unfold set_next.
  assert (a ≠ b).
  { intros ->. apply Hfr. rewrite fmap_app. apply elem_of_app. right. by left. }
  rewrite lookup_insert_ne, seg_lookup by done. simpl. rewrite seg_snoc by done.
  rewrite Hf. by destruct ns as [|[] ?].
Qed.

Lemma qrepr_pop q xs :
  qrepr q xs →
  match xs with
  | [] => queuePop (Some q) = Ok (None, Some q)
  | x :: t => ∃ q', queuePop (Some q) = Ok (x, Some q') ∧ qrepr q' t
  end.
Proof.
  intros (ns & [Hf Hl Hn Hnd Hs Hm] & ->). unfold queuePop. rewrite Hf.
  destruct ns as [|[a x] ns]; [done|]. simpl in Hs, Hm |- *. rewrite Hn. simpl.
  unfold free_node. rewrite !lookup_insert_eq. simpl. eexists. split; [done|].
  pose proof (seg_delete_first a x ns None Hnd) as Hd. simpl in Hd. rewrite Hd.
  apply NoDup_cons in Hnd as [Ha Hnd].
  exists ns. split; [|done]. split; simpl; try done; [| |lia].
  - rewrite Hl, last_addr_cons. destruct ns as [|[b y] ns _] using rev_ind.
    + by rewrite decide_True.
    + rewrite !last_addr_snoc, decide_False; [done|]. intros [= ->]. apply Ha.
      change (a ∈ (ns ++ [(a, y)]).*1). rewrite fmap_app. apply elem_of_app. right. by left.
  - rewrite decide_True by lia. lia.
Qed.

Lemma qrepr_find {S} q xs (v : S) f p :
  qrepr q xs → (∀ x, x ∈ xs → f v x = Ok (p x)) →
  queueFind (Some q) v f = Ok (mjoin (find_first p xs)).
Proof.
  intros (ns & Hr & ->) Hp. unfold queueFind. rewrite (queue_fuel _ _ Hr).
  destruct Hr as [-> _ -> ? _ _]. by apply find_loop_seg.
Qed.

Lemma qrepr_iterate {S} q xs (cb : option A → S → outcome (bool * S)) s :
  qrepr q xs → queueIterate (Some q) cb s = iterate_list cb xs s.
Proof.
  intros (ns & Hr & ->). unfold queueIterate. rewrite (r_size _ _ Hr). case_decide as Hd.
  - by destruct ns; [|simpl in Hd; lia].
  - rewrite (queue_fuel _ _ Hr). destruct Hr as [-> _ -> ? _ _]. by apply iterate_loop_seg.
Qed.

(** The list view of a queue: same first pointer, same nodes, same size. *)
Definition as_list q : icLinkedList A := mkList (q_size q) (q_first q) false (q_nodes q).

Lemma repr_as_list q ns : repr q ns → ListSpec.repr (as_list q) ns.
Proof. intros [? _ ? ? ? ?]. by split. Qed.

Lemma last_addr_without n1 (a : addr) (x : option A) n2 :
  NoDup (n1 ++ (a, x) :: n2).*1 →
  (if decide (Some a = last_addr (n1 ++ (a, x) :: n2) None) then last_addr n1 None
   else last_addr (n1 ++ (a, x) :: n2) None) = last_addr (n1 ++ n2) None.
Proof.
  intros Hnd. destruct n2 as [|[b y] n2 _] using rev_ind.
  - rewrite last_addr_snoc, app_nil_r. by rewrite decide_True.
  - rewrite app_comm_cons, !app_assoc, !last_addr_snoc, decide_False; [done|].
    intros [= ->]. rewrite fmap_app in Hnd. simpl in Hnd. apply NoDup_app in Hnd as (_ & _ & Hnd).
    apply NoDup_cons in Hnd as [Hb _]. apply Hb. rewrite fmap_app. apply elem_of_app. right. by left.
Qed.

Lemma queue_delete_loop_seg fuel q n1 n2 search p :
  repr q (n1 ++ n2) → (length n2 ≤ fuel)%nat →
  (∀ x, x ∈ n2.*2 → search x = Ok (p x)) →
  match find_first (p ∘ snd) n2 with
  | None => queue_delete_loop fuel q (hd_addr n2 None) (last_addr n1 None) search = Ok (false, [], q)
  | Some (a, x) =>
      let ns' := n1 ++ delete_first (p ∘ snd) n2 in
      queue_delete_loop fuel q (hd_addr n2 None) (last_addr n1 None) search
      = Ok (true, [x], mkQueue (zlen ns') (hd_addr ns' None) (last_addr ns' None) (seg ns' None))
  end.
Proof.
  revert fuel n1. induction n2 as [|[a x] n2 IH]; intros fuel n1 Hr Hf Hp; [by destruct fuel|].
  destruct fuel as [|fuel]; simpl in Hf; [lia|].
  assert (Ha : q_nodes q !! a = Some (mkNode x (hd_addr n2 None))).
  { destruct Hr as [_ _ -> ? _ _]. by apply seg_lookup. }
  simpl. rewrite Ha. simpl. rewrite Hp by (by left). simpl. destruct (p x) eqn:Hx.
  - rewrite (r_last _ _ Hr), last_addr_without by (by destruct Hr).
    pose proof (repr_unlink _ _ _ _ _ (repr_as_list _ _ Hr)) as Hu. simpl in Hu.
    destruct (last_addr n1 None) as [r|]; simpl in *.
    + destruct (set_next _ _ _) as [m| |]; simpl in *; [|done..].
      destruct (free_node _ _); simpl in *; congruence.
    + destruct (free_node _ _); simpl in *; congruence.
  - specialize (IH fuel (n1 ++ [(a, x)])).
    rewrite <-app_assoc, last_addr_snoc in IH. simpl in IH.
    assert (Hp' : ∀ x0, x0 ∈ n2.*2 → search x0 = Ok (p x0)) by (intros; apply Hp; by right).
    specialize (IH Hr ltac:(lia) Hp'). unfold compose in *.
    destruct (find_first (λ x0, p x0.2) n2) as [[b y]|]; [|done].
    by rewrite <-app_assoc in IH.
Qed.

Lemma qrepr_delete {S} q xs (v : S) f p :
  qrepr q xs → (∀ x, x ∈ xs → f v x = Ok (p x)) →
  match find_first p xs with
  | None => queueDelete (Some q) v f = Ok (false, [], Some q)
  | Some x => ∃ q', queueDelete (Some q) v f = Ok (true, [x], Some q') ∧
      qrepr q' (delete_first p xs)
  end.
Proof.
  intros (ns & Hr & ->) Hp. unfold queueDelete. rewrite (queue_fuel _ _ Hr).
  pose proof (queue_delete_loop_seg (length ns) q [] ns (f v) p Hr (le_n _) Hp) as H.
  rewrite (r_first _ _ Hr). rewrite find_first_snd.
  change (last_addr [] None) with (@None addr) in H.
  destruct (find_first (p ∘ snd) ns) as [[a x]|] eqn:E; simpl in *; rewrite H; [|done].
  eexists. split; [done|]. exists (delete_first (p ∘ snd) ns). rewrite delete_first_snd.
  split; [|done]. apply find_first_split in E as (n1 & n2 & -> & _ & _ & ->).
  destruct (repr_without _ _ _ _ _ false (repr_as_list _ _ Hr)). by split.
Qed.

(** *** Draining *)

Fixpoint until_null xs : list A :=
  match xs with Some x :: t => x :: until_null t | _ => [] end.
Fixpoint after_null xs : list (option A) :=
  match xs with Some _ :: t => after_null t | None :: t => t | [] => [] end.

Lemma drain_loop_spec fuel q xs :
  qrepr q xs → (length xs ≤ fuel)%nat →
  ∃ q', drain_loop fuel q = Ok (until_null xs, q') ∧ qrepr q' (after_null xs).
Proof.
  revert fuel q. induction xs as [|[x|] xs IH]; intros fuel q Hq Hf; pose proof (qrepr_pop q _ Hq) as Hp.
  - exists q. split; [|done]. destruct fuel; simpl; by rewrite Hp.
  - destruct Hp as (q1 & Hp & Hq1). destruct fuel as [|fuel]; simpl in Hf; [lia|].
    simpl. rewrite Hp. simpl. destruct (IH fuel q1 Hq1) as (q' & -> & Hq'); [lia|]. by exists q'.
  - destruct Hp as (q1 & Hp & Hq1). exists q1. split; [|done]. destruct fuel; simpl; by rewrite Hp.
Qed.

(** *** Queues without NULL items *)

Lemma until_null_some (l : list A) : until_null (Some <$> l) = l ∧ after_null (Some <$> l) = [].
Proof. induction l as [|x l [IH1 IH2]]; [done|]. simpl. split; [f_equal; exact IH1|exact IH2]. Qed.

Lemma qrepr_count q xs : qrepr q xs → queueCount (Some q) = zlen xs.
Proof. intros (ns & Hr & ->). simpl. by rewrite (r_size _ _ Hr), length_fmap. Qed.

Lemma qrepr_clear q (l : list A) :
  qrepr q (Some <$> l) → ∃ q', queueClear (Some q) = Ok (l, Some q') ∧ qrepr q' [].
Proof.
  intros Hq. pose proof (qrepr_count _ _ Hq) as Hn. simpl in Hn. rewrite length_fmap in Hn.
  unfold queueClear. rewrite Hn. case_decide as Hz.
  - assert (l = []) as -> by (by destruct l). by exists q.
  - destruct (drain_loop_spec (size (q_nodes q)) q _ Hq) as (q' & -> & Hq').
    { destruct Hq as (ns & Hr & ->). rewrite (queue_fuel _ _ Hr). by rewrite length_fmap. }
    simpl. destruct (until_null_some l) as [-> Ha]. rewrite Ha in Hq'. eexists. split; [done|].
    destruct Hq' as (ns & Hr & Hns). apply symmetry, fmap_nil_inv in Hns as ->. exists []. split; [|done].
    destruct Hr. split; simpl; done || constructor.
Qed.

Lemma qrepr_destroy q (l : list A) : qrepr q (Some <$> l) → queueDestroy (Some q) = Ok (l, ∅).
Proof.
  intros Hq. unfold queueDestroy. destruct (drain_loop_spec (size (q_nodes q)) q _ Hq) as (q' & -> & Hq').
  { destruct Hq as (ns & Hr & ->). rewrite (queue_fuel _ _ Hr). by rewrite length_fmap. }
  destruct (until_null_some l) as [-> Ha]. rewrite Ha in Hq'. destruct Hq' as (ns & Hr & Hns).
  apply symmetry, fmap_nil_inv in Hns as ->. simpl. by rewrite (r_nodes _ _ Hr).
Qed.

Lemma qrepr_destroy_nil q : qrepr q [] → queueDestroy (Some q) = Ok ([], ∅).
Proof. apply (qrepr_destroy q []). Qed.

End Spec.

(** ** Theorems *)
Section Theorems.
Context {A : Type} `{EqDecision A}.

Inductive qcall :=
  | QPush (x : option A)
  | QPop
  | QDelete (x : A)
  | QFind (x : A)
  | QCount.

Inductive qanswer :=
  | QFlag (b : bool)
  | QItem (x : option A)
  | QNum (n : Z).

Definition run_qcall (q : icQueue A) (c : qcall) : outcome (qanswer * icQueue A) :=
  match c with
  | QPush x => '(b, q) ← queuePush (Some q) x; q ← of_option q; Ok (QFlag b, q)
  | QPop => '(x, q) ← queuePop (Some q); q ← of_option q; Ok (QItem x, q)
  | QDelete x =>
      '(b, _, q) ← queueDelete (Some q) x iteratorFindByPtr; q ← of_option q; Ok (QFlag b, q)
  | QFind x => y ← queueFind (Some q) x iteratorFindByPtr; Ok (QItem y, q)
  | QCount => Ok (QNum (queueCount (Some q)), q)
  end.

Definition spec_qcall (xs : list (option A)) (c : qcall) : qanswer * list (option A) :=
  match c with
  | QPush x => (QFlag true, xs ++ [x])
  | QPop => match xs with [] => (QItem None, []) | x :: t => (QItem x, t) end
  | QDelete x =>
      if decide (Some x ∈ xs)
      then (QFlag true, delete_first (λ y, bool_decide (Some x = y)) xs) else (QFlag false, xs)
  | QFind x => (QItem (if decide (Some x ∈ xs) then Some x else None), xs)
  | QCount => (QNum (zlen xs), xs)
  end.

Fixpoint run_qcalls (q : icQueue A) (cs : list qcall) : outcome (list qanswer * icQueue A) :=
  match cs with
  | [] => Ok ([], q)
  | c :: cs => '(a, q) ← run_qcall q c; '(r, q) ← run_qcalls q cs; Ok (a :: r, q)
  end.

Fixpoint spec_qcalls (xs : list (option A)) (cs : list qcall) : list qanswer * list (option A) :=
  match cs with
  | [] => ([], xs)
  | c :: cs => let '(a, xs) := spec_qcall xs c in let '(r, xs) := spec_qcalls xs cs in (a :: r, xs)
  end.

Lemma spec_qcall_length xs c : zlen (spec_qcall xs c).2 ≤ zlen xs + 1.
Proof.
  destruct c; simpl; try (rewrite length_app; simpl); try lia.
  - destruct xs; simpl; lia.
  - case_decide; simpl; [|lia].
    pose proof (sublist_length _ _ (delete_first_sublist (λ y, bool_decide (Some x = y)) xs)). lia.
Qed.

Lemma qcall_refines q xs c :
  qrepr q xs → zlen xs < 65535 →
  ∃ q', run_qcall q c = Ok ((spec_qcall xs c).1, q') ∧ qrepr q' (spec_qcall xs c).2.
Proof.
  intros Hq Hlt. destruct c as [x| |x|x|]; cbn [run_qcall spec_qcall].
  - destruct (qrepr_push q xs x Hq Hlt) as (q' & -> & Hq'). by exists q'.
  - pose proof (qrepr_pop q xs Hq) as H. destruct xs as [|x xs].
    + rewrite H. by exists q.
    + destruct H as (q' & -> & Hq'). by exists q'.
  - pose proof (qrepr_delete q xs x iteratorFindByPtr (λ y, bool_decide (Some x = y)) Hq) as H.
    rewrite find_ptr in H. specialize (H ltac:(done)). case_decide.
    + destruct H as (q' & -> & Hq'). by exists q'.
    + rewrite H. by exists q.
  - exists q. rewrite (qrepr_find q xs x _ (λ y, bool_decide (Some x = y))) by done. simpl.
    rewrite find_ptr. by case_decide.
  - exists q. split; [|done]. destruct Hq as (ns & Hr & ->). simpl.
    by rewrite (r_size _ _ Hr), length_fmap.
Qed.

(** First in, first out.  Any sequence of push, pop, delete, find and
    count calls on a queue answers like the same calls on a list that is
    extended at its end and consumed at its head, without a memory error and
    with first, last, size and nodes consistent at the end, as long as it
    cannot reach 65535 items. *)
Theorem queue_refinement (cs : list qcall) (q : icQueue A) (xs : list (option A)) :
  qrepr q xs → zlen xs + zlen cs ≤ 65535 →
  ∃ q', run_qcalls q cs = Ok ((spec_qcalls xs cs).1, q') ∧ qrepr q' (spec_qcalls xs cs).2.
Proof.
  revert q xs. induction cs as [|c cs IH]; intros q xs Hq Hm; [by exists q|].
  cbn [run_qcalls spec_qcalls]. simpl in Hm.
  destruct (qcall_refines q xs c Hq) as (q1 & -> & Hq1); [lia|].
  pose proof (spec_qcall_length xs c) as Hlen.
  destruct (spec_qcall xs c) as [a xs1]. simpl in *.
  destruct (IH q1 xs1 Hq1) as (q2 & -> & Hq2); [lia|].
  destruct (spec_qcalls xs1 cs) as [r xs2]. simpl in *. by exists q2.
Qed.

(** Draining.  queueDestroy releases the items in order but stops at the
    first NULL item: when the queue holds no NULL it releases everything and
    leaves no node allocated; otherwise the nodes behind the NULL leak. *)
Theorem queue_destroy_leaks_after_null (q : icQueue A) (xs : list (option A)) :
  qrepr q xs →
  ∃ m, queueDestroy (Some q) = Ok (until_null xs, m) ∧
    Z.of_nat (size m) = zlen (after_null xs) ∧
    (Forall (λ x, x ≠ None) xs → Some <$> until_null xs = xs ∧ m = ∅).
Proof.
  intros Hq. assert (Hf : length xs = size (q_nodes q)).
  { destruct Hq as (ns & Hr & ->). by rewrite (queue_fuel _ _ Hr), length_fmap. }
  unfold queueDestroy. destruct (drain_loop_spec (size (q_nodes q)) q xs Hq) as (q' & -> & Hq'); [lia|].
  exists (q_nodes q'). destruct Hq' as (ns & Hr & Hns).
  assert (Hsz : size (q_nodes q') = length (after_null xs)).
  { by rewrite (queue_fuel _ _ Hr), Hns, length_fmap. }
  split_and!; [done|lia|]. intros Hall.
  assert (Hu : Some <$> until_null xs = xs ∧ after_null xs = []).
  { clear -Hall. induction Hall as [|[x|] xs Hx _ [IH1 IH2]]; [done| |done].
    simpl. split; [f_equal; exact IH1|exact IH2]. }
  destruct Hu as [Hu1 Hu2]. split; [done|]. rewrite Hu2 in Hsz. by apply map_size_empty_inv.
Qed.

End Theorems.

Lemma queue_refinement_witness :
  ∃ q', run_qcalls queueCreate [QPush (Some 1); QPush (Some 2); QPush None; QPop; QDelete 2; QCount; QPop; QPop]
        = Ok ([QFlag true; QFlag true; QFlag true; QItem (Some 1); QFlag true; QNum 1;
               QItem None; QItem None], q') ∧ qrepr (A := Z) q' [].
Proof.
  pose proof (queue_refinement (A := Z)
    [QPush (Some 1); QPush (Some 2); QPush None; QPop; QDelete 2; QCount; QPop; QPop]
    queueCreate [] qrepr_create) as H.
  assert (Hs : spec_qcalls (A := Z) []
    [QPush (Some 1); QPush (Some 2); QPush None; QPop; QDelete 2; QCount; QPop; QPop]
    = ([QFlag true; QFlag true; QFlag true; QItem (Some 1); QFlag true; QNum 1;
        QItem None; QItem None], [])) by (vm_compute; reflexivity).
  rewrite Hs in H. apply H. simpl. lia.
Defined.

(** A queue holding 1, NULL, 3. *)
Definition queue_with_null : icQueue Z :=
  mkQueue 3 (Some 1%positive) (Some 3%positive)
    (seg [(1%positive, Some 1); (2%positive, None); (3%positive, Some 3)] None).

Lemma queue_destroy_leaks_after_null_witness :
  qrepr queue_with_null [Some 1; None; Some 3] ∧
  ∃ m, queueDestroy (Some queue_with_null) = Ok ([1], m) ∧ Z.of_nat (size m) = 1.
Proof.
  assert (H : qrepr queue_with_null [Some 1; None; Some 3]).
  { exists [(1%positive, Some 1); (2%positive, None); (3%positive, Some 3)].
    split; [|done]. split; simpl; try done. by apply (bool_decide_unpack _); vm_compute. }
  split; [exact H|].
  destruct (queue_destroy_leaks_after_null queue_with_null _ H) as (m & He & Hs & _).
  exists m. split; [exact He|exact Hs].
Defined.

End Queue.
