(* ===== verification/Time.v ===== *)
(** * Time: clock values, deadlines and time trackers

    Models src/source/libs/time/c/src/timeUtils.c, the deadlines that
    src/source/libs/concurrent/c/src/timedWait.c hands to pthread_cond_timedwait,
    and src/source/libs/time/c/src/timeTracker.c.  The clock is an argument
    ([now]); the fields of a timespec are 64-bit in C and far from their
    limits, so they are plain integers, while the unsigned conversions keep
    their width. *)

From S2P Require Import Prelude.

Module Time.

Record timespec := mkTs { tv_sec : Z; tv_nsec : Z }.

#[global] Instance timespec_eq_dec : EqDecision timespec.
Proof. solve_decision. Defined.

Definition MILLIS_PER_SEC : Z := 1000.
Definition NANOS_PER_MILLI : Z := 1000000.
Definition BEGINNING_OF_2019_SECS : Z := 1546300800.

(** ** timeUtils.c *)

(** The result of getCurrentTime as a time_t. *)
Definition convertTimespecToTime_t (spec : timespec) : Z := tv_sec spec.

(** The division is by an unsigned long, so its dividend is converted. *)
Definition convertTimespecToUnixTimeMillis (spec : timespec) : Z :=
  let millis := u64 (u64 (tv_sec spec) * MILLIS_PER_SEC) in
  u64 (millis + u64 (tv_nsec spec) / NANOS_PER_MILLI).

Definition convertUnixTimeMillisToTimespec (millis : Z) : timespec :=
  mkTs (millis / MILLIS_PER_SEC) ((millis `mod` MILLIS_PER_SEC) * NANOS_PER_MILLI).

Definition convertUnixTimeMillisToTime_t (millis : Z) : Z := millis / MILLIS_PER_SEC.

Definition convertTime_tToUnixTimeMillis (time : Z) : Z := u64 (u64 time * MILLIS_PER_SEC).

(** end - beginning *)
Definition timespecDiff (e b : timespec) : timespec :=
  let s := tv_sec e - tv_sec b in
  let n := tv_nsec e - tv_nsec b in
  if decide (n < 0) then mkTs (s - 1) (n + 1000000000) else mkTs s n.

Definition timespecAdd (first second : timespec) : timespec :=
  let s := tv_sec first + tv_sec second in
  let n := tv_nsec first + tv_nsec second in
  if decide (1000000000 < n) then mkTs (s + 1) (n - 1000000000) else mkTs s n.

Definition isSystemTimeValid (now : timespec) : bool := bool_decide (BEGINNING_OF_2019_SECS < tv_sec now).

(** ** timedWait.c: the absolute time until which the condition is waited for *)

Definition incrementalCondTimedWait_deadline (now : timespec) (timeoutSecs : Z) : timespec :=
  mkTs (tv_sec now + timeoutSecs) (tv_nsec now).

Definition incrementalCondTimedWaitMillis_deadline (now : timespec) (timeoutMillis : Z) : timespec :=
  let s := tv_sec now + timeoutMillis / 1000 in
  let n := tv_nsec now + (timeoutMillis `mod` 1000) * 1000000 in
  if decide (1000000000 ≤ n) then mkTs (s + 1) (n - 1000000000) else mkTs s n.

(** The loop that carries nanoseconds into seconds; [totalNano] is a
    uint64_t. *)
Fixpoint carry_loop (fuel : nat) (sec totalNano : Z) : outcome timespec :=
  if decide (1000000000 ≤ totalNano) then
    match fuel with
    | O => Hang
    | S fuel => carry_loop fuel (sec + 1) (totalNano - 1000000000)
    end
  else Ok (mkTs sec totalNano).

Definition granularIncrementalCondTimedWait_deadline (now waitTime : timespec) : outcome timespec :=
  let totalNano := u64 (u64 (tv_nsec now) + tv_nsec waitTime) in
  carry_loop (Z.to_nat (totalNano / 1000000000)) (tv_sec now + tv_sec waitTime) totalNano.

(** ** timeTracker.c *)

Record timeTracker := mkTracker { startTime : Z; timeoutSecs : Z; running : bool }.

Definition timeTrackerCreate : timeTracker := mkTracker 0 0 false.

(** difftime of two readings of the monotonic clock, converted to uint32_t. *)
Definition timeTrackerElapsedSeconds (now : Z) (t : option timeTracker) : Z :=
  match t with
  | None => 0
  | Some t => if running t then u32 (now - startTime t) else u32 (startTime t)
  end.

Definition timeTrackerStart (now : Z) (t : option timeTracker) (timeout : Z) : option timeTracker :=
  match t with None => None | Some _ => Some (mkTracker now timeout true) end.

Definition timeTrackerStop (now : Z) (t : option timeTracker) : option timeTracker :=
  match t with
  | None => None
  | Some t' => Some (mkTracker (timeTrackerElapsedSeconds now t) (timeoutSecs t') false)
  end.

Definition timeTrackerRunning (t : option timeTracker) : bool :=
  match t with None => false | Some t => running t end.

Definition timeTrackerExpired (now : Z) (t : option timeTracker) : bool :=
  match t with
  | None => false
  | Some t' =>
      if running t' then bool_decide (timeoutSecs t' ≤ timeTrackerElapsedSeconds now t) else false
  end.

Definition timeTrackerSecondsUntilExpiration (now : Z) (t : option timeTracker) : Z :=
  match t with
  | None => 0
  | Some t' =>
      if running t' then
        let elapsed := timeTrackerElapsedSeconds now t in
        if decide (elapsed < timeoutSecs t') then timeoutSecs t' - elapsed else 0
      else 0
  end.

(** ** Theorems *)

(** A timespec as the system calls want it, and its value in nanoseconds. *)
Definition normal (t : timespec) : Prop := 0 ≤ tv_nsec t < 1000000000.
Definition nanos (t : timespec) : Z := tv_sec t * 1000000000 + tv_nsec t.

Lemma nanos_inj s t : normal s → normal t → nanos s = nanos t → s = t.
Proof. destruct s, t. unfold normal, nanos. simpl. intros. f_equal; lia. Qed.

Lemma carry_loop_spec fuel sec n :
  0 ≤ n → (Z.to_nat (n / 1000000000) ≤ fuel)%nat →
  ∃ t, carry_loop fuel sec n = Ok t ∧ normal t ∧ nanos t = sec * 1000000000 + n.
Proof.
  revert sec n. induction fuel as [|fuel IH]; intros sec n Hn Hf; simpl.
  - case_decide as Hd.
    + pose proof (Z.div_le_lower_bound n 1000000000 1 ltac:(lia) ltac:(lia)). lia.
    + eexists. split; [done|]. unfold normal, nanos. simpl. lia.
  - case_decide as Hd.
    + destruct (IH (sec + 1) (n - 1000000000)) as (t & -> & Ht & Hv); [lia| |].
      { replace (n - 1000000000) with (n + (-1) * 1000000000) by lia. rewrite Z.div_add by lia.
        pose proof (Z.div_le_lower_bound n 1000000000 1 ltac:(lia) ltac:(lia)). lia. }
      exists t. split_and!; [done|done|]. lia.
    + eexists. split; [done|]. unfold normal, nanos. simpl. lia.
Qed.

(** Differences and deadlines are exact and normal; additions are, except
    that a sum of exactly one second in the nanoseconds is left unnormalised. *)
Theorem timespec_arithmetic s t millis :
  normal s → normal t → 0 ≤ millis →
  (normal (timespecDiff s t) ∧ nanos (timespecDiff s t) = nanos s - nanos t) ∧
  (nanos (timespecAdd s t) = nanos s + nanos t ∧
   (normal (timespecAdd s t) ↔ tv_nsec s + tv_nsec t ≠ 1000000000)) ∧
  (let d := incrementalCondTimedWaitMillis_deadline s millis in
   normal d ∧ nanos d = nanos s + millis * 1000000) ∧
  (∃ d, granularIncrementalCondTimedWait_deadline s t = Ok d ∧ normal d ∧ nanos d = nanos s + nanos t).
Proof.
  unfold normal. intros Hs Ht Hm. split; [split|split; [split|split; [split|]]].
  - unfold timespecDiff. case_decide; simpl; lia.
  - unfold timespecDiff, nanos. case_decide; simpl; lia.
  - unfold timespecAdd, nanos. case_decide; simpl; lia.
  - unfold timespecAdd. case_decide; simpl; lia.
  - unfold incrementalCondTimedWaitMillis_deadline.
    pose proof (Z.mod_pos_bound millis 1000 ltac:(lia)). case_decide; simpl; lia.
  - unfold incrementalCondTimedWaitMillis_deadline, nanos.
    pose proof (Z.div_mod millis 1000 ltac:(lia)). pose proof (Z.mod_pos_bound millis 1000 ltac:(lia)).
    case_decide; simpl; lia.
  - unfold granularIncrementalCondTimedWait_deadline. rewrite (u64_small (tv_nsec s)) by lia.
    rewrite u64_small by lia.
    destruct (carry_loop_spec (Z.to_nat ((tv_nsec s + tv_nsec t) / 1000000000)) (tv_sec s + tv_sec t) (tv_nsec s + tv_nsec t))
      as (d & -> & Hd & Hv); [lia|done|].
    exists d. split; [done|]. split; [done|]. rewrite Hv. unfold nanos. lia.
Qed.

(** Milliseconds to a timespec and back, and the seconds they agree on. *)
Theorem millis_roundtrip millis :
  0 ≤ millis < 18446744073709551616 →
  normal (convertUnixTimeMillisToTimespec millis) ∧
  convertTimespecToUnixTimeMillis (convertUnixTimeMillisToTimespec millis) = millis ∧
  convertTimespecToTime_t (convertUnixTimeMillisToTimespec millis) = convertUnixTimeMillisToTime_t millis.
Proof.
  intros Hm. unfold normal, convertTimespecToUnixTimeMillis, convertUnixTimeMillisToTimespec,
    MILLIS_PER_SEC, NANOS_PER_MILLI. cbn [tv_sec tv_nsec].
  pose proof (Z.div_mod millis 1000 ltac:(lia)). pose proof (Z.mod_pos_bound millis 1000 ltac:(lia)).
  split; [lia|]. split; [|done].
  rewrite (u64_small (millis / 1000)), (u64_small (millis / 1000 * 1000)), (u64_small (_ * 1000000)) by lia.
  rewrite Z.div_mul by lia. rewrite u64_small; lia.
Qed.

(** A tracker started at [t0] with a time-out, read while the clock has not
    gone back: the elapsed and remaining seconds add up to the time-out until
    it expires, and after a stop the elapsed time stays readable. *)
Lemma timeTracker_spec t t0 timeout now later :
  0 ≤ t0 ≤ now → now - t0 < 4294967296 → 0 ≤ timeout < 4294967296 →
  let tr := timeTrackerStart t0 (Some t) timeout in
  timeTrackerRunning tr = true ∧
  timeTrackerElapsedSeconds now tr = now - t0 ∧
  timeTrackerExpired now tr = bool_decide (timeout ≤ now - t0) ∧
  timeTrackerSecondsUntilExpiration now tr = Z.max 0 (timeout - (now - t0)) ∧
  timeTrackerElapsedSeconds later (timeTrackerStop now tr) = now - t0 ∧
  timeTrackerExpired later (timeTrackerStop now tr) = false.
Proof.
  intros H0 H1 H2 tr. unfold tr, timeTrackerExpired, timeTrackerSecondsUntilExpiration, timeTrackerElapsedSeconds.
  simpl. rewrite !u32_small by (rewrite ?u32_small by lia; lia). split_and!; try done.
  case_decide; lia.
Qed.

End Time.
