(* ===== verification/BlockingQueue.v ===== *)
(** * icBlockingQueue: the bounded queue between threads

    Models src/source/libs/concurrent/c/src/icBlockingQueue.c.  Every function holds the mutex of
    the queue except while it waits on a condition variable, so a thread runs
    in atomic segments: from the call to the return or to a wait, and from the
    end of a wait to the return or to the next wait.  The segments are
    executable functions on the queue; [step] interleaves the segments of any
    number of threads with the signals, broadcasts, time-outs and spurious
    wake-ups that POSIX allows for condition variables.  The clock is an
    argument of a segment.  blockingQueueDestroy is not part of the step relation: it
    frees the object, after which no segment may run. *)

From S2P Require Import Prelude LinkedList LinkedListSpec Queue Time.
Import LinkedList ListSpec Queue Time.

Module BlockingQueue.

Definition BLOCKINGQUEUE_TIMEOUT_INFINITE : Z := 2147483647.
Definition BLOCKINGQUEUE_MAX_CAPACITY : Z := 65535.

(** What timed_wait does: wait for ever, wait until a time, or return
    ETIMEDOUT at once. *)
Inductive waiting := Forever | Until | AtOnce.

Definition timed_wait (timeout : timespec) : waiting :=
  if decide (tv_sec timeout = BLOCKINGQUEUE_TIMEOUT_INFINITE ∧ tv_nsec timeout = 0) then Forever
  else if decide (tv_sec timeout < 0 ∨ (tv_sec timeout = 0 ∧ tv_nsec timeout = 0)) then AtOnce
  else Until.

(** The values of condRet: 0, ETIMEDOUT, EINTR. *)
Inductive condRet := Zero | ETIMEDOUT | EINTR.

#[global] Instance condRet_eq_dec : EqDecision condRet.
Proof. solve_decision. Defined.

Section Code.
Context {A : Type}.

Record icBlockingQueue := mkBQ {
  capacity : Z;
  queue : icQueue A;
  enabled : bool
}.

Definition set_queue (b : icBlockingQueue) (q : icQueue A) := mkBQ (capacity b) q (enabled b).

Definition blockingQueueCreate (maxCapacity : Z) : icBlockingQueue :=
  mkBQ (if decide (0 < maxCapacity) then maxCapacity else BLOCKINGQUEUE_MAX_CAPACITY) queueCreate true.

(** A NULL queue is [None], here and below. *)
Definition blockingQueueCount (b : option icBlockingQueue) : Z :=
  match b with Some b => queueCount (Some (queue b)) | None => 0 end.

Definition blockingQueueIsDisabled (b : option icBlockingQueue) : bool :=
  match b with Some b => negb (enabled b) | None => true end.

(** How a segment ends: the function returns, perhaps after signalling the
    other condition, or the thread waits, [start] being its startTime; or it
    refuses a NULL argument, with the result [r] and no queue touched. *)
Inductive segment (R : Type) :=
  | Return (r : R) (signal : bool) (b : icBlockingQueue)
  | Block (forever : bool) (start : timespec)
  | Refuse (r : R).
Arguments Return {R}.
Arguments Block {R}.
Arguments Refuse {R}.

(** The time left: all of it the first time around. *)
Definition remaining (timeout : timespec) (start : option timespec) (now : timespec) : timespec * timespec :=
  match start with
  | None => (timeout, now)
  | Some st => (timespecDiff timeout (timespecDiff now st), st)
  end.

(** The rest of the loop body after the wait; [None]: go around again. *)
Definition push_finish (b : icBlockingQueue) (item : A) (ret : condRet) (count : Z)
    : outcome (option (segment bool)) :=
  let ret := if enabled b then ret else EINTR in
  if decide (ret = Zero ∧ count < capacity b) then
    '(_, q) ← queuePush (Some (queue b)) (Some item);
    q ← of_option q;
    Ok (Some (Return true (bool_decide (count = 0)) (set_queue b q)))
  else match ret with
       | ETIMEDOUT | EINTR => Ok (Some (Return false false b))
       | Zero => Ok None
       end.

(** The loop of blockingQueuePushTimeoutGranular. *)
Fixpoint push_loop (fuel : nat) (b : icBlockingQueue) (item : A) (timeout : timespec)
    (start : option timespec) (now : timespec) (ret : condRet) : outcome (segment bool) :=
  match fuel with
  | O => Hang
  | S fuel =>
      let count := blockingQueueCount (Some b) in
      let finish start ret :=
        fin ← push_finish b item ret count;
        match fin with
        | Some seg => Ok seg
        | None => push_loop fuel b item timeout start now ret
        end in
      if enabled b && bool_decide (count = capacity b) then
        let '(rest, st) := remaining timeout start now in
        match timed_wait rest with
        | Forever => Ok (Block true st)
        | Until => Ok (Block false st)
        | AtOnce => finish (Some st) ETIMEDOUT
        end
      else finish start ret
  end.

Definition blockingQueuePushTimeoutGranular (b : option icBlockingQueue) (item : option A) (timeout now : timespec)
    : outcome (segment bool) :=
  match b, item with
  | Some b, Some item => push_loop 2 b item timeout None now Zero
  | _, _ => Ok (Refuse false)
  end.

(** After the wait. *)
Definition push_resume (b : icBlockingQueue) (item : A) (timeout start now : timespec) (ret : condRet)
    : outcome (segment bool) :=
  fin ← push_finish b item ret (blockingQueueCount (Some b));
  match fin with
  | Some seg => Ok seg
  | None => push_loop 2 b item timeout (Some start) now ret
  end.

Definition blockingQueuePushTimeout (b : option icBlockingQueue) (item : option A) (timeout : Z) (now : timespec)
    : outcome (segment bool) := blockingQueuePushTimeoutGranular b item (mkTs timeout 0) now.

Definition blockingQueuePush (b : option icBlockingQueue) (item : option A) (now : timespec) : outcome (segment bool) :=
  blockingQueuePushTimeout b item BLOCKINGQUEUE_TIMEOUT_INFINITE now.

Definition pop_finish (b : icBlockingQueue) (ret : condRet) (count : Z) : outcome (option (segment (option A))) :=
  let ret := if enabled b then ret else EINTR in
  if decide (ret = Zero ∧ 0 < count) then
    '(x, q) ← queuePop (Some (queue b));
    q ← of_option q;
    Ok (Some (Return x (bool_decide (count = capacity b)) (set_queue b q)))
  else match ret with
       | ETIMEDOUT | EINTR => Ok (Some (Return None false b))
       | Zero => Ok None
       end.

(** The loop of blockingQueuePopTimeoutGranular. *)
Fixpoint pop_loop (fuel : nat) (b : icBlockingQueue) (timeout : timespec)
    (start : option timespec) (now : timespec) (ret : condRet) : outcome (segment (option A)) :=
  match fuel with
  | O => Hang
  | S fuel =>
      let count := blockingQueueCount (Some b) in
      let finish start ret :=
        fin ← pop_finish b ret count;
        match fin with
        | Some seg => Ok seg
        | None => pop_loop fuel b timeout start now ret
        end in
      if enabled b && bool_decide (count = 0) then
        let '(rest, st) := remaining timeout start now in
        match timed_wait rest with
        | Forever => Ok (Block true st)
        | Until => Ok (Block false st)
        | AtOnce => finish (Some st) ETIMEDOUT
        end
      else finish start ret
  end.

Definition blockingQueuePopTimeoutGranular (b : option icBlockingQueue) (timeout now : timespec)
    : outcome (segment (option A)) :=
  match b with
  | Some b => pop_loop 2 b timeout None now Zero
  | None => Ok (Refuse None)
  end.

Definition pop_resume (b : icBlockingQueue) (timeout start now : timespec) (ret : condRet)
    : outcome (segment (option A)) :=
  fin ← pop_finish b ret (blockingQueueCount (Some b));
  match fin with
  | Some seg => Ok seg
  | None => pop_loop 2 b timeout (Some start) now ret
  end.

Definition blockingQueuePopTimeout (b : option icBlockingQueue) (timeout : Z) (now : timespec)
    : outcome (segment (option A)) := blockingQueuePopTimeoutGranular b (mkTs timeout 0) now.

Definition blockingQueuePop (b : option icBlockingQueue) (now : timespec) : outcome (segment (option A)) :=
  blockingQueuePopTimeout b BLOCKINGQUEUE_TIMEOUT_INFINITE now.

(** The result, the released items, whether fullCondition is signalled, and
    the queue. *)
Definition blockingQueueDelete {S} (b : option icBlockingQueue) (searchVal : S)
    (searchFunc : S → option A → outcome bool)
    : outcome (bool * list (option A) * bool * option icBlockingQueue) :=
  match b with
  | None => Ok (false, [], false, None)
  | Some b =>
      let count := blockingQueueCount (Some b) in
      '(ret, rel, q) ← queueDelete (Some (queue b)) searchVal searchFunc;
      q ← of_option q;
      Ok (ret, rel, ret && bool_decide (count = capacity b), Some (set_queue b q))
  end.

Definition blockingQueueClear (b : option icBlockingQueue) : outcome (list A * bool * option icBlockingQueue) :=
  match b with
  | None => Ok ([], false, None)
  | Some b =>
      let count := blockingQueueCount (Some b) in
      '(rel, q) ← queueClear (Some (queue b));
      q ← of_option q;
      Ok (rel, bool_decide (count = capacity b), Some (set_queue b q))
  end.

(** The queue, and whether both conditions are broadcast. *)
Definition blockingQueueDisable (b : option icBlockingQueue) : option icBlockingQueue * bool :=
  match b with
  | None => (None, false)
  | Some b => (Some (mkBQ (capacity b) (queue b) false), true)
  end.

(** The items that are released and the nodes that are left. *)
Definition blockingQueueDestroy (b : option icBlockingQueue) : outcome (list A * gmap addr (listNode A)) :=
  match b with
  | None => Ok ([], ∅)
  | Some b => queueDestroy (Some (queue b))
  end.

Definition blockingQueueIterate {S} (b : option icBlockingQueue)
    (callback : option A → S → outcome (bool * S)) (arg : S) : outcome S :=
  match b with
  | None => Ok arg
  | Some b => queueIterate (Some (queue b)) callback arg
  end.

(** ** Threads *)

Inductive thread :=
  | Idle
  | PushWait (item : A) (timeout start : timespec) (forever : bool)   (* on fullCondition *)
  | PushWoken (item : A) (timeout start : timespec) (ret : condRet)   (* about to take the mutex again *)
  | PopWait (timeout start : timespec) (forever : bool)               (* on emptyCondition *)
  | PopWoken (timeout start : timespec) (ret : condRet).

Definition on_full (t : thread) : bool := match t with PushWait _ _ _ _ => true | _ => false end.
Definition on_empty (t : thread) : bool := match t with PopWait _ _ _ => true | _ => false end.
Definition waits_forever (t : thread) : bool :=
  match t with PushWait _ _ _ f | PopWait _ _ f => f | _ => false end.

(** The end of a wait. *)
Definition wake (ret : condRet) (t : thread) : thread :=
  match t with
  | PushWait item timeout start _ => PushWoken item timeout start ret
  | PopWait timeout start _ => PopWoken timeout start ret
  | _ => t
  end.

(** What happened to the queue, in order. *)
Inductive event := EvPush (x : A) | EvPop (x : A) | EvDelete (x : A) | EvClear (xs : list A).

Record sys := mkSys {
  bq : icBlockingQueue;
  threads : gmap nat thread;
  log : list event
}.

(** pthread_cond_signal, if [signal]: one waiter, if there is one. *)
Inductive signals (on : thread → bool) (signal : bool) (ths : gmap nat thread) : gmap nat thread → Prop :=
  | signals_none : signal = false ∨ (∀ t st, ths !! t = Some st → on st = false) → signals on signal ths ths
  | signals_one t st : signal = true → ths !! t = Some st → on st = true →
      signals on signal ths (<[t := wake Zero st]> ths).

(** The end of a push or pop segment of thread [t]. *)
Inductive push_ends (s : sys) (t : nat) (item : A) (timeout : timespec) : segment bool → sys → Prop :=
  | push_returns r sg b ths :
      signals on_empty sg (<[t := Idle]> (threads s)) ths →
      push_ends s t item timeout (Return r sg b) (mkSys b ths (log s ++ if r : bool then [EvPush item] else []))
  | push_blocks f st :
      push_ends s t item timeout (Block f st)
        (mkSys (bq s) (<[t := PushWait item timeout st f]> (threads s)) (log s)).

Inductive pop_ends (s : sys) (t : nat) (timeout : timespec) : segment (option A) → sys → Prop :=
  | pop_returns r sg b ths :
      signals on_full sg (<[t := Idle]> (threads s)) ths →
      pop_ends s t timeout (Return r sg b)
        (mkSys b ths (log s ++ match r with Some x => [EvPop x] | None => [] end))
  | pop_blocks f st :
      pop_ends s t timeout (Block f st) (mkSys (bq s) (<[t := PopWait timeout st f]> (threads s)) (log s)).

Inductive step (s : sys) : sys → Prop :=
  | step_push t item timeout now seg s' :
      threads s !! t = Some Idle →
      blockingQueuePushTimeoutGranular (Some (bq s)) (Some item) timeout now = Ok seg →
      push_ends s t item timeout seg s' → step s s'
  | step_push_again t item timeout start ret now seg s' :
      threads s !! t = Some (PushWoken item timeout start ret) →
      push_resume (bq s) item timeout start now ret = Ok seg →
      push_ends s t item timeout seg s' → step s s'
  | step_pop t timeout now seg s' :
      threads s !! t = Some Idle →
      blockingQueuePopTimeoutGranular (Some (bq s)) timeout now = Ok seg →
      pop_ends s t timeout seg s' → step s s'
  | step_pop_again t timeout start ret now seg s' :
      threads s !! t = Some (PopWoken timeout start ret) →
      pop_resume (bq s) timeout start now ret = Ok seg →
      pop_ends s t timeout seg s' → step s s'
  | step_spurious t st :
      threads s !! t = Some st → on_full st || on_empty st = true →
      step s (mkSys (bq s) (<[t := wake Zero st]> (threads s)) (log s))
  | step_timeout t st :
      threads s !! t = Some st → on_full st || on_empty st = true → waits_forever st = false →
      step s (mkSys (bq s) (<[t := wake ETIMEDOUT st]> (threads s)) (log s))
  | step_delete t (p : A → bool) ret rel sg b ths :
      threads s !! t = Some Idle →
      blockingQueueDelete (Some (bq s)) () (λ _ o, Ok match o with Some x => p x | None => false end)
        = Ok (ret, rel, sg, Some b) →
      signals on_full sg (threads s) ths →
      step s (mkSys b ths (log s ++ (EvDelete <$> omap id rel)))
  | step_clear t rel sg b ths :
      threads s !! t = Some Idle →
      blockingQueueClear (Some (bq s)) = Ok (rel, sg, Some b) → signals on_full sg (threads s) ths →
      step s (mkSys b ths (log s ++ [EvClear rel]))
  | step_disable t b :
      threads s !! t = Some Idle →
      blockingQueueDisable (Some (bq s)) = (Some b, true) →
      step s (mkSys b ((λ st, if on_full st || on_empty st then wake Zero st else st) <$> threads s)
        (log s)).

(** A new queue and idle threads. *)
Definition initial (cap : Z) (s : sys) : Prop :=
  bq s = blockingQueueCreate cap ∧ (∀ t st, threads s !! t = Some st → st = Idle) ∧ log s = [].

Definition reachable (cap : Z) (s : sys) : Prop := ∃ s0, initial cap s0 ∧ rtc step s0 s.

End Code.
Arguments icBlockingQueue : clear implicits.
Arguments sys : clear implicits.
Arguments thread : clear implicits.
Arguments event : clear implicits.
Arguments segment : clear implicits.
Arguments Return {A R}.
Arguments Block {A R}.
Arguments Refuse {A R}.

End BlockingQueue.
