(* ===== verification/BlockingQueueTheorems.v ===== *)
(** * Behaviour of the blocking queue

    The queue between threads is linearizable: what the threads did is a legal
    sequential history of a bounded FIFO queue.  Disabling releases every
    waiter.  Signals are sent only when the queue stops being empty or full,
    which is enough for one consumer and one producer at a time, but not for
    several. *)

From S2P Require Import Prelude LinkedList LinkedListSpec Queue Time BlockingQueue.
Import LinkedList ListSpec Queue Time BlockingQueue.

Module BlockingTheorems.
Section Theorems.
Context {A : Type}.
Implicit Types (b : icBlockingQueue A) (xs : list A) (s : sys A) (ths : gmap nat (thread A)) (st : thread A).

(** The queue holds [xs]. *)
Record bmodel b xs : Prop := {
  b_repr : qrepr (queue b) (Some <$> xs);
  b_size : zlen xs ≤ capacity b;
  b_cap : 0 < capacity b ≤ 65535
}.

Lemma count_model b xs : bmodel b xs → blockingQueueCount (Some b) = zlen xs.
Proof.
  intros [(ns & Hr & Hns) _ _]. unfold blockingQueueCount. simpl. rewrite (r_size _ _ Hr).
  apply (f_equal length) in Hns. rewrite !length_fmap in Hns. lia.
Qed.

Lemma create_model cap : 0 ≤ cap ≤ 65535 → bmodel (blockingQueueCreate cap) [].
Proof.
  intros Hc. unfold blockingQueueCreate, BLOCKINGQUEUE_MAX_CAPACITY. split; simpl; [apply qrepr_create|..];
    case_decide; lia.
Qed.

(** ** Segments *)

Definition push_result b xs (item : A) (seg : segment A bool) : Prop :=
  match seg with
  | Return true sg b' =>
      enabled b = true ∧ zlen xs < capacity b ∧ sg = bool_decide (zlen xs = 0) ∧
      bmodel b' (xs ++ [item]) ∧ capacity b' = capacity b ∧ enabled b' = enabled b
  | Return false sg b' => sg = false ∧ b' = b
  | Block _ _ => enabled b = true ∧ zlen xs = capacity b
  | Refuse _ => False
  end.

Lemma push_finish_spec b xs item ret :
  bmodel b xs →
  push_finish b item ret (zlen xs) = Ok None ∧ enabled b = true ∧ ret = Zero ∧ zlen xs = capacity b ∨
  ∃ seg, push_finish b item ret (zlen xs) = Ok (Some seg) ∧ push_result b xs item seg.
Proof.
  intros Hb. unfold push_finish. case_decide as Hd.
  - right. destruct Hd as [Hr Hlt]. destruct (enabled b) eqn:He; [|done].
    destruct (qrepr_push (queue b) (Some <$> xs) (Some item) (b_repr _ _ Hb)) as (q' & -> & Hq').
    { rewrite length_fmap. pose proof (b_cap _ _ Hb). lia. }
    simpl. eexists. split; [done|]. simpl. split_and!; try done. split; simpl.
    + by rewrite fmap_app.
    + rewrite length_app. simpl. lia.
    + apply Hb.
  - destruct (enabled b) eqn:He; [|right; by exists (Return false false b)].
    destruct ret; [left|right; by exists (Return false false b)..].
    split_and!; try done. pose proof (b_size _ _ Hb). destruct (decide (zlen xs < capacity b)); [|lia].
    exfalso. by apply Hd.
Qed.

(** One time around the loop is enough. *)
Lemma push_loop_spec fuel b xs item timeout start now ret :
  bmodel b xs → ∃ seg, push_loop (S fuel) b item timeout start now ret = Ok seg ∧ push_result b xs item seg.
Proof.
  intros Hb. cbn [push_loop]. rewrite (count_model _ _ Hb).
  destruct (enabled b && bool_decide (zlen xs = capacity b)) eqn:E.
  - apply andb_prop in E as [He Hf%bool_decide_eq_true]. destruct (remaining timeout start now) as [rest st'].
    destruct (timed_wait rest); [by eexists|by eexists|].
    destruct (push_finish_spec b xs item ETIMEDOUT Hb) as [(_ & _ & ? & _)|(seg & -> & Hs)]; [done|]. by exists seg.
  - destruct (push_finish_spec b xs item ret Hb) as [(_ & He & _ & Hf)|(seg & -> & Hs)]; [|by exists seg].
    rewrite He, bool_decide_true in E by done. done.
Qed.

Lemma push_resume_spec b xs item timeout start now ret :
  bmodel b xs → ∃ seg, push_resume b item timeout start now ret = Ok seg ∧ push_result b xs item seg.
Proof.
  intros Hb. unfold push_resume. rewrite (count_model _ _ Hb).
  destruct (push_finish_spec b xs item ret Hb) as [(-> & _)|(seg & -> & Hs)]; [|by exists seg].
  obind. by apply push_loop_spec.
Qed.

Definition pop_result b xs (seg : segment A (option A)) : Prop :=
  match seg with
  | Return (Some x) sg b' =>
      enabled b = true ∧ ∃ xs', xs = x :: xs' ∧ sg = bool_decide (zlen xs = capacity b) ∧
      bmodel b' xs' ∧ capacity b' = capacity b ∧ enabled b' = enabled b
  | Return None sg b' => sg = false ∧ b' = b
  | Block _ _ => enabled b = true ∧ xs = []
  | Refuse _ => False
  end.

Lemma pop_finish_spec b xs ret :
  bmodel b xs →
  pop_finish b ret (zlen xs) = Ok None ∧ enabled b = true ∧ ret = Zero ∧ xs = [] ∨
  ∃ seg, pop_finish b ret (zlen xs) = Ok (Some seg) ∧ pop_result b xs seg.
Proof.
  intros Hb. unfold pop_finish. case_decide as Hd.
  - right. destruct Hd as [Hr Hlt]. destruct (enabled b) eqn:He; [|done]. destruct xs as [|x xs]; [done|].
    destruct (qrepr_pop (queue b) _ (b_repr _ _ Hb)) as (q' & -> & Hq').
    simpl. eexists. split; [done|]. simpl. split; [done|]. exists xs. split_and!; try done.
    pose proof (b_size _ _ Hb) as Hs. simpl in Hs. split; simpl; [done|lia|apply Hb].
  - destruct (enabled b) eqn:He; [|right; by exists (Return None false b)].
    destruct ret; [left|right; by exists (Return None false b)..].
    split_and!; try done. destruct xs as [|x xs]; [done|]. exfalso. apply Hd. simpl. split; [done|lia].
Qed.

Lemma pop_loop_spec fuel b xs timeout start now ret :
  bmodel b xs → ∃ seg, pop_loop (S fuel) b timeout start now ret = Ok seg ∧ pop_result b xs seg.
Proof.
  intros Hb. cbn [pop_loop]. rewrite (count_model _ _ Hb).
  destruct (enabled b && bool_decide (zlen xs = 0)) eqn:E.
  - apply andb_prop in E as [He Hf%bool_decide_eq_true]. destruct (remaining timeout start now) as [rest st'].
    assert (xs = []) as -> by (by destruct xs). destruct (timed_wait rest); [by eexists|by eexists|].
    destruct (pop_finish_spec b [] ETIMEDOUT Hb) as [(_ & _ & ? & _)|(seg & -> & Hs)]; [done|]. by exists seg.
  - destruct (pop_finish_spec b xs ret Hb) as [(_ & He & _ & ->)|(seg & -> & Hs)]; [|by exists seg].
    by rewrite He in E.
Qed.

Lemma pop_resume_spec b xs timeout start now ret :
  bmodel b xs → ∃ seg, pop_resume b timeout start now ret = Ok seg ∧ pop_result b xs seg.
Proof.
  intros Hb. unfold pop_resume. rewrite (count_model _ _ Hb).
  destruct (pop_finish_spec b xs ret Hb) as [(-> & _)|(seg & -> & Hs)]; [|by exists seg].
  obind. by apply pop_loop_spec.
Qed.

Lemma clear_model b xs :
  bmodel b xs →
  ∃ b', blockingQueueClear (Some b) = Ok (xs, bool_decide (zlen xs = capacity b), Some b') ∧ bmodel b' [] ∧
    capacity b' = capacity b ∧ enabled b' = enabled b.
Proof.
  intros Hb. unfold blockingQueueClear. rewrite (count_model _ _ Hb). pose proof (b_cap _ _ Hb) as Hc.
  destruct (qrepr_clear (queue b) xs (b_repr _ _ Hb)) as (q' & -> & Hq'). simpl.
  eexists. split; [done|]. split_and!; try done. split; simpl; [done|lia|lia].
Qed.

Lemma destroy_model b xs : bmodel b xs → blockingQueueDestroy (Some b) = Ok (xs, ∅).
Proof. intros Hb. apply (qrepr_destroy (queue b) xs), Hb. Qed.

Lemma disable_model b xs b' : bmodel b xs → blockingQueueDisable (Some b) = (Some b', true) → bmodel b' xs.
Proof. intros [Hr Hs Hc] [= <-]. by split. Qed.

(** The first item that satisfies [p], and the others. *)
Lemma delete_model b xs (p : A → bool) :
  bmodel b xs →
  let f := λ (_ : ()) (o : option A), Ok match o with Some x => p x | None => false end in
  blockingQueueDelete (Some b) () f = Ok (false, [], false, Some b) ∨
  ∃ x xs1 xs2 b', xs = xs1 ++ x :: xs2 ∧
    blockingQueueDelete (Some b) () f = Ok (true, [Some x], bool_decide (zlen xs = capacity b), Some b') ∧
    bmodel b' (xs1 ++ xs2) ∧ capacity b' = capacity b ∧ enabled b' = enabled b.
Proof.
  intros Hb f. unfold blockingQueueDelete. rewrite (count_model _ _ Hb).
  pose proof (qrepr_delete (queue b) (Some <$> xs) () f (λ o, match o with Some x => p x | None => false end)
    (b_repr _ _ Hb) ltac:(done)) as Hd.
  destruct (find_first _ (Some <$> xs)) as [o|] eqn:E.
  - right. destruct Hd as (q' & -> & Hq'). apply find_first_split in E as (l1 & l2 & Hl & _ & _ & Hdel).
    apply fmap_app_inv in Hl as (xs1 & t & -> & Ht & ->). destruct t as [|x xs2]; [done|].
    simpl in Ht. injection Ht as -> ->. exists x, xs1, xs2. eexists. split; [done|]. simpl. split; [done|].
    split_and!; try done. rewrite Hdel, <-fmap_app in Hq'. pose proof (b_size _ _ Hb) as Hs.
    rewrite length_app in Hs. simpl in Hs. split; simpl; [done|rewrite length_app; lia|apply Hb].
  - left. rewrite Hd. simpl. by destruct b.
Qed.

(** ** Histories of a bounded FIFO queue *)

Inductive history : list (event A) → list A → Prop :=
  | history_new : history [] []
  | history_push l xs x : history l xs → history (l ++ [EvPush x]) (xs ++ [x])
  | history_pop l xs x : history l (x :: xs) → history (l ++ [EvPop x]) xs
  | history_delete l xs1 x xs2 : history l (xs1 ++ x :: xs2) → history (l ++ [EvDelete x]) (xs1 ++ xs2)
  | history_clear l xs : history l xs → history (l ++ [EvClear xs]) [].

(** The effect of a step on the queue: everything but the threads. *)
Inductive effect (b b' : icBlockingQueue A) (xs : list A) (l l' : list (event A)) : list A → Prop :=
  | no_effect : b' = b → l' = l → effect b b' xs l l' xs
  | disables : (Some b', true) = blockingQueueDisable (Some b) → l' = l → effect b b' xs l l' xs
  | pushes x : enabled b = true → l' = l ++ [EvPush x] → effect b b' xs l l' (xs ++ [x])
  | pops x xs' : xs = x :: xs' → l' = l ++ [EvPop x] → effect b b' xs l l' xs'
  | deletes xs1 x xs2 : xs = xs1 ++ x :: xs2 → l' = l ++ [EvDelete x] → effect b b' xs l l' (xs1 ++ xs2)
  | clears : l' = l ++ [EvClear xs] → effect b b' xs l l' [].

Lemma step_effect s s' xs :
  bmodel (bq s) xs → step s s' →
  ∃ xs', bmodel (bq s') xs' ∧ capacity (bq s') = capacity (bq s) ∧ effect (bq s) (bq s') xs (log s) (log s') xs'.
Proof.
  intros Hb Hst.
  assert (Hpush : ∀ t item timeout seg, push_result (bq s) xs item seg → push_ends s t item timeout seg s' →
    ∃ xs', bmodel (bq s') xs' ∧ capacity (bq s') = capacity (bq s) ∧ effect (bq s) (bq s') xs (log s) (log s') xs').
  { intros t item timeout seg Hr He. destruct He as [[] sg b' ths Hsig|f st'].
    - destruct Hr as (Hen & _ & _ & Hb' & Hc & _). exists (xs ++ [item]). split_and!; [done|done|]. by eapply pushes.
    - destruct Hr as [_ ->]. exists xs. split_and!; [done|done|]. apply no_effect; [done|]. simpl. by rewrite app_nil_r.
    - exists xs. split_and!; [done|done|]. by apply no_effect. }
  assert (Hpop : ∀ t timeout seg, pop_result (bq s) xs seg → pop_ends s t timeout seg s' →
    ∃ xs', bmodel (bq s') xs' ∧ capacity (bq s') = capacity (bq s) ∧ effect (bq s) (bq s') xs (log s) (log s') xs').
  { intros t timeout seg Hr He. destruct He as [[x|] sg b' ths Hsig|f st'].
    - destruct Hr as (_ & xs' & -> & _ & Hb' & Hc & _). exists xs'. split_and!; [done|done|]. by eapply pops.
    - destruct Hr as [_ ->]. exists xs. split_and!; [done|done|]. apply no_effect; [done|]. simpl. by rewrite app_nil_r.
    - exists xs. split_and!; [done|done|]. by apply no_effect. }
  destruct Hst as [t item timeout now seg s' _ Hseg He|t item timeout start ret now seg s' _ Hseg He
    |t timeout now seg s' _ Hseg He|t timeout start ret now seg s' _ Hseg He|t st' _ _|t st' _ _ _
    |t p ret rel sg b' ths _ Hd _|t rel sg b' ths _ Hc _|t b' _ Hdis].
  - destruct (push_loop_spec 1 (bq s) xs item timeout None now Zero Hb) as (seg' & Hs & Hr).
    unfold blockingQueuePushTimeoutGranular in Hseg. rewrite Hs in Hseg. injection Hseg as ->. by eapply Hpush.
  - destruct (push_resume_spec (bq s) xs item timeout start now ret Hb) as (seg' & Hs & Hr).
    rewrite Hs in Hseg. injection Hseg as ->. by eapply Hpush.
  - destruct (pop_loop_spec 1 (bq s) xs timeout None now Zero Hb) as (seg' & Hs & Hr).
    unfold blockingQueuePopTimeoutGranular in Hseg. rewrite Hs in Hseg. injection Hseg as ->. by eapply Hpop.
  - destruct (pop_resume_spec (bq s) xs timeout start now ret Hb) as (seg' & Hs & Hr).
    rewrite Hs in Hseg. injection Hseg as ->. by eapply Hpop.
  - exists xs. split_and!; [done|done|]. by apply no_effect.
  - exists xs. split_and!; [done|done|]. by apply no_effect.
  - destruct (delete_model (bq s) xs p Hb) as [Hn|(x & xs1 & xs2 & b2 & -> & Hn & Hb2 & Hc2 & _)];
      rewrite Hn in Hd; injection Hd as <- <- <- <-.
    + exists xs. split_and!; [done|done|]. apply no_effect; [done|]. simpl. by rewrite app_nil_r.
    + exists (xs1 ++ xs2). split_and!; [done|done|]. by eapply deletes.
  - destruct (clear_model (bq s) xs Hb) as (b2 & Hn & Hb2 & Hc2 & _). rewrite Hn in Hc. injection Hc as <- <- <-.
    exists []. split_and!; [done|done|]. by apply clears.
  - simpl in Hdis. injection Hdis as <-. exists xs. split_and!; [|done|by apply disables]. destruct Hb. by split.
Qed.

Lemma effect_history b b' xs l l' xs' : effect b b' xs l l' xs' → history l xs → history l' xs'.
Proof.
  intros He Hh. destruct He as [_ ->|_ ->|x _ ->|x xs' -> ->|xs1 x xs2 -> -> | -> ]; try done; by constructor.
Qed.

Lemma reachable_model cap s :
  0 ≤ cap ≤ 65535 → reachable cap s →
  ∃ xs, bmodel (bq s) xs ∧ capacity (bq s) = capacity (blockingQueueCreate (A := A) cap) ∧ history (log s) xs.
Proof.
  intros Hcap (s0 & (Hb0 & _ & Hl0) & Hr).
  assert (Hinv : ∃ xs, bmodel (bq s0) xs ∧ capacity (bq s0) = capacity (blockingQueueCreate (A := A) cap) ∧ history (log s0) xs).
  { exists []. rewrite Hb0, Hl0. split_and!; [by apply create_model|done|constructor]. }
  clear Hb0 Hl0. induction Hr as [s|s s1 s2 Hst _ IH]; [done|]. apply IH.
  destruct Hinv as (xs & Hb & Hc & Hh). destruct (step_effect s s1 xs Hb Hst) as (xs' & Hb' & Hc' & He).
  exists xs'. split_and!; [done|congruence|]. by eapply effect_history.
Qed.

(** C14: the blocking queue is a bounded FIFO queue.  Whatever threads push,
    pop, delete, clear and disable in whatever order, with whatever time-outs
    and wake-ups: what happened is a legal history of a FIFO queue (every pop
    returned the oldest item not yet removed, every push added at the end),
    the queue holds exactly the items of that history and never more than its
    capacity; and no push or pop, first or resumed, crashes or goes around
    its loop for ever. *)
Theorem blockingQueue_linearizable cap s :
  0 ≤ cap ≤ 65535 → reachable cap s →
  ∃ xs, qrepr (queue (bq s)) (Some <$> xs) ∧ history (log s) xs ∧
    zlen xs ≤ (if decide (cap = 0) then 65535 else cap) ∧
    (∀ item timeout now, ∃ seg, blockingQueuePushTimeoutGranular (Some (bq s)) (Some item) timeout now = Ok seg) ∧
    (∀ timeout now, ∃ seg, blockingQueuePopTimeoutGranular (Some (bq s)) timeout now = Ok seg) ∧
    (∀ item timeout start now ret, ∃ seg, push_resume (bq s) item timeout start now ret = Ok seg) ∧
    (∀ timeout start now ret, ∃ seg, pop_resume (bq s) timeout start now ret = Ok seg).
Proof.
  intros Hcap Hr. destruct (reachable_model cap s Hcap Hr) as (xs & Hb & Hc & Hh). exists xs. split_and!.
  - apply Hb.
  - done.
  - pose proof (b_size _ _ Hb) as Hs. rewrite Hc in Hs. unfold blockingQueueCreate, BLOCKINGQUEUE_MAX_CAPACITY in Hs.
    simpl in Hs. repeat case_decide; lia.
  - intros item timeout now. destruct (push_loop_spec 1 (bq s) xs item timeout None now Zero Hb) as (seg & Hs & _). by exists seg.
  - intros timeout now. destruct (pop_loop_spec 1 (bq s) xs timeout None now Zero Hb) as (seg & Hs & _). by exists seg.
  - intros item timeout start now ret. destruct (push_resume_spec (bq s) xs item timeout start now ret Hb) as (seg & Hs & _).
    by exists seg.
  - intros timeout start now ret. destruct (pop_resume_spec (bq s) xs timeout start now ret Hb) as (seg & Hs & _). by exists seg.
Qed.

(** ** Waiting threads *)

(** Another thread than [t] waits on the same condition. *)
Definition other (on : thread A → bool) ths (t : nat) : Prop :=
  ∃ t2 st2, t2 ≠ t ∧ ths !! t2 = Some st2 ∧ on st2 = true.

Definition waits st : bool := on_full st || on_empty st.

Lemma wake_waits r st : waits (wake r st) = false.
Proof. by destruct st. Qed.

Lemma waits_empty st : on_empty st = true → waits st = true.
Proof. unfold waits. intros ->. apply orb_true_r. Qed.

Lemma waits_full st : on_full st = true → waits st = true.
Proof. unfold waits. by intros ->. Qed.

(** An update with a thread that does not wait adds no waiter. *)
Lemma update_waits ths t0 st0 t st :
  waits st0 = false → <[t0 := st0]> ths !! t = Some st → waits st = true → ths !! t = Some st ∧ t ≠ t0.
Proof.
  intros H0 Ht Hw. destruct (decide (t0 = t)) as [->|Hne].
  - rewrite lookup_insert_eq in Ht. congruence.
  - rewrite lookup_insert_ne in Ht by done. split; congruence.
Qed.

(** Signalling adds no waiter; if it signals, a thread that still waits was
    not alone. *)
Lemma signals_waits on sg ths ths' t st :
  (∀ st', on st' = true → waits st' = true) →
  signals on sg ths ths' → ths' !! t = Some st → waits st = true →
  ths !! t = Some st ∧ (sg = true → on st = true → other on ths t).
Proof.
  intros Hon Hs Ht Hw. destruct Hs as [Hn|t1 st1 Hsg H1 Hon1].
  - split; [done|]. intros -> Hst. destruct Hn as [|Hn]; [done|]. by rewrite (Hn t st Ht) in Hst.
  - apply update_waits in Ht as [Ht Hne]; [|apply wake_waits|done]. split; [done|]. intros _ _. by exists t1, st1.
Qed.

Lemma other_idle on ths t0 t :
  (∀ st', on st' = true → waits st' = true) → other on (<[t0 := Idle]> ths) t → other on ths t.
Proof.
  intros Hon (t2 & st2 & Hne & Ht2 & Hon2). apply update_waits in Ht2 as [Ht2 _]; [|done|by apply Hon].
  by exists t2, st2.
Qed.

(** What a step does to the waiters: a thread that waits after it just
    blocked, for a good reason, or waited before; and when the queue stopped
    being empty (full), another waiter was woken. *)
Definition waiters_ok s s' xs xs' : Prop :=
  capacity (bq s') = capacity (bq s) ∧ ∀ t st, threads s' !! t = Some st → waits st = true →
    (bq s' = bq s ∧ xs' = xs ∧ enabled (bq s) = true ∧ (on_empty st = true → xs = []) ∧
     (on_full st = true → zlen xs = capacity (bq s))) ∨
    (threads s !! t = Some st ∧ enabled (bq s') = enabled (bq s) ∧
     (on_empty st = true → xs = [] → xs' = [] ∨ other on_empty (threads s) t) ∧
     (on_full st = true → zlen xs = capacity (bq s) → zlen xs' = capacity (bq s) ∨ other on_full (threads s) t)).

Lemma push_waiters s s' xs t item timeout seg :
  bmodel (bq s) xs → push_result (bq s) xs item seg → push_ends s t item timeout seg s' →
  ∃ xs', bmodel (bq s') xs' ∧ waiters_ok s s' xs xs'.
Proof.
  intros Hb Hr He. destruct He as [[] sg b' ths Hsig|f st'].
  - destruct Hr as (_ & Hlt & -> & Hb' & Hc' & He'). exists (xs ++ [item]). split; [done|]. split; [done|]. intros t1 st1 Ht1 Hw.
    destruct (signals_waits _ _ _ _ _ _ waits_empty Hsig Ht1 Hw) as [Hold Hsg].
    apply update_waits in Hold as [Hold _]; [|done|done]. right. split_and!; [done|done| |].
    + intros Hon ->. right. eapply other_idle; [apply waits_empty|]. by apply Hsg.
    + intros _ Hfull. simpl in *. lia.
  - destruct Hr as [-> ->]. exists xs. split; [done|]. split; [done|]. intros t1 st1 Ht1 Hw.
    destruct (signals_waits _ _ _ _ _ _ waits_empty Hsig Ht1 Hw) as [Hold _].
    apply update_waits in Hold as [Hold _]; [|done|done]. right. split_and!; [done|done|by left|by left].
  - destruct Hr as [Hen Hfull]. exists xs. split; [done|]. split; [done|]. intros t1 st1 Ht1 Hw. simpl in Ht1.
    destruct (decide (t = t1)) as [->|Hne].
    + rewrite lookup_insert_eq in Ht1. simplify_eq. left. by split_and!.
    + rewrite lookup_insert_ne in Ht1 by done. right. split_and!; [done|done|by left|by left].
Qed.

Lemma pop_waiters s s' xs t timeout seg :
  bmodel (bq s) xs → pop_result (bq s) xs seg → pop_ends s t timeout seg s' →
  ∃ xs', bmodel (bq s') xs' ∧ waiters_ok s s' xs xs'.
Proof.
  intros Hb Hr He. destruct He as [[x|] sg b' ths Hsig|f st'].
  - destruct Hr as (_ & xs' & -> & -> & Hb' & Hc' & He'). exists xs'. split; [done|]. split; [done|]. intros t1 st1 Ht1 Hw.
    destruct (signals_waits _ _ _ _ _ _ waits_full Hsig Ht1 Hw) as [Hold Hsg].
    apply update_waits in Hold as [Hold _]; [|done|done]. right. split_and!; [done|done|done|].
    intros Hon Hfull. right. eapply other_idle; [apply waits_full|]. apply Hsg; [|done]. by apply bool_decide_true.
  - destruct Hr as [-> ->]. exists xs. split; [done|]. split; [done|]. intros t1 st1 Ht1 Hw.
    destruct (signals_waits _ _ _ _ _ _ waits_full Hsig Ht1 Hw) as [Hold _].
    apply update_waits in Hold as [Hold _]; [|done|done]. right. split_and!; [done|done|by left|by left].
  - destruct Hr as [Hen Hempty]. exists xs. split; [done|]. split; [done|]. intros t1 st1 Ht1 Hw. simpl in Ht1.
    destruct (decide (t = t1)) as [->|Hne].
    + rewrite lookup_insert_eq in Ht1. simplify_eq. left. by split_and!.
    + rewrite lookup_insert_ne in Ht1 by done. right. split_and!; [done|done|by left|by left].
Qed.

(** Removing items from outside. *)
Lemma remove_waiters s xs xs' sg b' ths l' :
  signals on_full sg (threads s) ths → enabled b' = enabled (bq s) → capacity b' = capacity (bq s) →
  (xs = [] → xs' = []) → (zlen xs = capacity (bq s) → xs' = xs ∨ sg = true) →
  waiters_ok s (mkSys b' ths l') xs xs'.
Proof.
  intros Hsig He Hc Hnil Hfull. split; [done|]. intros t1 st1 Ht1 Hw. simpl in Ht1.
  destruct (signals_waits _ _ _ _ _ _ waits_full Hsig Ht1 Hw) as [Hold Hsg]. right. split_and!; [done|done|auto|].
  intros Hon Hf. destruct (Hfull Hf) as [->|Hs]; [by left|right; auto].
Qed.

Lemma step_waiters s s' xs :
  bmodel (bq s) xs → step s s' → ∃ xs', bmodel (bq s') xs' ∧ waiters_ok s s' xs xs'.
Proof.
  intros Hb Hst.
  destruct Hst as [t item timeout now seg s' _ Hseg He|t item timeout start ret now seg s' _ Hseg He
    |t timeout now seg s' _ Hseg He|t timeout start ret now seg s' _ Hseg He|t st' _ _|t st' _ _ _
    |t p ret rel sg b' ths _ Hd Hsig|t rel sg b' ths _ Hc Hsig|t b' _ Hdis].
  - destruct (push_loop_spec 1 (bq s) xs item timeout None now Zero Hb) as (seg' & Hs & Hr).
    unfold blockingQueuePushTimeoutGranular in Hseg. rewrite Hs in Hseg. injection Hseg as ->. by eapply push_waiters.
  - destruct (push_resume_spec (bq s) xs item timeout start now ret Hb) as (seg' & Hs & Hr).
    rewrite Hs in Hseg. injection Hseg as ->. by eapply push_waiters.
  - destruct (pop_loop_spec 1 (bq s) xs timeout None now Zero Hb) as (seg' & Hs & Hr).
    unfold blockingQueuePopTimeoutGranular in Hseg. rewrite Hs in Hseg. injection Hseg as ->. by eapply pop_waiters.
  - destruct (pop_resume_spec (bq s) xs timeout start now ret Hb) as (seg' & Hs & Hr).
    rewrite Hs in Hseg. injection Hseg as ->. by eapply pop_waiters.
  - exists xs. split; [done|]. split; [done|]. intros t1 st1 Ht1 Hw. apply update_waits in Ht1 as [Ht1 _]; [|apply wake_waits|done].
    right. split_and!; [done|done|by left|by left].
  - exists xs. split; [done|]. split; [done|]. intros t1 st1 Ht1 Hw. apply update_waits in Ht1 as [Ht1 _]; [|apply wake_waits|done].
    right. split_and!; [done|done|by left|by left].
  - destruct (delete_model (bq s) xs p Hb) as [Hn|(x & xs1 & xs2 & b2 & -> & Hn & Hb2 & Hc2 & He2)];
      rewrite Hn in Hd; injection Hd as <- <- <- <-.
    + exists xs. split; [done|]. by apply (remove_waiters _ _ _ false); [| | |done|left].
    + exists (xs1 ++ xs2). split; [done|]. eapply remove_waiters; [done|done|done|by destruct xs1|].
      intros Hf. right. by apply bool_decide_true.
  - destruct (clear_model (bq s) xs Hb) as (b2 & Hn & Hb2 & Hc2 & He2). rewrite Hn in Hc. injection Hc as <- <- <-.
    exists []. split; [done|]. eapply remove_waiters; [done|done|done|done|]. intros Hf. right. by apply bool_decide_true.
  - simpl in Hdis. injection Hdis as <-. exists xs. split; [destruct Hb; by split|]. split; [done|]. intros t1 st1 Ht1 Hw. simpl in Ht1. exfalso.
    rewrite lookup_fmap in Ht1. destruct (threads s !! t1) as [st0|]; [|done]. simpl in Ht1. injection Ht1 as <-.
    change (on_full st0 || on_empty st0) with (waits st0) in Hw.
    destruct (waits st0) eqn:E; [by rewrite wake_waits in Hw|congruence].
Qed.

(** An invariant of states and their contents, along an execution. *)
Lemma run_invariant (I : sys A → list A → Prop) (guard : sys A → Prop) cap s0 s :
  0 ≤ cap ≤ 65535 → initial cap s0 → rtc (λ s s', step s s' ∧ guard s) s0 s → I s0 [] →
  (∀ s s' xs xs', I s xs → guard s → waiters_ok s s' xs xs' → I s' xs') →
  ∃ xs, bmodel (bq s) xs ∧ I s xs.
Proof.
  intros Hcap (Hb0 & _ & _) Hr HI Hpres.
  assert (∃ xs, bmodel (bq s0) xs ∧ I s0 xs) as Hinv.
  { exists []. split; [|done]. rewrite Hb0. by apply create_model. }
  clear Hb0 HI. induction Hr as [s|s s1 s2 [Hst Hg] _ IH]; [done|]. apply IH.
  destruct Hinv as (xs & Hb & HI). destruct (step_waiters s s1 xs Hb Hst) as (xs' & Hb' & Hw).
  exists xs'. split; [done|]. by eapply Hpres.
Qed.

(** C37: disabling the queue releases everybody.  In every reachable state of a
    disabled queue no thread waits on a condition; a thread that has not yet
    taken the mutex again returns a failure without touching the queue, and
    so does every later push or pop, whatever its time-out. *)
Theorem blockingQueue_disable_releases cap s :
  0 ≤ cap ≤ 65535 → reachable cap s → enabled (bq s) = false →
  (∀ t st, threads s !! t = Some st → on_full st || on_empty st = false) ∧
  (∀ item timeout start now ret, push_resume (bq s) item timeout start now ret = Ok (Return false false (bq s))) ∧
  (∀ timeout start now ret, pop_resume (bq s) timeout start now ret = Ok (Return None false (bq s))) ∧
  (∀ item timeout now, blockingQueuePushTimeoutGranular (Some (bq s)) (Some item) timeout now = Ok (Return false false (bq s))) ∧
  (∀ timeout now, blockingQueuePopTimeoutGranular (Some (bq s)) timeout now = Ok (Return None false (bq s))).
Proof.
  intros Hcap (s0 & Hi & Hr) Hen.
  destruct (run_invariant (λ s _, enabled (bq s) = false → ∀ t st, threads s !! t = Some st → waits st = false)
    (λ _, True) cap s0 s Hcap Hi) as (xs & Hb & Hw).
  - clear -Hr. induction Hr as [|x y z Hs _ IH]; [constructor|by eapply rtc_l].
  - intros _ t st Ht. destruct Hi as (_ & Hidle & _). by rewrite (Hidle t st Ht).
  - intros s1 s2 xs xs' HI _ [_ Hok] He t st Ht. destruct (waits st) eqn:Ew; [|done]. exfalso.
    destruct (Hok t st Ht Ew) as [(Hbq & _ & Ht1 & _)|(Hold & He1 & _)]; [congruence|].
    rewrite He1 in He. by rewrite (HI He t st Hold) in Ew.
  - split; [by apply Hw|]. unfold push_resume, pop_resume, blockingQueuePushTimeoutGranular, blockingQueuePopTimeoutGranular.
    cbn [push_loop pop_loop]. unfold push_finish, pop_finish. rewrite Hen. simpl.
    by split_and!.
Qed.

(** At most one thread waits on the condition. *)
Definition alone (on : thread A → bool) s : Prop :=
  ∀ t1 t2 st1 st2, threads s !! t1 = Some st1 → threads s !! t2 = Some st2 →
    on st1 = true → on st2 = true → t1 = t2.

Lemma not_other on s t st :
  alone on s → threads s !! t = Some st → on st = true → ¬ other on (threads s) t.
Proof. intros Ha Ht Hon (t2 & st2 & Hne & Ht2 & Hon2). apply Hne. by apply (Ha t2 t st2 st). Qed.

(** No wake-up is lost as long as at most one consumer and at most one
    producer wait at a time: then a waiting pop means that the queue is empty,
    and a waiting push that it is full. *)
Theorem blockingQueue_single_waiters cap s0 s :
  0 ≤ cap ≤ 65535 → initial cap s0 →
  rtc (λ s s', step s s' ∧ (alone on_empty s ∧ alone on_full s)) s0 s →
  ∀ t st, threads s !! t = Some st →
    (on_empty st = true → blockingQueueCount (Some (bq s)) = 0) ∧
    (on_full st = true → blockingQueueCount (Some (bq s)) = capacity (bq s)).
Proof.
  intros Hcap Hi Hr.
  destruct (run_invariant (λ s xs, ∀ t st, threads s !! t = Some st →
      (on_empty st = true → xs = []) ∧ (on_full st = true → zlen xs = capacity (bq s)))
    (λ s, alone on_empty s ∧ alone on_full s) cap s0 s Hcap Hi Hr) as (xs & Hb & Hw).
  - intros t st Ht. destruct Hi as (_ & Hidle & _). by rewrite (Hidle t st Ht).
  - intros s1 s2 xs xs' HI [Ha1 Ha2] [Hc Hok] t st Ht. split; intros Hon.
    + destruct (Hok t st Ht (waits_empty _ Hon)) as [(_ & -> & _ & Hx & _)|(Hold & _ & Hx & _)]; [auto|].
      destruct (Hx Hon) as [|Ho]; [by apply (HI t st Hold)|done|]. by destruct (not_other on_empty s1 t st).
    + destruct (Hok t st Ht (waits_full _ Hon)) as [(_ & -> & _ & _ & Hx)|(Hold & _ & _ & Hx)];
        [rewrite Hc; auto|]. rewrite Hc.
      destruct (Hx Hon) as [|Ho]; [by apply (HI t st Hold)|done|]. by destruct (not_other on_full s1 t st).
  - intros t st Ht. rewrite (count_model _ _ Hb). destruct (Hw t st Ht) as [He Hf].
    split; [|done]. intros Hon. by rewrite (He Hon).
Qed.

(** ** Lost wake-ups *)

Definition infinite : timespec := mkTs BLOCKINGQUEUE_TIMEOUT_INFINITE 0.
Definition noon : timespec := mkTs 43200 0.

(** A producer, 0, and two consumers, 1 and 2. *)
Definition three_threads : sys A :=
  mkSys (blockingQueueCreate 10) {[0%nat := Idle; 1%nat := Idle; 2%nat := Idle]} [].

(** With two consumers a wake-up can be lost.  Both wait on the empty queue
    without a time-out; the producer pushes two items before the first
    consumer runs: only the first push signals, since the second does not
    find the queue empty.  The first consumer takes one item and returns;
    the second goes on waiting although there is an item for it, no thread is
    about to wake it, and no further push will signal. *)
Theorem blockingQueue_lost_wakeup (x y : A) :
  ∃ s : sys A, reachable 10 s ∧ log s = [EvPush x; EvPush y; EvPop x] ∧
    threads s = {[0%nat := Idle; 1%nat := Idle; 2%nat := PopWait infinite noon true]} ∧
    blockingQueueCount (Some (bq s)) = 1 ∧ enabled (bq s) = true ∧
    (∀ item timeout now, ∃ r b', blockingQueuePushTimeoutGranular (Some (bq s)) (Some item) timeout now = Ok (Return r false b')).
Proof.
  assert (∃ s : sys A, reachable 10 s ∧ log s = [EvPush x; EvPush y; EvPop x] ∧
    threads s = {[0%nat := Idle; 1%nat := Idle; 2%nat := PopWait infinite noon true]} ∧
    blockingQueueCount (Some (bq s)) = 1 ∧ enabled (bq s) = true ∧ capacity (bq s) = 10) as (s & Hr & Hl & Ht & Hc & He & Hcap).
  { eexists. split.
    - exists three_threads. split.
      { split_and!; [done| |done]. intros t st Ht. unfold three_threads in Ht. cbn [threads] in Ht.
        repeat (apply lookup_insert_Some in Ht as [[_ <-]|[_ Ht]]; [done|]). by apply lookup_singleton_Some in Ht as [_ <-]. }
      eapply rtc_l; [eapply (step_pop _ 1 infinite noon); [vm_compute; reflexivity|vm_compute; reflexivity|apply pop_blocks]|].
      eapply rtc_l; [eapply (step_pop _ 2 infinite noon); [vm_compute; reflexivity|vm_compute; reflexivity|apply pop_blocks]|].
      eapply rtc_l; [eapply (step_push _ 0 x infinite noon); [vm_compute; reflexivity|vm_compute; reflexivity|]|].
      { apply push_returns. eapply (signals_one _ _ _ 1); [done|vm_compute; reflexivity|done]. }
      eapply rtc_l; [eapply (step_push _ 0 y infinite noon); [vm_compute; reflexivity|vm_compute; reflexivity|]|].
      { apply push_returns. apply signals_none. by left. }
      eapply rtc_l; [eapply (step_pop_again _ 1 infinite noon Zero noon); [vm_compute; reflexivity|vm_compute; reflexivity|]|].
      { apply pop_returns. apply signals_none. by left. }
      apply rtc_refl.
    - by vm_compute. }
  exists s. split_and!; try done. intros item timeout now.
  destruct (reachable_model 10 s ltac:(lia) Hr) as (xs & Hb & _ & _).
  destruct (push_loop_spec 1 (bq s) xs item timeout None now Zero Hb) as (seg & Hs & Hres).
  unfold blockingQueuePushTimeoutGranular. rewrite Hs. rewrite (count_model _ _ Hb) in Hc.
  destruct seg as [[] sg b'|f st|r]; simpl in Hres; [| | |done].
  - destruct Hres as (_ & _ & -> & _). rewrite Hc. by eexists _, _.
  - destruct Hres as [-> ->]. by eexists _, _.
  - destruct Hres as [_ Hres]. lia.
Qed.

End Theorems.

(** ** Witnesses *)

Lemma three_initial : initial 10 (three_threads (A := Z)).
Proof.
  split_and!; [done| |done]. intros t st Ht. unfold three_threads in Ht. cbn [threads] in Ht.
  repeat (apply lookup_insert_Some in Ht as [[_ <-]|[_ Ht]]; [done|]). by apply lookup_singleton_Some in Ht as [_ <-].
Qed.

(** After one push. *)
Lemma one_push : ∃ s : sys Z, reachable 10 s ∧ log s = [EvPush 7].
Proof.
  eexists. split; [exists three_threads; split; [apply three_initial|]|].
  - eapply rtc_l; [eapply (step_push _ 0 7 infinite noon); [vm_compute; reflexivity|vm_compute; reflexivity|]|apply rtc_refl].
    apply push_returns. apply signals_none. right. intros t st Ht. rewrite insert_id in Ht by done.
    by rewrite (proj1 (proj2 three_initial) t st Ht).
  - done.
Qed.

Lemma blockingQueue_linearizable_witness :
  ∃ (s : sys Z) (xs : list Z), log s = [EvPush 7] ∧ qrepr (queue (bq s)) (Some <$> xs) ∧ history (log s) xs.
Proof.
  destruct one_push as (s & Hr & Hl).
  destruct (blockingQueue_linearizable 10 s ltac:(lia) Hr) as (xs & H1 & H2 & _). by exists s, xs.
Defined.

Lemma blockingQueue_disable_releases_witness :
  ∃ s : sys Z, reachable 10 s ∧ enabled (bq s) = false ∧ pop_resume (bq s) infinite noon noon Zero = Ok (Return None false (bq s)).
Proof.
  set (s := mkSys (mkBQ 10 (queue (bq (three_threads (A := Z)))) false)
        ((λ st, if on_full st || on_empty st then wake Zero st else st) <$> threads three_threads) (log three_threads)).
  assert (Hr : reachable 10 s).
  { exists three_threads. split; [apply three_initial|]. eapply rtc_l; [by apply (step_disable _ 0)|apply rtc_refl]. }
  exists s. split; [done|]. split; [done|].
  destruct (blockingQueue_disable_releases 10 s ltac:(lia) Hr eq_refl) as (_ & _ & Hp & _). apply Hp.
Defined.

Lemma blockingQueue_single_waiters_witness :
  ∃ s : sys Z, threads s !! 1%nat = Some (PopWait infinite noon true) ∧ blockingQueueCount (Some (bq s)) = 0.
Proof.
  set (s := mkSys (bq (three_threads (A := Z))) (<[1%nat := PopWait infinite noon true]> (threads three_threads)) []).
  exists s. split; [done|].
  apply (blockingQueue_single_waiters 10 three_threads s ltac:(lia) three_initial) with 1%nat (PopWait infinite noon true);
    [|done|done].
  eapply rtc_l; [split; [|split]|apply rtc_refl].
  - eapply (step_pop _ 1 infinite noon); [done|vm_compute; reflexivity|]. apply (pop_blocks three_threads 1 infinite true noon).
  - intros t1 t2 st1 st2 H1 _ Hon. by rewrite (proj1 (proj2 three_initial) t1 st1 H1) in Hon.
  - intros t1 t2 st1 st2 H1 _ Hon. by rewrite (proj1 (proj2 three_initial) t1 st1 H1) in Hon.
Defined.

End BlockingTheorems.
