(* ===== verification/TaskExecutor.v ===== *)
(** * taskExecutor: one thread that runs queued tasks in order

    Models src/source/libs/concurrent/c/src/taskExecutor.c on top of the
    blocking queue.  A function that holds execMutex from its beginning to its
    end is one atomic segment; appendTaskToExecutor also holds it while it
    waits in the queue, so [mutex] says who is waiting.  The worker thread
    takes the mutex to look at the state and releases it before it waits in
    the queue.  A wait may end at any time, signalled, timed out or not, which
    covers what POSIX allows.  The objects, arguments and functions of the
    tasks are parameters: running and releasing a task are entries of the log. *)

From S2P Require Import Prelude LinkedList LinkedListSpec Queue Time BlockingQueue.
Import Time BlockingQueue.

Module TaskExecutor.

Definition MAX_QUEUE_SIZE : Z := 100.

Inductive icTaskExecState :=
  | TASK_EXEC_STATE_RUN
  | TASK_EXEC_STATE_FINISH
  | TASK_EXEC_STATE_CANCEL.
#[global] Instance icTaskExecState_eq_dec : EqDecision icTaskExecState := ltac:(solve_decision).

Section Code.
Context {T R F : Type}.

Record taskContainer := mkTask { runFunc : option R; freeFunc : option F; taskObj : T; taskArg : T }.

Record icTaskExecutor := mkExec { tasks : icBlockingQueue taskContainer; state : icTaskExecState }.

(** What happens to a task: it is put into the queue or refused ([full]: its
    push has failed), taken out of the queue by the worker, when it is
    cleared or when it is destroyed, run, and its object and argument are
    released (by its freeFunc, or by free). *)
Inductive taskEvent :=
  | Appended (c : taskContainer)
  | Refused (c : taskContainer) (full : bool)
  | Popped (c : taskContainer)
  | Cleared (c : taskContainer)
  | Dropped (c : taskContainer)
  | Ran (c : taskContainer)
  | Freed (c : taskContainer).

Definition set_tasks (e : icTaskExecutor) b := mkExec b (state e).
Definition set_state (e : icTaskExecutor) t := mkExec (tasks e) t.

Definition createTaskExecutor : icTaskExecutor := mkExec (blockingQueueCreate MAX_QUEUE_SIZE) TASK_EXEC_STATE_RUN.

Definition freeTaskContainer (c : taskContainer) : list taskEvent := [Freed c].

(** destroyTaskExecutor up to pthread_join; [true]: join and clean up. *)
Definition destroyTaskExecutor (e : icTaskExecutor) : bool * icTaskExecutor :=
  if decide (state e ≠ TASK_EXEC_STATE_CANCEL) then
    match (blockingQueueDisable (Some (tasks e))).1 with
    | Some b => (true, mkExec b TASK_EXEC_STATE_CANCEL)
    | None => (true, set_state e TASK_EXEC_STATE_CANCEL)
    end
  else (false, e).

(** What drainAndDestroyTaskExecutor goes on with. *)
Inductive drain_next := DrainDestroy | DrainJoin | DrainNothing.

Definition drainAndDestroyTaskExecutor (e : icTaskExecutor) : drain_next * icTaskExecutor :=
  if decide (state e = TASK_EXEC_STATE_RUN) then
    let e := set_state e TASK_EXEC_STATE_FINISH in
    if decide (blockingQueueCount (Some (tasks e)) = 0) then (DrainDestroy, e) else (DrainJoin, e)
  else (DrainNothing, e).

(** Once the thread has ended: the tasks that are still queued are released. *)
Definition internalDestroy (e : icTaskExecutor) : outcome (list taskEvent) :=
  '(rel, _) ← blockingQueueDestroy (Some (tasks e));
  Ok (concat ((λ c, Dropped c :: freeTaskContainer c) <$> rel)).

Definition clearTaskExecutor (e : icTaskExecutor) : outcome (list taskEvent * icTaskExecutor) :=
  if decide (state e = TASK_EXEC_STATE_RUN) then
    '(rel, _, b) ← blockingQueueClear (Some (tasks e));
    b ← of_option b;
    Ok (concat ((λ c, Cleared c :: freeTaskContainer c) <$> rel), set_tasks e b)
  else Ok ([], e).

(** The queue could not take the task, or the executor does not take any. *)
Definition append_failed (c : taskContainer) (full : bool) : list taskEvent :=
  Refused c full ::
  if full then freeTaskContainer c
  else match freeFunc c with Some _ => [Freed c] | None => [] end.

Definition append_timeout : timespec := mkTs 10 0.

(** appendTaskToExecutor: it is refused, or its push begins. *)
Definition appendTaskToExecutor (e : icTaskExecutor) (c : taskContainer) (now : timespec)
    : outcome (option (segment taskContainer bool)) :=
  if decide (state e = TASK_EXEC_STATE_RUN) then
    seg ← blockingQueuePushTimeout (Some (tasks e)) (Some c) 10 now; Ok (Some seg)
  else Ok None.

Definition getTaskExecutorQueueCount (e : icTaskExecutor) : Z :=
  if decide (state e ≠ TASK_EXEC_STATE_CANCEL) then blockingQueueCount (Some (tasks e)) else 0.

(** ** The worker *)

Inductive worker :=
  | Top
  | Pop
  | PopWaiting (start : timespec)
  | PopWoken (start : timespec) (ret : condRet)
  | Got (c : taskContainer)
  | Running (c : taskContainer)
  | Exited.

(** The check of the state at the top of the loop of execWorkerThread. *)
Definition worker_top (e : icTaskExecutor) : worker :=
  match state e with
  | TASK_EXEC_STATE_CANCEL => Exited
  | TASK_EXEC_STATE_FINISH => if decide (blockingQueueCount (Some (tasks e)) = 0) then Exited else Pop
  | TASK_EXEC_STATE_RUN => Pop
  end.

(** After the pop: run the task, if it has a function. *)
Definition worker_got (c : taskContainer) : worker * list taskEvent :=
  match runFunc c with
  | None => (Top, freeTaskContainer c)
  | Some _ => (Running c, [Ran c])
  end.

Definition worker_done (c : taskContainer) : worker * list taskEvent := (Top, freeTaskContainer c).

(** ** The executor and its clients *)

Inductive client :=
  | Idle
  | PushWaiting (c : taskContainer) (start : timespec)
  | Pushing (c : taskContainer) (start : timespec) (ret : condRet)
  | Destroying                (* drain is about to call destroyTaskExecutor *)
  | Joining (drain : bool)    (* waits for the worker to end *)
  | Returned (drain : bool).  (* the executor is destroyed *)

Record sys := mkSys {
  exec : option icTaskExecutor;    (* None: freed *)
  work : worker;
  clients : gmap nat client;
  mutex : option nat;              (* the client that waits with execMutex held *)
  log : list taskEvent
}.

Definition ends (c : client) : bool := match c with Destroying | Joining _ | Returned _ => true | _ => false end.

(** The worker thread takes a step; [l] is what it logs. *)
Inductive worker_step (e : icTaskExecutor) : option nat → worker → icTaskExecutor → worker → list taskEvent → Prop :=
  | w_top : worker_step e None Top e (worker_top e) []
  | w_pop_task m now c sg b :
      blockingQueuePopTimeout (Some (tasks e)) 10 now = Ok (Return (Some c) sg b) →
      worker_step e m Pop (set_tasks e b) (Got c) [Popped c]
  | w_pop_nothing m now sg b :
      blockingQueuePopTimeout (Some (tasks e)) 10 now = Ok (Return None sg b) →
      worker_step e m Pop (set_tasks e b) Top []
  | w_pop_blocks m now f st :
      blockingQueuePopTimeout (Some (tasks e)) 10 now = Ok (Block f st) →
      worker_step e m Pop e (PopWaiting st) []
  | w_wake m st ret : worker_step e m (PopWaiting st) e (PopWoken st ret) []
  | w_woken_task m now st ret c sg b :
      pop_resume (tasks e) append_timeout st now ret = Ok (Return (Some c) sg b) →
      worker_step e m (PopWoken st ret) (set_tasks e b) (Got c) [Popped c]
  | w_woken_nothing m now st ret sg b :
      pop_resume (tasks e) append_timeout st now ret = Ok (Return None sg b) →
      worker_step e m (PopWoken st ret) (set_tasks e b) Top []
  | w_woken_blocks m now st ret f st' :
      pop_resume (tasks e) append_timeout st now ret = Ok (Block f st') →
      worker_step e m (PopWoken st ret) e (PopWaiting st') []
  | w_got m c : worker_step e m (Got c) e (worker_got c).1 (worker_got c).2
  | w_done m c : worker_step e m (Running c) e (worker_done c).1 (worker_done c).2.

(** A push of client [k] ends or blocks. *)
Inductive push_step (e : icTaskExecutor) (c : taskContainer)
    : segment taskContainer bool → icTaskExecutor → client → bool → list taskEvent → Prop :=
  | p_done sg b : push_step e c (Return true sg b) (set_tasks e b) Idle false [Appended c]
  | p_failed sg b : push_step e c (Return false sg b) (set_tasks e b) Idle false (append_failed c true)
  | p_blocks f st : push_step e c (Block f st) e (PushWaiting c st) true [].

(** What a client does.  Who destroys the executor is its only owner then: no
    client destroys or drains it while another does, and none uses it once it
    is freed. *)
Inductive step (s : sys) : sys → Prop :=
  | step_worker e e' w l :
      exec s = Some e → worker_step e (mutex s) (work s) e' w l →
      step s (mkSys (Some e') w (clients s) (mutex s) (log s ++ l))
  | step_append k e c now seg e' cl held l :
      clients s !! k = Some Idle → mutex s = None → exec s = Some e →
      appendTaskToExecutor e c now = Ok (Some seg) → push_step e c seg e' cl held l →
      step s (mkSys (Some e') (work s) (<[k := cl]> (clients s)) (if held : bool then Some k else None) (log s ++ l))
  | step_append_refused k e c now :
      clients s !! k = Some Idle → mutex s = None → exec s = Some e →
      appendTaskToExecutor e c now = Ok None →
      step s (mkSys (Some e) (work s) (clients s) None (log s ++ append_failed c false))
  | step_push_wake k c st ret :
      clients s !! k = Some (PushWaiting c st) →
      step s (mkSys (exec s) (work s) (<[k := Pushing c st ret]> (clients s)) (mutex s) (log s))
  | step_push_again k e c st ret now seg e' cl held l :
      clients s !! k = Some (Pushing c st ret) → exec s = Some e →
      push_resume (tasks e) c append_timeout st now ret = Ok seg → push_step e c seg e' cl held l →
      step s (mkSys (Some e') (work s) (<[k := cl]> (clients s)) (if held : bool then Some k else None) (log s ++ l))
  | step_clear k e e' l :
      clients s !! k = Some Idle → mutex s = None → exec s = Some e →
      clearTaskExecutor e = Ok (l, e') →
      step s (mkSys (Some e') (work s) (clients s) None (log s ++ l))
  | step_destroy k e e' (go : bool) :
      clients s !! k = Some Idle → (∀ j cj, clients s !! j = Some cj → ends cj = false) →
      mutex s = None → exec s = Some e → destroyTaskExecutor e = (go, e') →
      step s (mkSys (Some e') (work s) (<[k := if go then Joining false else Idle]> (clients s)) None (log s))
  | step_drain_destroy k e e' (go : bool) :
      clients s !! k = Some Destroying →
      mutex s = None → exec s = Some e → destroyTaskExecutor e = (go, e') →
      step s (mkSys (Some e') (work s) (<[k := if go then Joining true else Idle]> (clients s)) None (log s))
  | step_drain k e e' next :
      clients s !! k = Some Idle → (∀ j cj, clients s !! j = Some cj → ends cj = false) →
      mutex s = None → exec s = Some e → drainAndDestroyTaskExecutor e = (next, e') →
      step s (mkSys (Some e') (work s)
        (<[k := match next with DrainDestroy => Destroying | DrainJoin => Joining true | DrainNothing => Idle end]> (clients s))
        None (log s))
  | step_join k drain e l :
      clients s !! k = Some (Joining drain) → work s = Exited → mutex s = None → exec s = Some e →
      internalDestroy e = Ok l →
      step s (mkSys None Exited (<[k := Returned drain]> (clients s)) None (log s ++ l)).

(** A new executor and its clients. *)
Definition initial (s : sys) : Prop :=
  exec s = Some createTaskExecutor ∧ work s = Top ∧ (∀ k cl, clients s !! k = Some cl → cl = Idle) ∧
  mutex s = None ∧ log s = [].

Definition reachable (s : sys) : Prop := ∃ s0, initial s0 ∧ rtc step s0 s.

End Code.
Arguments taskContainer : clear implicits.
Arguments taskEvent : clear implicits.
Arguments icTaskExecutor : clear implicits.
Arguments worker : clear implicits.
Arguments client : clear implicits.
Arguments sys : clear implicits.

End TaskExecutor.
