(* ===== verification/TaskExecutorTheorems.v ===== *)
(** * What the task executor promises

    In every interleaving of its clients and its thread: the tasks run in the
    order in which they were appended, each at most once; the object and
    argument of every task are released exactly once; drain waits until
    everything accepted has run.  An append to a full queue holds the mutex
    that the thread needs for its next task, so it can only fail. *)

From S2P Require Import Prelude LinkedList LinkedListSpec Queue Time BlockingQueue BlockingQueueTheorems TaskExecutor.
Import Time BlockingQueue BlockingTheorems TaskExecutor.

Module ExecutorTheorems.
Section Theorems.
Context {T R F : Type}.
Implicit Types (c : taskContainer T R F) (e : icTaskExecutor T R F) (w : worker T R F) (cl : client T R F)
  (s : sys T R F) (l : list (taskEvent T R F)) (xs : list (taskContainer T R F)).

(** ** Reading the log *)

Definition appended l := omap (λ v, match v with Appended c => Some c | _ => None end) l.
Definition popped l := omap (λ v, match v with Popped c => Some c | _ => None end) l.
Definition removed l := omap (λ v, match v with Popped c | Cleared c | Dropped c => Some c | _ => None end) l.
Definition dropped l := omap (λ v, match v with Dropped c => Some c | _ => None end) l.
Definition ran l := omap (λ v, match v with Ran c => Some c | _ => None end) l.
Definition freed l := omap (λ v, match v with Freed c => Some c | _ => None end) l.

Definition refused l := omap (λ v, match v with Refused c _ => Some c | _ => None end) l.

(** Of the refused tasks, those that the executor releases, and those refused
    because of its state that have no freeFunc, which it does not. *)
Definition refused_freed l := omap (λ v, match v with Refused c full => if full || bool_decide (is_Some (freeFunc c)) then Some c else None
                                                  | _ => None end) l.
Definition refused_left l := omap (λ v, match v with Refused c full => if full || bool_decide (is_Some (freeFunc c)) then None else Some c
                                                 | _ => None end) l.

Lemma refused_split l : refused l ≡ₚ refused_left l ++ refused_freed l.
Proof.
  induction l as [|v l IH]; [done|]. unfold refused, refused_left, refused_freed in *.
  destruct v as [|c full| | | | |]; cbn [omap list_omap]; try done.
  destruct (full || bool_decide (is_Some (freeFunc c))); rewrite IH; [by rewrite Permutation_middle|done].
Qed.

Lemma refused_left_by_state l c : c ∈ refused_left l ↔ Refused c false ∈ l ∧ freeFunc c = None.
Proof.
  unfold refused_left. rewrite list_elem_of_omap. split.
  - intros ([| c' full| | | | |] & Hv & E); try done. destruct full; [done|]. cbn in E. case_bool_decide as Hf; [done|].
    injection E as ->. split; [done|]. by apply eq_None_not_Some.
  - intros [Hv Hf]. eexists. split; [exact Hv|]. cbn. by rewrite Hf.
Qed.

Definition runnable c : bool := bool_decide (is_Some (runFunc c)).

(** The task in the hands of the worker; the one it is yet to run. *)
Definition in_hand w : list (taskContainer T R F) := match w with Got c | Running c => [c] | _ => [] end.
Definition to_run w : list (taskContainer T R F) := match w with Got c => filter (λ c, runnable c = true) [c] | _ => [] end.

(** ** The invariant *)

Record inv s : Prop := {
  i_push k c st ret cl : clients s !! k = Some cl → cl = PushWaiting c st ∨ cl = Pushing c st ret →
    mutex s = Some k ∧ ∀ e, exec s = Some e → state e = TASK_EXEC_STATE_RUN;
  i_queue : match exec s with
            | Some e => ∃ xs, bmodel (tasks e) xs ∧ appended (log s) = removed (log s) ++ xs ∧
                (work s = Exited → state e ≠ TASK_EXEC_STATE_RUN ∧ (state e = TASK_EXEC_STATE_FINISH → xs = [])) ∧
                (∀ k, clients s !! k = Some Destroying → state e = TASK_EXEC_STATE_FINISH ∧ xs = []) ∧
                (∀ k b, clients s !! k = Some (Joining b) → state e ≠ TASK_EXEC_STATE_RUN ∧
                   (b = true → state e = TASK_EXEC_STATE_FINISH ∨ xs = []))
            | None => appended (log s) = removed (log s) ∧ work s = Exited
            end;
  i_ran : ran (log s) ++ to_run (work s) = filter (λ c, runnable c = true) (popped (log s));
  i_freed : in_hand (work s) ++ freed (log s) ≡ₚ removed (log s) ++ refused_freed (log s);
  i_gone k b : clients s !! k = Some (Returned b) → exec s = None;
  i_one j k cj ck : clients s !! j = Some cj → clients s !! k = Some ck → ends cj = true → ends ck = true → j = k;
  i_dropped : is_Some (exec s) ∨ (∃ k, clients s !! k = Some (Returned true)) → dropped (log s) = []
}.

(** The log at the end of a step. *)
Lemma cleared_log xs (l := concat ((λ c, Cleared c :: freeTaskContainer c) <$> xs)) :
  appended l = [] ∧ popped l = [] ∧ ran l = [] ∧ refused_freed l = [] ∧ dropped l = [] ∧ removed l = xs ∧ freed l = xs.
Proof. subst l. induction xs as [|c xs (? & ? & ? & ? & ? & Hr & Hf)]; [done|]. simpl. do 5 (split; [done|]). split; by f_equal. Qed.

Lemma exec_dropped_log xs (l := concat ((λ c, Dropped c :: freeTaskContainer c) <$> xs)) :
  appended l = [] ∧ popped l = [] ∧ ran l = [] ∧ refused_freed l = [] ∧ dropped l = xs ∧ removed l = xs ∧ freed l = xs.
Proof. subst l. induction xs as [|c xs (? & ? & ? & ? & Hd & Hr & Hf)]; [done|]. simpl. do 4 (split; [done|]). split; [|split]; by f_equal. Qed.

Lemma failed_log c full (l := append_failed c full) :
  appended l = [] ∧ removed l = [] ∧ freed l = refused_freed l ∧ dropped l = [] ∧ ran l = [] ∧ popped l = [].
Proof. subst l. unfold append_failed, refused_freed. destruct full; [done|]. by destruct c as [r [f|] o a]. Qed.

Lemma appended_app l1 l2 : appended (l1 ++ l2) = appended l1 ++ appended l2. Proof. apply omap_app. Qed.
Lemma exec_popped_app l1 l2 : popped (l1 ++ l2) = popped l1 ++ popped l2. Proof. apply omap_app. Qed.
Lemma removed_app l1 l2 : removed (l1 ++ l2) = removed l1 ++ removed l2. Proof. apply omap_app. Qed.
Lemma exec_dropped_app l1 l2 : dropped (l1 ++ l2) = dropped l1 ++ dropped l2. Proof. apply omap_app. Qed.
Lemma exec_ran_app l1 l2 : ran (l1 ++ l2) = ran l1 ++ ran l2. Proof. apply omap_app. Qed.
Lemma exec_freed_app l1 l2 : freed (l1 ++ l2) = freed l1 ++ freed l2. Proof. apply omap_app. Qed.
Lemma exec_refused_freed_app l1 l2 : refused_freed (l1 ++ l2) = refused_freed l1 ++ refused_freed l2. Proof. apply omap_app. Qed.

Lemma exec_inv_initial s : initial s → inv s.
Proof.
  intros (He & Hw & Hc & Hm & Hl). split.
  - intros k c st ret cl Hk. rewrite (Hc k cl Hk). by intros [?|?].
  - rewrite He. exists []. rewrite Hl, Hw. split; [by apply create_model|]. split; [done|]. split; [done|].
    split; [intros k Hk; by apply Hc in Hk|intros k b Hk; by apply Hc in Hk].
  - by rewrite Hl, Hw.
  - by rewrite Hl, Hw.
  - intros k b Hk. by apply Hc in Hk.
  - intros j k cj ck Hj Hk. by rewrite (Hc j cj Hj).
  - by rewrite Hl.
Qed.

(** ** The worker *)

Lemma pop_segment b xs now seg :
  bmodel b xs → blockingQueuePopTimeout (Some b) 10 now = Ok seg → pop_result b xs seg.
Proof.
  intros Hb Hs. destruct (pop_loop_spec 1 b xs append_timeout None now Zero Hb) as (seg' & Hs' & Hr).
  unfold blockingQueuePopTimeout, blockingQueuePopTimeoutGranular in Hs. unfold append_timeout in Hs'. congruence.
Qed.

Lemma resume_segment b xs st now ret seg :
  bmodel b xs → pop_resume b append_timeout st now ret = Ok seg → pop_result b xs seg.
Proof. intros Hb Hs. destruct (pop_resume_spec b xs append_timeout st now ret Hb) as (seg' & Hs' & Hr). congruence. Qed.

(** What a step of the worker does to queue and log. *)
Inductive worker_effect e xs w : icTaskExecutor T R F → list (taskContainer T R F) → worker T R F → list (taskEvent T R F) → Prop :=
  | we_stays e' w' : bmodel (tasks e') xs → state e' = state e → in_hand w = [] → to_run w = [] → in_hand w' = [] → to_run w' = [] →
      (w' = Exited → state e ≠ TASK_EXEC_STATE_RUN ∧ (state e = TASK_EXEC_STATE_FINISH → xs = [])) →
      worker_effect e xs w e' xs w' []
  | we_takes e' c xs' : xs = c :: xs' → bmodel (tasks e') xs' → state e' = state e → in_hand w = [] → to_run w = [] →
      worker_effect e xs w e' xs' (Got c) [Popped c]
  | we_runs c : w = Got c → runnable c = true → worker_effect e xs w e xs (Running c) [Ran c]
  | we_frees c : in_hand w = [c] → to_run w = [] → worker_effect e xs w e xs Top [Freed c].

Lemma pop_effect e xs w c sg b :
  in_hand w = [] → to_run w = [] → pop_result (tasks e) xs (Return (Some c) sg b) →
  ∃ xs', worker_effect e xs w (set_tasks e b) xs' (Got c) [Popped c].
Proof. intros Hh Hr (_ & xs' & Hxs & _ & Hb & _). exists xs'. by apply we_takes. Qed.

Lemma worker_step_effect e xs m w e' w' l :
  bmodel (tasks e) xs → worker_step e m w e' w' l → ∃ xs', worker_effect e xs w e' xs' w' l.
Proof.
  intros Hb Hs. destruct Hs as [|m now c sg b H|m now sg b H|m now f st H|m st ret|m now st ret c sg b H|m now st ret sg b H
    |m now st ret f st' H|m c|m c].
  - exists xs. unfold worker_top. destruct (state e) eqn:Est.
    + by apply we_stays.
    + case_decide as Hz; (apply we_stays; [done..|]); [|done]. intros _. rewrite Est. split; [done|]. intros _.
      rewrite (count_model _ _ Hb) in Hz. by destruct xs.
    + apply we_stays; [done..|]. by rewrite Est.
  - apply (pop_segment _ xs) in H; [|done]. by eapply pop_effect.
  - apply (pop_segment _ xs) in H as [_ ->]; [|done]. exists xs. by apply we_stays.
  - exists xs. by apply we_stays.
  - exists xs. by apply we_stays.
  - apply (resume_segment _ xs) in H; [|done]. by eapply pop_effect.
  - apply (resume_segment _ xs) in H as [_ ->]; [|done]. exists xs. by apply we_stays.
  - exists xs. by apply we_stays.
  - exists xs. unfold worker_got. destruct (runFunc c) as [r|] eqn:Hr; simpl.
    + apply we_runs; [done|]. apply bool_decide_eq_true. by rewrite Hr.
    + apply we_frees; [done|]. simpl. rewrite filter_cons_False; [done|]. unfold runnable. rewrite Hr.
      by rewrite bool_decide_eq_false_2 by (by intros [? ?]).
  - exists xs. by apply we_frees.
Qed.

Lemma to_run_got c : runnable c = true → to_run (Got c) = [c].
Proof. intros Hc. simpl. by rewrite filter_cons_True. Qed.

Lemma inv_worker s e e' w l :
  inv s → exec s = Some e → worker_step e (mutex s) (work s) e' w l →
  inv (mkSys (Some e') w (clients s) (mutex s) (log s ++ l)).
Proof.
  intros [Ip Iq Ir If Ig Io Id] He Hs. rewrite He in Iq. destruct Iq as (xs & Hb & Ha & Hx & Hd & Hj).
  destruct (worker_step_effect e xs _ _ _ _ _ Hb Hs) as [xs' Heff].
  assert (Hst : state e' = state e) by (by destruct Heff).
  assert (Hsh : xs = [] → xs' = []) by (by destruct Heff; subst).
  assert (Hgone : ∀ k b, clients s !! k ≠ Some (Returned b)) by (intros k b Hk%Ig; congruence).
  specialize (Id (or_introl (mk_is_Some _ _ He))).
  split; cbn [exec work clients mutex log].
  - intros k c st ret cl Hk Hc. destruct (Ip k c st ret cl Hk Hc) as [Hm Hrun]. split; [done|].
    intros e1 [= <-]. rewrite Hst. by apply Hrun.
  - exists xs'. rewrite appended_app, removed_app, Ha. rewrite Hst.
    split; [by destruct Heff|]. split; [destruct Heff; subst; cbn; rewrite ?app_nil_r, <-?app_assoc; done|].
    split; [destruct Heff; try done; auto|].
    split; [intros k Hk; destruct (Hd k Hk); auto|]. intros k b Hk. destruct (Hj k b Hk) as [? Hor]. split; [done|].
    intros Hb'. destruct (Hor Hb'); auto.
  - rewrite exec_ran_app, exec_popped_app, filter_app, <-Ir. destruct Heff as [e2 w2 _ _ _ -> _ -> _|e2 c xs2 _ _ _ _ ->|c -> Hrn|c _ ->].
    + cbn. by rewrite !app_nil_r.
    + cbn. by rewrite !app_nil_r.
    + rewrite (to_run_got c Hrn). cbn. by rewrite !app_nil_r.
    + cbn. by rewrite !app_nil_r.
  - rewrite exec_freed_app, removed_app, exec_refused_freed_app.
    destruct Heff as [e2 w2 _ _ Hh _ Hh' _ _|e2 c xs2 _ _ _ Hh _|c Hw Hrn|c Hh _]; cbn; rewrite ?app_nil_r.
    + rewrite Hh'. by rewrite Hh in If.
    + rewrite Hh in If. simpl in If. rewrite If. rewrite <-app_assoc. simpl. by rewrite Permutation_middle.
    + by rewrite Hw in If.
    + rewrite Hh in If. rewrite <-If. simpl. by rewrite Permutation_app_comm.
  - intros k b Hk. by apply Hgone in Hk.
  - done.
  - intros _. rewrite exec_dropped_app, Id. by destruct Heff.
Qed.

(** ** The clients *)

(** A segment of client [k] that keeps the state and leaves the worker alone. *)
Lemma inv_client s e e' k cl xs xs' l (held : bool) :
  inv s → exec s = Some e → appended (log s) = removed (log s) ++ xs →
  (mutex s = None ∨ mutex s = Some k) → state e' = state e → bmodel (tasks e') xs' →
  (cl = Idle ∧ held = false ∨ (∃ c st, cl = PushWaiting c st) ∧ held = true ∧ state e = TASK_EXEC_STATE_RUN) →
  (state e = TASK_EXEC_STATE_RUN ∨ xs' = xs) →
  xs ++ appended l = removed l ++ xs' → ran l = [] → popped l = [] →
  freed l ≡ₚ removed l ++ refused_freed l → dropped l = [] →
  inv (mkSys (Some e') (work s) (<[k := cl]> (clients s)) (if held then Some k else None) (log s ++ l)).
Proof.
  intros [Ip Iq Ir If Ig Io Id] He Hxs Hm Hst Hb' Hcl Hxs' Hq Hran Hpop Hfree Hdrop.
  rewrite He in Iq. destruct Iq as (xs0 & Hb & Ha & Hx & Hd & Hj).
  assert (xs0 = xs) as -> by (apply (app_inv_head (removed (log s))); congruence).
  assert (Hk : ∀ j cj, <[k := cl]> (clients s) !! j = Some cj →
            j = k ∧ cj = cl ∨ j ≠ k ∧ clients s !! j = Some cj).
  { intros j cj. rewrite lookup_insert_Some. naive_solver. }
  assert (Hends : ∀ j cj, ends cj = true → <[k := cl]> (clients s) !! j = Some cj → clients s !! j = Some cj).
  { intros j cj Hcj [[-> ->]|[_ ?]]%Hk; [|done]. by destruct Hcl as [[-> _]|[(c & st & ->) _]]. }
  specialize (Id (or_introl (mk_is_Some _ _ He))).
  split; cbn [exec work clients mutex log].
  - intros j c st ret cj [[-> ->]|[Hne Hjc]]%Hk Hc.
    + destruct Hcl as [[-> _]|(_ & -> & Hrun)]; [by destruct Hc|]. split; [done|]. intros e1 [= <-]. congruence.
    + destruct (Ip j c st ret cj Hjc Hc) as [Hmj _]. destruct Hm; congruence.
  - exists xs'. rewrite appended_app, removed_app, Ha, <-!app_assoc, Hq, Hst. split; [done|]. split; [done|].
    split; [|split].
    + intros Hw. destruct (Hx Hw) as [Hn Hf]. split; [done|]. intros Hfin. destruct Hxs' as [? | -> ]; [done|auto].
    + intros j Hjd%Hends; [|done]. destruct (Hd j Hjd) as [Hf ->]. split; [done|]. destruct Hxs' as [? | -> ]; [congruence|done].
    + intros j b Hjj%Hends; [|done]. destruct (Hj j b Hjj) as [Hn Hor]. split; [done|]. destruct Hxs' as [? | -> ]; done.
  - by rewrite exec_ran_app, exec_popped_app, Hran, Hpop, !app_nil_r.
  - rewrite exec_freed_app, removed_app, exec_refused_freed_app, Hfree. rewrite (assoc_L (++)), If. rewrite <-!app_assoc.
    f_equiv. rewrite !(assoc (++)). f_equiv. apply Permutation_app_comm.
  - intros j b Hjr%Hends; [|done]. apply Ig in Hjr. congruence.
  - intros i j ci cj Hi Hj' Hei Hej. apply (Io i j ci cj); auto.
  - intros _. by rewrite exec_dropped_app, Id, Hdrop.
Qed.

Lemma inv_push s e k c seg e' cl held l xs :
  inv s → exec s = Some e → state e = TASK_EXEC_STATE_RUN → (mutex s = None ∨ mutex s = Some k) →
  bmodel (tasks e) xs → appended (log s) = removed (log s) ++ xs → push_result (tasks e) xs c seg →
  push_step e c seg e' cl held l →
  inv (mkSys (Some e') (work s) (<[k := cl]> (clients s)) (if held : bool then Some k else None) (log s ++ l)).
Proof.
  intros I He Hst Hm Hb Ha Hr Hp. destruct Hp as [sg b|sg b|f st]; simpl in Hr.
  - apply (inv_client s e _ k _ xs (xs ++ [c]) _ false); try done; [apply Hr|by left|by left].
  - destruct Hr as [_ ->]. apply (inv_client s e _ k _ xs xs _ false); try done; [by left|by left|cbn; by rewrite app_nil_r].
  - apply (inv_client s e _ k _ xs xs _ true); try done; [right; eauto|by left|cbn; by rewrite app_nil_r].
Qed.

(** The state changes to FINISH or CANCEL: [cl] is the new state of the
    client that asked for it. *)
Lemma inv_ending s e e' k cl xs :
  inv s → exec s = Some e → bmodel (tasks e') xs → appended (log s) = removed (log s) ++ xs → mutex s = None →
  (state e' = TASK_EXEC_STATE_CANCEL ∨ state e = TASK_EXEC_STATE_RUN ∧ state e' = TASK_EXEC_STATE_FINISH) →
  (cl = Destroying → state e' = TASK_EXEC_STATE_FINISH ∧ xs = []) →
  (∀ b, cl = Joining b → b = true → state e' = TASK_EXEC_STATE_FINISH ∨ xs = []) →
  (∀ c st, cl ≠ PushWaiting c st) → (∀ c st ret, cl ≠ Pushing c st ret) → (∀ b, cl ≠ Returned b) →
  (∀ j cj, j ≠ k → clients s !! j = Some cj → ends cj = false) →
  inv (mkSys (Some e') (work s) (<[k := cl]> (clients s)) None (log s)).
Proof.
  intros [Ip Iq Ir If Ig Io Id] He Hb' Hxs Hm Hst Hcd Hcj Hc1 Hc2 Hc3 Hother.
  rewrite He in Iq. destruct Iq as (xs0 & Hb & Ha & Hx & Hd & Hj).
  assert (xs0 = xs) as -> by (apply (app_inv_head (removed (log s))); congruence).
  assert (Hk : ∀ j cj, ends cj = true → <[k := cl]> (clients s) !! j = Some cj → j = k ∧ cj = cl).
  { intros j cj Hcje [[-> ->]|[Hne Hjc]]%lookup_insert_Some; [done|].
    rewrite (Hother j cj) in Hcje; [done|by apply not_eq_sym|done]. }
  assert (Hnr : state e' ≠ TASK_EXEC_STATE_RUN) by (destruct Hst as [->|[_ ->]]; done).
  specialize (Id (or_introl (mk_is_Some _ _ He))).
  split; cbn [exec work clients mutex log]; try done.
  - intros j c st ret cj [[-> <-]|[Hne Hjc]]%lookup_insert_Some Hc; [naive_solver|].
    destruct (Ip j c st ret cj Hjc Hc). congruence.
  - exists xs. do 2 (split; [done|]). split; [|split].
    + intros Hw. destruct (Hx Hw) as [Hn Hf]. split; [done|]. intros Hfin. destruct Hst as [Hst|[Hst _]]; congruence.
    + intros j [-> Hjd]%Hk; [|done]. by apply Hcd.
    + intros j b [-> Hjd]%Hk; [|done]. split; [done|]. by apply Hcj.
  - intros j b [-> Hjr]%Hk; [|done]. by apply symmetry, Hc3 in Hjr.
  - intros i j ci cj Hi Hj' Hei Hej. apply Hk in Hi as [-> _]; [|done]. apply Hk in Hj' as [-> _]; done.
Qed.

(** What the invariant says of an executor that is not freed. *)
Lemma inv_live s e :
  inv s → exec s = Some e →
  ∃ xs, bmodel (tasks e) xs ∧ appended (log s) = removed (log s) ++ xs ∧
    (work s = Exited → state e ≠ TASK_EXEC_STATE_RUN ∧ (state e = TASK_EXEC_STATE_FINISH → xs = [])) ∧
    (∀ k, clients s !! k = Some Destroying → state e = TASK_EXEC_STATE_FINISH ∧ xs = []) ∧
    (∀ k b, clients s !! k = Some (Joining b) → state e ≠ TASK_EXEC_STATE_RUN ∧
       (b = true → state e = TASK_EXEC_STATE_FINISH ∨ xs = [])).
Proof. intros [_ Iq _ _ _ _ _] He. by rewrite He in Iq. Qed.

Lemma inv_append s k e c now seg e' cl held l :
  inv s → mutex s = None → exec s = Some e →
  appendTaskToExecutor e c now = Ok (Some seg) → push_step e c seg e' cl held l →
  inv (mkSys (Some e') (work s) (<[k := cl]> (clients s)) (if held : bool then Some k else None) (log s ++ l)).
Proof.
  intros I Hm He Hap Hp. destruct (inv_live s e I He) as (xs & Hb & Ha & _).
  unfold appendTaskToExecutor in Hap. case_decide as Hst; [|done].
  destruct (push_loop_spec 1 (tasks e) xs c append_timeout None now Zero Hb) as (seg' & Hs' & Hr).
  unfold blockingQueuePushTimeout, blockingQueuePushTimeoutGranular in Hap. unfold append_timeout in Hs'.
  rewrite Hs' in Hap. simpl in Hap. injection Hap as <-. eapply inv_push; try done. by left.
Qed.

Lemma inv_refuse s k e c :
  inv s → clients s !! k = Some Idle → mutex s = None → exec s = Some e →
  inv (mkSys (Some e) (work s) (clients s) None (log s ++ append_failed c false)).
Proof.
  intros I Hk Hm He. destruct (inv_live s e I He) as (xs & Hb & Ha & _).
  rewrite <-(insert_id (clients s) k Idle Hk). destruct (failed_log c false) as (La & Lm & Lf & Ld & Lr & Lp).
  apply (inv_client s e e k Idle xs xs _ false); try done; [by left|by left|by right|..].
  - by rewrite La, Lm, app_nil_r.
  - by rewrite Lf, Lm.
Qed.

Lemma inv_push_wake s k c st ret :
  inv s → clients s !! k = Some (PushWaiting c st) →
  inv (mkSys (exec s) (work s) (<[k := Pushing c st ret]> (clients s)) (mutex s) (log s)).
Proof.
  intros [Ip Iq Ir If Ig Io Id] Hk. split; cbn [exec work clients mutex log]; try done.
  - intros j c' st' ret' cj [[-> <-]|[Hne Hjc]]%lookup_insert_Some Hc; [|by eapply Ip].
    by apply (Ip j c st ret _ Hk); left.
  - destruct (exec s) as [e|] eqn:He; [|done]. destruct Iq as (xs & Hb & Ha & Hx & Hd & Hj). exists xs.
    do 3 (split; [done|]). split; [intros j|intros j b]; intros [[_ ?]|[_ ?]]%lookup_insert_Some; eauto; done.
  - intros j b [[_ ?]|[_ ?]]%lookup_insert_Some; eauto; done.
  - intros i j ci cj [[_ <-]|[_ ?]]%lookup_insert_Some [[_ <-]|[_ ?]]%lookup_insert_Some; try done. by eapply Io.
  - intros [He|[j [[_ ?]|[_ ?]]%lookup_insert_Some]]; [|done|]; apply Id; eauto.
Qed.

Lemma inv_clear s k e e' l :
  inv s → clients s !! k = Some Idle → mutex s = None → exec s = Some e → clearTaskExecutor e = Ok (l, e') →
  inv (mkSys (Some e') (work s) (clients s) None (log s ++ l)).
Proof.
  intros I Hk Hm He Hcl. destruct (inv_live s e I He) as (xs & Hb & Ha & _).
  unfold clearTaskExecutor in Hcl. rewrite <-(insert_id (clients s) k Idle Hk). case_decide as Hst.
  - destruct (clear_model (tasks e) xs Hb) as (b' & Hc & Hb' & _). rewrite Hc in Hcl. simpl in Hcl. injection Hcl as <- <-.
    destruct (cleared_log xs) as (La & Lp & Lr & Lf & Ld & Lm & Lfr).
    apply (inv_client s e _ k Idle xs [] _ false); try done; try (by left).
    + by rewrite La, Lm.
    + by rewrite Lfr, Lm, Lf, app_nil_r.
  - injection Hcl as <- <-. apply (inv_client s e e k Idle xs xs _ false); try done; try (by left); try (by right).
    cbn. by rewrite app_nil_r.
Qed.

Lemma inv_destroy s k e e' (go : bool) :
  inv s → clients s !! k = Some Idle → (∀ j cj, clients s !! j = Some cj → ends cj = false) →
  mutex s = None → exec s = Some e → destroyTaskExecutor e = (go, e') →
  inv (mkSys (Some e') (work s) (<[k := if go then Joining false else Idle]> (clients s)) None (log s)).
Proof.
  intros I Hk Hno Hm He Hds. destruct (inv_live s e I He) as (xs & Hb & Ha & _).
  unfold destroyTaskExecutor in Hds. case_decide as Hst; simpl in Hds; injection Hds as <- <-.
  - eapply (inv_ending s e _ k (Joining false) xs); try done; try (by left); [|intros b [= <-]; done|].
    + by eapply disable_model.
    + intros j cj _ Hjc. by eapply Hno.
  - rewrite (insert_id _ _ _ Hk). destruct s; simpl in *. congruence.
Qed.

Lemma inv_drain_destroy s k e e' (go : bool) :
  inv s → clients s !! k = Some Destroying → mutex s = None → exec s = Some e → destroyTaskExecutor e = (go, e') →
  inv (mkSys (Some e') (work s) (<[k := if go then Joining true else Idle]> (clients s)) None (log s)).
Proof.
  intros I Hk Hm He Hds. destruct (inv_live s e I He) as (xs & Hb & Ha & _ & Hd & _).
  destruct (Hd k Hk) as [Hfin ->]. unfold destroyTaskExecutor in Hds. rewrite Hfin, decide_True in Hds by done.
  simpl in Hds. injection Hds as <- <-. eapply (inv_ending s e _ k (Joining true) []); try done; try (by left); [|by right|].
  - by eapply disable_model.
  - intros j cj Hne Hjc. destruct (ends cj) eqn:E; [|done]. destruct Hne. by eapply (i_one s I j k cj Destroying).
Qed.

Lemma inv_drain s k e e' next :
  inv s → clients s !! k = Some Idle → (∀ j cj, clients s !! j = Some cj → ends cj = false) →
  mutex s = None → exec s = Some e → drainAndDestroyTaskExecutor e = (next, e') →
  inv (mkSys (Some e') (work s)
    (<[k := match next with DrainDestroy => Destroying | DrainJoin => Joining true | DrainNothing => Idle end]> (clients s))
    None (log s)).
Proof.
  intros I Hk Hno Hm He Hdr. destruct (inv_live s e I He) as (xs & Hb & Ha & _).
  unfold drainAndDestroyTaskExecutor in Hdr. case_decide as Hst.
  - assert (∀ cl, cl = Destroying ∧ xs = [] ∨ cl = Joining true →
      inv (mkSys (Some (set_state e TASK_EXEC_STATE_FINISH)) (work s) (<[k := cl]> (clients s)) None (log s))) as Hend.
    { intros cl Hcl. eapply (inv_ending s e _ k cl xs); try done; [by right|..];
        try (destruct Hcl as [[-> ->]| ->]; naive_solver). }
    case_decide as Hz; injection Hdr as <- <-; apply Hend; [left|by right]. split; [done|].
    change (tasks (set_state e _)) with (tasks e) in Hz. rewrite (count_model _ _ Hb) in Hz. by destruct xs.
  - injection Hdr as <- <-. rewrite (insert_id _ _ _ Hk). destruct s; simpl in *. congruence.
Qed.

Lemma exec_inv_join s k drain e l :
  inv s → clients s !! k = Some (Joining drain) → work s = Exited → mutex s = None → exec s = Some e →
  internalDestroy e = Ok l → inv (mkSys None Exited (<[k := Returned drain]> (clients s)) None (log s ++ l)).
Proof.
  intros I Hk Hw Hm He Hds. destruct (inv_live s e I He) as (xs & Hb & Ha & Hx & Hd & Hj).
  destruct I as [Ip _ Ir If Ig Io Id].
  unfold internalDestroy in Hds. rewrite (destroy_model _ _ Hb) in Hds. simpl in Hds. injection Hds as <-.
  destruct (exec_dropped_log xs) as (La & Lp & Lr & Lf & Ld & Lm & Lfr).
  destruct (Hx Hw) as [_ Hempty]. destruct (Hj k drain Hk) as [_ Hdrain]. specialize (Id (or_introl (mk_is_Some _ _ He))).
  assert (Hends : ∀ j cj, ends cj = true → <[k := Returned drain]> (clients s) !! j = Some cj → j = k ∧ cj = Returned drain).
  { intros j cj Hcje [[-> ->]|[Hne Hjc]]%lookup_insert_Some; [done|]. destruct Hne. by eapply (Io k j (Joining drain) cj). }
  split; cbn [exec work clients mutex log]; [|..|done| |].
  - intros j c st ret cj [[-> <-]|[Hne Hjc]]%lookup_insert_Some Hc; [by destruct Hc|].
    destruct (Ip j c st ret cj Hjc Hc). congruence.
  - rewrite appended_app, removed_app, La, Lm, app_nil_r. done.
  - rewrite exec_ran_app, exec_popped_app, Lr, Lp. rewrite Hw in Ir. cbn [to_run] in *. by rewrite !app_nil_r in *.
  - rewrite Hw in If. rewrite exec_freed_app, removed_app, exec_refused_freed_app, Lfr, Lm, Lf, app_nil_r. simpl in *. rewrite If.
    rewrite <-!app_assoc. f_equiv. apply Permutation_app_comm.
  - intros i j ci cj Hi Hj' Hei Hej. apply Hends in Hi as [-> _]; [|done]. apply Hends in Hj' as [-> _]; done.
  - intros [[? ?]|[j Hjr]]; [done|]. apply Hends in Hjr as [-> [= <-]]; [|done].
    rewrite exec_dropped_app, Id, Ld. destruct (Hdrain eq_refl) as [Hfin| ->]; [by apply Hempty|done].
Qed.

Lemma inv_push_again s k e c st ret now seg e' cl held l :
  inv s → clients s !! k = Some (Pushing c st ret) → exec s = Some e →
  push_resume (tasks e) c append_timeout st now ret = Ok seg → push_step e c seg e' cl held l →
  inv (mkSys (Some e') (work s) (<[k := cl]> (clients s)) (if held : bool then Some k else None) (log s ++ l)).
Proof.
  intros I Hk He Hres Hp. destruct (inv_live s e I He) as (xs & Hb & Ha & _).
  destruct (push_resume_spec (tasks e) xs c append_timeout st now ret Hb) as (seg' & Hs' & Hr).
  assert (seg' = seg) as -> by congruence.
  destruct (i_push s I k c st ret _ Hk ltac:(by right)) as [Hm Hrun]. eapply inv_push; try done; [by apply Hrun|by right].
Qed.

Lemma exec_inv_step s s' : inv s → step s s' → inv s'.
Proof.
  intros I []; eauto using inv_worker, inv_append, inv_refuse, inv_push_wake, inv_push_again, inv_clear, inv_destroy,
    inv_drain_destroy, inv_drain, exec_inv_join.
Qed.

Lemma exec_reachable_inv s : reachable s → inv s.
Proof.
  intros (s0 & H0 & Hr). apply exec_inv_initial in H0. induction Hr as [|s1 s2 s3 Hs _ IH]; [done|]. by apply IH, (exec_inv_step s1).
Qed.

(** ** The claims *)

Lemma popped_sublist l : popped l `sublist_of` removed l.
Proof.
  induction l as [|v l IH]; [done|]. destruct v; simpl; try exact IH; [by apply sublist_skip|by apply sublist_cons..].
Qed.

Lemma popped_all l : dropped l = [] → (∀ c, Cleared c ∉ l) → popped l = removed l.
Proof.
  induction l as [|v l IH]; intros Hd Hc; [done|].
  assert (Hc' : ∀ c, Cleared c ∉ l) by (intros c Hin; apply (Hc c); by right).
  destruct v; simpl in *; try (by apply IH); try done.
  - f_equal. by apply IH.
  - exfalso. apply (Hc c). by left.
Qed.

(** C15: whatever the clients and the thread of a task executor do, in any
    interleaving: the tasks that ran are tasks that were appended, in the
    order of the appends, each at most once; what was appended is what has
    been taken out followed by what the queue holds.  Every task that was
    taken out or refused is released exactly once, but for the one the thread
    is working on and the tasks refused because the executor is no longer
    running that have no freeFunc: those are left to the caller.  No operation
    crashes or loops. *)
Theorem taskExecutor_order s :
  reachable s →
  ran (log s) `sublist_of` appended (log s) ∧
  in_hand (work s) ++ freed (log s) ++ refused_left (log s) ≡ₚ removed (log s) ++ refused (log s) ∧
  (∀ c, c ∈ refused_left (log s) ↔ Refused c false ∈ log s ∧ freeFunc c = None) ∧
  match exec s with
  | None => appended (log s) = removed (log s)
  | Some e =>
      (∃ xs, bmodel (tasks e) xs ∧ appended (log s) = removed (log s) ++ xs) ∧
      (∀ c now, ∃ r, appendTaskToExecutor e c now = Ok r) ∧ (∃ r, clearTaskExecutor e = Ok r) ∧
      (∃ l, internalDestroy e = Ok l) ∧ (∀ now, ∃ seg, blockingQueuePopTimeout (Some (tasks e)) 10 now = Ok seg)
  end.
Proof.
  intros Hr. pose proof (exec_reachable_inv s Hr) as I. destruct I as [_ Iq Ir If _ _ _].
  assert (Hsub : ran (log s) `sublist_of` removed (log s)).
  { etrans; [|apply popped_sublist]. etrans; [|apply (sublist_filter (λ c, runnable c = true))]. rewrite <-Ir. by apply sublist_inserts_r. }
  assert (Hfree : in_hand (work s) ++ freed (log s) ++ refused_left (log s) ≡ₚ removed (log s) ++ refused (log s)).
  { rewrite refused_split, (assoc_L (++)), If, <-!(assoc_L (++)). f_equiv. apply Permutation_app_comm. }
  destruct (exec s) as [e|].
  - destruct Iq as (xs & Hb & Ha & _). split; [rewrite Ha; by apply sublist_inserts_r|]. split; [done|].
    split; [apply refused_left_by_state|]. split; [by exists xs|]. split; [|split; [|split]].
    + intros c now. unfold appendTaskToExecutor. case_decide; [|by eexists].
      destruct (push_loop_spec 1 (tasks e) xs c (mkTs 10 0) None now Zero Hb) as (seg & Hs & _).
      unfold blockingQueuePushTimeout, blockingQueuePushTimeoutGranular. rewrite Hs. by eexists.
    + unfold clearTaskExecutor. case_decide; [|by eexists]. destruct (clear_model _ _ Hb) as (b' & -> & _). by eexists.
    + unfold internalDestroy. rewrite (destroy_model _ _ Hb). by eexists.
    + intros now. destruct (pop_loop_spec 1 (tasks e) xs (mkTs 10 0) None now Zero Hb) as (seg & Hs & _). by exists seg.
  - destruct Iq as [Ha _]. rewrite Ha. do 2 (split; [done|]). split; [apply refused_left_by_state|done].
Qed.

(** When destroyTaskExecutor or drainAndDestroyTaskExecutor has returned
    to the client that destroyed the executor, the thread has ended, nothing
    is queued and every object that was accepted, or refused and to be
    released by the executor, has been released exactly once.  After a drain
    nothing was thrown away by the destruction: every task the thread could
    run has run; if no client cleared the queue, that is every task that was
    accepted, in order. *)
Theorem taskExecutor_destroyed s k drain :
  reachable s → clients s !! k = Some (Returned drain) →
  exec s = None ∧ work s = Exited ∧ freed (log s) ≡ₚ appended (log s) ++ refused_freed (log s) ∧
  (drain = true → dropped (log s) = [] ∧ ran (log s) = filter (λ c, runnable c = true) (popped (log s)) ∧
     ((∀ c, Cleared c ∉ log s) → ran (log s) = filter (λ c, runnable c = true) (appended (log s)))).
Proof.
  intros Hr Hk. destruct (exec_reachable_inv s Hr) as [_ Iq Ir If Ig _ Id]. pose proof (Ig k drain Hk) as He.
  rewrite He in Iq. destruct Iq as [Ha Hw]. rewrite Hw in If, Ir. cbn [in_hand to_run app] in *. rewrite app_nil_r in Ir.
  split; [done|]. split; [done|]. split; [by rewrite Ha|]. intros ->.
  assert (Hd : dropped (log s) = []) by (apply Id; right; by exists k). split; [done|]. split; [done|].
  intros Hc. by rewrite Ir, Ha, (popped_all _ Hd Hc).
Qed.

(** Client [k] waits in the push of [c] on a full queue, and the worker has
    not yet looked at the state for its next task. *)
Definition stuck s (k : nat) c : Prop :=
  mutex s = Some k ∧ (∃ st, clients s !! k = Some (PushWaiting c st) ∨ ∃ ret, clients s !! k = Some (Pushing c st ret)) ∧
  (work s = Top ∨ ∃ c', work s = Got c' ∨ work s = Running c') ∧
  ∃ e xs, exec s = Some e ∧ bmodel (tasks e) xs ∧ zlen xs = capacity (tasks e).

Lemma stuck_step s s' k c :
  inv s → stuck s k c → step s s' →
  stuck s' k c ∧ (∃ l, log s' = log s ++ l ∧ appended l = []) ∨
  log s' = log s ++ append_failed c true ∧ clients s' !! k = Some Idle.
Proof.
  intros I (Hm & (st & Hst) & Hw & e & xs & He & Hb & Hfull) Hs.
  assert (Hk : ∀ j c' st' ret' cj, clients s !! j = Some cj → cj = PushWaiting c' st' ∨ cj = Pushing c' st' ret' → j = k).
  { intros j c' st' ret' cj Hj Hc'. destruct (i_push s I j c' st' ret' cj Hj Hc'). congruence. }
  destruct Hs as [e1 e' w l He1 Hws|j e1 c1 now seg e' cl held l Hj Hm1|j e1 c1 now Hj Hm1|j c1 st1 ret1 Hj
    |j e1 c1 st1 ret1 now seg e' cl held l Hj He1 Hres Hp|j e1 e' l Hj Hm1|j e1 e' go Hj Hno Hm1|j e1 e' go Hj Hm1
    |j e1 e' next Hj Hno Hm1|j drain e1 l Hj Hw1 Hm1]; try congruence.
  - left. assert (e1 = e) as -> by congruence. rewrite Hm in Hws.
    assert (Hgoal : (w = Top ∨ ∃ c', w = Got c' ∨ w = Running c') ∧ e' = e ∧ appended l = []).
    { destruct Hw as [Hw|(c' & [Hw|Hw])]; rewrite Hw in Hws; inversion Hws; subst.
      - unfold worker_got. destruct (runFunc c'); (split; [simpl; eauto 6|done]).
      - split; [by left|done]. }
    destruct Hgoal as (Hw' & -> & Hl). split; [|by exists l]. split; [done|]. split; [by exists st|]. split; [done|].
    by exists e, xs.
  - left. assert (j = k) as -> by (apply (Hk j c1 st1 ret1 _ Hj); by left). assert (c1 = c) as -> by naive_solver.
    split; [|exists []; by rewrite app_nil_r]. split; [done|]. split; [|split; [done|by exists e, xs]].
    exists st1. right. exists ret1. simpl. by rewrite lookup_insert_eq.
  - assert (j = k) as -> by (apply (Hk j c1 st1 ret1 _ Hj); by right). assert (c1 = c) as -> by naive_solver. assert (e1 = e) as -> by congruence.
    destruct (push_resume_spec (tasks e) xs c append_timeout st1 now ret1 Hb) as (seg' & Hs' & Hr).
    assert (seg' = seg) as -> by congruence. destruct Hp as [sg b|sg b|f st2]; simpl in Hr.
    + lia.
    + right. simpl. by rewrite lookup_insert_eq.
    + left. split; [|exists []; by rewrite app_nil_r]. split; [done|]. split; [|split; [done|by exists e, xs]].
      exists st2. left. simpl. by rewrite lookup_insert_eq.
Qed.

(** AppendTaskToExecutor keeps execMutex while it waits up to 10 seconds
    for room in the queue, and the worker needs that mutex to go on to its
    next task.  So once the worker is not already waiting in the queue, an
    append that found the queue full can only fail: in every continuation it
    is still waiting with nothing appended by anyone, or it was refused
    before anything was appended. *)
Theorem append_to_full_queue_fails s s' k c :
  reachable s → stuck s k c → rtc step s s' →
  stuck s' k c ∧ (∃ l, log s' = log s ++ l ∧ appended l = []) ∨
  ∃ l1 l2, log s' = log s ++ l1 ++ append_failed c true ++ l2 ∧ appended l1 = [].
Proof.
  intros Hr%exec_reachable_inv Hst Hs. induction Hs as [s|s1 s2 s3 H12 H23 IH].
  { left. split; [done|]. exists []. by rewrite app_nil_r. }
  destruct (stuck_step s1 s2 k c Hr Hst H12) as [[Hst2 (l & Hl & Hla)]|[Hl Hk]].
  - destruct (IH (exec_inv_step _ _ Hr H12) Hst2) as [[Hst3 (l' & Hl' & Hla')]|(l1 & l2 & Hl' & Hla')].
    + left. split; [done|]. exists (l ++ l'). by rewrite Hl', Hl, (assoc_L (++)), appended_app, Hla, Hla'.
    + right. exists (l ++ l1), l2. by rewrite Hl', Hl, <-!(assoc_L (++)), appended_app, Hla, Hla'.
  - right. exists []. assert (∃ l2, log s3 = log s2 ++ l2) as [l2 Hl2].
    { clear -H23. induction H23 as [s|s1 s2 s3 H12 _ [l Hl]]; [exists []; by rewrite app_nil_r|].
      destruct H12; simpl in Hl; rewrite Hl; try (by eexists); rewrite <-?(assoc_L (++)); by eexists. }
    exists l2. by rewrite Hl2, Hl, <-(assoc_L (++)).
Qed.

End Theorems.

(** ** Concrete runs *)

Definition some_task : taskContainer Z Z Z := mkTask (Some 1) None 7 8.
Definition midnight : timespec := mkTs 0 0.
Definition new_executor : sys Z Z Z := mkSys (Some createTaskExecutor) Top {[0%nat := Idle]} None [].

Lemma new_executor_initial : initial new_executor.
Proof. split; [done|]. split; [done|]. split; [|done]. intros k cl. simpl. by rewrite lookup_singleton_Some; intros [_ <-]. Qed.

Lemma one_idle_client j cj : (<[0%nat := Idle]> {[0%nat := Idle]} : gmap nat (client Z Z Z)) !! j = Some cj → ends cj = false.
Proof. by intros [[_ <-]|[_ [_ <-]%lookup_singleton_Some]]%lookup_insert_Some. Qed.

(** One more step of a concrete run, with the state it leads to. *)
Tactic Notation "take" tactic3(tac) := eapply rtc_l; [tac|cbn [exec work clients mutex log fst snd]].

(** One task is appended and run, then the executor is drained. *)
Lemma drained_executor :
  ∃ s, reachable s ∧ clients s !! 0%nat = Some (Returned true) ∧ ran (log s) = [some_task].
Proof.
  eexists. split; [exists new_executor; split; [apply new_executor_initial|]|].
  - take (eapply (step_append _ 0 _ some_task midnight); [done|done|done|by vm_compute|apply p_done]).
    take (eapply step_worker; [done|apply w_top]).
    take (eapply step_worker; [done|eapply (w_pop_task _ _ midnight); by vm_compute]).
    take (eapply step_worker; [done|apply w_got]).
    take (eapply step_worker; [done|apply w_done]).
    take (eapply (step_drain _ 0); [done|exact one_idle_client|done|done|by vm_compute]).
    take (eapply (step_drain_destroy _ 0); [done|done|done|by vm_compute]).
    take (eapply step_worker; [done|apply w_top]).
    take (eapply (step_join _ 0); [done|done|done|done|by vm_compute]).
    apply rtc_refl.
  - done.
Qed.

(** The executor after [n] tasks were appended, as far as they fit. *)
Fixpoint filled (n : nat) : option (icTaskExecutor Z Z Z) :=
  match n with
  | O => Some createTaskExecutor
  | S n =>
      e ← filled n;
      match appendTaskToExecutor e some_task midnight with
      | Ok (Some (Return true _ b)) => Some (set_tasks e b)
      | _ => None
      end
  end.

Lemma filled_reachable n e :
  filled n = Some e → reachable (mkSys (Some e) Top {[0%nat := Idle]} None (replicate n (Appended some_task))).
Proof.
  revert e. induction n as [|n IH]; intros e; simpl.
  - intros [= <-]. exists new_executor. split; [apply new_executor_initial|apply rtc_refl].
  - destruct (filled n) as [e1|]; [|done]. simpl.
    destruct (appendTaskToExecutor e1 some_task midnight) as [[[[] sg b|? ?|?]|]| |] eqn:Hap; try done. intros [= <-].
    destruct (IH e1 eq_refl) as (s0 & H0 & Hr). exists s0. split; [done|]. eapply rtc_r; [exact Hr|].
    change (Appended some_task :: replicate n (Appended some_task)) with (replicate (S n) (Appended some_task)).
    rewrite replicate_S_end.
    exact (step_append (mkSys (Some e1) Top {[0%nat := Idle]} None (replicate n (Appended some_task))) 0 e1 some_task midnight _ _
      Idle false _ eq_refl eq_refl eq_refl Hap (p_done _ _ sg b)).
Qed.

(** 100 tasks wait, the worker is at the top of its loop and the append of
    another one waits for room. *)
Lemma stuck_append : ∃ s, reachable s ∧ stuck s 0 some_task.
Proof.
  destruct (filled 100) as [e|] eqn:Hf; [|by vm_compute in Hf].
  pose proof (filled_reachable 100 e Hf) as Hr. set (s := mkSys _ _ _ _ _) in Hr.
  assert (He : appendTaskToExecutor e some_task midnight = Ok (Some (Block false midnight))).
  { vm_compute in Hf. injection Hf as <-. by vm_compute. }
  assert (Hcap : capacity (tasks e) = 100) by (vm_compute in Hf; by injection Hf as <-).
  destruct (inv_live s e (exec_reachable_inv s Hr) eq_refl) as (xs & Hb & Ha & _).
  eexists. split.
  - destruct Hr as (s0 & H0 & Hr). exists s0. split; [done|]. eapply rtc_r; [exact Hr|].
    eapply (step_append s 0 e some_task midnight); [done|done|done|exact He|apply p_blocks].
  - split; [done|]. split; [exists midnight; left; done|]. split; [by left|]. exists e, xs. split; [done|]. split; [done|].
    rewrite Hcap. apply (f_equal length) in Ha. simpl in Ha. lia.
Qed.

Lemma taskExecutor_order_witness : ∃ s : sys Z Z Z, ran (log s) = [some_task] ∧ ran (log s) `sublist_of` appended (log s).
Proof.
  destruct drained_executor as (s & Hr & _ & Hran). exists s. split; [done|]. apply (taskExecutor_order s Hr).
Defined.

Lemma taskExecutor_destroyed_witness : ∃ s : sys Z Z Z, freed (log s) ≡ₚ appended (log s) ++ refused_freed (log s) ∧ work s = Exited.
Proof.
  destruct drained_executor as (s & Hr & Hk & _). exists s.
  destruct (taskExecutor_destroyed s 0 true Hr Hk) as (_ & Hw & Hf & _). by split.
Defined.

Lemma append_to_full_queue_fails_witness :
  ∃ s : sys Z Z Z, stuck s 0 some_task ∧ ∀ s', rtc step s s' →
    stuck s' 0 some_task ∧ (∃ l, log s' = log s ++ l ∧ appended l = []) ∨
    ∃ l1 l2, log s' = log s ++ l1 ++ append_failed some_task true ++ l2 ∧ appended l1 = [].
Proof.
  destruct stuck_append as (s & Hr & Hst). exists s. split; [done|]. intros s' Hs.
  exact (append_to_full_queue_fails s s' 0 some_task Hr Hst Hs).
Defined.

End ExecutorTheorems.
