(* ===== verification/ThreadPool.v ===== *)
(** * threadPool: a pool of workers on one queue

    Models src/source/libs/concurrent/c/src/threadPool.c on top of the blocking
    queue.  poolMutex is held from the beginning to the end of every block of
    code it protects, so such a block is one atomic segment;
    threadPoolAddTask also holds it while it waits for room in the queue.
    Workers take it for each of their decisions and release it before they
    wait in the queue or run a task.  A wait may end at any time.  createThread
    is taken to succeed, as the code does not look at its result; a new thread
    gets the next number.  A task that destroys its own pool is not modelled,
    so the thread-local key and selfDestructed are left out. *)

From S2P Require Import Prelude LinkedList LinkedListSpec Queue Time BlockingQueue.
Import Time BlockingQueue.

Module ThreadPool.

Definition MAX_NUM_THREADS : Z := 64.
Definition MAX_QUEUE_SIZE : Z := 128.
Definition ADD_TASK_TIMEOUT_MS : Z := 10.

Record threadPoolStats := mkStats {
  totalTasksQueued : Z; totalTasksRan : Z; maxTasksQueued : Z; maxConcurrentTasks : Z
}.

Section Code.
Context {R G T : Type}.

Record icTask := mkJob { run : R; argument : T; argumentFreeFunc : option G }.

(** [threads] is the array of pthread_t: the slots that have been written. *)
Record icThreadPool := mkPool {
  jobs : icBlockingQueue icTask;
  threads : gmap Z nat;
  threadCount : Z;
  minThreads : Z;
  maxThreads : Z;
  running : bool;
  active : Z;
  stats : threadPoolStats
}.

Definition set_jobs (p : icThreadPool) b :=
  mkPool b (threads p) (threadCount p) (minThreads p) (maxThreads p) (running p) (active p) (stats p).
Definition set_threads (p : icThreadPool) ts n :=
  mkPool (jobs p) ts n (minThreads p) (maxThreads p) (running p) (active p) (stats p).
Definition set_active (p : icThreadPool) n :=
  mkPool (jobs p) (threads p) (threadCount p) (minThreads p) (maxThreads p) (running p) n (stats p).
Definition set_stats (p : icThreadPool) st :=
  mkPool (jobs p) (threads p) (threadCount p) (minThreads p) (maxThreads p) (running p) (active p) st.

(** What happens to a task: see the executor; [Discarded]: popped, but the
    pool was shut down; [Dropped]: still queued when the pool was destroyed. *)
Inductive jobEvent :=
  | Added (t : icTask)
  | Refused (t : icTask)
  | Popped (t : icTask)
  | Ran (t : icTask)
  | Discarded (t : icTask)
  | Dropped (t : icTask)
  | Freed (t : icTask).

Definition taskFreeFunc (t : option icTask) : list jobEvent := match t with Some t => [Freed t] | None => [] end.

Definition isRunning (p : icThreadPool) : bool := running p.

(** The loop of addWorkerThreads: new threads get the numbers from [next] on. *)
Fixpoint add_loop (n next : nat) (p : icThreadPool) : outcome icThreadPool :=
  match n with
  | O => Ok p
  | S n =>
      if decide (threadCount p < maxThreads p)
      then add_loop n (S next) (set_threads p (<[threadCount p := next]> (threads p)) (u16 (threadCount p + 1)))
      else Fault
  end.

(** The number of threads it has created. *)
Definition addWorkerThreads (p : icThreadPool) (numToAdd : Z) (next : nat) : outcome (nat * icThreadPool) :=
  let emptyAvail := u16 (maxThreads p - threadCount p) in
  if decide (emptyAvail = 0) then Ok (0%nat, p)
  else
    let n := Z.to_nat (Z.min numToAdd emptyAvail) in
    p ← add_loop n next p; Ok (n, p).

Definition threadPoolCreate (min max maxQueueSize : Z) (next : nat) : outcome (option (nat * icThreadPool)) :=
  if decide (max < min ∨ MAX_NUM_THREADS < max ∨ MAX_QUEUE_SIZE < maxQueueSize) then Ok None
  else
    let maxQueueSize := if decide (maxQueueSize = 0) then MAX_QUEUE_SIZE else maxQueueSize in
    let p := mkPool (blockingQueueCreate (u16 maxQueueSize)) ∅ 0 min max true 0 (mkStats 0 0 0 0) in
    '(n, p) ← addWorkerThreads p min next; Ok (Some (n, p)).

(** threadPoolDestroy up to the first pthread_join: how many to join. *)
Definition threadPoolDestroy (p : icThreadPool) : Z * icThreadPool :=
  if running p then
    (threadCount p,
     mkPool (match (blockingQueueDisable (Some (jobs p))).1 with Some b => b | None => jobs p end) (threads p) (threadCount p)
       (minThreads p) (maxThreads p) false (active p) (stats p))
  else (0, p).

(** Its end, when the threads were joined. *)
Definition destroy_finish (p : icThreadPool) : outcome (list jobEvent) :=
  '(rel, _) ← blockingQueueDestroy (Some (jobs p));
  Ok (concat ((λ t, Dropped t :: taskFreeFunc (Some t)) <$> rel)).

Definition add_timeout : timespec := mkTs 0 (ADD_TASK_TIMEOUT_MS * 1000 * 1000).

(** threadPoolAddTask, once the push has succeeded: maybe another worker. *)
Definition add_finish (p : icThreadPool) (next : nat) : outcome (nat * icThreadPool) :=
  let currSize := blockingQueueCount (Some (jobs p)) in
  let empty := u32 (maxThreads p - threadCount p) in
  '(n, p) ← (if decide (0 < empty ∧ active p < maxThreads p) then addWorkerThreads p 1 next else Ok (0%nat, p));
  let st := stats p in
  Ok (n, set_stats p (mkStats (u32 (totalTasksQueued st + 1)) (totalTasksRan st)
           (if decide (maxTasksQueued st < currSize) then currSize else maxTasksQueued st) (maxConcurrentTasks st))).

Definition threadPoolGetActiveCount (p : icThreadPool) : Z := if running p then active p else 0.
Definition threadPoolGetThreadCount (p : icThreadPool) : Z := if running p then threadCount p else 0.
Definition threadPoolGetBacklogCount (p : icThreadPool) : Z :=
  if running p then blockingQueueCount (Some (jobs p)) else 0.
Definition threadPoolGetStatistics (p : icThreadPool) (thenClear : bool) : threadPoolStats * icThreadPool :=
  (stats p, if thenClear then set_stats p (mkStats 0 0 0 0) else p).
Definition threadPoolClearStatistics (p : icThreadPool) : icThreadPool := set_stats p (mkStats 0 0 0 0).

(** ** The workers *)

Inductive pc :=
  | Check                                   (* about to look at [running] *)
  | Pop
  | PopWaiting (start : timespec)
  | PopWoken (start : timespec) (ret : condRet)
  | Again (t : option icTask)               (* popped; looks at [running] again *)
  | Nothing                                 (* nothing to do: may leave *)
  | Start (t : icTask)
  | Running (t : icTask)
  | Finish                                  (* about to count down [active] *)
  | Left (detached : bool)                  (* has taken itself out of the pool *)
  | Ended.                                  (* ended by the shutdown *)

(** One atomic block of runWorker for the worker at [offset]: its next
    position, the pool and the log. *)
Definition worker_check (p : icThreadPool) : pc := if isRunning p then Pop else Again None.

Definition worker_again (p : icThreadPool) (t : option icTask) : pc * list jobEvent :=
  if negb (isRunning p)
  then (Ended, match t with Some t => Discarded t :: taskFreeFunc (Some t) | None => taskFreeFunc None end)
  else match t with None => (Nothing, []) | Some t => (Start t, []) end.

Definition worker_nothing (p : icThreadPool) (offset : Z) : pc * icThreadPool :=
  if decide (minThreads p ≤ offset ∧ offset = threadCount p - 1)
  then (Left (running p), set_threads p (threads p) (u16 (threadCount p - 1)))
  else (Check, p).

Definition worker_start (p : icThreadPool) : icThreadPool :=
  let p := set_active p (u16 (active p + 1)) in
  let st := stats p in
  set_stats p (mkStats (totalTasksQueued st) (u32 (totalTasksRan st + 1)) (maxTasksQueued st)
    (if decide (maxConcurrentTasks st < active p) then active p else maxConcurrentTasks st)).

Definition worker_finish (p : icThreadPool) : icThreadPool :=
  if decide (0 < active p) then set_active p (u16 (active p - 1)) else p.

(** ** The pool and its clients *)

Inductive client :=
  | Idle
  | Adding (t : icTask)                                   (* has seen [running], takes the mutex *)
  | PushWaiting (t : icTask) (start : timespec)
  | Pushing (t : icTask) (start : timespec) (ret : condRet)
  | Joining (count i : Z)                                 (* waits for thread i of count *)
  | Returned.

Record sys := mkSys {
  pool : option icThreadPool;                             (* None: freed *)
  workers : gmap nat (Z * pc);                            (* by thread: offset and position *)
  next : nat;
  clients : gmap nat client;
  mutex : option nat;
  log : list jobEvent
}.

(** [n] new threads from number [k] and offset [o] on. *)
Fixpoint spawn (n k : nat) (o : Z) (ws : gmap nat (Z * pc)) : gmap nat (Z * pc) :=
  match n with O => ws | S n => spawn n (S k) (o + 1) (<[k := (o, Check)]> ws) end.

(** A step of a worker: whether it needs the mutex, the pool, the position and
    the log. *)
Inductive worker_step (p : icThreadPool) (offset : Z) : bool → pc → icThreadPool → pc → list jobEvent → Prop :=
  | w_check : worker_step p offset true Check p (worker_check p) []
  | w_pop now r sg b :
      blockingQueuePopTimeout (Some (jobs p)) 10 now = Ok (Return r sg b) →
      worker_step p offset false Pop (set_jobs p b) (Again r) (match r with Some t => [Popped t] | None => [] end)
  | w_pop_blocks now f st :
      blockingQueuePopTimeout (Some (jobs p)) 10 now = Ok (Block f st) →
      worker_step p offset false Pop p (PopWaiting st) []
  | w_wake st ret : worker_step p offset false (PopWaiting st) p (PopWoken st ret) []
  | w_woken now st ret r sg b :
      pop_resume (jobs p) (mkTs 10 0) st now ret = Ok (Return r sg b) →
      worker_step p offset false (PopWoken st ret) (set_jobs p b) (Again r) (match r with Some t => [Popped t] | None => [] end)
  | w_woken_blocks now st ret f st' :
      pop_resume (jobs p) (mkTs 10 0) st now ret = Ok (Block f st') →
      worker_step p offset false (PopWoken st ret) p (PopWaiting st') []
  | w_again t : worker_step p offset true (Again t) p (worker_again p t).1 (worker_again p t).2
  | w_nothing : worker_step p offset true Nothing (worker_nothing p offset).2 (worker_nothing p offset).1 []
  | w_start t : worker_step p offset true (Start t) (worker_start p) (Running t) [Ran t]
  | w_ran t : worker_step p offset false (Running t) p Finish (taskFreeFunc (Some t))
  | w_finish : worker_step p offset true Finish (worker_finish p) Check [].

(** The push of a client ends or blocks: the threads it creates, the client,
    whether it keeps the mutex, the log. *)
Inductive push_step (p : icThreadPool) (next : nat) (t : icTask)
    : segment icTask bool → icThreadPool → nat → client → bool → list jobEvent → Prop :=
  | p_done sg b n p' :
      add_finish (set_jobs p b) next = Ok (n, p') →
      push_step p next t (Return true sg b) p' n Idle false [Added t]
  | p_failed sg b :
      push_step p next t (Return false sg b) (set_jobs p b) 0 Idle false (Refused t :: taskFreeFunc (Some t))
  | p_blocks f st : push_step p next t (Block f st) p 0 (PushWaiting t st) true [].

Definition destroying (cl : client) : bool := match cl with Joining _ _ | Returned => true | _ => false end.

(** One client destroys the pool; nobody is inside threadPoolAddTask when it is
    freed. *)
Inductive step (s : sys) : sys → Prop :=
  | step_worker p k o w m p' w' l :
      pool s = Some p → workers s !! k = Some (o, w) → worker_step p o m w p' w' l → (m = true → mutex s = None) →
      step s (mkSys (Some p') (<[k := (o, w')]> (workers s)) (next s) (clients s) (mutex s) (log s ++ l))
  | step_add c p t :
      clients s !! c = Some Idle → pool s = Some p → running p = true →
      step s (mkSys (Some p) (workers s) (next s) (<[c := Adding t]> (clients s)) (mutex s) (log s))
  | step_add_refused c p t :
      clients s !! c = Some Idle → pool s = Some p → running p = false →
      step s (mkSys (Some p) (workers s) (next s) (clients s) (mutex s) (log s ++ [Refused t; Freed t]))
  | step_push c p t now seg p' n cl held l :
      clients s !! c = Some (Adding t) → mutex s = None → pool s = Some p →
      blockingQueuePushTimeoutGranular (Some (jobs p)) (Some t) add_timeout now = Ok seg →
      push_step p (next s) t seg p' n cl held l →
      step s (mkSys (Some p') (spawn n (next s) (threadCount p) (workers s)) (next s + n) (<[c := cl]> (clients s))
        (if held : bool then Some c else None) (log s ++ l))
  | step_push_wake c t st ret :
      clients s !! c = Some (PushWaiting t st) →
      step s (mkSys (pool s) (workers s) (next s) (<[c := Pushing t st ret]> (clients s)) (mutex s) (log s))
  | step_push_again c p t st ret now seg p' n cl held l :
      clients s !! c = Some (Pushing t st ret) → pool s = Some p →
      push_resume (jobs p) t add_timeout st now ret = Ok seg →
      push_step p (next s) t seg p' n cl held l →
      step s (mkSys (Some p') (spawn n (next s) (threadCount p) (workers s)) (next s + n) (<[c := cl]> (clients s))
        (if held : bool then Some c else None) (log s ++ l))
  | step_clear_stats c p :
      clients s !! c = Some Idle → mutex s = None → pool s = Some p →
      step s (mkSys (Some (threadPoolClearStatistics p)) (workers s) (next s) (clients s) None (log s))
  | step_destroy c p p' n :
      clients s !! c = Some Idle → (∀ d cl, clients s !! d = Some cl → destroying cl = false) →
      mutex s = None → pool s = Some p → threadPoolDestroy p = (n, p') →
      step s (mkSys (Some p') (workers s) (next s) (<[c := Joining n 0]> (clients s)) None (log s))
  | step_join c p n i k o w :
      clients s !! c = Some (Joining n i) → i < n → pool s = Some p → threads p !! i = Some k →
      workers s !! k = Some (o, w) → w = Ended ∨ w = Left false →
      step s (mkSys (Some p) (workers s) (next s) (<[c := Joining n (i + 1)]> (clients s)) (mutex s) (log s))
  | step_free c p n l :
      clients s !! c = Some (Joining n n) → (∀ d cl, clients s !! d = Some cl → cl = Idle ∨ d = c) →
      pool s = Some p → destroy_finish p = Ok l →
      step s (mkSys None (workers s) (next s) (<[c := Returned]> (clients s)) (mutex s) (log s ++ l)).

(** A new pool and its clients. *)
Definition initial (min max maxQueueSize : Z) (s : sys) : Prop :=
  ∃ n p, threadPoolCreate min max maxQueueSize 0 = Ok (Some (n, p)) ∧ pool s = Some p ∧
    workers s = spawn n 0 0 ∅ ∧ next s = n ∧ (∀ c cl, clients s !! c = Some cl → cl = Idle) ∧ mutex s = None ∧ log s = [].

Definition reachable (min max maxQueueSize : Z) (s : sys) : Prop :=
  ∃ s0, initial min max maxQueueSize s0 ∧ rtc step s0 s.

End Code.
Arguments icTask : clear implicits.
Arguments icThreadPool : clear implicits.
Arguments jobEvent : clear implicits.
Arguments pc : clear implicits.
Arguments client : clear implicits.
Arguments sys : clear implicits.

End ThreadPool.
