(* ===== verification/ThreadPoolTheorems.v ===== *)
(** * What the thread pool promises

    Two invariants of all interleavings: where every task is, and how the
    workers and the array of threads fit together.  From them: no task runs
    twice or is released twice, the array is never fragmented and never
    overrun, the counters are exact, and destroying the pool ends every
    worker before the pool is freed.  A pool that may shrink to no threads can
    be left with a task and nobody to run it. *)

From S2P Require Import Prelude LinkedList LinkedListSpec Queue Time BlockingQueue BlockingQueueTheorems ThreadPool.
Import Time BlockingQueue BlockingTheorems ThreadPool.

Module PoolTheorems.
Section Theorems.
Context {R G T : Type}.
Implicit Types (t : icTask R G T) (p : icThreadPool R G T) (w : pc R G T) (cl : client R G T) (s : sys R G T)
  (l : list (jobEvent R G T)) (xs : list (icTask R G T)) (ws : gmap nat (Z * pc R G T)).

(** ** Tasks *)

Definition added l := omap (λ v, match v with Added t => Some t | _ => None end) l.
Definition refused l := omap (λ v, match v with Refused t => Some t | _ => None end) l.
Definition popped l := omap (λ v, match v with Popped t => Some t | _ => None end) l.
Definition ran l := omap (λ v, match v with Ran t => Some t | _ => None end) l.
Definition discarded l := omap (λ v, match v with Discarded t => Some t | _ => None end) l.
Definition dropped l := omap (λ v, match v with Dropped t => Some t | _ => None end) l.
Definition freed l := omap (λ v, match v with Freed t => Some t | _ => None end) l.

Lemma added_app l1 l2 : added (l1 ++ l2) = added l1 ++ added l2. Proof. apply omap_app. Qed.
Lemma refused_app l1 l2 : refused (l1 ++ l2) = refused l1 ++ refused l2. Proof. apply omap_app. Qed.
Lemma popped_app l1 l2 : popped (l1 ++ l2) = popped l1 ++ popped l2. Proof. apply omap_app. Qed.
Lemma ran_app l1 l2 : ran (l1 ++ l2) = ran l1 ++ ran l2. Proof. apply omap_app. Qed.
Lemma discarded_app l1 l2 : discarded (l1 ++ l2) = discarded l1 ++ discarded l2. Proof. apply omap_app. Qed.
Lemma dropped_app l1 l2 : dropped (l1 ++ l2) = dropped l1 ++ dropped l2. Proof. apply omap_app. Qed.
Lemma freed_app l1 l2 : freed (l1 ++ l2) = freed l1 ++ freed l2. Proof. apply omap_app. Qed.

(** The task a worker has; the one it has not run yet. *)
Definition has (v : Z * pc R G T) : list (icTask R G T) :=
  match v.2 with Again (Some t) | Start t | Running t => [t] | _ => [] end.
Definition will_run (v : Z * pc R G T) : list (icTask R G T) :=
  match v.2 with Again (Some t) | Start t => [t] | _ => [] end.

Record jobs_ok s : Prop := {
  j_queue : match pool s with
            | Some p => ∃ xs, bmodel (jobs p) xs ∧ added (log s) = popped (log s) ++ xs ∧ dropped (log s) = []
            | None => added (log s) = popped (log s) ++ dropped (log s)
            end;
  j_ran : popped (log s) ≡ₚ ran (log s) ++ discarded (log s) ++ gather will_run (workers s);
  j_freed : gather has (workers s) ++ freed (log s) ≡ₚ popped (log s) ++ dropped (log s) ++ refused (log s)
}.

Lemma gather_spawn {A} (f : Z * pc R G T → list A) n k o ws :
  (∀ o, f (o, Check) = []) → (∀ j, (k ≤ j)%nat → ws !! j = None) → gather f (spawn n k o ws) ≡ₚ gather f ws.
Proof.
  intros Hf. revert k o ws. induction n as [|n IH]; intros k o ws Hnew; simpl; [done|].
  rewrite IH; [by rewrite gather_new, Hf by (by apply Hnew)|]. intros j Hj. rewrite lookup_insert_ne by lia. apply Hnew. lia.
Qed.

(** What a step of a worker does to the queue and to its task. *)
Lemma worker_step_jobs p xs o m w p' w' l :
  bmodel (jobs p) xs → worker_step p o m w p' w' l →
  (∃ t xs', xs = t :: xs' ∧ bmodel (jobs p') xs' ∧ l = [Popped t] ∧ has (o, w) = [] ∧ will_run (o, w) = [] ∧ w' = Again (Some t)) ∨
  bmodel (jobs p') xs ∧
  (l = [] ∧ has (o, w') = has (o, w) ∧ will_run (o, w') = will_run (o, w) ∨
   (∃ t, w = Again (Some t) ∧ w' = Ended ∧ l = [Discarded t; Freed t]) ∨
   (∃ t, w = Start t ∧ w' = Running t ∧ l = [Ran t]) ∨
   (∃ t, w = Running t ∧ w' = Finish ∧ l = [Freed t])).
Proof.
  intros Hb Hs. destruct Hs as [|now r sg b H|now f st H|st ret|now st ret r sg b H|now st ret f st' H|t| |t|t|].
  - right. split; [done|]. left. unfold worker_check. by destruct (isRunning p).
  - destruct (pop_loop_spec 1 (jobs p) xs (mkTs 10 0) None now Zero Hb) as (seg & Hs & Hr).
    unfold blockingQueuePopTimeout, blockingQueuePopTimeoutGranular in H. rewrite Hs in H. injection H as ->.
    destruct r as [t|]; simpl in Hr.
    + left. destruct Hr as (_ & xs' & -> & _ & Hb' & _). by exists t, xs'.
    + right. destruct Hr as [_ ->]. split; [done|by left].
  - right. split; [done|by left].
  - right. split; [done|by left].
  - destruct (pop_resume_spec (jobs p) xs (mkTs 10 0) st now ret Hb) as (seg & Hs & Hr). rewrite Hs in H. injection H as ->.
    destruct r as [t|]; simpl in Hr.
    + left. destruct Hr as (_ & xs' & -> & _ & Hb' & _). by exists t, xs'.
    + right. destruct Hr as [_ ->]. split; [done|by left].
  - right. split; [done|by left].
  - right. split; [done|]. unfold worker_again. destruct (isRunning p), t as [t|]; simpl; eauto 6.
  - right. unfold worker_nothing. case_decide; (split; [done|by left]).
  - right. split; [done|]. right; right; left. eauto.
  - right. split; [done|]. right; right; right. eauto.
  - right. unfold worker_finish. case_decide; (split; [done|by left]).
Qed.

Lemma jobs_worker s p k o w m p' w' l :
  jobs_ok s → pool s = Some p → workers s !! k = Some (o, w) → worker_step p o m w p' w' l →
  jobs_ok (mkSys (Some p') (<[k := (o, w')]> (workers s)) (next s) (clients s) (mutex s) (log s ++ l)).
Proof.
  intros [Jq Jr Jf] Hp Hk Hs. rewrite Hp in Jq. destruct Jq as (xs & Hb & Ha & Hd).
  destruct (worker_step_jobs p xs o m w p' w' l Hb Hs)
    as [(t & xs' & -> & Hb' & -> & Hh & Hw & ->)|[Hb' [(-> & Hh & Hw)|[(t & -> & -> & ->)|[(t & -> & -> & ->)|(t & -> & -> & ->)]]]]].
  - split; cbn [pool workers log].
    + exists xs'. rewrite added_app, popped_app, dropped_app, Ha, Hd. cbn. by rewrite app_nil_r, <-app_assoc.
    + rewrite popped_app, ran_app, discarded_app, (gather_more will_run _ _ _ _ t Hk) by (by rewrite Hw). cbn.
      rewrite !app_nil_r, Jr. solve_Permutation.
    + rewrite freed_app, popped_app, dropped_app, refused_app, (gather_more has _ _ _ _ t Hk) by (by rewrite Hh). cbn.
      rewrite !app_nil_r, Jf. solve_Permutation.
  - split; cbn [pool workers log]; rewrite app_nil_r.
    + by exists xs.
    + by rewrite (gather_same will_run _ _ _ _ Hk) by (by rewrite Hw).
    + by rewrite (gather_same has _ _ _ _ Hk) by (by rewrite Hh).
  - split; cbn [pool workers log].
    + exists xs. rewrite added_app, popped_app, dropped_app, Ha, Hd. cbn. by rewrite !app_nil_r.
    + rewrite popped_app, ran_app, discarded_app. cbn. rewrite !app_nil_r, Jr.
      rewrite (gather_less will_run _ k (o, Again (Some t)) (o, Ended) t Hk) by done. solve_Permutation.
    + rewrite freed_app, popped_app, dropped_app, refused_app. cbn. rewrite !app_nil_r, <-Jf.
      rewrite (gather_less has _ k (o, Again (Some t)) (o, Ended) t Hk) by done. solve_Permutation.
  - split; cbn [pool workers log].
    + exists xs. rewrite added_app, popped_app, dropped_app, Ha, Hd. cbn. by rewrite !app_nil_r.
    + rewrite popped_app, ran_app, discarded_app. cbn. rewrite !app_nil_r, Jr.
      rewrite (gather_less will_run _ k (o, Start t) (o, Running t) t Hk) by done. solve_Permutation.
    + rewrite freed_app, popped_app, dropped_app, refused_app. cbn. rewrite !app_nil_r, <-Jf.
      by rewrite (gather_same has _ k (o, Start t) (o, Running t) Hk).
  - split; cbn [pool workers log].
    + exists xs. rewrite added_app, popped_app, dropped_app, Ha, Hd. cbn. by rewrite !app_nil_r.
    + rewrite popped_app, ran_app, discarded_app. cbn. rewrite !app_nil_r, Jr.
      by rewrite (gather_same will_run _ k (o, Running t) (o, Finish) Hk).
    + rewrite freed_app, popped_app, dropped_app, refused_app. cbn. rewrite !app_nil_r, <-Jf.
      rewrite (gather_less has _ k (o, Running t) (o, Finish) t Hk) by done. solve_Permutation.
Qed.

(** The workers that are created only touch the array and the statistics. *)
Lemma add_loop_fields n k p p' :
  add_loop n k p = Ok p' →
  jobs p' = jobs p ∧ minThreads p' = minThreads p ∧ maxThreads p' = maxThreads p ∧ running p' = running p ∧
  active p' = active p ∧ stats p' = stats p.
Proof.
  revert k p. induction n as [|n IH]; intros k p; simpl; [by intros [= <-]|]. case_decide; [|done].
  intros (? & ? & ? & ? & ? & ?)%IH. done.
Qed.

Lemma add_finish_fields p k n p' :
  add_finish p k = Ok (n, p') →
  jobs p' = jobs p ∧ minThreads p' = minThreads p ∧ maxThreads p' = maxThreads p ∧ running p' = running p ∧
  active p' = active p.
Proof.
  unfold add_finish. case_decide; [|simpl; by intros [= _ <-]].
  unfold addWorkerThreads. case_decide; [simpl; by intros [= _ <-]|].
  destruct (add_loop _ k p) as [p1| |] eqn:Hl; simpl; [|done|done]. intros [= _ <-].
  by destruct (add_loop_fields _ _ _ _ Hl) as (? & ? & ? & ? & ? & _).
Qed.

(** The threads that exist have numbers below [next]. *)
Definition numbered s : Prop := ∀ k, (next s ≤ k)%nat → workers s !! k = None.

Lemma jobs_push s p c t seg p' n cl held l :
  jobs_ok s → numbered s → pool s = Some p → (∀ xs, bmodel (jobs p) xs → push_result (jobs p) xs t seg) →
  push_step p (next s) t seg p' n cl held l →
  jobs_ok (mkSys (Some p') (spawn n (next s) (threadCount p) (workers s)) (next s + n) (<[c := cl]> (clients s))
    (if held : bool then Some c else None) (log s ++ l)).
Proof.
  intros [Jq Jr Jf] Hnew Hp Hres Hs. rewrite Hp in Jq. destruct Jq as (xs & Hb & Ha & Hd). specialize (Hres xs Hb).
  destruct Hs as [sg b n p' Hfin|sg b|f st]; simpl in Hres; split; cbn [pool workers log];
    rewrite ?(gather_spawn will_run), ?(gather_spawn has) by done.
  - exists (xs ++ [t]). destruct (add_finish_fields _ _ _ _ Hfin) as [-> _]. split; [apply Hres|].
    rewrite added_app, popped_app, dropped_app, Ha, Hd. cbn. by rewrite app_nil_r, <-app_assoc.
  - rewrite popped_app, ran_app, discarded_app. cbn. by rewrite !app_nil_r.
  - rewrite freed_app, popped_app, dropped_app, refused_app. cbn. by rewrite !app_nil_r.
  - destruct Hres as [_ ->]. exists xs. rewrite added_app, popped_app, dropped_app, Ha, Hd. cbn. by rewrite !app_nil_r.
  - rewrite popped_app, ran_app, discarded_app. cbn. by rewrite !app_nil_r.
  - rewrite freed_app, popped_app, dropped_app, refused_app. cbn. rewrite !app_nil_r, !(assoc (++)). f_equiv.
    rewrite Jf. by rewrite !(assoc (++)).
  - exists xs. by rewrite app_nil_r.
  - by rewrite app_nil_r.
  - by rewrite app_nil_r.
Qed.

Lemma dropped_log xs (l := concat ((λ t, Dropped t :: taskFreeFunc (Some t)) <$> xs)) :
  added l = [] ∧ refused l = [] ∧ popped l = [] ∧ ran l = [] ∧ discarded l = [] ∧ dropped l = xs ∧ freed l = xs.
Proof. subst l. induction xs as [|t xs (? & ? & ? & ? & ? & Hd & Hf)]; [done|]. simpl. do 5 (split; [done|]). split; by f_equal. Qed.

Lemma push_segment p t now seg :
  blockingQueuePushTimeoutGranular (Some (jobs p)) (Some t) add_timeout now = Ok seg →
  ∀ xs, bmodel (jobs p) xs → push_result (jobs p) xs t seg.
Proof.
  intros Hs xs Hb. destruct (push_loop_spec 1 (jobs p) xs t add_timeout None now Zero Hb) as (seg' & Hs' & Hr).
  unfold blockingQueuePushTimeoutGranular in Hs. congruence.
Qed.

Lemma push_again_segment p t st now ret seg :
  push_resume (jobs p) t add_timeout st now ret = Ok seg → ∀ xs, bmodel (jobs p) xs → push_result (jobs p) xs t seg.
Proof. intros Hs xs Hb. destruct (push_resume_spec (jobs p) xs t add_timeout st now ret Hb) as (seg' & Hs' & Hr). congruence. Qed.

(** A segment of a client that leaves queue, workers and log alone. *)
Lemma jobs_quiet s p p' cls m :
  jobs_ok s → pool s = Some p → (∀ xs, bmodel (jobs p) xs → bmodel (jobs p') xs) →
  jobs_ok (mkSys (Some p') (workers s) (next s) cls m (log s)).
Proof.
  intros [Jq Jr Jf] Hp Hb. rewrite Hp in Jq. destruct Jq as (xs & Hx & Ha & Hd). split; try done. exists xs. auto.
Qed.

Lemma jobs_step s s' : jobs_ok s → numbered s → step s s' → jobs_ok s'.
Proof.
  intros J Hnew Hs. destruct Hs as [p k o w m p' w' l Hp Hk Hs Hm|c p t Hc Hp Hrun|c p t Hc Hp Hrun
    |c p t now seg p' n cl held l Hc Hm Hp Hseg Hps|c t st ret Hc|c p t st ret now seg p' n cl held l Hc Hp Hseg Hps
    |c p Hc Hm Hp|c p p' n Hc Hno Hm Hp Hd|c p n i k o w Hc Hi Hp Ht Hk Hw|c p n l Hc Hno Hp Hl].
  - by eapply jobs_worker.
  - by eapply jobs_quiet.
  - destruct J as [Jq Jr Jf]. rewrite Hp in Jq. destruct Jq as (xs & Hb & Ha & Hd). split; cbn [pool workers log].
    + exists xs. rewrite added_app, popped_app, dropped_app, Ha, Hd. cbn. by rewrite !app_nil_r.
    + rewrite popped_app, ran_app, discarded_app. cbn. by rewrite !app_nil_r.
    + rewrite freed_app, popped_app, dropped_app, refused_app. cbn. rewrite !app_nil_r, !(assoc (++)). f_equiv.
      rewrite Jf. by rewrite !(assoc (++)).
  - eapply jobs_push; [done|done|done|by eapply push_segment|done].
  - by destruct J.
  - eapply jobs_push; [done|done|done|by eapply push_again_segment|done].
  - by eapply jobs_quiet.
  - eapply jobs_quiet; [done|done|]. intros xs Hb. unfold threadPoolDestroy in Hd.
    destruct (running p); injection Hd as <- <-; [|done]. by eapply (disable_model (jobs p)).
  - by eapply jobs_quiet.
  - destruct J as [Jq Jr Jf]. rewrite Hp in Jq. destruct Jq as (xs & Hb & Ha & Hd).
    unfold destroy_finish in Hl. rewrite (destroy_model _ _ Hb) in Hl.
    assert (l = concat ((λ t, Dropped t :: taskFreeFunc (Some t)) <$> xs)) as -> by (by injection Hl as <-).
    destruct (dropped_log xs) as (La & Lr & Lp & Ln & Li & Ld & Lf). split; cbn [pool workers log].
    + rewrite added_app, popped_app, dropped_app, La, Lp, Ld, Ha, Hd. simpl. by rewrite !app_nil_r.
    + by rewrite popped_app, ran_app, discarded_app, Lp, Ln, Li, !app_nil_r.
    + rewrite freed_app, popped_app, dropped_app, refused_app, Lf, Lp, Ld, Lr, Hd in *. rewrite !app_nil_r, (assoc (++)), Jf.
      simpl. rewrite <-(assoc (++)). f_equiv. apply Permutation_app_comm.
Qed.

(** ** Workers *)

Definition in_pool w : bool := match w with Left _ => false | _ => true end.
Definition busy (v : Z * pc R G T) : list () := match v.2 with Running _ | Finish => [()] | _ => [] end.

(** The array of threads and the workers; [lo] is the least number of them. *)
Record pool_ok (lo mn mx : Z) ws (cls : gmap nat (client R G T)) p : Prop := {
  p_min : minThreads p = mn;
  p_max : maxThreads p = mx;
  p_bounds : 0 ≤ mn ≤ mx ∧ mx ≤ MAX_NUM_THREADS ∧ 0 ≤ lo;
  p_count : lo ≤ threadCount p ≤ mx;
  p_slot i : 0 ≤ i < threadCount p → ∃ k w, threads p !! i = Some k ∧ ws !! k = Some (i, w) ∧ in_pool w = true;
  p_back k i w : ws !! k = Some (i, w) → in_pool w = true → 0 ≤ i < threadCount p ∧ threads p !! i = Some k;
  p_active : active p = zlen (gather busy ws);
  p_stopped : running p = false → enabled (jobs p) = false ∧ ∃ c n j, cls !! c = Some (Joining n j);
  p_ended k i w : ws !! k = Some (i, w) → w = Ended ∨ w = Left false → running p = false;
  p_joining c n j : cls !! c = Some (Joining n j) →
    running p = false ∧ 0 ≤ j ≤ n ∧ threadCount p ≤ n ∧
    ∀ i, 0 ≤ i < n → ∃ k w, threads p !! i = Some k ∧ ws !! k = Some (i, w) ∧ w ≠ Left true ∧
                             (i < j → w = Ended ∨ w = Left false)
}.

Lemma gather_busy ws : length (gather busy ws) = length (filter (λ kv, busy kv.2 ≠ []) (map_to_list ws)).
Proof.
  unfold gather. induction (map_to_list ws) as [|[k v] l IH]; [done|]. cbn [fmap list_fmap concat snd]. rewrite length_app, IH.
  destruct (decide (busy v = [])) as [E|E].
  - rewrite filter_cons_False by tauto. by rewrite E.
  - rewrite filter_cons_True by done. unfold busy in *. by destruct v as [o []].
Qed.

(** No more workers run tasks than there are slots in use. *)
Lemma busy_bound lo mn mx ws cls p : pool_ok lo mn mx ws cls p → zlen (gather busy ws) ≤ threadCount p.
Proof.
  intros P. rewrite gather_busy. set (l := filter _ _).
  assert (Hin : ∀ k v, (k, v) ∈ l → ws !! k = Some v ∧ in_pool v.2 = true).
  { intros k v [Hb Hl%elem_of_map_to_list]%list_elem_of_filter. split; [done|]. by destruct v as [o []]. }
  assert (Hnd : NoDup ((λ kv, kv.2.1) <$> l)).
  { apply NoDup_fmap_2_strong; [|apply NoDup_filter, NoDup_map_to_list].
    intros [k [i w]] [k' [i' w']] [H1 H2]%Hin [H1' H2']%Hin; simpl in *; intros <-.
    destruct (p_back _ _ _ _ _ _ P k i w H1 H2) as [_ E1]. destruct (p_back _ _ _ _ _ _ P k' i w' H1' H2') as [_ E2].
    congruence. }
  pose proof (p_count _ _ _ _ _ _ P) as Hc. pose proof (p_bounds _ _ _ _ _ _ P) as Hbd.
  assert (length l ≤ Z.to_nat (threadCount p))%nat; [|lia].
  rewrite <-(length_fmap (λ kv, kv.2.1) l), <-(length_seqZ 0 (threadCount p)). apply submseteq_length, NoDup_submseteq; [done|].
  intros i ([k [i' w]] & -> & Hkv%Hin)%list_elem_of_fmap. apply elem_of_seqZ. simpl in *.
  destruct Hkv as [H1 H2]. destruct (p_back _ _ _ _ _ _ P k i' w H1 H2). lia.
Qed.

(** A worker of the pool moves on; the pool keeps its threads. *)
Lemma pool_moves lo mn mx ws cls p p' k o w w' :
  pool_ok lo mn mx ws cls p → ws !! k = Some (o, w) → in_pool w = true → w ≠ Ended → in_pool w' = true →
  minThreads p' = minThreads p → maxThreads p' = maxThreads p → threadCount p' = threadCount p → threads p' = threads p →
  running p' = running p → enabled (jobs p') = enabled (jobs p) →
  active p' = zlen (gather busy (<[k := (o, w')]> ws)) → (w' = Ended → running p = false) →
  pool_ok lo mn mx (<[k := (o, w')]> ws) cls p'.
Proof.
  intros P Hk Hw Hne Hw' E1 E2 E3 E4 E5 E6 Ha Hend. destruct P as [Pmin Pmax Pb Pc Ps Pk Pa Pst Pe Pj].
  split; rewrite ?E1, ?E2, ?E3, ?E4, ?E5, ?E6; try done.
  - intros i Hi. destruct (Ps i Hi) as (k' & w1 & Ht & Hw1 & Hin). destruct (decide (k' = k)) as [->|Hd].
    + exists k, w'. rewrite lookup_insert_eq. by replace o with i by congruence.
    + exists k', w1. by rewrite lookup_insert_ne by done.
  - intros k' i w1 [[-> [= <- <-]]|[_ H]]%lookup_insert_Some Hin; eauto.
  - intros k' i w1 [[-> [= <- <-]]|[_ H]]%lookup_insert_Some Hin; [|eauto]. destruct Hin as [Hin|Hin]; [auto|by rewrite Hin in Hw'].
  - intros c n j Hc. destruct (Pj c n j Hc) as (Hr & Hj & Hn & Hall). do 3 (split; [done|]).
    intros i Hi. destruct (Hall i Hi) as (k' & w1 & Ht & Hw1 & Hnl & Hend'). destruct (decide (k' = k)) as [->|Hd].
    + exists k, w'. rewrite lookup_insert_eq. rewrite Hk in Hw1. injection Hw1 as <- <-. split; [done|]. split; [done|].
      split; [by intros ->|]. intros Hij. destruct (Hend' Hij) as [?| ->]; done.
    + exists k', w1. by rewrite lookup_insert_ne by done.
Qed.

(** The last worker leaves. *)
Lemma pool_leaves mn mx ws cls p k o :
  pool_ok mn mn mx ws cls p → ws !! k = Some (o, Nothing) → mn ≤ o → o = threadCount p - 1 →
  pool_ok mn mn mx (<[k := (o, Left (running p))]> ws) cls (set_threads p (threads p) (u16 (threadCount p - 1))).
Proof.
  intros P Hk Hmn Ho. destruct P as [Pmin Pmax Pb Pc Ps Pk Pa Pst Pe Pj].
  assert (Hu : u16 (threadCount p - 1) = threadCount p - 1) by (apply u16_small; unfold MAX_NUM_THREADS in *; lia).
  destruct (Pk k o Nothing Hk eq_refl) as [Hob Hslot].
  split; cbn [minThreads maxThreads threadCount threads running active jobs set_threads]; rewrite ?Hu; try done; try lia.
  - intros i Hi. destruct (Ps i ltac:(lia)) as (k' & w1 & Ht & Hw1 & Hin). exists k', w1. split; [done|]. split; [|done].
    rewrite lookup_insert_ne; [done|]. intros <-. rewrite Hk in Hw1. injection Hw1 as <- _. lia.
  - intros k' i w1 [[-> [= <- <-]]|[Hne H]]%lookup_insert_Some Hin; [done|]. destruct (Pk k' i w1 H Hin) as [Hi Ht].
    split; [|done]. assert (i ≠ o) by (intros ->; congruence). lia.
  - rewrite Pa. f_equal. by rewrite (gather_same busy _ _ _ _ Hk).
  - intros k' i w1 [[-> [= <- <-]]|[_ H]]%lookup_insert_Some Hin; [|eauto]. by destruct Hin as [?|[= ->]].
  - intros c n j Hc. destruct (Pj c n j Hc) as (Hr & Hj & Hn & Hall). split; [done|]. split; [done|]. split; [lia|].
    intros i Hi. destruct (Hall i Hi) as (k' & w1 & Ht & Hw1 & Hnl & Hend'). destruct (decide (k' = k)) as [->|Hd].
    + exists k, (Left (running p)). rewrite lookup_insert_eq, Hr. rewrite Hk in Hw1. injection Hw1 as <- <-.
      do 3 (split; [done|]). by right.
    + exists k', w1. by rewrite lookup_insert_ne by done.
Qed.

(** One more worker. *)
Lemma pool_grows lo mn mx ws cls p k :
  pool_ok lo mn mx ws cls p → ws !! k = None → threadCount p < mx → running p = true →
  pool_ok lo mn mx (<[k := (threadCount p, Check)]> ws) cls
    (set_threads p (<[threadCount p := k]> (threads p)) (u16 (threadCount p + 1))).
Proof.
  intros P Hk Hlt Hr. destruct P as [Pmin Pmax Pb Pc Ps Pk Pa Pst Pe Pj].
  assert (Hu : u16 (threadCount p + 1) = threadCount p + 1) by (apply u16_small; unfold MAX_NUM_THREADS in *; lia).
  split; cbn [minThreads maxThreads threadCount threads running active jobs set_threads]; rewrite ?Hu; try done; try lia.
  - intros i Hi. destruct (decide (i = threadCount p)) as [->|Hne].
    + exists k, Check. by rewrite !lookup_insert_eq.
    + destruct (Ps i ltac:(lia)) as (k' & w1 & Ht & Hw1 & Hin). exists k', w1. rewrite !lookup_insert_ne; try done. congruence.
  - intros k' i w1 [[-> [= <- <-]]|[Hne H]]%lookup_insert_Some Hin; [rewrite lookup_insert_eq; split; [lia|done]|].
    destruct (Pk k' i w1 H Hin) as [Hi Ht]. split; [lia|]. rewrite lookup_insert_ne by lia. done.
  - rewrite Pa. f_equal. by rewrite gather_new.
  - intros k' i w1 [[-> [= <- <-]]|[_ H]]%lookup_insert_Some Hin; [by destruct Hin|eauto].
  - intros c n j Hc. destruct (Pj c n j Hc). congruence.
Qed.

(** The client map changes, but not who destroys the pool; the pool keeps its
    threads. *)
Lemma pool_client lo mn mx ws cls cls' p p' :
  pool_ok lo mn mx ws cls p → (∀ c n j, cls' !! c = Some (Joining n j) ↔ cls !! c = Some (Joining n j)) →
  minThreads p' = minThreads p → maxThreads p' = maxThreads p → threadCount p' = threadCount p → threads p' = threads p →
  running p' = running p → enabled (jobs p') = enabled (jobs p) → active p' = active p →
  pool_ok lo mn mx ws cls' p'.
Proof.
  intros P Hj E1 E2 E3 E4 E5 E6 E7. destruct P as [Pmin Pmax Pb Pc Ps Pk Pa Pst Pe Pj].
  split; rewrite ?E1, ?E2, ?E3, ?E4, ?E5, ?E6, ?E7; try done.
  - intros Hr. destruct (Pst Hr) as [He (c & n & j & Hc)]. split; [done|]. exists c, n, j. by apply Hj.
  - intros c n j Hc%Hj. by apply (Pj c).
Qed.

(** A move that does not change whether the worker runs a task. *)
Lemma pool_moves_same lo mn mx ws cls p b k o w w' :
  pool_ok lo mn mx ws cls p → ws !! k = Some (o, w) → in_pool w = true → w ≠ Ended → in_pool w' = true →
  enabled b = enabled (jobs p) → busy (o, w') = busy (o, w) → (w' = Ended → running p = false) →
  pool_ok lo mn mx (<[k := (o, w')]> ws) cls (set_jobs p b).
Proof.
  intros P Hk Hw Hne Hw' Hb Hbusy Hend. eapply pool_moves; try done. simpl.
  rewrite (p_active _ _ _ _ _ _ P). f_equal. by rewrite (gather_same busy _ _ _ _ Hk) by (by rewrite Hbusy).
Qed.

Lemma set_jobs_id p : set_jobs p (jobs p) = p.
Proof. by destruct p. Qed.

Lemma pool_worker mn mx ws cls p xs k o w m p' w' l :
  pool_ok mn mn mx ws cls p → bmodel (jobs p) xs → ws !! k = Some (o, w) → worker_step p o m w p' w' l →
  pool_ok mn mn mx (<[k := (o, w')]> ws) cls p'.
Proof.
  intros P Hb Hk Hs. pose proof (busy_bound _ _ _ _ _ _ P) as Hbb. pose proof (p_active _ _ _ _ _ _ P) as Pa.
  pose proof (p_bounds _ _ _ _ _ _ P) as Pb. pose proof (p_count _ _ _ _ _ _ P) as Pc. unfold MAX_NUM_THREADS in Pb.
  assert (Hsame : ∀ w1, in_pool w = true → w ≠ Ended → in_pool w1 = true → busy (o, w1) = busy (o, w) → (w1 = Ended → running p = false) →
            pool_ok mn mn mx (<[k := (o, w1)]> ws) cls p).
  { intros w1 ? ? ? ? ?. rewrite <-(set_jobs_id p). by eapply pool_moves_same. }
  destruct Hs as [|now r sg b H|now f st H|st ret|now st ret r sg b H|now st ret f st' H|t| |t|t|].
  - apply Hsame; try done; unfold worker_check; by destruct (isRunning p).
  - destruct (pop_loop_spec 1 (jobs p) xs (mkTs 10 0) None now Zero Hb) as (seg & Hs & Hr).
    unfold blockingQueuePopTimeout, blockingQueuePopTimeoutGranular in H. rewrite Hs in H. injection H as ->.
    eapply pool_moves_same; try done. destruct r as [t|]; simpl in Hr; [by destruct Hr as (_ & ? & _ & _ & _ & _ & ?)|by destruct Hr as [_ ->]].
  - by apply Hsame.
  - by apply Hsame.
  - destruct (pop_resume_spec (jobs p) xs (mkTs 10 0) st now ret Hb) as (seg & Hs & Hr). rewrite Hs in H. injection H as ->.
    eapply pool_moves_same; try done. destruct r as [t|]; simpl in Hr; [by destruct Hr as (_ & ? & _ & _ & _ & _ & ?)|by destruct Hr as [_ ->]].
  - by apply Hsame.
  - unfold worker_again, isRunning. destruct (running p) eqn:Hr, t as [t|]; by apply Hsame.
  - unfold worker_nothing. case_decide as Hd; [|by apply Hsame].
    apply pool_leaves; [done|done| |tauto]. rewrite <-(p_min _ _ _ _ _ _ P). tauto.
  - eapply (pool_moves _ _ _ _ _ p); try done. simpl. rewrite u16_small by lia.
    rewrite (gather_more busy _ _ (o, Start t) (o, Running t) () Hk) by done. simpl. lia.
  - by apply Hsame.
  - assert (Hl : gather busy ws ≡ₚ () :: gather busy (<[k := (o, Check)]> ws)) by (by apply (gather_less busy _ _ (o, Finish))).
    apply Permutation_length in Hl. simpl in Hl. unfold worker_finish. rewrite decide_True by lia.
    eapply (pool_moves _ _ _ _ _ p); try done. simpl. rewrite u16_small by lia. lia.
Qed.

(** threadPoolAddTask creates a worker exactly when there is a free slot. *)
Lemma add_finish_spec lo mn mx ws cls p k :
  pool_ok lo mn mx ws cls p → ws !! k = None → running p = true →
  ∃ n p', add_finish p k = Ok (n, p') ∧ pool_ok lo mn mx (spawn n k (threadCount p) ws) cls p' ∧
    n = if decide (threadCount p < mx) then 1%nat else 0%nat.
Proof.
  intros P Hk Hr. pose proof (busy_bound _ _ _ _ _ _ P) as Hbb. pose proof (p_active _ _ _ _ _ _ P) as Pa.
  pose proof (p_bounds _ _ _ _ _ _ P) as Pb. pose proof (p_count _ _ _ _ _ _ P) as Pc. unfold MAX_NUM_THREADS in Pb.
  unfold add_finish, addWorkerThreads. rewrite (p_max _ _ _ _ _ _ P), u32_small, u16_small by lia.
  destruct (decide (threadCount p < mx)) as [Hlt|Hge].
  - rewrite decide_True by lia. rewrite decide_False by lia.
    replace (Z.to_nat (Z.min 1 (mx - threadCount p))) with 1%nat by lia. simpl. rewrite (p_max _ _ _ _ _ _ P), decide_True by done.
    eexists _, _. split; [done|]. split; [|done].
    eapply (pool_client _ _ _ _ cls); [by apply pool_grows|done..].
  - rewrite decide_False by lia. eexists _, _. split; [done|]. split; [|done]. simpl. by eapply pool_client.
Qed.

(** ** The invariant *)

Record threads_ok (mn mx : Z) s : Prop := {
  t_numbered : numbered s;
  t_push c t st ret cl : clients s !! c = Some cl → cl = PushWaiting t st ∨ cl = Pushing t st ret → mutex s = Some c;
  t_pool : match pool s with
           | Some p => pool_ok mn mn mx (workers s) (clients s) p
           | None => ∀ k o w, workers s !! k = Some (o, w) → w = Ended ∨ ∃ b, w = Left b
           end
}.

Lemma numbered_spawn n k o ws : (∀ j, (k ≤ j)%nat → ws !! j = None) → ∀ j, (k + n ≤ j)%nat → spawn n k o ws !! j = None.
Proof.
  revert k o ws. induction n as [|n IH]; intros k o ws Hnew j Hj; simpl; [apply Hnew; lia|].
  apply IH; [|lia]. intros i Hi. rewrite lookup_insert_ne by lia. apply Hnew. lia.
Qed.

(** A client that does not destroy the pool changes its state. *)
Lemma joining_same (cls : gmap nat (client R G T)) c cl cl' :
  cls !! c = Some cl → destroying cl = false → destroying cl' = false →
  ∀ d n j, <[c := cl']> cls !! d = Some (Joining n j) ↔ cls !! d = Some (Joining n j).
Proof.
  intros Hc Hd Hd' d n j. rewrite lookup_insert_Some. split.
  - intros [[-> ->]|[_ ?]]; done.
  - intros Hj. right. split; [|done]. intros ->. rewrite Hc in Hj. by injection Hj as ->.
Qed.

Lemma threads_push mn mx s p c cl0 t seg p' n cl held l :
  jobs_ok s → threads_ok mn mx s → pool s = Some p → clients s !! c = Some cl0 → destroying cl0 = false →
  (mutex s = None ∨ mutex s = Some c) → (∀ xs, bmodel (jobs p) xs → push_result (jobs p) xs t seg) →
  push_step p (next s) t seg p' n cl held l →
  threads_ok mn mx (mkSys (Some p') (spawn n (next s) (threadCount p) (workers s)) (next s + n) (<[c := cl]> (clients s))
    (if held : bool then Some c else None) (log s ++ l)).
Proof.
  intros J [Tn Tp Tk] Hp Hc Hd Hm Hres Hs. rewrite Hp in Tk. destruct J as [Jq _ _]. rewrite Hp in Jq.
  destruct Jq as (xs & Hb & _). specialize (Hres xs Hb).
  assert (Hcl : destroying cl = false ∧ (∀ t st ret, cl = PushWaiting t st ∨ cl = Pushing t st ret → held = true))
    by (destruct Hs; naive_solver).
  split; cbn [pool workers next clients mutex].
  - intros j Hj. by apply (numbered_spawn n (next s) (threadCount p) (workers s) Tn j Hj).
  - intros d t' st ret cl' [[-> <-]|[Hne Hdc]]%lookup_insert_Some Hpush; [by rewrite (proj2 Hcl t' st ret Hpush)|].
    apply (Tp d t' st ret cl' Hdc) in Hpush. destruct Hm; congruence.
  - pose proof (joining_same _ c cl0 cl Hc Hd (proj1 Hcl)) as Hj.
    destruct Hs as [sg b n p' Hfin|sg b|f st]; simpl in Hres.
    + destruct Hres as (He & _ & _ & _ & _ & He').
      assert (Hrun : running p = true) by (destruct (running p) eqn:Hr; [done|]; destruct (p_stopped _ _ _ _ _ _ Tk Hr); congruence).
      destruct (add_finish_spec mn mn mx (workers s) (clients s) (set_jobs p b) (next s)) as (n' & p1 & Hfin' & P & _);
        [by eapply pool_client|by apply Tn|done|].
      rewrite Hfin in Hfin'. injection Hfin' as <- <-. by eapply pool_client.
    + destruct Hres as [_ ->]. by eapply pool_client.
    + by eapply pool_client.
Qed.

(** The pool is shut down; [c] goes on to join its threads. *)
Lemma pool_shutdown mn mx ws cls p p' c n :
  pool_ok mn mn mx ws cls p → (∀ d cl, cls !! d = Some cl → destroying cl = false) → threadPoolDestroy p = (n, p') →
  pool_ok mn mn mx ws (<[c := Joining n 0]> cls) p'.
Proof.
  intros P Hno Hd. destruct P as [Pmin Pmax Pb Pc Ps Pk Pa Pst Pe Pj].
  assert (Hrun : running p = true).
  { destruct (running p); [done|]. destruct (Pst eq_refl) as [_ (d & m & j & Hj)]. by apply Hno in Hj. }
  unfold threadPoolDestroy in Hd. rewrite Hrun in Hd. injection Hd as <- <-. split; try done.
  - intros _. split; [done|]. exists c, (threadCount p), 0. by rewrite lookup_insert_eq.
  - intros d n j [[-> [= <- <-]]|[_ Hdj]]%lookup_insert_Some; [|by apply Hno in Hdj]. simpl. split; [done|]. split; [lia|].
    split; [done|]. intros i Hi. destruct (Ps i Hi) as (k & w & Ht & Hw & Hin). exists k, w.
    split; [done|]. split; [done|]. split; [by intros ->|lia].
Qed.

(** One more thread is joined. *)
Lemma pool_joined mn mx ws cls p c n i k o w :
  pool_ok mn mn mx ws cls p → cls !! c = Some (Joining n i) → i < n → threads p !! i = Some k → ws !! k = Some (o, w) →
  w = Ended ∨ w = Left false → pool_ok mn mn mx ws (<[c := Joining n (i + 1)]> cls) p.
Proof.
  intros P Hc Hi Ht Hk Hw. destruct P as [Pmin Pmax Pb Pc Ps Pk Pa Pst Pe Pj]. split; try done.
  - intros Hr. split; [by apply Pst|]. exists c, n, (i + 1). by rewrite lookup_insert_eq.
  - intros d m j [[-> [= <- <-]]|[_ Hdj]]%lookup_insert_Some; [|by eapply Pj].
    destruct (Pj d n i Hc) as (Hr & Hj & Hn & Hall). split; [done|]. split; [lia|]. split; [done|].
    intros i' Hi'. destruct (Hall i' Hi') as (k' & w' & Ht' & Hk' & Hnl & Hend). exists k', w'. do 3 (split; [done|]).
    intros Hlt. destruct (decide (i' = i)) as [->|Hne]; [|apply Hend; lia]. congruence.
Qed.

Lemma threads_step mn mx s s' : jobs_ok s → threads_ok mn mx s → step s s' → threads_ok mn mx s'.
Proof.
  intros J I Hs. pose proof I as [Tn Tp Tk].
  destruct Hs as [p k o w m p' w' l Hp Hk Hs Hm|c p t Hc Hp Hrun|c p t Hc Hp Hrun
    |c p t now seg p' n cl held l Hc Hm Hp Hseg Hps|c t st ret Hc|c p t st ret now seg p' n cl held l Hc Hp Hseg Hps
    |c p Hc Hm Hp|c p p' n Hc Hno Hm Hp Hd|c p n i k o w Hc Hi Hp Ht Hk Hw|c p n l Hc Hno Hp Hl];
    try rewrite Hp in Tk.
  - destruct J as [Jq _ _]. rewrite Hp in Jq. destruct Jq as (xs & Hb & _). split; [|done|by eapply pool_worker].
    intros j Hj. simpl in *. rewrite lookup_insert_ne; [by apply Tn|]. intros <-. rewrite (Tn k Hj) in Hk. done.
  - split; cbn [pool workers next clients mutex]; [done| |eapply pool_client; [done|by apply (joining_same _ c Idle (Adding t))|done..]].
    intros d t' st ret cl' [[-> <-]|[_ Hdc]]%lookup_insert_Some Hpush; [by destruct Hpush|by eapply Tp].
  - by split.
  - eapply threads_push; [done|done|done|done|done|by left|by eapply push_segment|done].
  - split; cbn [pool workers next clients mutex]; [done| |].
    + intros d t' st' ret' cl' [[-> <-]|[_ Hdc]]%lookup_insert_Some Hpush; [|by eapply Tp].
      eapply (Tp d t st ret); [done|by left].
    + simpl. destruct (pool s) as [p|]; [|done].
      eapply pool_client; [done|by apply (joining_same _ c (PushWaiting t st) (Pushing t st ret))|done..].
  - eapply threads_push; [done|done|done|done|done| |by eapply push_again_segment|done].
    right. eapply (Tp c t st ret); [done|by right].
  - split; cbn [pool workers next clients mutex]; [done| |by eapply pool_client]. intros d t st ret cl Hdc Hpush. pose proof (Tp d t st ret cl Hdc Hpush). congruence.
  - split; cbn [pool workers next clients mutex]; [done| |by eapply pool_shutdown].
    intros d t st ret cl [[-> <-]|[_ Hdc]]%lookup_insert_Some Hpush; [by destruct Hpush|].
    pose proof (Tp d t st ret cl Hdc Hpush). congruence.
  - split; cbn [pool workers next clients mutex]; [done| |by eapply pool_joined].
    intros d t st ret cl [[-> <-]|[_ Hdc]]%lookup_insert_Some Hpush; [by destruct Hpush|by eapply Tp].
  - destruct (p_joining _ _ _ _ _ _ Tk c n n Hc) as (Hr & _ & Hn & Hall). split; cbn [pool workers next clients mutex]; [done| |].
    + intros d t st ret cl [[-> <-]|[_ Hdc]]%lookup_insert_Some Hpush; [by destruct Hpush|by eapply Tp].
    + simpl. intros k o w Hk. destruct (in_pool w) eqn:Hin; [|right; destruct w; try done; by eexists].
      destruct (p_back _ _ _ _ _ _ Tk k o w Hk Hin) as [Ho Ht]. destruct (Hall o ltac:(lia)) as (k' & w' & Ht' & Hk' & _ & Hend).
      assert (k' = k) as -> by congruence. assert (w' = w) as -> by congruence. destruct (Hend ltac:(lia)) as [?| ->]; [by left|done].
Qed.

(** ** A new pool *)

Lemma add_loop_spec mn mx cls n k ws p :
  pool_ok 0 mn mx ws cls p → running p = true → (∀ j, (k ≤ j)%nat → ws !! j = None) → threadCount p + Z.of_nat n ≤ mx →
  ∃ p', add_loop n k p = Ok p' ∧ pool_ok 0 mn mx (spawn n k (threadCount p) ws) cls p' ∧
    threadCount p' = threadCount p + Z.of_nat n.
Proof.
  revert k ws p. induction n as [|n IH]; intros k ws p P Hr Hnew Hle; simpl.
  { exists p. split; [done|]. split; [done|lia]. }
  rewrite (p_max _ _ _ _ _ _ P), decide_True by lia.
  assert (P' : pool_ok 0 mn mx (<[k := (threadCount p, Check)]> ws) cls
                 (set_threads p (<[threadCount p := k]> (threads p)) (u16 (threadCount p + 1))))
    by (apply pool_grows; auto with lia).
  assert (Hc : u16 (threadCount p + 1) = threadCount p + 1).
  { pose proof (p_bounds _ _ _ _ _ _ P). pose proof (p_count _ _ _ _ _ _ P). unfold MAX_NUM_THREADS in *. apply u16_small. lia. }
  destruct (IH (S k) _ _ P') as (p' & Hl & Hp' & Hc'); [done| |simpl; lia|].
  - intros j Hj. rewrite lookup_insert_ne by lia. apply Hnew. lia.
  - exists p'. split; [done|]. simpl in *. rewrite Hc in *. split; [done|lia].
Qed.

Lemma gather_nil {A} (f : Z * pc R G T → list A) n k o : (∀ o, f (o, Check) = []) → gather f (spawn n k o ∅) = [].
Proof.
  intros Hf. apply Permutation_nil. symmetry. rewrite gather_spawn by done. by rewrite gather_empty.
Qed.

Lemma initial_ok mn mx q s : 0 ≤ mn → 0 ≤ q → initial mn mx q s → jobs_ok s ∧ threads_ok mn mx s.
Proof.
  intros Hmn Hq (n & p & Hcr & Hp & Hw & Hn & Hc & Hm & Hl). unfold threadPoolCreate in Hcr. case_decide as Hbad; [done|].
  set (q' := if decide (q = 0) then MAX_QUEUE_SIZE else q) in Hcr. set (p0 := mkPool _ _ _ _ _ _ _ _) in Hcr.
  unfold MAX_NUM_THREADS, MAX_QUEUE_SIZE in *.
  assert (Hq' : 0 ≤ q' ≤ 128) by (unfold q', MAX_QUEUE_SIZE; case_decide; lia).
  assert (P0 : pool_ok 0 mn mx ∅ (clients s) p0).
  { split; simpl; try done; try lia; [unfold MAX_NUM_THREADS; lia|]. intros c n0 j Hj. by apply Hc in Hj. }
  assert (Hb0 : bmodel (jobs p0) []) by (apply create_model; rewrite u16_small; lia).
  assert (n = Z.to_nat mn ∧ jobs p = jobs p0 ∧ pool_ok mn mn mx (spawn n 0 0 ∅) (clients s) p) as (-> & Hj & P).
  { unfold addWorkerThreads in Hcr. change (maxThreads p0) with mx in Hcr. change (threadCount p0) with 0 in Hcr.
    rewrite u16_small in Hcr by lia. case_decide as Hz; simpl in Hcr.
    - injection Hcr as <- <-. split; [lia|]. split; [done|]. replace mn with 0 by lia. simpl.
      by replace mx with 0 in P0 by lia; replace mn with 0 in P0 by lia; replace mx with 0 by lia.
    - replace (Z.min mn (mx - 0)) with mn in Hcr by lia.
      destruct (add_loop_spec mn mx (clients s) (Z.to_nat mn) 0 ∅ p0 P0 eq_refl) as (p' & Ha & Hp' & Hcount);
        [done|simpl; lia|]. rewrite Ha in Hcr. simpl in Hcr. injection Hcr as <- <-.
      split; [done|]. split; [by destruct (add_loop_fields _ _ _ _ Ha)|].
      destruct Hp'. split; try done; simpl in *; lia. }
  split.
  - split.
    + rewrite Hp, Hl, Hj. by exists [].
    + by rewrite Hl, Hw, gather_nil.
    + by rewrite Hl, Hw, gather_nil.
  - split.
    + intros j Hjn. rewrite Hw. apply numbered_spawn; [done|]. rewrite Hn in Hjn. lia.
    + intros c t st ret cl Hcl. rewrite (Hc c cl Hcl). by intros [?|?].
    + rewrite Hp, Hw. done.
Qed.

Lemma reachable_ok mn mx q s : 0 ≤ mn → 0 ≤ q → reachable mn mx q s → jobs_ok s ∧ threads_ok mn mx s.
Proof.
  intros Hmn Hq (s0 & H0 & Hr). apply initial_ok in H0; [|done|done].
  induction Hr as [|s1 s2 s3 Hs _ IH]; [done|]. apply IH. destruct H0 as [J I].
  split; [eapply jobs_step; [done|apply I|done]|by eapply threads_step].
Qed.

(** ** The claims *)

(** C16: where every task of a thread pool is, in any interleaving of clients
    and workers.  The tasks that were accepted are those taken out of the
    queue, in order, followed by those in it (or, once the pool is freed, by
    those thrown away with it); each task taken out has run once, was
    discarded by the shutdown, or is with one worker that is about to run it;
    and the pool calls the clean-up function of every task (its argFreeFunc,
    or free) exactly once on its argument, after the task has run, or was
    discarded or refused.  When the pool is freed nothing is left.  So a task
    must leave its argument to that function, whatever the comments of
    threadPool.h ask of it. *)
Theorem threadPool_tasks mn mx q s :
  0 ≤ mn → 0 ≤ q → reachable mn mx q s →
  popped (log s) ≡ₚ ran (log s) ++ discarded (log s) ++ gather will_run (workers s) ∧
  gather has (workers s) ++ freed (log s) ≡ₚ popped (log s) ++ dropped (log s) ++ refused (log s) ∧
  match pool s with
  | Some p => ∃ xs, bmodel (jobs p) xs ∧ added (log s) = popped (log s) ++ xs ∧ dropped (log s) = []
  | None => added (log s) = popped (log s) ++ dropped (log s) ∧ freed (log s) ≡ₚ added (log s) ++ refused (log s)
  end.
Proof.
  intros Hmn Hq Hr. destruct (reachable_ok mn mx q s Hmn Hq Hr) as [[Jq Jr Jf] [_ _ Tk]]. split; [done|]. split; [done|].
  destruct (pool s) as [p|]; [done|]. split; [done|].
  assert (Hg : gather has (workers s) = []).
  { unfold gather. assert (Hall : ∀ kv, kv ∈ map_to_list (workers s) → has kv.2 = []).
    { intros [k [o w]] Hin%elem_of_map_to_list. by destruct (Tk k o w Hin) as [->|[b ->]]. }
    induction (map_to_list (workers s)) as [|kv l IH]; [done|]. cbn [fmap list_fmap concat]. rewrite (Hall kv) by (by left).
    apply IH. intros kv' Hin. apply Hall. by right. }
  rewrite Hg in Jf. simpl in Jf. by rewrite Jf, Jq, <-app_assoc.
Qed.

(** The workers of a pool.  In any interleaving there are at least
    minThreads and at most maxThreads workers; the array of threads has no
    gaps: its first threadCount slots hold exactly the workers of the pool,
    each at its own offset; active is exactly the number of workers that run
    a task.  A join is never on a thread that detached itself, and when the
    pool is freed every worker has ended, so none touches it any more. *)
Theorem threadPool_workers mn mx q s :
  0 ≤ mn → 0 ≤ q → reachable mn mx q s →
  match pool s with
  | Some p =>
      mn ≤ threadCount p ≤ mx ∧
      (∀ i, 0 ≤ i < threadCount p → ∃ k w, threads p !! i = Some k ∧ workers s !! k = Some (i, w) ∧ in_pool w = true) ∧
      (∀ k i w, workers s !! k = Some (i, w) → in_pool w = true → 0 ≤ i < threadCount p ∧ threads p !! i = Some k) ∧
      active p = zlen (gather busy (workers s)) ∧ active p ≤ threadCount p ∧
      (∀ c n i, clients s !! c = Some (Joining n i) → i < n →
         ∃ k w, threads p !! i = Some k ∧ workers s !! k = Some (i, w) ∧ w ≠ Left true)
  | None => ∀ k o w, workers s !! k = Some (o, w) → w = Ended ∨ ∃ b, w = Left b
  end.
Proof.
  intros Hmn Hq Hr. destruct (reachable_ok mn mx q s Hmn Hq Hr) as [_ [_ _ Tk]]. destruct (pool s) as [p|]; [|done].
  pose proof (busy_bound _ _ _ _ _ _ Tk) as Hbb. destruct Tk as [Pmin Pmax Pb Pc Ps Pk Pa Pst Pe Pj].
  do 4 (split; [done|]). split; [lia|]. intros c n i Hc Hi. destruct (Pj c n i Hc) as (_ & Hj & _ & Hall).
  destruct (Hall i ltac:(lia)) as (k & w & Ht & Hw & Hnl & _). eauto.
Qed.

End Theorems.

(** ** Concrete runs *)

Definition job (n : Z) : icTask Z Z Z := mkJob n n None.
Definition noon : timespec := mkTs 43200 0.

(** A pool without a lower bound and with one thread at most. *)
Definition small_pool : sys Z Z Z :=
  mkSys (match threadPoolCreate 0 1 0 0 with Ok (Some (_, p)) => Some p | _ => None end) ∅ 0 {[0%nat := Idle]} None [].

Lemma small_pool_initial : initial 0 1 0 small_pool.
Proof.
  eexists _, _. split; [by vm_compute|]. do 3 (split; [done|]). split; [|done].
  intros c cl. simpl. by rewrite lookup_singleton_Some; intros [_ <-].
Qed.

Tactic Notation "take" tactic3(tac) :=
  eapply rtc_l; [tac|cbn [pool workers next clients mutex log fst snd spawn app]].

(** The one worker runs a task and then waits in vain for another one. *)
Lemma idle_worker : ∃ s, rtc step small_pool s ∧ workers s = {[0%nat := (0, Nothing)]} ∧ clients s = {[0%nat := Idle]} ∧
  mutex s = None ∧ next s = 1%nat ∧
  pool s = Some (mkPool (blockingQueueCreate 128) {[0 := 0%nat]} 1 0 1 true 0 (mkStats 1 1 1 1)) ∧
  ran (log s) = [job 1] ∧ added (log s) = [job 1].
Proof.
  eexists. split.
  - take (eapply (step_add _ 0 _ (job 1)); [done|done|done]).
    take (eapply (step_push _ 0 _ (job 1) noon); [done|done|done|by vm_compute|eapply p_done; by vm_compute]).
    take (eapply (step_worker _ _ 0); [done|done|apply w_check|done]).
    take (eapply (step_worker _ _ 0); [done|done|eapply (w_pop _ _ noon); by vm_compute|done]).
    take (eapply (step_worker _ _ 0); [done|done|apply w_again|done]).
    take (eapply (step_worker _ _ 0); [done|done|apply w_start|done]).
    take (eapply (step_worker _ _ 0); [done|done|apply w_ran|done]).
    take (eapply (step_worker _ _ 0); [done|done|apply w_finish|done]).
    take (eapply (step_worker _ _ 0); [done|done|apply w_check|done]).
    take (eapply (step_worker _ _ 0); [done|done|eapply (w_pop_blocks _ _ noon); by vm_compute|done]).
    take (eapply (step_worker _ _ 0); [done|done|apply (w_wake _ _ _ ETIMEDOUT)|done]).
    take (eapply (step_worker _ _ 0); [done|done|eapply (w_woken _ _ noon); by vm_compute|done]).
    take (eapply (step_worker _ _ 0); [done|done|apply w_again|done]).
    apply rtc_refl.
  - by vm_compute.
Qed.

(** A pool that may shrink to no threads can strand a task.  The last
    worker gives up waiting and is about to leave; a task is accepted, and as
    the worker still fills the last slot no other one is created; then the
    worker takes itself out without looking at the queue again.  The state is
    reachable, the task is queued, no worker is left, and no call is under
    way: until another task is added nothing will run it. *)
Theorem threadPool_strands_a_task :
  ∃ s p, reachable 0 1 0 s ∧ pool s = Some p ∧ running p = true ∧
    threadPoolGetBacklogCount p = 1 ∧ threadPoolGetThreadCount p = 0 ∧
    added (log s) = [job 1; job 2] ∧ ran (log s) = [job 1] ∧
    (∀ k o w, workers s !! k = Some (o, w) → w = Left true) ∧ (∀ c cl, clients s !! c = Some cl → cl = Idle).
Proof.
  destruct idle_worker as (s1 & Hr & Hw & Hc & Hm & Hn & Hp & Hran & Hadd).
  assert (∃ s, rtc step s1 s ∧ workers s = {[0%nat := (0, Left true)]} ∧ clients s = {[0%nat := Idle]} ∧
            log s = log s1 ++ [Added (job 2)] ∧
            ∃ p, pool s = Some p ∧ running p = true ∧ threadPoolGetBacklogCount p = 1 ∧ threadPoolGetThreadCount p = 0) as
    (s & Hs & Hw' & Hc' & Hl' & p & Hp' & Hrun & Hb & Ht).
  { destruct s1 as [po ws nx cls mu lg]; simpl in *; subst. eexists. split.
    - take (eapply (step_add _ 0 _ (job 2)); [done|done|done]).
      take (eapply (step_push _ 0 _ (job 2) noon); [done|done|done|by vm_compute|eapply p_done; by vm_compute]).
      take (eapply (step_worker _ _ 0); [done|done|apply w_nothing|done]).
      apply rtc_refl.
    - split; [by vm_compute|]. split; [by vm_compute|]. split; [cbn [log]; by rewrite app_nil_r|].
      eexists. split; [done|]. by vm_compute. }
  exists s, p. split; [exists small_pool; split; [apply small_pool_initial|by etrans]|].
  do 4 (split; [done|]). rewrite Hl', Hw', Hc', added_app, ran_app, Hadd, Hran. do 2 (split; [done|]). split.
  - intros k o w. rewrite lookup_singleton_Some. by intros [_ [= _ <-]].
  - intros c cl. rewrite lookup_singleton_Some. by intros [_ <-].
Qed.

Lemma threadPool_tasks_witness :
  ∃ s : sys Z Z Z, added (log s) = [job 1] ∧
    gather has (workers s) ++ freed (log s) ≡ₚ popped (log s) ++ dropped (log s) ++ refused (log s).
Proof.
  destruct idle_worker as (s & Hr & _ & _ & _ & _ & _ & _ & Hadd). exists s. split; [done|].
  apply (threadPool_tasks 0 1 0 s); [lia|lia|]. exists small_pool. split; [apply small_pool_initial|done].
Defined.

Lemma threadPool_workers_witness :
  ∃ (s : sys Z Z Z) p, pool s = Some p ∧ 0 ≤ threadCount p ≤ 1 ∧ active p = zlen (gather busy (workers s)).
Proof.
  destruct idle_worker as (s & Hr & _ & _ & _ & _ & Hp & _). exists s. eexists. split; [exact Hp|].
  assert (H : reachable 0 1 0 s) by (exists small_pool; split; [apply small_pool_initial|done]).
  pose proof (threadPool_workers 0 1 0 s ltac:(lia) ltac:(lia) H) as Hw. rewrite Hp in Hw.
  destruct Hw as (Hc & _ & _ & Ha & _). by split.
Defined.

End PoolTheorems.
