(* ===== verification/DelayedTask.v ===== *)
(** * delayedTask: a function called once after a delay

    Models src/source/libs/concurrent/c/src/delayedTask.c, in the build without
    CONFIG_DEBUG_SINGLE_PROCESS.  The task objects are in a heap; [tasks] is
    the list of their addresses.  Every task has a thread.  A function first
    looks the handle up under TASK_MTX and then works on the object under its
    own mutex; these are two segments, between which anything can happen.  A
    thread waits with the mutex released; a wait may end at any time.  The
    clock is an argument.  Then: the argument of a task is handed over exactly
    once; and two races of the code. *)

From Stdlib Require Import Sorted.
From S2P Require Import Prelude Time.
Import Time.

Module DelayedTask.

Inductive taskState := DELAY_TASK_IDLE | DELAY_TASK_WAITING | DELAY_TASK_RUNNING | DELAY_TASK_CANCELED.
#[global] Instance taskState_eq_dec : EqDecision taskState := ltac:(solve_decision).

Inductive delayUnits := DELAY_HOURS | DELAY_MINS | DELAY_SECS | DELAY_MILLIS.

(** A uint64_t stored in a time_t. *)
Definition i64 (z : Z) : Z := let w := u64 z in if decide (w < 9223372036854775808) then w else w - 18446744073709551616.

(** A delay as a timespec. *)
Definition populateTimespecDelay (delay : Z) (units : delayUnits) : timespec :=
  match units with
  | DELAY_HOURS => mkTs (i64 (60 * 60 * delay)) 0
  | DELAY_MINS => mkTs (i64 (60 * delay)) 0
  | DELAY_SECS => mkTs (i64 delay) 0
  | DELAY_MILLIS => mkTs (delay / 1000) ((delay `mod` 1000) * 1000000)
  end.

Section Code.
Context {A : Type}.

Record delayedTask := mkTask {
  handle : Z;
  state : taskState;
  delay : Z;
  units : delayUnits;
  arg : option A;
  startTime : timespec;
  joinable : bool
}.

Definition set_state (d : delayedTask) st := mkTask (handle d) st (delay d) (units d) (arg d) (startTime d) (joinable d).
Definition set_delay (d : delayedTask) n u t := mkTask (handle d) (state d) n u (arg d) t (joinable d).
Definition clear_arg (d : delayedTask) := mkTask (handle d) (state d) (delay d) (units d) None (startTime d) (joinable d).
Definition not_joinable (d : delayedTask) := mkTask (handle d) (state d) (delay d) (units d) (arg d) (startTime d) false.

(** ** The segments under the mutex of the object *)

(** Not run yet, and not cancelled. *)
Definition pending (d : delayedTask) : bool :=
  bool_decide (state d = DELAY_TASK_WAITING ∨ state d = DELAY_TASK_IDLE).

Definition rescheduleDelayTask (d : delayedTask) (delayAmount : Z) (us : delayUnits) (now : timespec) : bool * delayedTask :=
  if pending d then (true, set_delay d delayAmount us now) else (false, d).

Definition isDelayTaskWaiting (d : delayedTask) : bool := pending d.

Definition cancelDelayTask (d : delayedTask) : option A * delayedTask :=
  if pending d then (arg d, set_state d DELAY_TASK_CANCELED) else (None, d).

Definition finalizeTaskInternal (d : delayedTask) : bool * delayedTask :=
  if pending d then (true, set_state d DELAY_TASK_RUNNING) else (false, d).

Definition computeWaitTime (d : delayedTask) (now : timespec) : timespec :=
  let elapsed := timespecDiff now (startTime d) in
  timespecDiff (populateTimespecDelay (delay d) (units d)) elapsed.

Definition positive_time (t : timespec) : bool := bool_decide (0 < tv_sec t ∨ tv_sec t = 0 ∧ 0 < tv_nsec t).

(** Where the thread is: [Cleanup detach]: done with the object. *)
Inductive position := Created | Waiting | Running | Cleanup (detach : bool) | Gone.

Definition finish (d : delayedTask) : position * delayedTask :=
  if joinable d then (Cleanup true, not_joinable d) else (Cleanup false, d).

(** After the loop: call the function, unless cancelled. *)
Definition after_wait (d : delayedTask) : position * delayedTask :=
  if decide (state d ≠ DELAY_TASK_CANCELED) then (Running, set_state d DELAY_TASK_RUNNING) else finish d.

(** runDelayTaskThread up to the first wait. *)
Definition thread_begins (d : delayedTask) (now : timespec) : position * delayedTask :=
  if decide (state d = DELAY_TASK_CANCELED) then finish d
  else
    let d := set_state d DELAY_TASK_WAITING in
    if positive_time (computeWaitTime d now) then (Waiting, d) else after_wait d.

(** From the end of a wait to the next one. *)
Definition thread_woken (d : delayedTask) (now : timespec) : position * delayedTask :=
  if decide (state d ≠ DELAY_TASK_WAITING) then after_wait d
  else if positive_time (computeWaitTime d now) then (Waiting, d) else after_wait d.

(** The callback has returned. *)
Definition thread_ran (d : delayedTask) : position * delayedTask :=
  finish (set_state (clear_arg d) DELAY_TASK_CANCELED).

(** ** The list of tasks, under TASK_MTX *)

(** linkedListFind by handle. *)
Fixpoint findDelayedTask (heap : gmap addr delayedTask) (task : Z) (tasks : list addr) : outcome (option addr) :=
  match tasks with
  | [] => Ok None
  | a :: l => d ← of_option (heap !! a); if decide (task = handle d) then Ok (Some a) else findDelayedTask heap task l
  end.

(** getDelayedTask; the list pointer is NULL while there is no task. *)
Definition getDelayedTask (heap : gmap addr delayedTask) (tasks : option (list addr)) (task : Z) : outcome (option addr) :=
  match tasks with None => Ok None | Some l => findDelayedTask heap task l end.

Definition assignHandle (heap : gmap addr delayedTask) (l : list addr) : outcome Z :=
  match last l with
  | None => Ok 1
  | Some a => d ← of_option (heap !! a); Ok (u32 (handle d + 1))
  end.

(** scheduleDelayTask with the object at a new address [a]. *)
Definition scheduleDelayTask (heap : gmap addr delayedTask) (tasks : option (list addr)) (a : addr)
    (delayAmount : Z) (us : delayUnits) (x : option A) (now : timespec)
    : outcome (Z * gmap addr delayedTask * option (list addr)) :=
  let l := default [] tasks in
  h ← assignHandle heap l;
  Ok (h, <[a := mkTask h DELAY_TASK_IDLE delayAmount us x now true]> heap, Some (l ++ [a])).

(** The end of the thread: its task leaves the list and is freed. *)
Definition thread_cleanup (heap : gmap addr delayedTask) (tasks : option (list addr)) (id : Z)
    : outcome (gmap addr delayedTask * option (list addr)) :=
  l ← of_option tasks;
  found ← findDelayedTask heap id l;
  let '(heap, l) := match found with Some a => (delete a heap, filter (λ b, b ≠ a) l) | None => (heap, l) end in
  Ok (heap, if decide (length l = 0%nat) then None else Some l).

(** ** All threads *)

Inductive call :=
  | Cancel | Execute | IsWaiting | Reschedule (delayAmount : Z) (us : delayUnits).

(** The object has been looked up; its mutex is taken next. *)
Inductive client := Idle | Found (a : addr) (f : call).

(** A task was scheduled with an argument; the argument was passed to the
    callback, or returned by a cancel. *)
Inductive event :=
  | Scheduled (a : addr) (x : option A)
  | Called (a : addr) (x : option A)
  | Cancelled (a : addr) (x : option A).

Record sys := mkSys {
  heap : gmap addr delayedTask;
  tasks : option (list addr);
  threads : gmap addr (position * Z);          (* with the local variable id *)
  clients : gmap nat client;
  log : list event
}.

(** A segment of a client on the object at [a]. *)
Definition perform (f : call) (d : delayedTask) (now : timespec) (a : addr) : delayedTask * list event :=
  match f with
  | Cancel => let '(r, d') := cancelDelayTask d in (d', if pending d then [Cancelled a r] else [])
  | Execute => ((finalizeTaskInternal d).2, [])
  | IsWaiting => (d, [])
  | Reschedule n us => ((rescheduleDelayTask d n us now).2, [])
  end.

(** [a] names one task for good; handles do not wrap around as long as the
    list empties before 2^32 tasks in a row. *)
Inductive step (s : sys) : sys → Prop :=
  | step_schedule c a n us x now h hp l :
      clients s !! c = Some Idle → threads s !! a = None →
      scheduleDelayTask (heap s) (tasks s) a n us x now = Ok (h, hp, l) → h ≠ 0 →
      step s (mkSys hp l (<[a := (Created, h)]> (threads s)) (clients s) (log s ++ [Scheduled a x]))
  | step_lookup c task f a :
      clients s !! c = Some Idle → getDelayedTask (heap s) (tasks s) task = Ok (Some a) →
      step s (mkSys (heap s) (tasks s) (threads s) (<[c := Found a f]> (clients s)) (log s))
  | step_perform c a f d now :
      clients s !! c = Some (Found a f) → heap s !! a = Some d →
      step s (mkSys (<[a := (perform f d now a).1]> (heap s)) (tasks s) (threads s) (<[c := Idle]> (clients s))
        (log s ++ (perform f d now a).2))
  | step_begins a id d now p d' :
      threads s !! a = Some (Created, id) → heap s !! a = Some d → thread_begins d now = (p, d') →
      step s (mkSys (<[a := d']> (heap s)) (tasks s) (<[a := (p, id)]> (threads s)) (clients s)
        (log s ++ match p with Running => [Called a (arg d')] | _ => [] end))
  | step_woken a id d now p d' :
      threads s !! a = Some (Waiting, id) → heap s !! a = Some d → thread_woken d now = (p, d') →
      step s (mkSys (<[a := d']> (heap s)) (tasks s) (<[a := (p, id)]> (threads s)) (clients s)
        (log s ++ match p with Running => [Called a (arg d')] | _ => [] end))
  | step_ran a id d p d' :
      threads s !! a = Some (Running, id) → heap s !! a = Some d → thread_ran d = (p, d') →
      step s (mkSys (<[a := d']> (heap s)) (tasks s) (<[a := (p, id)]> (threads s)) (clients s) (log s))
  | step_cleanup a id (detach : bool) hp l :
      threads s !! a = Some (Cleanup detach, id) →
      (if detach then thread_cleanup (heap s) (tasks s) id else Ok (heap s, tasks s)) = Ok (hp, l) →
      step s (mkSys hp l (<[a := (Gone, id)]> (threads s)) (clients s) (log s)).

Definition initial (s : sys) : Prop :=
  heap s = ∅ ∧ tasks s = None ∧ threads s = ∅ ∧ (∀ c cl, clients s !! c = Some cl → cl = Idle) ∧ log s = [].

Definition reachable (s : sys) : Prop := ∃ s0, initial s0 ∧ rtc step s0 s.

End Code.
Arguments delayedTask : clear implicits.
Arguments sys : clear implicits.
Arguments event : clear implicits.

(** ** The argument is handed over once *)

Section Theorems.
Context {A : Type}.
Implicit Types (d : delayedTask A) (s : sys A) (hp : gmap addr (delayedTask A)) (l : list addr) (es : list (event A)).

Definition concerns (a : addr) (e : event A) : bool :=
  match e with Called b _ | Cancelled b _ => bool_decide (b = a) | Scheduled _ _ => false end.

(** The times the argument of task [a] was handed over. *)
Definition deliveries (a : addr) es : list (event A) := filter (λ e, concerns a e = true) es.

Lemma deliveries_app a es es' : deliveries a (es ++ es') = deliveries a es ++ deliveries a es'.
Proof. apply filter_app. Qed.

Lemma deliveries_other a es es' : (∀ e, e ∈ es' → concerns a e = false) → deliveries a (es ++ es') = deliveries a es.
Proof.
  intros Ho. rewrite deliveries_app. replace (deliveries a es') with (@nil (event A)); [by rewrite app_nil_r|].
  symmetry. unfold deliveries. induction es' as [|e es' IH]; [done|]. rewrite filter_cons_False; [|by rewrite Ho by left].
  apply IH. intros e' He'. apply Ho. by right.
Qed.

(** A task and its thread. *)
Definition task_ok (s : sys A) (a : addr) (pos : position) (id : Z) : Prop :=
  ∃ x, Scheduled a x ∈ log s ∧
  let del := deliveries a (log s) in
  let over := del = [Called a x] ∨ del = [Cancelled a x] in
  match pos with
  | Created | Waiting => ∃ d, heap s !! a = Some d ∧ handle d = id ∧ joinable d = true ∧ arg d = x ∧
      (state d = DELAY_TASK_CANCELED ∧ del = [Cancelled a x] ∨ state d ≠ DELAY_TASK_CANCELED ∧ del = [])
  | Running => ∃ d, heap s !! a = Some d ∧ handle d = id ∧ joinable d = true ∧ state d = DELAY_TASK_RUNNING ∧ del = [Called a x]
  | Cleanup b => b = true ∧ ∃ d, heap s !! a = Some d ∧ handle d = id ∧ state d = DELAY_TASK_CANCELED ∧ over
  | Gone => heap s !! a = None ∧ over
  end.

(** Handles grow along the list. *)
Definition handle_at hp (a : addr) : Z := match hp !! a with Some d => handle d | None => 0 end.
Definition before hp (a b : addr) : Prop := handle_at hp a < handle_at hp b.

Record inv s : Prop := {
  i_task a pos id : threads s !! a = Some (pos, id) → task_ok s a pos id;
  i_heap a d : heap s !! a = Some d → ∃ pos id, threads s !! a = Some (pos, id) ∧ pos ≠ Gone;
  i_list a : a ∈ default [] (tasks s) ↔ is_Some (heap s !! a);
  i_sorted : StronglySorted (before (heap s)) (default [] (tasks s));
  i_range a d : heap s !! a = Some d → 0 < handle d < 4294967296;
  i_new a : threads s !! a = None → deliveries a (log s) = []
}.

Lemma before_ext hp hp' l :
  (∀ a, a ∈ l → handle_at hp' a = handle_at hp a) → StronglySorted (before hp) l → StronglySorted (before hp') l.
Proof.
  induction l as [|a l IH]; intros He Hs; [constructor|]. apply StronglySorted_inv in Hs as [Hs Hf]. constructor.
  - apply IH; [|done]. intros b Hb. apply He. by right.
  - apply Forall_forall. intros b Hb. rewrite Forall_forall in Hf. unfold before. rewrite !He; [by apply Hf|by right|by left].
Qed.

Lemma before_snoc hp l a : StronglySorted (before hp) l → (∀ b, b ∈ l → before hp b a) → StronglySorted (before hp) (l ++ [a]).
Proof.
  induction l as [|b l IH]; intros Hs Hb; simpl; [by repeat constructor|]. apply StronglySorted_inv in Hs as [Hs Hf].
  constructor; [apply IH; [done|]; intros c Hc; apply Hb; by right|]. apply Forall_app. split; [done|].
  constructor; [|done]. apply Hb. by left.
Qed.

Lemma before_filter hp l (P : addr → Prop) `{∀ x, Decision (P x)} :
  StronglySorted (before hp) l → StronglySorted (before hp) (filter P l).
Proof.
  induction l as [|b l IH]; intros Hs; [constructor|]. apply StronglySorted_inv in Hs as [Hs Hf].
  destruct (decide (P b)) as [Hp|Hp]; [rewrite filter_cons_True|rewrite filter_cons_False]; try done; auto.
  constructor; [auto|]. apply Forall_forall. intros c [_ Hc]%list_elem_of_filter. rewrite Forall_forall in Hf. auto.
Qed.

Lemma before_last hp l a b : StronglySorted (before hp) l → last l = Some a → b ∈ l → handle_at hp b ≤ handle_at hp a.
Proof.
  induction l as [|c l IH]; intros Hs Hl Hb; [done|]. apply StronglySorted_inv in Hs as [Hs Hf].
  destruct l as [|e l].
  - simpl in Hl. injection Hl as ->. apply list_elem_of_singleton in Hb as ->. lia.
  - change (last (e :: l) = Some a) in Hl. apply elem_of_cons in Hb as [->|Hb]; [|by apply IH].
    rewrite Forall_forall in Hf. assert (Ha : a ∈ e :: l) by (by apply last_Some_elem_of).
    specialize (Hf a Ha). unfold before in Hf. lia.
Qed.

(** The handle of a listed task finds that task. *)
Lemma find_listed hp l a d :
  (∀ b, b ∈ l → is_Some (hp !! b)) → StronglySorted (before hp) l → a ∈ l → hp !! a = Some d →
  findDelayedTask hp (handle d) l = Ok (Some a).
Proof.
  induction l as [|b l IH]; intros Hin Hs Ha Hd; [by apply elem_of_nil in Ha|]. apply StronglySorted_inv in Hs as [Hs Hf].
  simpl. destruct (Hin b ltac:(by left)) as [db Hb]. rewrite Hb. simpl. apply elem_of_cons in Ha as [->|Ha].
  - rewrite Hd in Hb. injection Hb as ->. by rewrite decide_True.
  - rewrite Forall_forall in Hf. specialize (Hf a Ha). unfold before, handle_at in Hf. rewrite Hb, Hd in Hf.
    rewrite decide_False by lia. apply IH; [|done..]. intros c Hc. apply Hin. by right.
Qed.

(** Another task is not concerned. *)
Lemma task_ok_frame s s' b pos id es :
  task_ok s b pos id → heap s' !! b = heap s !! b → log s' = log s ++ es → (∀ e, e ∈ es → concerns b e = false) →
  task_ok s' b pos id.
Proof.
  intros (x & Hx & Hok) Hh Hl He. exists x. rewrite Hl, Hh, deliveries_other by done. split; [|done].
  apply elem_of_app. by left.
Qed.

(** A segment on the object at [a]. *)
Lemma inv_object s a d d' pos pos' id cls es :
  inv s → threads s !! a = Some (pos, id) → heap s !! a = Some d → handle d' = handle d → pos' ≠ Gone →
  (∀ e, e ∈ es → ∀ b, b ≠ a → concerns b e = false) →
  task_ok (mkSys (<[a := d']> (heap s)) (tasks s) (<[a := (pos', id)]> (threads s)) cls (log s ++ es)) a pos' id →
  inv (mkSys (<[a := d']> (heap s)) (tasks s) (<[a := (pos', id)]> (threads s)) cls (log s ++ es)).
Proof.
  intros [It Ih Il Is Ir In] Ha Hd Hh Hg He Hok. split; cbn [heap tasks threads log].
  - intros b p i [[<- [= <- <-]]|[Hne Hb]]%lookup_insert_Some; [done|].
    eapply (task_ok_frame s _ b p i es); [by apply It|by simpl; rewrite lookup_insert_ne|done|].
    intros e Hin. by apply (He e Hin).
  - intros b db [[<- <-]|[Hne Hb]]%lookup_insert_Some; [rewrite lookup_insert_eq; eauto|].
    rewrite lookup_insert_ne by done. by eapply Ih.
  - intros b. rewrite Il. destruct (decide (a = b)) as [<-|Hne]; [rewrite lookup_insert_eq, Hd|by rewrite lookup_insert_ne by done].
    split; intros _; eauto.
  - eapply before_ext; [|exact Is]. intros b Hb. unfold handle_at. destruct (decide (a = b)) as [<-|Hne].
    + by rewrite lookup_insert_eq, Hd.
    + by rewrite lookup_insert_ne.
  - intros b db [[<- <-]|[Hne Hb]]%lookup_insert_Some; [rewrite Hh; by eapply Ir|by eapply Ir].
  - intros b [Hb Hne]%lookup_insert_None. rewrite deliveries_other by (intros e Hin; by apply (He e Hin)). by apply In.
Qed.

Definition delivery (a : addr) (pos : position) d : list (event A) := match pos with Running => [Called a (arg d)] | _ => [] end.

(** What the thread does while the task is pending. *)
Lemma thread_segment d p d' now :
  joinable d = true → thread_begins d now = (p, d') ∨ thread_woken d now = (p, d') →
  handle d' = handle d ∧ arg d' = arg d ∧
  (p = Waiting ∧ state d ≠ DELAY_TASK_CANCELED ∧ state d' ≠ DELAY_TASK_CANCELED ∧ joinable d' = true ∨
   p = Running ∧ state d ≠ DELAY_TASK_CANCELED ∧ state d' = DELAY_TASK_RUNNING ∧ joinable d' = true ∨
   p = Cleanup true ∧ state d = DELAY_TASK_CANCELED ∧ state d' = DELAY_TASK_CANCELED).
Proof.
  intros Hj. unfold thread_begins, thread_woken, after_wait, finish. destruct d as [h st n u x t j]; simpl in *. subst j.
  intros [H|H]; destruct st; simpl in H; repeat case_match; simplify_eq; simpl; naive_solver.
Qed.

Lemma delayed_inv_thread s a id pos d p d' now :
  inv s → threads s !! a = Some (pos, id) → pos = Created ∨ pos = Waiting → heap s !! a = Some d →
  thread_begins d now = (p, d') ∨ thread_woken d now = (p, d') →
  inv (mkSys (<[a := d']> (heap s)) (tasks s) (<[a := (p, id)]> (threads s)) (clients s) (log s ++ delivery a p d')).
Proof.
  intros I Ha Hpos Hd Hseg. destruct (i_task s I a pos id Ha) as (x & Hx & Hok).
  assert (∃ d0, heap s !! a = Some d0 ∧ handle d0 = id ∧ joinable d0 = true ∧ arg d0 = x ∧
    (state d0 = DELAY_TASK_CANCELED ∧ deliveries a (log s) = [Cancelled a x] ∨
     state d0 ≠ DELAY_TASK_CANCELED ∧ deliveries a (log s) = [])) as (d0 & Hd0 & Hid & Hj & Harg & Hst)
    by (destruct Hpos as [-> | ->]; done). clear Hok. assert (d0 = d) as -> by congruence.
  destruct (thread_segment d p d' now Hj Hseg) as (Hh & Ha' & Hcase).
  assert (Hx' : Scheduled a x ∈ log s ++ delivery a p d') by (apply elem_of_app; by left).
  eapply inv_object; [done|done|done|done|naive_solver| |].
  { intros e He b Hb. unfold delivery in He. destruct p; try by apply elem_of_nil in He.
    apply list_elem_of_singleton in He as ->. by apply bool_decide_eq_false_2. }
  exists x. cbn [heap log threads tasks]. split; [done|]. rewrite lookup_insert_eq, deliveries_app.
  destruct Hcase as [(-> & Hnc & Hnc' & Hj')|[(-> & Hnc & Hr & Hj')|(-> & Hc & Hc')]]; cbn [delivery].
  - destruct Hst as [[? _]|[_ Hdel]]; [done|]. rewrite Hdel. exists d'. do 3 (split; [done || congruence|]). split; [congruence|].
    right. by split.
  - destruct Hst as [[? _]|[_ Hdel]]; [done|]. rewrite Hdel. exists d'. split; [done|]. split; [congruence|].
    split; [done|]. split; [done|]. unfold deliveries. rewrite filter_cons_True by (simpl; by apply bool_decide_eq_true).
    by rewrite Ha', Harg.
  - destruct Hst as [[_ Hdel]|[? _]]; [|done]. rewrite Hdel. split; [done|]. exists d'. split; [done|]. split; [congruence|].
    split; [done|]. by right.
Qed.

Lemma inv_ran s a id d p d' :
  inv s → threads s !! a = Some (Running, id) → heap s !! a = Some d → thread_ran d = (p, d') →
  inv (mkSys (<[a := d']> (heap s)) (tasks s) (<[a := (p, id)]> (threads s)) (clients s) (log s)).
Proof.
  intros I Ha Hd Hseg. destruct (i_task s I a _ id Ha) as (x & Hx & d0 & Hd0 & Hid & Hj & Hst & Hdel).
  assert (d0 = d) as -> by congruence. unfold thread_ran, finish in Hseg. simpl in Hseg. rewrite Hj in Hseg.
  injection Hseg as <- <-. rewrite <-(app_nil_r (log s)).
  eapply inv_object; [done|done|done|done|done|by intros e He%elem_of_nil|].
  exists x. cbn [heap log]. rewrite app_nil_r, lookup_insert_eq. split; [done|]. split; [done|].
  eexists. split; [done|]. simpl. split; [done|]. split; [done|]. by left.
Qed.

(** A call of a client leaves handle and join flag alone, and cancels a
    pending task only. *)
Lemma perform_spec f d now a :
  let '(d', es) := perform f d now a in
  handle d' = handle d ∧ joinable d' = joinable d ∧ arg d' = arg d ∧
  (es = [] ∧ (state d' = state d ∨ pending d = true ∧ state d' = DELAY_TASK_RUNNING) ∨
   pending d = true ∧ state d' = DELAY_TASK_CANCELED ∧ es = [Cancelled a (arg d)]).
Proof.
  destruct f; simpl; unfold cancelDelayTask, finalizeTaskInternal, rescheduleDelayTask; destruct (pending d) eqn:Hp; simpl;
    (do 3 (split; [done|])); first [left; split; [done|by left]|left; split; [done|by right]|by right].
Qed.

Lemma pending_spec d : pending d = true → state d = DELAY_TASK_WAITING ∨ state d = DELAY_TASK_IDLE.
Proof. by intros ?%bool_decide_eq_true. Qed.

Lemma inv_perform s a f d now c :
  inv s → heap s !! a = Some d →
  inv (mkSys (<[a := (perform f d now a).1]> (heap s)) (tasks s) (threads s) (<[c := Idle]> (clients s))
    (log s ++ (perform f d now a).2)).
Proof.
  intros I Hd. destruct (i_heap s I a d Hd) as (pos & id & Ha & Hg). pose proof (perform_spec f d now a) as Hp.
  destruct (perform f d now a) as [d' es]; simpl. destruct Hp as (Hh & Hj & Harg & Hcase).
  rewrite <-(insert_id (threads s) a (pos, id) Ha).
  eapply (inv_object s a d d' pos pos id); [done|done|done|done|done| |].
  { intros e He b Hb. destruct Hcase as [[-> _]|(_ & _ & ->)]; [by apply elem_of_nil in He|].
    apply list_elem_of_singleton in He as ->. by apply bool_decide_eq_false_2. }
  destruct (i_task s I a pos id Ha) as (x & Hx & Hok). exists x. cbn [heap log]. split; [apply elem_of_app; by left|].
  rewrite lookup_insert_eq, deliveries_app.
  assert (Hquiet : pending d = false → es = [] ∧ state d' = state d) by (intros Hf; rewrite Hf in Hcase; naive_solver).
  assert (Hnp : state d = DELAY_TASK_RUNNING ∨ state d = DELAY_TASK_CANCELED → pending d = false).
  { intros Hs. apply bool_decide_eq_false_2. destruct Hs as [-> | ->]; naive_solver. }
  assert (Hwait : ∀ del, (state d = DELAY_TASK_CANCELED ∧ del = [Cancelled a x] ∨ state d ≠ DELAY_TASK_CANCELED ∧ del = []) →
            arg d = x →
            state d' = DELAY_TASK_CANCELED ∧ del ++ deliveries a es = [Cancelled a x] ∨
            state d' ≠ DELAY_TASK_CANCELED ∧ del ++ deliveries a es = []).
  { intros del Hdel Hx'. destruct Hcase as [[-> Hst]|(Hpend & Hst & ->)].
    - change (deliveries a []) with (@nil (event A)). rewrite app_nil_r. destruct Hst as [->|[Hpend ->]]; [done|].
      apply pending_spec in Hpend. destruct Hdel as [[Hc _]|[_ ->]]; [destruct Hpend; congruence|by right].
    - left. split; [done|]. apply pending_spec in Hpend. destruct Hdel as [[Hc _]|[_ ->]]; [destruct Hpend; congruence|].
      unfold deliveries. rewrite filter_cons_True by (simpl; by apply bool_decide_eq_true). by rewrite Hx'. }
  destruct pos as [| | |b|]; try done.
  - destruct Hok as (d0 & Hd0 & Hid & Hj0 & Ha0 & Hst). assert (d0 = d) as -> by congruence.
    exists d'. do 3 (split; [done || congruence|]). split; [congruence|]. by apply Hwait.
  - destruct Hok as (d0 & Hd0 & Hid & Hj0 & Ha0 & Hst). assert (d0 = d) as -> by congruence.
    exists d'. do 3 (split; [done || congruence|]). split; [congruence|]. by apply Hwait.
  - destruct Hok as (d0 & Hd0 & Hid & Hj0 & Hst & Hdel). assert (d0 = d) as -> by congruence.
    destruct (Hquiet (Hnp ltac:(by left))) as [-> Hs]. exists d'. rewrite Hdel, Hs. do 3 (split; [done || congruence|]). by split.
  - destruct Hok as (-> & d0 & Hd0 & Hid & Hst & Hdel). assert (d0 = d) as -> by congruence.
    destruct (Hquiet (Hnp ltac:(by right))) as [-> Hs]. split; [done|]. exists d'. rewrite Hs. change (deliveries a []) with (@nil (event A)).
    rewrite app_nil_r. split; [done|]. split; [congruence|]. by split.
Qed.

Lemma assignHandle_spec hp l h :
  (∀ b, b ∈ l → is_Some (hp !! b)) → (∀ b d, hp !! b = Some d → 0 < handle d < 4294967296) → StronglySorted (before hp) l →
  assignHandle hp l = Ok h → h ≠ 0 → 0 < h < 4294967296 ∧ ∀ b, b ∈ l → handle_at hp b < h.
Proof.
  intros Hin Hr Hs Ha Hh. unfold assignHandle in Ha. destruct (last l) as [z|] eqn:Hz.
  - destruct (Hin z) as [dz Hdz]; [by apply last_Some_elem_of|]. rewrite Hdz in Ha. simpl in Ha. injection Ha as <-.
    pose proof (Hr z dz Hdz) as Hrz. assert (Hsmall : handle dz + 1 < 4294967296).
    { destruct (decide (handle dz + 1 < 4294967296)); [done|]. exfalso. apply Hh. by replace (handle dz) with 4294967295 by lia. }
    rewrite u32_small by lia. split; [lia|]. intros b Hb. pose proof (before_last _ _ _ b Hs Hz Hb) as Hle.
    unfold handle_at in Hle at 2. rewrite Hdz in Hle. lia.
  - injection Ha as <-. split; [lia|]. intros b Hb. apply last_None in Hz as ->. by apply elem_of_nil in Hb.
Qed.

Lemma inv_schedule s a n us x now h hp ts :
  inv s → threads s !! a = None → scheduleDelayTask (heap s) (tasks s) a n us x now = Ok (h, hp, ts) → h ≠ 0 →
  inv (mkSys hp ts (<[a := (Created, h)]> (threads s)) (clients s) (log s ++ [Scheduled a x])).
Proof.
  intros [It Ih Il Is Ir In] Ha Hs Hh0. unfold scheduleDelayTask in Hs.
  assert (Hfresh : heap s !! a = None).
  { destruct (heap s !! a) as [d|] eqn:E; [|done]. destruct (Ih a d E) as (p & i & Hp & _). congruence. }
  destruct (assignHandle _ _) as [h'| |] eqn:Hassign; simpl in Hs; try done. injection Hs as -> <- <-.
  destruct (assignHandle_spec (heap s) (default [] (tasks s)) h) as [Hh Hlast]; [by intros b ?%Il|done|done|done|done|].
  assert (Hne : ∀ b, b ∈ default [] (tasks s) → a ≠ b) by (intros b Hb <-; apply Il in Hb as [? ?]; congruence).
  assert (Hquiet : ∀ b e, e ∈ [Scheduled a x] → concerns b e = false) by (by intros b e ->%list_elem_of_singleton).
  split; cbn [heap tasks threads log].
  - intros b p i [[<- [= <- <-]]|[Hab Hb]]%lookup_insert_Some.
    + exists x. cbn [log heap]. rewrite deliveries_other by apply Hquiet. split; [apply elem_of_app; right; by apply list_elem_of_singleton|].
      eexists. rewrite lookup_insert_eq. do 4 (split; [done|]). right. split; [done|by apply In].
    + eapply (task_ok_frame s); [by apply It|by simpl; rewrite lookup_insert_ne|done|apply Hquiet].
  - intros b db [[<- <-]|[Hab Hb]]%lookup_insert_Some; [rewrite lookup_insert_eq; eauto|rewrite lookup_insert_ne by done; by eapply Ih].
  - intros b. simpl. rewrite elem_of_app, Il, list_elem_of_singleton. destruct (decide (a = b)) as [<-|Hab].
    + rewrite lookup_insert_eq. naive_solver.
    + rewrite lookup_insert_ne by done. naive_solver.
  - apply before_snoc.
    + eapply before_ext; [|exact Is]. intros b Hb. unfold handle_at. by rewrite lookup_insert_ne by auto.
    + intros b Hb. unfold before, handle_at. rewrite lookup_insert_eq, lookup_insert_ne by auto. by apply Hlast.
  - intros b db [[<- <-]|[Hab Hb]]%lookup_insert_Some; [done|by eapply Ir].
  - intros b [Hb _]%lookup_insert_None. rewrite deliveries_other by apply Hquiet. by apply In.
Qed.

Lemma inv_cleanup s a id (detach : bool) hp ts :
  inv s → threads s !! a = Some (Cleanup detach, id) →
  (if detach then thread_cleanup (heap s) (tasks s) id else Ok (heap s, tasks s)) = Ok (hp, ts) →
  inv (mkSys hp ts (<[a := (Gone, id)]> (threads s)) (clients s) (log s)).
Proof.
  intros I Ha Hs. destruct (i_task s I a _ id Ha) as (x & Hx & -> & d & Hd & Hid & Hst & Hover).
  destruct I as [It Ih Il Is Ir In]. unfold thread_cleanup in Hs.
  assert (Hin : a ∈ default [] (tasks s)) by (apply Il; eauto).
  destruct (tasks s) as [lst|]; [|by apply elem_of_nil in Hin]. simpl in *. rewrite <-Hid in Hs.
  rewrite (find_listed (heap s) lst a d) in Hs; [|by intros b ?%Il|done..]. simpl in Hs. injection Hs as <- <-.
  assert (Hl : default [] (if decide (length (filter (λ b, b ≠ a) lst) = 0%nat) then None else Some (filter (λ b, b ≠ a) lst)) =
               filter (λ b, b ≠ a) lst) by (case_decide as E; [by apply length_zero_iff_nil in E; rewrite E|done]).
  split; cbn [heap tasks threads log]; rewrite ?Hl.
  - intros b p i [[<- [= <- <-]]|[Hab Hb]]%lookup_insert_Some.
    + exists x. cbn [heap log]. rewrite lookup_delete_eq. done.
    + eapply (task_ok_frame s _ b p i []); [by apply It|by simpl; rewrite lookup_delete_ne|by rewrite app_nil_r|by intros e He%elem_of_nil].
  - intros b db [Hab Hb]%lookup_delete_Some. rewrite lookup_insert_ne by done. by eapply Ih.
  - intros b. rewrite list_elem_of_filter, Il. destruct (decide (a = b)) as [<-|Hab].
    + rewrite lookup_delete_eq. split; [tauto|by intros [? ?]].
    + rewrite lookup_delete_ne by done. split; [tauto|]. intros Hs. by split; [apply not_eq_sym|].
  - eapply before_ext; [|by apply before_filter, Is]. intros b [Hb _]%list_elem_of_filter. unfold handle_at.
    by rewrite lookup_delete_ne by (by apply not_eq_sym).
  - intros b db [_ Hb]%lookup_delete_Some. by eapply Ir.
  - intros b [Hb _]%lookup_insert_None. by apply In.
Qed.

Lemma delayed_inv_step s s' : inv s → step s s' → inv s'.
Proof.
  intros I [c a n us x now h hp ts Hc Ht Hs Hh|c task f a Hc Hf|c a f d now Hc Hd|a id d now p d' Ht Hd Hs
    |a id d now p d' Ht Hd Hs|a id d p d' Ht Hd Hs|a id detach hp ts Ht Hs].
  - by eapply inv_schedule.
  - by destruct I.
  - by apply inv_perform.
  - eapply (delayed_inv_thread s a id Created d p d' now); eauto.
  - eapply (delayed_inv_thread s a id Waiting d p d' now); eauto.
  - by eapply inv_ran.
  - by eapply inv_cleanup.
Qed.

Lemma delayed_reachable_inv s : reachable s → inv s.
Proof.
  intros (s0 & (Hh & Ht & Hth & _ & Hl) & Hr).
  assert (I0 : inv s0).
  { split; rewrite ?Hh, ?Ht, ?Hth, ?Hl; simpl; try done; [|constructor].
    intros a. rewrite lookup_empty. split; [by intros ?%elem_of_nil|by intros [? ?]]. }
  clear -I0 Hr. induction Hr as [|s1 s2 s3 Hs _ IH]; [done|]. by apply IH, (delayed_inv_step s1).
Qed.

(** C33: the argument of a delayed task changes hands exactly once.  In every
    interleaving of the threads of the tasks with cancels, forced executions,
    reschedules and new tasks: as long as a task is pending its argument has
    not been handed over; afterwards it was either passed to the callback or
    returned by one cancel, never both and never twice, and it is the argument
    the task was scheduled with.  When the thread of the task is gone the
    object is freed; until then the handle in the list finds it. *)
Theorem delayedTask_argument_once s a pos id :
  reachable s → threads s !! a = Some (pos, id) →
  ∃ x, Scheduled a x ∈ log s ∧
    (deliveries a (log s) = [] ∨ deliveries a (log s) = [Called a x] ∨ deliveries a (log s) = [Cancelled a x]) ∧
    (∀ d, heap s !! a = Some d → pending d = true → deliveries a (log s) = []) ∧
    match pos with
    | Gone => heap s !! a = None ∧ deliveries a (log s) ≠ []
    | Cleanup _ => deliveries a (log s) ≠ [] ∧ getDelayedTask (heap s) (tasks s) id = Ok (Some a)
    | _ => getDelayedTask (heap s) (tasks s) id = Ok (Some a)
    end.
Proof.
  intros I%delayed_reachable_inv Ha. destruct (i_task s I a pos id Ha) as (x & Hx & Hok). exists x. split; [done|].
  assert (Hfind : ∀ d, heap s !! a = Some d → handle d = id → getDelayedTask (heap s) (tasks s) id = Ok (Some a)).
  { intros d Hd <-. assert (Hin : a ∈ default [] (tasks s)) by (apply (i_list s I); eauto). pose proof (i_sorted s I) as Hs.
    pose proof (i_list s I) as Hl. unfold getDelayedTask. destruct (tasks s) as [lst|]; [|by apply elem_of_nil in Hin].
    apply find_listed; [|done..]. by intros b ?%Hl. }
  destruct pos as [| | |b|].
  - destruct Hok as (d & Hd & Hid & _ & _ & Hst). split; [naive_solver|]. split; [|by eapply Hfind].
    intros d' Hd' Hp%pending_spec. assert (d' = d) as -> by congruence. destruct Hst as [[Hc _]|[_ ->]]; [|done]. destruct Hp; congruence.
  - destruct Hok as (d & Hd & Hid & _ & _ & Hst). split; [naive_solver|]. split; [|by eapply Hfind].
    intros d' Hd' Hp%pending_spec. assert (d' = d) as -> by congruence. destruct Hst as [[Hc _]|[_ ->]]; [|done]. destruct Hp; congruence.
  - destruct Hok as (d & Hd & Hid & _ & Hst & Hdel). rewrite Hdel. split; [by right; left|]. split; [|by eapply Hfind].
    intros d' Hd' Hp%pending_spec. assert (d' = d) as -> by congruence. destruct Hp; congruence.
  - destruct Hok as (_ & d & Hd & Hid & Hst & Hdel). split; [naive_solver|]. split.
    + intros d' Hd' Hp%pending_spec. assert (d' = d) as -> by congruence. destruct Hp; congruence.
    + split; [by destruct Hdel as [-> | ->]|by eapply Hfind].
  - destruct Hok as (Hd & Hdel). split; [naive_solver|]. split; [by rewrite Hd|]. split; [done|]. by destruct Hdel as [-> | ->].
Qed.

End Theorems.

(** ** Races *)

Definition start : sys Z := mkSys ∅ None ∅ {[0%nat := Idle]} [].
Definition at_sec (n : Z) : timespec := mkTs n 0.

Lemma start_initial : initial start.
Proof. do 3 (split; [done|]). split; [|done]. intros c cl. simpl. by rewrite lookup_singleton_Some; intros [_ <-]. Qed.

Tactic Notation "take" tactic3(tac) := eapply rtc_l; [tac|cbn [heap tasks threads clients log fst snd app]].

(** One task with an hour's delay is scheduled and looked up for a call. *)
Lemma looked_up f :
  ∃ s, reachable s ∧
    s = mkSys {[1%positive := mkTask 1 DELAY_TASK_IDLE 1 DELAY_HOURS (Some 7) (at_sec 0) true]} (Some [1%positive])
          {[1%positive := (Created, 1)]} (<[0%nat := Found 1 f]> {[0%nat := Idle]}) [Scheduled 1 (Some 7)].
Proof.
  eexists. split; [|done]. exists start. split; [apply start_initial|].
  take (eapply (step_schedule _ 0 1 1 DELAY_HOURS (Some 7) (at_sec 0)); [done|done|by vm_compute|done]).
  take (eapply (step_lookup _ 0 1 f 1); [done|by vm_compute]).
  apply rtc_refl.
Qed.

(** Two races of the code.  A task whose execution is forced before its
    thread has begun (exceuteDelayTask reports success) is set back to waiting
    by the thread and sits out its whole delay.  And a function that has
    looked up a task and not yet taken its mutex is left with a dangling
    pointer when the task ends in between: the object it goes on to lock is
    freed. *)
Theorem delayedTask_races :
  (∃ (s : sys Z) d, reachable s ∧ threads s !! 1%positive = Some (Waiting, 1) ∧ heap s !! 1%positive = Some d ∧
     state d = DELAY_TASK_WAITING ∧ computeWaitTime d (at_sec 0) = at_sec 3600 ∧
     ∃ s0 d0, reachable s0 ∧ clients s0 !! 0%nat = Some (Found 1 Execute) ∧ heap s0 !! 1%positive = Some d0 ∧
       (finalizeTaskInternal d0).1 = true ∧ rtc step s0 s) ∧
  (∃ s : sys Z, reachable s ∧ clients s !! 0%nat = Some (Found 1 Cancel) ∧ heap s !! 1%positive = None).
Proof.
  split.
  - destruct (looked_up Execute) as (s0 & Hr0 & Hs0).
    assert (∃ s, rtc step s0 s ∧ threads s !! 1%positive = Some (Waiting, 1) ∧
              heap s !! 1%positive = Some (mkTask 1 DELAY_TASK_WAITING 1 DELAY_HOURS (Some 7) (at_sec 0) true)) as (s & Hs & Ht & Hh).
    { rewrite Hs0. eexists. split.
      - take (eapply (step_perform _ 0 1 Execute _ (at_sec 0)); [done|done]).
        take (eapply (step_begins _ 1 1 _ (at_sec 0)); [done|done|by vm_compute]).
        apply rtc_refl.
      - split; by vm_compute. }
    exists s. eexists. split; [destruct Hr0 as (z & Hz & Hrz); exists z; split; [done|by etrans]|].
    split; [done|]. split; [exact Hh|]. split; [done|]. split; [by vm_compute|].
    exists s0. eexists. split; [done|]. rewrite Hs0. split; [done|]. split; [done|]. split; [done|]. by rewrite <-Hs0.
  - destruct (looked_up Cancel) as (s0 & Hr0 & Hs0).
    assert (∃ s, rtc step s0 s ∧ clients s !! 0%nat = Some (Found 1 Cancel) ∧ heap s !! 1%positive = None) as (s & Hs & Hc & Hh).
    { rewrite Hs0. eexists. split.
      - take (eapply (step_begins _ 1 1 _ (at_sec 3600)); [done|done|by vm_compute]).
        take (eapply (step_ran _ 1 1); [done|done|by vm_compute]).
        take (eapply (step_cleanup _ 1 1 true); [done|by vm_compute]).
        apply rtc_refl.
      - split; by vm_compute. }
    exists s. split; [destruct Hr0 as (z & Hz & Hrz); exists z; split; [done|by etrans]|]. done.
Qed.

(** The argument of a task that ran. *)
Lemma delayedTask_argument_once_witness :
  ∃ (s : sys Z) x, threads s !! 1%positive = Some (Created, 1) ∧ Scheduled 1%positive x ∈ log s ∧
    getDelayedTask (heap s) (tasks s) 1 = Ok (Some 1%positive).
Proof.
  destruct (looked_up Cancel) as (s & Hr & Hs).
  assert (Ht : threads s !! 1%positive = Some (Created, 1)) by (rewrite Hs; by vm_compute).
  destruct (delayedTask_argument_once s 1 Created 1 Hr Ht) as (x & Hx & _ & _ & Hf). by exists s, x.
Defined.

End DelayedTask.
