(* ===== verification/RepeatingTask.v ===== *)
(** * repeatingTask: a function called again and again

    Models src/source/libs/concurrent/c/src/repeatingTask.c.  The system is one
    task: its object, its entry in the list of tasks, its thread, and any
    number of clients that cancel it, cut its pause short or change its delay.
    The list and the object have mutexes of their own, so a client's call is a
    segment on the list and one on the object; a cancel also waits for the
    thread.  A wait may end at any time; the clock is an argument.  What the
    callback of a back-off task returns is an argument of the step. *)

From S2P Require Import Prelude Time DelayedTask.
Import Time DelayedTask.

Module RepeatingTask.

Inductive repeatTaskState :=
  | REPEAT_TASK_IDLE | REPEAT_TASK_WAITING | REPEAT_TASK_RUNNING | REPEAT_TASK_CANCELED | REPEAT_TASK_SHORT_CIRCUIT.
#[global] Instance repeatTaskState_eq_dec : EqDecision repeatTaskState := ltac:(solve_decision).

Inductive repeatingTaskType :=
  | NORMAL_REPEATING_TASK_TYPE | FIXED_RATE_REPEATING_TASK_TYPE | BACK_OFF_REPEATING_TASK_TYPE.
#[global] Instance repeatingTaskType_eq_dec : EqDecision repeatingTaskType := ltac:(solve_decision).

(** ** Delays *)

Definition calcBackOffDelayAmount (currentDelay startDelay incrementDelay maxDelay : Z) : Z :=
  if decide (currentDelay < startDelay) then startDelay
  else if decide (maxDelay ≤ u64 (currentDelay + incrementDelay)) then maxDelay
  else u64 (currentDelay + incrementDelay).

(** targetRunTime - now *)
Definition calcTimeToPause (executeTime now : timespec) : timespec := timespecDiff executeTime now.

Section Code.
Context {A : Type}.

Record repeatTask := mkRepeat {
  state : repeatTaskState;
  targetRunTime : timespec;
  units : delayUnits;
  currentDelay : Z;
  startDelay : Z;
  maxDelay : Z;
  incrementDelay : Z;
  has_success : bool;            (* backOffSuccessCallback is not NULL *)
  arg : A;
  taskType : repeatingTaskType;
  didComplete : bool
}.

Definition set_state (t : repeatTask) st :=
  mkRepeat st (targetRunTime t) (units t) (currentDelay t) (startDelay t) (maxDelay t) (incrementDelay t) (has_success t)
    (arg t) (taskType t) (didComplete t).
Definition set_target (t : repeatTask) ts :=
  mkRepeat (state t) ts (units t) (currentDelay t) (startDelay t) (maxDelay t) (incrementDelay t) (has_success t)
    (arg t) (taskType t) (didComplete t).
Definition set_delay (t : repeatTask) n us :=
  mkRepeat (state t) (targetRunTime t) us n (startDelay t) (maxDelay t) (incrementDelay t) (has_success t)
    (arg t) (taskType t) (didComplete t).
Definition set_complete (t : repeatTask) :=
  mkRepeat REPEAT_TASK_CANCELED (targetRunTime t) (units t) (currentDelay t) (startDelay t) (maxDelay t) (incrementDelay t)
    (has_success t) (arg t) (taskType t) true.

(** The checks of the arguments and the new object; [None]: the handle is 0.
    [has_func], [has_run]: func and backOffRunFunc are not NULL. *)
Definition initRepeatingTask (delayAmount initDelayAmount maxDelayAmount incrementDelayAmount : Z) (us : delayUnits)
    (has_func has_run success : bool) (x : A) (ty : repeatingTaskType) (now : timespec) : option repeatTask :=
  let good := match ty with
              | BACK_OFF_REPEATING_TASK_TYPE =>
                  negb (bool_decide (incrementDelayAmount = 0 ∨ initDelayAmount = 0 ∨ maxDelayAmount = 0)) && has_run
              | _ => negb (bool_decide (delayAmount = 0)) && has_func
              end in
  if good then Some (mkRepeat REPEAT_TASK_IDLE now us delayAmount initDelayAmount maxDelayAmount incrementDelayAmount success x ty false)
  else None.

Definition createRepeatingTask (delayAmount : Z) us (has_func : bool) x now : option repeatTask :=
  initRepeatingTask delayAmount 0 0 0 us has_func false false x NORMAL_REPEATING_TASK_TYPE now.
Definition createFixedRateRepeatingTask (delayAmount : Z) us (has_func : bool) x now : option repeatTask :=
  initRepeatingTask delayAmount 0 0 0 us has_func false false x FIXED_RATE_REPEATING_TASK_TYPE now.
Definition createBackOffRepeatingTask (initDelayAmount maxDelayAmount incrementDelayAmount : Z) us
    (has_run success : bool) x now : option repeatTask :=
  initRepeatingTask 0 initDelayAmount maxDelayAmount incrementDelayAmount us false has_run success x BACK_OFF_REPEATING_TASK_TYPE now.

(** handleCounter is a uint64_t, the handle a uint32_t. *)
Definition assignHandle (handleCounter : Z) : Z * Z :=
  let handleCounter := if decide (handleCounter = 4294967295) then 0 else handleCounter in
  (u32 (u64 (handleCounter + 1)), u64 (handleCounter + 1)).

(** ** The thread *)

(** [Exiting told]: out of the loop, toldToCancel is [told]. *)
Inductive position :=
  | Top
  | Calling (entry : repeatTaskState)
  | Waiting
  | Exiting (told : bool)
  | SelfCancel
  | SelfRelease
  | Ended.

Definition pauses (t : timespec) : bool := bool_decide (0 < tv_sec t ∨ tv_sec t = 0 ∧ 0 ≤ tv_nsec t).

Definition thread_top (t : repeatTask) : position * repeatTask :=
  if decide (state t = REPEAT_TASK_CANCELED) then (Exiting true, t)
  else (Calling (state t), set_state t REPEAT_TASK_RUNNING).

(** The time of the next run, after the callback. *)
Definition next_target (t : repeatTask) (entry : repeatTaskState) (now : timespec) : repeatTask :=
  let t := if decide (taskType t = BACK_OFF_REPEATING_TASK_TYPE)
           then set_delay t (calcBackOffDelayAmount (currentDelay t) (startDelay t) (incrementDelay t) (maxDelay t)) (units t)
           else t in
  let delay := populateTimespecDelay (currentDelay t) (units t) in
  if decide (taskType t ≠ FIXED_RATE_REPEATING_TASK_TYPE ∨ entry = REPEAT_TASK_SHORT_CIRCUIT)
  then set_target t (timespecAdd now delay) else set_target t (timespecAdd (targetRunTime t) delay).

(** The callback has returned [result]; [now] and [now'] are the two readings
    of the clock. *)
Definition thread_called (t : repeatTask) (entry : repeatTaskState) (result : bool) (now now' : timespec) : position * repeatTask :=
  if bool_decide (taskType t = BACK_OFF_REPEATING_TASK_TYPE) && result then (Exiting false, t)
  else
    let t := next_target t entry now in
    if decide (state t ≠ REPEAT_TASK_CANCELED ∧ state t ≠ REPEAT_TASK_SHORT_CIRCUIT) then
      let t := set_state t REPEAT_TASK_WAITING in
      if pauses (calcTimeToPause (targetRunTime t) now') then (Waiting, t) else (Top, t)
    else (Top, t).

Definition thread_woken (t : repeatTask) (now : timespec) : position :=
  if decide (state t = REPEAT_TASK_CANCELED) then Exiting true
  else if decide (state t = REPEAT_TASK_SHORT_CIRCUIT) then Top
  else if pauses (calcTimeToPause (targetRunTime t) now) then Waiting else Top.

(** After the loop. *)
Definition thread_exits (t : repeatTask) (told : bool) : position * repeatTask :=
  if decide (taskType t = BACK_OFF_REPEATING_TASK_TYPE) then
    if told then (Ended, t) else (SelfCancel, set_complete t)
  else (Ended, t).

Definition calls_success (t : repeatTask) : bool := bool_decide (taskType t = BACK_OFF_REPEATING_TASK_TYPE) && has_success t.

(** ** The segments of the clients on the object *)

(** cancelRepeatingTask: [Some x]: x will be returned once the thread was
    joined; [None]: somebody else is cancelling. *)
Definition cancelRepeatingTask (t : repeatTask) : option A * repeatTask :=
  if decide (state t ≠ REPEAT_TASK_CANCELED) then (Some (arg t), set_state t REPEAT_TASK_CANCELED) else (None, t).

Definition shortCircuitRepeatingTask (t : repeatTask) : repeatTask :=
  if decide (state t ≠ REPEAT_TASK_CANCELED) then set_state t REPEAT_TASK_SHORT_CIRCUIT else t.

Definition changeRepeatingTask (t : repeatTask) (delayAmount : Z) (us : delayUnits) (now : timespec) : repeatTask :=
  if decide (delayAmount = 0) then t
  else if decide (state t ≠ REPEAT_TASK_CANCELED) then
    let t' := set_delay t delayAmount us in
    if decide (state t ≠ REPEAT_TASK_RUNNING) then set_target t' (timespecAdd now (populateTimespecDelay delayAmount us)) else t'
  else t.

(** ** The task, its thread and its clients *)

Inductive call := ShortCircuit | Change (delayAmount : Z) (us : delayUnits).

Inductive client :=
  | Idle
  | Found (f : call)                    (* looked up, about to lock the object *)
  | Removed                             (* cancel: taken out of the list *)
  | Joining (x : A)                     (* cancel: waits for the thread *)
  | Releasing (r : option A)            (* cancel: about to free the object *)
  | Returned (r : option A).            (* cancel found the task and has returned *)

(** The callback is called; so is the success callback of a back-off task. *)
Inductive event := Called | Success (x : A).

Record sys := mkSys {
  object : option repeatTask;           (* None: freed *)
  listed : bool;
  thread : position;
  clients : gmap nat client;
  log : list event
}.

Inductive step (s : sys) : sys → Prop :=
  | step_top t p t' :
      thread s = Top → object s = Some t → thread_top t = (p, t') →
      step s (mkSys (Some t') (listed s) p (clients s) (log s ++ match p with Calling _ => [Called] | _ => [] end))
  | step_called t entry result now now' p t' :
      thread s = Calling entry → object s = Some t → thread_called t entry result now now' = (p, t') →
      step s (mkSys (Some t') (listed s) p (clients s) (log s))
  | step_woken t now :
      thread s = Waiting → object s = Some t →
      step s (mkSys (Some t) (listed s) (thread_woken t now) (clients s) (log s))
  | step_exits t told p t' :
      thread s = Exiting told → object s = Some t → thread_exits t told = (p, t') →
      step s (mkSys (Some t') (listed s) p (clients s) (log s ++ if calls_success t then [Success (arg t)] else []))
  | step_self_cancel :
      thread s = SelfCancel →
      step s (mkSys (object s) false (if listed s then SelfRelease else Ended) (clients s) (log s))
  | step_self_release t :
      thread s = SelfRelease → object s = Some t → (cancelRepeatingTask t).1 = None →
      step s (mkSys None (listed s) Ended (clients s) (log s))
  | step_lookup c f :
      clients s !! c = Some Idle → listed s = true →
      step s (mkSys (object s) (listed s) (thread s) (<[c := Found f]> (clients s)) (log s))
  | step_call c f t now :
      clients s !! c = Some (Found f) → object s = Some t →
      step s (mkSys (Some match f with
                          | ShortCircuit => shortCircuitRepeatingTask t
                          | Change n us => changeRepeatingTask t n us now
                          end) (listed s) (thread s) (<[c := Idle]> (clients s)) (log s))
  | step_cancel c :
      clients s !! c = Some Idle → listed s = true →
      step s (mkSys (object s) false (thread s) (<[c := Removed]> (clients s)) (log s))
  | step_cancel_lock c t r t' :
      clients s !! c = Some Removed → object s = Some t → cancelRepeatingTask t = (r, t') →
      step s (mkSys (Some t') (listed s) (thread s)
        (<[c := match r with Some x => Joining x | None => Releasing None end]> (clients s)) (log s))
  | step_join c x t :
      clients s !! c = Some (Joining x) → thread s = Ended → object s = Some t →
      step s (mkSys (object s) (listed s) (thread s)
        (<[c := Releasing (if didComplete t then None else Some x)]> (clients s)) (log s))
  | step_release c r t :
      clients s !! c = Some (Releasing r) → object s = Some t →
      step s (mkSys None (listed s) (thread s) (<[c := Returned r]> (clients s)) (log s)).

(** A task that was just created. *)
Definition initial (t : repeatTask) (s : sys) : Prop :=
  object s = Some t ∧ state t = REPEAT_TASK_IDLE ∧ didComplete t = false ∧ listed s = true ∧ thread s = Top ∧
  (∀ c cl, clients s !! c = Some cl → cl = Idle) ∧ log s = [].

Definition reachable (t : repeatTask) (s : sys) : Prop := ∃ s0, initial t s0 ∧ rtc step s0 s.

End Code.
Arguments repeatTask : clear implicits.
Arguments sys : clear implicits.
Arguments client : clear implicits.
Arguments event : clear implicits.

End RepeatingTask.
