(* ===== verification/RepeatingTaskTheorems.v ===== *)
(** * What repeating tasks promise

    A cancel that found the task returns only when the callback can not be
    called any more, the object is freed once, and the argument goes to one
    cancel at most; the delays of a back-off task have a closed form.  But a
    cancelled back-off task reports success. *)

From S2P Require Import Prelude Time DelayedTask RepeatingTask.
Import Time DelayedTask RepeatingTask.

Module RepeatingTheorems.
Section Theorems.
Context {A : Type}.
Implicit Types (t : repeatTask A) (s : sys A) (cl : client A) (p : position).

(** The client that took the task out of the list. *)
Definition owner cl : bool := match cl with Removed | Joining _ | Releasing _ | Returned _ => true | _ => false end.

(** The thread has left the object alone. *)
Definition past p : Prop := p = SelfCancel ∨ p = Ended.

Definition thread_ok s : Prop :=
  match thread s with
  | Top | Calling _ | Waiting => ∃ t, object s = Some t ∧ didComplete t = false
  | Exiting told => ∃ t, object s = Some t ∧ didComplete t = false ∧ (told = true → state t = REPEAT_TASK_CANCELED)
  | SelfCancel => ∀ t, object s = Some t → didComplete t = true
  | SelfRelease => ∃ t, object s = Some t ∧ didComplete t = true ∧ listed s = false ∧
                        ∀ c cl, clients s !! c = Some cl → owner cl = false
  | Ended => True
  end.

Definition client_ok (t0 : repeatTask A) s cl : Prop :=
  match cl with
  | Idle | Found _ => True
  | Removed => is_Some (object s)
  | Joining x => x = arg t0 ∧ is_Some (object s)
  | Releasing r => past (thread s) ∧ ∃ t, object s = Some t ∧ match r with Some x => x = arg t0 | None => didComplete t = true end
  | Returned r => past (thread s) ∧ object s = None ∧
                  match r with Some x => x = arg t0 | None => taskType t0 = BACK_OFF_REPEATING_TASK_TYPE end
  end.

Definition object_ok (t0 : repeatTask A) s t : Prop :=
  arg t = arg t0 ∧ taskType t = taskType t0 ∧
  (didComplete t = true → taskType t0 = BACK_OFF_REPEATING_TASK_TYPE ∧ state t = REPEAT_TASK_CANCELED) ∧
  (state t = REPEAT_TASK_CANCELED → didComplete t = true ∨
     ∃ c cl, clients s !! c = Some cl ∧ ((∃ x, cl = Joining x) ∨ ∃ r, cl = Releasing r)).

Record inv (t0 : repeatTask A) s : Prop := {
  i_thread : thread_ok s;
  i_client c cl : clients s !! c = Some cl → client_ok t0 s cl;
  i_object : match object s with Some t => object_ok t0 s t | None => past (thread s) ∧ listed s = false end;
  i_listed c cl : clients s !! c = Some cl → owner cl = true → listed s = false;
  i_one c c' cl cl' : clients s !! c = Some cl → clients s !! c' = Some cl' → owner cl = true → owner cl' = true → c = c'
}.

(** The thread moves on and changes the object; nobody else does. *)
Lemma inv_thread t0 s t t' p l :
  inv t0 s → object s = Some t → ¬ past (thread s) → thread s ≠ SelfRelease →
  arg t' = arg t → taskType t' = taskType t →
  (state t = REPEAT_TASK_CANCELED → state t' = REPEAT_TASK_CANCELED) →
  (state t' = REPEAT_TASK_CANCELED → state t = REPEAT_TASK_CANCELED ∨ didComplete t' = true) →
  (didComplete t' = true → taskType t0 = BACK_OFF_REPEATING_TASK_TYPE ∧ state t' = REPEAT_TASK_CANCELED) →
  thread_ok (mkSys (Some t') (listed s) p (clients s) l) → (didComplete t = true → didComplete t' = true) →
  inv t0 (mkSys (Some t') (listed s) p (clients s) l).
Proof.
  intros [It Ic Io Il I1] Ht Hnp Hnr Ha Hty Hk Hk' Hd Hok Hmono. rewrite Ht in Io. destruct Io as (Oa & Oty & Od & Oc).
  split; cbn [object listed thread clients]; try done.
  - intros c cl Hc. specialize (Ic c cl Hc). destruct cl as [| | |x|r|r]; simpl in *;
      [done|done|by eexists|destruct Ic; split; [done|by eexists]|by destruct Ic as [? _]|by destruct Ic as [? _]].
  - split; [congruence|]. split; [congruence|]. split; [done|]. intros Hc. destruct (Hk' Hc) as [Hs|Hs]; [|by left].
    destruct (Oc Hs) as [Hdc|Hex]; [left; by apply Hmono|by right].
Qed.

(** The segments of the thread on a task that is not complete. *)
Lemma thread_top_fields t p t' :
  thread_top t = (p, t') → arg t' = arg t ∧ taskType t' = taskType t ∧ didComplete t' = didComplete t ∧
  (state t = REPEAT_TASK_CANCELED ∧ t' = t ∧ p = Exiting true ∨
   state t ≠ REPEAT_TASK_CANCELED ∧ state t' = REPEAT_TASK_RUNNING ∧ p = Calling (state t)).
Proof. unfold thread_top. case_decide; intros [= <- <-]; simpl; auto 8. Qed.

Lemma next_target_fields t entry now (t' := next_target t entry now) :
  arg t' = arg t ∧ taskType t' = taskType t ∧ didComplete t' = didComplete t ∧ state t' = state t.
Proof. unfold t', next_target. by repeat case_decide. Qed.

Lemma thread_called_fields t entry result now now' p t' :
  thread_called t entry result now now' = (p, t') →
  arg t' = arg t ∧ taskType t' = taskType t ∧ didComplete t' = didComplete t ∧
  (state t = REPEAT_TASK_CANCELED ↔ state t' = REPEAT_TASK_CANCELED) ∧ (p = Exiting false ∨ p = Waiting ∨ p = Top).
Proof.
  unfold thread_called. destruct (bool_decide _ && result); [intros [= <- <-]; naive_solver|].
  destruct (next_target_fields t entry now) as (E1 & E2 & E3 & E4).
  case_decide as Hd; [destruct (pauses _)|]; intros [= <- <-]; simpl; rewrite ?E4 in *; naive_solver.
Qed.

Lemma thread_exits_fields t told p t' :
  thread_exits t told = (p, t') → arg t' = arg t ∧ taskType t' = taskType t ∧
  (t' = t ∧ p = Ended ∨ t' = set_complete t ∧ p = SelfCancel ∧ taskType t = BACK_OFF_REPEATING_TASK_TYPE).
Proof. unfold thread_exits. case_decide; [destruct told|]; intros [= <- <-]; simpl; auto 8. Qed.

Lemma not_past p : (match p with SelfCancel | Ended => False | _ => True end) → ¬ past p.
Proof. intros Hp [-> | ->]; done. Qed.

Lemma inv_top t0 s t p t' l :
  inv t0 s → thread s = Top → object s = Some t → thread_top t = (p, t') → inv t0 (mkSys (Some t') (listed s) p (clients s) l).
Proof.
  intros I Hp Ht Hs. pose proof (i_thread t0 s I) as It. unfold thread_ok in It. rewrite Hp in It. destruct It as (t1 & Ht1 & Hdc).
  assert (t1 = t) as -> by congruence. destruct (thread_top_fields t p t' Hs) as (Ea & Ety & Ed & Hcase).
  eapply (inv_thread t0 s t); try done; rewrite ?Hp; try done; try congruence.
  - by apply not_past.
  - destruct Hcase as [(? & -> & _)|(? & ? & _)]; congruence.
  - destruct Hcase as [(? & -> & _)|(? & ? & _)]; [by left|congruence].
  - unfold thread_ok. simpl. destruct Hcase as [(? & -> & ->)|(? & ? & ->)]; simpl; eexists; (split; [done|]); [done|congruence].
Qed.

Lemma inv_called t0 s t entry result now now' p t' l :
  inv t0 s → thread s = Calling entry → object s = Some t → thread_called t entry result now now' = (p, t') →
  inv t0 (mkSys (Some t') (listed s) p (clients s) l).
Proof.
  intros I Hp Ht Hs. pose proof (i_thread t0 s I) as It. unfold thread_ok in It. rewrite Hp in It. destruct It as (t1 & Ht1 & Hdc).
  assert (t1 = t) as -> by congruence. destruct (thread_called_fields _ _ _ _ _ _ _ Hs) as (Ea & Ety & Ed & Hst & Hpos).
  eapply (inv_thread t0 s t); try done; rewrite ?Hp; try done; try congruence.
  - by apply not_past.
  - by rewrite Hst.
  - rewrite Hst. by left.
  - unfold thread_ok. destruct Hpos as [->|[-> | ->]]; simpl; exists t'; (split; [done|]); [split; [congruence|done]|congruence..].
Qed.

Lemma inv_woken t0 s t now l :
  inv t0 s → thread s = Waiting → object s = Some t → inv t0 (mkSys (Some t) (listed s) (thread_woken t now) (clients s) l).
Proof.
  intros I Hp Ht. pose proof (i_thread t0 s I) as It. unfold thread_ok in It. rewrite Hp in It. destruct It as (t1 & Ht1 & Hdc).
  assert (t1 = t) as -> by congruence.
  eapply (inv_thread t0 s t); try done; rewrite ?Hp; try done; try congruence; [by apply not_past|by left|].
  unfold thread_ok, thread_woken. simpl. repeat case_decide; [by exists t|by exists t|]. destruct (pauses _); by exists t.
Qed.

Lemma inv_exits t0 s t told p t' l :
  inv t0 s → thread s = Exiting told → object s = Some t → thread_exits t told = (p, t') →
  inv t0 (mkSys (Some t') (listed s) p (clients s) l).
Proof.
  intros I Hp Ht Hs. pose proof (i_thread t0 s I) as It. unfold thread_ok in It. rewrite Hp in It. destruct It as (t1 & Ht1 & Hdc & Htold).
  assert (t1 = t) as -> by congruence. pose proof (i_object t0 s I) as Io. rewrite Ht in Io. destruct Io as (Oa & Oty & Od & Oc).
  destruct (thread_exits_fields t told p t' Hs) as (Ea & Ety & Hcase).
  eapply (inv_thread t0 s t); try done; rewrite ?Hp; try done; try congruence.
  - by apply not_past.
  - by destruct Hcase as [(-> & _)|(-> & _)].
  - destruct Hcase as [(-> & _)|(-> & _)]; [by left|by right].
  - destruct Hcase as [(-> & _)|(-> & _ & Hty)]; [congruence|]. simpl. intros _. split; [congruence|done].
  - unfold thread_ok. destruct Hcase as [(-> & ->)|(-> & -> & _)]; simpl; [done|]. by intros t1 [= <-].
Qed.

Lemma inv_self_cancel t0 s l :
  inv t0 s → thread s = SelfCancel → inv t0 (mkSys (object s) false (if listed s then SelfRelease else Ended) (clients s) l).
Proof.
  intros [It Ic Io Il I1] Hp. unfold thread_ok in It. rewrite Hp in It.
  assert (Hown : listed s = true → ∀ c cl, clients s !! c = Some cl → owner cl = false).
  { intros Hl c cl Hc. destruct (owner cl) eqn:E; [|done]. rewrite (Il c cl Hc E) in Hl. done. }
  split; cbn [object listed thread clients]; try done.
  - unfold thread_ok. cbn [object listed thread clients]. destruct (listed s) eqn:Hl; [|done].
    destruct (object s) as [t|]; [|by destruct Io]. exists t. do 3 (split; [auto|]). by apply Hown.
  - intros c cl Hc. specialize (Ic c cl Hc). destruct cl as [| | |x|r|r]; simpl in *; try done.
    + destruct Ic as [_ ?]. rewrite (Il c _ Hc eq_refl). split; [by right|done].
    + destruct Ic as [_ ?]. rewrite (Il c _ Hc eq_refl). split; [by right|done].
  - destruct (object s) as [t|]; [done|]. destruct Io as [_ ->]. split; [by right|done].
Qed.

Lemma inv_self_release t0 s l :
  inv t0 s → thread s = SelfRelease → inv t0 (mkSys None (listed s) Ended (clients s) l).
Proof.
  intros [It Ic Io Il I1] Hp. unfold thread_ok in It. rewrite Hp in It. destruct It as (t & Ht & Hd & Hl & Hno).
  split; cbn [object listed thread clients]; try done.
  - intros c cl Hc. specialize (Hno c cl Hc). by destruct cl.
  - split; [by right|done].
Qed.

(** A client that is not the owner uses the object. *)
Lemma inv_use t0 s c cl t t' :
  inv t0 s → clients s !! c = Some cl → owner cl = false → object s = Some t →
  arg t' = arg t → taskType t' = taskType t → didComplete t' = didComplete t →
  (state t = REPEAT_TASK_CANCELED ↔ state t' = REPEAT_TASK_CANCELED) →
  ∀ cl', owner cl' = false → inv t0 (mkSys (Some t') (listed s) (thread s) (<[c := cl']> (clients s)) (log s)).
Proof.
  intros [It Ic Io Il I1] Hc Hno Ht Ea Ety Ed Hst cl' Hno'. rewrite Ht in Io. destruct Io as (Oa & Oty & Od & Oc).
  assert (Hcl : ∀ d dl, <[c := cl']> (clients s) !! d = Some dl → owner dl = true → clients s !! d = Some dl).
  { intros d dl [[<- <-]|[_ ?]]%lookup_insert_Some Ho; [congruence|done]. }
  split; cbn [object listed thread clients].
  - unfold thread_ok in *. cbn [object listed thread clients]. destruct (thread s) as [|e| |told| | |];
      try (destruct It as (t1 & Ht1 & Hr); assert (t1 = t) as -> by congruence; exists t'; split; [done|]).
    + congruence.
    + congruence.
    + congruence.
    + destruct Hr as [? Hr]. split; [congruence|]. intros Hto. by apply Hst, Hr.
    + intros t1 [= <-]. rewrite Ed. by apply It.
    + destruct Hr as (? & ? & Hr). split; [congruence|]. split; [done|]. intros d dl [[_ <-]|[_ Hd]]%lookup_insert_Some; [done|by eapply Hr].
    + done.
  - intros d dl Hd. destruct (owner dl) eqn:Ho; [|by destruct dl]. apply Hcl in Hd; [|done]. specialize (Ic d dl Hd).
    destruct dl as [| | |x|r|r]; simpl in *; try done.
    + destruct Ic; split; [done|by eexists].
    + destruct Ic as [? (t1 & Ht1 & Hr)]. assert (t1 = t) as -> by congruence. split; [done|]. exists t'. split; [done|].
      destruct r; [done|congruence].
    + destruct Ic as (_ & ? & _). congruence.
  - split; [congruence|]. split; [congruence|]. split; [rewrite Ed; intros Hd; destruct (Od Hd); split; [done|by apply Hst]|].
    intros Hs%Hst. rewrite Ed. destruct (Oc Hs) as [?|(d & dl & Hd & Hor)]; [by left|]. right. exists d, dl.
    cbn [clients]. split; [|done]. rewrite lookup_insert_ne; [done|]. intros <-. rewrite Hc in Hd. injection Hd as ->.
    by destruct Hor as [[? ->]|[? ->]].
  - intros d dl Hd Ho. by eapply Il; [apply Hcl|].
  - intros d d' dl dl' Hd Hd' Ho Ho'. eapply I1; eauto.
Qed.

Lemma inv_lookup t0 s c f :
  inv t0 s → clients s !! c = Some Idle → listed s = true →
  inv t0 (mkSys (object s) (listed s) (thread s) (<[c := Found f]> (clients s)) (log s)).
Proof.
  intros I Hc Hl. pose proof (i_object t0 s I) as Io. destruct (object s) as [t|] eqn:Ht; [|destruct Io; congruence].
  by eapply (inv_use t0 s c Idle t t).
Qed.

(** The client takes the task out of the list. *)
Lemma inv_cancel t0 s c :
  inv t0 s → clients s !! c = Some Idle → listed s = true →
  inv t0 (mkSys (object s) false (thread s) (<[c := Removed]> (clients s)) (log s)).
Proof.
  intros [It Ic Io Il I1] Hc Hl.
  assert (Hno : ∀ d dl, clients s !! d = Some dl → owner dl = false).
  { intros d dl Hd. destruct (owner dl) eqn:E; [|done]. rewrite (Il d dl Hd E) in Hl. done. }
  destruct (object s) as [t|] eqn:Ht; [|destruct Io; congruence]. destruct Io as (Oa & Oty & Od & Oc).
  split; cbn [object listed thread clients]; rewrite ?Ht.
  - unfold thread_ok in *. cbn [object listed thread clients]. rewrite Ht in It. destruct (thread s) as [|e| |told| | |]; try done.
    destruct It as (_ & _ & _ & Hlf & _). congruence.
  - intros d dl [[<- <-]|[_ Hd]]%lookup_insert_Some; simpl; [by eexists|]. specialize (Hno d dl Hd). by destruct dl.
  - do 3 (split; [done|]). intros Hs. destruct (Oc Hs) as [?|(d & dl & Hd & Hor)]; [by left|].
    specialize (Hno d dl Hd). by destruct Hor as [[? ->]|[? ->]].
  - done.
  - intros d d' dl dl' [[<- <-]|[_ Hd]]%lookup_insert_Some [[<- <-]|[_ Hd']]%lookup_insert_Some Ho Ho'; try done;
      [rewrite (Hno _ _ Hd') in Ho'|rewrite (Hno _ _ Hd) in Ho|rewrite (Hno _ _ Hd) in Ho]; done.
Qed.

(** The owner goes on. *)
Lemma inv_owner t0 s c cl cl' ob :
  inv t0 s → clients s !! c = Some cl → owner cl = true → owner cl' = true →
  client_ok t0 (mkSys ob (listed s) (thread s) (<[c := cl']> (clients s)) (log s)) cl' →
  (match ob with
   | Some t' => ∃ t, object s = Some t ∧ arg t' = arg t ∧ taskType t' = taskType t ∧ didComplete t' = didComplete t ∧
       (state t = REPEAT_TASK_CANCELED → state t' = REPEAT_TASK_CANCELED) ∧
       (state t' = REPEAT_TASK_CANCELED → didComplete t' = true ∨ (∃ x, cl' = Joining x) ∨ ∃ r, cl' = Releasing r)
   | None => past (thread s)
   end) →
  inv t0 (mkSys ob (listed s) (thread s) (<[c := cl']> (clients s)) (log s)).
Proof.
  intros [It Ic Io Il I1] Hc Ho Ho' Hok Hob.
  assert (Hno : ∀ d dl, <[c := cl']> (clients s) !! d = Some dl → d = c ∧ dl = cl' ∨ d ≠ c ∧ owner dl = false).
  { intros d dl [[<- <-]|[Hne Hd]]%lookup_insert_Some; [by left|]. right. split; [by apply not_eq_sym|].
    destruct (owner dl) eqn:E; [|done]. by destruct Hne; eapply I1. }
  split; cbn [object listed thread clients].
  - unfold thread_ok in *. cbn [object listed thread clients]. destruct ob as [t'|].
    + destruct Hob as (t & Ht & _ & _ & Ed & Hst & _). rewrite Ht in It. destruct (thread s) as [|e| |told| | |];
        try (destruct It as (t1 & [= <-] & Hr); exists t'; split; [done|]); try congruence.
      * destruct Hr as [? Hr]. split; [congruence|]. intros Hto. by apply Hst, Hr.
      * intros t1 [= <-]. rewrite Ed. by apply It.
      * destruct Hr as (_ & _ & Hr). specialize (Hr c cl Hc). congruence.
    + by destruct Hob as [-> | ->].
  - intros d dl Hd. destruct (Hno d dl Hd) as [[-> ->]|[_ E]]; [done|]. by destruct dl.
  - destruct ob as [t'|]; [|split; [done|by eapply Il]]. destruct Hob as (t & Ht & Ea & Ety & Ed & Hst & Hs').
    rewrite Ht in Io. destruct Io as (Oa & Oty & Od & Oc). split; [congruence|]. split; [congruence|].
    split; [rewrite Ed; intros Hd; destruct (Od Hd); auto|]. intros Hs. destruct (Hs' Hs) as [?|Hor]; [by left|]. right.
    exists c, cl'. cbn [clients]. rewrite lookup_insert_eq. done.
  - intros d dl _ _. by eapply Il.
  - intros d d' dl dl' Hd Hd' E E'. destruct (Hno d dl Hd) as [[-> _]|[_ ?]]; [|congruence].
    destruct (Hno d' dl' Hd') as [[-> _]|[_ ?]]; [done|congruence].
Qed.

Lemma inv_cancel_lock t0 s c t r t' :
  inv t0 s → clients s !! c = Some Removed → object s = Some t → RepeatingTask.cancelRepeatingTask t = (r, t') →
  inv t0 (mkSys (Some t') (listed s) (thread s)
    (<[c := match r with Some x => Joining x | None => Releasing None end]> (clients s)) (log s)).
Proof.
  intros I Hc Ht Hr. pose proof (i_object t0 s I) as Io. rewrite Ht in Io. destruct Io as (Oa & Oty & Od & Oc).
  unfold cancelRepeatingTask in Hr. case_decide as Hs; injection Hr as <- <-.
  - eapply (inv_owner t0 s c Removed); [done|done|done|done| |].
    + simpl. split; [done|by eexists].
    + exists t. simpl. do 4 (split; [done|]). split; [done|]. intros _. right. left. eauto.
  - assert (Hst : state t = REPEAT_TASK_CANCELED) by (by destruct (decide (state t = REPEAT_TASK_CANCELED))).
    assert (Hd : didComplete t = true).
    { destruct (Oc Hst) as [?|(d & dl & Hdl & Hor)]; [done|]. assert (Ho : owner dl = true) by (by destruct Hor as [[? ->]|[? ->]]).
      assert (d = c) as -> by (by eapply (i_one t0 s I d c dl Removed)). rewrite Hc in Hdl. injection Hdl as <-.
      by destruct Hor as [[? ?]|[? ?]]. }
    assert (Hp : past (thread s)).
    { pose proof (i_thread t0 s I) as It. unfold thread_ok in It. rewrite Ht in It. destruct (thread s) as [|e| |told| | |] eqn:E;
        try (destruct It as (t1 & [= <-] & Hr'); destruct_and?; congruence); [by left| |by right].
      destruct It as (_ & _ & _ & _ & Hno). by specialize (Hno c Removed Hc). }
    eapply (inv_owner t0 s c Removed); [done|done|done|done| |].
    + simpl. split; [done|]. by exists t.
    + exists t. do 4 (split; [done|]). split; [done|]. by left.
Qed.

Lemma inv_join t0 s c x t :
  inv t0 s → clients s !! c = Some (Joining x) → thread s = Ended → object s = Some t →
  inv t0 (mkSys (object s) (listed s) (thread s)
    (<[c := Releasing (if didComplete t then None else Some x)]> (clients s)) (log s)).
Proof.
  intros I Hc Hp Ht. destruct (i_client t0 s I c _ Hc) as [-> _]. rewrite Ht.
  eapply (inv_owner t0 s c (Joining (arg t0))); [done|done|done|done| |].
  - simpl. split; [by right|]. exists t. split; [done|]. by destruct (didComplete t).
  - exists t. do 4 (split; [done|]). split; [done|]. intros _. right. right. eauto.
Qed.

Lemma inv_release t0 s c r t :
  inv t0 s → clients s !! c = Some (Releasing r) → object s = Some t →
  inv t0 (mkSys None (listed s) (thread s) (<[c := Returned r]> (clients s)) (log s)).
Proof.
  intros I Hc Ht. destruct (i_client t0 s I c _ Hc) as (Hp & t1 & Ht1 & Hr). assert (t1 = t) as -> by congruence.
  eapply (inv_owner t0 s c (Releasing r)); [done|done|done|done| |done].
  simpl. split; [done|]. split; [done|]. destruct r; [done|]. pose proof (i_object t0 s I) as Io. rewrite Ht in Io.
  destruct Io as (_ & _ & Od & _). by apply Od.
Qed.

Lemma call_fields t f now (t' := match f with
                                 | ShortCircuit => shortCircuitRepeatingTask t
                                 | Change n us => changeRepeatingTask t n us now
                                 end) :
  arg t' = arg t ∧ taskType t' = taskType t ∧ didComplete t' = didComplete t ∧
  (state t = REPEAT_TASK_CANCELED ↔ state t' = REPEAT_TASK_CANCELED).
Proof.
  unfold t', shortCircuitRepeatingTask, changeRepeatingTask. destruct f; repeat case_decide; simpl; naive_solver.
Qed.

Lemma inv_step t0 s s' : inv t0 s → step s s' → inv t0 s'.
Proof.
  intros I Hs. destruct Hs as [t p t' Hp Ht Hs|t entry result now now' p t' Hp Ht Hs|t now Hp Ht|t told p t' Hp Ht Hs|Hp|t Hp Ht Hr|c f Hc Hl
    |c f t now Hc Ht|c Hc Hl|c t r t' Hc Ht Hr|c x t Hc Hp Ht|c r t Hc Ht].
  - by eapply inv_top.
  - by eapply inv_called.
  - by apply inv_woken.
  - by eapply inv_exits.
  - by apply inv_self_cancel.
  - by apply inv_self_release.
  - by apply inv_lookup.
  - destruct (call_fields t f now) as (E1 & E2 & E3 & E4). by eapply (inv_use t0 s c (Found f) t).
  - by apply inv_cancel.
  - by eapply inv_cancel_lock.
  - by eapply inv_join.
  - by eapply inv_release.
Qed.

Lemma inv_initial t0 s : initial t0 s → inv t0 s.
Proof.
  intros (Ho & Hst & Hd & Hl & Hp & Hc & _). split.
  - unfold thread_ok. rewrite Hp. by exists t0.
  - intros c cl Hcl. by rewrite (Hc c cl Hcl).
  - rewrite Ho. split; [done|]. split; [done|]. split; [congruence|]. congruence.
  - intros c cl Hcl. by rewrite (Hc c cl Hcl).
  - intros c c' cl cl' Hcl. by rewrite (Hc c cl Hcl).
Qed.

Lemma repeat_reachable_inv t0 s : reachable t0 s → inv t0 s.
Proof.
  intros (s0 & H0 & Hr). apply inv_initial in H0. induction Hr as [|s1 s2 s3 Hs _ IH]; [done|]. by apply IH, (inv_step t0 s1).
Qed.

(** C34: cancelling a repeating task.  In every interleaving of its thread with
    any number of cancels, short circuits and changes: once the object is
    freed the thread is past its loop, so the callback is not running and
    will not be called again; that holds in particular when a cancel that
    found the task has returned; at most one cancel finds it, and for tasks
    that are not back-off tasks it gets the original argument (for back-off
    tasks, nothing when the task completed by itself). *)
Theorem repeatingTask_cancel t0 s :
  reachable t0 s →
  (object s = None → thread s = SelfCancel ∨ thread s = Ended) ∧
  (∀ c r, clients s !! c = Some (Returned r) → object s = None ∧
     match r with Some x => x = arg t0 | None => taskType t0 = BACK_OFF_REPEATING_TASK_TYPE end) ∧
  (∀ c c' r r', clients s !! c = Some (Returned r) → clients s !! c' = Some (Returned r') → c = c').
Proof.
  intros I%repeat_reachable_inv. split; [|split].
  - intros Hn. pose proof (i_object t0 s I) as Io. rewrite Hn in Io. apply Io.
  - intros c r Hc. destruct (i_client t0 s I c _ Hc) as (_ & ? & ?). done.
  - intros c c' r r' Hc Hc'. by eapply (i_one t0 s I).
Qed.

End Theorems.

(** ** Back-off *)

(** The delay before run [n + 1]. *)
Fixpoint backoff (startDelay incrementDelay maxDelay : Z) (n : nat) : Z :=
  match n with
  | O => calcBackOffDelayAmount 0 startDelay incrementDelay maxDelay
  | S n => calcBackOffDelayAmount (backoff startDelay incrementDelay maxDelay n) startDelay incrementDelay maxDelay
  end.

(** The delays of a back-off task: the first is the start delay, each
    next one larger by the increment, up to the maximum, where it stays. *)
Theorem backoff_delays startDelay incrementDelay maxDelay n :
  0 < startDelay ≤ maxDelay → 0 < incrementDelay → maxDelay + incrementDelay < 18446744073709551616 →
  backoff startDelay incrementDelay maxDelay n = Z.min maxDelay (startDelay + Z.of_nat n * incrementDelay).
Proof.
  intros Hs Hi Hm. induction n as [|n IH]; cbn [backoff].
  - unfold calcBackOffDelayAmount. rewrite decide_True by lia. lia.
  - rewrite IH. unfold calcBackOffDelayAmount. rewrite decide_False by lia.
    unfold u64. rewrite Z.mod_small by lia. case_decide; lia.
Qed.

Lemma backoff_delays_witness : backoff 5 10 60 3 = 35 ∧ backoff 5 10 60 9 = 60.
Proof.
  split.
  - rewrite (backoff_delays 5 10 60 3) by lia. reflexivity.
  - rewrite (backoff_delays 5 10 60 9) by lia. reflexivity.
Defined.

(** ** A cancelled back-off task *)

Definition retry : repeatTask Z := mkRepeat REPEAT_TASK_IDLE (mkTs 0 0) DELAY_SECS 0 5 60 10 true 7 BACK_OFF_REPEATING_TASK_TYPE false.
Definition begin (t : repeatTask Z) : sys Z := mkSys (Some t) true Top {[0%nat := Idle]} [].

Lemma begin_initial t : state t = REPEAT_TASK_IDLE → didComplete t = false → initial t (begin t).
Proof.
  intros Hs Hd. do 5 (split; [done|]). split; [|done]. intros c cl. simpl. by rewrite lookup_singleton_Some; intros [_ <-].
Qed.

Tactic Notation "take" tactic3(tac) := eapply rtc_l; [tac|cbn [object listed thread clients log fst snd app]].

(** The callback ran once without success; then the task is cancelled. *)
Lemma cancelled_retry :
  ∃ s, reachable retry s ∧ clients s !! 0%nat = Some (Returned (Some 7)) ∧ log s = [Called; Success 7].
Proof.
  eexists. split; [exists (begin retry); split; [by apply begin_initial|]|].
  - take (eapply step_top; [done|done|by vm_compute]).
    take (eapply (step_called _ _ _ false (mkTs 0 0) (mkTs 0 0)); [done|done|by vm_compute]).
    take (eapply (step_cancel _ 0); [done|done]).
    take (eapply (step_cancel_lock _ 0); [done|done|by vm_compute]).
    take (eapply (step_woken _ _ (mkTs 1 0)); [done|done]).
    take (eapply step_exits; [by vm_compute|done|by vm_compute]).
    take (eapply (step_join _ 0); [done|done|done]).
    take (eapply (step_release _ 0); [done|done]).
    apply rtc_refl.
  - by vm_compute.
Qed.

(** A back-off task that is cancelled after a run without success calls
    its success callback all the same; the cancel returns the argument too,
    so that both the callback and the caller are told to dispose of it. *)
Theorem cancelled_backoff_reports_success :
  ∃ s, reachable retry s ∧ clients s !! 0%nat = Some (Returned (Some (arg retry))) ∧
    log s = [Called; Success (arg retry)] ∧ object s = None.
Proof.
  destruct cancelled_retry as (s & Hr & Hc & Hl). exists s. split; [done|]. split; [done|]. split; [done|].
  pose proof (repeat_reachable_inv retry s Hr) as I. by destruct (i_client retry s I 0%nat _ Hc) as (_ & ? & _).
Qed.

Lemma repeatingTask_cancel_witness :
  ∃ s, clients s !! 0%nat = Some (Returned (Some 7)) ∧ object s = None ∧ (thread s = SelfCancel ∨ thread s = Ended) ∧ log s = [Called; Success 7].
Proof.
  destruct cancelled_retry as (s & Hr & Hc & Hl). exists s.
  destruct (repeatingTask_cancel retry s Hr) as (H1 & H2 & _). destruct (H2 0%nat _ Hc) as [Ho _].
  split; [done|]. split; [done|]. split; [by apply H1|done].
Defined.

End RepeatingTheorems.
