(* ===== verification/SortedList.v ===== *)
(** * icSortedLinkedList: ordered insertion into a linked list

    Models src/source/libs/types/c/src/icSortedLinkedList.c on the node stores
    of LinkedList.v, and shows that sortedLinkedListAdd is insertion before
    the first element that is not smaller, so that a list built with it stays
    sorted under any total preorder the compare function implements. *)

From S2P Require Import Prelude LinkedList LinkedListSpec LinkedListTheorems.
Import LinkedList ListSpec.
From Stdlib Require Import Sorting.Sorted.

Module SortedList.
Section Code.
Context {A : Type}.

Definition sortedLinkedListCreate : icLinkedList A := linkedListCreate.

(** The loop of sortedLinkedListAdd; when it reaches the end it falls through
    to linkedListAppend. *)
Fixpoint sorted_add_loop (fuel : nat) (l : icLinkedList A) (item : option A)
    (ptr prev : option addr) (compareFunc : option A → option A → outcome Z)
    : outcome (bool * option (icLinkedList A)) :=
  match ptr with
  | None => linkedListAppend (Some l) item
  | Some p =>
      match fuel with
      | O => Hang
      | S fuel' =>
          n ← of_option (ll_nodes l !! p);
          rc ← compareFunc item (n_item n);
          if decide (rc ≤ 0) then
            let '(node, m) := createListNode (ll_nodes l) in
            m ← set_item m node item;
            m ← set_next m node (Some p);
            '(fst, m) ← match prev with
                        | None => Ok (Some node, m)
                        | Some q => m ← set_next m q (Some node); Ok (ll_first l, m)
                        end;
            Ok (true, Some (mkList (u16 (ll_size l + 1)) fst (ll_cloned l) m))
          else sorted_add_loop fuel' l item (n_next n) (Some p) compareFunc
      end
  end.

Definition sortedLinkedListAdd (lst : option (icLinkedList A)) (item : option A)
    (compareFunc : option A → option A → outcome Z) : outcome (bool * option (icLinkedList A)) :=
  match lst with
  | None => Ok (false, None)
  | Some l =>
      match ll_first l with
      | None => linkedListAppend lst item
      | Some _ => sorted_add_loop (size (ll_nodes l)) l item (ll_first l) None compareFunc
      end
  end.

End Code.

Section Spec.
Context {A : Type} (compareFunc : option A → option A → outcome Z) (cmp : A → A → Z).
Implicit Types (ns : list (addr * option A)).

(** Insertion before the first element that is not smaller than [x]. *)
Fixpoint insert_sorted (x : A) (ys : list A) : list A :=
  match ys with
  | [] => [x]
  | y :: t => if decide (cmp x y ≤ 0) then x :: ys else y :: insert_sorted x t
  end.

(** Linking a fresh node [a] between two segments. *)
Lemma seg_insert n1 n2 a (x : option A) :
  NoDup (n1 ++ n2).*1 → a ∉ (n1 ++ n2).*1 →
  seg (n1 ++ (a, x) :: n2) None = <[a := mkNode x (hd_addr n2 None)]>
    (match last n1 with
     | None => seg (n1 ++ n2) None
     | Some (b, y) => <[b := mkNode y (Some a)]> (seg (n1 ++ n2) None)
     end).
Proof.
  intros Hnd Ha. assert (Ha' := Ha). rewrite fmap_app, not_elem_of_app in Ha'. destruct Ha' as [Ha1 Ha2].
  assert (Hnd2 : NoDup (n1 ++ (a, x) :: n2).*1).
  { rewrite fmap_app in Hnd |- *. apply NoDup_app in Hnd as (? & Hd & ?).
    apply NoDup_app. split_and!; [done| |by apply NoDup_cons].
    simpl. intros z Hz [->|Hz']%elem_of_cons; [done|]. by eapply Hd. }
  rewrite (seg_app n1 ((a, x) :: n2)) by done. simpl.
  rewrite <-insert_union_r by (by apply seg_None). f_equal.
  destruct n1 as [|[b y] n1 _] using rev_ind; [simpl; by rewrite map_empty_union|].
  rewrite last_snoc, (seg_app (n1 ++ [(b, y)]) n2) by done.
  rewrite insert_union_l, seg_set_next; [done|].
  rewrite fmap_app in Hnd. by apply NoDup_app in Hnd as (? & _ & _).
Qed.

Lemma sorted_add_loop_spec fuel (l : icLinkedList A) x n1 n2 ys :
  ListSpec.repr l (n1 ++ n2) → zlen (n1 ++ n2) < 65535 → (length n2 ≤ fuel)%nat →
  n2.*2 = Some <$> ys → (∀ y, y ∈ ys → compareFunc (Some x) (Some y) = Ok (cmp x y)) →
  ∃ l' n', sorted_add_loop fuel l (Some x) (hd_addr n2 None) (last_addr n1 None) compareFunc
      = Ok (true, Some l') ∧
    ListSpec.repr l' n' ∧ ll_cloned l' = ll_cloned l ∧
    n'.*2 = n1.*2 ++ (Some <$> insert_sorted x ys).
Proof.
  revert fuel n1 ys. induction n2 as [|[a z] n2 IH]; intros fuel n1 ys Hr Hlt Hf Hys Hc.
  - destruct ys; [|done]. rewrite app_nil_r in *.
    destruct (append_repr l n1 x Hr Hlt) as (b & l' & He & Hr' & Hcl).
    exists l', (n1 ++ [(b, Some x)]). rewrite fmap_app. destruct fuel; done.
  - destruct ys as [|y ys]; [done|]. simpl in Hys. injection Hys as -> Hys.
    change (list_fmap _ _ snd n2) with n2.*2 in Hys.
    change (list_fmap _ _ Some ys) with (Some <$> ys) in Hys.
    destruct fuel as [|fuel]; simpl in Hf; [lia|]. simpl.
    assert (Ha : ll_nodes l !! a = Some (mkNode (Some y) (hd_addr n2 None))).
    { destruct Hr as [_ -> ? _ _]. by apply seg_lookup. }
    rewrite Ha. simpl. rewrite Hc by (by left). simpl. case_decide as Hd.
    + destruct Hr as [Hf1 Hn Hnd Hs Hm]. rewrite Hn.
      pose proof (fresh_seg (n1 ++ (a, Some y) :: n2) None) as Hfr. set (b := fresh _) in *.
      unfold set_item, set_next. rewrite lookup_insert_eq. simpl.
      rewrite insert_insert_eq, lookup_insert_eq. simpl. rewrite insert_insert_eq.
      exists (mkList (u16 (ll_size l + 1)) (hd_addr (n1 ++ (b, Some x) :: (a, Some y) :: n2) None)
        (ll_cloned l) (seg (n1 ++ (b, Some x) :: (a, Some y) :: n2) None)),
        (n1 ++ (b, Some x) :: (a, Some y) :: n2).
      rewrite (seg_insert n1 ((a, Some y) :: n2) b (Some x)) by done. split_and!; [| |done|].
      * destruct n1 as [|[c w] n1 _] using rev_ind; [done|].
        rewrite last_addr_snoc, last_snoc.
        assert (b ≠ c).
        { intros ->. apply Hfr. rewrite !fmap_app. apply elem_of_app. left.
          apply elem_of_app. right. by left. }
        rewrite <-app_assoc in *. simpl in *.
        rewrite lookup_insert_ne, seg_lookup by done. simpl.
        rewrite (insert_insert_ne _ c b) by done. rewrite Hf1. by destruct n1 as [|[]].
      * rewrite <-(seg_insert n1 ((a, Some y) :: n2) b (Some x)) by done.
        rewrite length_app in Hlt. simpl in Hlt.
        split; simpl; try done.
        { rewrite fmap_app in Hnd, Hfr |- *. apply NoDup_app in Hnd as (? & Hdj & ?).
          apply not_elem_of_app in Hfr as [? ?].
          apply NoDup_app. split_and!; [done| |by apply NoDup_cons].
          intros w Hw [->|Hw']%elem_of_cons; [done|]. by eapply Hdj. }
        { rewrite Hs, !length_app. simpl. rewrite u16_small; lia. }
        { rewrite length_app. simpl. lia. }
      * rewrite fmap_app. simpl. f_equal. f_equal. f_equal. exact Hys.
    + destruct (IH fuel (n1 ++ [(a, Some y)]) ys) as (l' & n' & He & Hr' & Hcl & Hn').
      * by rewrite <-app_assoc.
      * by rewrite <-app_assoc.
      * lia.
      * done.
      * intros. apply Hc. by right.
      * rewrite last_addr_snoc in He. exists l', n'. rewrite fmap_app, <-app_assoc in Hn'. done.
Qed.

Lemma insert_sorted_perm x ys : insert_sorted x ys ≡ₚ x :: ys.
Proof.
  induction ys as [|y ys IH]; simpl; [done|]. case_decide; [done|].
  rewrite IH. apply Permutation_swap.
Qed.

(** Ordered insertion.  On a list of non-NULL items below the 16-bit
    limit, sortedLinkedListAdd returns true, keeps the list well formed and
    puts the item before the first element that does not compare smaller; no
    item is lost or duplicated; and if compareFunc is a total preorder and
    the list was sorted, it is sorted afterwards. *)
Theorem sortedLinkedListAdd_sorted (l : icLinkedList A) (x : A) (ys : list A) :
  lrepr l (Some <$> ys) → zlen ys < 65535 →
  (∀ y, y ∈ ys → compareFunc (Some x) (Some y) = Ok (cmp x y)) →
  (∀ a b, cmp a b ≤ 0 ∨ cmp b a ≤ 0) →
  (∀ a b c, cmp a b ≤ 0 → cmp b c ≤ 0 → cmp a c ≤ 0) →
  ∃ l', sortedLinkedListAdd (Some l) (Some x) compareFunc = Ok (true, Some l') ∧
    lrepr l' (Some <$> insert_sorted x ys) ∧ insert_sorted x ys ≡ₚ x :: ys ∧
    (StronglySorted (λ a b, cmp a b ≤ 0) ys →
     StronglySorted (λ a b, cmp a b ≤ 0) (insert_sorted x ys)).
Proof.
  intros (ns & Hr & Hns) Hlt Hc Htot Htr.
  assert (Hadd : ∃ l', sortedLinkedListAdd (Some l) (Some x) compareFunc = Ok (true, Some l') ∧
            lrepr l' (Some <$> insert_sorted x ys)).
  { assert (Hlen : length ns = length ys) by (by rewrite <-(length_fmap snd), <-Hns, length_fmap).
    unfold sortedLinkedListAdd. rewrite (repr_fuel _ _ Hr).
    destruct (sorted_add_loop_spec (length ns) l x [] ns ys) as (l' & n' & He & Hr' & _ & Hn');
      [done|simpl; lia|done|done|done|].
    exists l'. split; [|exists n'; by split].
    rewrite (r_first _ _ Hr). destruct ns as [|[a z] ns]; [done|]. exact He. }
  destruct Hadd as (l' & He & Hl'). exists l'.
  split_and!; [done|done|apply insert_sorted_perm|].
  intros Hs. clear -Hs Htot Htr. induction Hs as [|y ys Hs IH Hy]; simpl; [by repeat constructor|].
  case_decide as Hd.
  - constructor; [by constructor|]. constructor; [done|].
    rewrite Forall_forall in Hy |- *. intros z Hz. eauto.
  - constructor; [done|]. rewrite Forall_forall in Hy |- *. intros z Hz.
    rewrite insert_sorted_perm in Hz. apply elem_of_cons in Hz as [->|Hz]; [|auto].
    destruct (Htot x y); [lia|done].
Qed.

End Spec.

Lemma sortedLinkedListAdd_sorted_witness :
  let cmpf := λ x y : option Z, match x, y with Some a, Some b => Ok (a - b) | _, _ => Fault end in
  ∃ l', sortedLinkedListAdd (Some (ListTheorems.of_items [2; 5; 9])) (Some 6) cmpf = Ok (true, Some l') ∧
    lrepr l' [Some 2; Some 5; Some 6; Some 9] ∧
    StronglySorted (λ a b, a - b ≤ 0) [2; 5; 6; 9].
Proof.
  intros cmpf.
  destruct (sortedLinkedListAdd_sorted cmpf (λ a b, a - b) (ListTheorems.of_items [2; 5; 9]) 6 [2; 5; 9])
    as (l' & He & Hl & _ & Hs).
  - apply (ListTheorems.of_items_lrepr [2; 5; 9]). simpl. lia.
  - simpl. lia.
  - done.
  - intros. lia.
  - intros. lia.
  - exists l'. split; [exact He|]. split; [exact Hl|]. apply Hs.
    repeat constructor; lia.
Defined.

End SortedList.
