(* ===== verification/FifoBuffer.v ===== *)
(** * icFifoBuffer and icStringBuffer: growing byte buffers

    Models src/source/libs/types/c/src/icFifoBuffer.c and icStringBuffer.c.
    The allocated block [top] is the list of its bytes; [memcpy] into or out
    of it is checked against its length (and against overlap), so a heap
    overflow is a [Fault].  The 32-bit positions wrap as in C, [lacking] is
    the signed conversion of the code.  [fill] gives the indeterminate bytes
    of newly allocated memory and [oom] tells whether realloc fails. *)

From S2P Require Import Prelude.

Module Fifo.

Section Code.
Context (fill : nat → byte) (oom : bool).

Definition realloc (top : list byte) (newLen : Z) : list byte :=
  take (Z.to_nat newLen) top
  ++ (fill <$> seq (length top) (Z.to_nat newLen - length top)).

(** struct _icFifoBuff *)
Record icFifoBuff := mkFifo {
  top : list byte;
  readPos : Z;
  writePos : Z;
  fsize : Z;
  chunkSize : Z
}.

Definition fifoBuffGetPushAvailable (b : icFifoBuff) : Z := u32 (fsize b - writePos b).
Definition fifoBuffGetPullAvailable (b : icFifoBuff) : Z := u32 (writePos b - readPos b).

Definition needsCompress (b : icFifoBuff) : bool :=
  bool_decide (0 < fsize b) && bool_decide (fsize b `div` 2 < readPos b).

(** memcpy(top, top + readPos, ptrLen): the two areas must not overlap. *)
Definition compact (b : icFifoBuff) (newSize : Z) : outcome icFifoBuff :=
  let ptrLen := u32 (writePos b - readPos b) in
  bs ← read_bytes (top b) (readPos b) ptrLen;
  if decide (0 < ptrLen ∧ readPos b < ptrLen) then Fault
  else
    t ← write_bytes (top b) 0 bs;
    Ok (mkFifo t 0 ptrLen (fsize b) (chunkSize b)).

Definition ensureCapacity (b : icFifoBuff) (needSize : Z) : outcome (Z * icFifoBuff) :=
  let avail := fifoBuffGetPushAvailable b in
  let lacking := i32 (needSize - avail) in
  if decide (0 < lacking) then
    if needsCompress b then
      b' ← compact b needSize; Ok (fifoBuffGetPushAvailable b', b')
    else
      let newLen := u32 (fsize b + lacking + chunkSize b) in
      if oom then Ok (avail, b)
      else
        let b' := mkFifo (realloc (top b) newLen) (readPos b) (writePos b) newLen (chunkSize b) in
        Ok (fifoBuffGetPushAvailable b', b')
  else Ok (avail, b).

Definition fifoBuffCreate (initialSize : Z) : outcome icFifoBuff :=
  let initialSize := if decide (initialSize < 64) then 1024 else initialSize in
  '(_, b) ← ensureCapacity (mkFifo [] 0 0 0 initialSize) initialSize;
  Ok b.

Definition fifoBuffClone (orig : icFifoBuff) : outcome icFifoBuff :=
  copy ← fifoBuffCreate (fsize orig);
  bs ← read_bytes (top orig) 0 (fsize orig);
  t ← write_bytes (top copy) 0 bs;
  Ok (mkFifo t (readPos orig) (writePos orig) (fsize copy) (chunkSize orig)).

Definition fifoBuffClear (b : icFifoBuff) : icFifoBuff :=
  mkFifo (top b) 0 0 (fsize b) (chunkSize b).

Definition fifoBuffPush (b : icFifoBuff) (src : list byte) (srcSize : Z) : outcome icFifoBuff :=
  '(_, b) ← ensureCapacity b srcSize;
  bs ← read_bytes src 0 srcSize;
  t ← write_bytes (top b) (writePos b) bs;
  Ok (mkFifo t (readPos b) (u32 (writePos b + srcSize)) (fsize b) (chunkSize b)).

Definition fifoBuffPushByte (b : icFifoBuff) (x : byte) : outcome icFifoBuff :=
  fifoBuffPush b [x] 1.

(** The returned pointer is an offset in [top]. *)
Definition fifoBuffPushPointer (b : icFifoBuff) (numBytesNeeded : Z) : outcome (Z * icFifoBuff) :=
  '(_, b) ← ensureCapacity b numBytesNeeded; Ok (writePos b, b).

Definition fifoBuffAfterPushPointer (b : icFifoBuff) (numBytesAdded : Z) : icFifoBuff :=
  mkFifo (top b) (readPos b) (u32 (writePos b + numBytesAdded)) (fsize b) (chunkSize b).

Definition fifoBuffPull (b : icFifoBuff) (numBytes : Z) : outcome (Z * list byte * icFifoBuff) :=
  if decide (fifoBuffGetPullAvailable b < numBytes) then Ok (0, [], b)
  else
    bs ← read_bytes (top b) (readPos b) numBytes;
    Ok (numBytes, bs, mkFifo (top b) (u32 (readPos b + numBytes)) (writePos b) (fsize b) (chunkSize b)).

Definition fifoBuffPullPointer (b : icFifoBuff) (numBytesNeeded : Z) : option Z :=
  if decide (numBytesNeeded ≤ fifoBuffGetPullAvailable b) then Some (readPos b) else None.

Definition fifoBuffAfterPullPointer (b : icFifoBuff) (numBytesPulled : Z) : icFifoBuff :=
  mkFifo (top b) (u32 (readPos b + numBytesPulled)) (writePos b) (fsize b) (chunkSize b).

(** ** icStringBuffer: a FIFO buffer used as a string builder.  Strings are C
    strings; [strlen] is converted to the 32-bit size of fifoBuffPush. *)

Definition stringBufferCreate (initialSize : Z) : outcome icFifoBuff := fifoBuffCreate initialSize.

Definition stringBufferAppend (sb : option icFifoBuff) (s : option cstring)
    : outcome (option icFifoBuff) :=
  match sb, s with
  | Some b, Some s => b ← fifoBuffPush b s (u32 (strlen s)); Ok (Some b)
  | _, _ => Ok sb
  end.

Definition stringBufferAppendLength (sb : option icFifoBuff) (s : option cstring) (length : Z)
    : outcome (option icFifoBuff) :=
  match sb, s with
  | Some b, Some s =>
      if decide (0 < length) then b ← fifoBuffPush b s length; Ok (Some b) else Ok sb
  | _, _ => Ok sb
  end.

Definition COMMA_STRING : cstring := str ",".

Definition stringBufferAppendWithComma (sb : option icFifoBuff) (s : option cstring)
    (comaAtBeginning : bool) : outcome (option icFifoBuff) :=
  match sb, s with
  | Some b, Some s =>
      if comaAtBeginning then
        b ← (if decide (fifoBuffGetPullAvailable b ≠ 0)
             then fifoBuffPush b COMMA_STRING (u32 (strlen COMMA_STRING)) else Ok b);
        b ← fifoBuffPush b s (u32 (strlen s));
        Ok (Some b)
      else
        b ← fifoBuffPush b s (u32 (strlen s));
        b ← fifoBuffPush b COMMA_STRING (u32 (strlen COMMA_STRING));
        Ok (Some b)
  | _, _ => Ok sb
  end.

Definition stringBufferLength (sb : option icFifoBuff) : Z :=
  match sb with Some b => fifoBuffGetPullAvailable b | None => 0 end.

(** The bytes of the new string, before its terminating NUL. *)
Definition stringBufferToString (sb : option icFifoBuff) : outcome (option cstring) :=
  match sb with
  | Some b =>
      let available := fifoBuffGetPullAvailable b in
      ptr ← of_option (fifoBuffPullPointer b available);
      bs ← read_bytes (top b) ptr available;
      Ok (Some bs)
  | None => Ok None
  end.

(** ** Well-formed buffers and their contents *)

Record wf (b : icFifoBuff) : Prop := {
  wf_len : zlen (top b) = fsize b;
  wf_pos : 0 ≤ readPos b ≤ writePos b;
  wf_cap : writePos b ≤ fsize b;
  wf_size : fsize b < 2147483648;
  wf_chunk : 64 ≤ chunkSize b
}.

Definition contents (b : icFifoBuff) : list byte :=
  take (Z.to_nat (writePos b - readPos b)) (drop (Z.to_nat (readPos b)) (top b)).

(** Room for [n] more bytes: free space behind [writePos], or the block is
    going to be reallocated, or compacting frees enough. *)
Definition room (b : icFifoBuff) (n : Z) : Prop :=
  n ≤ fsize b - writePos b ∨ needsCompress b = false ∨
  zlen (contents b) + n ≤ fsize b.

#[global] Instance room_dec b n : Decision (room b n).
Proof. unfold room. apply _. Defined.

Lemma contents_length b : wf b → zlen (contents b) = writePos b - readPos b.
Proof.
  intros [Hl Hp Hc _ _]. unfold contents. rewrite length_take, length_drop. lia.
Qed.

Lemma pullAvailable_wf b : wf b → fifoBuffGetPullAvailable b = writePos b - readPos b.
Proof. intros [? ? ? ? ?]. unfold fifoBuffGetPullAvailable. apply u32_small. lia. Qed.

Lemma pushAvailable_wf b : wf b → fifoBuffGetPushAvailable b = fsize b - writePos b.
Proof. intros [? ? ? ? ?]. unfold fifoBuffGetPushAvailable. apply u32_small. lia. Qed.

Lemma needsCompress_true b :
  needsCompress b = true ↔ 0 < fsize b ∧ fsize b `div` 2 < readPos b.
Proof. unfold needsCompress. rewrite andb_true_iff, !bool_decide_eq_true. done. Qed.

Lemma read_bytes_contents b : wf b →
  read_bytes (top b) (readPos b) (writePos b - readPos b) = Ok (contents b).
Proof.
  intros [? ? ? ? ?]. unfold read_bytes, contents. rewrite decide_True by lia. done.
Qed.

Lemma contents_front bs rest n k : contents (mkFifo (bs ++ rest) 0 (zlen bs) n k) = bs.
Proof. unfold contents. simpl. by rewrite drop_0, Z.sub_0_r, Nat2Z.id, take_app_length. Qed.

Lemma compact_wf b n :
  wf b → needsCompress b = true →
  ∃ b', compact b n = Ok b' ∧ wf b' ∧ contents b' = contents b ∧
    writePos b' = zlen (contents b) ∧ fsize b' = fsize b ∧ readPos b' = 0 ∧
    chunkSize b' = chunkSize b.
Proof.
  intros Hwf Hn. pose proof (contents_length b Hwf) as Hcl. pose proof Hwf as [Hl Hp Hc Hs Hk].
  apply needsCompress_true in Hn as [H0 Hn]. unfold compact.
  rewrite u32_small by lia. rewrite read_bytes_contents by done. simpl.
  assert (writePos b - readPos b ≤ readPos b).
  { pose proof (Z.div_mod (fsize b) 2 ltac:(lia)). pose proof (Z.mod_pos_bound (fsize b) 2 ltac:(lia)). lia. }
  rewrite decide_False by lia. unfold write_bytes. rewrite decide_True by lia. simpl.
  rewrite <-Hcl. eexists. split; [done|].
  split_and!; [|apply contents_front|done..].
  split; simpl; try lia. rewrite length_app, length_drop. lia.
Qed.

Lemma realloc_length t n : 0 ≤ n → zlen (realloc t n) = n.
Proof.
  intros. unfold realloc. rewrite length_app, length_take, length_fmap, length_seq. lia.
Qed.

Lemma contents_realloc b n :
  wf b → fsize b ≤ n → contents (mkFifo (realloc (top b) n) (readPos b) (writePos b) n (chunkSize b))
  = contents b.
Proof.
  intros [Hl Hp Hc Hs Hk] Hn. unfold contents, realloc. simpl.
  rewrite (take_ge (top b)) by lia. rewrite drop_app_le by lia. rewrite take_app_le; [done|].
  rewrite length_drop. lia.
Qed.

(** What ensureCapacity guarantees on a well-formed buffer. *)
Lemma ensureCapacity_spec b n :
  wf b → oom = false → 0 ≤ n → fsize b + n + chunkSize b < 2147483648 →
  ∃ a b', ensureCapacity b n = Ok (a, b') ∧ wf b' ∧ contents b' = contents b ∧
    fsize b ≤ fsize b' ≤ fsize b + n + chunkSize b ∧ chunkSize b' = chunkSize b ∧
    (room b n ↔ n ≤ fsize b' - writePos b') ∧ (readPos b = 0 → readPos b' = 0).
Proof.
  intros Hwf Hoom Hn Hmax. pose proof Hwf as [Hl Hp Hc Hs Hk].
  unfold ensureCapacity. rewrite pushAvailable_wf by done.
  assert (Hlack : 0 < i32 (n - (fsize b - writePos b)) ↔ fsize b - writePos b < n).
  { unfold i32. destruct (decide (fsize b - writePos b ≤ n)).
    - rewrite u32_small by lia. case_decide; lia.
    - assert (u32 (n - (fsize b - writePos b)) = n - (fsize b - writePos b) + 4294967296) as ->.
      { unfold u32. rewrite <-(Z_mod_plus_full _ 1), Z.mod_small; lia. }
      case_decide; lia. }
  case_decide as Hd; apply Hlack in Hd || (apply (not_iff_compat Hlack) in Hd).
  - destruct (needsCompress b) eqn:Hnc.
    + destruct (compact_wf b n Hwf Hnc) as (b' & -> & Hwf' & Hct & Hw & Hsz & Hr0 & Hck). simpl.
      eexists _, b'. split; [done|]. split_and!; try done; try lia.
      * unfold room. rewrite Hnc, Hw, Hsz. pose proof (contents_length b Hwf). split; lia.
    + rewrite Hoom.
      assert (Hi : i32 (n - (fsize b - writePos b)) = n - (fsize b - writePos b)).
      { apply i32_small. lia. }
      rewrite Hi, u32_small by lia. eexists _, _. split; [done|]. simpl.
      split_and!; try done; try lia.
      * split; simpl; try lia. apply realloc_length. lia.
      * apply contents_realloc; [done|lia].
      * unfold room. rewrite Hnc. split; [lia|auto].
  - eexists _, b. split; [done|]. split_and!; try done; try lia. unfold room. split; lia.
Qed.

Lemma read_all (src : list byte) : read_bytes src 0 (zlen src) = Ok src.
Proof.
  unfold read_bytes. rewrite decide_True by lia. by rewrite drop_0, Nat2Z.id, take_ge.
Qed.

(** Writing behind [writePos] appends to the contents. *)
Lemma write_contents b src :
  wf b → zlen src ≤ fsize b - writePos b →
  ∃ b', (t ← write_bytes (top b) (writePos b) src;
         Ok (mkFifo t (readPos b) (u32 (writePos b + zlen src)) (fsize b) (chunkSize b))) = Ok b' ∧
    wf b' ∧ contents b' = contents b ++ src ∧ fsize b' = fsize b ∧ chunkSize b' = chunkSize b ∧
    readPos b' = readPos b.
Proof.
  intros Hwf Hroom. pose proof (contents_length b Hwf) as Hcl. pose proof Hwf as [Hl Hp Hc Hs Hk].
  unfold write_bytes. rewrite decide_True by lia. simpl. rewrite u32_small by lia.
  eexists. split; [done|]. split_and!; try done.
  - split; simpl; try lia. rewrite !length_app, length_take, length_drop. lia.
  - unfold contents at 1. simpl.
    rewrite drop_app_le by (rewrite length_take; lia).
    replace (drop (Z.to_nat (readPos b)) (take (Z.to_nat (writePos b)) (top b))) with (contents b).
    + rewrite (app_assoc _ src). rewrite take_app_le by (rewrite length_app; lia).
      apply take_ge. rewrite length_app. lia.
    + unfold contents. rewrite take_drop_commute. do 2 f_equal. lia.
Qed.

Lemma push_room b src :
  wf b → oom = false → fsize b + zlen src + chunkSize b < 2147483648 → room b (zlen src) →
  ∃ b', fifoBuffPush b src (zlen src) = Ok b' ∧ wf b' ∧ contents b' = contents b ++ src ∧
    fsize b' ≤ fsize b + zlen src + chunkSize b ∧ chunkSize b' = chunkSize b ∧
    (readPos b = 0 → readPos b' = 0).
Proof.
  intros Hwf Ho Hm Hr. unfold fifoBuffPush.
  destruct (ensureCapacity_spec b (zlen src)) as (a & b1 & -> & Hwf1 & Hc1 & Hs1 & Hk1 & Hr1 & Hp1);
    [done|done|lia|done|].
  simpl. rewrite read_all. simpl. apply Hr1 in Hr.
  destruct (write_contents b1 src Hwf1 Hr) as (b' & -> & Hwf' & Hc' & Hs' & Hk' & Hp').
  exists b'. split_and!; [done|done|congruence|lia|lia|]. intros. rewrite Hp'. auto.
Qed.

(** Buffers that are only appended to are never compacted. *)
Lemma room_unread b n : wf b → readPos b = 0 → room b n.
Proof.
  intros [Hl _ _ _ _] H0. right. left. unfold needsCompress. rewrite H0.
  apply andb_false_intro2. apply bool_decide_eq_false.
  pose proof (Z.div_pos (fsize b) 2 ltac:(lia) ltac:(lia)). lia.
Qed.

Lemma create_spec n :
  oom = false → n < 536870912 →
  ∃ b, fifoBuffCreate n = Ok b ∧ wf b ∧ contents b = [] ∧ readPos b = 0 ∧
    chunkSize b = (if decide (n < 64) then 1024 else n) ∧
    fsize b = 2 * (if decide (n < 64) then 1024 else n).
Proof.
  intros Ho Hn. unfold fifoBuffCreate.
  set (k := if decide (n < 64) then 1024 else n).
  assert (64 ≤ k < 536870912) by (unfold k; case_decide; lia).
  unfold ensureCapacity, fifoBuffGetPushAvailable. simpl.
  change (u32 (0 - 0)) with 0. rewrite Z.sub_0_r, i32_small by lia. rewrite decide_True by lia.
  simpl. rewrite Ho. rewrite (u32_small (0 + k + k)) by lia. simpl.
  eexists. split; [done|]. split_and!; simpl; try done; try lia.
  split; simpl; try lia. rewrite realloc_length; lia.
Qed.

(** ** Theorems *)

(** Pushing.  On a well-formed buffer fifoBuffPush appends the source
    bytes to the unread contents exactly when there is room for them behind
    the write position, after a reallocation, or after compacting; in the
    remaining case (the read area is larger than half of the block, so the
    code compacts, and compacting does not free enough) the copy writes past
    the end of the block. *)
Theorem fifoBuffPush_spec (b : icFifoBuff) (src : list byte) :
  wf b → oom = false → fsize b + zlen src + chunkSize b < 2147483648 →
  if decide (room b (zlen src)) then
    ∃ b', fifoBuffPush b src (zlen src) = Ok b' ∧ wf b' ∧ contents b' = contents b ++ src
  else fifoBuffPush b src (zlen src) = Fault.
Proof.
  intros Hwf Ho Hm. case_decide as Hr.
  - destruct (push_room b src) as (b' & ? & ? & ? & _); [done..|]. by exists b'.
  - unfold fifoBuffPush.
    destruct (ensureCapacity_spec b (zlen src)) as (a & b1 & -> & Hwf1 & _ & _ & _ & Hr1 & _);
      [done|done|lia|done|].
    simpl. rewrite read_all. simpl. unfold write_bytes. rewrite decide_False; [done|].
    destruct Hwf1. rewrite Hr1 in Hr. lia.
Qed.

(** Pulling.  fifoBuffPull hands out nothing and changes nothing when
    fewer bytes are buffered than requested; otherwise it returns the oldest
    bytes, in order, and leaves the rest; the two can never interleave a byte
    out of order. *)
Theorem fifoBuffPull_spec (b : icFifoBuff) (n : Z) :
  wf b → 0 ≤ n →
  ∃ k bs b', fifoBuffPull b n = Ok (k, bs, b') ∧ wf b' ∧
    bs ++ contents b' = contents b ∧ k = zlen bs ∧
    k = (if decide (n ≤ zlen (contents b)) then n else 0).
Proof.
  intros Hwf Hn. pose proof (contents_length b Hwf) as Hcl. pose proof Hwf as [Hl Hp Hc Hs Hk].
  unfold fifoBuffPull. rewrite pullAvailable_wf, <-Hcl by done.
  case_decide as Hd.
  - exists 0, [], b. split_and!; try done. rewrite decide_False; [done|lia].
  - rewrite (decide_True (P := n ≤ _)) by lia.
    unfold read_bytes. rewrite decide_True by lia. simpl. rewrite u32_small by lia.
    eexists _, _, _. split; [done|]. split_and!.
    + split; simpl; lia.
    + unfold contents. simpl.
      replace (Z.to_nat (writePos b - readPos b))
        with (Z.to_nat n + Z.to_nat (writePos b - (readPos b + n)))%nat by lia.
      rewrite <-take_take_drop, drop_drop. by rewrite <-Z2Nat.inj_add by lia.
    + rewrite length_take, length_drop. lia.
    + done.
Qed.

(** Cloning gives an independent well-formed buffer with the same unread
    bytes. *)
Lemma fifoBuffClone_spec (b : icFifoBuff) :
  wf b → oom = false → 64 ≤ fsize b < 536870912 →
  ∃ c, fifoBuffClone b = Ok c ∧ wf c ∧ contents c = contents b.
Proof.
  intros Hwf Ho Hb. pose proof Hwf as [Hl Hp Hc Hs Hk]. unfold fifoBuffClone.
  destruct (create_spec (fsize b) Ho) as (c & -> & Hwc & _ & _ & _ & Hsz); [lia|]. simpl.
  rewrite decide_False in Hsz by lia. destruct Hwc as [Hlc _ _ _ _].
  replace (read_bytes (top b) 0 (fsize b)) with (Ok (top b)) by (rewrite <-Hl; by rewrite read_all).
  simpl. unfold write_bytes. rewrite decide_True by lia. simpl.
  eexists. split; [done|]. split.
  - split; simpl; try lia. rewrite length_app, length_drop. lia.
  - unfold contents. simpl. rewrite drop_app_le by lia. apply take_app_le.
    rewrite length_drop. lia.
Qed.

(** A run of string appends on one buffer. *)
Inductive sbcall :=
  | SBAppend (s : cstring)
  | SBAppendLength (s : cstring) (n : Z)
  | SBComma (s : cstring) (first : bool).

Definition run_sbcall (sb : option icFifoBuff) (c : sbcall) : outcome (option icFifoBuff) :=
  match c with
  | SBAppend s => stringBufferAppend sb (Some s)
  | SBAppendLength s n => stringBufferAppendLength sb (Some s) n
  | SBComma s first => stringBufferAppendWithComma sb (Some s) first
  end.

(** The text after the call, given the text before it. *)
Definition spec_sbcall (t : cstring) (c : sbcall) : cstring :=
  match c with
  | SBAppend s => t ++ s
  | SBAppendLength s n => t ++ take (Z.to_nat n) s
  | SBComma s true => (match t with [] => [] | _ => t ++ COMMA_STRING end) ++ s
  | SBComma s false => t ++ s ++ COMMA_STRING
  end.

(** Bytes a call may add, and that a partial append stays in its string. *)
Definition sbcall_cost (c : sbcall) : Z :=
  match c with SBAppend s | SBAppendLength s _ | SBComma s _ => zlen s + 1 end.
Definition sbcall_ok (c : sbcall) : Prop :=
  match c with SBAppendLength s n => 0 ≤ n ≤ zlen s | _ => True end.

(** An append-only buffer: well formed, never read, block bounded by the
    bytes pushed so far and two chunks per push. *)
Definition text (b : icFifoBuff) (t : cstring) (limit : Z) : Prop :=
  wf b ∧ readPos b = 0 ∧ contents b = t ∧ fsize b + limit < 2147483648.

Lemma text_push b t s limit :
  oom = false → text b t (limit + zlen s + chunkSize b) → 0 ≤ limit →
  ∃ b', fifoBuffPush b s (u32 (zlen s)) = Ok b' ∧ text b' (t ++ s) limit ∧
    chunkSize b' = chunkSize b.
Proof.
  intros Ho (Hwf & H0 & Hc & Hm) Hl. pose proof Hwf as [? ? ? ? ?].
  rewrite u32_small by lia.
  destruct (push_room b s Hwf Ho) as (b' & -> & Hwf' & Hc' & Hs' & Hk' & Hr'); [lia| |].
  { by apply room_unread. }
  exists b'. split; [done|]. split; [|done]. split_and!; [done|auto|congruence|lia].
Qed.

Lemma text_push_prefix b t s n limit :
  oom = false → text b t (limit + n + chunkSize b) → 0 ≤ limit → 0 ≤ n ≤ zlen s →
  ∃ b', fifoBuffPush b s n = Ok b' ∧ text b' (t ++ take (Z.to_nat n) s) limit ∧
    chunkSize b' = chunkSize b.
Proof.
  intros Ho Ht Hl Hn. set (s' := take (Z.to_nat n) s).
  assert (Hlen : zlen s' = n) by (unfold s'; rewrite length_take; lia).
  destruct (text_push b t s' limit Ho) as (b' & He & Ht' & Hk'); [by rewrite Hlen|done|].
  exists b'. split; [|done]. rewrite <-He, Hlen.
  destruct Ht as (Hwf & H0 & Hc & Hm). pose proof Hwf as [? ? ? ? ?].
  rewrite u32_small by lia. unfold fifoBuffPush.
  destruct (ensureCapacity b n) as [[a b1]| |]; simpl; [|done..].
  unfold read_bytes. rewrite !decide_True by lia. simpl. unfold s'.
  by rewrite !drop_0, take_take, Nat.min_id.
Qed.

Lemma text_weaken b t l1 l2 : text b t l1 → l2 ≤ l1 → text b t l2.
Proof. intros (? & ? & ? & ?) ?. split_and!; [done..|lia]. Qed.

Lemma text_create n limit :
  oom = false → n < 536870912 → 2 * Z.max n 1024 + limit < 2147483648 →
  ∃ b, stringBufferCreate n = Ok b ∧ text b [] limit ∧ chunkSize b ≤ Z.max n 1024.
Proof.
  intros Ho Hn Hm. destruct (create_spec n Ho Hn) as (b & He & Hwf & Hc & Hr & Hk & Hs).
  exists b. split; [done|]. split; [split_and!; [done..|]|]; rewrite ?Hs, ?Hk; case_decide; lia.
Qed.

Lemma text_toString b t limit : text b t limit → stringBufferToString (Some b) = Ok (Some t).
Proof.
  intros (Hwf & H0 & Hc & _). simpl. rewrite pullAvailable_wf by done.
  unfold fifoBuffPullPointer. rewrite pullAvailable_wf by done. rewrite decide_True by lia. simpl.
  rewrite read_bytes_contents by done. simpl. by rewrite Hc.
Qed.

Lemma text_length b t limit : text b t limit → stringBufferLength (Some b) = zlen t.
Proof.
  intros (Hwf & H0 & Hc & _). simpl. rewrite pullAvailable_wf by done.
  rewrite <-Hc. by rewrite contents_length.
Qed.

Lemma text_call b t c limit :
  oom = false → sbcall_ok c → 0 ≤ limit →
  text b t (limit + sbcall_cost c + 2 * chunkSize b) →
  ∃ b', run_sbcall (Some b) c = Ok (Some b') ∧ text b' (spec_sbcall t c) limit ∧
    chunkSize b' = chunkSize b.
Proof.
  intros Ho Hok Hl Ht. assert (64 ≤ chunkSize b) by (destruct Ht as [[] _]; done).
  destruct c as [s|s n|s []]; simpl in *; unfold strlen.
  - destruct (text_push b t s limit Ho) as (b' & -> & Ht' & Hk'); [eapply text_weaken; [done|lia]|done|].
    by exists b'.
  - destruct (decide (0 < n)).
    + destruct (text_push_prefix b t s n limit Ho) as (b' & -> & Ht' & Hk');
        [eapply text_weaken; [done|lia]|done|done|]. by exists b'.
    + exists b. split_and!; [done| |done].
      replace n with 0 by lia. rewrite app_nil_r. eapply text_weaken; [done|lia].
  - pose proof (text_length _ _ _ Ht) as Hlen. simpl in Hlen. rewrite Hlen.
    destruct t as [|x t].
    + simpl. destruct (text_push b [] s limit Ho) as (b' & -> & Ht' & Hk');
        [eapply text_weaken; [done|lia]|done|]. by exists b'.
    + rewrite decide_True by (simpl; lia).
      destruct (text_push b (x :: t) COMMA_STRING (limit + zlen s + chunkSize b) Ho)
        as (b1 & -> & Ht1 & Hk1); [eapply text_weaken; [done|simpl; lia]|lia|]. simpl.
      destruct (text_push b1 ((x :: t) ++ COMMA_STRING) s limit Ho) as (b' & -> & Ht' & Hk'); [by rewrite Hk1|done|].
      exists b'. split_and!; [done|done|congruence].
  - destruct (text_push b t s (limit + 1 + chunkSize b) Ho) as (b1 & -> & Ht1 & Hk1);
      [eapply text_weaken; [done|lia]|lia|]. simpl.
    destruct (text_push b1 (t ++ s) COMMA_STRING limit Ho) as (b' & He & Ht' & Hk');
      [rewrite Hk1; eapply text_weaken; [done|simpl; lia]|done|].
    simpl in He. rewrite He. exists b'. rewrite <-app_assoc in Ht'.
    split_and!; [done|done|congruence].
Qed.

Definition total_cost (cs : list sbcall) : Z := foldr (λ c n, sbcall_cost c + n) 0 cs.

Lemma sbcall_cost_pos c : 0 ≤ sbcall_cost c.
Proof. destruct c; simpl; lia. Qed.

Lemma total_cost_pos cs : 0 ≤ total_cost cs.
Proof. induction cs as [|c cs IH]; simpl; [lia|]. pose proof (sbcall_cost_pos c). lia. Qed.

Lemma text_calls b t cs limit :
  oom = false → Forall sbcall_ok cs → 0 ≤ limit →
  text b t (limit + total_cost cs + 2 * chunkSize b * zlen cs) →
  ∃ b', foldM (λ c sb, run_sbcall sb c) cs (Some b) = Ok (Some b') ∧
    text b' (foldl spec_sbcall t cs) limit.
Proof.
  intros Ho Hok Hl. revert b t. induction Hok as [|c cs Hc _ IH]; intros b t Ht; cbn [foldM foldl].
  { exists b. split; [done|]. eapply text_weaken; [done|simpl; lia]. }
  assert (64 ≤ chunkSize b) by (destruct Ht as [[] _]; done).
  cbn [total_cost foldr length] in Ht. fold (total_cost cs) in Ht. pose proof (total_cost_pos cs).
  destruct (text_call b t c (limit + total_cost cs + 2 * chunkSize b * zlen cs) Ho Hc)
    as (b1 & -> & Ht1 & Hk1); [nia|eapply text_weaken; [done|nia]|].
  simpl. apply IH. by rewrite Hk1.
Qed.

(** A string buffer is append-only, so it is never compacted and never
    overruns its block: creating one and making any sequence of appends,
    partial appends and comma-separated appends (within 2^31 bytes of growth)
    yields exactly the concatenated text, with the comma rules of
    stringBufferAppendWithComma, and its length. *)
Theorem stringBuffer_builds_text (n : Z) (cs : list sbcall) :
  oom = false → Forall sbcall_ok cs → 0 ≤ n →
  2 * Z.max n 1024 * (zlen cs + 1) + total_cost cs < 536870912 →
  ∃ b b', stringBufferCreate n = Ok b ∧
    foldM (λ c sb, run_sbcall sb c) cs (Some b) = Ok (Some b') ∧
    stringBufferToString (Some b') = Ok (Some (foldl spec_sbcall [] cs)) ∧
    stringBufferLength (Some b') = zlen (foldl spec_sbcall [] cs).
Proof.
  intros Ho Hok Hn Hm. pose proof (total_cost_pos cs).
  destruct (text_create n (total_cost cs + 2 * Z.max n 1024 * zlen cs) Ho) as (b & Hb & Ht & Hk);
    [nia|nia|].
  destruct (text_calls b [] cs 0 Ho Hok) as (b' & He & Ht'); [lia|eapply text_weaken; [done|nia]|].
  exists b, b'. split_and!; [done|done|by eapply text_toString|by eapply text_length].
Qed.

End Code.

(** ** Witnesses *)

Definition zeros (_ : nat) : byte := ascii_of_nat 0.

(** A buffer of 128 bytes with 90 of 100 bytes read. *)
Definition half_read : icFifoBuff :=
  mkFifo (replicate 128 (ascii_of_nat 7)) 90 100 128 64.

Lemma half_read_wf : wf half_read.
Proof. split; simpl; lia. Qed.

Lemma fifoBuffPush_spec_witness :
  (∃ b', fifoBuffPush zeros false half_read (str "abc") 3 = Ok b' ∧ wf b' ∧
     contents b' = replicate 10 (ascii_of_nat 7) ++ str "abc") ∧
  fifoBuffPush zeros false half_read (replicate 120 (ascii_of_nat 1)) 120 = Fault.
Proof.
  split.
  - pose proof (fifoBuffPush_spec zeros false half_read (str "abc") half_read_wf eq_refl) as H.
    rewrite decide_True in H; [apply H; vm_compute; reflexivity|].
    left. vm_compute. discriminate.
  - pose proof (fifoBuffPush_spec zeros false half_read (replicate 120 (ascii_of_nat 1))
      half_read_wf eq_refl) as H.
    rewrite decide_False in H; [apply H; vm_compute; reflexivity|].
    intros [Hr|[Hr|Hr]]; vm_compute in Hr; congruence.
Defined.

Lemma fifoBuffPull_spec_witness :
  ∃ k bs b', fifoBuffPull half_read 4 = Ok (k, bs, b') ∧ wf b' ∧
    bs ++ contents b' = contents half_read ∧ k = zlen bs ∧ k = 4.
Proof. apply (fifoBuffPull_spec half_read 4 half_read_wf). lia. Defined.

Lemma stringBuffer_builds_text_witness :
  ∃ b b', stringBufferCreate zeros false 10 = Ok b ∧
    foldM (λ c sb, run_sbcall zeros false sb c)
      [SBComma (str "a") true; SBComma (str "b") true; SBAppendLength (str "cde") 2] (Some b)
      = Ok (Some b') ∧
    stringBufferToString (Some b') = Ok (Some (str "a,bcd")) ∧
    stringBufferLength (Some b') = 5.
Proof.
  apply (stringBuffer_builds_text zeros false 10
    [SBComma (str "a") true; SBComma (str "b") true; SBAppendLength (str "cde") 2]).
  - reflexivity.
  - repeat constructor; simpl; lia.
  - lia.
  - vm_compute. reflexivity.
Defined.

End Fifo.
