(* ===== verification/HashMap.v ===== *)
(** * icHashMap: the bucket hash map of libs/types

    Models src/source/libs/types/c/src/icHashMap.c on top of the linked list
    of LinkedList.v.  A map is an array of 31 buckets, each NULL or a list of
    pointers to [mapItem]s; the [mapItem]s live in a heap [ih] of their own,
    because a shallow clone shares them with its source.  A key is a pointer
    to bytes ([block]: address and contents, which the map's contract requires
    to stay unchanged while the key is in the map); comparing or hashing more
    bytes than the block has is a [Fault].  Values are pointers of a type [V]
    with an address.  What the map frees, or hands to the caller's free
    helper, is part of the result. *)

From S2P Require Import Prelude LinkedList.
Import LinkedList.

Module HashMap.

(** A pointer to a block of bytes. *)
Record block := mkBlock { b_addr : addr; b_bytes : list byte }.

#[global] Instance block_eq_dec : EqDecision block.
Proof. solve_decision. Defined.

Definition NUM_BUCKETS : Z := 31.

(** Memory handed to the caller's helper, or to free(). *)
Inductive release :=
  | RelHelper (key value : option addr)
  | RelFree (a : addr).

Definition rel_free (a : option addr) : list release :=
  match a with Some a => [RelFree a] | None => [] end.

(** createSeed: the current time in microseconds, as an unsigned int. *)
Definition createSeed (tv_sec tv_usec : Z) : Z := u32 (tv_sec * 1000000 + tv_usec).

Fixpoint hash_loop (keyLen : nat) (ptr : list byte) (hash : Z) : outcome Z :=
  match keyLen with
  | O => Ok hash
  | S n => match ptr with
           | [] => Fault
           | b :: ptr' => hash_loop n ptr' (u32 (hash * 33 + byteZ b))
           end
  end.

Definition defaultHash (key : block) (keyLen seed : Z) : outcome Z :=
  hash_loop (Z.to_nat keyLen) (b_bytes key) seed.

Definition assignedBucket (hash : Z) : Z := u16 (hash `mod` NUM_BUCKETS).

(** memcmp(a, b, n) == 0 *)
Definition memcmp_eq (a b : list byte) (n : Z) : outcome bool :=
  if decide (n ≤ zlen a ∧ n ≤ zlen b)
  then Ok (bool_decide (take (Z.to_nat n) a = take (Z.to_nat n) b))
  else Fault.

Section Code.
Context {V : Type} (vaddr : V → addr).

(** struct _mapItem *)
Record mapItem := mkItem {
  mi_key : option block;
  mi_keyLen : Z;
  mi_value : option V
}.

(** struct _icHashMap *)
Record icHashMap := mkMap {
  hm_count : Z;
  hm_seed : Z;
  hm_buckets : list (option (icLinkedList addr));
  hm_cloned : bool
}.

(** struct _icHashMapIterator; its [head] is the map the operations get. *)
Record icHashMapIterator := mkMapIter {
  hi_currBucket : Z;
  hi_currIterator : option icLinkedListIterator;
  hi_prevItem : option addr
}.

Implicit Types (ih : gmap addr mapItem) (map : icHashMap).

Definition bucket map (b : Z) : option (icLinkedList addr) := mjoin (hm_buckets map !! Z.to_nat b).

Definition set_bucket map (b : Z) (l : option (icLinkedList addr)) : icHashMap :=
  mkMap (hm_count map) (hm_seed map) (<[Z.to_nat b := l]> (hm_buckets map)) (hm_cloned map).

Definition set_count map (n : Z) : icHashMap :=
  mkMap n (hm_seed map) (hm_buckets map) (hm_cloned map).

Definition hashMapCreate (tv_sec tv_usec : Z) : icHashMap :=
  mkMap 0 (createSeed tv_sec tv_usec) (replicate (Z.to_nat NUM_BUCKETS) None) false.

Definition createItem ih : addr * gmap addr mapItem :=
  let a := fresh (dom ih) in (a, <[a := mkItem None 0 None]> ih).

(** The searchContainer is the pair of key and length. *)
Definition searchLinkedList ih (searchVal : block * Z) (item : option addr) : outcome bool :=
  a ← of_option item;
  node ← of_option (ih !! a);
  if decide (mi_keyLen node ≠ searchVal.2) then Ok false
  else
    k ← of_option (mi_key node);
    memcmp_eq (b_bytes searchVal.1) (b_bytes k) (mi_keyLen node).

Definition searchBucket ih map (b : Z) (key : block) (keyLen : Z) : outcome (option addr) :=
  linkedListFind (bucket map b) (Some (key, keyLen)) (Some (searchLinkedList ih)).

Definition searchHashMap ih (map : option icHashMap) (key : option block) (keyLen : Z)
    : outcome (option addr) :=
  match map, key with
  | Some m, Some k =>
      hash ← defaultHash k keyLen (hm_seed m);
      let b := assignedBucket hash in
      match bucket m b with
      | Some _ => searchBucket ih m b k keyLen
      | None => Ok None
      end
  | _, _ => Ok None
  end.

Definition hashMapPut ih (map : option icHashMap) (key : option block) (keyLen : Z)
    (value : option V) : outcome (bool * gmap addr mapItem * option icHashMap) :=
  match map, key with
  | Some m, Some k =>
      hash ← defaultHash k keyLen (hm_seed m);
      let b := assignedBucket hash in
      '(doAdd, m) ← match bucket m b with
                    | None => Ok (true, set_bucket m b (Some linkedListCreate))
                    | Some _ =>
                        found ← searchBucket ih m b k keyLen;
                        Ok (match found with Some _ => false | None => true end, m)
                    end;
      if doAdd : bool then
        let '(node, ih) := createItem ih in
        let ih := <[node := mkItem (Some k) keyLen value]> ih in
        '(_, l) ← linkedListAppend (bucket m b) (Some node);
        let m := set_bucket m b l in
        Ok (true, ih, Some (set_count m (u16 (hm_count m + 1))))
      else Ok (false, ih, Some m)
  | _, _ => Ok (false, ih, map)
  end.

Definition hashMapGet ih (map : option icHashMap) (key : option block) (keyLen : Z)
    : outcome (option V) :=
  item ← searchHashMap ih map key keyLen;
  match item with
  | Some a => it ← of_option (ih !! a); Ok (mi_value it)
  | None => Ok None
  end.

Definition hashMapContains ih (map : option icHashMap) (key : option block) (keyLen : Z)
    : outcome bool :=
  item ← searchHashMap ih map key keyLen;
  Ok (match item with Some _ => true | None => false end).

Definition destroyItem ih (item : addr) (helper : bool) : outcome (list release * gmap addr mapItem) :=
  it ← of_option (ih !! item);
  let key := b_addr <$> mi_key it in
  let value := vaddr <$> mi_value it in
  let rel := if helper then [RelHelper key value]
             else (if decide (key ≠ value) then rel_free value else []) ++ rel_free key in
  Ok (rel, delete item ih).

Definition hashMapDelete ih (map : option icHashMap) (key : option block) (keyLen : Z)
    (helper : bool) : outcome (bool * list release * gmap addr mapItem * option icHashMap) :=
  match map, key with
  | Some m, Some k =>
      hash ← defaultHash k keyLen (hm_seed m);
      let b := assignedBucket hash in
      match bucket m b with
      | None => Ok (false, [], ih, map)
      | Some _ =>
          found ← searchBucket ih m b k keyLen;
          match found with
          | None => Ok (false, [], ih, map)
          | Some item =>
              '(_, _, l) ← linkedListDelete (bucket m b) (Some (k, keyLen)) (Some (searchLinkedList ih));
              let m := set_bucket m b l in
              '(rel, ih) ← (if hm_cloned m then Ok ([], ih) else destroyItem ih item helper);
              let m := if decide (0 < hm_count m) then set_count m (hm_count m - 1) else m in
              Ok (true, rel, ih, Some m)
          end
      end
  | _, _ => Ok (false, [], ih, map)
  end.

Definition hashMapCount (map : option icHashMap) : Z :=
  match map with Some m => hm_count m | None => 0 end.

Definition hashMapIsClone (map : option icHashMap) : bool :=
  match map with Some m => hm_cloned m | None => false end.

(** The while loop of hashMapClear over one bucket. *)
Fixpoint clear_bucket_loop (fuel : nat) (cloned helper : bool) ih (l : icLinkedList addr)
    (it : option icLinkedListIterator) : outcome (list release * gmap addr mapItem * icLinkedList addr) :=
  if linkedListIteratorHasNext it then
    match fuel with
    | O => Hang
    | S fuel' =>
        '(next, it) ← linkedListIteratorGetNext l it;
        '(_, _, l, it) ← linkedListIteratorDeleteCurrent l it;
        '(rel, ih) ← (if cloned then Ok ([], ih)
                      else next ← of_option next; destroyItem ih next helper);
        '(rels, ih, l) ← clear_bucket_loop fuel' cloned helper ih l it;
        Ok (rel ++ rels, ih, l)
    end
  else Ok ([], ih, l).

(** The for loop of hashMapClear over the buckets. *)
Fixpoint clear_loop (cloned helper : bool) ih (bs : list (option (icLinkedList addr)))
    : outcome (list release * gmap addr mapItem * list (option (icLinkedList addr))) :=
  match bs with
  | [] => Ok ([], ih, [])
  | None :: bs' =>
      '(rels, ih, bs') ← clear_loop cloned helper ih bs'; Ok (rels, ih, None :: bs')
  | Some l :: bs' =>
      '(rel, ih, l) ← clear_bucket_loop (size (ll_nodes l)) cloned helper ih l
                        (linkedListIteratorCreate (Some l));
      _ ← linkedListDestroy (Some l) true;
      '(rels, ih, bs') ← clear_loop cloned helper ih bs';
      Ok (rel ++ rels, ih, None :: bs')
  end.

Definition hashMapClear ih (map : option icHashMap) (helper : bool)
    : outcome (list release * gmap addr mapItem * option icHashMap) :=
  match map with
  | None => Ok ([], ih, None)
  | Some m =>
      '(rel, ih, bs) ← clear_loop (hm_cloned m) helper ih (hm_buckets m);
      Ok (rel, ih, Some (mkMap 0 (hm_seed m) bs false))
  end.

Definition hashMapDestroy ih (map : option icHashMap) (helper : bool)
    : outcome (list release * gmap addr mapItem) :=
  match map with
  | None => Ok ([], ih)
  | Some _ => '(rel, ih, _) ← hashMapClear ih map helper; Ok (rel, ih)
  end.

Fixpoint clone_buckets (bs : list (option (icLinkedList addr)))
    : outcome (list (option (icLinkedList addr))) :=
  match bs with
  | [] => Ok []
  | b :: bs' =>
      c ← match b with Some _ => linkedListClone b | None => Ok None end;
      cs ← clone_buckets bs'; Ok (c :: cs)
  end.

Definition hashMapClone (src : option icHashMap) : outcome icHashMap :=
  s ← of_option src;
  bs ← clone_buckets (hm_buckets s);
  Ok (mkMap (hm_count s) (hm_seed s) bs true).

(** [cloneFunc] gives the cloned key and value; the new mapItem starts with
    both NULL. *)
Definition hashMapDeepCloneHelper (cloneFunc : option block → option V → option block * option V)
    (item : option addr) ih : outcome (option addr * gmap addr mapItem) :=
  a ← of_option item;
  node ← of_option (ih !! a);
  let '(newNode, ih) := createItem ih in
  let '(k, v) := cloneFunc (mi_key node) (mi_value node) in
  Ok (Some newNode, <[newNode := mkItem k (mi_keyLen node) v]> ih).

Fixpoint deep_clone_buckets (cloneFunc : option block → option V → option block * option V)
    (bs : list (option (icLinkedList addr))) ih
    : outcome (list (option (icLinkedList addr)) * gmap addr mapItem) :=
  match bs with
  | [] => Ok ([], ih)
  | b :: bs' =>
      '(c, ih) ← match b with
                 | Some _ => linkedListDeepClone b (hashMapDeepCloneHelper cloneFunc) ih
                 | None => Ok (None, ih)
                 end;
      '(cs, ih) ← deep_clone_buckets cloneFunc bs' ih; Ok (c :: cs, ih)
  end.

Definition hashMapDeepClone ih (src : option icHashMap)
    (cloneFunc : option block → option V → option block * option V)
    : outcome (gmap addr mapItem * icHashMap) :=
  s ← of_option src;
  '(bs, ih) ← deep_clone_buckets cloneFunc (hm_buckets s) ih;
  Ok (ih, mkMap (hm_count s) (hm_seed s) bs false).

(** ** Iterators *)

Definition hashMapIteratorCreate (map : option icHashMap) : option icHashMapIterator :=
  match map with Some _ => Some (mkMapIter (-1) None None) | None => None end.

(** The while loop of findNextOccupiedSlot: [n] buckets remain. *)
Fixpoint slot_loop map (n : nat) (b : Z) : Z :=
  match n with
  | O => -1
  | S n' =>
      if decide (0 < linkedListCount (bucket map b)) then b else slot_loop map n' (b + 1)
  end.

Definition findNextOccupiedSlot map (it : icHashMapIterator) : Z :=
  let b := hi_currBucket it + 1 in slot_loop map (Z.to_nat (NUM_BUCKETS - b)) b.

Definition useSlot map (it : icHashMapIterator) (b : Z) : icHashMapIterator :=
  mkMapIter b (linkedListIteratorCreate (bucket map b)) (hi_prevItem it).

Definition next_slot map (it : icHashMapIterator) : bool * icHashMapIterator :=
  let x := findNextOccupiedSlot map it in
  if decide (x ≠ -1) then (true, useSlot map it x) else (false, it).

Definition hashMapIteratorHasNext map (iterator : option icHashMapIterator)
    : bool * option icHashMapIterator :=
  match iterator with
  | None => (false, None)
  | Some it =>
      if decide (hi_currBucket it < 0) then
        let '(r, it) := next_slot map it in (r, Some it)
      else if decide (NUM_BUCKETS ≤ hi_currBucket it) then (false, Some it)
      else if linkedListIteratorHasNext (hi_currIterator it) then (true, Some it)
      else
        let it := mkMapIter (hi_currBucket it) None (hi_prevItem it) in
        let '(r, it) := next_slot map it in (r, Some it)
  end.

Definition hashMapIteratorGetNext ih map (iterator : option icHashMapIterator)
    : outcome (option (option block * Z * option V) * option icHashMapIterator) :=
  match iterator with
  | None => Ok (None, None)
  | Some it =>
      '(element, ci) ← match hi_currIterator it with
                       | Some _ =>
                           l ← of_option (bucket map (hi_currBucket it));
                           linkedListIteratorGetNext l (hi_currIterator it)
                       | None => Ok (None, None)
                       end;
      match element with
      | Some a =>
          e ← of_option (ih !! a);
          Ok (Some (mi_key e, mi_keyLen e, mi_value e),
              Some (mkMapIter (hi_currBucket it) ci (Some a)))
      | None => Ok (None, Some (mkMapIter (hi_currBucket it) ci None))
      end
  end.

Definition hashMapIteratorDeleteCurrent ih map (iterator : option icHashMapIterator) (helper : bool)
    : outcome (bool * list release * gmap addr mapItem * icHashMap * option icHashMapIterator) :=
  match iterator with
  | None => Ok (false, [], ih, map, None)
  | Some it =>
      match hi_prevItem it with
      | None => Ok (false, [], ih, map, Some it)
      | Some p =>
          e ← of_option (ih !! p);
          '(r, rel, ih, m) ← hashMapDelete ih (Some map) (mi_key e) (mi_keyLen e) helper;
          m ← of_option m;
          Ok (r, rel, ih, m,
              Some (mkMapIter (hi_currBucket it) (linkedListIteratorClearPrev (hi_currIterator it)) None))
      end
  end.

(** The loop of the map's clients: while (hasNext) { getNext; body }.  An
    unsuccessful getNext would leave the loop's variables unset. *)
Fixpoint hashMapForEach {S} (fuel : nat) ih map (iterator : option icHashMapIterator)
    (body : option block * Z * option V → S → outcome S) (s : S) : outcome S :=
  let '(more, iterator) := hashMapIteratorHasNext map iterator in
  if more then
    match fuel with
    | O => Hang
    | S fuel' =>
        '(e, iterator) ← hashMapIteratorGetNext ih map iterator;
        e ← of_option e;
        s ← body e s;
        hashMapForEach fuel' ih map iterator body s
    end
  else Ok s.

End Code.
Arguments mapItem : clear implicits.
Arguments hashMapPut {V} ih map key keyLen value : simpl never.
Arguments hashMapGet {V} ih map key keyLen : simpl never.
Arguments hashMapDelete {V} vaddr ih map key keyLen helper : simpl never.
Arguments searchBucket {V} ih map b key keyLen : simpl never.
Arguments hashMapClear {V} vaddr ih map helper : simpl never.
Arguments hashMapIteratorHasNext map iterator : simpl never.
Arguments hashMapIteratorGetNext {V} ih map iterator : simpl never.
Arguments hashMapIteratorDeleteCurrent {V} vaddr ih map iterator helper : simpl never.
Arguments linkedListIteratorHasNext : simpl nomatch.

End HashMap.
