(* ===== verification/HashMapSpec.v ===== *)
(** * Behaviour of icHashMap against finite maps

    The representation invariant [hrepr] of HashMap.v's maps (every bucket a
    well-formed list of live mapItems, every key in the bucket its hash
    selects, keys distinct, count exact) and the effect of get, put, delete
    and iteration on the abstract finite map [absmap] from key bytes to
    values. *)

From S2P Require Import Prelude LinkedList LinkedListSpec HashMap.
Import LinkedList ListSpec HashMap.

Module MapSpec.
Section Spec.
Context {V : Type} (vaddr : V → addr).
Implicit Types (ih : gmap addr (mapItem V)) (m : icHashMap) (bs : list (list addr)) (a : addr).

(** The bucket of a key. *)
Definition hashBytes (seed : Z) (k : list byte) : Z :=
  foldl (λ h b, u32 (h * 33 + byteZ b)) seed k.
Definition bucketOf (seed : Z) (k : list byte) : Z := assignedBucket (hashBytes seed k).

Definition item_key (it : mapItem V) : list byte :=
  match mi_key it with
  | Some k => take (Z.to_nat (mi_keyLen it)) (b_bytes k)
  | None => []
  end.
Definition akey ih a : list byte := match ih !! a with Some it => item_key it | None => [] end.
Definition aval ih a : option V := match ih !! a with Some it => mi_value it | None => None end.

(** A query: a key pointer with at least [keyLen] readable bytes. *)
Definition query (k : block) (keyLen : Z) : Prop :=
  0 ≤ keyLen ≤ 65535 ∧ keyLen ≤ zlen (b_bytes k).
Definition query_key (k : block) (keyLen : Z) : list byte :=
  take (Z.to_nat keyLen) (b_bytes k).

(** A live item whose key is well formed and hashes to bucket [i]. *)
Definition good ih (seed : Z) (i : nat) a : Prop :=
  ∃ it k, ih !! a = Some it ∧ mi_key it = Some k ∧ query k (mi_keyLen it) ∧
    bucketOf seed (item_key it) = Z.of_nat i.

Definition bucket_ok (o : option (icLinkedList addr)) (xs : list addr) : Prop :=
  match o with Some l => lrepr l (Some <$> xs) | None => xs = [] end.

Record hrepr ih m bs : Prop := {
  h_buckets : Forall2 bucket_ok (hm_buckets m) bs;
  h_len : length bs = 31%nat;
  h_good : ∀ i xs a, bs !! i = Some xs → a ∈ xs → good ih (hm_seed m) i a;
  h_nodup : NoDup (akey ih <$> concat bs);
  h_count : hm_count m = zlen (concat bs);
  h_max : zlen (concat bs) ≤ 65535
}.

(** The entries in iteration order, and the abstract map. *)
Definition entries ih bs : list (list byte * option V) :=
  (λ a, (akey ih a, aval ih a)) <$> concat bs.
Definition absmap ih bs : gmap (list byte) (option V) := list_to_map (entries ih bs).

(** ** Hashing and comparing *)

Lemma hash_loop_spec n ptr h :
  (n ≤ length ptr)%nat → hash_loop n ptr h = Ok (hashBytes h (take n ptr)).
Proof.
  revert ptr h. induction n as [|n IH]; intros [|b ptr] h Hn; simpl in *; try done; [lia|].
  apply IH. lia.
Qed.

Lemma defaultHash_spec k keyLen seed :
  query k keyLen → defaultHash k keyLen seed = Ok (hashBytes seed (query_key k keyLen)).
Proof. intros [? ?]. apply hash_loop_spec. lia. Qed.

Lemma bucketOf_bounds seed k : 0 ≤ bucketOf seed k < 31.
Proof.
  unfold bucketOf, assignedBucket. pose proof (Z.mod_pos_bound (hashBytes seed k) NUM_BUCKETS ltac:(done)).
  unfold NUM_BUCKETS in *. rewrite u16_small; lia.
Qed.

Lemma query_key_length k keyLen : query k keyLen → zlen (query_key k keyLen) = keyLen.
Proof. intros [? ?]. unfold query_key. rewrite length_take. lia. Qed.

Lemma good_akey ih a it k :
  ih !! a = Some it → mi_key it = Some k → akey ih a = query_key k (mi_keyLen it).
Proof. intros H1 H2. unfold akey, item_key. by rewrite H1, H2. Qed.

(** searchLinkedList compares the bytes of the keys. *)
Lemma searchLinkedList_spec ih seed i a k keyLen :
  good ih seed i a → query k keyLen →
  searchLinkedList ih (k, keyLen) (Some a) = Ok (bool_decide (akey ih a = query_key k keyLen)).
Proof.
  intros (it & k' & Hit & Hk & Hq' & _) Hq. unfold searchLinkedList. simpl. rewrite Hit. simpl.
  rewrite (good_akey ih a it k' Hit Hk).
  pose proof (query_key_length _ _ Hq). pose proof (query_key_length _ _ Hq').
  case_decide as Hd.
  - rewrite bool_decide_false; [done|]. intros E. rewrite E in *. lia.
  - rewrite Hk. simpl. unfold memcmp_eq.
    destruct Hq, Hq'. rewrite decide_True by lia. f_equal. apply bool_decide_ext.
    unfold query_key. rewrite Hd. split; congruence.
Qed.

(** ** Buckets *)

Lemma Forall2_middle {A B} (P : A → B → Prop) l1 x l2 k :
  Forall2 P (l1 ++ x :: l2) k →
  ∃ k1 y k2, k = k1 ++ y :: k2 ∧ length k1 = length l1 ∧ Forall2 P l1 k1 ∧ P x y ∧ Forall2 P l2 k2.
Proof.
  intros H. apply Forall2_app_inv_l in H as (k1 & k' & H1 & H2 & ->).
  apply Forall2_cons_inv_l in H2 as (y & k2 & Hxy & H2 & ->).
  exists k1, y, k2. split_and!; try done. symmetry. by eapply Forall2_length.
Qed.

(** The map, seen from the bucket of a key. *)
Lemma hrepr_split ih m bs (b : Z) :
  hrepr ih m bs → 0 ≤ b < 31 →
  ∃ o1 o o2 b1 xs b2, hm_buckets m = o1 ++ o :: o2 ∧ bs = b1 ++ xs :: b2 ∧
    length o1 = Z.to_nat b ∧ length b1 = Z.to_nat b ∧
    Forall2 bucket_ok o1 b1 ∧ bucket_ok o xs ∧ Forall2 bucket_ok o2 b2 ∧ bucket m b = o.
Proof.
  intros Hr Hb. destruct Hr as [Hf Hl _ _ _ _].
  pose proof (Forall2_length _ _ _ Hf) as Hlen.
  destruct (lookup_lt_is_Some_2 (hm_buckets m) (Z.to_nat b)) as [o Ho]; [lia|].
  pose proof (take_drop_middle _ _ _ Ho) as Hm.
  rewrite <-Hm in Hf. apply Forall2_middle in Hf as (b1 & xs & b2 & -> & Hl1 & H1 & Hx & H2).
  rewrite length_take in Hl1.
  exists (take (Z.to_nat b) (hm_buckets m)), o, (drop (S (Z.to_nat b)) (hm_buckets m)), b1, xs, b2.
  split_and!; try done; [rewrite length_take; lia|lia|].
  unfold bucket. by rewrite Ho.
Qed.

(** An item with the queried key can only be in the key's bucket. *)
Lemma key_in_bucket ih m b1 (xs : list addr) b2 a :
  (∀ i ys x, (b1 ++ xs :: b2) !! i = Some ys → x ∈ ys → good ih (hm_seed m) i x) →
  a ∈ concat (b1 ++ xs :: b2) → bucketOf (hm_seed m) (akey ih a) = zlen b1 → a ∈ xs.
Proof.
  intros Hg Ha Hb. apply list_elem_of_In, in_concat in Ha as (ys & Hys & Ha).
  apply list_elem_of_In, list_elem_of_lookup in Hys as [i Hi]. apply list_elem_of_In in Ha.
  destruct (Hg i ys a Hi Ha) as (it & k & Hit & Hk & _ & Hbk).
  assert (i = length b1) as ->.
  { unfold akey in Hb. rewrite Hit in Hb. lia. }
  rewrite list_lookup_middle in Hi by done. by simplify_eq.
Qed.

Lemma middle_good ih seed b1 (xs : list addr) b2 a :
  (∀ i ys x, (b1 ++ xs :: b2) !! i = Some ys → x ∈ ys → good ih seed i x) →
  a ∈ xs → good ih seed (length b1) a.
Proof. intros Hg Ha. eapply Hg; [|done]. by apply list_lookup_middle. Qed.

Lemma elem_of_middle {A} (x : A) b1 (xs : list A) b2 : x ∈ xs → x ∈ concat (b1 ++ xs :: b2).
Proof. intros. rewrite concat_app. simpl. apply elem_of_app. right. apply elem_of_app. by left. Qed.

Lemma find_first_Some_fmap (p : option addr → bool) (xs : list addr) :
  find_first p (Some <$> xs) = Some <$> find_first (p ∘ Some) xs.
Proof. induction xs as [|x xs IH]; simpl; [done|]. unfold compose. by destruct (p (Some x)). Qed.

Lemma delete_first_Some_fmap (p : option addr → bool) (xs : list addr) :
  delete_first p (Some <$> xs) = Some <$> delete_first (p ∘ Some) xs.
Proof.
  induction xs as [|x xs IH]; simpl; [done|]. unfold compose.
  destruct (p (Some x)); [done|]. simpl. f_equal. exact IH.
Qed.

(** The predicate the map searches a bucket with. *)
Definition has_key ih (kb : list byte) (o : option addr) : bool :=
  match o with Some a => bool_decide (akey ih a = kb) | None => false end.

Lemma searchBucket_spec ih m bs k keyLen o1 l o2 b1 xs b2 :
  hrepr ih m bs → query k keyLen →
  hm_buckets m = o1 ++ Some l :: o2 → bs = b1 ++ xs :: b2 → length o1 = length b1 →
  lrepr l (Some <$> xs) →
  searchBucket ih m (zlen b1) k keyLen
  = Ok (find_first (has_key ih (query_key k keyLen) ∘ Some) xs).
Proof.
  intros Hr Hq Hb Hbs Hlen Hl. unfold searchBucket, bucket.
  rewrite Hb, Nat2Z.id, list_lookup_middle by done. simpl.
  rewrite (lrepr_find l (Some <$> xs) (k, keyLen) _ (has_key ih (query_key k keyLen))); [|done|].
  - rewrite find_first_Some_fmap. by destruct (find_first _ xs).
  - intros x Hx. apply list_elem_of_fmap in Hx as (a & -> & Ha). simpl.
    eapply searchLinkedList_spec; [|done]. eapply (middle_good ih (hm_seed m) b1 xs b2); [|done].
    rewrite <-Hbs. by destruct Hr.
Qed.

(** ** The abstract map *)

Lemma entries_keys ih bs : (entries ih bs).*1 = akey ih <$> concat bs.
Proof. unfold entries. rewrite <-list_fmap_compose. done. Qed.

Lemma absmap_Some ih bs a :
  NoDup (akey ih <$> concat bs) → a ∈ concat bs → absmap ih bs !! akey ih a = Some (aval ih a).
Proof.
  intros Hnd Ha. unfold absmap. apply elem_of_list_to_map_1; [by rewrite entries_keys|].
  unfold entries. apply list_elem_of_fmap. by exists a.
Qed.

Lemma absmap_None ih bs kb :
  kb ∉ akey ih <$> concat bs → absmap ih bs !! kb = None.
Proof. intros H. apply not_elem_of_list_to_map_1. by rewrite entries_keys. Qed.

Lemma absmap_size ih bs :
  NoDup (akey ih <$> concat bs) → size (absmap ih bs) = length (concat bs).
Proof.
  intros H. unfold absmap. rewrite map_size_list_to_map by (by rewrite entries_keys).
  unfold entries. by rewrite length_fmap.
Qed.

(** What a search in the key's bucket finds, for the whole map. *)
Lemma bucket_search ih m b1 (xs : list addr) b2 kb :
  (∀ i ys x, (b1 ++ xs :: b2) !! i = Some ys → x ∈ ys → good ih (hm_seed m) i x) →
  bucketOf (hm_seed m) kb = zlen b1 →
  match find_first (has_key ih kb ∘ Some) xs with
  | Some a => a ∈ xs ∧ akey ih a = kb
  | None => kb ∉ akey ih <$> concat (b1 ++ xs :: b2)
  end.
Proof.
  intros Hg Hb. destruct (find_first _ xs) as [a|] eqn:E.
  - apply find_first_Some in E as [Ha E]. split; [done|]. by apply bool_decide_eq_true in E.
  - intros Hin. apply list_elem_of_fmap in Hin as (a & -> & Ha).
    eapply key_in_bucket in Ha; [|done|done].
    rewrite find_first_None in E. apply E in Ha. by apply bool_decide_eq_false in Ha.
Qed.

(** The outcome of looking a key up, as a case distinction every operation
    starts with. *)
Lemma search_spec ih m bs k keyLen :
  hrepr ih m bs → query k keyLen →
  ∃ r, searchHashMap ih (Some m) (Some k) keyLen = Ok r ∧
    match r with
    | Some a => a ∈ concat bs ∧ akey ih a = query_key k keyLen
    | None => query_key k keyLen ∉ akey ih <$> concat bs
    end.
Proof.
  intros Hr Hq. unfold searchHashMap. rewrite defaultHash_spec by done. simpl.
  change (assignedBucket _) with (bucketOf (hm_seed m) (query_key k keyLen)).
  pose proof (bucketOf_bounds (hm_seed m) (query_key k keyLen)) as Hb.
  set (b := bucketOf _ _) in *.
  destruct (hrepr_split ih m bs b Hr Hb)
    as (o1 & o & o2 & b1 & xs & b2 & Ho & -> & Hl1 & Hl2 & _ & Hok & _ & Hbk).
  rewrite Hbk. assert (Hbz : b = zlen b1) by lia.
  pose proof (bucket_search ih m b1 xs b2 (query_key k keyLen) (h_good _ _ _ Hr) Hbz) as Hs.
  destruct o as [l|]; simpl in Hok.
  - rewrite Hbz, (searchBucket_spec ih m (b1 ++ xs :: b2) k keyLen o1 l o2 b1 xs b2) by (done || lia).
    eexists. split; [done|]. destruct (find_first _ xs); [|done].
    destruct Hs. split; [|done]. by apply elem_of_middle.
  - subst xs. by exists None.
Qed.

Lemma absmap_found ih m bs a kb :
  hrepr ih m bs → a ∈ concat bs → akey ih a = kb → absmap ih bs !! kb = Some (aval ih a).
Proof. intros Hr Ha <-. apply absmap_Some; [|done]. by destruct Hr. Qed.

Lemma get_spec ih m bs k keyLen :
  hrepr ih m bs → query k keyLen →
  hashMapGet ih (Some m) (Some k) keyLen = Ok (mjoin (absmap ih bs !! query_key k keyLen)).
Proof.
  intros Hr Hq. unfold hashMapGet.
  destruct (search_spec ih m bs k keyLen Hr Hq) as ([a|] & -> & Hs); simpl.
  - destruct Hs as [Ha Hk]. rewrite (absmap_found _ _ _ _ _ Hr Ha Hk). simpl.
    unfold aval. apply list_elem_of_In, in_concat in Ha as (ys & Hys & Ha).
    apply list_elem_of_In, list_elem_of_lookup in Hys as [i Hi]. apply list_elem_of_In in Ha.
    destruct (h_good _ _ _ Hr i ys a Hi Ha) as (it & k' & -> & _). done.
  - by rewrite absmap_None.
Qed.

Lemma contains_spec ih m bs k keyLen :
  hrepr ih m bs → query k keyLen →
  hashMapContains ih (Some m) (Some k) keyLen
  = Ok (bool_decide (is_Some (absmap ih bs !! query_key k keyLen))).
Proof.
  intros Hr Hq. unfold hashMapContains.
  destruct (search_spec ih m bs k keyLen Hr Hq) as ([a|] & -> & Hs); simpl.
  - destruct Hs as [Ha Hk]. rewrite (absmap_found _ _ _ _ _ Hr Ha Hk). done.
  - rewrite absmap_None by done. done.
Qed.

(** ** Growing and shrinking the item heap *)

Lemma good_mono ih ih' seed i a : good ih seed i a → ih ⊆ ih' → good ih' seed i a.
Proof.
  intros (it & k & Hit & ?) Hsub. exists it, k. split; [|done]. by eapply lookup_weaken.
Qed.

Lemma good_live ih seed i a : good ih seed i a → is_Some (ih !! a).
Proof. intros (it & _ & -> & _). done. Qed.

Lemma akey_mono ih ih' a : is_Some (ih !! a) → ih ⊆ ih' → akey ih' a = akey ih a.
Proof. intros [it Hit] Hsub. unfold akey. by rewrite (lookup_weaken _ _ _ _ Hit Hsub), Hit. Qed.

Lemma aval_mono ih ih' a : is_Some (ih !! a) → ih ⊆ ih' → aval ih' a = aval ih a.
Proof. intros [it Hit] Hsub. unfold aval. by rewrite (lookup_weaken _ _ _ _ Hit Hsub), Hit. Qed.

Lemma hrepr_live ih m bs a : hrepr ih m bs → a ∈ concat bs → is_Some (ih !! a).
Proof.
  intros Hr Ha. apply list_elem_of_In, in_concat in Ha as (ys & Hys & Ha).
  apply list_elem_of_In, list_elem_of_lookup in Hys as [i Hi]. apply list_elem_of_In in Ha.
  eapply good_live. by eapply (h_good _ _ _ Hr).
Qed.

Lemma keys_mono ih ih' (l : list addr) :
  (∀ a, a ∈ l → is_Some (ih !! a)) → ih ⊆ ih' → akey ih' <$> l = akey ih <$> l.
Proof. intros Hl Hsub. apply list_fmap_ext. intros i a Ha. apply akey_mono; [|done].
  apply Hl. by eapply list_elem_of_lookup_2. Qed.

Lemma entries_mono ih ih' bs :
  (∀ a, a ∈ concat bs → is_Some (ih !! a)) → ih ⊆ ih' → entries ih' bs = entries ih bs.
Proof.
  intros Hl Hsub. unfold entries. apply list_fmap_ext. intros i a Ha.
  rewrite (akey_mono ih ih'), (aval_mono ih ih'); try done; apply Hl; by eapply list_elem_of_lookup_2.
Qed.

(** Items of another map can come and go. *)
Lemma hrepr_mono ih ih' m bs : hrepr ih m bs → ih ⊆ ih' → hrepr ih' m bs ∧ entries ih' bs = entries ih bs.
Proof.
  intros Hr Hsub. split; [|by apply entries_mono; [intros a; apply (hrepr_live _ _ _ _ Hr)|]].
  pose proof (λ a, hrepr_live _ _ _ a Hr) as Hlive. destruct Hr as [? ? Hg Hnd ? ?].
  split; try done.
  - intros i xs a Hi Ha. eapply good_mono; [|done]. by eapply Hg.
  - by rewrite (keys_mono ih ih').
Qed.

(** Replacing the list of one bucket. *)
Lemma lookup_middle_cases {A} (b1 : list A) x y b2 i z :
  (b1 ++ y :: b2) !! i = Some z →
  (i = length b1 ∧ z = y) ∨ (i ≠ length b1 ∧ (b1 ++ x :: b2) !! i = Some z).
Proof.
  intros H. destruct (decide (i = length b1)) as [->|Hne].
  - left. rewrite list_lookup_middle in H by done. by simplify_eq.
  - right. split; [done|]. destruct (decide (i < length b1)%nat).
    + rewrite lookup_app_l in H |- * by lia. done.
    + rewrite lookup_app_r in H |- * by lia.
      destruct (i - length b1)%nat eqn:E; [lia|]. done.
Qed.

Lemma set_bucket_eq m o1 o o2 (b : Z) l :
  hm_buckets m = o1 ++ o :: o2 → length o1 = Z.to_nat b →
  set_bucket m b l = mkMap (hm_count m) (hm_seed m) (o1 ++ l :: o2) (hm_cloned m).
Proof.
  intros Hb Hl. unfold set_bucket. rewrite Hb, <-Hl. by rewrite insert_app_r_alt, Nat.sub_diag by lia.
Qed.

Lemma bucket_eq m o1 o o2 (b : Z) :
  hm_buckets m = o1 ++ o :: o2 → length o1 = Z.to_nat b → bucket m b = o.
Proof. intros Hb Hl. unfold bucket. rewrite Hb, list_lookup_middle by done. done. Qed.

(** ** Put *)

Lemma entries_perm ih bs bs' : concat bs' ≡ₚ concat bs → entries ih bs' ≡ₚ entries ih bs.
Proof. intros H. unfold entries. by rewrite H. Qed.

Lemma absmap_perm ih ih' bs bs' :
  NoDup (akey ih <$> concat bs) → entries ih' bs' ≡ₚ entries ih bs → absmap ih' bs' = absmap ih bs.
Proof.
  intros Hnd Hp. unfold absmap. apply list_to_map_proper; [|done].
  by rewrite Hp, entries_keys.
Qed.

Lemma hrepr_add ih m o1 o o2 b1 xs b2 node k keyLen v l' :
  hrepr ih m (b1 ++ xs :: b2) → hm_buckets m = o1 ++ o :: o2 → length o1 = length b1 →
  ih !! node = None → query k keyLen → bucketOf (hm_seed m) (query_key k keyLen) = zlen b1 →
  query_key k keyLen ∉ akey ih <$> concat (b1 ++ xs :: b2) →
  lrepr l' (Some <$> (xs ++ [node])) → hm_count m < 65535 →
  let ih' := <[node := mkItem (Some k) keyLen v]> ih in
  let m' := mkMap (hm_count m + 1) (hm_seed m) (o1 ++ Some l' :: o2) (hm_cloned m) in
  let bs' := b1 ++ (xs ++ [node]) :: b2 in
  hrepr ih' m' bs' ∧ entries ih' bs' ≡ₚ (query_key k keyLen, v) :: entries ih (b1 ++ xs :: b2).
Proof.
  intros Hr Ho Hlen Hnode Hq Hb Hnew Hl' Hct ih' m' bs'.
  assert (Hsub : ih ⊆ ih') by (by apply insert_subseteq).
  pose proof (λ a, hrepr_live _ _ _ a Hr) as Hlive.
  assert (Hperm : concat bs' ≡ₚ node :: concat (b1 ++ xs :: b2)).
  { unfold bs'. rewrite !concat_app. simpl. rewrite <-app_assoc. simpl.
    rewrite <-!Permutation_middle. done. }
  assert (Hkn : akey ih' node = query_key k keyLen).
  { unfold akey, ih'. by rewrite lookup_insert_eq. }
  assert (Hent : entries ih' bs' ≡ₚ (query_key k keyLen, v) :: entries ih (b1 ++ xs :: b2)).
  { rewrite <-(entries_mono ih ih') by done. unfold entries. rewrite Hperm. simpl.
    rewrite Hkn. unfold aval at 1, ih'. by rewrite lookup_insert_eq. }
  split; [|done]. pose proof Hr as [Hf Hl31 Hg Hnd Hc Hm]. split; simpl.
  - rewrite Ho in Hf. apply Forall2_app_inv in Hf as [H1 H2]; [|done].
    apply Forall2_cons in H2 as [_ H2]. apply Forall2_app; [done|]. by apply Forall2_cons.
  - unfold bs'. rewrite length_app in *. done.
  - intros i ys a Hi Ha.
    destruct (lookup_middle_cases b1 xs _ b2 i ys Hi) as [[-> ->]|[_ Hi']].
    + apply elem_of_app in Ha as [Ha| ->%list_elem_of_singleton].
      * eapply good_mono; [|done]. by eapply (middle_good ih (hm_seed m) b1 xs b2).
      * exists (mkItem (Some k) keyLen v), k. unfold ih'. rewrite lookup_insert_eq.
        split_and!; done.
    + eapply good_mono; [|done]. by eapply Hg.
  - rewrite Hperm. simpl. rewrite Hkn, (keys_mono ih ih') by done. by apply NoDup_cons.
  - rewrite Hperm, Hc. simpl. lia.
  - rewrite Hperm. simpl. lia.
Qed.

Lemma bucket_length b1 (xs : list addr) b2 : zlen xs ≤ zlen (concat (b1 ++ xs :: b2)).
Proof. rewrite concat_app. simpl. rewrite !length_app. lia. Qed.

Lemma put_old ih m bs k keyLen v :
  hrepr ih m bs → query k keyLen → is_Some (absmap ih bs !! query_key k keyLen) →
  hashMapPut ih (Some m) (Some k) keyLen v = Ok (false, ih, Some m).
Proof.
  intros Hr Hq Hin. unfold hashMapPut. rewrite defaultHash_spec by done. simpl.
  change (assignedBucket _) with (bucketOf (hm_seed m) (query_key k keyLen)).
  pose proof (bucketOf_bounds (hm_seed m) (query_key k keyLen)) as Hb.
  set (b := bucketOf _ _) in *.
  destruct (hrepr_split ih m bs b Hr Hb)
    as (o1 & o & o2 & b1 & xs & b2 & Ho & -> & Hl1 & Hl2 & _ & Hok & _ & Hbk).
  rewrite Hbk. assert (Hbz : b = zlen b1) by lia.
  pose proof (bucket_search ih m b1 xs b2 (query_key k keyLen) (h_good _ _ _ Hr) Hbz) as Hs.
  assert (Hn : query_key k keyLen ∉ akey ih <$> concat (b1 ++ xs :: b2) → False).
  { intros Hx%absmap_None. rewrite Hx in Hin. by destruct Hin. }
  destruct o as [l|]; simpl in Hok.
  - rewrite Hbz, (searchBucket_spec ih m (b1 ++ xs :: b2) k keyLen o1 l o2 b1 xs b2) by (done || lia).
    simpl. destruct (find_first _ xs); [done|]. by destruct (Hn Hs).
  - subst xs. by destruct (Hn Hs).
Qed.

Lemma put_new ih m bs k keyLen v :
  hrepr ih m bs → query k keyLen → absmap ih bs !! query_key k keyLen = None → hm_count m < 65535 →
  ∃ node m' bs', let ih' := <[node := mkItem (Some k) keyLen v]> ih in
    hashMapPut ih (Some m) (Some k) keyLen v = Ok (true, ih', Some m') ∧ ih !! node = None ∧
    hrepr ih' m' bs' ∧ entries ih' bs' ≡ₚ (query_key k keyLen, v) :: entries ih bs ∧
    concat bs' ≡ₚ node :: concat bs ∧
    hm_cloned m' = hm_cloned m ∧ hm_seed m' = hm_seed m.
Proof.
  intros Hr Hq Hin Hct. unfold hashMapPut. rewrite defaultHash_spec by done. simpl.
  change (assignedBucket _) with (bucketOf (hm_seed m) (query_key k keyLen)).
  pose proof (bucketOf_bounds (hm_seed m) (query_key k keyLen)) as Hb.
  set (b := bucketOf _ _) in *.
  destruct (hrepr_split ih m bs b Hr Hb)
    as (o1 & o & o2 & b1 & xs & b2 & Ho & -> & Hl1 & Hl2 & _ & Hok & _ & Hbk).
  rewrite Hbk. assert (Hbz : b = zlen b1) by lia.
  pose proof (bucket_search ih m b1 xs b2 (query_key k keyLen) (h_good _ _ _ Hr) Hbz) as Hs.
  pose proof (bucket_length b1 xs b2) as Hxs. pose proof (h_count _ _ _ Hr) as Hcnt.
  assert (Hfound : ∀ a, a ∈ xs → akey ih a ≠ query_key k keyLen).
  { intros a Ha Hk. rewrite (absmap_found _ _ _ a (query_key k keyLen) Hr) in Hin; [done| |done].
    by apply elem_of_middle. }
  set (node := fresh (dom ih)).
  assert (Hnode : ih !! node = None) by (apply not_elem_of_dom; apply is_fresh).
  (* the list the item is appended to *)
  assert (Hlist : ∃ l, ('(doAdd, m) ←
      match o with
      | None => Ok (true, set_bucket m b (Some linkedListCreate))
      | Some _ => found ← searchBucket ih m b k keyLen;
                  Ok (match found with Some _ => false | None => true end, m)
      end; Ok (doAdd : bool, m))
      = Ok (true, mkMap (hm_count m) (hm_seed m) (o1 ++ Some l :: o2) (hm_cloned m)) ∧
      lrepr l (Some <$> xs)).
  { destruct o as [l|]; simpl in Hok.
    - exists l. split; [|done].
      rewrite Hbz, (searchBucket_spec ih m (b1 ++ xs :: b2) k keyLen o1 l o2 b1 xs b2) by (done || lia).
      simpl. destruct (find_first _ xs) as [a|]; simpl.
      + destruct Hs as [Ha Hk]. by destruct (Hfound a Ha).
      + f_equal. f_equal. rewrite <-Ho. by destruct m.
    - subst xs. exists linkedListCreate. simpl.
      rewrite (set_bucket_eq m o1 None o2) by done. split; [done|]. apply lrepr_create. }
  destruct Hlist as (l & Hlist & Hl).
  assert (Hkeys : query_key k keyLen ∉ akey ih <$> concat (b1 ++ xs :: b2)).
  { destruct (find_first _ xs) as [a|]; [|done]. destruct Hs as [Ha Hk]. by destruct (Hfound a Ha). }
  destruct (lrepr_append l (Some <$> xs) node) as (l' & Happ & Hl' & _); [done|rewrite length_fmap; lia|].
  replace ((Some <$> xs) ++ [Some node]) with (Some <$> (xs ++ [node])) in Hl' by (by rewrite fmap_app).
  apply bind_Ok in Hlist as ([d m1] & -> & [= -> ->]). simpl.
  rewrite (bucket_eq _ o1 (Some l) o2) by done. fold node. rewrite Happ. simpl.
  rewrite (set_bucket_eq _ o1 (Some l) o2) by done. simpl.
  destruct (hrepr_add ih m o1 o o2 b1 xs b2 node k keyLen v l') as [Hr' He']; try (done || lia).
  exists node. eexists _, _. unfold set_count. simpl.
  rewrite (u16_small (hm_count m + 1)) by lia. rewrite insert_insert_eq.
  split_and!; [done|done|exact Hr'|exact He'| |done|done].
  rewrite !concat_app. simpl. rewrite <-app_assoc. simpl. by rewrite <-!Permutation_middle.
Qed.

(** ** Delete *)

(** An item heap that lost at most the item [a]. *)
Definition lost ih ih' a : Prop := ∀ x, x ≠ a → ih' !! x = ih !! x.

Lemma good_lost ih ih' seed i a x : lost ih ih' a → x ≠ a → good ih seed i x → good ih' seed i x.
Proof. intros Hl Hx (it & k & Hit & ?). exists it, k. by rewrite Hl. Qed.

Lemma akey_lost ih ih' a x : lost ih ih' a → x ≠ a → akey ih' x = akey ih x.
Proof. intros Hl Hx. unfold akey. by rewrite Hl. Qed.

Lemma entries_lost ih ih' a (l : list addr) :
  lost ih ih' a → a ∉ l →
  (λ x, (akey ih' x, aval ih' x)) <$> l = (λ x, (akey ih x, aval ih x)) <$> l.
Proof.
  intros Hl Ha. apply list_fmap_ext. intros i x Hx.
  assert (x ≠ a) by (intros ->; apply Ha; by eapply list_elem_of_lookup_2).
  unfold akey, aval. by rewrite Hl.
Qed.

Lemma hrepr_del ih ih' m o1 o o2 b1 x1 a x2 b2 l' :
  hrepr ih m (b1 ++ (x1 ++ a :: x2) :: b2) → hm_buckets m = o1 ++ o :: o2 → length o1 = length b1 →
  lost ih ih' a → lrepr l' (Some <$> (x1 ++ x2)) →
  let m' := mkMap (hm_count m - 1) (hm_seed m) (o1 ++ Some l' :: o2) (hm_cloned m) in
  let bs' := b1 ++ (x1 ++ x2) :: b2 in
  hrepr ih' m' bs' ∧
  entries ih (b1 ++ (x1 ++ a :: x2) :: b2) ≡ₚ (akey ih a, aval ih a) :: entries ih' bs' ∧
  concat (b1 ++ (x1 ++ a :: x2) :: b2) ≡ₚ a :: concat bs'.
Proof.
  intros Hr Ho Hlen Hlost Hl' m' bs'. pose proof Hr as [Hf Hl31 Hg Hnd Hc Hm].
  assert (Hperm : concat (b1 ++ (x1 ++ a :: x2) :: b2) ≡ₚ a :: concat bs').
  { unfold bs'. rewrite !concat_app. simpl. rewrite <-!app_assoc. simpl.
    by rewrite <-!Permutation_middle. }
  assert (Hnd' := Hnd). rewrite Hperm in Hnd'. simpl in Hnd'. apply NoDup_cons in Hnd' as [Hka Hnd'].
  assert (Ha : a ∉ concat bs').
  { intros Hin. apply Hka. apply list_elem_of_fmap. by exists a. }
  assert (Hkeys : akey ih' <$> concat bs' = akey ih <$> concat bs').
  { apply list_fmap_ext. intros i x Hx. apply (akey_lost _ _ a); [done|]. intros ->.
    apply Ha. by eapply list_elem_of_lookup_2. }
  split_and!; [split; simpl| |done].
  - rewrite Ho in Hf. apply Forall2_app_inv in Hf as [H1 H2]; [|done].
    apply Forall2_cons in H2 as [_ H2]. apply Forall2_app; [done|]. by apply Forall2_cons.
  - unfold bs'. rewrite length_app in *. done.
  - intros i ys x Hi Hx.
    assert (x ≠ a).
    { intros ->. apply Ha. apply list_elem_of_In, in_concat. exists ys.
      split; apply list_elem_of_In; [by eapply list_elem_of_lookup_2|done]. }
    eapply good_lost; [done|done|].
    destruct (lookup_middle_cases b1 (x1 ++ a :: x2) _ b2 i ys Hi) as [[-> ->]|[_ Hi']].
    + eapply (middle_good ih (hm_seed m) b1 (x1 ++ a :: x2) b2); [done|]. set_solver.
    + by eapply Hg.
  - by rewrite Hkeys.
  - rewrite Hc, Hperm. simpl. lia.
  - rewrite Hperm in Hm. simpl in Hm. lia.
  - unfold entries at 1. rewrite Hperm. simpl. unfold entries. by rewrite (entries_lost ih ih' a).
Qed.

(** What destroying an item releases. *)
Definition released_item (helper : bool) (it : mapItem V) : list release :=
  let key := b_addr <$> mi_key it in
  let value := vaddr <$> mi_value it in
  if helper then [RelHelper key value]
  else (if decide (key ≠ value) then rel_free value else []) ++ rel_free key.

Lemma destroyItem_spec ih a it helper :
  ih !! a = Some it → destroyItem vaddr ih a helper = Ok (released_item helper it, delete a ih).
Proof. intros H. unfold destroyItem. by rewrite H. Qed.

Lemma delete_absent ih m bs k keyLen helper :
  hrepr ih m bs → query k keyLen → absmap ih bs !! query_key k keyLen = None →
  hashMapDelete vaddr ih (Some m) (Some k) keyLen helper = Ok (false, [], ih, Some m).
Proof.
  intros Hr Hq Hin.
  destruct (search_spec ih m bs k keyLen Hr Hq) as ([a|] & Hse & Hs).
  { destruct Hs as [Ha Hk]. by rewrite (absmap_found _ _ _ _ _ Hr Ha Hk) in Hin. }
  unfold hashMapDelete. unfold searchHashMap in Hse.
  destruct (defaultHash k keyLen (hm_seed m)) as [h| |]; simpl in *; [|done..].
  destruct (bucket m (assignedBucket h)); [|done]. by rewrite Hse.
Qed.

Lemma delete_present ih m bs k keyLen helper v :
  hrepr ih m bs → query k keyLen → absmap ih bs !! query_key k keyLen = Some v →
  ∃ a it m' bs', let ih' := if hm_cloned m then ih else delete a ih in
    hashMapDelete vaddr ih (Some m) (Some k) keyLen helper
      = Ok (true, if hm_cloned m then [] else released_item helper it, ih', Some m') ∧
    ih !! a = Some it ∧ mi_value it = v ∧ item_key it = query_key k keyLen ∧
    hrepr ih' m' bs' ∧ entries ih bs ≡ₚ (query_key k keyLen, v) :: entries ih' bs' ∧
    concat bs ≡ₚ a :: concat bs' ∧
    hm_cloned m' = hm_cloned m ∧ hm_seed m' = hm_seed m.
Proof.
  intros Hr Hq Hin. unfold hashMapDelete. rewrite defaultHash_spec by done. simpl.
  change (assignedBucket _) with (bucketOf (hm_seed m) (query_key k keyLen)).
  pose proof (bucketOf_bounds (hm_seed m) (query_key k keyLen)) as Hb.
  set (b := bucketOf _ _) in *.
  destruct (hrepr_split ih m bs b Hr Hb)
    as (o1 & o & o2 & b1 & xs & b2 & Ho & -> & Hl1 & Hl2 & _ & Hok & _ & Hbk).
  rewrite Hbk. assert (Hbz : b = zlen b1) by lia.
  pose proof (bucket_search ih m b1 xs b2 (query_key k keyLen) (h_good _ _ _ Hr) Hbz) as Hs.
  destruct (find_first _ xs) as [a|] eqn:Ef; [|by rewrite absmap_None in Hin].
  destruct Hs as [Ha Hk].
  destruct o as [l|]; simpl in Hok; [|subst; by apply not_elem_of_nil in Ha].
  rewrite Hbz, (searchBucket_spec ih m (b1 ++ xs :: b2) k keyLen o1 l o2 b1 xs b2) by (done || lia).
  rewrite Ef. simpl.
  pose proof (lrepr_delete l (Some <$> xs) (k, keyLen) (searchLinkedList ih)
    (has_key ih (query_key k keyLen)) Hok) as Hdel.
  rewrite find_first_Some_fmap, Ef in Hdel. simpl in Hdel.
  destruct Hdel as (l' & -> & Hl' & _).
  { intros x Hx. apply list_elem_of_fmap in Hx as (y & -> & Hy). simpl.
    eapply searchLinkedList_spec; [|done].
    eapply (middle_good ih (hm_seed m) b1 xs b2); [|done]. by destruct Hr. }
  rewrite delete_first_Some_fmap in Hl'.
  destruct (find_first_split _ _ _ Ef) as (x1 & x2 & -> & _ & _ & Hd). rewrite Hd in Hl'. simpl.
  rewrite (set_bucket_eq _ o1 (Some l) o2) by (done || lia). simpl.
  pose proof (h_count _ _ _ Hr) as Hcnt.
  assert (0 < hm_count m).
  { rewrite Hcnt, concat_app. simpl. rewrite !length_app. simpl. lia. }
  assert (Hlive : is_Some (ih !! a)).
  { eapply hrepr_live; [done|]. apply elem_of_middle. set_solver. }
  destruct Hlive as [it Hit].
  assert (Hav : aval ih a = v).
  { rewrite (absmap_found _ _ _ a _ Hr) in Hin; [congruence| |done]. apply elem_of_middle. set_solver. }
  set (ih' := if hm_cloned m then ih else delete a ih).
  assert (Hlost : lost ih ih' a).
  { intros x Hx. unfold ih'. destruct (hm_cloned m); [done|]. by rewrite lookup_delete_ne. }
  assert (Hrel : (if hm_cloned m then Ok ([], ih) else destroyItem vaddr ih a helper)
    = Ok (if hm_cloned m then [] else released_item helper it, ih')).
  { unfold ih'. destruct (hm_cloned m); [done|]. by rewrite (destroyItem_spec _ _ it). }
  rewrite Hrel. simpl. rewrite decide_True by done.
  destruct (hrepr_del ih ih' m o1 (Some l) o2 b1 x1 a x2 b2 l') as (Hr' & He' & Hp'); try (done || lia).
  rewrite Hk, Hav in He'.
  exists a, it. eexists _, _. split; [done|]. split_and!;
    [done| | |exact Hr'|exact He'|exact Hp'|done|done].
  - unfold aval in Hav. by rewrite Hit in Hav.
  - unfold akey in Hk. by rewrite Hit in Hk.
Qed.

(** ** Create and clear *)

Lemma concat_replicate_nil {A} n : concat (replicate n ([] : list A)) = [].
Proof. induction n; simpl; done. Qed.

Lemma hrepr_empty ih n seed cl :
  n = 31%nat → hrepr ih (mkMap 0 seed (replicate n None) cl) (replicate n []).
Proof.
  intros ->. split; rewrite ?concat_replicate_nil; try done.
  - by repeat constructor.
  - intros i xs a Hi Ha. apply lookup_replicate in Hi as [-> _]. by apply not_elem_of_nil in Ha.
  - constructor.
Qed.

Lemma create_repr ih tv_sec tv_usec :
  hrepr ih (hashMapCreate tv_sec tv_usec) (replicate 31 []).
Proof. by apply hrepr_empty. Qed.

Definition release_items (helper : bool) ih (xs : list addr) : list release :=
  concat ((λ a, match ih !! a with Some it => released_item helper it | None => [] end) <$> xs).

Lemma release_items_delete helper ih a xs :
  a ∉ xs → release_items helper (delete a ih) xs = release_items helper ih xs.
Proof.
  intros Ha. unfold release_items. f_equal. apply list_fmap_ext. intros i x Hx.
  rewrite lookup_delete_ne; [done|]. intros ->. apply Ha. by eapply list_elem_of_lookup_2.
Qed.

Definition delete_all ih (xs : list addr) : gmap addr (mapItem V) := foldl (λ h a, delete a h) ih xs.

Lemma delete_all_lookup ih xs a :
  delete_all ih xs !! a = if decide (a ∈ xs) then None else ih !! a.
Proof.
  unfold delete_all. revert ih. induction xs as [|x xs IH]; intros ih; cbn [foldl].
  - case_decide as H; [by apply not_elem_of_nil in H|done].
  - rewrite IH. destruct (decide (a = x)) as [->|Hne].
    + rewrite lookup_delete_eq. repeat case_decide; (done || set_solver).
    + rewrite lookup_delete_ne by done. repeat case_decide; (done || set_solver).
Qed.

Lemma clear_bucket_spec fuel cloned helper ih l ns xs :
  ListSpec.repr l ns → ns.*2 = Some <$> xs → (length ns ≤ fuel)%nat →
  NoDup xs → (∀ a, a ∈ xs → is_Some (ih !! a)) →
  ∃ l', clear_bucket_loop vaddr fuel cloned helper ih l (Some (mkIter (hd_addr ns None) None))
      = Ok (if cloned then [] else release_items helper ih xs,
            if cloned then ih else delete_all ih xs, l') ∧
    ListSpec.repr l' [].
Proof.
  revert fuel ih l xs. induction ns as [|[b x] ns IH]; intros fuel ih l xs Hr Hns Hf Hnd Hlive.
  { destruct xs; [|done]. exists l. split; [|done].
    by destruct fuel; simpl; destruct cloned. }
  destruct xs as [|a xs]; [done|]. simpl in Hns. injection Hns as -> Hns.
  change (list_fmap _ _ snd ns) with ns.*2 in Hns.
  change (list_fmap _ _ Some xs) with (Some <$> xs) in Hns.
  destruct fuel as [|fuel]; simpl in Hf; [lia|]. cbn [clear_bucket_loop].
  rewrite (iterator_hasNext _ ((b, Some a) :: ns)) by done.
  rewrite (iterator_getNext l [] b (Some a) ns) by done. simpl.
  destruct (iterator_deleteCurrent l [] b a ns (hd_addr ns None) Hr)
    as (n1' & l1 & -> & Hr1 & _ & Hn1).
  simpl in Hn1. rewrite bool_decide_true in Hn1 by done.
  apply fmap_nil_inv in Hn1 as ->. simpl in Hr1 |- *.
  apply NoDup_cons in Hnd as [Ha Hnd].
  destruct (Hlive a) as [it Hit]; [by left|].
  set (ih1 := if cloned then ih else delete a ih).
  assert (Hd : (if cloned then Ok ([], ih) else destroyItem vaddr ih a helper)
    = Ok (if cloned then [] else released_item helper it, ih1)).
  { unfold ih1. destruct cloned; [done|]. by rewrite (destroyItem_spec _ _ it). }
  rewrite Hd. simpl.
  destruct (IH fuel ih1 l1 xs Hr1 Hns) as (l' & -> & Hr'); [lia|done| |].
  { intros y Hy. unfold ih1. destruct cloned; [apply Hlive; by right|].
    rewrite lookup_delete_ne by (intros ->; done). apply Hlive. by right. }
  simpl. exists l'. split; [|done]. unfold ih1. destruct cloned; [done|].
  rewrite release_items_delete by done. unfold release_items. simpl. by rewrite Hit.
Qed.

Lemma clear_loop_spec cloned helper ih os bs :
  Forall2 bucket_ok os bs → NoDup (concat bs) → (∀ a, a ∈ concat bs → is_Some (ih !! a)) →
  clear_loop vaddr cloned helper ih os
  = Ok (if cloned then [] else release_items helper ih (concat bs),
        if cloned then ih else delete_all ih (concat bs), replicate (length os) None).
Proof.
  intros Hf. revert ih. induction Hf as [|o xs os bs Hok Hf IH]; intros ih Hnd Hlive; cbn [clear_loop].
  { by destruct cloned. }
  simpl in Hnd, Hlive. apply NoDup_app in Hnd as (Hnd1 & Hdis & Hnd2).
  destruct o as [l|]; simpl in Hok; cycle 1.
  { subst xs. rewrite IH by (set_solver || done). by destruct cloned. }
  destruct Hok as (ns & Hr & Hns). rewrite (repr_fuel _ _ Hr), (iterator_create l ns Hr).
  set (ih1 := if cloned then ih else delete_all ih xs).
  assert (Hb : ∃ l', clear_bucket_loop vaddr (length ns) cloned helper ih l
      match ns with [] => None | _ => Some (mkIter (hd_addr ns None) None) end
      = Ok (if cloned then [] else release_items helper ih xs, ih1, l') ∧ ListSpec.repr l' []).
  { destruct ns as [|n ns].
    - apply fmap_nil_inv in Hns as ->. exists l. split; [|done]. unfold ih1. simpl. by destruct cloned.
    - apply clear_bucket_spec; try done. intros. apply Hlive. set_solver. }
  destruct Hb as (l' & -> & Hr'). simpl.
  rewrite (lrepr_destroy l' [] true) by (by exists []). simpl.
  rewrite IH; [|done|].
  - simpl. unfold ih1. destruct cloned; [done|]. unfold release_items, delete_all.
    rewrite fmap_app, concat_app, foldl_app. do 5 f_equal. apply list_fmap_ext.
    intros i x Hx. fold (delete_all ih xs). rewrite delete_all_lookup, decide_False; [done|].
    intros Hin. apply (Hdis x Hin). by eapply list_elem_of_lookup_2.
  - intros a Ha. unfold ih1. destruct cloned; [apply Hlive; set_solver|].
    rewrite delete_all_lookup, decide_False; [apply Hlive; set_solver|]. intros Hin. by apply (Hdis a).
Qed.

Lemma hrepr_nodup ih m bs : hrepr ih m bs → NoDup (concat bs).
Proof. intros Hr. eapply NoDup_fmap_1. by destruct Hr. Qed.

Lemma clear_repr ih m bs helper :
  hrepr ih m bs →
  let ih' := if hm_cloned m then ih else delete_all ih (concat bs) in
  ∃ m', hashMapClear vaddr ih (Some m) helper
      = Ok (if hm_cloned m then [] else release_items helper ih (concat bs), ih', Some m') ∧
    hrepr ih' m' (replicate 31 []) ∧ hm_cloned m' = false.
Proof.
  intros Hr ih'. unfold hashMapClear.
  pose proof (Forall2_length _ _ _ (h_buckets _ _ _ Hr)) as Hl.
  rewrite (clear_loop_spec (hm_cloned m) helper ih _ bs);
    [|by destruct Hr|by eapply hrepr_nodup|intros a; by apply (hrepr_live _ m bs)].
  simpl. eexists. split; [done|]. split; [|done].
  rewrite Hl, (h_len _ _ _ Hr). by apply hrepr_empty.
Qed.

End Spec.
End MapSpec.
