(* ===== verification/HashMapIter.v ===== *)
(** * Iterating over, purging and cloning an icHashMap

    Where a hash map iterator stands ([at_pos]), what hasNext, getNext and
    deleteCurrent do there, the two loops every client of the map is built
    from (visit all entries, and visit all entries deleting some of them),
    and the shallow and deep clones. *)

From S2P Require Import Prelude LinkedList LinkedListSpec HashMap HashMapSpec.
Import LinkedList ListSpec HashMap MapSpec.

Module MapIter.
Section Iter.
Context {V : Type} (vaddr : V → addr).
Implicit Types (ih : gmap addr (mapItem V)) (m : icHashMap) (bs : list (list addr)) (a : addr).

(** The iterator stands inside the bucket after [b1], between the items [x1]
    it has given out and the items [x2] it has not. *)
Definition inside m bs (it : icHashMapIterator) b1 x1 x2 b2 : Prop :=
  ∃ l n1 n2 ci, bs = b1 ++ (x1 ++ x2) :: b2 ∧ bucket m (zlen b1) = Some l ∧
    repr l (n1 ++ n2) ∧ n1.*2 = Some <$> x1 ∧ n2.*2 = Some <$> x2 ∧ cursor ci n2 ∧
    hi_currBucket it = zlen b1 ∧ hi_currIterator it = Some ci.

(** The iterator has given out [vis] and will give out [rest]. *)
Inductive at_pos m bs (it : icHashMapIterator) : list addr → list addr → Prop :=
  | pos_start :
      hi_currBucket it = -1 → hi_currIterator it = None → at_pos m bs it [] (concat bs)
  | pos_in b1 x1 x2 b2 :
      inside m bs it b1 x1 x2 b2 → at_pos m bs it (concat b1 ++ x1) (x2 ++ concat b2)
  | pos_out b1 xs b2 :
      bs = b1 ++ xs :: b2 → hi_currBucket it = zlen b1 → hi_currIterator it = None →
      at_pos m bs it (concat b1 ++ xs) (concat b2).

Lemma at_pos_all m bs it vis rest : at_pos m bs it vis rest → concat bs = vis ++ rest.
Proof.
  intros [| b1 x1 x2 b2 (l & n1 & n2 & ci & -> & _) | b1 xs b2 ->]; [done|..];
    rewrite concat_app; simpl; by rewrite <-!app_assoc.
Qed.

(** ** Looking for the next bucket *)

Lemma bucket_count ih m bs b1 xs b2 :
  hrepr ih m bs → bs = b1 ++ xs :: b2 → linkedListCount (bucket m (zlen b1)) = zlen xs.
Proof.
  intros Hr ->. pose proof (h_len _ _ _ Hr) as Hl. rewrite length_app in Hl. simpl in Hl.
  destruct (hrepr_split ih m _ (zlen b1) Hr)
    as (o1 & o & o2 & c1 & ys & c2 & _ & Heq & _ & Hl2 & _ & Hok & _ & ->); [lia|].
  apply app_inj_1 in Heq as [_ [= <- _]]; [|lia].
  destruct o as [l|]; simpl in *; [|by subst].
  apply lrepr_count in Hok as [-> _]. by rewrite length_fmap.
Qed.

Lemma slot_loop_spec ih m bs b1 b2 :
  hrepr ih m bs → bs = b1 ++ b2 →
  (slot_loop m (length b2) (zlen b1) = -1 ∧ concat b2 = []) ∨
  (∃ e xs b3, b2 = e ++ xs :: b3 ∧ concat e = [] ∧ xs ≠ [] ∧
     slot_loop m (length b2) (zlen b1) = zlen (b1 ++ e)).
Proof.
  intros Hr. revert b1. induction b2 as [|xs b2 IH]; intros b1 Hbs; cbn [length slot_loop].
  { by left. }
  rewrite (bucket_count ih m bs b1 xs b2) by done. destruct xs as [|x xs].
  - rewrite decide_False by (simpl; lia). destruct (IH (b1 ++ [[]])) as [[Hs Hc]|(e & ys & b3 & -> & He & Hy & Hs)].
    + by rewrite Hbs, <-app_assoc.
    + left. rewrite length_app in Hs. simpl in Hs. split; [|done]. rewrite <-Hs. f_equal. lia.
    + right. exists ([] :: e), ys, b3. split_and!; [done|done|done|].
      rewrite !length_app in *. simpl in *.
      replace (Z.of_nat (length b1) + 1) with (Z.of_nat (length b1 + 1)) by lia.
      rewrite Hs. lia.
  - rewrite decide_True by (simpl; lia). right. exists [], (x :: xs), b2. by rewrite app_nil_r.
Qed.

(** Moving to the next non-empty bucket, from after the buckets [b1]. *)
Lemma next_slot_spec ih m bs it b1 b2 :
  hrepr ih m bs → bs = b1 ++ b2 → hi_currBucket it + 1 = zlen b1 →
  (next_slot m it = (false, it) ∧ concat b2 = []) ∨
  (∃ it' c1 x2 c2, next_slot m it = (true, it') ∧ x2 ≠ [] ∧ inside m bs it' c1 [] x2 c2 ∧
     concat c1 = concat b1 ∧ concat b2 = x2 ++ concat c2 ∧ hi_prevItem it' = hi_prevItem it).
Proof.
  intros Hr Hbs Hb. pose proof (h_len _ _ _ Hr) as Hl. rewrite Hbs, length_app in Hl.
  unfold next_slot, findNextOccupiedSlot. rewrite Hb.
  replace (Z.to_nat (NUM_BUCKETS - zlen b1)) with (length b2) by (unfold NUM_BUCKETS; lia).
  destruct (slot_loop_spec ih m bs b1 b2 Hr Hbs) as [[-> Hc]|(e & xs & b3 & -> & He & Hx & ->)].
  { left. by rewrite decide_False by lia. }
  right. rewrite decide_True by lia.
  assert (Hbs' : bs = (b1 ++ e) ++ xs :: b3) by (by rewrite Hbs, <-app_assoc).
  assert (Hlt : 0 ≤ zlen (b1 ++ e) < 31).
  { rewrite !length_app in *. simpl in Hl. lia. }
  destruct (hrepr_split ih m bs _ Hr Hlt)
    as (o1 & o & o2 & d1 & ys & d2 & _ & Heq & _ & Hl2 & _ & Hok & _ & Hbk).
  assert (ys = xs) as ->. { rewrite Hbs' in Heq. apply app_inj_1 in Heq as [_ [= <- _]]; [done|lia]. }
  destruct o as [l|]; simpl in Hok; [|done]. destruct Hok as (ns & Hrl & Hns).
  eexists (useSlot m it _), (b1 ++ e), xs, b3. split; [done|]. split; [done|].
  unfold useSlot. rewrite Hbk, (iterator_create l ns Hrl).
  destruct ns as [|n ns]; [by apply fmap_nil_inv in Hns|].
  split_and!; [|by rewrite concat_app, He, app_nil_r|by rewrite concat_app, He|done].
  exists l, [], (n :: ns). eexists. split_and!; try done.
  by unfold cursor.
Qed.

(** ** hasNext and getNext *)

Lemma hasNext_spec ih m bs it vis rest :
  hrepr ih m bs → at_pos m bs it vis rest →
  (rest = [] ∧ ∃ it', hashMapIteratorHasNext m (Some it) = (false, Some it')) ∨
  (∃ it' b1 x1 a x2 b2, hashMapIteratorHasNext m (Some it) = (true, Some it') ∧
     inside m bs it' b1 x1 (a :: x2) b2 ∧ vis = concat b1 ++ x1 ∧ rest = a :: x2 ++ concat b2).
Proof.
  intros Hr Hp. destruct it as [cb ci0 pv]. unfold hashMapIteratorHasNext; cbn [hi_currBucket hi_currIterator hi_prevItem].
  assert (Hslot : ∀ b1 b2 cb pv, bs = b1 ++ b2 → cb + 1 = zlen b1 →
    (concat b2 = [] ∧ ∃ it', (let '(r, it) := next_slot m (mkMapIter cb None pv) in (r, Some it)) = (false, Some it')) ∨
    (∃ it' c1 x1 a x2 c2, (let '(r, it) := next_slot m (mkMapIter cb None pv) in (r, Some it)) = (true, Some it') ∧
     inside m bs it' c1 x1 (a :: x2) c2 ∧ concat b1 = concat c1 ++ x1 ∧ concat b2 = a :: x2 ++ concat c2)).
  { intros b1 b2 cb' pv' Hbs Hcb.
    destruct (next_slot_spec ih m bs (mkMapIter cb' None pv') b1 b2 Hr Hbs Hcb)
      as [[-> Hc]|(it' & c1 & [|a x2] & c2 & -> & Hx & Hin & Hc1 & Hc2 & _)]; [left; eauto|done|].
    right. exists it', c1, [], a, x2, c2. rewrite app_nil_r. done. }
  inversion Hp as [Hcb Hci|b1 x1 x2 b2 Hin|b1 xs b2 Hbs Hcb Hci]; cbn [hi_currBucket hi_currIterator] in *; subst.
  - rewrite decide_True by lia. apply (Hslot [] bs); [done|done].
  - pose proof Hin as (l & n1 & n2 & ci & -> & Hbk & Hrl & H1 & H2 & Hcur & Hcb & Hci); simpl in Hcb, Hci; subst.
    pose proof (h_len _ _ _ Hr) as Hl. rewrite length_app in Hl. simpl in Hl.
    rewrite decide_False by lia. rewrite decide_False by (unfold NUM_BUCKETS; lia).
    rewrite (iterator_hasNext _ _ Hcur). destruct n2 as [|n n2].
    + symmetry in H2. apply fmap_nil_inv in H2 as ->. simpl.
      rewrite app_nil_r in *.
      replace (concat b1 ++ x1) with (concat (b1 ++ [x1])) by (rewrite concat_app; simpl; by rewrite app_nil_r).
      apply Hslot; [by rewrite <-app_assoc|rewrite length_app; simpl; lia].
    + destruct x2 as [|a x2]; [done|]. right.
      eexists _, b1, x1, a, x2, b2. split; [done|]. split; [exact Hin|done].
  - pose proof (h_len _ _ _ Hr) as Hl. rewrite length_app in Hl. simpl in Hl.
    rewrite decide_False by lia. rewrite decide_False by (unfold NUM_BUCKETS; lia). simpl.
    replace (concat b1 ++ xs) with (concat (b1 ++ [xs])) by (rewrite concat_app; simpl; by rewrite app_nil_r).
    apply Hslot; [by rewrite <-app_assoc|rewrite length_app; simpl; lia].
Qed.

(** What getNext hands out for an item. *)
Definition triple (it : mapItem V) : option block * Z * option V :=
  (mi_key it, mi_keyLen it, mi_value it).

Lemma getNext_spec ih m bs it b1 x1 a x2 b2 e :
  inside m bs it b1 x1 (a :: x2) b2 → ih !! a = Some e →
  ∃ it', hashMapIteratorGetNext ih m (Some it) = Ok (Some (triple e), Some it') ∧
    inside m bs it' b1 (x1 ++ [a]) x2 b2 ∧ hi_prevItem it' = Some a.
Proof.
  intros (l & n1 & [|[n x] n2] & ci & -> & Hbk & Hrl & H1 & H2 & Hcur & Hcb & Hci) He; [done|].
  simpl in H2. injection H2 as -> H2.
  unfold hashMapIteratorGetNext. rewrite Hci, Hcb, Hbk. simpl of_option. obind.
  rewrite (iterator_getNext _ _ _ _ _ _ Hrl Hcur). simpl. rewrite He. simpl.
  eexists. split; [done|]. split; [|done].
  exists l, (n1 ++ [(n, Some a)]), n2. eexists. rewrite <-!app_assoc. simpl.
  split_and!; try done; [by rewrite !fmap_app, H1|by unfold cursor].
Qed.

(** ** Visiting all entries *)

Lemma forEach_spec {S} ih m bs (body : option block * Z * option V → S → outcome S) fuel it vis rest s :
  hrepr ih m bs → at_pos m bs it vis rest → (length rest ≤ fuel)%nat →
  hashMapForEach fuel ih m (Some it) body s
  = foldM (λ a s, e ← of_option (ih !! a); body (triple e) s) rest s.
Proof.
  intros Hr. revert it vis rest s. induction fuel as [|fuel IH]; intros it vis rest s Hp Hf;
    cbn [hashMapForEach];
    destruct (hasNext_spec ih m bs it vis rest Hr Hp)
      as [[-> (it' & ->)]|(it' & b1 & x1 & a & x2 & b2 & -> & Hin & -> & ->)]; try done; simpl in Hf; [lia|].
  destruct (hrepr_live ih m bs a Hr) as [e He].
  { destruct Hin as (? & ? & ? & ? & -> & _). apply elem_of_middle. set_solver. }
  destruct (getNext_spec ih m bs it' b1 x1 a x2 b2 e Hin He) as (it2 & -> & Hin2 & _).
  simpl. rewrite He. simpl. destruct (body (triple e) s) as [s'| |]; simpl; [|done..].
  eapply IH; [by apply pos_in|lia].
Qed.

(** ** Deleting the current entry *)

Lemma inside_bucket ih m bs b1 x1 x2 b2 l :
  hrepr ih m bs → bs = b1 ++ (x1 ++ x2) :: b2 → bucket m (zlen b1) = Some l →
  ∃ o1 o2, hm_buckets m = o1 ++ Some l :: o2 ∧ length o1 = length b1 ∧ lrepr l (Some <$> (x1 ++ x2)).
Proof.
  intros Hr Hbs Hbk. pose proof (h_len _ _ _ Hr) as Hl. rewrite Hbs, length_app in Hl. simpl in Hl.
  destruct (hrepr_split ih m bs (zlen b1) Hr)
    as (o1 & o & o2 & c1 & ys & c2 & Ho & Heq & Hl1 & Hl2 & _ & Hok & _ & Hbk'); [lia|].
  rewrite Hbs in Heq. apply app_inj_1 in Heq as [_ [= <- _]]; [|lia].
  assert (o = Some l) as -> by congruence. exists o1, o2. split_and!; [done|lia|done].
Qed.

Lemma key_find ih (x1 : list addr) a x2 :
  NoDup (akey ih <$> x1 ++ a :: x2) → ∀ y, y ∈ x1 → akey ih y ≠ akey ih a.
Proof.
  rewrite fmap_app. simpl. intros (_ & Hd & _)%NoDup_app y Hy E.
  apply (Hd (akey ih y)); [by apply list_elem_of_fmap; exists y|]. rewrite E. by left.
Qed.

Lemma NoDup_bucket ih b1 (xs : list addr) b2 :
  NoDup (akey ih <$> concat (b1 ++ xs :: b2)) → NoDup (akey ih <$> xs).
Proof.
  rewrite concat_app. simpl. rewrite !fmap_app.
  intros (_ & _ & H)%NoDup_app. by apply NoDup_app in H as (H & _ & _).
Qed.

(** Searching a bucket for the key of one of its items finds that item. *)
Lemma find_own_key ih x1 (a : addr) x2 :
  NoDup (akey ih <$> x1 ++ a :: x2) →
  find_first (has_key ih (akey ih a) ∘ Some) (x1 ++ a :: x2) = Some a.
Proof.
  intros Hnd. pose proof (key_find ih x1 a x2 Hnd) as Hne. clear Hnd.
  induction x1 as [|y x1 IH]; simpl; unfold compose, has_key; simpl.
  - by rewrite bool_decide_true.
  - rewrite bool_decide_false by (apply Hne; by left). apply IH. intros z Hz. apply Hne. by right.
Qed.

Lemma some_middle (x1 : list addr) a x2 (y : option addr) :
  y ∈ (Some <$> x1) ++ Some a :: (Some <$> x2) → ∃ z, y = Some z ∧ z ∈ x1 ++ a :: x2.
Proof.
  intros [Hy|[->|Hy]%elem_of_cons]%elem_of_app; [|exists a; set_solver|];
    apply list_elem_of_fmap in Hy as (z & -> & ?); exists z; set_solver.
Qed.

Lemma deleteCurrent_spec ih m bs it b1 x1 a x2 b2 e helper :
  hrepr ih m bs → inside m bs it b1 (x1 ++ [a]) x2 b2 → hi_prevItem it = Some a →
  ih !! a = Some e →
  let ih' := if hm_cloned m then ih else delete a ih in
  let bs' := b1 ++ (x1 ++ x2) :: b2 in
  ∃ m' it', hashMapIteratorDeleteCurrent vaddr ih m (Some it) helper
      = Ok (true, if hm_cloned m then [] else released_item vaddr helper e, ih', m', Some it') ∧
    hrepr ih' m' bs' ∧ inside m' bs' it' b1 x1 x2 b2 ∧
    hm_cloned m' = hm_cloned m ∧ lost ih ih' a.
Proof.
  intros Hr Hin Hprev He ih' bs'.
  pose proof Hin as (l & n1 & n2 & ci & Hbs & Hbk & Hrl & H1 & H2 & Hcur & Hcb & Hci).
  destruct (inside_bucket ih m bs b1 _ x2 b2 l Hr Hbs Hbk) as (o1 & o2 & Ho & Hlen & Hl).
  rewrite <-app_assoc in Hbs, Hl. simpl in Hbs, Hl.
  pose proof Hr as [_ _ Hg Hnd Hcnt _]. rewrite Hbs in Hg, Hnd, Hcnt.
  destruct (middle_good ih (hm_seed m) b1 (x1 ++ a :: x2) b2 a Hg) as (e' & k & He' & Hk & Hq & Hb);
    [set_solver|]. assert (e' = e) as -> by congruence.
  assert (Hak : akey ih a = query_key k (mi_keyLen e)) by (by apply good_akey).
  assert (Hbe : bucketOf (hm_seed m) (query_key k (mi_keyLen e)) = zlen b1).
  { rewrite <-Hak. unfold akey. by rewrite He. }
  apply NoDup_bucket in Hnd.
  (* the node of [a] is the last of n1 *)
  rewrite fmap_app in H1. simpl in H1. apply fmap_app_inv in H1 as (n0 & nl & H0 & H1 & ->).
  destruct nl as [|[c y] [|]]; try done. simpl in H1. injection H1 as H1; subst y.
  rewrite <-app_assoc in Hrl. simpl in Hrl.
  unfold hashMapIteratorDeleteCurrent. rewrite Hprev, He. simpl. rewrite Hk.
  unfold hashMapDelete. rewrite defaultHash_spec by done. simpl.
  change (assignedBucket _) with (bucketOf (hm_seed m) (query_key k (mi_keyLen e))).
  rewrite Hbe, Hbk, (searchBucket_spec ih m bs k (mi_keyLen e) o1 l o2 b1 (x1 ++ a :: x2) b2) by done.
  rewrite <-Hak, find_own_key by done. simpl.
  destruct (repr_delete l n0 c (Some a) n2 (k, mi_keyLen e) (searchLinkedList ih)
    (has_key ih (query_key k (mi_keyLen e))) Hrl) as (l' & -> & Hrl' & _).
  { intros y Hy. rewrite fmap_app, fmap_cons, <-H0, H2 in Hy. cbn [snd] in Hy.
    apply some_middle in Hy as (z & -> & Hz). eapply searchLinkedList_spec; [|done]. by eapply (middle_good ih (hm_seed m) b1 _ b2). }
  { intros y Hy. rewrite <-H0 in Hy. apply list_elem_of_fmap in Hy as (z & -> & Hz). simpl.
    apply bool_decide_false. rewrite <-Hak. by apply (key_find ih x1 a x2). }
  { simpl. by apply bool_decide_true. }
  simpl. rewrite (set_bucket_eq _ o1 (Some l) o2) by (done || lia). simpl.
  assert (Hlost : lost ih ih' a).
  { intros x Hx. unfold ih'. destruct (hm_cloned m); [done|]. by rewrite lookup_delete_ne. }
  assert (Hrel : (if hm_cloned m then Ok ([], ih) else destroyItem vaddr ih a helper)
    = Ok (if hm_cloned m then [] else released_item vaddr helper e, ih')).
  { unfold ih'. destruct (hm_cloned m); [done|]. by rewrite (destroyItem_spec _ _ _ e). }
  rewrite Hrel. simpl. rewrite decide_True; cycle 1.
  { rewrite Hcnt, concat_app. simpl. rewrite !length_app. simpl. lia. }
  assert (Hl' : lrepr l' (Some <$> (x1 ++ x2))).
  { exists (n0 ++ n2). split; [done|]. rewrite !fmap_app. by rewrite H0, H2. }
  rewrite Hbs in Hr. destruct (hrepr_del ih ih' m o1 (Some l) o2 b1 x1 a x2 b2 l') as (Hr' & _ & _); try done.
  eexists _, _. split; [done|]. split; [exact Hr'|]. split; [|done].
  exists l', n0, n2. rewrite Hci. simpl. exists (mkIter (it_curr ci) None). split; [done|].
  split; [apply (bucket_eq _ o1 (Some l') o2); [done|lia]|]. split_and!; try done.
Qed.

(** ** Deleting while iterating

    The loop of the clients that drop entries:
    while (hasNext) { getNext; if (p entry) deleteCurrent; } *)
Fixpoint purge_map (fuel : nat) (p : option block * Z * option V → bool) (helper : bool) ih m
    (iterator : option icHashMapIterator) : outcome (list release * gmap addr (mapItem V) * icHashMap) :=
  let '(more, iterator) := hashMapIteratorHasNext m iterator in
  if more then
    match fuel with
    | O => Hang
    | S fuel' =>
        '(e, iterator) ← hashMapIteratorGetNext ih m iterator;
        e ← of_option e;
        '(rel, ih, m, iterator) ←
          (if p e then
             '(_, rel, ih, m, iterator) ← hashMapIteratorDeleteCurrent vaddr ih m iterator helper;
             Ok (rel, ih, m, iterator)
           else Ok ([], ih, m, iterator));
        '(rels, ih, m) ← purge_map fuel' p helper ih m iterator;
        Ok (rel ++ rels, ih, m)
    end
  else Ok ([], ih, m).

(** The items the loop deletes, and the ones it keeps. *)
Definition drops (p : option block * Z * option V → bool) ih a : Prop :=
  match ih !! a with Some e => p (triple e) = true | None => False end.
#[global] Instance drops_dec p ih a : Decision (drops p ih a).
Proof. unfold drops. destruct (ih !! a); apply _. Defined.

Lemma filter_drops_lost (P : addr → Prop) `{∀ a, Decision (P a)} (Q : addr → Prop) `{∀ a, Decision (Q a)}
    (l : list addr) : (∀ a, a ∈ l → P a ↔ Q a) → filter P l = filter Q l.
Proof.
  induction l as [|x l IH]; intros H1; [done|]. rewrite !filter_cons, IH by (intros; apply H1; by right).
  specialize (H1 x ltac:(by left)). repeat case_decide; tauto || done.
Qed.

Lemma purge_map_spec p helper fuel ih m bs it vis rest :
  hrepr ih m bs → at_pos m bs it vis rest → (length rest ≤ fuel)%nat →
  let gone := filter (drops p ih) rest in
  ∃ m' bs', purge_map fuel p helper ih m (Some it)
      = Ok (if hm_cloned m then [] else release_items vaddr helper ih gone,
            if hm_cloned m then ih else delete_all ih gone, m') ∧
    hrepr (if hm_cloned m then ih else delete_all ih gone) m' bs' ∧
    concat bs' = vis ++ filter (λ a, ¬ drops p ih a) rest ∧ hm_cloned m' = hm_cloned m.
Proof.
  revert ih m bs it vis rest.
  induction fuel as [|fuel IH]; intros ih m bs it vis rest Hr Hp Hf gone; cbn [purge_map];
    destruct (hasNext_spec ih m bs it vis rest Hr Hp)
      as [[-> (it' & ->)]|(it' & b1 & x1 & a & x2 & b2 & -> & Hin & -> & ->)]; simpl in Hf.
  1, 3: exists m, bs; rewrite (at_pos_all _ _ _ _ _ Hp); unfold gone; simpl; by destruct (hm_cloned m).
  { lia. }
  assert (Hbs : bs = b1 ++ (x1 ++ a :: x2) :: b2) by (by destruct Hin as (? & ? & ? & ? & -> & _)).
  destruct (hrepr_live ih m bs a Hr) as [e He].
  { rewrite Hbs. apply elem_of_middle. set_solver. }
  destruct (getNext_spec ih m bs it' b1 x1 a x2 b2 e Hin He) as (it2 & -> & Hin2 & Hpv). simpl.
  assert (Hda : drops p ih a ↔ p (triple e) = true) by (unfold drops; by rewrite He).
  unfold gone. rewrite !filter_cons. destruct (p (triple e)) eqn:Hpe.
  - rewrite (decide_True _ _ (proj2 Hda eq_refl)), (decide_False (P := ¬ drops p ih a)) by tauto.
    destruct (deleteCurrent_spec ih m bs it2 b1 x1 a x2 b2 e helper Hr Hin2 Hpv He)
      as (m1 & it3 & -> & Hr1 & Hin3 & Hc1 & Hlost). simpl.
    set (ih1 := if hm_cloned m then ih else delete a ih) in *.
    assert (Ha : a ∉ x2 ++ concat b2).
    { pose proof (hrepr_nodup _ _ _ Hr) as Hnd. rewrite Hbs, concat_app in Hnd. simpl in Hnd.
      rewrite <-app_assoc in Hnd. simpl in Hnd.
      apply NoDup_app in Hnd as (_ & _ & Hnd). apply NoDup_app in Hnd as (_ & _ & Hnd).
      by apply NoDup_cons in Hnd as [? _]. }
    assert (Hext : ∀ b, b ∈ x2 ++ concat b2 → drops p ih1 b ↔ drops p ih b).
    { intros b Hb. unfold drops. rewrite Hlost; [done|]. by intros ->. }
    destruct (IH ih1 m1 _ it3 _ _ Hr1 (pos_in _ _ _ _ _ _ _ Hin3) ltac:(lia)) as (m' & bs' & -> & Hr' & Hbs' & Hc').
    rewrite (filter_drops_lost (drops p ih1) (drops p ih)) in * by done.
    rewrite (filter_drops_lost (λ a, ¬ drops p ih1 a) (λ a, ¬ drops p ih a)) in Hbs' by (intros; by rewrite Hext).
    rewrite Hc1 in *. exists m', bs'. unfold ih1 in *. simpl. destruct (hm_cloned m); [done|].
    rewrite release_items_delete in * by (rewrite list_elem_of_filter; tauto).
    split_and!; [|done..]. unfold release_items. simpl. by rewrite He.
  - assert (¬ drops p ih a) by (intros ?%Hda; done).
    rewrite (decide_False (P := drops p ih a)), (decide_True (P := ¬ drops p ih a)) by done. simpl.
    destruct (IH ih m bs it2 _ _ Hr (pos_in _ _ _ _ _ _ _ Hin2) ltac:(lia)) as (m' & bs' & -> & Hr' & Hbs' & Hc').
    exists m', bs'. rewrite <-app_assoc in Hbs'. simpl in *.
    split_and!; [by destruct (hm_cloned m)|done|by rewrite Hbs', <-!app_assoc|done].
Qed.

(** ** Scanning with deletion

    The loop of the clients whose body decides, entry by entry, whether to
    delete the current entry and whether to leave the loop:
    while (hasNext) { getNext; body; [deleteCurrent;] [break;] } *)
Record verdict := mkVerdict { v_delete : bool; v_stop : bool }.

Fixpoint hashMapScan {S} (fuel : nat) (helper : bool) ih m (iterator : option icHashMapIterator)
    (body : option block * Z * option V → S → outcome (verdict * S)) (s : S)
    : outcome (S * gmap addr (mapItem V) * icHashMap) :=
  let '(more, iterator) := hashMapIteratorHasNext m iterator in
  if more then
    match fuel with
    | O => Hang
    | S fuel' =>
        '(e, iterator) ← hashMapIteratorGetNext ih m iterator;
        e ← of_option e;
        '(v, s) ← body e s;
        '(ih, m, iterator) ←
          (if v_delete v then
             '(_, _, ih, m, iterator) ← hashMapIteratorDeleteCurrent vaddr ih m iterator helper;
             Ok (ih, m, iterator)
           else Ok (ih, m, iterator));
        if v_stop v then Ok (s, ih, m) else hashMapScan fuel' helper ih m iterator body s
    end
  else Ok (s, ih, m).

(** The same loop over a list of items: the result and the items kept. *)
Fixpoint scan_items {S} (body : option block * Z * option V → S → outcome (verdict * S)) ih
    (l : list addr) (s : S) : outcome (S * list addr) :=
  match l with
  | [] => Ok (s, [])
  | a :: l =>
      e ← of_option (ih !! a);
      '(v, s) ← body (triple e) s;
      '(s, keep) ← (if v_stop v then Ok (s, l) else scan_items body ih l s);
      Ok (s, if v_delete v then keep else a :: keep)
  end.

Lemma scan_items_lost {S} (body : option block * Z * option V → S → outcome (verdict * S)) ih ih' l s :
  (∀ a, a ∈ l → ih' !! a = ih !! a) → scan_items body ih' l s = scan_items body ih l s.
Proof.
  revert s. induction l as [|a l IH]; intros s Heq; [done|]. cbn [scan_items].
  rewrite Heq by (by left). destruct (ih !! a) as [e|]; [|done]. simpl.
  destruct (body (triple e) s) as [[[d st] s1]| |]; simpl; [|done..].
  destruct st; [done|]. by rewrite IH by (intros; apply Heq; by right).
Qed.

Lemma scan_items_sub {S} (body : option block * Z * option V → S → outcome (verdict * S)) ih l s s' keep :
  scan_items body ih l s = Ok (s', keep) → keep `sublist_of` l.
Proof.
  revert s keep. induction l as [|a l IH]; intros s keep H; cbn [scan_items] in H.
  { by injection H as <- <-. }
  unbind H. unbind H. destruct r0 as [v s1]. unbind H. destruct r0 as [s2 k]. injection H as -> <-.
  assert (k `sublist_of` l) by (destruct (v_stop v); [by simplify_eq|eauto]).
  destruct (v_delete v); by constructor.
Qed.

Lemma scan_spec {S} (body : option block * Z * option V → S → outcome (verdict * S))
    helper fuel ih m bs it vis rest s s' keep :
  hrepr ih m bs → at_pos m bs it vis rest → hm_cloned m = false → (length rest ≤ fuel)%nat →
  scan_items body ih rest s = Ok (s', keep) →
  ∃ ih' m' bs', hashMapScan fuel helper ih m (Some it) body s = Ok (s', ih', m') ∧
    hrepr ih' m' bs' ∧ concat bs' = vis ++ keep ∧ hm_cloned m' = false ∧
    (∀ a, a ∈ vis ++ keep → ih' !! a = ih !! a).
Proof.
  revert ih m bs it vis rest s keep.
  induction fuel as [|fuel IH]; intros ih m bs it vis rest s keep Hr Hp Hc Hf Hs; cbn [hashMapScan];
    destruct (hasNext_spec ih m bs it vis rest Hr Hp)
      as [[-> (it' & ->)]|(it' & b1 & x1 & a & x2 & b2 & -> & Hin & -> & ->)]; simpl in Hf.
  1, 3: injection Hs as <- <-; exists ih, m, bs; by rewrite (at_pos_all _ _ _ _ _ Hp).
  { lia. }
  assert (Hbs : bs = b1 ++ (x1 ++ a :: x2) :: b2) by (by destruct Hin as (? & ? & ? & ? & -> & _)).
  destruct (hrepr_live ih m bs a Hr) as [e He].
  { rewrite Hbs. apply elem_of_middle. set_solver. }
  destruct (getNext_spec ih m bs it' b1 x1 a x2 b2 e Hin He) as (it2 & -> & Hin2 & Hpv). simpl.
  cbn [scan_items] in Hs. rewrite He in Hs. simpl in Hs.
  destruct (body (triple e) s) as [[v s1]| |] eqn:Eb; simpl in Hs |- *; [|done..].
  apply bind_Ok in Hs as ([s2 k] & Hk & Hs). injection Hs as -> Hkeep.
  destruct (v_delete v) eqn:Ed; simpl.
  - subst keep. destruct (deleteCurrent_spec ih m bs it2 b1 x1 a x2 b2 e helper Hr Hin2 Hpv He)
      as (m1 & it3 & -> & Hr1 & Hin3 & Hc1 & Hlost). rewrite Hc in *. simpl.
    assert (Ha : a ∉ (concat b1 ++ x1) ++ x2 ++ concat b2).
    { pose proof (hrepr_nodup _ _ _ Hr) as Hnd. rewrite Hbs, concat_app in Hnd. simpl in Hnd.
      rewrite <-app_assoc, app_assoc in Hnd. simpl in Hnd.
      apply NoDup_app in Hnd as (_ & H1 & Hnd). apply NoDup_cons in Hnd as [H2 _].
      intros [Hb|Hb]%elem_of_app; [|done]. apply (H1 a Hb). by left. }
    assert (Hk' : k `sublist_of` x2 ++ concat b2).
    { destruct (v_stop v); [by simplify_eq|by eapply scan_items_sub]. }
    assert (Hfr : ∀ b, b ∈ (concat b1 ++ x1) ++ k → delete a ih !! b = ih !! b).
    { intros b Hb. apply lookup_delete_ne. intros ->. apply Ha. apply elem_of_app in Hb as [Hb|Hb];
        apply elem_of_app; [by left|right]. by eapply elem_of_sublist. }
    destruct (v_stop v).
    + injection Hk as -> <-. eexists _, m1, _. split; [done|]. split; [exact Hr1|]. split; [|done].
      rewrite concat_app. simpl. by rewrite <-!app_assoc.
    + rewrite <-(scan_items_lost body ih (delete a ih)) in Hk; cycle 1.
      { intros b Hb. apply lookup_delete_ne. intros ->. apply Ha. apply elem_of_app. by right. }
      destruct (IH _ m1 _ it3 _ _ _ _ Hr1 (pos_in _ _ _ _ _ _ _ Hin3) Hc1 ltac:(lia) Hk)
        as (ih' & m' & bs' & -> & Hr' & Hbs' & Hc' & Hsame).
      exists ih', m', bs'. split_and!; try done. intros b Hb. rewrite Hsame by done. auto.
  - subst keep. destruct (v_stop v).
    + injection Hk as -> <-. exists ih, m, bs. split_and!; try done. rewrite Hbs, concat_app. simpl.
      by rewrite <-!app_assoc.
    + destruct (IH ih m bs it2 _ _ _ _ Hr (pos_in _ _ _ _ _ _ _ Hin2) Hc ltac:(lia) Hk)
        as (ih' & m' & bs' & -> & Hr' & Hbs' & Hc' & Hsame).
      exists ih', m', bs'. rewrite <-!app_assoc in Hbs', Hsame. simpl in *. by rewrite <-!app_assoc.
Qed.

(** ** Clones *)

Lemma filter_Some (xs : list addr) : filter (λ x, x ≠ None) (Some <$> xs) = Some <$> xs.
Proof. induction xs as [|x xs IH]; [done|]. rewrite fmap_cons, filter_cons, IH. done. Qed.

Lemma clone_buckets_spec os bs :
  Forall2 bucket_ok os bs → ∃ os', clone_buckets os = Ok os' ∧ Forall2 bucket_ok os' bs.
Proof.
  induction 1 as [|o xs os bs Ho _ (os' & Hos & IH)]; simpl; [by exists []|]. rewrite Hos.
  destruct o as [l|]; simpl in Ho.
  - destruct (lrepr_clone l _ Ho) as (l' & -> & Hl' & _). rewrite filter_Some in Hl'.
    exists (Some l' :: os'). split; [done|]. by constructor.
  - exists (None :: os'). split; [done|]. by constructor.
Qed.

(** A shallow clone has the entries of its source, and shares its items. *)
Lemma clone_spec ih m bs :
  hrepr ih m bs → ∃ m', hashMapClone (Some m) = Ok m' ∧ hrepr ih m' bs ∧ hm_cloned m' = true.
Proof.
  intros [Hb ? ? ? ? ?]. unfold hashMapClone. simpl.
  destruct (clone_buckets_spec _ _ Hb) as (os' & -> & Hb'). simpl.
  eexists. split; [done|]. split; [|done]. by split.
Qed.

Section DeepClone.
(** A clone function that copies keys byte for byte. *)
Context (ck : block → block) (cv : option V → option V).
Context (ck_bytes : ∀ k, b_bytes (ck k) = b_bytes k).

Definition clone_func (k : option block) (v : option V) : option block * option V := (ck <$> k, cv v).

Definition copied ih a b : Prop :=
  ∃ e, ih !! a = Some e ∧ ih !! b = Some (mkItem (ck <$> mi_key e) (mi_keyLen e) (cv (mi_value e))).

Lemma copied_mono ih ih' a b : ih ⊆ ih' → copied ih a b → copied ih' a b.
Proof. intros Hs (e & H1 & H2). exists e. split; by eapply lookup_weaken. Qed.

Lemma copied_mono_list ih ih' xs ys : ih ⊆ ih' → Forall2 (copied ih) xs ys → Forall2 (copied ih') xs ys.
Proof. intros Hs H. eapply Forall2_impl; [exact H|]. intros. by eapply copied_mono. Qed.

Lemma deep_clone_item ih a e :
  ih !! a = Some e →
  let n := fresh (dom ih) in
  hashMapDeepCloneHelper clone_func (Some a) ih
  = Ok (Some n, <[n := mkItem (ck <$> mi_key e) (mi_keyLen e) (cv (mi_value e))]> ih).
Proof. intros He n. unfold hashMapDeepCloneHelper. simpl. rewrite He. simpl. by rewrite insert_insert_eq. Qed.

Lemma deep_clone_items xs ih :
  (∀ a, a ∈ xs → is_Some (ih !! a)) →
  ∃ ys ih', clone_items (hashMapDeepCloneHelper clone_func) (Some <$> xs) ih = Ok (Some <$> ys, ih') ∧
    ih ⊆ ih' ∧ Forall2 (copied ih') xs ys ∧ (∀ b, b ∈ ys → ih !! b = None).
Proof.
  revert ih. induction xs as [|a xs IH]; intros ih Hlive; [exists [], ih; split_and!; try done; set_solver|].
  destruct (Hlive a) as [e He]; [by left|]. simpl. rewrite (deep_clone_item ih a e He). simpl.
  set (n := fresh (dom ih)). set (it := mkItem _ _ _).
  assert (Hn : ih !! n = None) by (apply not_elem_of_dom, is_fresh).
  set (ih1 := <[n := it]> ih).
  assert (Hs1 : ih ⊆ ih1) by (by apply insert_subseteq).
  destruct (IH ih1) as (ys & ih' & Hc & Hs & Hf & Hnew).
  { intros b Hb. destruct (Hlive b) as [eb Heb]; [by right|]. exists eb. by eapply lookup_weaken. }
  change (list_fmap _ _ Some xs) with (Some <$> xs). rewrite Hc. simpl.
  exists (n :: ys), ih'. split_and!; [done|by etrans| |].
  - constructor; [|done]. exists e. split; [eapply lookup_weaken; [exact He|by etrans]|].
    eapply lookup_weaken; [|exact Hs]. unfold ih1. by rewrite lookup_insert_eq.
  - intros b [->|Hb]%elem_of_cons; [done|]. apply Hnew in Hb.
    by apply (lookup_weaken_None _ _ _ Hb).
Qed.

Lemma deep_clone_buckets_spec os bs ih :
  Forall2 bucket_ok os bs → (∀ a, a ∈ concat bs → is_Some (ih !! a)) →
  ∃ os' bs' ih', deep_clone_buckets clone_func os ih = Ok (os', ih') ∧ Forall2 bucket_ok os' bs' ∧
    ih ⊆ ih' ∧ Forall2 (Forall2 (copied ih')) bs bs' ∧ (∀ b, b ∈ concat bs' → ih !! b = None).
Proof.
  intros Hf. revert ih. induction Hf as [|o xs os bs Ho Hf IH]; intros ih Hlive; simpl in Hlive.
  { exists [], [], ih. split_and!; try done. intros b Hb. by apply not_elem_of_nil in Hb. }
  assert (Hb : ∃ o' ys ih1, match o with
      | Some _ => linkedListDeepClone o (hashMapDeepCloneHelper clone_func) ih
      | None => Ok (None, ih) end = Ok (o', ih1) ∧ bucket_ok o' ys ∧ ih ⊆ ih1 ∧
      Forall2 (copied ih1) xs ys ∧ (∀ b, b ∈ ys → ih !! b = None)).
  { destruct o as [l|]; simpl in Ho; cycle 1.
    { subst. exists None, [], ih. split_and!; try done. set_solver. }
    destruct (deep_clone_items xs ih) as (ys & ih1 & Hc & Hs & Hcp & Hn); [set_solver|].
    destruct (lrepr_deepClone _ l _ ih _ ih1 Ho Hc) as (l' & -> & Hl' & _).
    by exists (Some l'), ys, ih1. }
  destruct Hb as (o' & ys & ih1 & Heq & Ho' & Hs1 & Hcp & Hn1). cbn [deep_clone_buckets]. rewrite Heq. simpl.
  destruct (IH ih1) as (os' & bs' & ih' & -> & Hf' & Hs2 & Hcp2 & Hn2).
  { intros a Ha. destruct (Hlive a) as [e He]; [set_solver|]. exists e. by eapply lookup_weaken. }
  simpl. exists (o' :: os'), (ys :: bs'), ih'. split_and!; [done|by constructor|by etrans| |].
  - constructor; [|done]. by eapply copied_mono_list.
  - simpl. intros b [Hb|Hb]%elem_of_app; [by apply Hn1|].
    by apply (lookup_weaken_None _ _ _ (Hn2 b Hb)).
Qed.

Lemma copied_key ih a b : copied ih a b → akey ih b = akey ih a.
Proof.
  intros (e & H1 & H2). unfold akey. rewrite H1, H2. unfold item_key. simpl.
  destruct (mi_key e) as [k|]; simpl; [|done]. by rewrite ck_bytes.
Qed.

Lemma copied_keys ih xs ys : Forall2 (copied ih) xs ys → akey ih <$> ys = akey ih <$> xs.
Proof. induction 1 as [|a b xs ys H _ IH]; simpl; [done|]. f_equal; [by apply copied_key|done]. Qed.

Lemma copied_entries ih xs ys :
  Forall2 (copied ih) xs ys →
  (λ a, (akey ih a, aval ih a)) <$> ys = prod_map id cv <$> ((λ a, (akey ih a, aval ih a)) <$> xs).
Proof.
  induction 1 as [|a b xs ys H _ IH]; [done|]. rewrite !fmap_cons, IH. f_equal.
  rewrite (copied_key _ _ _ H). destruct H as (e & H1 & H2). unfold aval. by rewrite H1, H2.
Qed.

Lemma copied_good ih seed i a b : copied ih a b → good ih seed i a → good ih seed i b.
Proof.
  intros Hc (e & k & He & Hk & [Hq1 Hq2] & Hb). pose proof (copied_key _ _ _ Hc) as Hkey.
  destruct Hc as (e' & H1 & H2). assert (e' = e) as -> by congruence.
  eexists _, (ck k). split; [exact H2|]. simpl. rewrite Hk. split; [done|].
  split; [by split; [|rewrite ck_bytes]|].
  unfold akey in Hkey. rewrite H2, He in Hkey. simpl in Hkey. rewrite Hk in Hkey. by rewrite Hkey.
Qed.

Lemma Forall2_concat {A B} (P : A → B → Prop) ls ks :
  Forall2 (Forall2 P) ls ks → Forall2 P (concat ls) (concat ks).
Proof. induction 1; simpl; [done|]. by apply Forall2_app. Qed.

(** A deep clone has the entries of its source, with copied values, in items
    of its own. *)
Lemma deepClone_spec ih m bs :
  hrepr ih m bs →
  ∃ ih' m' bs', hashMapDeepClone ih (Some m) clone_func = Ok (ih', m') ∧
    ih ⊆ ih' ∧ hrepr ih' m bs ∧ hrepr ih' m' bs' ∧ hm_cloned m' = false ∧
    entries ih' bs' = prod_map id cv <$> entries ih bs ∧
    (∀ b, b ∈ concat bs' → ih !! b = None).
Proof.
  intros Hr. unfold hashMapDeepClone. simpl.
  destruct (deep_clone_buckets_spec (hm_buckets m) bs ih) as (os' & bs' & ih' & -> & Hb & Hs & Hc & Hn);
    [by destruct Hr|intros a; by apply (hrepr_live _ m)|]. simpl.
  destruct (hrepr_mono ih ih' m bs Hr Hs) as [Hr' He'].
  eexists ih', _, bs'. split; [done|]. split; [done|]. split; [done|].
  pose proof (Forall2_concat _ _ _ Hc) as Hcc. pose proof (Forall2_length _ _ _ Hcc) as Hlen.
  split_and!; [|done| |done].
  - destruct Hr' as [_ Hl Hg Hnd Hcnt Hm]. split; simpl; rewrite <-?Hlen; try done.
    + by rewrite <-(Forall2_length _ _ _ Hc).
    + intros i ys b Hi Hb'. destruct (Forall2_lookup_r _ _ _ _ _ Hc Hi) as (xs & Hxs & Hxy).
      apply list_elem_of_lookup in Hb' as [j Hj].
      destruct (Forall2_lookup_r _ _ _ _ _ Hxy Hj) as (a & Ha & Hab).
      eapply copied_good; [done|]. eapply Hg; [done|]. by eapply list_elem_of_lookup_2.
    + by rewrite (copied_keys _ _ _ Hcc).
  - rewrite <-He'. by apply copied_entries.
Qed.

End DeepClone.
End Iter.
End MapIter.
