(* ===== verification/HashMapTheorems.v ===== *)
(** * Theorems on icHashMap

    The hash map refines a finite map from key bytes to values over whole
    sequences of calls; iteration visits every entry exactly once and ends;
    entries can be deleted while iterating; destroying a map releases exactly
    what it owns, and a deep clone is independent of its source. *)

From S2P Require Import Prelude LinkedList LinkedListSpec HashMap HashMapSpec HashMapIter.
Import LinkedList HashMap MapSpec MapIter.

Module MapTheorems.
Section Calls.
Context {V : Type} `{EqDecision V} (vaddr : V → addr).
Implicit Types (ih : gmap addr (mapItem V)) (m : icHashMap).

(** The calls of the API on one map. *)
Inductive mcall :=
  | MPut (k : block) (keyLen : Z) (v : option V)
  | MGet (k : block) (keyLen : Z)
  | MContains (k : block) (keyLen : Z)
  | MDelete (k : block) (keyLen : Z) (helper : bool)
  | MCount
  | MClear (helper : bool).

Inductive manswer :=
  | MBool (b : bool)
  | MValue (v : option V)
  | MNum (n : Z)
  | MDone.

(** A call, on the heap of items and the map; what is released is the
    subject of [hashMap_destroy_releases]. *)
Definition run_mcall (s : gmap addr (mapItem V) * icHashMap) (c : mcall)
    : outcome (manswer * (gmap addr (mapItem V) * icHashMap)) :=
  let '(ih, m) := s in
  match c with
  | MPut k n v => '(b, ih, m) ← hashMapPut ih (Some m) (Some k) n v; m ← of_option m; Ok (MBool b, (ih, m))
  | MGet k n => v ← hashMapGet ih (Some m) (Some k) n; Ok (MValue v, (ih, m))
  | MContains k n => b ← hashMapContains ih (Some m) (Some k) n; Ok (MBool b, (ih, m))
  | MDelete k n h =>
      '(b, _, ih, m) ← hashMapDelete vaddr ih (Some m) (Some k) n h; m ← of_option m; Ok (MBool b, (ih, m))
  | MCount => Ok (MNum (hashMapCount (Some m)), s)
  | MClear h => '(_, ih, m) ← hashMapClear vaddr ih (Some m) h; m ← of_option m; Ok (MDone, (ih, m))
  end.

(** The same calls on a finite map. *)
Definition spec_mcall (s : gmap (list byte) (option V)) (c : mcall)
    : manswer * gmap (list byte) (option V) :=
  match c with
  | MPut k n v =>
      match s !! query_key k n with
      | Some _ => (MBool false, s)
      | None => (MBool true, <[query_key k n := v]> s)
      end
  | MGet k n => (MValue (mjoin (s !! query_key k n)), s)
  | MContains k n => (MBool (bool_decide (is_Some (s !! query_key k n))), s)
  | MDelete k n _ =>
      (MBool (bool_decide (is_Some (s !! query_key k n))), delete (query_key k n) s)
  | MCount => (MNum (Z.of_nat (size s)), s)
  | MClear _ => (MDone, ∅)
  end.

(** Key pointers have as many bytes as the caller says. *)
Definition mcall_ok (c : mcall) : Prop :=
  match c with
  | MPut k n _ | MGet k n | MContains k n | MDelete k n _ => query k n
  | _ => True
  end.

Fixpoint run_mcalls (s : gmap addr (mapItem V) * icHashMap) (cs : list mcall)
    : outcome (list manswer * (gmap addr (mapItem V) * icHashMap)) :=
  match cs with
  | [] => Ok ([], s)
  | c :: cs => '(a, s) ← run_mcall s c; '(r, s) ← run_mcalls s cs; Ok (a :: r, s)
  end.

Fixpoint spec_mcalls (s : gmap (list byte) (option V)) (cs : list mcall)
    : list manswer * gmap (list byte) (option V) :=
  match cs with
  | [] => ([], s)
  | c :: cs => let '(a, s) := spec_mcall s c in let '(r, s) := spec_mcalls s cs in (a :: r, s)
  end.

(** The heap and the map represent the finite map [s]. *)
Definition mrefines (c : gmap addr (mapItem V) * icHashMap) (s : gmap (list byte) (option V)) : Prop :=
  ∃ bs, hrepr c.1 c.2 bs ∧ absmap c.1 bs = s.

Lemma absmap_cons ih ih' bs bs' kb v :
  NoDup (akey ih' <$> concat bs') → entries ih' bs' ≡ₚ (kb, v) :: entries ih bs →
  absmap ih' bs' = <[kb := v]> (absmap ih bs).
Proof.
  intros Hnd Hp. unfold absmap.
  rewrite (list_to_map_proper (entries ih' bs') ((kb, v) :: entries ih bs)); [done| |done].
  by rewrite entries_keys.
Qed.

Lemma put_refines ih m s k n v :
  mrefines (ih, m) s → query k n → hm_count m < 65535 →
  ∃ c', run_mcall (ih, m) (MPut k n v) = Ok ((spec_mcall s (MPut k n v)).1, c') ∧
    mrefines c' (spec_mcall s (MPut k n v)).2.
Proof.
  intros (bs & Hr & Hs) Hq Hct. simpl in Hr, Hs. cbn [run_mcall spec_mcall].
  destruct (s !! query_key k n) as [w|] eqn:E.
  - rewrite (put_old ih m bs) by (done || (rewrite Hs, E; done)). simpl. exists (ih, m).
    split; [done|]. by exists bs.
  - destruct (put_new ih m bs k n v) as (node & m' & bs' & -> & _ & Hr' & He & _); [done|done|by rewrite Hs|done|].
    simpl. eexists. split; [done|]. exists bs'. split; [done|]. simpl.
    rewrite (absmap_cons ih _ bs bs' (query_key k n) v); [by rewrite Hs|by destruct Hr'|done].
Qed.

Lemma delete_refines ih m s k n h :
  mrefines (ih, m) s → query k n →
  ∃ c', run_mcall (ih, m) (MDelete k n h) = Ok ((spec_mcall s (MDelete k n h)).1, c') ∧
    mrefines c' (spec_mcall s (MDelete k n h)).2.
Proof.
  intros (bs & Hr & Hs) Hq. simpl in Hr, Hs. cbn [run_mcall spec_mcall].
  destruct (s !! query_key k n) as [w|] eqn:E; rewrite <-Hs in E.
  - destruct (delete_present vaddr ih m bs k n h w) as (a & it & m' & bs' & -> & _ & _ & _ & Hr' & He & _);
      [done..|]. simpl. eexists. split; [done|]. exists bs'. split; [done|]. simpl.
    assert (Hnd : NoDup (akey ih <$> concat bs)) by (by destruct Hr).
    rewrite <-Hs, (absmap_cons _ ih bs' bs (query_key k n) w) by done.
    rewrite delete_insert_id; [done|]. apply absmap_None. rewrite <-entries_keys in Hnd |- *.
    rewrite He in Hnd. simpl in Hnd. by apply NoDup_cons in Hnd as [? _].
  - rewrite (delete_absent vaddr ih m bs) by done. simpl. exists (ih, m). split; [done|].
    exists bs. rewrite delete_id by (by rewrite <-Hs). done.
Qed.

Lemma mcall_refines ih m s c :
  mrefines (ih, m) s → mcall_ok c → hm_count m < 65535 →
  ∃ c', run_mcall (ih, m) c = Ok ((spec_mcall s c).1, c') ∧ mrefines c' (spec_mcall s c).2.
Proof.
  intros Hc Hok Hct. destruct c as [k n v|k n|k n|k n h| |h];
    [by apply put_refines| | |by apply delete_refines| |];
    destruct Hc as (bs & Hr & Hs); simpl in Hr, Hs, Hok; cbn [run_mcall spec_mcall].
  - rewrite (get_spec ih m bs) by done. rewrite Hs. eexists. split; [done|]. by exists bs.
  - rewrite (contains_spec ih m bs) by done. rewrite Hs. eexists. split; [done|]. by exists bs.
  - exists (ih, m). split; [|by exists bs]. rewrite <-Hs, absmap_size by (by destruct Hr).
    simpl. by rewrite (h_count _ _ _ Hr).
  - destruct (clear_repr vaddr ih m bs h Hr) as (m' & -> & Hr' & _). simpl.
    eexists. split; [done|]. eexists. split; [exact Hr'|]. unfold absmap, entries. simpl.
    done.
Qed.

Lemma mrefines_count c s : mrefines c s → hm_count c.2 = Z.of_nat (size s).
Proof. intros (bs & Hr & <-). rewrite absmap_size by (by destruct Hr). by destruct Hr. Qed.

Lemma spec_mcall_size s c : (size (spec_mcall s c).2 ≤ S (size s))%nat.
Proof.
  destruct c as [k n v|k n|k n|k n h| |h]; simpl; try lia.
  - destruct (s !! _) eqn:E; simpl; [lia|]. rewrite map_size_insert_None by done. lia.
  - destruct (s !! query_key k n) eqn:E.
    + rewrite map_size_delete_Some by done. lia.
    + rewrite map_size_delete_None by done. lia.
  - rewrite map_size_empty. lia.
Qed.

(** C2: the hash map is a finite map.  Any sequence of put, get, contains,
    delete, count and clear calls on a hash map answers like the same calls
    on a finite map from key bytes to values (put refuses an existing key,
    two keys are equal when their bytes are), without a memory error, and
    keeps the invariant: every item in the bucket its hash selects, keys
    distinct, count exact, as long as it cannot reach 65535 entries. *)
Theorem hashMap_refinement (cs : list mcall) (c : gmap addr (mapItem V) * icHashMap)
    (s : gmap (list byte) (option V)) :
  mrefines c s → Forall mcall_ok cs → Z.of_nat (size s) + zlen cs ≤ 65535 →
  ∃ c', run_mcalls c cs = Ok ((spec_mcalls s cs).1, c') ∧ mrefines c' (spec_mcalls s cs).2.
Proof.
  revert c s. induction cs as [|x cs IH]; intros [ih m] s Hc Hok Hm; [by exists (ih, m)|].
  apply Forall_cons in Hok as [Hx Hok]. simpl in Hm. cbn [run_mcalls spec_mcalls].
  pose proof (mrefines_count _ _ Hc) as Hcnt. simpl in Hcnt.
  destruct (mcall_refines ih m s x Hc Hx) as (c1 & -> & Hc1); [lia|].
  pose proof (spec_mcall_size s x) as Hsz.
  destruct (spec_mcall s x) as [a s1]. simpl in *.
  destruct (IH c1 s1 Hc1 Hok) as (c2 & -> & Hc2); [lia|].
  destruct (spec_mcalls s1 cs) as [r s2]. simpl in *. by exists c2.
Qed.

(** ** Iteration *)

Lemma start_pos m bs it : hashMapIteratorCreate (Some m) = Some it → at_pos m bs it [] (concat bs).
Proof. intros [= <-]. by apply pos_start. Qed.

(** C38: iteration is complete and ends.  From a fresh iterator, the loop
    "while hasNext: getNext; body" on an unmodified map runs the body exactly
    once for every entry of the finite map, in bucket order, and is over
    after at most count rounds. *)
Theorem hashMap_iteration {S} ih m bs (body : option block * Z * option V → S → outcome S) (s : S) :
  hrepr ih m bs →
  hashMapForEach (Z.to_nat (hm_count m)) ih m (hashMapIteratorCreate (Some m)) body s
  = foldM (λ a s, e ← of_option (ih !! a); body (triple e) s) (concat bs) s ∧
  NoDup (concat bs) ∧ entries ih bs ≡ₚ map_to_list (absmap ih bs).
Proof.
  intros Hr. split_and!.
  - apply (forEach_spec ih m bs _ _ _ [] (concat bs)); [done|by apply start_pos|].
    rewrite (h_count _ _ _ Hr). lia.
  - by eapply hrepr_nodup.
  - unfold absmap. rewrite map_to_list_to_map; [done|]. rewrite entries_keys. by destruct Hr.
Qed.

(** Entries can be deleted while iterating.  The loop "while hasNext:
    getNext; if p then deleteCurrent" visits every entry once, leaves exactly
    the entries that do not satisfy p, in their order, and releases exactly
    the deleted ones, once each (nothing when the map is a clone). *)
Theorem hashMap_delete_while_iterating ih m bs (p : option block * Z * option V → bool) helper :
  hrepr ih m bs →
  let gone := filter (drops p ih) (concat bs) in
  ∃ m' bs', let ih' := if hm_cloned m then ih else delete_all ih gone in
    purge_map vaddr (Z.to_nat (hm_count m)) p helper ih m (hashMapIteratorCreate (Some m))
      = Ok (if hm_cloned m then [] else release_items vaddr helper ih gone, ih', m') ∧
    hrepr ih' m' bs' ∧ concat bs' = filter (λ a, ¬ drops p ih a) (concat bs) ∧
    hm_count m' = hm_count m - zlen gone.
Proof.
  intros Hr gone.
  destruct (purge_map_spec vaddr p helper (Z.to_nat (hm_count m)) ih m bs _ [] (concat bs) Hr
    (start_pos m bs _ eq_refl)) as (m' & bs' & He & Hr' & Hbs & _).
  { rewrite (h_count _ _ _ Hr). lia. }
  exists m', bs'. split; [exact He|]. split; [done|]. split; [done|].
  rewrite (h_count _ _ _ Hr'), (h_count _ _ _ Hr), Hbs. unfold gone. simpl.
  pose proof (Permutation_length (filter_app_complement (drops p ih) (concat bs))) as H.
  rewrite length_app in H. lia.
Qed.

(** ** Ownership *)

(** Ownership.  Destroying a map releases every key and value in it
    exactly once and frees every item, through the helper when there is one;
    destroying a shallow clone releases nothing, and its source keeps all its
    entries. *)
Theorem hashMap_destroy_releases ih m bs helper :
  hrepr ih m bs →
  hashMapDestroy vaddr ih (Some m) helper
    = Ok (if hm_cloned m then [] else release_items vaddr helper ih (concat bs),
          if hm_cloned m then ih else delete_all ih (concat bs)) ∧
  (helper = true → hm_cloned m = false →
     length (release_items vaddr helper ih (concat bs)) = length (concat bs)) ∧
  ∃ m', hashMapClone (Some m) = Ok m' ∧ hrepr ih m' bs ∧
    hashMapDestroy vaddr ih (Some m') helper = Ok ([], ih).
Proof.
  intros Hr.
  assert (Hd : ∀ m, hrepr ih m bs → hashMapDestroy vaddr ih (Some m) helper
    = Ok (if hm_cloned m then [] else release_items vaddr helper ih (concat bs),
          if hm_cloned m then ih else delete_all ih (concat bs))).
  { intros m0 Hr0. unfold hashMapDestroy.
    destruct (clear_repr vaddr ih m0 bs helper Hr0) as (m' & -> & _). done. }
  split; [by apply Hd|]. split.
  - intros -> _. pose proof (λ a, hrepr_live ih m bs a Hr) as Hlive. clear -Hlive. unfold release_items.
    induction (concat bs) as [|a l IH]; simpl; [done|]. rewrite length_app.
    destruct (Hlive a) as [e ->]; [by left|]. simpl. f_equal. apply IH. intros b Hb. apply Hlive. by right.
  - destruct (clone_spec ih m bs Hr) as (m' & -> & Hr' & Hc). exists m'. split; [done|]. split; [done|].
    by rewrite (Hd m' Hr'), Hc.
Qed.

(** A deep clone is independent.  With a clone function that copies keys
    byte for byte, the deep clone has the keys of its source with the copied
    values, in items the source does not use: the source is untouched, and
    destroying the clone leaves every entry of the source in place. *)
Theorem hashMap_deepClone_independent (ck : block → block) (cv : option V → option V) ih m bs helper :
  (∀ k, b_bytes (ck k) = b_bytes k) → hrepr ih m bs →
  ∃ ih' m' bs', hashMapDeepClone ih (Some m) (clone_func ck cv) = Ok (ih', m') ∧
    hrepr ih' m' bs' ∧ absmap ih' bs' = cv <$> absmap ih bs ∧
    ∃ rel ih'', hashMapDestroy vaddr ih' (Some m') helper = Ok (rel, ih'') ∧
      hrepr ih'' m bs ∧ entries ih'' bs = entries ih bs.
Proof.
  intros Hck Hr.
  destruct (deepClone_spec ck cv Hck ih m bs Hr) as (ih' & m' & bs' & -> & Hs & Hm & Hm' & Hc & He & Hn).
  exists ih', m', bs'. split; [done|]. split; [done|]. split.
  { unfold absmap. rewrite He, list_to_map_fmap. done. }
  unfold hashMapDestroy. destruct (clear_repr vaddr ih' m' bs' helper Hm') as (m2 & -> & _). simpl.
  eexists _, _. split; [done|]. rewrite Hc.
  assert (Hs' : ih ⊆ delete_all ih' (concat bs')).
  { apply map_subseteq_spec. intros a e Ha. rewrite delete_all_lookup.
    case_decide as Hin; [by rewrite (Hn a Hin) in Ha|]. by eapply lookup_weaken. }
  by apply hrepr_mono.
Qed.

End Calls.

(** ** A concrete map, for the witnesses

    Two entries, stored in a map created at time 1.5 s; values are their own
    addresses. *)
Definition key_a : block := mkBlock 101%positive (str "alpha").
Definition key_b : block := mkBlock 102%positive (str "beta").
Definition sample_calls : list mcall :=
  [MPut key_a 5 (Some 7%positive); MPut key_b 4 (Some 8%positive)].
Definition sample : gmap addr (mapItem addr) * icHashMap :=
  match run_mcalls id (∅, hashMapCreate 1 500000) sample_calls with
  | Ok (_, c) => c
  | _ => (∅, hashMapCreate 0 0)
  end.

Lemma empty_refines ih a b : mrefines (V := addr) (ih, hashMapCreate a b) ∅.
Proof. eexists. split; [apply create_repr|]. done. Qed.

Lemma sample_run : ∃ r, run_mcalls id (∅, hashMapCreate 1 500000) sample_calls = Ok (r, sample).
Proof. eexists. vm_compute. reflexivity. Qed.

#[local] Opaque sample.

Lemma sample_refines : mrefines sample (spec_mcalls ∅ sample_calls).2.
Proof.
  destruct sample_run as (r & Hr).
  assert (Hok : Forall mcall_ok sample_calls) by (repeat constructor; simpl; lia).
  cut (∃ c', run_mcalls id (∅, hashMapCreate 1 500000) sample_calls
    = Ok ((spec_mcalls ∅ sample_calls).1, c') ∧ mrefines c' (spec_mcalls ∅ sample_calls).2).
  { intros (c' & H & Hc). rewrite Hr in H. injection H as _ H. rewrite H. exact Hc. }
  clear r Hr. generalize (empty_refines ∅ 1 500000).
  unfold sample_calls in *. apply Forall_cons in Hok as [H1 Hok]. apply Forall_cons in Hok as [H2 _].
  intros Hc. cbn [run_mcalls spec_mcalls].
  destruct (mcall_refines id _ _ _ _ Hc H1) as ([ih1 m1] & -> & Hc1); [done|].
  destruct (spec_mcall ∅ _) as [a1 s1] eqn:E1. cbn [fst snd mbind outcome_bind] in Hc1 |- *.
  destruct (mcall_refines id _ _ _ _ Hc1 H2) as (c2 & -> & Hc2).
  { pose proof (mrefines_count _ _ Hc1) as Hn. simpl in Hn. rewrite Hn.
    pose proof (spec_mcall_size ∅ (MPut key_a 5 (Some 7%positive))) as Hsz. rewrite E1, map_size_empty in Hsz.
    simpl in Hsz. lia. }
  destruct (spec_mcall s1 _) as [a2 s2]. by exists c2.
Qed.

Lemma sample_repr : ∃ bs, hrepr sample.1 sample.2 bs.
Proof. destruct sample_refines as (bs & Hr & _). by exists bs. Qed.

Lemma hashMap_refinement_witness :
  ∃ c', run_mcalls (V := addr) id (∅, hashMapCreate 1 500000)
      [MPut key_a 5 (Some 7%positive); MPut key_a 5 (Some 9%positive); MGet key_a 5; MCount;
       MDelete key_a 5 true; MContains key_a 5; MGet key_b 4; MClear false]
    = Ok ([MBool true; MBool false; MValue (Some 7%positive); MNum 1; MBool true; MBool false;
           MValue None; MDone], c') ∧ mrefines c' ∅.
Proof.
  destruct (hashMap_refinement id
    [MPut key_a 5 (Some 7%positive); MPut key_a 5 (Some 9%positive); MGet key_a 5; MCount;
     MDelete key_a 5 true; MContains key_a 5; MGet key_b 4; MClear false] (∅, hashMapCreate 1 500000) ∅)
    as (c' & He & Hc).
  - apply empty_refines.
  - repeat constructor; simpl; lia.
  - rewrite map_size_empty. simpl. lia.
  - exists c'. split; [|exact Hc]. rewrite He. vm_compute. reflexivity.
Defined.

Definition add_length (e : option block * Z * option addr) (t : Z) : outcome Z := Ok (t + e.1.2).

Lemma hashMap_iteration_witness :
  ∃ bs, foldM (λ a t, e ← of_option (sample.1 !! a); add_length (triple e) t) (concat bs) 0 = Ok 9 ∧
    NoDup (concat bs) ∧ entries sample.1 bs ≡ₚ map_to_list (absmap sample.1 bs).
Proof.
  destruct sample_repr as [bs Hr]. exists bs.
  destruct (hashMap_iteration sample.1 sample.2 bs add_length 0 Hr) as (He & Hnd & Hp).
  split; [|by split]. rewrite <-He. vm_compute. reflexivity.
Defined.

Lemma hashMap_delete_while_iterating_witness :
  ∃ m' bs', purge_map id (Z.to_nat (hm_count sample.2)) (λ '(_, n, _), bool_decide (n = 5)) true
      sample.1 sample.2 (hashMapIteratorCreate (Some sample.2))
    = Ok ([RelHelper (Some 101%positive) (Some 7%positive)], delete 1%positive sample.1, m') ∧
    hrepr (delete 1%positive sample.1) m' bs' ∧ hm_count m' = 1.
Proof.
  destruct sample_repr as [bs Hr].
  destruct (hashMap_delete_while_iterating id sample.1 sample.2 bs
    (λ '(_, n, _), bool_decide (n = 5)) true Hr) as (m' & bs' & He & Hr' & _ & Hc).
  exists m', bs'.
  assert (Hrun : ∃ x, purge_map id (Z.to_nat (hm_count sample.2)) (λ '(_, n, _), bool_decide (n = 5)) true
      sample.1 sample.2 (hashMapIteratorCreate (Some sample.2))
    = Ok ([RelHelper (Some 101%positive) (Some 7%positive)], delete 1%positive sample.1, x) ∧ hm_count x = 1).
  { eexists. split; vm_compute; reflexivity. }
  destruct Hrun as (x & Hx & Hcx). rewrite Hx in He |- *. injection He as He1 He2 ->.
  rewrite He2. split_and!; [done|done|done].
Defined.

Lemma hashMap_destroy_releases_witness :
  ∃ bs, hashMapDestroy id sample.1 (Some sample.2) true
    = Ok (release_items id true sample.1 (concat bs), delete_all sample.1 (concat bs)).
Proof.
  destruct sample_repr as [bs Hr]. exists bs.
  apply (hashMap_destroy_releases id sample.1 sample.2 bs true Hr).
Defined.

Definition next_value (v : option addr) : option addr := Pos.succ <$> v.

Lemma hashMap_deepClone_independent_witness :
  ∃ bs ih' m' bs', hashMapDeepClone sample.1 (Some sample.2) (clone_func id next_value) = Ok (ih', m') ∧
    hrepr ih' m' bs' ∧ absmap ih' bs' = next_value <$> absmap sample.1 bs.
Proof.
  destruct sample_repr as [bs Hr]. exists bs.
  destruct (hashMap_deepClone_independent id id next_value sample.1 sample.2 bs true)
    as (ih' & m' & bs' & H1 & H2 & H3 & _); [done|exact Hr|].
  exists ih', m', bs'. split; [exact H1|]. split; [exact H2|exact H3].
Defined.

End MapTheorems.
