(* ===== verification/StringHashMap.v ===== *)
(** * icStringHashMap: string to string maps

    Models src/source/libs/types/c/src/icStringHashMap.c and hashMapPutCopy
    of icHashMap.c: the wrapper that turns C strings into (pointer, length)
    keys for the hash map of HashMap.v.  A C string is a [block] whose bytes
    contain a terminating NUL; [strlen] of a block without one is a [Fault].
    The length conversions to [uint16_t] are explicit.  cJSON is a library
    the repository links to; its functions are parameters ([CJson]) with the
    laws the conversions rely on. *)

From S2P Require Import Prelude LinkedList LinkedListSpec HashMap HashMapSpec HashMapIter.
Import LinkedList HashMap MapSpec MapIter.

Module StringMap.

(** ** C strings in memory *)

Definition strlen_block (p : option block) : outcome Z :=
  b ← of_option p; s ← c_str (b_bytes b); Ok (strlen s).

(** memcpy of [n] bytes into a new block at [dst]. *)
Definition memcpy_block (dst : addr) (src : option block) (n : Z) : outcome block :=
  if decide (n = 0) then Ok (mkBlock dst []) else
  b ← of_option src;
  if decide (n ≤ zlen (b_bytes b)) then Ok (mkBlock dst (take (Z.to_nat n) (b_bytes b))) else Fault.

Implicit Types (ih : gmap addr (mapItem block)) (map : option icHashMap) (brk : addr) (m : icHashMap).

(** The state of the C heap the maps live in: the items and the next address
    malloc hands out. *)
Definition hashMapPutCopy (brk : addr) ih map (key : option block) (keyLen : Z)
    (value : option block) (valueLen : Z)
    : outcome (bool * list release * addr * gmap addr (mapItem block) * option icHashMap) :=
  let '(kp, brk) := (brk, Pos.succ brk) in
  '(vp, brk) ← (if decide (0 < valueLen) then
                  v ← memcpy_block brk value valueLen; Ok (Some v, Pos.succ brk)
                else Ok (None, brk));
  k ← memcpy_block kp key keyLen;
  '(ok, ih, map) ← hashMapPut ih map (Some k) keyLen vp;
  let rel := if ok : bool then [] else RelFree kp :: rel_free (b_addr <$> vp) in
  Ok (ok, rel, brk, ih, map).

Definition stringHashMapCreate (tv_sec tv_usec : Z) : icHashMap := hashMapCreate tv_sec tv_usec.

Definition stringHashMapPut ih map (key value : option block)
    : outcome (bool * gmap addr (mapItem block) * option icHashMap) :=
  n ← strlen_block key;
  hashMapPut ih map key (u16 (n + 1)) value.

Definition stringHashMapPutCopy (brk : addr) ih map (key value : option block)
    : outcome (bool * list release * addr * gmap addr (mapItem block) * option icHashMap) :=
  match key with
  | None => Ok (false, [], brk, ih, map)
  | Some _ =>
      valLen ← match value with
               | Some _ => n ← strlen_block value; Ok (u16 (n + 1))
               | None => Ok 0
               end;
      n ← strlen_block key;
      hashMapPutCopy brk ih map key (u16 (n + 1)) value valLen
  end.

Definition stringHashMapGet ih map (key : option block) : outcome (option block) :=
  n ← strlen_block key; hashMapGet ih map key (u16 (n + 1)).

Definition stringHashMapContains ih map (key : option block) : outcome bool :=
  n ← strlen_block key; hashMapContains ih map key (u16 (n + 1)).

Definition stringHashMapDelete ih map (key : option block) (helper : bool)
    : outcome (bool * list release * gmap addr (mapItem block) * option icHashMap) :=
  n ← strlen_block key; hashMapDelete b_addr ih map key (u16 (n + 1)) helper.

Definition stringHashMapCount map : Z := hashMapCount map.

Definition stringHashMapDestroy ih map (helper : bool) : outcome (list release * gmap addr (mapItem block)) :=
  hashMapDestroy b_addr ih map helper.

Definition stringHashMapClear ih map : outcome (list release * gmap addr (mapItem block) * option icHashMap) :=
  hashMapClear b_addr ih map false.

(** strdup copies the bytes up to and including the NUL (a string has one)
    into a block of its own; [dup] is the address it gets. *)
Fixpoint upto_nul (bytes : list byte) : list byte :=
  match bytes with
  | [] => []
  | b :: t => if decide (b = NUL) then [NUL] else b :: upto_nul t
  end.

Definition strdup (dup : addr → addr) (b : block) : block := mkBlock (dup (b_addr b)) (upto_nul (b_bytes b)).

Definition keyValueStringClone (dup : addr → addr) (key value : option block) : option block * option block :=
  (strdup dup <$> key, strdup dup <$> value).

Definition stringHashMapDeepClone (dup : addr → addr) ih map : outcome (gmap addr (mapItem block) * icHashMap) :=
  hashMapDeepClone ih map (keyValueStringClone dup).

(** ** JSON

    The functions of cJSON the conversions call, with their documented
    behaviour: an object lists its members in the order they were added, a
    member keeps its name, type and text; the text of a null is NULL. *)
Class CJson (json : Type) := {
  cJSON_CreateObject : json;
  cJSON_CreateString : cstring → json;
  cJSON_CreateNull : json;
  cJSON_AddItemToObject : json → cstring → json → json;
  cJSON_IsObject : json → bool;
  cJSON_IsString : json → bool;
  cJSON_IsNull : json → bool;
  (* the elements cJSON_ArrayForEach visits *)
  cJSON_children : json → list json;
  cJSON_string : json → option cstring;
  cJSON_valuestring : json → option cstring
}.

Class CJsonLaws (json : Type) `{CJson json} := {
  create_object : cJSON_IsObject cJSON_CreateObject = true ∧ cJSON_children cJSON_CreateObject = [];
  add_object : ∀ o k v, cJSON_IsObject (cJSON_AddItemToObject o k v) = cJSON_IsObject o;
  add_children : ∀ o k v, cJSON_IsObject o = true → ∃ v', cJSON_children (cJSON_AddItemToObject o k v) = cJSON_children o ++ [v'] ∧
    cJSON_string v' = Some k ∧ cJSON_IsString v' = cJSON_IsString v ∧
    cJSON_IsNull v' = cJSON_IsNull v ∧ cJSON_valuestring v' = cJSON_valuestring v;
  string_text : ∀ t, cJSON_IsString (cJSON_CreateString t) = true ∧
    cJSON_valuestring (cJSON_CreateString t) = Some t;
  null_text : cJSON_IsNull cJSON_CreateNull = true ∧ cJSON_valuestring cJSON_CreateNull = None
}.

Section Json.
Context {json : Type} `{CJson json}.

Definition toJSON_body (e : option block * Z * option block) (out : json) : outcome json :=
  let '(key, _, value) := e in
  jsonValue ← match value with
              | Some v => t ← c_str (b_bytes v); Ok (cJSON_CreateString t)
              | None => Ok cJSON_CreateNull
              end;
  k ← of_option key; s ← c_str (b_bytes k);
  Ok (cJSON_AddItemToObject out s jsonValue).

Definition stringHashMapToJSON ih map : outcome (option json) :=
  match map with
  | None => Ok None
  | Some m =>
      out ← hashMapForEach (Z.to_nat (hm_count m)) ih m (hashMapIteratorCreate map) toJSON_body cJSON_CreateObject;
      Ok (Some out)
  end.

(** A string of the JSON library, as the map sees it. *)
Definition json_block (a : addr) (t : cstring) : block := mkBlock a (t ++ [NUL]).

(** The loop over the members: false when it breaks out. *)
Fixpoint fromJSON_loop (items : list json) (brk : addr) ih map
    : outcome (bool * addr * gmap addr (mapItem block) * option icHashMap) :=
  match items with
  | [] => Ok (true, brk, ih, map)
  | item :: rest =>
      if cJSON_IsString item || cJSON_IsNull item then
        '(ok, _, brk, ih, map) ← stringHashMapPutCopy brk ih map
            (json_block xH <$> cJSON_string item) (json_block xH <$> cJSON_valuestring item);
        if ok : bool then fromJSON_loop rest brk ih map else Ok (false, brk, ih, map)
      else Ok (false, brk, ih, map)
  end.

Definition stringHashMapFromJSON (tv_sec tv_usec : Z) (input : option json) (brk : addr) ih
    : outcome (addr * gmap addr (mapItem block) * option icHashMap) :=
  match input with
  | None => Ok (brk, ih, None)
  | Some j =>
      if cJSON_IsObject j then
        '(valid, brk, ih, map) ← fromJSON_loop (cJSON_children j) brk ih
                                   (Some (stringHashMapCreate tv_sec tv_usec));
        if valid : bool then Ok (brk, ih, map)
        else '(_, ih) ← stringHashMapDestroy ih map false; Ok (brk, ih, None)
      else Ok (brk, ih, None)
  end.

End Json.

Arguments hashMapPutCopy brk ih map key keyLen value valueLen : simpl never.
Arguments stringHashMapPutCopy brk ih map key value : simpl never.
Arguments stringHashMapGet ih map key : simpl never.

(** ** C strings *)

(** A pointer to the string [s]. *)
Definition holds (b : block) (s : cstring) : Prop := no_nul s ∧ ∃ rest, b_bytes b = s ++ NUL :: rest.

Lemma strlen_holds b s : holds b s → strlen_block (Some b) = Ok (strlen s).
Proof. intros [Hn [rest Hb]]. unfold strlen_block. simpl. by rewrite Hb, c_str_spec. Qed.

Lemma take_holds b s :
  holds b s → take (Z.to_nat (zlen s + 1)) (b_bytes b) = s ++ [NUL].
Proof.
  intros [_ [rest ->]]. replace (Z.to_nat (zlen s + 1)) with (length s + 1)%nat by lia.
  by rewrite take_app_add.
Qed.

Lemma holds_length b s : holds b s → strlen s + 1 ≤ zlen (b_bytes b).
Proof. intros [_ [rest ->]]. rewrite length_app. simpl. unfold strlen. lia. Qed.

Lemma holds_query b s : holds b s → strlen s < 65535 → query b (u16 (strlen s + 1)) ∧
  query_key b (u16 (strlen s + 1)) = s ++ [NUL].
Proof.
  intros Hb Hl. pose proof (holds_length _ _ Hb). unfold strlen in *.
  rewrite u16_small by lia. split; [split; lia|]. by apply take_holds.
Qed.

(** ** The map of strings a hash map stands for *)

Definition text (bytes : list byte) : cstring := match c_str bytes with Ok s => s | _ => [] end.

Definition decode (e : list byte * option block) : cstring * option cstring :=
  (text e.1, (λ b, text (b_bytes b)) <$> e.2).

(** The key is a string with its NUL, the value NULL or a string. *)
Definition entry_ok (e : list byte * option block) : Prop :=
  (∃ k, e.1 = k ++ [NUL] ∧ no_nul k) ∧ ∀ b, e.2 = Some b → ∃ t, holds b t.

Definition strings ih (bs : list (list addr)) : gmap cstring (option cstring) :=
  list_to_map (decode <$> entries ih bs).

Definition srepr ih m (s : gmap cstring (option cstring)) : Prop :=
  ∃ bs, hrepr ih m bs ∧ Forall entry_ok (entries ih bs) ∧ strings ih bs = s.

Lemma text_holds b t : holds b t → text (b_bytes b) = t.
Proof. intros [Hn [rest Hb]]. unfold text. by rewrite Hb, c_str_spec. Qed.

Lemma text_key k : no_nul k → text (k ++ [NUL]) = k.
Proof. intros Hn. unfold text. by rewrite c_str_spec. Qed.

Lemma decode_ok e : entry_ok e → e.1 = (decode e).1 ++ [NUL].
Proof. intros [(k & He & Hn) _]. unfold decode. simpl. by rewrite He, text_key. Qed.

Lemma decode_nodup es : Forall entry_ok es → NoDup es.*1 → NoDup (decode <$> es).*1.
Proof.
  intros Hok. rewrite <-list_fmap_compose. induction Hok as [|e es He Hes IH]; simpl; [constructor|].
  intros [Hn Hnd]%NoDup_cons. apply NoDup_cons. split; [|by apply IH].
  intros Hin. apply Hn. apply list_elem_of_fmap in Hin as (e' & Heq & Hin). simpl in Heq.
  rewrite Forall_forall in Hes. rewrite (decode_ok e He). change (text e.1) with (decode e).1 in Heq. rewrite Heq.
  change (text e'.1) with (decode e').1. rewrite <-(decode_ok e') by (by apply Hes). apply list_elem_of_fmap. by exists e'.
Qed.

Lemma entries_nodup ih m bs : hrepr ih m bs → NoDup (entries ih bs).*1.
Proof. intros Hr. rewrite entries_keys. by destruct Hr. Qed.

Lemma strings_lookup ih m bs k :
  hrepr ih m bs → Forall entry_ok (entries ih bs) → no_nul k →
  strings ih bs !! k = (λ v, (λ b, text (b_bytes b)) <$> v) <$> (absmap ih bs !! (k ++ [NUL])).
Proof.
  intros Hr Hok Hn. pose proof (entries_nodup _ _ _ Hr) as Hnd. unfold strings, absmap.
  generalize dependent (entries ih bs). intros es Hok Hnd.
  induction Hok as [|e es He Hes IH]; [done|].
  rewrite fmap_cons in *. simpl in Hnd |- *. apply NoDup_cons in Hnd as [_ Hnd].
  destruct e as [kb v]. pose proof (decode_ok _ He) as Hk. simpl in Hk |- *.
  destruct (decide (text kb = k)) as [Ht|Hne].
  - rewrite Ht in Hk. rewrite Ht, Hk, !lookup_insert_eq. done.
  - rewrite !lookup_insert_ne; [by apply IH|..]; [|done]. intros ->.
    apply Hne. by rewrite text_key.
Qed.

Lemma putCopy_new brk ih m s kp k vp v :
  srepr ih m s → holds kp k → strlen k < 65535 →
  match vp, v with
  | Some b, Some t => holds b t ∧ strlen t < 65535
  | None, None => True
  | _, _ => False
  end →
  s !! k = None → hm_count m < 65535 →
  ∃ brk' ih' m', stringHashMapPutCopy brk ih (Some m) (Some kp) vp = Ok (true, [], brk', ih', Some m') ∧
    srepr ih' m' (<[k := v]> s) ∧ hm_count m' = hm_count m + 1 ∧ ih ⊆ ih'.
Proof.
  intros (bs & Hr & Hok & Hs) Hk Hkl Hv Hnone Hc. unfold stringHashMapPutCopy.
  pose proof (proj1 Hk) as Hkn. destruct (holds_query kp k Hk Hkl) as [[Hq1 Hq2] Hqk].
  pose proof (holds_length _ _ Hk) as Hkb. rewrite (strlen_holds kp k Hk).
  unfold strlen in *. rewrite (u16_small (zlen k + 1)) in Hq1, Hq2, Hqk by lia.
  set (kc := mkBlock brk (k ++ [NUL])).
  assert (Hkc : query kc (zlen k + 1) ∧ query_key kc (zlen k + 1) = k ++ [NUL]).
  { unfold query, query_key, kc. simpl. rewrite length_app. simpl. split; [lia|].
    apply take_ge. rewrite length_app. simpl. lia. }
  assert (Hmk : memcpy_block brk (Some kp) (zlen k + 1) = Ok kc).
  { unfold memcpy_block. rewrite decide_False by lia. simpl. rewrite decide_True by lia.
    unfold kc. f_equal. f_equal. by apply take_holds. }
  assert (Hvc : ∃ vlen vc brk', match vp with
      | Some _ => n ← strlen_block vp; Ok (u16 (n + 1)) | None => Ok 0 end = Ok vlen ∧
      (if decide (0 < vlen) then v ← memcpy_block (Pos.succ brk) vp vlen; Ok (Some v, Pos.succ (Pos.succ brk))
       else Ok (None, Pos.succ brk)) = Ok (vc, brk') ∧
      (∀ b, vc = Some b → ∃ t, holds b t) ∧ (λ b, text (b_bytes b)) <$> vc = v).
  { destruct vp as [vp|], v as [t|]; try done; cycle 1.
    { exists 0, None, (Pos.succ brk). simpl. split_and!; done. }
    destruct Hv as [Hh Ht]. rewrite (strlen_holds vp t Hh). unfold strlen in *. simpl.
    rewrite u16_small by lia. pose proof (holds_length _ _ Hh) as Hvb. unfold strlen in Hvb.
    assert (Hnew : holds (mkBlock (Pos.succ brk) (t ++ [NUL])) t) by (split; [apply Hh|by exists []]).
    eexists _, (Some (mkBlock (Pos.succ brk) (t ++ [NUL]))), _. split; [done|]. rewrite decide_True by lia.
    unfold memcpy_block. rewrite decide_False by lia. simpl. rewrite decide_True by lia. simpl.
    rewrite (take_holds vp t Hh). split_and!; [done|intros b [= <-]; by exists t|].
    f_equal. by apply (text_holds _ _ Hnew). }
  destruct Hvc as (vlen & vc & brk' & Hvl & Hvc & Hvok & Hvt). rewrite Hvl. obind.
  rewrite (u16_small (zlen k + 1)) by lia.
  unfold hashMapPutCopy. rewrite Hvc. obind. rewrite Hmk. obind.
  destruct (put_new ih m bs kc (zlen k + 1) vc Hr (proj1 Hkc)) as (node & m' & bs' & -> & Hnode & Hr' & He & Hp & _).
  { rewrite (proj2 Hkc). rewrite <-Hs, (strings_lookup ih m bs k Hr Hok Hkn) in Hnone.
    by destruct (absmap ih bs !! (k ++ [NUL])). }
  { done. }
  simpl. eexists brk', _, m'. split; [done|]. rewrite (proj2 Hkc) in He.
  assert (Hok' : Forall entry_ok ((k ++ [NUL], vc) :: entries ih bs)).
  { constructor; [|done]. split; [by exists k|done]. }
  split_and!.
  - exists bs'. split; [done|]. split; [by rewrite He|]. unfold strings.
    rewrite (list_to_map_proper _ (decode <$> ((k ++ [NUL], vc) :: entries ih bs))).
    + rewrite fmap_cons. simpl. rewrite text_key, Hvt by done. by rewrite <-Hs.
    + apply decode_nodup; [by rewrite He|by eapply entries_nodup].
    + by rewrite He.
  - rewrite (h_count _ _ _ Hr'), (h_count _ _ _ Hr), Hp. simpl. lia.
  - by apply insert_subseteq.
Qed.

Lemma get_string ih m s kp k :
  srepr ih m s → holds kp k → strlen k < 65535 →
  ∃ r, stringHashMapGet ih (Some m) (Some kp) = Ok r ∧ (λ b, text (b_bytes b)) <$> r = mjoin (s !! k).
Proof.
  intros (bs & Hr & Hok & <-) Hk Hkl. unfold stringHashMapGet. rewrite (strlen_holds kp k Hk). simpl.
  destruct (holds_query kp k Hk Hkl) as [Hq Hqk]. rewrite (get_spec ih m bs) by done. rewrite Hqk.
  eexists. split; [done|]. rewrite (strings_lookup ih m bs k Hr Hok (proj1 Hk)).
  by destruct (absmap ih bs !! (k ++ [NUL])) as [[b|]|].
Qed.

End StringMap.
