(* ===== verification/StringHashMapTheorems.v ===== *)
(** * Theorems on icStringHashMap

    Converting a string map to JSON and back gives the same map, and copying
    strings into a map is exact below the 16-bit length limit and loses the
    value at it. *)

From S2P Require Import Prelude LinkedList LinkedListSpec HashMap HashMapSpec HashMapIter StringHashMap.
Import LinkedList HashMap MapSpec MapIter StringMap.

Module StringMapTheorems.

Implicit Types (ih : gmap addr (mapItem block)) (m : icHashMap).

(** Every string of the map is short enough for the 16-bit lengths. *)
Definition short (s : gmap cstring (option cstring)) : Prop :=
  map_Forall (λ k v, no_nul k ∧ strlen k < 65535 ∧ (∀ t, v = Some t → no_nul t ∧ strlen t < 65535)) s.

Section RoundTrip.
Context {json : Type} `{CJsonLaws json}.

(** [j] is a member named [k] with value [v]. *)
Definition member (kv : cstring * option cstring) (j : json) : Prop :=
  cJSON_string j = Some kv.1 ∧ cJSON_IsString j || cJSON_IsNull j = true ∧ cJSON_valuestring j = kv.2.

(** The block of a key holds the key's text. *)
Lemma item_holds (it : mapItem block) kb k :
  mi_key it = Some kb → item_key it = k ++ [NUL] → no_nul k → holds kb k.
Proof.
  unfold item_key. intros -> Hk Hn. split; [done|].
  exists (drop (Z.to_nat (mi_keyLen it)) (b_bytes kb)).
  rewrite <-(take_drop (Z.to_nat (mi_keyLen it)) (b_bytes kb)) at 1.
  by rewrite Hk, <-app_assoc.
Qed.

Lemma toJSON_step ih a it seed i (out : json) :
  cJSON_IsObject out = true → good ih seed i a → ih !! a = Some it → entry_ok (akey ih a, aval ih a) →
  ∃ out' j, toJSON_body (triple it) out = Ok out' ∧ cJSON_IsObject out' = true ∧
    cJSON_children out' = cJSON_children out ++ [j] ∧ member (decode (akey ih a, aval ih a)) j.
Proof.
  intros Hobj (it' & kb & Hit' & Hkb & _) Hit [(k & Hk & Hn) Hv]. assert (it' = it) as -> by congruence.
  unfold akey, aval in *. rewrite Hit in *. simpl in Hk, Hv.
  destruct (item_holds it kb k Hkb Hk Hn) as [_ [rest Hb]].
  unfold toJSON_body, triple, decode. rewrite Hkb. simpl. rewrite Hk, (text_key k Hn).
  assert (Hval : ∃ jv, match mi_value it with
      | Some v => t ← c_str (b_bytes v); Ok (cJSON_CreateString t) | None => Ok cJSON_CreateNull end = Ok jv ∧
      cJSON_IsString jv || cJSON_IsNull jv = true ∧
      cJSON_valuestring jv = (λ b, text (b_bytes b)) <$> mi_value it).
  { destruct (mi_value it) as [v|]; cycle 1.
    { exists cJSON_CreateNull. destruct null_text as [-> ->]. by rewrite orb_true_r. }
    destruct (Hv v eq_refl) as (t & Ht). pose proof (text_holds _ _ Ht) as Htx.
    destruct Ht as [Htn [r Hr]]. rewrite Hr, c_str_spec by done. simpl.
    exists (cJSON_CreateString t). destruct (string_text t) as [-> ->].
    split; [done|]. split; [done|]. simpl. by rewrite Htx. }
  destruct Hval as (jv & -> & Hs & Hvs). simpl. rewrite Hb, c_str_spec by done. simpl.
  destruct (add_children out k jv Hobj) as (j & Hc & Hjk & Hj1 & Hj2 & Hj3).
  eexists _, j. split; [done|]. rewrite add_object. split; [done|]. split; [done|].
  split; [done|]. rewrite Hj1, Hj2, Hj3. done.
Qed.

Lemma toJSON_fold ih seed (l : list addr) (out : json) :
  cJSON_IsObject out = true → (∀ a, a ∈ l → (∃ i, good ih seed i a) ∧ entry_ok (akey ih a, aval ih a)) →
  ∃ out' js, foldM (λ a s, e ← of_option (ih !! a); toJSON_body (triple e) s) l out = Ok out' ∧
    cJSON_IsObject out' = true ∧ cJSON_children out' = cJSON_children out ++ js ∧
    Forall2 member (decode <$> ((λ a, (akey ih a, aval ih a)) <$> l)) js.
Proof.
  revert out. induction l as [|a l IH]; intros out Hobj Hl.
  { exists out, []. rewrite app_nil_r. by split_and!. }
  destruct (Hl a) as [[i Hg] Hok]; [by left|]. destruct (good_live _ _ _ _ Hg) as [it Hit].
  destruct (toJSON_step ih a it seed i out Hobj Hg Hit Hok) as (o1 & j & Hb & Ho1 & Hc1 & Hj).
  destruct (IH o1 Ho1) as (o2 & js & Hf & Ho2 & Hc2 & Hjs). { intros b Hb'. apply Hl. by right. }
  exists o2, (j :: js). cbn [foldM]. rewrite Hit. oread.
  rewrite Hb. obind. rewrite Hf.
  split_and!; [done|congruence| |by constructor].
  rewrite Hc2, Hc1, <-app_assoc. done.
Qed.

Lemma fromJSON_loop_spec kvs (items : list json) brk ih m s :
  Forall2 member kvs items → srepr ih m s → NoDup kvs.*1 →
  (∀ k, k ∈ kvs.*1 → s !! k = None) →
  (∀ k v, (k, v) ∈ kvs → no_nul k ∧ strlen k < 65535 ∧ (∀ t, v = Some t → no_nul t ∧ strlen t < 65535)) →
  hm_count m + zlen kvs ≤ 65535 →
  ∃ brk' ih' m', fromJSON_loop items brk ih (Some m) = Ok (true, brk', ih', Some m') ∧
    srepr ih' m' (list_to_map kvs ∪ s).
Proof.
  intros Hf. revert brk ih m s.
  induction Hf as [|[k v] j kvs items (Hj1 & Hj2 & Hj3) Hf IH]; intros brk ih m s Hs Hnd Hnew Hsh Hc.
  { exists brk, ih, m. split; [done|]. by rewrite list_to_map_nil, (left_id_L ∅ (∪)). }
  apply NoDup_cons in Hnd as [Hk Hnd]. simpl in Hj1, Hj3, Hc.
  destruct (Hsh k v) as (Hn & Hl & Hv); [by left|].
  cbn [fromJSON_loop]. rewrite Hj2, Hj1, Hj3.
  destruct (putCopy_new brk ih m s (json_block xH k) k (json_block xH <$> v) v) as (b1 & ih1 & m1 & He & Hs1 & Hc1 & _).
  - done.
  - split; [done|]. by exists [].
  - done.
  - destruct v as [t|]; [|done]. destruct (Hv t eq_refl). split; [|done]. split; [done|]. by exists [].
  - apply Hnew. by left.
  - lia.
  - change (json_block 1 <$> Some k) with (Some (json_block 1 k)). rewrite He. obind.
    destruct (IH b1 ih1 m1 (<[k := v]> s)) as (b2 & ih2 & m2 & -> & Hs2); try done.
    + intros k' Hk'. rewrite lookup_insert_ne by (intros ->; done). apply Hnew. by right.
    + intros k' v' Hin. apply Hsh. by right.
    + rewrite Hc1. lia.
    + exists b2, ih2, m2. split; [done|]. rewrite list_to_map_cons, <-insert_union_l, insert_union_r; [done|].
      by apply not_elem_of_list_to_map_1.
Qed.

(** JSON round trip.  A string map whose strings fit the 16-bit lengths,
    converted with stringHashMapToJSON and back with stringHashMapFromJSON,
    gives a map with the same keys and the same string or NULL values. *)
Theorem stringHashMap_json_roundtrip ih m s tv_sec tv_usec brk :
  srepr ih m s → short s →
  ∃ j, stringHashMapToJSON (json := json) ih (Some m) = Ok (Some j) ∧
    ∃ brk' ih' m', stringHashMapFromJSON tv_sec tv_usec (Some j) brk ih = Ok (brk', ih', Some m') ∧
      srepr ih' m' s.
Proof.
  intros (bs & Hr & Hok & Hs) Hsh. unfold stringHashMapToJSON.
  rewrite (forEach_spec ih m bs toJSON_body _ (mkMapIter (-1) None None) [] (concat bs));
    [|done|by apply pos_start|rewrite (h_count _ _ _ Hr); lia].
  destruct (toJSON_fold ih (hm_seed m) (concat bs) cJSON_CreateObject (proj1 create_object)) as (j & js & -> & Ho & Hc & Hm).
  { intros a Ha. split.
    - apply list_elem_of_In, in_concat in Ha as (ys & Hys & Ha).
      apply list_elem_of_In, list_elem_of_lookup in Hys as [i Hi]. apply list_elem_of_In in Ha.
      exists i. by eapply (h_good _ _ _ Hr).
    - rewrite Forall_forall in Hok. apply Hok. unfold entries. apply list_elem_of_fmap. by exists a. }
  simpl. exists j. split; [done|]. rewrite (proj2 create_object) in Hc. simpl in Hc.
  unfold stringHashMapFromJSON. rewrite Ho, Hc. fold (entries ih bs) in Hm.
  assert (Hnd : NoDup (decode <$> entries ih bs).*1) by (apply decode_nodup; [done|by eapply entries_nodup]).
  destruct (fromJSON_loop_spec (decode <$> entries ih bs) js brk ih (stringHashMapCreate tv_sec tv_usec) ∅)
    as (b & ih' & m' & -> & Hs'); [done| |done|done| | |].
  - eexists. split; [apply create_repr|]. by split; [constructor|].
  - intros k v Hin. apply (Hsh k v). rewrite <-Hs. by apply elem_of_list_to_map_1.
  - simpl. unfold entries. rewrite !length_fmap. pose proof (h_max _ _ _ Hr). lia.
  - simpl. exists b, ih', m'. split; [done|]. rewrite (right_id_L ∅ (∪)) in Hs'. by rewrite <-Hs.
Qed.

End RoundTrip.

(** A value of exactly 65535 characters is copied as if it were NULL: its
    length with the NUL is 0 as a [uint16_t]. *)
Lemma putCopy_wraps brk ih m kp vp t :
  holds vp t → strlen t = 65535 →
  stringHashMapPutCopy brk ih (Some m) (Some kp) (Some vp) = stringHashMapPutCopy brk ih (Some m) (Some kp) None.
Proof.
  intros Hv Hl. unfold stringHashMapPutCopy. rewrite (strlen_holds vp t Hv), Hl. simpl.
  destruct (strlen_block (Some kp)); done.
Qed.

(** Copying into a map.  stringHashMapPutCopy of a new key stores a copy
    the map owns: getting the key afterwards gives the value's text, for
    values shorter than 65535 characters; a value of 65535 characters is
    reported as stored but reads back as NULL. *)
Theorem stringHashMapPutCopy_then_get brk ih m s kp k vp t :
  srepr ih m s → holds kp k → strlen k < 65535 → holds vp t → strlen t ≤ 65535 →
  s !! k = None → hm_count m < 65535 →
  ∃ brk' ih' m' r, stringHashMapPutCopy brk ih (Some m) (Some kp) (Some vp) = Ok (true, [], brk', ih', Some m') ∧
    stringHashMapCount (Some m') = stringHashMapCount (Some m) + 1 ∧
    stringHashMapGet ih' (Some m') (Some kp) = Ok r ∧
    (strlen t < 65535 → (λ b, text (b_bytes b)) <$> r = Some t) ∧
    (strlen t = 65535 → r = None).
Proof.
  intros Hs Hk Hkl Hv Hvl Hnone Hc.
  assert (Hput : ∃ v brk' ih' m', stringHashMapPutCopy brk ih (Some m) (Some kp) (Some vp)
      = Ok (true, [], brk', ih', Some m') ∧ srepr ih' m' (<[k := v]> s) ∧ hm_count m' = hm_count m + 1 ∧
      (strlen t < 65535 → v = Some t) ∧ (strlen t = 65535 → v = None)).
  { destruct (decide (strlen t < 65535)) as [Hlt|Hge].
    - destruct (putCopy_new brk ih m s kp k (Some vp) (Some t)) as (b & ih' & m' & -> & Hs' & Hc' & _); try done.
      eexists _, b, ih', m'. split; [done|]. split; [done|]. split_and!; [done|done|lia].
    - rewrite (putCopy_wraps _ _ _ _ _ t) by (done || lia).
      destruct (putCopy_new brk ih m s kp k None None) as (b & ih' & m' & -> & Hs' & Hc' & _); try done.
      eexists _, b, ih', m'. split; [done|]. split; [done|]. split_and!; [done|lia|done]. }
  destruct Hput as (v & brk' & ih' & m' & -> & Hs' & Hc' & Hv1 & Hv2).
  destruct (get_string ih' m' _ kp k Hs' Hk Hkl) as (r & Hg & Hr). rewrite lookup_insert_eq in Hr. simpl in Hr.
  exists brk', ih', m', r. split; [done|]. split; [done|]. split; [done|]. split.
  - intros H. by rewrite Hr, Hv1.
  - intros H. rewrite (Hv2 H) in Hr. by destruct r.
Qed.

(** ** Concrete inputs for the witnesses *)

(** A JSON library. *)
Inductive jtree :=
  | JNull (name : option cstring)
  | JStr (name : option cstring) (t : cstring)
  | JObj (name : option cstring) (members : list jtree).

Definition set_name (k : cstring) (j : jtree) : jtree :=
  match j with
  | JNull _ => JNull (Some k)
  | JStr _ t => JStr (Some k) t
  | JObj _ ms => JObj (Some k) ms
  end.

#[local] Instance jtree_ops : CJson jtree := {
  cJSON_CreateObject := JObj None [];
  cJSON_CreateString t := JStr None t;
  cJSON_CreateNull := JNull None;
  cJSON_AddItemToObject o k v :=
    match o with JObj n ms => JObj n (ms ++ [set_name k v]) | _ => o end;
  cJSON_IsObject j := match j with JObj _ _ => true | _ => false end;
  cJSON_IsString j := match j with JStr _ _ => true | _ => false end;
  cJSON_IsNull j := match j with JNull _ => true | _ => false end;
  cJSON_children j := match j with JObj _ ms => ms | _ => [] end;
  cJSON_string j := match j with JNull n | JStr n _ | JObj n _ => n end;
  cJSON_valuestring j := match j with JStr _ t => Some t | _ => None end
}.

#[local] Instance jtree_laws : CJsonLaws jtree.
Proof.
  split; simpl; try done.
  - by intros [] k v.
  - intros o k v Ho. exists (set_name k v). destruct o, v; done.
Qed.

Definition on_key : block := mkBlock 11%positive (str "light" ++ [NUL]).
Definition on_value : block := mkBlock 12%positive (str "on" ++ [NUL]).

Lemma empty_srepr : srepr ∅ (stringHashMapCreate 1 2) ∅.
Proof. eexists. split; [apply create_repr|]. by split; [constructor|]. Qed.

Lemma holds_str a s : no_nul (str s) → holds (mkBlock a (str s ++ [NUL])) (str s).
Proof. intros. split; [done|]. by exists []. Qed.

Lemma sample_srepr : ∃ brk' ih' m',
  stringHashMapPutCopy 20%positive ∅ (Some (stringHashMapCreate 1 2)) (Some on_key) (Some on_value)
    = Ok (true, [], brk', ih', Some m') ∧ srepr ih' m' {[str "light" := Some (str "on")]}.
Proof.
  destruct (putCopy_new 20%positive ∅ (stringHashMapCreate 1 2) ∅ on_key (str "light")
    (Some on_value) (Some (str "on"))) as (b & ih' & m' & He & Hs & _);
    [apply empty_srepr|by apply holds_str, no_nul_dec|done| |done|done|].
  { split; [by apply holds_str, no_nul_dec|done]. }
  exists b, ih', m'. by split.
Qed.

Lemma stringHashMap_json_roundtrip_witness :
  ∃ ih m j brk' ih' m', stringHashMapToJSON (json := jtree) ih (Some m) = Ok (Some j) ∧
    stringHashMapFromJSON 3 4 (Some j) 40%positive ih = Ok (brk', ih', Some m') ∧
    srepr ih' m' {[str "light" := Some (str "on")]}.
Proof.
  destruct sample_srepr as (b & ih & m & _ & Hs). exists ih, m.
  destruct (stringHashMap_json_roundtrip (json := jtree) ih m _ 3 4 40%positive Hs)
    as (j & Hj & brk' & ih' & m' & Hf & Hs').
  - intros k v Hkv. apply lookup_singleton_Some in Hkv as [<- <-].
    split; [by auto with zilker|]. split; [done|]. intros t [= <-]. split; [by auto with zilker|done].
  - by exists j, brk', ih', m'.
Defined.

Lemma stringHashMapPutCopy_then_get_witness :
  ∃ brk' ih' m' r, stringHashMapPutCopy 20%positive ∅ (Some (stringHashMapCreate 1 2)) (Some on_key) (Some on_value)
      = Ok (true, [], brk', ih', Some m') ∧
    stringHashMapGet ih' (Some m') (Some on_key) = Ok r ∧ (λ b, text (b_bytes b)) <$> r = Some (str "on").
Proof.
  destruct (stringHashMapPutCopy_then_get 20%positive ∅ (stringHashMapCreate 1 2) ∅ on_key (str "light")
    on_value (str "on")) as (b & ih' & m' & r & H1 & _ & H2 & H3 & _);
    [apply empty_srepr|by apply holds_str, no_nul_dec|done|by apply holds_str, no_nul_dec|done|done|done|].
  exists b, ih', m', r. split; [done|]. split; [done|]. by apply H3.
Defined.

End StringMapTheorems.
