(* ===== verification/StringUtils.v ===== *)
(** * stringUtils: string handling of libs/util

    Models src/source/libs/util/c/src/stringUtils.c.  Strings that are only
    read are C strings ([cstring]); buffers that are written are blocks of
    bytes with checked accesses.  The functions of the C library the code
    calls (strstr, strcmp, strcasecmp, isspace, toupper, strtoull, ...) are
    modelled for the C locale.  [fill] gives the indeterminate bytes of
    allocated memory. *)

From S2P Require Import Prelude FifoBuffer.
Import Fifo.

Module StringUtils.

(** ** The C library *)

Definition is_prefix (p s : cstring) : bool := bool_decide (take (length p) s = p).

(** Offset of the first occurrence of [needle]. *)
Fixpoint strstr (s needle : cstring) : option nat :=
  if is_prefix needle s then Some O
  else match s with [] => None | _ :: t => S <$> strstr t needle end.

Fixpoint strchr (s : cstring) (c : byte) : option nat :=
  match s with
  | [] => None
  | b :: t => if decide (b = c) then Some O else S <$> strchr t c
  end.

Definition isspace (b : byte) : bool :=
  bool_decide (9 ≤ byteZ b ≤ 13 ∨ byteZ b = 32).

Definition byte_of (z : Z) : byte := ascii_of_N (Z.to_N z).

Definition tolower (b : byte) : byte :=
  if decide (65 ≤ byteZ b ≤ 90) then byte_of (byteZ b + 32) else b.
Definition toupper (b : byte) : byte :=
  if decide (97 ≤ byteZ b ≤ 122) then byte_of (byteZ b - 32) else b.

(** strcmp and strcasecmp: the difference of the first bytes that differ,
    after the conversion [f]; the terminating NUL is smaller than any byte. *)
Fixpoint cmp_by (f : byte → byte) (a b : cstring) : Z :=
  match a, b with
  | [], [] => 0
  | [], y :: _ => - byteZ (f y)
  | x :: _, [] => byteZ (f x)
  | x :: a, y :: b => if decide (f x = f y) then cmp_by f a b else byteZ (f x) - byteZ (f y)
  end.

Definition strcmp (a b : cstring) : Z := cmp_by id a b.
Definition strcasecmp (a b : cstring) : Z := cmp_by tolower a b.
Definition strncmp (a b : cstring) (n : Z) : Z := strcmp (take (Z.to_nat n) a) (take (Z.to_nat n) b).
Definition strncasecmp (a b : cstring) (n : Z) : Z := strcasecmp (take (Z.to_nat n) a) (take (Z.to_nat n) b).

(** strtoull and strtoll *)

Definition digit_val (b : byte) : option Z :=
  let c := byteZ b in
  if decide (48 ≤ c ≤ 57) then Some (c - 48)
  else if decide (97 ≤ c ≤ 122) then Some (c - 97 + 10)
  else if decide (65 ≤ c ≤ 90) then Some (c - 65 + 10)
  else None.

Definition digit_in (base : Z) (b : byte) : option Z :=
  d ← digit_val b; if decide (d < base) then Some d else None.

(** The digits at the front of the string, and the rest. *)
Fixpoint span_digits (base : Z) (s : cstring) : list Z * cstring :=
  match s with
  | b :: t => match digit_in base b with
              | Some d => let '(ds, r) := span_digits base t in (d :: ds, r)
              | None => ([], s)
              end
  | [] => ([], [])
  end.

Definition digits_value (base : Z) (ds : list Z) : Z := foldl (λ v d, v * base + d) 0 ds.

Fixpoint skip_space (s : cstring) : cstring :=
  match s with b :: t => if isspace b then skip_space t else s | [] => [] end.

Definition take_sign (s : cstring) : bool * cstring :=
  match s with
  | b :: t => if decide (b = "-"%char) then (true, t) else if decide (b = "+"%char) then (false, t) else (false, s)
  | [] => (false, [])
  end.

(** The effective base, and the string after an "0x" prefix. *)
Definition detect_base (base : Z) (s : cstring) : Z * cstring :=
  match s with
  | z :: x :: d :: t =>
      if decide (z = "0"%char) then
        if decide ((x = "x"%char ∨ x = "X"%char) ∧ (base = 0 ∨ base = 16) ∧ is_Some (digit_in 16 d))
        then (16, d :: t)
        else (if decide (base = 0) then 8 else base, s)
      else (if decide (base = 0) then 10 else base, s)
  | z :: _ =>
      (if decide (base = 0) then if decide (z = "0"%char) then 8 else 10 else base, s)
  | [] => (if decide (base = 0) then 10 else base, s)
  end.

(** The parsed number: sign, magnitude and what follows; [None] when there
    are no digits (endptr is then the whole string, the value 0). *)
Definition parse_number (s : cstring) (base : Z) : option (bool * Z * cstring) :=
  let '(neg, s1) := take_sign (skip_space s) in
  let '(b, s2) := detect_base base s1 in
  match span_digits b s2 with
  | ([], _) => None
  | (ds, rest) => Some (neg, digits_value b ds, rest)
  end.

Definition UINT64_MAX : Z := 18446744073709551615.
Definition INT64_MAX : Z := 9223372036854775807.
Definition INT64_MIN : Z := -9223372036854775808.

Definition valid_base (base : Z) : bool := bool_decide (base = 0 ∨ 2 ≤ base ≤ 36).

(** (result, errno set, *endptr). *)
Definition strtoull (s : cstring) (base : Z) : Z * bool * cstring :=
  if valid_base base then
    match parse_number s base with
    | None => (0, false, s)
    | Some (neg, v, rest) =>
        if decide (UINT64_MAX < v) then (UINT64_MAX, true, rest)
        else ((if neg : bool then u64 (- v) else v), false, rest)
    end
  else (0, true, s).

Definition strtoll (s : cstring) (base : Z) : Z * bool * cstring :=
  if valid_base base then
    match parse_number s base with
    | None => (0, false, s)
    | Some (neg, v, rest) =>
        let n := if neg : bool then - v else v in
        if decide (n < INT64_MIN) then (INT64_MIN, true, rest)
        else if decide (INT64_MAX < n) then (INT64_MAX, true, rest)
        else (n, false, rest)
    end
  else (0, true, s).

(** printf("%u") *)
Fixpoint dec_digits (fuel : nat) (n : Z) : list Z :=
  match fuel with
  | O => []
  | S f => if decide (n < 10) then [n] else dec_digits f (n `div` 10) ++ [n `mod` 10]
  end.
Definition digit_char (d : Z) : byte := byte_of (48 + d).
Definition decimal (n : Z) : cstring := digit_char <$> dec_digits 20 n.

(** ** stringUtils.c *)

Definition stringIsEmpty (s : option cstring) : bool :=
  match s with Some (_ :: _) => false | _ => true end.

Definition stringCoalesceAlt (s alt : option cstring) : cstring :=
  let alt := default [] alt in default alt s.

Definition stringCoalesce (s : option cstring) : cstring := stringCoalesceAlt s (Some (str "(null)")).

Section Code.
Context (fill : nat → byte) (oom : bool).

(** The while loop of stringReplace. *)
Fixpoint replace_loop (fuel : nat) (buffer : option icFifoBuff) (start rep : cstring) (with_ : option cstring)
    : outcome (option icFifoBuff * cstring) :=
  match strstr start rep with
  | None => Ok (buffer, start)
  | Some ptr =>
      match fuel with
      | O => Hang
      | S fuel' =>
          buffer ← stringBufferAppendLength fill oom buffer (Some start) (u16 (Z.of_nat ptr));
          buffer ← stringBufferAppend fill oom buffer with_;
          replace_loop fuel' buffer (drop (ptr + length rep) start) rep with_
      end
  end.

Definition stringReplace (orig rep with_ : option cstring) : outcome (option cstring) :=
  if stringIsEmpty orig then Ok orig
  else if stringIsEmpty rep then Ok orig
  else
    orig ← of_option orig; rep ← of_option rep;
    buffer ← stringBufferCreate fill oom (u32 (strlen orig));
    '(buffer, start) ← replace_loop (length orig) (Some buffer) orig rep with_;
    buffer ← stringBufferAppend fill oom buffer (Some start);
    stringBufferToString buffer.

(** memmove inside a block. *)
Definition memmove (b : list byte) (dst src n : Z) : outcome (list byte) :=
  bs ← read_bytes b src n; write_bytes b dst bs.

(** [s] is a heap string: a block of strlen + 1 bytes. *)
Definition stringEdit (s : option cstring) (offset removeCount : Z) (newText : option cstring)
    : outcome (option cstring) :=
  match s with
  | None => Ok None
  | Some s =>
      let origSize := strlen s in
      if decide (origSize < offset) then Ok None
      else if decide (origSize < removeCount) then Ok None
      else if decide (origSize < u64 (offset + removeCount)) then Ok None
      else
        let replacementSize := match newText with Some t => strlen t | None => 0 end in
        let newSize := u64 (origSize - removeCount + replacementSize) in
        let removeCharsFromNew :=
          if decide (newSize < u64 (offset + removeCount))
          then u64 (removeCount - (origSize - newSize)) else removeCount in
        let b := s ++ [NUL] in
        b ← (if decide (origSize < newSize) then
               let shift := u64 (newSize - origSize + removeCharsFromNew) in
               let displacedPartSize := u64 (origSize - offset - removeCharsFromNew) in
               let b := realloc fill b (newSize + 1) in
               memmove b (offset + shift) (offset + removeCharsFromNew) displacedPartSize
             else if decide (newSize < origSize) then
               let shift := if decide (replacementSize < removeCharsFromNew) then replacementSize else 0 in
               let shrinkBy := origSize - newSize in
               let shrinkBy := if decide (shrinkBy < removeCharsFromNew) then removeCharsFromNew else shrinkBy in
               let displacedPartSize := u64 (origSize - offset - shrinkBy) in
               b ← memmove b (offset + shift) (offset + shrinkBy) displacedPartSize;
               Ok (realloc fill b (newSize + 1))
             else Ok b);
        b ← match newText with Some t => write_bytes b offset t | None => Ok b end;
        b ← write_bytes b newSize [NUL];
        r ← c_str b; Ok (Some r)
  end.

(** generateRandomToken: [random] are the values of the calls to random(). *)
Definition tokenBits : cstring :=
  str "ABCDEFGHIJKLMNOPQRSTUVWXYZabcdefghijklmnopqrstuvwxyz0123456789".

Definition generateRandomToken (random : nat → Z) (minLength maxLength : Z) : outcome (option cstring) :=
  if decide (maxLength < minLength) then Ok None
  else
    let len := u16 (random O `mod` (maxLength - minLength + 1) + minLength) in
    let token := (λ i, default NUL (tokenBits !! Z.to_nat (random (S i) `mod` strlen tokenBits)))
                   <$> seq 0 (Z.to_nat len) in
    Ok (Some token).

(** [dest] is the memory the pointer points to. *)
Definition safeStringCopy (dest : option (list byte)) (maxDestChars : Z) (src : option cstring)
    : outcome (bool * option (list byte)) :=
  match dest, src with
  | Some d, Some s =>
      if decide (maxDestChars = 0) then Ok (false, dest)
      else
        let srcLen := strlen s in
        let max := if decide (maxDestChars ≤ srcLen) then maxDestChars - 1 else srcLen in
        d ← write_bytes d 0 (take (Z.to_nat max) s);
        d ← write_bytes d max [NUL];
        Ok (true, Some d)
  | _, _ => Ok (false, dest)
  end.

Definition safeStringAppend (dest : option (list byte)) (maxDestChars : Z) (src : option cstring)
    : outcome (bool * option (list byte)) :=
  match dest, src with
  | Some d, Some s =>
      if decide (maxDestChars = 0) then Ok (false, dest)
      else
        cur ← c_str d;
        let curLen := strlen cur in
        let srcLen := strlen s in
        let charCount := if decide (maxDestChars ≤ u64 (curLen + srcLen))
                         then u64 (maxDestChars - (curLen + 1)) else srcLen in
        (* strncat appends at most charCount bytes, and a NUL *)
        d ← write_bytes d curLen (take (Z.to_nat charCount) s ++ [NUL]);
        d ← write_bytes d (u64 (curLen + charCount)) [NUL];
        Ok (true, Some d)
  | _, _ => Ok (false, dest)
  end.

Definition stringCompare (left right : option cstring) (ignoreCase : bool) : Z :=
  match left, right with
  | None, None => 0
  | Some l, Some r =>
      let rc := if ignoreCase then strcasecmp l r else strcmp l r in
      if decide (rc = 0) then 0 else if decide (rc < 0) then -1 else 1
  | None, Some _ => 1
  | Some _, None => -1
  end.

Definition stringStartsWith (s prefix : option cstring) (ignoreCase : bool) : bool :=
  match s, prefix with
  | Some s, Some p =>
      let prefLen := strlen p in
      if decide (strlen s < prefLen) then false
      else if ignoreCase then bool_decide (strncasecmp s p prefLen = 0)
      else bool_decide (strncmp s p prefLen = 0)
  | _, _ => false
  end.

Definition stringEndsWith (s suffix : option cstring) (ignoreCase : bool) : bool :=
  match s, suffix with
  | Some s, Some f =>
      let suffLen := strlen f in
      let len := strlen s in
      if decide (len < suffLen) then false
      else
        let tail := drop (Z.to_nat (len - suffLen)) s in
        if ignoreCase then bool_decide (strcasecmp tail f = 0)
        else bool_decide (strcmp tail f = 0)
  | _, _ => false
  end.

(** ** Trimming *)

Definition store (dest : list byte) (i : nat) (c : byte) : outcome (list byte) :=
  if decide (i < length dest)%nat then Ok (<[i := c]> dest) else Fault.

(** The copying loop of trimString and copyAndTrimBuffer: leading blanks are
    skipped until a character was copied. *)
Fixpoint copy_loop (ptr : cstring) (dest : list byte) (offset : nat) (gotChar : bool)
    : outcome (list byte * nat) :=
  match ptr with
  | [] => Ok (dest, offset)
  | c :: t =>
      if negb gotChar && isspace c then copy_loop t dest offset gotChar
      else dest ← store dest offset c; copy_loop t dest (S offset) true
  end.

(** The loop that walks backward over trailing blanks. *)
Fixpoint trim_loop (dest : list byte) (offset : nat) : outcome (list byte * nat) :=
  match offset with
  | O => Ok (dest, O)
  | S n =>
      c ← of_option (dest !! n);
      if isspace c then dest ← store dest n NUL; trim_loop dest n else Ok (dest, offset)
  end.

Definition copyAndTrimBuffer (dest : list byte) (src : cstring) : outcome (list byte * nat) :=
  '(dest, offset) ← copy_loop src dest O false;
  dest ← store dest offset NUL;
  trim_loop dest offset.

Definition trimString (src : option cstring) : outcome cstring :=
  match src with
  | None | Some [] => Ok []
  | Some s =>
      let retVal := fill <$> seq 0 (length s + 1) in
      '(retVal, offset) ← copy_loop s retVal O false;
      retVal ← store retVal offset NUL;
      '(retVal, _) ← trim_loop retVal offset;
      c_str retVal
  end.

(** The outputs are the caller's buffers. *)
Definition stringSplitOnToken (inputStr : option cstring) (token : byte) (leftOut rightOut : list byte)
    : outcome (bool * list byte * list byte) :=
  match inputStr with
  | None => Ok (false, leftOut, rightOut)
  | Some s =>
      if decide (token = NUL) then Ok (false, leftOut, rightOut)
      else match strchr s token with
           | Some mid =>
               '(leftOut, _) ← copyAndTrimBuffer leftOut (take mid s);
               '(rightOut, _) ← copyAndTrimBuffer rightOut (drop (S mid) s);
               Ok (true, leftOut, rightOut)
           | None => Ok (false, leftOut, rightOut)
           end
  end.

(** ** Case *)

Definition stringToLowerCase (inputStr : option cstring) : option cstring := option_map (map tolower) inputStr.
Definition stringToUpperCase (inputStr : option cstring) : option cstring := option_map (map toupper) inputStr.

Definition is_separator (c : byte) : bool :=
  bool_decide (c = "_"%char ∨ c = "-"%char ∨ c = " "%char).

Fixpoint camel_loop (s : cstring) (nextUpper : bool) : cstring :=
  match s with
  | [] => []
  | c :: t =>
      if is_separator c then camel_loop t true
      else (if nextUpper then toupper c else tolower c) :: camel_loop t false
  end.

Definition stringToCamelCase (inputStr : option cstring) : option cstring :=
  match inputStr with
  | None | Some [] => None
  | Some s => Some (camel_loop s false)
  end.

(** ** Numbers

    [None]: the function returns false; [Some n]: it returns true and writes
    [n] to its output. *)

Definition stringToUnsignedNumberWithinRange (s : option cstring) (base minValue maxValue : Z) : option Z :=
  match s with
  | None => None
  | Some s =>
      match strchr s "-"%char with
      | Some _ => None
      | None =>
          let '(result, errno, bad) := strtoull s base in
          if decide (errno = true ∨ bad ≠ [] ∨ result < minValue ∨ maxValue < result) then None
          else Some result
      end
  end.

Definition stringToUint8 (s : option cstring) : option Z :=
  u8 <$> stringToUnsignedNumberWithinRange s 0 0 255.
Definition stringToUint16 (s : option cstring) : option Z :=
  u16 <$> stringToUnsignedNumberWithinRange s 0 0 65535.
Definition stringToUint32 (s : option cstring) : option Z :=
  u32 <$> stringToUnsignedNumberWithinRange s 0 0 4294967295.
Definition stringToUint64 (s : option cstring) : option Z :=
  stringToUnsignedNumberWithinRange s 0 0 UINT64_MAX.

Definition stringToNumberWithinRange (s : option cstring) (base minValue maxValue : Z) : option Z :=
  match s with
  | None => None
  | Some s =>
      let '(result, errno, bad) := strtoll s base in
      if decide (errno = true ∨ bad ≠ [] ∨ result < minValue ∨ maxValue < result) then None
      else Some result
  end.

(** Two's complement truncation to [w] bits. *)
Definition signed (w z : Z) : Z :=
  let r := z `mod` 2 ^ w in if decide (r < 2 ^ (w - 1)) then r else r - 2 ^ w.

Definition stringToInt8 (s : option cstring) : option Z :=
  signed 8 <$> stringToNumberWithinRange s 0 (-128) 127.
Definition stringToInt16 (s : option cstring) : option Z :=
  signed 16 <$> stringToNumberWithinRange s 0 (-32768) 32767.
Definition stringToInt32 (s : option cstring) : option Z :=
  signed 32 <$> stringToNumberWithinRange s 0 (-2147483648) 2147483647.
Definition stringToInt64 (s : option cstring) : option Z :=
  stringToNumberWithinRange s 0 INT64_MIN INT64_MAX.

(** ** Booleans *)

Definition stringToBoolStrict (s : option cstring) : option bool :=
  match s with
  | None => None
  | Some s =>
      if decide (strcasecmp s (str "true") = 0 ∨ strcasecmp s (str "yes") = 0 ∨ strcmp s (str "1") = 0)
      then Some true
      else if decide (strcasecmp s (str "false") = 0 ∨ strcasecmp s (str "no") = 0 ∨ strcmp s (str "0") = 0)
      then Some false
      else None
  end.

Definition stringToBool (s : option cstring) : bool := default false (stringToBoolStrict s).

Definition stringValueOfBool (flag : bool) : cstring := if flag then str "true" else str "false".

(** ** Bitmaps *)

(** The for loop of bitmapToStr: [n] bits remain, [i] is the current one and
    [pos] the offset of currentPos in buf. *)
Fixpoint bitmap_loop (n : nat) (bitmap i : Z) (buf : list byte) (pos : Z) : outcome (list byte * Z) :=
  match n with
  | O => Ok (buf, pos)
  | S n' =>
      if decide (Z.land (Z.shiftr bitmap i) 1 ≠ 0) then
        buf ← write_bytes buf pos ("|"%char :: decimal (i + 1) ++ [NUL]);
        bitmap_loop n' bitmap (i + 1) buf (if decide (9 ≤ i) then pos + 3 else pos + 2)
      else bitmap_loop n' bitmap (i + 1) buf pos
  end.

Definition bitmapToStr (bitmap mapSize : Z) : outcome (option cstring) :=
  if decide (8 < mapSize) then Ok None
  else
    let mapBits := u8 (mapSize * 8) in
    let buf := replicate 185 NUL in
    '(buf, pos) ← bitmap_loop (Z.to_nat mapBits) bitmap 0 buf 0;
    if decide (pos = 0) then Ok (Some (str "(none)"))
    else
      buf ← write_bytes buf pos ["|"%char];
      r ← c_str buf; Ok (Some r).

End Code.


End StringUtils.
