(* ===== verification/StringUtilsTheorems.v ===== *)
(** * Theorems on stringUtils

    Replacing, editing, copying, trimming and splitting strings: what the
    functions return and that they stay inside their buffers. *)

From S2P Require Import Prelude FifoBuffer StringUtils.
Import Fifo StringUtils.

Module StringTheorems.

(** ** Trimming *)

Definition rstrip (s : cstring) : cstring := reverse (skip_space (reverse s)).
Definition strip (s : cstring) : cstring := rstrip (skip_space s).
Definition blank (s : cstring) : Prop := Forall (λ b, isspace b = true) s.

Lemma store_spec dest i c :
  (i < length dest)%nat → store dest i c = Ok (take i dest ++ c :: drop (S i) dest).
Proof.
  intros Hi. unfold store. rewrite decide_True by done. f_equal.
  rewrite insert_take_drop by done. done.
Qed.

Lemma copy_true t dest o :
  (o + length t ≤ length dest)%nat →
  copy_loop t dest o true = Ok (take o dest ++ t ++ drop (o + length t) dest, (o + length t)%nat).
Proof.
  revert dest o. induction t as [|c t IH]; intros dest o Hl; simpl in *.
  { by rewrite Nat.add_0_r, take_drop. }
  rewrite store_spec by lia. simpl.
  rewrite IH by (rewrite length_app; simpl; rewrite length_take, length_drop; lia).
  do 2 f_equal; [|lia].
  rewrite take_app_ge, drop_app_ge by (rewrite length_take; lia). rewrite length_take.
  replace (S o - o `min` length dest)%nat with 1%nat by lia. simpl.
  rewrite take_0, <-app_assoc. simpl. do 3 f_equal.
  replace (S (o + length t) - o `min` length dest)%nat with (S (length t)) by lia. simpl.
  rewrite drop_drop. f_equal. lia.
Qed.

Lemma copy_false s dest :
  (length s ≤ length dest)%nat →
  copy_loop s dest 0 false
  = Ok (skip_space s ++ drop (length (skip_space s)) dest, length (skip_space s)).
Proof.
  induction s as [|c s IH]; intros Hl; [done|].
  cbn [copy_loop skip_space negb andb]. simpl in Hl. destruct (isspace c) eqn:E; [apply IH; lia|].
  rewrite store_spec by lia. simpl.
  rewrite copy_true by (simpl; rewrite length_drop; lia). simpl.
  rewrite drop_drop. done.
Qed.

Lemma skip_space_split s : ∃ w, blank w ∧ s = w ++ skip_space s ∧
  match skip_space s with b :: _ => isspace b = false | [] => True end.
Proof.
  induction s as [|b s (w & Hw & Hs & Hh)]; simpl; [exists []; split; [constructor|done]|].
  destruct (isspace b) eqn:E; [|exists []; split; [constructor|done]].
  exists (b :: w). split; [by constructor|]. split; [simpl; congruence|done].
Qed.

Lemma skip_space_length s : (length (skip_space s) ≤ length s)%nat.
Proof. induction s as [|b s IH]; simpl; [done|]. destruct (isspace b); simpl; lia. Qed.

Lemma rstrip_snoc s b :
  rstrip (s ++ [b]) = if isspace b then rstrip s else s ++ [b].
Proof.
  unfold rstrip. rewrite reverse_snoc. simpl. destruct (isspace b); [done|].
  by rewrite reverse_cons, reverse_involutive.
Qed.

Lemma rstrip_split s : ∃ w, blank w ∧ s = rstrip s ++ w ∧
  match last (rstrip s) with Some b => isspace b = false | None => True end.
Proof.
  unfold rstrip. destruct (skip_space_split (reverse s)) as (w & Hw & Hs & Hh).
  exists (reverse w). split; [by apply Forall_reverse|]. split.
  - rewrite <-reverse_app, <-Hs. by rewrite reverse_involutive.
  - destruct (skip_space (reverse s)) as [|b t]; [done|]. by rewrite reverse_cons, last_snoc.
Qed.

Lemma trim_loop_spec s r :
  ∃ r', trim_loop (s ++ NUL :: r) (length s) = Ok (rstrip s ++ NUL :: r', length (rstrip s)) ∧
    length (rstrip s ++ NUL :: r') = length (s ++ NUL :: r).
Proof.
  revert r. induction s as [|b s IH] using rev_ind; intros r; [by exists r|].
  rewrite length_app, Nat.add_comm. cbn [trim_loop Nat.add length].
  rewrite <-app_assoc. simpl. rewrite list_lookup_middle by done. simpl.
  rewrite rstrip_snoc. destruct (isspace b) eqn:E.
  - rewrite store_spec by (rewrite length_app; simpl; lia). simpl.
    rewrite take_app_length, drop_app_ge by lia. replace (S (length s) - length s)%nat with 1%nat by lia. simpl.
    destruct (IH (NUL :: r)) as (r' & -> & Hl). exists r'. split; [done|]. rewrite Hl, !length_app. simpl. done.
  - exists r. rewrite length_app, <-app_assoc. simpl. split; [|done]. do 2 f_equal. lia.
Qed.

(** What copyAndTrimBuffer leaves in a large enough buffer. *)
Lemma copyAndTrim_spec dest s :
  (length s < length dest)%nat →
  ∃ rest, copyAndTrimBuffer dest s = Ok (strip s ++ NUL :: rest, length (strip s)) ∧
    length (strip s ++ NUL :: rest) = length dest.
Proof.
  intros Hl. unfold copyAndTrimBuffer. rewrite copy_false by lia. simpl.
  pose proof (skip_space_length s) as Hk.
  rewrite store_spec by (rewrite length_app, length_drop; lia). simpl.
  rewrite take_app_length, drop_app_ge, drop_drop by lia.
  destruct (trim_loop_spec (skip_space s) (drop (length (skip_space s) + (S (length (skip_space s)) - length (skip_space s))) dest))
    as (r' & -> & Hl'). exists r'. split; [done|]. unfold strip. rewrite Hl', length_app. simpl.
  rewrite length_drop. lia.
Qed.

Lemma strip_no_nul s : no_nul s → no_nul (strip s).
Proof.
  intros Hn. unfold strip.
  destruct (skip_space_split s) as (w & _ & Hs & _). destruct (rstrip_split (skip_space s)) as (w' & _ & Hr & _).
  unfold no_nul in *. intros Hin. apply Hn. rewrite Hs, elem_of_app. right.
  rewrite Hr, elem_of_app. by left.
Qed.

(** The value of trimString. *)
Lemma trimString_strip (fill : nat → byte) (s : cstring) : no_nul s → trimString fill (Some s) = Ok (strip s).
Proof.
  intros Hn. destruct s as [|b s]; [done|]. set (s0 := b :: s) in *.
  assert (trimString fill (Some s0)
    = ('(retVal, _) ← copyAndTrimBuffer (fill <$> seq 0 (length s0 + 1)) s0; c_str retVal)) as ->.
  { unfold trimString, copyAndTrimBuffer, s0. destruct (copy_loop _ _ _ _) as [[d o]| |]; [|done..].
    obind. by destruct (store d o NUL). }
  destruct (copyAndTrim_spec (fill <$> seq 0 (length s0 + 1)) s0) as (r & -> & _).
  { rewrite length_fmap, length_seq. lia. }
  simpl. by apply c_str_spec, strip_no_nul.
Qed.

(** trimString removes exactly the blanks at both ends: the input is its
    result with blanks before and after, and the result neither starts nor
    ends with a blank.  It stays inside the block it allocated. *)
Theorem trimString_spec (fill : nat → byte) (s : cstring) :
  no_nul s →
  ∃ t w1 w2, trimString fill (Some s) = Ok t ∧ s = w1 ++ t ++ w2 ∧ blank w1 ∧ blank w2 ∧
    match t with b :: _ => isspace b = false | [] => True end ∧
    match last t with Some b => isspace b = false | None => True end.
Proof.
  intros Hn. destruct (skip_space_split s) as (w1 & Hw1 & Hs1 & Hh).
  destruct (rstrip_split (skip_space s)) as (w2 & Hw2 & Hs2 & Hlast).
  exists (strip s), w1, w2. split_and!; [| |done|done| |done].
  - by apply trimString_strip.
  - unfold strip. by rewrite <-Hs2.
  - unfold strip in *. destruct (rstrip (skip_space s)) as [|b t] eqn:E; [done|].
    rewrite Hs2 in Hh. done.
Qed.

Lemma strchr_Some s c n : strchr s c = Some n → s = take n s ++ c :: drop (S n) s ∧ c ∉ take n s.
Proof.
  revert n. induction s as [|b s IH]; intros n; simpl; [done|].
  case_decide as Hb; intros H.
  - injection H as <-. subst. split; [done|]. simpl. apply not_elem_of_nil.
  - destruct (strchr s c) as [m|] eqn:E; [|done]. injection H as <-.
    destruct (IH m eq_refl) as [He Hn]. simpl. split; [by f_equal|]. by apply not_elem_of_cons.
Qed.

Lemma strchr_None s c : strchr s c = None → c ∉ s.
Proof.
  induction s as [|b s IH]; simpl; [intros _; apply not_elem_of_nil|].
  case_decide; [done|]. intros H1. apply not_elem_of_cons. split; [done|]. apply IH.
  by destruct (strchr s c).
Qed.

(** stringSplitOnToken cuts at the first token.  With output buffers
    larger than the input it returns true exactly when the (non-NUL) token
    occurs, never writes outside the buffers, and leaves the trimmed text
    before the first token in the left buffer and the trimmed rest in the
    right one. *)
Theorem stringSplitOnToken_spec (s : cstring) (token : byte) (l r : list byte) :
  no_nul s → token ≠ NUL → (length s < length l)%nat → (length s < length r)%nat →
  ∃ b l' r', stringSplitOnToken (Some s) token l r = Ok (b, l', r') ∧
    length l' = length l ∧ length r' = length r ∧ (b = true ↔ (token ∈ s)) ∧
    (b = true → ∃ s1 s2, s = s1 ++ token :: s2 ∧ (token ∉ s1) ∧
       c_str l' = Ok (strip s1) ∧ c_str r' = Ok (strip s2)).
Proof.
  intros Hn Ht Hl Hr. unfold stringSplitOnToken. rewrite decide_False by done.
  destruct (strchr s token) as [mid|] eqn:E; cycle 1.
  { exists false, l, r. apply strchr_None in E. split_and!; try done. }
  apply strchr_Some in E as [Hs Hnt].
  pose proof (f_equal length Hs) as Hlen. rewrite length_app in Hlen. simpl in Hlen.
  destruct (copyAndTrim_spec l (take mid s)) as (r1 & -> & Hl1); [lia|].
  destruct (copyAndTrim_spec r (drop (S mid) s)) as (r2 & -> & Hl2); [lia|]. simpl.
  eexists true, _, _. split; [done|]. split; [done|]. split; [done|]. split.
  { split; [|done]. intros _. rewrite Hs. apply elem_of_app. right. by left. }
  intros _. exists (take mid s), (drop (S mid) s). split_and!; [done|done|..];
    apply c_str_spec, strip_no_nul; [by apply no_nul_take|by apply no_nul_drop].
Qed.

(** ** Bounded copying *)

Lemma write_bytes_spec b off bs :
  0 ≤ off → off + zlen bs ≤ zlen b →
  write_bytes b off bs = Ok (take (Z.to_nat off) b ++ bs ++ drop (Z.to_nat off + length bs) b).
Proof. intros. unfold write_bytes. by rewrite decide_True by lia. Qed.

Lemma write_bytes_length b off bs b' : write_bytes b off bs = Ok b' → length b' = length b.
Proof.
  unfold write_bytes. case_decide; [|done]. intros [= <-]. rewrite !length_app, length_take, length_drop. lia.
Qed.

Lemma write_at x y rest bs :
  length bs = length y → write_bytes (x ++ y ++ rest) (zlen x) bs = Ok (x ++ bs ++ rest).
Proof.
  intros Hl. rewrite write_bytes_spec by (rewrite ?length_app; lia).
  rewrite Nat2Z.id, take_app_length, drop_app_ge by lia. do 3 f_equal.
  rewrite Hl. replace (length x + length y - length x)%nat with (length y) by lia. apply drop_app_length.
Qed.

Lemma write_nil b off : 0 ≤ off ≤ zlen b → write_bytes b off [] = Ok b.
Proof.
  intros H. rewrite write_bytes_spec by (simpl; lia). simpl. by rewrite Nat.add_0_r, take_drop.
Qed.

(** The copy. *)
Lemma safeCopy_fits (dest : list byte) (max : Z) (src : cstring) :
  0 < max ≤ 65535 → max ≤ zlen dest → no_nul src →
  ∃ d, safeStringCopy (Some dest) max (Some src) = Ok (true, Some d) ∧ length d = length dest ∧
     c_str d = Ok (take (Z.to_nat (max - 1)) src) ∧ drop (Z.to_nat max) d = drop (Z.to_nat max) dest.
Proof.
  intros Hm Hd Hn. unfold safeStringCopy. rewrite decide_False by lia. unfold strlen.
  set (t := take (Z.to_nat (max - 1)) src).
  set (k := if decide (max ≤ zlen src) then max - 1 else zlen src).
  assert (take (Z.to_nat k) src = t ∧ zlen t = k ∧ k < max) as (Ht & Hk & Hkm).
  { unfold k, t. case_decide; rewrite length_take; split_and!; try lia; [done|].
    rewrite !take_ge by lia. done. }
  rewrite Ht. pose proof (take_drop (length t) dest) as Hsp.
  rewrite write_bytes_spec by lia. obind. change (Z.to_nat 0) with O. rewrite take_0.
  destruct (drop (length t) dest) as [|y q] eqn:Ey.
  { apply (f_equal length) in Ey. rewrite length_drop in Ey. simpl in Ey. lia. }
  simpl app. change (0 + length t)%nat with (length t). rewrite Ey.
  change (t ++ y :: q) with (t ++ [y] ++ q). rewrite <-Hk, write_at by done. simpl.
  exists (t ++ NUL :: q). split; [done|].
  assert (Hlen : length (t ++ NUL :: q) = length dest).
  { apply (f_equal length) in Ey. rewrite length_drop in Ey. rewrite length_app. simpl in *. lia. }
  split; [done|]. split; [apply c_str_spec; by apply no_nul_take|].
  rewrite <-Hsp. rewrite !drop_app_ge by (rewrite ?length_take; lia).
  rewrite length_take. replace (length t `min` length dest)%nat with (length t) by lia.
  by destruct (Z.to_nat max - length t)%nat eqn:Ez; [lia|].
Qed.

(** The append. *)
Lemma safeAppend_fits (dest : list byte) (max : Z) (src cur : cstring) (rest : list byte) :
  0 < max ≤ 65535 → max ≤ zlen dest → no_nul src → zlen src < 4294967296 →
  no_nul cur → dest = cur ++ NUL :: rest → zlen cur < max →
  ∃ d, safeStringAppend (Some dest) max (Some src) = Ok (true, Some d) ∧ length d = length dest ∧
     c_str d = Ok (take (Z.to_nat (max - 1)) (cur ++ src)) ∧
     drop (Z.to_nat max) d = drop (Z.to_nat max) dest.
Proof.
  intros Hm Hd Hn Hsl. intros Hcn -> Hcl. unfold safeStringAppend. rewrite decide_False by lia.
  rewrite c_str_spec by done. obind. unfold strlen.
  rewrite length_app in Hd. simpl in Hd.
  rewrite (u64_small (zlen cur + zlen src)) by lia.
  set (k := if decide (max ≤ zlen cur + zlen src) then u64 (max - (zlen cur + 1)) else zlen src).
  set (t := take (Z.to_nat k) src).
  assert (zlen t = k ∧ k + zlen cur < max ∧ take (Z.to_nat (max - 1)) (cur ++ src) = cur ++ t) as (Hk & Hkm & Htk).
  { unfold t, k. case_decide; rewrite ?length_take.
    - rewrite u64_small by lia. split_and!; try lia.
      rewrite take_app_ge by lia. f_equal. f_equal. lia.
    - split_and!; try lia. rewrite !take_ge by (rewrite ?length_app; lia). done. }
  rewrite Htk. pose proof (take_drop (length t) rest) as Hsp.
  assert (Hr : (length t ≤ length rest)%nat) by lia.
  set (q := drop (length t) rest). set (p := take (length t) rest) in *. fold q in Hsp.
  assert (Hp : length p = length t) by (unfold p; rewrite length_take; lia).
  assert (Hb : cur ++ NUL :: rest = cur ++ (NUL :: p) ++ q) by (by rewrite <-Hsp).
  rewrite Hb, write_at by (rewrite length_app; simpl; lia). obind.
  rewrite u64_small by lia. rewrite <-app_assoc. simpl.
  replace (cur ++ t ++ NUL :: q) with ((cur ++ t) ++ [NUL] ++ q) by (by rewrite <-app_assoc).
  replace (zlen cur + k) with (zlen (cur ++ t)) by (rewrite length_app; lia).
  rewrite write_at by done. simpl. eexists. split; [done|]. split_and!.
  + rewrite !length_app. simpl. rewrite length_app. lia.
  + apply c_str_spec. apply no_nul_app; [done|by apply no_nul_take].
  + rewrite !drop_app_ge by (rewrite ?length_app; lia). rewrite length_app.
    replace (NUL :: p ++ q) with ((NUL :: p) ++ q) by done.
    destruct (Z.to_nat max - (length cur + length t))%nat eqn:Ez; [lia|].
    rewrite drop_app_ge by (simpl; lia). simpl. f_equal. simpl. lia.
Qed.

(** Bounded copy and append.  Given a destination of at least maxDestChars
    bytes, safeStringCopy writes the longest prefix of the source that fits
    with its NUL; safeStringAppend, when the destination holds a string
    shorter than maxDestChars, extends it by the longest prefix that fits.
    Neither writes outside the first maxDestChars bytes. *)
Theorem safeString_bounded (dest : list byte) (max : Z) (src cur : cstring) (rest : list byte) :
  0 < max ≤ 65535 → max ≤ zlen dest → no_nul src → zlen src < 4294967296 →
  (∃ d, safeStringCopy (Some dest) max (Some src) = Ok (true, Some d) ∧ length d = length dest ∧
     c_str d = Ok (take (Z.to_nat (max - 1)) src) ∧ drop (Z.to_nat max) d = drop (Z.to_nat max) dest) ∧
  (no_nul cur → dest = cur ++ NUL :: rest → zlen cur < max →
   ∃ d, safeStringAppend (Some dest) max (Some src) = Ok (true, Some d) ∧ length d = length dest ∧
     c_str d = Ok (take (Z.to_nat (max - 1)) (cur ++ src)) ∧
     drop (Z.to_nat max) d = drop (Z.to_nat max) dest).
Proof.
  intros Hm Hd Hn Hsl. split; [by apply safeCopy_fits|]. intros. by eapply safeAppend_fits.
Qed.

(** ** Replacing *)

Lemma is_prefix_spec p s : is_prefix p s = true ↔ ∃ r, s = p ++ r.
Proof.
  unfold is_prefix. rewrite bool_decide_eq_true. split.
  - intros H. exists (drop (length p) s). rewrite <-H at 1. by rewrite take_drop.
  - intros [r ->]. apply take_app_length.
Qed.

Lemma strstr_Some s rep n :
  strstr s rep = Some n → s = take n s ++ rep ++ drop (n + length rep) s ∧ (n + length rep ≤ length s)%nat.
Proof.
  revert n. induction s as [|b s IH]; intros n; cbn [strstr]; destruct (is_prefix _ _) eqn:E.
  1, 3: intros [= <-]; apply is_prefix_spec in E as [r ->]; simpl;
    rewrite drop_app_length, length_app; split; [done|lia].
  - done.
  - destruct (strstr s rep) as [m|]; [|done]. intros [= <-].
    destruct (IH m eq_refl) as [He Hl]. simpl. split; [by f_equal|lia].
Qed.

(** The needle does not occur before the end of [s ++ rep]. *)
Definition first_at (rep s : cstring) : Prop := strstr (s ++ rep) rep = Some (length s).

Lemma strstr_cut s rep n : strstr s rep = Some n → first_at rep (take n s).
Proof.
  unfold first_at. revert n. induction s as [|b s IH]; intros n; cbn [strstr].
  - destruct (is_prefix rep []) eqn:E; [|done]. intros [= <-]. simpl.
    apply is_prefix_spec in E as [r E]. by destruct rep.
  - destruct (is_prefix rep (b :: s)) eqn:E.
    + intros [= <-]. simpl. destruct rep as [|c rep]; cbn [strstr]; [done|].
      assert (is_prefix (c :: rep) (c :: rep) = true) as -> by (apply is_prefix_spec; exists []; by rewrite app_nil_r).
      done.
    + destruct (strstr s rep) as [m|] eqn:Es; [|done]. intros [= <-]. simpl. cbn [strstr].
      destruct (is_prefix rep (b :: take m s ++ rep)) eqn:E2.
      * exfalso. apply is_prefix_spec in E2 as [r E2].
        assert (is_prefix rep (b :: s) = true); [|congruence].
        apply strstr_Some in Es as [Hs _]. apply is_prefix_spec. rewrite Hs.
        exists (r ++ drop (m + length rep) s).
        by rewrite (app_assoc rep), <-E2, !app_comm_cons, <-!app_assoc.
      * by rewrite (IH m eq_refl).
Qed.

(** The pieces of a string between the occurrences, with what separates
    them. *)
Definition pieces (sep : cstring) (segs : list cstring) (rest : cstring) : cstring :=
  concat ((λ s, s ++ sep) <$> segs) ++ rest.

Section Replace.
Context (fill : nat → byte) (oom : bool) (Hoom : oom = false).

Lemma append_prefix b t s n limit :
  (n ≤ length s)%nat → 0 ≤ limit → text b t (limit + Z.of_nat n + chunkSize b) →
  ∃ b', stringBufferAppendLength fill oom (Some b) (Some s) (Z.of_nat n) = Ok (Some b') ∧
    text b' (t ++ take n s) limit ∧ chunkSize b' = chunkSize b.
Proof.
  intros Hn Hl Ht. cbn [stringBufferAppendLength]. case_decide as Hp.
  - destruct (text_push_prefix fill oom b t s (Z.of_nat n) limit Hoom Ht Hl) as (b' & -> & Ht' & Hk); [lia|].
    rewrite Nat2Z.id in Ht'. by exists b'.
  - replace n with O by lia. exists b. rewrite take_0, app_nil_r. split_and!; [done| |done].
    assert (64 ≤ chunkSize b) by (destruct Ht as [[] _]; done). eapply text_weaken; [done|lia].
Qed.

Lemma replace_loop_spec fuel b t start rep w limit :
  rep ≠ [] → (length start ≤ fuel)%nat → zlen start ≤ 65535 → 0 ≤ limit →
  text b t (limit + zlen start * (zlen w + 2 * chunkSize b + 1)) →
  ∃ b' segs rest, replace_loop fill oom fuel (Some b) start rep (Some w) = Ok (Some b', rest) ∧
    start = pieces rep segs rest ∧ Forall (first_at rep) segs ∧ strstr rest rep = None ∧
    text b' (t ++ concat ((λ s, s ++ w) <$> segs)) (limit + zlen rest * (zlen w + 2 * chunkSize b + 1)) ∧
    chunkSize b' = chunkSize b.
Proof.
  intros Hrep. revert b t start. induction fuel as [|fuel IH]; intros b t start Hf Hs Hl Ht;
    cbn [replace_loop]; destruct (strstr start rep) as [n|] eqn:E.
  - destruct start; simpl in Hf; [|lia]. apply strstr_Some in E as [_ Hn].
    destruct rep; [done|]. simpl in Hn. lia.
  - exists b, [], start. rewrite app_nil_r. split_and!; try done.
  - pose proof (strstr_cut _ _ _ E) as Hfirst. apply strstr_Some in E as [Hst Hn].
    assert (0 < length rep)%nat by (destruct rep; [done|simpl; lia]).
    assert (64 ≤ chunkSize b) by (destruct Ht as [[] _]; done).
    rewrite u16_small by lia. set (rst := drop (n + length rep) start) in *.
    assert (Hrl : zlen start = Z.of_nat n + zlen rep + zlen rst) by (unfold rst; rewrite length_drop; lia).
    set (c := zlen w + 2 * chunkSize b + 1) in *.
    destruct (append_prefix b t start n (limit + zlen rst * c + zlen w + chunkSize b)) as (b1 & He1 & Ht1 & Hk1).
    { lia. }
    { nia. }
    { eapply text_weaken; [done|]. unfold c in *. rewrite Hrl. nia. }
    rewrite He1. obind.
    destruct (text_push fill oom b1 (t ++ take n start) w (limit + zlen rst * c) Hoom) as (b2 & He2 & Ht2 & Hk2);
      [by rewrite Hk1|nia|].
    cbn [stringBufferAppend]. unfold strlen. rewrite He2. obind.
    destruct (IH b2 ((t ++ take n start) ++ w) rst) as (b' & segs & rest & He & Hp & Hfs & Hr & Ht' & Hk');
      [unfold rst; rewrite length_drop; lia|lia|done|rewrite Hk2, Hk1; done|].
    exists b', (take n start :: segs), rest. split_and!; [done| |by constructor|done| |congruence].
    + rewrite Hst at 1. rewrite Hp. unfold pieces. simpl. by rewrite <-!app_assoc.
    + rewrite Hk2, Hk1 in Ht'. rewrite fmap_cons. cbn [concat].
      rewrite <-!app_assoc in Ht'. rewrite <-!app_assoc. exact Ht'.
  - exists b, [], start. rewrite app_nil_r. split_and!; try done.
Qed.

End Replace.

(** stringReplace replaces every occurrence, left to right.  The original
    is cut at the occurrences a repeated leftmost search finds: no piece
    contains the search text before its end and the rest does not contain it;
    the result is the same pieces with the replacement between them.  The
    bound keeps the string buffer below 2 GiB; segments up to 65535 bytes are
    what the 16-bit length in the code allows. *)
Theorem stringReplace_spec (fill : nat → byte) (orig rep w : cstring) :
  orig ≠ [] → rep ≠ [] → zlen orig ≤ 65535 →
  (zlen orig + 1) * (zlen w + 4 * Z.max (zlen orig) 1024 + 1) < 1073741824 →
  ∃ segs rest, stringReplace fill false (Some orig) (Some rep) (Some w) = Ok (Some (pieces w segs rest)) ∧
    orig = pieces rep segs rest ∧ Forall (first_at rep) segs ∧ strstr rest rep = None.
Proof.
  intros Ho Hr Hol Hb. unfold stringReplace.
  destruct orig as [|o orig]; [done|]. destruct rep as [|r rep]; [done|].
  set (s := o :: orig) in *. cbn [stringIsEmpty of_option mbind outcome_bind]. unfold strlen.
  assert (0 < zlen s) by (simpl; lia). rewrite u32_small by lia.
  set (M := Z.max (zlen s) 1024) in *.
  destruct (text_create fill false (zlen s) ((zlen s + 1) * (zlen w + 2 * M + 1)) eq_refl) as (b & -> & Ht & Hk);
    [lia|nia|]. obind.
  assert (64 ≤ chunkSize b) by (destruct Ht as [[] _]; done).
  destruct (replace_loop_spec fill false eq_refl (length s) b [] s (r :: rep) w (zlen s + M)) as
    (b1 & segs & rest & -> & Hp & Hfs & Hn & Ht1 & Hk1); [done|lia|done|lia| |].
  { eapply text_weaken; [done|]. fold M in Hk. nia. }
  cbn [mbind outcome_bind stringBufferAppend]. unfold strlen.
  assert (Hrl : zlen rest ≤ zlen s).
  { rewrite Hp. unfold pieces. rewrite length_app. lia. }
  destruct (text_push fill false b1 (concat ((λ s, s ++ w) <$> segs)) rest 0 eq_refl) as (b2 & -> & Ht2 & _);
    [eapply text_weaken; [exact Ht1|]; fold M in Hk; nia|lia|].
  obind. rewrite (text_toString _ _ _ Ht2).
  exists segs, rest. split_and!; [done|done|done|done].
Qed.

(** ** Editing *)

Lemma memmove_spec p q w dst :
  0 ≤ dst → dst + zlen q ≤ zlen (p ++ q ++ w) →
  memmove (p ++ q ++ w) dst (zlen p) (zlen q)
  = Ok (take (Z.to_nat dst) (p ++ q ++ w) ++ q ++ drop (Z.to_nat dst + length q) (p ++ q ++ w)).
Proof.
  intros Hd Hl. unfold memmove, read_bytes. rewrite decide_True by (rewrite !length_app; lia).
  rewrite !Nat2Z.id, drop_app_length, take_app_length. simpl. by rewrite write_bytes_spec.
Qed.

(** The block of the edited string before the new text and the NUL are
    written: prefix, room for the text, suffix, and one byte. *)
Definition shaped (x z : cstring) (r : nat) (b : list byte) : Prop :=
  ∃ m e, b = x ++ m ++ z ++ [e] ∧ length m = r.

Lemma shaped_intro x z r (w q : list byte) :
  length w = r → (0 < length q)%nat → shaped x z r (take (length x + r + length z + 1) (x ++ w ++ z ++ q)).
Proof.
  intros Hw Hq. destruct q as [|e q]; simpl in Hq; [lia|]. exists w, e. split; [|done].
  replace (x ++ w ++ z ++ e :: q) with ((x ++ w ++ z ++ [e]) ++ q) by (by rewrite <-!app_assoc).
  apply take_app_length'. rewrite !length_app. simpl. lia.
Qed.

Lemma shaped_finish x z t b newSize :
  shaped x z (length t) b → newSize = zlen x + zlen t + zlen z → no_nul x → no_nul t → no_nul z →
  (b ← write_bytes b (zlen x) t; b ← write_bytes b newSize [NUL]; r ← c_str b; Ok (Some r))
  = Ok (Some (x ++ t ++ z)).
Proof.
  intros (m & e & -> & Hm) -> Hx Ht Hz. rewrite write_at by done. obind.
  replace (x ++ t ++ z ++ [e]) with ((x ++ t ++ z) ++ [e] ++ []) by (by rewrite <-!app_assoc).
  replace (zlen x + zlen t + zlen z) with (zlen (x ++ t ++ z)) by (rewrite !length_app; lia).
  rewrite write_at by done. obind. simpl.
  rewrite c_str_spec; [done|]. auto with zilker.
Qed.

Section Edit.
Context (fill : nat → byte).

Lemma realloc_shrink b n : n ≤ zlen b → realloc fill b n = take (Z.to_nat n) b.
Proof.
  intros Hn. unfold realloc. replace (Z.to_nat n - length b)%nat with O by lia. apply app_nil_r.
Qed.

(** The text grows: the tail moves right. *)
Lemma edit_grow x y z r :
  (length y < r)%nat →
  let b := realloc fill ((x ++ y ++ z) ++ [NUL]) (zlen x + Z.of_nat r + zlen z + 1) in
  ∃ b', memmove b (zlen x + Z.of_nat r) (zlen x + zlen y) (zlen z) = Ok b' ∧ shaped x z r b'.
Proof.
  intros Hr. unfold realloc.
  rewrite take_ge by (rewrite !length_app; simpl; lia).
  set (f := fill <$> _).
  assert (Hf : length f = (r - length y)%nat).
  { unfold f. rewrite length_fmap, length_seq, !length_app. simpl. lia. }
  replace (((x ++ y ++ z) ++ [NUL]) ++ f) with ((x ++ y) ++ z ++ NUL :: f) by (by rewrite <-!app_assoc).
  replace (zlen x + zlen y) with (zlen (x ++ y)) by (rewrite length_app; lia).
  rewrite memmove_spec by (rewrite ?length_app; simpl; rewrite ?length_app; lia).
  eexists. split; [done|].
  replace (Z.to_nat (zlen x + Z.of_nat r)) with (length x + r)%nat by lia.
  rewrite <-app_assoc, take_app_add.
  set (w := take r (y ++ z ++ NUL :: f)). set (q := drop _ _).
  assert (Hw : length w = r) by (unfold w; rewrite length_take, !length_app; simpl; lia).
  assert (Hq : length q = 1%nat).
  { unfold q. rewrite length_drop, !length_app. simpl. lia. }
  destruct q as [|e [|]]; try done. exists w, e. by rewrite <-app_assoc.
Qed.

(** The text shrinks, the removed region ends inside the new string, or is
    exactly covered by the shift: the tail moves left behind the text. *)
Lemma edit_shrink x y z r shift src :
  (r < length y)%nat → (shift ≤ r)%nat → (src + r = shift + length y)%nat →
  let tail := drop src y ++ z in
  ∃ b', (b ← memmove ((x ++ y ++ z) ++ [NUL]) (zlen x + Z.of_nat shift) (zlen x + Z.of_nat src) (zlen tail);
         Ok (realloc fill b (zlen x + Z.of_nat r + zlen z + 1))) = Ok b' ∧ shaped x z r b'.
Proof.
  intros Hr Hs Hsrc tail.
  assert (Ht : length tail = (r - shift + length z)%nat).
  { unfold tail. rewrite length_app, length_drop. lia. }
  assert (Hb : (x ++ y ++ z) ++ [NUL] = (x ++ take src y) ++ tail ++ [NUL]).
  { unfold tail. rewrite <-!app_assoc. f_equal. rewrite <-(take_drop src y) at 1. by rewrite <-!app_assoc. }
  replace (zlen x + Z.of_nat src) with (zlen (x ++ take src y)) by (rewrite length_app, length_take; lia).
  rewrite Hb, memmove_spec; [|lia|rewrite !length_app, length_take; simpl; lia].
  rewrite <-Hb. obind. eexists. split; [done|].
  replace (Z.to_nat (zlen x + Z.of_nat shift)) with (length x + shift)%nat by lia.
  rewrite <-app_assoc, take_app_add, <-app_assoc.
  set (w1 := take shift (y ++ z ++ [NUL])). set (q := drop _ (x ++ _)).
  assert (Hw1 : length w1 = shift) by (unfold w1; rewrite length_take, !length_app; lia).
  assert (Hq : (0 < length q)%nat) by (unfold q; rewrite length_drop, !length_app; simpl; lia).
  unfold tail. rewrite <-app_assoc. set (w2 := drop src y).
  assert (Hw2 : length w2 = (r - shift)%nat) by (unfold w2; rewrite length_drop; lia).
  fold w1. rewrite realloc_shrink by (rewrite ?length_app; lia).
  replace (Z.to_nat _) with (length x + r + length z + 1)%nat by lia.
  rewrite <-app_assoc, (app_assoc w1). apply shaped_intro; [rewrite length_app; lia|done].
Qed.

(** Nothing behind the removed region: any move of what is left keeps the
    shape. *)
Lemma edit_shrink_end x y r :
  (r < length y)%nat → (length y < 2 * r)%nat →
  ∃ b', (b ← memmove ((x ++ y ++ []) ++ [NUL]) (zlen x + 0) (zlen x + Z.of_nat r) (zlen y - Z.of_nat r);
         Ok (realloc fill b (zlen x + Z.of_nat r + 0 + 1))) = Ok b' ∧ shaped x [] r b'.
Proof.
  intros Hr Hy. rewrite app_nil_r. set (n := zlen x + Z.of_nat r + 0 + 1).
  assert (Hb : (x ++ y) ++ [NUL] = (x ++ take r y) ++ drop r y ++ [NUL]).
  { rewrite <-!app_assoc. f_equal. rewrite <-(take_drop r y) at 1. by rewrite <-app_assoc. }
  assert (Hd : length (drop r y) = (length y - r)%nat) by apply length_drop.
  replace (zlen x + Z.of_nat r) with (zlen (x ++ take r y)) by (rewrite length_app, length_take; lia).
  replace (zlen x + 0) with (zlen x) by lia.
  replace (zlen y - Z.of_nat r) with (zlen (drop r y)) by lia.
  rewrite Hb, memmove_spec; [|lia|rewrite !length_app, length_take; simpl; lia].
  obind. eexists. split; [done|].
  rewrite Nat2Z.id, <-Hb, <-app_assoc, take_app_length.
  set (w := drop r y) in *. set (q := drop _ (x ++ _)).
  assert (Hq : length q = (r + 1)%nat).
  { unfold q. rewrite length_drop, !length_app. simpl. lia. }
  unfold n. rewrite realloc_shrink by (rewrite ?length_app; simpl; lia).
  replace (Z.to_nat _) with (length x + r + length (@nil byte) + 1)%nat by (simpl; lia).
  rewrite <-(take_drop (r - length w) q), (app_assoc w).
  apply (shaped_intro x [] r (w ++ take (r - length w) q) (drop (r - length w) q)).
  - rewrite length_app, length_take. lia.
  - rewrite length_drop. lia.
Qed.

(** The case in which the shrinking move takes the tail from the wrong
    place. *)
Definition misplaced (n o c r : Z) : Prop := r < c ∧ c < 2 * r ∧ n - c + r < o + c ∧ o + c < n.

(** The block before the text is written, for a prefix [x], removed part [y]
    and suffix [z]. *)
Lemma edit_block x y z r b :
  ¬ misplaced (zlen (x ++ y ++ z)) (zlen x) (zlen y) (Z.of_nat r) →
  zlen (x ++ y ++ z) + Z.of_nat r < 9223372036854775808 →
  let origSize := zlen (x ++ y ++ z) in
  let newSize := zlen x + Z.of_nat r + zlen z in
  let removeCharsFromNew := if decide (newSize < zlen x + zlen y)
    then u64 (zlen y - (origSize - newSize)) else zlen y in
  b = (x ++ y ++ z) ++ [NUL] →
  ∃ b', (if decide (origSize < newSize) then
           let shift := u64 (newSize - origSize + removeCharsFromNew) in
           let displacedPartSize := u64 (origSize - zlen x - removeCharsFromNew) in
           let b := realloc fill b (newSize + 1) in
           memmove b (zlen x + shift) (zlen x + removeCharsFromNew) displacedPartSize
         else if decide (newSize < origSize) then
           let shift := if decide (Z.of_nat r < removeCharsFromNew) then Z.of_nat r else 0 in
           let shrinkBy := origSize - newSize in
           let shrinkBy := if decide (shrinkBy < removeCharsFromNew) then removeCharsFromNew else shrinkBy in
           let displacedPartSize := u64 (origSize - zlen x - shrinkBy) in
           b ← memmove b (zlen x + shift) (zlen x + shrinkBy) displacedPartSize;
           Ok (realloc fill b (newSize + 1))
         else Ok b) = Ok b' ∧ shaped x z r b'.
Proof.
  intros Hbad Hsz origSize newSize rm ->. unfold misplaced in Hbad.
  assert (Horig : origSize = zlen x + zlen y + zlen z) by (unfold origSize; rewrite !length_app; lia).
  rewrite !length_app in Hbad, Hsz. clearbody origSize.
  destruct (decide (origSize < newSize)); [|destruct (decide (newSize < origSize))]; simpl.
  - assert (rm = zlen y) as -> by (unfold rm; case_decide; lia).
    rewrite !u64_small by lia.
    replace (newSize - origSize + zlen y) with (Z.of_nat r) by lia.
    replace (origSize - zlen x - zlen y) with (zlen z) by lia. apply edit_grow. lia.
  - unfold rm. destruct (decide (newSize < zlen x + zlen y)) as [HA|HA].
    + rewrite (u64_small (zlen y - _)) by lia.
      replace (zlen y - (origSize - newSize)) with (Z.of_nat r) by lia.
      rewrite (decide_False (P := Z.of_nat r < Z.of_nat r)) by lia.
      destruct (decide (origSize - newSize < Z.of_nat r)) as [Hc|Hc].
      * assert (zlen z = 0) as Hz by lia. destruct z; [|simpl in Hz; lia].
        rewrite u64_small by (simpl in *; lia). unfold newSize. simpl length.
        replace (origSize - zlen x - Z.of_nat r) with (zlen y - Z.of_nat r) by (simpl in *; lia).
        apply edit_shrink_end; lia.
      * rewrite u64_small by lia.
        destruct (edit_shrink x y z r 0 (length y - r)) as (b' & He & Hs); [lia..|].
        rewrite length_app, length_drop in He.
        replace (origSize - newSize) with (Z.of_nat (length y - r)) by lia.
        replace (origSize - zlen x - Z.of_nat (length y - r)) with
          (Z.of_nat (length y - (length y - r) + length z)) by lia.
        exists b'. split; [exact He|done].
    + rewrite (decide_True (P := Z.of_nat r < zlen y)) by lia.
      assert ((if decide (origSize - newSize < zlen y) then zlen y else origSize - newSize) = zlen y) as ->
        by (case_decide; lia).
      rewrite u64_small by lia.
      destruct (edit_shrink x y z r r (length y)) as (b' & He & Hs); [lia..|].
      rewrite length_app, length_drop, Nat.sub_diag in He.
      replace (origSize - zlen x - zlen y) with (Z.of_nat (0 + length z)) by lia.
      exists b'. split; [exact He|done].
  - exists ((x ++ y ++ z) ++ [NUL]). split; [done|]. exists y, NUL. rewrite <-!app_assoc. split; [done|]. lia.
Qed.

End Edit.

(** stringEdit replaces a range.  It returns NULL when the range does not
    lie inside the string; otherwise the result is the string with the range
    replaced by the new text, without touching memory outside the block --
    except when the text shrinks, is longer than half the removed range, the
    range ends beyond the new end and there is text behind it ([misplaced]):
    there the tail is taken from the wrong offset, as the last part shows. *)
Theorem stringEdit_spec (fill : nat → byte) (s : cstring) (o c : Z) (t : option cstring) :
  0 ≤ o → 0 ≤ c → no_nul s → no_nul (default [] t) → zlen s + zlen (default [] t) < 9223372036854775808 →
  (zlen s < o + c → stringEdit fill (Some s) o c t = Ok None ∨ 18446744073709551616 ≤ o + c) ∧
  (o + c ≤ zlen s → ¬ misplaced (zlen s) o c (zlen (default [] t)) →
   stringEdit fill (Some s) o c t
   = Ok (Some (take (Z.to_nat o) s ++ default [] t ++ drop (Z.to_nat (o + c)) s))) ∧
  stringEdit fill (Some (str "abcdefgh")) 2 5 (Some (str "XYZ")) = Ok (Some (str "abXYZf")).
Proof.
  intros Ho Hc Hn Htn Hsz. split_and!.
  - intros Hl. destruct (decide (18446744073709551616 ≤ o + c)); [by right|left].
    unfold stringEdit, strlen. rewrite u64_small by lia. by repeat case_decide; try lia.
  - intros Hl Hbad. unfold stringEdit, strlen.
    set (x := take (Z.to_nat o) s). set (z := drop (Z.to_nat (o + c)) s).
    set (y := take (Z.to_nat c) (drop (Z.to_nat o) s)).
    assert (Hs : s = x ++ y ++ z).
    { unfold x, y, z. replace (Z.to_nat (o + c)) with (Z.to_nat o + Z.to_nat c)%nat by lia.
      by rewrite <-drop_drop, take_drop, take_drop. }
    assert (Hxl : zlen x = o) by (unfold x; rewrite length_take; lia).
    assert (Hyl : zlen y = c) by (unfold y; rewrite length_take, length_drop; lia).
    clearbody x y z. subst s o c. rewrite length_app in Hl, Hbad, Hsz. rewrite length_app in Hl, Hbad, Hsz.
    unfold no_nul in Hn. rewrite !elem_of_app in Hn.
    rewrite (decide_False (P := zlen _ < zlen x)) by (rewrite !length_app; lia).
    rewrite (decide_False (P := zlen _ < zlen y)) by (rewrite !length_app; lia).
    rewrite u64_small by lia.
    rewrite (decide_False (P := zlen _ < zlen x + zlen y)) by (rewrite !length_app; lia).
    set (rz := match t with Some t => zlen t | None => 0 end).
    assert (Hrz : rz = Z.of_nat (length (default [] t))) by (unfold rz; by destruct t).
    assert (Hnew : u64 (zlen (x ++ y ++ z) - zlen y + rz) = zlen x + Z.of_nat (length (default [] t)) + zlen z).
    { rewrite Hrz, u64_small; rewrite !length_app; lia. }
    rewrite Hnew, Hrz.
    destruct (edit_block fill x y z (length (default [] t)) ((x ++ y ++ z) ++ [NUL])) as (b' & He & Hsh);
      [by rewrite !length_app|rewrite !length_app; lia|done|].
    simpl in He |- *. rewrite He. obind.
    rewrite <-(shaped_finish x z (default [] t) b' _ Hsh eq_refl) by (unfold no_nul in *; tauto).
    destruct t as [t|]; [done|]. simpl default. destruct Hsh as (m & e & -> & Hm).
    rewrite (write_nil _ (zlen x)) by (rewrite !length_app; lia). done.
  - vm_compute. reflexivity.
Qed.

(** ** Witnesses *)

Definition zeros (_ : nat) : byte := NUL.

Lemma trimString_spec_witness :
  ∃ t w1 w2, trimString zeros (Some (str "  a b ")) = Ok t ∧ str "  a b " = w1 ++ t ++ w2 ∧ t = str "a b".
Proof.
  destruct (trimString_spec zeros (str "  a b ")) as (t & w1 & w2 & He & Hs & _); [by auto with zilker|].
  exists t, w1, w2. split; [done|]. split; [done|]. vm_compute in He. by injection He as <-.
Defined.

Lemma stringSplitOnToken_spec_witness :
  ∃ l' r', stringSplitOnToken (Some (str "abc. 12")) "."%char (replicate 8 NUL) (replicate 8 NUL) = Ok (true, l', r') ∧
    c_str l' = Ok (str "abc") ∧ c_str r' = Ok (str "12").
Proof.
  destruct (stringSplitOnToken_spec (str "abc. 12") "."%char (replicate 8 NUL) (replicate 8 NUL))
    as (b & l' & r' & He & _ & _ & _ & _); [by auto with zilker|done|simpl; lia|simpl; lia|].
  exists l', r'. vm_compute in He. injection He as <- <- <-. by vm_compute.
Defined.

Lemma safeString_bounded_witness :
  ∃ d d', safeStringCopy (Some (replicate 4 NUL)) 4 (Some (str "abcdef")) = Ok (true, Some d) ∧
    c_str d = Ok (str "abc") ∧
    safeStringAppend (Some (replicate 4 NUL)) 4 (Some (str "abcdef")) = Ok (true, Some d') ∧
    c_str d' = Ok (str "abc").
Proof.
  destruct (safeString_bounded (replicate 4 NUL) 4 (str "abcdef") [] (replicate 3 NUL))
    as [(d & H1 & _ & H2 & _) Happ]; [lia|simpl; lia|by auto with zilker|simpl; lia|].
  destruct Happ as (d' & H3 & _ & H4 & _); [by auto with zilker|done|simpl; lia|].
  exists d, d'. by split_and!.
Defined.

Lemma stringReplace_spec_witness :
  ∃ segs rest, stringReplace zeros false (Some (str "a.b.c")) (Some (str ".")) (Some (str "--"))
      = Ok (Some (pieces (str "--") segs rest)) ∧
    str "a.b.c" = pieces (str ".") segs rest ∧ pieces (str "--") segs rest = str "a--b--c".
Proof.
  destruct (stringReplace_spec zeros (str "a.b.c") (str ".") (str "--")) as (segs & rest & He & Hs & _);
    [done|done|simpl; lia|simpl; lia|].
  exists segs, rest. split; [done|]. split; [done|].
  assert (Hr : stringReplace zeros false (Some (str "a.b.c")) (Some (str ".")) (Some (str "--"))
    = Ok (Some (str "a--b--c"))) by (vm_compute; reflexivity).
  rewrite He in Hr. by injection Hr.
Defined.

Lemma stringEdit_spec_witness :
  stringEdit zeros (Some (str "hello world")) 6 5 (Some (str "there!")) = Ok (Some (str "hello there!")).
Proof.
  destruct (stringEdit_spec zeros (str "hello world") 6 5 (Some (str "there!"))) as (_ & H & _);
    [lia|lia|by auto with zilker|by auto with zilker|simpl; lia|].
  apply H; [simpl; lia|]. unfold misplaced. simpl. lia.
Defined.

End StringTheorems.
