(* ===== verification/StringNumbers.v ===== *)
(** * Theorems on stringUtils: numbers, bitmaps and comparison

    Parsing the numbers the program prints, the fixed buffer of bitmapToStr,
    and stringCompare. *)

From S2P Require Import Prelude FifoBuffer StringUtils StringUtilsTheorems.
Import Fifo StringUtils StringTheorems.

Module StringNumbers.

(** ** Numbers *)

Definition digit (d : Z) : Prop := 0 ≤ d < 10.

(** A statement about the digits 0 to 9 that evaluation decides. *)
Lemma digit_cases (P : Z → Prop) :
  P 0 → P 1 → P 2 → P 3 → P 4 → P 5 → P 6 → P 7 → P 8 → P 9 → ∀ d, digit d → P d.
Proof.
  unfold digit. intros H0 H1 H2 H3 H4 H5 H6 H7 H8 H9 d Hd.
  assert (d = 0 ∨ d = 1 ∨ d = 2 ∨ d = 3 ∨ d = 4 ∨ d = 5 ∨ d = 6 ∨ d = 7 ∨ d = 8 ∨ d = 9) as H by lia.
  by destruct H as [->|[->|[->|[->|[->|[->|[->|[->|[->| ->]]]]]]]]].
Qed.

Lemma digit_char_in d : digit d → digit_in 10 (digit_char d) = Some d.
Proof. revert d. by apply digit_cases. Qed.

(** A digit is neither blank, sign, minus nor NUL; only 0 is '0'. *)
Lemma digit_char_plain d : digit d →
  isspace (digit_char d) = false ∧ digit_char d ≠ "-"%char ∧ digit_char d ≠ "+"%char ∧
  digit_char d ≠ NUL ∧ (digit_char d = "0"%char → d = 0).
Proof. revert d. apply digit_cases; split_and!; by vm_compute. Qed.

Lemma dec_digits_spec fuel n :
  0 ≤ n < 10 ^ Z.of_nat fuel → (0 < fuel)%nat →
  Forall digit (dec_digits fuel n) ∧ digits_value 10 (dec_digits fuel n) = n ∧
  (∃ d ds, dec_digits fuel n = d :: ds ∧ (d = 0 → n = 0)).
Proof.
  revert n. induction fuel as [|fuel IH]; intros n Hn Hf; [lia|]. cbn [dec_digits]. case_decide as Hlt.
  { split_and!; [by repeat constructor; lia|done|]. by exists n, []. }
  assert (0 < fuel)%nat. { destruct fuel; [|lia]. simpl in Hn. lia. }
  assert (Hq : 0 ≤ n `div` 10 < 10 ^ Z.of_nat fuel).
  { rewrite Nat2Z.inj_succ, Z.pow_succ_r in Hn by lia. split; [apply Z.div_pos; lia|].
    apply Z.div_lt_upper_bound; lia. }
  destruct (IH (n `div` 10) Hq) as (Hd & Hv & d & ds & He & Hz); [done|].
  split_and!.
  - apply Forall_app. split; [done|]. repeat constructor; apply Z.mod_pos_bound; lia.
  - unfold digits_value in *. rewrite foldl_app, Hv. simpl. pose proof (Z.div_mod n 10). lia.
  - rewrite He. exists d, (ds ++ [n `mod` 10]). split; [done|]. intros H0.
    specialize (Hz H0). pose proof (Z.div_str_pos n 10). lia.
Qed.

Lemma span_decimal ds : Forall digit ds → span_digits 10 (digit_char <$> ds) = (ds, []).
Proof.
  induction 1 as [|d ds Hd _ IH]; [done|]. cbn [fmap list_fmap span_digits].
  rewrite digit_char_in by done. change (list_fmap _ _ digit_char ds) with (digit_char <$> ds). by rewrite IH.
Qed.

Lemma detect_decimal b t : b ≠ "0"%char → detect_base 0 (b :: t) = (10, b :: t).
Proof. intros Hb. destruct t as [|x [|y t]]; simpl; by rewrite (decide_False (P := b = "0"%char)). Qed.

(** Parsing a printed number, behind an optional minus sign. *)
Lemma parse_decimal n (neg : bool) :
  0 ≤ n < 10 ^ 20 →
  parse_number ((if neg then ["-"%char] else []) ++ decimal n) 0 = Some (neg, n, []).
Proof.
  intros Hn. unfold parse_number, decimal.
  destruct (dec_digits_spec 20 n) as (Hd & Hv & d & ds & He & Hz); [done|lia|].
  rewrite He in *. apply Forall_cons in Hd as [Hd Hds].
  destruct (digit_char_plain d Hd) as (Hsp & Hm & Hpl & _ & H0).
  assert (Hskip : skip_space (digit_char <$> d :: ds) = digit_char <$> d :: ds).
  { rewrite fmap_cons. simpl. by rewrite Hsp. }
  assert (Hsign : take_sign (skip_space ((if neg then ["-"%char] else []) ++ (digit_char <$> d :: ds)))
    = (neg, digit_char <$> d :: ds)).
  { destruct neg; [done|]. change (take_sign (skip_space (digit_char <$> d :: ds)) = (false, digit_char <$> d :: ds)).
    rewrite Hskip, fmap_cons. simpl. by rewrite !decide_False. }
  rewrite Hsign. destruct (decide (d = 0)) as [->|Hd0].
  - specialize (Hz eq_refl). subst n. vm_compute in He. injection He as <-. done.
  - rewrite fmap_cons, detect_decimal by (intros ?%H0; done). rewrite <-fmap_cons.
    rewrite span_decimal by (by constructor). by rewrite Hv.
Qed.

Lemma decimal_no_minus n : 0 ≤ n < 10 ^ 20 → strchr (decimal n) "-"%char = None.
Proof.
  intros Hn. unfold decimal. destruct (dec_digits_spec 20 n) as (Hd & _); [done|lia|].
  induction Hd as [|d ds Hd _ IH]; [done|]. cbn [fmap list_fmap strchr].
  destruct (digit_char_plain d Hd) as (_ & Hm & _). rewrite decide_False by done.
  change (list_fmap _ _ digit_char ds) with (digit_char <$> ds). by rewrite IH.
Qed.

Lemma range_check (n lo hi : Z) :
  (if decide (false = true ∨ [] ≠ ([] : cstring) ∨ n < lo ∨ hi < n) then None else Some n)
  = if decide (lo ≤ n ≤ hi) then Some n else None.
Proof.
  destruct (decide (lo ≤ n ≤ hi)).
  - rewrite decide_False; [done|]. intros [?|[?|[?|?]]]; try done; lia.
  - rewrite decide_True; [done|]. right. right. lia.
Qed.

Lemma unsigned_decimal n lo hi :
  0 ≤ n ≤ UINT64_MAX →
  stringToUnsignedNumberWithinRange (Some (decimal n)) 0 lo hi
  = if decide (lo ≤ n ≤ hi) then Some n else None.
Proof.
  intros Hn. unfold stringToUnsignedNumberWithinRange. unfold UINT64_MAX in *.
  rewrite decimal_no_minus by lia. unfold strtoull. simpl valid_base. cbv iota.
  pose proof (parse_decimal n false ltac:(lia)) as Hp. simpl app in Hp. rewrite Hp. unfold UINT64_MAX. rewrite (decide_False (P := _ < n)) by lia.
  apply range_check.
Qed.

(** A signed number as printf("%d") prints it. *)
Definition signed_decimal (n : Z) : cstring :=
  (if bool_decide (n < 0) then ["-"%char] else []) ++ decimal (Z.abs n).

Lemma signed_decimal_range n lo hi :
  INT64_MIN ≤ n ≤ INT64_MAX →
  stringToNumberWithinRange (Some (signed_decimal n)) 0 lo hi
  = if decide (lo ≤ n ≤ hi) then Some n else None.
Proof.
  intros Hn. unfold stringToNumberWithinRange, INT64_MIN, INT64_MAX in *. unfold strtoll, signed_decimal.
  simpl valid_base. cbv iota. rewrite parse_decimal by lia. unfold INT64_MIN, INT64_MAX.
  assert ((if bool_decide (n < 0) then - Z.abs n else Z.abs n) = n) as Hab by (case_bool_decide; lia).
  cbv zeta. rewrite Hab. rewrite (decide_False (P := n < _)) by lia. rewrite (decide_False (P := _ < n)) by lia.
  apply range_check.
Qed.

(** Unsigned numbers survive printing and parsing, at every width.  The
    decimal text of a 64-bit number parses back to the number when it fits
    the width of the conversion, and is refused otherwise. *)
Theorem stringToUint_roundtrip (n : Z) :
  0 ≤ n ≤ UINT64_MAX →
  stringToUint8 (Some (decimal n)) = (if decide (n ≤ 255) then Some n else None) ∧
  stringToUint16 (Some (decimal n)) = (if decide (n ≤ 65535) then Some n else None) ∧
  stringToUint32 (Some (decimal n)) = (if decide (n ≤ 4294967295) then Some n else None) ∧
  stringToUint64 (Some (decimal n)) = Some n.
Proof.
  intros Hn. unfold stringToUint8, stringToUint16, stringToUint32, stringToUint64.
  rewrite !unsigned_decimal by done.
  split_and!; repeat case_decide; try lia; simpl; try done; f_equal; apply Z.mod_small; lia.
Qed.

Lemma signed_small w n : 0 < w → - 2 ^ (w - 1) ≤ n < 2 ^ (w - 1) → signed w n = n.
Proof.
  intros Hw Hn. assert (2 ^ w = 2 * 2 ^ (w - 1)) as Hp.
  { rewrite <-Z.pow_succ_r by lia. f_equal. lia. }
  unfold signed. destruct (decide (0 ≤ n)).
  - rewrite Z.mod_small by lia. case_decide; lia.
  - rewrite <-(Z.mod_unique_pos n (2 ^ w) (-1) (n + 2 ^ w)) by lia. case_decide; lia.
Qed.

(** Signed numbers survive printing and parsing, at every width: the text
    of a 64-bit number, with its minus sign, parses back when it fits and is
    refused otherwise. *)
Theorem stringToInt_roundtrip (n : Z) :
  INT64_MIN ≤ n ≤ INT64_MAX →
  stringToInt8 (Some (signed_decimal n)) = (if decide (-128 ≤ n ≤ 127) then Some n else None) ∧
  stringToInt16 (Some (signed_decimal n)) = (if decide (-32768 ≤ n ≤ 32767) then Some n else None) ∧
  stringToInt32 (Some (signed_decimal n)) = (if decide (-2147483648 ≤ n ≤ 2147483647) then Some n else None) ∧
  stringToInt64 (Some (signed_decimal n)) = Some n.
Proof.
  intros Hn. unfold stringToInt8, stringToInt16, stringToInt32, stringToInt64.
  rewrite !signed_decimal_range by done.
  split_and!; repeat case_decide; try lia; simpl; try done; f_equal; apply signed_small; lia.
Qed.

(** ** Bitmaps *)

(** The text for [n] bits from bit [i] on. *)
Fixpoint slots (n : nat) (bitmap i : Z) : cstring :=
  match n with
  | O => []
  | S n => (if Z.testbit bitmap i then "|"%char :: decimal (i + 1) else []) ++ slots n bitmap (i + 1)
  end.

Lemma bit_set bitmap i : Z.land (Z.shiftr bitmap i) 1 ≠ 0 ↔ Z.testbit bitmap i = true.
Proof.
  change 1 with (Z.ones 1). rewrite Z.land_ones by lia. rewrite Z.testbit_odd.
  change (2 ^ 1) with 2. rewrite Zmod_odd. by destruct (Z.odd _).
Qed.

(** Characters of the first [i] slots, at most. *)
Definition width (i : Z) : Z := if decide (9 ≤ i) then 3 * i - 9 else 2 * i.

Definition slot_ok (i : nat) : bool :=
  bool_decide (zlen (decimal (Z.of_nat i + 1)) = if decide (9 ≤ Z.of_nat i) then 2 else 1) &&
  bool_decide (NUL ∉ decimal (Z.of_nat i + 1)).

Lemma slot_decimal i : 0 ≤ i < 64 →
  zlen (decimal (i + 1)) = (if decide (9 ≤ i) then 2 else 1) ∧ no_nul (decimal (i + 1)).
Proof.
  intros Hi. assert (H : forallb slot_ok (seq 0 64) = true) by (vm_compute; reflexivity).
  rewrite forallb_forall in H. specialize (H (Z.to_nat i)). rewrite in_seq in H.
  specialize (H ltac:(lia)). unfold slot_ok in H. rewrite Z2Nat.id in H by lia.
  apply andb_prop in H as [H1 H2]. apply bool_decide_eq_true in H1, H2. done.
Qed.

Lemma slots_no_nul n bitmap i : 0 ≤ i → i + Z.of_nat n ≤ 64 → no_nul (slots n bitmap i).
Proof.
  revert i. induction n as [|n IH]; intros i H0 Hn; cbn [slots]; [apply not_elem_of_nil|].
  apply no_nul_app; [|apply IH; lia]. destruct (Z.testbit bitmap i); [|apply not_elem_of_nil].
  apply not_elem_of_cons. split; [done|]. apply slot_decimal. lia.
Qed.

Lemma write_in_zeros pre w n :
  (length w ≤ n)%nat →
  write_bytes (pre ++ replicate n NUL) (zlen pre) w = Ok ((pre ++ w) ++ replicate (n - length w) NUL).
Proof.
  intros Hn. replace n with (length w + (n - length w))%nat at 1 by lia. rewrite replicate_add.
  rewrite write_at by (by rewrite length_replicate). by rewrite app_assoc.
Qed.

Lemma bitmap_loop_spec n bitmap i pre :
  0 ≤ i → i + Z.of_nat n ≤ 64 → zlen pre ≤ width i →
  bitmap_loop n bitmap i (pre ++ replicate (185 - length pre) NUL) (zlen pre)
  = Ok ((pre ++ slots n bitmap i) ++ replicate (185 - length (pre ++ slots n bitmap i)) NUL,
        zlen (pre ++ slots n bitmap i)) ∧
  zlen (pre ++ slots n bitmap i) ≤ width (i + Z.of_nat n).
Proof.
  revert i pre. induction n as [|n IH]; intros i pre H0 Hn Hp; cbn [bitmap_loop slots].
  { rewrite app_nil_r, Z.add_0_r. done. }
  assert (Hw : width i + (if decide (9 ≤ i) then 3 else 2) ≤ width (i + 1) ∧ width i ≤ width (i + 1) ∧ width i ≤ 180).
  { unfold width. repeat case_decide; lia. }
  destruct (decide (Z.land (Z.shiftr bitmap i) 1 ≠ 0)) as [Hb|Hb].
  - pose proof (proj1 (bit_set bitmap i) Hb) as ->.
    destruct (slot_decimal i) as [Hl _]; [lia|].
    set (w := "|"%char :: decimal (i + 1)).
    assert (Hwl : zlen w = if decide (9 ≤ i) then 3 else 2) by (unfold w; simpl; case_decide; lia).
    change ("|"%char :: decimal (i + 1) ++ [NUL]) with (w ++ [NUL]).
    assert (zlen w ≤ 3) by (rewrite Hwl; case_decide; lia). clearbody w.
    rewrite write_in_zeros by (rewrite length_app; simpl; lia). obind.
    assert ((pre ++ w ++ [NUL]) ++ replicate (185 - length pre - length (w ++ [NUL])) NUL
            = (pre ++ w) ++ replicate (185 - length (pre ++ w)) NUL) as ->.
    { rewrite !length_app. simpl. rewrite <-!app_assoc. do 2 f_equal. simpl.
      replace (185 - (length pre + length w))%nat with (S (185 - length pre - (length w + 1)))%nat by lia. done. }
    assert ((if decide (9 ≤ i) then zlen pre + 3 else zlen pre + 2) = zlen (pre ++ w)) as ->.
    { rewrite length_app, Nat2Z.inj_add, Hwl. by case_decide. }
    destruct (IH (i + 1) (pre ++ w)) as [-> Hle]; [lia|lia|rewrite length_app, Nat2Z.inj_add, Hwl; lia|].
    rewrite <-!app_assoc in *. split; [done|]. by replace (i + Z.of_nat (S n)) with (i + 1 + Z.of_nat n) by lia.
  - assert (Z.testbit bitmap i = false) as ->.
    { destruct (Z.testbit bitmap i) eqn:E; [|done]. by apply bit_set in E. }
    simpl app. replace (i + Z.of_nat (S n)) with (i + 1 + Z.of_nat n) by lia. apply IH; lia.
Qed.

(** The 185-byte buffer of bitmapToStr is large enough.  For any bitmap of
    up to 8 bytes no write leaves the buffer, and the result lists exactly
    the numbers of the set bits, counted from 1, between bars -- or "(none)". *)
Theorem bitmapToStr_spec (bitmap mapSize : Z) :
  0 ≤ mapSize ≤ 8 →
  bitmapToStr bitmap mapSize
  = Ok (Some (match slots (Z.to_nat (mapSize * 8)) bitmap 0 with
              | [] => str "(none)"
              | t => t ++ str "|"
              end)).
Proof.
  intros Hm. unfold bitmapToStr. rewrite decide_False by lia.
  assert (u8 (mapSize * 8) = mapSize * 8) as -> by (apply Z.mod_small; lia).
  set (n := Z.to_nat (mapSize * 8)).
  destruct (bitmap_loop_spec n bitmap 0 []) as [He Hle]; [lia|lia|done|].
  rewrite !app_nil_l in He. rewrite app_nil_l in Hle. change (185 - length (@nil byte))%nat with 185%nat in He.
  change (zlen (@nil byte)) with 0 in He. rewrite He. obind.
  assert (Hw : width (0 + Z.of_nat n) ≤ 183) by (unfold width; case_decide; lia).
  pose proof (slots_no_nul n bitmap 0 ltac:(lia) ltac:(lia)) as Hnn.
  destruct (slots n bitmap 0) as [|c t] eqn:E; [done|]. rewrite decide_False by (simpl; lia).
  rewrite write_in_zeros by (simpl length in *; lia). obind.
  replace (185 - length (c :: t) - length ["|"%char])%nat with (S (183 - length (c :: t)))
    by (simpl length in *; lia).
  cbn [replicate]. rewrite c_str_spec; [done|]. by auto with zilker.
Qed.

(** ** Comparing *)

Lemma cmp_by_sym f a b : cmp_by f a b = - cmp_by f b a.
Proof.
  revert b. induction a as [|x a IH]; intros [|y b]; simpl; try lia.
  destruct (decide (f x = f y)) as [E|E].
  - rewrite decide_True by done. apply IH.
  - rewrite decide_False by (intros H; by apply E). lia.
Qed.

Lemma cmp_by_zero f a b :
  (∀ x, f x = NUL → x = NUL) → no_nul a → no_nul b → cmp_by f a b = 0 ↔ f <$> a = f <$> b.
Proof.
  intros Hf. revert b. induction a as [|x a IH]; intros [|y b] Ha Hb; cbn [cmp_by]; try done.
  - split; [|done]. intros H. exfalso. unfold no_nul in Hb. apply not_elem_of_cons in Hb as [Hb _].
    apply Hb. symmetry. apply Hf. apply byteZ_inj. change (byteZ NUL) with 0. lia.
  - split; [|done]. intros H. exfalso. unfold no_nul in Ha. apply not_elem_of_cons in Ha as [Ha _].
    apply Ha. symmetry. apply Hf. apply byteZ_inj. change (byteZ NUL) with 0. lia.
  - unfold no_nul in Ha, Hb. apply not_elem_of_cons in Ha as [_ Ha]. apply not_elem_of_cons in Hb as [_ Hb].
    rewrite !fmap_cons. case_decide as E.
    + rewrite IH by done. split; [by intros ->; rewrite E|by intros [= _ ?]].
    + split; [|by intros [= ? _]]. intros H. exfalso. apply E, byteZ_inj. lia.
Qed.

Lemma tolower_nul x : tolower x = NUL → x = NUL.
Proof.
  unfold tolower. case_decide as H; [|done]. intros E. exfalso.
  assert (byteZ (byte_of (byteZ x + 32)) = 0) as Hz by (by rewrite E).
  unfold byte_of, byteZ in *. rewrite N_ascii_embedding in Hz by lia. lia.
Qed.

Lemma strcmp_eq a b : no_nul a → no_nul b → strcmp a b = 0 ↔ a = b.
Proof. intros Ha Hb. unfold strcmp. rewrite cmp_by_zero by done. by rewrite !list_fmap_id. Qed.

Lemma stringCompare_equal l r :
  no_nul l → no_nul r → stringCompare (Some l) (Some r) false = 0 ↔ l = r.
Proof.
  intros Hl Hr. unfold stringCompare, strcmp.
  pose proof (cmp_by_zero id l r ltac:(done) Hl Hr) as Hz. rewrite !list_fmap_id in Hz.
  rewrite <-Hz. repeat case_decide; lia.
Qed.

(** stringCompare is a comparison.  It is antisymmetric for every pair of
    strings, NULL included (NULL sorts after every string), its values are
    -1, 0 and 1, and it is 0 exactly for equal strings -- equal up to ASCII
    case when the case is ignored. *)
Theorem stringCompare_spec (l r : option cstring) (ignoreCase : bool) :
  (∀ s, l = Some s → no_nul s) → (∀ s, r = Some s → no_nul s) →
  stringCompare l r ignoreCase = - stringCompare r l ignoreCase ∧
  stringCompare l r ignoreCase ∈ [-1; 0; 1] ∧
  (stringCompare l r ignoreCase = 0 ↔
     if ignoreCase then stringToLowerCase l = stringToLowerCase r else l = r).
Proof.
  intros Hl Hr. destruct l as [l|], r as [r|]; simpl; cycle 1.
  1, 2, 3: split_and!; [done|set_solver|destruct ignoreCase; done].
  specialize (Hl l eq_refl). specialize (Hr r eq_refl).
  set (f := if ignoreCase then tolower else id).
  assert ((if ignoreCase then strcasecmp l r else strcmp l r) = cmp_by f l r) as ->
    by (unfold f; by destruct ignoreCase).
  assert ((if ignoreCase then strcasecmp r l else strcmp r l) = cmp_by f r l) as ->
    by (unfold f; by destruct ignoreCase).
  assert (Hz : cmp_by f l r = 0 ↔ f <$> l = f <$> r).
  { apply cmp_by_zero; try done. unfold f. destruct ignoreCase; [apply tolower_nul|done]. }
  pose proof (cmp_by_sym f l r) as Hsym. split_and!.
  - repeat case_decide; lia.
  - repeat case_decide; set_solver.
  - assert (Hd : (if decide (cmp_by f l r = 0) then 0 else if decide (cmp_by f l r < 0) then -1 else 1) = 0
      ↔ cmp_by f l r = 0) by (repeat case_decide; lia).
    rewrite Hd, Hz. unfold f. destruct ignoreCase.
    + change (map tolower l) with (tolower <$> l). change (map tolower r) with (tolower <$> r).
      split; [by intros ->|by intros [= ?]].
    + rewrite !list_fmap_id. split; [by intros ->|by intros [= ?]].
Qed.

(** ** Witnesses *)

Lemma stringToUint_roundtrip_witness :
  stringToUint8 (Some (decimal 200)) = Some 200 ∧ stringToUint64 (Some (decimal 200)) = Some 200.
Proof. destruct (stringToUint_roundtrip 200) as (H1 & _ & _ & H2); [unfold UINT64_MAX; lia|]. by split. Defined.

Lemma stringToInt_roundtrip_witness :
  stringToInt8 (Some (signed_decimal (-200))) = None ∧ stringToInt16 (Some (signed_decimal (-200))) = Some (-200).
Proof.
  destruct (stringToInt_roundtrip (-200)) as (H1 & H2 & _); [unfold INT64_MIN, INT64_MAX; lia|]. by split.
Defined.

Lemma bitmapToStr_spec_witness : bitmapToStr 513 2 = Ok (Some (str "|1|10|")).
Proof. rewrite (bitmapToStr_spec 513 2) by lia. vm_compute. reflexivity. Defined.

Lemma stringCompare_spec_witness :
  stringCompare (Some (str "Ab")) (Some (str "aB")) true = - stringCompare (Some (str "aB")) (Some (str "Ab")) true ∧
  stringCompare (Some (str "Ab")) (Some (str "aB")) true = 0.
Proof.
  destruct (stringCompare_spec (Some (str "Ab")) (Some (str "aB")) true) as (H1 & _ & H2);
    [intros s [= <-]; by auto with zilker|intros s [= <-]; by auto with zilker|].
  split; [done|]. apply H2. by vm_compute.
Defined.

End StringNumbers.

(** Lemmas on the digits strtoull and strtoll read, for numbers written in
    hexadecimal. *)
Import StringNumbers.

Module HexNumbers.

Lemma span_snoc base l ds b d : span_digits base l = (ds, []) → digit_in base b = Some d → span_digits base (l ++ [b]) = (ds ++ [d], []).
Proof.
  revert ds. induction l as [|c l IH]; intros ds; cbn [span_digits app].
  - intros [= <-] ->. done.
  - destruct (digit_in base c) as [x|]; [|done]. destruct (span_digits base l) as [ds' r] eqn:E. intros [= <- ->] Hb.
    by rewrite (IH ds' eq_refl Hb).
Qed.

Lemma span_all_digits base l ds c : span_digits base l = (ds, []) → c ∈ l → is_Some (digit_in base c).
Proof.
  revert ds. induction l as [|x l IH]; intros ds; cbn [span_digits]; [by intros _ ?%elem_of_nil|].
  destruct (digit_in base x) as [d|] eqn:E; [|done]. destruct (span_digits base l) as [ds' r]. intros [= <- ->].
  intros [->|Hc]%elem_of_cons; [by rewrite E|by apply (IH ds')].
Qed.

Lemma span_nonneg base l ds r : span_digits base l = (ds, r) → Forall (λ d, 0 ≤ d) ds.
Proof.
  revert ds. induction l as [|b l IH]; intros ds; cbn [span_digits]; [by intros [= <- <-]|].
  destruct (digit_in base b) as [d|] eqn:E; [|by intros [= <- <-]]. destruct (span_digits base l) as [ds' r'] eqn:El. intros [= <- ->].
  constructor; [|by apply IH]. unfold digit_in, digit_val in E. cbn in E. repeat case_decide; simplify_eq/=; repeat case_decide; simplify_eq; lia.
Qed.

Lemma value_nonneg base ds : 0 ≤ base → Forall (λ d, 0 ≤ d) ds → 0 ≤ digits_value base ds.
Proof.
  intros Hb Hf. unfold digits_value. assert (∀ v, 0 ≤ v → 0 ≤ foldl (λ v d, v * base + d) v ds) as Hall; [|by apply Hall].
  induction Hf as [|d ds Hd Hf IH]; intros v Hv; cbn; [done|]. apply IH. nia.
Qed.

(** Neither white space, nor a sign, nor the x of a prefix. *)
Lemma digit_not_special c : is_Some (digit_in 16 c) → isspace c = false ∧ c ≠ "-"%char ∧ c ≠ "+"%char ∧ c ≠ "x"%char ∧ c ≠ "X"%char.
Proof.
  intros [d Hd]. destruct c as [b0 b1 b2 b3 b4 b5 b6 b7].
  destruct b0, b1, b2, b3, b4, b5, b6, b7; vm_compute in Hd |- *; try discriminate Hd; by split_and!.
Qed.

Lemma parse_hex l ds : span_digits 16 l = (ds, []) → (3 ≤ length l)%nat → parse_number l 16 = Some (false, digits_value 16 ds, []) ∧ skip_space l = l.
Proof.
  intros Hs Hlen. pose proof (λ c, span_all_digits 16 l ds c Hs) as Hall.
  destruct l as [|a [|b [|c t]]]; [cbn in Hlen; lia..|].
  destruct (digit_not_special a) as (Ha1 & Ha2 & Ha3 & _); [apply Hall; set_solver|].
  destruct (digit_not_special b) as (_ & _ & _ & Hb1 & Hb2); [apply Hall; set_solver|].
  assert (skip_space (a :: b :: c :: t) = a :: b :: c :: t) as Hsk by (cbn [skip_space]; by rewrite Ha1).
  split; [|done]. unfold parse_number. rewrite Hsk. cbn [take_sign]. rewrite !decide_False by done. cbn [detect_base].
  rewrite (decide_False (P := (b = _ ∨ _) ∧ _)) by naive_solver. rewrite !(decide_False (P := 16 = 0)) by lia.
  assert (ds ≠ []) as Hne by (intros ->; destruct (Hall a) as [x Hx]; [set_solver|]; cbn [span_digits] in Hs; rewrite Hx in Hs; by repeat case_match; simplify_eq).
  by destruct (decide (a = "0"%char)); cbv beta iota zeta; rewrite Hs; destruct ds.
Qed.

End HexNumbers.
