(* ===== verification/UtilFormats.v ===== *)
(** * Release versions and hardware addresses

    Models of src/source/libs/util/c/src: version.c (Module ReleaseVersions; a
    release is written R_SU_MR_HF_build, the build number being SNAPSHOT for
    builds that have none) and macAddrUtils.c (Module MacAddrs; a hardware
    address is six bytes, written in hexadecimal with colons, where leading
    zeros may be missing, or as twelve digits, the uuid of a device).  Looking
    addresses up in the ARP table is not modelled. *)

From S2P Require Import Prelude StringUtils StringUtilsTheorems StringNumbers.
Import StringUtils StringTheorems StringNumbers HexNumbers.

Module ReleaseVersions.

(** ** strtok_r *)

(** The parts between the delimiters that are not empty. *)
Fixpoint split_on (c : byte) (s acc : cstring) : list cstring :=
  match s with
  | [] => if decide (acc = []) then [] else [acc]
  | x :: t =>
      if decide (x = c) then if decide (acc = []) then split_on c t [] else acc :: split_on c t []
      else split_on c t (acc ++ [x])
  end.

Definition strtok_r (s : cstring) (c : byte) : list cstring := split_on c s [].

Definition plain_of (c : byte) (s : cstring) : Prop := c ∉ s ∧ s ≠ [].

Lemma split_on_plain c s t acc : c ∉ s → split_on c (s ++ t) acc = split_on c t (acc ++ s).
Proof.
  revert acc. induction s as [|x s IH]; intros acc Hs; cbn [split_on app]; [by rewrite app_nil_r|].
  apply not_elem_of_cons in Hs as [Hx Hs]. rewrite decide_False by done. rewrite IH by done. by rewrite <-app_assoc.
Qed.

(** Parts that are not empty, each followed by the delimiter. *)
Lemma strtok_parts c l : Forall (plain_of c) l → strtok_r (concat ((λ s, s ++ [c]) <$> l)) c = l.
Proof.
  unfold strtok_r. induction 1 as [|s l [Hs Hne] Hf IH]; [done|]. cbn [fmap list_fmap concat]. rewrite <-app_assoc.
  rewrite split_on_plain by done. cbn [app split_on]. rewrite decide_True, decide_False by done. by rewrite IH.
Qed.

(** ** Versions *)

Definition UNDERSCORE : byte := "_"%char.
Definition SNAPSHOT_BUILD_NUMBER : Z := -99.

Record icVersion := mkVersion {
  releaseNumber : Z;
  serviceUpdateNumber : Z;
  maintenanceReleaseNumber : Z;
  hotfixNumber : Z;
  buildNumber : Z;
  buildNumTolerance : Z;
  isSnapshot : bool
}.

(** The build number, and whether it is a snapshot. *)
Definition parse_build (token : cstring) : Z * bool :=
  if decide (strcmp token (str "SNAPSHOT") = 0) then (SNAPSHOT_BUILD_NUMBER, true)
  else (default 0 (stringToInt64 (Some token)), false).

(** A token that is not a number leaves its field 0. *)
Definition parseVersionString (versionStr : option cstring) (target : icVersion) : bool * icVersion :=
  match versionStr with
  | None => (false, target)
  | Some s =>
      let tokens := strtok_r (s ++ str "_") UNDERSCORE in
      let '(build, snapshot) := match tokens !! 4%nat with Some t => parse_build t | None => (0, false) end in
      (bool_decide (2 ≤ Nat.min 5 (length tokens))%nat,
       mkVersion (default 0 (stringToUint8 (tokens !! 0%nat))) (default 0 (stringToUint8 (tokens !! 1%nat)))
         (default 0 (stringToUint8 (tokens !! 2%nat))) (default 0 (stringToUint64 (tokens !! 3%nat))) build 0 snapshot)
  end.

Definition produceVersionString (info : icVersion) : cstring :=
  decimal (releaseNumber info) ++ str "_" ++ decimal (serviceUpdateNumber info) ++ str "_" ++
  decimal (maintenanceReleaseNumber info) ++ str "_" ++ decimal (hotfixNumber info) ++ str "_" ++
  (if isSnapshot info then str "SNAPSHOT" else signed_decimal (buildNumber info)).

(** The comparison of one number: -1, 1, or the rest. *)
Definition compare_number (l r : Z) (rest : outcome Z) : outcome Z :=
  if decide (r < l) then Ok (-1) else if decide (l < r) then Ok 1 else rest.

(** The build numbers are added in int64_t. *)
Definition add_i64 (a b : Z) : outcome Z := if decide (INT64_MIN ≤ a + b ≤ INT64_MAX) then Ok (a + b) else Fault.

Definition compareVersions (left right : icVersion) : outcome Z :=
  compare_number (releaseNumber left) (releaseNumber right)
    (compare_number (serviceUpdateNumber left) (serviceUpdateNumber right)
       (compare_number (maintenanceReleaseNumber left) (maintenanceReleaseNumber right)
          (compare_number (hotfixNumber left) (hotfixNumber right)
             (if isSnapshot left || isSnapshot right then Ok (-1)
              else b ← add_i64 (buildNumber left) (buildNumTolerance left); compare_number b (buildNumber right) (Ok 0))))).

Definition isVersionEmpty (info : icVersion) : bool :=
  bool_decide (releaseNumber info = 0 ∧ serviceUpdateNumber info = 0 ∧ maintenanceReleaseNumber info = 0 ∧ hotfixNumber info = 0 ∧
    (buildNumber info = 0 ∨ buildNumber info = SNAPSHOT_BUILD_NUMBER)).

(** ** Reading what was written *)

(** The fields of a version that was parsed: in their ranges, no tolerance,
    and the build number of a snapshot. *)
Record proper (v : icVersion) : Prop := {
  pr_release : 0 ≤ releaseNumber v ≤ 255;
  pr_service : 0 ≤ serviceUpdateNumber v ≤ 255;
  pr_maintenance : 0 ≤ maintenanceReleaseNumber v ≤ 255;
  pr_hotfix : 0 ≤ hotfixNumber v ≤ UINT64_MAX;
  pr_build : INT64_MIN ≤ buildNumber v ≤ INT64_MAX;
  pr_tolerance : buildNumTolerance v = 0;
  pr_snapshot : isSnapshot v = true → buildNumber v = SNAPSHOT_BUILD_NUMBER
}.

Lemma decimal_digits n : 0 ≤ n < 10 ^ 20 → Forall (λ c, 48 ≤ byteZ c ≤ 57) (decimal n) ∧ decimal n ≠ [].
Proof.
  intros Hn. unfold decimal. destruct (dec_digits_spec 20 n) as (Hd & _ & d & ds & He & _); [done|lia|]. split; [|by rewrite He].
  apply Forall_fmap. eapply Forall_impl; [exact Hd|]. intros x Hx. unfold digit in Hx. cbn. unfold digit_char, byte_of, byteZ.
  rewrite N_ascii_embedding by lia. lia.
Qed.

Lemma decimal_no_delimiter n : 0 ≤ n < 10 ^ 20 → plain_of UNDERSCORE (decimal n).
Proof.
  intros Hn. destruct (decimal_digits n Hn) as [Hd Hne]. split; [|done]. intros Hin. rewrite Forall_forall in Hd.
  specialize (Hd _ Hin). by vm_compute in Hd; destruct Hd.
Qed.

Lemma build_plain v : proper v → plain_of UNDERSCORE (if isSnapshot v then str "SNAPSHOT" else signed_decimal (buildNumber v)).
Proof.
  intros Hp. destruct (isSnapshot v); [by split; [apply (bool_decide_unpack _); vm_compute|]|].
  pose proof (pr_build v Hp) as Hb. unfold INT64_MIN, INT64_MAX in Hb. destruct (decimal_no_delimiter (Z.abs (buildNumber v))) as [Hd Hne]; [lia|].
  unfold signed_decimal. split; [|by destruct (bool_decide _)]. intros [Hin|Hin]%elem_of_app; [|done].
  by case_bool_decide; [apply list_elem_of_singleton in Hin|apply elem_of_nil in Hin].
Qed.

Lemma parse_build_written v : proper v →
  parse_build (if isSnapshot v then str "SNAPSHOT" else signed_decimal (buildNumber v)) = (buildNumber v, isSnapshot v).
Proof.
  intros Hp. unfold parse_build. destruct (isSnapshot v) eqn:E; [by rewrite (pr_snapshot v Hp E)|].
  destruct (stringToInt_roundtrip (buildNumber v) (pr_build v Hp)) as (_ & _ & _ & ->). rewrite decide_False; [done|].
  destruct (decimal_digits (Z.abs (buildNumber v))) as [Hd Hne]; [pose proof (pr_build v Hp); unfold INT64_MIN, INT64_MAX in *; lia|].
  assert (no_nul (signed_decimal (buildNumber v))) as Hz.
  { unfold signed_decimal. rewrite Forall_forall in Hd. intros [Hin|Hin]%elem_of_app; [|specialize (Hd _ Hin); by vm_compute in Hd; destruct Hd].
    by case_bool_decide; [apply list_elem_of_singleton in Hin|apply elem_of_nil in Hin]. }
  rewrite strcmp_eq by (try done; apply (bool_decide_unpack _); by vm_compute).
  unfold signed_decimal. destruct (decimal (Z.abs (buildNumber v))) as [|x t]; [done|]. apply Forall_cons in Hd as [Hx _].
  case_bool_decide; intros Hc; injection Hc; [done|]. intros _ ->. by vm_compute in Hx; destruct Hx.
Qed.

(** A release version survives printing and parsing: parseVersionString
    reads the text that produceVersionString writes back into the same version,
    for every version whose fields are in the ranges of their types, with
    SNAPSHOT for a snapshot build, whatever the target held before. *)
Theorem version_roundtrip v target : proper v → parseVersionString (Some (produceVersionString v)) target = (true, v).
Proof.
  intros Hp. destruct v as [r su mr hf b tol snap] eqn:Ev. rewrite <-Ev in *. unfold parseVersionString.
  pose proof (pr_release v Hp). pose proof (pr_service v Hp). pose proof (pr_maintenance v Hp). pose proof (pr_hotfix v Hp). unfold UINT64_MAX in *.
  set (bt := if isSnapshot v then str "SNAPSHOT" else signed_decimal (buildNumber v)).
  assert (strtok_r (produceVersionString v ++ str "_") UNDERSCORE =
    [decimal (releaseNumber v); decimal (serviceUpdateNumber v); decimal (maintenanceReleaseNumber v); decimal (hotfixNumber v); bt]) as ->.
  { rewrite <-(strtok_parts UNDERSCORE [_; _; _; _; bt]); [f_equal|].
    - unfold produceVersionString. cbn [fmap list_fmap concat]. fold bt. by rewrite <-!app_assoc.
    - repeat constructor; try (apply decimal_no_delimiter; lia); [..|by apply build_plain|by apply build_plain]. }
  cbn [lookup list_lookup length Nat.min]. unfold bt. rewrite (parse_build_written v Hp).
  destruct (stringToUint_roundtrip (releaseNumber v)) as (-> & _); [unfold UINT64_MAX; lia|].
  destruct (stringToUint_roundtrip (serviceUpdateNumber v)) as (-> & _); [unfold UINT64_MAX; lia|].
  destruct (stringToUint_roundtrip (maintenanceReleaseNumber v)) as (-> & _); [unfold UINT64_MAX; lia|].
  destruct (stringToUint_roundtrip (hotfixNumber v)) as (_ & _ & _ & ->); [unfold UINT64_MAX; lia|].
  rewrite !decide_True by lia. cbn [default from_option id]. rewrite bool_decide_true by lia. f_equal.
  pose proof (pr_tolerance v Hp). subst v. cbn in *. by f_equal.
Qed.

(** ** Comparing *)

Lemma compare_number_sym l r x y c : x = Ok c → y = Ok (- c) →
  ∃ d, compare_number l r x = Ok d ∧ compare_number r l y = Ok (- d) ∧ (d = 0 ↔ l = r ∧ c = 0).
Proof.
  intros -> ->. unfold compare_number. destruct (Z.lt_trichotomy l r) as [?|[->|?]].
  - exists 1. rewrite !decide_False, !decide_True by lia. split_and!; try done; lia.
  - exists c. rewrite !decide_False by lia. split_and!; [done..|]. naive_solver.
  - exists (-1). rewrite !decide_True, decide_False, decide_True by lia. split_and!; try done; lia.
Qed.

(** Versions are ordered by their numbers, the build number last; two versions
    of which one is a snapshot and whose other numbers are equal are each newer
    than the other. *)
Theorem compareVersions_order v w : proper v → proper w →
  if isSnapshot v || isSnapshot w then
    ∃ c, compareVersions v w = Ok c ∧ ((c = -1 ∧ compareVersions w v = Ok (-1)) ∨ (c ≠ 0 ∧ compareVersions w v = Ok (- c)))
  else ∃ c, compareVersions v w = Ok c ∧ compareVersions w v = Ok (- c) ∧ (c = 0 ↔ v = w).
Proof.
  intros Hv Hw. unfold compareVersions. destruct (isSnapshot v || isSnapshot w) eqn:E.
  - rewrite (orb_comm (isSnapshot w)), E. unfold compare_number.
    repeat case_decide; try lia; eexists; (split; [done|]); try (by left); right; done.
  - rewrite (orb_comm (isSnapshot w)), E. apply orb_false_iff in E as [Ev Ew].
    pose proof (pr_build v Hv). pose proof (pr_build w Hw). pose proof (pr_tolerance v Hv) as Tv. pose proof (pr_tolerance w Hw) as Tw.
    unfold add_i64. rewrite Tv, Tw, !Z.add_0_r, !decide_True by done. obind.
    destruct (compare_number_sym (buildNumber v) (buildNumber w) (Ok 0) (Ok 0) 0) as (c1 & B1 & B1' & E1); [done..|].
    destruct (compare_number_sym (hotfixNumber v) (hotfixNumber w) _ _ c1 B1 B1') as (c2 & B2 & B2' & E2).
    destruct (compare_number_sym (maintenanceReleaseNumber v) (maintenanceReleaseNumber w) _ _ c2 B2 B2') as (c3 & B3 & B3' & E3).
    destruct (compare_number_sym (serviceUpdateNumber v) (serviceUpdateNumber w) _ _ c3 B3 B3') as (c4 & B4 & B4' & E4).
    destruct (compare_number_sym (releaseNumber v) (releaseNumber w) _ _ c4 B4 B4') as (c5 & B5 & B5' & E5).
    exists c5. split_and!; [done..|]. rewrite E5, E4, E3, E2, E1. clear -Tv Tw Ev Ew. destruct v, w; cbn in *; subst.
    split; [by intros (-> & -> & -> & -> & -> & _)|by intros [= -> -> -> -> ->]].
Qed.

Definition release : icVersion := mkVersion 7 2 0 1 201505221523 0 false.

Lemma version_roundtrip_witness : produceVersionString release = str "7_2_0_1_201505221523" ∧
  parseVersionString (Some (str "7_2_0_1_201505221523")) (mkVersion 0 0 0 0 0 0 true) = (true, release).
Proof.
  assert (Ht : produceVersionString release = str "7_2_0_1_201505221523") by (vm_compute; reflexivity).
  split; [exact Ht|]. rewrite <-Ht. apply version_roundtrip. split; cbn; unfold UINT64_MAX, INT64_MIN, INT64_MAX; try lia; done.
Defined.

(** A leading zero makes a token octal: 08 is not a number and counts as 0. *)
Example leading_zero_is_octal : parseVersionString (Some (str "7_010_08")) release = (true, mkVersion 7 8 0 0 0 0 false).
Proof. vm_compute. reflexivity. Qed.

End ReleaseVersions.

Import ReleaseVersions.

Module MacAddrs.

Definition COLON : byte := ":"%char.
Definition MAC_ADDR_BYTES : nat := 12.

(** What ensureTwoChars prints. *)
Definition two_chars (input : cstring) : cstring := if decide (strlen input = 1) then str "0" ++ input else input.

(** ensureTwoChars(destinationUUID + strlen(destinationUUID), token) *)
Definition ensureTwoChars (input : cstring) (output : list byte) : outcome (list byte) :=
  s ← c_str output; write_bytes output (strlen s) (two_chars input ++ [NUL]).

Definition macAddrToUUID (destinationUUID : option (list byte)) (sourceMacAddress : option cstring)
    : outcome (bool * option (list byte)) :=
  match sourceMacAddress, destinationUUID with
  | Some s, Some b =>
      if decide (s = []) then Ok (false, Some b)
      else
        b ← write_bytes b 0 (replicate MAC_ADDR_BYTES NUL);
        b ← foldM ensureTwoChars (strtok_r (s ++ [COLON]) COLON) b;
        Ok (true, Some b)
  | _, _ => Ok (false, destinationUUID)
  end.

(** (uint8_t) strtol(tok, NULL, 16) *)
Definition hex_byte (tok : cstring) : Z := u8 (fst (fst (strtoll tok 16))).

(** destArray[offset] = ... *)
Definition store_byte (tok : cstring) (x : list Z * nat) : outcome (list Z * nat) :=
  let '(a, offset) := x in if decide (offset < length a)%nat then Ok (<[offset := hex_byte tok]> a, S offset) else Fault.

(** The next two characters, [n] times. *)
Fixpoint pairs (n : nat) (s : cstring) : list cstring :=
  match n with O => [] | S n => take 2 s :: pairs n (drop 2 s) end.

Definition macAddrToBytes (macAddress : option cstring) (destArray : option (list Z)) (hasColonChars : bool)
    : outcome (bool * option (list Z)) :=
  match macAddress, destArray with
  | Some s, Some a =>
      if hasColonChars then '(a, _) ← foldM store_byte (strtok_r s COLON) (a, O); Ok (true, Some a)
      else if decide (strlen s < 12) then Ok (false, Some a)
      else '(a, _) ← foldM store_byte (pairs 6 s) (a, O); Ok (true, Some a)
  | _, _ => Ok (false, destArray)
  end.

(** The first [n] bytes, one at a time. *)
Fixpoint compare_bytes (n : nat) (leftArr rightArr : list Z) : outcome Z :=
  match n with
  | O => Ok 0
  | S n =>
      match leftArr, rightArr with
      | x :: leftArr, y :: rightArr => if decide (x < y) then Ok (-1) else if decide (y < x) then Ok 1 else compare_bytes n leftArr rightArr
      | _, _ => Fault
      end
  end.

Definition compareMacAddrs (leftArr rightArr : option (list Z)) : outcome Z :=
  match leftArr, rightArr with
  | None, None => Ok 0
  | None, Some _ => Ok 1
  | Some _, None => Ok (-1)
  | Some l, Some r => compare_bytes 6 l r
  end.

(** ** The two forms *)

(** One or two hexadecimal digits. *)
Definition hex_part (t : cstring) : Prop := (length t = 1%nat ∨ length t = 2%nat) ∧ ∀ c, c ∈ t → is_Some (digit_in 16 c).

(** The parts with colons between them. *)
Fixpoint colons (l : list cstring) : cstring := match l with [] => [] | [t] => t | t :: l => t ++ COLON :: colons l end.

Lemma hex_part_plain t : hex_part t → plain_of COLON t ∧ no_nul t.
Proof.
  intros [Hl Hd]. split; [split|]; [intros Hin..|intros Hin]; [destruct (Hd _ Hin) as [x Hx]; by vm_compute in Hx|subst; cbn in Hl; lia|].
  destruct (Hd _ Hin) as [x Hx]; by vm_compute in Hx.
Qed.

Lemma colons_end l : l ≠ [] → colons l ++ [COLON] = concat ((λ s, s ++ [COLON]) <$> l).
Proof.
  induction l as [|t [|t' l] IH]; [done|by cbn; rewrite app_nil_r|]. intros _. cbn [colons fmap list_fmap concat] in *.
  rewrite <-app_assoc. cbn [app]. rewrite <-(app_assoc t [COLON]). cbn [app]. f_equal. f_equal. by apply IH.
Qed.

Lemma tokens_end l : Forall (plain_of COLON) l → strtok_r (colons l ++ [COLON]) COLON = l.
Proof. intros Hf. destruct l as [|t l]; [done|]. rewrite colons_end by done. by apply strtok_parts. Qed.

(** The delimiter at the end makes no difference. *)
Lemma tokens_colons l : Forall (plain_of COLON) l → strtok_r (colons l) COLON = l.
Proof.
  intros Hf. rewrite <-(tokens_end l Hf) at 2. unfold strtok_r.
  assert (∀ s acc, split_on COLON s acc = split_on COLON (s ++ [COLON]) acc) as H; [|apply H].
  induction s as [|x s IH]; intros acc; cbn [split_on app]; [by rewrite (decide_True (P := COLON = COLON)) by done; case_decide|].
  case_decide; [case_decide; by rewrite IH|apply IH].
Qed.

(** The value of a part does not change when it gets its leading zero. *)
Lemma parse_digit a x : digit_in 16 a = Some x → parse_number [a] 16 = Some (false, x, []) ∧ parse_number (str "0" ++ [a]) 16 = Some (false, x, []).
Proof.
  intros Hx. destruct (digit_not_special a) as (Ha1 & Ha2 & Ha3 & _); [by eexists|]. unfold parse_number. split.
  - cbn [skip_space]. rewrite Ha1. cbn [take_sign]. rewrite !decide_False by done. cbn [detect_base]. rewrite (decide_False (P := 16 = 0)) by lia.
    cbn [span_digits]. by rewrite Hx.
  - change (take_sign (skip_space (str "0" ++ [a]))) with (false, str "0" ++ [a]). cbv beta iota.
    change (detect_base 16 (str "0" ++ [a])) with (16, str "0" ++ [a]). cbv beta iota.
    change (span_digits 16 (str "0" ++ [a])) with (let '(ds, r) := span_digits 16 [a] in (0 :: ds, r)). cbn [span_digits]. by rewrite Hx.
Qed.

Lemma two_chars_part t : hex_part t → length (two_chars t) = 2%nat ∧ hex_byte (two_chars t) = hex_byte t ∧ no_nul (two_chars t).
Proof.
  intros Ht. pose proof (proj2 (hex_part_plain t Ht)) as Hz. destruct Ht as [Hl Hd]. unfold two_chars, strlen. destruct t as [|a [|b [|]]]; cbn in Hl; try lia.
  - cbn [length]. rewrite decide_True by done. split; [done|]. destruct (Hd a) as [x Hx]; [by left|].
    split; [|by apply no_nul_app; [apply (bool_decide_unpack _); vm_compute|]]. destruct (parse_digit a x Hx) as [E1 E2].
    unfold hex_byte, strtoll. by rewrite E1, E2.
  - cbn [length]. by rewrite decide_False by done.
Qed.

Lemma uuid_written l s r : Forall hex_part l → no_nul s → (2 * length l ≤ length r)%nat →
  ∃ r', foldM ensureTwoChars l (s ++ NUL :: r) = Ok (s ++ concat (two_chars <$> l) ++ NUL :: r') ∧ length r' = (length r - 2 * length l)%nat.
Proof.
  intros Hf. revert s r. induction Hf as [|t l Ht Hf IH]; intros s r Hs Hr; [exists r; split; [done|cbn; lia]|].
  destruct (two_chars_part t Ht) as (Hl & _ & Hz). cbn [foldM length] in *.
  assert (ensureTwoChars t (s ++ NUL :: r) = Ok ((s ++ two_chars t) ++ NUL :: drop 2 r)) as ->.
  { unfold ensureTwoChars. rewrite c_str_spec by done. obind. replace (s ++ NUL :: r) with (s ++ (NUL :: take 2 r) ++ drop 2 r) by (cbn [app]; by rewrite take_drop).
    rewrite (write_at s (NUL :: take 2 r)); [by rewrite <-!app_assoc|]. rewrite length_app, Hl. cbn [length]. rewrite length_take. lia. }
  obind. destruct (IH (s ++ two_chars t) (drop 2 r)) as (r' & Hr' & Hlen); [by apply no_nul_app|rewrite length_drop; lia|].
  exists r'. rewrite Hr'. cbn [fmap list_fmap concat]. split; [by rewrite <-!app_assoc|]. rewrite Hlen, length_drop. lia.
Qed.

Lemma bytes_stored l a pre rest : length rest = length l →
  foldM store_byte l (pre ++ rest ++ a, length pre) = Ok (pre ++ (hex_byte <$> l) ++ a, length pre + length l)%nat.
Proof.
  revert pre rest. induction l as [|t l IH]; intros pre [|x rest] Hl; try done; cbn [foldM length] in *; [by rewrite Nat.add_0_r|].
  assert (store_byte t (pre ++ (x :: rest) ++ a, length pre) = Ok (pre ++ hex_byte t :: rest ++ a, S (length pre))) as ->.
  { unfold store_byte. rewrite decide_True by (rewrite length_app; cbn [length app]; lia). by rewrite insert_app_r_alt, Nat.sub_diag by done. }
  obind.
  replace (pre ++ hex_byte t :: rest ++ a) with ((pre ++ [hex_byte t]) ++ rest ++ a) by (by rewrite <-app_assoc).
  replace (S (length pre)) with (length (pre ++ [hex_byte t])) by (rewrite length_app; cbn; lia). rewrite IH by lia.
  cbn [fmap list_fmap]. rewrite length_app, <-app_assoc. cbn [length app]. do 2 f_equal. lia.
Qed.

Lemma array_filled l a : length a = length l → foldM store_byte l (a, O) = Ok (hex_byte <$> l, length l).
Proof. intros Hl. pose proof (bytes_stored l [] [] a Hl) as E. cbn [app length Nat.add] in E. by rewrite !app_nil_r in E. Qed.

Lemma pairs_concat l : Forall (λ t : cstring, length t = 2%nat) l → pairs (length l) (concat l) = l.
Proof.
  induction 1 as [|t l Ht Hf IH]; [done|]. cbn [pairs length concat]. rewrite take_app_length' by done. rewrite drop_app_length' by done. by rewrite IH.
Qed.

Lemma uuid_length l : Forall hex_part l → length (concat (two_chars <$> l)) = (2 * length l)%nat ∧ no_nul (concat (two_chars <$> l)).
Proof.
  induction 1 as [|t l Ht Hf [IH1 IH2]]; [split; [done|by apply not_elem_of_nil]|]. destruct (two_chars_part t Ht) as (Hl & _ & Hz).
  cbn [fmap list_fmap concat length]. rewrite length_app, Hl, IH1. split; [lia|by apply no_nul_app].
Qed.

(** The uuid made from a hardware address is the same address.  For an
    address of six parts of one or two hexadecimal digits with colons,
    macAddrToUUID writes twelve digits into a buffer of at least thirteen
    bytes, and macAddrToBytes reads the same six bytes from the address and
    from the uuid. *)
Theorem mac_forms_agree l buffer a : Forall hex_part l → length l = 6%nat → (13 ≤ length buffer)%nat → length a = 6%nat →
  ∃ b uuid bytes, macAddrToUUID (Some buffer) (Some (colons l)) = Ok (true, Some b) ∧ length b = length buffer ∧
    c_str b = Ok uuid ∧ length uuid = 12%nat ∧ bytes = hex_byte <$> l ∧
    macAddrToBytes (Some (colons l)) (Some a) true = Ok (true, Some bytes) ∧
    macAddrToBytes (Some uuid) (Some a) false = Ok (true, Some bytes) ∧ compareMacAddrs (Some bytes) (Some bytes) = Ok 0.
Proof.
  intros Hf Hl Hb Ha. set (uuid := concat (two_chars <$> l)).
  assert (Forall (plain_of COLON) l) as Hp by (eapply Forall_impl; [exact Hf|]; intros t Ht; by apply hex_part_plain).
  assert (Forall (λ t : cstring, length t = 2%nat) (two_chars <$> l)) as H2
    by (apply Forall_fmap; eapply Forall_impl; [exact Hf|]; intros t Ht; by apply two_chars_part).
  assert (hex_byte <$> (two_chars <$> l) = hex_byte <$> l) as Hsame.
  { rewrite <-list_fmap_compose. apply list_fmap_ext. intros i t Hi. apply two_chars_part. by eapply Forall_lookup_1. }
  destruct (uuid_length l Hf) as [Hlen Hz]. fold uuid in Hlen, Hz. rewrite Hl in Hlen.
  destruct (uuid_written l [] (replicate 11 NUL ++ drop 12 buffer) Hf) as (r' & Hw & Hr);
    [by apply not_elem_of_nil|rewrite length_app, length_replicate, length_drop; lia|].
  fold uuid in Hw. cbn [app] in Hw. exists (uuid ++ NUL :: r'), uuid, (hex_byte <$> l).
  assert (macAddrToUUID (Some buffer) (Some (colons l)) = Ok (true, Some (uuid ++ NUL :: r'))) as Hu.
  { unfold macAddrToUUID. rewrite decide_False by (do 7 (destruct l as [|[|] l]; try done; try (by inversion Hp as [|? ? []])); done).
    rewrite write_bytes_spec by (rewrite ?length_replicate; unfold MAC_ADDR_BYTES; lia). obind. rewrite length_replicate.
    change (take (Z.to_nat 0) buffer ++ replicate MAC_ADDR_BYTES NUL ++ drop (Z.to_nat 0 + MAC_ADDR_BYTES) buffer) with (NUL :: replicate 11 NUL ++ drop 12 buffer).
    rewrite tokens_end by done.
    rewrite Hw. done. }
  split_and!; [done| |by apply c_str_spec|done|done| | |].
  - rewrite length_app, Hlen. cbn [length]. rewrite Hr, length_app, length_replicate, length_drop, Hl. lia.
  - unfold macAddrToBytes. rewrite tokens_colons by done. by rewrite array_filled by lia.
  - unfold macAddrToBytes. rewrite decide_False by (unfold strlen; lia). unfold uuid. rewrite <-Hl, <-(length_fmap two_chars l), pairs_concat by done.
    rewrite array_filled by (rewrite length_fmap; lia). obind. by rewrite Hsame.
  - unfold compareMacAddrs. assert (∀ n bs, (n ≤ length bs)%nat → compare_bytes n bs bs = Ok 0) as Hc; [|apply Hc; rewrite length_fmap; lia].
    induction n as [|n IH]; intros [|x bs] Hn; cbn [compare_bytes length] in *; try done; try lia. rewrite !decide_False by lia. apply IH. lia.
Qed.

Lemma mac_forms_agree_witness : Forall hex_part [str "0"; str "e"; str "8f"; str "e9"; str "93"; str "f9"] ∧
  ∃ b, macAddrToUUID (Some (replicate 13 "?"%char)) (Some (str "0:e:8f:e9:93:f9")) = Ok (true, Some b) ∧ length b = 13%nat ∧
    macAddrToBytes (Some (str "0:e:8f:e9:93:f9")) (Some (replicate 6 7)) true = Ok (true, Some [0; 14; 143; 233; 147; 249]).
Proof.
  assert (Hf : Forall hex_part [str "0"; str "e"; str "8f"; str "e9"; str "93"; str "f9"]).
  { repeat apply Forall_cons_2; [..|by apply Forall_nil_2]; (split; [vm_compute; auto|]);
      intros c Hc; repeat (apply elem_of_cons in Hc as [->|Hc]; [by vm_compute; eexists|]); by apply elem_of_nil in Hc. }
  split; [exact Hf|].
  destruct (mac_forms_agree _ (replicate 13 "?"%char) (replicate 6 7) Hf) as (b & uuid & bs & Hu & Hb & _ & _ & -> & Hc & _); [reflexivity|vm_compute; lia|reflexivity|].
  exists b. split; [exact Hu|]. split; [exact Hb|]. exact Hc.
Defined.

End MacAddrs.
