(* ===== verification/Watchdog.v ===== *)
(** * watchdog: starting, stopping and restarting the services

    Models src/source/services/watchdog/core/src/procMgr.c and the records of
    configParser.h.  The state is the list of service definitions (managerList:
    it does not change after it was loaded, so it is a plain list that is
    visited in order, as LinkedListTheorems shows of the iterators), the
    handles of the two delayed tasks, the flag of the startup sequence, and
    what the process sees of the world: which children are there, which one was
    reaped and is not handled yet, what fork will return, and what other threads do while an operation waits with
    SERVICE_MTX released.  What goes out (events, IPC calls, signals, the
    reboot) is a list of effects.  SERVICE_MTX is held by every operation, so
    an operation is one step except for those waits.  The IPC call that asks a
    service to stop, and the handles that scheduleDelayTask returns, are
    parameters; the build is the one with CONFIG_LIB_SHUTDOWN and without
    CONFIG_DEBUG_SINGLE_PROCESS. *)

From S2P Require Import Prelude StringUtils.
Import StringUtils.

Module Watchdog.

(** restartAction, a uint16_t of the configuration *)
Definition REBOOT_ACTION : Z := 1.
Definition STOP_RESTARTING_ACTION : Z := 2.

Definition DEATH_WAIT_SECS : nat := 10.
Definition WATCH_DOG_SERVICE_NAME : cstring := str "watchdogService".

Inductive operationAction :=
  | START_PROCESS_ACTION
  | STOP_PROCESS_ACTION
  | RESTART_PROCESS_ACTION
  | RESTART_FOR_RECOVERY_PROCESS_ACTION.

(** scopeFilter with the name that two of its values are used with *)
Inductive scopeFilter :=
  | ALL_PROC_FILTER
  | SINGLE_PROC_FILTER (name : cstring)
  | GROUP_PROC_FILTER (name : cstring)
  | SINGLE_PHASE_FILTER
  | NON_SINGLE_PHASE_FILTER.

(** The bits RESET_ACK, FORCE_KILL, IGNORE_DEATH, DUMP_CORE. *)
Record stop_flags := mkFlags { resetAck : bool; forceKill : bool; ignoreDeath : bool; dumpCore : bool }.

Record serviceDefinition := mkDef {
  serviceName : cstring;
  execPath : option cstring;
  logicalGroup : option cstring;
  restartOnFail : bool;
  expectStartupAck : bool;
  secondsBetweenRestarts : Z;
  maxRestartsPerMinute : Z;
  restartsWithinPastMinute : Z;
  actionOnMaxRestarts : Z;
  autoStart : bool;
  lastRestartTime : Z;
  lastRestartTimeMono : Z;
  lastActReceivedTime : Z;
  shutdownToken : option cstring;
  waitSecsOnShutdown : Z;
  currentPid : Z;
  tempIgoreDeath : bool;
  deathCount : Z;
  serviceIpcPort : Z;
  isJavaService : bool;
  singlePhaseStartup : bool
}.

(** Assignments to the fields. *)
Definition with_pid (d : serviceDefinition) (pid : Z) : serviceDefinition :=
  mkDef (serviceName d) (execPath d) (logicalGroup d) (restartOnFail d) (expectStartupAck d) (secondsBetweenRestarts d)
    (maxRestartsPerMinute d) (restartsWithinPastMinute d) (actionOnMaxRestarts d) (autoStart d) (lastRestartTime d)
    (lastRestartTimeMono d) (lastActReceivedTime d) (shutdownToken d) (waitSecsOnShutdown d) pid (tempIgoreDeath d)
    (deathCount d) (serviceIpcPort d) (isJavaService d) (singlePhaseStartup d).
Definition with_started (d : serviceDefinition) (real mono : Z) : serviceDefinition :=
  mkDef (serviceName d) (execPath d) (logicalGroup d) (restartOnFail d) (expectStartupAck d) (secondsBetweenRestarts d)
    (maxRestartsPerMinute d) (restartsWithinPastMinute d) (actionOnMaxRestarts d) (autoStart d) real
    mono (lastActReceivedTime d) (shutdownToken d) (waitSecsOnShutdown d) (currentPid d) (tempIgoreDeath d)
    (deathCount d) (serviceIpcPort d) (isJavaService d) (singlePhaseStartup d).
Definition with_ack (d : serviceDefinition) (t : Z) : serviceDefinition :=
  mkDef (serviceName d) (execPath d) (logicalGroup d) (restartOnFail d) (expectStartupAck d) (secondsBetweenRestarts d)
    (maxRestartsPerMinute d) (restartsWithinPastMinute d) (actionOnMaxRestarts d) (autoStart d) (lastRestartTime d)
    (lastRestartTimeMono d) t (shutdownToken d) (waitSecsOnShutdown d) (currentPid d) (tempIgoreDeath d)
    (deathCount d) (serviceIpcPort d) (isJavaService d) (singlePhaseStartup d).
Definition with_ignore (d : serviceDefinition) (b : bool) : serviceDefinition :=
  mkDef (serviceName d) (execPath d) (logicalGroup d) (restartOnFail d) (expectStartupAck d) (secondsBetweenRestarts d)
    (maxRestartsPerMinute d) (restartsWithinPastMinute d) (actionOnMaxRestarts d) (autoStart d) (lastRestartTime d)
    (lastRestartTimeMono d) (lastActReceivedTime d) (shutdownToken d) (waitSecsOnShutdown d) (currentPid d) b
    (deathCount d) (serviceIpcPort d) (isJavaService d) (singlePhaseStartup d).
Definition with_deaths (d : serviceDefinition) (n : Z) : serviceDefinition :=
  mkDef (serviceName d) (execPath d) (logicalGroup d) (restartOnFail d) (expectStartupAck d) (secondsBetweenRestarts d)
    (maxRestartsPerMinute d) (restartsWithinPastMinute d) (actionOnMaxRestarts d) (autoStart d) (lastRestartTime d)
    (lastRestartTimeMono d) (lastActReceivedTime d) (shutdownToken d) (waitSecsOnShutdown d) (currentPid d) (tempIgoreDeath d)
    n (serviceIpcPort d) (isJavaService d) (singlePhaseStartup d).
Definition with_restarts (d : serviceDefinition) (n : Z) : serviceDefinition :=
  mkDef (serviceName d) (execPath d) (logicalGroup d) (restartOnFail d) (expectStartupAck d) (secondsBetweenRestarts d)
    (maxRestartsPerMinute d) n (actionOnMaxRestarts d) (autoStart d) (lastRestartTime d)
    (lastRestartTimeMono d) (lastActReceivedTime d) (shutdownToken d) (waitSecsOnShutdown d) (currentPid d) (tempIgoreDeath d)
    (deathCount d) (serviceIpcPort d) (isJavaService d) (singlePhaseStartup d).
Definition with_action (d : serviceDefinition) (n : Z) : serviceDefinition :=
  mkDef (serviceName d) (execPath d) (logicalGroup d) (restartOnFail d) (expectStartupAck d) (secondsBetweenRestarts d)
    (maxRestartsPerMinute d) (restartsWithinPastMinute d) n (autoStart d) (lastRestartTime d)
    (lastRestartTimeMono d) (lastActReceivedTime d) (shutdownToken d) (waitSecsOnShutdown d) (currentPid d) (tempIgoreDeath d)
    (deathCount d) (serviceIpcPort d) (isJavaService d) (singlePhaseStartup d).
Definition with_monitoring (d : serviceDefinition) (b : bool) : serviceDefinition :=
  mkDef (serviceName d) (execPath d) (logicalGroup d) b (expectStartupAck d) (secondsBetweenRestarts d)
    (maxRestartsPerMinute d) (restartsWithinPastMinute d) (actionOnMaxRestarts d) (autoStart d) (lastRestartTime d)
    (lastRestartTimeMono d) (lastActReceivedTime d) (shutdownToken d) (waitSecsOnShutdown d) (currentPid d) (tempIgoreDeath d)
    (deathCount d) (serviceIpcPort d) (isJavaService d) (singlePhaseStartup d).
Definition with_ipc (d : serviceDefinition) (port : Z) (token : option cstring) : serviceDefinition :=
  mkDef (serviceName d) (execPath d) (logicalGroup d) (restartOnFail d) (expectStartupAck d) (secondsBetweenRestarts d)
    (maxRestartsPerMinute d) (restartsWithinPastMinute d) (actionOnMaxRestarts d) (autoStart d) (lastRestartTime d)
    (lastRestartTimeMono d) (lastActReceivedTime d) token (waitSecsOnShutdown d) (currentPid d) (tempIgoreDeath d)
    (deathCount d) port (isJavaService d) (singlePhaseStartup d).

(** The two clocks. *)
Record clock := mkClock { mono : Z; real : Z }.

(** Event codes and values of broadcastWatchdogEvent. *)
Inductive eventCode := WATCHDOG_INIT_COMPLETE | WATCHDOG_SERVICE_STATE_CHANGED | WATCHDOG_GROUP_STATE_CHANGED.
Inductive eventValue := ALL_SERVICES_STARTED | SOME_SERVICES_STARTED | ACTION_START | ACTION_DEATH | ACTION_RESTART.

Inductive signal := SIGTERM | SIGQUIT | SIGKILL.

Inductive effect :=
  | Event (code : eventCode) (value : eventValue) (name : option cstring)
  | StartInitialization (name : cstring) (port : Z)
  | Kill (pid : Z) (sig : signal)
  | SaveMisbehaving (name : cstring)
  | Reboot
  | SignalSinglePhase.

(** How the death of a child is handled: the clocks when handleDeadChild looks
    at them, whether a signal cuts short the pause it may make, and the clocks
    after that pause, when the process is started again.  ackServiceDef: what a
    service says when it is up. *)
Record death := mkDeath { d_now : clock; interrupted : bool; d_restart : clock }.
Record ackServiceDef := mkAckDef { a_name : option cstring; a_port : Z; a_token : option cstring; a_now : clock }.

(** What other threads do.  The main thread calls wait(), which reaps a child
    that has died, and then handleDeadChild, which first takes SERVICE_MTX; a
    request can run in between. *)
Inductive happening := Reaps (pid : Z) | Handles (d : death) | Acks (a : ackServiceDef).

Record watchdog := mkWd {
  managerList : list serviceDefinition;
  monitorAckTask : Z;
  resetBadServiceTask : Z;
  startupSequenceFinalized : bool;
  alive : gset Z;
  reaped : option Z;
  forks : list Z;
  future : list (list happening);
  out : list effect
}.

Definition set_services (s : watchdog) ds :=
  mkWd ds (monitorAckTask s) (resetBadServiceTask s) (startupSequenceFinalized s) (alive s) (reaped s) (forks s) (future s) (out s).
Definition set_monitor (s : watchdog) t :=
  mkWd (managerList s) t (resetBadServiceTask s) (startupSequenceFinalized s) (alive s) (reaped s) (forks s) (future s) (out s).
Definition set_reset (s : watchdog) t :=
  mkWd (managerList s) (monitorAckTask s) t (startupSequenceFinalized s) (alive s) (reaped s) (forks s) (future s) (out s).
Definition set_finalized (s : watchdog) :=
  mkWd (managerList s) (monitorAckTask s) (resetBadServiceTask s) true (alive s) (reaped s) (forks s) (future s) (out s).
Definition set_alive (s : watchdog) a :=
  mkWd (managerList s) (monitorAckTask s) (resetBadServiceTask s) (startupSequenceFinalized s) a (reaped s) (forks s) (future s) (out s).
Definition set_reaped (s : watchdog) r :=
  mkWd (managerList s) (monitorAckTask s) (resetBadServiceTask s) (startupSequenceFinalized s) (alive s) r (forks s) (future s) (out s).
Definition set_forks (s : watchdog) f :=
  mkWd (managerList s) (monitorAckTask s) (resetBadServiceTask s) (startupSequenceFinalized s) (alive s) (reaped s) f (future s) (out s).
Definition set_future (s : watchdog) f :=
  mkWd (managerList s) (monitorAckTask s) (resetBadServiceTask s) (startupSequenceFinalized s) (alive s) (reaped s) (forks s) f (out s).
Definition emit (s : watchdog) (e : effect) :=
  mkWd (managerList s) (monitorAckTask s) (resetBadServiceTask s) (startupSequenceFinalized s) (alive s) (reaped s) (forks s) (future s)
    (out s ++ [e]).

(** *curr = d, for the definition at index [i] *)
Definition put (s : watchdog) (i : nat) (d : serviceDefinition) : watchdog := set_services s (<[i := d]> (managerList s)).

Definition broadcastWatchdogEvent (s : watchdog) (c : eventCode) (v : eventValue) (name : option cstring) : watchdog :=
  emit s (Event c v name).

(** linkedListFind in managerList: the index of the first match. *)
Fixpoint find_index (p : serviceDefinition → bool) (ds : list serviceDefinition) : option (nat * serviceDefinition) :=
  match ds with
  | [] => None
  | d :: ds => if p d then Some (0%nat, d) else prod_map S id <$> find_index p ds
  end.

Definition findServiceByNameInList (name : cstring) (d : serviceDefinition) : bool := bool_decide (serviceName d = name).
Definition findServiceByPidInList (pid : Z) (d : serviceDefinition) : bool := bool_decide (currentPid d = pid).

Section Code.
Context (requestServiceShutdown : Z → cstring → Z → bool) (scheduleDelayTask : Z).

(** startProcess: fork and exec; the parent's side. *)
Definition startProcess (now : clock) (i : nat) (s : watchdog) : watchdog :=
  match managerList s !! i with
  | None => s
  | Some d =>
      let d := with_ack d 0 in
      match forks s with
      | [] => put s i d
      | pid :: fs =>
          let s := set_forks s fs in
          if decide (0 < pid) then
            put (set_alive s ({[pid]} ∪ alive s)) i (with_started (with_pid d pid) (real now) (mono now))
          else put s i d
      end
  end.

(** The switch on the scope when starting. *)
Definition start_matches (scope : scopeFilter) (d : serviceDefinition) : bool :=
  match scope with
  | ALL_PROC_FILTER => autoStart d
  | SINGLE_PROC_FILTER name => bool_decide (name = serviceName d)
  | GROUP_PROC_FILTER name => bool_decide (Some name = logicalGroup d)
  | SINGLE_PHASE_FILTER => singlePhaseStartup d
  | NON_SINGLE_PHASE_FILTER => negb (singlePhaseStartup d) && autoStart d
  end.

(** The loop body of executeStartOperation for the definition at [i]. *)
Definition start_one (now : clock) (scope : scopeFilter) (i : nat) (rs : bool * watchdog) : bool * watchdog :=
  let '(retVal, s) := rs in
  match managerList s !! i with
  | None => (retVal, s)
  | Some d =>
      if stringIsEmpty (execPath d) then (retVal, s)
      else if negb (start_matches scope d) then (retVal, s)
      else if decide (0 < currentPid d) then (retVal, s)
      else (true, startProcess now i (put s i (with_ignore d false)))
  end.

Definition executeStartOperation (now : clock) (scope : scopeFilter) (s : watchdog) : bool * watchdog :=
  foldl (λ rs i, start_one now scope i rs) (false, s) (seq 0 (length (managerList s))).

(** ** The death of a child *)

(** The pause between restarts was cut short. *)
Definition restart_cancelled (now : clock) (cut : bool) (d : serviceDefinition) : bool :=
  let diff := mono now - lastRestartTimeMono d in
  bool_decide (0 < secondsBetweenRestarts d ∧ 0 ≤ diff ∧ diff < secondsBetweenRestarts d) && cut.

(** restartsWithinPastMinute, a uint16_t. *)
Definition count_restart (now : clock) (d : serviceDefinition) : serviceDefinition :=
  if decide (mono now - lastRestartTimeMono d < 60)
  then with_restarts d (u16 (restartsWithinPastMinute d + 1)) else with_restarts d 1.

Definition restart_dead (now : clock) (i : nat) (name : cstring) (s : watchdog) : watchdog :=
  broadcastWatchdogEvent (startProcess now i s) WATCHDOG_SERVICE_STATE_CHANGED ACTION_START (Some name).

Definition handleDeadChild (childPid : Z) (dt : death) (s : watchdog) : watchdog :=
  match find_index (findServiceByPidInList childPid) (managerList s) with
  | None => s
  | Some (i, d) =>
      let d := with_pid d 0 in
      let '(d, s) := if tempIgoreDeath d then (d, put s i d)
                     else let d := with_deaths d (u64 (deathCount d + 1)) in
                          (d, broadcastWatchdogEvent (put s i d) WATCHDOG_SERVICE_STATE_CHANGED ACTION_DEATH (Some (serviceName d))) in
      if negb (restartOnFail d) then s
      else if tempIgoreDeath d then s
      else if restart_cancelled (d_now dt) (interrupted dt) d then s
      else if decide (0 < maxRestartsPerMinute d) then
        let d := count_restart (d_now dt) d in
        let s := put s i d in
        if decide (maxRestartsPerMinute d < restartsWithinPastMinute d) then
          if decide (actionOnMaxRestarts d = REBOOT_ACTION) then emit (emit s (SaveMisbehaving (serviceName d))) Reboot
          else if decide (actionOnMaxRestarts d = STOP_RESTARTING_ACTION) then s
          else restart_dead (d_restart dt) i (serviceName d) s
        else restart_dead (d_restart dt) i (serviceName d) s
      else restart_dead (d_restart dt) i (serviceName d) s
  end.

(** ** Acknowledgements *)

Definition needs_ack (d : serviceDefinition) : bool :=
  (autoStart d || isJavaService d) && expectStartupAck d && bool_decide (lastActReceivedTime d = 0).
Definition needs_single_ack (d : serviceDefinition) : bool :=
  autoStart d && expectStartupAck d && bool_decide (lastActReceivedTime d = 0) && singlePhaseStartup d.

(** The counters are uint16_t. *)
Definition countServicesToBeAcknowledged (s : watchdog) : Z :=
  foldl (λ c d, if needs_ack d then u16 (c + 1) else c) 0 (managerList s).
Definition countSinglePhaseServicesToBeAcknowledged (s : watchdog) : Z :=
  foldl (λ c d, if needs_single_ack d then u16 (c + 1) else c) 0 (managerList s).

Definition allAcksReceived (s : watchdog) : watchdog :=
  if startupSequenceFinalized s then s
  else
    let s := foldl (λ s d, if decide (0 < serviceIpcPort d)
                           then emit s (StartInitialization (serviceName d) (u16 (serviceIpcPort d))) else s)
                   s (managerList s) in
    set_finalized (broadcastWatchdogEvent s WATCHDOG_INIT_COMPLETE ALL_SERVICES_STARTED None).

Definition acknowledgeServiceStarted (a : ackServiceDef) (s : watchdog) : bool * watchdog :=
  match a_name a with
  | None => (false, s)
  | Some name =>
      match find_index (findServiceByNameInList name) (managerList s) with
      | None => (false, s)
      | Some (i, d) =>
          let token := match a_token a with Some t => Some t | None => shutdownToken d end in
          let s := put s i (with_ipc (with_ack d (real (a_now a))) (a_port a) token) in
          let nonSingleCount := countServicesToBeAcknowledged s in
          if decide (monitorAckTask s ≠ 0) then
            let s := if decide (countSinglePhaseServicesToBeAcknowledged s = 0) then emit s SignalSinglePhase else s in
            if decide (nonSingleCount = 0) then (true, allAcksReceived (set_monitor s 0)) else (true, s)
          else if decide (nonSingleCount = 0) then
            (true, broadcastWatchdogEvent s WATCHDOG_INIT_COMPLETE SOME_SERVICES_STARTED (Some name))
          else (true, s)
      end
  end.

Definition areAllServicesStarted (s : watchdog) : bool :=
  bool_decide (monitorAckTask s = 0) && negb (bool_decide (0 < countServicesToBeAcknowledged s)).

(** The timer of the startup sequence has run out. *)
Definition monitorAckDelayCallback (s : watchdog) : watchdog := allAcksReceived (set_monitor s 0).

(** ** Waiting with SERVICE_MTX released *)

(** wait() has returned a child: it is not a process any more. *)
Definition reap_child (pid : Z) (s : watchdog) : watchdog :=
  match reaped s with
  | None => if decide (pid ∈ alive s) then set_reaped (set_alive s (alive s ∖ {[pid]})) (Some pid) else s
  | Some _ => s
  end.

(** The main thread gets SERVICE_MTX for the child it has reaped. *)
Definition handle_reaped (dt : death) (s : watchdog) : watchdog :=
  match reaped s with Some pid => handleDeadChild pid dt (set_reaped s None) | None => s end.

(** wait() needs no lock.  Of a reaped child an operation sees only that
    isProcessAlive fails, so that a child reaped in the middle of an operation
    is as good as one reaped at the operation's last wait, or before it. *)
Definition happen (s : watchdog) (h : happening) : watchdog :=
  match h with
  | Reaps pid => reap_child pid s
  | Handles dt => handle_reaped dt s
  | Acks a => (acknowledgeServiceStarted a s).2
  end.

Definition release_lock (s : watchdog) : watchdog :=
  match future s with
  | [] => s
  | hs :: f => foldl happen (set_future s f) hs
  end.

(** The loop of waitForDeath: the seconds it waited. *)
Fixpoint death_loop (n : nat) (pid : Z) (s : watchdog) : nat * watchdog :=
  match n with
  | O => (0%nat, s)
  | S n =>
      if decide (pid ∈ alive s) then let '(c, s) := death_loop n pid (release_lock s) in (S c, s)
      else (0%nat, s)
  end.

Definition waitForDeath (pid : Z) (s : watchdog) : bool * watchdog :=
  let '(checkCount, s) := death_loop DEATH_WAIT_SECS pid s in
  (negb (bool_decide (5 ≤ checkCount)%nat), s).

(** ** Stopping *)

Definition ignoreAllProcDeaths (s : watchdog) : watchdog :=
  set_services s ((λ d, if decide (0 < currentPid d) then with_ignore d true else d) <$> managerList s).

Definition stop_matches (scope : scopeFilter) (d : serviceDefinition) : bool :=
  match scope with
  | ALL_PROC_FILTER => true
  | SINGLE_PROC_FILTER name => bool_decide (name = serviceName d)
  | GROUP_PROC_FILTER name => bool_decide (Some name = logicalGroup d)
  | SINGLE_PHASE_FILTER => singlePhaseStartup d
  | NON_SINGLE_PHASE_FILTER => negb (singlePhaseStartup d)
  end.

(** curr->currentPid > 0, read anew: other threads may have changed it. *)
Definition pid_of (s : watchdog) (i : nat) : Z :=
  match managerList s !! i with Some d => currentPid d | None => 0 end.

(** Asking nicely, then by signals; [pid] is the process when we began. *)
Definition stop_by_ipc (i : nat) (pid : Z) (d : serviceDefinition) (s : watchdog) : bool * watchdog :=
  match shutdownToken d with
  | None => (false, s)
  | Some token =>
      let timeoutSecs := if decide (0 < waitSecsOnShutdown d) then waitSecsOnShutdown d else 5 in
      let '(isDead, s) := if requestServiceShutdown (u16 (serviceIpcPort d)) token timeoutSecs
                          then waitForDeath pid s else (false, s) in
      (if decide (pid_of s i ≤ 0) then true else isDead, s)
  end.

Definition stop_by_signals (i : nat) (pid : Z) (sig : signal) (isDead : bool) (s : watchdog) : watchdog :=
  let '(isDead, s) := if negb isDead && bool_decide (0 < pid_of s i)
                      then waitForDeath pid (emit s (Kill (pid_of s i) sig)) else (isDead, s) in
  if negb isDead && bool_decide (0 < pid_of s i) then emit s (Kill (pid_of s i) SIGKILL) else s.

Definition stop_one (scope : scopeFilter) (fl : stop_flags) (rs : bool * watchdog) (i : nat) : bool * watchdog :=
  let '(retVal, s) := rs in
  match managerList s !! i with
  | None => (retVal, s)
  | Some d =>
      if decide (currentPid d ≤ 0) then (retVal, s)
      else if negb (stop_matches scope d) then (retVal, s)
      else
        let d := with_ignore d (ignoreDeath fl) in
        let d := if resetAck fl then with_ack d 0 else d in
        let s := put s i d in
        let pid := currentPid d in
        let '(isDead, s) := if negb (forceKill fl) && negb (dumpCore fl) then stop_by_ipc i pid d s else (false, s) in
        (true, stop_by_signals i pid (if dumpCore fl then SIGQUIT else SIGTERM) isDead s)
  end.

Definition executeStopOperation (scope : scopeFilter) (fl : stop_flags) (s : watchdog) : bool * watchdog :=
  let s := match scope with ALL_PROC_FILTER => ignoreAllProcDeaths s | _ => s end in
  foldl (stop_one scope fl) (false, s) (seq 0 (length (managerList s))).

(** ** The startup sequence *)

Definition startMonitorAckThread (s : watchdog) : watchdog :=
  if decide (monitorAckTask s = 0) then set_monitor s scheduleDelayTask else s.

Definition performStartupSequence (now : clock) (serviceNames : option (list cstring)) (s : watchdog) : watchdog :=
  let s := startMonitorAckThread s in
  let s := (executeStartOperation now SINGLE_PHASE_FILTER s).2 in
  let s := release_lock s in
  match serviceNames with
  | None => (executeStartOperation now NON_SINGLE_PHASE_FILTER s).2
  | Some names => foldl (λ s n, (executeStartOperation now (SINGLE_PROC_FILTER n) s).2) s names
  end.

(** The names of what runs or should run. *)
Definition getServiceNamesToBounce (s : watchdog) : list cstring :=
  serviceName <$> filter (λ d, 0 < currentPid d ∨ autoStart d = true) (managerList s).

(** [slept]: nanosleep was not interrupted. *)
Definition operationOnAllProcesses (now : clock) (slept : bool) (action : operationAction) (force : bool) (s : watchdog) : watchdog :=
  match action with
  | START_PROCESS_ACTION => performStartupSequence now None s
  | STOP_PROCESS_ACTION => (executeStopOperation ALL_PROC_FILTER (mkFlags false force true false) s).2
  | RESTART_PROCESS_ACTION =>
      let runningList := getServiceNamesToBounce s in
      let s := (executeStopOperation ALL_PROC_FILTER (mkFlags true force true false) s).2 in
      if slept then performStartupSequence now (Some runningList) s else s
  | RESTART_FOR_RECOVERY_PROCESS_ACTION => s
  end.

Definition operationOnSingleProcesses (now : clock) (action : operationAction) (name : cstring) (s : watchdog)
    : bool * watchdog :=
  if decide (stringCompare (Some name) (Some WATCH_DOG_SERVICE_NAME) true = 0) then (false, s)
  else
    let send v s := broadcastWatchdogEvent s WATCHDOG_SERVICE_STATE_CHANGED v (Some name) in
    match action with
    | START_PROCESS_ACTION =>
        let '(ok, s) := executeStartOperation now (SINGLE_PROC_FILTER name) s in
        if ok then (true, send ACTION_START s) else (false, s)
    | STOP_PROCESS_ACTION =>
        let '(ok, s) := executeStopOperation (SINGLE_PROC_FILTER name) (mkFlags false false true false) s in
        if ok then (true, send ACTION_DEATH s) else (false, s)
    | RESTART_PROCESS_ACTION =>
        let s := (executeStopOperation (SINGLE_PROC_FILTER name) (mkFlags false false true false) s).2 in
        let '(ok, s) := executeStartOperation now (SINGLE_PROC_FILTER name) s in
        if ok then (true, send ACTION_RESTART s) else (false, s)
    | RESTART_FOR_RECOVERY_PROCESS_ACTION =>
        executeStopOperation (SINGLE_PROC_FILTER name) (mkFlags false true false true) s
    end.

Definition operationOnGroupOfProcesses (now : clock) (action : operationAction) (group : cstring) (s : watchdog) : watchdog :=
  let send v s := broadcastWatchdogEvent s WATCHDOG_GROUP_STATE_CHANGED v (Some group) in
  match action with
  | START_PROCESS_ACTION =>
      let '(ok, s) := executeStartOperation now (GROUP_PROC_FILTER group) s in if ok then send ACTION_START s else s
  | STOP_PROCESS_ACTION =>
      let '(ok, s) := executeStopOperation (GROUP_PROC_FILTER group) (mkFlags false false true false) s in
      if ok then send ACTION_DEATH s else s
  | RESTART_PROCESS_ACTION =>
      let s := (executeStopOperation (GROUP_PROC_FILTER group) (mkFlags false false true false) s).2 in
      let '(ok, s) := executeStartOperation now (GROUP_PROC_FILTER group) s in if ok then send ACTION_RESTART s else s
  | RESTART_FOR_RECOVERY_PROCESS_ACTION => s
  end.

Definition stopMonitoringService (name : cstring) (s : watchdog) : bool * watchdog :=
  match find_index (findServiceByNameInList name) (managerList s) with
  | Some (i, d) =>
      if decide (0 < currentPid d) then (true, put s i (with_monitoring d false)) else (false, s)
  | None => (false, s)
  end.

Definition getAllServiceNames (s : watchdog) : list cstring := serviceName <$> managerList s.

(** A copy without the path, arguments and their count. *)
Definition getServiceForName (name : cstring) (s : watchdog) : option serviceDefinition :=
  match find_index (findServiceByNameInList name) (managerList s) with
  | Some (_, d) =>
      Some (mkDef (serviceName d) None (logicalGroup d) (restartOnFail d) (expectStartupAck d) (secondsBetweenRestarts d)
        (maxRestartsPerMinute d) (restartsWithinPastMinute d) (actionOnMaxRestarts d) (autoStart d) (lastRestartTime d)
        (lastRestartTimeMono d) (lastActReceivedTime d) (shutdownToken d) (waitSecsOnShutdown d) (currentPid d)
        (tempIgoreDeath d) (deathCount d) (serviceIpcPort d) (isJavaService d) (singlePhaseStartup d))
  | None => None
  end.

(** ** Start of the process *)

(** The service that made the device reboot is not allowed to again, for an
    hour. *)
Definition resetBadServiceDelayCallback (name : cstring) (s : watchdog) : watchdog :=
  let s := set_reset s 0 in
  match find_index (findServiceByNameInList name) (managerList s) with
  | Some (i, d) => put s i (with_action d REBOOT_ACTION)
  | None => s
  end.

Definition restrain_bad_service (bad : option cstring) (s : watchdog) : watchdog :=
  match bad with
  | None => s
  | Some name =>
      match find_index (findServiceByNameInList name) (managerList s) with
      | Some (i, d) =>
          if decide (actionOnMaxRestarts d = REBOOT_ACTION)
          then set_reset (put s i (with_action d STOP_RESTARTING_ACTION)) scheduleDelayTask
          else s
      | None => s
      end
  end.

(** startConfiguredProcessesAndWait up to its loop on wait(): [loaded] is what
    loadServiceConfig returned, [bad] what readMisbehavingService did. *)
Definition startConfiguredProcesses (now : clock) (loaded : option (list serviceDefinition)) (bad : option cstring)
    (s : watchdog) : watchdog :=
  match loaded with
  | None => s
  | Some ds => performStartupSequence now None (restrain_bad_service bad (set_services s ds))
  end.

End Code.
End Watchdog.
