(* ===== verification/WatchdogTheorems.v ===== *)
(** * What the watchdog promises

    Every sequence of operations, deaths and acknowledgements keeps the process
    table in step with the children that are alive, leaves the configuration of
    the services alone and announces the end of the startup once.  Then the
    exact behaviour of starting, of the death of a child and of repeated
    deaths. *)

From S2P Require Import Prelude StringUtils Watchdog.
Import StringUtils Watchdog.

Module WatchdogTheorems.

(** ** Lookup in the table *)

Lemma find_index_Some p ds i d :
  find_index p ds = Some (i, d) →
  ds !! i = Some d ∧ p d = true ∧ ∀ j d', (j < i)%nat → ds !! j = Some d' → p d' = false.
Proof.
  revert i. induction ds as [|d0 ds IH]; intros i Hf; simpl in *; [done|].
  destruct (p d0) eqn:Hp.
  - injection Hf as <- <-. split; [done|]. split; [done|]. intros j d' Hj. lia.
  - destruct (find_index p ds) as [[k d1]|] eqn:E; simpl in Hf; [|done]. injection Hf as <- <-.
    destruct (IH k eq_refl) as (Hk & Hd & Hfirst). split; [done|]. split; [done|].
    intros [|j] d' Hj Hl; simpl in Hl; [congruence|]. apply (Hfirst j); [lia|done].
Qed.

Lemma find_index_None p ds : find_index p ds = None ↔ ∀ i d, ds !! i = Some d → p d = false.
Proof.
  induction ds as [|d0 ds IH]; simpl; [done|]. destruct (p d0) eqn:Hp.
  - split; [done|]. intros Hall. by rewrite (Hall 0%nat d0 eq_refl) in Hp.
  - rewrite fmap_None, IH. split.
    + intros Hall [|i] d Hl; simpl in Hl; [congruence|]. by apply (Hall i).
    + intros Hall i d Hl. by apply (Hall (S i)).
Qed.

(** ** The table and the children *)

(** What the configuration says of a service and no operation changes. *)
Definition config (d : serviceDefinition) :=
  (serviceName d, execPath d, logicalGroup d, expectStartupAck d, secondsBetweenRestarts d, maxRestartsPerMinute d,
   (autoStart d, waitSecsOnShutdown d, isJavaService d, singlePhaseStartup d)).

Definition owns (s : watchdog) (i : nat) (pid : Z) : Prop := currentPid <$> managerList s !! i = Some pid.

(** The children whose death was not handled. *)
Definition children (s : watchdog) : gset Z := alive s ∪ match reaped s with Some pid => {[pid]} | None => ∅ end.

(** The children whose death was not handled are the processes of the table,
    each of one service; fork will not return the id of one of them, or one
    it has returned. *)
Record tracked (s : watchdog) : Prop := {
  t_alive pid : pid ∈ children s ↔ 0 < pid ∧ ∃ i, owns s i pid;
  t_one i j pid : 0 < pid → owns s i pid → owns s j pid → i = j;
  t_fresh pid : pid ∈ forks s → pid ∉ children s;
  t_forks : NoDup (filter (λ pid, 0 < pid) (forks s));
  t_reaped pid : reaped s = Some pid → pid ∉ alive s
}.

Lemma put_lookup s i d j :
  managerList (put s i d) !! j = (if decide (i = j ∧ (i < length (managerList s))%nat) then Some d else managerList s !! j).
Proof. unfold put, set_services; simpl. by rewrite list_lookup_insert. Qed.

Lemma put_owns s i d d' j pid :
  managerList s !! i = Some d' → owns (put s i d) j pid ↔ (if decide (i = j) then currentPid d = pid else owns s j pid).
Proof.
  intros Hi. unfold owns. rewrite put_lookup. pose proof (lookup_lt_Some _ _ _ Hi).
  repeat case_decide; simpl; naive_solver.
Qed.

Lemma put_config s i d d' :
  managerList s !! i = Some d' → config d = config d' → config <$> managerList (put s i d) = config <$> managerList s.
Proof.
  intros Hi Hc. unfold put, set_services; simpl. rewrite list_fmap_insert. apply list_insert_id.
  by rewrite list_lookup_fmap, Hi, Hc.
Qed.

(** The announcements that everything has started. *)
Definition is_init (e : effect) : bool :=
  match e with Event WATCHDOG_INIT_COMPLETE ALL_SERVICES_STARTED _ => true | _ => false end.
Definition init_events (s : watchdog) : nat := length (filter (λ e, is_init e = true) (out s)).

(** What every operation keeps. *)
Record keeps (s s' : watchdog) : Prop := {
  k_tracked : tracked s → tracked s';
  k_config : config <$> managerList s' = config <$> managerList s;
  k_init : (init_events s' + Nat.b2n (startupSequenceFinalized s) = init_events s + Nat.b2n (startupSequenceFinalized s'))%nat;
  k_final : startupSequenceFinalized s = true → startupSequenceFinalized s' = true
}.

#[export] Instance keeps_preorder : PreOrder keeps.
Proof.
  split; [by split|]. intros s1 s2 s3 [T1 C1 I1 F1] [T2 C2 I2 F2].
  split; [auto|congruence|lia|auto].
Qed.

Lemma keeps_foldl {A} (f : watchdog → A → watchdog) xs s : (∀ s x, keeps s (f s x)) → keeps s (foldl f s xs).
Proof. intros Hf. revert s. induction xs as [|x xs IH]; intros s; simpl; [done|]. etrans; [apply Hf|apply IH]. Qed.

Lemma keeps_foldl_snd {A} (f : bool * watchdog → A → bool * watchdog) xs b s :
  (∀ b s x, keeps s (f (b, s) x).2) → keeps s (foldl f (b, s) xs).2.
Proof.
  intros Hf. revert b s. induction xs as [|x xs IH]; intros b s; simpl; [done|].
  specialize (Hf b s x). destruct (f (b, s) x) as [b' s']. etrans; [exact Hf|apply IH].
Qed.

(** The same table with the same processes, children and forks. *)
Lemma tracked_ext s s' :
  tracked s → (∀ i pid, owns s' i pid ↔ owns s i pid) → alive s' = alive s → reaped s' = reaped s → forks s' = forks s → tracked s'.
Proof.
  intros [Ta To Tf Tn Tr] Ho Ha Hr Hf. assert (children s' = children s) as Hc by (unfold children; by rewrite Ha, Hr). split.
  - intros pid. rewrite Hc, Ta. by setoid_rewrite Ho.
  - intros i j pid. rewrite !Ho. apply To.
  - intros pid. rewrite Hf, Hc. apply Tf.
  - by rewrite Hf.
  - intros pid. rewrite Hr, Ha. apply Tr.
Qed.

Lemma init_events_app s s' es :
  out s' = out s ++ es → init_events s' = (init_events s + length (filter (λ e, is_init e = true) es))%nat.
Proof. intros H. unfold init_events. by rewrite H, filter_app, length_app. Qed.

Lemma keeps_emit s e : is_init e = false → keeps s (emit s e).
Proof.
  intros He. split; [|done| |done].
  - intros T. by apply (tracked_ext s).
  - rewrite (init_events_app s (emit s e) [e]) by done. rewrite filter_cons_False by congruence. simpl. lia.
Qed.

Lemma keeps_event s c v n : v ≠ ALL_SERVICES_STARTED → keeps s (broadcastWatchdogEvent s c v n).
Proof. intros Hv. apply keeps_emit. by destruct c, v. Qed.

Lemma keeps_monitor s t : keeps s (set_monitor s t).
Proof. split; try done. intros T. by apply (tracked_ext s). Qed.

Lemma keeps_reset s t : keeps s (set_reset s t).
Proof. split; try done. intros T. by apply (tracked_ext s). Qed.

Lemma keeps_future s f : keeps s (set_future s f).
Proof. split; try done. intros T. by apply (tracked_ext s). Qed.

Lemma keeps_put s i d d' :
  managerList s !! i = Some d' → config d = config d' → currentPid d = currentPid d' → keeps s (put s i d).
Proof.
  intros Hi Hc Hp. split; [|by eapply put_config|done..].
  intros T. apply (tracked_ext s); [done| |done..]. intros j pid. rewrite (put_owns _ _ _ _ _ _ Hi).
  case_decide as Hij; [|done]. subst j. unfold owns. rewrite Hi; simpl. split; congruence.
Qed.

(** fork succeeded for a service that has no process. *)
Lemma keeps_fork s i d d' pid fs :
  managerList s !! i = Some d' → currentPid d' ≤ 0 → config d = config d' → currentPid d = pid → 0 < pid →
  forks s = pid :: fs → keeps s (put (set_alive (set_forks s fs) ({[pid]} ∪ alive s)) i d).
Proof.
  intros Hi Hz Hc Hp Hpos Hf. split; [|by eapply (put_config (set_alive (set_forks s fs) _))|done..].
  intros [Ta To Tf Tn Tr]. set (s1 := set_alive _ _).
  assert (Hi1 : managerList s1 !! i = Some d') by done.
  assert (Hch : children (put s1 i d) = {[pid]} ∪ children s) by (unfold children; simpl; by rewrite (assoc_L (∪))).
  assert (Hsame : ∀ j q, owns s1 j q ↔ owns s j q) by done.
  assert (Hnew : ∀ j, ¬ owns s j pid).
  { intros j Hj. apply (Tf pid); [rewrite Hf; apply list_elem_of_here|]. apply Ta. eauto. }
  rewrite Hf, filter_cons_True in Tn by done. apply NoDup_cons in Tn as [Hnot Tn]. split.
  - intros q. rewrite Hch, elem_of_union, elem_of_singleton, Ta. split.
    + intros [->|[Hq [j Hj]]].
      * split; [done|]. exists i. rewrite (put_owns s1 i d d' i pid Hi1). by rewrite decide_True.
      * split; [done|]. exists j. rewrite (put_owns s1 i d d' j q Hi1). rewrite decide_False; [done|].
        intros ->. unfold owns in Hj. rewrite Hi in Hj. injection Hj as <-. lia.
    + intros [Hq [j Hj]]. rewrite (put_owns s1 i d d' j q Hi1) in Hj. case_decide; [left; congruence|right; eauto].
  - intros j k q Hq. rewrite !(put_owns s1 i d d' _ q Hi1). case_decide as E1; case_decide as E2; subst; [done|..].
    + intros <- Hk. by destruct (Hnew k).
    + intros Hj <-. by destruct (Hnew j).
    + by apply To.
  - intros q Hq. rewrite Hch, not_elem_of_union, not_elem_of_singleton. unfold s1 in Hq; simpl in Hq. split.
    + intros ->. apply Hnot. apply list_elem_of_filter. done.
    + apply Tf. rewrite Hf. by right.
  - unfold s1; simpl. exact Tn.
  - intros q Hq. unfold s1 in *; simpl in *. apply not_elem_of_union. split; [|by apply Tr]. intros ->%elem_of_singleton.
    destruct (Tf pid); [rewrite Hf; apply list_elem_of_here|]. unfold children. rewrite Hq. set_solver.
Qed.

Lemma keeps_forks s pid fs : forks s = pid :: fs → ¬ 0 < pid → keeps s (set_forks s fs).
Proof.
  intros Hf Hn. split; try done. intros [Ta To Tf Tn Tr]. split; [done|done| | |done].
  - intros q Hq. apply Tf. rewrite Hf. by right.
  - rewrite Hf, filter_cons_False in Tn by done. done.
Qed.

Lemma keeps_startProcess now i s d :
  managerList s !! i = Some d → currentPid d ≤ 0 → keeps s (startProcess now i s).
Proof.
  intros Hi Hz. unfold startProcess. rewrite Hi. destruct (forks s) as [|pid fs] eqn:Hf; [by eapply keeps_put|].
  case_decide as Hpos; [by eapply (keeps_fork s i _ d pid fs)|]. etrans; [by eapply keeps_forks|]. by eapply keeps_put.
Qed.

(** A reaped child is not alive, but the table names it. *)
Lemma keeps_reap s pid : keeps s (reap_child pid s).
Proof.
  unfold reap_child. destruct (reaped s) eqn:Hr; [done|]. case_decide as Hin; [|done]. split; try done.
  intros [Ta To Tf Tn Tr]. set (s1 := set_reaped _ _).
  assert (children s1 = children s) as Hc.
  { unfold children, s1; simpl. rewrite Hr. apply set_eq. intros q. rewrite !elem_of_union, elem_of_difference, !elem_of_singleton.
    destruct (decide (q = pid)) as [->|]; set_solver. }
  split; [..|done|].
  - intros q. by rewrite Hc, Ta.
  - done.
  - intros q Hq. rewrite Hc. by apply Tf.
  - intros q [= <-]. simpl. set_solver.
Qed.

(** The death of a child is handled: its service has no process any more. *)
Lemma keeps_death s i d d' :
  managerList s !! i = Some d' → reaped s = Some (currentPid d') → config d = config d' → currentPid d = 0 →
  keeps s (put (set_reaped s None) i d).
Proof.
  intros Hi Hr Hc Hz. split; [|by eapply (put_config (set_reaped s _))|done..].
  intros [Ta To Tf Tn Tr]. set (s1 := set_reaped _ _). assert (Hi1 : managerList s1 !! i = Some d') by done.
  assert (Hown : owns s i (currentPid d')) by (unfold owns; by rewrite Hi).
  assert (Hch : ∀ q, q ∈ children (put s1 i d) ↔ q ∈ children s ∧ q ≠ currentPid d').
  { intros q. specialize (Tr _ Hr). unfold children; simpl. rewrite Hr. set_solver. }
  split.
  - intros q. rewrite Hch, Ta. split.
    + intros [[Hq [j Hj]] Hne]. split; [done|]. exists j. rewrite (put_owns s1 i d d' j q Hi1), decide_False; [done|].
      intros ->. apply Hne. unfold owns in *. congruence.
    + intros [Hq [j Hj]]. rewrite (put_owns s1 i d d' j q Hi1) in Hj. case_decide as E; [lia|].
      split; [eauto|]. intros ->. by apply E, (To i j (currentPid d')).
  - intros j k q Hq. rewrite !(put_owns s1 i d d' _ q Hi1). case_decide; case_decide; subst; try lia. by apply To.
  - intros q Hq. rewrite Hch. intros [Hin _]. by apply (Tf q).
  - done.
  - done.
Qed.

Lemma keeps_unknown_death s pid : reaped s = Some pid → (∀ i, ¬ owns s i pid) → keeps s (set_reaped s None).
Proof.
  intros Hr Hno. split; try done. intros T. destruct (proj1 (t_alive s T pid)) as [_ [i Hi]]; [unfold children; rewrite Hr; set_solver|].
  by destruct (Hno i).
Qed.

Lemma put_here s i d d' : managerList s !! i = Some d' → managerList (put s i d) !! i = Some d.
Proof. intros Hi. rewrite put_lookup, decide_True; [done|]. split; [done|]. by eapply lookup_lt_Some. Qed.

Lemma keeps_restart_dead now i n s d :
  managerList s !! i = Some d → currentPid d ≤ 0 → keeps s (restart_dead now i n s).
Proof. intros Hi Hz. unfold restart_dead. etrans; [by eapply keeps_startProcess|]. by apply keeps_event. Qed.

Lemma count_restart_config now d : config (count_restart now d) = config d ∧ currentPid (count_restart now d) = currentPid d.
Proof. unfold count_restart. by case_decide. Qed.

Lemma keeps_handles s dt : keeps s (handle_reaped dt s).
Proof.
  unfold handle_reaped. destruct (reaped s) as [pid|] eqn:Hr; [|done]. unfold handleDeadChild. set (s1 := set_reaped _ _).
  destruct (find_index _ _) as [[i d]|] eqn:Hfind.
  2: { apply (keeps_unknown_death s pid Hr). intros i Hi. unfold owns in Hi.
       destruct (managerList s !! i) as [d|] eqn:E; [|done]. injection Hi as Hi.
       rewrite find_index_None in Hfind. specialize (Hfind i d E). unfold findServiceByPidInList in Hfind.
       by apply bool_decide_eq_false in Hfind. }
  apply find_index_Some in Hfind as (Hi & Hp & _). apply bool_decide_eq_true in Hp.
  assert (Hdead : ∀ d1, config d1 = config d → currentPid d1 = 0 → keeps s (put s1 i d1)).
  { intros d1 Hc Hz. apply (keeps_death s i d1 d); try done. congruence. }
  destruct (tempIgoreDeath (with_pid d 0)) eqn:Hig.
  - rewrite Hig. destruct (restartOnFail _); simpl; by apply Hdead.
  - set (d1 := with_deaths (with_pid d 0) _). set (s2 := broadcastWatchdogEvent _ _ _ _).
    assert (K2 : keeps s s2) by (etrans; [by apply (Hdead d1)|by apply keeps_event]).
    assert (H2 : managerList s2 !! i = Some d1) by (by apply (put_here s1 i d1 d)).
    destruct (count_restart_config (d_now dt) d1) as [Cc Cp].
    assert (K3 : keeps s2 (put s2 i (count_restart (d_now dt) d1))) by (by eapply keeps_put).
    assert (H3 : managerList (put s2 i (count_restart (d_now dt) d1)) !! i = Some (count_restart (d_now dt) d1))
      by (by eapply put_here).
    etrans; [exact K2|].
    destruct (negb (restartOnFail d1)); [done|]. destruct (tempIgoreDeath d1); [done|].
    destruct (restart_cancelled _ _ _); [done|].
    case_decide; [|by eapply keeps_restart_dead].
    etrans; [exact K3|].
    repeat case_decide; try done;
      try (eapply keeps_restart_dead; [exact H3|rewrite Cp; done]).
    etrans; by apply keeps_emit.
Qed.

Lemma keeps_allAcks s : keeps s (allAcksReceived s).
Proof.
  unfold allAcksReceived. destruct (startupSequenceFinalized s) eqn:Hfin; [done|].
  set (f := λ s d, _). set (s1 := foldl f s (managerList s)).
  assert (K : keeps s s1). { apply keeps_foldl. intros s2 d. unfold f. case_decide; [by apply keeps_emit|done]. }
  assert (Hf : startupSequenceFinalized s1 = false).
  { unfold s1. generalize (managerList s). intros ds. revert s Hfin s1 K. clear. intros s Hfin _ _. revert s Hfin.
    induction ds as [|d ds IH]; intros s Hfin; simpl; [done|]. apply IH. unfold f. by case_decide. }
  etrans; [exact K|]. split; [|done| |done].
  - intros T. by apply (tracked_ext s1).
  - rewrite Hf; simpl.
    rewrite (init_events_app s1 _ [Event WATCHDOG_INIT_COMPLETE ALL_SERVICES_STARTED None]) by done. simpl. lia.
Qed.

Lemma keeps_acks s a : keeps s (acknowledgeServiceStarted a s).2.
Proof.
  unfold acknowledgeServiceStarted. destruct (a_name a) as [name|]; [|done].
  destruct (find_index _ _) as [[i d]|] eqn:Hfind; [|done]. apply find_index_Some in Hfind as (Hi & _ & _).
  set (s1 := put s i _). assert (K : keeps s s1) by (by eapply keeps_put).
  etrans; [exact K|]. clearbody s1.
  case_decide; [|case_decide; simpl; [by apply keeps_event|done]].
  etrans; [|case_decide; simpl; [|done]; etrans; [apply (keeps_monitor _ 0)|apply keeps_allAcks]].
  case_decide; [by apply keeps_emit|done].
Qed.

Lemma keeps_happen s h : keeps s (happen s h).
Proof. destruct h as [pid|dt|a]; [apply keeps_reap|apply keeps_handles|apply keeps_acks]. Qed.

Lemma keeps_release s : keeps s (release_lock s).
Proof.
  unfold release_lock. destruct (future s) as [|hs f]; [done|]. etrans; [apply keeps_future|].
  apply keeps_foldl, keeps_happen.
Qed.

Lemma keeps_waitForDeath pid s : keeps s (waitForDeath pid s).2.
Proof.
  unfold waitForDeath. assert (K : ∀ n s, keeps s (death_loop n pid s).2).
  { induction n as [|n IH]; intros s1; simpl; [done|]. case_decide; [|done].
    specialize (IH (release_lock s1)). destruct (death_loop n pid _) as [c s2]; simpl in *.
    etrans; [apply keeps_release|exact IH]. }
  specialize (K DEATH_WAIT_SECS s). by destruct (death_loop _ _ _).
Qed.

Lemma keeps_start now scope s : keeps s (executeStartOperation now scope s).2.
Proof.
  apply keeps_foldl_snd. intros b s1 i. unfold start_one. destruct (managerList s1 !! i) as [d|] eqn:Hi; [|done].
  destruct (stringIsEmpty _); [done|]. destruct (negb _); [done|]. case_decide; [done|]. simpl.
  etrans; [by eapply (keeps_put s1 i (with_ignore d false))|].
  eapply keeps_startProcess; [by eapply put_here|]. simpl. lia.
Qed.

Lemma keeps_ignoreAll s : keeps s (ignoreAllProcDeaths s).
Proof.
  unfold ignoreAllProcDeaths. split; [| |done..].
  - intros T. apply (tracked_ext s); [done| |done..]. intros i pid. unfold owns; simpl.
    rewrite list_lookup_fmap. destruct (managerList s !! i) as [d|]; simpl; [|done]. by case_decide.
  - simpl. rewrite <-list_fmap_compose. apply list_fmap_ext. intros i d _. simpl. by case_decide.
Qed.

Section Requests.
Context (requestServiceShutdown : Z → cstring → Z → bool) (scheduleDelayTask : Z).

Lemma keeps_by_ipc i pid d s : keeps s (stop_by_ipc requestServiceShutdown i pid d s).2.
Proof.
  unfold stop_by_ipc. destruct (shutdownToken d); [|done]. destruct (requestServiceShutdown _ _ _); [|done].
  pose proof (keeps_waitForDeath pid s). by destruct (waitForDeath pid s).
Qed.

Lemma keeps_by_signals i pid sig b s : keeps s (stop_by_signals i pid sig b s).
Proof.
  unfold stop_by_signals.
  assert (K : ∀ b s1, keeps s s1 → keeps s (if negb b && bool_decide (0 < pid_of s1 i) then emit s1 (Kill (pid_of s1 i) SIGKILL) else s1)).
  { intros b' s1 K. case_match; [|done]. etrans; [exact K|by apply keeps_emit]. }
  destruct (negb b && bool_decide (0 < pid_of s i)); [|by apply K].
  pose proof (keeps_waitForDeath pid (emit s (Kill (pid_of s i) sig))) as Kw.
  destruct (waitForDeath pid _) as [b' s1]; simpl in Kw. apply K. etrans; [|exact Kw]. by apply keeps_emit.
Qed.

Lemma keeps_stop scope fl s : keeps s (executeStopOperation requestServiceShutdown scope fl s).2.
Proof.
  unfold executeStopOperation. set (s1 := match scope with ALL_PROC_FILTER => _ | _ => _ end).
  assert (K : keeps s s1) by (destruct scope; try done; apply keeps_ignoreAll). etrans; [exact K|]. clearbody s1. clear K.
  apply keeps_foldl_snd. intros b s2 i. unfold stop_one. destruct (managerList s2 !! i) as [d|] eqn:Hi; [|done].
  case_decide; [done|]. destruct (negb _); [done|]. set (d1 := if resetAck fl then _ else _).
  assert (K : keeps s2 (put s2 i d1)) by (eapply keeps_put; [done|by destruct fl as [[] ???]..]).
  destruct (negb (forceKill fl) && negb (dumpCore fl)); simpl.
  - pose proof (keeps_by_ipc i (currentPid d1) d1 (put s2 i d1)) as K2.
    destruct (stop_by_ipc _ _ _ _ _) as [b' s3]; simpl in *. etrans; [exact K|]. etrans; [exact K2|]. apply keeps_by_signals.
  - etrans; [exact K|apply keeps_by_signals].
Qed.

Lemma keeps_startup now names s : keeps s (performStartupSequence scheduleDelayTask now names s).
Proof.
  unfold performStartupSequence, startMonitorAckThread. set (s1 := if decide _ then _ else s).
  assert (K : keeps s s1) by (unfold s1; case_decide; [apply keeps_monitor|done]).
  etrans; [exact K|]. etrans; [apply (keeps_start now SINGLE_PHASE_FILTER)|]. etrans; [apply keeps_release|].
  destruct names as [ns|]; [|apply keeps_start]. apply keeps_foldl. intros s2 n. apply keeps_start.
Qed.

(** Everything that is asked of the process manager once it runs. *)
Inductive request :=
  | OnAll (now : clock) (slept : bool) (action : operationAction) (force : bool)
  | OnSingle (now : clock) (action : operationAction) (name : cstring)
  | OnGroup (now : clock) (action : operationAction) (group : cstring)
  | StopMonitoring (name : cstring)
  | AckTimeout
  | ResetBadService (name : cstring)
  | Happens (h : happening).

Definition serve (s : watchdog) (r : request) : watchdog :=
  match r with
  | OnAll now slept action force =>
      operationOnAllProcesses requestServiceShutdown scheduleDelayTask now slept action force s
  | OnSingle now action name => (operationOnSingleProcesses requestServiceShutdown now action name s).2
  | OnGroup now action group => operationOnGroupOfProcesses requestServiceShutdown now action group s
  | StopMonitoring name => (stopMonitoringService name s).2
  | AckTimeout => monitorAckDelayCallback s
  | ResetBadService name => resetBadServiceDelayCallback name s
  | Happens h => happen s h
  end.

(** An operation that reports success, then an event. *)
Lemma keeps_report s (r : bool * watchdog) (f : watchdog → watchdog) :
  keeps s r.2 → (∀ s1, keeps s1 (f s1)) →
  keeps s (let '(ok, s1) := r in if ok then (true, f s1) else (false, s1)).2 ∧
  keeps s (let '(ok, s1) := r in if ok then f s1 else s1).
Proof. destruct r as [[] s1]; simpl; intros K Kf; split; try done; (etrans; [exact K|apply Kf]). Qed.

Lemma keeps_serve s r : keeps s (serve s r).
Proof.
  destruct r as [now slept action force|now action name|now action group|name| |name|h]; unfold serve.
  - unfold operationOnAllProcesses. destruct action; [apply keeps_startup|apply keeps_stop| |done].
    destruct slept; [|apply keeps_stop]. etrans; [apply keeps_stop|apply keeps_startup].
  - unfold operationOnSingleProcesses. case_decide; [done|].
    destruct action; [..|apply keeps_stop]; (eapply keeps_report; [|intros s1; by apply keeps_event]);
      [apply keeps_start|apply keeps_stop|]. etrans; [apply keeps_stop|apply keeps_start].
  - unfold operationOnGroupOfProcesses.
    destruct action; [..|done]; (eapply keeps_report; [|intros s1; by apply keeps_event]);
      [apply keeps_start|apply keeps_stop|]. etrans; [apply keeps_stop|apply keeps_start].
  - unfold stopMonitoringService. destruct (find_index _ _) as [[i d]|] eqn:Hf; [|done].
    apply find_index_Some in Hf as (Hi & _ & _). case_decide; [|done]. by eapply keeps_put.
  - etrans; [apply (keeps_monitor s 0)|apply keeps_allAcks].
  - unfold resetBadServiceDelayCallback. etrans; [apply (keeps_reset s 0)|].
    destruct (find_index _ _) as [[i d]|] eqn:Hf; [|done].
    apply find_index_Some in Hf as (Hi & _ & _). by eapply keeps_put.
  - apply keeps_happen.
Qed.

Lemma keeps_requests rs s : keeps s (foldl serve s rs).
Proof. apply keeps_foldl, keeps_serve. Qed.

End Requests.

(** ** From the start of the process on *)

(** The static variables before anything is loaded. *)
Definition initial (fs : list Z) (fut : list (list happening)) : watchdog := mkWd [] 0 0 false ∅ None fs fut [].

Section Started.
Context (requestServiceShutdown : Z → cstring → Z → bool) (scheduleDelayTask : Z).

(** The process manager after it was started on [ds] and has served [rs]. *)
Definition after (now : clock) (ds : list serviceDefinition) (bad : option cstring) (fs : list Z)
    (fut : list (list happening)) (rs : list request) : watchdog :=
  foldl (serve requestServiceShutdown scheduleDelayTask)
    (startConfiguredProcesses scheduleDelayTask now (Some ds) bad (initial fs fut)) rs.

Lemma keeps_restrain bad s : keeps s (restrain_bad_service scheduleDelayTask bad s).
Proof.
  unfold restrain_bad_service. destruct bad as [name|]; [|done]. destruct (find_index _ _) as [[i d]|] eqn:Hf; [|done].
  apply find_index_Some in Hf as (Hi & _ & _). case_decide; [|done].
  etrans; [by eapply (keeps_put s i (with_action d STOP_RESTARTING_ACTION))|apply keeps_reset].
Qed.

Lemma keeps_after now ds bad fs fut rs : keeps (set_services (initial fs fut) ds) (after now ds bad fs fut rs).
Proof.
  unfold after, startConfiguredProcesses. etrans; [|apply keeps_requests].
  etrans; [apply keeps_restrain|apply keeps_startup].
Qed.

Lemma tracked_loaded ds fs fut :
  Forall (λ d, currentPid d = 0) ds → NoDup (filter (λ pid, 0 < pid) fs) → tracked (set_services (initial fs fut) ds).
Proof.
  intros Hz Hn. assert (Hno : ∀ i pid, owns (set_services (initial fs fut) ds) i pid → pid = 0).
  { intros i pid. unfold owns; simpl. destruct (ds !! i) as [d|] eqn:E; simpl; [|done]. intros [= <-].
    by eapply (Forall_lookup_1 _ _ _ _ Hz E). }
  split; simpl; [|intros i j pid Hp Hi%Hno; lia|set_solver|done|done].
  intros pid. split; [set_solver|]. intros [Hp [i Hi%Hno]]. lia.
Qed.

(** C17: the watchdog never loses a child.  Whatever is asked of the process
    manager after its start, and whatever dies or acknowledges in between, also
    during the waits of an operation: the processes its table names are exactly
    the children that are alive, and the one that the main thread has reaped
    and not handled yet (wait returns before the mutex is taken, so a request
    can find it in the table); no process belongs to two services, so no
    service ever runs twice, and the configured part of every service is what
    was loaded.  fork is assumed not to return an id twice. *)
Theorem watchdog_tracks_children now ds bad fs fut rs :
  Forall (λ d, currentPid d = 0) ds → NoDup (filter (λ pid, 0 < pid) fs) →
  let s := after now ds bad fs fut rs in
  (∀ pid, (0 < pid ∧ ∃ i, owns s i pid) ↔ pid ∈ alive s ∨ reaped s = Some pid) ∧
  (∀ pid, reaped s = Some pid → pid ∉ alive s) ∧
  (∀ i j pid, 0 < pid → owns s i pid → owns s j pid → i = j) ∧
  config <$> managerList s = config <$> ds.
Proof.
  intros Hz Hn. destruct (keeps_after now ds bad fs fut rs) as [T C _ _].
  destruct (T (tracked_loaded _ _ _ Hz Hn)) as [Ta To _ _ Tr]. split_and!; [|done..]. intros pid. rewrite <-Ta.
  unfold children. destruct (reaped _); set_solver.
Qed.

(** The end of the startup is announced at most once in the life of the
    process: WATCHDOG_INIT_COMPLETE for all services has been sent exactly
    when startupSequenceFinalized is set, and once it is, no request sends it
    again -- also not a restart of all services, which resets the
    acknowledgements in order to have the services wait for that event. *)
Theorem startup_announced_once now ds bad fs fut rs rs' :
  let s := after now ds bad fs fut rs in
  init_events s = Nat.b2n (startupSequenceFinalized s) ∧
  (startupSequenceFinalized s = true →
   let s' := foldl (serve requestServiceShutdown scheduleDelayTask) s rs' in
   startupSequenceFinalized s' = true ∧ init_events s' = 1%nat).
Proof.
  destruct (keeps_after now ds bad fs fut rs) as [_ _ I _]. simpl in *.
  assert (E : init_events (after now ds bad fs fut rs) = Nat.b2n (startupSequenceFinalized (after now ds bad fs fut rs))).
  { change (init_events (set_services (initial fs fut) ds)) with 0%nat in I. lia. }
  split; [exact E|]. intros Hfin.
  destruct (keeps_requests requestServiceShutdown scheduleDelayTask rs' (after now ds bad fs fut rs)) as [_ _ I' F'].
  specialize (F' Hfin). split; [done|]. rewrite Hfin in *. rewrite F' in I'. simpl in *. lia.
Qed.

End Started.

(** ** Starting *)

Definition startable (scope : scopeFilter) (d : serviceDefinition) : bool :=
  negb (stringIsEmpty (execPath d)) && start_matches scope d && bool_decide (currentPid d ≤ 0).

(** One service that is to start, given what fork returns. *)
Definition started (now : clock) (d : serviceDefinition) (fork : option Z) : serviceDefinition :=
  let d := with_ack (with_ignore d false) 0 in
  match fork with
  | Some pid => if decide (0 < pid) then with_started (with_pid d pid) (real now) (mono now) else d
  | None => d
  end.

(** The services in order, each that is to start taking the next fork: the
    table, and the forks that are left. *)
Fixpoint start_ref (now : clock) (scope : scopeFilter) (ds : list serviceDefinition) (fs : list Z)
    : list serviceDefinition * list Z :=
  match ds with
  | [] => ([], fs)
  | d :: ds =>
      if startable scope d
      then let '(ds', fs') := start_ref now scope ds (tail fs) in (started now d (head fs) :: ds', fs')
      else let '(ds', fs') := start_ref now scope ds fs in (d :: ds', fs')
  end.

Definition starting (scope : scopeFilter) (ds : list serviceDefinition) : nat :=
  length (filter (λ d, startable scope d = true) ds).

(** [s] with another table, other children and forks. *)
Definition with_table (s : watchdog) ds al fs : watchdog :=
  mkWd ds (monitorAckTask s) (resetBadServiceTask s) (startupSequenceFinalized s) al (reaped s) fs (future s) (out s).

(** The children that come from the next [n] forks. *)
Definition born (n : nat) (fs : list Z) : gset Z := list_to_set (filter (λ pid, 0 < pid) (take n fs)).

Lemma born_cons n fs :
  born (S n) fs = match head fs with Some pid => if decide (0 < pid) then {[pid]} ∪ born n (tail fs) else born n (tail fs)
                                | None => ∅ end.
Proof.
  unfold born. destruct fs as [|pid fs]; [by rewrite take_nil|]. simpl take. cbn [head tail]. case_decide as Hp.
  - by rewrite filter_cons_True.
  - by rewrite filter_cons_False.
Qed.

Lemma born_nil n : born n [] = ∅.
Proof. unfold born. by rewrite take_nil. Qed.

(** The loop body at the first service that was not visited. *)
Lemma start_one_at now scope pre d ds b s :
  managerList s = pre ++ d :: ds →
  start_one now scope (length pre) (b, s) =
  if startable scope d
  then (true, with_table s (pre ++ started now d (head (forks s)) :: ds) (born 1 (forks s) ∪ alive s) (tail (forks s)))
  else (b, s).
Proof.
  intros Hl. assert (Hi : managerList s !! length pre = Some d) by (rewrite Hl; by apply list_lookup_middle).
  unfold start_one, startable. rewrite Hi. destruct (stringIsEmpty _); simpl; [done|].
  destruct (start_matches scope d); simpl; [|done].
  case_decide as Hp; [by rewrite bool_decide_eq_false_2 by lia|]. rewrite bool_decide_eq_true_2 by lia.
  f_equal. unfold startProcess. rewrite (put_here s _ _ d Hi).
  assert (Hins : ∀ d1 d2, <[length pre := d2]> (<[length pre := d1]> (managerList s)) = pre ++ d2 :: ds).
  { intros d1 d2. rewrite list_insert_insert, Hl. by rewrite decide_True, insert_app_r_alt, Nat.sub_diag by lia. }
  rewrite born_cons. unfold with_table, put, set_services, set_alive, set_forks, started; simpl.
  destruct (forks s) as [|pid fs]; simpl; [|change (born 0 fs) with (∅ : gset Z); case_decide; simpl];
    by rewrite Hins, ?(union_empty_r_L {[pid]}), ?(union_empty_l_L (alive s)).
Qed.

Lemma start_loop now scope ds pre b s :
  managerList s = pre ++ ds →
  foldl (λ rs i, start_one now scope i rs) (b, s) (seq (length pre) (length ds)) =
  (b || existsb (startable scope) ds,
   let '(ds', fs') := start_ref now scope ds (forks s) in
   with_table s (pre ++ ds') (born (starting scope ds) (forks s) ∪ alive s) fs').
Proof.
  revert pre b s. induction ds as [|d ds IH]; intros pre b s Hl.
  - simpl. rewrite orb_false_r. unfold starting. simpl. unfold born; simpl. rewrite (union_empty_l_L (alive s)), <-Hl.
    by destruct s.
  - cbn [length seq foldl]. rewrite (start_one_at now scope pre d ds b s Hl).
    assert (Hlen : ∀ x : serviceDefinition, S (length pre) = length (pre ++ [x])) by (intros; rewrite length_app; simpl; lia).
    unfold starting. cbn [start_ref existsb]. destruct (startable scope d) eqn:E.
    + rewrite filter_cons_True by done. rewrite (Hlen (started now d (head (forks s)))).
      rewrite IH by (simpl; by rewrite <-app_assoc). simpl. f_equal; [by rewrite orb_true_r|].
      unfold with_table; simpl. destruct (start_ref _ _ _ _) as [ds' fs']. rewrite <-app_assoc. simpl. f_equal.
      rewrite assoc_L by apply _. f_equal. rewrite (born_cons (length _)), (born_cons 0).
      destruct (forks s) as [|pid fs]; simpl; [by rewrite born_nil; set_solver|].
      unfold starting. replace (born 0 fs) with (∅ : gset Z) by done. case_decide; set_solver.
    + rewrite filter_cons_False by congruence. rewrite (Hlen d), IH by (by rewrite <-app_assoc). f_equal.
      destruct (start_ref _ _ _ _) as [ds' fs']. by rewrite <-app_assoc.
Qed.

(** Starting visits the table by index and changes it while it goes; it
    is the same as going once through the list and giving each service that
    is to start -- it has a path, matches the scope and has no process -- the
    next fork.  Every other service, and everything else in the state, stays
    as it is; the result says whether there was one to start. *)
Theorem executeStartOperation_reference now scope s :
  executeStartOperation now scope s =
  (existsb (startable scope) (managerList s),
   let '(ds, fs) := start_ref now scope (managerList s) (forks s) in
   with_table s ds (born (starting scope (managerList s)) (forks s) ∪ alive s) fs).
Proof. apply (start_loop now scope (managerList s) [] false s eq_refl). Qed.

(** ** Repeated deaths *)

Lemma find_index_unique p ds i d :
  ds !! i = Some d → p d = true → (∀ j d', ds !! j = Some d' → p d' = true → j = i) → find_index p ds = Some (i, d).
Proof.
  intros Hi Hp Hone. destruct (find_index p ds) as [[j d']|] eqn:E.
  - apply find_index_Some in E as (Hj & Hp' & _). assert (j = i) as -> by (by eapply Hone). congruence.
  - rewrite find_index_None in E. by rewrite (E i d Hi) in Hp.
Qed.

(** The process of service [i], if it has one, dies; its death is handled at
    [fst t], without an interruption, and the process that may be started for
    it is started at [snd t]. *)
Definition dies (i : nat) (s : watchdog) (t : clock * clock) : watchdog :=
  if decide (0 < pid_of s i) then happen (happen s (Reaps (pid_of s i))) (Handles (mkDeath t.1 false t.2)) else s.

(** The record when its death is handled. *)
Definition dead (d : serviceDefinition) : serviceDefinition := with_deaths (with_pid d 0) (u64 (deathCount d + 1)).

Definition death_event (d : serviceDefinition) : effect := Event WATCHDOG_SERVICE_STATE_CHANGED ACTION_DEATH (Some (serviceName d)).
Definition start_event (d : serviceDefinition) : effect := Event WATCHDOG_SERVICE_STATE_CHANGED ACTION_START (Some (serviceName d)).

(** A service that is watched, with a limit on its restarts. *)
Record guarded (d : serviceDefinition) : Prop := {
  g_runs : 0 < currentPid d;
  g_restart : restartOnFail d = true;
  g_ignore : tempIgoreDeath d = false;
  g_max : 0 < maxRestartsPerMinute d < 65535
}.

Lemma pid_alive s i d : tracked s → reaped s = None → managerList s !! i = Some d → 0 < currentPid d → currentPid d ∈ alive s.
Proof.
  intros T Hr Hi Hp. assert (currentPid d ∈ children s) as Hc.
  { apply (t_alive s T). split; [done|]. exists i. unfold owns. by rewrite Hi. }
  unfold children in Hc. rewrite Hr in Hc. set_solver.
Qed.

(** The state in which the death of [pid] is handled. *)
Definition handling (s : watchdog) (pid : Z) : watchdog := set_reaped (set_alive s (alive s ∖ {[pid]})) None.

Lemma dies_find s i d t :
  tracked s → reaped s = None → managerList s !! i = Some d → 0 < currentPid d →
  dies i s t = handleDeadChild (currentPid d) (mkDeath t.1 false t.2) (handling s (currentPid d)) ∧
  find_index (findServiceByPidInList (currentPid d)) (managerList s) = Some (i, d).
Proof.
  intros T Hr Hi Hp. unfold dies, pid_of. rewrite Hi, decide_True by done. split.
  - unfold happen, handle_reaped, reap_child. rewrite Hr, decide_True by (by eapply pid_alive). done.
  - apply find_index_unique; [done|by apply bool_decide_eq_true|].
    intros j d' Hj Hd'%bool_decide_eq_true. apply (t_one s T j i (currentPid d)); [done|..]; unfold owns.
    + by rewrite Hj; simpl; rewrite Hd'.
    + by rewrite Hi.
Qed.

(** The state once the death of a guarded service is counted. *)
Definition counted (s : watchdog) (i : nat) (d : serviceDefinition) (now : clock) : watchdog :=
  put (emit (put (handling s (currentPid d)) i (dead d)) (death_event d)) i (count_restart now (dead d)).

Lemma count_restart_fields now d :
  let d1 := count_restart now (dead d) in
  maxRestartsPerMinute d1 = maxRestartsPerMinute d ∧ actionOnMaxRestarts d1 = actionOnMaxRestarts d ∧
  serviceName d1 = serviceName d ∧ restartOnFail d1 = restartOnFail d ∧ tempIgoreDeath d1 = tempIgoreDeath d.
Proof. unfold count_restart. by case_decide. Qed.

Lemma dies_counted s i d t (d1 := count_restart t.1 (dead d)) (s1 := counted s i d t.1) :
  tracked s → reaped s = None → managerList s !! i = Some d → guarded d →
  managerList s1 !! i = Some d1 ∧
  dies i s t =
    if decide (maxRestartsPerMinute d < restartsWithinPastMinute d1) then
      if decide (actionOnMaxRestarts d = REBOOT_ACTION) then emit (emit s1 (SaveMisbehaving (serviceName d))) Reboot
      else if decide (actionOnMaxRestarts d = STOP_RESTARTING_ACTION) then s1
      else restart_dead t.2 i (serviceName d) s1
    else restart_dead t.2 i (serviceName d) s1.
Proof.
  intros T Hr0 Hi [Hp Hr Hg Hm]. split; [eapply put_here; by apply (put_here _ i (dead d) d)|].
  destruct (dies_find s i d t T Hr0 Hi Hp) as [-> Hfind].
  unfold handleDeadChild. cbn [d_now d_restart interrupted]. cbn [managerList handling set_alive set_reaped]. rewrite Hfind.
  change (tempIgoreDeath (with_pid d 0)) with (tempIgoreDeath d). rewrite Hg.
  change (with_deaths (with_pid d 0) (u64 (deathCount (with_pid d 0) + 1))) with (dead d).
  change (restartOnFail (dead d)) with (restartOnFail d). change (tempIgoreDeath (dead d)) with (tempIgoreDeath d).
  rewrite Hr, Hg. cbn [negb]. unfold restart_cancelled. rewrite andb_false_r.
  change (maxRestartsPerMinute (dead d)) with (maxRestartsPerMinute d). rewrite decide_True by lia.
  destruct (count_restart_fields t.1 d) as (-> & -> & -> & _ & _). done.
Qed.

(** The death leads to a restart. *)
Lemma dies_restarted s i d t pid fs (d1 := count_restart t.1 (dead d)) :
  tracked s → reaped s = None → managerList s !! i = Some d → guarded d → forks s = pid :: fs → 0 < pid →
  restartsWithinPastMinute d1 ≤ maxRestartsPerMinute d →
  managerList (dies i s t) !! i = Some (with_started (with_pid (with_ack d1 0) pid) (real t.2) (mono t.2)) ∧
  forks (dies i s t) = fs ∧ reaped (dies i s t) = None ∧ out (dies i s t) = out s ++ [death_event d; start_event d].
Proof.
  intros T Hr Hi Hgd Hf Hpid Hle. destruct (dies_counted s i d t T Hr Hi Hgd) as [Hc ->]. rewrite decide_False by (fold d1; lia).
  unfold restart_dead, startProcess. rewrite Hc.
  change (forks (counted s i d t.1)) with (forks s). rewrite Hf, decide_True by done.
  split; [by eapply put_here|]. do 2 (split; [done|]). simpl. by rewrite <-app_assoc.
Qed.

(** The limit is passed and the service is left stopped. *)
Lemma dies_stopped s i d t :
  tracked s → reaped s = None → managerList s !! i = Some d → guarded d → actionOnMaxRestarts d = STOP_RESTARTING_ACTION →
  maxRestartsPerMinute d < restartsWithinPastMinute (count_restart t.1 (dead d)) →
  pid_of (dies i s t) i = 0 ∧ out (dies i s t) = out s ++ [death_event d].
Proof.
  intros T Hr Hi Hgd Ha Hlt. destruct (dies_counted s i d t T Hr Hi Hgd) as [Hc ->]. rewrite decide_True by done.
  rewrite Ha, decide_False, decide_True by done. unfold pid_of. rewrite Hc. split; [|done].
  by destruct (count_restart_config t.1 (dead d)) as [_ ->].
Qed.

Lemma dies_gone i ts s : pid_of s i ≤ 0 → foldl (dies i) s ts = s.
Proof.
  intros Hz. induction ts as [|t ts IH]; simpl; [done|]. unfold dies at 2. by rewrite decide_False by lia.
Qed.

(** Each death handled less than a minute after the start of the process; each
    at least a minute after it. *)
Fixpoint quick (start : Z) (ts : list (clock * clock)) : Prop :=
  match ts with [] => True | t :: ts => mono t.1 - start < 60 ∧ quick (mono t.2) ts end.
Fixpoint slow (start : Z) (ts : list (clock * clock)) : Prop :=
  match ts with [] => True | t :: ts => 60 ≤ mono t.1 - start ∧ slow (mono t.2) ts end.

(** How often the service was started again. *)
Definition is_start (name : cstring) (e : effect) : bool :=
  match e with
  | Event WATCHDOG_SERVICE_STATE_CHANGED ACTION_START (Some n) => bool_decide (n = name)
  | _ => false
  end.
Definition restarts (name : cstring) (s : watchdog) : nat := length (filter (λ e, is_start name e = true) (out s)).

Lemma restarts_app name s s' es :
  out s' = out s ++ es → restarts name s' = (restarts name s + length (filter (λ e, is_start name e = true) es))%nat.
Proof. intros H. unfold restarts. by rewrite H, filter_app, length_app. Qed.

Lemma dies_tracked i s t : tracked s → tracked (dies i s t).
Proof. intros T. unfold dies. case_decide; [|done]. by apply (keeps_handles _ _), (keeps_reap s). Qed.

(** One restart, as the induction over the deaths needs it. *)
Lemma dies_step s i d t (d1 := count_restart t.1 (dead d)) :
  tracked s → reaped s = None → managerList s !! i = Some d → guarded d → Forall (λ pid, 0 < pid) (forks s) → forks s ≠ [] →
  restartsWithinPastMinute d1 ≤ maxRestartsPerMinute d →
  ∃ d', tracked (dies i s t) ∧ reaped (dies i s t) = None ∧ managerList (dies i s t) !! i = Some d' ∧ guarded d' ∧
    serviceName d' = serviceName d ∧ maxRestartsPerMinute d' = maxRestartsPerMinute d ∧
    actionOnMaxRestarts d' = actionOnMaxRestarts d ∧ restartsWithinPastMinute d' = restartsWithinPastMinute d1 ∧
    lastRestartTimeMono d' = mono t.2 ∧ Forall (λ pid, 0 < pid) (forks (dies i s t)) ∧
    length (forks s) = S (length (forks (dies i s t))) ∧
    restarts (serviceName d) (dies i s t) = S (restarts (serviceName d) s).
Proof.
  intros T Hr0 Hi Hgd Hfs Hne Hle. destruct (forks s) as [|pid fs] eqn:Hf; [done|]. apply Forall_cons in Hfs as [Hpid Hfs].
  destruct (dies_restarted s i d t pid fs T Hr0 Hi Hgd Hf Hpid Hle) as (Hi' & Hf' & Hr' & Ho').
  destruct (count_restart_fields t.1 d) as (Em & Ea & En & Er & Eg). fold d1 in Em, Ea, En, Er, Eg, Hi'. clearbody d1.
  destruct Hgd as [Hp Hr Hg Hm]. eexists. split; [by apply dies_tracked|]. split; [done|]. split; [exact Hi'|].
  split; [split; simpl; [done|congruence|congruence|by rewrite Em]|]. simpl. rewrite Hf'.
  do 6 (split; [done|]). split; [done|]. rewrite (restarts_app _ s _ _ Ho').
  rewrite filter_cons_False, filter_cons_True by (simpl; by rewrite ?bool_decide_eq_true). simpl. lia.
Qed.

Lemma quick_deaths ts s i d :
  tracked s → reaped s = None → managerList s !! i = Some d → guarded d → actionOnMaxRestarts d = STOP_RESTARTING_ACTION →
  Forall (λ pid, 0 < pid) (forks s) → (length ts ≤ length (forks s))%nat →
  0 ≤ restartsWithinPastMinute d ≤ maxRestartsPerMinute d → quick (lastRestartTimeMono d) ts →
  let left := Z.to_nat (maxRestartsPerMinute d - restartsWithinPastMinute d) in
  restarts (serviceName d) (foldl (dies i) s ts) = (restarts (serviceName d) s + Nat.min (length ts) left)%nat ∧
  (0 < pid_of (foldl (dies i) s ts) i ↔ (length ts ≤ left)%nat).
Proof.
  revert s d. induction ts as [|t ts IH]; intros s d T Hr Hi Hgd Ha Hfs Hlen Hc Hq; cbn [foldl length].
  { split; [lia|]. unfold pid_of. rewrite Hi. split; [lia|]. intros _. apply Hgd. }
  simpl in Hq, Hlen. destruct Hq as [Hnow Hq]. pose proof (g_max d Hgd) as Hm.
  assert (Hcount : restartsWithinPastMinute (count_restart t.1 (dead d)) = restartsWithinPastMinute d + 1).
  { unfold count_restart. rewrite decide_True by (simpl; lia). simpl. by rewrite u16_small by lia. }
  destruct (decide (restartsWithinPastMinute d + 1 ≤ maxRestartsPerMinute d)) as [Hle|Hgt].
  - destruct (dies_step s i d t T Hr Hi Hgd Hfs) as (d' & T' & Hr' & Hi' & Hgd' & En & Em & Ea & Ec & El & Hfs' & Hlen' & Hre);
      [by destruct (forks s); simpl in *; [lia|]|lia|].
    rewrite Hcount in Ec. specialize (IH (dies i s t) d' T' Hr' Hi' Hgd' ltac:(congruence) Hfs' ltac:(lia) ltac:(lia)).
    rewrite El in IH. destruct (IH Hq) as [IH1 IH2].
    rewrite En, Em, Ec, Hre in IH1. rewrite Em, Ec in IH2. rewrite IH1, IH2. lia.
  - destruct (dies_stopped s i d t T Hr Hi Hgd Ha) as [Hz Ho]; [lia|]. rewrite dies_gone by lia.
    rewrite (restarts_app _ s _ _ Ho), Hz. rewrite filter_cons_False by done. cbn [length filter]. change (length (filter _ [])) with 0%nat. lia.
Qed.

Lemma slow_deaths ts s i d :
  tracked s → reaped s = None → managerList s !! i = Some d → guarded d →
  Forall (λ pid, 0 < pid) (forks s) → (length ts ≤ length (forks s))%nat → slow (lastRestartTimeMono d) ts →
  restarts (serviceName d) (foldl (dies i) s ts) = (restarts (serviceName d) s + length ts)%nat ∧
  0 < pid_of (foldl (dies i) s ts) i.
Proof.
  revert s d. induction ts as [|t ts IH]; intros s d T Hr Hi Hgd Hfs Hlen Hq; simpl.
  { split; [lia|]. unfold pid_of. rewrite Hi. apply Hgd. }
  simpl in Hq, Hlen. destruct Hq as [Hnow Hq]. pose proof (g_max d Hgd) as Hm.
  assert (Hcount : restartsWithinPastMinute (count_restart t.1 (dead d)) = 1).
  { unfold count_restart. by rewrite decide_False by (simpl; lia). }
  destruct (dies_step s i d t T Hr Hi Hgd Hfs) as (d' & T' & Hr' & Hi' & Hgd' & En & Em & Ea & Ec & El & Hfs' & Hlen' & Hre);
    [by destruct (forks s); simpl in *; [lia|]|lia|].
  specialize (IH (dies i s t) d' T' Hr' Hi' Hgd' Hfs' ltac:(lia)). rewrite El in IH. destruct (IH Hq) as [IH1 IH2].
  rewrite En, Hre in IH1. split; [lia|done].
Qed.

(** C18: a service in a crash loop is restarted a bounded number of times.  A
    watched service with the limit maxRestartsPerMinute and the action to stop,
    just started, whose every death is handled less than a minute after the
    start of the process that died, is started again exactly that many times
    and is then left stopped; one whose processes each live for a minute or
    longer is always started again.  The pause between restarts is not cut
    short; however long it is, the minute is counted from the start that
    follows it.  (So deaths that are spread over any time, but each within a
    minute of its start, also use up the limit.) *)
Theorem crash_loop_bounded s i d ts :
  tracked s → reaped s = None → managerList s !! i = Some d → guarded d → actionOnMaxRestarts d = STOP_RESTARTING_ACTION →
  restartsWithinPastMinute d = 0 → Forall (λ pid, 0 < pid) (forks s) → (length ts ≤ length (forks s))%nat →
  let s' := foldl (dies i) s ts in let max := Z.to_nat (maxRestartsPerMinute d) in
  (quick (lastRestartTimeMono d) ts →
     restarts (serviceName d) s' = (restarts (serviceName d) s + Nat.min (length ts) max)%nat ∧
     (0 < pid_of s' i ↔ (length ts ≤ max)%nat)) ∧
  (slow (lastRestartTimeMono d) ts →
     restarts (serviceName d) s' = (restarts (serviceName d) s + length ts)%nat ∧ 0 < pid_of s' i).
Proof.
  intros T Hr Hi Hgd Ha H0 Hfs Hlen. pose proof (g_max d Hgd). split; intros Hq.
  - pose proof (quick_deaths ts s i d T Hr Hi Hgd Ha Hfs Hlen) as Q. rewrite H0, Z.sub_0_r in Q. apply Q; [lia|done].
  - by eapply slow_deaths.
Qed.

(** ** Concrete services *)

Definition example_service (pid : Z) : serviceDefinition :=
  mkDef (str "commService") (Some (str "/bin/comm")) None true true 0 2 0 STOP_RESTARTING_ACTION true 0 0 0 None 0
    pid false 0 0 false false.

(** One service as process 100; fork returns 101, 102, ... *)
Definition example_state (fut : list (list happening)) : watchdog :=
  mkWd [example_service 100] 0 0 true {[100]} None [101; 102; 103; 104] fut [].

Lemma example_tracked fut : tracked (example_state fut).
Proof.
  assert (Hown : ∀ i pid, owns (example_state fut) i pid → i = 0%nat ∧ pid = 100).
  { intros [|i] pid Hi; unfold owns in Hi; simpl in Hi; [by injection Hi as <-|done]. }
  assert (Hch : children (example_state fut) = {[100]}) by (unfold children; simpl; set_solver).
  split; rewrite ?Hch; [..|done].
  - intros pid. rewrite elem_of_singleton. split.
    + intros ->. split; [lia|]. by exists 0%nat.
    + intros [_ [i Hi%Hown]]. tauto.
  - intros i j pid _ Hi%Hown Hj%Hown. lia.
  - intros pid Hpid. repeat (apply elem_of_cons in Hpid as [->|Hpid]; [set_solver|]). by apply elem_of_nil in Hpid.
  - apply (bool_decide_unpack _). by vm_compute.
Qed.

Lemma watchdog_tracks_children_witness :
  let s := after (λ _ _ _, true) 7 (mkClock 0 0) [example_service 0] None [101; -1; 102; 103] []
             [Happens (Reaps 101); Happens (Handles (mkDeath (mkClock 5 5) false (mkClock 5 5)));
              OnSingle (mkClock 9 9) START_PROCESS_ACTION (str "commService"); Happens (Reaps 102)] in
  (pid_of s 0 = 102 ∧ reaped s = Some 102) ∧
  (∀ pid, (0 < pid ∧ ∃ i, owns s i pid) ↔ pid ∈ alive s ∨ reaped s = Some pid) ∧
  (∀ pid, reaped s = Some pid → pid ∉ alive s) ∧
  (∀ i j pid, 0 < pid → owns s i pid → owns s j pid → i = j) ∧
  config <$> managerList s = config <$> [example_service 0].
Proof.
  split; [by vm_compute|].
  apply (watchdog_tracks_children (λ _ _ _, true) 7 (mkClock 0 0) [example_service 0] None [101; -1; 102; 103] []).
  - by repeat constructor.
  - apply (bool_decide_unpack _). by vm_compute.
Defined.

Lemma crash_loop_bounded_witness :
  let ts := [(mkClock 10 10, mkClock 11 11); (mkClock 50 50, mkClock 51 51); (mkClock 100 100, mkClock 101 101)] in
  let s' := foldl (dies 0) (example_state []) ts in
  restarts (str "commService") s' = 2%nat ∧ ¬ 0 < pid_of s' 0.
Proof.
  destruct (crash_loop_bounded (example_state []) 0 (example_service 100)
              [(mkClock 10 10, mkClock 11 11); (mkClock 50 50, mkClock 51 51); (mkClock 100 100, mkClock 101 101)]) as [Hq _].
  - apply example_tracked.
  - done.
  - done.
  - by split.
  - done.
  - done.
  - by repeat constructor.
  - simpl. lia.
  - destruct Hq as [Hr Hp].
    + simpl. lia.
    + split; [exact Hr|]. intros Hpos. apply Hp in Hpos. simpl in Hpos. lia.
Defined.

(** After a restart of all services the acknowledgement of the last of them
    announces nothing, not even that some services have started. *)
Example restart_all_is_not_announced :
  let s := example_state [[Reaps 100; Handles (mkDeath (mkClock 1 1) false (mkClock 1 1))]] in
  let rs := [OnAll (mkClock 5 5) true RESTART_PROCESS_ACTION false;
             Happens (Acks (mkAckDef (Some (str "commService")) 4000 None (mkClock 6 6)))] in
  let s' := foldl (serve (λ _ _ _, true) 7) s rs in
  countServicesToBeAcknowledged s' = 0 ∧ pid_of s' 0 = 101 ∧ out s' = [Kill 100 SIGTERM; SignalSinglePhase].
Proof. by vm_compute. Qed.

(** A child that is reaped before the stop of a restart looks whether it is
    alive: the stop takes it for dead without releasing the mutex, the start
    still finds its process id in the table and starts nothing, and the death,
    which is handled afterwards, is to be ignored.  The service stays down. *)
Example restart_finds_a_reaped_process :
  let s := foldl (serve (λ _ _ _, true) 7) (example_state [])
             [Happens (Reaps 100); OnSingle (mkClock 5 5) RESTART_PROCESS_ACTION (str "commService");
              Happens (Handles (mkDeath (mkClock 6 6) false (mkClock 6 6)))] in
  pid_of s 0 = 0 ∧ out s = [Kill 100 SIGTERM] ∧ alive s = ∅ ∧ reaped s = None.
Proof. by vm_compute. Qed.

(** A restart for recovery asks the process to dump core and leaves the
    restart to the handling of its death; waitForDeath watches the old process
    id in order not to kill the new process.  It waits up to 10 seconds but
    reports a death only when it took less than 5: a process that needs 5 to
    10 seconds to die is restarted and its new process is then killed. *)
Theorem recovery_kills_the_new_process (k : nat) :
  (k < 10)%nat →
  let s := example_state (replicate k [] ++ [[Reaps 100; Handles (mkDeath (mkClock 70 70) false (mkClock 70 70))]]) in
  let r := operationOnSingleProcesses (λ _ _ _, true) (mkClock 60 60) RESTART_FOR_RECOVERY_PROCESS_ACTION
             (str "commService") s in
  r.1 = true ∧ pid_of r.2 0 = 101 ∧
  out r.2 = [Kill 100 SIGQUIT; death_event (example_service 0); start_event (example_service 0)] ++
           (if decide (4 ≤ k)%nat then [Kill 101 SIGKILL] else []).
Proof. intros Hk. do 10 (destruct k as [|k]; [by vm_compute|]). lia. Qed.

Lemma recovery_kills_the_new_process_witness :
  (6 < 10)%nat ∧
  out (operationOnSingleProcesses (λ _ _ _, true) (mkClock 60 60) RESTART_FOR_RECOVERY_PROCESS_ACTION (str "commService")
         (example_state (replicate 6 [] ++ [[Reaps 100; Handles (mkDeath (mkClock 70 70) false (mkClock 70 70))]]))).2 =
  [Kill 100 SIGQUIT; death_event (example_service 0); start_event (example_service 0); Kill 101 SIGKILL].
Proof.
  split; [lia|]. exact (proj2 (proj2 (recovery_kills_the_new_process 6 ltac:(lia)))).
Defined.

End WatchdogTheorems.
