(* ===== verification/KeyMap.v ===== *)
(** * The interface between the hash map and its clients

    The services keep their objects in an icHashMap keyed by a C string, with
    the key length [(uint16_t) strlen(key)] and object pointers as values.
    [KeyMap] is what they call, [KeyMapLaws] what they rely on: the map stands
    for a list of key/object pairs with distinct keys, in iteration order.
    The hash map of HashMap.v implements it ([hash_key_map] and
    [hash_key_map_laws]); the clients' theorems are proved for any
    implementation. *)

From S2P Require Import Prelude LinkedList LinkedListSpec HashMap HashMapSpec HashMapIter.
Import LinkedList HashMap MapSpec MapIter.

Module KeyMap.

Class KeyMap (M V : Type) := {
  (* hashMapCreate *)
  km_create : M;
  (* hashMapGet(map, key, (uint16_t) strlen(key)) *)
  km_get : M → cstring → outcome (option V);
  (* hashMapContains(map, key, (uint16_t) strlen(key)) *)
  km_contains : M → cstring → outcome bool;
  (* hashMapPut(map, key, (uint16_t) strlen(key), object) *)
  km_put : M → cstring → V → outcome (bool * M);
  (* hashMapDelete with a helper that gets the object *)
  km_delete : M → cstring → outcome (option V * M);
  (* hashMapClear with a helper that gets the objects *)
  km_clear : M → outcome (list V * M);
  (* hashMapCount *)
  km_count : M → Z;
  (* an iteration over all objects *)
  km_foreach : ∀ S : Type, M → (V → S → outcome S) → S → outcome S;
  (* an iteration over all keys and objects *)
  km_iterate : ∀ S : Type, M → (cstring → V → S → outcome S) → S → outcome S;
  (* an iteration whose body may delete the current entry and may stop *)
  km_scan : ∀ S : Type, M → (V → S → outcome (verdict * S)) → S → outcome (S * M)
}.
Arguments km_foreach {M V KeyMap S}.
Arguments km_iterate {M V KeyMap S}.
Arguments km_scan {M V KeyMap S}.

(** The same iteration over a list of pairs: the result and what is kept. *)
Fixpoint scan_pairs {K V S} (body : V → S → outcome (verdict * S)) (es : list (K * V)) (s : S)
    : outcome (S * list (K * V)) :=
  match es with
  | [] => Ok (s, [])
  | e :: es =>
      '(v, s) ← body e.2 s;
      '(s, keep) ← (if v_stop v then Ok (s, es) else scan_pairs body es s);
      Ok (s, if v_delete v then keep else e :: keep)
  end.

(** Keys whose length the 16-bit key length can represent. *)
Definition key_ok (k : cstring) : Prop := strlen k ≤ 65535.

Class KeyMapLaws (M V : Type) `{KeyMap M V} := {
  (* the map holds these pairs, and iterates over them in this order *)
  km_model : M → list (cstring * V) → Prop;
  km_nodup m es : km_model m es → NoDup es.*1;
  km_model_count m es : km_model m es → km_count m = zlen es ∧ zlen es ≤ 65535;
  km_create_law : km_model km_create [];
  km_get_law m es k :
    km_model m es → key_ok k → km_get m k = Ok ((list_to_map es : gmap cstring V) !! k);
  km_contains_law m es k :
    km_model m es → key_ok k → km_contains m k = Ok (bool_decide (k ∈ es.*1));
  km_put_new m es k v :
    km_model m es → key_ok k → k ∉ es.*1 → zlen es < 65535 →
    ∃ m' es', km_put m k v = Ok (true, m') ∧ km_model m' es' ∧ es' ≡ₚ (k, v) :: es;
  km_put_old m es k v :
    km_model m es → key_ok k → k ∈ es.*1 → km_put m k v = Ok (false, m);
  km_delete_absent m es k :
    km_model m es → key_ok k → k ∉ es.*1 → km_delete m k = Ok (None, m);
  km_delete_present m es k v :
    km_model m es → key_ok k → (k, v) ∈ es →
    ∃ m' es', km_delete m k = Ok (Some v, m') ∧ km_model m' es' ∧ es ≡ₚ (k, v) :: es';
  km_clear_law m es :
    km_model m es → ∃ m', km_clear m = Ok (es.*2, m') ∧ km_model m' [];
  km_foreach_law {S} m es (body : V → S → outcome S) s :
    km_model m es → km_foreach m body s = foldM body es.*2 s;
  km_iterate_law {S} m es (body : cstring → V → S → outcome S) s :
    km_model m es → km_iterate m body s = foldM (λ e, body e.1 e.2) es s;
  km_scan_law {S} m es (body : V → S → outcome (verdict * S)) s s' keep :
    km_model m es → scan_pairs body es s = Ok (s', keep) →
    ∃ m', km_scan m body s = Ok (s', m') ∧ km_model m' keep
}.

(** ** The hash map as a keyed map of objects

    Objects are pointers; the key of an object is the string it carries,
    stored with its NUL.  The item heap is part of the map's state. *)

Definition hash_map : Type := gmap addr (mapItem addr) * icHashMap.

Definition key_block (v : addr) (k : cstring) : block := mkBlock v (k ++ [NUL]).
Definition key_length (k : cstring) : Z := u16 (strlen k).

(** The object a destruction helper is called with. *)
Definition helper_value (r : release) : option addr :=
  match r with RelHelper _ v => v | RelFree _ => None end.

Definition helper_values (rel : list release) : list addr := omap helper_value rel.

#[global] Instance hash_key_map : KeyMap hash_map addr := {
  km_create := (∅, hashMapCreate 0 0);
  km_get c k := hashMapGet c.1 (Some c.2) (Some (key_block 1 k)) (key_length k);
  km_contains c k := hashMapContains c.1 (Some c.2) (Some (key_block 1 k)) (key_length k);
  km_put c k v :=
    '(b, ih, m) ← hashMapPut c.1 (Some c.2) (Some (key_block v k)) (key_length k) (Some v);
    m ← of_option m; Ok (b, (ih, m));
  km_delete c k :=
    '(_, rel, ih, m) ← hashMapDelete id c.1 (Some c.2) (Some (key_block 1 k)) (key_length k) true;
    m ← of_option m; Ok (head (helper_values rel), (ih, m));
  km_clear c :=
    '(rel, ih, m) ← hashMapClear id c.1 (Some c.2) true;
    m ← of_option m; Ok (helper_values rel, (ih, m));
  km_count c := hashMapCount (Some c.2);
  km_foreach S c body s :=
    hashMapForEach (Z.to_nat (hm_count c.2)) c.1 c.2 (hashMapIteratorCreate (Some c.2))
      (λ e s, v ← of_option e.2; body v s) s;
  km_iterate S c body s :=
    hashMapForEach (Z.to_nat (hm_count c.2)) c.1 c.2 (hashMapIteratorCreate (Some c.2))
      (λ e s, b ← of_option e.1.1; v ← of_option e.2; body (take (Z.to_nat e.1.2) (b_bytes b)) v s) s;
  km_scan S c body s :=
    '(s, ih, m) ← hashMapScan id (Z.to_nat (hm_count c.2)) true c.1 c.2 (hashMapIteratorCreate (Some c.2))
      (λ e s, v ← of_option e.2; body v s) s;
    Ok (s, (ih, m))
}.

(** The pairs of a map seen through pointers that are not NULL. *)
Definition with_value {V} (e : cstring * V) : cstring * option V := (e.1, Some e.2).

Lemma with_value_keys {V} (es : list (cstring * V)) : (with_value <$> es).*1 = es.*1.
Proof. by rewrite <-list_fmap_compose. Qed.

Lemma perm_with_value {V} (es : list (cstring * V)) (l0 : list (cstring * option V)) k v :
  l0 ≡ₚ (k, Some v) :: (with_value <$> es) → ∃ es', l0 = with_value <$> es' ∧ es' ≡ₚ (k, v) :: es.
Proof.
  intros Hp. change ((k, Some v) :: (with_value <$> es)) with (with_value <$> (k, v) :: es) in Hp.
  apply Permutation_map_inv in Hp as (es' & -> & Hp). by exists es'.
Qed.

Lemma foldM_values {K V S} (body : V → S → outcome S) (es : list (K * V)) s :
  foldM (λ e : K * V, body e.2) es s = foldM body es.*2 s.
Proof. revert s. induction es as [|e es IH]; intros s; [done|]. simpl. destruct (body e.2 s); simpl; auto. Qed.

Section Laws.
Implicit Types (ih : gmap addr (mapItem addr)) (c : hash_map) (es : list (cstring * addr)).

Definition hash_model c es : Prop :=
  ∃ bs, hrepr c.1 c.2 bs ∧ hm_cloned c.2 = false ∧ entries c.1 bs = with_value <$> es.

Lemma model_keys ih es bs : entries ih bs = with_value <$> es → akey ih <$> concat bs = es.*1.
Proof. intros He. by rewrite <-entries_keys, He, with_value_keys. Qed.

Lemma model_lookup ih es bs k :
  entries ih bs = with_value <$> es →
  absmap ih bs !! k = Some <$> (list_to_map es : gmap cstring addr) !! k.
Proof.
  intros He. unfold absmap. rewrite He. clear He bs. induction es as [|[k' v] es IH]; [done|].
  rewrite fmap_cons. simpl. destruct (decide (k' = k)) as [->|Hne].
  - by rewrite !lookup_insert_eq.
  - by rewrite !lookup_insert_ne.
Qed.

Lemma key_block_query v k : key_ok k →
  query (key_block v k) (key_length k) ∧ query_key (key_block v k) (key_length k) = k.
Proof.
  unfold key_ok, key_length, strlen. intros Hk. rewrite u16_small by lia.
  unfold query, query_key. simpl. rewrite length_app, Nat2Z.id, take_app_length. simpl. split; [lia|done].
Qed.

Lemma hash_put_new c es k v :
  hash_model c es → key_ok k → k ∉ es.*1 → zlen es < 65535 →
  ∃ c' es', km_put c k v = Ok (true, c') ∧ hash_model c' es' ∧ es' ≡ₚ (k, v) :: es.
Proof.
  destruct c as [ih m]. intros (bs & Hr & Hc & He) Hk Hn Hl. simpl in *.
  destruct (key_block_query v k Hk) as [Hq Hqk].
  assert (Hlen : zlen (concat bs) = zlen es).
  { apply (f_equal length) in He. unfold entries in He. rewrite !length_fmap in He. lia. }
  destruct (put_new ih m bs (key_block v k) (key_length k) (Some v) Hr Hq)
    as (node & m' & bs' & -> & _ & Hr' & Hp & _ & Hc' & _).
  { rewrite Hqk. apply absmap_None. by rewrite (model_keys ih es). }
  { rewrite (h_count _ _ _ Hr). lia. }
  simpl. rewrite Hqk, He in Hp. apply perm_with_value in Hp as (es' & He' & Hp').
  eexists _, es'. split; [done|]. split; [|done]. exists bs'. split; [done|]. simpl. by rewrite Hc'.
Qed.

Lemma hash_delete c es k v :
  hash_model c es → key_ok k → (k, v) ∈ es →
  ∃ c' es', km_delete c k = Ok (Some v, c') ∧ hash_model c' es' ∧ es ≡ₚ (k, v) :: es'.
Proof.
  destruct c as [ih m]. intros (bs & Hr & Hc & He) Hk Hin. simpl in *.
  destruct (key_block_query 1 k Hk) as [Hq Hqk].
  assert (Hnd : NoDup es.*1) by (rewrite <-(model_keys ih es bs He); by destruct Hr).
  destruct (delete_present id ih m bs (key_block 1 k) (key_length k) true (Some v) Hr Hq)
    as (a & it & m' & bs' & -> & Hit & Hv & _ & Hr' & Hp & _ & Hc' & _).
  { rewrite Hqk, (model_lookup ih es bs k He), (elem_of_list_to_map_1 es k v) by done. done. }
  rewrite Hc in *. simpl. rewrite Hv. simpl. rewrite Hqk, He in Hp.
  symmetry in Hp. apply Permutation_map_inv in Hp as (es0 & He0 & Hp0).
  destruct es0 as [|[k0 v0] es0]; [done|]. simpl in He0. injection He0 as -> -> He0.
  eexists _, es0. split; [done|]. split; [|done]. exists bs'. simpl. split; [done|]. split; [congruence|].
  exact He0.
Qed.

Lemma release_values ih (l : list addr) es :
  (λ a, (akey ih a, aval ih a)) <$> l = with_value <$> es → (∀ a, a ∈ l → is_Some (ih !! a)) →
  helper_values (release_items id true ih l) = es.*2.
Proof.
  revert es. induction l as [|a l IH]; intros [|[k v] es] He Hlive; try done.
  rewrite !fmap_cons in He. injection He as Hk Hv He.
  destruct (Hlive a) as [it Hit]; [by left|]. unfold aval in Hv. rewrite Hit in Hv.
  unfold release_items. rewrite fmap_cons. cbn [concat]. rewrite Hit. cbn [released_item].
  rewrite Hv. simpl. f_equal. apply IH; [done|]. intros b Hb. apply Hlive. by right.
Qed.

Lemma scan_items_pairs {S} (body : addr → S → outcome (verdict * S)) ih (l : list addr) es s s' keep :
  (λ a, (akey ih a, aval ih a)) <$> l = with_value <$> es → (∀ a, a ∈ l → is_Some (ih !! a)) →
  scan_pairs body es s = Ok (s', keep) →
  ∃ l', scan_items (λ e s, v ← of_option e.2; body v s) ih l s = Ok (s', l') ∧
    (λ a, (akey ih a, aval ih a)) <$> l' = with_value <$> keep.
Proof.
  revert es s keep. induction l as [|a l IH]; intros [|[k v] es] s keep He Hlive Hs; try done.
  { injection Hs as -> <-. by exists []. }
  rewrite !fmap_cons in He. injection He as Hk Hv He. destruct (Hlive a) as [it Hit]; [by left|].
  assert (Hkv : (akey ih a, aval ih a) = with_value (k, v)) by (by rewrite Hk, Hv).
  unfold aval in Hv. rewrite Hit in Hv. cbn [scan_pairs scan_items] in Hs |- *. rewrite Hit. simpl.
  rewrite Hv. simpl in Hs |- *. destruct (body v s) as [[vd s1]| |]; simpl in Hs |- *; [|done..].
  apply bind_Ok in Hs as ([s2 k2] & H2 & Hs). injection Hs as -> <-.
  assert (∃ l2, (if v_stop vd then Ok (s1, l)
      else scan_items (λ e s, v ← of_option e.2; body v s) ih l s1) = Ok (s', l2) ∧
      (λ a, (akey ih a, aval ih a)) <$> l2 = with_value <$> k2) as (l2 & -> & Hl2).
  { destruct (v_stop vd); [injection H2 as -> <-; by exists l|].
    apply (IH es); [done| |done]. intros b Hb. apply Hlive. by right. }
  simpl. eexists. split; [done|]. destruct (v_delete vd); [done|]. rewrite !fmap_cons. by f_equal.
Qed.

Lemma hrepr_item ih m bs a : hrepr ih m bs → a ∈ concat bs →
  ∃ it b, ih !! a = Some it ∧ mi_key it = Some b.
Proof.
  intros Hr Ha. apply list_elem_of_In, in_concat in Ha as (xs & Hxs & Ha).
  apply list_elem_of_In, list_elem_of_lookup in Hxs as [i Hi]. apply list_elem_of_In in Ha.
  destruct (h_good _ _ _ Hr i xs a Hi Ha) as (it & b & Hit & Hb & _). by exists it, b.
Qed.

(** A loop over the map whose body depends on the key and the object only. *)
Lemma key_map_loop {S} ih m bs es (body : option block * Z * option addr → S → outcome S)
    (f : cstring * addr → S → outcome S) s :
  hrepr ih m bs → entries ih bs = with_value <$> es →
  (∀ it b v s, mi_key it = Some b → mi_value it = Some v → body (triple it) s = f (item_key it, v) s) →
  hashMapForEach (Z.to_nat (hm_count m)) ih m (hashMapIteratorCreate (Some m)) body s = foldM f es s.
Proof.
  intros Hr He Hb. cbn [hashMapIteratorCreate].
  rewrite (forEach_spec ih m bs _ _ _ [] (concat bs));
    [|done|by apply pos_start|rewrite (h_count _ _ _ Hr); lia].
  unfold entries in He. pose proof (λ a, hrepr_item _ _ _ a Hr) as Hlive. clear Hr.
  revert es s He. induction (concat bs) as [|a l IH]; intros [|[k v] es] s He; try done.
  rewrite !fmap_cons in He. injection He as Hk Hv He. destruct (Hlive a) as (it & b & Hit & Hk'); [by left|].
  unfold aval in Hv. unfold akey in Hk. rewrite Hit in Hv, Hk. cbn [foldM]. rewrite Hit. simpl.
  rewrite (Hb it b v) by done. rewrite Hk. destruct (f (k, v) s) as [s'| |]; simpl; [|done..].
  apply IH; [|done]. intros c Hc. apply Hlive. by right.
Qed.

#[global] Instance hash_key_map_laws : KeyMapLaws hash_map addr.
Proof.
  refine {| km_model := hash_model |}.
  - intros c es (bs & Hr & _ & He). rewrite <-(model_keys c.1 es bs He). by destruct Hr.
  - intros c es (bs & Hr & _ & He). simpl. rewrite (h_count _ _ _ Hr). pose proof (h_max _ _ _ Hr).
    apply (f_equal length) in He. unfold entries in He. rewrite !length_fmap in He. lia.
  - exists (replicate 31 []). split; [apply create_repr|]. done.
  - intros c es k (bs & Hr & _ & He) Hk. simpl. destruct (key_block_query 1 k Hk) as [Hq Hqk].
    rewrite (get_spec c.1 c.2 bs) by done. rewrite Hqk, (model_lookup c.1 es bs k He).
    by destruct ((list_to_map es : gmap cstring addr) !! k).
  - intros c es k (bs & Hr & _ & He) Hk. simpl. destruct (key_block_query 1 k Hk) as [Hq Hqk].
    rewrite (contains_spec c.1 c.2 bs) by done. rewrite Hqk. f_equal. apply bool_decide_ext.
    rewrite (model_lookup c.1 es bs k He), fmap_is_Some, <-not_eq_None_Some, <-not_elem_of_list_to_map.
    destruct (decide (k ∈ es.*1)); tauto.
  - apply hash_put_new.
  - intros [ih m] es k v (bs & Hr & _ & He) Hk Hin. simpl in *. destruct (key_block_query v k Hk) as [Hq Hqk].
    rewrite (put_old ih m bs); [done|done|done|]. rewrite Hqk, (model_lookup ih es bs k He).
    apply list_elem_of_fmap in Hin as ([k' w] & -> & Hin). simpl.
    rewrite (elem_of_list_to_map_1 es k' w); [done| |done].
    rewrite <-(model_keys ih es bs He). by destruct Hr.
  - intros [ih m] es k (bs & Hr & _ & He) Hk Hn. simpl in *. destruct (key_block_query 1 k Hk) as [Hq Hqk].
    rewrite (delete_absent id ih m bs); [done|done|done|]. rewrite Hqk. apply absmap_None.
    by rewrite (model_keys ih es).
  - apply hash_delete.
  - intros [ih m] es (bs & Hr & Hc & He). simpl in *.
    destruct (clear_repr id ih m bs true Hr) as (m' & -> & Hr' & Hc'). rewrite Hc in *. simpl.
    eexists. rewrite (release_values ih _ es He) by (intros a; by apply (hrepr_live _ m)).
    split; [done|]. exists (replicate 31 []). done.
  - intros S c es body s (bs & Hr & _ & He). simpl. rewrite (key_map_loop _ _ _ es _ (λ e, body e.2) s Hr He).
    + by apply foldM_values.
    + intros it b v s' Hb Hv. unfold triple. simpl. by rewrite Hv.
  - intros S c es body s (bs & Hr & _ & He). simpl. rewrite (key_map_loop _ _ _ es _ (λ e, body e.1 e.2) s Hr He).
    + done.
    + intros it b v s' Hb Hv. unfold triple. simpl. rewrite Hb, Hv. simpl. unfold item_key. by rewrite Hb.
  - intros S [ih m] es body s s' keep (bs & Hr & Hc & He) Hs. simpl in *. unfold entries in He.
    destruct (scan_items_pairs body ih (concat bs) es s s' keep He (λ a, hrepr_live _ _ _ a Hr) Hs) as (l' & Hl' & Hk).
    destruct (scan_spec id (λ (e : option block * Z * option addr) s, v ← of_option e.2; body v s) true (Z.to_nat (hm_count m)) ih m bs (mkMapIter (-1) None None) [] (concat bs) s s' l' Hr)
      as (ih' & m' & bs' & -> & Hr' & Hbs' & Hc' & Hsame);
      [by apply pos_start|done|rewrite (h_count _ _ _ Hr); lia|done|].
    simpl. eexists. split; [done|]. exists bs'. simpl in *. split; [done|]. split; [done|].
    unfold entries. rewrite Hbs', <-Hk. apply list_fmap_ext. intros i a Ha.
    assert (a ∈ l') by (by eapply list_elem_of_lookup_2). unfold akey, aval. by rewrite Hsame.
Qed.

End Laws.
End KeyMap.
