(* ===== verification/MessageQueue.v ===== *)
(** * messageQueue: the messages of the comm service on their way to the server

    Models src/source/services/comm/core/src/messageQueue.c and message.c.  A
    message is in the all set (waiting), perhaps also in the filter set (may
    be sent now), or in the sent hash (waiting for its reply).  The sets are
    the queues of Queue.v and a keyed map (KeyMap.v) from the eight bytes of
    the message id; messages are objects of a heap.  The delegate is a
    parameter: its filter is an argument of every function that calls it
    (it depends on the state of the network), the result of its processFunc
    an argument of the segment that follows; its notifyFunc destroys the
    message, so that a later use of it is a [Fault].

    Every function holds queueMtx except while the delegate processes a
    message and while it waits on queueCond.  The code between two such
    points is one function here: for the clients the functions up to
    waitOnProcessingLocked and [finish], the code behind it; for the thread
    of the queue the functions [thread_top], [thread_full], [thread_empty],
    [thread_processed], [thread_exit].  [signalled] records whether queueCond was
    broadcast since the thread last began to wait.  The pointer to the queue
    is not NULL (every function returns at once if it is). *)

From S2P Require Import Prelude LinkedList Queue HashMapIter KeyMap Time.
Import LinkedList Queue MapIter KeyMap Time.

Module MessageQueue.

Inductive mqState := MQ_NOT_RUNNING | MQ_RUNNING | MQ_PROCESSING | MQ_CANCELING.

Inductive processMessageCode :=
  | PROCESS_MSG_SUCCESS
  | PROCESS_MSG_INVALID
  | PROCESS_MSG_SEND_FAILURE
  | PROCESS_MSG_DELAY_SEND
  | PROCESS_MSG_SUCCESS_HANDLED.

Inductive messageFailureReason :=
  | MESSAGE_FAIL_REASON_NONE
  | MESSAGE_FAIL_REASON_INVALID
  | MESSAGE_FAIL_REASON_SEND
  | MESSAGE_FAIL_REASON_TIMEOUT
  | MESSAGE_FAIL_REASON_RETRY_MAX
  | MESSAGE_FAIL_REASON_REMOVE.

#[global] Instance mqState_eq_dec : EqDecision mqState.
Proof. solve_decision. Defined.
#[global] Instance processMessageCode_eq_dec : EqDecision processMessageCode.
Proof. solve_decision. Defined.
#[global] Instance messageFailureReason_eq_dec : EqDecision messageFailureReason.
Proof. solve_decision. Defined.

Definition DEFAULT_MAX_RETRIES : Z := 3.

(** The bytes of an unsigned number in memory, and the key of a message id. *)
Fixpoint le_bytes (n : nat) (z : Z) : list byte :=
  match n with
  | O => []
  | S n => ascii_of_N (Z.to_N (z `mod` 256)) :: le_bytes n (z / 256)
  end.

Definition SENT_HASH_KEY_SIZE : nat := 8.
Definition id_key (id : Z) : list byte := le_bytes SENT_HASH_KEY_SIZE id.

Section Code.
Context {M : Type} `{KeyMap M addr} {P : Type}.

(** struct _message; P is what a payload points to. *)
Record message := mkMsg {
  messageId : Z;
  requestId : Z;
  okToRemoveFromSentQueueCallback : option (P → bool);
  tracker : option timeTracker;
  expectsReply : bool;
  sentOnceFlag : bool;
  errorCount : Z;
  numRetries : Z
}.

Definition createMessage (id : Z) : message := mkMsg id 0 None None false false 0 DEFAULT_MAX_RETRIES.

Definition set_tracker (m : message) (t : option timeTracker) : message :=
  mkMsg (messageId m) (requestId m) (okToRemoveFromSentQueueCallback m) t (expectsReply m) (sentOnceFlag m)
    (errorCount m) (numRetries m).
Definition set_sentOnce (m : message) : message :=
  mkMsg (messageId m) (requestId m) (okToRemoveFromSentQueueCallback m) (tracker m) (expectsReply m) true
    (errorCount m) (numRetries m).
(** errorCount++ on a uint16_t *)
Definition count_error (m : message) : message :=
  mkMsg (messageId m) (requestId m) (okToRemoveFromSentQueueCallback m) (tracker m) (expectsReply m) (sentOnceFlag m)
    (u16 (errorCount m + 1)) (numRetries m).

(** struct _messageQueue *)
Record messageQueue := mkMQ {
  allSet : icQueue addr;
  filterSet : icQueue addr;
  sentHash : M;
  maxProcessedCount : Z;
  messageTimeoutSecs : Z;
  threadState : mqState
}.

(** What became of the messages, in order: queued, handed to the delegate
    for sending, reported and destroyed, or returned to the caller as
    answered. *)
Inductive event :=
  | Appended (a : addr)
  | Sent (a : addr)
  | Notified (a : addr) (success : bool) (reason : messageFailureReason)
  | Completed (a : addr).

Record world := mkWorld {
  heap : gmap addr message;
  mq : messageQueue;
  signalled : bool;
  log : list event
}.

Definition set_heap (w : world) h := mkWorld h (mq w) (signalled w) (log w).
Definition set_mq (w : world) q := mkWorld (heap w) q (signalled w) (log w).
Definition add_log (w : world) e := mkWorld (heap w) (mq w) (signalled w) (log w ++ [e]).
Definition set_signalled (w : world) b := mkWorld (heap w) (mq w) b (log w).
Definition set_all (w : world) q :=
  set_mq w (mkMQ q (filterSet (mq w)) (sentHash (mq w)) (maxProcessedCount (mq w)) (messageTimeoutSecs (mq w)) (threadState (mq w))).
Definition set_filter (w : world) q :=
  set_mq w (mkMQ (allSet (mq w)) q (sentHash (mq w)) (maxProcessedCount (mq w)) (messageTimeoutSecs (mq w)) (threadState (mq w))).
Definition set_sent (w : world) m :=
  set_mq w (mkMQ (allSet (mq w)) (filterSet (mq w)) m (maxProcessedCount (mq w)) (messageTimeoutSecs (mq w)) (threadState (mq w))).
Definition set_max (w : world) n :=
  set_mq w (mkMQ (allSet (mq w)) (filterSet (mq w)) (sentHash (mq w)) n (messageTimeoutSecs (mq w)) (threadState (mq w))).
Definition set_timeout (w : world) n :=
  set_mq w (mkMQ (allSet (mq w)) (filterSet (mq w)) (sentHash (mq w)) (maxProcessedCount (mq w)) n (threadState (mq w))).
Definition set_state (w : world) t :=
  set_mq w (mkMQ (allSet (mq w)) (filterSet (mq w)) (sentHash (mq w)) (maxProcessedCount (mq w)) (messageTimeoutSecs (mq w)) t).

(** pthread_cond_broadcast(&queue->queueCond) *)
Definition broadcast (w : world) : world := set_signalled w true.
Definition broadcast_if_running (w : world) : world :=
  if decide (threadState (mq w) = MQ_RUNNING) then broadcast w else w.

(** The notifyFunc of the delegate: it reports the message and destroys it. *)
Definition notifyFunc (a : addr) (success : bool) (reason : messageFailureReason) (w : world) : outcome world :=
  _ ← of_option (heap w !! a);
  Ok (add_log (set_heap w (delete a (heap w))) (Notified a success reason)).

Definition push_all (w : world) (a : addr) : outcome world :=
  '(_, q) ← queuePush (Some (allSet (mq w))) (Some a); q ← of_option q; Ok (set_all w q).
Definition push_filter (w : world) (a : addr) : outcome world :=
  '(_, q) ← queuePush (Some (filterSet (mq w))) (Some a); q ← of_option q; Ok (set_filter w q).

Definition messageQueueCreate (maxProcessingMessageCount timeoutSecs : Z) : messageQueue :=
  mkMQ queueCreate queueCreate km_create
    (if decide (maxProcessingMessageCount = 0) then 1 else maxProcessingMessageCount)
    (if decide (timeoutSecs = 0) then 1 else timeoutSecs) MQ_NOT_RUNNING.

(** [created]: createDetachedThread could create the thread. *)
Definition messageQueueStartThread (created : bool) (w : world) : bool * world :=
  if decide (threadState (mq w) = MQ_NOT_RUNNING) then (created, set_state w MQ_RUNNING) else (false, w).

Definition isThreadDead (w : world) : bool := bool_decide (threadState (mq w) = MQ_NOT_RUNNING).
Definition isThreadCanceled (w : world) : bool := bool_decide (threadState (mq w) = MQ_CANCELING).
Definition queueIsBusyLocked (w : world) : bool := bool_decide (threadState (mq w) = MQ_PROCESSING).
Definition messageQueueIsBusy (w : world) : bool := queueIsBusyLocked w.

Definition messageQueueAppend (filter : message → bool) (msg : option addr) (w : world) : outcome world :=
  match msg with
  | None => Ok w
  | Some a =>
      w ← push_all w a;
      m ← of_option (heap w !! a);
      if filter m then
        w ← push_filter w a;
        Ok (broadcast_if_running w)
      else Ok w
  end.

Definition findMessageIdInQueue (h : gmap addr message) (id : Z) (item : option addr) : outcome bool :=
  a ← of_option item;
  m ← of_option (h !! a);
  Ok (bool_decide (messageId m = id)).

Definition findMessageInQueue (searchVal : addr) (item : option addr) : outcome bool :=
  Ok (bool_decide (Some searchVal = item)).

(** messageQueueRemove up to the wait: the message it took out of the sets,
    if any, and whether that was the sent hash. *)
Definition messageQueueRemove (id : Z) (w : world) : outcome (option (addr * bool) * world) :=
  '(_, _, f) ← queueDelete (Some (filterSet (mq w))) id (findMessageIdInQueue (heap w));
  f ← of_option f;
  let w := set_filter w f in
  msg ← queueFind (Some (allSet (mq w))) id (findMessageIdInQueue (heap w));
  match msg with
  | Some a =>
      '(b, _, q) ← queueDelete (Some (allSet (mq w))) id (findMessageIdInQueue (heap w));
      q ← of_option q;
      Ok (if b : bool then Some (a, false) else None, set_all w q)
  | None =>
      msg ← km_get (sentHash (mq w)) (id_key id);
      match msg with
      | Some a =>
          '(r, s) ← km_delete (sentHash (mq w)) (id_key id);
          Ok (match r with Some _ => Some (a, true) | None => None end, set_sent w s)
      | None => Ok (None, w)
      end
  end.

Definition remove_finish (a : addr) (sent : bool) (w : world) : outcome world :=
  w ← notifyFunc a false MESSAGE_FAIL_REASON_REMOVE w;
  Ok (if sent then broadcast_if_running w else w).

(** The last loop of messageQueueClear. *)
Fixpoint clear_all_loop (fuel : nat) (w : world) : outcome world :=
  '(msg, q) ← queuePop (Some (allSet (mq w)));
  q ← of_option q;
  let w := set_all w q in
  match msg with
  | None => Ok w
  | Some a =>
      match fuel with
      | O => Hang
      | S fuel => w ← notifyFunc a false MESSAGE_FAIL_REASON_REMOVE w; clear_all_loop fuel w
      end
  end.

(** messageQueueClear behind the wait. *)
Definition messageQueueClear (w : world) : outcome world :=
  '(_, f) ← queueClear (Some (filterSet (mq w)));
  f ← of_option f;
  let w := set_filter w f in
  w ← km_foreach (sentHash (mq w)) (λ a w, notifyFunc a false MESSAGE_FAIL_REASON_REMOVE w) w;
  '(_, s) ← km_clear (sentHash (mq w));
  let w := set_sent w s in
  clear_all_loop (size (q_nodes (allSet (mq w)))) w.

(** messageQueueStopThread behind the wait; the result: whether to wait for
    the thread to exit. *)
Definition messageQueueStopThread (waitForExit : bool) (w : world) : bool * world :=
  if decide (threadState (mq w) = MQ_RUNNING) then (waitForExit, broadcast (set_state w MQ_CANCELING))
  else (false, w).

(** messageQueueDestroy once the thread has stopped: what the two queues
    and the hash still release. *)
Definition messageQueueDestroy (w : world) : outcome (list addr * world) :=
  w ← messageQueueClear w;
  '(r1, _) ← queueDestroy (Some (allSet (mq w)));
  '(r2, _) ← queueDestroy (Some (filterSet (mq w)));
  '(r3, _) ← km_clear (sentHash (mq w));
  Ok (r1 ++ r2 ++ r3, w).

(** messageQueueContainsMessage behind the wait. *)
Definition messageQueueContainsMessage (a : addr) (w : world) : outcome bool :=
  m ← of_option (heap w !! a);
  hasMsg ← km_contains (sentHash (mq w)) (id_key (messageId m));
  if hasMsg : bool then Ok true
  else
    found ← queueFind (Some (allSet (mq w))) a findMessageInQueue;
    Ok (bool_decide (found ≠ None)).

(** The message leaves the heap of the queue: its caller destroys it. *)
Definition complete (a : addr) (w : world) : world :=
  add_log (set_heap w (delete a (heap w))) (Completed a).

Definition messageQueueCompleted (id : Z) (payload : option P) (w : world) : outcome (option addr * world) :=
  msg ← km_get (sentHash (mq w)) (id_key id);
  match msg with
  | None => Ok (None, w)
  | Some a =>
      m ← of_option (heap w !! a);
      let canDelete := match payload, okToRemoveFromSentQueueCallback m with
                       | Some p, Some f => f p
                       | _, _ => true
                       end in
      if canDelete : bool then
        '(_, s) ← km_delete (sentHash (mq w)) (id_key id);
        Ok (Some a, complete a (broadcast_if_running (set_sent w s)))
      else Ok (None, w)
  end.

Definition messageQueueCompletedCustomSearch (search : message → bool) (w : world)
    : outcome (option addr * world) :=
  '(r, s) ← km_scan (sentHash (mq w))
    (λ a r, m ← of_option (heap w !! a);
            if search m then Ok (mkVerdict true true, Some a) else Ok (mkVerdict false false, r)) None;
  let w := set_sent w s in
  Ok (r, match r with Some a => complete a w | None => w end).

Inductive messageQueueScope := QUEUE_SCOPE_ALL_SET | QUEUE_SCOPE_FILTER_SET | QUEUE_SCOPE_SENT_SET.

Definition messageQueueIterate {S} (scope : messageQueueScope) (iterFunc : addr → S → outcome (bool * S)) (arg : S)
    (w : world) : outcome S :=
  let on_item o s := a ← of_option o; iterFunc a s in
  match scope with
  | QUEUE_SCOPE_FILTER_SET => queueIterate (Some (filterSet (mq w))) on_item arg
  | QUEUE_SCOPE_ALL_SET => queueIterate (Some (allSet (mq w))) on_item arg
  | QUEUE_SCOPE_SENT_SET =>
      '(s, _) ← km_scan (sentHash (mq w))
        (λ a s, '(go, s) ← iterFunc a s; Ok (mkVerdict false (negb go), s)) arg;
      Ok s
  end.

Definition messageQueueAllSetCount (w : world) : Z := queueCount (Some (allSet (mq w))).
Definition messageQueueFilterSetCount (w : world) : Z := queueCount (Some (filterSet (mq w))).
Definition messageQueueSentSetCount (w : world) : Z := km_count (sentHash (mq w)).
Definition messageQueueGetMaxProcessingMessageCount (w : world) : Z := maxProcessedCount (mq w).
Definition messageQueueSetMaxProcessingMessageCount (max : Z) (w : world) : world :=
  if decide (max ≠ 0) then set_max w max else w.
Definition messageQueueGetMessageTimeoutSecs (w : world) : Z := messageTimeoutSecs (mq w).
Definition messageQueueSetMessageTimeoutSecs (timeoutSecs : Z) (w : world) : world :=
  if decide (timeoutSecs ≠ 0) then set_timeout w timeoutSecs else w.

Definition iterateQueueAndApplyFilter (filter : message → bool) (item : option addr) (w : world)
    : outcome (bool * world) :=
  a ← of_option item;
  m ← of_option (heap w !! a);
  if filter m then w ← push_filter w a; Ok (true, w) else Ok (true, w).

Definition messageQueueRunFilter (filter : message → bool) (w : world) : outcome world :=
  '(_, f) ← queueClear (Some (filterSet (mq w)));
  f ← of_option f;
  let w := set_filter w f in
  w ← queueIterate (Some (allSet (mq w))) (iterateQueueAndApplyFilter filter) w;
  Ok (broadcast_if_running w).

(** ** The thread of the queue *)

(** The body of the loop of checkSentHashForTimeouts.  The current entry is
    deleted by the loop, behind the body: its key is a part of the message,
    so a message that is destroyed first makes that a use after free. *)
Definition check_message (filter : message → bool) (now : Z) (a : addr) (w : world) : outcome (verdict * world) :=
  m ← of_option (heap w !! a);
  if timeTrackerExpired now (tracker m) then
    let m := set_tracker (set_sentOnce (count_error m)) (timeTrackerStop now (tracker m)) in
    let w := set_heap w (<[a := m]> (heap w)) in
    if decide (errorCount m ≤ numRetries m) then
      w ← push_all w a;
      w ← (if filter m then push_filter w a else Ok w);
      Ok (mkVerdict true false, w)
    else
      w ← notifyFunc a false MESSAGE_FAIL_REASON_RETRY_MAX w;
      Ok (mkVerdict true false, w)
  else
    match tracker m with
    | None =>
        w ← notifyFunc a false MESSAGE_FAIL_REASON_INVALID w;
        _ ← of_option (heap w !! a);
        Ok (mkVerdict true false, w)
    | Some _ => Ok (mkVerdict false false, w)
    end.

Definition checkSentHashForTimeouts (filter : message → bool) (now : Z) (w : world) : outcome world :=
  if decide (km_count (sentHash (mq w)) = 0) then Ok w
  else
    '(w', s) ← km_scan (sentHash (mq w)) (check_message filter now) w;
    Ok (set_sent w' s).

(** Where the thread of the queue is when it does not hold the mutex. *)
Inductive pc :=
  | Top                                        (* before the lock at the top of the loop *)
  | Full                                       (* waiting: too many messages in the sent hash *)
  | Empty                                      (* waiting: nothing to send *)
  | Processing (a : addr) (expects : bool)     (* in the processFunc of the delegate *)
  | Delay                                      (* pausing after a failure *)
  | Exit                                       (* behind the loop *)
  | Gone.

Definition wait (p : pc) (w : world) : pc * world := (p, set_signalled w false).

(** Putting a message back that could not be sent. *)
Definition requeue (filter : message → bool) (a : addr) (w : world) : outcome world :=
  w ← push_all w a;
  m ← of_option (heap w !! a);
  if filter m then push_filter w a else Ok w.

(** Taking the next message and handing it to the delegate. *)
Definition thread_send (now : Z) (w : world) : outcome (pc * world) :=
  '(msg, f) ← queuePop (Some (filterSet (mq w)));
  f ← of_option f;
  let w := set_filter w f in
  match msg with
  | None => Ok (Top, w)
  | Some a =>
      '(_, _, q) ← queueDelete (Some (allSet (mq w))) a findMessageInQueue;
      q ← of_option q;
      let w := set_all w q in
      m ← of_option (heap w !! a);
      if expectsReply m then
        '(ok, s) ← km_put (sentHash (mq w)) (id_key (messageId m)) a;
        if ok : bool then
          let w := set_sent w s in
          let t := match tracker m with None => Some timeTrackerCreate | t => t end in
          let m := set_tracker m (timeTrackerStart now t (messageTimeoutSecs (mq w))) in
          let w := set_heap w (<[a := m]> (heap w)) in
          Ok (Processing a true, add_log (set_state w MQ_PROCESSING) (Sent a))
        else
          w ← notifyFunc a false MESSAGE_FAIL_REASON_INVALID w;
          Ok (Top, w)
      else Ok (Processing a false, add_log (set_state w MQ_PROCESSING) (Sent a))
  end.

(** From the top of the loop. *)
Definition thread_top (now : Z) (w : world) : outcome (pc * world) :=
  if decide (threadState (mq w) = MQ_CANCELING) then Ok (Exit, w)
  else if decide (maxProcessedCount (mq w) ≤ km_count (sentHash (mq w))) then Ok (wait Full w)
  else if decide (queueCount (Some (filterSet (mq w))) = 0) then Ok (wait Empty w)
  else thread_send now w.

(** Behind the two waits. *)
Definition thread_full (filter : message → bool) (now : Z) (w : world) : outcome (pc * world) :=
  w ← checkSentHashForTimeouts filter now w; Ok (Top, w).

Definition thread_empty (filter : message → bool) (now : Z) (timedOut : bool) (w : world) : outcome (pc * world) :=
  if timedOut then w ← checkSentHashForTimeouts filter now w; Ok (Top, w) else Ok (Top, w).

(** The pause at the end of the loop, if there is one. *)
Definition pause (delayed : bool) (w : world) : pc * world :=
  if delayed && bool_decide (threadState (mq w) ≠ MQ_CANCELING) then wait Delay w else (Top, w).

(** A message that was not sent: its timer is stopped and it leaves the
    sent hash. *)
Definition stop_tracker (now : Z) (a : addr) (m : message) (w : world) : world :=
  match tracker m with
  | None => w
  | Some _ => set_heap w (<[a := set_tracker m (timeTrackerStop now (tracker m))]> (heap w))
  end.

Definition unsend (m : message) (w : world) : outcome world :=
  if expectsReply m then
    '(_, s) ← km_delete (sentHash (mq w)) (id_key (messageId m)); Ok (set_sent w s)
  else Ok w.

(** Behind the call of processFunc. *)
Definition thread_processed (filter : message → bool) (now : Z) (a : addr) (expects : bool) (rc : processMessageCode)
    (w : world) : outcome (pc * world) :=
  let w := if decide (threadState (mq w) = MQ_PROCESSING) then broadcast (set_state w MQ_RUNNING) else w in
  match rc with
  | PROCESS_MSG_SUCCESS =>
      w ← (if expects then Ok w else notifyFunc a true MESSAGE_FAIL_REASON_NONE w);
      Ok (pause false w)
  | PROCESS_MSG_SUCCESS_HANDLED =>
      m ← of_option (heap w !! a);
      '(_, s) ← km_delete (sentHash (mq w)) (id_key (messageId m));
      w ← notifyFunc a true MESSAGE_FAIL_REASON_NONE (set_sent w s);
      Ok (pause false w)
  | _ =>
      m ← of_option (heap w !! a);
      w ← unsend m (stop_tracker now a m w);
      match rc with
      | PROCESS_MSG_INVALID =>
          w ← notifyFunc a false MESSAGE_FAIL_REASON_INVALID w;
          Ok (pause false w)
      | PROCESS_MSG_DELAY_SEND =>
          w ← requeue filter a w;
          Ok (pause true w)
      | _ =>
          m ← of_option (heap w !! a);
          let m := count_error m in
          let w := set_heap w (<[a := m]> (heap w)) in
          if decide (numRetries m < errorCount m) then
            w ← notifyFunc a false MESSAGE_FAIL_REASON_RETRY_MAX w;
            Ok (pause false w)
          else
            w ← requeue filter a w;
            Ok (pause true w)
      end
  end.

(** Behind the loop. *)
Definition thread_exit (w : world) : pc * world := (Gone, broadcast (set_state w MQ_NOT_RUNNING)).

(** ** Threads *)

(** Where a client is: not in a call; in waitOnProcessingLocked of a call; in
    the last loop of messageQueueStopThread. *)
Inductive client :=
  | Idle
  | Removing (a : addr) (sent : bool)
  | Clearing
  | Stopping (waitForExit : bool)
  | Joining.

Record sys := mkSys { st : world; thread : pc; clients : gmap nat client }.

(** What a thread does next. *)
Inductive action :=
  | AAppend (a : addr) (m : message)
  | ARemove (id : Z)
  | AClear
  | AStop (waitForExit : bool)
  | AStart (created : bool)
  | ACompleted (id : Z) (payload : option P)
  | ASearch (search : message → bool)
  | ASetMax (max : Z)
  | ASetTimeout (secs : Z)
  | ARunFilter
  | AFinish                                    (* a client behind waitOnProcessingLocked *)
  | AThread (timedOut : bool) (rc : processMessageCode).

(** A segment of client [c] (for [AThread], of the thread of the queue) under
    the current filter and clock. *)
Definition run (filter : message → bool) (now : Z) (c : nat) (act : action) (s : sys) : outcome sys :=
  let w := st s in
  let stay w := mkSys w (thread s) (clients s) in
  let park k w := mkSys w (thread s) (<[c := k]> (clients s)) in
  match act with
  | AAppend a m =>
      w ← messageQueueAppend filter (Some a) (add_log (set_heap w (<[a := m]> (heap w))) (Appended a));
      Ok (stay w)
  | ARemove id =>
      '(r, w) ← messageQueueRemove id w;
      Ok (match r with Some (a, sent) => park (Removing a sent) w | None => stay w end)
  | AClear => Ok (park Clearing w)
  | AStop waitForExit => Ok (park (Stopping waitForExit) w)
  | AStart created =>
      let '(ok, w) := messageQueueStartThread created w in
      Ok (if ok then mkSys w Top (clients s) else stay w)
  | ACompleted id payload => '(_, w) ← messageQueueCompleted id payload w; Ok (stay w)
  | ASearch search => '(_, w) ← messageQueueCompletedCustomSearch search w; Ok (stay w)
  | ASetMax max => Ok (stay (messageQueueSetMaxProcessingMessageCount max w))
  | ASetTimeout secs => Ok (stay (messageQueueSetMessageTimeoutSecs secs w))
  | ARunFilter => w ← messageQueueRunFilter filter w; Ok (stay w)
  | AFinish =>
      match clients s !! c with
      | Some (Removing a sent) => w ← remove_finish a sent w; Ok (park Idle w)
      | Some Clearing => w ← messageQueueClear w; Ok (park Idle w)
      | Some (Stopping e) =>
          let '(e, w) := messageQueueStopThread e w in Ok (park (if e then Joining else Idle) w)
      | Some Joining => Ok (if isThreadDead w then park Idle w else stay w)
      | _ => Ok s
      end
  | AThread timedOut rc =>
      '(p, w) ← match thread s with
                | Top => thread_top now w
                | Full => thread_full filter now w
                | Empty => thread_empty filter now timedOut w
                | Processing a expects => thread_processed filter now a expects rc w
                | Delay => Ok (Top, w)
                | Exit => Ok (thread_exit w)
                | Gone => Ok (Gone, w)
                end;
      Ok (mkSys w p (clients s))
  end.

End Code.
Arguments message : clear implicits.
Arguments messageQueue : clear implicits.
Arguments world : clear implicits.
Arguments sys : clear implicits.
Arguments action : clear implicits.

End MessageQueue.
