(* ===== verification/MessageQueueSpec.v ===== *)
(** * Where every message of the queue is

    The invariant of the message queue: every message that is alive is in
    exactly one place (the all set, the sent hash, in the hands of the
    delegate, taken out by a client that is about to report it), the filter
    set is a part of the all set in the same order, and what the log says
    about a message agrees with its being alive.  One lemma per operation. *)

From S2P Require Import Prelude LinkedList LinkedListSpec Queue HashMapIter KeyMap Time MessageQueue.
Import LinkedList ListSpec Queue MapIter KeyMap Time MessageQueue.

Module MQSpec.

(** ** Lists without an element *)

Definition without (a : addr) (l : list addr) : list addr := filter (λ x, x ≠ a) l.

Lemma without_notin a l : a ∉ l → without a l = l.
Proof.
  induction l as [|x l IH]; intros Ha; [done|]. apply not_elem_of_cons in Ha as [Hx Ha].
  unfold without in *. rewrite filter_cons, decide_True by done. by rewrite IH.
Qed.

Lemma without_perm a l : NoDup l → a ∈ l → l ≡ₚ a :: without a l.
Proof.
  intros Hnd (l1 & l2 & ->)%list_elem_of_split. apply NoDup_app in Hnd as (_ & H1 & H2).
  apply NoDup_cons in H2 as [H2 _]. unfold without. rewrite filter_app, filter_cons, decide_False by tauto.
  fold (without a l1) (without a l2). rewrite !without_notin; [by rewrite Permutation_middle|done|].
  intros Ha. apply (H1 a Ha). by left.
Qed.

Lemma without_sublist a l k : l `sublist_of` k → without a l `sublist_of` without a k.
Proof.
  unfold without. induction 1 as [|x l k _ IH|x l k _ IH]; [done|..]; rewrite ?filter_cons;
    case_decide; [by constructor|done|by constructor|done].
Qed.

Lemma sublist_without a l k : l `sublist_of` k → a ∉ l → l `sublist_of` without a k.
Proof. intros Hs Ha. rewrite <-(without_notin a l Ha). by apply without_sublist. Qed.

Lemma find_first_some (p : option addr → bool) a l :
  (∀ x, x ∈ l → p (Some x) = bool_decide (x = a)) →
  find_first p (Some <$> l) = if decide (a ∈ l) then Some (Some a) else None.
Proof.
  induction l as [|x l IH]; intros Hp; [done|]. cbn [fmap list_fmap find_first]. rewrite Hp by (by left).
  case_bool_decide as Hx.
  - subst x. rewrite decide_True by (by left). done.
  - rewrite IH by (intros; apply Hp; by right). destruct (decide (a ∈ l)) as [Ha|Ha].
    + rewrite decide_True by (by right). done.
    + rewrite decide_False; [done|]. intros [?|?]%elem_of_cons; congruence.
Qed.

Lemma delete_first_some (p : option addr → bool) a l :
  NoDup l → (∀ x, x ∈ l → p (Some x) = bool_decide (x = a)) →
  delete_first p (Some <$> l) = Some <$> without a l.
Proof.
  induction l as [|x l IH]; intros Hnd Hp; [done|]. apply NoDup_cons in Hnd as [Hx Hnd].
  cbn [fmap list_fmap delete_first]. rewrite Hp by (by left). unfold without. rewrite filter_cons.
  fold (without a l). case_bool_decide as Hxa.
  - subst x. rewrite decide_False by tauto. by rewrite without_notin.
  - rewrite decide_True by done. rewrite IH by (done || (intros; apply Hp; by right)). done.
Qed.

(** ** Keys of message ids *)

Lemma le_bytes_length n z : length (le_bytes n z) = n.
Proof. revert z. induction n as [|n IH]; intros z; simpl; [done|]. by rewrite IH. Qed.

Lemma le_bytes_inj n x y :
  0 ≤ x < 256 ^ Z.of_nat n → 0 ≤ y < 256 ^ Z.of_nat n → le_bytes n x = le_bytes n y → x = y.
Proof.
  revert x y. induction n as [|n IH]; intros x y Hx Hy He; [simpl in *; lia|].
  rewrite Nat2Z.inj_succ, Z.pow_succ_r in Hx, Hy by lia. simpl in He. injection He as H1 H2.
  assert (x `mod` 256 = y `mod` 256) as Hm.
  { pose proof (Z.mod_pos_bound x 256 ltac:(lia)). pose proof (Z.mod_pos_bound y 256 ltac:(lia)).
    apply (f_equal N_of_ascii) in H1. rewrite !N_ascii_embedding in H1 by lia. lia. }
  apply IH in H2; [|split; [by apply Z.div_pos; lia|apply Z.div_lt_upper_bound; lia]..].
  rewrite (Z.div_mod x 256), (Z.div_mod y 256) by lia. congruence.
Qed.

Lemma id_key_inj x y :
  0 ≤ x < 18446744073709551616 → 0 ≤ y < 18446744073709551616 → id_key x = id_key y → x = y.
Proof. intros Hx Hy. apply (le_bytes_inj 8); done. Qed.

Lemma id_key_ok x : key_ok (id_key x).
Proof. unfold key_ok, strlen, id_key. rewrite le_bytes_length. done. Qed.

(** ** The log *)

Definition is_append (a : addr) (e : event) : bool :=
  match e with Appended b => bool_decide (b = a) | _ => false end.
Definition is_end (a : addr) (e : event) : bool :=
  match e with Notified b _ _ | Completed b => bool_decide (b = a) | _ => false end.
Definition occurs (f : event → bool) (l : list event) : Z := zlen (List.filter f l).

Lemma occurs_snoc f l e : occurs f (l ++ [e]) = occurs f l + if f e then 1 else 0.
Proof. unfold occurs. rewrite List.filter_app, length_app. simpl. destruct (f e); simpl; lia. Qed.

Section Spec.
Context {M : Type} `{KeyMapLaws M addr} {P : Type}.
Implicit Types (h : gmap addr (message P)) (m : message P) (w : world M P) (es : list (cstring * addr))
  (A F rest : list addr).

(** A message was appended as often as it was reported or completed, and
    once more while it is alive. *)
Definition life h (l : list event) : Prop :=
  ∀ a, occurs (is_append a) l = occurs (is_end a) l + if decide (is_Some (h !! a)) then 1 else 0.

Lemma life_add h l a m : life h l → h !! a = None → life (<[a := m]> h) (l ++ [Appended a]).
Proof.
  intros Hl Ha b. rewrite !occurs_snoc, Hl. simpl. destruct (decide (a = b)) as [->|Hne].
  - rewrite lookup_insert_eq, Ha, (decide_True (P := is_Some (Some m))), decide_False, bool_decide_true by
      (done || by intros [? ?]). lia.
  - rewrite lookup_insert_ne, bool_decide_false by done. lia.
Qed.

Lemma life_end h l a e : life h l → is_Some (h !! a) → (∀ b, is_append b e = false) →
  (∀ b, is_end b e = bool_decide (a = b)) → life (delete a h) (l ++ [e]).
Proof.
  intros Hl Ha Hn He b. rewrite !occurs_snoc, Hl, Hn, He. destruct (decide (a = b)) as [->|Hne].
  - rewrite lookup_delete_eq, decide_True, decide_False, bool_decide_true by (done || by intros [? ?]). lia.
  - rewrite lookup_delete_ne, bool_decide_false by done. lia.
Qed.

Lemma life_sent h l a : life h l → life h (l ++ [Sent a]).
Proof. intros Hl b. rewrite !occurs_snoc, Hl. simpl. lia. Qed.

Lemma life_update h l a m m' : life h l → h !! a = Some m → life (<[a := m']> h) l.
Proof.
  intros Hl Ha b. rewrite Hl. destruct (decide (a = b)) as [->|Hne].
  - by rewrite lookup_insert_eq, Ha, !decide_True.
  - by rewrite lookup_insert_ne.
Qed.

(** ** The places of the messages *)

Definition msg_ok m : Prop :=
  0 ≤ messageId m < 18446744073709551616 ∧ 0 ≤ errorCount m ∧ errorCount m ≤ numRetries m ∧ numRetries m ≤ 65535.

(** A message in the sent hash waits for a reply under its own id, with a
    tracker. *)
Definition waiting m (k : cstring) : Prop :=
  k = id_key (messageId m) ∧ expectsReply m = true ∧ tracker m ≠ None.

Record core h A F es rest : Prop := {
  c_part : (map_to_list h).*1 ≡ₚ A ++ es.*2 ++ rest;
  c_sub : F `sublist_of` A;
  c_size : Z.of_nat (size h) ≤ 65535;
  c_msgs : ∀ a m, h !! a = Some m → msg_ok m;
  c_ids : ∀ a b ma mb, h !! a = Some ma → h !! b = Some mb → messageId ma = messageId mb → a = b;
  c_keys : ∀ k a m, (k, a) ∈ es → h !! a = Some m → waiting m k
}.

Lemma core_nodup h A F es rest : core h A F es rest → NoDup (A ++ es.*2 ++ rest).
Proof. intros Hc. rewrite <-(c_part _ _ _ _ _ Hc). apply NoDup_fst_map_to_list. Qed.

Lemma core_live h A F es rest a : core h A F es rest → a ∈ A ++ es.*2 ++ rest → ∃ m, h !! a = Some m.
Proof.
  intros Hc Ha. rewrite <-(c_part _ _ _ _ _ Hc) in Ha. apply list_elem_of_fmap in Ha as ([b m] & -> & Hb).
  exists m. by apply elem_of_map_to_list.
Qed.

Lemma core_in h A F es rest a m : core h A F es rest → h !! a = Some m → a ∈ A ++ es.*2 ++ rest.
Proof.
  intros Hc Ha. rewrite <-(c_part _ _ _ _ _ Hc). apply list_elem_of_fmap. exists (a, m).
  split; [done|]. by apply elem_of_map_to_list.
Qed.

Lemma core_length h A F es rest : core h A F es rest → zlen A + zlen es + zlen rest ≤ 65535.
Proof.
  intros Hc. pose proof (c_size _ _ _ _ _ Hc) as Hs. pose proof (Permutation_length (c_part _ _ _ _ _ Hc)) as Hp.
  rewrite !length_app, !length_fmap, length_map_to_list in Hp. lia.
Qed.

Lemma core_outside h A F es a rest : core h A F es (a :: rest) → a ∉ A ∧ a ∉ es.*2.
Proof.
  intros Hc%core_nodup. rewrite app_assoc in Hc. apply NoDup_app in Hc as (_ & Hc & _).
  split; intros Ha; apply (Hc a); [set_solver|by left|set_solver|by left].
Qed.

(** Moving messages between places. *)
Lemma core_move h A F es rest A' F' es' rest' :
  core h A F es rest → A ++ es.*2 ++ rest ≡ₚ A' ++ es'.*2 ++ rest' → F' `sublist_of` A' →
  (∀ k a m, (k, a) ∈ es' → h !! a = Some m → waiting m k) → core h A' F' es' rest'.
Proof. intros [] Hp Hs Hk. split; try done. by etrans. Qed.

Lemma core_delete h A F es a rest : core h A F es (a :: rest) → core (delete a h) A F es rest.
Proof.
  intros Hc. pose proof (core_nodup _ _ _ _ _ Hc) as Hnd.
  destruct (core_live _ _ _ _ _ a Hc) as [m Ha]; [set_solver|]. destruct Hc as [Hp Hs Hz Hm Hi Hk].
  assert (Hd : ∀ b mb, delete a h !! b = Some mb → h !! b = Some mb) by (intros ? ? [_ ?]%lookup_delete_Some; done).
  split; eauto.
  - assert (Hq : (map_to_list h).*1 ≡ₚ a :: (map_to_list (delete a h)).*1).
    { rewrite <-(insert_delete_id h a m Ha) at 1. rewrite map_to_list_insert by (by rewrite lookup_delete_eq). done. }
    apply (Permutation_cons_inv (a := a)). rewrite <-Hq, Hp. solve_Permutation.
  - rewrite map_size_delete, Ha. simpl. lia.
Qed.

Lemma core_update h A F es rest a m m' :
  core h A F es rest → h !! a = Some m → messageId m' = messageId m → msg_ok m' →
  (a ∈ es.*2 → expectsReply m' = true ∧ tracker m' ≠ None) → core (<[a := m']> h) A F es rest.
Proof.
  intros Hc Ha Hid Hok Hes. pose proof (core_nodup _ _ _ _ _ Hc) as Hnd. destruct Hc as [Hp Hs Hz Hm Hi Hk]. split.
  - rewrite <-Hp. rewrite <-(insert_delete_eq h a m').
    rewrite map_to_list_insert by (by rewrite lookup_delete_eq).
    rewrite <-(insert_delete_id h a m Ha) at 2. rewrite map_to_list_insert by (by rewrite lookup_delete_eq). done.
  - done.
  - by rewrite map_size_insert, Ha.
  - intros b mb [[<- <-]|[_ Hb]]%lookup_insert_Some; eauto.
  - intros b c mb mc [[<- <-]|[_ Hb]]%lookup_insert_Some [[<- <-]|[_ Hc]]%lookup_insert_Some; rewrite ?Hid; eauto.
  - intros k b mb Hin [[<- <-]|[_ Hb]]%lookup_insert_Some; [|eauto]. unfold waiting. rewrite Hid.
    split; [by apply (Hk _ _ _ Hin Ha)|]. apply Hes. apply list_elem_of_fmap. by exists (k, a).
Qed.

Lemma core_insert h A F es rest a m :
  core h A F es rest → h !! a = None → Z.of_nat (size h) < 65535 → msg_ok m →
  (∀ b mb, h !! b = Some mb → messageId mb ≠ messageId m) → core (<[a := m]> h) A F es (a :: rest).
Proof.
  intros [Hp Hs Hz Hm Hi Hk] Ha Hlt Hok Hnew. split; [|done|..].
  - rewrite map_to_list_insert by done. rewrite fmap_cons, Hp. simpl. solve_Permutation.
  - rewrite map_size_insert, Ha. simpl. lia.
  - intros b mb [[<- <-]|[_ Hb]]%lookup_insert_Some; eauto.
  - intros b c mb mc [[<- <-]|[_ Hb]]%lookup_insert_Some [[<- <-]|[_ Hc]]%lookup_insert_Some He; eauto.
    + by edestruct Hnew.
    + by edestruct Hnew.
  - intros k b mb Hin [[<- <-]|[_ Hb]]%lookup_insert_Some; [|eauto].
    exfalso. assert (a ∈ (map_to_list h).*1) as Hx.
    { rewrite Hp. apply elem_of_app. right. apply elem_of_app. left. apply list_elem_of_fmap. by exists (k, a). }
    apply list_elem_of_fmap in Hx as ([c mc] & -> & Hx). apply elem_of_map_to_list in Hx. simpl in *. congruence.
Qed.

(** ** The state of the queue, its sent hash apart *)

Definition sets w A F : Prop := qrepr (allSet (mq w)) (Some <$> A) ∧ qrepr (filterSet (mq w)) (Some <$> F).

Record winv w A F es rest : Prop := {
  w_sets : sets w A F;
  w_core : core (heap w) A F es rest;
  w_life : life (heap w) (log w)
}.

(** What the operations on the sets leave alone. *)
Definition control w : M * Z * Z * mqState * bool :=
  (sentHash (mq w), maxProcessedCount (mq w), messageTimeoutSecs (mq w), threadState (mq w), signalled w).

Lemma push_all_spec w A F a :
  sets w A F → zlen A < 65535 → ∃ q, push_all w a = Ok (set_all w q) ∧ sets (set_all w q) (A ++ [a]) F.
Proof.
  intros [HA HF] Hl. unfold push_all. destruct (qrepr_push _ _ (Some a) HA) as (q & -> & Hq);
    [by rewrite length_fmap|]. exists q. split; [done|]. split; simpl; [by rewrite fmap_app|done].
Qed.

Lemma push_filter_spec w A F a :
  sets w A F → zlen F < 65535 → ∃ q, push_filter w a = Ok (set_filter w q) ∧ sets (set_filter w q) A (F ++ [a]).
Proof.
  intros [HA HF] Hl. unfold push_filter. destruct (qrepr_push _ _ (Some a) HF) as (q & -> & Hq);
    [by rewrite length_fmap|]. exists q. split; [done|]. split; simpl; [done|by rewrite fmap_app].
Qed.

Lemma notify_spec w A F es a rest (b : bool) (r : messageFailureReason) :
  winv w A F es (a :: rest) →
  let w' := add_log (set_heap w (delete a (heap w))) (Notified a b r) in
  notifyFunc a b r w = Ok w' ∧ winv w' A F es rest.
Proof.
  intros [Hs Hc Hl] w'. destruct (core_live _ _ _ _ _ a Hc) as [m Ha]; [set_solver|].
  unfold notifyFunc. rewrite Ha. simpl. split; [done|]. split; simpl; [done|by apply core_delete|].
  by apply life_end; [|exists m| |].
Qed.

(** A message in nobody's set goes to the end of the all set and, if the
    filter lets it pass, of the filter set. *)
Lemma requeue_spec (f : message P → bool) w A F es a rest m :
  winv w A F es (a :: rest) → heap w !! a = Some m →
  let F' := if f m then F ++ [a] else F in
  ∃ w', requeue f a w = Ok w' ∧ winv w' (A ++ [a]) F' es rest ∧
    heap w' = heap w ∧ log w' = log w ∧ control w' = control w.
Proof.
  intros [Hs Hc Hl] Ha F'. pose proof (core_length _ _ _ _ _ Hc) as Hlen. simpl in Hlen.
  pose proof (sublist_length _ _ (c_sub _ _ _ _ _ Hc)) as HF.
  unfold requeue. destruct (push_all_spec w A F a Hs) as (q & -> & Hs1); [lia|]. simpl. rewrite Ha. simpl.
  assert (Hc' : core (heap w) (A ++ [a]) F' es rest).
  { apply (core_move _ A F es (a :: rest)); [done|solve_Permutation| |apply Hc].
    unfold F'. destruct (f m); [by apply sublist_app; [apply Hc|]|apply sublist_inserts_r, Hc]. }
  unfold F' in *. destruct (f m).
  - destruct (push_filter_spec (set_all w q) (A ++ [a]) F a Hs1) as (q2 & -> & Hs2); [lia|].
    eexists. split; [done|]. by split_and!.
  - eexists. split; [done|]. by split_and!.
Qed.

(** ** Time-outs *)

Lemma count_error_ok m : msg_ok m → errorCount (count_error m) ≤ numRetries m → msg_ok (count_error m).
Proof. unfold msg_ok. simpl. pose proof (u16_bounds (errorCount m + 1)). lia. Qed.

Lemma check_message_spec (f : message P → bool) now w A F k a es1 es2 rest :
  winv w A F (es1 ++ (k, a) :: es2) rest →
  ∃ d w' A' F', check_message f now a w = Ok (mkVerdict d false, w') ∧
    winv w' A' F' (es1 ++ (if d : bool then [] else [(k, a)]) ++ es2) rest ∧ control w' = control w.
Proof.
  intros [Hs Hc Hl]. destruct (core_live _ _ _ _ _ a Hc) as [m Ha].
  { rewrite fmap_app. set_solver. }
  destruct (c_keys _ _ _ _ _ Hc k a m) as (Hk & He & Ht); [set_solver|done|].
  pose proof (c_msgs _ _ _ _ _ Hc a m Ha) as Hok.
  assert (Hout : core (heap w) A F (es1 ++ es2) (a :: rest)).
  { apply (core_move _ A F (es1 ++ (k, a) :: es2) rest); [done| |apply Hc|].
    - rewrite !fmap_app. simpl. solve_Permutation.
    - intros k' b mb Hin. apply (c_keys _ _ _ _ _ Hc). set_solver. }
  unfold check_message. rewrite Ha. simpl. destruct (timeTrackerExpired now (tracker m)) eqn:Ex.
  - set (m1 := set_tracker _ _). case_decide as Hr.
    + (* back into the sets *)
      assert (Hw : winv (set_heap w (<[a := m1]> (heap w))) A F (es1 ++ es2) (a :: rest)).
      { split; [done| |by eapply life_update]. eapply core_update; [done|done|done|by apply count_error_ok|].
        intros Hin. by destruct (core_outside _ _ _ _ _ _ Hout). }
      destruct (requeue_spec f _ _ _ _ _ _ m1 Hw) as (w' & Hq & Hw' & _ & _ & Hct); [by simpl; rewrite lookup_insert_eq|].
      eexists true, w', _, _. split; [|by split; [exact Hw'|]].
      revert Hq. unfold requeue.
      destruct (push_all _ _) as [w1| |] eqn:E1; simpl; [|done..].
      assert (heap w1 !! a = Some m1) as ->; [|oread; by intros ->].
      destruct (push_all_spec _ _ _ a (w_sets _ _ _ _ _ Hw)) as (q & Hq & _).
      { pose proof (core_length _ _ _ _ _ Hout). simpl in *. lia. }
      rewrite E1 in Hq. injection Hq as ->. simpl. by rewrite lookup_insert_eq.
    + (* given up *)
      unfold notifyFunc. simpl. rewrite lookup_insert_eq. simpl. rewrite delete_insert_eq.
      eexists true, _, A, F. split; [done|]. split; [|done]. split; simpl; [done|by apply core_delete|].
      by apply life_end; [|exists m| |].
  - destruct (tracker m) as [t|] eqn:Et; [|done].
    exists false, w, A, F. by split_and!.
Qed.

Lemma check_scan (f : message P → bool) now rest es2 : ∀ w A F es1,
  winv w A F (es1 ++ es2) rest →
  ∃ w' A' F' keep, scan_pairs (check_message f now) es2 w = Ok (w', keep) ∧
    winv w' A' F' (es1 ++ keep) rest ∧ control w' = control w ∧ keep `sublist_of` es2.
Proof.
  induction es2 as [|[k a] es2 IH]; intros w A F es1 Hw.
  { by exists w, A, F, []. }
  destruct (check_message_spec f now w A F k a es1 es2 rest Hw) as (d & w1 & A1 & F1 & Hc & Hw1 & Ht1).
  cbn [scan_pairs snd]. rewrite Hc. simpl. rewrite app_assoc in Hw1.
  destruct (IH w1 A1 F1 _ Hw1) as (w2 & A2 & F2 & keep & -> & Hw2 & Ht2 & Hs). simpl.
  exists w2, A2, F2, (if d then keep else (k, a) :: keep). rewrite <-app_assoc in Hw2.
  split; [done|]. split; [by destruct d|]. split; [congruence|]. destruct d; by constructor.
Qed.

(** The part of [control] that the operations on the sent hash keep. *)
Definition flags w : Z * Z * mqState * bool :=
  (maxProcessedCount (mq w), messageTimeoutSecs (mq w), threadState (mq w), signalled w).

Lemma control_flags w w' : control w = control w' → flags w = flags w'.
Proof. unfold control, flags. by intros [= _ -> -> -> ->]. Qed.

(** With the sent hash. *)
Definition full w A F es rest : Prop := winv w A F es rest ∧ km_model (sentHash (mq w)) es.

Lemma check_spec (f : message P → bool) now w A F es rest :
  full w A F es rest →
  ∃ w' A' F' es', checkSentHashForTimeouts f now w = Ok w' ∧ full w' A' F' es' rest ∧
    flags w' = flags w ∧ zlen es' ≤ zlen es.
Proof.
  intros [Hw Hm]. unfold checkSentHashForTimeouts. case_decide.
  { by exists w, A, F, es. }
  destruct (check_scan f now rest es w A F [] Hw) as (w' & A' & F' & keep & Hs & Hw' & Hc & Hsub).
  destruct (km_scan_law _ _ _ _ _ _ Hm Hs) as (s & -> & Hm'). simpl.
  eexists _, A', F', keep. split; [done|]. split; [|split].
  - split; [|done]. destruct Hw'. by split.
  - apply control_flags in Hc. done.
  - apply sublist_length in Hsub. lia.
Qed.

(** ** Removing *)

Lemma find_id_spec h id (a : addr) m (l : list addr) :
  (∀ x, x ∈ l → ∃ mx, h !! x = Some mx) → h !! a = Some m → messageId m = id →
  (∀ b c mb mc, h !! b = Some mb → h !! c = Some mc → messageId mb = messageId mc → b = c) →
  ∀ o, o ∈ Some <$> l → findMessageIdInQueue h id o = Ok (bool_decide (o = Some a)).
Proof.
  intros Hl Ha Hid Hinj o (x & -> & Hx)%list_elem_of_fmap. destruct (Hl x Hx) as [mx Hmx].
  unfold findMessageIdInQueue. simpl. rewrite Hmx. simpl. f_equal. apply bool_decide_ext.
  split; [intros He; f_equal; by eapply Hinj; [| |rewrite He]|intros [= ->]; congruence].
Qed.

Lemma find_id_none h id (l : list addr) :
  (∀ x, x ∈ l → ∃ mx, h !! x = Some mx ∧ messageId mx ≠ id) →
  ∀ o, o ∈ Some <$> l → findMessageIdInQueue h id o = Ok false.
Proof.
  intros Hl o (x & -> & Hx)%list_elem_of_fmap. destruct (Hl x Hx) as (mx & Hmx & Hne).
  unfold findMessageIdInQueue. simpl. rewrite Hmx. simpl. by rewrite bool_decide_false.
Qed.

Lemma find_first_false (l : list (option addr)) : find_first (λ _, false) l = None.
Proof. by induction l. Qed.

(** Deleting the first message with the pointer from a queue. *)
Lemma delete_from q (l : list addr) (a : addr) {S} (v : S) f :
  qrepr q (Some <$> l) → NoDup l → (∀ o, o ∈ Some <$> l → f v o = Ok (bool_decide (o = Some a))) →
  ∃ rel q', queueDelete (Some q) v f = Ok (bool_decide (a ∈ l), rel, Some q') ∧ qrepr q' (Some <$> without a l).
Proof.
  intros Hq Hnd Hf. pose proof (qrepr_delete q _ v f (λ o, bool_decide (o = Some a)) Hq Hf) as Hd.
  assert (Hp : ∀ x, x ∈ l → bool_decide (Some x = Some a) = bool_decide (x = a)).
  { intros x _. apply bool_decide_ext. naive_solver. }
  rewrite (find_first_some _ a l Hp) in Hd. destruct (decide (a ∈ l)) as [Hin|Hin].
  - destruct Hd as (q' & -> & Hq'). rewrite (delete_first_some _ a l Hnd Hp) in Hq'.
    eexists _, q'. by rewrite bool_decide_true.
  - eexists _, q. rewrite Hd, bool_decide_false, without_notin by done. done.
Qed.

Lemma find_in q (l : list addr) (a : addr) {S} (v : S) f :
  qrepr q (Some <$> l) → (∀ o, o ∈ Some <$> l → f v o = Ok (bool_decide (o = Some a))) →
  queueFind (Some q) v f = Ok (if decide (a ∈ l) then Some a else None).
Proof.
  intros Hq Hf. rewrite (qrepr_find q _ v f (λ o, bool_decide (o = Some a)) Hq Hf), (find_first_some _ a l).
  - by destruct (decide (a ∈ l)).
  - intros x _. apply bool_decide_ext. naive_solver.
Qed.

Lemma core_A_nodup h A F es rest : core h A F es rest → NoDup A ∧ NoDup F.
Proof.
  intros Hc. pose proof (core_nodup _ _ _ _ _ Hc) as Hnd. apply NoDup_app in Hnd as (HA & _).
  split; [done|]. by eapply sublist_NoDup, Hc.
Qed.

(** A waiting message leaves both sets. *)
Lemma core_take_all h A F es rest a :
  core h A F es rest → a ∈ A → core h (without a A) (without a F) es (a :: rest).
Proof.
  intros Hc Ha. apply (core_move _ A F es rest); [done| |by apply without_sublist, Hc|apply Hc].
  rewrite (without_perm a A) at 1; [|by apply (core_A_nodup _ _ _ _ _ Hc)|done]. solve_Permutation.
Qed.

(** A sent message leaves the hash. *)
Lemma core_take_sent h A F es rest k a es' :
  core h A F es rest → es ≡ₚ (k, a) :: es' → core h A F es' (a :: rest).
Proof.
  intros Hc Hp. apply (core_move _ A F es rest); [done| |apply Hc|].
  - rewrite Hp. simpl. solve_Permutation.
  - intros k' b m Hin. apply (c_keys _ _ _ _ _ Hc). rewrite Hp. by right.
Qed.

Lemma sent_lookup w A F es rest a m :
  full w A F es rest → a ∈ es.*2 → heap w !! a = Some m →
  km_get (sentHash (mq w)) (id_key (messageId m)) = Ok (Some a) ∧
  ∃ s es', km_delete (sentHash (mq w)) (id_key (messageId m)) = Ok (Some a, s) ∧ km_model s es' ∧
    es ≡ₚ (id_key (messageId m), a) :: es'.
Proof.
  intros [Hw Hm] ([k a'] & -> & Hin)%list_elem_of_fmap Ha. simpl in *.
  destruct (c_keys _ _ _ _ _ (w_core _ _ _ _ _ Hw) k a' m Hin Ha) as [-> _]. split.
  - rewrite (km_get_law _ _ _ Hm (id_key_ok _)), (elem_of_list_to_map_1 es _ a'); [done| |done].
    by eapply km_nodup.
  - by apply km_delete_present; [|apply id_key_ok|].
Qed.

Lemma sent_absent w A F es rest id :
  full w A F es rest → 0 ≤ id < 18446744073709551616 →
  (∀ a m, a ∈ es.*2 → heap w !! a = Some m → messageId m ≠ id) → id_key id ∉ es.*1.
Proof.
  intros [Hw _] Hid Hno ([k a] & Hk & Hin)%list_elem_of_fmap. simpl in Hk. subst k.
  assert (Ha : a ∈ es.*2) by (apply list_elem_of_fmap; by exists (id_key id, a)).
  destruct (core_live _ _ _ _ _ a (w_core _ _ _ _ _ Hw)) as [m Hm]; [set_solver|].
  destruct (c_keys _ _ _ _ _ (w_core _ _ _ _ _ Hw) _ _ _ Hin Hm) as [Hk _].
  apply (Hno a m Ha Hm). symmetry. apply id_key_inj; [done| |done].
  apply (c_msgs _ _ _ _ _ (w_core _ _ _ _ _ Hw) a m Hm).
Qed.

Lemma sent_none w A F es rest id :
  full w A F es rest → id_key id ∉ es.*1 →
  km_get (sentHash (mq w)) (id_key id) = Ok None ∧ km_delete (sentHash (mq w)) (id_key id) = Ok (None, sentHash (mq w)).
Proof.
  intros [_ Hm] Hk. rewrite (km_get_law _ _ _ Hm (id_key_ok _)). split.
  - by rewrite not_elem_of_list_to_map_1.
  - by eapply km_delete_absent; [|apply id_key_ok|].
Qed.

Lemma search_id h id (l : list addr) :
  (∃ a m, a ∈ l ∧ h !! a = Some m ∧ messageId m = id) ∨ (∀ a m, a ∈ l → h !! a = Some m → messageId m ≠ id).
Proof.
  induction l as [|b l IH]; [right; set_solver|]. destruct IH as [(a & m & Ha & Hm & He)|IH].
  { left. exists a, m. set_solver. }
  destruct (h !! b) as [mb|] eqn:Hb; [destruct (decide (messageId mb = id))|].
  - left. exists b, mb. set_solver.
  - right. intros a m [->|Ha]%elem_of_cons Hm; [congruence|eauto].
  - right. intros a m [->|Ha]%elem_of_cons Hm; [congruence|eauto].
Qed.

(** The message with an id, wherever it waits, is taken out of the sets. *)
Lemma remove_spec w A F es rest id :
  full w A F es rest → 0 ≤ id < 18446744073709551616 →
  ∃ r w' A' F' es', messageQueueRemove id w = Ok (r, w') ∧
    full w' A' F' es' (match r with Some (a, _) => a :: rest | None => rest end) ∧
    heap w' = heap w ∧ log w' = log w ∧ flags w' = flags w ∧ F' `sublist_of` F ∧ zlen es' ≤ zlen es ∧
    match r with
    | Some (a, sent) => a ∈ (if sent : bool then es.*2 else A) ∧ ∃ m, heap w !! a = Some m ∧ messageId m = id
    | None => ∀ a m, a ∈ A ++ es.*2 → heap w !! a = Some m → messageId m ≠ id
    end.
Proof.
  intros Hf Hid. pose proof Hf as [[[HA HF] Hc Hl] Hm].
  assert (HlA : ∀ x, x ∈ A → ∃ mx, heap w !! x = Some mx) by (intros x Hx; eapply core_live; [done|set_solver]).
  assert (HlF : ∀ x, x ∈ F → ∃ mx, heap w !! x = Some mx).
  { intros x Hx. apply HlA. eapply elem_of_sublist; [done|apply Hc]. }
  destruct (core_A_nodup _ _ _ _ _ Hc) as [HnA HnF]. unfold messageQueueRemove.
  destruct (search_id (heap w) id A) as [(a & m & Ha & Hm' & He)|Hno].
  - pose proof (find_id_spec (heap w) id a m A HlA Hm' He (c_ids _ _ _ _ _ Hc)) as HpA.
    pose proof (find_id_spec (heap w) id a m F HlF Hm' He (c_ids _ _ _ _ _ Hc)) as HpF.
    destruct (delete_from _ F a id (findMessageIdInQueue (heap w)) HF HnF HpF) as (rf & qf & -> & HF').
    oread. cbn [set_filter set_mq mq allSet heap]. rewrite (find_in _ A a _ _ HA HpA), decide_True by done. oread.
    destruct (delete_from _ A a id (findMessageIdInQueue (heap w)) HA HnA HpA) as (ra & qa & -> & HA').
    rewrite bool_decide_true by done. oread. simpl.
    eexists (Some (a, false)), _, (without a A), (without a F), es. split; [done|].
    split; [|split_and!; try done; [apply sublist_filter|by exists m]].
    split; [|done]. split; [by split| |done]. simpl. by apply core_take_all.
  - assert (HnoA : ∀ x, x ∈ A → ∃ mx, heap w !! x = Some mx ∧ messageId mx ≠ id).
    { intros x Hx. destruct (HlA x Hx) as [mx Hmx]. exists mx. split; [done|]. by apply (Hno x). }
    assert (HnoF : ∀ x, x ∈ F → ∃ mx, heap w !! x = Some mx ∧ messageId mx ≠ id).
    { intros x Hx. apply HnoA. eapply elem_of_sublist; [done|apply Hc]. }
    pose proof (qrepr_delete _ _ id _ (λ _, false) HF (find_id_none _ _ _ HnoF)) as Hd.
    rewrite find_first_false in Hd. rewrite Hd. oread. cbn [set_filter set_mq mq allSet heap sentHash].
    rewrite (qrepr_find _ _ id _ (λ _, false) HA (find_id_none _ _ _ HnoA)), find_first_false. simpl.
    destruct (search_id (heap w) id es.*2) as [(a & m & Ha & Hm' & <-)|Hno2].
    + destruct (sent_lookup w A F es rest a m Hf Ha Hm') as (-> & s & es' & Hdel & Hm2 & Hp). simpl. rewrite Hdel. simpl.
      assert (zlen es' ≤ zlen es) by (apply Permutation_length in Hp; simpl in Hp; lia).
      eexists (Some (a, true)), _, A, F, es'. split; [done|]. split; [|split_and!; try done; by exists m].
      split; [|done]. split; [by split| |done]. simpl. by eapply core_take_sent.
    + destruct (sent_none w A F es rest id Hf) as [-> _].
      { by apply (sent_absent w A F es rest). }
      simpl. eexists None, _, A, F, es. split; [done|]. split; [|split_and!; try done].
      * split; [|done]. by split.
      * intros a m [Ha|Ha]%elem_of_app; eauto.
Qed.

(** ** Clearing *)

Lemma notify_all_spec A F es rest l : ∀ w,
  winv w A F es (l ++ rest) →
  ∃ w', foldM (λ a w, notifyFunc a false MESSAGE_FAIL_REASON_REMOVE w) l w = Ok w' ∧
    winv w' A F es rest ∧ control w' = control w.
Proof.
  induction l as [|a l IH]; intros w Hw.
  { by exists w. }
  destruct (notify_spec w A F es a (l ++ rest) false MESSAGE_FAIL_REASON_REMOVE Hw) as [Hn Hw1].
  cbn [foldM]. rewrite Hn. obind. destruct (IH _ Hw1) as (w' & -> & Hw' & Hc). by exists w'.
Qed.

Lemma clear_all_spec es rest A : ∀ fuel w,
  winv w A [] es rest → (length A ≤ fuel)%nat →
  ∃ w', clear_all_loop fuel w = Ok w' ∧ winv w' [] [] es rest ∧ control w' = control w.
Proof.
  induction A as [|a A IH]; intros fuel w [[HA HF] Hc Hl] Hf.
  - assert (Hp : queuePop (Some (allSet (mq w))) = Ok (None, Some (allSet (mq w)))) by apply (qrepr_pop _ _ HA).
    destruct fuel; simpl; rewrite Hp; simpl; (eexists; split; [done|]; split; [|done]); by split.
  - destruct fuel as [|fuel]; simpl in Hf; [lia|]. destruct (qrepr_pop _ _ HA) as (q & Hp & Hq).
    cbn [clear_all_loop]. rewrite Hp. oread.
    assert (Hw : winv (set_all w q) A [] es (a :: rest)).
    { split; [by split| |done]. simpl. apply (core_move _ (a :: A) [] es rest); [done|solve_Permutation| |apply Hc].
      apply sublist_nil_l. }
    destruct (notify_spec _ _ _ _ _ _ false MESSAGE_FAIL_REASON_REMOVE Hw) as [-> Hw1]. obind.
    destruct (IH fuel _ Hw1) as (w' & -> & Hw' & Hct); [lia|]. by exists w'.
Qed.

Lemma mq_clear_spec w A F es rest :
  full w A F es rest →
  ∃ w', messageQueueClear w = Ok w' ∧ full w' [] [] [] rest ∧ flags w' = flags w.
Proof.
  intros [[[HA HF] Hc Hl] Hm]. unfold messageQueueClear.
  destruct (qrepr_clear _ _ HF) as (qf & -> & HF'). oread. cbn [set_filter set_mq mq sentHash].
  rewrite (km_foreach_law _ _ _ _ Hm).
  assert (Hw : winv (set_filter w qf) A [] [] (es.*2 ++ rest)).
  { split; [by split| |done]. simpl.
    apply (core_move _ A F es rest); [done|done|apply sublist_nil_l|]. intros k a m []%not_elem_of_nil. }
  destruct (notify_all_spec _ _ _ _ _ _ Hw) as (w1 & -> & Hw1 & Hc1). obind.
  pose proof Hc1 as [= Hs1 _ _ _ _]. rewrite Hs1. destruct (km_clear_law _ _ Hm) as (s & Hs & Hm'). cbn [set_filter set_mq mq sentHash]. rewrite Hs. obind.
  assert (Hw2 : winv (set_sent w1 s) A [] [] rest) by (destruct Hw1; by split).
  destruct (clear_all_spec [] rest A (size (q_nodes (allSet (mq (set_sent w1 s))))) _ Hw2) as (w2 & -> & Hw3 & Hc2).
  { destruct Hw2 as [[(ns & Hr & Hns) _] _ _]. rewrite (queue_fuel _ _ Hr).
    apply (f_equal length) in Hns. rewrite !length_fmap in Hns. lia. }
  exists w2. split; [done|]. pose proof Hc2 as [= Hs2 _ _ _ _]. split; [split; [done|by rewrite Hs2]|].
  apply control_flags in Hc1, Hc2. transitivity (flags w1); [exact Hc2|exact Hc1].
Qed.

(** Destroying an idle queue ends the life of every message and leaves
    nothing for the queues and the hash to release. *)
Lemma mq_destroy_spec w A F es :
  full w A F es [] → ∃ w', messageQueueDestroy w = Ok ([], w') ∧ heap w' = ∅.
Proof.
  intros Hf. unfold messageQueueDestroy. destruct (mq_clear_spec _ _ _ _ _ Hf) as (w' & -> & [[[HA HF] Hc _] Hm] & _). obind.
  rewrite (qrepr_destroy_nil _ HA), (qrepr_destroy_nil _ HF). obind.
  destruct (km_clear_law _ _ Hm) as (s & -> & _). obind. eexists. split; [done|].
  pose proof (c_part _ _ _ _ _ Hc) as Hn. simpl in Hn. apply Permutation_nil_r, fmap_nil_inv in Hn.
  by apply map_to_list_empty_iff.
Qed.

(** ** Replies *)

Lemma full_complete w A F es rest k a es' s :
  full w A F es rest → es ≡ₚ (k, a) :: es' → km_model s es' →
  full (complete a (set_sent w s)) A F es' rest.
Proof.
  intros [[Hs Hc Hl] Hm] Hp Hm'. split; [|done]. pose proof (core_take_sent _ _ _ _ _ _ _ _ Hc Hp) as Hc'.
  split; simpl; [done|by apply core_delete|]. apply life_end; [done| |done|done].
  destruct (core_live _ _ _ _ _ a Hc') as [m Hm2]; [set_solver|by exists m].
Qed.

Lemma full_broadcast w A F es rest : full w A F es rest → full (broadcast_if_running w) A F es rest.
Proof. unfold broadcast_if_running. intros [[] ?]. by case_decide. Qed.

Lemma completed_spec w A F es rest id payload :
  full w A F es rest → 0 ≤ id < 18446744073709551616 →
  ∃ r w' es', messageQueueCompleted id payload w = Ok (r, w') ∧ full w' A F es' rest ∧
    zlen es' ≤ zlen es ∧ threadState (mq w') = threadState (mq w) ∧ maxProcessedCount (mq w') = maxProcessedCount (mq w) ∧
    (signalled w' = false → signalled w = false).
Proof.
  intros Hf Hid. unfold messageQueueCompleted. destruct (search_id (heap w) id es.*2) as [(a & m & Ha & Hm & <-)|Hno].
  - destruct (sent_lookup w A F es rest a m Hf Ha Hm) as (-> & s & es' & Hdel & Hm' & Hp). oread. rewrite Hm. oread.
    destruct (match payload, _ with Some p, Some f => f p | _, _ => true end).
    + rewrite Hdel. obind. eexists _, _, es'. split; [done|].
      assert (Hl : zlen es' ≤ zlen es) by (apply Permutation_length in Hp; simpl in Hp; lia).
      pose proof (full_complete _ _ _ _ _ _ _ _ _ Hf Hp Hm') as Hf'.
      unfold broadcast_if_running. simpl. case_decide; split_and!; try done; destruct Hf' as [[] ?]; by split.
    + by exists None, w, es.
  - destruct (sent_none w A F es rest id Hf) as [-> _]; [by apply (sent_absent w A F es rest)|].
    by exists None, w, es.
Qed.

Lemma search_scan (f : message P → bool) h es :
  (∀ k a, (k, a) ∈ es → ∃ m, h !! a = Some m) →
  let body := λ a (r : option addr), m ← of_option (h !! a);
    if f m then Ok (mkVerdict true true, Some a) else Ok (mkVerdict false false, r) in
  scan_pairs body es None = Ok (None, es) ∨
  ∃ k a es', scan_pairs body es None = Ok (Some a, es') ∧ es ≡ₚ (k, a) :: es'.
Proof.
  intros Hl body. induction es as [|[k a] es IH]; [by left|].
  destruct (Hl k a) as [m Hm]; [by left|].
  assert (Hb : ∀ r, body a r = if f m then Ok (mkVerdict true true, Some a) else Ok (mkVerdict false false, r))
    by (intros r; unfold body; by rewrite Hm).
  cbn [scan_pairs snd]. rewrite Hb. clearbody body. destruct (f m); simpl.
  { right. by exists k, a, es. }
  destruct IH as [->|(k' & b & es' & -> & Hp)]; [by intros; eapply Hl; right|by left|].
  right. exists k', b, ((k, a) :: es'). split; [done|]. rewrite Hp. by constructor.
Qed.

Lemma custom_search_spec (f : message P → bool) w A F es rest :
  full w A F es rest →
  ∃ r w' es', messageQueueCompletedCustomSearch f w = Ok (r, w') ∧ full w' A F es' rest ∧
    zlen es' ≤ zlen es ∧ flags w' = flags w.
Proof.
  intros Hf. pose proof Hf as [[Hs Hc Hl] Hm]. unfold messageQueueCompletedCustomSearch.
  destruct (search_scan f (heap w) es) as [Hsc|(k & a & es' & Hsc & Hp)].
  - intros k a Hin. eapply core_live; [done|]. apply elem_of_app. right. apply elem_of_app. left.
    apply list_elem_of_fmap. by exists (k, a).
  - destruct (km_scan_law _ _ _ _ _ _ Hm Hsc) as (s & -> & Hm'). simpl. eexists None, _, es.
    split; [done|]. split; [split; [by split|done]|done].
  - destruct (km_scan_law _ _ _ _ _ _ Hm Hsc) as (s & -> & Hm'). simpl. eexists (Some a), _, es'.
    split; [done|]. split; [by eapply full_complete|]. split; [|done].
    apply Permutation_length in Hp. simpl in Hp. lia.
Qed.

(** ** Filtering *)

(** The waiting messages that pass the filter, in order. *)
Definition passing (f : message P → bool) h A : list addr :=
  filter (λ a, match h !! a with Some m => f m | None => false end = true) A.

Lemma passing_sublist f h A : passing f h A `sublist_of` A.
Proof. apply sublist_filter. Qed.

Lemma filter_iterate (f : message P → bool) A0 : ∀ A w F,
  sets w A F → (∀ a, a ∈ A0 → ∃ m, heap w !! a = Some m) → zlen F + zlen A0 ≤ 65535 →
  ∃ q, iterate_list (iterateQueueAndApplyFilter f) (Some <$> A0) w = Ok (set_filter w q) ∧
    qrepr q (Some <$> F ++ passing f (heap w) A0).
Proof.
  induction A0 as [|a A0 IH]; intros A w F Hs Hl Hz.
  { exists (filterSet (mq w)). destruct Hs as [_ HF]. rewrite app_nil_r. split; [|done]. by destruct w as [? []]. }
  destruct (Hl a) as [m Hm]; [by left|].
  assert (iterateQueueAndApplyFilter f (Some a) w
    = if f m then w ← push_filter w a; Ok (true, w) else Ok (true, w)) as Hit
    by (unfold iterateQueueAndApplyFilter; simpl; by rewrite Hm).
  cbn [fmap list_fmap iterate_list]. rewrite Hit. simpl in Hz.
  assert (Hpass : passing f (heap w) (a :: A0) = (if f m then [a] else []) ++ passing f (heap w) A0).
  { unfold passing. rewrite filter_cons, Hm. by destruct (f m). }
  rewrite Hpass. destruct (f m) eqn:Hf.
  - destruct (push_filter_spec w A F a Hs) as (q & -> & Hs1); [lia|]. obind.
    destruct (IH A (set_filter w q) (F ++ [a]) Hs1) as (q2 & -> & Hq2).
    + intros b Hb. apply Hl. by right.
    + rewrite length_app. simpl. lia.
    + exists q2. split; [done|]. by rewrite <-app_assoc in Hq2.
  - apply (IH A); [done| |lia]. intros b Hb. apply Hl. by right.
Qed.

Lemma run_filter_spec (f : message P → bool) w A F es rest :
  full w A F es rest →
  ∃ w', messageQueueRunFilter f w = Ok w' ∧ full w' A (passing f (heap w) A) es rest ∧
    heap w' = heap w ∧ threadState (mq w') = threadState (mq w) ∧ maxProcessedCount (mq w') = maxProcessedCount (mq w) ∧
    (signalled w' = false → signalled w = false ∧ threadState (mq w) ≠ MQ_RUNNING).
Proof.
  intros [[[HA HF] Hc Hl] Hm]. unfold messageQueueRunFilter.
  destruct (qrepr_clear _ _ HF) as (qf & -> & HF'). oread. cbn [set_filter set_mq mq allSet].
  rewrite (qrepr_iterate _ _ _ _ HA). pose proof (core_length _ _ _ _ _ Hc) as Hlen.
  destruct (filter_iterate f A A (set_filter w qf) []) as (q & -> & Hq).
  - by split.
  - intros a Ha. eapply core_live; [done|set_solver].
  - simpl. lia.
  - obind. eexists. split; [done|]. simpl in Hq. split.
    + apply full_broadcast. split; [|done]. split; [by split| |done]. simpl.
      apply (core_move _ A F es rest); [done|done|apply passing_sublist|apply Hc].
    + unfold broadcast_if_running. simpl. case_decide; by split_and!.
Qed.

(** A new message. *)
Lemma append_spec (f : message P → bool) w A F es rest a m :
  full w A F es rest → heap w !! a = None → Z.of_nat (size (heap w)) < 65535 → msg_ok m →
  (∀ b mb, heap w !! b = Some mb → messageId mb ≠ messageId m) →
  let F' := if f m then F ++ [a] else F in
  ∃ w', messageQueueAppend f (Some a) (add_log (set_heap w (<[a := m]> (heap w))) (Appended a)) = Ok w' ∧
    full w' (A ++ [a]) F' es rest ∧ heap w' = <[a := m]> (heap w) ∧
    threadState (mq w') = threadState (mq w) ∧ maxProcessedCount (mq w') = maxProcessedCount (mq w) ∧
    (signalled w' = false → signalled w = false ∧ (threadState (mq w) = MQ_RUNNING → F' = F)).
Proof.
  intros [[Hs Hc Hl] Hm] Ha Hz Hok Hnew F'.
  set (w1 := add_log (set_heap w (<[a := m]> (heap w))) (Appended a)).
  assert (Hw : winv w1 A F es (a :: rest)) by (split; [done|by apply core_insert|by apply life_add]).
  assert (Hm1 : heap w1 !! a = Some m) by (simpl; by rewrite lookup_insert_eq).
  destruct (requeue_spec f w1 A F es a rest m Hw Hm1) as (w2 & Hq & Hw2 & Hh2 & _ & Hc2).
  unfold messageQueueAppend. unfold requeue in Hq.
  destruct (push_all w1 a) as [w3| |] eqn:E3; simpl in Hq |- *; [|done..].
  destruct (push_all_spec w1 A F a Hs) as (q & Eq & _).
  { pose proof (core_length _ _ _ _ _ (w_core _ _ _ _ _ Hw)). simpl in *. lia. }
  rewrite E3 in Eq. injection Eq as Eq. assert (heap w3 !! a = Some m) as Hm3 by (by subst w3).
  rewrite Hm3 in Hq |- *. simpl in Hq |- *. unfold F' in *. pose proof Hc2 as [= Hs2 Hx2 _ Ht2 Hg2]. clear Eq.
  assert (Hfull : full w2 (A ++ [a]) (if f m then F ++ [a] else F) es rest) by (split; [done|by rewrite Hs2]).
  destruct (f m).
  - rewrite Hq. simpl. eexists. split; [done|]. split; [by apply full_broadcast|].
    unfold broadcast_if_running. case_decide as Hrun; simpl; rewrite Hh2, Ht2, ?Hx2, ?Hg2; split_and!; try done.
    intros Hsig. split; [done|]. by rewrite Ht2 in Hrun.
  - injection Hq as ->. eexists. split; [done|]. split; [done|]. rewrite Hh2, Ht2, Hx2, Hg2. by split_and!.
Qed.

(** ** The thread *)

Lemma without_head a F : NoDup (a :: F) → without a (a :: F) = F.
Proof.
  intros [Ha _]%NoDup_cons. unfold without. rewrite filter_cons, decide_False by tauto. by apply without_notin.
Qed.

Lemma send_spec now w A F es rest a :
  full w A (a :: F) es rest →
  ∃ expects w' es', thread_send now w = Ok (Processing a expects, w') ∧
    full w' (without a A) F es' (if expects : bool then rest else a :: rest) ∧
    threadState (mq w') = MQ_PROCESSING ∧ maxProcessedCount (mq w') = maxProcessedCount (mq w) ∧
    zlen es' ≤ zlen es + 1 ∧ log w' = log w ++ [Sent a] ∧
    (∃ m, heap w' !! a = Some m ∧ expectsReply m = expects) ∧ (expects = true → a ∈ es'.*2).
Proof.
  intros Hf. pose proof Hf as [[[HA HF] Hc Hl] Hm]. destruct (core_A_nodup _ _ _ _ _ Hc) as [HnA HnF].
  assert (Ha : a ∈ A) by (eapply elem_of_sublist; [by left|apply Hc]).
  unfold thread_send. destruct (qrepr_pop _ _ HF) as (qf & -> & HF'). oread.
  destruct (delete_from _ A a a findMessageInQueue HA HnA) as (ra & qa & Hd & HA').
  { intros o _. unfold findMessageInQueue. f_equal. by apply bool_decide_ext. }
  cbn [set_filter set_mq mq allSet]. rewrite Hd. oread. cbn [set_all set_filter set_mq mq heap sentHash].
  destruct (core_live _ _ _ _ _ a Hc) as [m Hma]; [set_solver|]. rewrite Hma. oread.
  pose proof (core_take_all _ _ _ _ _ a Hc Ha) as Hc1. rewrite without_head in Hc1 by done.
  pose proof (c_msgs _ _ _ _ _ Hc a m Hma) as Hok.
  destruct (expectsReply m) eqn:He; cycle 1.
  { eexists false, _, es. split; [done|]. split; [split; [split; [by split|exact Hc1|by apply life_sent]|exact Hm]|]. split_and!; try done; [simpl; lia|by exists m]. }
  destruct (km_put_new _ _ (id_key (messageId m)) a Hm (id_key_ok _)) as (s & es' & -> & Hm' & Hp).
  { apply (sent_absent w A (a :: F) es rest); [done|apply Hok|]. intros b mb Hb Hmb Hid.
    assert (b = a) as -> by (eapply (c_ids _ _ _ _ _ Hc); done). by destruct (core_outside _ _ _ _ _ _ Hc1). }
  { pose proof (core_length _ _ _ _ _ Hc1). simpl in *. lia. }
  obind. set (m1 := set_tracker m _).
  eexists true, _, es'. split; [done|].
  assert (Ht : tracker m1 ≠ None) by (simpl; by destruct (tracker m)).
  assert (Hc2 : core (<[a := m1]> (heap w)) (without a A) F es (a :: rest)).
  { eapply core_update; [done|done|done|done|]. by intros Hx%(core_outside _ _ _ _ _ _ Hc1). }
  split; [split; [split; [by split| |by eapply life_sent, life_update]|done]|].
  - simpl. apply (core_move _ (without a A) F es (a :: rest)); [done| |apply Hc2|].
    + rewrite Hp. simpl. solve_Permutation.
    + intros k b mb Hin Hb. rewrite Hp in Hin. apply elem_of_cons in Hin as [[= -> ->]|Hin].
      * rewrite lookup_insert_eq in Hb. injection Hb as <-. by split_and!.
      * by apply (c_keys _ _ _ _ _ Hc2 k b mb).
  - pose proof (Permutation_length Hp) as Hlen. simpl in Hlen. split_and!; try done.
    + lia.
    + exists m1. simpl. by rewrite lookup_insert_eq.
    + intros _. rewrite Hp. by left.
Qed.

(** The message in the hands of the delegate leaves the sent hash. *)
Lemma take_flight w A F es rest a m expects :
  full w A F es (if expects : bool then rest else a :: rest) → heap w !! a = Some m →
  (expects = true → a ∈ es.*2) →
  ∃ r s es', km_delete (sentHash (mq w)) (id_key (messageId m)) = Ok (r, s) ∧
    full (set_sent w s) A F es' (a :: rest) ∧ zlen es' ≤ zlen es.
Proof.
  intros Hf Ha Hin. pose proof Hf as [[Hs Hc Hl] Hm]. destruct expects.
  - destruct (sent_lookup w A F es rest a m Hf (Hin eq_refl) Ha) as (_ & s & es' & -> & Hm' & Hp).
    eexists _, s, es'. split; [done|]. pose proof (Permutation_length Hp) as Hlen. simpl in Hlen. split; [|lia].
    split; [|done]. split; simpl; [done|by eapply core_take_sent|done].
  - destruct (sent_none w A F es (a :: rest) (messageId m) Hf) as [_ ->].
    { apply (sent_absent w A F es (a :: rest)); [done|apply (c_msgs _ _ _ _ _ Hc a m Ha)|].
      intros b mb Hb Hmb Hid. assert (b = a) as -> by (eapply (c_ids _ _ _ _ _ Hc); done).
      by destruct (core_outside _ _ _ _ _ _ Hc). }
    eexists _, _, es. split; [done|]. split; [|done]. split; [|done]. by split.
Qed.

(** The end of a segment of the thread that leaves no message in its hands. *)
Definition settled w w' A' F' es' rest (es : list (cstring * addr)) : Prop :=
  full w' A' F' es' rest ∧ threadState (mq w') = MQ_RUNNING ∧ maxProcessedCount (mq w') = maxProcessedCount (mq w) ∧
  zlen es' ≤ zlen es.

Lemma drop_spec w A F es0 es rest a b r :
  full w A F es (a :: rest) → threadState (mq w) = MQ_RUNNING → zlen es ≤ zlen es0 →
  ∃ w', notifyFunc a b r w = Ok w' ∧ settled w w' A F es rest es0.
Proof.
  intros [Hw Hm] Ht Hz. destruct (notify_spec w A F es a rest b r Hw) as [-> Hw'].
  eexists. split; [done|]. by split_and!.
Qed.

Lemma pause_cases d w : threadState (mq w) = MQ_RUNNING →
  pause d w = (Top, w) ∨ pause d w = (Delay, set_signalled w false).
Proof.
  intros Ht. unfold pause. rewrite Ht. rewrite bool_decide_true by done. destruct d; [by right|by left].
Qed.

Lemma settled_pause d w w' A F es rest es0 :
  settled w w' A F es rest es0 →
  ∃ p w2, Ok (pause d w') = Ok (p, w2) ∧ (p = Top ∨ p = Delay) ∧ settled w w2 A F es rest es0.
Proof.
  intros Hs. pose proof Hs as (Hf & Ht & Hx & Hz).
  destruct (pause_cases d w' Ht) as [->| ->]; eexists _, _; (split; [done|]); (split; [auto|]); [done|].
  destruct Hf as [[] ?]. by split_and!.
Qed.

Lemma requeue_settled (f : message P → bool) w A F es0 es rest a :
  full w A F es (a :: rest) → threadState (mq w) = MQ_RUNNING → zlen es ≤ zlen es0 →
  ∃ w' F', requeue f a w = Ok w' ∧ settled w w' (A ++ [a]) F' es rest es0.
Proof.
  intros [Hw Hm] Ht Hz. destruct (core_live _ _ _ _ _ a (w_core _ _ _ _ _ Hw)) as [m Ha]; [set_solver|].
  destruct (requeue_spec f w A F es a rest m Hw Ha) as (w' & -> & Hw' & _ & _ & Hc).
  pose proof Hc as [= Hs Hx _ Ht' _]. eexists w', _. split; [done|].
  split_and!; [split; [exact Hw'|by rewrite Hs]|by rewrite Ht'|done|done].
Qed.

(** A failed send counts as an error: the message is given up or queued
    again. *)
Lemma failure_spec (f : message P → bool) w A F es0 es rest a m :
  full w A F es (a :: rest) → threadState (mq w) = MQ_RUNNING → zlen es ≤ zlen es0 → heap w !! a = Some m →
  let m' := count_error m in
  let w1 := set_heap w (<[a := m']> (heap w)) in
  ∃ w' A' F', settled w w' A' F' es rest es0 ∧
    if decide (numRetries m' < errorCount m') then notifyFunc a false MESSAGE_FAIL_REASON_RETRY_MAX w1 = Ok w'
    else requeue f a w1 = Ok w'.
Proof.
  intros [[Hs Hc Hl] Hm] Ht Hz Ha m' w1. case_decide as Hd.
  - unfold notifyFunc. simpl. rewrite lookup_insert_eq. simpl. rewrite delete_insert_eq.
    eexists _, A, F. split; [|done]. split_and!; try done. split; [|done]. split; simpl; [done|by apply core_delete|].
    by apply life_end; [|exists m| |].
  - assert (Hf1 : full w1 A F es (a :: rest)).
    { split; [|done]. split; simpl; [done| |by eapply life_update].
      eapply core_update; [done|done|done| |by intros Hx%(core_outside _ _ _ _ _ _ Hc)].
      apply count_error_ok; [by apply (c_msgs _ _ _ _ _ Hc a)|]. simpl in *. lia. }
    destruct (requeue_settled f w1 A F es0 es rest a Hf1 Ht Hz) as (w' & F' & Hq & Hset).
    by exists w', (A ++ [a]), F'.
Qed.

Lemma unsend_spec now a expects w A F es rest m :
  full w A F es (if expects : bool then rest else a :: rest) → threadState (mq w) = MQ_RUNNING →
  heap w !! a = Some m → (expects = true → a ∈ es.*2) →
  ∃ w' es', unsend m (stop_tracker now a m w) = Ok w' ∧ full w' A F es' (a :: rest) ∧ zlen es' ≤ zlen es ∧
    threadState (mq w') = MQ_RUNNING ∧ maxProcessedCount (mq w') = maxProcessedCount (mq w).
Proof.
  intros Hf Ht Ha Hes. set (w2 := stop_tracker now a m w).
  assert (He : expects = true → expectsReply m = true).
  { intros ([k b] & -> & Hin)%Hes%list_elem_of_fmap. destruct Hf as [[_ Hc _] _]. by apply (c_keys _ _ _ _ _ Hc k b). }
  assert (∃ m2, heap w2 !! a = Some m2 ∧ messageId m2 = messageId m ∧
    full w2 A F es (if expects then rest else a :: rest) ∧ mq w2 = mq w) as (m2 & Ha2 & Hid2 & Hf2 & Hq2).
  { unfold w2, stop_tracker. destruct (tracker m) as [t|] eqn:Et; [|by exists m]. eexists. simpl. rewrite lookup_insert_eq.
    split_and!; try done. destruct Hf as [[Hs Hc Hl] Hm]. split; [|done]. split; simpl; [done| |by eapply life_update].
    eapply core_update; [done|done|done|apply (c_msgs _ _ _ _ _ Hc a m Ha)|]. intros Hx. split; [|done].
    destruct expects; [by apply He|]. by destruct (core_outside _ _ _ _ _ _ Hc). }
  unfold unsend. rewrite <-Hid2. destruct (expectsReply m).
  - destruct (take_flight w2 A F es rest a m2 expects Hf2 Ha2 Hes) as (r & s & es' & -> & Hf' & Hz).
    eexists _, es'. split; [done|]. split; [done|]. simpl. rewrite Hq2. by split_and!.
  - destruct expects; [by specialize (He eq_refl)|].
    exists w2, es. rewrite Hq2. split; [done|]. split; [exact Hf2|]. by split_and!.
Qed.

(** What happens to a message the delegate could not send. *)
Lemma unsent_spec (f : message P → bool) now a expects rc w A F es rest m :
  full w A F es (if expects : bool then rest else a :: rest) → threadState (mq w) = MQ_PROCESSING →
  heap w !! a = Some m → (expects = true → a ∈ es.*2) →
  rc ≠ PROCESS_MSG_SUCCESS → rc ≠ PROCESS_MSG_SUCCESS_HANDLED →
  ∃ d w' A' F' es', thread_processed f now a expects rc w = Ok (pause d w') ∧ settled w w' A' F' es' rest es.
Proof.
  intros Hf0 Hst Ha Hes Hrc Hrh. unfold thread_processed. rewrite decide_True by done.
  set (w1 := broadcast (set_state w MQ_RUNNING)).
  assert (Hf : full w1 A F es (if expects then rest else a :: rest)) by (destruct Hf0 as [[] ?]; by split).
  assert (Ha1 : heap w1 !! a = Some m) by done. rewrite Ha1.
  destruct (unsend_spec now a expects w1 A F es rest m Hf eq_refl Ha1 Hes) as (w3 & es3 & Hd & Hf3 & Hz3 & Ht3 & Hx3).
  assert (Hset : ∀ w' A' F' es', settled w3 w' A' F' es' rest es → settled w w' A' F' es' rest es).
  { intros w' A' F' es' (? & ? & Hx & ?). split_and!; try done. by rewrite Hx, Hx3. }
  destruct (core_live _ _ _ _ _ a (w_core _ _ _ _ _ (proj1 Hf3))) as [m3 Ha3]; [set_solver|].
  destruct rc; try done; oread; rewrite Hd; obind.
  - destruct (drop_spec w3 A F es es3 rest a false MESSAGE_FAIL_REASON_INVALID Hf3 Ht3 Hz3) as (w' & -> & Hs). obind.
    eexists _, w', A, F, es3. split; [done|]. by apply Hset.
  - rewrite Ha3. oread.
    destruct (failure_spec f w3 A F es es3 rest a m3 Hf3 Ht3 Hz3 Ha3) as (w' & A' & F' & Hs & Hr).
    case_decide; rewrite Hr; obind; eexists _, w', A', F', es3; (split; [done|]); by apply Hset.
  - destruct (requeue_settled f w3 A F es es3 rest a Hf3 Ht3 Hz3) as (w' & F' & -> & Hs). obind.
    eexists _, w', _, F', es3. split; [done|]. by apply Hset.
Qed.

Lemma processed_spec (f : message P → bool) now a expects rc w A F es rest :
  full w A F es (if expects : bool then rest else a :: rest) → threadState (mq w) = MQ_PROCESSING →
  (expects = true → rc ≠ PROCESS_MSG_SUCCESS → a ∈ es.*2) →
  ∃ p w' A' F' es', thread_processed f now a expects rc w = Ok (p, w') ∧ (p = Top ∨ p = Delay) ∧
    settled w w' A' F' es' rest es.
Proof.
  intros Hf0 Hst Hin.
  assert (∃ d w' A' F' es', thread_processed f now a expects rc w = Ok (pause d w') ∧ settled w w' A' F' es' rest es)
    as (d & w' & A' & F' & es' & -> & Hs); cycle 1.
  { destruct (settled_pause d _ _ _ _ _ _ _ Hs) as (p & w2 & ? & ? & ?). by exists p, w2, A', F', es'. }
  set (w1 := broadcast (set_state w MQ_RUNNING)).
  assert (Hf : full w1 A F es (if expects then rest else a :: rest)) by (destruct Hf0 as [[] ?]; by split).
  destruct (decide (rc = PROCESS_MSG_SUCCESS)) as [->|Hrc].
  { unfold thread_processed. rewrite decide_True by done. fold w1. destruct expects; obind.
    - exists false, w1, A, F, es. split; [done|]. by split_and!.
    - destruct (drop_spec w1 A F es es rest a true MESSAGE_FAIL_REASON_NONE Hf eq_refl) as (w' & -> & Hs); [done|]. obind.
      by exists false, w', A, F, es. }
  assert (Hes : expects = true → a ∈ es.*2) by auto.
  destruct (core_live _ _ _ _ _ a (w_core _ _ _ _ _ (proj1 Hf0))) as [m Ha].
  { destruct expects; [specialize (Hes eq_refl)|]; set_solver. }
  destruct (decide (rc = PROCESS_MSG_SUCCESS_HANDLED)) as [->|Hrh]; [|by eapply unsent_spec].
  unfold thread_processed. rewrite decide_True by done. fold w1.
  assert (Ha1 : heap w1 !! a = Some m) by done. rewrite Ha1. oread.
  destruct (take_flight w1 A F es rest a m expects Hf Ha1 Hes) as (r & s & es' & -> & Hf' & Hz). obind.
  destruct (drop_spec _ A F es es' rest a true MESSAGE_FAIL_REASON_NONE Hf' eq_refl) as (w' & -> & Hs); [done|]. obind.
  by exists false, w', A, F, es'.
Qed.

End Spec.
End MQSpec.
