(* ===== verification/MessageQueueTheorems.v ===== *)
(** * Behaviour of the message queue under all interleavings

    Clients and the thread of the queue take turns; [contract] states what
    the users of the queue have to keep to.  Then no segment faults, every
    message is in exactly one place, and its life ends exactly once; the
    thread never sleeps next to a message it could send.  Removing a message
    while it is being sent is not covered: it leaves a dangling pointer in
    the queue. *)

From S2P Require Import Prelude LinkedList LinkedListSpec Queue HashMapIter KeyMap Time MessageQueue MessageQueueSpec.
Import LinkedList ListSpec Queue MapIter KeyMap Time MessageQueue MQSpec.

Module MQTheorems.
Section Theorems.
Context {M : Type} `{KeyMapLaws M addr} {P : Type}.
Implicit Types (s : sys M P) (w : world M P) (A F : list addr) (es : list (cstring * addr)).

(** The messages in nobody's set: with the delegate, or with a client. *)
Definition flight (p : pc) : list addr := match p with Processing a false => [a] | _ => [] end.
Definition holds (c : client) : list addr := match c with Removing a _ => [a] | _ => [] end.
Definition removed (cl : gmap nat client) : list addr := gather holds cl.

Lemma removed_delete cl c k : cl !! c = Some k → removed cl ≡ₚ holds k ++ removed (delete c cl).
Proof. apply gather_delete. Qed.

Lemma removed_insert cl c k : removed (<[c := k]> cl) ≡ₚ holds k ++ removed (delete c cl).
Proof. apply gather_insert. Qed.

Definition idle (cl : gmap nat client) (c : nat) : Prop := default Idle (cl !! c) = Idle.

Lemma removed_idle cl c : idle cl c → removed cl ≡ₚ removed (delete c cl).
Proof.
  unfold idle. destruct (cl !! c) as [k|] eqn:E; simpl.
  - intros ->. by rewrite (removed_delete cl c Idle).
  - intros _. by rewrite delete_id.
Qed.

Lemma full_perm w A F es rest rest' : full w A F es rest → rest ≡ₚ rest' → full w A F es rest'.
Proof.
  intros [[Hs Hc Hl] Hm] Hp. split; [|done]. split; [done| |done]. destruct Hc. split; try done. by rewrite <-Hp.
Qed.

(** The state the thread's position goes with. *)
Definition state_ok (p : pc) (t : mqState) : Prop :=
  match p with
  | Processing _ _ => t = MQ_PROCESSING
  | Exit => t = MQ_CANCELING
  | Gone => t = MQ_NOT_RUNNING
  | _ => t = MQ_RUNNING ∨ t = MQ_CANCELING
  end.

Record inv s A F es : Prop := {
  v_full : full (st s) A F es (flight (thread s) ++ removed (clients s));
  v_state : state_ok (thread s) (threadState (mq (st s)));
  v_wake : thread s = Empty → signalled (st s) = false → F = [] ∧ threadState (mq (st s)) = MQ_RUNNING
}.

(** What the users of the queue keep to: a client is in one call at a time
    and waits as long as the queue is busy; messages are new and have ids of
    their own; a message that is being sent is not removed; no reply has
    arrived for a message when the delegate reports that it was not sent or
    is already handled; threads can be created. *)
Definition contract (c : nat) (act : action P) s : Prop :=
  match act with
  | AAppend a m =>
      idle (clients s) c ∧ heap (st s) !! a = None ∧ Z.of_nat (size (heap (st s))) < 65535 ∧ msg_ok m ∧
      ∀ b mb, heap (st s) !! b = Some mb → messageId mb ≠ messageId m
  | ARemove id =>
      idle (clients s) c ∧ 0 ≤ id < 18446744073709551616 ∧
      ∀ a m, thread s = Processing a true → heap (st s) !! a = Some m → messageId m ≠ id
  | AStart created => idle (clients s) c ∧ created = true
  | ACompleted id _ => idle (clients s) c ∧ 0 ≤ id < 18446744073709551616
  | AFinish =>
      match clients s !! c with
      | Some (Removing _ _) | Some Clearing | Some (Stopping _) => messageQueueIsBusy (st s) = false
      | Some Joining => True
      | _ => False
      end
  | AThread _ rc =>
      match thread s with
      | Processing a true =>
          rc ≠ PROCESS_MSG_SUCCESS →
          ∃ m, heap (st s) !! a = Some m ∧ km_get (sentHash (mq (st s))) (id_key (messageId m)) = Ok (Some a)
      | Gone => False
      | _ => True
      end
  | _ => idle (clients s) c
  end.

(** The limit on the messages that wait for a reply. *)
Definition limited s s' : Prop :=
  messageQueueSentSetCount (st s') ≤ Z.max (messageQueueSentSetCount (st s)) (maxProcessedCount (mq (st s))).

(** A step that keeps the invariant and the limit. *)
Definition fine s (o : outcome (sys M P)) : Prop :=
  ∃ s' A' F' es', o = Ok s' ∧ inv s' A' F' es' ∧ limited s s'.

Lemma limited_model s s' A F es rest A' F' es' rest' :
  full (st s) A F es rest → full (st s') A' F' es' rest' →
  zlen es' ≤ Z.max (zlen es) (maxProcessedCount (mq (st s))) → limited s s'.
Proof.
  intros [_ Hm] [_ Hm']. unfold limited, messageQueueSentSetCount.
  destruct (km_model_count _ _ Hm) as [-> _]. by destruct (km_model_count _ _ Hm') as [-> _].
Qed.

Lemma step_fine s A F es s' A' F' es' :
  inv s A F es → full (st s') A' F' es' (flight (thread s') ++ removed (clients s')) →
  state_ok (thread s') (threadState (mq (st s'))) →
  (thread s' = Empty → signalled (st s') = false → F' = [] ∧ threadState (mq (st s')) = MQ_RUNNING) →
  zlen es' ≤ Z.max (zlen es) (maxProcessedCount (mq (st s))) → fine s (Ok s').
Proof.
  intros [Hf Ht Hw] Hf' Hst Hwk Hz. exists s', A', F', es'. split; [done|]. split; [by split|].
  by eapply limited_model.
Qed.

(** *** Clients *)

(** A call in one segment: thread and clients stay where they are. *)
Lemma stay_fine s A F es w' A' F' es' :
  inv s A F es → full w' A' F' es' (flight (thread s) ++ removed (clients s)) →
  threadState (mq w') = threadState (mq (st s)) → zlen es' ≤ zlen es →
  (signalled w' = false → signalled (st s) = false ∧ (F = [] → threadState (mq (st s)) = MQ_RUNNING → F' = [])) →
  fine s (Ok (mkSys w' (thread s) (clients s))).
Proof.
  intros Hi Hf Hst Hz Hs. apply (step_fine s A F es _ A' F' es'); simpl; [done|done| | |lia].
  - rewrite Hst. apply Hi.
  - intros Hp Hsig. rewrite Hst. destruct (Hs Hsig) as [H1 H2]. destruct (v_wake _ _ _ _ Hi Hp H1) as [H3 H4]. auto.
Qed.

(** A client moves on. *)
Lemma park_fine s A F es w' A' F' es' c k :
  inv s A F es → full w' A' F' es' (flight (thread s) ++ holds k ++ removed (delete c (clients s))) →
  state_ok (thread s) (threadState (mq w')) →
  (thread s = Empty → signalled w' = false → F' = [] ∧ threadState (mq w') = MQ_RUNNING) → zlen es' ≤ zlen es →
  fine s (Ok (mkSys w' (thread s) (<[c := k]> (clients s)))).
Proof.
  intros Hi Hf Hst Hw Hz. apply (step_fine s A F es _ A' F' es'); simpl; [done| |done|done|lia].
  eapply full_perm; [done|]. by rewrite removed_insert.
Qed.

Lemma append_fine f now c a m s A F es :
  inv s A F es → contract c (AAppend a m) s → fine s (run f now c (AAppend a m) s).
Proof.
  intros Hi (_ & Ha & Hz & Hok & Hnew). destruct (append_spec f _ _ _ _ _ a m (v_full _ _ _ _ Hi) Ha Hz Hok Hnew)
    as (w' & Hr & Hf & _ & Ht & _ & Hs). cbn [run]. rewrite Hr. obind.
  eapply stay_fine; [done|done|done|done|]. intros Hsig. destruct (Hs Hsig) as [H1 H2]. split; [done|].
  intros -> Hrun. by apply H2.
Qed.

Lemma remove_fine f now c id s A F es :
  inv s A F es → contract c (ARemove id) s → fine s (run f now c (ARemove id) s).
Proof.
  intros Hi (Hidle & Hid & _). destruct (remove_spec _ _ _ _ _ id (v_full _ _ _ _ Hi) Hid)
    as (r & w' & A' & F' & es' & Hr & Hf & Hh & _ & Hfl & Hsub & Hz & _).
  cbn [run]. rewrite Hr. obind. injection Hfl as _ _ Ht Hsig.
  assert (HF : F = [] → F' = []) by (intros ->; by apply sublist_nil_r in Hsub).
  destruct r as [[a sent]|].
  - apply (park_fine s A F es w' A' F' es'); [done| |by rewrite Ht; apply Hi| |done].
    + eapply full_perm; [done|]. simpl. rewrite (removed_idle _ c Hidle). solve_Permutation.
    + rewrite Ht, Hsig. intros Hp Hs. destruct (v_wake _ _ _ _ Hi Hp Hs). auto.
  - apply (stay_fine s A F es w' A' F' es'); [done..|]. rewrite Hsig. auto.
Qed.

Lemma park_only_fine s A F es c k :
  inv s A F es → idle (clients s) c → holds k = [] → fine s (Ok (mkSys (st s) (thread s) (<[c := k]> (clients s)))).
Proof.
  intros Hi Hidle Hk. apply (park_fine s A F es _ A F es); [done| |apply Hi|apply Hi|done].
  eapply full_perm; [apply Hi|]. by rewrite Hk, (removed_idle _ c Hidle).
Qed.

Lemma finish_fine f now c s A F es :
  inv s A F es → contract c AFinish s → fine s (run f now c AFinish s).
Proof.
  intros Hi Hc. cbn [run contract] in *. destruct (clients s !! c) as [k|] eqn:Hk; [|done].
  assert (Hf : full (st s) A F es (flight (thread s) ++ holds k ++ removed (delete c (clients s)))).
  { eapply full_perm; [apply Hi|]. by rewrite (removed_delete _ c k Hk). }
  assert (Hbusy : messageQueueIsBusy (st s) = false → flight (thread s) = []).
  { intros Hb%bool_decide_eq_false. pose proof (v_state _ _ _ _ Hi) as Hst. by destruct (thread s). }
  destruct k as [|a sent| |e|]; [done| | | |].
  - (* the removed message is reported *)
    assert (Hf' : full (st s) A F es (a :: flight (thread s) ++ removed (delete c (clients s)))).
    { eapply full_perm; [done|]. simpl. solve_Permutation. }
    destruct Hf' as [Hw Hm]. unfold remove_finish.
    destruct (notify_spec _ _ _ _ _ _ false MESSAGE_FAIL_REASON_REMOVE Hw) as [-> Hw']. obind.
    set (w1 := add_log _ _) in *.
    assert (Hf1 : full w1 A F es (flight (thread s) ++ removed (delete c (clients s)))) by (split; done).
    apply (park_fine s A F es _ A F es); [done| | | |done].
    + destruct sent; [by apply full_broadcast|done].
    + unfold broadcast_if_running. destruct sent; [case_decide|]; apply Hi.
    + unfold broadcast_if_running. destruct sent; [case_decide|]; simpl; try done; apply Hi.
  - (* clear *)
    rewrite (Hbusy Hc) in Hf. simpl in Hf. destruct (mq_clear_spec _ _ _ _ _ Hf) as (w' & -> & Hf' & Hfl). obind.
    injection Hfl as _ _ Ht Hs. apply (park_fine s A F es _ [] [] []); [done| | | |simpl; lia].
    + by rewrite (Hbusy Hc).
    + rewrite Ht. apply Hi.
    + rewrite Ht, Hs. intros Hp Hsig. by destruct (v_wake _ _ _ _ Hi Hp Hsig).
  - (* stop *)
    unfold messageQueueStopThread. case_decide as Hrun.
    + apply (park_fine s A F es _ A F es); [done| | |done|done].
      * destruct Hf as [[] ?]. split; [|done]. split; by destruct e.
      * simpl. pose proof (v_state _ _ _ _ Hi) as Hst. rewrite Hrun in Hst. destruct (thread s); simpl in *; auto; done.
    + apply (park_fine s A F es _ A F es); [done| |apply Hi|apply Hi|done]. done.
  - (* join *)
    destruct (isThreadDead (st s)).
    + apply (park_fine s A F es _ A F es); [done| |apply Hi|apply Hi|done]. done.
    + apply (stay_fine s A F es _ A F es); [done|apply Hi|done|done|]. auto.
Qed.

(** *** The thread *)

Lemma top_fine now s A F es :
  inv s A F es → thread s = Top → fine s ('(p, w) ← thread_top now (st s); Ok (mkSys w p (clients s))).
Proof.
  intros Hi Hp. pose proof (v_full _ _ _ _ Hi) as Hf. pose proof (v_state _ _ _ _ Hi) as Hst. rewrite Hp in Hf, Hst.
  unfold thread_top. destruct (decide (threadState (mq (st s)) = MQ_CANCELING)) as [Hca|Hca].
  { obind. apply (step_fine s A F es _ A F es); simpl; [done|done|done|done|lia]. }
  destruct Hst as [Hrun|]; [|done]. destruct (decide (maxProcessedCount _ ≤ _)) as [Hmax|Hmax].
  { obind. apply (step_fine s A F es _ A F es); simpl; [done| |by left|done|lia]. destruct Hf as [[] ?]. by split. }
  pose proof Hf as [[[_ HF] _ _] Hm]. rewrite (qrepr_count _ _ HF), length_fmap.
  destruct F as [|a F].
  { rewrite decide_True by done. obind.
    apply (step_fine s A [] es _ A [] es); simpl; [done| |by left|done|lia]. destruct Hf as [[] ?]. by split. }
  rewrite decide_False by (simpl; lia).
  destruct (send_spec now _ _ _ _ _ _ Hf) as (ex & w' & es' & -> & Hf' & Ht' & Hx' & Hz & _). obind.
  destruct (km_model_count _ _ Hm) as [Hcnt _]. rewrite Hcnt in Hmax.
  apply (step_fine s A (a :: F) es _ (without a A) F es'); simpl; [done| |done|done|lia]. by destruct ex.
Qed.

Lemma check_fine f now s A F es :
  inv s A F es → thread s = Full ∨ thread s = Empty →
  fine s ('(p, w) ← (w ← checkSentHashForTimeouts f now (st s); Ok (Top, w)); Ok (mkSys w p (clients s))).
Proof.
  intros Hi Hp. pose proof (v_full _ _ _ _ Hi) as Hf. pose proof (v_state _ _ _ _ Hi) as Hst.
  destruct (check_spec f now _ _ _ _ _ Hf) as (w' & A' & F' & es' & -> & Hf' & Hfl & Hz). obind.
  injection Hfl as _ _ Ht _. apply (step_fine s A F es _ A' F' es'); simpl; [done| | |done|lia].
  - by destruct Hp as [Hp|Hp]; rewrite Hp in Hf'.
  - rewrite Ht. by destruct Hp as [Hp|Hp]; rewrite Hp in Hst.
Qed.

Lemma thread_fine f now c to rc s A F es :
  inv s A F es → contract c (AThread to rc) s → fine s (run f now c (AThread to rc) s).
Proof.
  intros Hi Hc. cbn [run contract] in *. pose proof (v_full _ _ _ _ Hi) as Hf. pose proof (v_state _ _ _ _ Hi) as Hst.
  destruct (thread s) as [| | |a ex| | |] eqn:Hp; [| | | | | |done].
  - by eapply top_fine.
  - eapply check_fine; [done|by left].
  - unfold thread_empty. destruct to; [eapply check_fine; [done|by right]|]. obind.
    by apply (step_fine s A F es _ A F es); simpl; [| | | |lia].
  - assert (Hin : ex = true → rc ≠ PROCESS_MSG_SUCCESS → a ∈ es.*2).
    { intros -> Hrc. destruct (Hc Hrc) as (m & Ha & Hg). destruct Hf as [_ Hm].
      rewrite (km_get_law _ _ _ Hm (id_key_ok _)) in Hg. injection Hg as Hg.
      apply elem_of_list_to_map_2 in Hg. apply list_elem_of_fmap. by exists (id_key (messageId m), a). }
    destruct (processed_spec f now a ex rc (st s) A F es (removed (clients s))) as (p & w' & A' & F' & es' & -> & Hpc & Hs);
      [by destruct ex|done|done|]. obind. destruct Hs as (Hf' & Ht & _ & Hz).
    apply (step_fine s A F es _ A' F' es'); simpl; [done| | | |lia].
    + by destruct Hpc as [-> | ->].
    + rewrite Ht. destruct Hpc as [-> | ->]; by left.
    + by destruct Hpc as [-> | ->].
  - obind. by apply (step_fine s A F es _ A F es); simpl; [| | | |lia].
  - obind. apply (step_fine s A F es _ A F es); simpl; [done| |done|done|lia]. destruct Hf as [[] ?]. by split.
Qed.

Lemma run_fine f now c act s A F es :
  inv s A F es → contract c act s → fine s (run f now c act s).
Proof.
  intros Hi Hc. destruct act as [a m|id| |e|cr|id pl|sf|mx|sec| | |to rc].
  - by eapply append_fine.
  - by eapply remove_fine.
  - by eapply park_only_fine.
  - by eapply park_only_fine.
  - destruct Hc as [_ ->]. cbn [run]. unfold messageQueueStartThread. case_decide as Hn.
    + assert (Hp : thread s = Gone).
      { pose proof (v_state _ _ _ _ Hi) as Hst. rewrite Hn in Hst. destruct (thread s); simpl in Hst; naive_solver. }
      pose proof (v_full _ _ _ _ Hi) as Hf. rewrite Hp in Hf.
      apply (step_fine s A F es _ A F es); simpl; [done| |by left|done|lia]. destruct Hf as [[] ?]. by split.
    + apply (stay_fine s A F es _ A F es); [done|apply Hi|done|done|]. auto.
  - destruct Hc as [_ Hid]. destruct (completed_spec _ _ _ _ _ id pl (v_full _ _ _ _ Hi) Hid)
      as (r & w' & es' & Hr & Hf & Hz & Ht & _ & Hs). cbn [run]. rewrite Hr. obind.
    apply (stay_fine s A F es w' A F es'); [done..|]. auto.
  - destruct (custom_search_spec sf _ _ _ _ _ (v_full _ _ _ _ Hi)) as (r & w' & es' & Hr & Hf & Hz & Hfl).
    cbn [run]. rewrite Hr. obind. injection Hfl as _ _ Ht Hs.
    apply (stay_fine s A F es w' A F es'); [done..|]. rewrite Hs. auto.
  - cbn [run]. unfold messageQueueSetMaxProcessingMessageCount. pose proof (v_full _ _ _ _ Hi) as [[] ?].
    case_decide; (apply (stay_fine s A F es _ A F es); [done|by split|done|done|auto]).
  - cbn [run]. unfold messageQueueSetMessageTimeoutSecs. pose proof (v_full _ _ _ _ Hi) as [[] ?].
    case_decide; (apply (stay_fine s A F es _ A F es); [done|by split|done|done|auto]).
  - destruct (run_filter_spec f _ _ _ _ _ (v_full _ _ _ _ Hi)) as (w' & Hr & Hf & _ & Ht & _ & Hs).
    cbn [run]. rewrite Hr. obind. eapply stay_fine; [done|done|done|done|]. intros Hsig.
    destruct (Hs Hsig). split; [done|]. by intros _ ?.
  - by eapply finish_fine.
  - by eapply thread_fine.
Qed.

(** ** Executions *)

Definition start (max timeout : Z) : sys M P :=
  mkSys (mkWorld ∅ (messageQueueCreate max timeout) false []) Gone ∅.

Definition exec s s' : Prop := ∃ f now c act, contract c act s ∧ run f now c act s = Ok s'.

Lemma start_inv max timeout : inv (start max timeout) [] [] [].
Proof.
  split; simpl; [|done|done]. split; [|apply km_create_law]. split.
  - split; simpl; apply qrepr_create.
  - split; simpl; done || apply sublist_nil_l.
  - intros a. unfold occurs. simpl. rewrite decide_False; [done|]. rewrite lookup_empty. by intros [? ?].
Qed.

Lemma mq_reachable_inv max timeout s : rtc exec (start max timeout) s → ∃ A F es, inv s A F es.
Proof.
  intros Hr. assert (∃ A F es, inv (start max timeout) A F es) as Hinv by (eexists _, _, _; apply start_inv).
  induction Hr as [s|s s1 s2 (f & now & c & act & Hc & Hrun) _ IH]; [done|]. apply IH.
  destruct Hinv as (A & F & es & Hi).
  destruct (run_fine f now c act s A F es Hi Hc) as (s' & A' & F' & es' & Hr & Hi' & _).
  rewrite Hrun in Hr. injection Hr as <-. by exists A', F', es'.
Qed.

(** C13: every message is in exactly one place and its life ends exactly once.
    Whatever clients and the thread of the queue do within the contract, in
    whatever order: the live messages are, without repetition, those of the
    all set, of the sent hash, the one the delegate is sending and those a
    client is about to report; the filter set is a part of the all set in the
    same order; every message was reported or completed exactly as often as it
    was appended, one less while it is alive; and no next step can fault:
    nothing is used after it was destroyed. *)
Theorem messageQueue_lifecycle max timeout s :
  rtc exec (start max timeout) s →
  (∃ A F es, qrepr (allSet (mq (st s))) (Some <$> A) ∧ qrepr (filterSet (mq (st s))) (Some <$> F) ∧
     km_model (sentHash (mq (st s))) es ∧ F `sublist_of` A ∧
     (map_to_list (heap (st s))).*1 ≡ₚ A ++ es.*2 ++ flight (thread s) ++ removed (clients s)) ∧
  (∀ a, occurs (is_append a) (log (st s))
     = occurs (is_end a) (log (st s)) + if decide (is_Some (heap (st s) !! a)) then 1 else 0) ∧
  (∀ f now c act, contract c act s → ∃ s', run f now c act s = Ok s').
Proof.
  intros (A & F & es & Hi)%mq_reachable_inv. pose proof (v_full _ _ _ _ Hi) as [[[HA HF] Hc Hl] Hm]. split; [|split].
  - exists A, F, es. split_and!; try done; apply Hc.
  - exact Hl.
  - intros f now c act Hct. destruct (run_fine f now c act s A F es Hi Hct) as (s' & _ & _ & _ & Hr & _). by exists s'.
Qed.

(** The thread does not sleep while there is something to send, and never
    has more messages waiting for a reply than allowed.  A thread that waits
    for work and has not been signalled finds the filter set empty; a step
    takes the number of messages that wait for a reply beyond what it was
    only up to the limit. *)
Theorem messageQueue_wakeup_and_limit max timeout s :
  rtc exec (start max timeout) s →
  (thread s = Empty → signalled (st s) = false → messageQueueFilterSetCount (st s) = 0) ∧
  (∀ s', exec s s' →
     messageQueueSentSetCount (st s')
     ≤ Z.max (messageQueueSentSetCount (st s)) (messageQueueGetMaxProcessingMessageCount (st s))).
Proof.
  intros (A & F & es & Hi)%mq_reachable_inv. split.
  - intros Hp Hs. destruct (v_wake _ _ _ _ Hi Hp Hs) as [-> _]. destruct (v_full _ _ _ _ Hi) as [[[_ HF] _ _] _].
    unfold messageQueueFilterSetCount. by rewrite (qrepr_count _ _ HF).
  - intros s' (f & now & c & act & Hc & Hrun).
    destruct (run_fine f now c act s A F es Hi Hc) as (s2 & A' & F' & es' & Hr & _ & Hlim).
    rewrite Hrun in Hr. injection Hr as <-. exact Hlim.
Qed.

End Theorems.

(** ** Concrete executions *)

Definition hsys : Type := sys hash_map unit.

(** A message with id 7 that expects a reply, at address 1, and a filter
    that lets everything pass. *)
Definition msg7 : message unit := mkMsg 7 0 None None true false 0 3.
Definition all_pass (m : message unit) : bool := true.

Definition script (acts : list (nat * action unit)) (s : hsys) : outcome hsys :=
  foldM (λ ca s, run all_pass 100 ca.1 ca.2 s) acts s.

(** Client 0 starts the thread and appends the message; the thread hands it
    to the delegate. *)
Definition sending : list (nat * action unit) :=
  [(0%nat, AStart true); (0%nat, AAppend 1%positive msg7); (0%nat, AThread false PROCESS_MSG_SUCCESS)].

(** Removing a message while it is being sent breaks the queue.
    messageQueueRemove takes the message out of the sent hash and then waits
    for the thread; the thread, which still holds the message, puts it back
    into the queue when the send fails; then the remover reports it as
    removed, which destroys it.  The queue now holds a pointer to a destroyed
    message, and the thread's next step uses it.  When the delegate has
    already handled the message, the remover reports it a second time. *)
Theorem messageQueue_remove_while_sending :
  (∃ s : hsys, script (sending ++ [(1%nat, ARemove 7); (0%nat, AThread false PROCESS_MSG_SEND_FAILURE); (1%nat, AFinish);
                         (0%nat, AThread false PROCESS_MSG_SUCCESS)]) (start 1 1) = Ok s ∧
     heap (st s) !! 1%positive = None ∧ messageQueueAllSetCount (st s) = 1 ∧ messageQueueFilterSetCount (st s) = 1 ∧
     run all_pass 100 0 (AThread false PROCESS_MSG_SUCCESS) s = Fault) ∧
  (∃ s : hsys, script (sending ++ [(1%nat, ARemove 7); (0%nat, AThread false PROCESS_MSG_SUCCESS_HANDLED)]) (start 1 1) = Ok s ∧
     log (st s) = [Appended 1; Sent 1; Notified 1 true MESSAGE_FAIL_REASON_NONE] ∧
     run all_pass 100 1 AFinish s = Fault).
Proof.
  split; eexists; (split; [vm_compute; reflexivity|]); vm_compute; by split_and!.
Qed.

(** ** Witnesses *)

Lemma sending_reachable :
  ∃ s : hsys, script sending (start 1 1) = Ok s ∧ rtc exec (start 1 1) s ∧ thread s = Processing 1 true.
Proof.
  eexists. split; [vm_compute; reflexivity|]. split; [|done].
  eapply rtc_l.
  { exists all_pass, 100, 0%nat, (AStart true). split; [done|vm_compute; reflexivity]. }
  eapply rtc_l.
  { exists all_pass, 100, 0%nat, (AAppend 1%positive msg7). split; [|vm_compute; reflexivity].
    by split_and!. }
  eapply rtc_l; [|apply rtc_refl].
  exists all_pass, 100, 0%nat, (AThread false PROCESS_MSG_SUCCESS). split; [done|vm_compute; reflexivity].
Qed.

Lemma messageQueue_lifecycle_witness :
  ∃ s : hsys, thread s = Processing 1 true ∧
    ∃ s', run all_pass 200 0 (AThread false PROCESS_MSG_SUCCESS) s = Ok s'.
Proof.
  destruct sending_reachable as (s & Hs & Hr & Ht). exists s. split; [done|].
  destruct (messageQueue_lifecycle 1 1 s Hr) as (_ & _ & Hrun). apply Hrun. unfold contract. by rewrite Ht.
Defined.

Lemma messageQueue_wakeup_and_limit_witness :
  ∃ s : hsys, thread s = Processing 1 true ∧
    ∀ s', exec s s' → messageQueueSentSetCount (st s')
      ≤ Z.max (messageQueueSentSetCount (st s)) (messageQueueGetMaxProcessingMessageCount (st s)).
Proof.
  destruct sending_reachable as (s & Hs & Hr & Ht). exists s. split; [done|].
  by destruct (messageQueue_wakeup_and_limit 1 1 s Hr) as [_ Hlim].
Defined.

End MQTheorems.
