(* ===== verification/CommFail.v ===== *)
(** * The communication watchdog of the device service

    services/device/core/src/deviceCommunicationWatchdog.c: devices are
    monitored with a time-out; every sign of life "pets" a device; a thread
    looks from time to time for devices that have been silent for too long
    and reports them.  The static variables are the record [state]; the
    infos live in a heap and the hash map is used through its interface
    KeyMap.  A function that takes monitoredDevicesMutex is one segment up to
    its end or to the callback it calls after it has released the mutex;
    [run] interleaves the segments.  The list uuidsInCommFail, which only the
    thread sees, is a plain list.  The clock is an argument. *)

From S2P Require Import Prelude LinkedList KeyMap.
Import LinkedList KeyMap.

Module CommFail.

Definition FAST_COMM_FAIL_PROP : cstring := str "zigbee.testing.fastCommFail.flag".
Definition MONITOR_THREAD_SLEEP_SECS : Z := 60.

Record MonitoredDeviceInfo := mkInfo {
  uuid : cstring;
  commFailTimeoutSeconds : Z;
  lastSuccessfulCommunicationMillis : Z;
  inCommFail : bool
}.

Definition set_last (i : MonitoredDeviceInfo) t := mkInfo (uuid i) (commFailTimeoutSeconds i) t (inCommFail i).
Definition set_fail (i : MonitoredDeviceInfo) b :=
  mkInfo (uuid i) (commFailTimeoutSeconds i) (lastSuccessfulCommunicationMillis i) b.
Definition set_timeout (i : MonitoredDeviceInfo) t :=
  mkInfo (uuid i) t (lastSuccessfulCommunicationMillis i) (inCommFail i).

(** The key of a device: its uuid with the NUL. *)
Definition device_key (u : cstring) : cstring := u ++ [NUL].

Section Code.
Context {M : Type} `{KeyMap M addr}.

(** [callbacks]: failedCallback and restoredCallback, which are set and reset
    together, are not NULL. *)
Record state := mkState {
  infos : gmap addr MonitoredDeviceInfo;
  monitoredDevices : option M;
  callbacks : bool;
  running : bool;
  monitorThreadSleepSeconds : Z;
  fastCommFailTimer : bool
}.

Definition set_infos (s : state) h :=
  mkState h (monitoredDevices s) (callbacks s) (running s) (monitorThreadSleepSeconds s) (fastCommFailTimer s).
Definition set_devices (s : state) m :=
  mkState (infos s) m (callbacks s) (running s) (monitorThreadSleepSeconds s) (fastCommFailTimer s).
Definition set_control (s : state) cb r :=
  mkState (infos s) (monitoredDevices s) cb r (monitorThreadSleepSeconds s) (fastCommFailTimer s).
Definition set_sleep (s : state) n :=
  mkState (infos s) (monitoredDevices s) (callbacks s) (running s) n (fastCommFailTimer s).
Definition set_fast (s : state) b :=
  mkState (infos s) (monitoredDevices s) (callbacks s) (running s) (monitorThreadSleepSeconds s) b.

(** free(info->uuid); free(info) *)
Definition monitoredDevicesEntryDestroy (a : addr) (s : state) : outcome state :=
  _ ← of_option (infos s !! a); Ok (set_infos s (delete a (infos s))).

(** [given]: both callbacks are given; [fast]: the property FAST_COMM_FAIL_PROP.
    The result says whether the thread was created. *)
Definition deviceCommunicationWatchdogInit (given fast : bool) (s : state) : bool * state :=
  if negb given then (false, s)
  else if callbacks s then (false, s)
  else (true, set_fast (set_control (set_devices s (Some km_create)) true true) fast).

Definition deviceCommunicationWatchdogSetMonitorInterval (seconds : Z) (s : state) : state := set_sleep s seconds.

(** Up to the pthread_join. *)
Definition deviceCommunicationWatchdogTerm (s : state) : outcome state :=
  let s := set_control s false false in
  match monitoredDevices s with
  | None => Ok s
  | Some m =>
      '(vs, _) ← km_clear m;
      s ← foldM monitoredDevicesEntryDestroy vs s;
      Ok (set_devices s None)
  end.

(** [a] is the address calloc returns. *)
Definition deviceCommunicationWatchdogMonitorDevice (a : addr) (u : option cstring) (timeout : Z) (inFail : bool)
    (now : Z) (s : state) : outcome state :=
  match u with
  | None => Ok s
  | Some u =>
      if decide (timeout = 0) then Ok s
      else if running s then
        let s := set_infos s (<[a := mkInfo u timeout now inFail]> (infos s)) in
        '(ok, s) ← match monitoredDevices s with
                   | None => Ok (false, s)
                   | Some m => '(ok, m) ← km_put m (device_key u) a; Ok (ok, set_devices s (Some m))
                   end;
        if ok : bool then Ok s else monitoredDevicesEntryDestroy a s
      else Ok s
  end.

(** strlen(uuid) without a check. *)
Definition deviceCommunicationWatchdogStopMonitoringDevice (u : option cstring) (s : state) : outcome state :=
  u ← of_option u;
  match monitoredDevices s with
  | None => Ok s
  | Some m =>
      '(v, m) ← km_delete m (device_key u);
      let s := set_devices s (Some m) in
      match v with Some a => monitoredDevicesEntryDestroy a s | None => Ok s end
  end.

(** hashMapGet(monitoredDevices, uuid, strlen(uuid) + 1), and the object read. *)
Definition find_device (u : cstring) (s : state) : outcome (option (addr * MonitoredDeviceInfo)) :=
  match monitoredDevices s with
  | None => Ok None
  | Some m =>
      v ← km_get m (device_key u);
      match v with
      | None => Ok None
      | Some a => i ← of_option (infos s !! a); Ok (Some (a, i))
      end
  end.

(** Up to the callback: [true] says that restoredCallback is to be called. *)
Definition deviceCommunicationWatchdogPetDevice (u : option cstring) (now : Z) (s : state) : outcome (bool * state) :=
  match u with
  | None => Ok (false, s)
  | Some u =>
      r ← find_device u s;
      match r with
      | None => Ok (false, s)
      | Some (a, i) => Ok (inCommFail i, set_infos s (<[a := set_fail (set_last i now) false]> (infos s)))
      end
  end.

(** [true]: failedCallback is to be called. *)
Definition deviceCommunicationWatchdogForceDeviceInCommFail (u : option cstring) (s : state) : outcome (bool * state) :=
  match u with
  | None => Ok (false, s)
  | Some u =>
      r ← find_device u s;
      match r with
      | None => Ok (false, s)
      | Some (a, i) =>
          if inCommFail i then Ok (false, s) else Ok (true, set_infos s (<[a := set_fail i true]> (infos s)))
      end
  end.

Definition deviceCommunicationWatchdogGetRemainingCommFailTimeoutForLPM (u : option cstring) (commFailDelaySeconds now : Z)
    (s : state) : outcome Z :=
  match u with
  | None => Ok (-1)
  | Some u =>
      r ← find_device u s;
      match r with
      | None => Ok (-1)
      | Some (_, i) =>
          if inCommFail i then Ok (-1)
          else
            let diffInSeconds := u64 (now - lastSuccessfulCommunicationMillis i) / 1000 in
            if decide (diffInSeconds ≤ commFailDelaySeconds) then Ok (i32 (u64 (commFailDelaySeconds - diffInSeconds)))
            else Ok (-1)
      end
  end.

Definition deviceCommunicationWatchdogResetTimeoutForDevice (u : option cstring) (timeout now : Z) (s : state)
    : outcome state :=
  match u with
  | None => Ok s
  | Some u =>
      if decide (timeout = 0) then Ok s
      else
        r ← find_device u s;
        match r with
        | None => Ok s
        | Some (a, i) =>
            let i := set_timeout i timeout in
            let i := if inCommFail i then i else set_last i now in
            Ok (set_infos s (<[a := i]> (infos s)))
        end
  end.

(** The event of property [propKey]; [value] is its value, if it was not
    deleted. *)
Definition handlePropertyChangedEvent (propKey : cstring) (value : option bool) (s : state) : state :=
  if decide (propKey = FAST_COMM_FAIL_PROP) then set_fast s (default false value) else s.

(** ** The thread *)

Definition timeout_millis (fast : bool) (i : MonitoredDeviceInfo) : Z :=
  if fast then commFailTimeoutSeconds i / 100 else u64 (commFailTimeoutSeconds i * 1000).

Definition silent (fast : bool) (now : Z) (i : MonitoredDeviceInfo) : bool :=
  bool_decide (timeout_millis fast i < u64 (now - lastSuccessfulCommunicationMillis i)).

(** The body of the loop over the devices; [clk n] is what the clock shows in
    round [n]. *)
Definition check_device (clk : nat → Z) (fast : bool) (a : addr)
    (r : nat * gmap addr MonitoredDeviceInfo * list cstring) : outcome (nat * gmap addr MonitoredDeviceInfo * list cstring) :=
  let '(n, h, us) := r in
  i ← of_option (h !! a);
  if silent fast (clk n) i && negb (inCommFail i)
  then Ok (S n, <[a := set_fail i true]> h, us ++ [uuid i])
  else Ok (S n, h, us).

Definition check_devices (clk : nat → Z) (s : state) : outcome (nat * list cstring * state) :=
  match monitoredDevices s with
  | None => Ok (0%nat, [], s)
  | Some m =>
      '(n, h, us) ← km_foreach m (check_device clk (fastCommFailTimer s)) (0%nat, infos s, []);
      Ok (n, us, set_infos s h)
  end.

(** Where the thread is; [Notify us]: these devices are still to be reported. *)
Inductive pc := Top | Waiting | Checking | Notify (us : list cstring) | Ended.

Inductive client := Idle | Failing (u : cstring) | Restoring (u : cstring) | Joining.

(** What happened: a device was put under observation or taken out of it (in
    which state); it was heard of; the callbacks were called. *)
Inductive event :=
  | Entered (u : cstring) (inFail : bool)
  | Left (u : cstring) (inFail : bool)
  | Heard (u : cstring) (t : Z)
  | Failed (u : cstring)
  | Restored (u : cstring).

Record sys := mkSys { st : state; clock : Z; thread : pc; clients : gmap nat client; log : list event }.

Inductive action :=
  | AInit (fast : bool)
  | ATerm
  | ASetInterval (seconds : Z)
  | AProperty (propKey : cstring) (value : option bool)
  | AMonitor (a : addr) (u : cstring) (timeout : Z) (inFail : bool)
  | AStop (u : cstring)
  | APet (u : cstring)
  | AForce (u : cstring)
  | AReset (u : cstring) (timeout : Z)
  | AGoOn                                      (* the client goes on: callback or join *)
  | ATick (t : Z)                              (* time passes *)
  | AThread (clk : nat → Z).

(** For the log: the devices that were taken out between [h] and [h'], and
    whether a device is under observation. *)
Definition left_events (h h' : gmap addr MonitoredDeviceInfo) : list event :=
  (λ e, Left (uuid e.2) (inCommFail e.2)) <$> map_to_list (h ∖ h').
Definition known (u : cstring) (s : state) : option MonitoredDeviceInfo :=
  match find_device u s with Ok (Some (_, i)) => Some i | _ => None end.

(** A call through a function pointer that may be NULL. *)
Definition callback (s : state) (e : event) : outcome (list event) := if callbacks s then Ok [e] else Fault.

Definition thread_step (clk : nat → Z) (s : sys) : outcome sys :=
  let go p := Ok (mkSys (st s) (clock s) p (clients s) (log s)) in
  match thread s with
  | Top => go (if running (st s) then Waiting else Ended)
  | Waiting => go Checking
  | Checking =>
      '(n, us, t) ← check_devices clk (st s);
      Ok (mkSys t (match n with O => clock s | S n => clk n end) (Notify us) (clients s) (log s))
  | Notify [] => go Top
  | Notify (u :: us) => l ← callback (st s) (Failed u); Ok (mkSys (st s) (clock s) (Notify us) (clients s) (log s ++ l))
  | Ended => Ok s
  end.

(** A segment of client [c], or of the thread. *)
Definition run (c : nat) (act : action) (s : sys) : outcome sys :=
  let h := infos (st s) in
  let stay t l := Ok (mkSys t (clock s) (thread s) (clients s) (log s ++ l)) in
  let park k t l := Ok (mkSys t (clock s) (thread s) (<[c := k]> (clients s)) (log s ++ l)) in
  match act with
  | AInit fast =>
      let '(created, t) := deviceCommunicationWatchdogInit true fast (st s) in
      Ok (mkSys t (clock s) (if created then Top else thread s) (clients s) (log s))
  | ATerm => t ← deviceCommunicationWatchdogTerm (st s); park Joining t (left_events h (infos t))
  | ASetInterval n => stay (deviceCommunicationWatchdogSetMonitorInterval n (st s)) []
  | AProperty k v => stay (handlePropertyChangedEvent k v (st s)) []
  | AMonitor a u timeout f =>
      t ← deviceCommunicationWatchdogMonitorDevice a (Some u) timeout f (clock s) (st s);
      stay t (if infos t !! a then [Entered u f; Heard u (clock s)] else [])
  | AStop u => t ← deviceCommunicationWatchdogStopMonitoringDevice (Some u) (st s); stay t (left_events h (infos t))
  | APet u =>
      '(notify, t) ← deviceCommunicationWatchdogPetDevice (Some u) (clock s) (st s);
      let l := if known u t then [Heard u (clock s)] else [] in
      if notify : bool then park (Restoring u) t l else stay t l
  | AForce u =>
      '(notify, t) ← deviceCommunicationWatchdogForceDeviceInCommFail (Some u) (st s);
      if notify : bool then park (Failing u) t [] else stay t []
  | AReset u timeout =>
      t ← deviceCommunicationWatchdogResetTimeoutForDevice (Some u) timeout (clock s) (st s);
      stay t (match known u t with
              | Some i => if bool_decide (timeout = 0) || inCommFail i then [] else [Heard u (clock s)]
              | None => []
              end)
  | AGoOn =>
      match clients s !! c with
      | Some (Failing u) => l ← callback (st s) (Failed u); park Idle (st s) l
      | Some (Restoring u) => l ← callback (st s) (Restored u); park Idle (st s) l
      | Some Joining => match thread s with Ended => park Idle (st s) [] | _ => Ok s end
      | _ => Ok s
      end
  | ATick t => Ok (mkSys (st s) t (thread s) (clients s) (log s))
  | AThread clk => thread_step clk s
  end.

End Code.
Arguments state : clear implicits.
Arguments sys : clear implicits.

End CommFail.
