(* ===== verification/CommFailTheorems.v ===== *)
(** * What the communication watchdog promises

    In every interleaving of callers and the thread: the hash map and the
    infos agree, no call faults, and every change of the state of a device is
    reported by exactly one callback ([commFail_reports]); the thread finds
    exactly the devices that have been silent for longer than their time-out
    ([commFail_detection]).  The callbacks are called after the mutex was
    released, so that they may arrive in the wrong order
    ([commFail_out_of_order]). *)

From S2P Require Import Prelude LinkedList KeyMap CommFail.
Import LinkedList KeyMap CommFail.

Module CommFailTheorems.

(** ** Reading the log *)

Definition entered (l : list event) : list cstring := omap (λ e, match e with Entered u true => Some u | _ => None end) l.
Definition left_in (l : list event) : list cstring := omap (λ e, match e with Left u true => Some u | _ => None end) l.
Definition failed (l : list event) : list cstring := omap (λ e, match e with Failed u => Some u | _ => None end) l.
Definition restored (l : list event) : list cstring := omap (λ e, match e with Restored u => Some u | _ => None end) l.
(** When a device was last heard of. *)
Definition heard (u : cstring) (l : list event) : option Z :=
  last (omap (λ e, match e with Heard v t => if decide (v = u) then Some t else None | _ => None end) l).

(** The devices in comm fail, and those a client or the thread is about to
    report. *)
Definition failing (i : MonitoredDeviceInfo) : list cstring := if inCommFail i then [uuid i] else [].
Definition to_fail (c : client) : list cstring := match c with Failing u => [u] | _ => [] end.
Definition to_restore (c : client) : list cstring := match c with Restoring u => [u] | _ => [] end.
Definition reports (p : pc) : list cstring := match p with Notify us => us | _ => [] end.

Definition balance (l : list event) (cl : gmap nat client) (p : pc) (h : gmap addr MonitoredDeviceInfo) : Prop :=
  entered l ++ failed l ++ gather to_fail cl ++ reports p
  ≡ₚ restored l ++ left_in l ++ gather to_restore cl ++ gather failing h.

Lemma heard_app u l l' : heard u (l ++ l') = match heard u l' with Some t => Some t | None => heard u l end.
Proof. unfold heard. rewrite omap_app, last_app. done. Qed.

Lemma log_app l l' :
  entered (l ++ l') = entered l ++ entered l' ∧ left_in (l ++ l') = left_in l ++ left_in l' ∧
  failed (l ++ l') = failed l ++ failed l' ∧ restored (l ++ l') = restored l ++ restored l'.
Proof. unfold entered, left_in, failed, restored. by rewrite !omap_app. Qed.

Lemma device_key_inj u v : device_key u = device_key v → u = v.
Proof. apply app_inv_tail. Qed.

Section Theorems.
Context {M : Type} `{KeyMapLaws M addr}.
Implicit Types (s : sys M) (t : state M) (h : gmap addr MonitoredDeviceInfo) (i : MonitoredDeviceInfo)
  (es : list (cstring * addr)).

(** ** The map and the infos *)

Record links (m : M) h es : Prop := {
  l_map : km_model m es;
  l_infos : es.*2 ≡ₚ (map_to_list h).*1;
  l_keys k a i : (k, a) ∈ es → h !! a = Some i → k = device_key (uuid i) ∧ key_ok k
}.

Definition repr t : Prop :=
  match monitoredDevices t with None => infos t = ∅ | Some m => ∃ es, links m (infos t) es end.

Lemma links_live m h es k a : links m h es → (k, a) ∈ es → ∃ i, h !! a = Some i.
Proof.
  intros [_ Hi _] Hin. assert (a ∈ (map_to_list h).*1) as Ha.
  { rewrite <-Hi. apply list_elem_of_fmap. by exists (k, a). }
  apply list_elem_of_fmap in Ha as ([b i] & -> & Hb). exists i. by apply elem_of_map_to_list.
Qed.

Lemma links_entry m h es a i : links m h es → h !! a = Some i → (device_key (uuid i), a) ∈ es.
Proof.
  intros [_ Hi Hk] Ha. assert (a ∈ es.*2) as Hin.
  { rewrite Hi. apply list_elem_of_fmap. exists (a, i). split; [done|]. by apply elem_of_map_to_list. }
  apply list_elem_of_fmap in Hin as ([k b] & -> & Hin). simpl in *. by destruct (Hk k b i Hin Ha) as [-> _].
Qed.

Lemma links_unique m h es a b i j :
  links m h es → h !! a = Some i → h !! b = Some j → uuid i = uuid j → a = b.
Proof.
  intros Hl Ha Hb He. pose proof (km_nodup _ _ (l_map _ _ _ Hl)) as Hnd.
  apply (links_entry _ _ _ _ _ Hl) in Ha, Hb. rewrite He in Ha.
  assert ((list_to_map es : gmap cstring addr) !! device_key (uuid j) = Some a) as H1 by by apply elem_of_list_to_map_1.
  apply (elem_of_list_to_map_1 (M := gmap cstring)) in Hb; [|done]. congruence.
Qed.

Lemma repr_unique t a b i j :
  repr t → infos t !! a = Some i → infos t !! b = Some j → uuid i = uuid j → a = b.
Proof.
  unfold repr. destruct (monitoredDevices t) as [m|]; [intros [es Hl]; by eapply links_unique|].
  by intros ->.
Qed.

(** Looking a device up. *)
Lemma find_spec t u : repr t → key_ok (device_key u) →
  (find_device u t = Ok None ∧ ∀ a i, infos t !! a = Some i → uuid i ≠ u) ∨
  ∃ a i, find_device u t = Ok (Some (a, i)) ∧ infos t !! a = Some i ∧ uuid i = u.
Proof.
  unfold repr, find_device. destruct (monitoredDevices t) as [m|]; intros Ht Hu.
  - destruct Ht as [es Hl]. rewrite (km_get_law _ _ _ (l_map _ _ _ Hl) Hu).
    pose proof (km_nodup _ _ (l_map _ _ _ Hl)) as Hnd. cbn [mbind outcome_bind].
    destruct (_ !! device_key u) as [a|] eqn:E.
    + apply elem_of_list_to_map_2 in E. destruct (links_live _ _ _ _ _ Hl E) as [i Hi]. rewrite Hi.
      right. exists a, i. split_and!; [done|done|].
      destruct (l_keys _ _ _ Hl _ _ _ E Hi) as [He _]. by apply device_key_inj in He.
    + left. split; [done|]. intros a i Ha <-. apply (links_entry _ _ _ _ _ Hl), elem_of_list_to_map_1 in Ha; [|done].
      by rewrite E in Ha.
  - left. split; [done|]. rewrite Ht. intros a i Ha. by rewrite lookup_empty in Ha.
Qed.

Lemma keys_delete h a i : h !! a = Some i → (map_to_list h).*1 ≡ₚ a :: (map_to_list (delete a h)).*1.
Proof.
  intros Ha. rewrite <-(insert_delete_id h a i Ha) at 1. by rewrite map_to_list_insert by (by rewrite lookup_delete_eq).
Qed.

Lemma keys_update h a i i' : h !! a = Some i → (map_to_list (<[a := i']> h)).*1 ≡ₚ (map_to_list h).*1.
Proof.
  intros Ha. rewrite (keys_delete h a i Ha), (keys_delete (<[a := i']> h) a i') by (by rewrite lookup_insert_eq).
  by rewrite delete_insert_eq.
Qed.

Lemma links_dom m h es a : links m h es → a ∈ es.*2 ↔ is_Some (h !! a).
Proof.
  intros Hl. rewrite (l_infos _ _ _ Hl), list_elem_of_fmap. split.
  - intros ([b i] & -> & Hb). exists i. by apply elem_of_map_to_list.
  - intros [i Hi]. exists (a, i). split; [done|]. by apply elem_of_map_to_list.
Qed.

Lemma repr_update t a i i' :
  repr t → infos t !! a = Some i → uuid i' = uuid i → repr (set_infos t (<[a := i']> (infos t))).
Proof.
  unfold repr. simpl. destruct (monitoredDevices t) as [m|]; intros Ht Ha Hu.
  - destruct Ht as [es Hl]. exists es. split; [apply Hl|by rewrite (keys_update _ _ i), (l_infos _ _ _ Hl)|].
    intros k b j Hin [[<- <-]|[_ Hb]]%lookup_insert_Some; [rewrite Hu|]; by eapply l_keys.
  - rewrite Ht in Ha. by rewrite lookup_empty in Ha.
Qed.

(** ** The operations that add and remove devices *)

Lemma monitor_spec t a u timeout f now :
  repr t → infos t !! a = None → Z.of_nat (size (infos t)) < 65535 → key_ok (device_key u) →
  ∃ t', deviceCommunicationWatchdogMonitorDevice a (Some u) timeout f now t = Ok t' ∧ repr t' ∧
    callbacks t' = callbacks t ∧ running t' = running t ∧
    (is_Some (monitoredDevices t') ↔ is_Some (monitoredDevices t)) ∧
    (infos t' = infos t ∨
     infos t' = <[a := mkInfo u timeout now f]> (infos t) ∧ ∀ b j, infos t !! b = Some j → uuid j ≠ u).
Proof.
  intros Ht Ha Hs Hu. unfold deviceCommunicationWatchdogMonitorDevice. case_decide; [exists t; tauto|].
  destruct (running t) eqn:Hr; [|exists t; tauto]. simpl.
  assert (Hback : ∀ m : option M, monitoredDevicesEntryDestroy a (mkState (<[a := mkInfo u timeout now f]> (infos t)) m (callbacks t)
    true (monitorThreadSleepSeconds t) (fastCommFailTimer t))
    = Ok (mkState (infos t) m (callbacks t) true (monitorThreadSleepSeconds t) (fastCommFailTimer t))).
  { intros m. unfold monitoredDevicesEntryDestroy. simpl. rewrite lookup_insert_eq. simpl. unfold set_infos. simpl.
    by rewrite delete_insert_id. }
  unfold repr in Ht. destruct (monitoredDevices t) as [m|] eqn:Hm.
  - destruct Ht as [es Hl]. pose proof (km_nodup _ _ (l_map _ _ _ Hl)) as Hnd.
    assert (Hz : zlen es < 65535).
    { pose proof (Permutation_length (l_infos _ _ _ Hl)) as Hp. rewrite !length_fmap, length_map_to_list in Hp. lia. }
    destruct (decide (device_key u ∈ es.*1)) as [Hin|Hin].
    + rewrite (km_put_old _ _ _ a (l_map _ _ _ Hl) Hu Hin). simpl. unfold set_infos, set_devices. simpl. rewrite Hr, Hback.
      eexists. split; [done|]. simpl. split_and!; [by exists es|done|done|done|by left].
    + destruct (km_put_new _ _ _ a (l_map _ _ _ Hl) Hu Hin Hz) as (m' & es' & -> & Hm' & Hp). simpl.
      eexists. split; [done|]. simpl. split_and!; [|done|done|by split; eexists|right; split; [done|]].
      * exists es'. unfold set_devices, set_infos. simpl. split; [done| |].
        -- rewrite Hp. simpl. rewrite map_to_list_insert by done. simpl. by rewrite (l_infos _ _ _ Hl).
        -- intros k b j Hb. rewrite Hp in Hb. apply elem_of_cons in Hb as [[= -> ->]|Hb].
           ++ rewrite lookup_insert_eq. by intros [= <-].
           ++ rewrite lookup_insert_ne; [by apply (l_keys _ _ _ Hl)|].
              intros <-. destruct (links_live _ _ _ _ _ Hl Hb) as [j' Hj]. congruence.
      * intros b j Hb <-. apply (links_entry _ _ _ _ _ Hl) in Hb. apply Hin. apply list_elem_of_fmap.
        by exists (device_key (uuid j), b).
  - simpl. unfold set_infos. simpl. rewrite Hm, Hr, Hback. eexists. split; [done|]. simpl. unfold repr. simpl. tauto.
Qed.

Lemma destroy_entry t a i : infos t !! a = Some i →
  monitoredDevicesEntryDestroy a t = Ok (set_infos t (delete a (infos t))).
Proof. intros Ha. unfold monitoredDevicesEntryDestroy. by rewrite Ha. Qed.

Lemma stop_spec t u : repr t → key_ok (device_key u) →
  ∃ t', deviceCommunicationWatchdogStopMonitoringDevice (Some u) t = Ok t' ∧ repr t' ∧
    callbacks t' = callbacks t ∧ running t' = running t ∧
    (is_Some (monitoredDevices t') ↔ is_Some (monitoredDevices t)) ∧
    (infos t' = infos t ∨ ∃ a i, infos t !! a = Some i ∧ uuid i = u ∧ infos t' = delete a (infos t)).
Proof.
  intros Ht Hu. unfold deviceCommunicationWatchdogStopMonitoringDevice, repr in *. oread.
  destruct (monitoredDevices t) as [m|] eqn:Hm; [|exists t; rewrite Hm; tauto]. destruct Ht as [es Hl].
  destruct (decide (device_key u ∈ es.*1)) as [Hin|Hin].
  - apply list_elem_of_fmap in Hin as ([k a] & Hk & Hin). simpl in Hk. subst k.
    destruct (km_delete_present _ _ _ _ (l_map _ _ _ Hl) Hu Hin) as (m' & es' & -> & Hm' & Hp). oread.
    destruct (links_live _ _ _ _ _ Hl Hin) as [i Hi]. rewrite (destroy_entry _ a i) by done.
    eexists. split; [done|]. unfold set_devices, set_infos. simpl.
    split_and!; [|done|done|by split; eexists|right; exists a, i; split_and!; [done| |done]].
    + exists es'. split; [done| |].
      * apply (Permutation_cons_inv (a := a)). transitivity (es.*2); [by rewrite Hp|].
        by rewrite (l_infos _ _ _ Hl), (keys_delete _ a i).
      * intros k b j Hb [_ Hj]%lookup_delete_Some. apply (l_keys _ _ _ Hl k b); [|done]. rewrite Hp. by right.
    + destruct (l_keys _ _ _ Hl _ _ _ Hin Hi) as [He _]. by apply device_key_inj in He.
  - rewrite (km_delete_absent _ _ _ (l_map _ _ _ Hl) Hu Hin). oread. eexists. split; [done|].
    unfold set_devices. simpl. split_and!; [by exists es|done|done|done|by left].
Qed.

Lemma destroy_entries vs : ∀ t, NoDup vs → (∀ a, a ∈ vs → is_Some (infos t !! a)) →
  ∃ h', foldM monitoredDevicesEntryDestroy vs t = Ok (set_infos t h') ∧
    ∀ a, h' !! a = if decide (a ∈ vs) then None else infos t !! a.
Proof.
  induction vs as [|a vs IH]; intros t Hnd Hv; cbn [foldM].
  - exists (infos t). split; [by destruct t|]. intros a. rewrite decide_False; [done|]. by apply not_elem_of_nil.
  - apply NoDup_cons in Hnd as [Ha Hnd]. destruct (Hv a) as [i Hi]; [by left|].
    rewrite (destroy_entry _ a i) by done. obind.
    destruct (IH (set_infos t (delete a (infos t))) Hnd) as (h' & -> & Hh').
    { simpl. intros b Hb. rewrite lookup_delete_ne by (by intros <-). apply Hv. by right. }
    exists h'. split; [by destruct t|]. intros b. rewrite Hh'. simpl. destruct (decide (a = b)) as [<-|Hne].
    + rewrite lookup_delete_eq, (decide_True (P := a ∈ a :: vs)) by (by left). by case_decide.
    + rewrite lookup_delete_ne by done. destruct (decide (b ∈ vs)).
      * by rewrite decide_True by (by right).
      * rewrite decide_False; [done|]. intros [?|?]%elem_of_cons; congruence.
Qed.

Lemma term_spec t : repr t →
  ∃ t', deviceCommunicationWatchdogTerm t = Ok t' ∧ repr t' ∧ infos t' = ∅ ∧
    callbacks t' = false ∧ running t' = false ∧ monitoredDevices t' = None.
Proof.
  unfold repr, deviceCommunicationWatchdogTerm. simpl. intros Ht.
  destruct (monitoredDevices t) as [m|] eqn:Hm; [|eexists; split; [done|]; simpl; by rewrite Hm].
  destruct Ht as [es Hl]. destruct (km_clear_law _ _ (l_map _ _ _ Hl)) as (m' & -> & _). obind.
  pose proof (λ a, links_dom m (infos t) es a Hl) as Hin.
  destruct (destroy_entries es.*2 (set_control t false false)) as (h' & -> & Hh').
  { rewrite (l_infos _ _ _ Hl). apply NoDup_fst_map_to_list. }
  { simpl. intros a. apply Hin. }
  obind. eexists. split; [done|]. simpl. assert (h' = ∅) as ->; [|done].
  apply map_eq. intros a. rewrite Hh', lookup_empty. simpl. case_decide as Ha; [done|].
  rewrite Hin in Ha. by apply eq_None_not_Some.
Qed.

(** ** Looking for silent devices *)

(** What a round of the loop makes of an info. *)
Definition mark (fast : bool) (now : Z) i : MonitoredDeviceInfo :=
  if silent fast now i then set_fail i true else i.

Lemma check_entries clk fast vs : ∀ n h us, NoDup vs → (∀ a, a ∈ vs → is_Some (h !! a)) →
  ∃ h' new, foldM (check_device clk fast) vs (n, h, us) = Ok ((n + length vs)%nat, h', us ++ new) ∧
    (map_to_list h').*1 ≡ₚ (map_to_list h).*1 ∧ gather failing h' ≡ₚ new ++ gather failing h ∧
    (∀ a, a ∉ vs → h' !! a = h !! a) ∧
    (∀ a i, a ∈ vs → h !! a = Some i → ∃ k, (n ≤ k < n + length vs)%nat ∧ h' !! a = Some (mark fast (clk k) i) ∧
       (inCommFail i = false → silent fast (clk k) i = true → uuid i ∈ new)) ∧
    (∀ u, u ∈ new → ∃ a i, a ∈ vs ∧ h !! a = Some i ∧ uuid i = u ∧ inCommFail i = false ∧
       h' !! a = Some (set_fail i true)).
Proof.
  induction vs as [|a vs IH]; intros n h us Hnd Hv; simpl.
  - exists h, []. rewrite Nat.add_0_r, app_nil_r. split_and!; [done|done|done|done| |];
      [by intros a i Ha%not_elem_of_nil|by intros u Hu%not_elem_of_nil].
  - apply NoDup_cons in Hnd as [Ha Hnd]. destruct (Hv a) as [i Hi]; [by left|]. rewrite Hi. oread.
    assert (Hne : ∀ b, b ∈ vs → a ≠ b) by by intros b Hb <-.
    destruct (silent fast (clk n) i && negb (inCommFail i)) eqn:E; simpl.
    + apply andb_true_iff in E as [Es Ef%negb_true_iff].
      destruct (IH (S n) (<[a := set_fail i true]> h) (us ++ [uuid i]) Hnd) as (h' & new & -> & Hk & Hg & Ho & Hm & Hn).
      { intros b Hb. rewrite lookup_insert_ne by auto. apply Hv. by right. }
      exists h', (uuid i :: new). split_and!.
      * rewrite <-app_assoc. by rewrite <-Nat.add_succ_comm.
      * by rewrite Hk, (keys_update _ _ i).
      * rewrite Hg, (gather_more _ _ _ i _ (uuid i)); [solve_Permutation|done|].
        unfold failing. simpl. by rewrite Ef.
      * intros b [Hb1 Hb2]%not_elem_of_cons. rewrite Ho by done. by rewrite lookup_insert_ne.
      * intros b j [->|Hb]%elem_of_cons Hj.
        -- exists n. split; [lia|]. rewrite Ho, lookup_insert_eq by done. rewrite Hi in Hj. injection Hj as <-.
           unfold mark. rewrite Es. split; [done|]. intros _ _. by left.
        -- destruct (Hm b j Hb) as (k & ? & ? & Hnew); [by rewrite lookup_insert_ne by auto|].
           exists k. split; [lia|]. split; [done|]. intros. right. auto.
      * intros u [->|Hu]%elem_of_cons.
        { exists a, i. split_and!; [by left|done..|]. by rewrite Ho, lookup_insert_eq. }
        destruct (Hn u Hu) as (b & j & Hb & Hj & ?). rewrite lookup_insert_ne in Hj by auto.
        exists b, j. split; [by right|done].
    + destruct (IH (S n) h us Hnd) as (h' & new & -> & Hk & Hg & Ho & Hm & Hn); [intros b Hb; apply Hv; by right|].
      exists h', new. split_and!; [by rewrite <-Nat.add_succ_comm|done|done| | |].
      * intros b [_ Hb]%not_elem_of_cons. by apply Ho.
      * intros b j [->|Hb]%elem_of_cons Hj.
        -- exists n. split; [lia|]. rewrite Ho, Hi by done. rewrite Hi in Hj. injection Hj as <-.
           unfold mark. destruct (silent fast (clk n) i); simpl in E; [|by split].
           apply negb_false_iff in E. split; [|congruence]. destruct i; simpl in *. by subst.
        -- destruct (Hm b j Hb Hj) as (k & ? & ?). exists k. split; [lia|done].
      * intros u Hu. destruct (Hn u Hu) as (b & j & Hb & ?). exists b, j. split; [by right|done].
Qed.

Lemma check_devices_spec clk t : repr t →
  ∃ n new t', check_devices clk t = Ok (n, new, t') ∧ repr t' ∧
    callbacks t' = callbacks t ∧ running t' = running t ∧ monitoredDevices t' = monitoredDevices t ∧
    gather failing (infos t') ≡ₚ new ++ gather failing (infos t) ∧
    (∀ a, infos t !! a = None → infos t' !! a = None) ∧
    (∀ a i, infos t !! a = Some i → ∃ k, (k < n)%nat ∧ infos t' !! a = Some (mark (fastCommFailTimer t) (clk k) i) ∧
       (inCommFail i = false → silent (fastCommFailTimer t) (clk k) i = true → uuid i ∈ new)) ∧
    (∀ u, u ∈ new → ∃ a i, infos t !! a = Some i ∧ uuid i = u ∧ inCommFail i = false ∧
       infos t' !! a = Some (set_fail i true)).
Proof.
  unfold repr, check_devices. intros Ht. destruct (monitoredDevices t) as [m|] eqn:Hm.
  - destruct Ht as [es Hl]. rewrite (km_foreach_law _ _ _ _ (l_map _ _ _ Hl)).
    pose proof (λ a, links_dom m (infos t) es a Hl) as Hin.
    destruct (check_entries clk (fastCommFailTimer t) es.*2 0 (infos t) []) as (h' & new & -> & Hk & Hg & Ho & Hd & Hn).
    { rewrite (l_infos _ _ _ Hl). apply NoDup_fst_map_to_list. }
    { intros a. apply Hin. }
    obind. eexists _, new, _. split; [done|]. simpl. rewrite Hm.
    assert (Hdom : ∀ a, infos t !! a = None → h' !! a = None).
    { intros a Ha. rewrite Ho; [done|]. rewrite Hin, Ha. by intros [? ?]. }
    split_and!; [|done|done|done|done|done| |].
    + exists es. split; [apply Hl|by rewrite Hk, (l_infos _ _ _ Hl)|]. intros k a i Hka Hi.
      destruct (infos t !! a) as [j|] eqn:Hj; [|by rewrite Hdom in Hi].
      destruct (Hd a j) as (k' & _ & Hk' & _); [by rewrite Hin, Hj|done|].
      rewrite Hk' in Hi. injection Hi as <-. unfold mark.
      destruct (l_keys _ _ _ Hl _ _ _ Hka Hj). by destruct (silent _ _ _).
    + intros a i Hi. destruct (Hd a i) as (k & Hlt & ? & ?); [by rewrite Hin, Hi|done|]. exists k. split; [lia|done].
    + intros u Hu. destruct (Hn u Hu) as (a & i & _ & ?). by exists a, i.
  - exists 0%nat, [], t. rewrite Hm. split_and!; [done|done|done|done|done|done|done| |by intros u Hu%not_elem_of_nil].
    intros a i Hi. rewrite Ht in Hi. by rewrite lookup_empty in Hi.
Qed.

(** ** The invariant *)

Lemma known_some t a i : repr t → infos t !! a = Some i → key_ok (device_key (uuid i)) → known (uuid i) t = Some i.
Proof.
  intros Ht Ha Hk. unfold known. destruct (find_spec t (uuid i) Ht Hk) as [[_ Hn]|(b & j & -> & Hb & Hj)].
  - by destruct (Hn a i Ha).
  - rewrite (repr_unique t b a j i Ht Hb Ha Hj) in Hb. congruence.
Qed.

Lemma known_none t u : repr t → key_ok (device_key u) → (∀ a i, infos t !! a = Some i → uuid i ≠ u) → known u t = None.
Proof.
  intros Ht Hk Hn. unfold known. destruct (find_spec t u Ht Hk) as [[-> _]|(b & j & _ & Hb & Hj)]; [done|].
  by destruct (Hn b j Hb).
Qed.

Definition idle (cl : gmap nat client) (c : nat) : Prop := default Idle (cl !! c) = Idle.

Lemma gather_idle (f : client → list cstring) cl c k :
  f Idle = [] → idle cl c → gather f (<[c := k]> cl) ≡ₚ f k ++ gather f cl.
Proof.
  intros Hf Hc. rewrite gather_insert. unfold idle in Hc. destruct (cl !! c) as [k'|] eqn:E; simpl in Hc.
  - subst k'. by rewrite (gather_delete f cl c Idle E), Hf.
  - by rewrite delete_id.
Qed.

Record inv s : Prop := {
  v_repr : repr (st s);
  v_control : running (st s) = callbacks (st s);
  v_map : is_Some (monitoredDevices (st s)) ↔ callbacks (st s) = true;
  v_quiet : callbacks (st s) = false →
    gather to_fail (clients s) = [] ∧ gather to_restore (clients s) = [] ∧ reports (thread s) = [];
  v_balance : balance (log s) (clients s) (thread s) (infos (st s));
  v_heard a i : infos (st s) !! a = Some i → key_ok (device_key (uuid i)) ∧
    heard (uuid i) (log s) = Some (lastSuccessfulCommunicationMillis i) ∧
    0 ≤ lastSuccessfulCommunicationMillis i ≤ clock s;
  v_clock : 0 ≤ clock s < 18446744073709551616
}.

(** What the callers keep to: a client makes one call at a time; the uuids fit
    the 16-bit key length; there is room for another device; time does not go
    backwards; the watchdog is started when its last thread has ended and
    stopped when no callback is about to be called. *)
Definition contract (c : nat) (act : action) s : Prop :=
  match act with
  | AInit _ => callbacks (st s) = true ∨ thread s = Ended
  | ATerm => idle (clients s) c ∧ callbacks (st s) = true ∧
      gather to_fail (clients s) = [] ∧ gather to_restore (clients s) = [] ∧ reports (thread s) = []
  | AMonitor a u _ _ => idle (clients s) c ∧ infos (st s) !! a = None ∧
      Z.of_nat (size (infos (st s))) < 65535 ∧ key_ok (device_key u)
  | AStop u | APet u | AForce u | AReset u _ => idle (clients s) c ∧ key_ok (device_key u)
  | ATick t => clock s ≤ t < 18446744073709551616
  | AThread clk => ∀ n, clock s ≤ clk n ∧ clk n ≤ clk (S n) ∧ clk n < 18446744073709551616
  | _ => True
  end.

Lemma balance_app l l' cl p h :
  balance (l ++ l') cl p h ↔
  (entered l ++ entered l') ++ (failed l ++ failed l') ++ gather to_fail cl ++ reports p
  ≡ₚ (restored l ++ restored l') ++ (left_in l ++ left_in l') ++ gather to_restore cl ++ gather failing h.
Proof. unfold balance. by destruct (log_app l l') as (-> & -> & -> & ->). Qed.

(** A segment that changes one info, under its uuid, and calls back later. *)
Lemma inv_change s a i i' cl' l :
  inv s → infos (st s) !! a = Some i → uuid i' = uuid i →
  (gather to_fail cl' ++ gather to_restore (clients s) ++ failing i
   ≡ₚ gather to_fail (clients s) ++ gather to_restore cl' ++ failing i') →
  (l = [] ∧ lastSuccessfulCommunicationMillis i' = lastSuccessfulCommunicationMillis i ∨
   l = [Heard (uuid i) (clock s)] ∧ lastSuccessfulCommunicationMillis i' = clock s) →
  inv (mkSys (set_infos (st s) (<[a := i']> (infos (st s)))) (clock s) (thread s) cl' (log s ++ l)).
Proof.
  intros [Hr Hc Hm Hq Hb Hh Ht] Ha Hu Hp Hl.
  assert (callbacks (st s) = true) as Hcb.
  { apply Hm. destruct (monitoredDevices (st s)) eqn:E; [done|]. unfold repr in Hr. rewrite E in Hr.
    rewrite Hr in Ha. by rewrite lookup_empty in Ha. }
  assert (Hn : entered l = [] ∧ failed l = [] ∧ restored l = [] ∧ left_in l = []) by by destruct Hl as [[-> _]|[-> _]].
  destruct Hn as (He & Hf & Hre & Hle).
  split; simpl; [by eapply repr_update|done|done|by rewrite Hcb| | |done].
  - apply balance_app. rewrite He, Hf, Hre, Hle, !app_nil_r. rewrite gather_insert.
    unfold balance in Hb. rewrite (gather_delete failing _ a i Ha) in Hb.
    apply (Permutation_app_inv_l (gather to_fail (clients s) ++ gather to_restore (clients s) ++ failing i)).
    trans ((entered (log s) ++ failed (log s) ++ gather to_fail (clients s) ++ reports (thread s)) ++
           (gather to_fail cl' ++ gather to_restore (clients s) ++ failing i)); [solve_Permutation|].
    rewrite Hb, Hp. solve_Permutation.
  - intros b j. rewrite heard_app. intros [[<- <-]|[Hne Hj]]%lookup_insert_Some.
    + rewrite Hu. destruct (Hh a i Ha) as (Hk & H1 & H2). split; [done|].
      destruct Hl as [[-> ->]|[-> ->]]; [by split|]. unfold heard. simpl. rewrite decide_True by done. split; [done|lia].
    + destruct (Hh b j Hj) as (Hk & H1 & H2). split; [done|]. split; [|done]. rewrite H1.
      destruct Hl as [[-> _]|[-> _]]; [done|]. unfold heard. simpl. rewrite decide_False; [done|].
      intros He'. apply Hne. by eapply repr_unique.
Qed.

Lemma inv_same s : inv s → inv (mkSys (st s) (clock s) (thread s) (clients s) (log s ++ [])).
Proof. intros Hi. rewrite app_nil_r. by destruct s. Qed.

(** ** The calls *)

Lemma inv_pet s c u : inv s → idle (clients s) c → key_ok (device_key u) → ∃ s', run c (APet u) s = Ok s' ∧ inv s'.
Proof.
  intros Hi Hc Hu. simpl. unfold deviceCommunicationWatchdogPetDevice.
  destruct (find_spec (st s) u (v_repr _ Hi) Hu) as [[-> Hn]|(a & i & -> & Ha & <-)]; obind.
  - rewrite (known_none _ _ (v_repr _ Hi) Hu Hn). eexists. split; [done|]. by apply inv_same.
  - set (i' := set_fail (set_last i (clock s)) false).
    assert (Hk : known (uuid i) (set_infos (st s) (<[a := i']> (infos (st s)))) = Some i').
    { apply (known_some _ a i'); [by eapply (repr_update _ a i); [apply Hi|..]| |done]. simpl. by rewrite lookup_insert_eq. }
    rewrite Hk. destruct (inCommFail i) eqn:Hf; eexists; (split; [done|]); apply inv_change with i; try done.
    + rewrite !gather_idle by done. unfold failing. rewrite Hf. simpl. solve_Permutation.
    + by right.
    + unfold failing. by rewrite Hf.
    + by right.
Qed.

Lemma inv_force s c u : inv s → idle (clients s) c → key_ok (device_key u) → ∃ s', run c (AForce u) s = Ok s' ∧ inv s'.
Proof.
  intros Hi Hc Hu. simpl. unfold deviceCommunicationWatchdogForceDeviceInCommFail.
  destruct (find_spec (st s) u (v_repr _ Hi) Hu) as [[-> Hn]|(a & i & -> & Ha & <-)]; obind.
  - eexists. split; [done|]. by apply inv_same.
  - destruct (inCommFail i) eqn:Hf; eexists; (split; [done|]); [by apply inv_same|].
    apply inv_change with i; [done|done|done| |by left].
    rewrite !gather_idle by done. unfold failing. rewrite Hf. simpl. solve_Permutation.
Qed.

Lemma inv_reset s c u timeout :
  inv s → idle (clients s) c → key_ok (device_key u) → ∃ s', run c (AReset u timeout) s = Ok s' ∧ inv s'.
Proof.
  intros Hi Hc Hu. simpl. unfold deviceCommunicationWatchdogResetTimeoutForDevice. case_decide as Ht.
  { obind. rewrite bool_decide_true by done. eexists. split; [done|]. destruct (known _ _); by apply inv_same. }
  destruct (find_spec (st s) u (v_repr _ Hi) Hu) as [[-> Hn]|(a & i & -> & Ha & <-)]; obind.
  - rewrite (known_none _ _ (v_repr _ Hi) Hu Hn). eexists. split; [done|]. by apply inv_same.
  - set (i' := if inCommFail _ then _ else _).
    assert (uuid i' = uuid i) as Hui by (unfold i'; simpl; by destruct (inCommFail i)).
    assert (Hk : known (uuid i) (set_infos (st s) (<[a := i']> (infos (st s)))) = Some i').
    { rewrite <-Hui in Hu |- *. apply (known_some _ a i'); [by eapply (repr_update _ a i); [apply Hi|..]| |done].
      simpl. by rewrite lookup_insert_eq. }
    rewrite Hk, bool_decide_false by done. unfold i' in *. simpl in *.
    destruct (inCommFail i) eqn:Hf; simpl; rewrite ?Hf; (eexists; split; [done|]); apply inv_change with i; try done;
      unfold failing; simpl; rewrite ?Hf; try done; [by left|by right].
Qed.

Lemma inv_monitor s c a u timeout f :
  inv s → infos (st s) !! a = None → Z.of_nat (size (infos (st s))) < 65535 → key_ok (device_key u) →
  ∃ s', run c (AMonitor a u timeout f) s = Ok s' ∧ inv s'.
Proof.
  intros Hi Ha Hz Hu. unfold run.
  destruct (monitor_spec (st s) a u timeout f (clock s) (v_repr _ Hi) Ha Hz Hu) as (t & -> & Hr & Hcb & Hru & Hm & Ht).
  obind. eexists. split; [done|]. destruct Hi as [_ Hc Hmap Hq Hb Hh Hcl].
  destruct Ht as [Hsame|[Hnew Hn]].
  - rewrite Hsame, Ha, app_nil_r. split; simpl; rewrite ?Hcb, ?Hru, ?Hm, ?Hsame; done.
  - rewrite Hnew, lookup_insert_eq. split; simpl; rewrite ?Hcb, ?Hru, ?Hm; [done|done|done|done| | |done].
    + apply balance_app. rewrite Hnew, gather_new by done. unfold balance in Hb. unfold failing. simpl.
      rewrite !app_nil_r. destruct f; simpl; [|by rewrite app_nil_r].
      trans (u :: entered (log s) ++ failed (log s) ++ gather to_fail (clients s) ++ reports (thread s));
        [solve_Permutation|]. rewrite Hb. solve_Permutation.
    + rewrite Hnew. intros b j. rewrite heard_app. intros [[<- <-]|[Hne Hj]]%lookup_insert_Some.
      * simpl. unfold heard. simpl. rewrite decide_True by done. split; [done|]. split; [done|lia].
      * unfold heard at 1. simpl. rewrite decide_False by (by intros He; destruct (Hn b j Hj)). by apply (Hh b).
Qed.

Lemma left_events_delete h a i : h !! a = Some i → left_events h (delete a h) = [Left (uuid i) (inCommFail i)].
Proof.
  intros Ha. unfold left_events. assert (h ∖ delete a h = {[a := i]}) as ->; [|by rewrite map_to_list_singleton].
  apply map_eq. intros b. rewrite lookup_difference. destruct (decide (a = b)) as [<-|Hne].
  - by rewrite lookup_delete_eq, lookup_singleton_eq.
  - rewrite lookup_delete_ne, lookup_singleton_ne by done. by destruct (h !! b).
Qed.

Lemma left_events_none h : left_events h h = [].
Proof. unfold left_events. by rewrite map_difference_diag, map_to_list_empty. Qed.

Lemma left_quiet h h' :
  entered (left_events h h') = [] ∧ failed (left_events h h') = [] ∧ restored (left_events h h') = [] ∧
  ∀ u, heard u (left_events h h') = None.
Proof.
  unfold left_events. generalize (map_to_list (h ∖ h')). intros l. unfold entered, failed, restored, heard.
  induction l as [|e l (? & ? & ? & Hh)]; [done|]. simpl. split_and!; try done.
Qed.

Lemma left_all h : left_in (left_events h ∅) ≡ₚ gather failing h.
Proof.
  unfold left_events, gather. assert (h ∖ ∅ = h) as ->.
  { apply map_eq. intros a. rewrite lookup_difference, lookup_empty. by destruct (h !! a). }
  unfold left_in. induction (map_to_list h) as [|[a i] l IH]; [done|]. simpl.
  unfold failing at 1. simpl. destruct (inCommFail i); simpl; [by f_equiv|done].
Qed.

Lemma inv_stop s c u : inv s → key_ok (device_key u) → ∃ s', run c (AStop u) s = Ok s' ∧ inv s'.
Proof.
  intros Hi Hu. unfold run.
  destruct (stop_spec (st s) u (v_repr _ Hi) Hu) as (t & -> & Hr & Hcb & Hru & Hm & Ht). obind.
  eexists. split; [done|]. destruct Hi as [_ Hc Hmap Hq Hb Hh Hcl].
  destruct Ht as [Hsame|(a & i & Ha & _ & Hdel)].
  - rewrite Hsame, left_events_none, app_nil_r. split; simpl; rewrite ?Hcb, ?Hru, ?Hm, ?Hsame; done.
  - rewrite Hdel, (left_events_delete _ _ i Ha). split; simpl; rewrite ?Hcb, ?Hru, ?Hm; [done|done|done|done| | |done].
    + apply balance_app. rewrite Hdel. unfold balance in Hb. rewrite (gather_delete failing _ a i Ha) in Hb.
      unfold failing at 1 in Hb. simpl. rewrite !app_nil_r. destruct (inCommFail i); simpl in *; [|by rewrite app_nil_r].
      rewrite Hb. solve_Permutation.
    + intros b j. rewrite Hdel, heard_app. intros [_ Hj]%lookup_delete_Some. by apply (Hh b).
Qed.

Lemma inv_term s c : inv s → contract c ATerm s → ∃ s', run c ATerm s = Ok s' ∧ inv s'.
Proof.
  intros Hi (Hid & Hcb & Hf & Hre & Hp). unfold run.
  destruct (term_spec (st s) (v_repr _ Hi)) as (t & -> & Hr & Hinf & Hc' & Hru & Hm). obind.
  eexists. split; [done|]. destruct Hi as [_ Hc Hmap Hq Hb Hh Hcl]. rewrite Hinf.
  destruct (left_quiet (infos (st s)) ∅) as (He & Hfa & Hres & Hhe).
  assert (Hg : ∀ f, f Idle = [] → f Joining = [] → gather f (clients s) = [] →
    gather f (<[c := Joining]> (clients s)) = @nil cstring).
  { intros f H1 H2 H3. apply Permutation_nil. by rewrite gather_idle, H2, H3. }
  split; simpl; rewrite ?Hc', ?Hru, ?Hm; [done|done|by split; [intros [? ?]|]|by rewrite !Hg| | |done].
  - apply balance_app. rewrite He, Hfa, Hres, Hinf, gather_empty, !Hg, left_all, !app_nil_r by done. unfold balance in Hb.
    rewrite Hf, Hre in Hb. simpl in *. by rewrite Hb.
  - rewrite Hinf. intros a i. by rewrite lookup_empty.
Qed.

Lemma gather_cleared (f : client → list cstring) (cl : gmap nat client) c k :
  f Idle = [] → cl !! c = Some k → gather f cl = [] → f k = [] ∧ gather f (<[c := Idle]> cl) = [].
Proof.
  intros Hf E Hn. pose proof (Permutation_length (gather_delete f cl c k E)) as Hl. rewrite Hn, length_app in Hl.
  simpl in Hl. split; apply nil_length_inv; [lia|]. rewrite gather_insert, Hf. simpl. lia.
Qed.

Lemma inv_go_on s c : inv s → ∃ s', run c AGoOn s = Ok s' ∧ inv s'.
Proof.
  intros Hi. simpl. destruct (clients s !! c) as [k|] eqn:E; [|by exists s].
  assert (Hcb : to_fail k ≠ [] ∨ to_restore k ≠ [] → callbacks (st s) = true).
  { intros Hk. destruct (callbacks (st s)) eqn:Hcb; [done|]. destruct (v_quiet _ Hi Hcb) as (Hf & Hr & _).
    apply (gather_cleared _ _ c k) in Hf as [? _], Hr as [? _]; tauto. }
  assert (Hdone : ∀ l, (entered l = [] ∧ left_in l = [] ∧ (∀ u, heard u l = None)) →
    failed l ≡ₚ to_fail k → restored l ≡ₚ to_restore k →
    inv (mkSys (st s) (clock s) (thread s) (<[c := Idle]> (clients s)) (log s ++ l))).
  { intros l (He & Hl & Hh) Hf Hr. destruct Hi as [Hrep Hc Hmap Hq Hb Hhe Hcl]. split; simpl; [done|done|done| | | |done].
    - intros Hx. destruct (Hq Hx) as (H1 & H2 & H3).
      apply (gather_cleared _ _ c k) in H1 as [_ H1], H2 as [_ H2]; done.
    - apply balance_app. rewrite He, Hl, Hf, Hr, !gather_insert, !app_nil_r. simpl. unfold balance in Hb.
      rewrite (gather_delete to_fail _ c k E), (gather_delete to_restore _ c k E) in Hb.
      trans (entered (log s) ++ failed (log s) ++ (to_fail k ++ gather to_fail (delete c (clients s))) ++ reports (thread s));
        [solve_Permutation|]. rewrite Hb. solve_Permutation.
    - intros a i Ha. rewrite heard_app, Hh. by apply (Hhe a). }
  destruct k as [|u|u|]; [by exists s| | |].
  - unfold callback. rewrite Hcb by (by left). obind. eexists. split; [done|]. by apply Hdone.
  - unfold callback. rewrite Hcb by (by right). obind. eexists. split; [done|]. by apply Hdone.
  - destruct (thread s); try by exists s. eexists. split; [done|]. by apply Hdone.
Qed.

(** ** The thread *)

Lemma inv_moves s p : inv s → reports p = reports (thread s) → inv (mkSys (st s) (clock s) p (clients s) (log s)).
Proof. intros [] Hp. split; simpl; try done; unfold balance; by rewrite Hp. Qed.

Lemma mark_fields fast now i :
  uuid (mark fast now i) = uuid i ∧
  lastSuccessfulCommunicationMillis (mark fast now i) = lastSuccessfulCommunicationMillis i.
Proof. unfold mark. by destruct (silent fast now i). Qed.

Lemma clock_rounds clk s n k :
  contract 0 (AThread clk) s → (k < n)%nat →
  clock s ≤ clk k ≤ match n with O => clock s | S n => clk n end.
Proof.
  intros Hc Hk. destruct n as [|n]; [lia|]. split; [apply Hc|]. induction n as [|n IH].
  - assert (k = 0%nat) as -> by lia. done.
  - destruct (decide (k = S n)) as [->|Hne]; [done|]. transitivity (clk n); [apply IH; lia|apply Hc].
Qed.

Lemma inv_checking s clk :
  inv s → thread s = Checking → contract 0 (AThread clk) s →
  ∃ n new t, run 0 (AThread clk) s = Ok (mkSys t (match n with O => clock s | S n => clk n end) (Notify new) (clients s) (log s)) ∧
    check_devices clk (st s) = Ok (n, new, t) ∧
    inv (mkSys t (match n with O => clock s | S n => clk n end) (Notify new) (clients s) (log s)).
Proof.
  intros Hi Hp Hc. destruct (check_devices_spec clk (st s) (v_repr _ Hi)) as (n & new & t & E & Hr & Hcb & Hru & Hm & Hg & Hn & Hd & Hu).
  exists n, new, t. split; [|split; [done|]].
  { simpl. unfold thread_step. by rewrite Hp, E. }
  assert (Hclk : clock s ≤ match n with O => clock s | S n => clk n end < 18446744073709551616).
  { destruct n as [|n]; [split; [done|apply Hi]|]. destruct (Hc n) as (? & ? & ?). lia. }
  destruct Hi as [Hrep Hco Hmap Hq Hb Hh Hcl]. rewrite Hp in *. split; simpl; rewrite ?Hcb, ?Hru, ?Hm; try done; [..|lia].
  - intros Hx. destruct (Hq Hx) as (? & ? & _). split_and!; [done|done|].
    destruct new as [|u new]; [done|]. destruct (Hu u) as (a & i & Ha & _); [by left|].
    unfold repr in Hrep. destruct (monitoredDevices (st s)) as [m|] eqn:E'.
    + assert (callbacks (st s) = true) by (by apply Hmap; eexists). congruence.
    + rewrite Hrep in Ha. by rewrite lookup_empty in Ha.
  - unfold balance in *. rewrite Hg. simpl in *. rewrite app_nil_r in Hb.
    trans (new ++ entered (log s) ++ failed (log s) ++ gather to_fail (clients s)); [solve_Permutation|].
    rewrite Hb. solve_Permutation.
  - intros a j Hj. destruct (infos (st s) !! a) as [i|] eqn:Ha; [|by rewrite Hn in Hj].
    destruct (Hd a i Ha) as (k & _ & Hk & _). rewrite Hk in Hj. injection Hj as <-.
    destruct (mark_fields (fastCommFailTimer (st s)) (clk k) i) as [-> ->].
    destruct (Hh a i Ha) as (? & ? & ?). split_and!; [done|done|lia|lia].
Qed.

Lemma inv_thread_step s c clk : inv s → contract c (AThread clk) s → ∃ s', run c (AThread clk) s = Ok s' ∧ inv s'.
Proof.
  intros Hi Hc. destruct (thread s) as [| | |[|u us]|] eqn:Hp.
  - eexists. simpl. unfold thread_step. rewrite Hp. split; [done|]. apply inv_moves; [done|]. rewrite Hp. by destruct (running (st s)).
  - eexists. simpl. unfold thread_step. rewrite Hp. split; [done|]. apply inv_moves; [done|]. by rewrite Hp.
  - destruct (inv_checking s clk Hi Hp Hc) as (n & new & t & Hr & _ & Hi'). by eexists.
  - eexists. simpl. unfold thread_step. rewrite Hp. split; [done|]. apply inv_moves; [done|]. by rewrite Hp.
  - simpl. unfold thread_step, callback. rewrite Hp. destruct (callbacks (st s)) eqn:Hcb.
    + obind. eexists. split; [done|]. destruct Hi as [Hrep Hco Hmap Hq Hb Hh Hcl]. rewrite Hp in *.
      split; simpl; try done; [by rewrite Hcb|..].
      * apply balance_app. unfold balance in Hb. simpl in *. rewrite !app_nil_r. rewrite <-Hb. solve_Permutation.
      * intros a i Ha. rewrite heard_app. by apply (Hh a).
    + destruct (v_quiet _ Hi Hcb) as (_ & _ & Hx). by rewrite Hp in Hx.
  - exists s. simpl. unfold thread_step. by rewrite Hp.
Qed.

Lemma inv_init s c fast : inv s → contract c (AInit fast) s → ∃ s', run c (AInit fast) s = Ok s' ∧ inv s'.
Proof.
  intros Hi Hc. simpl. unfold deviceCommunicationWatchdogInit. simpl. destruct (callbacks (st s)) eqn:Hcb.
  - eexists. split; [done|]. by destruct s.
  - destruct Hc as [Hc|Hc]; [congruence|]. eexists. split; [done|].
    destruct Hi as [Hrep Hco Hmap Hq Hb Hh Hcl]. destruct (Hq Hcb) as (_ & _ & Hp).
    assert (infos (st s) = ∅) as Hinf.
    { unfold repr in Hrep. destruct (monitoredDevices (st s)); [|done].
      assert (callbacks (st s) = true) by (by apply Hmap; eexists). congruence. }
    split; simpl; try done.
    + unfold repr. simpl. rewrite Hinf. exists []. split; [apply km_create_law|by rewrite map_to_list_empty|by intros k a i Hx%not_elem_of_nil].
    + unfold balance in *. by rewrite Hp in Hb.
Qed.

Lemma inv_control s t :
  inv s → repr t → infos t = infos (st s) → monitoredDevices t = monitoredDevices (st s) →
  callbacks t = callbacks (st s) → running t = running (st s) →
  inv (mkSys t (clock s) (thread s) (clients s) (log s ++ [])).
Proof. intros [] Hr Hi Hm Hc Hru. rewrite app_nil_r. split; simpl; rewrite ?Hi, ?Hm, ?Hc, ?Hru; done. Qed.

Lemma inv_run s c act : inv s → contract c act s → ∃ s', run c act s = Ok s' ∧ inv s'.
Proof.
  intros Hi Hc. destruct act as [fast| |n|k v|a u timeout f|u|u|u|u timeout| |t|clk].
  - by apply inv_init.
  - by apply inv_term.
  - eexists. split; [done|]. apply inv_control; try done. apply Hi.
  - eexists. split; [done|]. unfold handlePropertyChangedEvent.
    case_decide; apply inv_control; try done; apply Hi.
  - destruct Hc as (_ & ? & ? & ?). by apply inv_monitor.
  - destruct Hc as [_ ?]. by apply inv_stop.
  - destruct Hc. by apply inv_pet.
  - destruct Hc. by apply inv_force.
  - destruct Hc. by apply inv_reset.
  - by apply inv_go_on.
  - eexists. split; [done|]. simpl in Hc. destruct Hi as [Hrep Hco Hmap Hq Hb Hh Hcl]. split; simpl; try done; [|lia].
    intros a i Ha. destruct (Hh a i Ha) as (? & ? & ?). split_and!; [done|done|lia|lia].
  - by apply inv_thread_step.
Qed.

(** ** The claims *)

Definition exec s s' : Prop := ∃ c act, contract c act s ∧ run c act s = Ok s'.

(** Before the first initialisation. *)
Definition start (now : Z) : sys M :=
  mkSys (mkState ∅ None false false MONITOR_THREAD_SLEEP_SECS false) now Ended ∅ [].

Lemma commFail_reachable now s : 0 ≤ now < 18446744073709551616 → rtc exec (start now) s → inv s.
Proof.
  intros Hn. revert s. apply rtc_ind_r; [|intros s s' _ (c & act & Hc & Hr) Hi].
  - split; simpl; try done. unfold balance. simpl. by rewrite !gather_empty.
  - destruct (inv_run s c act Hi Hc) as (s1 & Hr1 & Hi1). by rewrite Hr in Hr1; injection Hr1 as ->.
Qed.

(** C35: every change is reported once.  Whatever callers and the thread do
    within the contract, in whatever order: no call and no callback faults; a
    device under observation is found under its uuid, and its info says when
    it was last heard of; and for every device, the times it came under
    observation in comm fail and the failures reported or about to be are, as
    often, restorations reported or about to be, times it was taken out in
    comm fail, or its being in comm fail now. *)
Theorem commFail_reports now s :
  0 ≤ now < 18446744073709551616 → rtc exec (start now) s →
  (∀ c act, contract c act s → ∃ s', run c act s = Ok s') ∧
  (∀ a i, infos (st s) !! a = Some i → find_device (uuid i) (st s) = Ok (Some (a, i)) ∧
     heard (uuid i) (log s) = Some (lastSuccessfulCommunicationMillis i)) ∧
  entered (log s) ++ failed (log s) ++ gather to_fail (clients s) ++ reports (thread s)
  ≡ₚ restored (log s) ++ left_in (log s) ++ gather to_restore (clients s) ++ gather failing (infos (st s)).
Proof.
  intros Hn Hs%commFail_reachable; [|done]. split; [|split; [|by apply v_balance]].
  - intros c act Hc. destruct (inv_run s c act Hs Hc) as (s' & ? & _). by exists s'.
  - intros a i Ha. destruct (v_heard _ Hs a i Ha) as (Hk & Hh & _). split; [|done].
    destruct (find_spec (st s) (uuid i) (v_repr _ Hs) Hk) as [[_ Hx]|(b & j & -> & Hb & Hj)]; [by destruct (Hx a i Ha)|].
    assert (b = a) as -> by (by apply (repr_unique (st s) b a j i); [apply Hs|..]). congruence.
Qed.

(** C36: the search finds exactly the silent devices.  In every reachable state
    in which the thread is about to look at the devices it succeeds, and for
    every device there is a moment during the search at which it is found to
    be in comm fail if it was before, or if the time since it was last heard
    of exceeds its time-out, and otherwise left as it is; it will be reported
    exactly when it was not in comm fail and that time exceeds the time-out.
    So a device that is heard of in time is never reported. *)
Theorem commFail_detection now s clk :
  0 ≤ now < 18446744073709551616 → rtc exec (start now) s → thread s = Checking → contract 0 (AThread clk) s →
  ∃ s' new, run 0 (AThread clk) s = Ok s' ∧ thread s' = Notify new ∧
    ∀ a i, infos (st s) !! a = Some i →
      let limit := timeout_millis (fastCommFailTimer (st s)) i in
      ∃ since moment, heard (uuid i) (log s) = Some since ∧ clock s ≤ moment ≤ clock s' ∧
        infos (st s') !! a = Some (if decide (limit < moment - since) then set_fail i true else i) ∧
        (uuid i ∈ new ↔ inCommFail i = false ∧ limit < moment - since).
Proof.
  intros Hn Hs%commFail_reachable Hp Hc; [|done].
  destruct (inv_checking s clk Hs Hp Hc) as (n & new & t & Hr & E & _). eexists _, new. split; [done|]. split; [done|].
  destruct (check_devices_spec clk (st s) (v_repr _ Hs)) as (n' & new' & t' & E' & _ & _ & _ & _ & _ & _ & Hd & Hu).
  rewrite E in E'. injection E' as <- <- <-. intros a i Ha limit.
  destruct (Hd a i Ha) as (k & Hk & Hm & Hin). exists (lastSuccessfulCommunicationMillis i), (clk k). pose proof (clock_rounds clk s n k Hc Hk) as Hck.
  destruct (v_heard _ Hs a i Ha) as (_ & Hh & Hl). unfold limit. simpl.
  assert (Hsil : silent (fastCommFailTimer (st s)) (clk k) i
    = bool_decide (timeout_millis (fastCommFailTimer (st s)) i < clk k - lastSuccessfulCommunicationMillis i)).
  { unfold silent. rewrite u64_small; [done|]. destruct (Hc k) as (? & ? & ?). lia. }
  split; [done|]. split; [done|]. split.
  - rewrite Hm. unfold mark. rewrite Hsil. by case_bool_decide; case_decide.
  - split.
    + intros (b & j & Hb & Hj & Hf & Hb')%Hu. assert (b = a) as -> by (by apply (repr_unique (st s) b a j i); [apply Hs|..]).
      rewrite Ha in Hb. injection Hb as <-. split; [done|]. rewrite Hm in Hb'. injection Hb' as Hx.
      unfold mark in Hx. rewrite Hsil in Hx. case_bool_decide; [done|]. apply (f_equal inCommFail) in Hx. simpl in Hx. congruence.
    + intros [Hf Hlim]. apply Hin; [done|]. rewrite Hsil. by apply bool_decide_eq_true.
Qed.
End Theorems.

(** ** Runs *)

Definition script (acts : list (nat * action)) (s : sys hash_map) : outcome (sys hash_map) :=
  foldM (λ a s, run a.1 a.2 s) acts s.

Definition lamp : cstring := str "lamp".
Definition look (now : Z) : nat * action := (0%nat, AThread (λ _, now)).

(** A device that has to be heard of every ten seconds is silent for twenty;
    the thread is about to look. *)
Definition silence : list (nat * action) :=
  [(0%nat, AInit false); (0%nat, AMonitor 1 lamp 10 false); look 0; (0%nat, ATick 20000); look 20000].

(** [go c act tac] proves one step of a run from a closed state; [tac] shows
    that it keeps to the contract. *)
Ltac go c act tac := eapply rtc_l; [exists c, act; split; [tac|vm_compute; reflexivity]|].
Ltac in_time := intros n; split_and!; vm_compute; congruence.

Lemma silent_lamp : ∃ s, script silence (start 0) = Ok s ∧ rtc exec (start 0) s ∧ thread s = Checking ∧ clock s = 20000.
Proof.
  eexists. split; [vm_compute; reflexivity|]. split; [|done].
  go 0%nat (AInit false) ltac:(by right). go 0%nat (AMonitor 1 lamp 10 false) ltac:(by split_and!).
  go 0%nat (AThread (λ _, 0)) in_time. go 0%nat (ATick 20000) ltac:(split; vm_compute; congruence).
  go 0%nat (AThread (λ _, 20000)) in_time. apply rtc_refl.
Qed.

(** The callbacks can arrive in the wrong order, or not at all.  The thread
    has found a silent device and released the mutex; before it calls
    failedCallback the device is heard of, and the caller's restoredCallback
    is called first.  In the end the device is not in comm fail and nothing
    is about to be reported, but the last callback said that it failed; the
    next sign of life does not report anything.  If the watchdog is
    terminated in that window, the thread calls a NULL pointer. *)
Theorem commFail_out_of_order :
  (∃ s i, script (silence ++ [look 20000; (1%nat, APet lamp); (1%nat, AGoOn); look 20000; (1%nat, APet lamp)]) (start 0) = Ok s ∧
     rtc exec (start 0) s ∧
     known lamp (st s) = Some i ∧ inCommFail i = false ∧ thread s = Notify [] ∧ clients s = {[1%nat := Idle]} ∧
     omap (λ e, match e with Restored _ | Failed _ => Some e | _ => None end) (log s) = [Restored lamp; Failed lamp]) ∧
  (∃ s, script (silence ++ [look 20000; (1%nat, ATerm)]) (start 0) = Ok s ∧ run 0 (AThread (λ _, 20000)) s = Fault).
Proof.
  destruct silent_lamp as (s & Hs & Hr & _). unfold script. rewrite !foldM_app. fold (script silence (start 0)).
  rewrite Hs. obind. vm_compute in Hs. injection Hs as <-. split; [eexists _, _|eexists].
  - split; [vm_compute; reflexivity|]. split; [|by vm_compute].
    etrans; [exact Hr|]. go 0%nat (AThread (λ _, 20000)) in_time. go 1%nat (APet lamp) ltac:(by split).
    go 1%nat AGoOn ltac:(done). go 0%nat (AThread (λ _, 20000)) in_time. go 1%nat (APet lamp) ltac:(by split). apply rtc_refl.
  - split; [vm_compute; reflexivity|]. vm_compute. reflexivity.
Qed.

(** ** Witnesses *)

Lemma commFail_reports_witness :
  ∃ s : sys hash_map, rtc exec (start 0) s ∧ infos (st s) ≠ ∅ ∧
    ∀ a i, infos (st s) !! a = Some i → find_device (uuid i) (st s) = Ok (Some (a, i)).
Proof.
  destruct silent_lamp as (s & Hs & Hr & _). exists s. split; [done|]. split.
  - vm_compute in Hs. injection Hs as <-. done.
  - destruct (commFail_reports 0 s ltac:(done) Hr) as (_ & Hf & _). intros a i Ha. by apply Hf.
Defined.

Lemma commFail_detection_witness :
  ∃ s s' : sys hash_map, rtc exec (start 0) s ∧ run 0 (AThread (λ _, 20000)) s = Ok s' ∧ thread s' = Notify [lamp].
Proof.
  destruct silent_lamp as (s & Hs & Hr & Ht & Hc). exists s.
  assert (Hk : contract 0 (AThread (λ _, 20000)) s) by (intros n; rewrite Hc; split_and!; done).
  destruct (commFail_detection 0 s _ ltac:(done) Hr Ht Hk) as (s' & new & Hs' & Hn & _). exists s'. split_and!; [done|done|].
  vm_compute in Hs. injection Hs as <-. vm_compute in Hs'. by injection Hs' as <-.
Defined.

End CommFailTheorems.
