(* ===== verification/XmlHelper.v ===== *)
(** * xmlHelper: typed access to XML nodes

    Models src/source/libs/xml/c/src/xmlHelper.c.  libxml2 is a library the
    repository links to: its functions are the parameters [LibXml], with the
    documented behaviour the callers rely on as [LibXmlLaws].  A node is a
    value; adding a child or setting an attribute gives the updated node.  An
    XML file is whatever xmlDocDumpFormatMemory writes ([xml_file]). *)

From S2P Require Import Prelude FifoBuffer StringUtils StringUtilsTheorems StringNumbers.
Import StringUtils StringTheorems StringNumbers.

Module Xml.

Class LibXml (xml : Type) := {
  xmlNewNode : cstring → xml;
  xmlNodeSetContent : xml → option cstring → xml;
  xmlNodeGetContent : xml → option cstring;
  xmlAddChild : xml → xml → xml;
  xmlNewTextChild : xml → cstring → cstring → xml;
  xmlSetProp : xml → cstring → cstring → xml;
  xmlGetProp : xml → cstring → option cstring;
  (* node->name, node->type == XML_ELEMENT_NODE, node->children and its siblings *)
  xml_name : xml → cstring;
  xml_element : xml → bool;
  xml_children : xml → list xml;
  (* xmlDocDumpFormatMemory of a root node, and xmlParseFile with
     xmlDocGetRootElement *)
  xml_file : Type;
  xmlDump : xml → xml_file;
  xmlParse : xml_file → option xml
}.

(** The child elements, without comments and blanks. *)
Definition elems {xml} `{LibXml xml} (x : xml) : list xml := filter (λ y, xml_element y = true) (xml_children x).

(** Text without the characters XML reserves, and without control
    characters. *)
Definition plain_char (b : byte) : bool :=
  bool_decide (32 ≤ byteZ b ≤ 126) && bool_decide (b ≠ "&"%char) && bool_decide (b ≠ "<"%char).
Definition plain (s : cstring) : Prop := Forall (λ b, plain_char b = true) s.

(** Two nodes with the same name and attributes, whose child elements are the
    same, and their text if they have no child element. *)
Inductive same {xml} `{LibXml xml} (x y : xml) : Prop :=
  | same_intro :
      xml_name x = xml_name y → (∀ a, xmlGetProp x a = xmlGetProp y a) →
      (elems x = [] → xmlNodeGetContent x = xmlNodeGetContent y) →
      Forall2 same (elems x) (elems y) → same x y.

(** A name of letters and digits. *)
Definition letter (b : byte) : bool := bool_decide (65 ≤ byteZ b ≤ 90) || bool_decide (97 ≤ byteZ b ≤ 122).
Definition name_ok (n : cstring) : bool :=
  match n with [] => false | b :: t => letter b && forallb (λ c, letter c || bool_decide (48 ≤ byteZ c ≤ 57)) t end.

(** The node's own tag: its name and those of its attributes, their values. *)
Definition plain_tag {xml} `{LibXml xml} (x : xml) : Prop :=
  name_ok (xml_name x) = true ∧ ∀ a v, xmlGetProp x a = Some v → name_ok a = true ∧ plain v.

(** All elements have plain tags, and all text in the document is plain. *)
Inductive plain_doc {xml} `{LibXml xml} (x : xml) : Prop :=
  | plain_intro :
      xml_element x = true → plain_tag x →
      (elems x = [] → ∀ s, xmlNodeGetContent x = Some s → plain s) →
      Forall plain_doc (elems x) → plain_doc x.

Class LibXmlLaws (xml : Type) `{LibXml xml} := {
  new_node n : xml_name (xmlNewNode n) = n ∧ xml_element (xmlNewNode n) = true ∧
    elems (xmlNewNode n) = [] ∧ (∀ a, xmlGetProp (xmlNewNode n) a = None) ∧
    xmlNodeGetContent (xmlNewNode n) = Some [];
  (* the operations on element nodes *)
  set_content x c : xml_element x = true → xml_name (xmlNodeSetContent x c) = xml_name x ∧
    xml_element (xmlNodeSetContent x c) = xml_element x ∧ elems (xmlNodeSetContent x c) = [] ∧
    (∀ a, xmlGetProp (xmlNodeSetContent x c) a = xmlGetProp x a);
  (* reserved characters in the content would be taken as markup *)
  get_content x c : xml_element x = true → plain (default [] c) →
    xmlNodeGetContent (xmlNodeSetContent x c) = Some (default [] c);
  add_child x y : xml_element x = true → xml_element y = true → xml_name (xmlAddChild x y) = xml_name x ∧
    xml_element (xmlAddChild x y) = xml_element x ∧ elems (xmlAddChild x y) = elems x ++ [y] ∧
    (∀ a, xmlGetProp (xmlAddChild x y) a = xmlGetProp x a);
  (* xmlNewTextChild escapes the content itself *)
  text_child x n s : xml_element x = true → ∃ y, elems (xmlNewTextChild x n s) = elems x ++ [y] ∧ xml_name y = n ∧
    xmlNodeGetContent y = Some s;
  set_prop x a v : xml_element x = true → xml_name (xmlSetProp x a v) = xml_name x ∧ xml_element (xmlSetProp x a v) = xml_element x ∧
    elems (xmlSetProp x a v) = elems x ∧
    (∀ b, xmlGetProp (xmlSetProp x a v) b = if decide (b = a) then Some v else xmlGetProp x b);
  parse_dump x : plain_doc x → ∃ y, xmlParse (xmlDump x) = Some y ∧ same x y
}.

Section Code.
Context {xml : Type} `{LibXml xml}.
Implicit Types (node : option xml).

(** The shape all readers share: the default value for a missing node or
    text, else the conversion of the text. *)
Definition getXmlNodeContentsAsInt node (defValue : Z) : Z :=
  match node with
  | Some n => match xmlNodeGetContent n with
              | Some contents => default defValue (stringToInt32 (Some contents))
              | None => defValue
              end
  | None => defValue
  end.

Definition getXmlNodeContentsAsUnsignedInt node (defValue : Z) : Z :=
  match node with
  | Some n => match xmlNodeGetContent n with
              | Some contents => default defValue (stringToUint32 (Some contents))
              | None => defValue
              end
  | None => defValue
  end.

Definition getXmlNodeContentsAsUnsignedLongLong node (defValue : Z) : Z :=
  match node with
  | Some n => match xmlNodeGetContent n with
              | Some contents => default defValue (stringToUint64 (Some contents))
              | None => defValue
              end
  | None => defValue
  end.

Definition getXmlNodeContentsAsBoolean node (defValue : bool) : bool :=
  match node with
  | Some n => match xmlNodeGetContent n with
              | Some contents =>
                  bool_decide (strcasecmp contents (str "true") = 0 ∨ strcmp contents (str "1") = 0)
              | None => defValue
              end
  | None => defValue
  end.

Definition setXmlNodeContentsAsBoolean (node : xml) (value : bool) : xml :=
  xmlNodeSetContent node (Some (if value then str "true" else str "false")).

Definition getXmlNodeContentsAsString node (defValue : option cstring) : option cstring :=
  let retVal := match node with Some n => xmlNodeGetContent n | None => None end in
  match retVal with Some s => Some s | None => defValue end.

(** The new parent. *)
Definition appendNewStringNode (parentNode : xml) (nodeName : cstring) (contents : option cstring) : xml :=
  match contents with
  | Some c => xmlNewTextChild parentNode nodeName c
  | None => xmlAddChild parentNode (xmlNewNode nodeName)
  end.

(** The recursion descends at most [depth] levels. *)
Fixpoint findChildNode (depth : nat) (base : xml) (search : cstring) (recurse : bool) : option xml :=
  match depth with
  | O => None
  | S d =>
      (fix loop (nodes : list xml) : option xml :=
         match nodes with
         | [] => None
         | n :: rest =>
             if xml_element n then
               if bool_decide (strcmp (xml_name n) search = 0) then Some n
               else if recurse then
                 match findChildNode d n search recurse with
                 | Some m => Some m
                 | None => loop rest
                 end
               else loop rest
             else loop rest
         end) (xml_children base)
  end.

Definition getXmlNodeAttributeAsInt node (attributeName : cstring) (defValue : Z) : Z :=
  match node with
  | Some n => match xmlGetProp n attributeName with
              | Some contents => default defValue (stringToInt32 (Some contents))
              | None => defValue
              end
  | None => defValue
  end.

Definition setXmlNodeAttributeAsInt (node : xml) (attributeName : cstring) (value : Z) : xml :=
  xmlSetProp node attributeName (signed_decimal value).

Definition getXmlNodeAttributeAsUnsignedInt node (attributeName : cstring) (defValue : Z) : Z :=
  match node with
  | Some n => match xmlGetProp n attributeName with
              | Some contents => default defValue (stringToUint32 (Some contents))
              | None => defValue
              end
  | None => defValue
  end.

Definition getXmlNodeAttributeAsUnsignedLongLong node (attributeName : cstring) (defValue : Z) : Z :=
  match node with
  | Some n => match xmlGetProp n attributeName with
              | Some contents => default defValue (stringToUint64 (Some contents))
              | None => defValue
              end
  | None => defValue
  end.

Definition getXmlNodeAttributeAsBoolean node (attributeName : cstring) (defValue : bool) : bool :=
  match node with
  | Some n => match xmlGetProp n attributeName with
              | Some contents => bool_decide (strcasecmp contents (str "true") = 0)
              | None => defValue
              end
  | None => defValue
  end.

Definition setXmlNodeAttributeAsBoolean (node : xml) (attributeName : cstring) (value : bool) : xml :=
  xmlSetProp node attributeName (if value then str "true" else str "false").

Definition getXmlNodeAttributeAsString node (attributeName : cstring) (defValue : option cstring) : option cstring :=
  let retVal := match node with Some n => xmlGetProp n attributeName | None => None end in
  match retVal with Some s => Some s | None => defValue end.

End Code.

(** ** Round trips *)

Section Theorems.
Context {xml : Type} `{LibXmlLaws xml}.

Lemma prop_set (x : xml) a v : xml_element x = true → xmlGetProp (xmlSetProp x a v) a = Some v.
Proof. intros Hx. destruct (set_prop x a v Hx) as (_ & _ & _ & ->). by rewrite decide_True. Qed.

Lemma plain_dec s : forallb plain_char s = true → plain s.
Proof.
  unfold plain. intros Hs. apply Forall_forall. intros b Hb. rewrite forallb_forall in Hs.
  apply Hs. by apply list_elem_of_In.
Qed.

(** The printed form of a 32-bit number. *)
Lemma int32_text n : -2147483648 ≤ n ≤ 2147483647 → stringToInt32 (Some (signed_decimal n)) = Some n.
Proof.
  intros Hn. unfold stringToInt32. rewrite signed_decimal_range by (unfold INT64_MIN, INT64_MAX; lia).
  rewrite decide_True by lia. simpl. f_equal. apply signed_small; lia.
Qed.

Lemma uint64_text n : 0 ≤ n ≤ UINT64_MAX → stringToUint64 (Some (decimal n)) = Some n.
Proof. intros Hn. unfold stringToUint64. rewrite unsigned_decimal by done. by rewrite decide_True. Qed.

(** What the writers of xmlHelper store, its readers return: a 32-bit
    attribute, boolean attributes and contents, and the text of a node added
    with appendNewStringNode, whatever the default value given to the
    reader. *)
Theorem xmlHelper_roundtrip (x : xml) (a : cstring) (n d : Z) (b db : bool) (name s : cstring) (ds : option cstring) :
  xml_element x = true → -2147483648 ≤ n ≤ 2147483647 →
  getXmlNodeAttributeAsInt (Some (setXmlNodeAttributeAsInt x a n)) a d = n ∧
  getXmlNodeAttributeAsBoolean (Some (setXmlNodeAttributeAsBoolean x a b)) a db = b ∧
  getXmlNodeContentsAsBoolean (Some (setXmlNodeContentsAsBoolean x b)) db = b ∧
  (∃ y, elems (appendNewStringNode x name (Some s)) = elems x ++ [y] ∧ xml_name y = name ∧
     getXmlNodeContentsAsString (Some y) ds = Some s).
Proof.
  intros Hx Hn. split_and!.
  - simpl. unfold setXmlNodeAttributeAsInt. rewrite prop_set by done. by rewrite int32_text.
  - simpl. unfold setXmlNodeAttributeAsBoolean. rewrite prop_set by done. by destruct b.
  - simpl. unfold setXmlNodeContentsAsBoolean.
    rewrite get_content by (done || (destruct b; by apply plain_dec)). by destruct b.
  - cbn [appendNewStringNode]. destruct (text_child x name s Hx) as (y & He & Hy & Hc). exists y.
    split; [done|]. split; [done|]. unfold getXmlNodeContentsAsString. by rewrite Hc.
Qed.

End Theorems.

(** ** A library for the witnesses: nodes as trees, files as the trees
    themselves *)

Inductive tree :=
  | TText (t : cstring)
  | TNode (name : cstring) (attrs : list (cstring * cstring)) (kids : list tree).

Fixpoint tree_text (t : tree) : cstring :=
  match t with
  | TText s => s
  | TNode _ _ kids => concat (map tree_text kids)
  end.

Fixpoint assoc (k : cstring) (l : list (cstring * cstring)) : option cstring :=
  match l with
  | [] => None
  | (a, v) :: l => if decide (k = a) then Some v else assoc k l
  end.

#[global] Instance tree_xml : LibXml tree := {
  xmlNewNode n := TNode n [] [];
  xmlNodeSetContent x c :=
    match x with TNode n a _ => TNode n a (match c with Some s => [TText s] | None => [] end) | TText _ => x end;
  xmlNodeGetContent x := Some (tree_text x);
  xmlAddChild x y := match x with TNode n a k => TNode n a (k ++ [y]) | TText _ => x end;
  xmlNewTextChild x n s := match x with TNode m a k => TNode m a (k ++ [TNode n [] [TText s]]) | TText _ => x end;
  xmlSetProp x k v := match x with TNode n a ks => TNode n ((k, v) :: a) ks | TText _ => x end;
  xmlGetProp x k := match x with TNode _ a _ => assoc k a | TText _ => None end;
  xml_name x := match x with TNode n _ _ => n | TText _ => [] end;
  xml_element x := match x with TNode _ _ _ => true | TText _ => false end;
  xml_children x := match x with TNode _ _ k => k | TText _ => [] end;
  xml_file := tree;
  xmlDump x := x;
  xmlParse x := Some x
}.

Lemma same_refl (x : tree) : same x x.
Proof.
  revert x. fix IH 1. intros x. constructor; try done. unfold elems. destruct x as [t|n a kids]; [constructor|].
  simpl. induction kids as [|k kids IHk]; [constructor|]. rewrite filter_cons. case_decide; [|done].
  constructor; [apply IH|done].
Qed.

#[global] Instance tree_laws : LibXmlLaws tree.
Proof.
  split.
  - intros n. done.
  - intros [t|n a k] c Hx; [done|]. split_and!; try done. unfold elems. simpl. by destruct c.
  - intros [t|n a k] c Hx _; [done|]. destruct c as [c|]; simpl; [by rewrite app_nil_r|done].
  - intros [t|n a k] y Hx Hy; [done|]. split_and!; try done. unfold elems. simpl. rewrite filter_app. f_equal.
    rewrite filter_cons, decide_True by done. done.
  - intros [t|n a k] m s Hx; [done|]. exists (TNode m [] [TText s]). unfold elems. simpl.
    rewrite filter_app. split_and!; [done|done|]. by rewrite app_nil_r.
  - intros [t|n a k] m v Hx; [done|]. split_and!; try done.
  - intros x _. exists x. split; [done|]. apply same_refl.
Qed.

Lemma xmlHelper_roundtrip_witness :
  getXmlNodeAttributeAsInt (Some (setXmlNodeAttributeAsInt (xmlNewNode (str "properties") : tree) (str "schema") 1))
    (str "schema") 0 = 1.
Proof.
  apply (xmlHelper_roundtrip (xmlNewNode (str "properties") : tree) (str "schema") 1 0 true false
    (str "name") (str "text") None); [done|lia].
Defined.

End Xml.
