(* ===== verification/PropertyTypes.v ===== *)
(** * propertyTypeDefinitions: validation of property values

    Models src/source/services/props/core/src/propertyTypeDefinitions.c and
    the types of propertyTypeDefs_internal.h: the check every IPC "set
    property" request goes through.  The definitions are in a map from
    property names ([KeyMap]); the restrictions of a definition are the C
    union: two 64-bit words, read as unsigned or as signed, or the list of
    allowed values.  An error message is a value of [verror]. *)

From S2P Require Import Prelude LinkedList LinkedListSpec FifoBuffer StringUtils StringUtilsTheorems.
From S2P Require Import StringNumbers KeyMap.
Import LinkedList ListSpec StringUtils StringTheorems StringNumbers KeyMap.

Module PropertyTypes.

Inductive propertyDataType :=
  | PROPERTY_TYPE_STRING
  | PROPERTY_TYPE_BOOLEAN
  | PROPERTY_TYPE_UINT64
  | PROPERTY_TYPE_UINT32
  | PROPERTY_TYPE_UINT16
  | PROPERTY_TYPE_UINT8
  | PROPERTY_TYPE_INT64
  | PROPERTY_TYPE_INT32
  | PROPERTY_TYPE_INT16
  | PROPERTY_TYPE_INT8
  | PROPERTY_TYPE_ENUM
  | PROPERTY_TYPE_URL
  | PROPERTY_TYPE_URLSET
  | PROPERTY_TYPE_UNKNOWN.

#[global] Instance propertyDataType_eq_dec : EqDecision propertyDataType.
Proof. solve_decision. Defined.

(** The union: the words of the limits, as unsigned 64-bit values, or a
    pointer to the list of allowed values. *)
Inductive typeRestrictions :=
  | Limits (minValue maxValue : Z)
  | EnumValues (enumValues : option (icLinkedList cstring)).

Record propertyTypeDef := mkTypeDef {
  propertyName : cstring;
  propertyType : propertyDataType;
  restrictions : option typeRestrictions
}.

(** Reading a member of the union; the words of a list pointer are not
    limits. *)
Definition uintLimits (r : typeRestrictions) : outcome (Z * Z) :=
  match r with Limits lo hi => Ok (lo, hi) | EnumValues _ => Fault end.
Definition intLimits (r : typeRestrictions) : outcome (Z * Z) :=
  match r with Limits lo hi => Ok (signed 64 lo, signed 64 hi) | EnumValues _ => Fault end.
Definition enumValues (r : typeRestrictions) : outcome (option (icLinkedList cstring)) :=
  match r with EnumValues l => Ok l | Limits _ _ => Fault end.

(** Why a value is refused. *)
Inductive verror :=
  | NotBoolean
  | NotNumber (t : propertyDataType)
  | OutsideRange (lo hi : Z)
  | NotMember.

(** [None]: the value is valid. *)
Definition isValueValidBoolean (suggestedValue : cstring) (typeDef : propertyTypeDef) : outcome (option verror) :=
  match stringToBoolStrict (Some suggestedValue) with
  | Some _ => Ok None
  | None => Ok (Some NotBoolean)
  end.

Definition in_range (v lo hi : Z) : option verror :=
  if decide (lo ≤ v ∧ v ≤ hi) then None else Some (OutsideRange lo hi).

Definition isValueValidUInt64 (suggestedValue : cstring) (typeDef : propertyTypeDef) : outcome (option verror) :=
  match stringToUint64 (Some suggestedValue) with
  | None => Ok (Some (NotNumber PROPERTY_TYPE_UINT64))
  | Some v => match restrictions typeDef with
              | Some r => '(lo, hi) ← uintLimits r; Ok (in_range v lo hi)
              | None => Ok None
              end
  end.

Definition isValueValidInt64 (suggestedValue : cstring) (typeDef : propertyTypeDef) : outcome (option verror) :=
  match stringToInt64 (Some suggestedValue) with
  | None => Ok (Some (NotNumber PROPERTY_TYPE_INT64))
  | Some v => match restrictions typeDef with
              | Some r => '(lo, hi) ← intLimits r; Ok (in_range v lo hi)
              | None => Ok None
              end
  end.

Definition isValueValidUint32 (suggestedValue : cstring) (typeDef : propertyTypeDef) : outcome (option verror) :=
  match stringToUint32 (Some suggestedValue) with
  | None => Ok (Some (NotNumber PROPERTY_TYPE_UINT32))
  | Some v => match restrictions typeDef with
              | Some r => '(lo, hi) ← uintLimits r; Ok (in_range v (u32 lo) (u32 hi))
              | None => Ok None
              end
  end.

Definition isValueValidInt32 (suggestedValue : cstring) (typeDef : propertyTypeDef) : outcome (option verror) :=
  match stringToInt32 (Some suggestedValue) with
  | None => Ok (Some (NotNumber PROPERTY_TYPE_INT32))
  | Some v => match restrictions typeDef with
              | Some r => '(lo, hi) ← intLimits r; Ok (in_range v (signed 32 lo) (signed 32 hi))
              | None => Ok None
              end
  end.

Definition isValueValidUint16 (suggestedValue : cstring) (typeDef : propertyTypeDef) : outcome (option verror) :=
  match stringToUint16 (Some suggestedValue) with
  | None => Ok (Some (NotNumber PROPERTY_TYPE_UINT16))
  | Some v => match restrictions typeDef with
              | Some r => '(lo, hi) ← uintLimits r; Ok (in_range v (u16 lo) (u16 hi))
              | None => Ok None
              end
  end.

Definition isValueValidInt16 (suggestedValue : cstring) (typeDef : propertyTypeDef) : outcome (option verror) :=
  match stringToInt16 (Some suggestedValue) with
  | None => Ok (Some (NotNumber PROPERTY_TYPE_INT16))
  | Some v => match restrictions typeDef with
              | Some r => '(lo, hi) ← intLimits r; Ok (in_range v (signed 16 lo) (signed 16 hi))
              | None => Ok None
              end
  end.

Definition isValueValidUint8 (suggestedValue : cstring) (typeDef : propertyTypeDef) : outcome (option verror) :=
  match stringToUint8 (Some suggestedValue) with
  | None => Ok (Some (NotNumber PROPERTY_TYPE_UINT8))
  | Some v => match restrictions typeDef with
              | Some r => '(lo, hi) ← uintLimits r; Ok (in_range v (u8 lo) (u8 hi))
              | None => Ok None
              end
  end.

Definition isValueValidInt8 (suggestedValue : cstring) (typeDef : propertyTypeDef) : outcome (option verror) :=
  match stringToInt8 (Some suggestedValue) with
  | None => Ok (Some (NotNumber PROPERTY_TYPE_INT8))
  | Some v => match restrictions typeDef with
              | Some r => '(lo, hi) ← intLimits r; Ok (in_range v (signed 8 lo) (signed 8 hi))
              | None => Ok None
              end
  end.

(** The loop over the allowed values, with its break. *)
Fixpoint enum_loop (fuel : nat) (suggestedValue : cstring) (l : icLinkedList cstring)
    (iterator : option icLinkedListIterator) : outcome bool :=
  if linkedListIteratorHasNext iterator then
    match fuel with
    | O => Hang
    | S fuel' =>
        '(allowed, iterator) ← linkedListIteratorGetNext l iterator;
        if decide (stringCompare (Some suggestedValue) allowed false = 0) then Ok true
        else enum_loop fuel' suggestedValue l iterator
    end
  else Ok false.

Definition isValueValidForEnum (suggestedValue : cstring) (typeDef : propertyTypeDef) : outcome (option verror) :=
  match restrictions typeDef with
  | None => Ok None
  | Some r =>
      values ← enumValues r;
      match values with
      | None => Ok None
      | Some l =>
          retval ← match linkedListIteratorCreate (Some l) with
                   | Some it => enum_loop (size (ll_nodes l)) suggestedValue l (Some it)
                   | None => Ok false
                   end;
          Ok (if retval : bool then None else Some NotMember)
      end
  end.

Section Service.
Context {M : Type} `{KeyMap M addr}.

(** [defs] are the definitions in memory; the map of pointers to them is NULL
    before initPropertyTypeDefs. *)
Definition isValueValid (defs : gmap addr propertyTypeDef) (propertyTypesMap : option M) (propertyName : cstring) (suggestedValue : option cstring)
    : outcome (option verror) :=
  p ← match propertyTypesMap with Some m => km_get m propertyName | None => Ok None end;
  typeDef ← match p with Some a => d ← of_option (defs !! a); Ok (Some d) | None => Ok None end;
  match typeDef, suggestedValue with
  | Some d, Some v =>
      match propertyType d with
      | PROPERTY_TYPE_STRING | PROPERTY_TYPE_URL | PROPERTY_TYPE_URLSET => Ok None
      | PROPERTY_TYPE_BOOLEAN => isValueValidBoolean v d
      | PROPERTY_TYPE_UINT64 => isValueValidUInt64 v d
      | PROPERTY_TYPE_INT64 => isValueValidInt64 v d
      | PROPERTY_TYPE_UINT32 => isValueValidUint32 v d
      | PROPERTY_TYPE_INT32 => isValueValidInt32 v d
      | PROPERTY_TYPE_UINT16 => isValueValidUint16 v d
      | PROPERTY_TYPE_INT16 => isValueValidInt16 v d
      | PROPERTY_TYPE_UINT8 => isValueValidUint8 v d
      | PROPERTY_TYPE_INT8 => isValueValidInt8 v d
      | PROPERTY_TYPE_ENUM => isValueValidForEnum v d
      | PROPERTY_TYPE_UNKNOWN => Ok None
      end
  | _, _ => Ok None
  end.

Definition getPropertyTypeDefsCount (propertyTypesMap : option M) : Z :=
  match propertyTypesMap with Some m => km_count m | None => 0 end.

End Service.

(** ** What is accepted *)

(** The width and signedness of the numeric types. *)
Definition bounds (t : propertyDataType) : option (Z * Z) :=
  match t with
  | PROPERTY_TYPE_UINT64 => Some (0, UINT64_MAX)
  | PROPERTY_TYPE_UINT32 => Some (0, 4294967295)
  | PROPERTY_TYPE_UINT16 => Some (0, 65535)
  | PROPERTY_TYPE_UINT8 => Some (0, 255)
  | PROPERTY_TYPE_INT64 => Some (INT64_MIN, INT64_MAX)
  | PROPERTY_TYPE_INT32 => Some (-2147483648, 2147483647)
  | PROPERTY_TYPE_INT16 => Some (-32768, 32767)
  | PROPERTY_TYPE_INT8 => Some (-128, 127)
  | _ => None
  end.

(** The limits of a definition as the union stores them: 64-bit words. *)
Definition stored (lo hi : Z) : typeRestrictions := Limits (u64 lo) (u64 hi).

Lemma signed_u64 z : INT64_MIN ≤ z ≤ INT64_MAX → signed 64 (u64 z) = z.
Proof.
  unfold INT64_MIN, INT64_MAX. intros Hz. unfold signed, u64.
  change 18446744073709551616 with (2 ^ 64). rewrite Zmod_mod. apply (signed_small 64); lia.
Qed.

Lemma narrow_u64 w z : 0 < w ≤ 64 → 0 ≤ z < 2 ^ w → u64 z = z ∧ z `mod` 2 ^ w = z.
Proof.
  intros Hw Hz. assert (2 ^ w ≤ 2 ^ 64) by (apply Z.pow_le_mono_r; lia).
  split; [apply u64_small; lia|by apply Z.mod_small].
Qed.

(** The text the program prints for a number. *)
Definition number_text (n : Z) : cstring := signed_decimal n.

Lemma number_text_pos n : 0 ≤ n → number_text n = decimal n.
Proof.
  intros Hn. unfold number_text, signed_decimal. rewrite bool_decide_false by lia. by rewrite Z.abs_eq.
Qed.

Lemma number_text_neg n lo hi :
  - 10 ^ 20 < n < 0 → stringToUnsignedNumberWithinRange (Some (number_text n)) 0 lo hi = None.
Proof. intros Hn. unfold number_text, signed_decimal. by rewrite bool_decide_true by lia. Qed.

Lemma unsigned_text n lo hi :
  INT64_MIN ≤ n ≤ UINT64_MAX → 0 ≤ lo →
  stringToUnsignedNumberWithinRange (Some (number_text n)) 0 lo hi = if decide (lo ≤ n ≤ hi) then Some n else None.
Proof.
  unfold INT64_MIN, UINT64_MAX. intros Hn Hlo. destruct (decide (0 ≤ n)).
  - rewrite number_text_pos by done. apply unsigned_decimal. unfold UINT64_MAX. lia.
  - rewrite number_text_neg by lia. by rewrite decide_False by lia.
Qed.

(** The verdict on a number, for a type with bounds [blo, bhi] and limits
    [lo, hi]. *)
Definition verdict (t : propertyDataType) (n blo bhi lo hi : Z) : option verror :=
  if decide (blo ≤ n ≤ bhi) then in_range n lo hi else Some (NotNumber t).

Lemma verdict_unsigned t (w n lo hi : Z) (narrow : Z → Z) (parse : option Z) :
  0 < w ≤ 64 → 0 ≤ lo < 2 ^ w → 0 ≤ hi < 2 ^ w → (∀ z, narrow z = z `mod` 2 ^ w) →
  parse = (if decide (0 ≤ n ≤ 2 ^ w - 1) then Some n else None) →
  match narrow <$> parse with
  | None => Ok (Some (NotNumber t))
  | Some v => '(lo, hi) ← uintLimits (stored lo hi); Ok (in_range v (narrow lo) (narrow hi))
  end = Ok (verdict t n 0 (2 ^ w - 1) lo hi).
Proof.
  intros Hw Hlo Hhi Hnar ->. unfold verdict. simpl.
  destruct (narrow_u64 w lo Hw Hlo) as [-> Hl]. destruct (narrow_u64 w hi Hw Hhi) as [-> Hh].
  case_decide; simpl; [|done]. rewrite !Hnar, Hl, Hh. do 2 f_equal. apply Z.mod_small. lia.
Qed.

Lemma verdict_signed t (w n lo hi : Z) (parse : option Z) :
  0 < w ≤ 64 → - 2 ^ (w - 1) ≤ lo < 2 ^ (w - 1) → - 2 ^ (w - 1) ≤ hi < 2 ^ (w - 1) →
  parse = (if decide (- 2 ^ (w - 1) ≤ n ≤ 2 ^ (w - 1) - 1) then Some n else None) →
  match signed w <$> parse with
  | None => Ok (Some (NotNumber t))
  | Some v => '(lo, hi) ← intLimits (stored lo hi); Ok (in_range v (signed w lo) (signed w hi))
  end = Ok (verdict t n (- 2 ^ (w - 1)) (2 ^ (w - 1) - 1) lo hi).
Proof.
  intros Hw Hlo Hhi ->. unfold verdict.
  assert (2 ^ (w - 1) ≤ 2 ^ 63) by (apply Z.pow_le_mono_r; lia).
  unfold intLimits, stored. rewrite !signed_u64 by (unfold INT64_MIN, INT64_MAX; lia).
  case_decide; simpl; [|done]. rewrite !signed_small by lia. done.
Qed.

Lemma unsigned_parse n hi :
  INT64_MIN ≤ n ≤ INT64_MAX →
  stringToUnsignedNumberWithinRange (Some (number_text n)) 0 0 hi = if decide (0 ≤ n ≤ hi) then Some n else None.
Proof. intros Hn. apply unsigned_text; unfold UINT64_MAX, INT64_MIN, INT64_MAX in *; lia. Qed.

Lemma signed_parse n lo hi :
  INT64_MIN ≤ n ≤ INT64_MAX →
  stringToNumberWithinRange (Some (number_text n)) 0 lo hi = if decide (lo ≤ n ≤ hi) then Some n else None.
Proof. apply signed_decimal_range. Qed.

(** The check of a number against a definition with limits. *)
Lemma numeric_verdict (name : cstring) (t : propertyDataType) (n blo bhi lo hi : Z) :
  let d := mkTypeDef name t (Some (stored lo hi)) in
  bounds t = Some (blo, bhi) → blo ≤ lo ≤ bhi → blo ≤ hi ≤ bhi → INT64_MIN ≤ n ≤ INT64_MAX →
  match t with
  | PROPERTY_TYPE_UINT64 => isValueValidUInt64 (number_text n) d
  | PROPERTY_TYPE_INT64 => isValueValidInt64 (number_text n) d
  | PROPERTY_TYPE_UINT32 => isValueValidUint32 (number_text n) d
  | PROPERTY_TYPE_INT32 => isValueValidInt32 (number_text n) d
  | PROPERTY_TYPE_UINT16 => isValueValidUint16 (number_text n) d
  | PROPERTY_TYPE_INT16 => isValueValidInt16 (number_text n) d
  | PROPERTY_TYPE_UINT8 => isValueValidUint8 (number_text n) d
  | PROPERTY_TYPE_INT8 => isValueValidInt8 (number_text n) d
  | _ => Ok None
  end = Ok (verdict t n blo bhi lo hi).
Proof.
  intros d Hb Hlo Hhi Hn. destruct t; try done; simpl in Hb; injection Hb as <- <-.
  - unfold isValueValidUInt64, stringToUint64. rewrite unsigned_parse by done. simpl.
    unfold UINT64_MAX in *. rewrite !u64_small by lia. unfold verdict. by case_decide.
  - unfold isValueValidUint32, stringToUint32. apply (verdict_unsigned _ 32 n lo hi u32); try lia; [done|].
    by apply unsigned_parse.
  - unfold isValueValidUint16, stringToUint16. apply (verdict_unsigned _ 16 n lo hi u16); try lia; [done|].
    by apply unsigned_parse.
  - unfold isValueValidUint8, stringToUint8. apply (verdict_unsigned _ 8 n lo hi u8); try lia; [done|].
    by apply unsigned_parse.
  - unfold isValueValidInt64, stringToInt64. rewrite signed_parse by done.
    unfold d, restrictions, intLimits, stored. rewrite !signed_u64 by done. unfold verdict. by case_decide.
  - unfold isValueValidInt32, stringToInt32. apply (verdict_signed _ 32 n lo hi); try lia. by apply signed_parse.
  - unfold isValueValidInt16, stringToInt16. apply (verdict_signed _ 16 n lo hi); try lia. by apply signed_parse.
  - unfold isValueValidInt8, stringToInt8. apply (verdict_signed _ 8 n lo hi); try lia. by apply signed_parse.
Qed.

Section Theorems.
Context {M : Type} `{KeyMapLaws M addr}.
Implicit Types (defs : gmap addr propertyTypeDef).

(** Number validation is exact.  A property with a numeric type and
    limits inside the type's range accepts the text of a 64-bit number
    exactly when the number is within the limits; otherwise the error says
    whether it does not fit the type or is outside the limits. *)
Theorem isValueValid_number defs (m : M) (es : list (cstring * addr)) (name : cstring) (a : addr)
    (t : propertyDataType) (n blo bhi lo hi : Z) :
  km_model m es → key_ok name →
  (name, a) ∈ es → defs !! a = Some (mkTypeDef name t (Some (stored lo hi))) →
  bounds t = Some (blo, bhi) → blo ≤ lo ≤ bhi → blo ≤ hi ≤ bhi → INT64_MIN ≤ n ≤ INT64_MAX →
  isValueValid defs (Some m) name (Some (number_text n))
  = Ok (if decide (blo ≤ n ≤ bhi) then
          if decide (lo ≤ n ≤ hi) then None else Some (OutsideRange lo hi)
        else Some (NotNumber t)).
Proof.
  intros Hm Hk Hin Hd Hb Hlo Hhi Hn. unfold isValueValid. rewrite (km_get_law m es) by done.
  rewrite (elem_of_list_to_map_1 es name _ (km_nodup _ _ Hm) Hin). obind.
  rewrite Hd. cbn [of_option mbind outcome_bind propertyType].
  pose proof (numeric_verdict name t n blo bhi lo hi Hb Hlo Hhi Hn) as Hv. unfold verdict in Hv.
  destruct t; try done; exact Hv.
Qed.

Lemma enum_loop_spec fuel v l n1 n2 it :
  repr l (n1 ++ n2) → cursor it n2 → (length n2 ≤ fuel)%nat →
  enum_loop fuel v l (Some it)
  = Ok (bool_decide (Exists (λ a, stringCompare (Some v) a false = 0) n2.*2)).
Proof.
  revert fuel n1 it. induction n2 as [|[b a] n2 IH]; intros fuel n1 it Hr Hc Hf.
  { rewrite bool_decide_false by (by intros ?%Exists_nil).
    destruct fuel; cbn [enum_loop]; by rewrite (iterator_hasNext _ _ Hc). }
  destruct fuel as [|fuel]; simpl in Hf; [lia|]. cbn [enum_loop].
  rewrite (iterator_hasNext _ _ Hc), (iterator_getNext _ _ _ _ _ _ Hr Hc). obind.
  case_decide as Heq.
  - rewrite bool_decide_true; [done|]. by constructor.
  - rewrite (IH fuel (n1 ++ [(b, a)])); [|by rewrite <-app_assoc|done|lia].
    f_equal. apply bool_decide_ext. rewrite fmap_cons, Exists_cons. simpl. tauto.
Qed.

(** Enum validation is membership.  A property with a list of allowed
    values accepts exactly those values, compared with their case. *)
Theorem isValueValid_enum defs (m : M) (es : list (cstring * addr)) (name : cstring) (a : addr)
    (l : icLinkedList cstring) (allowed : list cstring) (v : cstring) :
  km_model m es → key_ok name → lrepr l (Some <$> allowed) → no_nul v → Forall no_nul allowed →
  (name, a) ∈ es → defs !! a = Some (mkTypeDef name PROPERTY_TYPE_ENUM (Some (EnumValues (Some l)))) →
  isValueValid defs (Some m) name (Some v)
  = Ok (if decide (v ∈ allowed) then None else Some NotMember).
Proof.
  intros Hm Hk (ns & Hr & Hns) Hv Ha Hin Hd. unfold isValueValid. rewrite (km_get_law m es) by done.
  rewrite (elem_of_list_to_map_1 es name _ (km_nodup _ _ Hm) Hin). obind.
  rewrite Hd. cbn [of_option mbind outcome_bind propertyType].
  unfold isValueValidForEnum. cbn [restrictions enumValues mbind outcome_bind].
  assert (Hmem : Exists (λ a, stringCompare (Some v) a false = 0) ns.*2 ↔ v ∈ allowed).
  { rewrite <-Hns, Exists_exists. rewrite Forall_forall in Ha. split.
    - intros (b & Hin' & Hz). apply list_elem_of_fmap in Hin' as (x & -> & Hx).
      apply stringCompare_equal in Hz as ->; [done|done|by apply Ha].
    - intros Hx. exists (Some v). split; [by apply list_elem_of_fmap; exists v|].
      by apply stringCompare_equal. }
  rewrite (iterator_create l ns Hr), (repr_fuel _ _ Hr). destruct ns as [|n ns].
  - obind. rewrite decide_False; [done|]. intros Hx%Hmem.
    by apply Exists_nil in Hx.
  - rewrite (enum_loop_spec _ v l [] (n :: ns)) by done. obind.
    case_bool_decide as Hb; case_decide; try done; tauto.
Qed.

(** A definition whose restrictions fit its type, and a table of such. *)
Definition def_ok (d : propertyTypeDef) : Prop :=
  match restrictions d with
  | None => True
  | Some (Limits _ _) => propertyType d ≠ PROPERTY_TYPE_ENUM
  | Some (EnumValues o) => bounds (propertyType d) = None ∧ ∀ l, o = Some l → ∃ items, lrepr l items
  end.

Definition table_ok defs (propertyTypesMap : option M) : Prop :=
  ∀ m, propertyTypesMap = Some m → ∃ es, km_model m es ∧ ∀ k a, (k, a) ∈ es → ∃ d, defs !! a = Some d ∧ def_ok d.

(** The verdict on a value. *)
Definition checked defs (propertyTypesMap : option M) (name value : cstring) : option verror :=
  match isValueValid defs propertyTypesMap name (Some value) with Ok r => r | _ => None end.

Lemma enum_total v d : propertyType d = PROPERTY_TYPE_ENUM → def_ok d → ∃ r, isValueValidForEnum v d = Ok r.
Proof.
  unfold def_ok, isValueValidForEnum. intros Ht Hd. destruct (restrictions d) as [[lo hi|[l|]]|]; [done| |by eexists..].
  destruct Hd as [_ Hl]. destruct (Hl l eq_refl) as (items & ns & Hr & _). cbn [enumValues mbind outcome_bind].
  rewrite (iterator_create l ns Hr), (repr_fuel _ _ Hr). destruct ns as [|n ns]; [by eexists|].
  rewrite (enum_loop_spec _ v l [] (n :: ns)) by done. by eexists.
Qed.

(** The checks return for every value. *)
Lemma isValueValid_total defs (types : option M) name v : table_ok defs types → key_ok name →
  isValueValid defs types name (Some v) = Ok (checked defs types name v).
Proof.
  intros Ht Hk. assert (∃ r, isValueValid defs types name (Some v) = Ok r) as [r Hr]; [|unfold checked; by rewrite Hr].
  unfold isValueValid. destruct types as [m|]; [|by eexists]. destruct (Ht m eq_refl) as (es & Hm & Hall).
  rewrite (km_get_law m es) by done. obind. destruct (list_to_map es !! name) as [a|] eqn:E; [|by eexists].
  apply elem_of_list_to_map_2 in E. destruct (Hall _ _ E) as (d & -> & Hd). cbn [of_option mbind outcome_bind].
  destruct (propertyType d) eqn:Et; try (by eexists); try (by apply enum_total); unfold def_ok in Hd; rewrite Et in Hd;
    unfold isValueValidBoolean, isValueValidUInt64, isValueValidInt64, isValueValidUint32, isValueValidInt32,
      isValueValidUint16, isValueValidInt16, isValueValidUint8, isValueValidInt8;
    match goal with |- context [match ?x with Some _ => _ | None => _ end] => destruct x end; try (by eexists);
    (destruct (restrictions d) as [[lo hi|o]|]; [by eexists|by destruct Hd|by eexists]).
Qed.

End Theorems.

(** ** Witnesses *)

Lemma one_def (k : cstring) : key_ok k →
  ∃ (m : hash_map) es, km_model m es ∧ (k, 5%positive) ∈ es.
Proof.
  intros Hk. destruct (km_put_new (km_create : hash_map) [] k 5%positive) as (m & es & _ & Hm & Hp);
    [apply km_create_law|done|apply not_elem_of_nil|done|].
  exists m, es. split; [done|]. rewrite Hp. by left.
Qed.

Lemma isValueValid_number_witness :
  ∃ m : hash_map,
    let d := {[5%positive := mkTypeDef (str "delay") PROPERTY_TYPE_UINT8 (Some (stored 10 20))]} in
    isValueValid d (Some m) (str "delay") (Some (str "15")) = Ok None ∧
    isValueValid d (Some m) (str "delay") (Some (str "21")) = Ok (Some (OutsideRange 10 20)).
Proof.
  destruct (one_def (str "delay")) as (m & es & Hm & Hin); [done|]. exists m. split.
  - apply (isValueValid_number _ m es (str "delay") 5%positive PROPERTY_TYPE_UINT8 15 0 255 10 20);
      (done || unfold INT64_MIN, INT64_MAX; lia).
  - apply (isValueValid_number _ m es (str "delay") 5%positive PROPERTY_TYPE_UINT8 21 0 255 10 20);
      (done || unfold INT64_MIN, INT64_MAX; lia).
Defined.

Lemma colors_repr : ∃ l, lrepr l (Some <$> [str "red"; str "blue"]).
Proof.
  destruct (lrepr_append linkedListCreate [] (str "red")) as (l1 & _ & H1 & _); [apply lrepr_create|done|].
  destruct (lrepr_append l1 _ (str "blue") H1) as (l2 & _ & H2 & _); [done|]. by exists l2.
Qed.

Lemma isValueValid_enum_witness :
  ∃ (m : hash_map) l,
    isValueValid {[5%positive := mkTypeDef (str "color") PROPERTY_TYPE_ENUM (Some (EnumValues (Some l)))]}
      (Some m) (str "color") (Some (str "Red")) = Ok (Some NotMember).
Proof.
  destruct (one_def (str "color")) as (m & es & Hm & Hin); [done|]. destruct colors_repr as [l Hl].
  exists m, l. apply (isValueValid_enum _ m es (str "color") 5%positive l [str "red"; str "blue"] (str "Red"));
    try done; [by auto with zilker|].
  repeat constructor; by auto with zilker.
Defined.

End PropertyTypes.
