(* ===== verification/Properties.v ===== *)
(** * The properties service: its store

    Models src/source/services/props/core/src/properties.c and broadcastEvent.c
    of the same directory.  The state is what the file keeps in static
    variables: the map from keys to property objects ([KeyMap]), the objects
    in memory, the version of the configuration file, the pending backup
    task; together with the observable effects, the broadcast events and the
    contents of the configuration file.  The mutex PROP_MTX is held during
    every public function, so each is one atomic step.  Parameters: the XML
    library ([LibXml]), what becomes of the file when a version is written, whether the
    event producer was started, and the delayed-task library. *)

From S2P Require Import Prelude FifoBuffer StringUtils StringUtilsTheorems StringNumbers KeyMap.
From S2P Require Import XmlHelper.
Import StringUtils StringTheorems StringNumbers KeyMap Xml.

Module Properties.

Definition PROPERTY_SRC_DEFAULT : Z := 0.
Definition PROPERTY_SRC_DEVICE : Z := 3.

Record property := mkProp {
  p_key : option cstring;
  p_value : option cstring;
  p_source : Z
}.

#[global] Instance property_eq_dec : EqDecision property.
Proof. solve_decision. Defined.

Inductive setPropRc := SET_PROP_NEW | SET_PROP_OVERWRITE | SET_PROP_FAILED | SET_PROP_DROPPED.

#[global] Instance setPropRc_eq_dec : EqDecision setPropRc.
Proof. solve_decision. Defined.

Inductive eventValue := GENERIC_PROP_ADDED | GENERIC_PROP_DELETED | GENERIC_PROP_UPDATED.

Record propEvent := mkEvent {
  e_value : eventValue;
  e_key : cstring;
  e_propValue : option cstring;
  e_version : Z;
  e_source : Z
}.

(** What becomes of a file that is written: the temporary file cannot be
    opened; the new text is in place; or writing or renaming failed, which
    nobody looks at, and the next reader finds [found]. *)
Inductive save_result (F : Type) := OpenFails | Saved | Spoilt (found : option F).
Arguments OpenFails {F}.
Arguments Saved {F}.
Arguments Spoilt {F} _.

Definition opened {F} (r : save_result F) : bool := match r with OpenFails => false | _ => true end.
Definition saved_file {F} (r : save_result F) (text : F) : option F := match r with Spoilt found => found | _ => Some text end.
Definition always_saved {F} : Z → save_result F := λ _, Saved.

Definition ROOT_NODE : cstring := str "properties".
Definition VERSION_NODE : cstring := str "version".
Definition SCHEMA_VER_ATTR : cstring := str "schema".
Definition PROP_NODE : cstring := str "property".
Definition KEY_NODE : cstring := str "key".
Definition VALUE_NODE : cstring := str "value".
Definition SOURCE_NODE : cstring := str "src".
Definition CURR_SCHEMA_VER : Z := 1.

Definition IC_DYNAMIC_DIR_PROP : cstring := str "IC_DYNAMIC_DIR".
Definition IC_STATIC_DIR_PROP : cstring := str "IC_STATIC_DIR".

(** The pairs of DEFAULT_PROPERTIES. *)
Definition DEFAULT_PROPERTIES : list (cstring * cstring) :=
  [(IC_DYNAMIC_DIR_PROP, str "/opt");
   (IC_STATIC_DIR_PROP, str "/vendor");
   (str "camera.fw.update.delay.seconds", str "0");
   (str "config.fastbackuptimer.flag", str "false");
   (str "discover.disabled.devices.flag", str "false");
   (str "camera.noupgrade.flag", str "false");
   (str "telemetry.fast.upload.timer.flag", str "false");
   (str "zigbee.fw.upgrade.nodelay.flag", str "false");
   (str "cpe.zigbee.panIdConflict.enabled", str "false");
   (str "cpe.blacklistedDevices", str "");
   (str "xconf.telemetry.max.roll.size", str "200000")].

Section Service.
Context {M : Type} `{KeyMap M addr} {xml : Type} `{LibXml xml}.
(** The environment: the event producer is up, the temporary file can be
    opened, and the delayed-task library. *)
Context (producer : bool) (saving : Z → save_result xml_file) (isDelayTaskWaiting : Z → bool) (scheduleDelayTask : Z).

Record state := mkState {
  heap : gmap addr property;
  propertyMap : M;
  confVersion : Z;
  backupTask : Z;
  events : list propEvent;
  configFile : option xml_file
}.
Implicit Types (s : state).

Definition set_heap s h := mkState h (propertyMap s) (confVersion s) (backupTask s) (events s) (configFile s).
Definition set_map s m := mkState (heap s) m (confVersion s) (backupTask s) (events s) (configFile s).
Definition set_version s v := mkState (heap s) (propertyMap s) v (backupTask s) (events s) (configFile s).
Definition set_backupTask s t := mkState (heap s) (propertyMap s) (confVersion s) t (events s) (configFile s).
Definition set_file s f := mkState (heap s) (propertyMap s) (confVersion s) (backupTask s) (events s) f.

Definition broadcastPropertyEvent (v : eventValue) (key : cstring) (value : option cstring) (version source : Z) s
    : state :=
  if producer then
    mkState (heap s) (propertyMap s) (confVersion s) (backupTask s)
      (events s ++ [mkEvent v key value version source]) (configFile s)
  else s.

Definition createProperty (key val : option cstring) (source : Z) s : addr * state :=
  let a := fresh (dom (heap s)) in (a, set_heap s (<[a := mkProp key val source]> (heap s))).

(** Freeing an object that is not allocated is a fault. *)
Definition destroy_property (a : addr) s : outcome state :=
  _ ← of_option (heap s !! a); Ok (set_heap s (delete a (heap s))).

Definition getPropertyWhenLocked (key : cstring) s : outcome (option addr) := km_get (propertyMap s) key.

Definition getProperty (key : option cstring) s : outcome (option addr) :=
  match key with None => Ok None | Some k => getPropertyWhenLocked k s end.

Definition setPropertyWhenLocked (prop : addr) (sendEvent overwrite : bool) s : outcome (setPropRc * state) :=
  p ← of_option (heap s !! prop);
  key ← of_option (p_key p);
  found ← getPropertyWhenLocked key s;
  match found with
  | Some a =>
      exists_ ← of_option (heap s !! a);
      let different := bool_decide (stringCompare (p_value p) (p_value exists_) false ≠ 0) in
      if overwrite || bool_decide (p_source exists_ < p_source p)
         || (bool_decide (p_source p = p_source exists_) && different)
      then
        let s := set_heap s (<[a := mkProp (p_key exists_) (p_value p) (p_source p)]> (heap s)) in
        let s := if sendEvent
                 then broadcastPropertyEvent GENERIC_PROP_UPDATED key (p_value p)
                        (u64 (confVersion s + 1)) (p_source p) s
                 else s in
        Ok (SET_PROP_OVERWRITE, s)
      else Ok (SET_PROP_DROPPED, s)
  | None =>
      '(_, m) ← km_put (propertyMap s) key prop;
      let s := set_map s m in
      let s := if sendEvent
               then broadcastPropertyEvent GENERIC_PROP_ADDED key (p_value p)
                      (u64 (confVersion s + 1)) (p_source p) s
               else s in
      Ok (SET_PROP_NEW, s)
  end.

(** ** Writing the configuration file *)

Definition text_node (name : cstring) (text : option cstring) : xml :=
  xmlNodeSetContent (xmlNewNode name) text.

(** The <property> element of a property. *)
Definition prop_node (p : property) : xml :=
  let n := xmlNewNode PROP_NODE in
  let n := xmlAddChild n (text_node KEY_NODE (p_key p)) in
  let n := xmlAddChild n (text_node VALUE_NODE (p_value p)) in
  xmlAddChild n (text_node SOURCE_NODE (Some (signed_decimal (p_source p)))).

Definition config_doc (version : Z) s : outcome xml :=
  let rootNode := setXmlNodeAttributeAsInt (xmlNewNode ROOT_NODE) SCHEMA_VER_ATTR CURR_SCHEMA_VER in
  let rootNode := xmlAddChild rootNode (text_node VERSION_NODE (Some (decimal version))) in
  km_foreach (propertyMap s) (λ a root, p ← of_option (heap s !! a); Ok (xmlAddChild root (prop_node p))) rootNode.

Definition writeConfigFile (sendEvent : bool) s : outcome (bool * state) :=
  let s := set_version s (u64 (confVersion s + 1)) in
  doc ← config_doc (confVersion s) s;
  if opened (saving (confVersion s)) then
    let s := set_file s (saved_file (saving (confVersion s)) (xmlDump doc)) in
    let s := if sendEvent && (bool_decide (backupTask s = 0) || negb (isDelayTaskWaiting (backupTask s)))
             then set_backupTask s scheduleDelayTask else s in
    Ok (true, s)
  else Ok (false, s).

(** ** Public setters *)

Definition setProperty (prop : addr) s : outcome (setPropRc * state) :=
  '(retVal, s) ← setPropertyWhenLocked prop true false s;
  if decide (retVal ≠ SET_PROP_FAILED ∧ retVal ≠ SET_PROP_DROPPED) then
    '(_, s) ← writeConfigFile true s; Ok (retVal, s)
  else Ok (retVal, s).

Definition setPropertyOverwrite (prop : addr) s : outcome (setPropRc * state) :=
  '(retVal, s) ← setPropertyWhenLocked prop true true s;
  if decide (retVal ≠ SET_PROP_FAILED) then
    '(_, s) ← writeConfigFile true s; Ok (retVal, s)
  else Ok (retVal, s).

(** The loop over the group: [None] is an entry whose key or value is NULL. *)
Fixpoint bulk_loop (group : list (option property)) (doSave : bool) s : outcome (bool * state) :=
  match group with
  | [] => Ok (doSave, s)
  | None :: rest => bulk_loop rest doSave s
  | Some prop :: rest =>
      let '(copy, s) := createProperty (p_key prop) (p_value prop) (p_source prop) s in
      '(worked, s) ← setPropertyWhenLocked copy true false s;
      let doSave := if decide (worked ≠ SET_PROP_FAILED) then true else doSave in
      s ← (if decide (worked ≠ SET_PROP_NEW) then destroy_property copy s else Ok s);
      bulk_loop rest doSave s
  end.

Definition setPropertiesBulk (group : list (option property)) s : outcome (bool * state) :=
  match group with
  | [] => Ok (false, s)
  | _ =>
      '(doSave, s) ← bulk_loop group false s;
      if doSave : bool then '(_, s) ← writeConfigFile true s; Ok (true, s) else Ok (true, s)
  end.

(** ** Defaults *)

(** What ensureDefaults, initProperties and restorePropConfig do for a
    missing key. *)
Definition set_missing (key : cstring) (val : cstring) (source : Z) (overwrite : bool) s : outcome (bool * state) :=
  tmp ← getPropertyWhenLocked key s;
  match tmp with
  | Some _ => Ok (false, s)
  | None =>
      let '(tmp, s) := createProperty (Some key) (Some val) source s in
      '(rc, s) ← setPropertyWhenLocked tmp false overwrite s;
      s ← (if decide (rc ≠ SET_PROP_NEW) then destroy_property tmp s else Ok s);
      Ok (true, s)
  end.

Fixpoint defaults_loop (defaults : list (cstring * cstring)) (retVal : bool) s : outcome (bool * state) :=
  match defaults with
  | [] => Ok (retVal, s)
  | (key, val) :: rest =>
      '(set, s) ← set_missing key val PROPERTY_SRC_DEFAULT false s;
      defaults_loop rest (if set : bool then true else retVal) s
  end.

(** Without CONFIG_CAP_SCREEN. *)
Definition ensureDefaults s : outcome (bool * state) := defaults_loop DEFAULT_PROPERTIES false s.

Definition deleteProperty (key : cstring) s : outcome (bool * state) :=
  '(gone, m) ← km_delete (propertyMap s) key;
  match gone with
  | None => Ok (false, set_map s m)
  | Some a =>
      s ← destroy_property a (set_map s m);
      let s := broadcastPropertyEvent GENERIC_PROP_DELETED key None (u64 (confVersion s + 1)) PROPERTY_SRC_DEVICE s in
      '(_, s) ← ensureDefaults s;
      '(_, s) ← writeConfigFile true s;
      Ok (true, s)
  end.

Definition getAllPropertyKeys s : outcome (list cstring) :=
  km_foreach (propertyMap s)
    (λ a keys, p ← of_option (heap s !! a); k ← of_option (p_key p); Ok (keys ++ [k])) [].

Definition getConfigFileVersion s : Z := confVersion s.
Definition getPropertyCount s : Z := km_count (propertyMap s).

(** ** Reading the configuration file *)

(** The loop over the children of a <property> element. *)
Fixpoint read_prop_loop (nodes : list xml) (save : property) : property :=
  match nodes with
  | [] => save
  | n :: rest =>
      let save :=
        if xml_element n then
          if bool_decide (strcmp (xml_name n) KEY_NODE = 0)
          then mkProp (getXmlNodeContentsAsString (Some n) (Some [])) (p_value save) (p_source save)
          else if bool_decide (strcmp (xml_name n) VALUE_NODE = 0)
          then mkProp (p_key save) (getXmlNodeContentsAsString (Some n) (Some [])) (p_source save)
          else if bool_decide (strcmp (xml_name n) SOURCE_NODE = 0)
          then mkProp (p_key save) (p_value save) (getXmlNodeContentsAsInt (Some n) PROPERTY_SRC_DEFAULT)
          else save
        else save in
      read_prop_loop rest save
  end.

Definition non_empty (o : option cstring) : bool := match o with Some (_ :: _) => true | _ => false end.

(** The loop over the children of the root. *)
Fixpoint read_loop (nodes : list xml) s : outcome state :=
  match nodes with
  | [] => Ok s
  | n :: rest =>
      s ← (if xml_element n then
             if bool_decide (strcmp (xml_name n) VERSION_NODE = 0)
             then Ok (set_version s (getXmlNodeContentsAsUnsignedLongLong (Some n) 0))
             else if bool_decide (strcmp (xml_name n) PROP_NODE = 0) then
               let '(a, s) := createProperty None None PROPERTY_SRC_DEFAULT s in
               let save := read_prop_loop (xml_children n) (mkProp None None PROPERTY_SRC_DEFAULT) in
               let s := set_heap s (<[a := save]> (heap s)) in
               if non_empty (p_key save) && non_empty (p_value save) then
                 k ← of_option (p_key save);
                 '(_, m) ← km_put (propertyMap s) k a;
                 Ok (set_map s m)
               else destroy_property a s
             else Ok s
           else Ok s);
      read_loop rest s
  end.

Definition migrateFromSchemaZero s : outcome (bool * state) :=
  km_foreach (propertyMap s)
    (λ a '(_, s), p ← of_option (heap s !! a);
                  Ok (true, set_heap s (<[a := mkProp (p_key p) (p_value p) PROPERTY_SRC_DEFAULT]> (heap s))))
    (false, s).

Definition readConfigFile (file : option xml_file) s : outcome (bool * state) :=
  match file ≫= xmlParse with
  | None => Ok (false, s)
  | Some topNode =>
      let schemaVersion := getXmlNodeAttributeAsInt (Some topNode) SCHEMA_VER_ATTR 0 in
      s ← read_loop (xml_children topNode) s;
      s ← (if decide (schemaVersion ≠ CURR_SCHEMA_VER ∧ schemaVersion = 0) then
             '(changed, s) ← migrateFromSchemaZero s;
             if changed : bool then '(_, s) ← writeConfigFile false s; Ok s else Ok s
           else Ok s);
      Ok (true, s)
  end.

(** ** Life cycle *)

(** [file] is the contents of the file chooseFileToRead selects, if any. *)
Definition initProperties (configDir homeDir : cstring) (file : option xml_file) s : outcome (bool * state) :=
  let s := set_map (set_version s 0) km_create in
  s ← match file with
      | Some f => '(_, s) ← readConfigFile (Some f) s; Ok s
      | None => Ok s
      end;
  '(save1, s) ← set_missing IC_DYNAMIC_DIR_PROP configDir PROPERTY_SRC_DEVICE false s;
  '(save2, s) ← set_missing IC_STATIC_DIR_PROP homeDir PROPERTY_SRC_DEVICE false s;
  '(save3, s) ← ensureDefaults s;
  s ← (if save1 || save2 || save3 then '(_, s) ← writeConfigFile false s; Ok s else Ok s);
  Ok (true, s).

Definition destroy_all (l : list addr) s : outcome state := foldM destroy_property l s.

(** [restored] is the contents of the restored file, when it has more than 5
    bytes; [dynamicDir] the parent of the destination. *)
Definition restorePropConfig (restored : option xml_file) (dynamicDir : cstring) s : outcome (bool * state) :=
  '(gone, m) ← km_clear (propertyMap s);
  s ← destroy_all gone (set_map s m);
  match restored with
  | Some f =>
      '(_, s) ← readConfigFile (Some f) s;
      '(_, s) ← set_missing IC_DYNAMIC_DIR_PROP dynamicDir PROPERTY_SRC_DEVICE true s;
      '(_, s) ← ensureDefaults s;
      '(_, s) ← writeConfigFile false s;
      Ok (true, s)
  | None => Ok (false, s)
  end.

(** [branded] are the key/value pairs of globalSettings.properties. *)
Fixpoint global_loop (branded : list (cstring * cstring)) (added : bool) s : outcome (bool * state) :=
  match branded with
  | [] => Ok (added, s)
  | (key, value) :: rest =>
      tmp ← getPropertyWhenLocked key s;
      match tmp with
      | Some _ => global_loop rest added s
      | None =>
          let '(a, s) := createProperty (Some key) (Some value) PROPERTY_SRC_DEFAULT s in
          '(_, m) ← km_put (propertyMap s) key a;
          global_loop rest true (set_map s m)
      end
  end.

Definition loadGlobalDefaults (branded : list (cstring * cstring)) s : outcome state :=
  '(addedSomething, s) ← global_loop branded false s;
  if addedSomething : bool then '(_, s) ← writeConfigFile false s; Ok s else Ok s.

(** The map is NULL afterwards: it is gone from the state. *)
Definition destroyProperties s : outcome state :=
  '(gone, m) ← km_clear (propertyMap s);
  s ← destroy_all gone (set_map s m);
  Ok (if decide (backupTask s ≠ 0) then set_backupTask s 0 else s).

End Service.

End Properties.
