(* ===== verification/PropertiesSpec.v ===== *)
(** * Behaviour of the properties store

    The abstract state of the service -- a finite map from keys to value and
    source, the file version and the events sent -- and the effect of every
    operation of Properties.v on it, for any implementation of the map
    interface and of the XML library. *)

From S2P Require Import Prelude FifoBuffer StringUtils StringUtilsTheorems StringNumbers KeyMap.
From S2P Require Import XmlHelper Properties.
Import StringUtils StringTheorems StringNumbers KeyMap Xml Properties.

Module PropSpec.

(** Value and source of a property. *)
Abbreviation pdata := (option cstring * Z)%type.

Definition pdata_of (p : property) : pdata := (p_value p, p_source p).

(** The defaults as a map. *)
Definition default_map : gmap cstring pdata :=
  list_to_map ((λ '(k, v), (k, (Some v, PROPERTY_SRC_DEFAULT))) <$> DEFAULT_PROPERTIES).

(** Setting a property: who wins. *)
Definition wins (overwrite : bool) (new old : pdata) : bool :=
  overwrite || bool_decide (old.2 < new.2)
  || (bool_decide (new.2 = old.2) && bool_decide (stringCompare new.1 old.1 false ≠ 0)).

Definition spec_set (overwrite : bool) (k : cstring) (d : pdata) (A : gmap cstring pdata)
    : setPropRc * gmap cstring pdata :=
  match A !! k with
  | None => (SET_PROP_NEW, <[k := d]> A)
  | Some old => if wins overwrite d old then (SET_PROP_OVERWRITE, <[k := d]> A) else (SET_PROP_DROPPED, A)
  end.

Section Spec.
Context {M : Type} `{KeyMapLaws M addr} {xml : Type} `{LibXml xml}.
Context (producer : bool).
Implicit Types (s : state (M := M) (xml := xml)) (es : list (cstring * addr)) (A : gmap cstring pdata).

Definition pv (h : gmap addr property) (a : addr) : pdata :=
  match h !! a with Some p => pdata_of p | None => (None, 0) end.

Definition view (h : gmap addr property) (e : cstring * addr) : cstring * pdata := (e.1, pv h e.2).

(** The map's entries point to distinct live objects with the same key. *)
Record pmodel s es A : Prop := {
  pm_map : km_model (propertyMap s) es;
  pm_distinct : NoDup es.*2;
  pm_live : ∀ k a, (k, a) ∈ es → key_ok k ∧ ∃ p, heap s !! a = Some p ∧ p_key p = Some k;
  pm_abs : list_to_map (view (heap s) <$> es) = A
}.

Lemma view_lookup h es k :
  (list_to_map (view h <$> es) : gmap cstring pdata) !! k
  = pv h <$> (list_to_map es : gmap cstring addr) !! k.
Proof.
  induction es as [|[k' a] es IH]; [done|]. rewrite fmap_cons. simpl.
  destruct (decide (k' = k)) as [->|Hne]; [by rewrite !lookup_insert_eq|by rewrite !lookup_insert_ne].
Qed.

Lemma view_keys h es : (view h <$> es).*1 = es.*1.
Proof. by rewrite <-list_fmap_compose. Qed.

Lemma view_ext h h' es : (∀ a, a ∈ es.*2 → h' !! a = h !! a) → view h' <$> es = view h <$> es.
Proof.
  intros Hx. apply list_fmap_ext. intros i [k a] Hi. unfold view, pv. simpl. rewrite Hx; [done|].
  apply list_elem_of_fmap. exists (k, a). split; [done|]. by eapply list_elem_of_lookup_2.
Qed.

Lemma entry_lookup s es A k a :
  pmodel s es A → (list_to_map es : gmap cstring addr) !! k = Some a ↔ (k, a) ∈ es.
Proof. intros [Hm _ _ _]. symmetry. apply elem_of_list_to_map. by eapply km_nodup. Qed.

Lemma entry_addr es (k : cstring) (a : addr) : (k, a) ∈ es → a ∈ es.*2.
Proof. intros Hin. apply list_elem_of_fmap. by exists (k, a). Qed.

Lemma get_locked s es A k :
  pmodel s es A → key_ok k → getPropertyWhenLocked k s = Ok ((list_to_map es : gmap cstring addr) !! k).
Proof. intros [Hm _ _ _] Hk. by apply km_get_law. Qed.

Lemma model_A s es A k : pmodel s es A → A !! k = pv (heap s) <$> (list_to_map es : gmap cstring addr) !! k.
Proof. intros [_ _ _ <-]. apply view_lookup. Qed.

Lemma model_size s es A : pmodel s es A → size A = length es ∧ zlen es ≤ 65535.
Proof.
  intros [Hm _ _ <-]. split; [|by apply (km_model_count _ _ Hm)].
  rewrite map_size_list_to_map; [by rewrite length_fmap|]. rewrite view_keys. by eapply km_nodup.
Qed.

(** Other objects may come, go or change. *)
Lemma pmodel_heap s es A h :
  pmodel s es A → (∀ a, a ∈ es.*2 → h !! a = heap s !! a) → pmodel (set_heap s h) es A.
Proof.
  intros [Hm Hd Hl HA] Hh. split; simpl; [done|done| |].
  - intros k a Hin. rewrite Hh by (by eapply entry_addr). by apply Hl.
  - by rewrite (view_ext (heap s)).
Qed.

(** Replacing the data of one entry. *)
Lemma pmodel_update s es A k a p d :
  pmodel s es A → (k, a) ∈ es → p_key p = Some k → d = pdata_of p →
  pmodel (set_heap s (<[a := p]> (heap s))) es (<[k := d]> A).
Proof.
  intros Hs Hin Hp ->. pose proof Hs as [Hm Hd Hl HA]. split; simpl; [done|done| |].
  - intros k' a' Hin'. split; [by apply (Hl k' a')|]. destruct (decide (a' = a)) as [->|Hne].
    + exists p. rewrite lookup_insert_eq. split; [done|].
      assert (k' = k) as ->; [|done].
      apply list_elem_of_lookup in Hin as [i Hi]. apply list_elem_of_lookup in Hin' as [j Hj].
      assert (i = j) as ->.
      { eapply (NoDup_lookup es.*2 i j a); [done|..]; rewrite list_lookup_fmap; [by rewrite Hi|by rewrite Hj]. }
      congruence.
    + rewrite lookup_insert_ne by done. by apply Hl.
  - apply map_eq. intros k'. rewrite view_lookup.
    destruct (decide (k' = k)) as [->|Hne].
    + rewrite (proj2 (entry_lookup s es A k a Hs)) by done. simpl. rewrite lookup_insert_eq.
      unfold pv. by rewrite lookup_insert_eq.
    + rewrite lookup_insert_ne by done. rewrite (model_A s es A k' Hs).
      destruct (list_to_map es !! k') as [b|] eqn:Eb; simpl; [|done].
      apply (entry_lookup s es A k' b Hs) in Eb. f_equal. unfold pv. rewrite lookup_insert_ne; [done|].
      intros <-. apply Hne.
      apply list_elem_of_lookup in Hin as [i Hi]. apply list_elem_of_lookup in Eb as [j Hj].
      assert (i = j) as ->.
      { eapply (NoDup_lookup es.*2 i j a); [done|..]; rewrite list_lookup_fmap; [by rewrite Hi|by rewrite Hj]. }
      congruence.
Qed.

(** Adding an entry for an object that is already in memory. *)
Lemma pmodel_put s es A k a p m' es' :
  pmodel s es A → heap s !! a = Some p → p_key p = Some k → a ∉ es.*2 → key_ok k →
  km_model m' es' → es' ≡ₚ (k, a) :: es →
  pmodel (set_map s m') es' (<[k := pdata_of p]> A).
Proof.
  intros [Hm Hd Hl HA] Ha Hk Hn Hok Hm' Hp. split; simpl; [done| | |].
  - rewrite Hp. by apply NoDup_cons.
  - intros k' a' Hin. rewrite Hp in Hin. apply elem_of_cons in Hin as [[= -> ->]|Hin]; [|by apply Hl].
    split; [done|]. by exists p.
  - rewrite (list_to_map_proper _ (view (heap s) <$> (k, a) :: es)); [| |by rewrite Hp].
    + rewrite fmap_cons. simpl. rewrite HA. unfold pv. by rewrite Ha.
    + rewrite view_keys. by eapply km_nodup.
Qed.

(** What an update broadcasts. *)
Definition set_event (rc : setPropRc) (k : cstring) (d : pdata) (version : Z) : list propEvent :=
  match rc with
  | SET_PROP_NEW => [mkEvent GENERIC_PROP_ADDED k d.1 (u64 (version + 1)) d.2]
  | SET_PROP_OVERWRITE => [mkEvent GENERIC_PROP_UPDATED k d.1 (u64 (version + 1)) d.2]
  | _ => []
  end.

(** The parts of the state a locked set leaves alone, and the events. *)
Definition only_events s s' (evs : list propEvent) : Prop :=
  confVersion s' = confVersion s ∧ backupTask s' = backupTask s ∧ configFile s' = configFile s ∧
  events s' = events s ++ evs.

Lemma broadcast_fields v k d ver src s :
  let s' := broadcastPropertyEvent producer v k d ver src s in
  heap s' = heap s ∧ propertyMap s' = propertyMap s ∧
  only_events s s' (if producer then [mkEvent v k d ver src] else []).
Proof.
  unfold broadcastPropertyEvent, only_events. destruct producer; simpl; [done|]. by rewrite app_nil_r.
Qed.

Lemma pmodel_same s s' es A :
  pmodel s es A → heap s' = heap s → propertyMap s' = propertyMap s → pmodel s' es A.
Proof. intros [Hm Hd Hl HA] Hh Hp. split; rewrite ?Hh, ?Hp; done. Qed.

Lemma set_locked s es A prop p k sendEvent overwrite :
  pmodel s es A → heap s !! prop = Some p → p_key p = Some k → key_ok k →
  prop ∉ es.*2 → zlen es < 65535 →
  ∃ s' es', setPropertyWhenLocked producer prop sendEvent overwrite s
      = Ok ((spec_set overwrite k (pdata_of p) A).1, s') ∧
    pmodel s' es' (spec_set overwrite k (pdata_of p) A).2 ∧
    only_events s s' (if sendEvent && producer
      then set_event (spec_set overwrite k (pdata_of p) A).1 k (pdata_of p) (confVersion s) else []) ∧
    heap s' !! prop = Some p ∧ dom (heap s') = dom (heap s) ∧
    (if decide ((spec_set overwrite k (pdata_of p) A).1 = SET_PROP_NEW)
     then es' ≡ₚ (k, prop) :: es else es' = es).
Proof.
  intros Hs Hp Hk Hok Hn Hsz. unfold setPropertyWhenLocked, spec_set.
  rewrite Hp. oread. rewrite Hk. oread.
  rewrite (get_locked s es A k) by done. rewrite (model_A s es A k Hs). obind.
  destruct (list_to_map es !! k) as [a|] eqn:Ea.
  - apply (entry_lookup s es A k a Hs) in Ea. destruct (pm_live _ _ _ Hs k a Ea) as (_ & q & Hq & Hqk).
    rewrite Hq. cbn [of_option mbind outcome_bind fmap option_fmap option_map]. unfold pv. rewrite Hq.
    assert (Hne : a ≠ prop) by (intros ->; apply Hn; by eapply entry_addr).
    change (overwrite || _ || _) with (wins overwrite (pdata_of p) (pdata_of q)).
    destruct (wins overwrite (pdata_of p) (pdata_of q)); cbn [fst snd]; cycle 1.
    { exists s, es. rewrite decide_False by done. split_and!; try done.
      unfold only_events. destruct (sendEvent && producer); by rewrite app_nil_r. }
    set (s1 := set_heap s _).
    assert (Hs1 : pmodel s1 es (<[k := pdata_of p]> A)).
    { apply (pmodel_update s es A k a); [done|done|simpl; congruence|done]. }
    exists (if sendEvent then broadcastPropertyEvent producer GENERIC_PROP_UPDATED k (p_value p)
       (u64 (confVersion s1 + 1)) (p_source p) s1 else s1), es.
    rewrite decide_False by done. split; [done|].
    destruct (broadcast_fields GENERIC_PROP_UPDATED k (p_value p) (u64 (confVersion s1 + 1)) (p_source p) s1)
      as (Hh & Hm & Ho).
    assert (Hdom : dom (heap s1) = dom (heap s)).
    { simpl. rewrite dom_insert_L. assert (a ∈ dom (heap s)) by (by apply elem_of_dom). set_solver. }
    assert (Hpp : heap s1 !! prop = Some p) by (simpl; by rewrite lookup_insert_ne).
    destruct sendEvent; simpl andb.
    + split_and!; [by eapply pmodel_same| |by rewrite Hh|by rewrite Hh|done]. by destruct producer.
    + split_and!; try done. unfold only_events. by rewrite app_nil_r.
  - cbn [fmap option_fmap option_map fst snd].
    assert (Hkn : k ∉ es.*1) by (by apply not_elem_of_list_to_map_2 in Ea).
    destruct (km_put_new (propertyMap s) es k prop) as (m' & es' & -> & Hm' & Hp'); [apply Hs|done|done|done|].
    obind. set (s1 := set_map s m').
    assert (Hs1 : pmodel s1 es' (<[k := pdata_of p]> A)) by (by eapply pmodel_put).
    exists (if sendEvent then broadcastPropertyEvent producer GENERIC_PROP_ADDED k (p_value p)
       (u64 (confVersion s1 + 1)) (p_source p) s1 else s1), es'.
    rewrite decide_True by done. split; [done|].
    destruct (broadcast_fields GENERIC_PROP_ADDED k (p_value p) (u64 (confVersion s1 + 1)) (p_source p) s1)
      as (Hh & Hm & Ho).
    destruct sendEvent; simpl andb.
    + split_and!; [by eapply pmodel_same| |by rewrite Hh|by rewrite Hh|done]. by destruct producer.
    + split_and!; try done. unfold only_events. by rewrite app_nil_r.
Qed.

(** ** Ownership: the objects in memory are exactly those in the map *)

Definition owned s es : Prop := dom (heap s) = list_to_set es.*2.

(** [s] holds the properties [A] and nothing else. *)
Definition holds s A : Prop := ∃ es, pmodel s es A ∧ owned s es.

Lemma holds_size s A : holds s A → getPropertyCount s = Z.of_nat (size A) ∧ Z.of_nat (size A) ≤ 65535.
Proof.
  intros (es & Hs & _). destruct (model_size _ _ _ Hs) as [-> Hl].
  destruct (km_model_count _ _ (pm_map _ _ _ Hs)) as [Hc _]. unfold getPropertyCount. rewrite Hc. done.
Qed.

Lemma holds_same s s' A :
  holds s A → heap s' = heap s → propertyMap s' = propertyMap s → holds s' A.
Proof.
  intros (es & Hs & Ho) Hh Hm. exists es. split; [by eapply pmodel_same|]. unfold owned. by rewrite Hh.
Qed.

Lemma owned_perm s es es' : owned s es → es' ≡ₚ es → owned s es'.
Proof. unfold owned. intros -> Hp. apply set_eq. intros a. rewrite !elem_of_list_to_set. by rewrite Hp. Qed.

(** What a client does with a new property: create the object, set it, and
    destroy it unless the map took it. *)
Definition set_new (key val : option cstring) (source : Z) (sendEvent overwrite : bool) s
    : outcome (setPropRc * state) :=
  let '(a, s) := createProperty key val source s in
  '(rc, s) ← setPropertyWhenLocked producer a sendEvent overwrite s;
  s ← (if decide (rc ≠ SET_PROP_NEW) then destroy_property a s else Ok s);
  Ok (rc, s).

Lemma create_fresh s es A :
  pmodel s es A → fresh (dom (heap s)) ∉ es.*2.
Proof.
  intros Hs Hin. apply list_elem_of_fmap in Hin as ([k a] & Heq & Hin). simpl in Heq.
  destruct (pm_live _ _ _ Hs k a Hin) as (_ & p & Hp & _).
  apply (is_fresh (dom (heap s))). rewrite Heq. by apply elem_of_dom.
Qed.

Lemma set_new_spec s A k v src sendEvent overwrite :
  holds s A → key_ok k → Z.of_nat (size A) < 65535 →
  ∃ s', set_new (Some k) v src sendEvent overwrite s
      = Ok ((spec_set overwrite k (v, src) A).1, s') ∧
    holds s' (spec_set overwrite k (v, src) A).2 ∧
    only_events s s' (if sendEvent && producer
      then set_event (spec_set overwrite k (v, src) A).1 k (v, src) (confVersion s) else []).
Proof.
  intros (es & Hs & Ho) Hk Hsz. unfold set_new, createProperty.
  set (a := fresh (dom (heap s))). set (p := mkProp (Some k) v src). set (s1 := set_heap s _).
  assert (Hna : a ∉ dom (heap s)) by apply is_fresh.
  pose proof (create_fresh s es A Hs) as Hfr. fold a in Hfr.
  assert (Hs1 : pmodel s1 es A).
  { apply pmodel_heap; [done|]. intros b Hb. rewrite lookup_insert_ne; [done|]. by intros ->. }
  destruct (model_size _ _ _ Hs) as [Hsize _].
  destruct (set_locked s1 es A a p k sendEvent overwrite Hs1) as (s2 & es2 & -> & Hs2 & He2 & Hp2 & Hd2 & Hes2);
    [by apply lookup_insert_eq|done|done|done|lia|].
  obind. change (pdata_of p) with (v, src) in *.
  assert (Hd1 : dom (heap s2) = {[a]} ∪ list_to_set es.*2).
  { rewrite Hd2. simpl. rewrite dom_insert_L. by rewrite Ho. }
  destruct (decide ((spec_set overwrite k (v, src) A).1 = SET_PROP_NEW)) as [E|E].
  - rewrite decide_False by (intros Hx; by apply Hx). obind.
    exists s2. split; [done|]. split; [|exact He2]. exists es2. split; [done|].
    apply (owned_perm _ ((k, a) :: es)); [|done]. unfold owned. rewrite Hd1. done.
  - rewrite decide_True by done. unfold destroy_property. rewrite Hp2. oread.
    eexists. split; [done|]. split; [|exact He2]. subst es2. exists es. split.
    + apply pmodel_heap; [done|]. intros b Hb. rewrite lookup_delete_ne; [done|]. by intros ->.
    + unfold owned. simpl. rewrite dom_delete_L, Hd1.
      assert (a ∉ (list_to_set es.*2 : gset addr)) by (by rewrite elem_of_list_to_set). set_solver.
Qed.

(** ** Writing *)

(** The properties in the order of the file. *)
Definition file_props s es : list property := omap (λ e, heap s !! e.2) es.

Definition root_node (version : Z) : xml :=
  xmlAddChild (setXmlNodeAttributeAsInt (xmlNewNode ROOT_NODE) SCHEMA_VER_ATTR CURR_SCHEMA_VER)
    (text_node VERSION_NODE (Some (decimal version))).

Definition doc_of (version : Z) (ps : list property) : xml :=
  foldl (λ r p, xmlAddChild r (prop_node p)) (root_node version) ps.

Lemma config_doc_spec s es A v : pmodel s es A → config_doc v s = Ok (doc_of v (file_props s es)).
Proof.
  intros Hs. unfold config_doc, doc_of. rewrite (km_foreach_law _ es) by apply Hs.
  fold (root_node v). generalize (root_node v).
  pose proof (λ k a Hin, proj2 (pm_live _ _ _ Hs k a Hin)) as Hl. clear Hs. unfold file_props.
  induction es as [|[k a] es IH]; intros r; [done|]. cbn [fmap list_fmap foldM].
  destruct (Hl k a) as (p & Hp & _); [by left|]. simpl. rewrite Hp. simpl.
  apply IH. intros k' a' Hin. apply (Hl k'). by right.
Qed.

(** ** Defaults *)

Lemma set_missing_spec s A k v src ow :
  holds s A → key_ok k → Z.of_nat (size A) < 65535 →
  ∃ s', set_missing producer k v src ow s = Ok (bool_decide (A !! k = None), s') ∧
    holds s' (match A !! k with Some _ => A | None => <[k := (Some v, src)]> A end) ∧
    only_events s s' [].
Proof.
  intros Hs Hk Hsz. unfold set_missing. destruct Hs as (es & Hs & Ho).
  rewrite (get_locked s es A k) by done. obind.
  pose proof (model_A s es A k Hs) as HA.
  destruct (list_to_map es !! k) as [a|]; simpl in HA; rewrite HA.
  - exists s. split; [done|]. split; [by exists es|]. unfold only_events. by rewrite app_nil_r.
  - destruct (set_new_spec s A k (Some v) src false ow) as (s' & He & Hs' & Hev); [by exists es|done|done|].
    unfold set_new in He. destruct (createProperty (Some k) (Some v) src s) as [a s1].
    unfold spec_set in *. rewrite HA in *. simpl in *.
    destruct (setPropertyWhenLocked producer a false ow s1) as [[rc s2]| |]; simpl in *; [|done..].
    destruct (if decide (rc ≠ SET_PROP_NEW) then destroy_property a s2 else Ok s2) as [s3| |]; simpl in *; [|done..].
    injection He as -> ->. exists s'. by split_and!.
Qed.

Definition defaults_of (l : list (cstring * cstring)) : gmap cstring pdata :=
  list_to_map ((λ '(k, v), (k, (Some v, PROPERTY_SRC_DEFAULT))) <$> l).

Lemma size_union_le A B : (size (A ∪ B) ≤ size A + size B)%nat.
Proof.
  rewrite <-!size_dom, dom_union_L, size_union_alt.
  pose proof (subseteq_size (dom B ∖ dom A) (dom B) ltac:(set_solver)). lia.
Qed.

Lemma defaults_union A k d B :
  match A !! k with Some _ => A | None => <[k := d]> A end ∪ B = A ∪ <[k := d]> B.
Proof.
  apply map_eq. intros i. destruct (A !! k) as [x|] eqn:E; rewrite !lookup_union;
    destruct (decide (i = k)) as [->|Hne].
  - rewrite E, lookup_insert_eq. by destruct (B !! k).
  - by rewrite lookup_insert_ne.
  - rewrite E, !lookup_insert_eq. by destruct (B !! k).
  - by rewrite !lookup_insert_ne.
Qed.

Lemma size_insert_le k d A : (size (<[k := d]> A) ≤ S (size A))%nat.
Proof. rewrite map_size_insert. destruct (A !! k); simpl; lia. Qed.

Lemma only_events_trans s1 s2 s3 e1 e2 :
  only_events s1 s2 e1 → only_events s2 s3 e2 → only_events s1 s3 (e1 ++ e2).
Proof.
  intros (? & ? & ? & He1) (? & ? & ? & He2). unfold only_events.
  split_and!; [congruence..|]. by rewrite He2, He1, app_assoc.
Qed.

(** The loop fills in exactly the missing keys. *)
Lemma defaults_loop_spec l s A b :
  holds s A → Forall (λ e, key_ok e.1) l → Z.of_nat (size A) + zlen l ≤ 65535 →
  ∃ b' s', defaults_loop producer l b s = Ok (b', s') ∧ holds s' (A ∪ defaults_of l) ∧
    only_events s s' [] ∧ (b' = true ↔ b = true ∨ A ∪ defaults_of l ≠ A).
Proof.
  intros Hs Hl. revert s A b Hs. induction Hl as [|[k v] l Hk _ IH]; intros s A b Hs Hsz.
  { exists b, s. unfold defaults_of. simpl. rewrite (right_id_L ∅ (∪)). split_and!; try done.
    - unfold only_events. by rewrite app_nil_r.
    - tauto. }
  cbn [defaults_loop]. simpl in Hsz, Hk.
  destruct (set_missing_spec s A k v PROPERTY_SRC_DEFAULT false Hs Hk) as (s1 & -> & Hs1 & He1); [lia|].
  obind.
  set (A1 := match A !! k with Some _ => A | None => <[k := (Some v, PROPERTY_SRC_DEFAULT)]> A end) in *.
  assert (HU : A1 ∪ defaults_of l = A ∪ defaults_of ((k, v) :: l)).
  { unfold A1, defaults_of. rewrite fmap_cons. simpl. apply defaults_union. }
  assert (Hsz1 : (size A1 ≤ S (size A))%nat).
  { unfold A1. destruct (A !! k); [lia|]. apply size_insert_le. }
  destruct (IH s1 A1 (if bool_decide (A !! k = None) then true else b) Hs1) as (b' & s' & -> & Hs' & He' & Hb');
    [lia|].
  exists b', s'. rewrite HU in *. split; [done|]. split; [done|].
  split; [by apply (only_events_trans s s1 s' [] [])|].
  rewrite Hb'. unfold A1. case_bool_decide as E.
  - rewrite E. split; [intros _; right|by left]. intros HU2.
    assert (Hk2 : (A ∪ defaults_of ((k, v) :: l)) !! k = None) by (by rewrite HU2).
    rewrite lookup_union, E in Hk2. unfold defaults_of in Hk2. rewrite fmap_cons in Hk2. simpl in Hk2.
    by rewrite lookup_insert_eq in Hk2.
  - destruct (A !! k); done.
Qed.

Lemma ensureDefaults_spec s A :
  holds s A → Z.of_nat (size A) ≤ 65000 →
  ∃ b s', ensureDefaults producer s = Ok (b, s') ∧ holds s' (A ∪ default_map) ∧
    only_events s s' [] ∧ (b = true ↔ A ∪ default_map ≠ A).
Proof.
  intros Hs Hsz. destruct (defaults_loop_spec DEFAULT_PROPERTIES s A false Hs) as (b & s' & He & Hs' & Hev & Hb).
  - repeat constructor; unfold key_ok, strlen; simpl; lia.
  - simpl. lia.
  - exists b, s'. split_and!; [done|done|done|]. rewrite Hb. intuition congruence.
Qed.

(** ** Delete *)

Lemma destroy_spec s es A a p :
  pmodel s es A → heap s !! a = Some p → a ∉ es.*2 → dom (heap s) = {[a]} ∪ list_to_set es.*2 →
  ∃ s', destroy_property a s = Ok s' ∧ holds s' A ∧ only_events s s' [].
Proof.
  intros Hs Hp Ha Hd. unfold destroy_property. rewrite Hp. oread.
  eexists. split; [done|]. split; [|unfold only_events; simpl; by rewrite app_nil_r].
  exists es. split.
  - apply pmodel_heap; [done|]. intros b Hb. rewrite lookup_delete_ne; [done|]. by intros ->.
  - unfold owned. simpl. rewrite dom_delete_L, Hd.
    assert (a ∉ (list_to_set es.*2 : gset addr)) by (by rewrite elem_of_list_to_set). set_solver.
Qed.

(** Removing an entry of the map, its object still in memory. *)
Lemma pmodel_remove s es A k a m' es' :
  pmodel s es A → km_model m' es' → es ≡ₚ (k, a) :: es' →
  pmodel (set_map s m') es' (delete k A) ∧ a ∉ es'.*2.
Proof.
  intros [Hm Hd Hl HA] Hm' Hp. rewrite Hp in Hd. simpl in Hd. apply NoDup_cons in Hd as [Ha Hd].
  pose proof (km_nodup _ _ Hm) as Hk. rewrite Hp in Hk. simpl in Hk. apply NoDup_cons in Hk as [Hk _].
  split; [|done]. split; simpl; [done|done| |].
  - intros k' a' Hin. apply Hl. rewrite Hp. by right.
  - rewrite <-HA, (list_to_map_proper (view (heap s) <$> es) (view (heap s) <$> (k, a) :: es')).
    + rewrite fmap_cons. simpl. rewrite delete_insert_id; [done|].
      apply not_elem_of_list_to_map_1. by rewrite view_keys.
    + rewrite view_keys. by eapply km_nodup.
    + by rewrite Hp.
Qed.

(** The environment of the writers. *)
Context (saving : Z → save_result xml_file) (isDelayTaskWaiting : Z → bool) (scheduleDelayTask : Z).

Lemma write_spec s es A sendEvent :
  pmodel s es A →
  ∃ s', writeConfigFile saving isDelayTaskWaiting scheduleDelayTask sendEvent s = Ok (opened (saving (u64 (confVersion s + 1))), s') ∧
    heap s' = heap s ∧ propertyMap s' = propertyMap s ∧ events s' = events s ∧
    confVersion s' = u64 (confVersion s + 1) ∧
    configFile s' = (if opened (saving (u64 (confVersion s + 1)))
                     then saved_file (saving (u64 (confVersion s + 1))) (xmlDump (doc_of (u64 (confVersion s + 1)) (file_props s es)))
                     else configFile s).
Proof.
  intros Hs. unfold writeConfigFile. cbv zeta.
  rewrite (config_doc_spec _ es A); [|by eapply pmodel_same]. obind.
  change (confVersion (set_version s (u64 (confVersion s + 1)))) with (u64 (confVersion s + 1)).
  destruct (opened _); [|by eexists]. eexists. split; [done|].
  by destruct (_ && _).
Qed.

Lemma write_holds s A sendEvent :
  holds s A →
  ∃ s', writeConfigFile saving isDelayTaskWaiting scheduleDelayTask sendEvent s = Ok (opened (saving (u64 (confVersion s + 1))), s') ∧
    holds s' A ∧ events s' = events s ∧ confVersion s' = u64 (confVersion s + 1).
Proof.
  intros (es & Hs & Ho). destruct (write_spec s es A sendEvent Hs) as (s' & -> & Hh & Hm & He & Hv & _).
  exists s'. split; [done|]. split; [|done]. apply (holds_same s); [by exists es|done|done].
Qed.

Definition delete_event (k : cstring) (version : Z) : propEvent :=
  mkEvent GENERIC_PROP_DELETED k None (u64 (version + 1)) PROPERTY_SRC_DEVICE.

Lemma delete_spec s A k :
  holds s A → key_ok k → Z.of_nat (size A) ≤ 65000 →
  ∃ s', deleteProperty producer saving isDelayTaskWaiting scheduleDelayTask k s
      = Ok (bool_decide (is_Some (A !! k)), s') ∧
    (if decide (is_Some (A !! k))
     then holds s' (delete k A ∪ default_map) ∧ confVersion s' = u64 (confVersion s + 1) ∧
          events s' = events s ++ (if producer then [delete_event k (confVersion s)] else [])
     else holds s' A ∧ confVersion s' = confVersion s ∧ events s' = events s).
Proof.
  intros (es & Hs & Ho) Hk Hsz. unfold deleteProperty. pose proof (model_A s es A k Hs) as HA.
  destruct (list_to_map es !! k) as [a|] eqn:Ea; simpl in HA.
  - apply (entry_lookup s es A k a Hs) in Ea.
    destruct (km_delete_present (propertyMap s) es k a (pm_map _ _ _ Hs) Hk Ea) as (m' & es' & -> & Hm' & Hp).
    obind. destruct (pmodel_remove s es A k a m' es' Hs Hm' Hp) as [Hs1 Ha].
    destruct (pm_live _ _ _ Hs k a Ea) as (_ & p & Hpa & _).
    destruct (destroy_spec (set_map s m') es' (delete k A) a p Hs1) as (s2 & -> & Hs2 & He2); [done|done| |].
    { simpl. rewrite Ho. apply set_eq. intros b. rewrite elem_of_union, !elem_of_list_to_set, Hp. simpl.
      by rewrite elem_of_cons, elem_of_singleton. }
    obind.
    destruct (broadcast_fields GENERIC_PROP_DELETED k None (u64 (confVersion s2 + 1)) PROPERTY_SRC_DEVICE s2)
      as (Hh3 & Hm3 & He3). set (s3 := broadcastPropertyEvent _ _ _ _ _ _ s2) in *.
    pose proof (holds_same s2 s3 _ Hs2 Hh3 Hm3) as Hs3.
    assert (Hdsz : (size (delete k A) ≤ size A)%nat).
    { rewrite <-!size_dom, dom_delete_L. apply subseteq_size. set_solver. }
    destruct (ensureDefaults_spec s3 _ Hs3) as (b & s4 & -> & Hs4 & He4 & _); [lia|]. obind.
    destruct (write_holds s4 _ true Hs4) as (s5 & -> & Hs5 & He5 & Hv5). obind.
    exists s5. rewrite HA. split; [done|]. rewrite decide_True by done. split; [done|].
    destruct He2 as (V2 & _ & _ & E2). destruct He3 as (V3 & _ & _ & E3). destruct He4 as (V4 & _ & _ & E4).
    simpl in V2, E2. split; [congruence|]. rewrite He5, E4, E3, E2, V2, !app_nil_r. done.
  - assert (Hkn : k ∉ es.*1) by (by apply not_elem_of_list_to_map_2 in Ea).
    rewrite (km_delete_absent (propertyMap s) es k (pm_map _ _ _ Hs) Hk Hkn). obind.
    eexists. rewrite HA. split; [done|]. rewrite decide_False by (by intros [? ?]).
    split; [|done]. apply (holds_same s); [by exists es|done|by destruct s].
Qed.

End Spec.

#[export] Hint Resolve pmodel_same holds_same : zilker.

End PropSpec.
