(* ===== verification/PropertiesFile.v ===== *)
(** * The configuration file of the properties service

    Writing the store to the XML file and reading it back: what readConfigFile
    finds in a file writeConfigFile wrote, for any XML library that parses
    what it prints. *)

From S2P Require Import Prelude FifoBuffer StringUtils StringUtilsTheorems StringNumbers KeyMap.
From S2P Require Import XmlHelper Properties PropertiesSpec.
Import StringUtils StringTheorems StringNumbers KeyMap Xml Properties PropSpec.

Module PropFile.
Section File.
Context {M : Type} `{KeyMapLaws M addr} {xml : Type} `{LibXmlLaws xml}.
Implicit Types (s : state (M := M) (xml := xml)) (A : gmap cstring pdata) (p : property).

(** A property the file format can carry: plain text and a 32-bit source. *)
Definition storable (k : cstring) (d : pdata) : Prop :=
  plain k ∧ plain (default [] d.1) ∧ -2147483648 ≤ d.2 ≤ 2147483647.

(** What survives: properties with a non-empty key and value. *)
Definition survives (e : cstring * pdata) : Prop := non_empty (Some e.1) = true ∧ non_empty e.2.1 = true.
#[global] Instance survives_dec e : Decision (survives e).
Proof. apply _. Defined.

(** ** Only elements matter *)

Lemma read_prop_elems (nodes : list xml) save :
  read_prop_loop nodes save = read_prop_loop (filter (λ y, xml_element y = true) nodes) save.
Proof.
  revert save. induction nodes as [|n nodes IH]; intros save; [done|]. rewrite filter_cons.
  cbn [read_prop_loop]. destruct (xml_element n) eqn:E.
  - rewrite decide_True by done. cbn [read_prop_loop]. rewrite E. apply IH.
  - rewrite decide_False by done. apply IH.
Qed.

Lemma read_elems (nodes : list xml) s :
  read_loop nodes s = read_loop (filter (λ y, xml_element y = true) nodes) s.
Proof.
  revert s. induction nodes as [|n nodes IH]; intros s; [done|]. rewrite filter_cons.
  cbn [read_loop]. destruct (xml_element n) eqn:E.
  - rewrite decide_True by done. cbn [read_loop]. rewrite E.
    match goal with |- (?x ≫= _) = _ => destruct x as [s'| |]; simpl; [apply IH|done..] end.
  - rewrite decide_False by done. obind. apply IH.
Qed.

(** ** A <property> element *)

Lemma text_node_spec (name : cstring) (t : option cstring) :
  let n := text_node name t : xml in
  xml_name n = name ∧ xml_element n = true ∧ elems n = [] ∧
  (plain (default [] t) → xmlNodeGetContent n = Some (default [] t)).
Proof.
  unfold text_node. destruct (new_node name) as (Hn & He & _). simpl.
  destruct (set_content (xmlNewNode name) t He) as (Hn' & He' & Hel & _).
  split_and!; [congruence|congruence|done|]. by apply get_content.
Qed.

Lemma prop_node_spec p :
  let n := prop_node p : xml in
  xml_name n = PROP_NODE ∧ xml_element n = true ∧
  elems n = [text_node KEY_NODE (p_key p); text_node VALUE_NODE (p_value p);
             text_node SOURCE_NODE (Some (signed_decimal (p_source p)))].
Proof.
  simpl. unfold prop_node. destruct (new_node PROP_NODE) as (Hn0 & He0 & Hl0 & _ & _).
  set (n0 := xmlNewNode PROP_NODE : xml) in *.
  destruct (add_child n0 (text_node KEY_NODE (p_key p)) He0) as (Hn1 & He1 & Hl1 & _);
    [apply text_node_spec|]. set (n1 := xmlAddChild n0 _) in *. rewrite He0 in He1.
  destruct (add_child n1 (text_node VALUE_NODE (p_value p)) He1) as (Hn2 & He2 & Hl2 & _);
    [apply text_node_spec|]. set (n2 := xmlAddChild n1 _) in *. rewrite He1 in He2.
  destruct (add_child n2 (text_node SOURCE_NODE (Some (signed_decimal (p_source p)))) He2)
    as (Hn3 & He3 & Hl3 & _); [apply text_node_spec|].
  split_and!; [congruence|congruence|]. by rewrite Hl3, Hl2, Hl1, Hl0.
Qed.

(** A parsed text node: its name and text. *)
Lemma same_text name t (q : xml) :
  same (text_node name t) q → plain (default [] t) →
  xml_name q = name ∧ xmlNodeGetContent q = Some (default [] t).
Proof.
  intros [Hn _ Hc _] Hp. destruct (text_node_spec name t) as (Hn' & _ & Hel & Hct).
  split; [congruence|]. rewrite <-Hc by done. by apply Hct.
Qed.

Lemma digit_plain d : digit d → plain_char (digit_char d) = true.
Proof. revert d. by apply digit_cases. Qed.

Lemma decimal_plain n : 0 ≤ n < 10 ^ 20 → plain (decimal n).
Proof.
  intros Hn. unfold decimal. destruct (dec_digits_spec 20 n) as (Hd & _); [done|lia|].
  induction Hd as [|d ds Hd _ IH]; [constructor|]. rewrite fmap_cons. constructor; [by apply digit_plain|exact IH].
Qed.

Lemma signed_decimal_plain n : - 10 ^ 20 < n < 10 ^ 20 → plain (signed_decimal n).
Proof.
  intros Hn. unfold signed_decimal. apply Forall_app. split; [|apply decimal_plain; lia].
  case_bool_decide; repeat constructor.
Qed.

Lemma elems_element (q y : xml) : y ∈ elems q → xml_element y = true.
Proof. unfold elems. by intros [? _]%list_elem_of_filter. Qed.

(** Reading the children of a parsed <property> element gives the property
    back, NULL texts as empty ones. *)
Lemma read_prop_node p (q : xml) :
  same (prop_node p) q → storable (default [] (p_key p)) (pdata_of p) →
  xml_name q = PROP_NODE ∧
  read_prop_loop (xml_children q) (mkProp None None PROPERTY_SRC_DEFAULT)
  = mkProp (Some (default [] (p_key p))) (Some (default [] (p_value p))) (p_source p).
Proof.
  intros [Hn _ _ Hel] (Hk & Hv & Hsrc). simpl in Hv, Hsrc.
  destruct (prop_node_spec p) as (Hn' & _ & Hel'). split; [congruence|].
  rewrite read_prop_elems. fold (elems q). pose proof (elems_element q) as Hq. rewrite Hel' in Hel.
  destruct (elems q) as [|q1 [|q2 [|q3 [|]]]]; try (by apply Forall2_length in Hel).
  apply Forall2_cons in Hel as [S1 Hel]. apply Forall2_cons in Hel as [S2 Hel]. apply Forall2_cons in Hel as [S3 _].
  apply same_text in S1 as [N1 C1]; [|done]. apply same_text in S2 as [N2 C2]; [|done].
  apply same_text in S3 as [N3 C3]; [|apply signed_decimal_plain; simpl; lia].
  cbn [read_prop_loop]. rewrite !Hq by set_solver. rewrite N1, N2, N3. unfold getXmlNodeContentsAsString.
  rewrite C1, C2. unfold getXmlNodeContentsAsInt. rewrite C3. simpl. by rewrite int32_text.
Qed.

(** ** The whole document *)

Lemma root_node_spec v :
  let r := root_node v : xml in
  xml_element r = true ∧ elems r = [text_node VERSION_NODE (Some (decimal v))] ∧
  xmlGetProp r SCHEMA_VER_ATTR = Some (signed_decimal CURR_SCHEMA_VER).
Proof.
  simpl. unfold root_node, setXmlNodeAttributeAsInt. destruct (new_node ROOT_NODE) as (_ & He0 & Hl0 & _).
  destruct (set_prop (xmlNewNode ROOT_NODE) SCHEMA_VER_ATTR (signed_decimal CURR_SCHEMA_VER) He0)
    as (_ & He1 & Hl1 & Hp1). rewrite He0 in He1.
  set (r1 := xmlSetProp _ _ _) in *.
  destruct (add_child r1 (text_node VERSION_NODE (Some (decimal v))) He1) as (_ & He2 & Hl2 & Hp2);
    [apply text_node_spec|].
  split_and!; [congruence|by rewrite Hl2, Hl1, Hl0|]. by rewrite Hp2, Hp1, decide_True.
Qed.

Lemma doc_spec v ps :
  let r := doc_of v ps : xml in
  xml_element r = true ∧ elems r = text_node VERSION_NODE (Some (decimal v)) :: (prop_node <$> ps) ∧
  xmlGetProp r SCHEMA_VER_ATTR = Some (signed_decimal CURR_SCHEMA_VER).
Proof.
  simpl. unfold doc_of. induction ps as [|p ps (IHe & IHl & IHp)] using rev_ind.
  { apply root_node_spec. }
  rewrite foldl_snoc. set (r := foldl _ _ ps) in *.
  destruct (add_child r (prop_node p) IHe) as (_ & He & Hl & Hp); [apply prop_node_spec|].
  split_and!; [congruence| |congruence]. rewrite Hl, IHl, fmap_app. done.
Qed.

(** ** Tags *)

Lemma tag_new n : name_ok n = true → plain_tag (xmlNewNode n : xml).
Proof. intros Hn. destruct (new_node n) as (Hname & _ & _ & Hp & _). split; [congruence|]. intros a v. by rewrite Hp. Qed.

Lemma tag_content (x : xml) c : xml_element x = true → plain_tag x → plain_tag (xmlNodeSetContent x c).
Proof. intros He [Hn Ha]. destruct (set_content x c He) as (Hm & _ & _ & Hp). split; [congruence|]. intros a v. rewrite Hp. apply Ha. Qed.

Lemma tag_child (x y : xml) : xml_element x = true → xml_element y = true → plain_tag x → plain_tag (xmlAddChild x y).
Proof. intros Hx Hy [Hn Ha]. destruct (add_child x y Hx Hy) as (Hm & _ & _ & Hp). split; [congruence|]. intros a v. rewrite Hp. apply Ha. Qed.

Lemma tag_prop (x : xml) a v : xml_element x = true → name_ok a = true → plain v → plain_tag x → plain_tag (xmlSetProp x a v).
Proof.
  intros He Hn Hv [Hx Ha]. destruct (set_prop x a v He) as (Hm & _ & _ & Hp). split; [congruence|]. intros b w. rewrite Hp.
  case_decide as E; [intros [= <-]; by subst|apply Ha].
Qed.

Lemma text_tag name t : name_ok name = true → plain_tag (text_node name t : xml).
Proof. intros Hn. apply tag_content; [apply new_node|by apply tag_new]. Qed.

Lemma prop_tag p : plain_tag (prop_node p : xml).
Proof.
  assert (∀ (n y : xml), xml_element n = true → xml_element y = true → xml_element (xmlAddChild n y) = true) as He.
  { intros n y Hn Hy. destruct (add_child n y Hn Hy) as (_ & Hm & _). congruence. }
  assert (xml_element (xmlNewNode PROP_NODE : xml) = true) as H0' by apply new_node.
  unfold prop_node. pose proof (λ n t, proj1 (proj2 (text_node_spec n t))) as Ht.
  do 3 (apply tag_child; [auto|apply Ht|]). by apply tag_new.
Qed.

Lemma doc_tag v ps : plain_tag (doc_of v ps : xml).
Proof.
  unfold doc_of. induction ps as [|p ps IH] using rev_ind.
  - cbn [foldl]. unfold root_node, setXmlNodeAttributeAsInt. destruct (new_node ROOT_NODE) as (_ & He0 & _).
    destruct (set_prop (xmlNewNode ROOT_NODE) SCHEMA_VER_ATTR (signed_decimal CURR_SCHEMA_VER) He0) as (_ & He1 & _).
    apply tag_child; [congruence|apply text_node_spec|]. apply tag_prop; [done|done|repeat constructor|]. by apply tag_new.
  - rewrite foldl_snoc. apply tag_child; [apply (doc_spec v ps)|apply prop_node_spec|done].
Qed.

Lemma text_plain name t : name_ok name = true → plain (default [] t) → plain_doc (text_node name t : xml).
Proof.
  intros Hn Hp. destruct (text_node_spec name t) as (_ & He & Hel & Hc). constructor; [done|by apply text_tag|..].
  - intros _ s Hs. rewrite (Hc Hp) in Hs. by simplify_eq.
  - rewrite Hel. constructor.
Qed.

Lemma prop_plain p : storable (default [] (p_key p)) (pdata_of p) → plain_doc (prop_node p : xml).
Proof.
  intros (Hk & Hv & Hs). destruct (prop_node_spec p) as (_ & He & Hel). constructor; [done|apply prop_tag|..].
  - by rewrite Hel.
  - rewrite Hel. simpl in Hv, Hs. rewrite !Forall_cons.
    split_and!; [by apply text_plain|by apply text_plain| |done].
    apply text_plain; [done|]. apply signed_decimal_plain. lia.
Qed.

Lemma doc_plain v ps :
  0 ≤ v < 10 ^ 20 → Forall (λ p, storable (default [] (p_key p)) (pdata_of p)) ps →
  plain_doc (doc_of v ps : xml).
Proof.
  intros Hv Hps. destruct (doc_spec v ps) as (He & Hel & _). constructor; [done|apply doc_tag|..].
  - by rewrite Hel.
  - rewrite Hel. constructor; [apply text_plain; [done|by apply decimal_plain]|].
    apply Forall_fmap. eapply Forall_impl; [exact Hps|]. intros p Hp. by apply prop_plain.
Qed.

(** ** Reading the elements *)

(** The effect of one <property> element on the store. *)
Definition read_effect (e : cstring * pdata) A : gmap cstring pdata :=
  if decide (survives e) then <[e.1 := e.2]> A else A.

Lemma read_step s A p k (q : xml) rest :
  holds s A → p_key p = Some k → key_ok k → storable k (pdata_of p) → A !! k = None →
  Z.of_nat (size A) < 65535 → xml_element q = true → same (prop_node p) q →
  ∃ s', read_loop (q :: rest) s = read_loop rest s' ∧ holds s' (read_effect (k, pdata_of p) A) ∧
    confVersion s' = confVersion s ∧ events s' = events s.
Proof.
  intros (es & Hs & Ho) Hk Hok Hst Hnew Hsz Hq Hsame. cbn [read_loop]. rewrite Hq.
  destruct (read_prop_node p q Hsame) as [Hn Hr]; [by rewrite Hk|]. rewrite Hn.
  change (bool_decide (strcmp PROP_NODE VERSION_NODE = 0)) with false.
  change (bool_decide (strcmp PROP_NODE PROP_NODE = 0)) with true. cbv iota.
  unfold createProperty. rewrite Hr. cbn [p_key p_value]. rewrite Hk.
  change (default [] (Some k)) with k.
  set (a := fresh (dom (heap s))). set (p' := mkProp (Some k) (Some (default [] (p_value p))) (p_source p)).
  set (s1 := set_heap s _). set (s2 := set_heap s1 _).
  assert (Hfr : a ∉ es.*2) by (by eapply create_fresh).
  assert (Hs2 : pmodel s2 es A).
  { apply (pmodel_same (set_heap s (heap s2))); [|done|done]. apply pmodel_heap; [done|].
    intros b Hb. simpl. rewrite !lookup_insert_ne by (intros ->; done). done. }
  assert (Ha : heap s2 !! a = Some p') by apply lookup_insert_eq.
  assert (Hd : dom (heap s2) = {[a]} ∪ list_to_set es.*2).
  { simpl. rewrite !dom_insert_L, Ho. set_solver. }
  unfold read_effect, survives. cbn [fst snd pdata_of].
  assert (Hne : non_empty (Some (default [] (p_value p))) = non_empty (p_value p)) by (by destruct (p_value p) as [[]|]).
  rewrite Hne. destruct (non_empty (Some k) && non_empty (p_value p)) eqn:E.
  - apply andb_prop in E as [E1 E2]. rewrite decide_True by done. oread.
    assert (Hkn : k ∉ es.*1).
    { intros Hin. rewrite (model_A s es A k Hs) in Hnew. apply list_elem_of_fmap in Hin as ([k' b] & -> & Hin).
      simpl in Hnew. by rewrite (proj2 (entry_lookup s es A k' b Hs) Hin) in Hnew. }
    destruct (model_size _ _ _ Hs) as [Hsize _].
    destruct (km_put_new (propertyMap s2) es k a (pm_map _ _ _ Hs2) Hok Hkn) as (m' & es' & -> & Hm' & Hp'); [lia|].
    obind. exists (set_map s2 m'). split; [done|]. split; [|done].
    assert (Hdata : pdata_of p' = pdata_of p).
    { unfold pdata_of, p'. simpl. f_equal. by destruct (p_value p) as [[]|]. }
    exists es'. split.
    + rewrite <-Hdata. by eapply (pmodel_put s2 es A k a p').
    + apply (owned_perm _ ((k, a) :: es)); [|done]. exact Hd.
  - rewrite decide_False by (intros [E1 E2]; by rewrite E1, E2 in E).
    destruct (destroy_spec s2 es A a p' Hs2 Ha Hfr Hd) as (s' & -> & Hs' & Hev). obind.
    exists s'. split; [done|]. split; [done|]. destruct Hev as (Hv & _ & _ & He).
    split; [done|]. by rewrite He, app_nil_r.
Qed.

Lemma read_props ps kvs (qs : list xml) s A :
  kvs = (λ p, (default [] (p_key p), pdata_of p)) <$> ps →
  holds s A → Forall (λ p, is_Some (p_key p)) ps → Forall (λ e, key_ok e.1 ∧ storable e.1 e.2) kvs →
  NoDup kvs.*1 → (∀ k, k ∈ kvs.*1 → A !! k = None) → Z.of_nat (size A) + zlen ps ≤ 65535 →
  (∀ q, q ∈ qs → xml_element q = true) → Forall2 same (prop_node <$> ps) qs →
  ∃ s', read_loop qs s = Ok s' ∧ holds s' (list_to_map (filter survives kvs) ∪ A) ∧
    confVersion s' = confVersion s ∧ events s' = events s.
Proof.
  intros ->. revert qs s A. induction ps as [|p ps IH]; intros qs s A Hs Hkey Hst Hnd Hnew Hsz Hq Hf.
  { apply Forall2_nil_inv_l in Hf as ->. exists s. simpl. rewrite (left_id_L ∅ (∪)). done. }
  rewrite fmap_cons in Hf. apply Forall2_cons_inv_l in Hf as (q & qs' & Hsame & Hf & ->).
  rewrite fmap_cons in *. apply Forall_cons in Hkey as [[k Hk] Hkey]. rewrite Hk in *. change (default [] (Some k)) with k in *.
  apply Forall_cons in Hst as [[Hok Hst1] Hst]. apply NoDup_cons in Hnd as [Hkn Hnd].
  cbn [fst snd] in *. simpl length in Hsz.
  destruct (read_step s A p k q qs') as (s1 & -> & Hs1 & Hv1 & He1); try done;
    [apply Hnew; by left|lia|apply Hq; by left|].
  destruct (IH qs' s1 (read_effect (k, pdata_of p) A)) as (s' & -> & Hs' & Hv' & He'); try done.
  - intros k' Hk'. unfold read_effect. case_decide; cbn [fst]; [|apply Hnew; by right].
    rewrite lookup_insert_ne; [apply Hnew; by right|]. intros ->. done.
  - unfold read_effect. case_decide; cbn [fst snd]; [|lia]. pose proof (size_insert_le k (pdata_of p) A). lia.
  - intros y Hy. apply Hq. by right.
  - exists s'. split; [done|]. split; [|split; congruence].
    rewrite filter_cons. unfold read_effect in Hs'. case_decide; [|done]. rewrite list_to_map_cons.
    cbn [fst snd] in *. rewrite <-insert_union_l, insert_union_r; [done|].
    apply not_elem_of_list_to_map_1. intros Hin. apply Hkn.
    apply list_elem_of_fmap in Hin as (e & -> & Hin). apply list_elem_of_filter in Hin as [_ Hin].
    apply list_elem_of_fmap. by exists e.
Qed.

(** ** Writing and reading back *)

(** The properties in the file are the entries of the map. *)
Lemma file_props_view s es A :
  pmodel s es A →
  view (heap s) <$> es = (λ p, (default [] (p_key p), pdata_of p)) <$> file_props s es ∧
  Forall (λ p, is_Some (p_key p)) (file_props s es).
Proof.
  intros Hs. pose proof (λ k a Hin, proj2 (pm_live _ _ _ Hs k a Hin)) as Hl. clear Hs. unfold file_props.
  induction es as [|[k a] es IH]; [done|]. destruct (Hl k a) as (p & Hp & Hk); [by left|].
  destruct IH as [IH1 IH2]; [intros k' a' Hin; apply (Hl k'); by right|].
  cbn [omap list_omap snd]. rewrite Hp, !fmap_cons, IH1. split; [|constructor; [by rewrite Hk|exact IH2]].
  f_equal. unfold view, pv. cbn [fst snd]. by rewrite Hp, Hk.
Qed.

Lemma filter_view h es :
  NoDup es.*1 →
  (list_to_map (filter survives (view h <$> es)) : gmap cstring pdata)
  = filter survives (list_to_map (view h <$> es) : gmap cstring pdata).
Proof.
  intros Hnd. assert (Hnd2 : NoDup (view h <$> es).*1) by (by rewrite view_keys).
  apply map_eq. intros k. apply option_eq. intros d.
  assert (Hnd3 : NoDup (filter survives (view h <$> es)).*1).
  { clear -Hnd2. induction (view h <$> es) as [|e l IH]; [done|]. rewrite filter_cons.
    apply NoDup_cons in Hnd2 as [He Hl]. case_decide; [|by apply IH]. rewrite fmap_cons. apply NoDup_cons.
    split; [|by apply IH]. intros Hin. apply He. apply list_elem_of_fmap in Hin as (e' & -> & Hin).
    apply list_elem_of_filter in Hin as [_ Hin]. apply list_elem_of_fmap. by exists e'. }
  rewrite <-elem_of_list_to_map by done. rewrite map_lookup_filter_Some, list_elem_of_filter.
  rewrite <-elem_of_list_to_map by done. tauto.
Qed.

(** The storable properties of a model, as conditions on the list. *)
Lemma storable_list s es A :
  pmodel s es A → map_Forall storable A → Forall (λ e, key_ok e.1 ∧ storable e.1 e.2) (view (heap s) <$> es).
Proof.
  intros Hs HA. apply Forall_fmap, Forall_forall. intros [k a] Hin. simpl.
  split; [by apply (pm_live _ _ _ Hs k a Hin)|]. apply HA.
  rewrite (model_A s es A k Hs), (proj2 (entry_lookup s es A k a Hs)) by done. done.
Qed.

(** Reading the elements of a parsed configuration document. *)
Lemma read_doc s es A v (q : xml) s0 :
  pmodel s es A → map_Forall storable A → 0 ≤ v ≤ UINT64_MAX →
  same (doc_of v (file_props s es)) q → holds s0 ∅ →
  ∃ s', read_loop (xml_children q) s0 = Ok s' ∧ holds s' (filter survives A) ∧
    confVersion s' = v ∧ events s' = events s0.
Proof.
  intros Hs HA Hv [Hn _ _ Hel] H0'. destruct (doc_spec v (file_props s es)) as (_ & Hd & _). rewrite Hd in Hel.
  rewrite read_elems. fold (elems q). pose proof (elems_element q) as Hq.
  apply Forall2_cons_inv_l in Hel as (q0 & qs & Sv & Hel & Hqs). rewrite Hqs in *.
  apply same_text in Sv as [Nv Cv]; [|apply decimal_plain; unfold UINT64_MAX in Hv; simpl; lia].
  cbn [read_loop]. rewrite (Hq q0) by (by left). rewrite Nv.
  change (bool_decide (strcmp VERSION_NODE VERSION_NODE = 0)) with true. obind.
  unfold getXmlNodeContentsAsUnsignedLongLong. rewrite Cv.
  change (default [] (Some (decimal v))) with (decimal v). rewrite uint64_text by done.
  change (default 0 (Some v)) with v.
  destruct (file_props_view s es A Hs) as [Hview Hkeys]. pose proof (km_nodup _ _ (pm_map _ _ _ Hs)) as Hnd.
  destruct (read_props (file_props s es) _ qs (set_version s0 v) ∅ Hview) as (s' & -> & Hs' & Hv' & He').
  - by apply (holds_same s0).
  - done.
  - by eapply storable_list.
  - by rewrite view_keys.
  - intros k _. apply lookup_empty.
  - apply (f_equal length) in Hview. rewrite !length_fmap in Hview. rewrite map_size_empty.
    destruct (model_size _ _ _ Hs) as [_ Hl]. lia.
  - intros y Hy. apply Hq. by right.
  - done.
  - exists s'. split; [done|]. rewrite (right_id_L ∅ (∪)), filter_view, (pm_abs _ _ _ Hs) in Hs' by done. done.
Qed.

End File.
End PropFile.
