(* ===== verification/PropsIpc.v ===== *)
(** * The IPC handlers of the properties service

    Models src/source/services/props/core/src/ipcHandler.c on top of the store
    (Properties.v) and of the value checks (PropertyTypes.v).  A request
    message is a [request], its reply a [response]; [handle] is the dispatch of
    the IPC receiver.  Not modelled: GET_RUNTIME_STATS, GET_SERVICE_STATUS and
    GET_PATH, which do not touch the store.  The store functions hold PROP_MTX,
    so one handler is a sequence of atomic store operations; [handle] runs it
    without interference, and GET is also given as its two halves. *)

From stdpp Require Import sorting.
From S2P Require Import Prelude FifoBuffer StringUtils StringUtilsTheorems StringNumbers KeyMap.
From S2P Require Import XmlHelper PropertyTypes Properties.
Import StringUtils StringTheorems StringNumbers KeyMap Xml PropertyTypes Properties.

Module PropsIpc.

Inductive IPCCode := IPC_SUCCESS | IPC_INVALID_ERROR | IPC_GENERAL_ERROR.

Inductive propSetResult := PROPERTY_SET_OK | PROPERTY_SET_VALUE_NOT_ALLOWED | PROPERTY_SET_GENERAL_ERROR.

#[global] Instance IPCCode_eq_dec : EqDecision IPCCode.
Proof. solve_decision. Defined.
#[global] Instance propSetResult_eq_dec : EqDecision propSetResult.
Proof. solve_decision. Defined.

(** The fields of the propertySetResult message. *)
Definition propertySetResult : Type := propSetResult * option verror.

(** [input == NULL || strlen(input) == 0] *)
Definition empty_input (input : option cstring) : bool := negb (non_empty input).

Definition sortKeys (left right : cstring) : Z := strcmp left right.

(** qsort(array, count, sizeof(char * ), sortKeys) *)
Definition key_le (l r : cstring) : Prop := sortKeys l r ≤ 0.
#[global] Instance key_le_dec l r : Decision (key_le l r).
Proof. unfold key_le. apply _. Defined.
Definition qsort (array : list cstring) : list cstring := merge_sort key_le array.

Section Handlers.
Context {M : Type} `{KeyMap M addr} {xml : Type} `{LibXml xml}.
Context (producer : bool) (saving : Z → save_result xml_file) (isDelayTaskWaiting : Z → bool) (scheduleDelayTask : Z).
(** The property type definitions: the objects and the map. *)
Context (defs : gmap addr propertyTypeDef) (propertyTypesMap : option M).
Implicit Types (s : state (M := M) (xml := xml)).

(** The pointer getProperty returns, after PROP_MTX has been released. *)
Definition get_lookup (input : option cstring) s : outcome (option addr) := getProperty input s.

(** Copying the property through that pointer; strdup(NULL) is a fault. *)
Definition get_copy (input : option cstring) (defined : option addr) s
    : outcome (IPCCode * option property) :=
  match defined with
  | Some a =>
      p ← of_option (heap s !! a);
      v ← of_option (p_value p);
      Ok (IPC_SUCCESS, Some (mkProp input (Some v) (p_source p)))
  | None => Ok (IPC_SUCCESS, Some (mkProp input None PROPERTY_SRC_DEVICE))
  end.

Definition handle_GET_CPE_PROPERTY_request (input : option cstring) s : outcome (IPCCode * option property) :=
  if empty_input input then Ok (IPC_INVALID_ERROR, None)
  else defined ← get_lookup input s; get_copy input defined s.

(** Freeing the copy the store did not take. *)
Definition cleanup (rc : setPropRc) (copy : addr) s : outcome state :=
  if decide (rc ≠ SET_PROP_NEW) then destroy_property copy s else Ok s.

(** propSourceLabels[source], for the log: the array has a label for each of
    the four values of propSource. *)
Definition source_label (source : Z) : outcome unit := if decide (0 ≤ source ≤ PROPERTY_SRC_DEVICE) then Ok tt else Fault.

Definition handle_SET_CPE_PROPERTY_request (input : option property) s
    : outcome (IPCCode * option propertySetResult * state) :=
  match input with
  | Some (mkProp (Some key) (Some value) source) =>
      invalid ← isValueValid defs propertyTypesMap key (Some value);
      match invalid with
      | Some errorMessage => Ok (IPC_SUCCESS, Some (PROPERTY_SET_VALUE_NOT_ALLOWED, Some errorMessage), s)
      | None =>
          let '(copy, s) := createProperty (Some key) (Some value) source s in
          '(rc, s) ← setProperty producer saving isDelayTaskWaiting scheduleDelayTask copy s;
          _ ← source_label source;
          let '(ipcCode, result) :=
            if decide (rc ≠ SET_PROP_FAILED ∧ rc ≠ SET_PROP_DROPPED)
            then (IPC_SUCCESS, PROPERTY_SET_OK) else (IPC_GENERAL_ERROR, PROPERTY_SET_GENERAL_ERROR) in
          s ← cleanup rc copy s;
          Ok (ipcCode, Some (result, None), s)
      end
  | _ => Ok (IPC_INVALID_ERROR, None, s)
  end.

Definition handle_SET_CPE_PROPERTY_OVERWRITE_request (input : option property) s
    : outcome (IPCCode * option propertySetResult * state) :=
  match input with
  | Some (mkProp (Some key) (Some value) source) =>
      invalid ← isValueValid defs propertyTypesMap key (Some value);
      match invalid with
      | Some errorMessage => Ok (IPC_SUCCESS, Some (PROPERTY_SET_VALUE_NOT_ALLOWED, Some errorMessage), s)
      | None =>
          let '(copy, s) := createProperty (Some key) (Some value) source s in
          '(rc, s) ← setPropertyOverwrite producer saving isDelayTaskWaiting scheduleDelayTask copy s;
          _ ← source_label source;
          let result := if decide (rc ≠ SET_PROP_FAILED) then PROPERTY_SET_OK else PROPERTY_SET_GENERAL_ERROR in
          s ← cleanup rc copy s;
          Ok (IPC_SUCCESS, Some (result, None), s)
      end
  | _ => Ok (IPC_INVALID_ERROR, None, s)
  end.

Definition handle_SET_CPE_PROPERTIES_BULK_request (input : list (option property)) s
    : outcome (IPCCode * bool * state) :=
  '(output, s) ← setPropertiesBulk producer saving isDelayTaskWaiting scheduleDelayTask input s;
  Ok (IPC_SUCCESS, output, s).

Definition handle_DEL_CPE_PROPERTY_request (input : option cstring) s : outcome (IPCCode * state) :=
  match input with
  | Some (b :: t) =>
      '(_, s) ← deleteProperty producer saving isDelayTaskWaiting scheduleDelayTask (b :: t) s;
      Ok (IPC_SUCCESS, s)
  | _ => Ok (IPC_INVALID_ERROR, s)
  end.

Definition handle_COUNT_PROPERTIES_request s : IPCCode * Z := (IPC_SUCCESS, getPropertyCount s).

(** The keys in the order they are put into the reply. *)
Definition handle_GET_ALL_KEYS_request s : outcome (IPCCode * list cstring) :=
  array ← getAllPropertyKeys s;
  Ok (IPC_SUCCESS, if decide (1 < zlen array) then qsort array else array).

(** The clones in the order they are put into the reply. *)
Fixpoint values_loop (array : list cstring) (output : list property) s : outcome (list property) :=
  match array with
  | [] => Ok output
  | k :: rest =>
      prop ← getProperty (Some k) s;
      output ← match prop with
               | Some a => p ← of_option (heap s !! a); Ok (output ++ [mkProp (p_key p) (p_value p) (p_source p)])
               | None => Ok output
               end;
      values_loop rest output s
  end.

Definition handle_GET_ALL_KEY_VALUES_request s : outcome (IPCCode * list property) :=
  array ← getAllPropertyKeys s;
  output ← values_loop (if decide (1 < zlen array) then qsort array else array) [] s;
  Ok (IPC_SUCCESS, output).

Definition handle_GET_FILE_VERSION_request s : IPCCode * Z := (IPC_SUCCESS, getConfigFileVersion s).

(** The action CONFIG_RESTORED_COMPLETE (true) or CONFIG_RESTORED_FAILED. *)
Definition handle_propsService_CONFIG_RESTORED_request (restored : option xml_file) (dynamicConfigPath : cstring) s
    : outcome (IPCCode * bool * state) :=
  '(worked, s) ← restorePropConfig producer saving isDelayTaskWaiting scheduleDelayTask restored dynamicConfigPath s;
  Ok (IPC_SUCCESS, worked, s).

(** ** The dispatch *)

Inductive request :=
  | GET_CPE_PROPERTY (key : option cstring)
  | SET_CPE_PROPERTY (input : option property)
  | SET_CPE_PROPERTY_OVERWRITE (input : option property)
  | SET_CPE_PROPERTIES_BULK (input : list (option property))
  | DEL_CPE_PROPERTY (key : option cstring)
  | COUNT_PROPERTIES
  | GET_ALL_KEYS
  | GET_ALL_KEY_VALUES
  | GET_FILE_VERSION.

Inductive reply :=
  | NoReply
  | PropertyReply (p : property)
  | SetReply (r : propertySetResult)
  | BoolReply (b : bool)
  | NumberReply (n : Z)
  | KeysReply (keys : list cstring)
  | ValuesReply (values : list property).

Definition response : Type := IPCCode * reply.

Definition handle (req : request) s : outcome (response * state) :=
  match req with
  | GET_CPE_PROPERTY key =>
      '(c, o) ← handle_GET_CPE_PROPERTY_request key s;
      Ok ((c, match o with Some p => PropertyReply p | None => NoReply end), s)
  | SET_CPE_PROPERTY input =>
      '(c, o, s) ← handle_SET_CPE_PROPERTY_request input s;
      Ok ((c, match o with Some r => SetReply r | None => NoReply end), s)
  | SET_CPE_PROPERTY_OVERWRITE input =>
      '(c, o, s) ← handle_SET_CPE_PROPERTY_OVERWRITE_request input s;
      Ok ((c, match o with Some r => SetReply r | None => NoReply end), s)
  | SET_CPE_PROPERTIES_BULK input =>
      '(c, o, s) ← handle_SET_CPE_PROPERTIES_BULK_request input s; Ok ((c, BoolReply o), s)
  | DEL_CPE_PROPERTY key => '(c, s) ← handle_DEL_CPE_PROPERTY_request key s; Ok ((c, NoReply), s)
  | COUNT_PROPERTIES => let '(c, n) := handle_COUNT_PROPERTIES_request s in Ok ((c, NumberReply n), s)
  | GET_ALL_KEYS => '(c, ks) ← handle_GET_ALL_KEYS_request s; Ok ((c, KeysReply ks), s)
  | GET_ALL_KEY_VALUES => '(c, vs) ← handle_GET_ALL_KEY_VALUES_request s; Ok ((c, ValuesReply vs), s)
  | GET_FILE_VERSION => let '(c, n) := handle_GET_FILE_VERSION_request s in Ok ((c, NumberReply n), s)
  end.

Fixpoint serve (reqs : list request) s : outcome (list response * state) :=
  match reqs with
  | [] => Ok ([], s)
  | r :: rest => '(o, s) ← handle r s; '(os, s) ← serve rest s; Ok (o :: os, s)
  end.

End Handlers.
End PropsIpc.
