(* ===== verification/PropsIpcSpec.v ===== *)
(** * What the properties service promises its clients

    The abstract state of the service is a finite map from keys to value and
    source, the version of the configuration file and the events sent so far;
    [spec_handle] is the effect and the reply of every request on it.  The
    lemmas show that each handler of PropsIpc.v implements it. *)

From stdpp Require Import sorting.
From S2P Require Import Prelude FifoBuffer StringUtils StringUtilsTheorems StringNumbers KeyMap.
From S2P Require Import XmlHelper PropertyTypes Properties PropertiesSpec PropsIpc.
Import StringUtils StringTheorems StringNumbers KeyMap Xml PropertyTypes Properties PropSpec PropsIpc.

Module IpcSpec.

(** ** The order of the keys *)

Lemma no_nul_cons x a : no_nul (x :: a) → 0 < byteZ x ∧ no_nul a.
Proof.
  unfold no_nul. intros [Hx Ha]%not_elem_of_cons. split; [|done]. pose proof (byteZ_bounds x).
  assert (byteZ x ≠ byteZ NUL) by (intros E; by apply byteZ_inj in E). change (byteZ NUL) with 0 in *. lia.
Qed.

Lemma key_le_trans a b c : no_nul a → no_nul b → no_nul c → key_le a b → key_le b c → key_le a c.
Proof.
  unfold key_le, sortKeys, strcmp. revert b c.
  induction a as [|x a IH]; intros [|y b] [|z c] Ha Hb Hc; cbn [cmp_by id];
    try (apply no_nul_cons in Ha as [Hx Ha]); try (apply no_nul_cons in Hb as [Hy Hb]);
    try (apply no_nul_cons in Hc as [Hz Hc]); try lia.
  unfold id. destruct (decide (x = y)) as [->|Exy], (decide (y = z)) as [->|Eyz]; [by apply IH|done|by rewrite decide_False|].
  assert (byteZ x ≠ byteZ y) by (intros E; by apply byteZ_inj in E).
  assert (byteZ y ≠ byteZ z) by (intros E; by apply byteZ_inj in E). intros.
  rewrite decide_False; [lia|]. intros ->. lia.
Qed.

#[global] Instance key_le_total : Total key_le.
Proof. intros a b. unfold key_le, sortKeys, strcmp. rewrite (cmp_by_sym id b a). lia. Qed.

Lemma key_le_anti a b : no_nul a → no_nul b → key_le a b → key_le b a → a = b.
Proof.
  unfold key_le, sortKeys, strcmp. intros Ha Hb Hab Hba. rewrite (cmp_by_sym id b a) in Hba.
  pose proof (cmp_by_zero id a b ltac:(done) Ha Hb) as Hz. rewrite !list_fmap_id in Hz. apply Hz. lia.
Qed.

Lemma sorted_strongly l : Forall no_nul l → Sorted key_le l → StronglySorted key_le l.
Proof.
  intros Hn Hs. induction Hs as [|x l Hs IH Hx]; [constructor|]. apply Forall_cons in Hn as [Hnx Hn].
  specialize (IH Hn). apply StronglySorted_cons. split; [|done].
  destruct Hx as [|y l Hxy]; [constructor|]. apply StronglySorted_cons in IH as [Hy _].
  constructor; [done|]. apply Forall_cons in Hn as [Hny Hn]. rewrite Forall_forall in Hy, Hn |- *.
  intros z Hz. apply (key_le_trans x y z); auto.
Qed.

(** Sorting distinct keys does not depend on the order they come in. *)
Lemma qsort_perm l l' : Forall no_nul l → l ≡ₚ l' → qsort l = qsort l'.
Proof.
  intros Hn Hp. unfold qsort. pose proof (merge_sort_Permutation key_le l) as P1.
  pose proof (merge_sort_Permutation key_le l') as P2.
  assert (Hn1 : Forall no_nul (merge_sort key_le l)) by (by rewrite P1).
  assert (Hn2 : Forall no_nul (merge_sort key_le l')) by (by rewrite P2, <-Hp).
  apply (StronglySorted_unique_strong key_le).
  - rewrite Forall_forall in Hn1, Hn2. intros a b Ha Hb. apply key_le_anti; auto.
  - apply sorted_strongly; [done|]. apply (Sorted_merge_sort key_le).
  - apply sorted_strongly; [done|]. apply (Sorted_merge_sort key_le).
  - by rewrite P1, P2.
Qed.

Lemma qsort_short l : ¬ 1 < zlen l → qsort l = l.
Proof. destruct l as [|x [|y l]]; [done|done|simpl; lia]. Qed.

(** ** The abstract service *)

Record astate := mkA {
  a_props : gmap cstring pdata;
  a_version : Z;
  a_events : list propEvent
}.

Section Abstract.
Context (producer : bool) (validate : cstring → cstring → option verror).
Implicit Types (a : astate) (A : gmap cstring pdata).

Definition sent (evs : list propEvent) : list propEvent := if producer then evs else [].

(** A set that takes effect is followed by a write of the file. *)
Definition spec_put (overwrite : bool) (k : cstring) (d : pdata) a : setPropRc * astate :=
  let '(rc, A) := spec_set overwrite k d (a_props a) in
  (rc, match rc with
       | SET_PROP_NEW | SET_PROP_OVERWRITE =>
           mkA A (u64 (a_version a + 1)) (a_events a ++ sent (set_event rc k d (a_version a)))
       | _ => a
       end).

Definition set_reply (rc : setPropRc) : IPCCode * reply :=
  match rc with
  | SET_PROP_NEW | SET_PROP_OVERWRITE => (IPC_SUCCESS, SetReply (PROPERTY_SET_OK, None))
  | SET_PROP_DROPPED | SET_PROP_FAILED => (IPC_GENERAL_ERROR, SetReply (PROPERTY_SET_GENERAL_ERROR, None))
  end.

Definition spec_SET (overwrite : bool) (input : option property) a : response * astate :=
  match input with
  | Some (mkProp (Some k) (Some v) src) =>
      match validate k v with
      | Some e => ((IPC_SUCCESS, SetReply (PROPERTY_SET_VALUE_NOT_ALLOWED, Some e)), a)
      | None => let '(rc, a) := spec_put overwrite k (Some v, src) a in (set_reply rc, a)
      end
  | _ => ((IPC_INVALID_ERROR, NoReply), a)
  end.

(** The entries of a bulk request, one after the other; the version counts
    once. *)
Fixpoint spec_bulk (group : list (option property)) (version : Z) (A : gmap cstring pdata) (evs : list propEvent)
    : gmap cstring pdata * list propEvent :=
  match group with
  | Some (mkProp (Some k) v src) :: rest =>
      let '(rc, A) := spec_set false k (v, src) A in
      spec_bulk rest version A (evs ++ sent (set_event rc k (v, src) version))
  | _ :: rest => spec_bulk rest version A evs
  | [] => (A, evs)
  end.

Definition has_entry (group : list (option property)) : bool := existsb (λ o, bool_decide (is_Some o)) group.

Definition spec_BULK (group : list (option property)) a : response * astate :=
  let '(A, evs) := spec_bulk group (a_version a) (a_props a) (a_events a) in
  ((IPC_SUCCESS, BoolReply (bool_decide (group ≠ []))),
   mkA A (if has_entry group then u64 (a_version a + 1) else a_version a) evs).

(** Deleting a property brings its default back. *)
Definition spec_DEL (key : option cstring) a : response * astate :=
  match key with
  | Some (b :: t) =>
      ((IPC_SUCCESS, NoReply),
       match a_props a !! (b :: t) with
       | Some _ => mkA (delete (b :: t) (a_props a) ∪ default_map) (u64 (a_version a + 1))
                     (a_events a ++ sent [delete_event (b :: t) (a_version a)])
       | None => a
       end)
  | _ => ((IPC_INVALID_ERROR, NoReply), a)
  end.

Definition spec_GET (key : option cstring) a : response :=
  match key with
  | Some (b :: t) =>
      (IPC_SUCCESS, PropertyReply match a_props a !! (b :: t) with
                                  | Some (v, src) => mkProp key v src
                                  | None => mkProp key None PROPERTY_SRC_DEVICE
                                  end)
  | _ => (IPC_INVALID_ERROR, NoReply)
  end.

Definition sorted_keys A : list cstring := qsort (elements (dom A)).

Definition prop_of A (k : cstring) : property :=
  match A !! k with Some (v, src) => mkProp (Some k) v src | None => mkProp (Some k) None 0 end.

Definition spec_handle (req : request) a : response * astate :=
  match req with
  | GET_CPE_PROPERTY key => (spec_GET key a, a)
  | SET_CPE_PROPERTY input => spec_SET false input a
  | SET_CPE_PROPERTY_OVERWRITE input => spec_SET true input a
  | SET_CPE_PROPERTIES_BULK group => spec_BULK group a
  | DEL_CPE_PROPERTY key => spec_DEL key a
  | COUNT_PROPERTIES => ((IPC_SUCCESS, NumberReply (Z.of_nat (size (a_props a)))), a)
  | GET_ALL_KEYS => ((IPC_SUCCESS, KeysReply (sorted_keys (a_props a))), a)
  | GET_ALL_KEY_VALUES => ((IPC_SUCCESS, ValuesReply (prop_of (a_props a) <$> sorted_keys (a_props a))), a)
  | GET_FILE_VERSION => ((IPC_SUCCESS, NumberReply (a_version a)), a)
  end.

Fixpoint spec_serve (reqs : list request) a : list response * astate :=
  match reqs with
  | [] => ([], a)
  | r :: rest => let '(o, a) := spec_handle r a in let '(os, a) := spec_serve rest a in (o :: os, a)
  end.

End Abstract.

(** ** Well-formed requests *)

Definition text_ok (k : cstring) : Prop := key_ok k ∧ no_nul k.

Definition key_arg_ok (o : option cstring) : Prop := match o with Some k => text_ok k | None => True end.

(** An entry of a bulk request has a key and a value. *)
Definition entry_ok (o : option property) : Prop :=
  match o with
  | Some p => key_arg_ok (p_key p) ∧ is_Some (p_key p) ∧ is_Some (p_value p)
  | None => True
  end.

(** The source of a property that is set is one of propSource. *)
Definition source_ok (o : option property) : Prop :=
  match o with Some p => 0 ≤ p_source p ≤ PROPERTY_SRC_DEVICE | None => True end.

(** Keys are shorter than 65536 bytes. *)
Definition request_ok (r : request) : Prop :=
  match r with
  | GET_CPE_PROPERTY k | DEL_CPE_PROPERTY k => key_arg_ok k
  | SET_CPE_PROPERTY i | SET_CPE_PROPERTY_OVERWRITE i => key_arg_ok (i ≫= p_key) ∧ source_ok i
  | SET_CPE_PROPERTIES_BULK g => Forall entry_ok g
  | _ => True
  end.

(** How many properties a request can add. *)
Definition growth (r : request) : Z :=
  match r with
  | SET_CPE_PROPERTY _ | SET_CPE_PROPERTY_OVERWRITE _ => 1
  | SET_CPE_PROPERTIES_BULK g => zlen g
  | DEL_CPE_PROPERTY _ => zlen DEFAULT_PROPERTIES
  | _ => 0
  end.

Definition total_growth (reqs : list request) : Z := foldr (λ r n, growth r + n) 0 reqs.

(** The properties of the store: every value is set. *)
Definition good (A : gmap cstring pdata) : Prop := map_Forall (λ k d, no_nul k ∧ is_Some d.1) A.

Section Invariant.
Context (producer : bool) (validate : cstring → cstring → option verror).
Implicit Types (A : gmap cstring pdata) (a : astate).

Lemma spec_set_cases overwrite k d A :
  spec_set overwrite k d A = (SET_PROP_NEW, <[k := d]> A) ∨
  spec_set overwrite k d A = (SET_PROP_OVERWRITE, <[k := d]> A) ∨
  spec_set overwrite k d A = (SET_PROP_DROPPED, A) ∧ overwrite = false.
Proof.
  unfold spec_set, wins. destruct (A !! k); [|by left]. right. destruct overwrite; [by left|].
  simpl. destruct (_ || _); [by left|by right].
Qed.

Lemma spec_set_size overwrite k d A : (size (spec_set overwrite k d A).2 ≤ S (size A))%nat.
Proof. destruct (spec_set_cases overwrite k d A) as [->|[->|[-> _]]]; simpl; [apply size_insert_le..|lia]. Qed.

(** ** The invariant of the values *)

Lemma good_insert k d A : no_nul k → is_Some d.1 → good A → good (<[k := d]> A).
Proof. intros Hk Hd HA. by apply map_Forall_insert_2. Qed.

Lemma good_set overwrite k d A : no_nul k → is_Some d.1 → good A → good (spec_set overwrite k d A).2.
Proof.
  intros Hk Hd HA. destruct (spec_set_cases overwrite k d A) as [->|[->|[-> _]]]; simpl; [by apply good_insert..|done].
Qed.

Lemma good_defaults : good default_map.
Proof. unfold good, no_nul. apply (bool_decide_unpack _). by vm_compute. Qed.

Lemma good_bulk group v A evs :
  Forall entry_ok group → good A → good (spec_bulk producer group v A evs).1.
Proof.
  intros Hg. revert A evs. induction Hg as [|[[[k|] w src]|] group He _ IH]; intros A evs HA; [done| |by apply IH..].
  destruct He as ([_ Hk] & _ & Hw). simpl in Hk, Hw. cbn [spec_bulk].
  pose proof (good_set false k (w, src) A Hk Hw HA) as HA2. destruct (spec_set false k (w, src) A). by apply IH.
Qed.

Lemma bulk_size group v A evs : (size (spec_bulk producer group v A evs).1 ≤ size A + length group)%nat.
Proof.
  revert A evs. induction group as [|[[[k|] w src]|] group IH]; intros A evs; cbn [spec_bulk length]; [simpl; lia| | |].
  - pose proof (spec_set_size false k (w, src) A) as Hs. destruct (spec_set false k (w, src) A) as [rc A2]. simpl in Hs.
    specialize (IH A2 (evs ++ sent producer (set_event rc k (w, src) v))). lia.
  - specialize (IH A evs). lia.
  - specialize (IH A evs). lia.
Qed.

Lemma put_props overwrite k d a :
  a_props (spec_put producer overwrite k d a).2 = (spec_set overwrite k d (a_props a)).2.
Proof. unfold spec_put. by destruct (spec_set_cases overwrite k d (a_props a)) as [->|[->|[-> _]]]. Qed.

Lemma good_handle r a : request_ok r → good (a_props a) → good (a_props (spec_handle producer validate r a).2).
Proof.
  intros Hr HA. destruct r as [k|i|i|g|k| | | |]; simpl in Hr; try done; cbn [spec_handle].
  1, 2: destruct i as [[[k|] [v|] src]|]; try done; cbn [spec_SET]; destruct (validate k v); [done|];
    match goal with |- context [spec_put _ ?o _ _ _] => pose proof (put_props o k (Some v, src) a) as Hp end;
    destruct (spec_put _ _ _ _ _) as [rc a2]; simpl in Hp |- *; rewrite Hp; apply good_set; [apply Hr|done|done].
  - unfold spec_BULK. pose proof (good_bulk g (a_version a) (a_props a) (a_events a) Hr HA) as Hg.
    by destruct (spec_bulk _ _ _ _ _).
  - destruct k as [[|b t]|]; [done| |done]. cbn [spec_DEL snd]. destruct (a_props a !! _); [|done]. simpl.
    apply map_Forall_union_2; [by apply map_Forall_delete|apply good_defaults].
Qed.

Lemma size_handle r a :
  Z.of_nat (size (a_props (spec_handle producer validate r a).2)) ≤ Z.of_nat (size (a_props a)) + growth r.
Proof.
  destruct r as [k|i|i|g|k| | | |]; cbn [spec_handle growth snd]; try lia.
  1, 2: destruct i as [[[k|] [v|] src]|]; cbn [spec_SET snd]; try lia; destruct (validate k v); cbn [snd]; [lia|];
    match goal with |- context [spec_put _ ?o _ _ _] => pose proof (put_props o k (Some v, src) a) as Hp;
      pose proof (spec_set_size o k (Some v, src) (a_props a)) end;
    destruct (spec_put _ _ _ _ _) as [rc a2]; simpl in Hp |- *; rewrite Hp; lia.
  - unfold spec_BULK. pose proof (bulk_size g (a_version a) (a_props a) (a_events a)) as Hg.
    destruct (spec_bulk _ _ _ _ _). simpl in *. lia.
  - destruct k as [[|b t]|]; cbn [spec_DEL snd]; [simpl; lia| |simpl; lia]. destruct (a_props a !! _); simpl; [|lia].
    pose proof (size_union_le (delete (b :: t) (a_props a)) default_map) as Hu.
    assert ((size (delete (b :: t) (a_props a)) ≤ size (a_props a))%nat).
    { rewrite <-!size_dom, dom_delete_L. apply subseteq_size. set_solver. }
    change (size default_map) with 11%nat in Hu. lia.
Qed.

End Invariant.

(** ** The handlers *)

Section Refinement.
Context {M : Type} `{KeyMapLaws M addr} {xml : Type} `{LibXml xml}.
Context (producer : bool).
Implicit Types (s : state (M := M) (xml := xml)) (es : list (cstring * addr)) (A : gmap cstring pdata) (a : astate).

(** [s] implements [a]. *)
Definition rep s a : Prop := holds s (a_props a) ∧ confVersion s = a_version a ∧ events s = a_events a.

(** After a set: the object belongs to the map, or is the only other one in
    memory. *)
Definition taken s es (copy : addr) (rc : setPropRc) : Prop :=
  if decide (rc = SET_PROP_NEW) then owned s es
  else (∃ p, heap s !! copy = Some p) ∧ copy ∉ es.*2 ∧ dom (heap s) = {[copy]} ∪ list_to_set es.*2.

(** Creating an object and setting it. *)
Lemma create_and_set s A k v src overwrite :
  holds s A → key_ok k → Z.of_nat (size A) < 65535 →
  let '(copy, s1) := createProperty (Some k) v src s in
  ∃ s2 es, setPropertyWhenLocked producer copy true overwrite s1
      = Ok ((spec_set overwrite k (v, src) A).1, s2) ∧
    pmodel s2 es (spec_set overwrite k (v, src) A).2 ∧
    taken s2 es copy (spec_set overwrite k (v, src) A).1 ∧
    only_events s s2 (sent producer (set_event (spec_set overwrite k (v, src) A).1 k (v, src) (confVersion s))).
Proof.
  intros (es & Hs & Ho) Hk Hsz. unfold createProperty.
  set (a := fresh (dom (heap s))). set (p := mkProp (Some k) v src). set (s1 := set_heap s _).
  pose proof (create_fresh s es A Hs) as Hfr. fold a in Hfr.
  assert (Hs1 : pmodel s1 es A).
  { apply pmodel_heap; [done|]. intros b Hb. rewrite lookup_insert_ne; [done|]. by intros ->. }
  destruct (model_size _ _ _ Hs) as [Hsize _].
  destruct (set_locked producer s1 es A a p k true overwrite Hs1) as (s2 & es2 & -> & Hs2 & He2 & Hp2 & Hd2 & Hes2);
    [by apply lookup_insert_eq|done|done|done|lia|].
  change (pdata_of p) with (v, src) in *. exists s2, es2. split; [done|]. split; [done|]. split; [|exact He2].
  assert (Hd1 : dom (heap s2) = {[a]} ∪ list_to_set es.*2).
  { rewrite Hd2. simpl. rewrite dom_insert_L. by rewrite Ho. }
  unfold taken. case_decide.
  - apply (owned_perm _ ((k, a) :: es)); [|done]. unfold owned. by rewrite Hd1.
  - subst es2. split_and!; [by eexists|done|done].
Qed.

Lemma taken_same s s' es copy rc :
  taken s es copy rc → heap s' = heap s → taken s' es copy rc.
Proof. unfold taken, owned. intros Ht ->. done. Qed.

Lemma cleanup_spec s es A copy rc :
  pmodel s es A → taken s es copy rc → ∃ s', cleanup rc copy s = Ok s' ∧ holds s' A ∧ only_events s s' [].
Proof.
  intros Hs. unfold taken, cleanup. destruct (decide (rc = SET_PROP_NEW)) as [E|E].
  - intros Ho. rewrite decide_False by (intros Hx; by apply Hx). exists s. split; [done|].
    split; [by exists es|]. unfold only_events. by rewrite app_nil_r.
  - intros ([p Hp] & Hn & Hd). rewrite decide_True by done. by eapply destroy_spec.
Qed.

Context (saving : Z → save_result xml_file) (isDelayTaskWaiting : Z → bool) (scheduleDelayTask : Z).
Context (defs : gmap addr propertyTypeDef) (propertyTypesMap : option M).
Context (validate : cstring → cstring → option verror).
Hypothesis validated : ∀ k v, text_ok k → isValueValid defs propertyTypesMap k (Some v) = Ok (validate k v).

(** The effect of setProperty and setPropertyOverwrite with the clean-up of
    their callers. *)
Lemma put_spec s a k v src overwrite (setter : addr → state → outcome (setPropRc * state)) :
  setter = (if overwrite : bool then setPropertyOverwrite producer saving isDelayTaskWaiting scheduleDelayTask
            else setProperty producer saving isDelayTaskWaiting scheduleDelayTask) →
  rep s a → key_ok k → Z.of_nat (size (a_props a)) < 65535 →
  let '(copy, s1) := createProperty (Some k) v src s in
  ∃ s2 s3, setter copy s1 = Ok ((spec_put producer overwrite k (v, src) a).1, s2) ∧
    cleanup (spec_put producer overwrite k (v, src) a).1 copy s2 = Ok s3 ∧
    rep s3 (spec_put producer overwrite k (v, src) a).2.
Proof.
  intros -> (Hs & Hv & He) Hk Hsz. pose proof (create_and_set s (a_props a) k v src overwrite Hs Hk Hsz) as Hc.
  destruct (createProperty (Some k) v src s) as [copy s1]. destruct Hc as (s2 & es & Hset & Hs2 & Ht2 & E2).
  destruct E2 as (V2 & _ & _ & E2). unfold spec_put.
  assert (Hw : ∀ rc,
     spec_set overwrite k (v, src) (a_props a) = (rc, <[k := (v, src)]> (a_props a)) →
     ∃ s3 s4, ('(_, s) ← writeConfigFile saving isDelayTaskWaiting scheduleDelayTask true s2; Ok (rc, s)) = Ok (rc, s3) ∧
       cleanup rc copy s3 = Ok s4 ∧
       rep s4 (mkA (<[k := (v, src)]> (a_props a)) (u64 (a_version a + 1))
         (a_events a ++ sent producer (set_event rc k (v, src) (a_version a))))).
  { intros rc Hrc. rewrite Hrc in *. cbn [fst snd] in *.
    destruct (write_spec saving isDelayTaskWaiting scheduleDelayTask s2 es _ true Hs2) as (s3 & -> & Hh & Hm & E3 & V3 & _).
    destruct (cleanup_spec s3 es (<[k := (v, src)]> (a_props a)) copy rc) as (s4 & Hcl & Hs4 & V4 & _ & _ & E4);
      [by eauto with zilker|by eapply taken_same|].
    exists s3, s4. split; [done|]. split; [done|]. split; [done|]. simpl. split; [congruence|].
    rewrite E4, E3, E2, Hv, He, app_nil_r. done. }
  unfold setPropertyOverwrite, setProperty.
  destruct (spec_set_cases overwrite k (v, src) (a_props a)) as [Hc|[Hc|[Hc ->]]].
  - destruct (Hw _ Hc) as (s3 & s4 & H3 & H4 & H5). rewrite Hc in *. exists s3, s4.
    destruct overwrite; rewrite Hset; done.
  - destruct (Hw _ Hc) as (s3 & s4 & H3 & H4 & H5). rewrite Hc in *. exists s3, s4.
    destruct overwrite; rewrite Hset; done.
  - rewrite Hc in *. cbn [fst snd] in *. rewrite Hset.
    destruct (cleanup_spec s2 es (a_props a) copy SET_PROP_DROPPED Hs2 Ht2) as (s3 & H3 & Hs3 & V3 & _ & _ & E3).
    exists s2, s3. split; [done|]. split; [done|]. split; [done|]. split; [congruence|].
    rewrite E3, E2. simpl. unfold sent. destruct producer; by rewrite !app_nil_r.
Qed.

Abbreviation handler :=
  (handle producer saving isDelayTaskWaiting scheduleDelayTask defs propertyTypesMap).

Lemma SET_spec s a input overwrite :
  rep s a → key_arg_ok (input ≫= p_key) → source_ok input → Z.of_nat (size (a_props a)) < 65535 →
  ∃ s', handler (if overwrite : bool then SET_CPE_PROPERTY_OVERWRITE input else SET_CPE_PROPERTY input) s
      = Ok ((spec_SET producer validate overwrite input a).1, s') ∧
    rep s' (spec_SET producer validate overwrite input a).2.
Proof.
  intros Hs Hk Hsrc Hsz. destruct input as [[[k|] [v|] src]|]; simpl in Hk, Hsrc; cycle 1.
  1, 2, 3, 4: by exists s; destruct overwrite.
  destruct overwrite;
    cbn [handle handle_SET_CPE_PROPERTY_OVERWRITE_request handle_SET_CPE_PROPERTY_request spec_SET];
    rewrite validated by done; obind;
    (destruct (validate k v) as [e|]; [by exists s|]).
  - pose proof (put_spec s a k (Some v) src true _ eq_refl Hs (proj1 Hk) Hsz) as Hp.
    destruct (createProperty (Some k) (Some v) src s) as [copy s1]. destruct Hp as (s2 & s3 & -> & H3 & Hr).
    obind. unfold source_label. rewrite (decide_True (P := 0 ≤ src ≤ PROPERTY_SRC_DEVICE)) by done. obind. rewrite H3. unfold spec_put in *.
    destruct (spec_set_cases true k (Some v, src) (a_props a)) as [Hc|[Hc|[_ Hc]]]; [| |done];
      rewrite Hc in *; by exists s3.
  - pose proof (put_spec s a k (Some v) src false _ eq_refl Hs (proj1 Hk) Hsz) as Hp.
    destruct (createProperty (Some k) (Some v) src s) as [copy s1]. destruct Hp as (s2 & s3 & -> & H3 & Hr).
    obind. unfold source_label. rewrite (decide_True (P := 0 ≤ src ≤ PROPERTY_SRC_DEVICE)) by done. obind. rewrite H3. unfold spec_put in *.
    destruct (spec_set_cases false k (Some v, src) (a_props a)) as [Hc|[Hc|[Hc _]]];
      rewrite Hc in *; by exists s3.
Qed.

Lemma bulk_loop_spec group s A b :
  holds s A → Forall entry_ok group → Z.of_nat (size A) + zlen group ≤ 65535 →
  ∃ s', bulk_loop producer group b s = Ok (b || has_entry group, s') ∧
    holds s' (spec_bulk producer group (confVersion s) A (events s)).1 ∧
    confVersion s' = confVersion s ∧ events s' = (spec_bulk producer group (confVersion s) A (events s)).2.
Proof.
  intros Hs Hg. revert s A b Hs. induction Hg as [|[[[k|] v src]|] group He _ IH]; intros s A b Hs Hsz.
  - exists s. rewrite orb_false_r. done.
  - destruct He as ([Hk _] & _ & _). simpl in Hk. cbn [bulk_loop spec_bulk p_key p_value p_source]. simpl length in Hsz.
    pose proof (create_and_set s A k v src false Hs Hk ltac:(lia)) as Hc.
    destruct (createProperty (Some k) v src s) as [copy s1]. destruct Hc as (s2 & es & -> & Hs2 & Ht & V2 & _ & _ & E2).
    obind.
    destruct (cleanup_spec s2 es _ copy _ Hs2 Ht) as (s3 & Hcl & Hs3 & V3 & _ & _ & E3). unfold cleanup in Hcl.
    rewrite Hcl. obind.
    pose proof (spec_set_size false k (v, src) A) as Hsz2.
    assert (Hrc : (if decide ((spec_set false k (v, src) A).1 ≠ SET_PROP_FAILED) then true else b) = true).
    { destruct (spec_set_cases false k (v, src) A) as [->|[->|[-> _]]]; done. }
    rewrite Hrc. destruct (IH s3 _ true Hs3 ltac:(lia)) as (s4 & -> & Hs4 & V4 & E4).
    destruct (spec_set false k (v, src) A) as [rc A2]. cbn [fst snd] in *. rewrite V3, V2, E3, E2, app_nil_r in *.
    exists s4. change (has_entry (Some _ :: group)) with true. rewrite orb_true_r. split_and!; [done|done|congruence|done].
  - destruct He as (_ & [? [=]] & _).
  - simpl in Hsz |- *. apply IH; [done|lia].
Qed.

Lemma BULK_spec s a group :
  rep s a → Forall entry_ok group → Z.of_nat (size (a_props a)) + zlen group ≤ 65535 →
  ∃ s', handler (SET_CPE_PROPERTIES_BULK group) s = Ok ((spec_BULK producer group a).1, s') ∧
    rep s' (spec_BULK producer group a).2.
Proof.
  intros (Hs & Hv & He) Hg Hsz. unfold spec_BULK. rewrite <-Hv, <-He.
  destruct (bulk_loop_spec group s (a_props a) false Hs Hg Hsz) as (s1 & Hl & Hs1 & V1 & E1).
  cbn [handle]. unfold handle_SET_CPE_PROPERTIES_BULK_request, setPropertiesBulk.
  destruct group as [|g group]; [by exists s|]. rewrite Hl. cbn [mbind outcome_bind orb].
  destruct (spec_bulk producer (g :: group) (confVersion s) (a_props a) (events s)) as [A2 e2]. cbn [fst snd] in *.
  destruct (has_entry (g :: group)).
  - destruct (write_holds saving isDelayTaskWaiting scheduleDelayTask s1 A2 true Hs1) as (s2 & -> & Hs2 & E2 & V2).
    exists s2. split; [done|]. split; [done|]. simpl. split; congruence.
  - exists s1. split; [done|]. by split.
Qed.

Lemma DEL_spec s a key :
  rep s a → key_arg_ok key → Z.of_nat (size (a_props a)) ≤ 65000 →
  ∃ s', handler (DEL_CPE_PROPERTY key) s = Ok ((spec_DEL producer key a).1, s') ∧ rep s' (spec_DEL producer key a).2.
Proof.
  intros Hr Hk Hsz. pose proof Hr as (Hs & Hv & He). destruct key as [[|b t]|]; [by exists s| |by exists s].
  destruct (delete_spec producer saving isDelayTaskWaiting scheduleDelayTask s (a_props a) (b :: t) Hs (proj1 Hk) Hsz)
    as (s' & Hd & Hs'). cbn [handle handle_DEL_CPE_PROPERTY_request]. rewrite Hd. obind.
  exists s'. split; [done|]. cbn [spec_DEL fst snd]. destruct (a_props a !! (b :: t)) as [d|] eqn:E.
  - rewrite decide_True in Hs' by done. destruct Hs' as (Hs' & V' & E'). split; [done|]. simpl.
    rewrite V', E', Hv, He. done.
  - rewrite decide_False in Hs' by (by intros [? ?]). destruct Hs' as (Hs' & V' & E'). split; [done|]. split; congruence.
Qed.

Lemma get_entry s es A k :
  pmodel s es A → key_ok k →
  ∃ o, getProperty (Some k) s = Ok o ∧
    match o with
    | Some b => ∃ p, heap s !! b = Some p ∧ p_key p = Some k ∧ A !! k = Some (pdata_of p)
    | None => A !! k = None
    end.
Proof.
  intros Hs Hk. simpl. rewrite (get_locked s es A k Hs Hk). eexists. split; [done|].
  pose proof (model_A s es A k Hs) as HA. destruct (list_to_map es !! k) as [b|] eqn:Eb; [|done].
  apply (entry_lookup s es A k b Hs) in Eb. destruct (pm_live _ _ _ Hs k b Eb) as (_ & p & Hp & Hpk).
  exists p. split_and!; [done|done|]. rewrite HA. simpl. unfold pv. by rewrite Hp.
Qed.

Lemma GET_spec s a key :
  rep s a → good (a_props a) → key_arg_ok key → handler (GET_CPE_PROPERTY key) s = Ok (spec_GET key a, s).
Proof.
  intros ((es & Hs & _) & _ & _) Hg Hk. destruct key as [[|b t]|]; [done| |done].
  cbn [handle handle_GET_CPE_PROPERTY_request empty_input non_empty negb]. unfold handle_GET_CPE_PROPERTY_request, get_lookup.
  cbn [empty_input non_empty negb]. destruct (get_entry s es _ (b :: t) Hs (proj1 Hk)) as (o & -> & Ho).
  cbn [mbind outcome_bind get_copy spec_GET]. destruct o as [c|]; [|by rewrite Ho].
  destruct Ho as (p & Hp & _ & HA). cbn [get_copy]. rewrite Hp, HA. destruct (Hg _ _ HA) as [_ [v Hv]].
  destruct p as [pk pv psrc]. simpl in Hv |- *. by rewrite Hv.
Qed.

(** ** The list of all keys *)

Lemma all_keys_spec s es A : pmodel s es A → getAllPropertyKeys s = Ok es.*1.
Proof.
  intros Hs. unfold getAllPropertyKeys. rewrite (km_foreach_law _ es) by apply Hs.
  pose proof (λ k b Hin, proj2 (pm_live _ _ _ Hs k b Hin)) as Hl. clear Hs.
  set (body := λ (b : addr) (keys : list cstring), _).
  assert (Hacc : ∀ acc, foldM body es.*2 acc = Ok (acc ++ es.*1)); [|apply Hacc].
  induction es as [|[k b] es IH]; intros acc; [by rewrite app_nil_r|]. cbn [fmap list_fmap foldM fst snd].
  destruct (Hl k b) as (p & Hp & Hk); [by left|]. unfold body at 2. rewrite Hp. oread.
  rewrite Hk. oread.
  rewrite IH by (intros k' b' Hin; apply (Hl k'); by right). by rewrite <-app_assoc.
Qed.

Lemma model_dom s es A : pmodel s es A → es.*1 ≡ₚ elements (dom A).
Proof.
  intros [Hm _ _ <-]. apply NoDup_Permutation.
  - by eapply km_nodup.
  - apply NoDup_elements.
  - intros k. rewrite elem_of_elements, dom_list_to_map_L, view_keys. by rewrite elem_of_list_to_set.
Qed.

(** The sorted array of the two handlers. *)
Lemma keys_array s es A :
  pmodel s es A → good A → (if decide (1 < zlen es.*1) then qsort es.*1 else es.*1) = sorted_keys A.
Proof.
  intros Hs Hg. assert (Hn : Forall no_nul es.*1).
  { apply Forall_forall. intros k Hk. rewrite (model_dom s es A Hs) in Hk.
    apply elem_of_elements, elem_of_dom in Hk as [d Hd]. by apply (Hg k d). }
  unfold sorted_keys. rewrite <-(qsort_perm es.*1 (elements (dom A))); [|done|by eapply model_dom].
  case_decide; [done|]. by rewrite qsort_short.
Qed.

Lemma values_loop_spec s es A ks acc :
  pmodel s es A → (∀ k, k ∈ ks → k ∈ es.*1) →
  values_loop ks acc s = Ok (acc ++ (prop_of A <$> ks)).
Proof.
  intros Hs. revert acc. induction ks as [|k ks IH]; intros acc Hks; [by rewrite app_nil_r|].
  assert (Hk : k ∈ es.*1) by (apply Hks; by left). apply list_elem_of_fmap in Hk as ([k' b] & -> & Hin). simpl fst in *.
  destruct (pm_live _ _ _ Hs k' b Hin) as (Hok & _). cbn [values_loop].
  destruct (get_entry s es A k' Hs Hok) as (o & -> & Ho). obind.
  destruct o as [c|].
  - destruct Ho as (p & Hp & Hpk & HA). rewrite Hp. oread.
    rewrite IH by (intros x Hx; apply Hks; by right). rewrite <-app_assoc, fmap_cons. do 3 f_equal.
    unfold prop_of. rewrite HA. by destruct p; simpl in *; subst.
  - rewrite (model_A s es A k' Hs), (proj2 (entry_lookup s es A k' b Hs)) in Ho by done. done.
Qed.

Lemma KEYS_spec s a :
  rep s a → good (a_props a) →
  handler GET_ALL_KEYS s = Ok ((IPC_SUCCESS, KeysReply (sorted_keys (a_props a))), s) ∧
  handler GET_ALL_KEY_VALUES s
  = Ok ((IPC_SUCCESS, ValuesReply (prop_of (a_props a) <$> sorted_keys (a_props a))), s).
Proof.
  intros ((es & Hs & _) & _ & _) Hg. cbn [handle].
  unfold handle_GET_ALL_KEYS_request, handle_GET_ALL_KEY_VALUES_request.
  rewrite (all_keys_spec s es _ Hs). obind. rewrite (keys_array s es _ Hs Hg).
  split; [done|]. rewrite (values_loop_spec s es _ _ _ Hs); [done|].
  intros k Hk. unfold sorted_keys, qsort in Hk. rewrite merge_sort_Permutation in Hk. by rewrite (model_dom s es _ Hs).
Qed.

Lemma handle_spec r s a :
  rep s a → good (a_props a) → request_ok r → Z.of_nat (size (a_props a)) + growth r ≤ 65000 →
  ∃ s', handler r s = Ok ((spec_handle producer validate r a).1, s') ∧ rep s' (spec_handle producer validate r a).2.
Proof.
  intros Hs Hg Hr Hsz. destruct r as [k|i|i|g|k| | | |]; cbn [growth request_ok spec_handle] in *.
  - exists s. split; [by apply GET_spec|done].
  - apply (SET_spec s a i false); [done|apply Hr|apply Hr|lia].
  - apply (SET_spec s a i true); [done|apply Hr|apply Hr|lia].
  - apply BULK_spec; [done|done|lia].
  - apply DEL_spec; [done|done|lia].
  - exists s. destruct Hs as (Hs & Hv & He). destruct (holds_size s _ Hs) as [Hc _].
    unfold handle, handle_COUNT_PROPERTIES_request. by rewrite Hc.
  - exists s. by destruct (KEYS_spec s a Hs Hg) as [-> _].
  - exists s. by destruct (KEYS_spec s a Hs Hg) as [_ ->].
  - exists s. destruct Hs as (Hs & Hv & He). unfold handle, handle_GET_FILE_VERSION_request, getConfigFileVersion.
    by rewrite Hv.
Qed.

End Refinement.
End IpcSpec.
