(* ===== verification/PropsTheorems.v ===== *)
(** * Theorems on the properties service

    The service as its clients see it (requests and replies), the priority
    rule, restarts through the configuration file, restore, migration, branded
    defaults, the release of the memory, and the window in GET. *)

From S2P Require Import Prelude LinkedList FifoBuffer StringUtils StringUtilsTheorems StringNumbers.
From S2P Require Import HashMap KeyMap XmlHelper PropertyTypes Properties PropertiesSpec PropertiesFile.
From S2P Require Import PropsIpc PropsIpcSpec.
Import StringUtils StringTheorems StringNumbers KeyMap Xml PropertyTypes Properties PropSpec PropFile PropsIpc IpcSpec.

Module PropsTheorems.

(** The directories initProperties stores when they are missing. *)
Definition dirs (configDir homeDir : cstring) : gmap cstring pdata :=
  {[IC_DYNAMIC_DIR_PROP := (Some configDir, PROPERTY_SRC_DEVICE)]} ∪
  {[IC_STATIC_DIR_PROP := (Some homeDir, PROPERTY_SRC_DEVICE)]}.

Section Theorems.
Context {M : Type} `{KeyMapLaws M addr} {xml : Type} `{LibXmlLaws xml}.
Context (producer : bool) (saving : Z → save_result xml_file) (isDelayTaskWaiting : Z → bool) (scheduleDelayTask : Z).
Implicit Types (s : state (M := M) (xml := xml)) (es : list (cstring * addr)) (A : gmap cstring pdata) (a : astate).

(** ** Serving requests *)

Lemma serve_spec defs (types : option M) validate reqs s a :
  (∀ k v, text_ok k → isValueValid defs types k (Some v) = Ok (validate k v)) →
  rep s a → good (a_props a) → Forall request_ok reqs → Z.of_nat (size (a_props a)) + total_growth reqs ≤ 65000 →
  ∃ s', serve producer saving isDelayTaskWaiting scheduleDelayTask defs types reqs s
      = Ok ((spec_serve producer validate reqs a).1, s') ∧
    rep s' (spec_serve producer validate reqs a).2.
Proof.
  intros Hv Hs Hg Hr. revert s a Hs Hg.
  induction Hr as [|r reqs Hr Hrs IH]; intros s a Hs Hg Hsz; [by exists s|].
  assert (Hpos : 0 ≤ total_growth reqs).
  { clear. induction reqs as [|r reqs IH]; simpl; [done|]. destruct r; cbn [growth]; lia. }
  cbn [total_growth foldr] in Hsz. fold (total_growth reqs) in Hsz. cbn [serve spec_serve].
  destruct (handle_spec producer saving isDelayTaskWaiting scheduleDelayTask defs types validate Hv r s a)
    as (s1 & -> & Hs1); [done|done|done|lia|]. obind.
  pose proof (good_handle producer validate r a Hr Hg) as Hg1.
  pose proof (size_handle producer validate r a) as Hsz1.
  destruct (spec_handle producer validate r a) as [o a1]. cbn [fst snd] in *.
  destruct (IH s1 a1 Hs1 Hg1 ltac:(lia)) as (s2 & -> & Hs2). obind.
  destruct (spec_serve producer validate reqs a1) as [os a2]. by exists s2.
Qed.

(** ** Start-up *)

Lemma missing_union A k d : match A !! k with Some _ => A | None => <[k := d]> A end = A ∪ {[k := d]}.
Proof.
  apply map_eq. intros i. rewrite lookup_union. destruct (A !! k) as [x|] eqn:E, (decide (i = k)) as [->|Hne].
  - rewrite E, lookup_singleton_eq. done.
  - rewrite lookup_singleton_ne by done. by destruct (A !! i).
  - by rewrite lookup_insert_eq, E, lookup_singleton_eq.
  - rewrite lookup_insert_ne, lookup_singleton_ne by done. by destruct (A !! i).
Qed.

(** What initProperties does once the file has been read. *)
Definition complete (configDir homeDir : cstring) A : gmap cstring pdata := A ∪ dirs configDir homeDir ∪ default_map.

Lemma dir_keys_ok : key_ok IC_DYNAMIC_DIR_PROP ∧ key_ok IC_STATIC_DIR_PROP.
Proof. by vm_compute. Qed.

(** Something is stored exactly when a directory or a default is missing. *)
Lemma complete_changed configDir homeDir A b :
  let A1 := A ∪ {[IC_DYNAMIC_DIR_PROP := (Some configDir, PROPERTY_SRC_DEVICE)]} in
  let A2 := A1 ∪ {[IC_STATIC_DIR_PROP := (Some homeDir, PROPERTY_SRC_DEVICE)]} in
  (b = true ↔ complete configDir homeDir A ≠ A2) →
  bool_decide (A !! IC_DYNAMIC_DIR_PROP = None) || bool_decide (A1 !! IC_STATIC_DIR_PROP = None) || b
  = bool_decide (complete configDir homeDir A ≠ A).
Proof.
  intros A1 A2 Hb. assert (HC : complete configDir homeDir A = A2 ∪ default_map).
  { unfold A2, A1, complete, dirs. by rewrite !(assoc_L (∪)). }
  apply eq_bool_prop_intro. rewrite !orb_True, !bool_decide_spec, Is_true_true, Hb. split.
  - intros [[Hn|Hn]|Hn] Hc.
    + assert (Hx : complete configDir homeDir A !! IC_DYNAMIC_DIR_PROP = None) by (by rewrite Hc).
      unfold complete, dirs in Hx. rewrite !lookup_union_None, lookup_singleton_eq in Hx. by destruct Hx as [[_ [? _]] _].
    + assert (Hx : complete configDir homeDir A !! IC_STATIC_DIR_PROP = None).
      { rewrite Hc. by apply lookup_union_None in Hn as [? _]. }
      unfold complete, dirs in Hx. rewrite !lookup_union_None, lookup_singleton_eq in Hx. by destruct Hx as [[_ [_ ?]] _].
    + apply Hn. rewrite Hc. apply map_subseteq_po; [|rewrite <-Hc].
      * unfold A2, A1. rewrite <-(assoc_L (∪)). apply map_union_subseteq_l.
      * rewrite HC. apply map_union_subseteq_l.
  - intros Hc. destruct (decide (A !! IC_DYNAMIC_DIR_PROP = None)) as [|Hn1]; [by left; left|].
    destruct (decide (A1 !! IC_STATIC_DIR_PROP = None)) as [|Hn2]; [by left; right|]. right.
    assert (HA1 : A1 = A) by (unfold A1; rewrite <-missing_union; by destruct (A !! IC_DYNAMIC_DIR_PROP)).
    assert (HA2 : A2 = A1) by (unfold A2; rewrite <-missing_union; by destruct (A1 !! IC_STATIC_DIR_PROP)).
    by rewrite HA2, HA1.
Qed.

Lemma fill_spec configDir homeDir s A :
  holds s A → Z.of_nat (size A) ≤ 64000 →
  ∃ s', ('(save1, s) ← set_missing producer IC_DYNAMIC_DIR_PROP configDir PROPERTY_SRC_DEVICE false s;
         '(save2, s) ← set_missing producer IC_STATIC_DIR_PROP homeDir PROPERTY_SRC_DEVICE false s;
         '(save3, s) ← ensureDefaults producer s;
         s ← (if save1 || save2 || save3
              then '(_, s) ← writeConfigFile saving isDelayTaskWaiting scheduleDelayTask false s; Ok s else Ok s);
         Ok (true, s)) = Ok (true, s') ∧
    holds s' (complete configDir homeDir A) ∧ events s' = events s ∧
    (complete configDir homeDir A = A → confVersion s' = confVersion s) ∧
    (complete configDir homeDir A ≠ A → confVersion s' = u64 (confVersion s + 1)).
Proof.
  intros Hs Hsz. destruct dir_keys_ok as [Hk1 Hk2].
  destruct (set_missing_spec producer s A IC_DYNAMIC_DIR_PROP configDir PROPERTY_SRC_DEVICE false Hs Hk1)
    as (s1 & -> & Hs1 & V1 & _ & _ & E1); [lia|]. rewrite missing_union in Hs1. obind.
  set (A1 := A ∪ _) in *.
  assert (Hsz1 : (size A1 ≤ size A + 1)%nat).
  { unfold A1. pose proof (size_union_le A {[IC_DYNAMIC_DIR_PROP := (Some configDir, PROPERTY_SRC_DEVICE)]}) as Hu.
    rewrite map_size_singleton in Hu. done. }
  destruct (set_missing_spec producer s1 A1 IC_STATIC_DIR_PROP homeDir PROPERTY_SRC_DEVICE false Hs1 Hk2)
    as (s2 & -> & Hs2 & V2 & _ & _ & E2); [lia|]. rewrite missing_union in Hs2. obind.
  set (A2 := A1 ∪ _) in *.
  assert (Hsz2 : (size A2 ≤ size A1 + 1)%nat).
  { unfold A2. pose proof (size_union_le A1 {[IC_STATIC_DIR_PROP := (Some homeDir, PROPERTY_SRC_DEVICE)]}) as Hu.
    rewrite map_size_singleton in Hu. done. }
  destruct (ensureDefaults_spec producer s2 A2 Hs2) as (b & s3 & -> & Hs3 & (V3 & _ & _ & E3) & Hb); [lia|].
  obind.
  assert (HC : A2 ∪ default_map = complete configDir homeDir A).
  { unfold A2, A1, complete, dirs. by rewrite !(assoc_L (∪)). }
  rewrite HC in *. rewrite app_nil_r in E1, E2, E3.
  pose proof (complete_changed configDir homeDir A b Hb) as Hsave. cbv zeta in Hsave. fold A1 in Hsave.
  rewrite Hsave. clear Hsave.
  case_bool_decide as Hc.
  - destruct (write_holds saving isDelayTaskWaiting scheduleDelayTask s3 _ false Hs3) as (s4 & -> & Hs4 & E4 & V4).
    obind. exists s4. split_and!; [done|done|congruence|done|congruence].
  - obind. exists s3. split_and!; [done|done|congruence|congruence|done].
Qed.

(** ** Reading a file the service wrote *)

Lemma read_config_spec s es A v s0 :
  pmodel s es A → map_Forall storable A → 0 ≤ v ≤ UINT64_MAX → holds s0 ∅ →
  ∃ s1, readConfigFile saving isDelayTaskWaiting scheduleDelayTask
          (Some (xmlDump (doc_of v (file_props s es) : xml))) s0 = Ok (true, s1) ∧
    holds s1 (filter survives A) ∧ confVersion s1 = v ∧ events s1 = events s0.
Proof.
  intros Hs HA Hv Hs0. unfold readConfigFile. cbn [mbind option_bind].
  destruct (parse_dump (doc_of v (file_props s es) : xml)) as (q & -> & Hq).
  { apply doc_plain; [unfold UINT64_MAX in Hv; lia|]. destruct (file_props_view s es A Hs) as [Hview _].
    pose proof (storable_list s es A Hs HA) as Hst. rewrite Hview in Hst. apply Forall_fmap in Hst.
    eapply Forall_impl; [exact Hst|]. by intros p [_ Hp]. }
  destruct (read_doc s es A v q s0 Hs HA Hv Hq Hs0) as (s1 & -> & Hs1 & V1 & E1). obind.
  assert (getXmlNodeAttributeAsInt (Some q) SCHEMA_VER_ATTR 0 = 1) as ->.
  { unfold getXmlNodeAttributeAsInt. destruct Hq as [_ Hp _ _]. rewrite <-Hp.
    destruct (doc_spec v (file_props s es)) as (_ & _ & ->). by rewrite int32_text. }
  obind. by exists s1.
Qed.

Lemma empty_holds s : heap s = ∅ → propertyMap s = km_create → holds s ∅.
Proof.
  intros Hh Hm. exists []. split.
  - split; [rewrite Hm; apply km_create_law|constructor|by intros ? ? ?%elem_of_nil|done].
  - unfold owned. rewrite Hh. by rewrite dom_empty_L.
Qed.

Lemma filter_size A : (size (filter survives A) ≤ size A)%nat.
Proof. rewrite <-!size_dom. apply subseteq_size, dom_filter_subseteq. Qed.

Lemma u64_range v : 0 ≤ u64 v ≤ UINT64_MAX.
Proof. unfold u64, UINT64_MAX. pose proof (Z.mod_pos_bound v 18446744073709551616). lia. Qed.

(** ** Releasing everything *)

Lemma destroy_all_spec l s :
  NoDup l → dom (heap s) = list_to_set l → ∃ s', destroy_all l s = Ok s' ∧ s' = set_heap s ∅.
Proof.
  unfold destroy_all. revert s. induction l as [|b l IH]; intros s Hnd Hd.
  - exists s. split; [done|]. apply dom_empty_inv_L in Hd. destruct s. simpl in Hd. by subst.
  - apply NoDup_cons in Hnd as [Hb Hnd]. cbn [foldM]. unfold destroy_property at 2.
    assert (Hin : b ∈ dom (heap s)) by (rewrite Hd; apply elem_of_list_to_set; by left). apply elem_of_dom in Hin as [p Hp]. rewrite Hp.
    oread. destruct (IH (set_heap s (delete b (heap s))) Hnd) as (s' & -> & ->).
    + simpl. rewrite dom_delete_L, Hd. apply set_eq. intros c.
      rewrite elem_of_difference, !elem_of_list_to_set, elem_of_cons, elem_of_singleton.
      split; [by intros [[->|?] ?]|]. intros Hc. split; [by right|]. by intros ->.
    + by exists (set_heap s ∅).
Qed.

Lemma clear_spec s A :
  holds s A → ∃ gone m', km_clear (propertyMap s) = Ok (gone, m') ∧
    destroy_all gone (set_map s m') = Ok (set_heap (set_map s m') ∅) ∧
    holds (set_heap (set_map s m') ∅) ∅.
Proof.
  intros (es & Hs & Ho). destruct (km_clear_law (propertyMap s) es (pm_map _ _ _ Hs)) as (m' & Hc & Hm').
  exists es.*2, m'. split; [done|]. destruct (destroy_all_spec es.*2 (set_map s m')) as (s' & -> & ->);
    [apply Hs|done|]. split; [done|]. exists [].
  split; [|unfold owned; simpl; by rewrite dom_empty_L]. split; [done|constructor|by intros ? ? ?%elem_of_nil|done].
Qed.

(** ** The claims *)

Lemma complete_empty configDir homeDir :
  complete configDir homeDir ∅ = dirs configDir homeDir ∪ default_map ∧ complete configDir homeDir ∅ ≠ ∅.
Proof.
  unfold complete. rewrite (left_id_L ∅ (∪)). split; [done|]. intros Hc.
  assert (Hx : (dirs configDir homeDir ∪ default_map) !! IC_DYNAMIC_DIR_PROP = None) by (by rewrite Hc).
  unfold dirs in Hx. rewrite !lookup_union_None, lookup_singleton_eq in Hx. by destruct Hx as [[? _] _].
Qed.

Lemma good_dirs configDir homeDir : good (dirs configDir homeDir ∪ default_map).
Proof.
  apply map_Forall_union_2; [|apply good_defaults].
  apply map_Forall_union_2; apply map_Forall_singleton; (split; [by auto with zilker|done]).
Qed.

Lemma dirs_size configDir homeDir : (size (dirs configDir homeDir ∪ default_map) ≤ 13)%nat.
Proof.
  pose proof (size_union_le (dirs configDir homeDir) default_map) as H1'.
  pose proof (size_union_le {[IC_DYNAMIC_DIR_PROP := (Some configDir, PROPERTY_SRC_DEVICE)]}
    {[IC_STATIC_DIR_PROP := (Some homeDir, PROPERTY_SRC_DEVICE)]} : (_ ≤ _)%nat) as H2'.
  change (size default_map) with 11%nat in H1'. unfold dirs in *. rewrite !map_size_singleton in H2'. lia.
Qed.

(** C1: the properties service refines its abstract specification.  Started
    without a configuration file it holds the two directories and the
    defaults, at version 1; every sequence of requests (get, set, overwrite,
    bulk set, delete, count, list keys, list values, version) is then answered
    with exactly the replies, and leaves exactly the properties, the version
    and the events, of the abstract service; no handler crashes, and the
    property objects in memory are always exactly those in the map.  This is
    so whatever becomes of the file when it is written, for requests in which
    keys are shorter than 65536 bytes, the source of a property that is set is
    one of propSource and the entries of a bulk set have a key and a value
    (null_value_crashes_get and unknown_source_crashes_set show why), that add
    at most 60000 properties, with type definitions whose restrictions fit
    their types. *)
Theorem properties_service_refinement defs (types : option M) configDir homeDir reqs s0 :
  table_ok defs types → heap s0 = ∅ → events s0 = [] → Forall request_ok reqs → total_growth reqs ≤ 60000 →
  let a0 := mkA (dirs configDir homeDir ∪ default_map) 1 [] in
  ∃ s1 s2, initProperties producer saving isDelayTaskWaiting scheduleDelayTask configDir homeDir None s0
      = Ok (true, s1) ∧
    serve producer saving isDelayTaskWaiting scheduleDelayTask defs types reqs s1
      = Ok ((spec_serve producer (checked defs types) reqs a0).1, s2) ∧
    rep s2 (spec_serve producer (checked defs types) reqs a0).2.
Proof.
  intros Ht Hh He Hr Hsz a0. unfold initProperties. obind.
  assert (Hs0 : holds (set_map (set_version s0 0) km_create) ∅) by (by apply empty_holds).
  destruct (fill_spec configDir homeDir _ ∅ Hs0) as (s1 & -> & Hs1 & E1 & _ & V1); [by rewrite map_size_empty|].
  destruct (complete_empty configDir homeDir) as [Hc Hne]. specialize (V1 Hne). rewrite Hc in Hs1.
  assert (Hrep : rep s1 a0) by (split; [done|]; split; [done|by rewrite E1]).
  assert (∀ k v, text_ok k → isValueValid defs types k (Some v) = Ok (checked defs types k v)) as Hv
    by (intros k v [Hk _]; by apply isValueValid_total).
  destruct (serve_spec defs types (checked defs types) reqs s1 a0 Hv Hrep) as (s2 & Hs2 & Hr2); [apply good_dirs|done| |].
  - pose proof (dirs_size configDir homeDir). simpl. lia.
  - by exists s1, s2.
Qed.

(** ** Priorities *)

(** A request that neither overwrites nor deletes [k]. *)
Definition protects (k : cstring) (r : request) : Prop :=
  match r with
  | SET_CPE_PROPERTY_OVERWRITE (Some p) => p_key p ≠ Some k
  | DEL_CPE_PROPERTY key => key ≠ Some k
  | _ => True
  end.

(** The sets of [k] in a request come from sources below [src]. *)
Definition below (k : cstring) (src : Z) (r : request) : Prop :=
  let low o := match o with Some p => p_key p = Some k → p_source p < src | None => True end in
  match r with
  | SET_CPE_PROPERTY o => low o
  | SET_CPE_PROPERTIES_BULK g => Forall low g
  | _ => True
  end.

Lemma set_priority A k v src k' d :
  A !! k = Some (v, src) →
  ∃ v' src', (spec_set false k' d A).2 !! k = Some (v', src') ∧ src ≤ src' ∧
    ((k' = k → d.2 < src) → (v', src') = (v, src)).
Proof.
  intros Hk. unfold spec_set. destruct (decide (k' = k)) as [->|Hne].
  - rewrite Hk. unfold wins. simpl. destruct (_ || _) eqn:E; simpl.
    + rewrite lookup_insert_eq. destruct d as [v' src']. exists v', src'. simpl in *. split; [done|].
      apply orb_prop in E as [E%bool_decide_eq_true|[E%bool_decide_eq_true _]%andb_prop].
      * split; [lia|]. intros Hl. specialize (Hl eq_refl). lia.
      * split; [lia|]. intros Hl. specialize (Hl eq_refl). lia.
    + exists v, src. split_and!; [done|lia|done].
  - exists v, src. split_and!; [|lia|done]. destruct (A !! k') as [o|]; [destruct (wins false d o)|]; simpl; try done;
      by rewrite lookup_insert_ne.
Qed.

Lemma bulk_priority group ver A evs k v src :
  A !! k = Some (v, src) →
  ∃ v' src', (spec_bulk producer group ver A evs).1 !! k = Some (v', src') ∧ src ≤ src' ∧
    (below k src (SET_CPE_PROPERTIES_BULK group) → (v', src') = (v, src)).
Proof.
  revert A evs v src. induction group as [|[[[k'|] w ws]|] group IH]; intros A evs v src Hk; cbn [spec_bulk].
  - exists v, src. split_and!; [done|lia|done].
  - destruct (set_priority A k v src k' (w, ws) Hk) as (v1 & src1 & Hk1 & Hle1 & Heq1).
    destruct (spec_set false k' (w, ws) A) as [rc A1]. simpl in Hk1.
    destruct (IH A1 (evs ++ sent producer (set_event rc k' (w, ws) ver)) v1 src1 Hk1) as (v2 & src2 & Hk2 & Hle2 & Heq2).
    exists v2, src2. split_and!; [done|lia|]. intros [Hb Hbs]%Forall_cons. simpl in Hb.
    specialize (Heq1 (λ E, Hb (f_equal Some E))). injection Heq1 as -> ->. by apply Heq2.
  - destruct (IH A evs v src Hk) as (v2 & src2 & Hk2 & Hle2 & Heq2). exists v2, src2.
    split_and!; [done|lia|]. intros [_ Hbs]%Forall_cons. by apply Heq2.
  - destruct (IH A evs v src Hk) as (v2 & src2 & Hk2 & Hle2 & Heq2). exists v2, src2.
    split_and!; [done|lia|]. intros [_ Hbs]%Forall_cons. by apply Heq2.
Qed.

Lemma handle_priority validate r a k v src :
  a_props a !! k = Some (v, src) → protects k r →
  ∃ v' src', a_props (spec_handle producer validate r a).2 !! k = Some (v', src') ∧ src ≤ src' ∧
    (below k src r → (v', src') = (v, src)).
Proof.
  intros Hk Hp. assert (Hsame : ∃ v' src', a_props a !! k = Some (v', src') ∧ src ≤ src' ∧
    (below k src r → (v', src') = (v, src))) by (exists v, src; split_and!; [done|lia|done]).
  destruct r as [key|i|i|g|key| | | |]; cbn [spec_handle snd]; try done.
  - destruct i as [[[k'|] [w|] ws]|]; try done. cbn [spec_SET]. destruct (validate k' w); [done|].
    pose proof (put_props producer false k' (Some w, ws) a) as Hpp. destruct (spec_put _ _ _ _ _) as [rc a2].
    simpl in Hpp |- *. rewrite Hpp.
    destruct (set_priority (a_props a) k v src k' (Some w, ws) Hk) as (v1 & src1 & Hk1 & Hle1 & Heq1).
    exists v1, src1. split_and!; [done|done|]. intros Hb. apply Heq1. intros ->. by apply Hb.
  - destruct i as [[[k'|] [w|] ws]|]; try done. cbn [spec_SET]. destruct (validate k' w); [done|].
    pose proof (put_props producer true k' (Some w, ws) a) as Hpp. destruct (spec_put _ _ _ _ _) as [rc a2].
    simpl in Hpp, Hp |- *. rewrite Hpp. exists v, src. split_and!; [|lia|done].
    destruct (spec_set_cases true k' (Some w, ws) (a_props a)) as [->|[->|[-> _]]]; simpl; try done;
      rewrite lookup_insert_ne; congruence.
  - unfold spec_BULK. pose proof (bulk_priority g (a_version a) (a_props a) (a_events a) k v src Hk) as Hb.
    by destruct (spec_bulk _ _ _ _ _).
  - destruct key as [[|b t]|]; try done. cbn [spec_DEL snd]. destruct (a_props a !! (b :: t)); [|done].
    simpl. exists v, src. split_and!; [|lia|done]. apply lookup_union_Some_l. simpl in Hp.
    rewrite lookup_delete_ne; [done|congruence].
Qed.

(** C30: priorities.  As long as no request overwrites or deletes the property
    [k], its source never goes down, whatever sets, bulk sets and deletes of
    other properties are served; and sets of [k] from lower sources leave its
    value and its source as they are. *)
Theorem property_priority defs (types : option M) validate reqs s a k v src :
  (∀ k v, text_ok k → isValueValid defs types k (Some v) = Ok (validate k v)) →
  rep s a → good (a_props a) → Forall request_ok reqs → Z.of_nat (size (a_props a)) + total_growth reqs ≤ 65000 →
  a_props a !! k = Some (v, src) → Forall (protects k) reqs →
  ∃ os s' a' v' src', serve producer saving isDelayTaskWaiting scheduleDelayTask defs types reqs s = Ok (os, s') ∧
    rep s' a' ∧ a_props a' !! k = Some (v', src') ∧ src ≤ src' ∧
    (Forall (below k src) reqs → (v', src') = (v, src)).
Proof.
  intros Hv Hs Hg Hr Hsz Hk Hp. destruct (serve_spec defs types validate reqs s a Hv Hs Hg Hr Hsz) as (s' & -> & Hs').
  assert (∃ v' src', a_props (spec_serve producer validate reqs a).2 !! k = Some (v', src') ∧ src ≤ src' ∧
    (Forall (below k src) reqs → (v', src') = (v, src))) as (v' & src' & Hk' & Hle & Heq).
  { clear -Hk Hp. revert a v src Hk. induction Hp as [|r reqs Hp _ IH]; intros a v src Hk.
    { exists v, src. split_and!; [done|lia|done]. }
    cbn [spec_serve]. destruct (handle_priority validate r a k v src Hk Hp) as (v1 & src1 & Hk1 & Hle1 & Heq1).
    destruct (spec_handle producer validate r a) as [o a1]. simpl in Hk1.
    destruct (IH a1 v1 src1 Hk1) as (v2 & src2 & Hk2 & Hle2 & Heq2).
    destruct (spec_serve producer validate reqs a1) as [os a2]. simpl in *. exists v2, src2.
    split_and!; [done|lia|]. intros [Hb Hbs]%Forall_cons. specialize (Heq1 Hb). injection Heq1 as -> ->. by apply Heq2. }
  by exists (spec_serve producer validate reqs a).1, s', (spec_serve producer validate reqs a).2, v', src'.
Qed.

(** ** Restart and restore *)

(** The file after a write that worked. *)
Lemma written s es A sendEvent :
  pmodel s es A →
  ∃ s1, writeConfigFile always_saved isDelayTaskWaiting scheduleDelayTask sendEvent s = Ok (true, s1) ∧
    confVersion s1 = u64 (confVersion s + 1) ∧
    configFile s1 = Some (xmlDump (doc_of (confVersion s1) (file_props s es))).
Proof.
  intros Hs. destruct (write_spec always_saved isDelayTaskWaiting scheduleDelayTask s es A sendEvent Hs)
    as (s1 & -> & _ & _ & _ & V1 & F1). exists s1. split_and!; [done|done|by rewrite V1].
Qed.

(** C31: restarting.  When every key and value is printable ASCII text without
    & and < (xmlNodeSetContent takes those for markup) and every source is a
    32-bit number, a new process that starts with the file the service wrote
    holds every property with a non-empty key and value, with its value and
    source, completed by the directories and the defaults; its version is that
    of the file, or the next one if something had to be added -- which is the
    case whenever cpe.blacklistedDevices has its empty default value, since an
    empty value does not survive the file. *)
Theorem properties_survive_restart s A sendEvent configDir homeDir s0 :
  holds s A → map_Forall storable A → Z.of_nat (size A) ≤ 64000 → heap s0 = ∅ →
  let B := complete configDir homeDir (filter survives A) in
  ∃ s1 s2, writeConfigFile always_saved isDelayTaskWaiting scheduleDelayTask sendEvent s = Ok (true, s1) ∧
    initProperties producer saving isDelayTaskWaiting scheduleDelayTask configDir homeDir (configFile s1) s0
      = Ok (true, s2) ∧
    holds s2 B ∧ events s2 = events s0 ∧
    confVersion s2 = (if decide (B = filter survives A) then confVersion s1 else u64 (confVersion s1 + 1)) ∧
    (A !! str "cpe.blacklistedDevices" = Some (Some [], PROPERTY_SRC_DEFAULT) →
     confVersion s2 = u64 (confVersion s1 + 1)).
Proof.
  intros (es & Hs & Ho) HA Hsz Hh B. destruct (written s es A sendEvent Hs) as (s1 & Hw & V1 & F1).
  exists s1. unfold initProperties. rewrite F1. obind.
  assert (Hs0 : holds (set_map (set_version s0 0) km_create) ∅) by (by apply empty_holds).
  destruct (read_config_spec s es A (confVersion s1) (set_map (set_version s0 0) km_create) Hs HA)
    as (s2 & -> & Hs2 & V2 & E2); [rewrite V1; apply u64_range|exact Hs0|]. obind.
  pose proof (filter_size A) as Hf.
  destruct (fill_spec configDir homeDir s2 (filter survives A) Hs2) as (s3 & -> & Hs3 & E3 & V3 & V3'); [lia|].
  exists s3. rewrite V2 in *. split_and!; [done|done|done|by rewrite E3| |].
  - case_decide; auto.
  - intros Hb. apply V3'. intros Hc.
    assert (Hn : filter survives A !! str "cpe.blacklistedDevices" = None).
    { apply map_lookup_filter_None. right. intros d Hd. rewrite Hb in Hd. injection Hd as <-. intros [_ Hx]. done. }
    rewrite <-Hc in Hn. unfold complete in Hn. apply lookup_union_None in Hn as [_ Hn]. by vm_compute in Hn.
Qed.

(** Restoring.  restorePropConfig with a file written by a service that
    held [A] drops everything the store had, and leaves exactly the properties
    of the file that have a non-empty key and value, completed by the dynamic
    directory and the defaults.  Without a usable file it reports a failure
    and leaves the store empty: not even the defaults remain. *)
Theorem restore_replaces_everything s A t A' sendEvent dynamicDir :
  holds t A → map_Forall storable A → Z.of_nat (size A) ≤ 64000 → holds s A' →
  let dynamic := {[IC_DYNAMIC_DIR_PROP := (Some dynamicDir, PROPERTY_SRC_DEVICE)]} in
  (∃ t1 s1, writeConfigFile always_saved isDelayTaskWaiting scheduleDelayTask sendEvent t = Ok (true, t1) ∧
    restorePropConfig producer saving isDelayTaskWaiting scheduleDelayTask (configFile t1) dynamicDir s
      = Ok (true, s1) ∧
    holds s1 (filter survives A ∪ dynamic ∪ default_map) ∧
    confVersion s1 = u64 (confVersion t1 + 1) ∧ events s1 = events s) ∧
  (∃ s1, restorePropConfig producer saving isDelayTaskWaiting scheduleDelayTask None dynamicDir s = Ok (false, s1) ∧
    holds s1 ∅ ∧ confVersion s1 = confVersion s ∧ events s1 = events s).
Proof.
  intros (es & Ht & _) HA Hsz Hs dynamic. unfold restorePropConfig.
  destruct (clear_spec s A' Hs) as (gone & m' & -> & Hd & Hs1). obind. rewrite Hd.
  obind. set (s1 := set_heap _ ∅) in *. split; [|by exists s1].
  destruct (written t es A sendEvent Ht) as (t1 & Hw & V1 & F1). exists t1. rewrite F1.
  destruct (read_config_spec t es A (confVersion t1) s1 Ht HA) as (s2 & -> & Hs2 & V2 & E2);
    [rewrite V1; apply u64_range|done|]. obind. pose proof (filter_size A) as Hf.
  destruct (set_missing_spec producer s2 _ IC_DYNAMIC_DIR_PROP dynamicDir PROPERTY_SRC_DEVICE true Hs2 (proj1 dir_keys_ok))
    as (s3 & -> & Hs3 & V3 & _ & _ & E3); [lia|]. rewrite missing_union in Hs3. obind.
  pose proof (size_union_le (filter survives A) dynamic) as Hu. unfold dynamic in Hu. rewrite map_size_singleton in Hu.
  destruct (ensureDefaults_spec producer s3 _ Hs3) as (b & s4 & -> & Hs4 & (V4 & _ & _ & E4) & _); [lia|].
  obind.
  destruct (write_holds saving isDelayTaskWaiting scheduleDelayTask s4 _ false Hs4) as (s5 & -> & Hs5 & E5 & V5).
  obind. exists s5. rewrite app_nil_r in E3, E4. split_and!; [done|done|done|congruence|].
  rewrite E5, E4, E3, E2. done.
Qed.

(** ** Migration *)

Lemma pmodel_sources s es A :
  pmodel s es A → ∀ l h b, l ⊆ es.*2 → NoDup l → (∀ c, c ∈ es.*2 → is_Some (h !! c)) →
  foldM (λ c '(_, s), p ← of_option (heap s !! c);
           Ok (true, set_heap s (<[c := mkProp (p_key p) (p_value p) PROPERTY_SRC_DEFAULT]> (heap s)))) l
    (b, set_heap s h)
  = Ok (b || bool_decide (l ≠ []),
        set_heap s (map_imap (λ c p, Some (if decide (c ∈ l) then mkProp (p_key p) (p_value p) PROPERTY_SRC_DEFAULT else p)) h)).
Proof.
  intros Hs l. induction l as [|c l IH]; intros h b Hsub Hnd Hl.
  - simpl. rewrite orb_false_r. do 2 f_equal. f_equal. symmetry. apply map_eq. intros c. rewrite map_lookup_imap.
    by destruct (h !! c).
  - apply NoDup_cons in Hnd as [Hc Hnd]. cbn [foldM]. destruct (Hl c) as [p Hp]; [apply Hsub; by left|].
    cbn [set_heap heap]. rewrite Hp. oread.
    change (set_heap (set_heap s h) ?h') with (set_heap s h').
    rewrite IH; [|intros x Hx; apply Hsub; by right|done|].
    + rewrite orb_true_r. do 2 f_equal. f_equal. apply map_eq. intros c'. rewrite !map_lookup_imap.
      destruct (decide (c' = c)) as [->|Hne].
      * rewrite lookup_insert_eq, Hp. simpl. rewrite decide_False by done. rewrite decide_True by (by left). done.
      * rewrite lookup_insert_ne by done. destruct (h !! c') as [q|]; simpl; [|done]. f_equal.
        destruct (decide (c' ∈ l)); [by rewrite decide_True by (by right)|].
        rewrite decide_False; [done|]. by intros [?|?]%elem_of_cons.
    + intros c' Hc'. destruct (decide (c' = c)) as [->|Hne]; [by rewrite lookup_insert_eq|].
      rewrite lookup_insert_ne by done. by apply Hl.
Qed.

(** Migration from schema 0.  Every property keeps its key and value and
    gets the default source; no object is allocated or freed; a change is
    reported exactly when there is a property. *)
Theorem migrateFromSchemaZero_spec s A :
  holds s A →
  ∃ s', migrateFromSchemaZero s = Ok (bool_decide (A ≠ ∅), s') ∧
    holds s' ((λ d, (d.1, PROPERTY_SRC_DEFAULT)) <$> A) ∧ dom (heap s') = dom (heap s) ∧
    confVersion s' = confVersion s ∧ events s' = events s.
Proof.
  intros (es & Hs & Ho). unfold migrateFromSchemaZero. rewrite (km_foreach_law _ es) by apply Hs.
  assert (Hlive : ∀ c, c ∈ es.*2 → is_Some (heap s !! c)).
  { intros c (e & -> & Hin)%list_elem_of_fmap. destruct e as [k c].
    destruct (pm_live _ _ _ Hs k c Hin) as (_ & p & Hp & _). by exists p. }
  pose proof (pmodel_sources s es A Hs es.*2 (heap s) false ltac:(done) (pm_distinct _ _ _ Hs) Hlive) as Hf.
  assert (set_heap s (heap s) = s) as Hself by (by destruct s). rewrite Hself in Hf. rewrite Hf. clear Hf Hself.
  set (h' := map_imap _ (heap s)).
  assert (Hh' : ∀ c, h' !! c = (λ p, if decide (c ∈ es.*2)
      then mkProp (p_key p) (p_value p) PROPERTY_SRC_DEFAULT else p) <$> heap s !! c).
  { intros c. unfold h'. rewrite map_lookup_imap. by destruct (heap s !! c). }
  assert (Hdom : dom h' = dom (heap s)).
  { apply set_eq. intros c. rewrite !elem_of_dom, Hh'. by rewrite fmap_is_Some. }
  exists (set_heap s h'). split; [|split; [|done]].
  - f_equal. f_equal. simpl. apply bool_decide_ext. destruct (model_size _ _ _ Hs) as [Hsz _].
    destruct es as [|e es]; simpl in Hsz.
    + apply map_size_empty_inv in Hsz as ->. done.
    + split; [|done]. intros _ ->. by rewrite map_size_empty in Hsz.
  - exists es. split; [|unfold owned; simpl; by rewrite Hdom]. destruct Hs as [Hm Hd Hl HA]. split; simpl; [done|done| |].
    + intros k c Hin. destruct (Hl k c Hin) as (Hk & p & Hp & Hpk). split; [done|]. rewrite Hh', Hp. simpl.
      eexists. split; [done|]. by case_decide.
    + rewrite <-HA. apply map_eq. intros k. rewrite lookup_fmap, !view_lookup.
      destruct (list_to_map es !! k) as [c|] eqn:E; [|done]. simpl. f_equal. apply elem_of_list_to_map_2 in E.
      destruct (Hl k c E) as (_ & p & Hp & _). unfold pv. rewrite Hh', Hp. simpl.
      rewrite decide_True by (by eapply entry_addr). done.
Qed.

(** ** Branded defaults *)

(** Creating a property for a missing key and putting it into the map. *)
Lemma create_put_spec s A k v src :
  holds s A → key_ok k → A !! k = None → Z.of_nat (size A) < 65535 →
  let '(c, s1) := createProperty (Some k) v src s in
  ∃ m, km_put (propertyMap s1) k c = Ok (true, m) ∧ holds (set_map s1 m) (<[k := (v, src)]> A).
Proof.
  intros (es & Hs & Ho) Hk Hn Hsz. unfold createProperty. set (c := fresh (dom (heap s))).
  set (p := mkProp (Some k) v src). set (s1 := set_heap s _). pose proof (create_fresh s es A Hs) as Hfr. fold c in Hfr.
  assert (Hs1 : pmodel s1 es A).
  { apply pmodel_heap; [done|]. intros b Hb. rewrite lookup_insert_ne; [done|]. by intros ->. }
  assert (Hkn : k ∉ es.*1).
  { intros (e & -> & Hin)%list_elem_of_fmap. destruct e as [k b]. simpl in Hn.
    by rewrite (model_A s es A k Hs), (proj2 (entry_lookup s es A k b Hs) Hin) in Hn. }
  destruct (model_size _ _ _ Hs) as [Hsize _].
  destruct (km_put_new (propertyMap s1) es k c (pm_map _ _ _ Hs1) Hk Hkn) as (m' & es' & Hput & Hm' & Hp'); [lia|].
  exists m'. split; [done|]. exists es'. split.
  - change (v, src) with (pdata_of p). eapply (pmodel_put s1 es A k c p); try done. apply lookup_insert_eq.
  - apply (owned_perm _ ((k, c) :: es)); [|done]. unfold owned. simpl. by rewrite dom_insert_L, Ho.
Qed.

Lemma global_loop_spec l s A b :
  holds s A → Forall (λ e, key_ok e.1) l → Z.of_nat (size A) + zlen l ≤ 65535 →
  ∃ s', global_loop l b s = Ok (b || bool_decide (A ∪ defaults_of l ≠ A), s') ∧ holds s' (A ∪ defaults_of l) ∧
    confVersion s' = confVersion s ∧ events s' = events s.
Proof.
  intros Hs Hl. revert s A b Hs. induction Hl as [|[k v] l Hk _ IH]; intros s A b Hs Hsz.
  { exists s. unfold defaults_of. simpl. rewrite (right_id_L ∅ (∪)), bool_decide_false, orb_false_r by (intros Hx; by apply Hx).
    done. }
  cbn [global_loop]. simpl in Hsz, Hk. pose proof Hs as (es & Hm & _).
  rewrite (get_locked s es A k Hm Hk). obind. pose proof (model_A s es A k Hm) as HA.
  pose proof (defaults_union A k (Some v, PROPERTY_SRC_DEFAULT) (defaults_of l)) as HU.
  change (<[k := (Some v, PROPERTY_SRC_DEFAULT)]> (defaults_of l)) with (defaults_of ((k, v) :: l)) in HU.
  destruct (list_to_map es !! k) as [c|]; simpl in HA; rewrite HA in HU; rewrite <-HU.
  - apply IH; [done|lia].
  - pose proof (create_put_spec s A k (Some v) PROPERTY_SRC_DEFAULT Hs Hk HA ltac:(lia)) as Hc.
    destruct (createProperty (Some k) (Some v) PROPERTY_SRC_DEFAULT s) as [c s1] eqn:Ec. destruct Hc as (m & -> & Hs1).
    obind. pose proof (size_insert_le k (Some v, PROPERTY_SRC_DEFAULT) A).
    destruct (IH (set_map s1 m) _ true Hs1) as (s' & -> & Hs' & V' & E'); [lia|].
    unfold createProperty in Ec. injection Ec as _ <-.
    exists s'. rewrite (bool_decide_true (_ ≠ A)); [by rewrite orb_true_r|]. intros Hx.
    assert (Hk' : A !! k = Some (Some v, PROPERTY_SRC_DEFAULT)).
    { rewrite <-Hx. apply lookup_union_Some_l, lookup_insert_eq. }
    congruence.
Qed.

(** Branded defaults.  loadGlobalDefaults adds exactly the branded
    properties whose keys are missing, with the default source (the first
    pair of a repeated key counts), and changes no property that exists; the
    file is written, and its version counted, exactly when something was
    added, and no event is sent. *)
Theorem loadGlobalDefaults_spec s A branded :
  holds s A → Forall (λ e, key_ok e.1) branded → Z.of_nat (size A) + zlen branded ≤ 65535 →
  ∃ s', loadGlobalDefaults saving isDelayTaskWaiting scheduleDelayTask branded s = Ok s' ∧
    holds s' (A ∪ defaults_of branded) ∧ events s' = events s ∧
    confVersion s' = (if decide (A ∪ defaults_of branded = A) then confVersion s else u64 (confVersion s + 1)).
Proof.
  intros Hs Hk Hsz. unfold loadGlobalDefaults.
  destruct (global_loop_spec branded s A false Hs Hk Hsz) as (s1 & -> & Hs1 & V1 & E1). cbn [mbind outcome_bind orb].
  destruct (decide (A ∪ defaults_of branded = A)) as [E|E].
  - rewrite bool_decide_false by (intros Hx; by apply Hx). by exists s1.
  - rewrite bool_decide_true by done.
    destruct (write_holds saving isDelayTaskWaiting scheduleDelayTask s1 _ false Hs1) as (s2 & -> & Hs2 & E2 & V2).
    obind. exists s2. split_and!; [done|done|congruence|congruence].
Qed.

(** ** Shutdown *)

(** destroyProperties releases every property object of the service,
    each once, and forgets the pending backup task. *)
Lemma destroyProperties_releases s A :
  holds s A →
  ∃ s', destroyProperties s = Ok s' ∧ heap s' = ∅ ∧ holds s' ∅ ∧ backupTask s' = 0.
Proof.
  intros Hs. unfold destroyProperties. destruct (clear_spec s A Hs) as (gone & m' & -> & Hd & Hs').
  obind. rewrite Hd. obind. eexists. split; [done|]. case_decide as E.
  - split; [done|]. split; [|done]. by eauto with zilker.
  - by split_and!.
Qed.

(** ** The window in GET *)

(** Nothing happens when all defaults are present. *)
Lemma defaults_present l s es A b :
  pmodel s es A → Forall (λ e, key_ok e.1 ∧ is_Some (A !! e.1)) l → defaults_loop producer l b s = Ok (b, s).
Proof.
  intros Hs Hl. revert b. induction Hl as [|[k v] l [Hk [d Hd]] _ IH]; intros b; [done|].
  cbn [defaults_loop]. unfold set_missing. simpl in Hk, Hd. rewrite (get_locked s es A k Hs Hk).
  rewrite (model_A s es A k Hs) in Hd. destruct (list_to_map es !! k); [|done]. obind. apply IH.
Qed.

Lemma ensureDefaults_present s es A :
  pmodel s es A → default_map ⊆ A → ensureDefaults producer s = Ok (false, s).
Proof.
  intros Hs Hd. apply (defaults_present _ s es A); [done|].
  assert (Hall : Forall (λ e, key_ok e.1 ∧ is_Some (default_map !! e.1)) DEFAULT_PROPERTIES).
  { unfold key_ok. apply (bool_decide_unpack _). by vm_compute. }
  eapply Forall_impl; [exact Hall|]. intros e [Hk [d He]]. split; [done|]. exists d. by eapply lookup_weaken.
Qed.

(** GET is not atomic.  The handler copies the property through the
    pointer getProperty returned after PROP_MTX was released; if a delete of
    the same key is served in between (and no default has to be created
    again), the copy reads freed memory. *)
Theorem get_races_with_delete s A k d :
  holds s A → key_ok k → A !! k = Some d → default_map ⊆ delete k A →
  ∃ c s', get_lookup (Some k) s = Ok (Some c) ∧
    deleteProperty producer saving isDelayTaskWaiting scheduleDelayTask k s = Ok (true, s') ∧
    get_copy (Some k) (Some c) s' = Fault.
Proof.
  intros (es & Hs & Ho) Hk HA Hdef. pose proof (model_A s es A k Hs) as Hm. rewrite HA in Hm.
  destruct (list_to_map es !! k) as [c|] eqn:Ec; [|done]. exists c.
  unfold get_lookup. cbn [getProperty]. rewrite (get_locked s es A k Hs Hk), Ec.
  apply (entry_lookup s es A k c Hs) in Ec.
  destruct (km_delete_present (propertyMap s) es k c (pm_map _ _ _ Hs) Hk Ec) as (m' & es' & Hdel & Hm' & Hp).
  destruct (pmodel_remove s es A k c m' es' Hs Hm' Hp) as [Hs1 Hc].
  destruct (pm_live _ _ _ Hs k c Ec) as (_ & p & Hpc & _).
  unfold deleteProperty. rewrite Hdel. obind. unfold destroy_property. cbn [set_map heap].
  rewrite Hpc. oread. set (s2 := set_heap _ _).
  assert (Hs2 : pmodel s2 es' (delete k A)).
  { apply pmodel_heap; [done|]. intros b Hb. rewrite lookup_delete_ne; [done|]. by intros ->. }
  set (s3 := broadcastPropertyEvent _ _ _ _ _ _ s2).
  destruct (broadcast_fields producer GENERIC_PROP_DELETED k None (u64 (confVersion s2 + 1)) PROPERTY_SRC_DEVICE s2)
    as (Hh3 & Hm3 & _). fold s3 in Hh3, Hm3. assert (Hs3 : pmodel s3 es' (delete k A)) by (by eauto with zilker).
  rewrite (ensureDefaults_present s3 es' _ Hs3 Hdef). obind.
  destruct (write_spec saving isDelayTaskWaiting scheduleDelayTask s3 es' _ true Hs3) as (s4 & -> & Hh4 & _).
  obind. exists s4. split; [done|]. split; [done|]. cbn [get_copy].
  rewrite Hh4, Hh3. simpl. by rewrite lookup_delete_eq.
Qed.

End Theorems.

(** ** Witnesses: the service on the hash map, with XML trees *)

Definition wstate : Type := state (M := hash_map) (xml := tree).
Definition no_task (_ : Z) : bool := false.

Definition started : wstate := mkState ∅ km_create 0 0 [] None.

Definition volume : cstring := str "volume".
Definition volume_5 : gmap cstring pdata := {[volume := (Some (str "5"), 2)]}.

Lemma one_property : ∃ s : wstate, rep s (mkA volume_5 0 []).
Proof.
  destruct (set_new_spec true started ∅ volume (Some (str "5")) 2 false false) as (s & _ & Hs & V & _ & _ & E).
  - by apply empty_holds.
  - by vm_compute.
  - by rewrite map_size_empty.
  - exists s. split; [exact Hs|done].
Qed.

Lemma text_ok_dec k : bool_decide (strlen k ≤ 65535 ∧ NUL ∉ k) = true → text_ok k.
Proof. intros Hk. by apply bool_decide_eq_true in Hk. Qed.

Definition demo : list request :=
  [SET_CPE_PROPERTY (Some (mkProp (Some volume) (Some (str "5")) 2));
   SET_CPE_PROPERTY (Some (mkProp (Some volume) (Some (str "9")) 1));
   GET_CPE_PROPERTY (Some volume);
   DEL_CPE_PROPERTY (Some volume);
   COUNT_PROPERTIES; GET_FILE_VERSION].

Lemma demo_ok : Forall request_ok demo.
Proof. repeat constructor; by auto with zilker || by vm_compute. Qed.

Lemma properties_service_refinement_witness :
  ∃ s1 s2 : wstate,
    initProperties true always_saved no_task 7 (str "/opt/etc") (str "/vendor") None started = Ok (true, s1) ∧
    serve true always_saved no_task 7 ∅ None demo s1
    = Ok ([(IPC_SUCCESS, SetReply (PROPERTY_SET_OK, None));
           (IPC_GENERAL_ERROR, SetReply (PROPERTY_SET_GENERAL_ERROR, None));
           (IPC_SUCCESS, PropertyReply (mkProp (Some volume) (Some (str "5")) 2));
           (IPC_SUCCESS, NoReply);
           (IPC_SUCCESS, NumberReply 11); (IPC_SUCCESS, NumberReply 3)], s2).
Proof.
  destruct (properties_service_refinement true always_saved no_task 7 ∅ None
    (str "/opt/etc") (str "/vendor") demo started) as (s1 & s2 & H1 & H2 & _);
    [done|done|done|apply demo_ok|by vm_compute|].
  exists s1, s2. split; [exact H1|]. rewrite H2. by vm_compute.
Defined.

(** An entry of a bulk set may lack its value; the next get of the property
    calls strdup(NULL). *)
Example null_value_crashes_get :
  serve true always_saved no_task 7 ∅ None
    [SET_CPE_PROPERTIES_BULK [Some (mkProp (Some volume) None 2)]; GET_CPE_PROPERTY (Some volume)] started = Fault.
Proof. by vm_compute. Qed.

(** The source comes from the client, and is the index of a label for the log
    without a check. *)
Example unknown_source_crashes_set :
  serve true always_saved no_task 7 ∅ None [SET_CPE_PROPERTY (Some (mkProp (Some volume) (Some (str "5")) 4))] started = Fault.
Proof. by vm_compute. Qed.

Lemma property_priority_witness :
  ∃ (os : list response) (s s' : wstate) (a' : astate),
    serve true always_saved no_task 7 ∅ None [SET_CPE_PROPERTY (Some (mkProp (Some volume) (Some (str "9")) 1))] s = Ok (os, s') ∧
    a_props a' !! volume = Some (Some (str "5"), 2) ∧ rep s' a'.
Proof.
  destruct one_property as (s & Hs).
  destruct (property_priority true always_saved no_task 7 ∅ None (λ _ _, None)
    [SET_CPE_PROPERTY (Some (mkProp (Some volume) (Some (str "9")) 1))] s (mkA volume_5 0 []) volume (Some (str "5")) 2)
    as (os & s' & a' & v' & src' & H1 & H2 & H3 & _ & H5).
  - done.
  - exact Hs.
  - apply map_Forall_singleton. split; [by auto with zilker|done].
  - repeat constructor; by auto with zilker || by vm_compute.
  - by vm_compute.
  - apply lookup_singleton_eq.
  - repeat constructor.
  - exists os, s, s', a'. split; [done|]. rewrite H3. split; [|done]. f_equal. apply H5.
    repeat constructor; simpl; lia.
Defined.

Lemma volume_storable : map_Forall storable volume_5.
Proof. apply map_Forall_singleton. split_and!; [by apply plain_dec..|simpl; lia|simpl; lia]. Qed.

Lemma volume_survives : filter survives volume_5 = volume_5.
Proof. by vm_compute. Qed.

Lemma properties_survive_restart_witness :
  ∃ s s1 s2 : wstate,
    writeConfigFile always_saved no_task 7 true s = Ok (true, s1) ∧
    initProperties true always_saved no_task 7 (str "/opt/etc") (str "/vendor") (configFile s1) started = Ok (true, s2) ∧
    holds s2 (complete (str "/opt/etc") (str "/vendor") volume_5).
Proof.
  destruct one_property as (s & Hs & _ & _). simpl in Hs.
  destruct (properties_survive_restart true always_saved no_task 7 s volume_5 true (str "/opt/etc") (str "/vendor") started)
    as (s1 & s2 & H1 & H2 & H3 & _); [done|apply volume_storable|by vm_compute|done|].
  exists s, s1, s2. rewrite volume_survives in H3. done.
Defined.

Lemma restore_replaces_everything_witness :
  ∃ t t1 s1 : wstate,
    writeConfigFile always_saved no_task 7 true t = Ok (true, t1) ∧
    restorePropConfig true always_saved no_task 7 (configFile t1) (str "/opt") started = Ok (true, s1) ∧
    holds s1 (volume_5 ∪ {[IC_DYNAMIC_DIR_PROP := (Some (str "/opt"), PROPERTY_SRC_DEVICE)]} ∪ default_map).
Proof.
  destruct one_property as (t & Ht & _ & _). simpl in Ht.
  destruct (restore_replaces_everything true always_saved no_task 7 started volume_5 t ∅ true (str "/opt"))
    as [(t1 & s1 & H1 & H2 & H3 & _) _]; [done|apply volume_storable|by vm_compute|by apply empty_holds|].
  exists t, t1, s1. rewrite volume_survives in H3. done.
Defined.

Lemma migrateFromSchemaZero_spec_witness :
  ∃ s s' : wstate, migrateFromSchemaZero s = Ok (true, s') ∧
    holds s' {[volume := (Some (str "5"), PROPERTY_SRC_DEFAULT)]}.
Proof.
  destruct one_property as (s & Hs & _ & _). simpl in Hs.
  destruct (migrateFromSchemaZero_spec s volume_5 Hs) as (s' & H1 & H2 & _). exists s, s'.
  split; [exact H1|]. unfold volume_5 in H2. by rewrite map_fmap_singleton in H2.
Defined.

Lemma loadGlobalDefaults_spec_witness :
  ∃ s s' : wstate,
    loadGlobalDefaults always_saved no_task 7 [(volume, str "7"); (str "brand", str "x")] s = Ok s' ∧
    holds s' (volume_5 ∪ defaults_of [(volume, str "7"); (str "brand", str "x")]).
Proof.
  destruct one_property as (s & Hs & _ & _). simpl in Hs.
  destruct (loadGlobalDefaults_spec always_saved no_task 7 s volume_5 [(volume, str "7"); (str "brand", str "x")])
    as (s' & H1 & H2 & _); [done|by repeat constructor|by vm_compute|]. by exists s, s'.
Defined.

Lemma get_races_with_delete_witness :
  ∃ (s s' : wstate) (c : addr),
    get_lookup (Some volume) s = Ok (Some c) ∧
    deleteProperty true always_saved no_task 7 volume s = Ok (true, s') ∧ get_copy (Some volume) (Some c) s' = Fault.
Proof.
  destruct one_property as (s0 & Hs0 & _ & _). simpl in Hs0.
  destruct (ensureDefaults_spec true s0 volume_5 Hs0) as (b & s & _ & Hs & _); [by vm_compute|].
  destruct (get_races_with_delete true always_saved no_task 7 s (volume_5 ∪ default_map) volume (Some (str "5"), 2))
    as (c & s' & H1 & H2 & H3); [done|by vm_compute|by vm_compute| |by exists s, s', c].
  apply (bool_decide_unpack _). by vm_compute.
Defined.

End PropsTheorems.
