(* ===== verification/OwnedMap.v ===== *)
(** * Maps that own their objects

    Several maps of the services hold structures nobody else keeps: they are
    allocated right before hashMapPut, never changed, and released by the
    deletion helper (the Locators of the device database, the strings of a
    string map).  [owned M V] is such a map of [V] structures over any map [M]
    of pointers; its laws follow from those of [M] once and for all. *)

From S2P Require Import Prelude HashMap HashMapIter KeyMap.
Import HashMap MapIter KeyMap.

Module OwnedMap.

Record owned (M V : Type) := mkOwned { om_map : M; om_objs : gmap addr V }.
Arguments mkOwned {M V}.
Arguments om_map {M V}.
Arguments om_objs {M V}.

Section Owned.
Context {M V : Type} `{KeyMap M addr}.
Implicit Types (c : owned M V) (objs : gmap addr V).

Definition object objs (a : addr) : outcome V := of_option (objs !! a).

Lemma object_Some objs a v : objs !! a = Some v → object objs a = Ok v.
Proof. unfold object. by intros ->. Qed.

Fixpoint objects objs (l : list addr) : outcome (list V) :=
  match l with
  | [] => Ok []
  | a :: l => v ← object objs a; vs ← objects objs l; Ok (v :: vs)
  end.

#[global] Instance owned_key_map : KeyMap (owned M V) V := {
  km_create := mkOwned km_create ∅;
  km_get c k :=
    a ← km_get (om_map c) k;
    match a with None => Ok None | Some a => v ← object (om_objs c) a; Ok (Some v) end;
  km_contains c k := km_contains (om_map c) k;
  km_put c k v :=
    let a := fresh (dom (om_objs c)) in
    '(ok, m) ← km_put (om_map c) k a;
    Ok (ok, mkOwned m (if ok : bool then <[a := v]> (om_objs c) else om_objs c));
  km_delete c k :=
    '(a, m) ← km_delete (om_map c) k;
    match a with
    | None => Ok (None, mkOwned m (om_objs c))
    | Some a => v ← object (om_objs c) a; Ok (Some v, mkOwned m (delete a (om_objs c)))
    end;
  km_clear c :=
    '(l, m) ← km_clear (om_map c);
    vs ← objects (om_objs c) l; Ok (vs, mkOwned m ∅);
  km_count c := km_count (om_map c);
  km_foreach S c body s :=
    km_foreach (om_map c) (λ a s, v ← object (om_objs c) a; body v s) s;
  km_iterate S c body s :=
    km_iterate (om_map c) (λ k a s, v ← object (om_objs c) a; body k v s) s;
  km_scan S c body s :=
    '(r, m) ← km_scan (om_map c) (λ a (r : S * gmap addr V),
       v ← object (om_objs c) a; '(vd, s) ← body v r.1;
       Ok (vd, (s, if v_delete vd then delete a r.2 else r.2))) (s, om_objs c);
    Ok (r.1, mkOwned m r.2)
}.

Context `{!KeyMapLaws M addr}.

(** The pairs [es] of the map, with the addresses [ps] of the objects. *)
Record owns c (ps : list (cstring * addr)) (es : list (cstring * V)) : Prop := {
  own_map : km_model (om_map c) ps;
  own_nodup : NoDup ps.*2;
  own_objs : (λ e, (e.1, om_objs c !! e.2)) <$> ps = with_value <$> es
}.

Definition owned_model c es : Prop := ∃ ps, owns c ps es.

Lemma owns_keys c ps es : owns c ps es → ps.*1 = es.*1.
Proof.
  intros Ho. pose proof (own_objs _ _ _ Ho) as He. apply (f_equal (fmap fst)) in He.
  rewrite with_value_keys, <-list_fmap_compose in He. done.
Qed.

Lemma owns_length c ps es : owns c ps es → length ps = length es.
Proof. intros Ho. apply owns_keys, (f_equal length) in Ho. by rewrite !length_fmap in Ho. Qed.

Lemma owns_elem c ps es k a : owns c ps es → (k, a) ∈ ps → ∃ v, om_objs c !! a = Some v ∧ (k, v) ∈ es.
Proof.
  intros [_ _ He] Hin. apply (list_elem_of_fmap_2 (λ e, (e.1, om_objs c !! e.2))) in Hin. rewrite He in Hin.
  apply list_elem_of_fmap in Hin as ([k' v] & [= -> Hv] & Hin). by exists v.
Qed.

Lemma owns_elem_inv c ps es k v : owns c ps es → (k, v) ∈ es → ∃ a, om_objs c !! a = Some v ∧ (k, a) ∈ ps.
Proof.
  intros [_ _ He] Hin. apply (list_elem_of_fmap_2 with_value) in Hin. rewrite <-He in Hin.
  apply list_elem_of_fmap in Hin as ([k' a] & [= -> Hv] & Hin). by exists a.
Qed.

Lemma owns_fresh c ps es : owns c ps es → fresh (dom (om_objs c)) ∉ ps.*2.
Proof.
  intros Ho Hin. apply list_elem_of_fmap in Hin as ([k a] & Ha & Hin). simpl in Ha.
  destruct (owns_elem _ _ _ _ _ Ho Hin) as (v & Hv & _). apply (is_fresh (dom (om_objs c))).
  rewrite Ha. by apply elem_of_dom.
Qed.

(** The objects of pairs other than the changed one stay the same. *)
Lemma objs_insert objs a v (ps : list (cstring * addr)) :
  a ∉ ps.*2 → (λ e, (e.1, <[a := v]> objs !! e.2)) <$> ps = (λ e, (e.1, objs !! e.2)) <$> ps.
Proof.
  intros Ha. apply list_fmap_ext. intros i [k b] Hi. simpl. f_equal. apply lookup_insert_ne. intros ->.
  apply Ha. apply list_elem_of_lookup_2 in Hi. by apply (list_elem_of_fmap_2 snd) in Hi.
Qed.

Lemma objs_delete objs a (ps : list (cstring * addr)) :
  a ∉ ps.*2 → (λ e, (e.1, delete a objs !! e.2)) <$> ps = (λ e, (e.1, objs !! e.2)) <$> ps.
Proof.
  intros Ha. apply list_fmap_ext. intros i [k b] Hi. simpl. f_equal. apply lookup_delete_ne. intros ->.
  apply Ha. apply list_elem_of_lookup_2 in Hi. by apply (list_elem_of_fmap_2 snd) in Hi.
Qed.

Lemma owned_get c es k : owned_model c es → key_ok k →
  km_get c k = Ok ((list_to_map es : gmap cstring V) !! k).
Proof.
  intros (ps & Ho) Hk. pose proof (km_nodup _ _ (own_map _ _ _ Ho)) as Hnd. simpl.
  rewrite (km_get_law _ ps) by (done || apply Ho). obind.
  destruct (list_to_map ps !! k) as [a|] eqn:E.
  - apply elem_of_list_to_map in E; [|done]. destruct (owns_elem _ _ _ _ _ Ho E) as (v & Hv & Hin).
    rewrite (object_Some _ _ _ Hv). simpl. f_equal. symmetry. apply elem_of_list_to_map; [|done].
    by rewrite <-(owns_keys _ _ _ Ho).
  - apply not_elem_of_list_to_map in E. f_equal. symmetry. apply not_elem_of_list_to_map.
    by rewrite <-(owns_keys _ _ _ Ho).
Qed.

Lemma owned_put c es k v : owned_model c es → key_ok k → k ∉ es.*1 → zlen es < 65535 →
  ∃ c' es', km_put c k v = Ok (true, c') ∧ owned_model c' es' ∧ es' ≡ₚ (k, v) :: es.
Proof.
  intros (ps & Ho) Hk Hn Hl. simpl. set (a := fresh (dom (om_objs c))).
  destruct (km_put_new (om_map c) ps k a) as (m & ps' & -> & Hm & Hp);
    [apply Ho|done|by rewrite (owns_keys _ _ _ Ho)|by rewrite (owns_length _ _ _ Ho)|].
  pose proof (owns_fresh _ _ _ Ho) as Hf. fold a in Hf.
  assert (Hperm : (λ e, (e.1, <[a := v]> (om_objs c) !! e.2)) <$> ps' ≡ₚ (k, Some v) :: (with_value <$> es)).
  { rewrite Hp. simpl. rewrite lookup_insert_eq, objs_insert, (own_objs _ _ _ Ho) by done. done. }
  apply perm_with_value in Hperm as (es' & He & Hp'). eexists _, es'. split; [done|]. split; [|done].
  exists ps'. split; [done| |done]. rewrite Hp. simpl. constructor; [done|apply Ho].
Qed.

Lemma owned_delete c es k v : owned_model c es → key_ok k → (k, v) ∈ es →
  ∃ c' es', km_delete c k = Ok (Some v, c') ∧ owned_model c' es' ∧ es ≡ₚ (k, v) :: es'.
Proof.
  intros (ps & Ho) Hk Hin. destruct (owns_elem_inv _ _ _ _ _ Ho Hin) as (a & Ha & Hina). simpl.
  destruct (km_delete_present (om_map c) ps k a) as (m & ps' & -> & Hm & Hp); [apply Ho|done|done|].
  simpl. unfold object. rewrite Ha. simpl.
  assert (Hnd : NoDup (a :: ps'.*2)) by (pose proof (own_nodup _ _ _ Ho) as Hn; by rewrite Hp in Hn).
  apply NoDup_cons in Hnd as [Hna Hnd].
  assert (Hperm : with_value <$> es ≡ₚ (k, Some v) :: ((λ e, (e.1, om_objs c !! e.2)) <$> ps')).
  { rewrite <-(own_objs _ _ _ Ho), Hp. simpl. by rewrite Ha. }
  symmetry in Hperm. apply Permutation_map_inv in Hperm as ([|[k0 v0] es0] & He & Hp0); [done|].
  simpl in He. injection He as <- <- He. eexists _, es0. split; [done|]. split; [|by symmetry].
  exists ps'. split; [done|done|]. simpl. by rewrite objs_delete.
Qed.

Lemma owned_objects c ps es : owns c ps es → objects (om_objs c) ps.*2 = Ok es.*2.
Proof.
  intros [_ _ He]. revert es He. induction ps as [|[k a] ps IH]; intros [|[k' v] es] He; try done.
  rewrite !fmap_cons in He. injection He as Hk Hv He. cbn [fmap list_fmap objects snd]. simpl in Hv. rewrite (object_Some _ _ _ Hv).
  oread. fold (ps.*2). by rewrite (IH es He).
Qed.

Lemma owned_foldM {S} objs (ps : list (cstring * addr)) (es : list (cstring * V)) (f : cstring → V → S → outcome S) s :
  (λ e, (e.1, objs !! e.2)) <$> ps = with_value <$> es →
  foldM (λ e s, v ← object objs e.2; f e.1 v s) ps s = foldM (λ e, f e.1 e.2) es s.
Proof.
  revert es s. induction ps as [|[k a] ps IH]; intros [|[k' v] es] s He; try done.
  rewrite !fmap_cons in He. injection He as Hk Hv He. simpl in Hk, Hv. cbn [foldM fst snd]. rewrite (object_Some _ _ _ Hv).
  oread. rewrite Hk. destruct (f k' v s) as [s'| |]; obind; [|done..]. by apply IH.
Qed.

Lemma owned_scan {S} objs (ps : list (cstring * addr)) (es keep : list (cstring * V))
    (body : V → S → outcome (verdict * S)) os s s' :
  NoDup ps.*2 → (λ e, (e.1, objs !! e.2)) <$> ps = with_value <$> es →
  (∀ a, a ∈ ps.*2 → os !! a = objs !! a) → scan_pairs body es s = Ok (s', keep) →
  ∃ os' psk, scan_pairs (λ a (r : S * gmap addr V),
       v ← object objs a; '(vd, s) ← body v r.1;
       Ok (vd, (s, if v_delete vd then delete a r.2 else r.2))) ps (s, os) = Ok ((s', os'), psk) ∧
    psk `sublist_of` ps ∧ (λ e, (e.1, os' !! e.2)) <$> psk = with_value <$> keep ∧
    (∀ a, a ∉ ps.*2 → os' !! a = os !! a).
Proof.
  revert es keep os s. induction ps as [|[k a] ps IH]; intros [|[k' v] es] keep os s Hnd He Hos Hs; try done.
  { simpl in Hs. injection Hs as -> <-. exists os, []. by repeat split. }
  rewrite !fmap_cons in He. injection He as Hk Hv He. cbn [fmap list_fmap snd] in Hnd.
  apply NoDup_cons in Hnd as [Ha Hnd]. cbn [scan_pairs snd] in Hs |- *. simpl in Hv. rewrite (object_Some _ _ _ Hv).
  simpl in Hs |- *. destruct (body v s) as [[vd s1]| |]; simpl in Hs |- *; [|done..].
  set (os1 := if v_delete vd then delete a os else os).
  assert (Hos1 : ∀ b, b ∈ ps.*2 → os1 !! b = objs !! b).
  { intros b Hb. rewrite <-Hos by (by right). unfold os1. destruct (v_delete vd); [|done].
    apply lookup_delete_ne. intros ->. done. }
  apply bind_Ok in Hs as ([s2 k2] & H2 & Hs). injection Hs as -> <-.
  assert (∃ os' psk, (if v_stop vd then Ok ((s1, os1), ps) else scan_pairs (λ a (r : S * gmap addr V),
       v ← object objs a; '(vd, s) ← body v r.1;
       Ok (vd, (s, if v_delete vd then delete a r.2 else r.2))) ps (s1, os1)) = Ok ((s', os'), psk) ∧
    psk `sublist_of` ps ∧ (λ e, (e.1, os' !! e.2)) <$> psk = with_value <$> k2 ∧
    (∀ a, a ∉ ps.*2 → os' !! a = os1 !! a)) as (os' & psk & -> & Hsub & Hk2 & Hout).
  { destruct (v_stop vd); [|by apply (IH es)]. injection H2 as -> <-. exists os1, ps. repeat split; [done|].
    rewrite <-He. apply list_fmap_ext. intros i [k1 b] Hi. simpl. f_equal. apply Hos1.
    apply list_elem_of_lookup_2 in Hi. by apply (list_elem_of_fmap_2 snd) in Hi. }
  simpl. eexists os', _. split; [done|].
  assert (Hsame : ∀ b, b ∉ a :: ps.*2 → os' !! b = os !! b).
  { intros b [Hb1 Hb2]%not_elem_of_cons. rewrite Hout by done. unfold os1. destruct (v_delete vd); [|done].
    by apply lookup_delete_ne. }
  unfold os1 in *. destruct (v_delete vd).
  - split; [by constructor|]. done.
  - split; [by constructor|]. split; [|done]. rewrite !fmap_cons. f_equal; [|done]. simpl.
    rewrite Hout by done. rewrite Hos by (by left). by rewrite Hk, Hv.
Qed.

#[global] Instance owned_key_map_laws : KeyMapLaws (owned M V) V.
Proof.
  refine {| km_model := owned_model |}.
  - intros c es (ps & Ho). rewrite <-(owns_keys _ _ _ Ho). apply (km_nodup _ _ (own_map _ _ _ Ho)).
  - intros c es (ps & Ho). simpl. rewrite <-(owns_length _ _ _ Ho). apply (km_model_count _ _ (own_map _ _ _ Ho)).
  - exists []. split; [apply km_create_law|constructor|done].
  - apply owned_get.
  - intros c es k (ps & Ho) Hk. simpl. rewrite <-(owns_keys _ _ _ Ho). apply km_contains_law; [apply Ho|done].
  - apply owned_put.
  - intros c es k v (ps & Ho) Hk Hin. simpl. rewrite (km_put_old _ ps); [|apply Ho|done|by rewrite (owns_keys _ _ _ Ho)].
    simpl. by destruct c.
  - intros c es k (ps & Ho) Hk Hin. simpl.
    rewrite (km_delete_absent _ ps); [|apply Ho|done|by rewrite (owns_keys _ _ _ Ho)]. simpl. by destruct c.
  - apply owned_delete.
  - intros c es (ps & Ho). simpl. destruct (km_clear_law _ _ (own_map _ _ _ Ho)) as (m & -> & Hm). simpl.
    rewrite (owned_objects _ _ _ Ho). simpl. eexists. split; [done|]. exists []. by split; [|constructor|].
  - intros S c es body s (ps & Ho). simpl. rewrite (km_foreach_law _ _ _ _ (own_map _ _ _ Ho)).
    rewrite <-foldM_values, <-foldM_values. by apply (owned_foldM _ _ _ (λ _, body)), (own_objs _ _ _ Ho).
  - intros S c es body s (ps & Ho). simpl. rewrite (km_iterate_law _ _ _ _ (own_map _ _ _ Ho)).
    apply (owned_foldM _ _ _ body), (own_objs _ _ _ Ho).
  - intros S c es body s s' keep (ps & Ho) Hs. simpl.
    destruct (owned_scan (om_objs c) ps es keep body (om_objs c) s s') as (os' & psk & Hsp & Hsub & Hk & _);
      [apply Ho|apply Ho|done|done|].
    destruct (km_scan_law _ _ _ _ _ _ (own_map _ _ _ Ho) Hsp) as (m' & -> & Hm'). simpl. eexists. split; [done|].
    exists psk. split; [done| |done]. eapply sublist_NoDup; [apply Ho|by apply fmap_sublist].
Qed.

End Owned.
End OwnedMap.
