(* ===== verification/Json.v ===== *)
(** * JSON documents: cJSON and the helpers of libs/json

    cJSON is a library the repository links to: [Json] lists the functions the
    device service calls, [JsonLaws] their documented behaviour, stated about
    the [contents] of a cJSON item: objects keep their members in the order
    they were added, cJSON_GetObjectItem finds the first member whose name
    agrees up to case, adding a NULL string adds nothing or a null, printing a
    document that is not nested deeper than CJSON_NESTING_LIMIT and parsing
    the text gives the same contents.  Models
    src/source/libs/json/c/src/jsonHelper.c over that interface.

    Numbers are C doubles: finite ones are [m * 2^e]; the conversions between
    them and the integer types are written out. *)

From S2P Require Import Prelude.

Module Json.

(** ** Doubles *)

Record double := mkDouble { d_mant : Z; d_exp : Z }.

#[global] Instance double_eq_dec : EqDecision double.
Proof. solve_decision. Defined.

(** The integer part, rounded towards zero. *)
Definition d_trunc (d : double) : Z :=
  if decide (0 ≤ d_exp d) then d_mant d * 2 ^ d_exp d else Z.quot (d_mant d) (2 ^ (- d_exp d)).

(** A non-negative integer rounded to 53 significant bits, ties to even. *)
Definition round53 (z : Z) : Z :=
  let e := Z.log2 z - 52 in
  if decide (e ≤ 0) then z else
  let q := z / 2 ^ e in
  let r := z mod 2 ^ e in
  let half := 2 ^ (e - 1) in
  (if decide (r < half) then q
   else if decide (half < r) then q + 1
   else if Z.even q then q else q + 1) * 2 ^ e.

Definition double_of_u64 (z : Z) : double := mkDouble (round53 z) 0.
Definition double_of_int (z : Z) : double := mkDouble z 0.

(** Converting a double out of the range of the integer type is undefined. *)
Definition u64_of_double (d : double) : outcome Z :=
  if decide (0 ≤ d_trunc d < 18446744073709551616) then Ok (d_trunc d) else Fault.

(** What cJSON keeps as the integer of a number: saturated to int. *)
Definition int_of_double (d : double) : Z :=
  Z.max (-2147483648) (Z.min 2147483647 (d_trunc d)).

(** ** Contents of a document *)

Inductive jval :=
  | JNull
  | JBool (b : bool)
  | JNumber (d : double)
  | JString (s : cstring)
  | JArray (l : list jval)
  | JObject (l : list (cstring * jval)).

(** Names are compared byte by byte after tolower. *)
Definition tolower (b : byte) : byte :=
  let z := byteZ b in
  if decide (65 ≤ z ≤ 90) then ascii_of_N (Z.to_N (z + 32)) else b.

Definition same_name (a b : cstring) : Prop := tolower <$> a = tolower <$> b.
#[global] Instance same_name_dec a b : Decision (same_name a b) := decide (tolower <$> a = tolower <$> b).

Fixpoint member (k : cstring) (ms : list (cstring * jval)) : option jval :=
  match ms with
  | [] => None
  | (k', v) :: ms => if decide (same_name k' k) then Some v else member k ms
  end.

(** How deeply arrays and objects are nested. *)
Fixpoint depth (j : jval) : nat :=
  match j with
  | JArray l => S (foldr (λ j, Nat.max (depth j)) 0%nat l)
  | JObject l => S (foldr (λ m, Nat.max (depth m.2)) 0%nat l)
  | _ => 0%nat
  end.

Definition CJSON_NESTING_LIMIT : nat := 1000.

Definition is_object (j : jval) : bool := match j with JObject _ => true | _ => false end.

(** ** The interface of cJSON *)

Class Json (json : Type) := {
  cJSON_CreateObject : json;
  (* the calls that add a member: the object after the call; a string may be NULL *)
  cJSON_AddStringToObject : json → cstring → option cstring → json;
  cJSON_AddNumberToObject : json → cstring → double → json;
  cJSON_AddBoolToObject : json → cstring → bool → json;
  cJSON_AddItemToObject : json → option cstring → json → json;
  cJSON_GetObjectItem : json → cstring → option json;
  cJSON_GetArraySize : json → Z;
  cJSON_GetArrayItem : json → Z → option json;
  cJSON_IsString : json → bool;
  cJSON_IsNumber : json → bool;
  cJSON_IsBool : json → bool;
  cJSON_IsTrue : json → bool;
  cJSON_IsObject : json → bool;
  cJSON_string : json → option cstring;
  cJSON_valuestring : json → option cstring;
  cJSON_valueint : json → Z;
  cJSON_valuedouble : json → double;
  cJSON_Parse : option cstring → option json;
  cJSON_Print : json → option cstring
}.

Class JsonLaws (json : Type) `{Json json} := {
  contents : json → jval;
  create_contents : contents cJSON_CreateObject = JObject [];
  add_string o ms k s : contents o = JObject ms →
    contents (cJSON_AddStringToObject o k (Some s)) = JObject (ms ++ [(k, JString s)]);
  add_null o ms k : contents o = JObject ms →
    ∃ x, contents (cJSON_AddStringToObject o k None) = JObject (ms ++ x) ∧ (x = [] ∨ x = [(k, JNull)]);
  add_number o ms k d : contents o = JObject ms →
    contents (cJSON_AddNumberToObject o k d) = JObject (ms ++ [(k, JNumber d)]);
  add_bool o ms k b : contents o = JObject ms →
    contents (cJSON_AddBoolToObject o k b) = JObject (ms ++ [(k, JBool b)]);
  add_item o ms k v : contents o = JObject ms →
    contents (cJSON_AddItemToObject o (Some k) v) = JObject (ms ++ [(k, contents v)]);
  get_item o ms k : contents o = JObject ms → contents <$> cJSON_GetObjectItem o k = member k ms;
  array_size o ms : contents o = JObject ms → cJSON_GetArraySize o = zlen ms;
  array_item o ms i : contents o = JObject ms → 0 ≤ i →
    (λ j, (cJSON_string j, contents j)) <$> cJSON_GetArrayItem o i
    = (λ m, (Some m.1, m.2)) <$> ms !! Z.to_nat i;
  is_string j : cJSON_IsString j = match contents j with JString _ => true | _ => false end;
  string_text j s : contents j = JString s → cJSON_valuestring j = Some s;
  is_number j : cJSON_IsNumber j = match contents j with JNumber _ => true | _ => false end;
  number_value j d : contents j = JNumber d →
    cJSON_valuedouble j = d ∧ cJSON_valueint j = int_of_double d;
  is_bool j : cJSON_IsBool j = match contents j with JBool _ => true | _ => false end;
  is_true j : cJSON_IsTrue j = match contents j with JBool b => b | _ => false end;
  is_object_item j : cJSON_IsObject j = is_object (contents j);
  parse_null : cJSON_Parse None = None;
  parse_depth t j : cJSON_Parse (Some t) = Some j → (depth (contents j) ≤ CJSON_NESTING_LIMIT)%nat;
  (* printing looks at the contents only; the text of a document parses back *)
  print_contents j j' : contents j = contents j' → cJSON_Print j = cJSON_Print j';
  print_some j : ∃ t, cJSON_Print j = Some t ∧ t ≠ [];
  parse_print j t : (depth (contents j) ≤ CJSON_NESTING_LIMIT)%nat → cJSON_Print j = Some t →
    ∃ j', cJSON_Parse (Some t) = Some j' ∧ contents j' = contents j
}.

(** ** jsonHelper.c

    An output parameter is an argument with its old value and a result. *)

Section Helpers.
Context {json : Type} `{Json json}.

Definition getCJSONString (j : json) (key : cstring) : outcome (option cstring) :=
  match cJSON_GetObjectItem j key with
  | Some v => if cJSON_IsString v then s ← of_option (cJSON_valuestring v); Ok (Some s) else Ok None
  | None => Ok None
  end.

Definition getCJSONInt (j : json) (key : cstring) (value : Z) : bool * Z :=
  match cJSON_GetObjectItem j key with
  | Some v => if cJSON_IsNumber v then (true, cJSON_valueint v) else (false, value)
  | None => (false, value)
  end.

Definition getCJSONDouble (j : json) (key : cstring) (value : double) : bool * double :=
  match cJSON_GetObjectItem j key with
  | Some v => if cJSON_IsNumber v then (true, cJSON_valuedouble v) else (false, value)
  | None => (false, value)
  end.

Definition getCJSONBool (j : json) (key : cstring) (value : bool) : bool * bool :=
  match cJSON_GetObjectItem j key with
  | Some v => if cJSON_IsBool v then (true, cJSON_IsTrue v) else (false, value)
  | None => (false, value)
  end.

(** What the helpers return on an object with known members. *)
Context `{!JsonLaws json}.

Definition text_of (v : option jval) : option cstring :=
  match v with Some (JString s) => Some s | _ => None end.

Lemma getCJSONString_spec j ms k : contents j = JObject ms → getCJSONString j k = Ok (text_of (member k ms)).
Proof.
  intros Hj. unfold getCJSONString. pose proof (get_item j ms k Hj) as Hg.
  destruct (cJSON_GetObjectItem j k) as [v|]; simpl in Hg; [|by rewrite <-Hg].
  rewrite is_string, <-Hg. destruct (contents v) eqn:E; try done. by rewrite (string_text v s).
Qed.

Lemma getCJSONInt_spec j ms k d : contents j = JObject ms →
  getCJSONInt j k d = match member k ms with
                      | Some (JNumber x) => (true, int_of_double x)
                      | _ => (false, d) end.
Proof.
  intros Hj. unfold getCJSONInt. pose proof (get_item j ms k Hj) as Hg.
  destruct (cJSON_GetObjectItem j k) as [v|]; simpl in Hg; [|by rewrite <-Hg].
  rewrite is_number, <-Hg. destruct (contents v) eqn:E; try done. by rewrite (proj2 (number_value v d0 E)).
Qed.

Lemma getCJSONDouble_spec j ms k d : contents j = JObject ms →
  getCJSONDouble j k d = match member k ms with
                         | Some (JNumber x) => (true, x)
                         | _ => (false, d) end.
Proof.
  intros Hj. unfold getCJSONDouble. pose proof (get_item j ms k Hj) as Hg.
  destruct (cJSON_GetObjectItem j k) as [v|]; simpl in Hg; [|by rewrite <-Hg].
  rewrite is_number, <-Hg. destruct (contents v) eqn:E; try done. by rewrite (proj1 (number_value v d0 E)).
Qed.

Lemma getCJSONBool_spec j ms k b : contents j = JObject ms →
  getCJSONBool j k b = match member k ms with
                       | Some (JBool x) => (true, x)
                       | _ => (false, b) end.
Proof.
  intros Hj. unfold getCJSONBool. pose proof (get_item j ms k Hj) as Hg.
  destruct (cJSON_GetObjectItem j k) as [v|]; simpl in Hg; [|by rewrite <-Hg].
  rewrite is_bool, is_true, <-Hg. by destruct (contents v).
Qed.

End Helpers.

(** ** Arithmetic of the conversions *)

Lemma round53_exact z : 0 ≤ z ≤ 2 ^ 53 → round53 z = z.
Proof.
  intros Hz. unfold round53. destruct (decide (z = 2 ^ 53)) as [->|Hne]; [reflexivity|].
  case_decide as He; [done|]. exfalso. apply He.
  destruct (decide (z = 0)) as [->|]; [done|].
  enough (Z.log2 z < 53) by lia. apply Z.log2_lt_pow2; lia.
Qed.

Lemma u64_of_double_of_u64 z : 0 ≤ z ≤ 2 ^ 53 → u64_of_double (double_of_u64 z) = Ok z.
Proof.
  intros Hz. unfold u64_of_double, double_of_u64, d_trunc. simpl. rewrite round53_exact by done.
  rewrite Z.mul_1_r. by rewrite decide_True by lia.
Qed.

Lemma int_of_double_of_int z : -2147483648 ≤ z ≤ 2147483647 → int_of_double (double_of_int z) = z.
Proof. intros Hz. unfold int_of_double, double_of_int, d_trunc. simpl. lia. Qed.

End Json.
