(* ===== verification/DeviceModel.v ===== *)
(** * The device model: devices, endpoints, resources and metadata

    Models src/source/services/device/core/src/device/icDevice.c,
    icDeviceEndpoint.c, icDeviceResource.c, icDeviceMetadata.c and
    serial/icSerDesContext.c: the structures, their copies and their JSON
    form.  A string field is [None] when it is NULL, a list field [None] when
    the list is NULL.  The records of a device and an endpoint are generic in
    what their lists hold: the structures themselves ([device], [endpoint])
    when a routine only reads or builds them, addresses when they live in the
    memory of the database (JsonDatabase.v).  The lists behave as the lists of
    LinkedList.v (a NULL list has no elements, linkedListDeepClone reads
    through a NULL list).

    Encryption of sensitive values (simpleProtectConfigData and
    simpleUnprotectConfigData of libs/config, over OpenSSL) is the interface
    [Protect]. *)

From S2P Require Import Prelude KeyMap Json.
Import KeyMap Json.

Module DeviceModel.

(** ** Structures *)

Record icDeviceResource := mkResource {
  r_id : option cstring;
  r_uri : option cstring;
  r_endpointId : option cstring;
  r_deviceUuid : option cstring;
  r_value : option cstring;
  r_type : option cstring;
  r_mode : Z;                     (* uint8_t, bitmask of RESOURCE_MODE_* *)
  r_cachingPolicy : Z;            (* enum *)
  r_dateOfLastSyncMillis : Z      (* uint64_t *)
}.

Definition CACHING_POLICY_NEVER : Z := 0.
Definition CACHING_POLICY_ALWAYS : Z := 1.

Definition RESOURCE_MODE_READABLE : Z := 1.
Definition RESOURCE_MODE_LAZY_SAVE_NEXT : Z := 64.
Definition RESOURCE_MODE_SENSITIVE : Z := 128.

(** resource->mode & flag *)
Definition has_mode (mode flag : Z) : bool := negb (Z.land mode flag =? 0).

Record icDeviceMetadata := mkMetadata {
  m_id : option cstring;
  m_uri : option cstring;
  m_endpointId : option cstring;
  m_deviceUuid : option cstring;
  m_value : option cstring
}.

Record icDeviceEndpoint (R M : Type) := mkEndpoint {
  e_id : option cstring;
  e_uri : option cstring;
  e_profile : option cstring;
  e_profileVersion : Z;           (* uint8_t *)
  e_deviceUuid : option cstring;
  e_enabled : bool;
  e_resources : option (list R);
  e_metadata : option (list M)
}.
Arguments mkEndpoint {R M}.
Arguments e_id {R M}.
Arguments e_uri {R M}.
Arguments e_profile {R M}.
Arguments e_profileVersion {R M}.
Arguments e_deviceUuid {R M}.
Arguments e_enabled {R M}.
Arguments e_resources {R M}.
Arguments e_metadata {R M}.

Record icDevice (E R M : Type) := mkDevice {
  d_uuid : option cstring;
  d_deviceClass : option cstring;
  d_deviceClassVersion : Z;       (* uint8_t *)
  d_uri : option cstring;
  d_managingDeviceDriver : option cstring;
  d_endpoints : option (list E);
  d_resources : option (list R);
  d_metadata : option (list M)
}.
Arguments mkDevice {E R M}.
Arguments d_uuid {E R M}.
Arguments d_deviceClass {E R M}.
Arguments d_deviceClassVersion {E R M}.
Arguments d_uri {E R M}.
Arguments d_managingDeviceDriver {E R M}.
Arguments d_endpoints {E R M}.
Arguments d_resources {E R M}.
Arguments d_metadata {E R M}.

Abbreviation endpoint := (icDeviceEndpoint icDeviceResource icDeviceMetadata).
Abbreviation device := (icDevice endpoint icDeviceResource icDeviceMetadata).

#[global] Instance resource_eq_dec : EqDecision icDeviceResource.
Proof. solve_decision. Defined.
#[global] Instance metadata_eq_dec : EqDecision icDeviceMetadata.
Proof. solve_decision. Defined.
#[global] Instance endpoint_eq_dec {R M} `{EqDecision R, EqDecision M} : EqDecision (icDeviceEndpoint R M).
Proof. solve_decision. Defined.
#[global] Instance device_eq_dec {E R M} `{EqDecision E, EqDecision R, EqDecision M} : EqDecision (icDevice E R M).
Proof. solve_decision. Defined.

(** The elements an iterator over a list visits. *)
Definition elems {A} (l : option (list A)) : list A := default [] l.

(** The parts of a structure replaced by what [f], [g], ... make of them; the
    only failure is that of the functions. *)
Fixpoint mapO {A B} (f : A → outcome B) (l : list A) : outcome (list B) :=
  match l with
  | [] => Ok []
  | x :: l => y ← f x; ys ← mapO f l; Ok (y :: ys)
  end.

Definition mapL {A B} (f : A → outcome B) (l : option (list A)) : outcome (option (list B)) :=
  match l with None => Ok None | Some l => l' ← mapO f l; Ok (Some l') end.

Definition map_endpoint {R M R' M'} (f : R → outcome R') (g : M → outcome M') (e : icDeviceEndpoint R M)
    : outcome (icDeviceEndpoint R' M') :=
  rs ← mapL f (e_resources e); ms ← mapL g (e_metadata e);
  Ok (mkEndpoint (e_id e) (e_uri e) (e_profile e) (e_profileVersion e) (e_deviceUuid e) (e_enabled e) rs ms).

Definition map_device {E R M E' R' M'} (h : E → outcome E') (f : R → outcome R') (g : M → outcome M')
    (d : icDevice E R M) : outcome (icDevice E' R' M') :=
  es ← mapL h (d_endpoints d); rs ← mapL f (d_resources d); ms ← mapL g (d_metadata d);
  Ok (mkDevice (d_uuid d) (d_deviceClass d) (d_deviceClassVersion d) (d_uri d) (d_managingDeviceDriver d) es rs ms).

(** ** Copies *)

Definition strdup_or_null (s : option cstring) : option cstring :=
  match s with Some t => Some t | None => None end.

Definition resourceClone (resource : option icDeviceResource) : option icDeviceResource :=
  match resource with
  | Some r =>
      Some (mkResource (strdup_or_null (r_id r)) (strdup_or_null (r_uri r)) (strdup_or_null (r_endpointId r))
              (strdup_or_null (r_deviceUuid r)) (strdup_or_null (r_value r)) (strdup_or_null (r_type r))
              (r_mode r) (r_cachingPolicy r) (r_dateOfLastSyncMillis r))
  | None => None
  end.

Definition metadataClone (metadata : option icDeviceMetadata) : option icDeviceMetadata :=
  match metadata with
  | Some m =>
      Some (mkMetadata (strdup_or_null (m_id m)) (strdup_or_null (m_uri m)) (strdup_or_null (m_endpointId m))
              (strdup_or_null (m_deviceUuid m)) (strdup_or_null (m_value m)))
  | None => None
  end.

(** linkedListDeepClone: reads through the source list; a NULL copy is not
    appended. *)
Fixpoint deepClone_items {A} (cloneItem : A → outcome (option A)) (l : list A) : outcome (list A) :=
  match l with
  | [] => Ok []
  | x :: l => y ← cloneItem x; ys ← deepClone_items cloneItem l; Ok (option_list y ++ ys)
  end.

Definition deepClone {A} (cloneItem : A → outcome (option A)) (src : option (list A)) : outcome (option (list A)) :=
  l ← of_option src; l' ← deepClone_items cloneItem l; Ok (Some l').

Definition cloneMetadataWithContext (item : icDeviceMetadata) : outcome (option icDeviceMetadata) :=
  Ok (metadataClone (Some item)).
Definition cloneResourceWithContext (item : icDeviceResource) : outcome (option icDeviceResource) :=
  Ok (resourceClone (Some item)).

Definition endpointClone (ep : option endpoint) : outcome (option endpoint) :=
  match ep with
  | Some e =>
      rs ← deepClone cloneResourceWithContext (e_resources e);
      ms ← deepClone cloneMetadataWithContext (e_metadata e);
      Ok (Some (mkEndpoint (strdup_or_null (e_id e)) (strdup_or_null (e_uri e)) (strdup_or_null (e_profile e))
                  (e_profileVersion e) (strdup_or_null (e_deviceUuid e)) (e_enabled e) rs ms))
  | None => Ok None
  end.

Definition cloneEndpointWithContext (item : endpoint) : outcome (option endpoint) := endpointClone (Some item).

Definition deviceClone (dev : option device) : outcome (option device) :=
  match dev with
  | Some d =>
      es ← match d_endpoints d with
           | Some _ => deepClone cloneEndpointWithContext (d_endpoints d)
           | None => Ok None
           end;
      rs ← match d_resources d with
           | Some _ => deepClone cloneResourceWithContext (d_resources d)
           | None => Ok None
           end;
      ms ← match d_metadata d with
           | Some _ => deepClone cloneMetadataWithContext (d_metadata d)
           | None => Ok None
           end;
      Ok (Some (mkDevice (strdup_or_null (d_uuid d)) (strdup_or_null (d_deviceClass d)) (d_deviceClassVersion d)
                  (strdup_or_null (d_uri d)) (strdup_or_null (d_managingDeviceDriver d)) es rs ms))
  | None => Ok None
  end.

(** The value of the first metadata with the given id; strcmp reads the ids. *)
Fixpoint find_metadata (ms : list icDeviceMetadata) (key : cstring) : outcome (option cstring) :=
  match ms with
  | [] => Ok None
  | m :: ms =>
      i ← of_option (m_id m);
      if decide (i = key) then Ok (m_value m) else find_metadata ms key
  end.

Definition deviceGetMetadata (dev : option device) (key : cstring) : outcome (option cstring) :=
  match dev with
  | Some d => match d_metadata d with Some ms => find_metadata ms key | None => Ok None end
  | None => Ok None
  end.

(** ** The serialisation context: a map of strings *)

Section Context.
Context {SM : Type} `{KeyMap SM cstring}.

(** Keys of a string map are stored with their NUL. *)
Definition zkey (k : cstring) : cstring := k ++ [NUL].

Definition serDesCreateContext : SM := km_create.

Definition serDesSetContextValue (context : option SM) (key value : cstring) : outcome (bool * option SM) :=
  match context with
  | None => Ok (false, None)
  | Some c => '(ok, c) ← km_put c (zkey key) value; Ok (ok, Some c)
  end.

Definition serDesHasContextValue (context : option SM) (key : cstring) : outcome bool :=
  match context with None => Ok false | Some c => km_contains c (zkey key) end.

Definition serDesGetContextValue (context : option SM) (key : cstring) : outcome (option cstring) :=
  match context with None => Ok None | Some c => km_get c (zkey key) end.
End Context.

(** ** Protection of sensitive values *)

Class Protect := {
  (* namespace, clear text: the protected text or NULL *)
  simpleProtectConfigData : option cstring → option cstring → option cstring;
  simpleUnprotectConfigData : option cstring → option cstring → option cstring
}.

Class ProtectLaws `{Protect} := {
  protect_null ns : simpleProtectConfigData ns None = None;
  unprotect_protect ns v e :
    simpleProtectConfigData ns (Some v) = Some e → simpleUnprotectConfigData ns (Some e) = Some v
}.

(** ** Copies are equal to their originals

    An endpoint with a NULL list cannot be copied: linkedListDeepClone reads
    through it. *)

Definition cloneable_endpoint (e : endpoint) : Prop := is_Some (e_resources e) ∧ is_Some (e_metadata e).
Definition cloneable (d : device) : Prop := ∀ e, e ∈ elems (d_endpoints d) → cloneable_endpoint e.

Lemma strdup_id s : strdup_or_null s = s.
Proof. by destruct s. Qed.

Lemma resourceClone_eq o : resourceClone o = o.
Proof. destruct o as [[]|]; simpl; [by rewrite !strdup_id|done]. Qed.

Lemma metadataClone_eq o : metadataClone o = o.
Proof. destruct o as [[]|]; simpl; [by rewrite !strdup_id|done]. Qed.

Lemma deepClone_eq {A} (f : A → outcome (option A)) l :
  (∀ x, x ∈ l → f x = Ok (Some x)) → deepClone f (Some l) = Ok (Some l).
Proof.
  intros Hf. unfold deepClone. simpl. enough (deepClone_items f l = Ok l) as -> by done.
  induction l as [|x l IH]; simpl; [done|]. rewrite (Hf x) by (by left). simpl.
  rewrite IH; [done|]. intros y Hy. apply Hf. by right.
Qed.

Lemma endpointClone_eq e : cloneable_endpoint e → endpointClone (Some e) = Ok (Some e).
Proof.
  intros [[rs Hrs] [ms Hms]]. unfold endpointClone. rewrite Hrs, Hms, !strdup_id.
  rewrite (deepClone_eq cloneResourceWithContext)
    by (intros; unfold cloneResourceWithContext; by rewrite resourceClone_eq).
  rewrite (deepClone_eq cloneMetadataWithContext)
    by (intros; unfold cloneMetadataWithContext; by rewrite metadataClone_eq).
  simpl. by destruct e; simplify_eq/=.
Qed.

Lemma deviceClone_eq d : cloneable d → deviceClone (Some d) = Ok (Some d).
Proof.
  intros Hc. unfold deviceClone, cloneable in *. destruct d as [uuid cls ver uri drv es rs ms]. simpl in *.
  rewrite !strdup_id.
  assert ((match es with Some _ => deepClone cloneEndpointWithContext es | None => Ok None end) = Ok es) as ->.
  { destruct es; [|done]. apply deepClone_eq. intros e He. by apply endpointClone_eq, Hc. }
  assert ((match rs with Some _ => deepClone cloneResourceWithContext rs | None => Ok None end) = Ok rs) as ->.
  { destruct rs; [|done]. apply deepClone_eq. intros r _. unfold cloneResourceWithContext. by rewrite resourceClone_eq. }
  assert ((match ms with Some _ => deepClone cloneMetadataWithContext ms | None => Ok None end) = Ok ms) as ->.
  { destruct ms; [|done]. apply deepClone_eq. intros r _. unfold cloneMetadataWithContext. by rewrite metadataClone_eq. }
  done.
Qed.

End DeviceModel.
