(* ===== verification/DeviceJsonSpec.v ===== *)
(** * What the JSON form of a device holds

    Lemmas on DeviceJson.v: the members of the objects it writes, up to the
    freedom cJSON has for NULL strings ([encodes]), and that each structure
    reads back ([reads_back]), composed from the parts: fields, lists,
    resources, metadata, endpoints, devices. *)

From S2P Require Import Prelude KeyMap Json DeviceModel DeviceJson.
Import KeyMap Json DeviceModel DeviceJson.

Module DeviceJsonSpec.

(** ** Members of an object *)

Inductive field := FStr (s : option cstring) | FVal (v : jval).

(** The members [ms] of an object to which the fields [fs] were added. *)
Inductive encodes : list (cstring * field) → list (cstring * jval) → Prop :=
  | enc_nil : encodes [] []
  | enc_val k v fs ms : encodes fs ms → encodes ((k, FVal v) :: fs) ((k, v) :: ms)
  | enc_str k s fs ms : encodes fs ms → encodes ((k, FStr (Some s)) :: fs) ((k, JString s) :: ms)
  | enc_none k fs ms : encodes fs ms → encodes ((k, FStr None) :: fs) ms
  | enc_null k fs ms : encodes fs ms → encodes ((k, FStr None) :: fs) ((k, JNull) :: ms).

Lemma encodes_app fs1 ms1 fs2 ms2 :
  encodes fs1 ms1 → encodes fs2 ms2 → encodes (fs1 ++ fs2) (ms1 ++ ms2).
Proof. intros H1 H2. induction H1; simpl; [done|constructor; done..]. Qed.

Fixpoint field_of (k : cstring) (fs : list (cstring * field)) : option field :=
  match fs with
  | [] => None
  | (k', f) :: fs => if decide (same_name k' k) then Some f else field_of k fs
  end.

Definition holds (f : option field) (v : option jval) : Prop :=
  match f with
  | Some (FVal x) => v = Some x
  | Some (FStr (Some s)) => v = Some (JString s)
  | Some (FStr None) => v = None ∨ v = Some JNull
  | None => v = None
  end.

Definition names (fs : list (cstring * field)) : list cstring :=
  map (λ f : cstring * field, map tolower f.1) fs.

Lemma encodes_absent fs ms k : encodes fs ms → tolower <$> k ∉ names fs → member k ms = None.
Proof.
  intros He. induction He as [|k' v fs ms He IH|k' s fs ms He IH|k' fs ms He IH|k' fs ms He IH];
    intros [Hk Hn]%not_elem_of_cons || intros _; simpl; auto;
    rewrite decide_False by (intros Hs; unfold same_name in Hs; by apply Hk); auto.
Qed.

Lemma encodes_member fs ms k : encodes fs ms → NoDup (names fs) → holds (field_of k fs) (member k ms).
Proof.
  intros He. induction He as [|k' v fs ms He IH|k' s fs ms He IH|k' fs ms He IH|k' fs ms He IH];
    intros Hnd; simpl; try done; apply NoDup_cons in Hnd as [Hn Hnd];
    (destruct (decide (same_name k' k)) as [Hs|Hs]; [|by apply IH]); try done.
  - left. apply (encodes_absent fs); [done|]. unfold same_name in Hs. simpl in Hn. by rewrite <-Hs.
  - by right.
Qed.

Definition field_depth (f : field) : nat := match f with FStr _ => 0 | FVal v => depth v end.

Lemma encodes_depth fs ms n : encodes fs ms → Forall (λ f, (field_depth f.2 ≤ n)%nat) fs →
  (depth (JObject ms) ≤ S n)%nat.
Proof.
  intros He Hf. cbn [depth]. apply le_n_S.
  induction He as [|k' v fs ms He IH|k' s fs ms He IH|k' fs ms He IH|k' fs ms He IH]; simpl; [lia|..];
    apply Forall_cons in Hf as [Hf Hr]; specialize (IH Hr); simpl in Hf; lia.
Qed.

Section Laws.
Context {json : Type} `{JsonLaws json}.
Implicit Types (o j : json).

(** The object [o] holds the fields [fs]. *)
Definition shows o fs : Prop := ∃ ms, contents o = JObject ms ∧ encodes fs ms.

Lemma shows_create : shows cJSON_CreateObject [].
Proof. exists []. split; [apply create_contents|constructor]. Qed.

Lemma shows_string o fs k s : shows o fs → shows (cJSON_AddStringToObject o k s) (fs ++ [(k, FStr s)]).
Proof.
  intros (ms & Ho & He). destruct s as [s|].
  - eexists. split; [by apply add_string|]. apply encodes_app; [done|]. repeat constructor.
  - destruct (add_null o ms k Ho) as (x & Hx & Hc). exists (ms ++ x). split; [done|]. apply encodes_app; [done|].
    destruct Hc as [-> | ->]; [apply enc_none|apply enc_null]; constructor.
Qed.

Lemma shows_number o fs k d : shows o fs → shows (cJSON_AddNumberToObject o k d) (fs ++ [(k, FVal (JNumber d))]).
Proof.
  intros (ms & Ho & He). eexists. split; [by apply add_number|]. apply encodes_app; [done|]. repeat constructor.
Qed.

Lemma shows_bool o fs k b : shows o fs → shows (cJSON_AddBoolToObject o k b) (fs ++ [(k, FVal (JBool b))]).
Proof.
  intros (ms & Ho & He). eexists. split; [by apply add_bool|]. apply encodes_app; [done|]. repeat constructor.
Qed.

Lemma shows_item o fs k v :
  shows o fs → shows (cJSON_AddItemToObject o (Some k) v) (fs ++ [(k, FVal (contents v))]).
Proof.
  intros (ms & Ho & He). eexists. split; [by apply add_item|]. apply encodes_app; [done|]. repeat constructor.
Qed.

Lemma shows_contents o o' fs : contents o' = contents o → shows o fs → shows o' fs.
Proof. intros Hc (ms & Ho & He). exists ms. by rewrite Hc. Qed.

Lemma shows_depth o fs n : shows o fs → Forall (λ f, (field_depth f.2 ≤ n)%nat) fs → (depth (contents o) ≤ S n)%nat.
Proof. intros (ms & -> & He). by apply encodes_depth. Qed.

(** Reading a field back. *)
Lemma shows_getString o fs k s : shows o fs → NoDup (names fs) → field_of k fs = Some (FStr s) →
  getCJSONString o k = Ok s.
Proof.
  intros (ms & Ho & He) Hnd Hf. rewrite (getCJSONString_spec o ms) by done.
  pose proof (encodes_member fs ms k He Hnd) as Hh. rewrite Hf in Hh.
  destruct s; simpl in Hh; [by rewrite Hh|]. by destruct Hh as [-> | ->].
Qed.

Lemma shows_no_string o fs k : shows o fs → NoDup (names fs) → field_of k fs = None → getCJSONString o k = Ok None.
Proof.
  intros (ms & Ho & He) Hnd Hf. rewrite (getCJSONString_spec o ms) by done.
  pose proof (encodes_member fs ms k He Hnd) as Hh. rewrite Hf in Hh. simpl in Hh. by rewrite Hh.
Qed.

Lemma shows_getInt o fs k d0 d : shows o fs → NoDup (names fs) → field_of k fs = Some (FVal (JNumber d)) →
  (getCJSONInt o k d0).2 = int_of_double d.
Proof.
  intros (ms & Ho & He) Hnd Hf. rewrite (getCJSONInt_spec o ms) by done.
  pose proof (encodes_member fs ms k He Hnd) as Hh. rewrite Hf in Hh. simpl in Hh. by rewrite Hh.
Qed.

Lemma shows_getDouble o fs k d0 d : shows o fs → NoDup (names fs) → field_of k fs = Some (FVal (JNumber d)) →
  (getCJSONDouble o k d0).2 = d.
Proof.
  intros (ms & Ho & He) Hnd Hf. rewrite (getCJSONDouble_spec o ms) by done.
  pose proof (encodes_member fs ms k He Hnd) as Hh. rewrite Hf in Hh. simpl in Hh. by rewrite Hh.
Qed.

Lemma shows_getBool o fs k b0 b : shows o fs → NoDup (names fs) → field_of k fs = Some (FVal (JBool b)) →
  (getCJSONBool o k b0).2 = b.
Proof.
  intros (ms & Ho & He) Hnd Hf. rewrite (getCJSONBool_spec o ms) by done.
  pose proof (encodes_member fs ms k He Hnd) as Hh. rewrite Hf in Hh. simpl in Hh. by rewrite Hh.
Qed.

Lemma shows_getItem o fs k : shows o fs → NoDup (names fs) →
  holds (field_of k fs) (contents <$> cJSON_GetObjectItem o k).
Proof. intros (ms & Ho & He) Hnd. rewrite (get_item o ms) by done. by apply encodes_member. Qed.

Lemma shows_getChild o fs k v : shows o fs → NoDup (names fs) → field_of k fs = Some (FVal v) →
  ∃ j, cJSON_GetObjectItem o k = Some j ∧ contents j = v.
Proof.
  intros Hs Hnd Hf. pose proof (shows_getItem o fs k Hs Hnd) as Hh. rewrite Hf in Hh. simpl in Hh.
  apply fmap_Some in Hh as (j & Hj & ->). by exists j.
Qed.

(** ** Structures that read back

    [reads_back write n read x]: [write] produces an item that is not nested
    deeper than [n], and whatever has its contents is read as [x]. *)
Definition reads_back {A} (write : outcome json) (n : nat) (read : json → outcome A) (x : A) : Prop :=
  ∃ j, write = Ok j ∧ (depth (contents j) ≤ n)%nat ∧ ∀ j', contents j' = contents j → read j' = Ok x.

(** A list written as an object, member by member. *)
Lemma write_members {A} (name : A → option cstring) (write : A → outcome json) n
    (read : option json → outcome (option A)) (l : list A) o ms :
  contents o = JObject ms →
  (∀ x, x ∈ l → is_Some (name x) ∧ reads_back (write x) n (λ j, read (Some j)) (Some x)) →
  ∃ o' items, foldM (λ x o, j ← write x; Ok (cJSON_AddItemToObject o (name x) j)) l o = Ok o' ∧
    contents o' = JObject (ms ++ items) ∧
    Forall2 (λ x m, (depth m.2 ≤ n)%nat ∧ ∀ j, contents j = m.2 → read (Some j) = Ok (Some x)) l items.
Proof.
  revert o ms. induction l as [|x l IH]; intros o ms Ho Hl.
  { exists o, []. by rewrite app_nil_r. }
  destruct (Hl x) as [[k Hk] (j & Hw & Hd & Hr)]; [by left|]. simpl. rewrite Hw, Hk. simpl.
  destruct (IH (cJSON_AddItemToObject o (Some k) j) (ms ++ [(k, contents j)])) as (o' & items & Hf & Hc & H2);
    [by apply add_item|intros y Hy; apply Hl; by right|].
  exists o', ((k, contents j) :: items). rewrite <-app_assoc in Hc. split; [done|]. split; [done|].
  by constructor.
Qed.

Lemma members_depth {A} (P : A → cstring * jval → Prop) n (l : list A) items :
  Forall2 P l items → (∀ x m, P x m → (depth m.2 ≤ n)%nat) → (depth (JObject items) ≤ S n)%nat.
Proof.
  intros H2 HP. cbn [depth]. apply le_n_S. induction H2 as [|x m l items Hx H2 IH]; simpl; [lia|].
  specialize (HP x m Hx). lia.
Qed.

Lemma read_members_spec {A} (read : option json → outcome (option A)) (l : list A) o items :
  contents o = JObject items →
  Forall2 (λ x m, ∀ j, contents j = m.2 → read (Some j) = Ok (Some x)) l items →
  read_members o read = Ok l.
Proof.
  intros Ho H2. unfold read_members. rewrite (array_size o items Ho).
  assert (∀ n acc l1 l2 i1 i2, l = l1 ++ l2 → items = i1 ++ i2 → length l1 = n → length i1 = n →
    Forall2 (λ x m, ∀ j, contents j = m.2 → read (Some j) = Ok (Some x)) l2 i2 →
    foldM (λ i acc, let item := cJSON_GetArrayItem o i in
      x ← read item;
      match x with Some x => Ok (acc ++ [x]) | None => _ ← of_option item; Ok acc end)
      (seqZ (Z.of_nat n) (zlen i2)) acc = Ok (acc ++ l2)) as Hgen.
  { intros n acc l1 l2 i1 i2 Hl Hi Hn1 Hn2 Hf. revert n acc l1 i1 Hl Hi Hn1 Hn2.
    induction Hf as [|x m l2 i2 Hx Hf IH]; intros n acc l1 i1 Hl Hi Hn1 Hn2; [by rewrite app_nil_r|].
    rewrite seqZ_cons by (simpl; lia). cbn [foldM].
    pose proof (array_item o items (Z.of_nat n) Ho ltac:(lia)) as Hit.
    rewrite Nat2Z.id, Hi, lookup_app_r, Hn2, Nat.sub_diag in Hit by lia. simpl in Hit.
    destruct (cJSON_GetArrayItem o (Z.of_nat n)) as [j|]; [|done]. simpl in Hit. injection Hit as _ Hj.
    rewrite (Hx j Hj). obind.
    replace (Z.succ (Z.of_nat n)) with (Z.of_nat (S n)) by lia.
    replace (Z.pred (zlen (m :: i2))) with (zlen i2) by (simpl; lia).
    transitivity (Ok ((acc ++ [x]) ++ l2)); [|by rewrite <-app_assoc].
    apply (IH (S n) (acc ++ [x]) (l1 ++ [x]) (i1 ++ [m])); rewrite <-?app_assoc, ?length_app; simpl; try done; lia. }
  apply (Hgen 0%nat [] [] l [] items); done.
Qed.

Lemma members_read_back {A} (name : A → option cstring) (write : A → outcome json) n
    (read : option json → outcome (option A)) (l : list A) :
  (∀ x, x ∈ l → is_Some (name x) ∧ reads_back (write x) n (λ j, read (Some j)) (Some x)) →
  reads_back (foldM (λ x o, j ← write x; Ok (cJSON_AddItemToObject o (name x) j)) l cJSON_CreateObject) (S n)
    (λ o, read_members o read) l.
Proof.
  intros Hl. destruct (write_members name write n read l cJSON_CreateObject [] create_contents Hl)
    as (o & items & Hw & Hc & H2).
  exists o. split; [done|]. simpl in Hc. split.
  - rewrite Hc. eapply members_depth; [exact H2|]. by intros ? ? [? _].
  - intros o' Ho'. apply (read_members_spec read l o' items); [congruence|].
    eapply Forall2_impl; [exact H2|]. by intros ? ? [_ ?].
Qed.

Lemma shows_eq o fs fs' : shows o fs → fs = fs' → shows o fs'.
Proof. by intros ? <-. Qed.

End Laws.

(** [show_fields] reads off the fields of an object that was built member by
    member, [distinct_names] checks the names, and [read_fields Hs Hn] computes
    the fields a program reads from such an object. *)
Ltac show_fields :=
  eapply shows_eq;
  [repeat first [eapply shows_string | eapply shows_number | eapply shows_bool | eapply shows_item | apply shows_create]
  | reflexivity].

Ltac distinct_names := apply (bool_decide_eq_true_1 _); vm_compute; reflexivity.

Ltac fields_depth := repeat (apply Forall_cons; split; [simpl; lia|]); by apply Forall_nil.

Ltac field_found :=
  cbn [field_of];
  repeat first
    [ rewrite decide_True by (vm_compute; reflexivity)
    | rewrite decide_False by (apply (bool_decide_eq_false_1 _); vm_compute; reflexivity) ];
  reflexivity.

Ltac read_fields Hs Hn :=
  repeat first
    [ rewrite (shows_getString _ _ _ _ Hs Hn) by field_found
    | rewrite (shows_no_string _ _ _ Hs Hn) by field_found
    | rewrite (shows_getInt _ _ _ _ _ Hs Hn) by field_found
    | rewrite (shows_getDouble _ _ _ _ _ Hs Hn) by field_found
    | rewrite (shows_getBool _ _ _ _ _ Hs Hn) by field_found
    | progress obind | progress cbn [snd] ].

(** ** The structures *)

Section Devices.
Context {json : Type} `{JsonLaws json} {SM : Type} `{KeyMap SM cstring} `{ProtectLaws}.
Implicit Types (context : option SM) (j : json).
Context (context : option SM) (ns : cstring).

(** The context names the namespace the values are protected for. *)
Definition in_namespace : Prop :=
  serDesHasContextValue context RESOURCE_NAMESPACE_KEY = Ok true ∧
  serDesGetContextValue context RESOURCE_NAMESPACE_KEY = Ok (Some ns).

(** The values a JSON document can hold and give back: numbers in the range of
    their types, dates a double represents exactly, sensitive values that can
    be encrypted, metadata that is no JSON object or the text cJSON prints for
    one, parts that name the device and the endpoint they belong to. *)
Record storable_resource (uuid : cstring) (ep : option cstring) (r : icDeviceResource) : Prop := {
  sr_id : is_Some (r_id r);
  sr_uuid : r_deviceUuid r = Some uuid;
  sr_ep : r_endpointId r = ep;
  sr_mode : 0 ≤ r_mode r < 256;
  sr_policy : 0 ≤ r_cachingPolicy r < 2147483648;
  sr_date : 0 ≤ r_dateOfLastSyncMillis r ≤ 2 ^ 53;
  sr_secret v : has_mode (r_mode r) RESOURCE_MODE_SENSITIVE = true → r_value r = Some v →
    is_Some (simpleProtectConfigData (Some ns) (Some v))
}.

Record storable_metadata (uuid : cstring) (ep : option cstring) (m : icDeviceMetadata) : Prop := {
  sm_id : is_Some (m_id m);
  sm_uuid : m_deviceUuid m = Some uuid;
  sm_ep : m_endpointId m = ep;
  sm_value v : cJSON_Parse (m_value m) = Some v → is_object (contents v) = true →
    cJSON_Print v = m_value m ∧ (depth (contents v) ≤ 995)%nat
}.

Record storable_endpoint (uuid : cstring) (e : endpoint) : Prop := {
  se_id : is_Some (e_id e);
  se_uuid : e_deviceUuid e = Some uuid;
  se_version : 0 ≤ e_profileVersion e < 256;
  se_resources : ∃ l, e_resources e = Some l ∧ ∀ r, r ∈ l → storable_resource uuid (e_id e) r;
  se_metadata : ∃ l, e_metadata e = Some l ∧ ∀ m, m ∈ l → storable_metadata uuid (e_id e) m
}.

Record storable (d : device) : Prop := {
  sd_version : 0 ≤ d_deviceClassVersion d < 256;
  sd_parts : ∃ uuid es rs ms, d_uuid d = Some uuid ∧ d_endpoints d = Some es ∧ d_resources d = Some rs ∧
    d_metadata d = Some ms ∧ (∀ e, e ∈ es → storable_endpoint uuid e) ∧
    (∀ r, r ∈ rs → storable_resource uuid None r) ∧ (∀ m, m ∈ ms → storable_metadata uuid None m)
}.

Lemma u8_small z : 0 ≤ z < 256 → u8 z = z.
Proof. intros. by apply Z.mod_small. Qed.

Lemma u8_field z : 0 ≤ z < 256 → u8 (int_of_double (double_of_int z)) = z.
Proof. intros. rewrite int_of_double_of_int by lia. by apply u8_small. Qed.

(** The members a resource is written as; [key] and [v] are those of its value. *)
Definition resource_fields (r : icDeviceResource) (key : cstring) (v : option cstring) : list (cstring * field) :=
  [(RESOURCE_ID_KEY, FStr (r_id r)); (RESOURCE_URI_KEY, FStr (r_uri r));
   (RESOURCE_MODE_KEY, FVal (JNumber (double_of_int (r_mode r))));
   (RESOURCE_CACHING_POLICY_KEY, FVal (JNumber (double_of_int (r_cachingPolicy r))));
   (RESOURCE_DATE_OF_LAST_SYNC_MILLIS_KEY, FVal (JNumber (double_of_u64 (r_dateOfLastSyncMillis r))));
   (key, FStr v); (RESOURCE_TYPE_KEY, FStr (r_type r))].

(** Which key the value is stored under, and what is stored there. *)
Definition stored_value (r : icDeviceResource) : cstring * option cstring :=
  if has_mode (r_mode r) RESOURCE_MODE_SENSITIVE then
    (RESOURCE_ENCRYPTED_VALUE_KEY,
     match simpleProtectConfigData (Some ns) (r_value r) with Some v => Some v | None => r_value r end)
  else (RESOURCE_VALUE_KEY, r_value r).

Lemma resource_written r : in_namespace →
  ∃ j, resourceToJSON r context = Ok j ∧ shows j (resource_fields r (stored_value r).1 (stored_value r).2).
Proof.
  intros [Hhas Hget]. unfold resourceToJSON, stored_value.
  destruct (has_mode (r_mode r) RESOURCE_MODE_SENSITIVE); rewrite ?Hhas; obind; rewrite ?Hget; obind;
    (eexists; split; [done|]); simpl; unfold resource_fields; show_fields.
Qed.

Lemma resource_reads_back uuid ep r : in_namespace → storable_resource uuid ep r →
  reads_back (resourceToJSON r context) 1 (λ j, resourceFromJSON (Some uuid) ep (Some j) context) (Some r).
Proof.
  intros Hns [Hid Huuid Hep Hmode Hpol Hdate Hsec]. destruct (resource_written r Hns) as (j & Hw & Hs).
  destruct Hns as [Hhas Hget]. exists j. split; [done|]. split; [apply (shows_depth _ _ 0 Hs); fields_depth|].
  intros j' Hj'. apply (shows_contents _ _ _ Hj') in Hs. cbn [resourceFromJSON of_option]. obind.
  unfold stored_value in Hs. destruct (has_mode (r_mode r) RESOURCE_MODE_SENSITIVE) eqn:Hm;
    unfold resource_fields in Hs; cbn [fst snd] in Hs;
    match type of Hs with shows _ ?fs => assert (Hn : NoDup (names fs)) by distinct_names end;
    read_fields Hs Hn; rewrite u8_field, Hm by done; obind.
  2: { rewrite u64_of_double_of_u64, int_of_double_of_int, strdup_id by lia. read_fields Hs Hn. by destruct r; simplify_eq/=. }
  destruct (r_value r) as [v|] eqn:Hv.
  - destruct (Hsec v) as [e He]; [done|done|]. rewrite He, Hhas. obind. rewrite Hget. obind.
    rewrite (unprotect_protect _ _ _ He). obind.
    rewrite u64_of_double_of_u64, int_of_double_of_int, strdup_id by lia. by destruct r; simplify_eq/=.
  - rewrite protect_null. obind. read_fields Hs Hn.
    rewrite u64_of_double_of_u64, int_of_double_of_int, strdup_id by lia. by destruct r; simplify_eq/=.
Qed.

Lemma metadata_reads_back uuid ep m : storable_metadata uuid ep m →
  reads_back (Ok (metadataToJSON m)) 996 (λ j, metadataFromJSON (Some uuid) ep (Some j)) (Some m).
Proof.
  intros [Hid Huuid Hep Hval]. exists (metadataToJSON m). split; [done|]. unfold metadataToJSON.
  assert (Hplain : ∀ j', shows j' [(METADATA_ID_KEY, FStr (m_id m)); (METADATA_URI_KEY, FStr (m_uri m));
      (METADATA_VALUE_KEY, FStr (m_value m))] → metadataFromJSON (Some uuid) ep (Some j') = Ok (Some m)).
  { intros j' Hs. unfold metadataFromJSON.
    match type of Hs with shows _ ?fs => assert (Hn : NoDup (names fs)) by distinct_names end.
    read_fields Hs Hn. pose proof (shows_getItem _ _ METADATA_VALUE_KEY Hs Hn) as Hg.
    replace (field_of METADATA_VALUE_KEY _) with (Some (FStr (m_value m))) in Hg by (symmetry; field_found).
    assert (Hno : ∀ v, cJSON_GetObjectItem j' METADATA_VALUE_KEY = Some v → cJSON_IsObject v = false).
    { intros v Hv. rewrite Hv in Hg. simpl in Hg. rewrite is_object_item.
      destruct (m_value m); [by injection Hg as ->|]. destruct Hg as [|[= ->]]; done. }
    destruct (cJSON_GetObjectItem j' METADATA_VALUE_KEY) as [v|] eqn:Hv; [rewrite (Hno v eq_refl)|];
      read_fields Hs Hn; rewrite strdup_id; by destruct m; simplify_eq/=. }
  destruct (cJSON_Parse (m_value m)) as [v|] eqn:Hp; [destruct (cJSON_IsObject v) eqn:Ho|].
  2,3: match goal with |- (depth (contents ?x) ≤ _)%nat ∧ _ => assert (Hs : shows x
      [(METADATA_ID_KEY, FStr (m_id m)); (METADATA_URI_KEY, FStr (m_uri m));
       (METADATA_VALUE_KEY, FStr (m_value m))]) by show_fields end;
    (split; [apply (shows_depth _ _ 995 Hs); fields_depth|]);
    intros j' Hj'; apply Hplain; by eapply shows_contents.
  rewrite is_object_item in Ho. destruct (Hval v) as [Hpr Hd]; [done|done|].
  match goal with |- (depth (contents ?x) ≤ _)%nat ∧ _ => assert (Hs : shows x
      [(METADATA_ID_KEY, FStr (m_id m)); (METADATA_URI_KEY, FStr (m_uri m));
       (METADATA_VALUE_KEY, FVal (contents v))]) by show_fields end.
  split; [apply (shows_depth _ _ 995 Hs); fields_depth|].
  intros j' Hj'. apply (shows_contents _ _ _ Hj') in Hs. unfold metadataFromJSON.
  match type of Hs with shows _ ?fs => assert (Hn : NoDup (names fs)) by distinct_names end.
  read_fields Hs Hn. destruct (shows_getChild _ _ METADATA_VALUE_KEY (contents v) Hs Hn) as (w & -> & Hw); [field_found|].
  rewrite is_object_item, Hw, Ho, (print_contents w v Hw), Hpr. obind. read_fields Hs Hn.
  rewrite strdup_id. by destruct m; simplify_eq/=.
Qed.

Lemma resources_read_back uuid ep l : in_namespace → (∀ r, r ∈ l → storable_resource uuid ep r) →
  reads_back (resourcesToJSON (Some l) context) 2 (λ j, resourcesFromJSON (Some uuid) ep (Some j) context) (Some l).
Proof.
  intros Hns Hl. destruct (members_read_back r_id (λ r, resourceToJSON r context) 1
    (λ item, resourceFromJSON (Some uuid) ep item context) l) as (o & Hw & Hd & Hr).
  - intros r Hin. split; [by apply (Hl r Hin)|]. apply resource_reads_back; auto.
  - exists o. split; [done|]. split; [done|]. intros o' Ho'. cbn [resourcesFromJSON]. by rewrite (Hr o' Ho').
Qed.

Lemma metadatas_read_back uuid ep l : (∀ m, m ∈ l → storable_metadata uuid ep m) →
  reads_back (metadatasToJSON (Some l)) 997 (λ j, metadatasFromJSON (Some uuid) ep (Some j)) (Some l).
Proof.
  intros Hl. destruct (members_read_back m_id (λ m, Ok (metadataToJSON m)) 996
    (metadataFromJSON (Some uuid) ep) l) as (o & Hw & Hd & Hr).
  - intros m Hin. split; [by apply (Hl m Hin)|]. by apply metadata_reads_back, Hl.
  - exists o. split; [done|]. split; [done|]. intros o' Ho'. cbn [metadatasFromJSON]. by rewrite (Hr o' Ho').
Qed.

Lemma endpoint_reads_back uuid e : in_namespace → storable_endpoint uuid e →
  reads_back (endpointToJSON e context) 998 (λ j, endpointFromJSON (Some uuid) (Some j) context) (Some e).
Proof.
  intros Hns [Hid Huuid Hver (rs & Hrs & Hrl) (ms & Hms & Hml)].
  destruct (resources_read_back uuid (e_id e) rs Hns Hrl) as (jr & Hwr & Hdr & Hrr).
  destruct (metadatas_read_back uuid (e_id e) ms Hml) as (jm & Hwm & Hdm & Hrm).
  unfold endpointToJSON. rewrite Hrs, Hwr. obind. rewrite Hms, Hwm. obind. eexists. split; [done|].
  match goal with |- (depth (contents ?x) ≤ _)%nat ∧ _ => assert (Hs : shows x
    [(ENDPOINT_URI_KEY, FStr (e_uri e)); (ENDPOINT_ID_KEY, FStr (e_id e)); (ENDPOINT_PROFILE_KEY, FStr (e_profile e));
     (ENDPOINT_ENABLED_KEY, FVal (JBool (e_enabled e)));
     (ENDPOINT_PROFILE_VERSION_KEY, FVal (JNumber (double_of_int (e_profileVersion e))));
     (ENDPOINT_RESOURCES_KEY, FVal (contents jr)); (ENDPOINT_METADATAS_KEY, FVal (contents jm))]) by show_fields end.
  split; [apply (shows_depth _ _ 997 Hs); fields_depth|].
  intros j' Hj'. apply (shows_contents _ _ _ Hj') in Hs. cbn [endpointFromJSON of_option]. obind.
  match type of Hs with shows _ ?fs => assert (Hn : NoDup (names fs)) by distinct_names end.
  read_fields Hs Hn. rewrite u8_field by done.
  destruct (shows_getChild _ _ ENDPOINT_RESOURCES_KEY (contents jr) Hs Hn) as (r' & -> & Hr'); [field_found|].
  destruct (shows_getChild _ _ ENDPOINT_METADATAS_KEY (contents jm) Hs Hn) as (m' & -> & Hm'); [field_found|].
  rewrite (Hrr r' Hr'). obind. rewrite (Hrm m' Hm'). obind. by destruct e; simplify_eq/=.
Qed.

Lemma endpoints_read_back uuid l : in_namespace → (∀ e, e ∈ l → storable_endpoint uuid e) →
  reads_back (endpointsToJSON (Some l) context) 999 (λ j, endpointsFromJSON (Some uuid) (Some j) context) (Some l).
Proof.
  intros Hns Hl. destruct (members_read_back e_id (λ e, endpointToJSON e context) 998
    (λ item, endpointFromJSON (Some uuid) item context) l) as (o & Hw & Hd & Hr).
  - intros e Hin. split; [by apply (Hl e Hin)|]. apply endpoint_reads_back; auto.
  - exists o. split; [done|]. split; [done|]. intros o' Ho'. cbn [endpointsFromJSON]. by rewrite (Hr o' Ho').
Qed.

Lemma device_reads_back d : in_namespace → storable d →
  reads_back (deviceToJSON d context) CJSON_NESTING_LIMIT (λ j, deviceFromJSON j context) d.
Proof.
  intros Hns [Hver (uuid & es & rs & ms & Huuid & Hes & Hrs & Hms & Hel & Hrl & Hml)].
  destruct (endpoints_read_back uuid es Hns Hel) as (je & Hwe & Hde & Hre).
  destruct (resources_read_back uuid None rs Hns Hrl) as (jr & Hwr & Hdr & Hrr).
  destruct (metadatas_read_back uuid None ms Hml) as (jm & Hwm & Hdm & Hrm).
  unfold deviceToJSON. rewrite Hes, Hwe. obind. rewrite Hrs, Hwr. obind. rewrite Hms, Hwm. obind. eexists. split; [done|].
  match goal with |- (depth (contents ?x) ≤ _)%nat ∧ _ => assert (Hs : shows x
    [(DEVICE_DRIVER_KEY, FStr (d_managingDeviceDriver d)); (DEVICE_CLASS_KEY, FStr (d_deviceClass d));
     (DEVICE_CLASS_VERSION_KEY, FVal (JNumber (double_of_int (d_deviceClassVersion d))));
     (DEVICE_URI_KEY, FStr (d_uri d)); (DEVICE_UUID_KEY, FStr (d_uuid d));
     (DEVICE_ENDPOINTS_KEY, FVal (contents je)); (DEVICE_RESOURCES_KEY, FVal (contents jr));
     (DEVICE_METADATAS_KEY, FVal (contents jm))]) by show_fields end.
  split; [apply (shows_depth _ _ 999 Hs); fields_depth|].
  intros j' Hj'. apply (shows_contents _ _ _ Hj') in Hs. unfold deviceFromJSON.
  match type of Hs with shows _ ?fs => assert (Hn : NoDup (names fs)) by distinct_names end.
  read_fields Hs Hn. rewrite u8_field by done. rewrite Huuid.
  destruct (shows_getChild _ _ DEVICE_ENDPOINTS_KEY (contents je) Hs Hn) as (e' & -> & He'); [field_found|].
  destruct (shows_getChild _ _ DEVICE_RESOURCES_KEY (contents jr) Hs Hn) as (r' & -> & Hr'); [field_found|].
  destruct (shows_getChild _ _ DEVICE_METADATAS_KEY (contents jm) Hs Hn) as (m' & -> & Hm'); [field_found|].
  rewrite (Hre e' He'). obind. rewrite (Hrr r' Hr'). obind. rewrite (Hrm m' Hm'). obind. by destruct d; simplify_eq/=.
Qed.

End Devices.
End DeviceJsonSpec.
