(* ===== verification/Storage.v ===== *)
(** * Persistent storage: files with a backup

    Models src/source/libs/config/c/src/storage.c and backupUtils.c, with the
    functions of libs/util/c/src/fileUtils.c they use on files.  The
    file system holds one directory per namespace, from file names to
    contents (text without NUL).  Every call into the system that can fail
    takes the next entry of a fault list ([None]: it works, [Some n]: it
    fails, a write after [n] bytes): [fs_wfaults] for creating a directory and
    writing a new file (a full disk), [fs_rfaults] for opening a file or directory
    to read, rename, unlink, rmdir and copying.  Every
    change of the directories is recorded in [fs_past], so that a statement
    can speak of a power loss between two calls.  [Store] is what the storage
    promises to the database of the device service for one namespace. *)

From S2P Require Import Prelude KeyMap.
Import KeyMap.

Module Storage.

Abbreviation dir := (gmap cstring cstring).

Record fs := mkFs {
  fs_dirs : gmap cstring dir;
  fs_wfaults : list (option nat);
  fs_rfaults : list (option nat);
  fs_past : list (gmap cstring dir)
}.

(** ** System calls *)

Definition wfault (f : fs) : option nat * fs :=
  match fs_wfaults f with
  | [] => (None, f)
  | x :: l => (x, mkFs (fs_dirs f) l (fs_rfaults f) (fs_past f))
  end.

Definition rfault (f : fs) : option nat * fs :=
  match fs_rfaults f with
  | [] => (None, f)
  | x :: l => (x, mkFs (fs_dirs f) (fs_wfaults f) l (fs_past f))
  end.

Definition set_dirs (f : fs) (ds : gmap cstring dir) : fs :=
  mkFs ds (fs_wfaults f) (fs_rfaults f) (fs_dirs f :: fs_past f).

Definition file (f : fs) (ns name : cstring) : option cstring :=
  match fs_dirs f !! ns with Some d => d !! name | None => None end.

Definition set_file (f : fs) (ns name : cstring) (text : cstring) : fs :=
  match fs_dirs f !! ns with
  | Some d => set_dirs f (<[ns := <[name := text]> d]> (fs_dirs f))
  | None => f
  end.

Definition remove_file (f : fs) (ns name : cstring) : fs :=
  match fs_dirs f !! ns with
  | Some d => set_dirs f (<[ns := delete name d]> (fs_dirs f))
  | None => f
  end.

Definition dir_exists (f : fs) (ns : cstring) : bool := bool_decide (is_Some (fs_dirs f !! ns)).

Definition mkdir_p (f : fs) (ns : cstring) : bool * fs :=
  let '(e, f) := wfault f in
  match e with
  | Some _ => (false, f)
  | None => (true, set_dirs f (<[ns := ∅]> (fs_dirs f)))
  end.

(** fopen(name, w): creates or truncates the file. *)
Definition fopen_w (f : fs) (ns name : cstring) : bool * fs :=
  let '(e, f) := wfault f in
  match e with
  | Some _ => (false, f)
  | None => if dir_exists f ns then (true, set_file f ns name []) else (false, f)
  end.

Definition fputs (f : fs) (ns name text : cstring) : bool * fs :=
  let '(e, f) := wfault f in
  match e with
  | Some n => (false, set_file f ns name (take n text))
  | None => (true, set_file f ns name text)
  end.

(** fflush and fsync: a failure may have lost the end of the file. *)
Definition fflush (f : fs) (ns name : cstring) : bool * fs :=
  let '(e, f) := wfault f in
  match e with
  | Some n => (false, set_file f ns name (take n (default [] (file f ns name))))
  | None => (true, f)
  end.
Definition fsync := fflush.

Inductive errno := ENONE | ENOENT | EOTHER.

Definition rename (f : fs) (ns from to : cstring) : errno * fs :=
  let '(e, f) := rfault f in
  match e with
  | Some _ => (EOTHER, f)
  | None =>
      match fs_dirs f !! ns with
      | Some d =>
          match d !! from with
          | Some text => (ENONE, set_dirs f (<[ns := <[to := text]> (delete from d)]> (fs_dirs f)))
          | None => (ENOENT, f)
          end
      | None => (ENOENT, f)
      end
  end.

Definition unlink (f : fs) (ns name : cstring) : errno * fs :=
  let '(e, f) := rfault f in
  match e with
  | Some _ => (EOTHER, f)
  | None => match file f ns name with Some _ => (ENONE, remove_file f ns name) | None => (ENOENT, f) end
  end.

(** ** fileUtils.c *)

Definition readFileContents (f : fs) (ns name : cstring) : option cstring * fs :=
  let '(e, f) := rfault f in
  match e with Some _ => (None, f) | None => (file f ns name, f) end.

(** The loop that copies an open file; an empty source counts as not copied. *)
Definition copyFile (f : fs) (ns to text : cstring) : bool * fs :=
  let '(e, f) := rfault f in
  match e with
  | Some n => (false, set_file f ns to (take n text))
  | None => (bool_decide (text ≠ []), set_file f ns to text)
  end.

(** The destination is truncated when it is opened. *)
Definition copyFileByPath (f : fs) (ns from to : cstring) : bool * fs :=
  let '(e, f) := rfault f in
  match e, file f ns from with
  | None, Some text =>
      let '(e, f) := rfault f in
      match e with
      | Some _ => (false, f)
      | None => copyFile (set_file f ns to []) ns to text
      end
  | _, _ => (false, f)
  end.

(** A directory here holds regular files only.  The handler is called for each
    of its files until one call fails. *)
Fixpoint list_entries (handler : cstring → fs → bool * fs) (names : list cstring) (f : fs) : bool * fs :=
  match names with
  | [] => (true, f)
  | name :: names => let '(ok, f) := handler name f in if ok : bool then list_entries handler names f else (false, f)
  end.

Definition listDirectory (f : fs) (d : option dir) (handler : cstring → fs → bool * fs) : bool * fs :=
  let '(e, f) := rfault f in
  match e, d with
  | None, Some d => list_entries handler (map_to_list d).*1 f
  | _, _ => (false, f)
  end.

Definition deleteDirHandler (ns name : cstring) (f : fs) : bool * fs :=
  let '(e, f) := unlink f ns name in (match e with ENONE => true | _ => false end, f).

Definition rmdir (f : fs) (ns : cstring) : bool * fs :=
  let '(e, f) := rfault f in
  match e with
  | Some _ => (false, f)
  | None => if decide (fs_dirs f !! ns = Some ∅) then (true, set_dirs f (delete ns (fs_dirs f))) else (false, f)
  end.

Definition deleteDirectory (f : fs) (ns : cstring) : bool * fs :=
  let '(ok, f) := listDirectory f (fs_dirs f !! ns) (deleteDirHandler ns) in
  if ok then rmdir f ns else (false, f).

(** The permissions of the copy are not modelled. *)
Definition copyDirHandler (src : dir) (dst name : cstring) (f : fs) : bool * fs :=
  let '(e, f) := rfault f in
  match e, src !! name with
  | None, Some text =>
      let '(e, f) := rfault f in
      match e with
      | Some _ => (false, f)
      | None => copyFile (set_file f dst name []) dst name text
      end
  | _, _ => (false, f)
  end.

(** [src] is what the source directory holds, [base] its last component: where
    the destination exists the copy goes into a directory of that name in it. *)
Definition copyDirectory (f : fs) (src : dir) (base dst : cstring) : bool * fs :=
  let '(ok, realdst, f) :=
    if dir_exists f dst then
      let realdst := dst ++ str "/" ++ base in
      if dir_exists f realdst then (true, realdst, f)
      else let '(ok, f) := mkdir_p f realdst in (ok, realdst, f)
    else let '(ok, f) := mkdir_p f dst in (ok, dst, f) in
  if ok : bool then listDirectory f (Some src) (copyDirHandler src realdst) else (false, f).

(** ** backupUtils.c *)

Definition safeFileSave (f : fs) (ns tempFile originalFile backupFile : cstring) : fs :=
  let '(e, f) := rename f ns originalFile backupFile in
  let f := match e with
           | ENOENT => (unlink f ns backupFile).2
           | _ => f
           end in
  (rename f ns tempFile originalFile).2.

Inductive fileToRead := ORIGINAL_FILE | BACKUP_FILE | FILE_NOT_PRESENT.

(** stat succeeds and the size is positive *)
Definition has_content (f : fs) (ns name : cstring) : bool :=
  match file f ns name with Some t => bool_decide (0 < zlen t) | None => false end.

Definition chooseFileToRead (f : fs) (ns originalFile backupFile : cstring) : fileToRead :=
  if has_content f ns originalFile then ORIGINAL_FILE
  else if has_content f ns backupFile then BACKUP_FILE
  else FILE_NOT_PRESENT.

(** ** storage.c *)

Record StorageFilePaths := mkPaths { p_main : cstring; p_backup : cstring; p_temp : cstring; p_bad : cstring }.

Definition getFilepaths (key : cstring) : StorageFilePaths :=
  mkPaths key (key ++ str ".bak") (key ++ str ".tmp") (key ++ str ".bad").

Definition storageSave (f : fs) (namespace key value : option cstring) : bool * fs :=
  match namespace, key, value with
  | Some ns, Some key, Some value =>
      let paths := getFilepaths key in
      let '(result, f) := if dir_exists f ns then (true, f) else mkdir_p f ns in
      if result then
        let '(opened, f) := fopen_w f ns (p_temp paths) in
        if opened then
          let '(ok1, f) := fputs f ns (p_temp paths) value in
          let '(ok2, f) := fflush f ns (p_temp paths) in
          let '(ok3, f) := fsync f ns (p_temp paths) in
          if ok1 && ok2 && ok3 then
            (true, safeFileSave f ns (p_temp paths) (p_main paths) (p_backup paths))
          else (false, f)
        else (false, f)
      else (false, f)
  | _, _, _ => (false, f)
  end.

(** The parse callback gets the text (NULL when the file could not be read)
    and its own context. *)
Definition loadInternalLocked {S} (f : fs) (namespace key : option cstring)
    (parse : option cstring → S → outcome (bool * S)) (s : S) : outcome (bool * option cstring * S * fs) :=
  match namespace, key with
  | Some ns, Some key =>
      let paths := getFilepaths key in
      let whichFile := chooseFileToRead f ns (p_main paths) (p_backup paths) in
      '(ok, data, s, f, whichFile) ←
        match whichFile with
        | ORIGINAL_FILE =>
            let '(data, f) := readFileContents f ns (p_main paths) in
            '(ok, s) ← parse data s;
            if ok : bool then Ok (true, data, s, f, ORIGINAL_FILE)
            else Ok (false, data, s, (rename f ns (p_main paths) (p_bad paths)).2, BACKUP_FILE)
        | BACKUP_FILE => Ok (false, None, s, f, BACKUP_FILE)
        | FILE_NOT_PRESENT => Ok (false, None, s, f, FILE_NOT_PRESENT)
        end;
      match whichFile with
      | BACKUP_FILE =>
          let '(data, f) := readFileContents f ns (p_backup paths) in
          '(ok, s) ← parse data s;
          let f := if ok : bool then (copyFileByPath f ns (p_backup paths) (p_main paths)).2 else f in
          Ok (ok, data, s, f)
      | _ => Ok (ok, data, s, f)
      end
  | _, _ => Ok (false, None, s, f)
  end.

Definition parseAny (fileData : option cstring) (s : unit) : outcome (bool * unit) :=
  Ok (bool_decide (is_Some fileData), s).

Definition storageLoad (f : fs) (namespace key : option cstring) : outcome (bool * option cstring * fs) :=
  '(result, data, _, f) ← loadInternalLocked f namespace key parseAny tt;
  Ok (result, if result : bool then data else None, f).

Definition storageParse {S} (f : fs) (namespace key : option cstring)
    (parse : option cstring → S → outcome (bool * S)) (s : S) : outcome (bool * S * fs) :=
  '(ok, _, s, f) ← loadInternalLocked f namespace key parse s;
  Ok (ok, s, f).

Definition storageDelete (f : fs) (namespace key : option cstring) : bool * fs :=
  match namespace, key with
  | Some ns, Some key =>
      let paths := getFilepaths key in
      let '(e, f) := unlink f ns (p_main paths) in
      let f := (unlink f ns (p_backup paths)).2 in
      let f := (unlink f ns (p_temp paths)).2 in
      let f := (unlink f ns (p_bad paths)).2 in
      (match e with ENONE => true | _ => false end, f)
  | _, _ => (false, f)
  end.

(** [restored] is what basePath/storage/namespace holds, if it is a directory. *)
Definition storageRestoreNamespace (f : fs) (namespace : cstring) (restored : option dir) : bool * fs :=
  match restored with
  | Some src =>
      let '(pathExists, f) :=
        if dir_exists f namespace then let '(ok, f) := deleteDirectory f namespace in (negb ok, f) else (false, f) in
      if pathExists : bool then (false, f) else copyDirectory f src namespace namespace
  | None => (true, f)
  end.

(** *** storageGetKeys *)

Definition STORAGE_KEY_FILE_NAME := str "store".

(** The last four characters of a name longer than four. *)
Definition extension (name : cstring) : option cstring :=
  if decide (4 < strlen name) then Some (drop (length name - 4) name) else None.

Section Keys.
Context {SM : Type} `{KeyMap SM (option cstring)}.

(** One entry of the directory: regular files and backups are collected. *)
Definition sort_entry (name : cstring) (maps : SM * SM) : outcome (SM * SM) :=
  let '(regularFiles, bakFiles) := maps in
  if decide (name = STORAGE_KEY_FILE_NAME) then Ok maps
  else match extension name with
       | Some ext =>
           if decide (ext = str ".bak") then '(_, bakFiles) ← km_put bakFiles (name ++ [NUL]) None; Ok (regularFiles, bakFiles)
           else if decide (ext ≠ str ".tmp" ∧ ext ≠ str ".bad")
           then '(_, regularFiles) ← km_put regularFiles (name ++ [NUL]) None; Ok (regularFiles, bakFiles)
           else Ok maps
       | None => '(_, regularFiles) ← km_put regularFiles (name ++ [NUL]) None; Ok (regularFiles, bakFiles)
       end.

(** A backup without its regular file counts as a key. *)
Definition add_orphan (k : cstring) (regularFiles : SM) : outcome SM :=
  name ← c_str k;
  let key := take (length name - 4) name in
  found ← km_contains regularFiles (key ++ [NUL]);
  if found : bool then Ok regularFiles
  else '(_, regularFiles) ← km_put regularFiles (key ++ [NUL]) None; Ok regularFiles.

Definition storageGetKeys (f : fs) (namespace : option cstring) : outcome (option (list cstring)) :=
  match namespace with
  | None => Ok None
  | Some ns =>
      match fs_dirs f !! ns with
      | None => Ok None
      | Some d =>
          '(regularFiles, bakFiles) ← foldM sort_entry (map_to_list d).*1 (km_create, km_create);
          regularFiles ← km_iterate bakFiles (λ k _ m, add_orphan k m) regularFiles;
          keys ← km_iterate regularFiles (λ k _ result, key ← c_str k; Ok (result ++ [key])) [];
          Ok (Some keys)
      end
  end.
End Keys.

(** ** What the storage promises for one namespace *)

Class Store (ST : Type) := {
  st_save : ST → option cstring → option cstring → bool * ST;
  st_load : ST → option cstring → outcome (bool * option cstring * ST);
  st_parse : ∀ S : Type, ST → option cstring → (option cstring → S → outcome (bool * S)) → S →
    outcome (bool * S * ST);
  st_delete : ST → option cstring → bool * ST;
  st_keys : ST → outcome (option (list cstring));
  st_restore : ST → option dir → bool * ST
}.
Arguments st_parse {ST Store S}.

(** Keys that make a file name, with room for the suffixes (NAME_MAX is 255),
    and that are not taken for a backup, a temporary or a bad file. *)
Definition file_name (k : cstring) : Prop :=
  k ≠ [] ∧ no_nul k ∧ "/"%char ∉ k ∧ k ∉ [str "."; str ".."] ∧ strlen k ≤ 251.

Definition good_key (k : cstring) : Prop :=
  file_name k ∧ k ≠ STORAGE_KEY_FILE_NAME ∧
  match extension k with Some e => e ∉ [str ".bak"; str ".tmp"; str ".bad"] | None => True end.

#[global] Instance good_key_dec k : Decision (good_key k).
Proof. unfold good_key, file_name, no_nul. destruct (extension k); apply _. Defined.

Class StoreLaws (ST : Type) `{Store ST} := {
  (* the texts stored under the good keys *)
  st_model : ST → gmap cstring cstring → Prop;
  st_good st m k v : st_model st m → m !! k = Some v → good_key k ∧ v ≠ [];
  save_law st m k v : st_model st m → good_key k → v ≠ [] →
    st_model (st_save st (Some k) (Some v)).2
      (if (st_save st (Some k) (Some v)).1 then <[k := v]> m else m);
  load_law st m k : st_model st m → good_key k →
    ∃ st', st_load st (Some k) = Ok (bool_decide (is_Some (m !! k)), m !! k, st') ∧ st_model st' m;
  parse_law {S} st m k v (cb : option cstring → S → outcome (bool * S)) s s' :
    st_model st m → good_key k → m !! k = Some v → cb (Some v) s = Ok (true, s') →
    ∃ st', st_parse st (Some k) cb s = Ok (true, s', st') ∧ st_model st' m;
  delete_law st m k : st_model st m → good_key k → is_Some (m !! k) →
    st_model (st_delete st (Some k)).2 (if (st_delete st (Some k)).1 then delete k m else m);
  (* nothing fails: there is room, and the calls into the system work *)
  st_healthy : ST → Prop;
  healthy_save st m k v : st_model st m → st_healthy st → good_key k → v ≠ [] →
    (st_save st (Some k) (Some v)).1 = true ∧ st_healthy (st_save st (Some k) (Some v)).2;
  healthy_delete st m k : st_model st m → st_healthy st → good_key k → is_Some (m !! k) →
    (st_delete st (Some k)).1 = true ∧ st_healthy (st_delete st (Some k)).2;
  (* the texts a directory restores *)
  st_backup : dir → gmap cstring cstring → Prop;
  restore_none st : st_restore st None = (true, st);
  restore_law st m r m' : st_model st m → st_healthy st → st_backup r m' →
    (st_restore st (Some r)).1 = true ∧ st_model (st_restore st (Some r)).2 m' ∧ st_healthy (st_restore st (Some r)).2;
  keys_law st m : st_model st m → Z.of_nat (size m) ≤ 65535 →
    ∃ l, st_keys st = Ok l ∧ default [] l ≡ₚ elements (dom m)
}.

End Storage.
