(* ===== verification/StorageSpec.v ===== *)
(** * The storage keeps what was saved

    The file system of Storage.v, seen as the texts stored under the keys of
    one namespace ([fs_model]), discharges the promises of [Store]: a save
    that reports success replaces the text, one that reports failure leaves
    it; loading and listing find exactly what was saved. *)

From S2P Require Import Prelude KeyMap Storage.
Import KeyMap Storage.

Module StorageSpec.

(** ** File names *)

Lemma extension_app k e : k ≠ [] → length e = 4%nat → extension (k ++ e) = Some e.
Proof.
  intros Hk He. unfold extension, strlen. rewrite length_app, He. destruct k as [|c k]; [done|].
  rewrite decide_True by (simpl; lia). f_equal.
  replace (length (c :: k) + 4 - 4)%nat with (length (c :: k)) by lia. by rewrite drop_app_length.
Qed.

Lemma extension_split name e : extension name = Some e → name = take (length name - 4) name ++ e ∧ length e = 4%nat.
Proof.
  unfold extension, strlen. case_decide as Hl; [|done]. intros [= <-]. rewrite take_drop. split; [done|].
  rewrite length_drop. lia.
Qed.

Lemma take_stem (k e : cstring) : length e = 4%nat → take (length (k ++ e) - 4) (k ++ e) = k.
Proof. intros He. rewrite length_app, He. replace (length k + 4 - 4)%nat with (length k) by lia. by rewrite take_app_length. Qed.

Definition suffixes : list cstring := [str ".bak"; str ".tmp"; str ".bad"].

Lemma suffix_length e : e ∈ suffixes → length e = 4%nat.
Proof. unfold suffixes. rewrite !elem_of_cons, elem_of_nil. by intros [->|[->|[->|[]]]]. Qed.

Lemma good_not_suffixed k k' e : good_key k → good_key k' → e ∈ suffixes → k ≠ k' ++ e.
Proof.
  intros (_ & _ & Hk) ((Hk' & _) & _) He ->. rewrite (extension_app k' e) in Hk by (done || by apply suffix_length). done.
Qed.

Lemma suffix_inj k k' e e' : e ∈ suffixes → e' ∈ suffixes → k ++ e = k' ++ e' → k = k' ∧ e = e'.
Proof. intros He He' H. apply app_inj_2 in H; [done|]. by rewrite !suffix_length. Qed.

Lemma bak_suffix : str ".bak" ∈ suffixes. Proof. by left. Qed.
Lemma tmp_suffix : str ".tmp" ∈ suffixes. Proof. by right; left. Qed.
Lemma bad_suffix : str ".bad" ∈ suffixes. Proof. by right; right; left. Qed.
#[export] Hint Resolve bak_suffix tmp_suffix bad_suffix good_not_suffixed : storage.

Lemma good_ne_suffixed k k' e : good_key k → good_key k' → e ∈ suffixes → k' ++ e ≠ k.
Proof. intros. by apply not_eq_sym, good_not_suffixed. Qed.

(** ** Files of a namespace *)

Section Files.
Context (ns : cstring).
Implicit Types (f : fs) (m : gmap cstring cstring).

Lemma file_set_eq f name t : dir_exists f ns = true → file (set_file f ns name t) ns name = Some t.
Proof.
  unfold dir_exists, set_file, file. intros [d Hd]%bool_decide_eq_true. rewrite Hd. simpl.
  by rewrite lookup_insert_eq, lookup_insert_eq.
Qed.

Lemma file_set_ne f name name' t : name ≠ name' → file (set_file f ns name t) ns name' = file f ns name'.
Proof.
  intros Hne. unfold set_file, file. destruct (fs_dirs f !! ns) as [d|] eqn:Hd; [|by rewrite Hd].
  simpl. by rewrite lookup_insert_eq, lookup_insert_ne.
Qed.

Lemma file_set f name name' t : dir_exists f ns = true →
  file (set_file f ns name t) ns name' = if decide (name' = name) then Some t else file f ns name'.
Proof. intros Hd. case_decide as Hn; [subst; by apply file_set_eq|by apply file_set_ne]. Qed.

Lemma file_remove f name name' :
  file (remove_file f ns name) ns name' = if decide (name' = name) then None else file f ns name'.
Proof.
  unfold remove_file, file. destruct (fs_dirs f !! ns) as [d|] eqn:Hd.
  - simpl. rewrite lookup_insert_eq. case_decide as Hn; [subst; apply lookup_delete_eq|by apply lookup_delete_ne].
  - rewrite Hd. by case_decide.
Qed.

Lemma file_no_dir f name : dir_exists f ns = false → file f ns name = None.
Proof.
  unfold dir_exists, file. intros Hd%bool_decide_eq_false. destruct (fs_dirs f !! ns); [|done]. by destruct Hd.
Qed.

Lemma file_dir f name t : file f ns name = Some t → dir_exists f ns = true.
Proof. intros Hf. destruct (dir_exists f ns) eqn:E; [done|]. by rewrite file_no_dir in Hf. Qed.

(** [after f f' g]: from [f] to [f'] nothing failed that was not allowed to,
    and the namespace exists and holds the files [g]. *)
Record after f (f' : fs) (g : cstring → option cstring) : Prop := {
  af_faults : fs_rfaults f' = fs_rfaults f;
  af_dir : dir_exists f' ns = true;
  af_files name : file f' ns name = g name
}.

Lemma after_refl f : dir_exists f ns = true → after f f (file f ns).
Proof. by split. Qed.

Lemma after_trans f f1 f2 g1 g2 : after f f1 g1 → after f1 f2 g2 → after f f2 g2.
Proof. intros H1 H2. split; try apply H2. rewrite (af_faults _ _ _ H2). apply H1. Qed.

Lemma after_set f name t : dir_exists f ns = true →
  after f (set_file f ns name t) (λ n, if decide (n = name) then Some t else file f ns n).
Proof.
  intros Hd. split; [| |intros n; by apply file_set]; revert Hd; unfold dir_exists, set_file;
    intros [d Hd]%bool_decide_eq_true; rewrite Hd; simpl; [done|].
  rewrite lookup_insert_eq. by apply bool_decide_eq_true.
Qed.

Lemma after_remove f name : dir_exists f ns = true →
  after f (remove_file f ns name) (λ n, if decide (n = name) then None else file f ns n).
Proof.
  intros Hd. split; [| |intros n; by apply file_remove]; revert Hd; unfold dir_exists, remove_file;
    intros [d Hd]%bool_decide_eq_true; rewrite Hd; simpl; [done|].
  rewrite lookup_insert_eq. by apply bool_decide_eq_true.
Qed.

Lemma after_wfault f e f' : dir_exists f ns = true → wfault f = (e, f') → after f f' (file f ns).
Proof. unfold wfault. intros Hd. by destruct (fs_wfaults f); intros [= <- <-]; split. Qed.

Lemma rfault_none f : fs_rfaults f = [] → rfault f = (None, f).
Proof. unfold rfault. by intros ->. Qed.

Lemma rename_some f from to t : fs_rfaults f = [] → file f ns from = Some t →
  ∃ f', rename f ns from to = (ENONE, f') ∧
    after f f' (λ n, if decide (n = to) then Some t else if decide (n = from) then None else file f ns n).
Proof.
  intros Hr Hf. unfold rename. rewrite rfault_none by done. unfold file in Hf |- *.
  destruct (fs_dirs f !! ns) as [d|] eqn:Hd; [|done]. rewrite Hf. eexists. split; [done|]. split; [done| |].
  - unfold dir_exists. simpl. rewrite lookup_insert_eq. by apply bool_decide_eq_true.
  - intros n. unfold file. simpl. rewrite lookup_insert_eq.
    case_decide as H1; [subst; by rewrite lookup_insert_eq|]. rewrite lookup_insert_ne by done.
    case_decide as H2; [subst; by rewrite lookup_delete_eq|by rewrite lookup_delete_ne].
Qed.

Lemma rename_none f from to : fs_rfaults f = [] → file f ns from = None → rename f ns from to = (ENOENT, f).
Proof.
  intros Hr Hf. unfold rename. rewrite rfault_none by done. unfold file in Hf.
  destruct (fs_dirs f !! ns); [by rewrite Hf|done].
Qed.

Lemma unlink_spec f name : fs_rfaults f = [] → dir_exists f ns = true →
  (unlink f ns name).1 = (if file f ns name then ENONE else ENOENT) ∧
  after f (unlink f ns name).2 (λ n, if decide (n = name) then None else file f ns n).
Proof.
  intros Hr Hd. unfold unlink. rewrite rfault_none by done. destruct (file f ns name) eqn:Hf.
  - split; [done|]. by apply after_remove.
  - split; [done|]. split; [done|done|]. intros n. case_decide; by subst.
Qed.

Lemma fopen_w_spec f name : dir_exists f ns = true →
  ∃ g, after f (fopen_w f ns name).2 g ∧ (∀ n, n ≠ name → g n = file f ns n).
Proof.
  intros Hd. unfold fopen_w. destruct (wfault f) as [e f1] eqn:E. pose proof (after_wfault _ _ _ Hd E) as Ha.
  destruct e; [by exists (file f ns)|]. rewrite (af_dir _ _ _ Ha). eexists. split; [eapply after_trans; [done|]|].
  - apply after_set, Ha.
  - intros n Hn. simpl. rewrite decide_False by done. apply Ha.
Qed.

(** A write ends with the whole text or reports a failure; nothing else changes. *)
Lemma fputs_spec f name t : dir_exists f ns = true →
  ∃ g, after f (fputs f ns name t).2 g ∧ (∀ n, n ≠ name → g n = file f ns n) ∧
    ((fputs f ns name t).1 = true → g name = Some t).
Proof.
  intros Hd. unfold fputs. destruct (wfault f) as [e f1] eqn:E. pose proof (after_wfault _ _ _ Hd E) as Ha.
  destruct e as [k|]; (eexists; split; [eapply after_trans; [done|apply after_set, Ha]|]); simpl;
    (split; [intros n Hn; rewrite decide_False by done; apply Ha|]); [done|]. by rewrite decide_True.
Qed.

Lemma fflush_spec f name : dir_exists f ns = true →
  ∃ g, after f (fflush f ns name).2 g ∧ (∀ n, n ≠ name → g n = file f ns n) ∧
    ((fflush f ns name).1 = true → g name = file f ns name).
Proof.
  intros Hd. unfold fflush. destruct (wfault f) as [e f1] eqn:E. pose proof (after_wfault _ _ _ Hd E) as Ha.
  destruct e as [k|].
  - eexists. split; [eapply after_trans; [done|apply after_set, Ha]|]. simpl.
    split; [intros n Hn; rewrite decide_False by done; apply Ha|done].
  - by exists (file f ns).
Qed.

(** safeFileSave moves the new text into place and keeps the old one as backup. *)
Lemma safeFileSave_spec f main bak tmp t : fs_rfaults f = [] → file f ns tmp = Some t →
  main ≠ bak → tmp ≠ bak → tmp ≠ main →
  after f (safeFileSave f ns tmp main bak)
    (λ n, if decide (n = main) then Some t
          else if decide (n = tmp) then None
          else if decide (n = bak) then file f ns main
          else file f ns n).
Proof.
  intros Hr Ht H1 H2 H3. unfold safeFileSave. pose proof (file_dir _ _ _ Ht) as Hd.
  assert (∃ f1, (let '(e, f) := rename f ns main bak in
      match e with ENOENT => (unlink f ns bak).2 | _ => f end) = f1 ∧
    after f f1 (λ n, if decide (n = bak) then file f ns main else if decide (n = main) then None else file f ns n))
    as (f1 & Hf1 & Ha).
  { destruct (file f ns main) as [o|] eqn:Ho.
    - destruct (rename_some f main bak o Hr Ho) as (f1 & -> & Ha). by exists f1.
    - rewrite rename_none by done. eexists. split; [done|]. destruct (unlink_spec f bak Hr Hd) as [_ [? ? Hf]].
      split; [done|done|]. intros n. rewrite Hf. case_decide; [done|]. case_decide; by subst. }
  destruct (rename f ns main bak) as [e f0]. rewrite Hf1.
  assert (Ht1 : file f1 ns tmp = Some t) by (rewrite (af_files _ _ _ Ha), !decide_False by done; done).
  destruct (rename_some f1 tmp main t) as (f2 & -> & Ha2); [by rewrite (af_faults _ _ _ Ha)|done|].
  destruct Ha as [Hr1 Hd1 Hf]. destruct Ha2 as [Hr2 Hd2 Hf2]. simpl. split; [congruence|done|]. intros n.
  rewrite Hf2, Hf. repeat case_decide; by subst.
Qed.

(** ** The texts of the namespace *)

(** Names storageGetKeys takes for a key, and for a backup. *)
Definition regular (name : cstring) : Prop :=
  name ≠ STORAGE_KEY_FILE_NAME ∧ match extension name with Some e => e ∉ suffixes | None => True end.
Definition backup (name : cstring) : Prop := name ≠ STORAGE_KEY_FILE_NAME ∧ extension name = Some (str ".bak").

#[global] Instance regular_dec name : Decision (regular name).
Proof. unfold regular. destruct (extension name); apply _. Defined.
#[global] Instance backup_dec name : Decision (backup name).
Proof. unfold backup. apply _. Defined.

Lemma regular_suffixed k e : k ≠ [] → e ∈ suffixes → ~ regular (k ++ e).
Proof. intros Hk He [_ Hr]. rewrite extension_app in Hr by (done || by apply suffix_length). done. Qed.

Record fs_model f m : Prop := {
  fm_faults : fs_rfaults f = [];
  fm_main k : good_key k → file f ns k = m !! k;
  fm_bak k : good_key k → m !! k = None → file f ns (k ++ str ".bak") = None;
  fm_names name t : file f ns name = Some t →
    no_nul name ∧ strlen name ≤ 255 ∧ (regular name → good_key name) ∧ ∀ k, k ≠ [] → name = k ++ str ".bak" → good_key k;
  fm_good k v : m !! k = Some v → good_key k ∧ v ≠ []
}.

Lemma good_suffixed k e : good_key k → e ∈ suffixes → no_nul (k ++ e) ∧ strlen (k ++ e) ≤ 255.
Proof.
  intros ((_ & Hn & _ & _ & Hl) & _) He. split.
  - apply no_nul_app; [done|]. revert He. unfold suffixes. rewrite !elem_of_cons, elem_of_nil.
    intros [->|[->|[->|[]]]]; auto with zilker.
  - unfold strlen in *. rewrite length_app, (suffix_length e He). lia.
Qed.

Lemma fs_model_ext f f' m : fs_rfaults f' = fs_rfaults f → (∀ n, file f' ns n = file f ns n) →
  fs_model f m → fs_model f' m.
Proof.
  intros Hr Hf [H1 H2 H3 H4 H5]. split; [congruence|intros; rewrite Hf; auto..| |done].
  intros name t. rewrite Hf. apply H4.
Qed.

(** From [f] to [f'] at most the file [name] changes. *)
Definition touches f (f' : fs) (name : cstring) : Prop :=
  ∃ g, after f f' g ∧ ∀ n, n ≠ name → g n = file f ns n.

Lemma touches_trans f f1 f2 name : touches f f1 name → touches f1 f2 name → touches f f2 name.
Proof.
  intros (g1 & Ha1 & Hg1) (g2 & Ha2 & Hg2). exists g2. split; [by eapply after_trans|].
  intros n Hn. rewrite Hg2, (af_files _ _ _ Ha1) by done. auto.
Qed.

Lemma touches_dir f f' name : touches f f' name → dir_exists f' ns = true.
Proof. intros (g & Ha & _). apply Ha. Qed.

(** The temporary file of a key is no part of the texts. *)
Lemma touches_tmp f f' m k : fs_model f m → good_key k → touches f f' (k ++ str ".tmp") → fs_model f' m.
Proof.
  intros [Hr Hmain Hbak Hnames Hgood] Hk (g & Ha & Hg). split; [|intros k' Hk'..| |done].
  - by rewrite (af_faults _ _ _ Ha).
  - rewrite (af_files _ _ _ Ha), Hg by (apply good_not_suffixed; auto with storage). by apply Hmain.
  - intros Hn. rewrite (af_files _ _ _ Ha), Hg; [by apply Hbak|].
    intros [_ ?]%suffix_inj; auto with storage; done.
  - intros name t Hf. rewrite (af_files _ _ _ Ha) in Hf. destruct (decide (name = k ++ str ".tmp")) as [->|Hne].
    + destruct (good_suffixed k (str ".tmp") Hk tmp_suffix). split; [done|]. split; [done|].
      split; [intros Hreg; exfalso; revert Hreg; apply regular_suffixed; [apply Hk|apply tmp_suffix]|].
      intros k' _ [_ ?]%suffix_inj; auto with storage; done.
    + rewrite Hg in Hf by done. by apply (Hnames name t).
Qed.

(** The namespace directory exists after the first steps of a save that go well. *)
Lemma ensure_dir f m : fs_model f m →
  ∃ ok f1, (if dir_exists f ns then (true, f) else mkdir_p f ns) = (ok, f1) ∧
    (ok = true → dir_exists f1 ns = true) ∧ fs_model f1 m ∧ (∀ n, file f1 ns n = file f ns n).
Proof.
  intros Hm. destruct (dir_exists f ns) eqn:Hd; [by exists true, f|]. unfold mkdir_p, wfault.
  destruct (fs_wfaults f) as [|[n|] l]; (do 2 eexists; split; [done|]).
  2: split; [done|]; split; [by apply (fs_model_ext f)|done].
  all: split; [intros _; unfold dir_exists; simpl; rewrite lookup_insert_eq; by apply bool_decide_eq_true|].
  all: assert (Hf : ∀ l n, file (set_dirs l (<[ns := ∅]> (fs_dirs f))) ns n = file f ns n)
    by (intros; rewrite (file_no_dir f) by done; unfold file; simpl; by rewrite lookup_insert_eq).
  all: split; [|by intros; apply Hf].
  all: apply (fs_model_ext f); [done|by intros; apply Hf|done].
Qed.

Lemma save_spec f m k v : fs_model f m → good_key k → v ≠ [] →
  fs_model (storageSave f (Some ns) (Some k) (Some v)).2
    (if (storageSave f (Some ns) (Some k) (Some v)).1 then <[k := v]> m else m).
Proof.
  intros Hm Hk Hv. unfold storageSave. cbn [getFilepaths p_temp p_main p_backup]. set (tmp := k ++ str ".tmp").
  destruct (ensure_dir f m Hm) as (ok & f1 & -> & Hd1 & Hm1 & _). destruct ok; [|done]. specialize (Hd1 eq_refl).
  pose proof (fopen_w_spec f1 tmp Hd1) as T1. destruct (fopen_w f1 ns tmp) as [opened f2].
  destruct opened; [|by apply (touches_tmp f1 f2 m k)]. cbn [snd] in T1. fold (touches f1 f2 tmp) in T1.
  destruct (fputs_spec f2 tmp v (touches_dir _ _ _ T1)) as (g3 & A3 & G3 & V3).
  destruct (fputs f2 ns tmp v) as [ok1 f3]. cbn [fst snd] in *.
  destruct (fflush_spec f3 tmp (af_dir _ _ _ A3)) as (g4 & A4 & G4 & V4).
  destruct (fflush f3 ns tmp) as [ok2 f4]. cbn [fst snd] in *. unfold fsync.
  destruct (fflush_spec f4 tmp (af_dir _ _ _ A4)) as (g5 & A5 & G5 & V5).
  destruct (fflush f4 ns tmp) as [ok3 f5]. cbn [fst snd] in *.
  assert (T : touches f1 f5 tmp).
  { eapply touches_trans; [exact T1|]. eapply touches_trans; [by exists g3|]. eapply touches_trans; [by exists g4|].
    by exists g5. }
  pose proof (touches_tmp f1 f5 m k Hm1 Hk T) as Hm5. destruct (ok1 && ok2 && ok3) eqn:Hok; [|done].
  apply andb_true_iff in Hok as [[-> ->]%andb_true_iff ->]. cbn [andb fst snd].
  assert (Ht : file f5 ns tmp = Some v).
  { rewrite (af_files _ _ _ A5), V5, (af_files _ _ _ A4), V4, (af_files _ _ _ A3), V3 by done. done. }
  assert (H1 : k ≠ k ++ str ".bak") by (apply good_not_suffixed; auto with storage).
  assert (H3 : tmp ≠ k) by (apply good_ne_suffixed; auto with storage).
  assert (H2 : tmp ≠ k ++ str ".bak") by (by intros [_ ?]%suffix_inj; auto with storage).
  pose proof (safeFileSave_spec f5 k (k ++ str ".bak") tmp v (fm_faults _ _ Hm5) Ht H1 H2 H3) as Ha.
  destruct Ha as [Hr Hd Hf]. destruct Hm5 as [Hr5 Hmain Hbak Hnames Hgood]. split.
  - by rewrite Hr.
  - intros k' Hk'. rewrite Hf. destruct (decide (k' = k)) as [->|Hne].
    + by rewrite lookup_insert_eq.
    + rewrite lookup_insert_ne by done.
      rewrite !decide_False by (apply good_not_suffixed; auto with storage). by apply Hmain.
  - intros k' Hk' Hn. rewrite Hf. apply lookup_insert_None in Hn as [Hn Hne].
    rewrite decide_False by (apply good_ne_suffixed; auto with storage).
    rewrite decide_False by (by intros [_ ?]%suffix_inj; auto with storage).
    rewrite decide_False by (intros [? _]%suffix_inj; auto with storage). by apply Hbak.
  - intros name t. rewrite Hf. destruct (decide (name = k)) as [->|Hnk].
    { intros _. pose proof Hk as ((_ & Hnn & _ & _ & Hlen) & _ & Hk'). split; [done|]. split; [lia|]. split; [done|]. intros k' Hne' ->.
      rewrite extension_app in Hk' by done. exfalso. by apply Hk'; left. }
    destruct (decide (name = tmp)) as [->|Hnt]; [done|].
    destruct (decide (name = k ++ str ".bak")) as [->|Hnb]; [|apply Hnames].
    intros _. destruct (good_suffixed k (str ".bak") Hk bak_suffix). split; [done|]. split; [done|].
    split; [intros Hreg; exfalso; revert Hreg; apply regular_suffixed; [apply Hk|apply bak_suffix]|].
    intros k' _ [<- _]%suffix_inj; auto with storage.
  - intros k' v' Hl. apply lookup_insert_Some in Hl as [[<- <-]|[_ Hl]]; [done|]. by apply Hgood in Hl.
Qed.

(** ** Loading *)

Lemma load_present {S} f m k v (cb : option cstring → S → outcome (bool * S)) s s' :
  fs_model f m → good_key k → m !! k = Some v → cb (Some v) s = Ok (true, s') →
  loadInternalLocked f (Some ns) (Some k) cb s = Ok (true, Some v, s', f).
Proof.
  intros Hm Hk Hv Hcb. unfold loadInternalLocked, chooseFileToRead, has_content, readFileContents.
  cbn [getFilepaths p_main p_backup]. rewrite (fm_main _ _ Hm k Hk), Hv.
  destruct (fm_good _ _ Hm k v Hv) as [_ Hne].
  rewrite bool_decide_eq_true_2 by (destruct v; [done|simpl; lia]).
  rewrite (rfault_none f (fm_faults _ _ Hm)), (fm_main _ _ Hm k Hk), Hv, Hcb. done.
Qed.

Lemma load_absent {S} f m k (cb : option cstring → S → outcome (bool * S)) s :
  fs_model f m → good_key k → m !! k = None →
  loadInternalLocked f (Some ns) (Some k) cb s = Ok (false, None, s, f).
Proof.
  intros Hm Hk Hv. unfold loadInternalLocked, chooseFileToRead, has_content.
  cbn [getFilepaths p_main p_backup].
  by rewrite (fm_main _ _ Hm k Hk), Hv, (fm_bak _ _ Hm k Hk Hv).
Qed.

Lemma load_spec f m k : fs_model f m → good_key k →
  storageLoad f (Some ns) (Some k) = Ok (bool_decide (is_Some (m !! k)), m !! k, f).
Proof.
  intros Hm Hk. unfold storageLoad. destruct (m !! k) as [v|] eqn:Hv.
  - rewrite (load_present f m k v _ _ tt Hm Hk Hv) by done. done.
  - by rewrite (load_absent f m k _ _ Hm Hk Hv).
Qed.

(** ** When writing works *)

Lemma set_file_wfaults f name t : fs_wfaults (set_file f ns name t) = fs_wfaults f.
Proof. unfold set_file. by destruct (fs_dirs f !! ns). Qed.

Lemma wfault_none f : fs_wfaults f = [] → wfault f = (None, f).
Proof. unfold wfault. by intros ->. Qed.

Lemma rename_wfaults f from to : fs_wfaults (rename f ns from to).2 = fs_wfaults f.
Proof.
  unfold rename, rfault. destruct (fs_rfaults f) as [|[] l]; simpl; try done.
  all: destruct (fs_dirs f !! ns) as [d|]; simpl; [by destruct (d !! from)|done].
Qed.

Lemma unlink_wfaults f name : fs_wfaults (unlink f ns name).2 = fs_wfaults f.
Proof.
  unfold unlink, rfault, remove_file, file. destruct (fs_rfaults f) as [|[] l]; simpl; try done.
  all: destruct (fs_dirs f !! ns) as [d|]; simpl; [by destruct (d !! name)|done].
Qed.

Lemma safeFileSave_wfaults f tmp main bak : fs_wfaults (safeFileSave f ns tmp main bak) = fs_wfaults f.
Proof.
  unfold safeFileSave. pose proof (rename_wfaults f main bak) as Hr. destruct (rename f ns main bak) as [e f1].
  rewrite rename_wfaults. destruct e; [done| |done]. by rewrite unlink_wfaults.
Qed.

Lemma save_works f k v : fs_wfaults f = [] →
  (storageSave f (Some ns) (Some k) (Some v)).1 = true ∧ fs_wfaults (storageSave f (Some ns) (Some k) (Some v)).2 = [].
Proof.
  intros Hw. unfold storageSave. cbn [getFilepaths p_temp p_main p_backup].
  assert (∃ f1, (if dir_exists f ns then (true, f) else mkdir_p f ns) = (true, f1) ∧ dir_exists f1 ns = true ∧ fs_wfaults f1 = [])
    as (f1 & -> & Hd & Hw1).
  { destruct (dir_exists f ns) eqn:Hd; [by exists f|]. unfold mkdir_p. rewrite (wfault_none f Hw). eexists. split; [done|].
    split; [|done]. unfold dir_exists. simpl. rewrite lookup_insert_eq. by apply bool_decide_eq_true. }
  unfold fopen_w. rewrite (wfault_none f1 Hw1), Hd. unfold fsync, fputs, fflush.
  repeat (rewrite wfault_none by (rewrite ?set_file_wfaults; done)). simpl. split; [done|].
  by rewrite safeFileSave_wfaults, !set_file_wfaults.
Qed.

Lemma delete_wfaults f k : fs_wfaults (storageDelete f (Some ns) (Some k)).2 = fs_wfaults f.
Proof.
  unfold storageDelete. pose proof (unlink_wfaults f (p_main (getFilepaths k))) as Hu.
  destruct (unlink f ns _) as [e f1]. simpl in *. by rewrite !unlink_wfaults.
Qed.

(** ** Deleting *)

Lemma storage_delete_spec f m k : fs_model f m → good_key k → is_Some (m !! k) →
  (storageDelete f (Some ns) (Some k)).1 = true ∧
  fs_model (storageDelete f (Some ns) (Some k)).2 (delete k m).
Proof.
  intros Hm Hk [v Hv]. unfold storageDelete. cbn [getFilepaths p_main p_backup p_temp p_bad].
  pose proof (fm_main _ _ Hm k Hk) as Hf. rewrite Hv in Hf.
  destruct (unlink_spec f k (fm_faults _ _ Hm) (file_dir _ _ _ Hf)) as [He A1]. rewrite Hf in He.
  destruct (unlink f ns k) as [e f1]. cbn [fst snd] in *. subst e. split; [done|].
  assert (Hr1 : fs_rfaults f1 = []) by (rewrite (af_faults _ _ _ A1); apply Hm).
  destruct (unlink_spec f1 (k ++ str ".bak") Hr1 (af_dir _ _ _ A1)) as [_ A2].
  set (f2 := (unlink f1 ns (k ++ str ".bak")).2) in *.
  assert (Hr2 : fs_rfaults f2 = []) by (by rewrite (af_faults _ _ _ A2)).
  destruct (unlink_spec f2 (k ++ str ".tmp") Hr2 (af_dir _ _ _ A2)) as [_ A3].
  set (f3 := (unlink f2 ns (k ++ str ".tmp")).2) in *.
  assert (Hr3 : fs_rfaults f3 = []) by (by rewrite (af_faults _ _ _ A3)).
  destruct (unlink_spec f3 (k ++ str ".bad") Hr3 (af_dir _ _ _ A3)) as [_ A4].
  set (f4 := (unlink f3 ns (k ++ str ".bad")).2) in *.
  assert (Hfile : ∀ n, file f4 ns n = if decide (n ∈ [k; k ++ str ".bak"; k ++ str ".tmp"; k ++ str ".bad"]) then None
    else file f ns n).
  { intros n. rewrite (af_files _ _ _ A4), (af_files _ _ _ A3), (af_files _ _ _ A2), (af_files _ _ _ A1).
    repeat case_decide; try done; set_solver. }
  destruct Hm as [Hr Hmain Hbak Hnames Hgood]. split.
  - by rewrite (af_faults _ _ _ A4).
  - intros k' Hk'. rewrite Hfile. destruct (decide (k' = k)) as [->|Hne].
    + rewrite decide_True by (by left). by rewrite lookup_delete_eq.
    + rewrite lookup_delete_ne, decide_False by
        (rewrite ?not_elem_of_cons; repeat split; try done; try (apply good_not_suffixed; auto with storage); apply not_elem_of_nil).
      by apply Hmain.
  - intros k' Hk' Hn. rewrite Hfile. case_decide as Hin; [done|]. apply Hbak; [done|].
    apply lookup_delete_None in Hn as [<-|]; [|done]. destruct Hin. by right; left.
  - intros name t. rewrite Hfile. case_decide; [done|apply Hnames].
  - intros k' v' [_ Hl]%lookup_delete_Some. by apply Hgood in Hl.
Qed.

(** ** Restoring the namespace *)

(** From [f] to [f'] at most the directory [ns] changes, to [d]. *)
Record becomes f (f' : fs) (d : option dir) : Prop := {
  bc_dir : fs_dirs f' !! ns = d;
  bc_rfaults : fs_rfaults f' = fs_rfaults f;
  bc_wfaults : fs_wfaults f' = fs_wfaults f
}.

Lemma becomes_trans f f1 f2 d1 d2 : becomes f f1 d1 → becomes f1 f2 d2 → becomes f f2 d2.
Proof. intros [] []. split; congruence. Qed.

Lemma becomes_set f name t d : fs_dirs f !! ns = Some d → becomes f (set_file f ns name t) (Some (<[name := t]> d)).
Proof. intros Hd. unfold set_file. rewrite Hd. split; [|done..]. simpl. by rewrite lookup_insert_eq. Qed.

Lemma delete_entries names : ∀ f d, fs_rfaults f = [] → fs_dirs f !! ns = Some d → NoDup names →
  (∀ n, n ∈ names ↔ is_Some (d !! n)) →
  ∃ f', list_entries (deleteDirHandler ns) names f = (true, f') ∧ becomes f f' (Some ∅).
Proof.
  induction names as [|n names IH]; intros f d Hr Hd Hnd Hn.
  { exists f. split; [done|]. split; [|done..]. rewrite Hd. f_equal. apply map_empty. intros i.
    apply eq_None_not_Some. intros Hi%Hn. by apply elem_of_nil in Hi. }
  apply NoDup_cons in Hnd as [Hnot Hnd]. destruct (proj1 (Hn n)) as [t Ht]; [by left|].
  cbn [list_entries]. unfold deleteDirHandler at 1, unlink. rewrite rfault_none by done.
  unfold file, remove_file. rewrite Hd, Ht. set (f1 := set_dirs _ _).
  assert (B1 : becomes f f1 (Some (delete n d))) by (split; [|done..]; simpl; by rewrite lookup_insert_eq).
  destruct (IH f1 (delete n d)) as (f' & -> & B2); [done|apply B1|done| |by exists f'; split; [|by eapply becomes_trans]].
  intros i. rewrite lookup_delete_is_Some, <-Hn, elem_of_cons. split; [|naive_solver].
  intros Hi. split; [by intros ->|by right].
Qed.

Lemma dir_names (d : dir) : NoDup (map_to_list d).*1 ∧ ∀ n, n ∈ (map_to_list d).*1 ↔ is_Some (d !! n).
Proof.
  split; [apply NoDup_fst_map_to_list|]. intros n. rewrite list_elem_of_fmap. split.
  - intros ([k v] & -> & Hin%elem_of_map_to_list). simpl. eauto.
  - intros [v Hv]. exists (n, v). split; [done|]. by apply elem_of_map_to_list.
Qed.

Lemma delete_directory_spec f d : fs_rfaults f = [] → fs_dirs f !! ns = Some d →
  ∃ f', deleteDirectory f ns = (true, f') ∧ becomes f f' None.
Proof.
  intros Hr Hd. unfold deleteDirectory, listDirectory. rewrite rfault_none, Hd by done. destruct (dir_names d) as [Hnd Hn].
  destruct (delete_entries _ f d Hr Hd Hnd Hn) as (f1 & -> & B1). unfold rmdir.
  rewrite rfault_none by (by rewrite (bc_rfaults _ _ _ B1)). rewrite decide_True by apply B1.
  eexists. split; [done|]. eapply becomes_trans; [exact B1|]. split; [|done..]. apply lookup_delete_eq.
Qed.

Lemma copy_entries (src : dir) names : ∀ f d, fs_rfaults f = [] → fs_dirs f !! ns = Some d →
  (∀ n, n ∈ names → ∃ t, src !! n = Some t ∧ t ≠ []) →
  ∃ f' d', list_entries (copyDirHandler src ns) names f = (true, f') ∧ becomes f f' (Some d') ∧
    ∀ n, d' !! n = if decide (n ∈ names) then src !! n else d !! n.
Proof.
  induction names as [|n names IH]; intros f d Hr Hd Hn; [by exists f, d|].
  destruct (Hn n) as (t & Ht & Hne); [by left|]. cbn [list_entries]. unfold copyDirHandler at 1.
  rewrite rfault_none, Ht by done. rewrite rfault_none by done. unfold copyFile.
  pose proof (becomes_set f n [] d Hd) as B1. set (f1 := set_file f ns n []) in *.
  rewrite rfault_none by (by rewrite (bc_rfaults _ _ _ B1)). rewrite bool_decide_eq_true_2 by done.
  pose proof (becomes_set f1 n t _ (bc_dir _ _ _ B1)) as B2. rewrite insert_insert_eq in B2.
  pose proof (becomes_trans _ _ _ _ _ B1 B2) as B. set (f2 := set_file f1 ns n t) in *.
  destruct (IH f2 (<[n := t]> d)) as (f' & d' & -> & B3 & Hd'); [by rewrite (bc_rfaults _ _ _ B)|apply B2|auto using list_elem_of_further|].
  exists f', d'. split; [done|]. split; [by eapply becomes_trans|]. intros i. rewrite Hd'.
  destruct (decide (i ∈ names)) as [Hi|Hi]; [by rewrite decide_True by (by right)|]. destruct (decide (i = n)) as [->|Hin].
  - by rewrite decide_True, lookup_insert_eq by (by left).
  - rewrite decide_False, lookup_insert_ne by (by rewrite ?not_elem_of_cons). done.
Qed.

(** The copy ends at the first empty file. *)
Lemma copy_stops (src : dir) names : ∀ f d, fs_rfaults f = [] → fs_dirs f !! ns = Some d →
  (∀ n, n ∈ names → is_Some (src !! n)) → Exists (λ n, src !! n = Some []) names →
  ∃ f' d', list_entries (copyDirHandler src ns) names f = (false, f') ∧ becomes f f' (Some d') ∧
    ∀ n, n ∉ names → d' !! n = d !! n.
Proof.
  induction names as [|n names IH]; intros f d Hr Hd Hn He; [by inversion He|].
  destruct (Hn n) as [t Ht]; [by left|]. cbn [list_entries]. unfold copyDirHandler at 1.
  rewrite rfault_none, Ht by done. rewrite rfault_none by done. unfold copyFile.
  pose proof (becomes_set f n [] d Hd) as B1. set (f1 := set_file f ns n []) in *.
  rewrite rfault_none by (by rewrite (bc_rfaults _ _ _ B1)).
  pose proof (becomes_set f1 n t _ (bc_dir _ _ _ B1)) as B2. rewrite insert_insert_eq in B2.
  pose proof (becomes_trans _ _ _ _ _ B1 B2) as B. set (f2 := set_file f1 ns n t) in *.
  destruct (decide (t = [])) as [->|Hne].
  - rewrite bool_decide_eq_false_2 by (by intros []). eexists _, _. split; [done|]. split; [exact B|].
    intros i [Hi _]%not_elem_of_cons. by rewrite lookup_insert_ne.
  - rewrite bool_decide_eq_true_2 by done. apply Exists_cons in He as [He|He]; [congruence|].
    destruct (IH f2 (<[n := t]> d)) as (f' & d' & -> & B3 & Hd'); [by rewrite (bc_rfaults _ _ _ B)|apply B2|auto using list_elem_of_further|done|].
    exists f', d'. split; [done|]. split; [by eapply becomes_trans|]. intros i [Hi1 Hi2]%not_elem_of_cons.
    by rewrite Hd', lookup_insert_ne.
Qed.

(** The old directory is gone before the first file is copied. *)
Lemma restore_start f r : fs_rfaults f = [] → fs_wfaults f = [] →
  ∃ f', storageRestoreNamespace f ns (Some r) = list_entries (copyDirHandler r ns) (map_to_list r).*1 f' ∧ becomes f f' (Some ∅).
Proof.
  intros Hr Hw. unfold storageRestoreNamespace.
  assert (∃ f1, (if dir_exists f ns then let '(ok, f) := deleteDirectory f ns in (negb ok, f) else (false, f)) = (false, f1) ∧
    becomes f f1 None) as (f1 & -> & B1).
  { destruct (dir_exists f ns) eqn:Hd; unfold dir_exists in Hd.
    - apply bool_decide_eq_true in Hd as [d Hd]. destruct (delete_directory_spec f d Hr Hd) as (f1 & -> & B1). by exists f1.
    - apply bool_decide_eq_false in Hd. exists f. split; [done|]. split; [|done..]. by apply eq_None_not_Some. }
  unfold copyDirectory. assert (Hno : dir_exists f1 ns = false).
  { unfold dir_exists. rewrite (bc_dir _ _ _ B1). by apply bool_decide_eq_false_2; intros []. }
  rewrite Hno. unfold mkdir_p. rewrite wfault_none by (by rewrite (bc_wfaults _ _ _ B1)). cbv beta iota.
  set (f2 := set_dirs f1 _).
  assert (B2 : becomes f f2 (Some ∅)).
  { eapply becomes_trans; [exact B1|]. split; [|done..]. simpl. apply lookup_insert_eq. }
  unfold listDirectory. rewrite rfault_none by (by rewrite (bc_rfaults _ _ _ B2)). by exists f2.
Qed.

(** A directory that can be restored: the files of a namespace, none empty. *)
Definition restorable (r : dir) m : Prop :=
  fs_model (mkFs {[ns := r]} [] [] []) m ∧ ∀ n t, r !! n = Some t → t ≠ [].

Lemma restore_spec f r m : fs_rfaults f = [] → fs_wfaults f = [] → restorable r m →
  ∃ f', storageRestoreNamespace f ns (Some r) = (true, f') ∧ fs_model f' m ∧ fs_wfaults f' = [].
Proof.
  intros Hr Hw [Hm Hne]. destruct (restore_start f r Hr Hw) as (f2 & -> & B2). destruct (dir_names r) as [_ Hn].
  destruct (copy_entries r (map_to_list r).*1 f2 ∅) as (f3 & d & -> & B3 & Hd).
  - by rewrite (bc_rfaults _ _ _ B2).
  - apply B2.
  - intros n [t Ht]%Hn. eauto.
  - exists f3. split; [done|]. pose proof (becomes_trans _ _ _ _ _ B2 B3) as B. split; [|by rewrite (bc_wfaults _ _ _ B)].
    apply (fs_model_ext (mkFs {[ns := r]} [] [] [])); [by rewrite (bc_rfaults _ _ _ B)| |done]. intros n. unfold file. simpl.
    rewrite (bc_dir _ _ _ B), lookup_singleton_eq, Hd. case_decide as Hin; [done|]. rewrite lookup_empty. symmetry.
    apply eq_None_not_Some. by intros ?%Hn.
Qed.

End Files.
(** ** Listing the keys *)

Section Keys.
Context {SM : Type} `{KeyMapLaws SM (option cstring)}.

Abbreviation zk := (λ n : cstring, n ++ [NUL]).

Lemma zk_inj a b : a ++ [NUL] = b ++ [NUL] → a = b.
Proof. intros Hab. by apply app_inj_tail in Hab as [-> _]. Qed.

Lemma zk_elem (n : cstring) (l : list cstring) : n ++ [NUL] ∈ zk <$> l ↔ n ∈ l.
Proof.
  rewrite list_elem_of_fmap. split; [intros (b & Hb & Hin); apply zk_inj in Hb; by subst|intros Hin; by exists n].
Qed.

Lemma zk_ok n : strlen n ≤ 255 → key_ok (n ++ [NUL]).
Proof. unfold key_ok, strlen. rewrite length_app. simpl. lia. Qed.

Lemma put_name (c : SM) es n : km_model c es → strlen n ≤ 255 → n ++ [NUL] ∉ es.*1 → zlen es < 65535 →
  ∃ b c' es', km_put c (n ++ [NUL]) None = Ok (b, c') ∧ km_model c' es' ∧ es'.*1 ≡ₚ (n ++ [NUL]) :: es.*1.
Proof.
  intros Hm Hn Hni Hl. destruct (km_put_new c es (n ++ [NUL]) None Hm (zk_ok n Hn) Hni Hl) as (c' & es' & -> & Hm' & Hp).
  exists true, c', es'. split; [done|]. split; [done|]. by rewrite Hp.
Qed.

Lemma fst_length {A B} (es : list (A * B)) l : es.*1 ≡ₚ l → length es = length l.
Proof. intros Hp. apply Permutation_length in Hp. by rewrite length_fmap in Hp. Qed.

Definition put_one (n : cstring) (c : SM) : outcome SM := '(_, c) ← km_put c (n ++ [NUL]) None; Ok c.

Lemma put_names l (c : SM) es done :
  km_model c es → es.*1 ≡ₚ zk <$> done → NoDup (l ++ done) → Forall (λ n, strlen n ≤ 255) l →
  zlen (l ++ done) ≤ 65535 →
  ∃ c' es', foldM put_one l c = Ok c' ∧ km_model c' es' ∧ es'.*1 ≡ₚ zk <$> l ++ done.
Proof.
  revert c es done. induction l as [|n l IH]; intros c es done Hm Hp Hnd Hl Hs; [by exists c, es|].
  apply Forall_cons in Hl as [Hn Hl]. simpl in Hnd. apply NoDup_cons in Hnd as [Hni Hnd].
  apply not_elem_of_app in Hni as [Hni Hnd'].
  destruct (put_name c es n Hm Hn) as (b & c1 & es1 & Hput & Hm1 & Hp1).
  { by rewrite Hp, zk_elem. }
  { rewrite (fst_length _ _ Hp), length_fmap. rewrite length_app in Hs. simpl in Hs. lia. }
  assert (Hone : put_one n c = Ok c1) by (unfold put_one; by rewrite Hput).
  cbn [foldM]. rewrite Hone. obind.
  destruct (IH c1 es1 (n :: done)) as (c' & es' & Hf & Hm' & Hp'); auto.
  - by rewrite Hp1, Hp.
  - rewrite <-Permutation_middle. constructor; [|done]. by apply not_elem_of_app.
  - rewrite length_app in Hs |- *. simpl in *. lia.
  - exists c', es'. split; [done|]. split; [done|]. rewrite Hp'. by rewrite <-Permutation_middle.
Qed.

(** The two maps are filled independently. *)
Lemma sort_entries l (reg bak r b : SM) :
  foldM put_one (filter regular l) reg = Ok r → foldM put_one (filter backup l) bak = Ok b →
  foldM sort_entry l (reg, bak) = Ok (r, b).
Proof.
  revert reg bak. induction l as [|n l IH]; intros reg bak Hr Hb; [by simplify_eq/=|].
  rewrite filter_cons in Hr, Hb. cbn [foldM].
  assert (Hsort : sort_entry n (reg, bak) =
    if decide (regular n) then reg ← put_one n reg; Ok (reg, bak)
    else if decide (backup n) then bak ← put_one n bak; Ok (reg, bak) else Ok (reg, bak)).
  { unfold sort_entry, put_one. destruct (decide (n = STORAGE_KEY_FILE_NAME)) as [Hk|Hk].
    { rewrite !decide_False by (by intros [? _]). done. }
    destruct (extension n) as [e|] eqn:He.
    2: { rewrite decide_True by (unfold regular; by rewrite He). by destruct (km_put reg _ _) as [[? ?]| |]. }
    assert (Hreg : regular n ↔ e ∉ suffixes) by (unfold regular; rewrite He; tauto).
    assert (Hbak : backup n ↔ e = str ".bak").
    { unfold backup. rewrite He. split; [by intros [_ [= ->]]|by intros ->]. }
    destruct (decide (e = str ".bak")) as [->|Heb].
    { rewrite decide_False by (rewrite Hreg; intros Hs; apply Hs, bak_suffix). rewrite decide_True by tauto.
      by destruct (km_put bak _ _) as [[? ?]| |]. }
    destruct (decide (e ≠ str ".tmp" ∧ e ≠ str ".bad")) as [[H1 H2]|Ht].
    - rewrite decide_True; [by destruct (km_put reg _ _) as [[? ?]| |]|]. apply Hreg.
      unfold suffixes. rewrite !not_elem_of_cons. repeat split; try done. apply not_elem_of_nil.
    - rewrite decide_False; [rewrite decide_False by tauto; done|]. rewrite Hreg. intros Hs.
      unfold suffixes in Hs. rewrite !not_elem_of_cons in Hs. destruct Hs as (_ & ? & ? & _). by apply Ht. }
  assert (Hnot : regular n → ~ backup n).
  { intros [_ Hr'] [_ He]. rewrite He in Hr'. apply Hr', bak_suffix. }
  rewrite Hsort. destruct (decide (regular n)) as [Hreg|Hreg].
  - rewrite decide_False in Hb by auto. cbn [foldM] in Hr. apply bind_Ok in Hr as (reg1 & -> & Hr). obind. by apply IH.
  - destruct (decide (backup n)).
    + cbn [foldM] in Hb. apply bind_Ok in Hb as (bak1 & -> & Hb). obind. by apply IH.
    + by apply IH.
Qed.

Context (ns : cstring).

(** Every backup belongs to a key that is there, so nothing is added for it. *)
Lemma backup_stem n : backup n → ∃ k, k ≠ [] ∧ n = k ++ str ".bak".
Proof.
  intros [_ He]. destruct (extension_split n _ He) as [Hn _]. eexists. split; [|exact Hn].
  intros Hs. rewrite Hs in Hn. subst n. unfold extension, strlen in He. by rewrite decide_False in He.
Qed.

Lemma no_orphans f m (reg : SM) er (l : list (cstring * option cstring)) :
  fs_model ns f m → km_model reg er → er.*1 ≡ₚ zk <$> elements (dom m) →
  (∀ k, k ∈ l.*1 → ∃ n, k = n ++ [NUL] ∧ backup n ∧ is_Some (file f ns n)) →
  foldM (λ (e : cstring * option cstring) r, add_orphan e.1 r) l reg = Ok reg.
Proof.
  intros Hm Hr Hp. induction l as [|[k v] l IH]; intros Hl; [done|]. cbn [foldM fst].
  destruct (Hl k) as (n & -> & Hb & [t Ht]); [by left|]. destruct (backup_stem n Hb) as (key & Hne & ->).
  destruct (fm_names _ _ _ Hm _ _ Ht) as (Hnn & Hlen & _ & Hgood). specialize (Hgood key Hne eq_refl).
  assert (add_orphan ((key ++ str ".bak") ++ [NUL]) reg = Ok reg) as ->.
  { unfold add_orphan. rewrite (c_str_spec _ []) by done. obind. rewrite take_stem by done.
    rewrite (km_contains_law reg er _ Hr) by (apply zk_ok; unfold strlen in *; rewrite length_app in Hlen; lia).
    obind. rewrite bool_decide_eq_true_2; [done|]. rewrite Hp, zk_elem, elem_of_elements, elem_of_dom.
    destruct (m !! key) eqn:E; [done|]. by rewrite (fm_bak _ _ _ Hm key Hgood E) in Ht. }
  obind. apply IH. intros k Hk. apply Hl. by right.
Qed.

Lemma collect_names (es : list (cstring * option cstring)) l acc :
  es.*1 ≡ₚ zk <$> l → Forall no_nul l →
  ∃ l', foldM (λ (e : cstring * option cstring) result, key ← c_str e.1; Ok (result ++ [key])) es acc = Ok (acc ++ l') ∧ l' ≡ₚ l.
Proof.
  intros Hp Hn. apply (Permutation_map_inv zk) in Hp as (l' & He & Hl'). exists l'. split; [|by symmetry].
  rewrite Hl' in Hn. clear Hl' l. revert es acc He Hn. induction l' as [|n l' IH]; intros [|[k v] es] acc He Hn; try done.
  { by rewrite app_nil_r. }
  injection He as -> He. apply Forall_cons in Hn as [Hn Hns]. cbn [foldM fst]. rewrite (c_str_spec n []) by done. obind.
  rewrite (IH es (acc ++ [n]) He Hns). by rewrite <-app_assoc.
Qed.

Lemma regular_files f m d : fs_model ns f m → fs_dirs f !! ns = Some d →
  filter regular (map_to_list d).*1 ≡ₚ elements (dom m).
Proof.
  intros Hm Hd. apply NoDup_Permutation; [apply NoDup_filter, NoDup_fst_map_to_list|apply NoDup_elements|].
  intros n. rewrite list_elem_of_filter, elem_of_elements, elem_of_dom, list_elem_of_fmap.
  assert (Hf : ∀ n, file f ns n = d !! n) by (intros; unfold file; by rewrite Hd). split.
  - intros (Hr & [n' t] & -> & Hin). apply elem_of_map_to_list in Hin. rewrite <-Hf in Hin.
    destruct (fm_names _ _ _ Hm _ _ Hin) as (_ & _ & Hg & _). simpl. by rewrite <-(fm_main _ _ _ Hm) by auto.
  - intros [v Hv]. destruct (fm_good _ _ _ Hm n v Hv) as [Hg _]. split; [apply Hg|].
    exists (n, v). split; [done|]. apply elem_of_map_to_list. rewrite <-Hf. by rewrite (fm_main _ _ _ Hm).
Qed.

Lemma backup_files f m d : fs_model ns f m → fs_dirs f !! ns = Some d →
  (length (filter backup (map_to_list d).*1) ≤ size m)%nat.
Proof.
  intros Hm Hd. rewrite <-size_dom. change (size (dom m)) with (length (elements (dom m))).
  rewrite <-(length_fmap (λ k, k ++ str ".bak") (elements (dom m))). apply submseteq_length, NoDup_submseteq.
  { apply NoDup_filter, NoDup_fst_map_to_list. }
  intros n [Hb Hin]%list_elem_of_filter. apply list_elem_of_fmap in Hin as ([n' t] & -> & Hin).
  apply elem_of_map_to_list in Hin. simpl in *. assert (Hf : file f ns n' = Some t) by (unfold file; by rewrite Hd).
  destruct (backup_stem n' Hb) as (k & Hne & ->). destruct (fm_names _ _ _ Hm _ _ Hf) as (_ & _ & _ & Hg).
  apply list_elem_of_fmap. exists k. split; [done|]. apply elem_of_elements, elem_of_dom.
  destruct (m !! k) eqn:E; [done|]. by rewrite (fm_bak _ _ _ Hm k (Hg k Hne eq_refl) E) in Hf.
Qed.

Lemma keys_spec f m : fs_model ns f m → Z.of_nat (size m) ≤ 65535 →
  ∃ l, storageGetKeys (SM := SM) f (Some ns) = Ok l ∧ default [] l ≡ₚ elements (dom m).
Proof.
  intros Hm Hs. unfold storageGetKeys. destruct (fs_dirs f !! ns) as [d|] eqn:Hd.
  2: { exists None. split; [done|]. simpl. destruct (decide (m = ∅)) as [->|Hne]; [by rewrite dom_empty_L, elements_empty|].
       apply map_choose in Hne as (k & v & Hk). destruct (fm_good _ _ _ Hm k v Hk) as [Hg _].
       rewrite <-(fm_main _ _ _ Hm k Hg) in Hk. unfold file in Hk. by rewrite Hd in Hk. }
  pose proof (regular_files f m d Hm Hd) as Hreg. set (names := (map_to_list d).*1) in *.
  assert (Hnd : NoDup names) by apply NoDup_fst_map_to_list.
  assert (Hfile : ∀ n, n ∈ names → is_Some (file f ns n)).
  { intros n Hin. apply list_elem_of_fmap in Hin as ([n' t] & -> & Hin). apply elem_of_map_to_list in Hin.
    unfold file. rewrite Hd. by exists t. }
  assert (Hlen : Forall (λ n, strlen n ≤ 255) names).
  { apply Forall_forall. intros n [t Ht]%Hfile. by apply (fm_names _ _ _ Hm n t). }
  assert (Hsize : length (elements (dom m)) = size m) by (by rewrite <-size_dom).
  destruct (put_names (filter regular names) km_create [] []) as (reg & er & Hfr & Hmr & Hpr).
  { apply km_create_law. } { done. } { rewrite app_nil_r. by apply NoDup_filter. }
  { apply Forall_forall. intros n [_ Hn]%list_elem_of_filter. by eapply Forall_forall in Hlen. }
  { rewrite app_nil_r, Hreg, Hsize. lia. }
  rewrite app_nil_r in Hpr.
  destruct (put_names (filter backup names) km_create [] []) as (bak & eb & Hfb & Hmb & Hpb).
  { apply km_create_law. } { done. } { rewrite app_nil_r. by apply NoDup_filter. }
  { apply Forall_forall. intros n [_ Hn]%list_elem_of_filter. by eapply Forall_forall in Hlen. }
  { rewrite app_nil_r. pose proof (backup_files f m d Hm Hd) as Hle. fold names in Hle. lia. }
  rewrite app_nil_r in Hpb. rewrite (sort_entries names km_create km_create reg bak Hfr Hfb). obind.
  rewrite (km_iterate_law bak eb _ _ Hmb), (no_orphans f m reg er eb Hm Hmr).
  2: { by rewrite Hpr, Hreg. }
  2: { intros k. rewrite Hpb. intros (n & -> & [Hb Hn]%list_elem_of_filter)%list_elem_of_fmap. exists n. auto. }
  obind. rewrite (km_iterate_law reg er _ _ Hmr).
  destruct (collect_names er (filter regular names) [] Hpr) as (l & -> & Hl).
  { apply Forall_forall. intros n [_ [t Ht]%Hfile]%list_elem_of_filter. by destruct (fm_names _ _ _ Hm n t Ht). }
  obind. exists (Some l). split; [done|]. simpl. by rewrite Hl, Hreg.
Qed.

(** ** The file system as the storage of one namespace *)

#[global] Instance fs_store : Store fs := {
  st_save f k v := storageSave f (Some ns) k v;
  st_load f k := storageLoad f (Some ns) k;
  st_parse S f k cb s := storageParse f (Some ns) k cb s;
  st_delete f k := storageDelete f (Some ns) k;
  st_keys f := storageGetKeys (SM := SM) f (Some ns);
  st_restore f r := storageRestoreNamespace f ns r
}.

#[global] Instance fs_store_laws : StoreLaws fs.
Proof.
  refine {| st_model := fs_model ns; st_healthy f := fs_wfaults f = []; st_backup := restorable ns |}.
  - intros f m k v Hm. apply Hm.
  - intros f m k v Hm Hk Hv. by apply save_spec.
  - intros f m k Hm Hk. exists f. split; [|done]. by apply load_spec.
  - intros S f m k v cb s s' Hm Hk Hv Hcb. exists f. split; [|done]. simpl. unfold storageParse.
    by rewrite (load_present ns f m k v cb s s' Hm Hk Hv Hcb).
  - intros f m k Hm Hk Hs. cbn [st_delete fs_store]. destruct (storage_delete_spec ns f m k Hm Hk Hs) as [-> ?]. done.
  - intros f m k v _ Hw _ _. by apply save_works.
  - intros f m k Hm Hw Hk Hs. split; [by apply (storage_delete_spec ns f m)|]. cbn [st_delete fs_store]. by rewrite delete_wfaults.
  - done.
  - intros f m r m' Hm Hw Hb. cbn [st_restore fs_store].
    destruct (restore_spec ns f r m' (fm_faults _ _ _ Hm) Hw Hb) as (f' & -> & Hm' & Hw'). done.
  - intros f m Hm Hs. by apply keys_spec.
Defined.

End Keys.
End StorageSpec.
