(* ===== verification/StorageCrash.v ===== *)
(** * Storage and loss of power

    [fs_past] keeps the directories before every change, so the states in
    which a power loss can leave the files during storageSave are the recorded
    ones.  Whichever it is, the next load finds the old or the new value and
    puts the files back in order. *)

From S2P Require Import Prelude KeyMap Storage StorageSpec.
Import KeyMap Storage StorageSpec.

Module StorageCrash.

Section Crash.
Context (ns : cstring).
Implicit Types (f : fs) (m : gmap cstring cstring).

(** The file system after a restart with these directories. *)
Definition restarted (ds : gmap cstring dir) : fs := mkFs ds [] [] [].

(** The names a namespace may have files under. *)
Definition fine (name : cstring) : Prop :=
  no_nul name ∧ strlen name ≤ 255 ∧ (regular name → good_key name) ∧ ∀ k, k ≠ [] → name = k ++ str ".bak" → good_key k.

Lemma fine_key k : good_key k → fine k.
Proof.
  intros Hk. pose proof Hk as ((_ & Hn & _ & _ & Hl) & _ & He). split; [done|]. split; [lia|]. split; [done|]. intros k' Hne ->.
  rewrite extension_app in He by done. exfalso. apply He. by left.
Qed.

Lemma fine_suffixed k e : good_key k → e ∈ suffixes → fine (k ++ e).
Proof.
  intros Hk He. destruct (good_suffixed k e Hk He). split; [done|]. split; [done|].
  split; [intros Hreg; exfalso; revert Hreg; apply regular_suffixed; [apply Hk|done]|]. intros k' _ [<- _]%suffix_inj; auto with storage.
Qed.

(** The directories during a save of [v] under [k], where the namespace held [m]. *)
Record midway m (k v : cstring) f : Prop := {
  mw_names name t : file f ns name = Some t → fine name;
  mw_others k' : good_key k' → k' ≠ k → file f ns k' = m !! k' ∧ (m !! k' = None → file f ns (k' ++ str ".bak") = None);
  mw_key : (file f ns k = m !! k ∧ (m !! k = None → file f ns (k ++ str ".bak") = None)) ∨
    (file f ns k = None ∧ is_Some (m !! k) ∧ file f ns (k ++ str ".bak") = m !! k) ∨ file f ns k = Some v
}.

Definition history (P : fs → Prop) f : Prop := Forall (λ ds, P (restarted ds)) (fs_dirs f :: fs_past f).

Lemma history_dirs P f f' : fs_dirs f' = fs_dirs f → fs_past f' = fs_past f → history P f → history P f'.
Proof. unfold history. by intros -> ->. Qed.

Lemma history_step P f ds : history P f → P (restarted ds) → history P (set_dirs f ds).
Proof. intros Hh Hp. constructor; done. Qed.

Lemma midway_ext m k v f f' : (∀ n, file f' ns n = file f ns n) → midway m k v f → midway m k v f'.
Proof. intros Hf [H0 H1 H2]. split; [intros n t|intros k' ? ?|]; rewrite !Hf; eauto. Qed.

Lemma midway_start f m k v : fs_model ns f m → good_key k → midway m k v f.
Proof.
  intros [F1 F2 F3 F4 F5] Hk. split.
  - exact F4.
  - intros k' Hk' _. auto.
  - left. auto.
Qed.

(** Files but those of the key do not matter. *)
Lemma midway_files m k v f f' : good_key k → midway m k v f →
  (∀ n, n ≠ k ++ str ".tmp" → file f' ns n = file f ns n) → midway m k v f'.
Proof.
  intros Hk [H0 H1 H2] Hf.
  assert (Hm : ∀ k', good_key k' → file f' ns k' = file f ns k').
  { intros k' Hk'. apply Hf, good_not_suffixed; auto with storage. }
  assert (Hb : ∀ k', file f' ns (k' ++ str ".bak") = file f ns (k' ++ str ".bak")).
  { intros k'. apply Hf. by intros [_ ?]%suffix_inj; auto with storage. }
  split; [|intros k' Hk' Hne|]; rewrite ?Hm, ?Hb by done; auto.
  intros n t Ht. destruct (decide (n = k ++ str ".tmp")) as [->|Hn]; [by apply fine_suffixed; auto with storage|]. rewrite Hf in Ht by done. eauto.
Qed.

Lemma history_now P f : history P f → P (restarted (fs_dirs f)).
Proof. intros Hh. by apply Forall_cons in Hh as [? _]. Qed.

Section Save.
Context (m : gmap cstring cstring) (k v : cstring) (Hk : good_key k).
Let tmp := k ++ str ".tmp".
Let hist := history (midway m k v).

Lemma hist_wfault f e f' : wfault f = (e, f') → hist f → hist f'.
Proof. unfold wfault. destruct (fs_wfaults f); intros [= <- <-]; [done|]. by apply history_dirs. Qed.

Lemma hist_tmp f t : hist f → hist (set_file f ns tmp t).
Proof.
  intros Hh. unfold set_file. destruct (fs_dirs f !! ns) as [d|] eqn:Hd; [|done]. apply history_step; [done|].
  apply (midway_files m k v (restarted (fs_dirs f))); [done|by apply history_now|]. intros n Hn. unfold file, restarted. simpl.
  rewrite Hd, lookup_insert_eq. by rewrite lookup_insert_ne.
Qed.

Lemma hist_mkdir f : dir_exists f ns = false → hist f → hist (mkdir_p f ns).2.
Proof.
  intros Hd Hh. unfold mkdir_p. destruct (wfault f) as [e f1] eqn:E. pose proof (hist_wfault _ _ _ E Hh) as Hh1.
  assert (Hd1 : fs_dirs f1 = fs_dirs f) by (unfold wfault in E; destruct (fs_wfaults f); by injection E as <- <-).
  destruct e; [done|]. apply history_step; [done|]. apply (midway_ext m k v (restarted (fs_dirs f1))); [|by apply history_now].
  intros n. unfold file, restarted. simpl. rewrite lookup_insert_eq, Hd1. unfold dir_exists in Hd.
  apply bool_decide_eq_false in Hd. destruct (fs_dirs f !! ns); [by destruct Hd|done].
Qed.

Lemma hist_fopen f : hist f → hist (fopen_w f ns tmp).2.
Proof.
  intros Hh. unfold fopen_w. destruct (wfault f) as [e f1] eqn:E. pose proof (hist_wfault _ _ _ E Hh).
  destruct e; [done|]. destruct (dir_exists f1 ns); [by apply hist_tmp|done].
Qed.

Lemma hist_fputs f t : hist f → hist (fputs f ns tmp t).2.
Proof.
  intros Hh. unfold fputs. destruct (wfault f) as [e f1] eqn:E. pose proof (hist_wfault _ _ _ E Hh).
  destruct e; by apply hist_tmp.
Qed.

Lemma hist_fflush f : hist f → hist (fflush f ns tmp).2.
Proof.
  intros Hh. unfold fflush. destruct (wfault f) as [e f1] eqn:E. pose proof (hist_wfault _ _ _ E Hh).
  destruct e; [by apply hist_tmp|done].
Qed.

Lemma rename_history P f from to : fs_rfaults f = [] → history P f →
  P (restarted (fs_dirs (rename f ns from to).2)) → history P (rename f ns from to).2.
Proof.
  intros Hr Hh. unfold rename. rewrite rfault_none by done. destruct (fs_dirs f !! ns) as [d|]; [|done].
  destruct (d !! from) as [t|]; [|done]. intros Hp. by apply history_step.
Qed.

(** The old file becomes the backup, or there is none. *)
Lemma hist_set_aside f : fs_rfaults f = [] → fs_model ns f m → hist f →
  ∃ f1, (let '(e, f) := rename f ns k (k ++ str ".bak") in match e with ENOENT => (unlink f ns (k ++ str ".bak")).2 | _ => f end) = f1 ∧
    hist f1 ∧ fs_rfaults f1 = [] ∧ (∀ n, n ≠ k → n ≠ k ++ str ".bak" → file f1 ns n = file f ns n).
Proof.
  intros Hr Hm Hh. pose proof (fm_main _ _ _ Hm k Hk) as Hmain. destruct (m !! k) as [o|] eqn:Ho.
  - destruct (rename_some ns f k (k ++ str ".bak") o Hr Hmain) as (f1 & E & Ha). rewrite E. exists f1. split; [done|].
    split; [|split; [by rewrite (af_faults _ _ _ _ Ha)|]].
    + replace f1 with (rename f ns k (k ++ str ".bak")).2 by (by rewrite E). apply rename_history; [done|done|].
      rewrite E. simpl. assert (Hfile : ∀ n, file (restarted (fs_dirs f1)) ns n =
        if decide (n = k ++ str ".bak") then Some o else if decide (n = k) then None else file f ns n) by (intros n; apply (af_files _ _ _ _ Ha)).
      assert (Hkb : k ≠ k ++ str ".bak") by (apply good_not_suffixed; auto with storage). split.
      * intros n t. rewrite Hfile. case_decide; [subst; intros _; by apply fine_suffixed; auto with storage|]. case_decide; [done|]. apply Hm.
      * intros k' Hk' Hne. rewrite !Hfile. rewrite decide_False by (apply good_not_suffixed; auto with storage).
        rewrite decide_False by done. split; [by apply Hm|]. intros Hn.
        rewrite decide_False by (intros [? _]%suffix_inj; auto with storage).
        rewrite decide_False by (apply good_ne_suffixed; auto with storage). by apply Hm.
      * right; left. rewrite !Hfile, Ho. rewrite decide_False, decide_True, decide_True by done. done.
    + intros n Hn1 Hn2. rewrite (af_files _ _ _ _ Ha). by rewrite !decide_False.
  - pose proof (rename_none ns f k (k ++ str ".bak") Hr Hmain) as E. rewrite E. exists f. unfold unlink.
    rewrite rfault_none, (fm_bak _ _ _ Hm k Hk Ho) by done. done.
Qed.

Lemma hist_safeFileSave f : fs_rfaults f = [] → fs_model ns f m → hist f → file f ns tmp = Some v →
  hist (safeFileSave f ns tmp k (k ++ str ".bak")).
Proof.
  intros Hr Hm Hh Ht. unfold safeFileSave.
  destruct (hist_set_aside f Hr Hm Hh) as (f1 & Hf1 & Hh1 & Hr1 & Hoth).
  destruct (rename f ns k (k ++ str ".bak")) as [e f0]. rewrite Hf1. apply rename_history; [done|done|].
  assert (Htk : tmp ≠ k) by (apply good_ne_suffixed; auto with storage).
  assert (Htb : tmp ≠ k ++ str ".bak") by (by intros [_ ?]%suffix_inj; auto with storage).
  assert (Ht1 : file f1 ns tmp = Some v) by (by rewrite Hoth).
  destruct (rename_some ns f1 tmp k v Hr1 Ht1) as (f2 & -> & Ha). simpl.
  pose proof (history_now _ _ Hh1) as [H0 H1 H2].
  assert (Hfile : ∀ n, file (restarted (fs_dirs f2)) ns n =
    if decide (n = k) then Some v else if decide (n = tmp) then None else file f1 ns n) by (intros n; apply (af_files _ _ _ _ Ha)).
  split.
  - intros n t. rewrite Hfile. case_decide; [subst; intros _; by apply fine_key|]. case_decide; [done|]. apply H0.
  - intros k' Hk' Hne. rewrite !Hfile. rewrite decide_False by done. rewrite decide_False by (apply good_not_suffixed; auto with storage).
    rewrite decide_False by (apply good_ne_suffixed; auto with storage).
    rewrite decide_False by (by intros [_ ?]%suffix_inj; auto with storage). by apply (H1 k').
  - right; right. rewrite Hfile. by rewrite decide_True.
Qed.

End Save.

(** Every state between the calls of a save. *)
Lemma save_history f m k v : fs_model ns f m → good_key k → v ≠ [] → fs_past f = [] →
  history (midway m k v) (storageSave f (Some ns) (Some k) (Some v)).2.
Proof.
  intros Hm Hk Hv Hpast. assert (Hh : history (midway m k v) f).
  { unfold history. rewrite Hpast. constructor; [|done]. apply (midway_ext m k v f); [done|]. by apply midway_start. }
  unfold storageSave. cbn [getFilepaths p_temp p_main p_backup]. set (tmp := k ++ str ".tmp").
  pose proof (hist_mkdir m k v f) as Hmk. destruct (ensure_dir ns f m Hm) as (ok & f1 & Eq & Hd1 & Hm1 & _).
  assert (Hh1 : history (midway m k v) f1).
  { destruct (dir_exists f ns); [by injection Eq as <- <-|]. rewrite Eq in Hmk. by apply Hmk. }
  rewrite Eq. destruct ok; [|done]. specialize (Hd1 eq_refl).
  pose proof (fopen_w_spec ns f1 tmp Hd1) as T1. pose proof (hist_fopen m k v Hk f1 Hh1) as Hh2. fold tmp in Hh2.
  destruct (fopen_w f1 ns tmp) as [opened f2]. cbn [snd] in *. destruct opened; [|done]. fold (touches ns f1 f2 tmp) in T1.
  destruct (fputs_spec ns f2 tmp v (touches_dir _ _ _ _ T1)) as (g3 & A3 & G3 & V3).
  pose proof (hist_fputs m k v Hk f2 v Hh2) as Hh3. fold tmp in Hh3.
  destruct (fputs f2 ns tmp v) as [ok1 f3]. cbn [fst snd] in *.
  destruct (fflush_spec ns f3 tmp (af_dir _ _ _ _ A3)) as (g4 & A4 & G4 & V4).
  pose proof (hist_fflush m k v Hk f3 Hh3) as Hh4. fold tmp in Hh4.
  destruct (fflush f3 ns tmp) as [ok2 f4]. cbn [fst snd] in *. unfold fsync.
  destruct (fflush_spec ns f4 tmp (af_dir _ _ _ _ A4)) as (g5 & A5 & G5 & V5).
  pose proof (hist_fflush m k v Hk f4 Hh4) as Hh5. fold tmp in Hh5.
  destruct (fflush f4 ns tmp) as [ok3 f5]. cbn [fst snd] in *.
  assert (T : touches ns f1 f5 tmp).
  { eapply touches_trans; [exact T1|]. eapply touches_trans; [by exists g3|]. eapply touches_trans; [by exists g4|].
    by exists g5. }
  pose proof (touches_tmp ns f1 f5 m k Hm1 Hk T) as Hm5. destruct (ok1 && ok2 && ok3) eqn:Hok; [|done].
  apply andb_true_iff in Hok as [[-> ->]%andb_true_iff ->]. cbn [fst snd].
  apply hist_safeFileSave; [done|apply Hm5|done|done|].
  change (file f5 ns tmp = Some v). rewrite (af_files _ _ _ _ A5), V5, (af_files _ _ _ _ A4), V4, (af_files _ _ _ _ A3), V3 by done. done.
Qed.

Lemma load_main f k t : fs_rfaults f = [] → t ≠ [] → file f ns k = Some t → storageLoad f (Some ns) (Some k) = Ok (true, Some t, f).
Proof.
  intros Hr Ht Hf. unfold storageLoad, loadInternalLocked, chooseFileToRead, has_content, readFileContents.
  cbn [getFilepaths p_main p_backup]. rewrite Hf, bool_decide_eq_true_2 by (destruct t; simpl; [done|lia]).
  rewrite rfault_none, Hf by done. done.
Qed.

Lemma load_none f k : file f ns k = None → file f ns (k ++ str ".bak") = None → storageLoad f (Some ns) (Some k) = Ok (false, None, f).
Proof.
  intros Hf Hb. unfold storageLoad, loadInternalLocked, chooseFileToRead, has_content.
  cbn [getFilepaths p_main p_backup]. by rewrite Hf, Hb.
Qed.

(** The backup is read and copied over the missing file. *)
Lemma load_backup f k t : fs_rfaults f = [] → t ≠ [] → file f ns k = None → file f ns (k ++ str ".bak") = Some t →
  ∃ f', storageLoad f (Some ns) (Some k) = Ok (true, Some t, f') ∧ fs_rfaults f' = [] ∧ ∀ n, file f' ns n = if decide (n = k) then Some t else file f ns n.
Proof.
  intros Hr Ht Hf Hb. exists (copyFileByPath f ns (k ++ str ".bak") k).2. split.
  - unfold storageLoad, loadInternalLocked, chooseFileToRead, has_content, readFileContents. cbn [getFilepaths p_main p_backup].
    rewrite Hf, Hb, bool_decide_eq_true_2 by (destruct t; simpl; [done|lia]). obind. by rewrite rfault_none, Hb by done.
  - unfold copyFileByPath. rewrite rfault_none, Hb, rfault_none by done. unfold copyFile, set_file. unfold file in Hb.
    destruct (fs_dirs f !! ns) as [d|] eqn:Hd; [|done]. rewrite rfault_none by done. cbn [fs_dirs set_dirs snd]. rewrite lookup_insert_eq. cbn [snd].
    split; [done|]. intros n. unfold file. cbn [fs_dirs set_dirs]. rewrite lookup_insert_eq, Hd. case_decide as E; [subst; by rewrite lookup_insert_eq|].
    by rewrite !lookup_insert_ne by done.
Qed.

(** What a load finds in such a state, and that it repairs it. *)
Lemma midway_load m k v f : good_key k → (∀ k t, m !! k = Some t → good_key k ∧ t ≠ []) → v ≠ [] → fs_rfaults f = [] → midway m k v f →
  (∃ o f', storageLoad f (Some ns) (Some k) = Ok (bool_decide (is_Some o), o, f') ∧ (o = m !! k ∨ o = Some v) ∧
     fs_model ns f' (partial_alter (λ _, o) k m)) ∧
  (∀ k', good_key k' → k' ≠ k → ∃ f', storageLoad f (Some ns) (Some k') = Ok (bool_decide (is_Some (m !! k')), m !! k', f')).
Proof.
  intros Hk Hne Hv Hr [H0 H1 H2].
  assert (Hmodel : ∀ o f', (∀ t, o = Some t → t ≠ []) → fs_rfaults f' = [] → file f' ns k = o → (o = None → file f' ns (k ++ str ".bak") = None) →
    (∀ n, n ≠ k → file f' ns n = file f ns n) → fs_model ns f' (partial_alter (λ _, o) k m)).
  { intros o f' Ho Hr' Hm Hb Hother. assert (Hbak : ∀ k', good_key k' → file f' ns (k' ++ str ".bak") = file f ns (k' ++ str ".bak"))
      by (intros k' Hk'; apply Hother, good_ne_suffixed; auto with storage). split; [done|..].
    - intros k' Hk'. destruct (decide (k' = k)) as [->|E]; [by rewrite lookup_partial_alter_eq|].
      rewrite lookup_partial_alter_ne, Hother by done. by apply H1.
    - intros k' Hk'. destruct (decide (k' = k)) as [->|E]; [by rewrite lookup_partial_alter_eq|].
      rewrite lookup_partial_alter_ne, Hbak by done. by apply H1.
    - intros n t. destruct (decide (n = k)) as [->|E]; [intros _; by apply fine_key|]. rewrite Hother by done. apply H0.
    - intros k' t. destruct (decide (k' = k)) as [->|E]; [rewrite lookup_partial_alter_eq; auto|]. rewrite lookup_partial_alter_ne by done. apply Hne. }
  split.
  - destruct H2 as [[Hf Hb]|[(Hf & [o Ho] & Hb)|Hf]].
    + exists (m !! k), f. split; [|split; [by left|apply Hmodel; auto; intros t Ht; by destruct (Hne k t Ht)]].
      destruct (m !! k) as [o|] eqn:Ho; [apply load_main; [done|by destruct (Hne k o Ho)|done]|apply load_none; auto].
    + rewrite Ho in *. destruct (Hne k o Ho) as [_ Hoe]. destruct (load_backup f k o Hr Hoe Hf Hb) as (f' & Hl & Hr' & Hf').
      exists (Some o), f'. split; [done|]. split; [by left|]. apply Hmodel; [by intros ? [= <-]|done| |done|].
      * by rewrite Hf', decide_True.
      * intros n Hn. by rewrite Hf', decide_False.
    + exists (Some v), f. split; [by apply load_main|]. split; [by right|]. apply Hmodel; auto; [by intros ? [= <-]|done].
  - intros k' Hk' Hn. destruct (H1 k' Hk' Hn) as [Hf Hb]. exists f. destruct (m !! k') as [o|] eqn:Ho.
    + apply load_main; [done|by destruct (Hne k' o Ho)|done].
    + apply load_none; auto.
Qed.

End Crash.
End StorageCrash.
