(* ===== verification/JsonDatabase.v ===== *)
(** * The device database

    Models src/source/services/device/core/src/database/jsonDatabase.c: the
    cache of devices by uuid, the index of every device, endpoint, resource
    and metadata by URI, the system properties, and their files.

    The structures live in a memory ([mem]) with one map per type: the lists
    of a device and an endpoint hold addresses, a Locator of the index points
    to the cache entry, endpoint, resource or metadata; using the address of
    a released structure is a [Fault].  The three maps are keyed maps
    (KeyMap.v) whose keys are the strings with their NUL; a Locator belongs to
    the index alone, so the index is a map of Locators.  Storage, cJSON,
    encryption and regular expressions are the interfaces of Storage.v,
    Json.v and DeviceModel.v and [Regex] below.  The mutex makes every public
    function atomic, so an operation is a function of the state. *)

From S2P Require Import Prelude KeyMap Json DeviceModel DeviceJson Storage.
Import KeyMap Json DeviceModel DeviceJson Storage.

Module JsonDatabase.

Definition STORAGE_NAMESPACE := str "devicedb".
Definition SYSTEM_PROPERTIES_KEY := str "systemProperties".
Definition JSON_DATABASE_SCHEMA_VERSION_KEY := str "schemaVersion".
Definition JSON_DATABASE_CURRENT_SCHEMA_VERSION := str "1".

(** ** Memory *)

Record DeviceCacheEntry := mkEntry { ce_device : addr; ce_dirty : bool }.

Inductive Locator :=
  | LocDevice (entry : addr)
  | LocEndpoint (entry ep : addr)
  | LocResource (entry : addr) (ep : option addr) (resource : addr)
  | LocMetadata (entry : addr) (ep : option addr) (metadata : addr).

Inductive LocatorType := LOCATOR_TYPE_DEVICE | LOCATOR_TYPE_ENDPOINT | LOCATOR_TYPE_RESOURCE | LOCATOR_TYPE_METADATA.

Definition locatorType (l : Locator) : LocatorType :=
  match l with
  | LocDevice _ => LOCATOR_TYPE_DEVICE
  | LocEndpoint _ _ => LOCATOR_TYPE_ENDPOINT
  | LocResource _ _ _ => LOCATOR_TYPE_RESOURCE
  | LocMetadata _ _ _ => LOCATOR_TYPE_METADATA
  end.

#[global] Instance LocatorType_eq_dec : EqDecision LocatorType.
Proof. solve_decision. Defined.
#[global] Instance Locator_eq_dec : EqDecision Locator.
Proof. solve_decision. Defined.

Abbreviation cEndpoint := (icDeviceEndpoint addr addr).
Abbreviation cDevice := (icDevice addr addr addr).

Record mem := mkMem {
  m_ent : gmap addr DeviceCacheEntry;
  m_dev : gmap addr cDevice;
  m_ep : gmap addr cEndpoint;
  m_res : gmap addr icDeviceResource;
  m_met : gmap addr icDeviceMetadata;
  m_brk : addr
}.

Definition set_ent h x := mkMem x (m_dev h) (m_ep h) (m_res h) (m_met h) (m_brk h).
Definition set_dev h x := mkMem (m_ent h) x (m_ep h) (m_res h) (m_met h) (m_brk h).
Definition set_ep h x := mkMem (m_ent h) (m_dev h) x (m_res h) (m_met h) (m_brk h).
Definition set_res h x := mkMem (m_ent h) (m_dev h) (m_ep h) x (m_met h) (m_brk h).
Definition set_met h x := mkMem (m_ent h) (m_dev h) (m_ep h) (m_res h) x (m_brk h).
Definition set_brk h x := mkMem (m_ent h) (m_dev h) (m_ep h) (m_res h) (m_met h) x.

(** A structure with its parts, read from memory. *)
Definition read_resource (h : mem) (a : addr) : outcome icDeviceResource := of_option (m_res h !! a).
Definition read_metadata (h : mem) (a : addr) : outcome icDeviceMetadata := of_option (m_met h !! a).
Definition read_endpoint (h : mem) (a : addr) : outcome endpoint :=
  e ← of_option (m_ep h !! a); map_endpoint (read_resource h) (read_metadata h) e.
Definition read_device (h : mem) (a : addr) : outcome device :=
  d ← of_option (m_dev h !! a); map_device (read_endpoint h) (read_resource h) (read_metadata h) d.

(** A copy put into memory, part by part. *)
Definition alloc_resource (r : icDeviceResource) (h : mem) : addr * mem :=
  (m_brk h, set_brk (set_res h (<[m_brk h := r]> (m_res h))) (Pos.succ (m_brk h))).
Definition alloc_metadata (m : icDeviceMetadata) (h : mem) : addr * mem :=
  (m_brk h, set_brk (set_met h (<[m_brk h := m]> (m_met h))) (Pos.succ (m_brk h))).

Fixpoint alloc_items {A} (alloc : A → mem → addr * mem) (l : list A) (h : mem) : list addr * mem :=
  match l with
  | [] => ([], h)
  | x :: l => let '(a, h) := alloc x h in let '(as_, h) := alloc_items alloc l h in (a :: as_, h)
  end.

Definition alloc_list {A} (alloc : A → mem → addr * mem) (l : option (list A)) (h : mem) : option (list addr) * mem :=
  match l with
  | None => (None, h)
  | Some l => let '(as_, h) := alloc_items alloc l h in (Some as_, h)
  end.

Definition alloc_endpoint (e : endpoint) (h : mem) : addr * mem :=
  let '(rs, h) := alloc_list alloc_resource (e_resources e) h in
  let '(ms, h) := alloc_list alloc_metadata (e_metadata e) h in
  let c := mkEndpoint (e_id e) (e_uri e) (e_profile e) (e_profileVersion e) (e_deviceUuid e) (e_enabled e) rs ms in
  (m_brk h, set_brk (set_ep h (<[m_brk h := c]> (m_ep h))) (Pos.succ (m_brk h))).

Definition alloc_device (d : device) (h : mem) : addr * mem :=
  let '(es, h) := alloc_list alloc_endpoint (d_endpoints d) h in
  let '(rs, h) := alloc_list alloc_resource (d_resources d) h in
  let '(ms, h) := alloc_list alloc_metadata (d_metadata d) h in
  let c := mkDevice (d_uuid d) (d_deviceClass d) (d_deviceClassVersion d) (d_uri d) (d_managingDeviceDriver d) es rs ms in
  (m_brk h, set_brk (set_dev h (<[m_brk h := c]> (m_dev h))) (Pos.succ (m_brk h))).

(** resourceDestroy, metadataDestroy, endpointDestroy, deviceDestroy of
    structures in memory; releasing one twice is a fault. *)
Definition resourceDestroy (a : addr) (h : mem) : outcome mem :=
  _ ← of_option (m_res h !! a); Ok (set_res h (delete a (m_res h))).
Definition metadataDestroy (a : addr) (h : mem) : outcome mem :=
  _ ← of_option (m_met h !! a); Ok (set_met h (delete a (m_met h))).
Definition endpointDestroy (a : addr) (h : mem) : outcome mem :=
  e ← of_option (m_ep h !! a);
  h ← foldM resourceDestroy (elems (e_resources e)) h;
  h ← foldM metadataDestroy (elems (e_metadata e)) h;
  Ok (set_ep h (delete a (m_ep h))).
Definition deviceDestroy (a : addr) (h : mem) : outcome mem :=
  d ← of_option (m_dev h !! a);
  h ← foldM endpointDestroy (elems (d_endpoints d)) h;
  h ← foldM resourceDestroy (elems (d_resources d)) h;
  h ← foldM metadataDestroy (elems (d_metadata d)) h;
  Ok (set_dev h (delete a (m_dev h))).

(** Regular expressions of the C library: a compiled pattern or an error, and
    whether a text matches. *)
Class Regex := {
  regex_t : Type;
  regcomp : cstring → option regex_t;
  regexec : regex_t → cstring → bool
}.

Section Code.
Context {json : Type} `{Json json} `{Protect} `{Regex}.
Context {SM : Type} `{KeyMap SM cstring}.            (* the serialisation context *)
Context {DM : Type} `{KeyMap DM addr}.               (* devices *)
Context {UM : Type} `{KeyMap UM Locator}.            (* resourcesByUri *)
Context {PM : Type} `{KeyMap PM (option cstring)}.   (* systemProperties *)
Context {ST : Type} `{Store ST}.

(** The static variables, the memory and the storage of the namespace. *)
Record db := mkDb {
  devices : option DM;
  resourcesByUri : option UM;
  systemProperties : option PM;
  heap : mem;
  store : ST
}.
Implicit Types (s : db).

Definition with_devices s x := mkDb x (resourcesByUri s) (systemProperties s) (heap s) (store s).
Definition with_uris s x := mkDb (devices s) x (systemProperties s) (heap s) (store s).
Definition with_props s x := mkDb (devices s) (resourcesByUri s) x (heap s) (store s).
Definition with_heap s x := mkDb (devices s) (resourcesByUri s) (systemProperties s) x (store s).
Definition with_store s x := mkDb (devices s) (resourcesByUri s) (systemProperties s) (heap s) x.

(** A hash map pointer may be NULL. *)
Definition map_get {M V} `{KeyMap M V} (m : option M) (k : cstring) : outcome (option V) :=
  match m with None => Ok None | Some m => km_get m (zkey k) end.
Definition map_put {M V} `{KeyMap M V} (m : option M) (k : cstring) (v : V) : outcome (bool * option M) :=
  match m with None => Ok (false, None) | Some m => '(ok, m) ← km_put m (zkey k) v; Ok (ok, Some m) end.
Definition map_delete {M V} `{KeyMap M V} (m : option M) (k : cstring) : outcome (option V * option M) :=
  match m with None => Ok (None, None) | Some m => '(v, m) ← km_delete m (zkey k); Ok (v, Some m) end.
Definition map_iterate {M V S} `{KeyMap M V} (m : option M) (body : cstring → V → S → outcome S) (s : S) : outcome S :=
  match m with None => Ok s | Some m => km_iterate m body s end.

Definition entry_of s (ce : addr) : outcome DeviceCacheEntry := of_option (m_ent (heap s) !! ce).

(** The device of a cache entry, as a value. *)
Definition entry_device s (ce : addr) : outcome device := e ← entry_of s ce; read_device (heap s) (ce_device e).

Definition set_dirty s (ce : addr) (b : bool) : outcome db :=
  e ← entry_of s ce;
  Ok (with_heap s (set_ent (heap s) (<[ce := mkEntry (ce_device e) b]> (m_ent (heap s))))).

(** ** The URI index *)

(** hashMapDelete(resourcesByUri, uri, strlen(uri) + 1, destroyLocator) *)
Definition delete_uri (uri : cstring) s : outcome db :=
  '(_, u) ← map_delete (resourcesByUri s) uri; Ok (with_uris s u).

Definition removeMetadataURIEntry (a : addr) s : outcome db :=
  m ← read_metadata (heap s) a; uri ← of_option (m_uri m); delete_uri uri s.

Definition removeDeviceResourceURIEntry (a : addr) s : outcome db :=
  r ← read_resource (heap s) a;
  match r_uri r with Some uri => delete_uri uri s | None => Ok s end.

Definition removeEndpointURIEntries (a : addr) s : outcome db :=
  e ← of_option (m_ep (heap s) !! a);
  match e_uri e with
  | Some uri =>
      s ← delete_uri uri s;
      s ← foldM removeDeviceResourceURIEntry (elems (e_resources e)) s;
      foldM removeMetadataURIEntry (elems (e_metadata e)) s
  | None => Ok s
  end.

Definition removeDeviceURIEntries (a : addr) s : outcome db :=
  d ← of_option (m_dev (heap s) !! a);
  match d_uri d with
  | Some uri =>
      s ← delete_uri uri s;
      s ← foldM removeEndpointURIEntries (elems (d_endpoints d)) s;
      s ← foldM removeDeviceResourceURIEntry (elems (d_resources d)) s;
      foldM removeMetadataURIEntry (elems (d_metadata d)) s
  | None => Ok s
  end.

(** hashMapPut of a new Locator, released again when it is not taken *)
Definition put_uri (uri : cstring) (l : Locator) s : outcome (bool * db) :=
  '(ok, u) ← map_put (resourcesByUri s) uri l; Ok (ok, with_uris s u).

(** A loop that stops at the first failure. *)
Fixpoint while_ok (f : addr → db → outcome (bool * db)) (l : list addr) s : outcome (bool * db) :=
  match l with
  | [] => Ok (true, s)
  | a :: l => '(ok, s) ← f a s; if ok : bool then while_ok f l s else Ok (false, s)
  end.

Definition addDeviceMetadataURIEntry (ce : addr) (ep : option addr) (a : addr) s : outcome (bool * db) :=
  m ← read_metadata (heap s) a; uri ← of_option (m_uri m); put_uri uri (LocMetadata ce ep a) s.

Definition addDeviceResourceURIEntry (ce : addr) (ep : option addr) (a : addr) s : outcome (bool * db) :=
  r ← read_resource (heap s) a;
  match r_uri r with Some uri => put_uri uri (LocResource ce ep a) s | None => Ok (false, s) end.

Definition addEndpointURIEntries (ce a : addr) s : outcome (bool * db) :=
  e ← of_option (m_ep (heap s) !! a);
  match e_uri e with
  | Some uri =>
      '(ok, s) ← put_uri uri (LocEndpoint ce a) s;
      if ok : bool then
        '(ok, s) ← while_ok (addDeviceResourceURIEntry ce (Some a)) (elems (e_resources e)) s;
        if ok : bool then while_ok (addDeviceMetadataURIEntry ce (Some a)) (elems (e_metadata e)) s
        else Ok (false, s)
      else Ok (false, s)
  | None => Ok (false, s)
  end.

Definition addDeviceURIEntries (ce : addr) s : outcome (bool * db) :=
  entry ← entry_of s ce;
  d ← of_option (m_dev (heap s) !! ce_device entry);
  '(ok, s) ←
    match d_uri d with
    | Some uri =>
        '(ok, s) ← put_uri uri (LocDevice ce) s;
        if ok : bool then
          '(ok, s) ← while_ok (addEndpointURIEntries ce) (elems (d_endpoints d)) s;
          '(ok, s) ← (if ok : bool then while_ok (addDeviceResourceURIEntry ce None) (elems (d_resources d)) s
                      else Ok (false, s));
          (if ok : bool then while_ok (addDeviceMetadataURIEntry ce None) (elems (d_metadata d)) s
           else Ok (false, s))
        else Ok (false, s)
    | None => Ok (false, s)
    end;
  if ok : bool then Ok (true, s) else s ← removeDeviceURIEntries (ce_device entry) s; Ok (false, s).

(** ** Cache entries *)

Definition createCacheEntry (d : addr) s : addr * db :=
  let h := heap s in
  (m_brk h, with_heap s (set_brk (set_ent h (<[m_brk h := mkEntry d false]> (m_ent h))) (Pos.succ (m_brk h)))).

Definition destroyCacheEntry (ce : addr) s : outcome db :=
  e ← entry_of s ce;
  s ← removeDeviceURIEntries (ce_device e) s;
  h ← deviceDestroy (ce_device e) (heap s);
  Ok (with_heap s (set_ent h (delete ce (m_ent h)))).

(** hashMapDelete(devices, uuid, strlen(uuid) + 1, freeDevicesItem) *)
Definition delete_device (uuid : cstring) s : outcome db :=
  '(v, m) ← map_delete (devices s) uuid;
  match v with
  | Some ce => destroyCacheEntry ce (with_devices s m)
  | None => Ok (with_devices s m)
  end.

Definition loadDeviceIntoCache (newDevice : addr) s : outcome (bool * db) :=
  d ← of_option (m_dev (heap s) !! newDevice);
  match d_uuid d with
  | None => Ok (false, s)
  | Some uuid =>
      let '(ce, s) := createCacheEntry newDevice s in
      '(ok, m) ← map_put (devices s) uuid ce;
      let s := with_devices s m in
      if ok : bool then
        '(ok, s) ← addDeviceURIEntries ce s;
        if ok : bool then Ok (true, s) else s ← delete_device uuid s; Ok (false, s)
      else s ← destroyCacheEntry ce s; Ok (false, s)
  end.

(** ** Storage *)

(** The context with the namespace the values are protected for. *)
Definition namespace_context : outcome (option SM) :=
  '(_, c) ← serDesSetContextValue (Some serDesCreateContext) RESOURCE_NAMESPACE_KEY STORAGE_NAMESPACE; Ok c.

(** stringHashMapToJson of jsonDatabase.c *)
Definition stringHashMapToJson (m : option PM) : outcome json :=
  map_iterate m (λ k v body, key ← c_str k; Ok (cJSON_AddStringToObject body key v)) cJSON_CreateObject.

Definition saveSystemProperties s : outcome (bool * db) :=
  body ← stringHashMapToJson (systemProperties s);
  let '(ok, st) := st_save (store s) (Some SYSTEM_PROPERTIES_KEY) (cJSON_Print body) in
  Ok (ok, with_store s st).

Definition saveDevice (d : addr) s : outcome (bool * db) :=
  context ← namespace_context;
  v ← read_device (heap s) d;
  body ← deviceToJSON v context;
  let '(ok, st) := st_save (store s) (d_uuid v) (cJSON_Print body) in
  Ok (ok, with_store s st).

(** One item of the system properties file. *)
Definition load_property (item : option json) (m : option PM) : outcome (option PM) :=
  item ← of_option item;
  if cJSON_IsString item then
    match cJSON_valuestring item with
    | Some value => key ← of_option (cJSON_string item); '(_, m) ← map_put m key (Some value); Ok m
    | None => Ok m
    end
  else Ok m.

Definition loadSystemProperties s : outcome (bool * db) :=
  let props := match systemProperties s with Some m => Some m | None => Some km_create end in
  let s := with_props s props in
  '(ok, value, st) ← st_load (store s) (Some SYSTEM_PROPERTIES_KEY);
  let s := with_store s st in
  if ok : bool then
    match cJSON_Parse value with
    | Some body =>
        props ← foldM (λ i, load_property (cJSON_GetArrayItem body i)) (seqZ 0 (cJSON_GetArraySize body))
                  (systemProperties s);
        Ok (true, with_props s props)
    | None => Ok (false, s)
    end
  else Ok (false, s).

(** The parse callback: deviceFromJSON allocates the device it returns. *)
Definition loadDevice (jsonData : option cstring) s : outcome (bool * db) :=
  match cJSON_Parse jsonData with
  | Some j =>
      context ← namespace_context;
      v ← deviceFromJSON j context;
      let '(a, h) := alloc_device v (heap s) in
      loadDeviceIntoCache a (with_heap s h)
  | None => Ok (false, s)
  end.

(** storageParse with loadDevice as callback: the callback works on the
    database while the storage is being read. *)
Definition parse_device (key : cstring) s : outcome db :=
  '(_, s', st) ← st_parse (store s) (Some key) loadDevice s; Ok (with_store s' st).

Definition loadDevices s : outcome (bool * db) :=
  let s := with_devices s (match devices s with Some m => Some m | None => Some km_create end) in
  let s := with_uris s (match resourcesByUri s with Some m => Some m | None => Some km_create end) in
  keys ← st_keys (store s);
  s ← foldM (λ key s, if decide (key = SYSTEM_PROPERTIES_KEY) then Ok s else parse_device key s) (elems keys) s;
  Ok (true, s).

(** ** Opening and closing *)

Definition jsonDatabaseSetSystemPropertyNoLock (key : cstring) (value : option cstring) s : outcome (bool * db) :=
  '(_, m) ← map_delete (systemProperties s) key;
  '(ok, m) ← map_put m key value;
  let s := with_props s m in
  if ok : bool then saveSystemProperties s else Ok (false, s).

Definition jsonDatabaseInitializeNoLock s : outcome (bool * db) :=
  '(ok, s) ← loadSystemProperties s;
  if ok : bool then loadDevices s
  else
    let s := with_uris (with_devices s (Some km_create)) (Some km_create) in
    '(_, s) ← jsonDatabaseSetSystemPropertyNoLock JSON_DATABASE_SCHEMA_VERSION_KEY
                (Some JSON_DATABASE_CURRENT_SCHEMA_VERSION) s;
    Ok (true, s).

Definition jsonDatabaseInitialize := jsonDatabaseInitializeNoLock.

Definition save_dirty (persist : bool) (ce : addr) s : outcome db :=
  if persist then
    e ← entry_of s ce;
    if ce_dirty e then '(_, s) ← saveDevice (ce_device e) s; Ok s else Ok s
  else Ok s.

(** hashMapDestroy(resourcesByUri, NULL) releases the keys that are left; each
    is the uri of a structure that was released before. *)
Definition jsonDatabaseCleanupNoLock (persist : bool) s : outcome db :=
  s ← (if persist then '(_, s) ← saveSystemProperties s; Ok s else Ok s);
  let s := with_props s None in
  s ← map_iterate (devices s) (λ _ ce s, save_dirty persist ce s) s;
  s ← match devices s with
      | Some m => '(l, _) ← km_clear m; foldM destroyCacheEntry l s
      | None => Ok s
      end;
  let s := with_devices s None in
  match resourcesByUri s with
  | Some m => if decide (km_count m = 0) then Ok (with_uris s None) else Fault
  | None => Ok s
  end.

Definition jsonDatabaseCleanup := jsonDatabaseCleanupNoLock.

Definition jsonDatabaseReload s : outcome (bool * db) :=
  s ← jsonDatabaseCleanupNoLock false s; jsonDatabaseInitializeNoLock s.

(** [restored] is what the temporary directory holds for the namespace. *)
Definition jsonDatabaseRestore (restored : option dir) s : outcome (bool * db) :=
  s ← jsonDatabaseCleanupNoLock false s;
  let '(retval, st) := st_restore (store s) restored in
  let s := with_store s st in
  if retval : bool then jsonDatabaseInitializeNoLock s else Ok (false, s).

(** ** System properties *)

Definition jsonDatabaseGetSystemProperty (key : cstring) s : outcome (option cstring) :=
  v ← map_get (systemProperties s) key; Ok (match v with Some (Some t) => Some t | _ => None end).

Definition jsonDatabaseSetSystemProperty := jsonDatabaseSetSystemPropertyNoLock.

(** ** Devices *)

Definition jsonDatabaseAddDevice (d : option device) s : outcome (bool * db) :=
  match d with
  | Some v =>
      match d_uuid v with
      | Some uuid =>
          v ← deviceClone d; v ← of_option v;
          let '(a, h) := alloc_device v (heap s) in
          '(ok, s) ← loadDeviceIntoCache a (with_heap s h);
          if ok : bool then
            '(ok, s) ← saveDevice a s;
            if ok : bool then Ok (true, s) else s ← delete_device uuid s; Ok (false, s)
          else Ok (false, s)
      | None => Ok (false, s)
      end
  | None => Ok (false, s)
  end.

(** linkedListAppend to the list of a structure in memory; a NULL list does
    not take the item. *)
Definition append_to (l : option (list addr)) (a : addr) : option (list addr) := (λ l, l ++ [a]) <$> l.

Definition append_endpoint (d : addr) (ep : addr) s : outcome db :=
  c ← of_option (m_dev (heap s) !! d);
  let c := mkDevice (d_uuid c) (d_deviceClass c) (d_deviceClassVersion c) (d_uri c) (d_managingDeviceDriver c)
             (append_to (d_endpoints c) ep) (d_resources c) (d_metadata c) in
  Ok (with_heap s (set_dev (heap s) (<[d := c]> (m_dev (heap s))))).

Definition append_device_metadata (d : addr) (m : addr) s : outcome db :=
  c ← of_option (m_dev (heap s) !! d);
  let c := mkDevice (d_uuid c) (d_deviceClass c) (d_deviceClassVersion c) (d_uri c) (d_managingDeviceDriver c)
             (d_endpoints c) (d_resources c) (append_to (d_metadata c) m) in
  Ok (with_heap s (set_dev (heap s) (<[d := c]> (m_dev (heap s))))).

Definition append_endpoint_metadata (ep : addr) (m : addr) s : outcome db :=
  c ← of_option (m_ep (heap s) !! ep);
  let c := mkEndpoint (e_id c) (e_uri c) (e_profile c) (e_profileVersion c) (e_deviceUuid c) (e_enabled c)
             (e_resources c) (append_to (e_metadata c) m) in
  Ok (with_heap s (set_ep (heap s) (<[ep := c]> (m_ep (heap s))))).

Definition jsonDatabaseAddEndpoint (ep : option endpoint) s : outcome (bool * db) :=
  match ep with
  | Some v =>
      match e_deviceUuid v, e_id v with
      | Some uuid, Some _ =>
          v ← endpointClone ep; v ← of_option v;
          let '(a, h) := alloc_endpoint v (heap s) in
          let s := with_heap s h in
          entry ← map_get (devices s) uuid;
          match entry with
          | Some ce =>
              e ← entry_of s ce;
              s ← append_endpoint (ce_device e) a s;
              '(ok, s) ← addEndpointURIEntries ce a s;
              if ok : bool then saveDevice (ce_device e) s
              else h ← endpointDestroy a (heap s); Ok (false, with_heap s h)
          | None => h ← endpointDestroy a (heap s); Ok (false, with_heap s h)
          end
      | _, _ => Ok (false, s)
      end
  | None => Ok (false, s)
  end.

(** linkedListAppend(list, deviceClone(...)): a NULL clone is not appended. *)
Definition append_clone {A} (l : list A) (x : option A) : list A := l ++ option_list x.

(** An iteration over the devices that collects clones of those a test accepts. *)
Definition collect_devices (accept : device → bool) s : outcome (list device) :=
  map_iterate (devices s) (λ _ ce l,
    d ← entry_device s ce;
    if accept d then c ← deviceClone (Some d); Ok (append_clone l c) else Ok l) [].

Definition jsonDatabaseGetDevices s : outcome (list device) := collect_devices (λ _, true) s.

Definition has_profile (profileId : cstring) (e : endpoint) : bool := bool_decide (e_profile e = Some profileId).

Definition jsonDatabaseGetDevicesByEndpointProfile (profileId : option cstring) s : outcome (list device) :=
  match profileId with
  | Some p => collect_devices (λ d, existsb (has_profile p) (elems (d_endpoints d))) s
  | None => Ok []
  end.

Definition jsonDatabaseGetDevicesByDeviceClass (deviceClass : option cstring) s : outcome (list device) :=
  match deviceClass with
  | Some c => collect_devices (λ d, bool_decide (d_deviceClass d = Some c)) s
  | None => Ok []
  end.

Definition jsonDatabaseGetDevicesByDeviceDriver (deviceDriverName : option cstring) s : outcome (list device) :=
  match deviceDriverName with
  | Some n => collect_devices (λ d, bool_decide (d_managingDeviceDriver d = Some n)) s
  | None => Ok []
  end.

Definition jsonDatabaseGetDeviceById (uuid : option cstring) s : outcome (option device) :=
  match uuid with
  | Some uuid =>
      entry ← map_get (devices s) uuid;
      match entry with Some ce => d ← entry_device s ce; deviceClone (Some d) | None => Ok None end
  | None => Ok None
  end.

Definition jsonDatabaseGetDeviceByUri (uri : option cstring) s : outcome (option device) :=
  match uri with
  | Some uri =>
      locator ← map_get (resourcesByUri s) uri;
      match locator with
      | Some (LocDevice ce) | Some (LocEndpoint ce _) | Some (LocResource ce _ _) | Some (LocMetadata ce _ _) =>
          d ← entry_device s ce; deviceClone (Some d)
      | None => Ok None
      end
  | None => Ok None
  end.

Definition jsonDatabaseIsDeviceKnown (uuid : option cstring) s : outcome bool :=
  match uuid with
  | Some uuid => match devices s with Some m => km_contains m (zkey uuid) | None => Ok false end
  | None => Ok false
  end.

Definition jsonDatabaseRemoveDeviceById (uuid : option cstring) s : outcome (bool * db) :=
  match uuid with
  | Some uuid =>
      entry ← map_get (devices s) uuid;
      match entry with
      | Some _ =>
          let '(ok, st) := st_delete (store s) (Some uuid) in
          let s := with_store s st in
          if ok then s ← delete_device uuid s; Ok (true, s) else Ok (false, s)
      | None => Ok (false, s)
      end
  | None => Ok (false, s)
  end.

(** ** Endpoints *)

Definition jsonDatabaseGetEndpointsByProfile (profileId : option cstring) s : outcome (list endpoint) :=
  match profileId with
  | Some p =>
      map_iterate (devices s) (λ _ ce l,
        d ← entry_device s ce;
        foldM (λ e l, if has_profile p e then c ← endpointClone (Some e); Ok (append_clone l c) else Ok l)
          (elems (d_endpoints d)) l) []
  | None => Ok []
  end.

Fixpoint endpoint_by_id (endpointId : cstring) (l : list endpoint) : outcome (option endpoint) :=
  match l with
  | [] => Ok None
  | e :: l => if decide (e_id e = Some endpointId) then endpointClone (Some e) else endpoint_by_id endpointId l
  end.

Definition jsonDatabaseGetEndpointById (deviceUuid endpointId : option cstring) s : outcome (option endpoint) :=
  match endpointId with
  | Some endpointId =>
      uuid ← of_option deviceUuid;
      entry ← map_get (devices s) uuid;
      match entry with
      | Some ce => d ← entry_device s ce; endpoint_by_id endpointId (elems (d_endpoints d))
      | None => Ok None
      end
  | None => Ok None
  end.

Definition clone_endpoint_at s (ep : option addr) : outcome (option endpoint) :=
  match ep with
  | Some a => e ← read_endpoint (heap s) a; endpointClone (Some e)
  | None => endpointClone None
  end.

Definition jsonDatabaseGetEndpointByUri (uri : option cstring) s : outcome (option endpoint) :=
  match uri with
  | Some uri =>
      locator ← map_get (resourcesByUri s) uri;
      match locator with
      | Some (LocEndpoint _ ep) => clone_endpoint_at s (Some ep)
      | Some (LocResource _ (Some ep) _) => clone_endpoint_at s (Some ep)
      | Some (LocMetadata _ ep _) => clone_endpoint_at s ep
      | _ => Ok None
      end
  | None => Ok None
  end.

(** entry->dirty = true; retval = saveDevice(entry->device); if (retval) entry->dirty = false *)
Definition save_entry (ce : addr) s : outcome (bool * db) :=
  s ← set_dirty s ce true;
  e ← entry_of s ce;
  '(ok, s) ← saveDevice (ce_device e) s;
  if ok : bool then s ← set_dirty s ce false; Ok (true, s) else Ok (false, s).

Definition set_endpoint s (a : addr) (c : cEndpoint) : db :=
  with_heap s (set_ep (heap s) (<[a := c]> (m_ep (heap s)))).

Definition with_resources (c : cEndpoint) (rs : option (list addr)) : cEndpoint :=
  mkEndpoint (e_id c) (e_uri c) (e_profile c) (e_profileVersion c) (e_deviceUuid c) (e_enabled c) rs (e_metadata c).

(** One resource of the new set: a copy is appended and indexed; that it
    cannot be indexed is only logged. *)
Definition replace_one (ce a : addr) (res : icDeviceResource) s : outcome db :=
  match resourceClone (Some res) with
  | Some r =>
      let '(x, h) := alloc_resource r (heap s) in
      let s := with_heap s h in
      c ← of_option (m_ep (heap s) !! a);
      let s := set_endpoint s a (with_resources c (append_to (e_resources c) x)) in
      '(_, s) ← addDeviceResourceURIEntry ce (Some a) x s;
      Ok s
  | None => Ok s
  end.

Definition replaceEndpointResources (ce a : addr) (src : endpoint) s : outcome db :=
  c ← of_option (m_ep (heap s) !! a);
  s ← foldM removeDeviceResourceURIEntry (elems (e_resources c)) s;
  h ← foldM resourceDestroy (elems (e_resources c)) (heap s);
  let s := with_heap s h in
  let s := set_endpoint s a (with_resources c (Some [])) in
  foldM (replace_one ce a) (elems (e_resources src)) s.

Definition set_enabled (c : cEndpoint) (b : bool) : cEndpoint :=
  mkEndpoint (e_id c) (e_uri c) (e_profile c) (e_profileVersion c) (e_deviceUuid c) b (e_resources c) (e_metadata c).
Definition set_version (c : cEndpoint) (v : Z) : cEndpoint :=
  mkEndpoint (e_id c) (e_uri c) (e_profile c) v (e_deviceUuid c) (e_enabled c) (e_resources c) (e_metadata c).

Definition jsonDatabaseSaveEndpoint (ep : option endpoint) s : outcome (bool * db) :=
  match ep with
  | Some e =>
      match e_uri e with
      | Some uri =>
          locator ← map_get (resourcesByUri s) uri;
          match locator with
          | Some (LocEndpoint ce a) =>
              c ← of_option (m_ep (heap s) !! a);
              let s := set_endpoint s a (set_enabled c (e_enabled e)) in
              s ← (if decide (e_profileVersion c ≠ e_profileVersion e) then
                     s ← replaceEndpointResources ce a e s;
                     c ← of_option (m_ep (heap s) !! a);
                     Ok (set_endpoint s a (set_version c (e_profileVersion e)))
                   else Ok s);
              save_entry ce s
          | _ => Ok (false, s)
          end
      | None => Ok (false, s)
      end
  | None => Ok (false, s)
  end.

(** ** Resources *)

Definition jsonDatabaseGetResourceByUri (uri : option cstring) s : outcome (option icDeviceResource) :=
  match uri with
  | Some uri =>
      locator ← map_get (resourcesByUri s) uri;
      match locator with
      | Some (LocResource _ _ a) => r ← read_resource (heap s) a; Ok (resourceClone (Some r))
      | _ => Ok None
      end
  | None => Ok None
  end.

Definition set_resource s (a : addr) (r : icDeviceResource) : db :=
  with_heap s (set_res (heap s) (<[a := r]> (m_res (heap s)))).

(** What a save takes over from the given resource. *)
Definition update_resource (dbResource resource : icDeviceResource) : icDeviceResource :=
  mkResource (r_id dbResource) (r_uri dbResource) (r_endpointId dbResource) (r_deviceUuid dbResource)
    (strdup_or_null (r_value resource)) (r_type dbResource) (r_mode resource) (r_cachingPolicy resource)
    (r_dateOfLastSyncMillis resource).

Definition jsonDatabaseSaveResource (resource : option icDeviceResource) s : outcome (bool * db) :=
  match resource with
  | Some r =>
      match r_uri r with
      | Some uri =>
          locator ← map_get (resourcesByUri s) uri;
          match locator with
          | Some (LocResource ce _ a) =>
              dbResource ← read_resource (heap s) a;
              let s := set_resource s a (update_resource dbResource r) in
              if has_mode (r_mode r) RESOURCE_MODE_LAZY_SAVE_NEXT
              then s ← set_dirty s ce true; Ok (true, s)
              else save_entry ce s
          | _ => Ok (false, s)
          end
      | None => Ok (false, s)
      end
  | None => Ok (false, s)
  end.

Definition set_date (r : icDeviceResource) (now : Z) : icDeviceResource :=
  mkResource (r_id r) (r_uri r) (r_endpointId r) (r_deviceUuid r) (r_value r) (r_type r) (r_mode r)
    (r_cachingPolicy r) now.

(** [now] is what getCurrentUnixTimeMillis returns. *)
Definition jsonDatabaseUpdateDateOfLastSyncMillis (now : Z) (resource : option icDeviceResource) s : outcome (bool * db) :=
  match resource with
  | Some r =>
      match r_uri r with
      | Some uri =>
          locator ← map_get (resourcesByUri s) uri;
          match locator with
          | Some (LocResource ce _ a) =>
              dbResource ← read_resource (heap s) a;
              s ← set_dirty (set_resource s a (set_date dbResource now)) ce true;
              Ok (true, s)
          | _ => Ok (false, s)
          end
      | None => Ok (false, s)
      end
  | None => Ok (false, s)
  end.

(** ** Metadata *)

Definition jsonDatabaseGetMetadataByUri (uri : option cstring) s : outcome (option icDeviceMetadata) :=
  match uri with
  | Some uri =>
      locator ← map_get (resourcesByUri s) uri;
      match locator with
      | Some (LocMetadata _ _ a) => m ← read_metadata (heap s) a; Ok (metadataClone (Some m))
      | _ => Ok None
      end
  | None => Ok None
  end.

Definition set_metadata s (a : addr) (m : icDeviceMetadata) : db :=
  with_heap s (set_met (heap s) (<[a := m]> (m_met (heap s)))).

Definition set_value (m : icDeviceMetadata) (v : cstring) : icDeviceMetadata :=
  mkMetadata (m_id m) (m_uri m) (m_endpointId m) (m_deviceUuid m) (Some v).

(** The search for the endpoint of a new metadata; strcmp reads the ids. *)
Fixpoint find_endpoint s (endpointId : cstring) (l : list addr) : outcome (option addr) :=
  match l with
  | [] => Ok None
  | a :: l =>
      c ← of_option (m_ep (heap s) !! a);
      i ← of_option (e_id c);
      if decide (i = endpointId) then Ok (Some a) else find_endpoint s endpointId l
  end.

(** The cache entry to save, or NULL. *)
Definition add_metadata (m : icDeviceMetadata) s : outcome (option addr * db) :=
  uuid ← of_option (m_deviceUuid m);
  entry ← map_get (devices s) uuid;
  match entry with
  | None => Ok (None, s)
  | Some ce =>
      e ← entry_of s ce;
      c ← of_option (m_dev (heap s) !! ce_device e);
      match m_endpointId m with
      | Some endpointId =>
          found ← find_endpoint s endpointId (elems (d_endpoints c));
          match found with
          | Some ep =>
              v ← of_option (metadataClone (Some m));
              let '(x, h) := alloc_metadata v (heap s) in
              s ← append_endpoint_metadata ep x (with_heap s h);
              '(ok, s) ← addDeviceMetadataURIEntry ce (Some ep) x s;
              Ok (if ok : bool then Some ce else None, s)
          | None => Ok (Some ce, s)
          end
      | None =>
          v ← of_option (metadataClone (Some m));
          let '(x, h) := alloc_metadata v (heap s) in
          s ← append_device_metadata (ce_device e) x (with_heap s h);
          '(ok, s) ← addDeviceMetadataURIEntry ce None x s;
          Ok (if ok : bool then Some ce else None, s)
      end
  end.

Definition jsonDatabaseSaveMetadata (metadata : option icDeviceMetadata) s : outcome (bool * db) :=
  match metadata with
  | Some m =>
      match m_uri m with
      | Some uri =>
          locator ← map_get (resourcesByUri s) uri;
          '(entry, s) ←
            match locator with
            | Some (LocMetadata ce _ a) =>
                dbMetadata ← read_metadata (heap s) a;
                v ← of_option (m_value m);
                Ok (Some ce, set_metadata s a (set_value dbMetadata v))
            | Some _ => Ok (None, s)
            | None => add_metadata m s
            end;
          match entry with
          | Some ce => save_entry ce s
          | None => Ok (false, s)
          end
      | None => Ok (false, s)
      end
  | None => Ok (false, s)
  end.

(** ** Queries by regular expression *)

Inductive item :=
  | ItemDevice (d : device)
  | ItemEndpoint (e : endpoint)
  | ItemResource (r : icDeviceResource)
  | ItemMetadata (m : icDeviceMetadata).

(** A clone of what a Locator points to. *)
Definition clone_located s (l : Locator) : outcome (option item) :=
  match l with
  | LocDevice ce => d ← entry_device s ce; c ← deviceClone (Some d); Ok (option_map ItemDevice c)
  | LocEndpoint _ a => e ← read_endpoint (heap s) a; c ← endpointClone (Some e); Ok (option_map ItemEndpoint c)
  | LocResource _ _ a => r ← read_resource (heap s) a; Ok (option_map ItemResource (resourceClone (Some r)))
  | LocMetadata _ _ a => m ← read_metadata (heap s) a; Ok (option_map ItemMetadata (metadataClone (Some m)))
  end.

Definition getItemsByUriRegex (uriRegex : option cstring) (type : LocatorType) s : outcome (list item) :=
  match uriRegex with
  | Some pattern =>
      match regcomp pattern with
      | Some regex =>
          map_iterate (resourcesByUri s) (λ k l items,
            if decide (locatorType l = type) then
              key ← c_str k;
              if regexec regex key then c ← clone_located s l; Ok (append_clone items c) else Ok items
            else Ok items) []
      | None => Ok []
      end
  | None => Ok []
  end.

Definition jsonDatabaseGetResourcesByUriRegex (uriRegex : option cstring) s : outcome (list item) :=
  getItemsByUriRegex uriRegex LOCATOR_TYPE_RESOURCE s.

Definition jsonDatabaseGetMetadataByUriRegex (uriRegex : option cstring) s : outcome (list item) :=
  getItemsByUriRegex uriRegex LOCATOR_TYPE_METADATA s.

End Code.
Arguments db : clear implicits.

End JsonDatabase.
