(* ===== verification/JsonDatabaseSpec.v ===== *)
(** * The cache and its URI index

    [repr s cs]: the database holds the devices [cs], and the index maps
    exactly the URIs of their parts to them.  The lemmas show what the
    memory operations of JsonDatabase.v do to such a state: reading, changing
    a part in place, adding and removing a device.  That no two parts share a
    structure needs no invariant of its own: a structure has one URI, and the
    URIs of the index are distinct. *)

From S2P Require Import Prelude KeyMap Json DeviceModel DeviceJson Storage JsonDatabase.
Import KeyMap Json DeviceModel DeviceJson Storage JsonDatabase.

Module JsonDatabaseSpec.

(** ** Lists of results *)

Lemma mapO_Ok {A B} (f : A → outcome B) l ys : mapO f l = Ok ys ↔ Forall2 (λ x y, f x = Ok y) l ys.
Proof.
  revert ys. induction l as [|x l IH]; intros ys; simpl.
  - split; [intros [= <-]; constructor|intros H; by inversion H].
  - rewrite bind_Ok. split.
    + intros (y & Hy & (zs & Hz & [= <-])%bind_Ok). constructor; [done|]. by apply IH.
    + intros H. inversion H as [|? y ? zs Hy Hz]; subst. exists y. split; [done|]. apply IH in Hz. rewrite Hz. done.
Qed.

Lemma elem_of_concat {A} (ls : list (list A)) x : x ∈ concat ls ↔ ∃ l, l ∈ ls ∧ x ∈ l.
Proof.
  rewrite list_elem_of_In, in_concat. split; intros (l & Hl & Hx); exists l; split; by apply list_elem_of_In.
Qed.

Lemma NoDup_fst_unique {A B} (l : list (A * B)) u p q : NoDup l.*1 → (u, p) ∈ l → (u, q) ∈ l → p = q.
Proof.
  intros Hnd Hp Hq. induction l as [|[v r] l IH]; [by apply elem_of_nil in Hp|].
  apply NoDup_cons in Hnd as [Hn Hnd]. apply elem_of_cons in Hp as [Hp|Hp], Hq as [Hq|Hq]; simplify_eq; auto.
  - by apply (list_elem_of_fmap_2 fst) in Hq.
  - by apply (list_elem_of_fmap_2 fst) in Hp.
Qed.

Lemma Forall2_elem_r {A B} (P : A → B → Prop) l k y : Forall2 P l k → y ∈ k → ∃ x, x ∈ l ∧ P x y.
Proof.
  induction 1 as [|x y' l k Hxy H2 IH]; [by intros ?%elem_of_nil|]. intros [->|Hin]%elem_of_cons.
  - exists x. split; [by left|done].
  - destruct (IH Hin) as (z & Hz & ?). exists z. split; [by right|done].
Qed.

Lemma Forall2_elem_l {A B} (P : A → B → Prop) l k x : Forall2 P l k → x ∈ l → ∃ y, y ∈ k ∧ P x y.
Proof.
  induction 1 as [|x' y l k Hxy H2 IH]; [by intros ?%elem_of_nil|]. intros [->|Hin]%elem_of_cons.
  - exists y. split; [by left|done].
  - destruct (IH Hin) as (z & Hz & ?). exists z. split; [by right|done].
Qed.

(** A relation that holds pointwise on the elements of the first list. *)
Lemma Forall2_elems {A B} (P Q : A → B → Prop) l k :
  Forall2 P l k → (∀ x y, x ∈ l → y ∈ k → P x y → Q x y) → Forall2 Q l k.
Proof.
  intros H2 HPQ. induction H2 as [|x y l k Hxy H2 IH]; constructor.
  - apply HPQ; [by left..|done].
  - apply IH. intros x' y' Hx Hy. apply HPQ; by right.
Qed.

(** The lists of [option] type: NULL stays NULL. *)
Lemma mapL_Ok {A B} (f : A → outcome B) l y :
  mapL f l = Ok y ↔ Forall2 (λ x y, f x = Ok y) (elems l) (elems y) ∧ (is_Some y ↔ is_Some l).
Proof.
  destruct l as [l|]; simpl.
  - rewrite bind_Ok. split.
    + intros (ys & Hy%mapO_Ok & [= <-]). simpl. split; [done|]. by split; intros; eexists.
    + intros [Hf [_ [ys ->]]]; [by eexists|]. exists ys. split; [by apply mapO_Ok|done].
  - split.
    + intros [= <-]. split; [constructor|done].
    + intros [Hf [Hs _]]. destruct y; [|done]. destruct Hs as [? Hs]; [by eexists|done].
Qed.

Lemma mapL_edit {A B C} (f : A → outcome B) (f' : A → outcome C) (g : B → C) l y :
  (∀ x y, x ∈ elems l → f x = Ok y → f' x = Ok (g y)) → mapL f l = Ok y → mapL f' l = Ok (option_map (map g) y).
Proof.
  intros Hg [H2 Hs]%mapL_Ok. apply mapL_Ok. split.
  - destruct y as [ys|]; simpl in *; [|by inversion H2; constructor]. clear Hs.
    induction H2 as [|x y xs ys Hxy H2 IH]; simpl; constructor; [apply Hg; [by left|done]|].
    apply IH. intros x' y' Hx'. apply Hg. by right.
  - rewrite <-Hs. destruct y; simpl; [by split; intros; eexists|done].
Qed.

Lemma map_endpoint_Ok {R M R' M'} (f : R → outcome R') (g : M → outcome M') e e' :
  map_endpoint f g e = Ok e' ↔
  mapL f (e_resources e) = Ok (e_resources e') ∧ mapL g (e_metadata e) = Ok (e_metadata e') ∧
  e_id e' = e_id e ∧ e_uri e' = e_uri e ∧ e_profile e' = e_profile e ∧ e_profileVersion e' = e_profileVersion e ∧
  e_deviceUuid e' = e_deviceUuid e ∧ e_enabled e' = e_enabled e.
Proof.
  unfold map_endpoint. rewrite bind_Ok. split.
  - intros (rs & Hr & (ms & Hm & [= <-])%bind_Ok). simpl. tauto.
  - intros (Hr & Hm & H1 & H2 & H3 & H4 & H5 & H6). exists (e_resources e'). split; [done|]. rewrite Hm. simpl.
    by destruct e'; simplify_eq/=.
Qed.

Lemma map_device_Ok {E R M E' R' M'} (h : E → outcome E') (f : R → outcome R') (g : M → outcome M') d d' :
  map_device h f g d = Ok d' ↔
  mapL h (d_endpoints d) = Ok (d_endpoints d') ∧ mapL f (d_resources d) = Ok (d_resources d') ∧
  mapL g (d_metadata d) = Ok (d_metadata d') ∧
  d_uuid d' = d_uuid d ∧ d_deviceClass d' = d_deviceClass d ∧ d_deviceClassVersion d' = d_deviceClassVersion d ∧
  d_uri d' = d_uri d ∧ d_managingDeviceDriver d' = d_managingDeviceDriver d.
Proof.
  unfold map_device. rewrite bind_Ok. split.
  - intros (es & He & (rs & Hr & (ms & Hm & [= <-])%bind_Ok)%bind_Ok). simpl. tauto.
  - intros (He & Hr & Hm & H1 & H2 & H3 & H4 & H5). exists (d_endpoints d'). split; [done|]. rewrite Hr. simpl.
    rewrite Hm. simpl. by destruct d'; simplify_eq/=.
Qed.

(** ** The URIs of a device in memory *)

Section Index.
Implicit Types (h : mem) (ce a : addr).

Definition res_index h ce (ep : option addr) a : outcome (cstring * Locator) :=
  r ← read_resource h a; uri ← of_option (r_uri r); Ok (uri, LocResource ce ep a).
Definition met_index h ce (ep : option addr) a : outcome (cstring * Locator) :=
  m ← read_metadata h a; uri ← of_option (m_uri m); Ok (uri, LocMetadata ce ep a).
Definition ep_index h ce a : outcome (list (cstring * Locator)) :=
  e ← of_option (m_ep h !! a); uri ← of_option (e_uri e);
  rs ← mapO (res_index h ce (Some a)) (elems (e_resources e));
  ms ← mapO (met_index h ce (Some a)) (elems (e_metadata e));
  Ok ((uri, LocEndpoint ce a) :: rs ++ ms).
Definition dev_index h ce a : outcome (list (cstring * Locator)) :=
  d ← of_option (m_dev h !! a); uri ← of_option (d_uri d);
  es ← mapO (ep_index h ce) (elems (d_endpoints d));
  rs ← mapO (res_index h ce None) (elems (d_resources d));
  ms ← mapO (met_index h ce None) (elems (d_metadata d));
  Ok ((uri, LocDevice ce) :: concat es ++ rs ++ ms).

Lemma res_index_Ok h ce ep a u l : res_index h ce ep a = Ok (u, l) ↔
  l = LocResource ce ep a ∧ ∃ r, m_res h !! a = Some r ∧ r_uri r = Some u.
Proof.
  unfold res_index, read_resource. destruct (m_res h !! a) as [r|]; simpl; [|split; [done|by intros (_ & ? & ? & _)]].
  destruct (r_uri r) as [u'|] eqn:E; simpl; (split; [by intros [= -> <-]; eauto || done|]).
  - intros (-> & ? & [= <-] & Hr). congruence.
  - intros (-> & ? & [= <-] & Hr). congruence.
Qed.

Lemma met_index_Ok h ce ep a u l : met_index h ce ep a = Ok (u, l) ↔
  l = LocMetadata ce ep a ∧ ∃ m, m_met h !! a = Some m ∧ m_uri m = Some u.
Proof.
  unfold met_index, read_metadata. destruct (m_met h !! a) as [r|]; simpl; [|split; [done|by intros (_ & ? & ? & _)]].
  destruct (m_uri r) as [u'|] eqn:E; simpl; (split; [by intros [= -> <-]; eauto || done|]).
  - intros (-> & ? & [= <-] & Hr). congruence.
  - intros (-> & ? & [= <-] & Hr). congruence.
Qed.

Lemma ep_index_Ok h ce a idx : ep_index h ce a = Ok idx ↔
  ∃ e uri rs ms, m_ep h !! a = Some e ∧ e_uri e = Some uri ∧ idx = (uri, LocEndpoint ce a) :: rs ++ ms ∧
    Forall2 (λ x y, res_index h ce (Some a) x = Ok y) (elems (e_resources e)) rs ∧
    Forall2 (λ x y, met_index h ce (Some a) x = Ok y) (elems (e_metadata e)) ms.
Proof.
  unfold ep_index. split.
  - intros (e & He & (uri & Hu & (rs & Hr & (ms & Hm & [= <-])%bind_Ok)%bind_Ok)%bind_Ok)%bind_Ok.
    destruct (m_ep h !! a); [|done]. simplify_eq/=. destruct (e_uri e) eqn:E; [|done]. injection Hu as ->.
    rewrite mapO_Ok in Hr, Hm. by eexists _, _, rs, ms.
  - intros (e & uri & rs & ms & -> & Hu & -> & Hr%mapO_Ok & Hm%mapO_Ok). simpl. rewrite Hu. simpl. rewrite Hr. simpl.
    by rewrite Hm.
Qed.

Lemma dev_index_Ok h ce a idx : dev_index h ce a = Ok idx ↔
  ∃ d uri es rs ms, m_dev h !! a = Some d ∧ d_uri d = Some uri ∧
    idx = (uri, LocDevice ce) :: concat es ++ rs ++ ms ∧
    Forall2 (λ x y, ep_index h ce x = Ok y) (elems (d_endpoints d)) es ∧
    Forall2 (λ x y, res_index h ce None x = Ok y) (elems (d_resources d)) rs ∧
    Forall2 (λ x y, met_index h ce None x = Ok y) (elems (d_metadata d)) ms.
Proof.
  unfold dev_index. split.
  - intros (e & He & (uri & Hu & (es & Hes & (rs & Hr & (ms & Hm & [= <-])%bind_Ok)%bind_Ok)%bind_Ok)%bind_Ok)%bind_Ok.
    destruct (m_dev h !! a); [|done]. simplify_eq/=. destruct (d_uri e) eqn:E; [|done]. injection Hu as ->.
    apply mapO_Ok in Hr, Hm. apply mapO_Ok in Hes. by eexists _, _, es, rs, ms.
  - intros (e & uri & es & rs & ms & -> & Hu & -> & He%mapO_Ok & Hr%mapO_Ok & Hm%mapO_Ok). simpl. rewrite Hu. simpl.
    rewrite He. simpl. rewrite Hr. simpl. by rewrite Hm.
Qed.

(** Where the entries of an index come from. *)
Inductive points h ce : cstring → Locator → Prop :=
  | pt_resource u ep a r : m_res h !! a = Some r → r_uri r = Some u → points h ce u (LocResource ce ep a)
  | pt_metadata u ep a m : m_met h !! a = Some m → m_uri m = Some u → points h ce u (LocMetadata ce ep a)
  | pt_endpoint u a e : m_ep h !! a = Some e → e_uri e = Some u → points h ce u (LocEndpoint ce a)
  | pt_device u : points h ce u (LocDevice ce).

Lemma ep_index_points h ce a idx u l : ep_index h ce a = Ok idx → (u, l) ∈ idx → points h ce u l.
Proof.
  intros (e & uri & rs & ms & He & Hu & -> & Hr & Hm)%ep_index_Ok.
  rewrite elem_of_cons, elem_of_app. intros [[= -> ->]|[Hin|Hin]].
  - by eapply pt_endpoint.
  - destruct (Forall2_elem_r _ _ _ _ Hr Hin) as (x & _ & (-> & r & Hx & Hr')%res_index_Ok). by eapply pt_resource.
  - destruct (Forall2_elem_r _ _ _ _ Hm Hin) as (x & _ & (-> & r & Hx & Hr')%met_index_Ok). by eapply pt_metadata.
Qed.

Lemma dev_index_points h ce a idx u l : dev_index h ce a = Ok idx → (u, l) ∈ idx → points h ce u l.
Proof.
  intros (e & uri & es & rs & ms & Hd & Hu & -> & He & Hr & Hm)%dev_index_Ok.
  rewrite elem_of_cons, !elem_of_app. intros [[= -> ->]|[Hin|[Hin|Hin]]].
  - constructor.
  - apply elem_of_concat in Hin as (ei & Hei & Hin).
    destruct (Forall2_elem_r _ _ _ _ He Hei) as (x & _ & Hx). by eapply ep_index_points.
  - destruct (Forall2_elem_r _ _ _ _ Hr Hin) as (x & _ & (-> & r & Hx & Hr')%res_index_Ok). by eapply pt_resource.
  - destruct (Forall2_elem_r _ _ _ _ Hm Hin) as (x & _ & (-> & r & Hx & Hr')%met_index_Ok). by eapply pt_metadata.
Qed.

(** ** Changing parts in place

    An edit changes resources, metadata and two fields of endpoints, but no
    URI; the endpoint's URI tells which endpoint it is. *)
Record edit := mkEdit {
  ed_res : icDeviceResource → icDeviceResource;
  ed_met : icDeviceMetadata → icDeviceMetadata;
  ed_version : option cstring → Z → Z;
  ed_enabled : option cstring → bool → bool
}.

Definition keeps_uris (g : edit) : Prop :=
  (∀ r, r_uri (ed_res g r) = r_uri r) ∧ (∀ m, m_uri (ed_met g m) = m_uri m).

Definition no_edit : edit := mkEdit id id (λ _, id) (λ _, id).

Definition edit_fields {R M} (g : edit) (e : icDeviceEndpoint R M) : icDeviceEndpoint R M :=
  mkEndpoint (e_id e) (e_uri e) (e_profile e) (ed_version g (e_uri e) (e_profileVersion e)) (e_deviceUuid e)
    (ed_enabled g (e_uri e) (e_enabled e)) (e_resources e) (e_metadata e).

Definition edit_endpoint (g : edit) (e : endpoint) : endpoint :=
  mkEndpoint (e_id e) (e_uri e) (e_profile e) (ed_version g (e_uri e) (e_profileVersion e)) (e_deviceUuid e)
    (ed_enabled g (e_uri e) (e_enabled e)) (option_map (map (ed_res g)) (e_resources e))
    (option_map (map (ed_met g)) (e_metadata e)).

Definition edit_device (g : edit) (d : device) : device :=
  mkDevice (d_uuid d) (d_deviceClass d) (d_deviceClassVersion d) (d_uri d) (d_managingDeviceDriver d)
    (option_map (map (edit_endpoint g)) (d_endpoints d)) (option_map (map (ed_res g)) (d_resources d))
    (option_map (map (ed_met g)) (d_metadata d)).

(** The memory [h'] holds the edited parts of what the index [idx] names in [h]. *)
Definition edited (g : edit) h h' (idx : list (cstring * Locator)) : Prop :=
  ∀ u l, (u, l) ∈ idx →
    match l with
    | LocResource _ _ a => ∀ r, m_res h !! a = Some r → m_res h' !! a = Some (ed_res g r)
    | LocMetadata _ _ a => ∀ m, m_met h !! a = Some m → m_met h' !! a = Some (ed_met g m)
    | LocEndpoint _ a => ∀ e, m_ep h !! a = Some e → m_ep h' !! a = Some (edit_fields g e)
    | LocDevice _ => True
    end.

Lemma edited_sub g h h' idx idx' : edited g h h' idx → (∀ x, x ∈ idx' → x ∈ idx) → edited g h h' idx'.
Proof. intros He Hs u l Hin. apply (He u l), Hs, Hin. Qed.

Lemma res_edited g h h' ce ep l idx : keeps_uris g → edited g h h' idx →
  Forall2 (λ x y, res_index h ce ep x = Ok y) l idx → Forall2 (λ x y, res_index h' ce ep x = Ok y) l idx.
Proof.
  intros [Hg _] He H2. eapply Forall2_elems; [exact H2|]. intros x [u y] _ Hin (-> & r & Hr & Hu)%res_index_Ok.
  apply res_index_Ok. split; [done|]. exists (ed_res g r). split; [exact (He u _ Hin r Hr)|]. by rewrite Hg.
Qed.

Lemma met_edited g h h' ce ep l idx : keeps_uris g → edited g h h' idx →
  Forall2 (λ x y, met_index h ce ep x = Ok y) l idx → Forall2 (λ x y, met_index h' ce ep x = Ok y) l idx.
Proof.
  intros [_ Hg] He H2. eapply Forall2_elems; [exact H2|]. intros x [u y] _ Hin (-> & r & Hr & Hu)%met_index_Ok.
  apply met_index_Ok. split; [done|]. exists (ed_met g r). split; [exact (He u _ Hin r Hr)|]. by rewrite Hg.
Qed.

Lemma ep_edited g h h' ce a idx : keeps_uris g → edited g h h' idx → ep_index h ce a = Ok idx → ep_index h' ce a = Ok idx.
Proof.
  intros Hg He (e & uri & rs & ms & Ha & Hu & -> & Hr & Hm)%ep_index_Ok. apply ep_index_Ok.
  exists (edit_fields g e), uri, rs, ms. split; [refine (He uri (LocEndpoint ce a) _ e Ha); by left|]. simpl.
  split; [done|]. split; [done|]. split.
  - eapply res_edited; [done|eapply edited_sub; [exact He|]|done]. set_solver.
  - eapply met_edited; [done|eapply edited_sub; [exact He|]|done]. set_solver.
Qed.

Lemma dev_edited g h h' ce a idx : keeps_uris g → edited g h h' idx → m_dev h' !! a = m_dev h !! a →
  dev_index h ce a = Ok idx → dev_index h' ce a = Ok idx.
Proof.
  intros Hg He Hd (d & uri & es & rs & ms & Ha & Hu & -> & Hes & Hr & Hm)%dev_index_Ok. apply dev_index_Ok.
  exists d, uri, es, rs, ms. rewrite Hd. split; [done|]. split; [done|]. split; [done|]. repeat split.
  - eapply Forall2_elems; [exact Hes|]. intros x ei _ Hin Hei. apply (ep_edited g h); [done| |exact Hei].
    eapply edited_sub; [exact He|]. intros y Hy. right. apply elem_of_app. left.
    apply elem_of_concat. by exists ei.
  - eapply res_edited; [done|eapply edited_sub; [exact He|]|done]. set_solver.
  - eapply met_edited; [done|eapply edited_sub; [exact He|]|done]. set_solver.
Qed.

Lemma of_option_Ok {A} (o : option A) x : of_option o = Ok x ↔ o = Some x.
Proof. destruct o; simpl; split; intros [= ->]; done. Qed.

Lemma ep_read_edited g h h' ce a idx e : edited g h h' idx → ep_index h ce a = Ok idx →
  read_endpoint h a = Ok e → read_endpoint h' a = Ok (edit_endpoint g e).
Proof.
  intros He (c & uri & rs & ms & Ha & Hu & -> & Hr & Hm)%ep_index_Ok Hread. unfold read_endpoint in *.
  rewrite Ha in Hread. simpl in Hread. assert (Ha' : m_ep h' !! a = Some (edit_fields g c)).
  { refine (He uri (LocEndpoint ce a) _ c Ha). by left. }
  rewrite Ha'. simpl. apply map_endpoint_Ok in Hread as (H1 & H2 & H3 & H4 & H5 & H6 & H7 & H8).
  apply map_endpoint_Ok. simpl. rewrite H4, H6, H8. repeat split; try done.
  - eapply mapL_edit; [|exact H1]. intros x r Hx. unfold read_resource. rewrite !of_option_Ok.
    destruct (Forall2_elem_l _ _ _ _ Hr Hx) as ([u l] & Hin & (-> & _)%res_index_Ok).
    refine (He u (LocResource ce (Some a) x) _ r). set_solver.
  - eapply mapL_edit; [|exact H2]. intros x r Hx. unfold read_metadata. rewrite !of_option_Ok.
    destruct (Forall2_elem_l _ _ _ _ Hm Hx) as ([u l] & Hin & (-> & _)%met_index_Ok).
    refine (He u (LocMetadata ce (Some a) x) _ r). set_solver.
Qed.

Lemma dev_read_edited g h h' ce a idx d : edited g h h' idx → m_dev h' !! a = m_dev h !! a →
  dev_index h ce a = Ok idx → read_device h a = Ok d → read_device h' a = Ok (edit_device g d).
Proof.
  intros He Hd (c & uri & es & rs & ms & Ha & Hu & -> & Hes & Hr & Hm)%dev_index_Ok Hread.
  unfold read_device in *. rewrite Hd. rewrite Ha in *. simpl in *.
  apply map_device_Ok in Hread as (H1 & H2 & H3 & H4 & H5 & H6 & H7 & H8). apply map_device_Ok. simpl.
  repeat split; try done.
  - eapply mapL_edit; [|exact H1]. intros x e Hx. destruct (Forall2_elem_l _ _ _ _ Hes Hx) as (ei & Hin & Hei).
    apply (ep_read_edited g h h' ce x ei); [|exact Hei]. eapply edited_sub; [exact He|]. intros y Hy. right.
    apply elem_of_app. left. apply elem_of_concat. by exists ei.
  - eapply mapL_edit; [|exact H2]. intros x r Hx. unfold read_resource. rewrite !of_option_Ok.
    destruct (Forall2_elem_l _ _ _ _ Hr Hx) as ([u l] & Hin & (-> & _)%res_index_Ok).
    refine (He u (LocResource ce None x) _ r). set_solver.
  - eapply mapL_edit; [|exact H3]. intros x r Hx. unfold read_metadata. rewrite !of_option_Ok.
    destruct (Forall2_elem_l _ _ _ _ Hm Hx) as ([u l] & Hin & (-> & _)%met_index_Ok).
    refine (He u (LocMetadata ce None x) _ r). set_solver.
Qed.

Lemma map_id_on {A} (f : A → A) l : (∀ x, f x = x) → map f l = l.
Proof. intros Hf. induction l; simpl; [done|]. by rewrite Hf, IHl. Qed.

Lemma edit_device_id d : edit_device no_edit d = d.
Proof.
  assert (He : ∀ e, edit_endpoint no_edit e = e).
  { intros [? ? ? ? ? ? rs ms]. unfold edit_endpoint. simpl.
    f_equal; [destruct rs|destruct ms]; simpl; try done; by rewrite map_id_on. }
  destruct d as [? ? ? ? ? es rs ms]. unfold edit_device. simpl.
  f_equal; [destruct es|destruct rs|destruct ms]; simpl; try done; by rewrite map_id_on.
Qed.

(** Memory outside the parts of a device does not matter to it. *)
Definition same_parts h h' (idx : list (cstring * Locator)) : Prop := edited no_edit h h' idx.

Lemma dev_frame h h' ce a idx d : same_parts h h' idx → m_dev h' !! a = m_dev h !! a →
  dev_index h ce a = Ok idx → read_device h a = Ok d →
  dev_index h' ce a = Ok idx ∧ read_device h' a = Ok d.
Proof.
  intros Hs Hd Hi Hr. split; [by apply (dev_edited no_edit h)|].
  rewrite <-(edit_device_id d). by eapply dev_read_edited.
Qed.

End Index.
(** ** States *)

(** A cached device: its key, entry and structure, its value and index. *)
Record cached := mkCached {
  c_uuid : cstring;
  c_entry : addr;
  c_addr : addr;
  c_dirty : bool;
  c_dev : device;
  c_idx : list (cstring * Locator)
}.

Record cached_ok (h : mem) (c : cached) : Prop := {
  ck_entry : m_ent h !! c_entry c = Some (mkEntry (c_addr c) (c_dirty c));
  ck_index : dev_index h (c_entry c) (c_addr c) = Ok (c_idx c);
  ck_read : read_device h (c_addr c) = Ok (c_dev c);
  ck_uuid : d_uuid (c_dev c) = Some (c_uuid c);
  ck_clone : cloneable (c_dev c);
  ck_key : key_ok (zkey (c_uuid c));
  ck_uris u l : (u, l) ∈ c_idx c → key_ok (zkey u)
}.

(** No structure lies beyond the next free address. *)
Record below (h : mem) : Prop := {
  bl_ent a x : m_ent h !! a = Some x → (a < m_brk h)%positive;
  bl_dev a x : m_dev h !! a = Some x → (a < m_brk h)%positive;
  bl_ep a x : m_ep h !! a = Some x → (a < m_brk h)%positive;
  bl_res a x : m_res h !! a = Some x → (a < m_brk h)%positive;
  bl_met a x : m_met h !! a = Some x → (a < m_brk h)%positive
}.

Definition zuri (x : cstring * Locator) : cstring * Locator := (zkey x.1, x.2).
Definition key_of (c : cached) : cstring * addr := (zkey (c_uuid c), c_entry c).
Definition all_idx (cs : list cached) : list (cstring * Locator) := concat (c_idx <$> cs).

Lemma zkey_inj a b : zkey a = zkey b → a = b.
Proof. unfold zkey. intros H. by apply app_inj_tail in H as [-> _]. Qed.

Lemma all_idx_elem cs x : x ∈ all_idx cs ↔ ∃ c, c ∈ cs ∧ x ∈ c_idx c.
Proof.
  unfold all_idx. rewrite elem_of_concat. split.
  - intros (l & Hl & Hx). apply list_elem_of_fmap in Hl as (c & -> & Hc). eauto.
  - intros (c & Hc & Hx). exists (c_idx c). split; [by apply list_elem_of_fmap_2|done].
Qed.

Section State.
Context {json : Type} `{JsonLaws json} `{ProtectLaws} `{Regex}.
Context {SM : Type} `{KeyMapLaws SM cstring}.
Context {DM : Type} `{KeyMapLaws DM addr}.
Context {UM : Type} `{KeyMapLaws UM Locator}.
Context {PM : Type} `{KeyMapLaws PM (option cstring)}.
Context {ST : Type} `{StoreLaws ST}.
Abbreviation state := (db DM UM PM ST).
Implicit Types (s : state) (c : cached) (cs : list cached).

Record repr s cs : Prop := {
  rp_dev : ∃ m, devices s = Some m ∧ km_model m (key_of <$> cs);
  rp_uri : ∃ m us, resourcesByUri s = Some m ∧ km_model m us ∧ us ≡ₚ zuri <$> all_idx cs;
  rp_ok c : c ∈ cs → cached_ok (heap s) c;
  rp_below : below (heap s)
}.

Lemma uri_keys cs (us : list (cstring * Locator)) : us ≡ₚ zuri <$> all_idx cs → us.*1 ≡ₚ zkey <$> (all_idx cs).*1.
Proof. intros ->. rewrite <-!list_fmap_compose. done. Qed.

Lemma repr_uris_nodup s cs : repr s cs → NoDup (all_idx cs).*1.
Proof.
  intros Hr. destruct (rp_uri _ _ Hr) as (m & us & _ & Hm & Hp). apply km_nodup in Hm.
  rewrite (uri_keys _ _ Hp) in Hm. by apply NoDup_fmap_1 in Hm.
Qed.

Lemma repr_uuids_nodup s cs : repr s cs → NoDup (c_uuid <$> cs).
Proof.
  intros Hr. destruct (rp_dev _ _ Hr) as (m & _ & Hm). apply km_nodup in Hm.
  assert (Heq : (key_of <$> cs).*1 = zkey <$> (c_uuid <$> cs)) by (by rewrite <-!list_fmap_compose).
  rewrite Heq in Hm. by apply NoDup_fmap_1 in Hm.
Qed.

(** A URI names one part of one device. *)
Lemma nodup_concat {A B} (f : A → list (B * Locator)) (l : list A) x y u p q :
  NoDup (concat (f <$> l)).*1 → x ∈ l → y ∈ l → (u, p) ∈ f x → (u, q) ∈ f y → x = y ∧ p = q.
Proof.
  intros Hnd Hx Hy Hp Hq. induction l as [|z l IH]; [by apply elem_of_nil in Hx|].
  cbn [fmap list_fmap concat] in Hnd. fold (f <$> l) in Hnd. rewrite fmap_app in Hnd.
  apply NoDup_app in Hnd as (Hz & Hd & Hl).
  assert (Hin : ∀ w r, w ∈ l → (u, r) ∈ f w → u ∈ (concat (f <$> l)).*1).
  { intros w r Hw Hr. apply list_elem_of_fmap. exists (u, r). split; [done|].
    apply elem_of_concat. exists (f w). by split; [apply list_elem_of_fmap_2|]. }
  assert (Hme : ∀ r, (u, r) ∈ f z → u ∈ (f z).*1) by (intros r Hr; by apply (list_elem_of_fmap_2 fst) in Hr).
  apply elem_of_cons in Hx as [->|Hx], Hy as [->|Hy].
  - split; [done|]. by eapply NoDup_fst_unique; [exact Hz|..].
  - exfalso. eapply Hd; [by eapply Hme|by eapply Hin].
  - exfalso. eapply Hd; [by eapply Hme|by eapply Hin].
  - by apply IH.
Qed.

Lemma cached_unique s cs c c' u l l' : repr s cs → c ∈ cs → c' ∈ cs → (u, l) ∈ c_idx c → (u, l') ∈ c_idx c' →
  c = c' ∧ l = l'.
Proof. intros Hr. apply (nodup_concat c_idx cs), (repr_uris_nodup s cs Hr). Qed.

(** ** Looking up *)

Lemma get_device s cs uuid : repr s cs → key_ok (zkey uuid) →
  (∃ c, c ∈ cs ∧ c_uuid c = uuid ∧ map_get (devices s) uuid = Ok (Some (c_entry c))) ∨
  (uuid ∉ c_uuid <$> cs ∧ map_get (devices s) uuid = Ok None).
Proof.
  intros Hr Hk. destruct (rp_dev _ _ Hr) as (m & -> & Hm). unfold map_get. rewrite (km_get_law _ _ _ Hm Hk).
  destruct (list_to_map (key_of <$> cs) !! zkey uuid) as [ce|] eqn:E.
  - left. apply elem_of_list_to_map in E; [|by apply km_nodup in Hm].
    apply list_elem_of_fmap in E as (c & [= Heq ->] & Hc). exists c. by apply zkey_inj in Heq.
  - right. split; [|done]. apply not_elem_of_list_to_map in E. intros Hin. apply E.
    apply list_elem_of_fmap in Hin as (c & -> & Hc). apply list_elem_of_fmap. exists (key_of c).
    split; [done|by apply list_elem_of_fmap_2].
Qed.

Lemma get_uri s cs uri : repr s cs → key_ok (zkey uri) →
  (∃ c l, c ∈ cs ∧ (uri, l) ∈ c_idx c ∧ map_get (resourcesByUri s) uri = Ok (Some l)) ∨
  (uri ∉ (all_idx cs).*1 ∧ map_get (resourcesByUri s) uri = Ok None).
Proof.
  intros Hr Hk. destruct (rp_uri _ _ Hr) as (m & us & -> & Hm & Hp). unfold map_get. rewrite (km_get_law _ _ _ Hm Hk).
  destruct (list_to_map us !! zkey uri) as [l|] eqn:E.
  - left. apply elem_of_list_to_map in E; [|by apply km_nodup in Hm]. rewrite Hp in E.
    apply list_elem_of_fmap in E as ([u l'] & [= Heq ->] & Hin). apply zkey_inj in Heq as ->.
    apply all_idx_elem in Hin as (c & Hc & Hin). eauto.
  - right. split; [|done]. apply not_elem_of_list_to_map in E. rewrite (uri_keys _ _ Hp) in E.
    intros Hin. apply E. by apply list_elem_of_fmap_2.
Qed.

Lemma get_uri_in s cs c uri l : repr s cs → c ∈ cs → (uri, l) ∈ c_idx c → map_get (resourcesByUri s) uri = Ok (Some l).
Proof.
  intros Hr Hc Hin. pose proof (ck_uris _ _ (rp_ok _ _ Hr c Hc) _ _ Hin) as Hk.
  destruct (get_uri s cs uri Hr Hk) as [(c' & l' & Hc' & Hin' & ->)|[Hn _]].
  - by destruct (cached_unique s cs c c' uri l l' Hr) as [_ ->].
  - destruct Hn. apply list_elem_of_fmap. exists (uri, l). split; [done|]. apply all_idx_elem. eauto.
Qed.

Lemma get_device_in s cs c : repr s cs → c ∈ cs → map_get (devices s) (c_uuid c) = Ok (Some (c_entry c)).
Proof.
  intros Hr Hc. pose proof (ck_key _ _ (rp_ok _ _ Hr c Hc)) as Hk.
  destruct (rp_dev _ _ Hr) as (m & -> & Hm). unfold map_get. rewrite (km_get_law _ _ _ Hm Hk). f_equal.
  apply elem_of_list_to_map; [by apply km_nodup in Hm|]. change (zkey (c_uuid c), c_entry c) with (key_of c).
  by apply list_elem_of_fmap_2.
Qed.

Lemma repr_entry s cs c : repr s cs → c ∈ cs → entry_of s (c_entry c) = Ok (mkEntry (c_addr c) (c_dirty c)).
Proof. intros Hr Hc. unfold entry_of. by rewrite (ck_entry _ _ (rp_ok _ _ Hr c Hc)). Qed.

Lemma repr_device s cs c : repr s cs → c ∈ cs → entry_device s (c_entry c) = Ok (c_dev c).
Proof.
  intros Hr Hc. unfold entry_device. rewrite (repr_entry s cs c Hr Hc). simpl. apply (rp_ok _ _ Hr c Hc).
Qed.

Lemma repr_entries_inj s cs c c' : repr s cs → c ∈ cs → c' ∈ cs → c_entry c = c_entry c' → c = c'.
Proof.
  intros Hr Hc Hc' He. pose proof (rp_ok _ _ Hr c Hc) as K1. pose proof (rp_ok _ _ Hr c' Hc') as K2.
  pose proof (ck_entry _ _ K1) as E1. rewrite He, (ck_entry _ _ K2) in E1. injection E1 as Ea _.
  pose proof (ck_index _ _ K1) as I1. pose proof (ck_index _ _ K2) as I2. rewrite <-He, Ea, I1 in I2. injection I2 as Hi.
  apply dev_index_Ok in I1 as (d & uri & es & rs & ms & _ & _ & Hidx & _).
  destruct (cached_unique s cs c c' uri (LocDevice (c_entry c)) (LocDevice (c_entry c)) Hr) as [-> _]; try done.
  - rewrite Hidx. by left.
  - rewrite <-Hi, Hidx. by left.
Qed.

Lemma repr_uuid_inj s cs c c' : repr s cs → c ∈ cs → c' ∈ cs → c_uuid c = c_uuid c' → c = c'.
Proof.
  intros Hr Hc Hc' Hu. pose proof (get_device_in s cs c Hr Hc) as G. rewrite Hu, (get_device_in s cs c' Hr Hc') in G.
  injection G as G. by apply (repr_entries_inj s cs).
Qed.

(** ** Changing parts of the memory *)

Definition edit_cached (g : edit) (dirty : cached → bool) c : cached :=
  mkCached (c_uuid c) (c_entry c) (c_addr c) (dirty c) (edit_device g (c_dev c)) (c_idx c).

Lemma cloneable_edit g d : cloneable d → cloneable (edit_device g d).
Proof.
  intros Hc e He. unfold edit_device in He. simpl in He. destruct (d_endpoints d) as [es|] eqn:E; simpl in He; [|by apply elem_of_nil in He].
  apply list_elem_of_In, in_map_iff in He as (e0 & <- & He0%list_elem_of_In).
  destruct (Hc e0) as [[rs Hrs] [ms Hms]]; [by rewrite E|]. split; simpl; [rewrite Hrs|rewrite Hms]; by eexists.
Qed.

Lemma edit_cached_keys g dirty cs : key_of <$> (edit_cached g dirty <$> cs) = key_of <$> cs.
Proof. by rewrite <-list_fmap_compose. Qed.

Lemma edit_cached_idx g dirty cs : all_idx (edit_cached g dirty <$> cs) = all_idx cs.
Proof. unfold all_idx. by rewrite <-list_fmap_compose. Qed.

Lemma repr_edit g dirty s cs h' : repr s cs → keeps_uris g → below h' →
  (∀ c, c ∈ cs → edited g (heap s) h' (c_idx c) ∧ m_dev h' !! c_addr c = m_dev (heap s) !! c_addr c ∧
    m_ent h' !! c_entry c = Some (mkEntry (c_addr c) (dirty c))) →
  repr (with_heap s h') (edit_cached g dirty <$> cs).
Proof.
  intros Hr Hg Hb Hc. split; [|..|done].
  - rewrite edit_cached_keys. apply (rp_dev _ _ Hr).
  - rewrite edit_cached_idx. apply (rp_uri _ _ Hr).
  - intros c' Hc'. apply list_elem_of_fmap in Hc' as (c & -> & Hin). destruct (Hc c Hin) as (He & Hd & Hent).
    destruct (rp_ok _ _ Hr c Hin) as [K1 K2 K3 K4 K5 K6 K7]. split; simpl; try done.
    + by eapply dev_edited.
    + by eapply dev_read_edited.
    + by apply cloneable_edit.
Qed.

Lemma repr_store s cs st : repr s cs → repr (with_store s st) cs.
Proof. intros [K1 K2 K3 K4]. by split. Qed.

End State.
End JsonDatabaseSpec.
