(* ===== verification/JsonDatabaseOps.v ===== *)
(** * Operations of the device database on consistent states

    [db_ok s cs] joins the cache and index of JsonDatabaseSpec.v with the
    files: every cached device has its file, which holds its JSON text unless
    the device is marked dirty, and there are no other files than the system
    properties.  The lemmas give the effect of each operation on such states. *)

From S2P Require Import Prelude KeyMap Json DeviceModel DeviceJson DeviceJsonSpec Storage JsonDatabase JsonDatabaseSpec.
Import KeyMap Json DeviceModel DeviceJson DeviceJsonSpec Storage JsonDatabase JsonDatabaseSpec.

Module JsonDatabaseOps.

Lemma foldM_total {A S} (f : A → S → outcome S) l s : (∀ x s, ∃ s', f x s = Ok s') → ∃ s', foldM f l s = Ok s'.
Proof.
  intros Hf. revert s. induction l as [|x l IH]; intros s; [by exists s|]. simpl. destruct (Hf x s) as [s1 ->].
  apply IH.
Qed.

Section Ops.
Context {json : Type} `{JsonLaws json} `{ProtectLaws} `{Regex}.
Context {SM : Type} `{KeyMapLaws SM cstring}.
Context {DM : Type} `{KeyMapLaws DM addr}.
Context {UM : Type} `{KeyMapLaws UM Locator}.
Context {PM : Type} `{KeyMapLaws PM (option cstring)}.
Context {ST : Type} `{StoreLaws ST}.
Abbreviation state := (db DM UM PM ST).
Implicit Types (s : state) (c : cached) (cs : list cached).

(** ** The text a device is stored as *)

Lemma context_spec : ∃ ctx : option SM, namespace_context = Ok ctx ∧ in_namespace ctx STORAGE_NAMESPACE.
Proof.
  unfold namespace_context, serDesSetContextValue, serDesCreateContext.
  assert (Hk : key_ok (zkey RESOURCE_NAMESPACE_KEY)) by (vm_compute; discriminate).
  destruct (km_put_new (km_create : SM) [] (zkey RESOURCE_NAMESPACE_KEY) STORAGE_NAMESPACE km_create_law Hk)
    as (m & es & -> & Hm & Hp); [apply not_elem_of_nil|done|].
  obind. exists (Some m). split; [done|]. split; simpl.
  - rewrite (km_contains_law _ _ _ Hm Hk). rewrite bool_decide_eq_true_2; [done|]. rewrite Hp. by left.
  - rewrite (km_get_law _ _ _ Hm Hk). f_equal. apply elem_of_list_to_map; [by apply km_nodup in Hm|].
    rewrite Hp. by left.
Qed.

Section Total.
Context (ctx : option SM) (Hctx : in_namespace ctx STORAGE_NAMESPACE).

Lemma resources_total l : ∃ j : json, resourcesToJSON l ctx = Ok j.
Proof.
  apply foldM_total. intros r o. destruct (resource_written ctx STORAGE_NAMESPACE r Hctx) as (j & -> & _).
  obind. by eexists.
Qed.

Lemma metadatas_total l : ∃ j : json, metadatasToJSON l = Ok j.
Proof. apply foldM_total. intros m o. by eexists. Qed.

Lemma endpoints_total l : ∃ j : json, endpointsToJSON l ctx = Ok j.
Proof.
  apply foldM_total. intros e o. unfold endpointToJSON.
  destruct (resources_total (e_resources e)) as [jr ->], (metadatas_total (e_metadata e)) as [jm ->].
  obind. by eexists.
Qed.

Lemma deviceToJSON_total d : ∃ j : json, deviceToJSON d ctx = Ok j.
Proof.
  unfold deviceToJSON. destruct (endpoints_total (d_endpoints d)) as [je ->], (resources_total (d_resources d)) as [jr ->],
    (metadatas_total (d_metadata d)) as [jm ->]. obind. by eexists.
Qed.
End Total.

Definition device_text (d : device) : option cstring :=
  match namespace_context (SM := SM) with
  | Ok ctx => match deviceToJSON (json := json) d ctx with Ok j => cJSON_Print j | _ => None end
  | _ => None
  end.

Lemma device_text_some d : ∃ t, device_text d = Some t ∧ t ≠ [].
Proof.
  unfold device_text. destruct context_spec as (ctx & -> & Hctx). destruct (deviceToJSON_total ctx Hctx d) as [j ->].
  apply print_some.
Qed.

(** What is read back from the text of a storable device is the device. *)
Lemma device_text_parses d t : storable (json := json) STORAGE_NAMESPACE d → device_text d = Some t →
  ∃ (j : json) ctx, cJSON_Parse (Some t) = Some j ∧ namespace_context (SM := SM) = Ok ctx ∧ deviceFromJSON j ctx = Ok d.
Proof.
  intros Hs Ht. unfold device_text in Ht. destruct context_spec as (ctx & Hns & Hctx). rewrite Hns in Ht.
  destruct (device_reads_back ctx STORAGE_NAMESPACE d Hctx Hs) as (j & Hw & Hd & Hr). rewrite Hw in Ht.
  destruct (parse_print j t Hd Ht) as (j' & Hp & Hc). exists j', ctx. split; [done|]. split; [done|]. by apply Hr.
Qed.

Lemma saveDevice_spec s cs c : repr s cs → c ∈ cs →
  saveDevice (json := json) (SM := SM) (c_addr c) s =
    Ok ((st_save (store s) (Some (c_uuid c)) (device_text (c_dev c))).1,
        with_store s (st_save (store s) (Some (c_uuid c)) (device_text (c_dev c))).2).
Proof.
  intros Hr Hc. pose proof (rp_ok _ _ Hr c Hc) as Hok. unfold saveDevice, device_text.
  destruct context_spec as (ctx & -> & Hctx). obind. rewrite (ck_read _ _ Hok). obind.
  destruct (deviceToJSON_total ctx Hctx (c_dev c)) as [j ->]. obind. rewrite (ck_uuid _ _ Hok).
  by destruct (st_save _ _ _).
Qed.

(** ** The files *)

(** [exc] is a device whose file may be out of date. *)
Record filed (exc : option addr) s cs (m : gmap cstring cstring) : Prop := {
  so_model : st_model (store s) m;
  so_keys c : c ∈ cs → good_key (c_uuid c) ∧ c_uuid c ≠ SYSTEM_PROPERTIES_KEY;
  so_clean c : c ∈ cs → exc ≠ Some (c_entry c) → c_dirty c = false → m !! c_uuid c = device_text (c_dev c);
  so_file c : c ∈ cs → is_Some (m !! c_uuid c);
  so_only k : is_Some (m !! k) → k = SYSTEM_PROPERTIES_KEY ∨ k ∈ c_uuid <$> cs
}.

Definition db_ok s cs : Prop := repr s cs ∧ ∃ m, filed None s cs m.

(** The state after one device was written, or not. *)
Definition mark c (b : bool) (c' : cached) : bool := if decide (c_entry c' = c_entry c) then b else c_dirty c'.

Lemma below_ent h ce e e' : below h → m_ent h !! ce = Some e → below (set_ent h (<[ce := e']> (m_ent h))).
Proof.
  intros [B1 B2 B3 B4 B5] He. split; simpl; try done. intros a x [[<- <-]|[_ Hx]]%lookup_insert_Some; eauto.
Qed.

Lemma edited_same g h h' idx : keeps_uris g → (∀ r, ed_res g r = r) → (∀ m, ed_met g m = m) →
  (∀ R M (e : icDeviceEndpoint R M), edit_fields g e = e) →
  m_res h' = m_res h → m_met h' = m_met h → m_ep h' = m_ep h → edited g h h' idx.
Proof.
  intros _ G1 G2 G3 E1 E2 E3 u l Hin. destruct l; [done|..]; intros x Hx;
    rewrite ?E1, ?E2, ?E3, Hx; by rewrite ?G1, ?G2, ?G3.
Qed.

Lemma keeps_no_edit : keeps_uris no_edit.
Proof. by split. Qed.

Lemma same_memory h h' idx :
  m_res h' = m_res h → m_met h' = m_met h → m_ep h' = m_ep h → edited no_edit h h' idx.
Proof. apply edited_same; [apply keeps_no_edit|done..|]. by intros R M []. Qed.

Lemma edit_cached_id dirty c : edit_cached no_edit dirty c = mkCached (c_uuid c) (c_entry c) (c_addr c) (dirty c) (c_dev c) (c_idx c).
Proof. unfold edit_cached. by rewrite edit_device_id. Qed.

Definition with_dirty (dirty : cached → bool) c : cached :=
  mkCached (c_uuid c) (c_entry c) (c_addr c) (dirty c) (c_dev c) (c_idx c).

Lemma set_dirty_spec s cs c b : repr s cs → c ∈ cs →
  ∃ s', set_dirty s (c_entry c) b = Ok s' ∧ repr s' (with_dirty (mark c b) <$> cs) ∧ store s' = store s ∧
    systemProperties s' = systemProperties s.
Proof.
  intros Hr Hc. unfold set_dirty. rewrite (repr_entry s cs c Hr Hc). obind. eexists. split; [done|]. split; [|done].
  replace (with_dirty (mark c b) <$> cs) with (edit_cached no_edit (mark c b) <$> cs)
    by (apply list_fmap_ext; intros; apply edit_cached_id).
  apply repr_edit; [done|apply keeps_no_edit|..].
  - eapply below_ent; [apply Hr|apply (rp_ok _ _ Hr c Hc)].
  - intros c' Hc'. split; [by apply same_memory|]. split; [done|]. simpl. unfold mark.
    destruct (decide (c_entry c' = c_entry c)) as [He|He].
    + rewrite (repr_entries_inj s cs c' c Hr Hc' Hc He). by rewrite lookup_insert_eq.
    + rewrite lookup_insert_ne by done. apply (rp_ok _ _ Hr c' Hc').
Qed.

Lemma with_dirty_uuids dirty cs : c_uuid <$> (with_dirty dirty <$> cs) = c_uuid <$> cs.
Proof. by rewrite <-list_fmap_compose. Qed.

Lemma with_dirty_mark c b b' cs :
  with_dirty (mark (with_dirty (mark c b) c) b') <$> (with_dirty (mark c b) <$> cs) = with_dirty (mark c b') <$> cs.
Proof.
  rewrite <-list_fmap_compose. apply list_fmap_ext. intros i x _. unfold compose, with_dirty, mark. simpl.
  f_equal. by case_decide.
Qed.

(** A device marked dirty may have an old file. *)
Lemma filed_dirty s s' cs c m : filed (Some (c_entry c)) s cs m → store s' = store s →
  filed None s' (with_dirty (mark c true) <$> cs) m.
Proof.
  intros [F1 F2 F3 F4 F5] Hst. split.
  - by rewrite Hst.
  - intros c' (x & -> & Hx)%list_elem_of_fmap. by apply (F2 x).
  - intros c' (x & -> & Hx)%list_elem_of_fmap _ Hd. simpl in *. unfold mark in Hd. case_decide as He; [done|].
    apply F3; [done|congruence|done].
  - intros c' (x & -> & Hx)%list_elem_of_fmap. by apply (F4 x).
  - intros k. rewrite with_dirty_uuids. apply F5.
Qed.

(** Writing a device brings its file up to date, or leaves it marked dirty. *)
Lemma filed_saved s cs c m : repr s cs → filed (Some (c_entry c)) s cs m → c ∈ cs →
  let w := st_save (store s) (Some (c_uuid c)) (device_text (c_dev c)) in
  ∃ m', ∀ s', store s' = w.2 → filed None s' (with_dirty (mark c (negb w.1)) <$> cs) m'.
Proof.
  intros Hr [F1 F2 F3 F4 F5] Hc w. destruct (device_text_some (c_dev c)) as (t & Ht & Hne).
  destruct (F2 c Hc) as [Hg _]. pose proof (save_law (store s) m (c_uuid c) t F1 Hg Hne) as Hs.
  unfold w. rewrite Ht. exists (if (st_save (store s) (Some (c_uuid c)) (Some t)).1 then <[c_uuid c := t]> m else m).
  intros s' Hst. destruct (st_save (store s) (Some (c_uuid c)) (Some t)) as [ok st]. cbn [fst snd] in *.
  assert (Hsome : ∀ k, is_Some ((if ok then <[c_uuid c := t]> m else m) !! k) ↔ is_Some (m !! k)).
  { intros k. destruct ok; [|done]. rewrite lookup_insert_is_Some. destruct (decide (c_uuid c = k)) as [<-|]; [|tauto].
    split; [intros _; by apply F4|by left]. }
  split.
  - by rewrite Hst.
  - intros c' (x & -> & Hx)%list_elem_of_fmap. by apply (F2 x).
  - intros c' (x & -> & Hx)%list_elem_of_fmap _ Hd. simpl in *. unfold mark in Hd.
    destruct (decide (c_entry x = c_entry c)) as [He|He]; [|].
    + destruct ok; [|done]. rewrite (repr_entries_inj s cs x c Hr Hx Hc He), lookup_insert_eq. done.
    + assert (Hold : m !! c_uuid x = device_text (c_dev x)) by (apply F3; congruence). destruct ok; [|done].
      rewrite lookup_insert_ne; [done|]. intros Hu. apply He. by rewrite (repr_uuid_inj s cs c x Hr Hc Hx Hu).
  - intros c' (x & -> & Hx)%list_elem_of_fmap. simpl. apply Hsome. by apply (F4 x).
  - intros k. rewrite with_dirty_uuids, Hsome. apply F5.
Qed.

(** Where the storage does not fail, the operation succeeds. *)
Definition works s (ok : bool) s' : Prop := st_healthy (store s) → ok = true ∧ st_healthy (store s').

Lemma works_done s s' : store s' = store s → works s true s'.
Proof. intros E Hh. by rewrite E. Qed.

Lemma save_works_device s cs c m : filed (Some (c_entry c)) s cs m → c ∈ cs → st_healthy (store s) →
  let w := st_save (store s) (Some (c_uuid c)) (device_text (c_dev c)) in w.1 = true ∧ st_healthy w.2.
Proof.
  intros [F1 F2 F3 F4 F5] Hc Hh. destruct (device_text_some (c_dev c)) as (t & -> & Hne). destruct (F2 c Hc) as [Hg _].
  by apply (healthy_save _ m).
Qed.

Lemma save_entry_spec s cs c m : repr s cs → filed (Some (c_entry c)) s cs m → c ∈ cs →
  ∃ ok s', save_entry (json := json) (SM := SM) (c_entry c) s = Ok (ok, s') ∧
    db_ok s' (with_dirty (mark c (negb ok)) <$> cs) ∧ systemProperties s' = systemProperties s ∧ works s ok s'.
Proof.
  intros Hr Hf Hc. pose proof (save_works_device s cs c m Hf Hc) as Hw. unfold save_entry, works. destruct (set_dirty_spec s cs c true Hr Hc) as (s1 & -> & Hr1 & Hst1 & Hp1). obind.
  set (cs1 := with_dirty (mark c true) <$> cs) in *. set (c1 := with_dirty (mark c true) c).
  assert (Hc1 : c1 ∈ cs1) by (by apply list_elem_of_fmap_2).
  pose proof (repr_entry s1 cs1 c1 Hr1 Hc1) as He1. change (c_entry c1) with (c_entry c) in He1. rewrite He1.
  obind. cbn [ce_device]. rewrite (saveDevice_spec s1 cs1 c1 Hr1 Hc1). obind. rewrite Hst1. change (c_uuid c1) with (c_uuid c).
  change (c_dev c1) with (c_dev c). destruct (filed_saved s cs c m Hr Hf Hc) as (m' & Hm').
  destruct (st_save (store s) (Some (c_uuid c)) (device_text (c_dev c))) as [[] st]; cbn [fst snd negb] in *.
  - pose proof (repr_store s1 cs1 st Hr1) as Hr2. destruct (set_dirty_spec _ cs1 c1 false Hr2 Hc1) as (s3 & Hd & Hr3 & Hst3 & Hp3).
    change (c_entry c1) with (c_entry c) in Hd. rewrite Hd. obind. exists true, s3. split; [done|].
    unfold cs1, c1 in Hr3. rewrite with_dirty_mark in Hr3. split; [|by rewrite Hp3, <-Hp1, Hst3]. split; [done|].
    exists m'. apply Hm'. by rewrite Hst3.
  - exists false, (with_store s1 st). split; [done|]. split; [|done]. split; [by apply repr_store|]. exists m'. by apply Hm'.
Qed.


(** ** Changing one part of one device *)

(** The memory [h'] holds the parts edited by [g], which concern [c] only. *)
Record edits g s cs c (h' : mem) : Prop := {
  es_uris : keeps_uris g;
  es_below : below h';
  es_parts c' : c' ∈ cs → edited g (heap s) h' (c_idx c');
  es_others c' : c' ∈ cs → c' ≠ c → same_parts (heap s) h' (c_idx c');
  es_dev : m_dev h' = m_dev (heap s);
  es_ent : m_ent h' = m_ent (heap s)
}.

Lemma edits_repr g s cs c h' : repr s cs → edits g s cs c h' → repr (with_heap s h') (edit_cached g c_dirty <$> cs).
Proof.
  intros Hr He. apply repr_edit; [done|apply He|apply He|]. intros c' Hc'. rewrite (es_dev _ _ _ _ _ He), (es_ent _ _ _ _ _ He).
  split; [by apply He|]. split; [done|]. apply (rp_ok _ _ Hr c' Hc').
Qed.

Lemma edits_others g s cs c h' c' : repr s cs → edits g s cs c h' → c' ∈ cs → c' ≠ c → edit_device g (c_dev c') = c_dev c'.
Proof.
  intros Hr He Hc' Hne. pose proof (rp_ok _ _ Hr c' Hc') as Hok.
  assert (Hd : m_dev h' !! c_addr c' = m_dev (heap s) !! c_addr c') by (by rewrite (es_dev _ _ _ _ _ He)).
  pose proof (dev_read_edited g _ h' _ _ _ _ (es_parts _ _ _ _ _ He c' Hc') Hd (ck_index _ _ Hok) (ck_read _ _ Hok)) as R1.
  destruct (dev_frame _ h' _ _ _ _ (es_others _ _ _ _ _ He c' Hc' Hne) Hd (ck_index _ _ Hok) (ck_read _ _ Hok)) as [_ R2].
  congruence.
Qed.

Lemma edit_cached_uuids g dirty cs : c_uuid <$> (edit_cached g dirty <$> cs) = c_uuid <$> cs.
Proof. by rewrite <-list_fmap_compose. Qed.

Lemma edits_filed g s cs c h' m : repr s cs → edits g s cs c h' → c ∈ cs → filed None s cs m →
  filed (Some (c_entry c)) (with_heap s h') (edit_cached g c_dirty <$> cs) m.
Proof.
  intros Hr He Hc [F1 F2 F3 F4 F5]. split; [done|..].
  - intros c' (x & -> & Hx)%list_elem_of_fmap. by apply (F2 x).
  - intros c' (x & -> & Hx)%list_elem_of_fmap Hexc Hd. simpl in *.
    rewrite (edits_others g s cs c h' x Hr He Hx) by congruence. by apply F3.
  - intros c' (x & -> & Hx)%list_elem_of_fmap. by apply (F4 x).
  - intros k. rewrite edit_cached_uuids. apply F5.
Qed.

Lemma with_dirty_edit g b c cs : with_dirty (mark (edit_cached g c_dirty c) b) <$> (edit_cached g c_dirty <$> cs)
  = edit_cached g (mark c b) <$> cs.
Proof. rewrite <-list_fmap_compose. done. Qed.

(** The change is written, or the device is marked dirty. *)
Lemma edit_saved g s cs c h' : db_ok s cs → edits g s cs c h' → c ∈ cs →
  ∃ ok s', save_entry (json := json) (SM := SM) (c_entry c) (with_heap s h') = Ok (ok, s') ∧
    db_ok s' (edit_cached g (mark c (negb ok)) <$> cs) ∧ systemProperties s' = systemProperties s ∧ works s ok s'.
Proof.
  intros [Hr (m & Hf)] He Hc. pose proof (edits_repr g s cs c h' Hr He) as Hr'.
  pose proof (edits_filed g s cs c h' m Hr He Hc Hf) as Hf'.
  destruct (save_entry_spec (with_heap s h') _ (edit_cached g c_dirty c) m Hr' Hf') as (ok & s' & Hs & Hok & Hp).
  { by apply list_elem_of_fmap_2. }
  exists ok, s'. rewrite with_dirty_edit in Hok. done.
Qed.

Lemma edit_lazy g s cs c h' : db_ok s cs → edits g s cs c h' → c ∈ cs →
  ∃ s', set_dirty (with_heap s h') (c_entry c) true = Ok s' ∧
    db_ok s' (edit_cached g (mark c true) <$> cs) ∧ systemProperties s' = systemProperties s ∧ works s true s'.
Proof.
  intros [Hr (m & Hf)] He Hc. pose proof (edits_repr g s cs c h' Hr He) as Hr'.
  pose proof (edits_filed g s cs c h' m Hr He Hc Hf) as Hf'.
  destruct (set_dirty_spec (with_heap s h') _ (edit_cached g c_dirty c) true Hr') as (s' & Hs & Hr2 & Hst & Hp).
  { by apply list_elem_of_fmap_2. }
  exists s'. split; [done|]. rewrite with_dirty_edit in Hr2. split; [|split; [done|by apply works_done]]. split; [done|]. exists m.
  pose proof (filed_dirty (with_heap s h') s' _ (edit_cached g c_dirty c) m Hf' Hst) as Hf2.
  by rewrite with_dirty_edit in Hf2.
Qed.

(** Two entries of the index for one structure are one entry. *)
Definition same_struct (l l' : Locator) : Prop :=
  match l, l' with
  | LocResource _ _ a, LocResource _ _ b | LocMetadata _ _ a, LocMetadata _ _ b | LocEndpoint _ a, LocEndpoint _ b => a = b
  | _, _ => False
  end.

Lemma repr_points s cs c u l : repr s cs → c ∈ cs → (u, l) ∈ c_idx c → points (heap s) (c_entry c) u l.
Proof. intros Hr Hc. apply dev_index_points with (c_addr c). apply (rp_ok _ _ Hr c Hc). Qed.

Lemma same_struct_unique s cs c c' u u' l l' : repr s cs → c ∈ cs → c' ∈ cs → (u, l) ∈ c_idx c → (u', l') ∈ c_idx c' →
  same_struct l l' → u = u' ∧ c = c' ∧ l = l'.
Proof.
  intros Hr Hc Hc' Hin Hin' Hs.
  assert (u = u') as <-.
  { pose proof (repr_points _ _ _ _ _ Hr Hc Hin) as P1. pose proof (repr_points _ _ _ _ _ Hr Hc' Hin') as P2.
    destruct l, l'; try done; simpl in Hs; subst; inversion P1; inversion P2; congruence. }
  by destruct (cached_unique s cs c c' u l l' Hr) as [-> ->].
Qed.

Lemma edit_fields_id {R M} g (e : icDeviceEndpoint R M) :
  (∀ v, ed_version g (e_uri e) v = v) → (∀ b, ed_enabled g (e_uri e) b = b) → edit_fields g e = e.
Proof. intros G1 G2. destruct e. unfold edit_fields. simpl in *. by rewrite G1, G2. Qed.

(** *** Resources, metadata, endpoints: the edit of the part with a URI *)

Definition on_resource (uri : cstring) (f : icDeviceResource → icDeviceResource) : edit :=
  mkEdit (λ r, if decide (r_uri r = Some uri) then f r else r) id (λ _, id) (λ _, id).
Definition on_metadata (uri : cstring) (f : icDeviceMetadata → icDeviceMetadata) : edit :=
  mkEdit id (λ m, if decide (m_uri m = Some uri) then f m else m) (λ _, id) (λ _, id).
Definition on_endpoint (uri : cstring) (enabled : bool) : edit :=
  mkEdit id id (λ _, id) (λ u b, if decide (u = Some uri) then enabled else b).

(** Goals about the memory where one structure was replaced: either it is that
    structure, or another one, with another URI. *)
Ltac replaced Hr Hc' Hin' :=
  let l := match type of Hin' with (_, ?l) ∈ _ => l end in
  pose proof (repr_points _ _ _ _ _ Hr Hc' Hin') as Hp';
  destruct l as [|ce b|ce ep' b|ce ep' b]; try done; intros x Hx; simpl;
  try (by rewrite Hx; f_equal; symmetry; apply edit_fields_id).

Lemma resource_edits s cs c uri ep a r f : repr s cs → c ∈ cs → (uri, LocResource (c_entry c) ep a) ∈ c_idx c →
  m_res (heap s) !! a = Some r → (∀ x, r_uri (f x) = r_uri x) →
  edits (on_resource uri f) s cs c (set_res (heap s) (<[a := f r]> (m_res (heap s)))).
Proof.
  intros Hr Hc Hin Ha Hf. pose proof (repr_points _ _ _ _ _ Hr Hc Hin) as Hp.
  assert (Hu : r_uri r = Some uri) by (inversion Hp; congruence). split; [|..|done|done].
  - split; [|done]. intros x. simpl. by case_decide.
  - destruct (rp_below _ _ Hr) as [B1 B2 B3 B4 B5]. split; simpl; try done.
    intros b x [[<- <-]|[_ Hx]]%lookup_insert_Some; eauto.
  - intros c' Hc' u l Hin'. replaced Hr Hc' Hin'. inversion Hp'; subst. destruct (decide (b = a)) as [->|Hne].
    + rewrite lookup_insert_eq. assert (x = r) as -> by congruence. by rewrite decide_True.
    + rewrite lookup_insert_ne by done. rewrite Hx. f_equal. rewrite decide_False; [done|]. intros Hxu.
      assert (u = uri) as -> by congruence. destruct (cached_unique s cs c' c uri _ _ Hr Hc' Hc Hin' Hin) as [_ [=]].
      congruence.
  - intros c' Hc' Hne u l Hin'. replaced Hr Hc' Hin'. rewrite lookup_insert_ne; [done|]. intros ->.
    by destruct (same_struct_unique s cs c' c u uri _ _ Hr Hc' Hc Hin' Hin eq_refl) as (_ & ? & _).
Qed.

Lemma metadata_edits s cs c uri ep a r f : repr s cs → c ∈ cs → (uri, LocMetadata (c_entry c) ep a) ∈ c_idx c →
  m_met (heap s) !! a = Some r → (∀ x, m_uri (f x) = m_uri x) →
  edits (on_metadata uri f) s cs c (set_met (heap s) (<[a := f r]> (m_met (heap s)))).
Proof.
  intros Hr Hc Hin Ha Hf. pose proof (repr_points _ _ _ _ _ Hr Hc Hin) as Hp.
  assert (Hu : m_uri r = Some uri) by (inversion Hp; congruence). split; [|..|done|done].
  - split; [done|]. intros x. simpl. by case_decide.
  - destruct (rp_below _ _ Hr) as [B1 B2 B3 B4 B5]. split; simpl; try done.
    intros b x [[<- <-]|[_ Hx]]%lookup_insert_Some; eauto.
  - intros c' Hc' u l Hin'. replaced Hr Hc' Hin'. inversion Hp'; subst. destruct (decide (b = a)) as [->|Hne].
    + rewrite lookup_insert_eq. assert (x = r) as -> by congruence. by rewrite decide_True.
    + rewrite lookup_insert_ne by done. rewrite Hx. f_equal. rewrite decide_False; [done|]. intros Hxu.
      assert (u = uri) as -> by congruence. destruct (cached_unique s cs c' c uri _ _ Hr Hc' Hc Hin' Hin) as [_ [=]].
      congruence.
  - intros c' Hc' Hne u l Hin'. replaced Hr Hc' Hin'. rewrite lookup_insert_ne; [done|]. intros ->.
    by destruct (same_struct_unique s cs c' c u uri _ _ Hr Hc' Hc Hin' Hin eq_refl) as (_ & ? & _).
Qed.

Lemma endpoint_edits s cs c uri a e enabled : repr s cs → c ∈ cs → (uri, LocEndpoint (c_entry c) a) ∈ c_idx c →
  m_ep (heap s) !! a = Some e →
  edits (on_endpoint uri enabled) s cs c (set_ep (heap s) (<[a := set_enabled e enabled]> (m_ep (heap s)))).
Proof.
  intros Hr Hc Hin Ha. pose proof (repr_points _ _ _ _ _ Hr Hc Hin) as Hp.
  assert (Hu : e_uri e = Some uri) by (inversion Hp; congruence). split; [|..|done|done].
  - done.
  - destruct (rp_below _ _ Hr) as [B1 B2 B3 B4 B5]. split; simpl; try done.
    intros b x [[<- <-]|[_ Hx]]%lookup_insert_Some; eauto.
  - intros c' Hc' u l Hin'. replaced Hr Hc' Hin'. inversion Hp'; subst. destruct (decide (b = a)) as [->|Hne].
    + rewrite lookup_insert_eq. assert (x = e) as -> by congruence. unfold edit_fields, set_enabled. simpl.
      by rewrite decide_True.
    + rewrite lookup_insert_ne by done. rewrite Hx. f_equal. symmetry. apply edit_fields_id; [done|]. intros b'. simpl.
      rewrite decide_False; [done|]. intros Hxu. assert (u = uri) as -> by congruence.
      destruct (cached_unique s cs c' c uri _ _ Hr Hc' Hc Hin' Hin) as [_ [=]]. congruence.
  - intros c' Hc' Hne u l Hin'. replaced Hr Hc' Hin'. rewrite lookup_insert_ne.
    + rewrite Hx. f_equal. symmetry. by apply edit_fields_id.
    + intros ->. by destruct (same_struct_unique s cs c' c u uri _ _ Hr Hc' Hc Hin' Hin eq_refl) as (_ & ? & _).
Qed.

Lemma resource_at s cs c uri ep a : repr s cs → c ∈ cs → (uri, LocResource (c_entry c) ep a) ∈ c_idx c →
  ∃ r, m_res (heap s) !! a = Some r ∧ r_uri r = Some uri.
Proof. intros Hr Hc Hin. pose proof (repr_points _ _ _ _ _ Hr Hc Hin) as Hp. inversion Hp; subst. eauto. Qed.

Lemma metadata_at s cs c uri ep a : repr s cs → c ∈ cs → (uri, LocMetadata (c_entry c) ep a) ∈ c_idx c →
  ∃ m, m_met (heap s) !! a = Some m ∧ m_uri m = Some uri.
Proof. intros Hr Hc Hin. pose proof (repr_points _ _ _ _ _ Hr Hc Hin) as Hp. inversion Hp; subst. eauto. Qed.

Lemma endpoint_at s cs c uri a : repr s cs → c ∈ cs → (uri, LocEndpoint (c_entry c) a) ∈ c_idx c →
  ∃ e, m_ep (heap s) !! a = Some e ∧ e_uri e = Some uri.
Proof. intros Hr Hc Hin. pose proof (repr_points _ _ _ _ _ Hr Hc Hin) as Hp. inversion Hp; subst. eauto. Qed.

(** ** The operations that change a part *)

(** What a saved resource, a new date and a saved metadata replace. *)
Definition saved_resource (r x : icDeviceResource) : icDeviceResource :=
  {| r_id := r_id x; r_uri := r_uri x; r_endpointId := r_endpointId x; r_deviceUuid := r_deviceUuid x;
     r_value := r_value r; r_type := r_type x; r_mode := r_mode r; r_cachingPolicy := r_cachingPolicy r;
     r_dateOfLastSyncMillis := r_dateOfLastSyncMillis r |}.
Definition synced_at (now : Z) (x : icDeviceResource) : icDeviceResource :=
  {| r_id := r_id x; r_uri := r_uri x; r_endpointId := r_endpointId x; r_deviceUuid := r_deviceUuid x;
     r_value := r_value x; r_type := r_type x; r_mode := r_mode x; r_cachingPolicy := r_cachingPolicy x;
     r_dateOfLastSyncMillis := now |}.
Definition saved_metadata (m x : icDeviceMetadata) : icDeviceMetadata :=
  {| m_id := m_id x; m_uri := m_uri x; m_endpointId := m_endpointId x; m_deviceUuid := m_deviceUuid x;
     m_value := m_value m |}.

Lemma update_resource_saved x r : update_resource x r = saved_resource r x.
Proof. unfold update_resource, saved_resource. by destruct (r_value r). Qed.

Lemma save_resource_spec s cs c uri ep a r : db_ok s cs → r_uri r = Some uri → c ∈ cs →
  (uri, LocResource (c_entry c) ep a) ∈ c_idx c →
  ∃ ok s', jsonDatabaseSaveResource (json := json) (SM := SM) (Some r) s = Ok (ok, s') ∧
    db_ok s' (edit_cached (on_resource uri (saved_resource r))
      (mark c (has_mode (r_mode r) RESOURCE_MODE_LAZY_SAVE_NEXT || negb ok)) <$> cs) ∧
    (has_mode (r_mode r) RESOURCE_MODE_LAZY_SAVE_NEXT = true → ok = true) ∧ works s ok s'.
Proof.
  intros Hok Hu Hc Hin. pose proof (proj1 Hok) as Hr. unfold jsonDatabaseSaveResource.
  rewrite Hu, (get_uri_in s cs c uri _ Hr Hc Hin). obind. destruct (resource_at s cs c uri ep a Hr Hc Hin) as (r0 & Ha & _).
  unfold read_resource. rewrite Ha. oread. unfold set_resource. rewrite update_resource_saved.
  pose proof (resource_edits s cs c uri ep a r0 (saved_resource r) Hr Hc Hin Ha (λ _, eq_refl)) as He.
  destruct (has_mode (r_mode r) RESOURCE_MODE_LAZY_SAVE_NEXT).
  - destruct (edit_lazy _ s cs c _ Hok He Hc) as (s' & -> & Hok' & _ & Hw). obind. by exists true, s'.
  - destruct (edit_saved _ s cs c _ Hok He Hc) as (ok & s' & -> & Hok' & _ & Hw). by exists ok, s'.
Qed.

Lemma update_date_spec s cs c uri ep a r now : db_ok s cs → r_uri r = Some uri → c ∈ cs →
  (uri, LocResource (c_entry c) ep a) ∈ c_idx c →
  ∃ s', jsonDatabaseUpdateDateOfLastSyncMillis now (Some r) s = Ok (true, s') ∧
    db_ok s' (edit_cached (on_resource uri (synced_at now)) (mark c true) <$> cs) ∧ works s true s'.
Proof.
  intros Hok Hu Hc Hin. pose proof (proj1 Hok) as Hr. unfold jsonDatabaseUpdateDateOfLastSyncMillis.
  rewrite Hu, (get_uri_in s cs c uri _ Hr Hc Hin). obind. destruct (resource_at s cs c uri ep a Hr Hc Hin) as (r0 & Ha & _).
  unfold read_resource. rewrite Ha. oread. unfold set_resource. change (set_date r0 now) with (synced_at now r0).
  pose proof (resource_edits s cs c uri ep a r0 (synced_at now) Hr Hc Hin Ha (λ _, eq_refl)) as He.
  destruct (edit_lazy _ s cs c _ Hok He Hc) as (s' & -> & Hok' & _ & Hw). obind. by exists s'.
Qed.

Lemma save_metadata_spec s cs c uri ep a m v : db_ok s cs → m_uri m = Some uri → m_value m = Some v → c ∈ cs →
  (uri, LocMetadata (c_entry c) ep a) ∈ c_idx c →
  ∃ ok s', jsonDatabaseSaveMetadata (json := json) (SM := SM) (Some m) s = Ok (ok, s') ∧
    db_ok s' (edit_cached (on_metadata uri (saved_metadata m)) (mark c (negb ok)) <$> cs) ∧ works s ok s'.
Proof.
  intros Hok Hu Hv Hc Hin. pose proof (proj1 Hok) as Hr. unfold jsonDatabaseSaveMetadata.
  rewrite Hu, (get_uri_in s cs c uri _ Hr Hc Hin). obind. destruct (metadata_at s cs c uri ep a Hr Hc Hin) as (m0 & Ha & _).
  unfold read_metadata. rewrite Ha. oread. rewrite Hv. oread. unfold set_metadata, set_value. rewrite <-Hv.
  change (mkMetadata _ _ _ _ _) with (saved_metadata m m0).
  pose proof (metadata_edits s cs c uri ep a m0 (saved_metadata m) Hr Hc Hin Ha (λ _, eq_refl)) as He.
  destruct (edit_saved _ s cs c _ Hok He Hc) as (ok & s' & -> & Hok' & _ & Hw). by exists ok, s'.
Qed.

Lemma save_endpoint_spec s cs c uri a e0 e : db_ok s cs → e_uri e = Some uri → c ∈ cs →
  (uri, LocEndpoint (c_entry c) a) ∈ c_idx c → m_ep (heap s) !! a = Some e0 → e_profileVersion e = e_profileVersion e0 →
  ∃ ok s', jsonDatabaseSaveEndpoint (json := json) (SM := SM) (Some e) s = Ok (ok, s') ∧
    db_ok s' (edit_cached (on_endpoint uri (e_enabled e)) (mark c (negb ok)) <$> cs) ∧ works s ok s'.
Proof.
  intros Hok Hu Hc Hin Ha Hv. pose proof (proj1 Hok) as Hr. unfold jsonDatabaseSaveEndpoint.
  rewrite Hu, (get_uri_in s cs c uri _ Hr Hc Hin). obind. rewrite Ha. oread. rewrite decide_False by (by intros []).
  obind. unfold set_endpoint. pose proof (endpoint_edits s cs c uri a e0 (e_enabled e) Hr Hc Hin Ha) as He.
  destruct (edit_saved _ s cs c _ Hok He Hc) as (ok & s' & -> & Hok' & _ & Hw). by exists ok, s'.
Qed.

(** ** The queries *)

Lemma collect_spec s cs (accept : device → bool) : repr s cs →
  collect_devices accept s = Ok (filter (λ d, accept d = true) (c_dev <$> cs)).
Proof.
  intros Hr. unfold collect_devices. destruct (rp_dev _ _ Hr) as (m & -> & Hm). simpl.
  rewrite (km_iterate_law _ _ _ _ Hm).
  assert (∀ l acc, (∀ c, c ∈ l → c ∈ cs) →
    foldM (λ e l, d ← entry_device s e.2; if accept d then c ← deviceClone (Some d); Ok (append_clone l c) else Ok l)
      (key_of <$> l) acc = Ok (acc ++ filter (λ d, accept d = true) (c_dev <$> l))) as Hgen.
  { induction l as [|c l IH]; intros acc Hl; [by rewrite app_nil_r|]. cbn [fmap list_fmap foldM].
    cbn [key_of snd]. rewrite (repr_device s cs c Hr) by (apply Hl; by left). obind. rewrite filter_cons.
    assert (Hc : cloneable (c_dev c)) by (apply (rp_ok _ _ Hr c); apply Hl; by left).
    destruct (accept (c_dev c)) eqn:Ea.
    - rewrite (deviceClone_eq _ Hc). obind. rewrite decide_True by done. unfold append_clone. simpl.
      etransitivity; [apply IH; intros c' Hc'; apply Hl; by right|]. by rewrite <-app_assoc.
    - rewrite decide_False by done. apply IH. intros c' Hc'. apply Hl. by right. }
  apply (Hgen cs []). done.
Qed.

Lemma get_devices_spec s cs : repr s cs → jsonDatabaseGetDevices s = Ok (c_dev <$> cs).
Proof.
  intros Hr. unfold jsonDatabaseGetDevices. rewrite (collect_spec s cs _ Hr). f_equal.
  induction (c_dev <$> cs) as [|d l IH]; [done|]. by rewrite filter_cons, decide_True, IH.
Qed.

End Ops.
End JsonDatabaseOps.
