(* ===== verification/JsonDatabaseMemory.v ===== *)
(** * Allocating and releasing devices

    A device put into memory part by part reads back as its value, in fresh
    structures; releasing a device whose parts have distinct URIs touches its
    structures once each and no others. *)

From S2P Require Import Prelude KeyMap Json DeviceModel DeviceJson Storage JsonDatabase JsonDatabaseSpec JsonDatabaseOps.
Import KeyMap Json DeviceModel DeviceJson Storage JsonDatabase JsonDatabaseSpec JsonDatabaseOps.

Module JsonDatabaseMemory.

Implicit Types (h : mem) (a ce : addr).

(** ** The URIs of a value *)

Definition res_uris (l : option (list icDeviceResource)) : list (option cstring) := r_uri <$> elems l.
Definition met_uris (l : option (list icDeviceMetadata)) : list (option cstring) := m_uri <$> elems l.
Definition ep_uris (e : endpoint) : list (option cstring) := e_uri e :: res_uris (e_resources e) ++ met_uris (e_metadata e).
Definition device_uris (d : device) : list (option cstring) :=
  d_uri d :: concat (ep_uris <$> elems (d_endpoints d)) ++ res_uris (d_resources d) ++ met_uris (d_metadata d).

(** Every part has a URI. *)
Definition all_uris (d : device) : Prop := Forall is_Some (device_uris d).

Lemma elems_read {A} (f : addr → outcome A) l y : mapL f l = Ok y → Forall2 (λ a x, f a = Ok x) (elems l) (elems y).
Proof. by intros [? _]%mapL_Ok. Qed.

Lemma res_index_read h ce ep l (rs : list icDeviceResource) :
  Forall2 (λ a r, read_resource h a = Ok r) l rs → Forall is_Some (r_uri <$> rs) →
  ∃ idx, Forall2 (λ a x, res_index h ce ep a = Ok x) l idx ∧ (Some <$> idx.*1) = r_uri <$> rs.
Proof.
  induction 1 as [|a r l rs Ha H2 IH]; intros Hs; [by exists []|]. apply Forall_cons in Hs as [[u Hu] Hs].
  destruct (IH Hs) as (idx & Hi & He). exists ((u, LocResource ce ep a) :: idx). unfold read_resource in Ha.
  apply of_option_Ok in Ha. split; [|cbn [fmap list_fmap fst]; by rewrite Hu, <-He].
  constructor; [|done]. apply res_index_Ok. eauto.
Qed.

Lemma met_index_read h ce ep l (ms : list icDeviceMetadata) :
  Forall2 (λ a r, read_metadata h a = Ok r) l ms → Forall is_Some (m_uri <$> ms) →
  ∃ idx, Forall2 (λ a x, met_index h ce ep a = Ok x) l idx ∧ (Some <$> idx.*1) = m_uri <$> ms.
Proof.
  induction 1 as [|a r l rs Ha H2 IH]; intros Hs; [by exists []|]. apply Forall_cons in Hs as [[u Hu] Hs].
  destruct (IH Hs) as (idx & Hi & He). exists ((u, LocMetadata ce ep a) :: idx). unfold read_metadata in Ha.
  apply of_option_Ok in Ha. split; [|cbn [fmap list_fmap fst]; by rewrite Hu, <-He].
  constructor; [|done]. apply met_index_Ok. eauto.
Qed.

Lemma ep_index_read h ce a e : read_endpoint h a = Ok e → Forall is_Some (ep_uris e) →
  ∃ idx, ep_index h ce a = Ok idx ∧ (Some <$> idx.*1) = ep_uris e.
Proof.
  intros Hr [[u Hu] [Hrs Hms]%Forall_app]%Forall_cons. unfold read_endpoint in Hr.
  apply bind_Ok in Hr as (c & Ha%of_option_Ok & Hr). apply map_endpoint_Ok in Hr as (M1 & M2 & _ & Mu & _).
  destruct (res_index_read h ce (Some a) _ _ (elems_read _ _ _ M1) Hrs) as (ri & Hri & Er).
  destruct (met_index_read h ce (Some a) _ _ (elems_read _ _ _ M2) Hms) as (mi & Hmi & Em).
  exists ((u, LocEndpoint ce a) :: ri ++ mi). split.
  - apply ep_index_Ok. exists c, u, ri, mi. by rewrite <-Mu.
  - unfold ep_uris. cbn [fmap list_fmap fst]. rewrite Hu, !fmap_app, Er, Em. done.
Qed.

Lemma dev_index_read h ce a d : read_device h a = Ok d → all_uris d →
  ∃ idx, dev_index h ce a = Ok idx ∧ (Some <$> idx.*1) = device_uris d.
Proof.
  intros Hr [[u Hu] [Hes [Hrs Hms]%Forall_app]%Forall_app]%Forall_cons. unfold read_device in Hr.
  apply bind_Ok in Hr as (c & Ha%of_option_Ok & Hr). apply map_device_Ok in Hr as (M1 & M2 & M3 & _ & _ & _ & Mu & _).
  destruct (res_index_read h ce None _ _ (elems_read _ _ _ M2) Hrs) as (ri & Hri & Er).
  destruct (met_index_read h ce None _ _ (elems_read _ _ _ M3) Hms) as (mi & Hmi & Em).
  assert (∃ ei, Forall2 (λ a x, ep_index h ce a = Ok x) (elems (d_endpoints c)) ei ∧
    (Some <$> (concat ei).*1) = concat (ep_uris <$> elems (d_endpoints d))) as (ei & Hei & Ee).
  { apply elems_read in M1. clear -M1 Hes. induction M1 as [|x e l es Hx M1 IH]; [by exists []|].
    cbn [fmap list_fmap concat] in Hes |- *. apply Forall_app in Hes as [He Hes].
    destruct (ep_index_read h ce x e Hx He) as (i & Hi & Ei). destruct (IH Hes) as (js & Hjs & Ejs).
    exists (i :: js). split; [by constructor|]. cbn [concat]. by rewrite !fmap_app, Ei, Ejs. }
  exists ((u, LocDevice ce) :: concat ei ++ ri ++ mi). split.
  - apply dev_index_Ok. exists c, u, ei, ri, mi. by rewrite <-Mu.
  - unfold device_uris. cbn [fmap list_fmap fst]. rewrite Hu, !fmap_app, Er, Em, Ee. done.
Qed.

(** ** Allocation *)

(** [h'] has everything [h] has, and more at fresh addresses only. *)
Record extends h h' : Prop := {
  ex_ent a : (a < m_brk h)%positive → m_ent h' !! a = m_ent h !! a;
  ex_dev a : (a < m_brk h)%positive → m_dev h' !! a = m_dev h !! a;
  ex_ep a : (a < m_brk h)%positive → m_ep h' !! a = m_ep h !! a;
  ex_res a : (a < m_brk h)%positive → m_res h' !! a = m_res h !! a;
  ex_met a : (a < m_brk h)%positive → m_met h' !! a = m_met h !! a;
  ex_brk : (m_brk h ≤ m_brk h')%positive
}.

#[global] Instance extends_refl : Reflexive extends.
Proof. by split. Qed.

#[global] Instance extends_trans : Transitive extends.
Proof.
  intros h1 h2 h3 E1 E2. pose proof (ex_brk _ _ E1). pose proof (ex_brk _ _ E2).
  split; [intros a Ha..|lia];
    [rewrite (ex_ent _ _ E2)|rewrite (ex_dev _ _ E2)|rewrite (ex_ep _ _ E2)|rewrite (ex_res _ _ E2)|rewrite (ex_met _ _ E2)];
    try lia; by apply E1.
Qed.

(** What can be read stays the same in an extension. *)
Lemma ext_resource h h' a r : below h → extends h h' → read_resource h a = Ok r → read_resource h' a = Ok r.
Proof.
  unfold read_resource. rewrite !of_option_Ok. intros Hb He Ha. rewrite (ex_res _ _ He); [done|]. by apply (bl_res _ Hb a r).
Qed.

Lemma ext_metadata h h' a r : below h → extends h h' → read_metadata h a = Ok r → read_metadata h' a = Ok r.
Proof.
  unfold read_metadata. rewrite !of_option_Ok. intros Hb He Ha. rewrite (ex_met _ _ He); [done|]. by apply (bl_met _ Hb a r).
Qed.

Lemma ext_list {A} (rd : mem → addr → outcome A) h h' l y :
  (∀ a x, rd h a = Ok x → rd h' a = Ok x) → mapL (rd h) l = Ok y → mapL (rd h') l = Ok y.
Proof.
  intros Hrd [H2 Hs]%mapL_Ok. apply mapL_Ok. split; [|done]. eapply Forall2_impl; [exact H2|]. intros a x. apply Hrd.
Qed.

Lemma ext_endpoint h h' a e : below h → extends h h' → read_endpoint h a = Ok e → read_endpoint h' a = Ok e.
Proof.
  intros Hb He. unfold read_endpoint. intros (c & Ha%of_option_Ok & Hc)%bind_Ok.
  rewrite (ex_ep _ _ He) by (by apply (bl_ep _ Hb a c)). rewrite Ha. simpl.
  apply map_endpoint_Ok in Hc as (M1 & M2 & Hrest). apply map_endpoint_Ok. split; [|split; [|done]].
  - eapply ext_list; [|exact M1]. intros x r. by apply ext_resource.
  - eapply ext_list; [|exact M2]. intros x r. by apply ext_metadata.
Qed.

(** A routine that allocates a structure for [x], which [rd] reads. *)
Definition allocates {A} (alloc : A → mem → addr * mem) (rd : mem → addr → outcome A) : Prop :=
  ∀ x h, below h → ∃ a h', alloc x h = (a, h') ∧ extends h h' ∧ below h' ∧ rd h' a = Ok x ∧
    (m_brk h ≤ a < m_brk h')%positive.

Lemma alloc_resource_spec : allocates alloc_resource read_resource.
Proof.
  intros r h [B1 B2 B3 B4 B5]. eexists _, _. split; [done|]. split; [|split].
  - split; simpl; try done; [|lia]. intros a Ha. apply lookup_insert_ne. lia.
  - split; simpl; [intros b x Hx..].
    + specialize (B1 _ _ Hx). lia. + specialize (B2 _ _ Hx). lia. + specialize (B3 _ _ Hx). lia.
    + apply lookup_insert_Some in Hx as [[<- _]|[_ Hx]]; [lia|]. specialize (B4 _ _ Hx). lia.
    + specialize (B5 _ _ Hx). lia.
  - unfold read_resource. simpl. rewrite lookup_insert_eq. split; [done|lia].
Qed.

Lemma alloc_metadata_spec : allocates alloc_metadata read_metadata.
Proof.
  intros r h [B1 B2 B3 B4 B5]. eexists _, _. split; [done|]. split; [|split].
  - split; simpl; try done; [|lia]. intros a Ha. apply lookup_insert_ne. lia.
  - split; simpl; [intros b x Hx..].
    + specialize (B1 _ _ Hx). lia. + specialize (B2 _ _ Hx). lia. + specialize (B3 _ _ Hx). lia.
    + specialize (B4 _ _ Hx). lia.
    + apply lookup_insert_Some in Hx as [[<- _]|[_ Hx]]; [lia|]. specialize (B5 _ _ Hx). lia.
  - unfold read_metadata. simpl. rewrite lookup_insert_eq. split; [done|lia].
Qed.

Lemma alloc_items_spec {A} (alloc : A → mem → addr * mem) (rd : mem → addr → outcome A) :
  allocates alloc rd → (∀ h h' a x, below h → extends h h' → rd h a = Ok x → rd h' a = Ok x) →
  ∀ l h, below h → ∃ as_ h', alloc_items alloc l h = (as_, h') ∧ extends h h' ∧ below h' ∧
    Forall2 (λ a x, rd h' a = Ok x) as_ l.
Proof.
  intros Hal Hext l. induction l as [|x l IH]; intros h Hb; [by exists [], h|].
  destruct (Hal x h Hb) as (a & h1 & E1 & X1 & B1 & R1 & _).
  destruct (IH h1 B1) as (as_ & h2 & E2 & X2 & B2 & R2). cbn [alloc_items]. rewrite E1, E2.
  exists (a :: as_), h2. split; [done|]. split; [by transitivity h1|]. split; [done|].
  constructor; [by apply (Hext h1)|done].
Qed.

Lemma alloc_list_spec {A} (alloc : A → mem → addr * mem) (rd : mem → addr → outcome A) :
  allocates alloc rd → (∀ h h' a x, below h → extends h h' → rd h a = Ok x → rd h' a = Ok x) →
  ∀ l h, below h → ∃ as_ h', alloc_list alloc l h = (as_, h') ∧ extends h h' ∧ below h' ∧
    mapL (rd h') as_ = Ok l.
Proof.
  intros Hal Hext [l|] h Hb; [|by exists None, h].
  destruct (alloc_items_spec alloc rd Hal Hext l h Hb) as (as_ & h' & E & X & B & R).
  cbn [alloc_list]. rewrite E. exists (Some as_), h'. split; [done|]. split; [done|]. split; [done|].
  apply mapL_Ok. split; [done|]. by split; intros; eexists.
Qed.

Lemma alloc_endpoint_spec : allocates alloc_endpoint read_endpoint.
Proof.
  intros e h Hb. unfold alloc_endpoint.
  destruct (alloc_list_spec _ _ alloc_resource_spec ext_resource (e_resources e) h Hb) as (rs & h1 & -> & X1 & B1 & R1).
  destruct (alloc_list_spec _ _ alloc_metadata_spec ext_metadata (e_metadata e) h1 B1) as (ms & h2 & -> & X2 & B2 & R2).
  set (c := mkEndpoint _ _ _ _ _ _ _ _). set (h3 := set_brk _ _). exists (m_brk h2), h3. split; [done|].
  assert (X3 : extends h2 h3).
  { split; simpl; try done; [|lia]. intros b Hbb. apply lookup_insert_ne. lia. }
  split; [transitivity h2; [by transitivity h1|done]|]. split.
  - destruct B2 as [P1 P2 P3 P4 P5]. split; simpl; [intros b x Hx..].
    + specialize (P1 _ _ Hx). lia. + specialize (P2 _ _ Hx). lia.
    + apply lookup_insert_Some in Hx as [[<- _]|[_ Hx]]; [lia|]. specialize (P3 _ _ Hx). lia.
    + specialize (P4 _ _ Hx). lia. + specialize (P5 _ _ Hx). lia.
  - split; [|pose proof (ex_brk _ _ X1); pose proof (ex_brk _ _ X2); simpl; lia].
    unfold read_endpoint. simpl. rewrite lookup_insert_eq. simpl. apply map_endpoint_Ok. simpl. split; [|split; [|done]].
    + eapply ext_list; [|exact R1]. intros x r Hx. apply (ext_resource h2); [done|done|]. by apply (ext_resource h1).
    + eapply ext_list; [|exact R2]. intros x r Hx. by apply (ext_metadata h2).
Qed.

Lemma alloc_device_spec : allocates alloc_device read_device.
Proof.
  intros d h Hb. unfold alloc_device.
  destruct (alloc_list_spec _ _ alloc_endpoint_spec ext_endpoint (d_endpoints d) h Hb) as (es & h1 & -> & X1 & B1 & R1).
  destruct (alloc_list_spec _ _ alloc_resource_spec ext_resource (d_resources d) h1 B1) as (rs & h2 & -> & X2 & B2 & R2).
  destruct (alloc_list_spec _ _ alloc_metadata_spec ext_metadata (d_metadata d) h2 B2) as (ms & h3 & -> & X3 & B3 & R3).
  set (c := mkDevice _ _ _ _ _ _ _ _). set (h4 := set_brk _ _). exists (m_brk h3), h4. split; [done|].
  assert (X4 : extends h3 h4).
  { split; simpl; try done; [|lia]. intros b Hbb. apply lookup_insert_ne. lia. }
  assert (X13 : extends h1 h3) by (by transitivity h2).
  split; [transitivity h3; [by transitivity h1|done]|]. split.
  - destruct B3 as [P1 P2 P3 P4 P5]. split; simpl; [intros b x Hx..].
    + specialize (P1 _ _ Hx). lia.
    + apply lookup_insert_Some in Hx as [[<- _]|[_ Hx]]; [lia|]. specialize (P2 _ _ Hx). lia.
    + specialize (P3 _ _ Hx). lia. + specialize (P4 _ _ Hx). lia. + specialize (P5 _ _ Hx). lia.
  - split; [|pose proof (ex_brk _ _ X1); pose proof (ex_brk _ _ X13); simpl; lia].
    unfold read_device. simpl. rewrite lookup_insert_eq. simpl. apply map_device_Ok. simpl.
    split; [|split; [|split; [|done]]].
    + eapply ext_list; [|exact R1]. intros x r Hx. apply (ext_endpoint h3); [done|done|]. by apply (ext_endpoint h1).
    + eapply ext_list; [|exact R2]. intros x r Hx. apply (ext_resource h3); [done|done|]. by apply (ext_resource h2).
    + eapply ext_list; [|exact R3]. intros x r Hx. by apply (ext_metadata h3).
Qed.

(** ** Release *)

(** From [h] to [h'] at most the structures named by [idx] were released. *)
Record released h h' (idx : list (cstring * Locator)) : Prop := {
  rl_ent : m_ent h' = m_ent h;
  rl_dev : m_dev h' = m_dev h;
  rl_brk : m_brk h' = m_brk h;
  rl_res a : (∀ u ce ep, (u, LocResource ce ep a) ∉ idx) → m_res h' !! a = m_res h !! a;
  rl_met a : (∀ u ce ep, (u, LocMetadata ce ep a) ∉ idx) → m_met h' !! a = m_met h !! a;
  rl_ep a : (∀ u ce, (u, LocEndpoint ce a) ∉ idx) → m_ep h' !! a = m_ep h !! a;
  rl_sub : m_res h' ⊆ m_res h ∧ m_met h' ⊆ m_met h ∧ m_ep h' ⊆ m_ep h
}.

Lemma released_refl h : released h h [].
Proof. by split. Qed.

Lemma released_trans h1 h2 h3 i1 i2 : released h1 h2 i1 → released h2 h3 i2 → released h1 h3 (i1 ++ i2).
Proof.
  intros [A1 A2 A3 A4 A5 A6 (A7 & A8 & A9)] [B1 B2 B3 B4 B5 B6 (B7 & B8 & B9)].
  split; [congruence..| | | |repeat split; by etransitivity]; intros a Ha.
  - rewrite B4, A4; [done|intros u ce ep Hin; apply (Ha u ce ep), elem_of_app; by left|
      intros u ce ep Hin; apply (Ha u ce ep), elem_of_app; by right].
  - rewrite B5, A5; [done|intros u ce ep Hin; apply (Ha u ce ep), elem_of_app; by left|
      intros u ce ep Hin; apply (Ha u ce ep), elem_of_app; by right].
  - rewrite B6, A6; [done|intros u ce Hin; apply (Ha u ce), elem_of_app; by left|
      intros u ce Hin; apply (Ha u ce), elem_of_app; by right].
Qed.

Lemma released_below h h' idx : released h h' idx → below h → below h'.
Proof.
  intros [E1 E2 E3 _ _ _ (S1 & S2 & S3)] [B1 B2 B3 B4 B5].
  split; rewrite E3; intros a x Hx.
  - rewrite E1 in Hx. by eapply B1.
  - rewrite E2 in Hx. by eapply B2.
  - eapply B3, lookup_weaken; done.
  - eapply B4, lookup_weaken; done.
  - eapply B5, lookup_weaken; done.
Qed.

(** An index all of whose entries point to structures of [h]. *)
Definition valid h (idx : list (cstring * Locator)) : Prop := ∀ u l, (u, l) ∈ idx → ∃ ce, points h ce u l.

Lemma released_parts h h' i1 i2 : released h h' i1 → valid h i1 → valid h i2 → NoDup (i1 ++ i2).*1 → same_parts h h' i2.
Proof.
  intros Hrl V1 V2 Hnd u l Hin. rewrite fmap_app in Hnd. apply NoDup_app in Hnd as (_ & Hd & _).
  assert (Hno : ∀ l', (u, l') ∉ i1).
  { intros l' Hin'. apply (Hd u); by apply (list_elem_of_fmap_2 fst) in Hin, Hin'. }
  destruct (V2 u l Hin) as (ce & Hp). destruct l as [|ce' b|ce' ep b|ce' ep b]; [done|..]; intros x Hx; simpl.
  - rewrite (rl_ep _ _ _ Hrl), Hx; [f_equal; symmetry; by apply edit_fields_id|]. intros u' ce0 Hin'.
    destruct (V1 _ _ Hin') as (ce1 & Hp1). assert (u' = u) as -> by (inversion Hp; inversion Hp1; congruence).
    by apply (Hno _ Hin').
  - rewrite (rl_res _ _ _ Hrl), Hx; [done|]. intros u' ce0 ep' Hin'.
    destruct (V1 _ _ Hin') as (ce1 & Hp1). assert (u' = u) as -> by (inversion Hp; inversion Hp1; congruence).
    by apply (Hno _ Hin').
  - rewrite (rl_met _ _ _ Hrl), Hx; [done|]. intros u' ce0 ep' Hin'.
    destruct (V1 _ _ Hin') as (ce1 & Hp1). assert (u' = u) as -> by (inversion Hp; inversion Hp1; congruence).
    by apply (Hno _ Hin').
Qed.

(** A list of structures, each released by [f]; [ix] is the index of one. *)
Lemma release_fold (f : addr → mem → outcome mem) (ix : mem → addr → outcome (list (cstring * Locator))) :
  (∀ h a i, ix h a = Ok i → valid h i) →
  (∀ h h' a i, same_parts h h' i → ix h a = Ok i → ix h' a = Ok i) →
  (∀ h a i, ix h a = Ok i → NoDup i.*1 → ∃ h', f a h = Ok h' ∧ released h h' i) →
  ∀ l is_ h, Forall2 (λ a i, ix h a = Ok i) l is_ → NoDup (concat is_).*1 →
    ∃ h', foldM f l h = Ok h' ∧ released h h' (concat is_).
Proof.
  intros Hv Hfr Hf l. induction l as [|a l IH]; intros is_ h H2 Hnd; inversion H2 as [|? i ? is' Ha Hl]; subst.
  { exists h. split; [done|apply released_refl]. }
  cbn [concat] in Hnd. pose proof Hnd as Hnd'. rewrite fmap_app in Hnd'. apply NoDup_app in Hnd' as (Hni & Hd & Hnl).
  destruct (Hf h a i Ha Hni) as (h1 & E1 & R1). cbn [foldM]. rewrite E1. obind.
  destruct (IH is' h1) as (h2 & E2 & R2); [|done|].
  { eapply Forall2_elems; [exact Hl|]. intros x y _ Hy Hx. apply (Hfr h); [|done].
    eapply edited_sub; [apply (released_parts h h1 i (concat is') R1)|].
    - by apply (Hv h a).
    - intros u l' (z & Hz & Hin)%elem_of_concat. destruct (Forall2_elem_r _ _ _ _ Hl Hz) as (b & _ & Hb).
      by apply (Hv h b z).
    - done.
    - intros p Hp. apply elem_of_concat. by exists y. }
  exists h2. split; [done|]. cbn [concat]. by eapply released_trans.
Qed.

Lemma released_sub h h' i j : released h h' i → (∀ x, x ∈ i → x ∈ j) → released h h' j.
Proof.
  intros [A1 A2 A3 A4 A5 A6 A7] Hs. split; try done; intros a Ha.
  - apply A4. intros u ce ep Hin. by apply (Ha u ce ep), Hs.
  - apply A5. intros u ce ep Hin. by apply (Ha u ce ep), Hs.
  - apply A6. intros u ce Hin. by apply (Ha u ce), Hs.
Qed.

(** One resource, one metadata *)
Definition one {A} (o : outcome A) : outcome (list A) := x ← o; Ok [x].

Lemma one_Ok {A} (o : outcome A) i : one o = Ok i ↔ ∃ x, o = Ok x ∧ i = [x].
Proof.
  unfold one. rewrite bind_Ok. split; intros (x & Hx & Hi); exists x; (split; [done|]); [by injection Hi|by rewrite Hi].
Qed.

Lemma ones {A} (f : addr → outcome A) l (ys : list A) :
  Forall2 (λ x y, f x = Ok y) l ys → Forall2 (λ x i, one (f x) = Ok i) l ((λ y, [y]) <$> ys) ∧ concat ((λ y, [y]) <$> ys) = ys.
Proof.
  induction 1 as [|x y l ys Hx H2 [IH1 IH2]]; [done|]. cbn [fmap list_fmap concat]. split.
  - constructor; [apply one_Ok; eauto|done].
  - cbn [app]. f_equal. exact IH2.
Qed.

Lemma resources_released h ce ep l idx : Forall2 (λ x y, res_index h ce ep x = Ok y) l idx → NoDup idx.*1 →
  ∃ h', foldM resourceDestroy l h = Ok h' ∧ released h h' idx.
Proof.
  intros [H2 Hc]%ones Hnd. rewrite <-Hc in Hnd |- *.
  apply (release_fold resourceDestroy (λ h x, one (res_index h ce ep x))); [| | |done|done].
  - intros h0 a i ([u x] & Hx & ->)%one_Ok u' l' Hin%list_elem_of_singleton. injection Hin as -> ->.
    apply res_index_Ok in Hx as (-> & r & Hr & Hu). exists ce. by eapply pt_resource.
  - intros h0 h1 a i Hs (x & Hx & ->)%one_Ok. apply one_Ok. exists x. split; [|done].
    assert (Hf : Forall2 (λ x y, res_index h0 ce ep x = Ok y) [a] [x]) by (by constructor).
    apply (res_edited no_edit h0 h1) in Hf; [by inversion Hf|apply keeps_no_edit|done].
  - intros h0 a i ([u x] & Hx & ->)%one_Ok _. apply res_index_Ok in Hx as (-> & r & Hr & Hu).
    unfold resourceDestroy. rewrite Hr. simpl. eexists. split; [done|]. split; simpl; try done.
    + intros b Hb. apply lookup_delete_ne. intros <-. apply (Hb u ce ep). by left.
    + split; [apply delete_subseteq|done].
Qed.

Lemma metadatas_released h ce ep l idx : Forall2 (λ x y, met_index h ce ep x = Ok y) l idx → NoDup idx.*1 →
  ∃ h', foldM metadataDestroy l h = Ok h' ∧ released h h' idx.
Proof.
  intros [H2 Hc]%ones Hnd. rewrite <-Hc in Hnd |- *.
  apply (release_fold metadataDestroy (λ h x, one (met_index h ce ep x))); [| | |done|done].
  - intros h0 a i ([u x] & Hx & ->)%one_Ok u' l' Hin%list_elem_of_singleton. injection Hin as -> ->.
    apply met_index_Ok in Hx as (-> & r & Hr & Hu). exists ce. by eapply pt_metadata.
  - intros h0 h1 a i Hs (x & Hx & ->)%one_Ok. apply one_Ok. exists x. split; [|done].
    assert (Hf : Forall2 (λ x y, met_index h0 ce ep x = Ok y) [a] [x]) by (by constructor).
    apply (met_edited no_edit h0 h1) in Hf; [by inversion Hf|apply keeps_no_edit|done].
  - intros h0 a i ([u x] & Hx & ->)%one_Ok _. apply met_index_Ok in Hx as (-> & r & Hr & Hu).
    unfold metadataDestroy. rewrite Hr. simpl. eexists. split; [done|]. split; simpl; try done.
    + intros b Hb. apply lookup_delete_ne. intros <-. apply (Hb u ce ep). by left.
    + split; [done|split; [apply delete_subseteq|done]].
Qed.

Lemma res_locator h ce ep l idx u x : Forall2 (λ x y, res_index h ce ep x = Ok y) l idx → (u, x) ∈ idx →
  ∃ a, x = LocResource ce ep a.
Proof. intros H2 Hin. destruct (Forall2_elem_r _ _ _ _ H2 Hin) as (a & _ & (-> & _)%res_index_Ok). eauto. Qed.

Lemma met_locator h ce ep l idx u x : Forall2 (λ x y, met_index h ce ep x = Ok y) l idx → (u, x) ∈ idx →
  ∃ a, x = LocMetadata ce ep a.
Proof. intros H2 Hin. destruct (Forall2_elem_r _ _ _ _ H2 Hin) as (a & _ & (-> & _)%met_index_Ok). eauto. Qed.

Lemma res_valid h ce ep l idx : Forall2 (λ x y, res_index h ce ep x = Ok y) l idx → valid h idx.
Proof.
  intros H2 u x Hin. destruct (Forall2_elem_r _ _ _ _ H2 Hin) as (a & _ & (-> & r & Hr & Hu)%res_index_Ok).
  exists ce. by eapply pt_resource.
Qed.

Lemma met_valid h ce ep l idx : Forall2 (λ x y, met_index h ce ep x = Ok y) l idx → valid h idx.
Proof.
  intros H2 u x Hin. destruct (Forall2_elem_r _ _ _ _ H2 Hin) as (a & _ & (-> & r & Hr & Hu)%met_index_Ok).
  exists ce. by eapply pt_metadata.
Qed.

Lemma endpoint_released h ce a idx : ep_index h ce a = Ok idx → NoDup idx.*1 →
  ∃ h', endpointDestroy a h = Ok h' ∧ released h h' idx.
Proof.
  intros (e & uri & rs & ms & Ha & Hu & -> & Hr & Hm)%ep_index_Ok Hnd.
  cbn [fmap list_fmap fst] in Hnd. apply NoDup_cons in Hnd as [_ Hnd]. pose proof Hnd as Hnd'.
  rewrite fmap_app in Hnd'. apply NoDup_app in Hnd' as (Hn1 & _ & Hn2).
  unfold endpointDestroy. rewrite Ha. simpl. destruct (resources_released h ce _ _ _ Hr Hn1) as (h1 & -> & R1). obind.
  assert (Hm1 : Forall2 (λ x y, met_index h1 ce (Some a) x = Ok y) (elems (e_metadata e)) ms).
  { apply (met_edited no_edit h); [apply keeps_no_edit| |done]. apply (released_parts h h1 rs); [done| | |done].
    - by eapply res_valid. - by eapply met_valid. }
  destruct (metadatas_released h1 ce _ _ _ Hm1 Hn2) as (h2 & -> & R2). obind. eexists. split; [done|].
  assert (R3 : released h2 (set_ep h2 (delete a (m_ep h2))) [(uri, LocEndpoint ce a)]).
  { split; simpl; try done.
    - intros b Hb. apply lookup_delete_ne. intros <-. apply (Hb uri ce). by left.
    - split; [done|split; [done|apply delete_subseteq]]. }
  eapply released_sub; [by eapply released_trans; [exact R1|by eapply released_trans]|]. set_solver.
Qed.

Lemma endpoints_released h ce l es : Forall2 (λ x y, ep_index h ce x = Ok y) l es → NoDup (concat es).*1 →
  ∃ h', foldM endpointDestroy l h = Ok h' ∧ released h h' (concat es).
Proof.
  intros H2 Hnd. apply (release_fold endpointDestroy (λ h x, ep_index h ce x)); [| | |done|done].
  - intros h0 a i Hi u x Hin. exists ce. by eapply ep_index_points.
  - intros h0 h1 a i Hs. apply (ep_edited no_edit h0 h1); [apply keeps_no_edit|done].
  - intros h0 a i. apply endpoint_released.
Qed.

(** A device with its parts: only the structures of its index go. *)
Lemma device_released h ce a idx : dev_index h ce a = Ok idx → NoDup idx.*1 →
  ∃ h' h1, deviceDestroy a h = Ok h' ∧ h' = set_dev h1 (delete a (m_dev h1)) ∧ released h h1 idx.
Proof.
  intros (d & uri & es & rs & ms & Ha & Hu & -> & He & Hr & Hm)%dev_index_Ok Hnd.
  cbn [fmap list_fmap fst] in Hnd. apply NoDup_cons in Hnd as [_ Hnd]. pose proof Hnd as Hnd1.
  rewrite fmap_app in Hnd1. apply NoDup_app in Hnd1 as (Hn1 & _ & Hn23). pose proof Hn23 as Hn23'.
  rewrite fmap_app in Hn23'. apply NoDup_app in Hn23' as (Hn2 & _ & Hn3).
  assert (V1 : valid h (concat es)).
  { intros u l (i & Hi & Hin)%elem_of_concat. destruct (Forall2_elem_r _ _ _ _ He Hi) as (x & _ & Hx).
    exists ce. by eapply ep_index_points. }
  pose proof (res_valid _ _ _ _ _ Hr) as V2. pose proof (met_valid _ _ _ _ _ Hm) as V3.
  assert (V23 : valid h (rs ++ ms)) by (intros u l [?|?]%elem_of_app; [by apply V2|by apply V3]).
  unfold deviceDestroy. rewrite Ha. simpl.
  destruct (endpoints_released h ce _ _ He Hn1) as (h1 & -> & R1). obind.
  pose proof (released_parts h h1 _ _ R1 V1 V23 Hnd) as S1.
  assert (Hr1 : Forall2 (λ x y, res_index h1 ce None x = Ok y) (elems (d_resources d)) rs).
  { apply (res_edited no_edit h); [apply keeps_no_edit| |done]. eapply edited_sub; [exact S1|]. set_solver. }
  destruct (resources_released h1 ce _ _ _ Hr1 Hn2) as (h2 & -> & R2). obind.
  assert (Hm2 : Forall2 (λ x y, met_index h2 ce None x = Ok y) (elems (d_metadata d)) ms).
  { assert (Hm1 : Forall2 (λ x y, met_index h1 ce None x = Ok y) (elems (d_metadata d)) ms).
    { apply (met_edited no_edit h); [apply keeps_no_edit| |done]. eapply edited_sub; [exact S1|]. set_solver. }
    apply (met_edited no_edit h1); [apply keeps_no_edit| |done]. apply (released_parts h1 h2 rs); [done| | |done].
    - by eapply res_valid. - by eapply met_valid. }
  destruct (metadatas_released h2 ce _ _ _ Hm2 Hn3) as (h3 & -> & R3). obind. eexists _, h3. split; [done|].
  split; [done|]. eapply released_sub; [by eapply released_trans; [exact R1|by eapply released_trans]|]. set_solver.
Qed.

End JsonDatabaseMemory.
