(* ===== verification/JsonDatabaseDevices.v ===== *)
(** * Adding and removing devices

    What addDeviceURIEntries and removeDeviceURIEntries do to the index, and
    what the operations that add and remove devices do to a consistent
    database. *)

From S2P Require Import Prelude KeyMap Json DeviceModel DeviceJson DeviceJsonSpec Storage JsonDatabase.
From S2P Require Import JsonDatabaseSpec JsonDatabaseOps JsonDatabaseMemory.
Import KeyMap Json DeviceModel DeviceJson DeviceJsonSpec Storage JsonDatabase JsonDatabaseSpec JsonDatabaseOps
  JsonDatabaseMemory.

Module JsonDatabaseDevices.

Section Devices.
Context {json : Type} `{JsonLaws json} `{ProtectLaws} `{Regex}.
Context {SM : Type} `{KeyMapLaws SM cstring}.
Context {DM : Type} `{KeyMapLaws DM addr}.
Context {UM : Type} `{KeyMapLaws UM Locator}.
Context {PM : Type} `{KeyMapLaws PM (option cstring)}.
Context {ST : Type} `{StoreLaws ST}.
Abbreviation state := (db DM UM PM ST).
Implicit Types (s : state) (c : cached) (cs : list cached) (us idx : list (cstring * Locator)).

(** ** The index as a list *)

Definition indexed s us : Prop := ∃ m es, resourcesByUri s = Some m ∧ km_model m es ∧ es ≡ₚ zuri <$> us.

Lemma indexed_perm s us us' : us ≡ₚ us' → indexed s us → indexed s us'.
Proof. intros Hp (m & es & Hm & Hk & He). exists m, es. by rewrite <-Hp. Qed.

Lemma indexed_keys us (es : list (cstring * Locator)) u : es ≡ₚ zuri <$> us → zkey u ∈ es.*1 ↔ u ∈ us.*1.
Proof.
  intros ->. rewrite <-list_fmap_compose, !list_elem_of_fmap. split; intros ([v l] & Hv & Hin); exists (v, l).
  - cbn in Hv. apply zkey_inj in Hv. done.
  - cbn in *. by subst.
Qed.

Definition keys_ok idx : Prop := ∀ u l, (u, l) ∈ idx → key_ok (zkey u).

Lemma keys_ok_app i j : keys_ok (i ++ j) ↔ keys_ok i ∧ keys_ok j.
Proof.
  unfold keys_ok. split.
  - intros Hk. split; intros u l Hin; apply (Hk u l), elem_of_app; auto.
  - intros [Hi Hj] u l [Hin|Hin]%elem_of_app; eauto.
Qed.

(** *** Adding *)

(** [f] adds the entries [idx] when there is room and none of them exists. *)
Definition inserts (h : mem) (f : state → outcome (bool * state)) idx : Prop :=
  ∀ s us, heap s = h → indexed s us → keys_ok idx → NoDup (idx ++ us).*1 → zlen (idx ++ us) ≤ 65535 →
  ∃ x, f s = Ok (true, with_uris s x) ∧ indexed (with_uris s x) (idx ++ us).

Lemma inserts_put h u l : inserts h (put_uri u l) [(u, l)].
Proof.
  intros s us _ (m & es & Hm & Hk & He) Hkey Hnd Hlen. unfold put_uri. rewrite Hm. unfold map_put.
  assert (Hn : zkey u ∉ es.*1) by (rewrite (indexed_keys us es u He); by apply NoDup_cons in Hnd as [? _]).
  assert (Hz : zlen es < 65535).
  { rewrite (Permutation_length He), length_fmap. cbn [app length] in Hlen. lia. }
  destruct (km_put_new m es (zkey u) l Hk (Hkey u l (list_elem_of_here _ _)) Hn Hz) as (m' & es' & -> & Hk' & Hp).
  obind. exists (Some m'). split; [done|]. exists m', es'. split; [done|]. split; [done|]. by rewrite Hp, He.
Qed.

Lemma inserts_nil h : inserts h (λ s, Ok (true, s)) [].
Proof. intros s us _ Hi _ _ _. exists (resourcesByUri s). by destruct s. Qed.

Lemma inserts_seq h f g i j : inserts h f i → inserts h g j →
  inserts h (λ s, '(ok, s) ← f s; if ok : bool then g s else Ok (false, s)) (i ++ j).
Proof.
  intros Hf Hg s us Hh Hi [Ki Kj]%keys_ok_app Hnd Hlen.
  rewrite <-app_assoc, fmap_app in Hnd. apply NoDup_app in Hnd as (N1 & N2 & N3).
  rewrite !length_app in Hlen.
  destruct (Hf s us Hh Hi Ki) as (x & -> & Hx).
  { rewrite fmap_app. apply NoDup_app. rewrite fmap_app in N2, N3. apply NoDup_app in N3 as (_ & _ & N3).
    split; [done|]. split; [|done]. intros u Hu Hu'. apply (N2 u Hu), elem_of_app. by right. }
  { rewrite length_app. lia. }
  obind. destruct (Hg (with_uris s x) (i ++ us) Hh Hx Kj) as (y & -> & Hy).
  { rewrite !fmap_app in *. apply NoDup_app in N3 as (N3 & N4 & N5). apply NoDup_app. split; [done|]. split.
    - intros u Hu [Hu'|Hu']%elem_of_app; [|by apply (N4 u)]. apply (N2 u Hu'), elem_of_app. by left.
    - apply NoDup_app. split; [done|]. split; [|done]. intros u Hu Hu'. apply (N2 u Hu), elem_of_app. by right. }
  { rewrite !length_app. lia. }
  exists y. split; [done|]. eapply indexed_perm; [|exact Hy]. by rewrite !app_assoc, (Permutation_app_comm j i).
Qed.

Lemma inserts_while h (F : addr → state → outcome (bool * state)) l is_ :
  Forall2 (λ a i, inserts h (F a) i) l is_ → inserts h (while_ok F l) (concat is_).
Proof.
  induction 1 as [|a i l is_ Ha F2 IH]; [apply inserts_nil|]. cbn [concat while_ok]. by apply inserts_seq.
Qed.

Lemma inserts_resources h ce ep l idx : Forall2 (λ x y, res_index h ce ep x = Ok y) l idx →
  inserts h (while_ok (addDeviceResourceURIEntry ce ep) l) idx.
Proof.
  intros [F2 <-]%ones. apply inserts_while. eapply Forall2_impl; [exact F2|].
  intros a i ([u x] & (-> & r & Hr & Hu)%res_index_Ok & ->)%one_Ok s us Hh. unfold addDeviceResourceURIEntry, read_resource.
  rewrite Hh, Hr. oread. rewrite Hu. by apply (inserts_put h).
Qed.

Lemma inserts_metadatas h ce ep l idx : Forall2 (λ x y, met_index h ce ep x = Ok y) l idx →
  inserts h (while_ok (addDeviceMetadataURIEntry ce ep) l) idx.
Proof.
  intros [F2 <-]%ones. apply inserts_while. eapply Forall2_impl; [exact F2|].
  intros a i ([u x] & (-> & r & Hr & Hu)%met_index_Ok & ->)%one_Ok s us Hh. unfold addDeviceMetadataURIEntry, read_metadata.
  rewrite Hh, Hr. oread. rewrite Hu. oread. by apply (inserts_put h).
Qed.

Lemma inserts_endpoint h ce a idx : ep_index h ce a = Ok idx → inserts h (addEndpointURIEntries ce a) idx.
Proof.
  intros (e & uri & rs & ms & Ha & Hu & -> & Hr & Hm)%ep_index_Ok s us Hh. unfold addEndpointURIEntries.
  rewrite Hh, Ha. oread. rewrite Hu. change ((uri, LocEndpoint ce a) :: rs ++ ms) with ([(uri, LocEndpoint ce a)] ++ rs ++ ms).
  apply (inserts_seq h (put_uri uri (LocEndpoint ce a))); [apply inserts_put| |done].
  apply inserts_seq; [by apply inserts_resources|by apply inserts_metadatas].
Qed.

Lemma inserts_device h ce e idx : m_ent h !! ce = Some e → dev_index h ce (ce_device e) = Ok idx →
  inserts h (addDeviceURIEntries ce) idx.
Proof.
  intros He (d & uri & es & rs & ms & Ha & Hu & -> & Hes & Hr & Hm)%dev_index_Ok s us Hh Hi Hk Hnd Hlen.
  unfold addDeviceURIEntries, entry_of. rewrite Hh, He. oread. rewrite Ha. oread. rewrite Hu.
  assert (Hins : inserts h (λ s, '(ok, s) ← put_uri uri (LocDevice ce) s;
        if ok : bool then '(ok, s) ← while_ok (addEndpointURIEntries ce) (elems (d_endpoints d)) s;
          if ok : bool then '(ok, s) ← while_ok (addDeviceResourceURIEntry ce None) (elems (d_resources d)) s;
            if ok : bool then while_ok (addDeviceMetadataURIEntry ce None) (elems (d_metadata d)) s
            else Ok (false, s) else Ok (false, s) else Ok (false, s))
      ([(uri, LocDevice ce)] ++ concat es ++ rs ++ ms)).
  { apply inserts_seq; [apply inserts_put|]. apply inserts_seq.
    - apply inserts_while. eapply Forall2_impl; [exact Hes|]. intros x i. apply inserts_endpoint.
    - apply inserts_seq; [by apply inserts_resources|by apply inserts_metadatas]. }
  destruct (Hins s us Hh Hi Hk Hnd Hlen) as (x & Hx & Hix). exists x. split; [|done]. revert Hx.
  destruct (put_uri uri (LocDevice ce) s) as [[[] s1]| |]; obind; [|done..].
  destruct (while_ok (addEndpointURIEntries ce) _ s1) as [[[] s2]| |]; obind; [|done..].
  destruct (while_ok (addDeviceResourceURIEntry ce None) _ s2) as [[[] s3]| |]; obind; [|done..].
  by intros ->.
Qed.

(** *** Removing *)

(** [f] removes the entries [idx]. *)
Definition deletes (h : mem) (f : state → outcome state) idx : Prop :=
  ∀ s us, heap s = h → indexed s (idx ++ us) → keys_ok idx →
  ∃ x, f s = Ok (with_uris s x) ∧ indexed (with_uris s x) us.

Lemma deletes_uri h u l : deletes h (delete_uri u) [(u, l)].
Proof.
  intros s us _ (m & es & Hm & Hk & He) Hkey. unfold delete_uri, map_delete. rewrite Hm.
  assert (Hin : (zkey u, l) ∈ es) by (rewrite He; by left).
  destruct (km_delete_present m es (zkey u) l Hk (Hkey u l (list_elem_of_here _ _)) Hin) as (m' & es' & -> & Hk' & Hp).
  obind. exists (Some m'). split; [done|]. exists m', es'. split; [done|]. split; [done|].
  apply (Permutation_cons_inv (a := (zkey u, l))). by rewrite <-Hp, He.
Qed.

Lemma deletes_nil h : deletes h (λ s, Ok s) [].
Proof. intros s us _ Hi _. exists (resourcesByUri s). by destruct s. Qed.

Lemma deletes_seq h f g i j : deletes h f i → deletes h g j → deletes h (λ s, s ← f s; g s) (i ++ j).
Proof.
  intros Hf Hg s us Hh Hi [Ki Kj]%keys_ok_app. rewrite <-app_assoc in Hi.
  destruct (Hf s _ Hh Hi Ki) as (x & -> & Hx). obind. destruct (Hg (with_uris s x) us Hh Hx Kj) as (y & -> & Hy).
  by exists y.
Qed.

Lemma deletes_fold h (F : addr → state → outcome state) l is_ :
  Forall2 (λ a i, deletes h (F a) i) l is_ → deletes h (foldM F l) (concat is_).
Proof. induction 1 as [|a i l is_ Ha F2 IH]; [apply deletes_nil|]. cbn [concat foldM]. by apply deletes_seq. Qed.

Lemma deletes_resources h ce ep l idx : Forall2 (λ x y, res_index h ce ep x = Ok y) l idx →
  deletes h (foldM removeDeviceResourceURIEntry l) idx.
Proof.
  intros [F2 <-]%ones. apply deletes_fold. eapply Forall2_impl; [exact F2|].
  intros a i ([u x] & (-> & r & Hr & Hu)%res_index_Ok & ->)%one_Ok s us Hh. unfold removeDeviceResourceURIEntry, read_resource.
  rewrite Hh, Hr. oread. rewrite Hu. by apply (deletes_uri h).
Qed.

Lemma deletes_metadatas h ce ep l idx : Forall2 (λ x y, met_index h ce ep x = Ok y) l idx →
  deletes h (foldM removeMetadataURIEntry l) idx.
Proof.
  intros [F2 <-]%ones. apply deletes_fold. eapply Forall2_impl; [exact F2|].
  intros a i ([u x] & (-> & r & Hr & Hu)%met_index_Ok & ->)%one_Ok s us Hh. unfold removeMetadataURIEntry, read_metadata.
  rewrite Hh, Hr. oread. rewrite Hu. oread. by apply (deletes_uri h).
Qed.

Lemma deletes_endpoint h ce a idx : ep_index h ce a = Ok idx → deletes h (removeEndpointURIEntries a) idx.
Proof.
  intros (e & uri & rs & ms & Ha & Hu & -> & Hr & Hm)%ep_index_Ok s us Hh. unfold removeEndpointURIEntries.
  rewrite Hh, Ha. oread. rewrite Hu. change ((uri, LocEndpoint ce a) :: rs ++ ms) with ([(uri, LocEndpoint ce a)] ++ rs ++ ms).
  apply (deletes_seq h (delete_uri uri)); [apply deletes_uri| |done].
  apply deletes_seq; [by eapply deletes_resources|by eapply deletes_metadatas].
Qed.

Lemma deletes_device h ce a idx : dev_index h ce a = Ok idx → deletes h (removeDeviceURIEntries a) idx.
Proof.
  intros (d & uri & es & rs & ms & Ha & Hu & -> & Hes & Hr & Hm)%dev_index_Ok s us Hh. unfold removeDeviceURIEntries.
  rewrite Hh, Ha. oread. rewrite Hu.
  change ((uri, LocDevice ce) :: concat es ++ rs ++ ms) with ([(uri, LocDevice ce)] ++ concat es ++ rs ++ ms).
  apply (deletes_seq h (delete_uri uri)); [apply deletes_uri| |done]. apply deletes_seq.
  - apply deletes_fold. eapply Forall2_impl; [exact Hes|]. intros x i. apply deletes_endpoint.
  - apply deletes_seq; [by eapply deletes_resources|by eapply deletes_metadatas].
Qed.

(** ** Devices *)

Lemma res_index_uris h ce ep l idx (rs : list icDeviceResource) : Forall2 (λ x y, res_index h ce ep x = Ok y) l idx →
  Forall2 (λ a r, read_resource h a = Ok r) l rs → Some <$> idx.*1 = r_uri <$> rs.
Proof.
  intros Hi. revert rs. induction Hi as [|a [u x] l idx Ha Hi IH]; intros rs Hr; inversion Hr as [|? r ? rs' Hx Hl]; subst; [done|].
  cbn [fmap list_fmap fst]. rewrite (IH rs') by done. f_equal. apply res_index_Ok in Ha as (_ & r' & Hr' & <-).
  unfold read_resource in Hx. rewrite Hr' in Hx. by injection Hx as ->.
Qed.

Lemma met_index_uris h ce ep l idx (rs : list icDeviceMetadata) : Forall2 (λ x y, met_index h ce ep x = Ok y) l idx →
  Forall2 (λ a r, read_metadata h a = Ok r) l rs → Some <$> idx.*1 = m_uri <$> rs.
Proof.
  intros Hi. revert rs. induction Hi as [|a [u x] l idx Ha Hi IH]; intros rs Hr; inversion Hr as [|? r ? rs' Hx Hl]; subst; [done|].
  cbn [fmap list_fmap fst]. rewrite (IH rs') by done. f_equal. apply met_index_Ok in Ha as (_ & r' & Hr' & <-).
  unfold read_metadata in Hx. rewrite Hr' in Hx. by injection Hx as ->.
Qed.

Lemma ep_index_uris h ce a idx e : ep_index h ce a = Ok idx → read_endpoint h a = Ok e → Some <$> idx.*1 = ep_uris e.
Proof.
  intros (c & uri & rs & ms & Ha & Hu & -> & Hr & Hm)%ep_index_Ok Hread. unfold read_endpoint in Hread.
  rewrite Ha in Hread. simpl in Hread. apply map_endpoint_Ok in Hread as (M1 & M2 & _ & Mu & _).
  unfold ep_uris. cbn [fmap list_fmap fst]. rewrite !fmap_app, Mu, Hu. f_equal. f_equal.
  - eapply res_index_uris; [exact Hr|by apply elems_read].
  - eapply met_index_uris; [exact Hm|by apply elems_read].
Qed.

Lemma dev_index_uris h ce a idx d : dev_index h ce a = Ok idx → read_device h a = Ok d → Some <$> idx.*1 = device_uris d.
Proof.
  intros (c & uri & es & rs & ms & Ha & Hu & -> & He & Hr & Hm)%dev_index_Ok Hread. unfold read_device in Hread.
  rewrite Ha in Hread. simpl in Hread. apply map_device_Ok in Hread as (M1 & M2 & M3 & _ & _ & _ & Mu & _).
  unfold device_uris. cbn [fmap list_fmap fst]. rewrite !fmap_app, Mu, Hu. f_equal. f_equal; [|f_equal].
  - apply elems_read in M1. clear -He M1. revert M1. generalize (elems (d_endpoints d)).
    induction He as [|x i l es Hx He IH]; intros ds M1; inversion M1 as [|? e ? ds' Hd Hl]; subst; [done|].
    cbn [concat fmap list_fmap]. rewrite !fmap_app. f_equal; [by eapply ep_index_uris|by apply IH].
  - eapply res_index_uris; [exact Hr|by apply elems_read].
  - eapply met_index_uris; [exact Hm|by apply elems_read].
Qed.

Lemma repr_uris s cs : repr s cs → Some <$> (all_idx cs).*1 = concat (device_uris <$> (c_dev <$> cs)).
Proof.
  intros Hr. pose proof (λ c, rp_ok _ _ Hr c) as Hok. clear Hr. induction cs as [|c cs IH]; [done|].
  unfold all_idx. cbn [fmap list_fmap concat]. rewrite !fmap_app. f_equal.
  - destruct (Hok c (list_elem_of_here _ _)) as [_ Hi Hd _ _ _ _]. by eapply dev_index_uris.
  - apply IH. intros c' Hc'. apply Hok. by right.
Qed.

Lemma all_idx_perm cs cs' : cs ≡ₚ cs' → all_idx cs ≡ₚ all_idx cs'.
Proof. unfold all_idx. intros Hp. by rewrite Hp. Qed.

Lemma repr_idx_nodup s cs c : repr s cs → c ∈ cs → NoDup (c_idx c).*1.
Proof.
  intros Hr Hc. pose proof (repr_uris_nodup s cs Hr) as Hnd. apply elem_of_Permutation in Hc as (cs' & Hp).
  rewrite (all_idx_perm _ _ Hp) in Hnd. cbn [all_idx fmap list_fmap concat] in Hnd. rewrite fmap_app in Hnd.
  by apply NoDup_app in Hnd as (? & _).
Qed.

(** A device that can be added to the devices [ds]: its uuid and the URIs of
    its parts are new and usable as keys, and the maps have room. *)
Record admissible (ds : list device) (d : device) (uuid : cstring) : Prop := {
  ad_uuid : d_uuid d = Some uuid;
  ad_new : Some uuid ∉ d_uuid <$> ds;
  ad_key : key_ok (zkey uuid);
  ad_uris : all_uris d;
  ad_nodup : NoDup (device_uris d);
  ad_fresh u : Some u ∈ device_uris d → Some u ∉ concat (device_uris <$> ds) ∧ key_ok (zkey u);
  ad_clone : cloneable d;
  ad_room : zlen ds < 65535;
  ad_room_uris : zlen (device_uris d) + zlen (concat (device_uris <$> ds)) ≤ 65535
}.

Lemma repr_uuids s cs : repr s cs → d_uuid <$> (c_dev <$> cs) = Some <$> (c_uuid <$> cs).
Proof.
  intros Hr. rewrite <-!list_fmap_compose. apply list_fmap_ext. intros i c Hc%list_elem_of_lookup_2.
  apply (rp_ok _ _ Hr c Hc).
Qed.

Lemma frame_ent (h h' : mem) c : cached_ok h c → m_ent h' !! c_entry c = m_ent h !! c_entry c →
  m_dev h' = m_dev h → m_ep h' = m_ep h → m_res h' = m_res h → m_met h' = m_met h → cached_ok h' c.
Proof.
  intros [K1 K2 K3 K4 K5 K6 K7] E1 E2 E3 E4 E5. destruct (dev_frame h h' (c_entry c) (c_addr c) (c_idx c) (c_dev c)) as [I R].
  - by apply same_memory.
  - by rewrite E2.
  - done.
  - done.
  - split; try done. by rewrite E1.
Qed.

Lemma load_into_cache s cs a d uuid : repr s cs → read_device (heap s) a = Ok d → admissible (c_dev <$> cs) d uuid →
  ∃ s' c cs', loadDeviceIntoCache a s = Ok (true, s') ∧ repr s' cs' ∧ cs' ≡ₚ c :: cs ∧
    c_uuid c = uuid ∧ c_addr c = a ∧ c_dev c = d ∧ c_dirty c = false ∧
    store s' = store s ∧ systemProperties s' = systemProperties s.
Proof.
  intros Hr Hread [A1 A2 A3 A4 A5 A6 A7 A8 A9]. unfold loadDeviceIntoCache.
  assert (∃ x, m_dev (heap s) !! a = Some x ∧ d_uuid x = Some uuid) as (x & Hx & Hxu).
  { unfold read_device in Hread. apply bind_Ok in Hread as (x & Hx%of_option_Ok & Hm).
    apply map_device_Ok in Hm as (_ & _ & _ & Hu & _). exists x. split; [done|]. congruence. }
  rewrite Hx. oread. rewrite Hxu. unfold createCacheEntry.
  set (ce := m_brk (heap s)). set (h1 := set_brk _ _). destruct (rp_below _ _ Hr) as [B1 B2 B3 B4 B5].
  assert (Hold : ∀ c, c ∈ cs → cached_ok h1 c).
  { intros c Hc. pose proof (rp_ok _ _ Hr c Hc) as Hok. apply (frame_ent (heap s)); try done.
    simpl. apply lookup_insert_ne. pose proof (B1 _ _ (ck_entry _ _ Hok)). unfold ce. lia. }
  assert (Hbl : below h1).
  { split; simpl; [|intros b y Hy..].
    - intros b y [[<- _]|[_ Hy]]%lookup_insert_Some; [lia|]. specialize (B1 _ _ Hy). lia.
    - specialize (B2 _ _ Hy). lia. - specialize (B3 _ _ Hy). lia. - specialize (B4 _ _ Hy). lia. - specialize (B5 _ _ Hy). lia. }
  assert (Hread1 : read_device h1 a = Ok d) by exact Hread.
  destruct (dev_index_read h1 ce a d Hread1 A4) as (idx & Hidx & Hiu).
  set (c := mkCached uuid ce a false d idx).
  assert (Hent : m_ent h1 !! ce = Some (mkEntry a false)) by (simpl; apply lookup_insert_eq).
  assert (Hk : keys_ok idx).
  { intros u l Hin. apply A6. rewrite <-Hiu. apply list_elem_of_fmap_2, list_elem_of_fmap. by exists (u, l). }
  assert (Hc : cached_ok h1 c) by (by split).
  destruct (rp_dev _ _ Hr) as (m & Hm & Hkm). cbn [devices with_heap]. rewrite Hm. unfold map_put.
  destruct (km_put_new m (key_of <$> cs) (zkey uuid) ce Hkm A3) as (m' & es' & -> & Hkm' & Hp).
  { intros Hin. apply A2. rewrite (repr_uuids s cs Hr). apply list_elem_of_fmap_2.
    rewrite <-list_fmap_compose in Hin. apply list_elem_of_fmap in Hin as (c' & Heq & Hc'). apply zkey_inj in Heq as ->.
    by apply list_elem_of_fmap_2. }
  { rewrite length_fmap in A8. by rewrite length_fmap. }
  obind. change ((zkey uuid, ce) :: (key_of <$> cs)) with (key_of <$> c :: cs) in Hp.
  apply Permutation_map_inv in Hp as (cs' & -> & Hcs').
  destruct (rp_uri _ _ Hr) as (mu & us & Hmu & Hku & Hpu). set (s1 := with_devices _ _).
  assert (Hi1 : indexed s1 (all_idx cs)) by (by exists mu, us).
  destruct (inserts_device h1 ce _ idx Hent Hidx s1 (all_idx cs) eq_refl Hi1 Hk) as (x1 & -> & Hi2).
  { apply (NoDup_fmap_1 Some). rewrite fmap_app, fmap_app, Hiu, (repr_uris s cs Hr). apply NoDup_app. split; [done|]. split.
    - intros u Hu. assert (∃ v, u = Some v) as [v ->]; [|by apply A6].
      unfold all_uris in A4. rewrite Forall_forall in A4. by destruct (A4 u Hu) as [v ->]; eauto.
    - rewrite <-(repr_uris s cs Hr). apply NoDup_fmap_2; [apply _|]. by eapply repr_uris_nodup. }
  { rewrite length_app. rewrite <-Hiu, <-(repr_uris s cs Hr), !length_fmap in A9. lia. }
  obind. exists (with_uris s1 x1), c, cs'. split; [done|]. split; [|done]. split.
  - by exists m'.
  - destruct Hi2 as (m2 & us2 & E2 & K2 & P2). exists m2, us2. split; [done|]. split; [done|]. rewrite P2.
    by rewrite <-(all_idx_perm _ _ Hcs').
  - intros c' Hc'. rewrite <-Hcs' in Hc'. apply elem_of_cons in Hc' as [->|Hc']; [done|by apply Hold].
  - done.
Qed.


Lemma repr_addr_inj s cs c c' : repr s cs → c ∈ cs → c' ∈ cs → c_addr c = c_addr c' → c = c'.
Proof.
  intros Hr Hc Hc' Ha. pose proof (rp_ok _ _ Hr c Hc) as K1. pose proof (rp_ok _ _ Hr c' Hc') as K2.
  pose proof (ck_index _ _ K1) as I1. pose proof (ck_index _ _ K2) as I2. rewrite Ha in I1.
  apply dev_index_Ok in I1 as (d & uri & es & rs & ms & Hd & Hu & Hidx & _).
  apply dev_index_Ok in I2 as (d' & uri' & es' & rs' & ms' & Hd' & Hu' & Hidx' & _).
  assert (uri' = uri) as -> by congruence.
  destruct (cached_unique s cs c c' uri (LocDevice (c_entry c)) (LocDevice (c_entry c')) Hr) as [-> _]; try done.
  - rewrite Hidx. by left.
  - rewrite Hidx'. by left.
Qed.

(** The entry and the device of [c] are gone, the other devices are not touched. *)
Lemma destroy_cached s cs c cs' (x : option DM) : repr s cs → c ∈ cs → cs ≡ₚ c :: cs' →
  ∃ s', destroyCacheEntry (c_entry c) (with_devices s x) = Ok s' ∧ devices s' = x ∧
    (∀ m, km_model m (key_of <$> cs') → repr (with_devices s' (Some m)) cs') ∧
    store s' = store s ∧ systemProperties s' = systemProperties s.
Proof.
  intros Hr Hc Hp. unfold destroyCacheEntry. set (s1 := with_devices s x).
  assert (He : entry_of s1 (c_entry c) = Ok (mkEntry (c_addr c) (c_dirty c))) by (by apply (repr_entry s cs)).
  rewrite He. obind. cbn [ce_device]. pose proof (rp_ok _ _ Hr c Hc) as Hok. pose proof (ck_index _ _ Hok) as Hidx.
  pose proof (all_idx_perm _ _ Hp) as Hap. cbn [all_idx fmap list_fmap concat] in Hap. fold (all_idx cs') in Hap.
  destruct (rp_uri _ _ Hr) as (mu & us & Hmu & Hku & Hpu).
  assert (Hi1 : indexed s1 (c_idx c ++ all_idx cs')) by (exists mu, us; by rewrite <-Hap).
  destruct (deletes_device (heap s) (c_entry c) (c_addr c) (c_idx c) Hidx s1 (all_idx cs') eq_refl Hi1)
    as (x' & -> & Hi2); [intros u l; apply (ck_uris _ _ Hok)|].
  obind. cbn [heap with_uris with_devices s1].
  assert (Hnd : NoDup (c_idx c ++ all_idx cs').*1).
  { pose proof (repr_uris_nodup s cs Hr) as Hnd. by rewrite Hap in Hnd. }
  destruct (device_released (heap s) (c_entry c) (c_addr c) (c_idx c) Hidx) as (h' & h1 & -> & -> & Hrel).
  { rewrite fmap_app in Hnd. by apply NoDup_app in Hnd as (? & _). }
  obind. eexists. split; [done|]. split; [done|]. split; [|done]. intros m Hm.
  assert (Hsub : ∀ c', c' ∈ cs' → c' ∈ cs ∧ c' ≠ c).
  { intros c' Hc'. split; [rewrite Hp; by right|]. intros ->. pose proof (repr_uuids_nodup s cs Hr) as Hn.
    rewrite Hp in Hn. cbn [fmap list_fmap] in Hn. apply NoDup_cons in Hn as [Hn _]. apply Hn. by apply list_elem_of_fmap_2. }
  pose proof (released_below _ _ _ Hrel (rp_below _ _ Hr)) as Hbl.
  split.
  - by exists m.
  - exact Hi2.
  - intros c' Hc'. destruct (Hsub c' Hc') as [Hin Hne]. pose proof (rp_ok _ _ Hr c' Hin) as [K1 K2 K3 K4 K5 K6 K7].
    assert (Hent : c_entry c ≠ c_entry c') by (intros E; by apply Hne; symmetry; apply (repr_entries_inj s cs)).
    assert (Haddr : c_addr c ≠ c_addr c') by (intros E; by apply Hne; symmetry; apply (repr_addr_inj s cs)).
    destruct (dev_frame (heap s) (set_ent (set_dev h1 (delete (c_addr c) (m_dev h1))) (delete (c_entry c) (m_ent h1)))
      (c_entry c') (c_addr c') (c_idx c') (c_dev c')) as [I R]; [| |done|done|].
    + apply (released_parts (heap s) h1 (c_idx c)); [done| | |].
      * intros u l Hul. exists (c_entry c). by eapply repr_points.
      * intros u l Hul. exists (c_entry c'). by eapply repr_points.
      * rewrite fmap_app in Hnd |- *. apply NoDup_app in Hnd as (N1 & N2 & N3). apply NoDup_app. split; [done|]. split.
        -- intros u Hu Hu'. apply (N2 u Hu). apply list_elem_of_fmap in Hu' as (y & -> & Hy). apply list_elem_of_fmap_2.
           apply all_idx_elem. eauto.
        -- apply (repr_idx_nodup s cs c' Hr Hin).
    + simpl. rewrite lookup_delete_ne by done. by rewrite (rl_dev _ _ _ Hrel).
    + split; try done. simpl. rewrite lookup_delete_ne by done. by rewrite (rl_ent _ _ _ Hrel).
  - destruct Hbl as [B1 B2 B3 B4 B5]. split; simpl; try done.
    + intros a y [_ Hy]%lookup_delete_Some. by eapply B1.
    + intros a y [_ Hy]%lookup_delete_Some. by eapply B2.
Qed.

Lemma remove_cached s cs c : repr s cs → c ∈ cs →
  ∃ s' cs', delete_device (c_uuid c) s = Ok s' ∧ repr s' cs' ∧ cs ≡ₚ c :: cs' ∧
    store s' = store s ∧ systemProperties s' = systemProperties s.
Proof.
  intros Hr Hc. unfold delete_device, map_delete. destruct (rp_dev _ _ Hr) as (m & Hm & Hk). rewrite Hm.
  pose proof (ck_key _ _ (rp_ok _ _ Hr c Hc)) as Hkey.
  destruct (km_delete_present m _ (zkey (c_uuid c)) (c_entry c) Hk Hkey) as (m' & es' & -> & Hk' & Hp).
  { change (zkey (c_uuid c), c_entry c) with (key_of c). by apply list_elem_of_fmap_2. }
  obind. apply Permutation_sym, Permutation_map_inv in Hp as (cs0 & Heq & Hp0).
  destruct cs0 as [|c0 cs']; [done|]. cbn [fmap list_fmap] in Heq. injection Heq as Hz He ->.
  assert (c0 = c) as ->.
  { apply (repr_entries_inj s cs); [done| |done|done]. rewrite Hp0. by left. }
  destruct (destroy_cached s cs c cs' (Some m') Hr Hc Hp0) as (s' & -> & Hd' & Hr' & Hst & Hpr).
  specialize (Hr' m' Hk'). exists s', cs'. destruct s'. cbn [devices] in Hd'. by subst.
Qed.

(** ** The operations on whole devices *)

Lemma repr_extends s cs h' : repr s cs → extends (heap s) h' → below h' → repr (with_heap s h') cs.
Proof.
  intros Hr He Hb. pose proof (rp_below _ _ Hr) as Hbl. split; [apply Hr|apply Hr| |done].
  intros c Hc. pose proof (rp_ok _ _ Hr c Hc) as [K1 K2 K3 K4 K5 K6 K7].
  destruct (dev_frame (heap s) h' (c_entry c) (c_addr c) (c_idx c) (c_dev c)) as [I R]; [| |done|done|].
  - intros u l _. destruct l as [|ce b|ce ep b|ce ep b]; [done|..]; intros x Hx.
    + rewrite (ex_ep _ _ He), Hx by (by eapply bl_ep). f_equal. symmetry. by apply edit_fields_id.
    + by rewrite (ex_res _ _ He), Hx by (by eapply bl_res).
    + by rewrite (ex_met _ _ He), Hx by (by eapply bl_met).
  - apply dev_index_Ok in K2 as (d & _ & _ & _ & _ & Hd & _). apply (ex_dev _ _ He). by eapply bl_dev.
  - split; try done. cbn [heap with_heap]. rewrite (ex_ent _ _ He); [done|]. by eapply bl_ent.
Qed.

Lemma filed_perm exc s s' cs cs' m : cs ≡ₚ cs' → store s' = store s → filed exc s cs m → filed exc s' cs' m.
Proof.
  intros Hp Hst [F1 F2 F3 F4 F5]. split.
  - by rewrite Hst.
  - intros c. rewrite <-Hp. apply F2.
  - intros c. rewrite <-Hp. apply F3.
  - intros c. rewrite <-Hp. apply F4.
  - intros k. rewrite <-Hp. apply F5.
Qed.

(** A device is added, with its file, or nothing changes. *)
Lemma add_device_spec s cs d uuid : db_ok s cs → admissible (c_dev <$> cs) d uuid → good_key uuid →
  uuid ≠ SYSTEM_PROPERTIES_KEY →
  ∃ ok s' cs', jsonDatabaseAddDevice (json := json) (SM := SM) (Some d) s = Ok (ok, s') ∧ db_ok s' cs' ∧
    (if ok : bool then ∃ c, cs' ≡ₚ c :: cs ∧ c_uuid c = uuid ∧ c_dev c = d ∧ c_dirty c = false else cs' ≡ₚ cs) ∧
    systemProperties s' = systemProperties s ∧ works s ok s'.
Proof.
  intros [Hr (m & Hf)] Had Hg Hne. unfold jsonDatabaseAddDevice. rewrite (ad_uuid _ _ _ Had).
  rewrite (deviceClone_eq d (ad_clone _ _ _ Had)). obind. oread.
  destruct (alloc_device_spec d (heap s) (rp_below _ _ Hr)) as (a & h & -> & Hx & Hb & Hread & _).
  pose proof (repr_extends s cs h Hr Hx Hb) as Hr0.
  destruct (load_into_cache (with_heap s h) cs a d uuid Hr0 Hread Had)
    as (s1 & c & cs1 & -> & Hr1 & Hp1 & Hu & Ha & Hd & Hdirty & Hst & Hpr).
  obind. assert (Hc1 : c ∈ cs1) by (rewrite Hp1; by left).
  pose proof (saveDevice_spec s1 cs1 c Hr1 Hc1) as Hsave. rewrite Ha, Hu, Hd in Hsave. rewrite Hsave. obind. clear Hsave.
  destruct (device_text_some d) as (t & Ht & Htne). rewrite Ht, Hst. cbn [store with_heap].
  pose proof (save_law (store s) m uuid t (so_model _ _ _ _ Hf) Hg Htne) as Hsv.
  pose proof (λ Hh, healthy_save (store s) m uuid t (so_model _ _ _ _ Hf) Hh Hg Htne) as Hw. unfold works.
  assert (Hnew : ∀ x, x ∈ cs → c_uuid x ≠ uuid).
  { intros x Hx' E. apply (ad_new _ _ _ Had). rewrite (repr_uuids s cs Hr), <-E. by apply list_elem_of_fmap_2, list_elem_of_fmap_2. }
  destruct (st_save (store s) (Some uuid) (Some t)) as [[] st]; cbn [fst snd] in *.
  - exists true, (with_store s1 st), cs1. split; [done|]. split; [|split; [by exists c|done]]. split; [by apply repr_store|].
    exists (<[uuid := t]> m). destruct Hf as [F1 F2 F3 F4 F5].
    apply (filed_perm None (with_store s1 st) _ (c :: cs)); [by rewrite Hp1|done|]. split.
    + done.
    + intros x [->|Hx']%elem_of_cons; [by rewrite Hu|by apply F2].
    + intros x [->|Hx']%elem_of_cons _ Hxd; [by rewrite Hu, Hd, lookup_insert_eq|].
      rewrite lookup_insert_ne by (symmetry; by apply Hnew). by apply F3.
    + intros x [->|Hx']%elem_of_cons; apply lookup_insert_is_Some; [by left|]. right.
      split; [symmetry; by apply Hnew|by apply F4].
    + intros k [<-|[_ Hk]]%lookup_insert_is_Some; [right; rewrite <-Hu; by left|].
      destruct (F5 k Hk) as [->|Hk']; [by left|right; by right].
  - destruct (remove_cached (with_store s1 st) cs1 c) as (s2 & cs2 & Hdel & Hr2 & Hp2 & Hst2 & Hpr2); [by apply repr_store|done|].
    rewrite Hu in Hdel. rewrite Hdel. obind. exists false, s2, cs2. split; [done|].
    assert (Hp : cs2 ≡ₚ cs) by (apply (Permutation_cons_inv (a := c)); by rewrite <-Hp2, Hp1).
    split; [|split; [done|split; [by rewrite Hpr2|by intros [? _]%Hw]]]. split; [done|]. exists m.
    apply (filed_perm None (with_store s st) _ cs); [done|by rewrite Hst2|]. destruct Hf as [F1 F2 F3 F4 F5]. by split.
Qed.

(** A device is removed with its file, or nothing changes. *)
Lemma remove_device_spec s cs c : db_ok s cs → c ∈ cs →
  ∃ ok s' cs', jsonDatabaseRemoveDeviceById (Some (c_uuid c)) s = Ok (ok, s') ∧ db_ok s' cs' ∧
    (if ok : bool then cs ≡ₚ c :: cs' else cs' = cs) ∧ systemProperties s' = systemProperties s ∧ works s ok s'.
Proof.
  intros [Hr (m & Hf)] Hc. unfold jsonDatabaseRemoveDeviceById. rewrite (get_device_in s cs c Hr Hc). obind.
  destruct (so_keys _ _ _ _ Hf c Hc) as [Hg Hsys].
  pose proof (delete_law (store s) m (c_uuid c) (so_model _ _ _ _ Hf) Hg (so_file _ _ _ _ Hf c Hc)) as Hdl.
  pose proof (λ Hh, healthy_delete (store s) m (c_uuid c) (so_model _ _ _ _ Hf) Hh Hg (so_file _ _ _ _ Hf c Hc)) as Hw. unfold works.
  destruct Hf as [F1 F2 F3 F4 F5].
  destruct (st_delete (store s) (Some (c_uuid c))) as [[] st]; cbn [fst snd] in Hdl, Hw.
  - destruct (remove_cached (with_store s st) cs c) as (s2 & cs2 & -> & Hr2 & Hp2 & Hst2 & Hpr2); [by apply repr_store|done|].
    obind. exists true, s2, cs2. split; [done|]. split; [|by rewrite Hst2]. split; [done|]. exists (delete (c_uuid c) m).
    assert (Hne : ∀ x, x ∈ cs2 → x ∈ cs ∧ c_uuid c ≠ c_uuid x).
    { intros x Hx. split; [rewrite Hp2; by right|]. intros E. pose proof (repr_uuids_nodup s cs Hr) as Hn.
      rewrite Hp2 in Hn. cbn [fmap list_fmap] in Hn. apply NoDup_cons in Hn as [Hn _]. apply Hn. rewrite E.
      by apply list_elem_of_fmap_2. }
    split.
    + by rewrite Hst2.
    + intros x Hx. by apply F2, Hne.
    + intros x Hx Hexc Hd. destruct (Hne x Hx). rewrite lookup_delete_ne by done. by apply F3.
    + intros x Hx. destruct (Hne x Hx). rewrite lookup_delete_ne by done. by apply F4.
    + intros k Hk. apply lookup_delete_is_Some in Hk as [Hk1 Hk2]. destruct (F5 k Hk2) as [->|Hk']; [by left|right].
      rewrite Hp2 in Hk'. cbn [fmap list_fmap] in Hk'. by apply elem_of_cons in Hk' as [->|].
  - exists false, (with_store s st), cs. split; [done|]. split; [|split; [done|split; [done|by intros [? _]%Hw]]]. split; [by apply repr_store|].
    exists m. by split.
Qed.

Lemma remove_unknown s cs uuid : repr s cs → key_ok (zkey uuid) → uuid ∉ c_uuid <$> cs →
  jsonDatabaseRemoveDeviceById (Some uuid) s = Ok (false, s).
Proof.
  intros Hr Hk Hn. unfold jsonDatabaseRemoveDeviceById.
  destruct (get_device s cs uuid Hr Hk) as [(c & Hc & <- & _)|[_ ->]]; [|done].
  destruct Hn. by apply list_elem_of_fmap_2.
Qed.

End Devices.
End JsonDatabaseDevices.
