(* ===== verification/JsonDatabaseMetadata.v ===== *)
(** * New metadata of a device of the database

    jsonDatabaseSaveMetadata of a metadata whose URI the index does not have:
    a copy is appended to the device, or to its endpoint with the metadata's
    endpoint id, indexed, and the device is written.  Module JsonDatabaseGrow:
    a device that gets a new endpoint, or a new metadata, keeps its cache
    entry; its index grows by the URIs of the new part. *)

From S2P Require Import Prelude KeyMap Json DeviceModel DeviceJson DeviceJsonSpec Storage JsonDatabase.
From S2P Require Import JsonDatabaseSpec JsonDatabaseOps JsonDatabaseMemory JsonDatabaseDevices.
Import KeyMap Json DeviceModel DeviceJson DeviceJsonSpec Storage JsonDatabase JsonDatabaseSpec JsonDatabaseOps
  JsonDatabaseMemory JsonDatabaseDevices.

Module JsonDatabaseGrow.

Section Grow.
Context {json : Type} `{JsonLaws json} `{ProtectLaws} `{Regex}.
Context {SM : Type} `{KeyMapLaws SM cstring}.
Context {DM : Type} `{KeyMapLaws DM addr}.
Context {UM : Type} `{KeyMapLaws UM Locator}.
Context {PM : Type} `{KeyMapLaws PM (option cstring)}.
Context {ST : Type} `{StoreLaws ST}.
Abbreviation state := (db DM UM PM ST).
Implicit Types (s : state) (c : cached) (cs : list cached).

(** ** One cached device replaced *)

Definition swap c c2 (x : cached) : cached := if decide (c_entry x = c_entry c) then c2 else x.

Lemma swap_split s cs c c2 : repr s cs → c ∈ cs → ∃ cs', cs ≡ₚ c :: cs' ∧ swap c c2 <$> cs ≡ₚ c2 :: cs'.
Proof.
  intros Hr Hc. pose proof Hc as Hc'. apply elem_of_Permutation in Hc' as (cs' & Hp). exists cs'. split; [done|].
  rewrite Hp. cbn [fmap list_fmap]. unfold swap at 1. rewrite decide_True by done. apply perm_skip.
  rewrite (list_fmap_ext (swap c c2) id cs'); [by rewrite list_fmap_id|]. intros i x Hx%list_elem_of_lookup_2.
  unfold swap. rewrite decide_False; [done|]. intros E. assert (x = c) as ->.
  { apply (repr_entries_inj s cs); [done|rewrite Hp; by right|done..]. }
  pose proof (repr_uuids_nodup s cs Hr) as Hn. rewrite Hp in Hn. cbn [fmap list_fmap] in Hn.
  apply NoDup_cons in Hn as [Hn _]. apply Hn. by apply list_elem_of_fmap_2.
Qed.

Lemma swap_idx s cs c c2 extra : repr s cs → c ∈ cs → c_idx c2 ≡ₚ extra ++ c_idx c →
  all_idx (swap c c2 <$> cs) ≡ₚ extra ++ all_idx cs.
Proof.
  intros Hr Hc Hp. destruct (swap_split s cs c c2 Hr Hc) as (cs' & P1 & P2).
  rewrite (all_idx_perm _ _ P2), (all_idx_perm _ _ P1). unfold all_idx. cbn [fmap list_fmap concat].
  by rewrite Hp, <-app_assoc.
Qed.

Lemma repr_swap s cs c c2 s' : repr s cs → c ∈ cs → c_entry c2 = c_entry c → c_uuid c2 = c_uuid c →
  devices s' = devices s → indexed s' (all_idx (swap c c2 <$> cs)) → below (heap s') → cached_ok (heap s') c2 →
  (∀ x, x ∈ cs → x ≠ c → cached_ok (heap s') x) → repr s' (swap c c2 <$> cs).
Proof.
  intros Hr Hc He Hu Hd Hi Hb Hc2 Hx. split; [|done| |done].
  - rewrite Hd. destruct (rp_dev _ _ Hr) as (m & Hm & Hk). exists m. split; [done|].
    rewrite <-list_fmap_compose, (list_fmap_ext (key_of ∘ swap c c2) key_of cs); [done|].
    intros i x Hx'%list_elem_of_lookup_2. unfold compose, swap. case_decide as E; [|done]. unfold key_of.
    rewrite Hu, He. by rewrite (repr_entries_inj s cs x c Hr Hx' Hc E).
  - intros x (y & -> & Hy)%list_elem_of_fmap. unfold swap. case_decide as E; [done|]. apply Hx; [done|]. by intros ->.
Qed.

(** ** A new endpoint *)

Definition add_endpoint_to (d : device) (e : endpoint) : device :=
  mkDevice (d_uuid d) (d_deviceClass d) (d_deviceClassVersion d) (d_uri d) (d_managingDeviceDriver d)
    ((λ l, l ++ [e]) <$> d_endpoints d) (d_resources d) (d_metadata d).

(** An endpoint that can be added to a device: the URIs of its parts are new
    and usable as keys, and the index has room. *)
Record endpoint_fits (ds : list device) (e : endpoint) : Prop := {
  fe_id : is_Some (e_id e);
  fe_lists : is_Some (e_resources e) ∧ is_Some (e_metadata e);
  fe_uris : Forall is_Some (ep_uris e);
  fe_nodup : NoDup (ep_uris e);
  fe_fresh u : Some u ∈ ep_uris e → Some u ∉ concat (device_uris <$> ds) ∧ key_ok (zkey u);
  fe_room : zlen (ep_uris e) + zlen (concat (device_uris <$> ds)) ≤ 65535
}.

Lemma grown_index h ce a d idx x ei : m_dev h !! a = Some d → dev_index h ce a = Ok idx → is_Some (d_endpoints d) →
  ep_index h ce x = Ok ei → ∀ h', m_ep h' = m_ep h → m_res h' = m_res h → m_met h' = m_met h →
  m_dev h' !! a = Some (mkDevice (d_uuid d) (d_deviceClass d) (d_deviceClassVersion d) (d_uri d)
    (d_managingDeviceDriver d) (append_to (d_endpoints d) x) (d_resources d) (d_metadata d)) →
  ∃ idx', dev_index h' ce a = Ok idx' ∧ idx' ≡ₚ ei ++ idx.
Proof.
  intros Hd (d' & uri & es & rs & ms & Hd' & Hu & -> & He & Hr & Hm)%dev_index_Ok [l Hl] Hx h' E1 E2 E3 E4.
  assert (d' = d) as -> by congruence. assert (Hs : ∀ i, same_parts h h' i) by (intros i; by apply same_memory).
  exists ((uri, LocDevice ce) :: concat (es ++ [ei]) ++ rs ++ ms). split.
  - apply dev_index_Ok. eexists _, uri, (es ++ [ei]), rs, ms. split; [exact E4|]. cbn [d_uri d_endpoints d_resources d_metadata].
    split; [done|]. split; [done|]. rewrite Hl in *. cbn [append_to fmap option_fmap option_map elems default from_option id] in *.
    split; [|split].
    + apply Forall2_app; [|constructor; [|done]].
      * eapply Forall2_impl; [exact He|]. intros y i. apply (ep_edited no_edit h); [apply keeps_no_edit|apply Hs].
      * apply (ep_edited no_edit h); [apply keeps_no_edit|apply Hs|done].
    + by apply (res_edited no_edit h); [apply keeps_no_edit|apply Hs|].
    + by apply (met_edited no_edit h); [apply keeps_no_edit|apply Hs|].
  - rewrite concat_app. cbn [concat]. rewrite app_nil_r.
    rewrite <-(Permutation_middle ei). apply perm_skip. by rewrite !app_assoc, (Permutation_app_comm (concat es) ei).
Qed.

Lemma grown_read h a d v x e : m_dev h !! a = Some d → read_device h a = Ok v → is_Some (d_endpoints d) →
  read_endpoint h x = Ok e → ∀ h', m_ep h' = m_ep h → m_res h' = m_res h → m_met h' = m_met h →
  m_dev h' !! a = Some (mkDevice (d_uuid d) (d_deviceClass d) (d_deviceClassVersion d) (d_uri d)
    (d_managingDeviceDriver d) (append_to (d_endpoints d) x) (d_resources d) (d_metadata d)) →
  read_device h' a = Ok (add_endpoint_to v e).
Proof.
  intros Hd Hv [l Hl] Hx h' E1 E2 E3 E4. unfold read_device in *. rewrite Hd in Hv. rewrite E4. simpl in Hv |- *.
  assert (R1 : read_resource h' = read_resource h) by (unfold read_resource; by rewrite E2).
  assert (R2 : read_metadata h' = read_metadata h) by (unfold read_metadata; by rewrite E3).
  assert (R3 : read_endpoint h' = read_endpoint h) by (unfold read_endpoint; by rewrite E1, R1, R2).
  rewrite R1, R2, R3. apply map_device_Ok in Hv as (M1 & M2 & M3 & Hrest). apply map_device_Ok. simpl.
  split; [|done]. rewrite Hl in *. apply mapL_Ok in M1 as [F1 S1]. apply mapL_Ok.
  destruct (d_endpoints v) as [es|]; [|by destruct S1 as [_ [? ?]]; [eexists|]].
  cbn [append_to fmap option_fmap option_map elems default from_option id] in *. split.
  - apply Forall2_app; [done|by repeat constructor].
  - split; intros _; by eexists.
Qed.

Definition with_endpoint c (e : endpoint) (idx : list (cstring * Locator)) : cached :=
  mkCached (c_uuid c) (c_entry c) (c_addr c) (c_dirty c) (add_endpoint_to (c_dev c) e) idx.

Lemma cloneable_add d e : cloneable d → is_Some (e_resources e) ∧ is_Some (e_metadata e) → cloneable (add_endpoint_to d e).
Proof.
  intros Hd He x Hx. unfold add_endpoint_to in Hx. simpl in Hx. destruct (d_endpoints d) as [l|] eqn:E; simpl in Hx; [|by apply elem_of_nil in Hx].
  apply elem_of_app in Hx as [Hx| ->%list_elem_of_singleton]; [|done]. apply Hd. by rewrite E.
Qed.

(** The device in memory gets the endpoint at [x], not yet in the index. *)
Lemma append_cached s cs c e x idx ei : repr s cs → c ∈ cs → is_Some (d_endpoints (c_dev c)) →
  read_endpoint (heap s) x = Ok e → ep_index (heap s) (c_entry c) x = Ok ei →
  is_Some (e_resources e) ∧ is_Some (e_metadata e) → keys_ok ei →
  idx = c_idx c →
  ∃ h idx2, append_endpoint (c_addr c) x s = Ok (with_heap s h) ∧ idx2 ≡ₚ ei ++ idx ∧ below h ∧
    ep_index h (c_entry c) x = Ok ei ∧
    cached_ok h (with_endpoint c e idx2) ∧ (∀ y, y ∈ cs → y ≠ c → cached_ok h y).
Proof.
  intros Hr Hc Hes Hx Hei Hl Hk ->. pose proof (rp_ok _ _ Hr c Hc) as [K1 K2 K3 K4 K5 K6 K7].
  pose proof K2 as (d & _ & _ & _ & _ & Hd & _)%dev_index_Ok.
  assert (Hds : is_Some (d_endpoints d)).
  { unfold read_device in K3. rewrite Hd in K3. simpl in K3. apply map_device_Ok in K3 as (M1 & _).
    apply mapL_Ok in M1 as [_ [M1 _]]. by apply M1. }
  unfold append_endpoint. rewrite Hd. oread. set (d2 := mkDevice _ _ _ _ _ _ _ _). set (h := set_dev _ _).
  assert (Hh : m_dev h !! c_addr c = Some d2) by apply lookup_insert_eq.
  destruct (grown_index (heap s) (c_entry c) (c_addr c) d (c_idx c) x ei Hd K2 Hds Hei h) as (idx2 & I2 & P2); try done.
  exists h, idx2. split; [done|]. split; [done|]. split.
  { destruct (rp_below _ _ Hr) as [B1 B2 B3 B4 B5]. split; simpl; try done.
    intros a y [[<- <-]|[_ Hy]]%lookup_insert_Some; eauto. }
  split; [exact Hei|]. split.
  - split; try done.
    + by apply (grown_read (heap s) (c_addr c) d (c_dev c) x e Hd K3 Hds Hx h).
    + by apply cloneable_add.
    + intros u l. cbn [c_idx with_endpoint]. rewrite P2. intros [?|?]%elem_of_app; [by eapply Hk|by eapply K7].
  - intros y Hy Hne. pose proof (rp_ok _ _ Hr y Hy) as [Y1 Y2 Y3 Y4 Y5 Y6 Y7].
    destruct (dev_frame (heap s) h (c_entry y) (c_addr y) (c_idx y) (c_dev y)) as [I R]; [|  |done|done|by split].
    + by apply same_memory.
    + simpl. apply lookup_insert_ne. intros E. apply Hne. symmetry. by apply (repr_addr_inj s cs).
Qed.

(** The endpoint is added and the device written; when writing fails the
    cache has the endpoint and the file does not. *)
Lemma add_endpoint_spec s cs c e : db_ok s cs → c ∈ cs → e_deviceUuid e = Some (c_uuid c) →
  endpoint_fits (c_dev <$> cs) e → is_Some (d_endpoints (c_dev c)) →
  ∃ ok s' c2, jsonDatabaseAddEndpoint (json := json) (SM := SM) (Some e) s = Ok (ok, s') ∧
    repr s' (swap c c2 <$> cs) ∧ c_dev c2 = add_endpoint_to (c_dev c) e ∧ c_uuid c2 = c_uuid c ∧ c_dirty c2 = c_dirty c ∧
    c_entry c2 = c_entry c ∧
    (ok = true → db_ok s' (swap c c2 <$> cs)) ∧ systemProperties s' = systemProperties s ∧ works s ok s'.
Proof.
  intros [Hr (m & Hf)] Hc Hu [[i Fid] Fl Fu Fn Ff Fr] Hes. unfold jsonDatabaseAddEndpoint. rewrite Hu, Fid.
  rewrite (endpointClone_eq e Fl). obind. oread.
  destruct (alloc_endpoint_spec e (heap s) (rp_below _ _ Hr)) as (x & h & -> & Hx & Hb & Hread & _).
  pose proof (repr_extends s cs h Hr Hx Hb) as Hr0. set (s0 := with_heap s h) in *.
  rewrite (get_device_in s0 cs c Hr0 Hc). obind. rewrite (repr_entry s0 cs c Hr0 Hc). obind. cbn [ce_device].
  destruct (ep_index_read h (c_entry c) x e Hread Fu) as (ei & Hei & Eu).
  assert (Hk : keys_ok ei).
  { intros u l Hin. apply Ff. rewrite <-Eu. apply list_elem_of_fmap_2, list_elem_of_fmap. by exists (u, l). }
  destruct (append_cached s0 cs c e x _ ei Hr0 Hc Hes Hread Hei Fl Hk eq_refl) as (h1 & idx2 & -> & P2 & B1 & Hei1 & Hok2 & Hoth).
  obind. set (c2 := with_endpoint c e idx2) in *. destruct (rp_uri _ _ Hr0) as (mu & us & Hmu & Hku & Hpu).
  assert (Hi1 : indexed (with_heap s0 h1) (all_idx cs)) by (by exists mu, us).
  destruct (inserts_endpoint h1 (c_entry c) x ei Hei1 (with_heap s0 h1) (all_idx cs) eq_refl Hi1 Hk) as (y & -> & Hi2).
  { apply (NoDup_fmap_1 Some). rewrite fmap_app, fmap_app, Eu, (repr_uris s0 cs Hr0). apply NoDup_app. split; [done|]. split.
    - intros u Hin. assert (∃ v, u = Some v) as [v ->]; [|by apply Ff].
      rewrite Forall_forall in Fu. by destruct (Fu u Hin) as [v ->]; eauto.
    - rewrite <-(repr_uris s0 cs Hr0). apply NoDup_fmap_2; [apply _|]. by eapply repr_uris_nodup. }
  { rewrite length_app. rewrite <-Eu, <-(repr_uris s0 cs Hr0), !length_fmap in Fr. lia. }
  obind. set (s2 := with_uris (with_heap s0 h1) y) in *.
  assert (Hr2 : repr s2 (swap c c2 <$> cs)).
  { apply (repr_swap s0 cs c); try done. eapply indexed_perm; [|exact Hi2]. symmetry. by apply (swap_idx s0). }
  assert (Hc2 : c2 ∈ swap c c2 <$> cs).
  { apply list_elem_of_fmap. exists c. split; [|done]. unfold swap. by rewrite decide_True. }
  change (c_addr c) with (c_addr c2). rewrite (saveDevice_spec s2 _ c2 Hr2 Hc2). obind.
  eexists _, _, c2. split; [done|]. split; [by apply repr_store|]. repeat (split; [done|]).
  split; [|split; [done|]]; cycle 1.
  { intros Hh. destruct (device_text_some (json := json) (SM := SM) (c_dev c2)) as (t & -> & Htne).
    apply (healthy_save (store s2) m (c_uuid c2) t (so_model _ _ _ _ Hf) Hh); [|done]. by apply (so_keys _ _ _ _ Hf c Hc). }
  intros Hsv. split; [by apply repr_store|]. destruct Hf as [F1 F2 F3 F4 F5]. cbn [c2 with_endpoint c_uuid c_dev] in *.
  destruct (F2 c Hc) as [Hg Hne]. destruct (device_text_some (json := json) (SM := SM) (add_endpoint_to (c_dev c) e)) as (t & Ht & Htne).
  rewrite Ht in *. pose proof (save_law (store s2) m (c_uuid c) t F1 Hg Htne) as Hs. rewrite Hsv in Hs.
  exists (<[c_uuid c := t]> m). assert (Hmem : ∀ z, z ∈ swap c c2 <$> cs → z = c2 ∨ z ∈ cs ∧ z ≠ c ∧ c_uuid z ≠ c_uuid c).
  { intros z (w & -> & Hw)%list_elem_of_fmap. unfold swap. case_decide as E; [by left|right]. split; [done|].
    split; [by intros ->|]. intros Eu'. apply E. by rewrite (repr_uuid_inj s cs w c Hr Hw Hc Eu'). }
  split.
  - done.
  - intros z [->|(Hz & _)]%Hmem; [done|by apply F2].
  - intros z [->|(Hz & _ & Hzu)]%Hmem _ Hd; [by rewrite lookup_insert_eq|]. rewrite lookup_insert_ne by done. by apply F3.
  - intros z [->|(Hz & _ & Hzu)]%Hmem; apply lookup_insert_is_Some; [by left|right]. split; [done|by apply F4].
  - intros k Hk'. rewrite <-list_fmap_compose.
    assert (Hkk : k = SYSTEM_PROPERTIES_KEY ∨ k ∈ c_uuid <$> cs).
    { apply lookup_insert_is_Some in Hk' as [<-|[_ Hk']]; [right; by apply list_elem_of_fmap_2|by apply F5]. }
    destruct Hkk as [->|(w & -> & Hw)%list_elem_of_fmap]; [by left|right]. apply list_elem_of_fmap. exists w. split; [|done].
    unfold compose, swap. case_decide as E; [|done]. by rewrite (repr_entries_inj s cs w c Hr Hw Hc E).
Qed.

End Grow.
End JsonDatabaseGrow.

Import JsonDatabaseGrow.

Module JsonDatabaseMetadata.

(** ** The device with its new metadata *)

(** The first item that [p] accepts, changed by [f]. *)
Fixpoint on_first {A} (p : A → bool) (f : A → A) (l : list A) : list A :=
  match l with
  | [] => []
  | x :: l => if p x then f x :: l else x :: on_first p f l
  end.

Definition append_metadata (m : icDeviceMetadata) (e : endpoint) : endpoint :=
  mkEndpoint (e_id e) (e_uri e) (e_profile e) (e_profileVersion e) (e_deviceUuid e) (e_enabled e) (e_resources e)
    ((λ l, l ++ [m]) <$> e_metadata e).

Definition has_id (i : cstring) (e : endpoint) : bool := bool_decide (e_id e = Some i).

(** A metadata of an endpoint the device does not have is lost. *)
Definition add_metadata_to (m : icDeviceMetadata) (d : device) : device :=
  match m_endpointId m with
  | None => mkDevice (d_uuid d) (d_deviceClass d) (d_deviceClassVersion d) (d_uri d) (d_managingDeviceDriver d)
      (d_endpoints d) (d_resources d) ((λ l, l ++ [m]) <$> d_metadata d)
  | Some i => mkDevice (d_uuid d) (d_deviceClass d) (d_deviceClassVersion d) (d_uri d) (d_managingDeviceDriver d)
      (on_first (has_id i) (append_metadata m) <$> d_endpoints d) (d_resources d) (d_metadata d)
  end.

Definition file_metadata (m : icDeviceMetadata) (d : device) : device :=
  if decide (d_uuid d = m_deviceUuid m) then add_metadata_to m d else d.

(** What the code relies on: the uuid is a key, the lists and ids it reads are
    not NULL, the index has room. *)
Record metadata_fits (ds : list device) (m : icDeviceMetadata) : Prop := {
  fm_uuid : ∃ uuid, m_deviceUuid m = Some uuid ∧ key_ok (zkey uuid);
  fm_lists d : d ∈ ds → d_uuid d = m_deviceUuid m →
    match m_endpointId m with
    | None => is_Some (d_metadata d)
    | Some _ => Forall (λ e, is_Some (e_id e)) (elems (d_endpoints d))
    end;
  fm_room : zlen (concat (device_uris <$> ds)) < 65535
}.

Lemma on_first_app {A} (p : A → bool) f l1 x l2 : Forall (λ y, p y = false) l1 → p x = true →
  on_first p f (l1 ++ x :: l2) = l1 ++ f x :: l2.
Proof. intros Hl Hx. induction Hl as [|y l1 Hy Hl IH]; simpl; [by rewrite Hx|]. by rewrite Hy, IH. Qed.

Lemma on_first_none {A} (p : A → bool) f l : Forall (λ y, p y = false) l → on_first p f l = l.
Proof. induction 1 as [|y l Hy Hl IH]; simpl; [done|]. by rewrite Hy, IH. Qed.

Lemma on_first_elem {A} (p : A → bool) f l y : y ∈ on_first p f l → y ∈ l ∨ ∃ x, x ∈ l ∧ p x = true ∧ y = f x.
Proof.
  induction l as [|x l IH]; simpl; [auto|]. destruct (p x) eqn:E; rewrite !elem_of_cons.
  - intros [->|Hy]; [right; exists x|]; auto using list_elem_of_here.
  - intros [->|[Hy|(z & Hz & Hp & ->)]%IH]; auto. right. exists z. auto using list_elem_of_further.
Qed.

(** ** In memory *)

Section Memory.
Implicit Types (h : mem) (ce a : addr).

Lemma met_grown h ce ep l ms x m u : Forall2 (λ x y, met_index h ce ep x = Ok y) l ms → m_met h !! x = Some m →
  m_uri m = Some u → Forall2 (λ x y, met_index h ce ep x = Ok y) (l ++ [x]) (ms ++ [(u, LocMetadata ce ep x)]).
Proof. intros F Hx Hu. apply Forall2_app; [done|]. constructor; [|done]. apply met_index_Ok. eauto. Qed.

Lemma mapL_append {A} (f : addr → outcome A) l ys x y : mapL f l = Ok ys → f x = Ok y →
  mapL f (append_to l x) = Ok ((λ l, l ++ [y]) <$> ys).
Proof.
  intros [F S]%mapL_Ok Hx. apply mapL_Ok. destruct l as [l|], ys as [ys|]; simpl in *.
  - split; [apply Forall2_app; [done|by repeat constructor]|by split; intros; eexists].
  - destruct S as [_ [? ?]]; by eexists.
  - destruct S as [[? ?] _]; by eexists.
  - done.
Qed.

(** The endpoint at [a] with one more metadata, which is at [x]. *)
Definition grown_at h h' a x : Prop :=
  ∃ c, m_ep h !! a = Some c ∧ m_res h' = m_res h ∧ m_met h' = m_met h ∧
    m_ep h' = <[a := mkEndpoint (e_id c) (e_uri c) (e_profile c) (e_profileVersion c) (e_deviceUuid c) (e_enabled c)
                       (e_resources c) (append_to (e_metadata c) x)]> (m_ep h).

Lemma ep_grown h h' ce a x m u ei e : grown_at h h' a x → ep_index h ce a = Ok ei → read_endpoint h a = Ok e →
  is_Some (e_metadata e) → m_met h !! x = Some m → m_uri m = Some u →
  (∃ ei', ep_index h' ce a = Ok ei' ∧ ei' ≡ₚ (u, LocMetadata ce (Some a) x) :: ei) ∧ read_endpoint h' a = Ok (append_metadata m e).
Proof.
  intros (c & Hc & E1 & E2 & E3) (c' & uri & rs & ms & Hc' & Hu & -> & Hr & Hm)%ep_index_Ok Hread Hs Hx Hmu.
  assert (c' = c) as -> by congruence. unfold read_endpoint in Hread. rewrite Hc in Hread. simpl in Hread.
  apply map_endpoint_Ok in Hread as (M1 & M2 & M3). assert (Ha : m_ep h' !! a = Some _) by (rewrite E3; apply lookup_insert_eq).
  assert (Hl : ∃ l, e_metadata c = Some l) by (apply mapL_Ok in M2 as [_ M2]; by apply M2). destruct Hl as [l Hl]. split.
  - exists ((uri, LocEndpoint ce a) :: rs ++ ms ++ [(u, LocMetadata ce (Some a) x)]). split.
    + apply ep_index_Ok. eexists _, uri, rs, _. split; [exact Ha|]. cbn [e_uri e_resources e_metadata]. split; [done|]. split; [done|].
      unfold res_index, met_index, read_resource, read_metadata. rewrite E1, E2. split; [exact Hr|].
      rewrite Hl in *. by apply (met_grown h ce (Some a) l ms x m u).
    + rewrite Permutation_swap. apply perm_skip. by rewrite app_assoc, <-Permutation_cons_append.
  - unfold read_endpoint. rewrite Ha. simpl. apply map_endpoint_Ok. unfold read_resource, read_metadata. rewrite E1, E2. simpl.
    split; [exact M1|]. split; [|done]. apply mapL_append; [exact M2|]. by rewrite Hx.
Qed.

Lemma ep_kept h h' ce a x y : grown_at h h' a x → y ≠ a →
  ep_index h' ce y = ep_index h ce y ∧ read_endpoint h' y = read_endpoint h y.
Proof.
  intros (c & Hc & E1 & E2 & E3) Hne. assert (Hy : m_ep h' !! y = m_ep h !! y) by (by rewrite E3, lookup_insert_ne).
  unfold ep_index, res_index, met_index, read_endpoint, read_resource, read_metadata. by rewrite Hy, E1, E2.
Qed.

(** The endpoints of a device have distinct addresses. *)
Lemma ep_uri_in h ce a ei : ep_index h ce a = Ok ei → ∃ c uri, m_ep h !! a = Some c ∧ e_uri c = Some uri ∧ uri ∈ ei.*1.
Proof. intros (c & uri & rs & ms & Hc & Hu & -> & _)%ep_index_Ok. exists c, uri. split; [done|]. split; [done|by left]. Qed.

Lemma ep_addrs h ce l es : Forall2 (λ x y, ep_index h ce x = Ok y) l es → NoDup (concat es).*1 → NoDup l.
Proof.
  induction 1 as [|a ei l es Ha F IH]; [by constructor|]. cbn [concat]. rewrite fmap_app. intros (_ & Hd & Hn)%NoDup_app.
  constructor; [|by apply IH]. intros Hin. destruct (Forall2_elem_l _ _ _ _ F Hin) as (ei' & Hin' & Ha').
  assert (ei' = ei) as -> by congruence. destruct (ep_uri_in h ce a ei Ha) as (_ & uri & _ & _ & Hu). apply (Hd uri Hu).
  apply list_elem_of_fmap in Hu as (p & -> & Hp). apply list_elem_of_fmap_2, elem_of_concat. eauto.
Qed.

(** The list of endpoints with the one at [a] grown. *)
Lemma endpoints_grown h h' ce l1 a l2 es vs e x m u : grown_at h h' a x →
  Forall2 (λ x y, ep_index h ce x = Ok y) (l1 ++ a :: l2) es → NoDup (l1 ++ a :: l2) →
  Forall2 (λ x y, read_endpoint h x = Ok y) (l1 ++ a :: l2) vs → read_endpoint h a = Ok e →
  is_Some (e_metadata e) → m_met h !! x = Some m → m_uri m = Some u →
  ∃ es' v1 v2, vs = v1 ++ e :: v2 ∧ length v1 = length l1 ∧
    Forall2 (λ x y, ep_index h' ce x = Ok y) (l1 ++ a :: l2) es' ∧
    Forall2 (λ x y, read_endpoint h' x = Ok y) (l1 ++ a :: l2) (v1 ++ append_metadata m e :: v2) ∧
    concat es' ≡ₚ (u, LocMetadata ce (Some a) x) :: concat es.
Proof.
  intros Hg (e1 & e2' & F1 & F2 & ->)%Forall2_app_inv_l Hn (v1 & v2' & R1 & R2 & ->)%Forall2_app_inv_l He Hs Hx Hu.
  inversion F2 as [|? ei ? e2 Ha F2']; subst. inversion R2 as [|? v ? v2 Hv R2']; subst. assert (v = e) as -> by congruence.
  apply NoDup_app in Hn as (_ & Hd & Hn2). apply NoDup_cons in Hn2 as [Hn2 _].
  destruct (ep_grown h h' ce a x m u ei e Hg Ha He Hs Hx Hu) as [(ei' & Hei & Hp) Hread].
  exists (e1 ++ ei' :: e2), v1, v2. split; [done|]. split; [by rewrite (Forall2_length _ _ _ R1)|].
  assert (K : ∀ y, y ∈ l1 ∨ y ∈ l2 → y ≠ a). { intros y [Hy|Hy] ->; [by apply (Hd a Hy); left|done]. }
  split; [|split].
  - apply Forall2_app; [|constructor; [done|]]; (eapply Forall2_elems; [eassumption|]; intros y i Hy _ Hi;
      by rewrite (proj1 (ep_kept h h' ce a x y Hg (K y ltac:(auto))))).
  - apply Forall2_app; [|constructor; [done|]]; (eapply Forall2_elems; [eassumption|]; intros y i Hy _ Hi;
      by rewrite (proj2 (ep_kept h h' ce a x y Hg (K y ltac:(auto))))).
  - rewrite !concat_app. cbn [concat]. rewrite Hp. cbn [app]. symmetry. apply Permutation_middle.
Qed.

End Memory.

Section Grow.
Context {json : Type} `{JsonLaws json} `{ProtectLaws} `{Regex}.
Context {SM : Type} `{KeyMapLaws SM cstring}.
Context {DM : Type} `{KeyMapLaws DM addr}.
Context {UM : Type} `{KeyMapLaws UM Locator}.
Context {PM : Type} `{KeyMapLaws PM (option cstring)}.
Context {ST : Type} `{StoreLaws ST}.
Abbreviation state := (db DM UM PM ST).
Implicit Types (s : state) (c : cached) (cs : list cached).

(** The memory [h'] holds the device [c] as [c2], with one more entry for the
    index; the other devices are as they were. *)
Record grows cs c (u : cstring) (l : Locator) (h' : mem) c2 : Prop := {
  gr_entry : c_entry c2 = c_entry c;
  gr_uuid : c_uuid c2 = c_uuid c;
  gr_idx : c_idx c2 ≡ₚ [(u, l)] ++ c_idx c;
  gr_below : below h';
  gr_ok : cached_ok h' c2;
  gr_others y : y ∈ cs → y ≠ c → cached_ok h' y
}.

Lemma grown_indexed s cs c u l h' c2 : repr s cs → c ∈ cs → grows cs c u l h' c2 → u ∉ (all_idx cs).*1 →
  key_ok (zkey u) → zlen (all_idx cs) < 65535 →
  ∃ y, put_uri u l (with_heap s h') = Ok (true, with_uris (with_heap s h') y) ∧
    repr (with_uris (with_heap s h') y) (swap c c2 <$> cs).
Proof.
  intros Hr Hc [G1 G2 G3 G4 G5 G6] Hn Hk Hz. destruct (rp_uri _ _ Hr) as (mu & us & Hmu & Hku & Hpu).
  assert (Hi : indexed (with_heap s h') (all_idx cs)) by (by exists mu, us).
  destruct (inserts_put h' u l (with_heap s h') (all_idx cs) eq_refl Hi) as (y & Hput & Hi').
  - intros u' l' [= -> ->]%list_elem_of_singleton. done.
  - cbn [app fmap list_fmap fst]. constructor; [done|]. by eapply repr_uris_nodup.
  - cbn [app length]. lia.
  - exists y. split; [done|]. apply (repr_swap s cs c); try done. eapply indexed_perm; [|exact Hi']. symmetry. by apply (swap_idx s).
Qed.

Lemma swap_filed s s' cs c c2 m : repr s cs → c ∈ cs → filed None s cs m → store s' = store s →
  c_entry c2 = c_entry c → c_uuid c2 = c_uuid c → filed (Some (c_entry c)) s' (swap c c2 <$> cs) m.
Proof.
  intros Hr Hc [F1 F2 F3 F4 F5] Hst He Hu.
  assert (Hmem : ∀ z, z ∈ swap c c2 <$> cs → z = c2 ∨ z ∈ cs ∧ c_entry z ≠ c_entry c).
  { intros z (w & -> & Hw)%list_elem_of_fmap. unfold swap. case_decide; auto. }
  split; [by rewrite Hst|..].
  - intros z [->|[Hz _]]%Hmem; [rewrite Hu|]; by apply F2.
  - intros z [->|[Hz _]]%Hmem Hexc; [congruence|by apply F3].
  - intros z [->|[Hz _]]%Hmem; [rewrite Hu|]; by apply F4.
  - intros k Hk. rewrite <-list_fmap_compose. destruct (F5 k Hk) as [->|(w & -> & Hw)%list_elem_of_fmap]; [by left|right].
    apply list_elem_of_fmap. exists w. split; [|done]. unfold compose, swap. case_decide as E; [|done].
    by rewrite Hu, (repr_entries_inj s cs w c Hr Hw Hc E).
Qed.

Lemma swap_in c c2 cs : c ∈ cs → c2 ∈ swap c c2 <$> cs.
Proof. intros Hc. apply list_elem_of_fmap. exists c. split; [|done]. unfold swap. by rewrite decide_True. Qed.

(** The devices of the list, with [c] changed by a function that changes no
    other uuid's device. *)
Lemma swap_devices s cs c c2 (f : device → device) dirty : repr s cs → c ∈ cs → c_dev c2 = f (c_dev c) →
  (∀ d, d_uuid d ≠ Some (c_uuid c) → f d = d) → c_dev <$> (with_dirty dirty <$> (swap c c2 <$> cs)) = f <$> (c_dev <$> cs).
Proof.
  intros Hr Hc Hd Hf. rewrite <-!list_fmap_compose. apply list_fmap_ext. intros i x Hx%list_elem_of_lookup_2.
  unfold compose, with_dirty, swap. cbn [c_dev]. case_decide as E.
  - by rewrite Hd, (repr_entries_inj s cs x c Hr Hx Hc E).
  - symmetry. apply Hf. rewrite (ck_uuid _ _ (rp_ok _ _ Hr x Hx)). intros [= Eu]. apply E.
    by rewrite (repr_uuid_inj s cs x c Hr Hx Hc Eu).
Qed.

(** *** The device in memory with its metadata at [x] *)

Lemma device_grows s cs c x m u : repr s cs → c ∈ cs → m_met (heap s) !! x = Some m → m_uri m = Some u → key_ok (zkey u) →
  m_endpointId m = None → is_Some (d_metadata (c_dev c)) →
  ∃ h' c2, append_device_metadata (c_addr c) x s = Ok (with_heap s h') ∧ m_met h' = m_met (heap s) ∧
    grows cs c u (LocMetadata (c_entry c) None x) h' c2 ∧ c_dev c2 = add_metadata_to m (c_dev c).
Proof.
  intros Hr Hc Hx Hu Hk Hep Hs. pose proof (rp_ok _ _ Hr c Hc) as [K1 K2 K3 K4 K5 K6 K7].
  pose proof K2 as (d & uri & es & rs & ms & Hd & Huri & Hidx & He & Hrs & Hm)%dev_index_Ok.
  pose proof K3 as K3'. unfold read_device in K3'. rewrite Hd in K3'. simpl in K3'. apply map_device_Ok in K3' as (M1 & M2 & M3 & M4).
  assert (Hl : ∃ l, d_metadata d = Some l) by (apply mapL_Ok in M3 as [_ M3]; by apply M3). destruct Hl as [l Hl].
  unfold append_device_metadata. rewrite Hd. oread. set (d2 := mkDevice _ _ _ _ _ _ _ _). set (h := set_dev _ _).
  assert (Hh : m_dev h !! c_addr c = Some d2) by apply lookup_insert_eq.
  set (idx2 := (uri, LocDevice (c_entry c)) :: concat es ++ rs ++ ms ++ [(u, LocMetadata (c_entry c) None x)]).
  assert (P2 : idx2 ≡ₚ [(u, LocMetadata (c_entry c) None x)] ++ c_idx c).
  { rewrite Hidx. unfold idx2. cbn [app]. rewrite Permutation_swap. apply perm_skip.
    by rewrite !app_assoc, <-Permutation_cons_append. }
  exists h, (mkCached (c_uuid c) (c_entry c) (c_addr c) (c_dirty c) (add_metadata_to m (c_dev c)) idx2).
  split; [done|]. split; [done|]. split; [|done]. split; try done.
  - destruct (rp_below _ _ Hr) as [B1 B2 B3 B4 B5]. split; simpl; try done.
    intros a y [[<- <-]|[_ Hy]]%lookup_insert_Some; eauto.
  - split; try done; cbn [c_entry c_addr c_idx c_dev c_uuid].
    + apply dev_index_Ok. eexists _, uri, es, rs, _. split; [exact Hh|]. split; [done|]. split; [done|].
      split; [exact He|]. split; [exact Hrs|]. unfold d2. cbn [d_metadata]. rewrite Hl in *.
      by apply (met_grown h (c_entry c) None l ms x m u).
    + unfold read_device. rewrite Hh. simpl. apply map_device_Ok. unfold add_metadata_to. rewrite Hep. simpl.
      split; [exact M1|]. split; [exact M2|]. split; [|done]. apply mapL_append; [exact M3|]. unfold read_metadata. simpl. by rewrite Hx.
    + unfold add_metadata_to. rewrite Hep. done.
    + unfold add_metadata_to. rewrite Hep. intros e. apply K5.
    + intros v l0. rewrite P2. intros [[= -> ->]|?]%elem_of_cons; [done|by eapply K7].
  - intros y Hy Hne. pose proof (rp_ok _ _ Hr y Hy) as [Y1 Y2 Y3 Y4 Y5 Y6 Y7].
    destruct (dev_frame (heap s) h (c_entry y) (c_addr y) (c_idx y) (c_dev y)) as [I R]; [by apply same_memory| |done|done|by split].
    simpl. apply lookup_insert_ne. intros E. apply Hne. symmetry. by apply (repr_addr_inj s cs).
Qed.

(** *** The endpoint *)

Lemma find_endpoint_spec s i l vs : Forall2 (λ x y, read_endpoint (heap s) x = Ok y) l vs → Forall (λ e, is_Some (e_id e)) vs →
  (∃ l1 a l2 v1 e v2, l = l1 ++ a :: l2 ∧ vs = v1 ++ e :: v2 ∧ length v1 = length l1 ∧ has_id i e = true ∧
     Forall (λ y, has_id i y = false) v1 ∧ find_endpoint s i l = Ok (Some a)) ∨
  (Forall (λ y, has_id i y = false) vs ∧ find_endpoint s i l = Ok None).
Proof.
  induction 1 as [|a e l vs Ha F IH]; [by right|]. intros [[j Hj] Hs]%Forall_cons. cbn [find_endpoint].
  pose proof Ha as Ha'. unfold read_endpoint in Ha'. apply bind_Ok in Ha' as (c & Hc & (_ & _ & Hid & _)%map_endpoint_Ok).
  rewrite Hc. obind. rewrite <-Hid, Hj. oread. case_decide as E.
  - left. exists [], a, l, [], e, vs. split_and!; try done. unfold has_id. rewrite Hj, E. by apply bool_decide_eq_true.
  - assert (Hno : has_id i e = false) by (unfold has_id; rewrite Hj; apply bool_decide_eq_false; congruence).
    destruct (IH Hs) as [(l1 & b & l2 & v1 & e' & v2 & -> & -> & Hlen & Hid' & Hn & ->)|[Hn ->]]; [left|right; split; [by constructor|done]].
    exists (a :: l1), b, l2, (e :: v1), e', v2. split_and!; try done; [by cbn [length]; rewrite Hlen|by constructor].
Qed.

Lemma cloneable_metadata m d : cloneable d → cloneable (add_metadata_to m d).
Proof.
  intros Hd. unfold add_metadata_to. destruct (m_endpointId m) as [i|]; [|exact Hd]. intros e He. simpl in He.
  destruct (d_endpoints d) as [l|] eqn:E; simpl in He; [|by apply elem_of_nil in He].
  assert (K : ∀ x, x ∈ l → is_Some (e_resources x) ∧ is_Some (e_metadata x)) by (intros x Hx; apply Hd; by rewrite E).
  apply on_first_elem in He as [He|(x & Hx & _ & ->)]; [by apply K|]. destruct (K x Hx) as [K1 [ms K2]]. unfold append_metadata. cbn [e_metadata e_resources]. rewrite K2.
  split; [done|by eexists].
Qed.

Definition grow_endpoint (x : addr) (e : cEndpoint) : cEndpoint :=
  mkEndpoint (e_id e) (e_uri e) (e_profile e) (e_profileVersion e) (e_deviceUuid e) (e_enabled e) (e_resources e)
    (append_to (e_metadata e) x).

(** A change of one endpoint of [c] does not concern the other devices. *)
Lemma endpoint_others s cs c d a ec x y : repr s cs → c ∈ cs → m_dev (heap s) !! c_addr c = Some d → a ∈ elems (d_endpoints d) →
  y ∈ cs → y ≠ c → cached_ok (set_ep (heap s) (<[a := grow_endpoint x ec]> (m_ep (heap s)))) y.
Proof.
  intros Hr Hc Hd Ha Hy Hne. pose proof (rp_ok _ _ Hr y Hy) as [Y1 Y2 Y3 Y4 Y5 Y6 Y7]. set (h := set_ep _ _).
  destruct (dev_frame (heap s) h (c_entry y) (c_addr y) (c_idx y) (c_dev y)) as [I R]; [|done|done|done|by split].
  intros v l Hin. destruct l as [|ce b| |]; [done| |by intros ? ?..]. intros e He. rewrite edit_fields_id by done. simpl.
  rewrite lookup_insert_ne; [done|]. intros <-. apply Hne.
  pose proof (ck_index _ _ (rp_ok _ _ Hr c Hc)) as (d' & uri & es & rs & ms & Hd' & Huri & Hidx & Hes & _)%dev_index_Ok.
  assert (d' = d) as -> by congruence. destruct (Forall2_elem_l _ _ _ _ Hes Ha) as (ei & Hei & (e1 & u1 & r1 & m1 & _ & _ & -> & _)%ep_index_Ok).
  destruct (same_struct_unique s cs y c v u1 _ (LocEndpoint (c_entry c) a) Hr Hy Hc Hin) as (_ & -> & _); try done.
  rewrite Hidx. right. apply elem_of_app. left. apply elem_of_concat. eexists. split; [exact Hei|by left].
Qed.

Lemma endpoint_at_grows s cs c x m u i d l1 a l2 v1 e v2 ec : repr s cs → c ∈ cs → m_met (heap s) !! x = Some m →
  m_uri m = Some u → key_ok (zkey u) → m_endpointId m = Some i → m_dev (heap s) !! c_addr c = Some d →
  elems (d_endpoints d) = l1 ++ a :: l2 → elems (d_endpoints (c_dev c)) = v1 ++ e :: v2 → length v1 = length l1 →
  has_id i e = true → Forall (λ y, has_id i y = false) v1 → m_ep (heap s) !! a = Some ec →
  ∃ c2, grows cs c u (LocMetadata (c_entry c) (Some a) x) (set_ep (heap s) (<[a := grow_endpoint x ec]> (m_ep (heap s)))) c2 ∧
    c_dev c2 = add_metadata_to m (c_dev c).
Proof.
  intros Hr Hc Hx Hu Hk Hep Hd El Ev Hlen Hid Hn Hec. pose proof (rp_ok _ _ Hr c Hc) as [K1 K2 K3 K4 K5 K6 K7].
  pose proof K2 as (d' & uri & es & rs & ms & Hd' & Huri & Hidx & He & Hrs & Hm)%dev_index_Ok. assert (d' = d) as -> by congruence.
  pose proof K3 as K3'. unfold read_device in K3'. rewrite Hd in K3'. simpl in K3'. apply map_device_Ok in K3' as (M1 & M2 & M3 & M4).
  pose proof M1 as [F1 S1]%mapL_Ok. set (h := set_ep _ _). assert (Hg : grown_at (heap s) h a x) by (by exists ec).
  assert (Hnd : NoDup (elems (d_endpoints d))).
  { eapply ep_addrs; [exact He|]. pose proof (repr_idx_nodup s cs c Hr Hc) as Hn'. rewrite Hidx in Hn'. cbn [fmap list_fmap] in Hn'.
    apply NoDup_cons in Hn' as [_ Hn']. rewrite fmap_app in Hn'. by apply NoDup_app in Hn' as [? _]. }
  assert (Hms : is_Some (e_metadata e)) by (apply (K5 e); rewrite Ev; apply elem_of_app; right; by left).
  rewrite El in He, Hnd, F1. assert (Hread : read_endpoint (heap s) a = Ok e).
  { rewrite Ev in F1. apply Forall2_app_inv in F1 as [_ F1]; [|done]. by inversion F1. }
  destruct (endpoints_grown _ h (c_entry c) l1 a l2 es _ e x m u Hg He Hnd F1 Hread Hms Hx Hu) as (es' & w1 & w2 & Ew & Hw & He' & Hv' & Hp).
  rewrite Ev in Ew. apply app_inj_1 in Ew as [<- [= <-]]; [|congruence].
  set (idx2 := (uri, LocDevice (c_entry c)) :: concat es' ++ rs ++ ms).
  assert (P2 : idx2 ≡ₚ [(u, LocMetadata (c_entry c) (Some a) x)] ++ c_idx c).
  { rewrite Hidx. unfold idx2. rewrite Hp. cbn [app]. apply Permutation_swap. }
  exists (mkCached (c_uuid c) (c_entry c) (c_addr c) (c_dirty c) (add_metadata_to m (c_dev c)) idx2). split; [|done]. split; try done.
  - destruct (rp_below _ _ Hr) as [B1 B2 B3 B4 B5]. split; simpl; try done. intros b y [[<- <-]|[_ Hy]]%lookup_insert_Some; eauto.
  - split; try done; cbn [c_entry c_addr c_idx c_dev c_uuid].
    + apply dev_index_Ok. exists d, uri, es', rs, ms. split_and!; try done. by rewrite El.
    + unfold read_device. replace (m_dev h !! c_addr c) with (Some d) by done. simpl. apply map_device_Ok. unfold add_metadata_to.
      rewrite Hep. simpl. split; [|done]. apply mapL_Ok. destruct (d_endpoints (c_dev c)) as [vs|] eqn:Evs; cbn in Ev; subst; [|by destruct v1].
      rewrite El. cbn. rewrite on_first_app by done. split; [done|]. rewrite <-S1. by split; intros; eexists.
    + unfold add_metadata_to. by rewrite Hep.
    + by apply cloneable_metadata.
    + intros v l0. rewrite P2. intros [[= -> ->]|?]%elem_of_cons; [done|by eapply K7].
  - intros y Hy Hne. apply (endpoint_others s cs c d a ec x y); try done. rewrite El. apply elem_of_app. right. by left.
Qed.

(** The endpoint of the device with the metadata's endpoint id, if there is one. *)
Lemma endpoint_grows s cs c x m u i d : repr s cs → c ∈ cs → m_met (heap s) !! x = Some m → m_uri m = Some u → key_ok (zkey u) →
  m_endpointId m = Some i → Forall (λ e, is_Some (e_id e)) (elems (d_endpoints (c_dev c))) → m_dev (heap s) !! c_addr c = Some d →
  (∃ a h' c2, find_endpoint s i (elems (d_endpoints d)) = Ok (Some a) ∧
    append_endpoint_metadata a x s = Ok (with_heap s h') ∧ m_met h' = m_met (heap s) ∧
    grows cs c u (LocMetadata (c_entry c) (Some a) x) h' c2 ∧ c_dev c2 = add_metadata_to m (c_dev c)) ∨
  (find_endpoint s i (elems (d_endpoints d)) = Ok None ∧ add_metadata_to m (c_dev c) = c_dev c).
Proof.
  intros Hr Hc Hx Hu Hk Hep Hs Hd. pose proof (ck_read _ _ (rp_ok _ _ Hr c Hc)) as K3.
  unfold read_device in K3. rewrite Hd in K3. simpl in K3. apply map_device_Ok in K3 as ([F1 S1]%mapL_Ok & _).
  destruct (find_endpoint_spec s i _ _ F1 Hs) as [(l1 & a & l2 & v1 & e & v2 & El & Ev & Hlen & Hid & Hn & Hfind)|[Hn Hfind]]; [left|right].
  - assert (Hread : read_endpoint (heap s) a = Ok e).
    { rewrite El, Ev in F1. apply Forall2_app_inv in F1 as [_ F1]; [|done]. by inversion F1. }
    unfold read_endpoint in Hread. apply bind_Ok in Hread as (ec & Hec%of_option_Ok & _).
    destruct (endpoint_at_grows s cs c x m u i d l1 a l2 v1 e v2 ec) as (c2 & Hg & Hdev); try done.
    eexists a, _, c2. split; [done|]. split; [unfold append_endpoint_metadata; rewrite Hec; done|]. done.
  - split; [done|]. unfold add_metadata_to. rewrite Hep. destruct (c_dev c) as [? ? ? ? ? [es'|] ? ?]; [|done].
    simpl in Hn |- *. by rewrite on_first_none.
Qed.

(** *** Saving *)

Lemma find_endpoint_ext s s' i l : m_ep (heap s') = m_ep (heap s) → find_endpoint s' i l = find_endpoint s i l.
Proof. intros E. induction l as [|a l IH]; cbn [find_endpoint]; [done|]. by rewrite E, IH. Qed.

Lemma file_metadata_other m d uuid : m_deviceUuid m = Some uuid → d_uuid d ≠ Some uuid → file_metadata m d = d.
Proof. intros Hm Hd. unfold file_metadata. rewrite Hm. by rewrite decide_False. Qed.

Lemma file_metadata_own m d uuid : m_deviceUuid m = Some uuid → d_uuid d = Some uuid → file_metadata m d = add_metadata_to m d.
Proof. intros Hm Hd. unfold file_metadata. by rewrite decide_True by congruence. Qed.

(** The metadata of [c] is indexed and the device written. *)
Lemma metadata_saved s cs c c2 x ep m u h' mf : repr s cs → filed None s cs mf → c ∈ cs → m_deviceUuid m = Some (c_uuid c) →
  m_uri m = Some u → key_ok (zkey u) → Some u ∉ concat (device_uris <$> (c_dev <$> cs)) →
  zlen (concat (device_uris <$> (c_dev <$> cs))) < 65535 → m_met h' !! x = Some m →
  grows cs c u (LocMetadata (c_entry c) ep x) h' c2 → c_dev c2 = add_metadata_to m (c_dev c) →
  ∃ s1 ok s' cs', addDeviceMetadataURIEntry (c_entry c) ep x (with_heap s h') = Ok (true, s1) ∧
    save_entry (json := json) (SM := SM) (c_entry c) s1 = Ok (ok, s') ∧ db_ok s' cs' ∧
    c_dev <$> cs' = file_metadata m <$> (c_dev <$> cs) ∧ works s ok s'.
Proof.
  intros Hr Hf Hc Hmu Hu Hk Hn Hz Hx Hg Hd. rewrite <-(repr_uris s cs Hr) in Hn, Hz. rewrite !length_fmap in Hz.
  destruct (grown_indexed s cs c u (LocMetadata (c_entry c) ep x) h' c2 Hr Hc Hg) as (y & Hput & Hr2); [|done|done|].
  { intros Hin. apply Hn, list_elem_of_fmap_2, Hin. }
  unfold addDeviceMetadataURIEntry, read_metadata. cbn [heap with_heap]. rewrite Hx. oread. rewrite Hu. oread. rewrite Hput.
  eexists. pose proof (gr_entry _ _ _ _ _ _ Hg) as Ge. pose proof (gr_uuid _ _ _ _ _ _ Hg) as Gu.
  destruct (save_entry_spec _ (swap c c2 <$> cs) c2 mf Hr2) as (ok & s' & Hs & Hok & _ & Hw).
  { rewrite Ge. by apply (swap_filed s). }
  { by apply swap_in. }
  eexists ok, s', _. split; [done|]. rewrite Ge in Hs. split; [exact Hs|]. split; [exact Hok|]. split; [|done].
  pose proof (ck_uuid _ _ (rp_ok _ _ Hr c Hc)) as Hcu. apply (swap_devices s cs c c2); try done.
  - by rewrite Hd, (file_metadata_own m _ _ Hmu Hcu).
  - intros d. by apply file_metadata_other.
Qed.

(** A metadata for an endpoint the device does not have: the device is
    written as it is. *)
Lemma metadata_lost s cs c m mf : repr s cs → filed None s cs mf → c ∈ cs → m_deviceUuid m = Some (c_uuid c) →
  add_metadata_to m (c_dev c) = c_dev c →
  ∃ ok s' cs', save_entry (json := json) (SM := SM) (c_entry c) s = Ok (ok, s') ∧ db_ok s' cs' ∧
    c_dev <$> cs' = file_metadata m <$> (c_dev <$> cs) ∧ works s ok s'.
Proof.
  intros Hr Hf Hc Hmu Hd. destruct (save_entry_spec s cs c mf Hr) as (ok & s' & Hs & Hok & _ & Hw); [|done|].
  { destruct Hf as [F1 F2 F3 F4 F5]. split; try done. intros y Hy _. by apply F3. }
  eexists ok, s', _. split; [done|]. split; [exact Hok|]. split; [|done]. rewrite <-!list_fmap_compose.
  apply list_fmap_ext. intros i y Hy%list_elem_of_lookup_2. cbn. pose proof (ck_uuid _ _ (rp_ok _ _ Hr y Hy)) as Hyu.
  destruct (decide (c_uuid y = c_uuid c)) as [E|E].
  - rewrite (repr_uuid_inj s cs y c Hr Hy Hc E) in *. by rewrite (file_metadata_own m _ _ Hmu Hyu), Hd.
  - rewrite (file_metadata_other m _ _ Hmu); [done|]. rewrite Hyu. congruence.
Qed.

Lemma new_metadata_spec s cs m u : db_ok s cs → m_uri m = Some u → key_ok (zkey u) →
  Some u ∉ concat (device_uris <$> (c_dev <$> cs)) → metadata_fits (c_dev <$> cs) m →
  (∃ c ok s' cs', c ∈ cs ∧ m_deviceUuid m = Some (c_uuid c) ∧
     jsonDatabaseSaveMetadata (json := json) (SM := SM) (Some m) s = Ok (ok, s') ∧ db_ok s' cs' ∧
     c_dev <$> cs' = file_metadata m <$> (c_dev <$> cs) ∧ works s ok s') ∨
  (m_deviceUuid m ∉ d_uuid <$> (c_dev <$> cs) ∧
     jsonDatabaseSaveMetadata (json := json) (SM := SM) (Some m) s = Ok (false, s)).
Proof.
  intros [Hr (mf & Hf)] Hu Hk Hn [(uuid & Hmu & Hkey) Hl Hz]. unfold jsonDatabaseSaveMetadata. rewrite Hu.
  destruct (get_uri s cs u Hr Hk) as [(c & l & Hc & Hin & _)|[_ ->]].
  { exfalso. apply Hn. rewrite <-(repr_uris s cs Hr). apply list_elem_of_fmap_2, list_elem_of_fmap. exists (u, l).
    split; [done|]. apply all_idx_elem. eauto. }
  obind. unfold add_metadata. rewrite Hmu. oread.
  destruct (get_device s cs uuid Hr Hkey) as [(c & Hc & <- & ->)|[Hno ->]]; [left|right].
  2:{ split; [|done]. rewrite (repr_uuids s cs Hr). by intros (? & [= <-] & ?)%list_elem_of_fmap. }
  obind. rewrite (repr_entry s cs c Hr Hc). obind. cbn [ce_device]. pose proof (rp_ok _ _ Hr c Hc) as Hok.
  pose proof (ck_index _ _ Hok) as (d & _ & _ & _ & _ & Hd & _)%dev_index_Ok. rewrite Hd. oread. rewrite metadataClone_eq. cbn [of_option].
  destruct (alloc_metadata_spec m (heap s) (rp_below _ _ Hr)) as (x & h & Ha & He & Hb & Hread%of_option_Ok & _).
  assert (Hep : m_ep h = m_ep (heap s)) by (by injection Ha as _ <-). assert (Hdev : m_dev h = m_dev (heap s)) by (by injection Ha as _ <-).
  pose proof (repr_extends s cs h Hr He Hb) as Hr0. assert (Hf0 : filed None (with_heap s h) cs mf) by (by apply (filed_perm None s _ cs)).
  specialize (Hl (c_dev c)). rewrite (ck_uuid _ _ Hok) in Hl. specialize (Hl ltac:(by apply list_elem_of_fmap_2) (eq_sym Hmu)).
  destruct (m_endpointId m) as [i|] eqn:Ei.
  - destruct (endpoint_grows (with_heap s h) cs c x m u i d Hr0 Hc Hread Hu Hk Ei Hl) as [(a & h' & c2 & F1 & F2 & F3 & F4 & F5)|[F1 F2]].
    + cbn [heap with_heap]. by rewrite Hdev.
    + rewrite (find_endpoint_ext s (with_heap s h)) in F1 by done. rewrite F1. obind. obind. rewrite Ha. rewrite F2. obind.
      destruct (metadata_saved (with_heap s h) cs c c2 x (Some a) m u h' mf Hr0 Hf0 Hc Hmu Hu Hk Hn Hz) as (s1 & ok & s' & cs' & -> & Hs & Hrest); try done.
      { by rewrite F3. }
      obind. exists c, ok, s', cs'. done.
    + rewrite (find_endpoint_ext s (with_heap s h)) in F1 by done. rewrite F1. obind.
      destruct (metadata_lost s cs c m mf Hr Hf Hc Hmu F2) as (ok & s' & cs' & Hs & Hrest). exists c, ok, s', cs'. done.
  - obind. rewrite Ha.
    destruct (device_grows (with_heap s h) cs c x m u Hr0 Hc Hread Hu Hk Ei Hl) as (h' & c2 & -> & F3 & F4 & F5). obind.
    destruct (metadata_saved (with_heap s h) cs c c2 x None m u h' mf Hr0 Hf0 Hc Hmu Hu Hk Hn Hz) as (s1 & ok & s' & cs' & -> & Hs & Hrest); try done.
    { by rewrite F3. }
    obind. exists c, ok, s', cs'. done.
Qed.

End Grow.

End JsonDatabaseMetadata.
