(* ===== verification/JsonDatabaseRestart.v ===== *)
(** * Closing and opening the device database

    System properties and their file, jsonDatabaseCleanup, and
    jsonDatabaseInitialize: what is on file after a shutdown, and what comes
    back from the files. *)

From S2P Require Import Prelude KeyMap Json DeviceModel DeviceJson DeviceJsonSpec Storage JsonDatabase.
From S2P Require Import JsonDatabaseSpec JsonDatabaseOps JsonDatabaseMemory JsonDatabaseDevices.
Import KeyMap Json DeviceModel DeviceJson DeviceJsonSpec Storage JsonDatabase JsonDatabaseSpec JsonDatabaseOps
  JsonDatabaseMemory JsonDatabaseDevices.

Module JsonDatabaseRestart.

Section Restart.
Context {json : Type} `{JsonLaws json} `{ProtectLaws} `{Regex}.
Context {SM : Type} `{KeyMapLaws SM cstring}.
Context {DM : Type} `{KeyMapLaws DM addr}.
Context {UM : Type} `{KeyMapLaws UM Locator}.
Context {PM : Type} `{KeyMapLaws PM (option cstring)}.
Context {ST : Type} `{StoreLaws ST}.
Abbreviation state := (db DM UM PM ST).
Implicit Types (s : state) (c : cached) (cs : list cached) (ps : list (cstring * cstring)) (files : gmap cstring cstring).

(** ** System properties *)

Definition zprop (p : cstring * cstring) : cstring * option cstring := (zkey p.1, Some p.2).
Definition jprop (p : cstring * cstring) : cstring * jval := (p.1, JString p.2).

#[local] Instance jprop_inj : Inj (=) (=) jprop.
Proof. by intros [? ?] [? ?] [= -> ->]. Qed.

Definition prop_ok (p : cstring * cstring) : Prop := key_ok (zkey p.1) ∧ no_nul p.1.

(** The map [pm] holds the properties [ps]. *)
Definition props_in (pm : option PM) ps : Prop :=
  (∃ m es, pm = Some m ∧ km_model m es ∧ es ≡ₚ zprop <$> ps) ∧ Forall prop_ok ps.

(** The file holds the properties [ps]. *)
Definition props_file files ps : Prop :=
  ∃ t (j : json) ms, files !! SYSTEM_PROPERTIES_KEY = Some t ∧ cJSON_Parse (Some t) = Some j ∧
    contents j = JObject ms ∧ ms ≡ₚ jprop <$> ps.

Lemma zprop_keys ps : (zprop <$> ps).*1 = zkey <$> ps.*1.
Proof. by rewrite <-!list_fmap_compose. Qed.

Lemma props_nodup pm ps : props_in pm ps → NoDup ps.*1 ∧ zlen ps ≤ 65535.
Proof.
  intros [(m & es & _ & Hm & Hp) _]. split.
  - apply km_nodup in Hm. rewrite Hp, zprop_keys in Hm. by apply NoDup_fmap_1 in Hm.
  - apply km_model_count in Hm as [_ Hm]. by rewrite (Permutation_length Hp), length_fmap in Hm.
Qed.

Lemma c_str_zkey k : no_nul k → c_str (zkey k) = Ok k.
Proof. intros Hk. unfold zkey. by apply c_str_spec. Qed.

Lemma write_props pm ps : props_in pm ps →
  ∃ (j : json) ms, stringHashMapToJson pm = Ok j ∧ contents j = JObject ms ∧ ms ≡ₚ jprop <$> ps.
Proof.
  intros [(m & es & -> & Hm & Hp) Hok]. unfold stringHashMapToJson, map_iterate. rewrite (km_iterate_law _ _ _ _ Hm).
  apply Permutation_map_inv in Hp as (ps' & -> & Hp'). rewrite Hp' in Hok. clear Hm.
  assert (∀ (o : json) ms, contents o = JObject ms →
    ∃ j, foldM (λ e body, key ← c_str e.1; Ok (cJSON_AddStringToObject body key e.2)) (zprop <$> ps') o = Ok j ∧
      contents j = JObject (ms ++ (jprop <$> ps'))) as Hgen.
  { clear Hp'. induction Hok as [|[k v] ps' [_ Hk] Hok IH]; intros o ms Ho; [exists o; by rewrite app_nil_r|].
    cbn [fmap list_fmap foldM zprop fst snd]. cbn [fst] in Hk. rewrite (c_str_zkey k Hk). obind.
    destruct (IH (cJSON_AddStringToObject o k (Some v)) (ms ++ [(k, JString v)])) as (j & Hj & Hc); [by apply add_string|].
    exists j. split; [exact Hj|]. rewrite Hc, <-app_assoc. done. }
  destruct (Hgen cJSON_CreateObject [] create_contents) as (j & Hj & Hc). exists j, (jprop <$> ps').
  by rewrite Hp'.
Qed.

Lemma jprop_depth ms ps : ms ≡ₚ jprop <$> ps → (depth (JObject ms) ≤ 1)%nat.
Proof.
  intros Hp. cbn [depth]. apply le_n_S. assert (Hall : ∀ m, m ∈ ms → depth m.2 = 0%nat).
  { intros m Hm. rewrite Hp in Hm. by apply list_elem_of_fmap in Hm as (p & -> & _). }
  clear Hp. induction ms as [|m ms IH]; [simpl; lia|]. simpl. rewrite (Hall m) by (by left).
  simpl. apply IH. intros x Hx. apply Hall. by right.
Qed.

Lemma sys_key_good : good_key SYSTEM_PROPERTIES_KEY.
Proof. apply (bool_decide_unpack _). vm_compute. exact I. Qed.

(** The properties are written, or the files stay as they were. *)
Lemma save_props_spec s ps files : props_in (systemProperties s) ps → st_model (store s) files →
  ∃ ok st files', saveSystemProperties (json := json) s = Ok (ok, with_store s st) ∧ st_model st files' ∧
    (if ok : bool then props_file files' ps else files' = files) ∧
    (∀ k, k ≠ SYSTEM_PROPERTIES_KEY → files' !! k = files !! k) ∧
    (st_healthy (store s) → ok = true ∧ st_healthy st).
Proof.
  intros Hps Hst. unfold saveSystemProperties. destruct (write_props _ _ Hps) as (j & ms & -> & Hj & Hms). obind.
  destruct (print_some j) as (t & Ht & Hne). rewrite Ht. pose proof (save_law _ _ _ _ Hst sys_key_good Hne) as Hs.
  pose proof (λ Hh, healthy_save _ _ _ _ Hst Hh sys_key_good Hne) as Hw.
  destruct (st_save (store s) (Some SYSTEM_PROPERTIES_KEY) (Some t)) as [ok st]; cbn [fst snd] in Hs.
  exists ok, st, (if ok then <[SYSTEM_PROPERTIES_KEY := t]> files else files). split; [done|]. split; [done|].
  split; [|split; [|done]]; destruct ok; try done.
  - destruct (parse_print j t) as (j' & Hp' & Hc'); [|done|].
    + rewrite Hj. etransitivity; [by eapply jprop_depth|]. unfold CJSON_NESTING_LIMIT. lia.
    + exists t, j', ms. rewrite lookup_insert_eq. split; [done|]. split; [done|]. split; [congruence|done].
  - intros k Hk. by rewrite lookup_insert_ne.
Qed.

(** A loop over the items of an object. *)
Lemma array_fold {A} (o : json) ms (f : option json → A → outcome A) (P : list (cstring * jval) → A → Prop) a :
  contents o = JObject ms → P [] a →
  (∀ l m r j a, ms = l ++ m :: r → P l a → cJSON_string j = Some m.1 → contents j = m.2 →
    ∃ a', f (Some j) a = Ok a' ∧ P (l ++ [m]) a') →
  ∃ a', foldM (λ i, f (cJSON_GetArrayItem o i)) (seqZ 0 (cJSON_GetArraySize o)) a = Ok a' ∧ P ms a'.
Proof.
  intros Ho Ha Hstep. rewrite (array_size o ms Ho).
  assert (∀ r l a, ms = l ++ r → P l a →
    ∃ a', foldM (λ i, f (cJSON_GetArrayItem o i)) (seqZ (zlen l) (zlen r)) a = Ok a' ∧ P ms a') as Hgen.
  { induction r as [|m r IH]; intros l b Hl Hb; [exists b; rewrite app_nil_r in Hl; by subst|].
    rewrite seqZ_cons by (simpl; lia). cbn [foldM].
    pose proof (array_item o ms (zlen l) Ho ltac:(lia)) as Hit.
    rewrite Nat2Z.id, Hl, lookup_app_r, Nat.sub_diag in Hit by lia. cbn [fmap option_fmap option_map lookup list_lookup] in Hit.
    destruct (cJSON_GetArrayItem o (zlen l)) as [j|]; [|done]. cbn [fmap option_fmap option_map] in Hit. injection Hit as Hs Hj.
    destruct (Hstep l m r j b Hl Hb Hs Hj) as (b' & -> & Hb'). obind.
    replace (Z.succ (zlen l)) with (zlen (l ++ [m])) by (rewrite length_app; simpl; lia).
    replace (Z.pred (zlen (m :: r))) with (zlen r) by (simpl; lia).
    apply IH; [by rewrite <-app_assoc|done]. }
  apply (Hgen ms []); done.
Qed.

Lemma load_props_spec s ps files : props_file files ps → Forall prop_ok ps → NoDup ps.*1 → zlen ps ≤ 65535 →
  st_model (store s) files → systemProperties s = None →
  ∃ st pm, loadSystemProperties (json := json) s = Ok (true, with_props (with_store s st) pm) ∧ st_model st files ∧
    props_in pm ps.
Proof.
  intros (t & j & ms & Ht & Hj & Hc & Hms) Hok Hnd Hlen Hst Hn. unfold loadSystemProperties. rewrite Hn.
  destruct (load_law _ _ _ Hst sys_key_good) as (st & Hl & Hst'). rewrite Ht in Hl.
  cbn [store with_props]. rewrite Hl. obind. rewrite bool_decide_eq_true_2 by eauto. rewrite Hj.
  apply Permutation_map_inv in Hms as (ps' & -> & Hp').
  destruct (array_fold j (jprop <$> ps') load_property
    (λ l pm, ∃ m es ps0, pm = Some m ∧ km_model m es ∧ l = jprop <$> ps0 ∧ es ≡ₚ zprop <$> ps0) (Some (km_create : PM)) Hc)
    as (pm & Hf & m & es & ps0 & -> & Hm & Hl0 & He).
  - exists km_create, [], []. split; [done|]. split; [apply km_create_law|done].
  - intros l x r i a Heq (m & es & ps0 & -> & Hm & -> & He) Hs Hi.
    apply fmap_app_inv in Heq as (p1 & p2 & E1 & E2 & Hpp).
    destruct p2 as [|[k v] p2]; [done|]. cbn [fmap list_fmap] in E2. injection E2 as -> ->.
    cbn [jprop fst snd] in Hs, Hi. unfold load_property. oread. rewrite is_string, Hi, (string_text i v Hi), Hs. oread.
    assert (p1 = ps0) as ->.
    { by apply (inj (fmap jprop)) in E1. }
    rewrite Hpp in Hp'. assert (Hkv : (k, v) ∈ ps) by (rewrite Hp'; apply elem_of_app; right; by left).
    rewrite Forall_forall in Hok. pose proof (Hok _ Hkv) as [Hkey _]. cbn [fst] in Hkey.
    rewrite Hp', fmap_app in Hnd. cbn [fmap list_fmap fst] in Hnd. rewrite (Permutation_length Hp'), length_app in Hlen. simpl in Hlen.
    unfold map_put. destruct (km_put_new m es (zkey k) (Some v) Hm Hkey) as (m' & es' & -> & Hm' & Hpe).
    { rewrite He, zprop_keys. intros (k' & Hz%zkey_inj & Hin)%list_elem_of_fmap. subst k'.
      apply NoDup_app in Hnd as (_ & Hd & _). apply (Hd k Hin). by left. }
    { rewrite (Permutation_length He), length_fmap. lia. }
    obind. eexists. split; [done|]. exists m', es', (ps0 ++ [(k, v)]). split; [done|]. split; [done|]. split.
    + by rewrite fmap_app.
    + rewrite Hpe, He, fmap_app. apply Permutation_cons_append.
  - cbn [systemProperties with_props with_store]. rewrite Hf. obind. exists st, (Some m). split; [done|]. split; [done|]. split; [|done]. exists m, es.
    assert (ps' = ps0) as ->.
    { by apply (inj (fmap jprop)) in Hl0. }
    split; [done|]. split; [done|]. by rewrite He, Hp'.
Qed.

(** ** Shutdown *)

(** Every device has the text of its value on file, or still the text it had
    before, which happens to devices marked dirty only. *)
Definition flushed files files' c : Prop :=
  files' !! c_uuid c = device_text (json := json) (SM := SM) (c_dev c) ∨
  c_dirty c = true ∧ files' !! c_uuid c = files !! c_uuid c.

Lemma save_dirty_spec s cs l files : repr s cs → (∀ c, c ∈ l → c ∈ cs) → NoDup (c_uuid <$> l) →
  st_model (store s) files →
  (∀ c, c ∈ l → good_key (c_uuid c) ∧ (c_dirty c = false → files !! c_uuid c = device_text (json := json) (SM := SM) (c_dev c))) →
  ∃ st files', foldM (λ e s, save_dirty (json := json) (SM := SM) true e.2 s) (key_of <$> l) s = Ok (with_store s st) ∧
    st_model st files' ∧ (∀ c, c ∈ l → flushed files files' c) ∧ (∀ k, k ∉ c_uuid <$> l → files' !! k = files !! k) ∧
    (∀ k, is_Some (files !! k) → is_Some (files' !! k)) ∧
    (st_healthy (store s) → ∀ c, c ∈ l → files' !! c_uuid c = device_text (json := json) (SM := SM) (c_dev c)).
Proof.
  revert s files. induction l as [|c l IH]; intros s files Hr Hl Hnd Hst Hf.
  { exists (store s), files. split; [by destruct s|]. split; [done|].
    split; [by intros c ?%elem_of_nil|]. split; [done|]. split; [done|]. by intros _ c ?%elem_of_nil. }
  cbn [fmap list_fmap] in Hnd. apply NoDup_cons in Hnd as [Hn Hnd]. assert (Hc : c ∈ cs) by (apply Hl; by left).
  destruct (Hf c) as [Hg Hclean]; [by left|].
  assert (∃ st1 files1, save_dirty (json := json) (SM := SM) true (c_entry c) s = Ok (with_store s st1) ∧ st_model st1 files1 ∧
    flushed files files1 c ∧ (∀ k, k ≠ c_uuid c → files1 !! k = files !! k) ∧ (is_Some (files !! c_uuid c) → is_Some (files1 !! c_uuid c)) ∧
    (st_healthy (store s) → files1 !! c_uuid c = device_text (json := json) (SM := SM) (c_dev c) ∧ st_healthy st1))
    as (st1 & files1 & Hs1 & Hst1 & Hfl & Hoth & Hsome & Hw).
  { unfold save_dirty. rewrite (repr_entry s cs c Hr Hc). obind. cbn [ce_dirty ce_device].
    destruct (c_dirty c) eqn:Ed.
    - rewrite (saveDevice_spec s cs c Hr Hc). obind. destruct (device_text_some (c_dev c)) as (t & Ht & Hne). rewrite Ht.
      pose proof (save_law _ _ _ _ Hst Hg Hne) as Hsv.
      pose proof (λ Hh, healthy_save _ _ _ _ Hst Hh Hg Hne) as Hw. destruct (st_save (store s) (Some (c_uuid c)) (Some t)) as [ok st].
      cbn [fst snd] in *. exists st, (if ok then <[c_uuid c := t]> files else files). split; [done|]. split; [done|].
      destruct ok.
      + split; [left; by rewrite Ht, lookup_insert_eq|]. split; [intros k Hk; by rewrite lookup_insert_ne|].
        rewrite lookup_insert_eq. split; [intros _; by eexists|]. intros Hh. split; [done|]. by apply Hw.
      + split; [by right|]. split; [done|]. split; [done|]. by intros [? _]%Hw.
    - exists (store s), files. split; [by destruct s|]. split; [done|]. split; [left; by apply Hclean|]. split; [done|].
      split; [done|]. intros Hh. split; [by apply Hclean|done]. }
  cbn [fmap list_fmap foldM key_of snd]. rewrite Hs1. obind.
  destruct (IH (with_store s st1) files1) as (st & files' & Hrun & Hst' & Hfl' & Hoth' & Hsome' & Hw').
  - by apply repr_store.
  - intros x Hx. apply Hl. by right.
  - done.
  - done.
  - intros x Hx. destruct (Hf x) as [Hgx Hcx]; [by right|]. split; [done|]. intros Hd. rewrite Hoth; [by apply Hcx|].
    intros E. apply Hn. rewrite <-E. by apply list_elem_of_fmap_2.
  - exists st, files'. split; [done|]. split; [done|]. split; [|split; [|split]].
    + intros x [->|Hx]%elem_of_cons.
      * unfold flushed in *. rewrite (Hoth' _ Hn). done.
      * destruct (Hfl' x Hx) as [Ht|[Hd Ho]]; [by left|right]. split; [done|]. rewrite Ho. apply Hoth.
        intros E. apply Hn. rewrite <-E. by apply list_elem_of_fmap_2.
    + intros k [Hk1 Hk2]%not_elem_of_cons. rewrite (Hoth' k Hk2). by apply Hoth.
    + intros k Hk. apply Hsome'. destruct (decide (k = c_uuid c)) as [->|Hne]; [by apply Hsome|]. by rewrite Hoth.
    + intros Hh x [->|Hx]%elem_of_cons; [rewrite (Hoth' _ Hn); by apply Hw|]. apply Hw'; [|done]. by apply Hw.
Qed.

Lemma destroy_all (x : option DM) l : ∀ s cs m, repr (with_devices s (Some m)) cs → l ≡ₚ c_entry <$> cs → devices s = x →
  ∃ s', foldM destroyCacheEntry l s = Ok s' ∧ devices s' = x ∧ indexed s' [] ∧
    store s' = store s ∧ systemProperties s' = systemProperties s ∧ below (heap s').
Proof.
  induction l as [|ce l IH]; intros s cs m Hr Hp Hx.
  { exists s. split; [done|]. split; [done|]. split; [|split_and!; [done|done|exact (rp_below _ _ Hr)]]. apply Permutation_nil in Hp.
    destruct cs; [|done]. destruct (rp_uri _ _ Hr) as (mu & us & E & K & P). by exists mu, us. }
  apply Permutation_map_inv in Hp as (cs0 & Heq & Hcs). destruct cs0 as [|c cs0]; [done|].
  cbn [map] in Heq. injection Heq as -> ->. assert (Hc : c ∈ cs) by (rewrite Hcs; by left).
  destruct (rp_dev _ _ Hr) as (m0 & [= <-] & Hkm).
  destruct (km_delete_present m _ (zkey (c_uuid c)) (c_entry c) Hkm (ck_key _ _ (rp_ok _ _ Hr c Hc)))
    as (m' & es' & _ & Hk' & Hpe); [change (zkey (c_uuid c), c_entry c) with (key_of c); by apply list_elem_of_fmap_2|].
  assert (∃ cs', es' = key_of <$> cs' ∧ cs0 ≡ₚ cs') as (cs' & -> & Hcs').
  { apply (Permutation_map_inv key_of). apply (Permutation_cons_inv (a := key_of c)). by rewrite <-Hpe, Hcs. }
  destruct (destroy_cached (with_devices s (Some m)) cs c cs' (devices s) Hr Hc) as (s1 & Hd & Hdev & Hr1 & Hst & Hpr).
  { by rewrite Hcs, Hcs'. }
  replace (with_devices (with_devices s (Some m)) (devices s)) with s in Hd by (by destruct s).
  cbn [foldM]. rewrite Hd. obind. destruct (IH s1 cs' m' (Hr1 m' Hk')) as (s' & -> & D1 & D2 & D3 & D4 & D5).
  - fold (c_entry <$> cs0). by rewrite Hcs'.
  - congruence.
  - exists s'. split; [done|]. split; [done|]. split; [done|]. split; [by rewrite D3|]. split; [by rewrite D4|done].
Qed.

(** No map, and nothing in the memory that a later start could mistake. *)
Record shut s : Prop := {
  sh_devices : devices s = None;
  sh_uris : resourcesByUri s = None;
  sh_props : systemProperties s = None;
  sh_below : below (heap s)
}.

(** The end of a cleanup releases every device, and the index is then empty. *)
Lemma release_spec s cs : repr s cs → systemProperties s = None →
  ∃ s', (s ← match devices s with Some m => '(l, _) ← km_clear m; foldM destroyCacheEntry l s | None => Ok s end;
         let s := with_devices s None in
         match resourcesByUri s with
         | Some m => if decide (km_count m = 0) then Ok (with_uris s None) else Fault
         | None => Ok s
         end) = Ok s' ∧ shut s' ∧ store s' = store s.
Proof.
  intros Hr Hps. destruct (rp_dev _ _ Hr) as (m & Hm & Hkm). rewrite Hm. destruct (km_clear_law _ _ Hkm) as (m' & -> & _). obind.
  destruct (destroy_all (devices s) (c_entry <$> cs) s cs m) as (s3 & Hd3 & Hdev & Hidx & Hst3 & Hpr3 & Hb3).
  - destruct Hr as [K1 K2 K3 K4]. split; [by exists m|done..].
  - done.
  - done.
  - rewrite <-list_fmap_compose. change (snd ∘ key_of) with c_entry. rewrite Hd3. obind.
    destruct Hidx as (mu & us & Hmu & Hku & Hpu). apply Permutation_nil_r in Hpu as ->.
    cbn [resourcesByUri with_devices]. rewrite Hmu. destruct (km_model_count _ _ Hku) as [Hcnt _]. rewrite decide_True by done.
    eexists. split; [done|]. split; [|done]. split; try done. by rewrite <-Hps.
Qed.

(** Closing without writing leaves the storage alone. *)
Lemma discard_spec s cs : repr s cs →
  ∃ s', jsonDatabaseCleanupNoLock (json := json) (SM := SM) false s = Ok s' ∧ shut s' ∧ store s' = store s.
Proof.
  intros Hr. unfold jsonDatabaseCleanupNoLock. obind. set (s1 := with_props s None).
  assert (Hr1 : repr s1 cs) by (destruct Hr; by split). destruct (rp_dev _ _ Hr1) as (m & Hm & Hkm).
  unfold map_iterate. rewrite Hm, (km_iterate_law _ _ _ _ Hkm).
  assert (Hid : ∀ l : list (cstring * addr), foldM (λ e s, save_dirty (json := json) (SM := SM) false e.2 s) l s1 = Ok s1)
    by (by induction l).
  rewrite Hid. obind. destruct (release_spec s1 cs Hr1 eq_refl) as (s' & Hs & Hsh & Hst). exists s'. done.
Qed.

Lemma db_cleanup_spec s cs ps files ps0 : repr s cs → filed None s cs files → props_in (systemProperties s) ps →
  props_file files ps0 →
  ∃ s' files', jsonDatabaseCleanup (json := json) (SM := SM) true s = Ok s' ∧ devices s' = None ∧ resourcesByUri s' = None ∧
    systemProperties s' = None ∧ st_model (store s') files' ∧ (∀ c, c ∈ cs → flushed files files' c) ∧
    (props_file files' ps ∨ props_file files' ps0 ∧ ¬ st_healthy (store s)) ∧
    (∀ k, is_Some (files' !! k) ↔ k = SYSTEM_PROPERTIES_KEY ∨ k ∈ c_uuid <$> cs) ∧
    (st_healthy (store s) → ∀ c, c ∈ cs → files' !! c_uuid c = device_text (json := json) (SM := SM) (c_dev c)).
Proof.
  intros Hr Hf Hps Hpf. unfold jsonDatabaseCleanup, jsonDatabaseCleanupNoLock.
  destruct (save_props_spec s ps files Hps (so_model _ _ _ _ Hf)) as (ok & st1 & files1 & -> & Hst1 & Hok & Hoth1 & Hw1). obind.
  set (s1 := with_props (with_store s st1) None). assert (Hr1 : repr s1 cs) by (destruct Hr; by split).
  destruct (rp_dev _ _ Hr1) as (m & Hm & Hkm). unfold map_iterate. rewrite Hm, (km_iterate_law _ _ _ _ Hkm).
  destruct (save_dirty_spec s1 cs cs files1 Hr1) as (st2 & files2 & -> & Hst2 & Hfl & Hoth2 & Hsome & Hw2);
    [done|by eapply repr_uuids_nodup|done| |].
  { intros c Hc. destruct (so_keys _ _ _ _ Hf c Hc) as [Hg Hne]. split; [done|]. intros Hd. rewrite Hoth1 by done.
    by apply (so_clean _ _ _ _ Hf). }
  obind. destruct (release_spec (with_store s1 st2) cs) as (s3 & Hs3 & Hsh & Hst3); [by apply repr_store|done|].
  exists s3, files2. split; [exact Hs3|]. split; [apply Hsh|]. split; [apply Hsh|]. split; [apply Hsh|]. split; [by rewrite Hst3|].
  assert (Hsys : SYSTEM_PROPERTIES_KEY ∉ c_uuid <$> cs).
  { intros (c & E & Hc)%list_elem_of_fmap. by destruct (so_keys _ _ _ _ Hf c Hc). }
  assert (Hsame : ∀ p, props_file files1 p → props_file files2 p).
  { intros p (t & j & ms & Ht & Hrest). exists t, j, ms. by rewrite (Hoth2 _ Hsys). }
  split; [|split; [|split]].
  - intros c Hc. destruct (Hfl c Hc) as [Ht|[Hd Ho]]; [by left|right]. split; [done|]. rewrite Ho. apply Hoth1.
    by apply (so_keys _ _ _ _ Hf).
  - destruct ok; [left; by apply Hsame|right; subst; split; [by apply Hsame|by intros [? _]%Hw1]].
  - intros k. split.
    + intros Hk. destruct (decide (k ∈ c_uuid <$> cs)) as [|Hn]; [by right|]. rewrite (Hoth2 k Hn) in Hk.
      destruct (decide (k = SYSTEM_PROPERTIES_KEY)) as [|Hne]; [by left|]. rewrite (Hoth1 k Hne) in Hk.
      by apply (so_only _ _ _ _ Hf).
    + intros [->|Hk].
      * destruct ok; [destruct Hok as (t & j & ms & Ht & _)|subst files1; destruct Hpf as (t & j & ms & Ht & _)];
           apply Hsome; by exists t.
      * apply list_elem_of_fmap in Hk as (c & -> & Hc). apply Hsome. rewrite Hoth1 by (by apply (so_keys _ _ _ _ Hf)).
         by apply (so_file _ _ _ _ Hf).
  - intros [-> Hh]%Hw1. by apply Hw2.
Qed.

(** ** Start *)

(** Devices that can be in the database together. *)
Record compatible (ds : list device) : Prop := {
  wl_each d : d ∈ ds → ∃ uuid, d_uuid d = Some uuid ∧ key_ok (zkey uuid) ∧ all_uris d ∧ cloneable d ∧
    ∀ u, Some u ∈ device_uris d → key_ok (zkey u);
  wl_uuids : NoDup (d_uuid <$> ds);
  wl_uris : NoDup (concat (device_uris <$> ds));
  wl_count : zlen ds ≤ 65535 ∧ zlen (concat (device_uris <$> ds)) ≤ 65535
}.

#[local] Instance compatible_perm : Proper ((≡ₚ) ==> iff) compatible.
Proof.
  assert (Himp : ∀ ds ds', ds ≡ₚ ds' → compatible ds → compatible ds').
  { intros ds ds' Hp [W1 W2 W3 W4]. assert (Hu : concat (device_uris <$> ds) ≡ₚ concat (device_uris <$> ds')) by (by rewrite Hp). split.
    - intros d. rewrite <-Hp. apply W1.
    - by rewrite <-Hp.
    - by rewrite <-Hu.
    - by rewrite <-(Permutation_length Hp), <-(Permutation_length Hu). }
  intros ds ds' Hp. split; apply Himp; [done|by symmetry].
Qed.

Lemma compatible_app ds1 ds2 : compatible (ds1 ++ ds2) → compatible ds2.
Proof.
  intros [W1 W2 W3 W4]. rewrite !fmap_app in *. rewrite concat_app in *. rewrite !length_app in W4. split.
  - intros d Hd. apply W1, elem_of_app. by right.
  - by apply NoDup_app in W2 as (_ & _ & ?).
  - by apply NoDup_app in W3 as (_ & _ & ?).
  - lia.
Qed.

Lemma compatible_admissible d ds : compatible (d :: ds) → ∃ uuid, admissible ds d uuid.
Proof.
  intros [W1 W2 W3 W4]. cbn [fmap list_fmap concat] in *. apply NoDup_cons in W2 as [N1 N2].
  apply NoDup_app in W3 as (N3 & N4 & N5). rewrite length_app in W4. cbn [length] in W4.
  destruct (W1 d) as (uuid & E1 & E2 & E3 & E4 & E5); [by left|]. exists uuid. split; try done.
  - by rewrite <-E1.
  - intros u Hu. split; [by apply N4|by apply E5].
  - lia.
  - lia.
Qed.

Lemma repr_compatible s cs : repr s cs → compatible (c_dev <$> cs).
Proof.
  intros Hr. split.
  - intros d (c & -> & Hc)%list_elem_of_fmap. destruct (rp_ok _ _ Hr c Hc) as [K1 K2 K3 K4 K5 K6 K7].
    pose proof (dev_index_uris _ _ _ _ _ K2 K3) as Hu. exists (c_uuid c). split; [done|]. split; [done|]. split; [|split; [done|]].
    + unfold all_uris. rewrite <-Hu. apply Forall_fmap, Forall_forall. by eexists.
    + intros u Hin. rewrite <-Hu in Hin. apply list_elem_of_fmap in Hin as (u' & [= <-] & Hin).
      apply list_elem_of_fmap in Hin as ([v l] & -> & Hin). by apply (K7 v l).
  - rewrite (repr_uuids s cs Hr). apply NoDup_fmap_2; [apply _|]. by eapply repr_uuids_nodup.
  - rewrite <-(repr_uris s cs Hr). apply NoDup_fmap_2; [apply _|]. by eapply repr_uris_nodup.
  - split.
    + destruct (rp_dev _ _ Hr) as (m & _ & Hm). apply km_model_count in Hm as [_ Hm]. rewrite length_fmap in Hm. by rewrite length_fmap.
    + destruct (rp_uri _ _ Hr) as (m & us & _ & Hm & Hp). apply km_model_count in Hm as [_ Hm].
      rewrite <-(repr_uris s cs Hr). rewrite (Permutation_length Hp) in Hm. by rewrite !length_fmap in *.
Qed.

Lemma loadDevice_spec s cs d t uuid : repr s cs → admissible (c_dev <$> cs) d uuid →
  storable (json := json) STORAGE_NAMESPACE d → device_text (json := json) (SM := SM) d = Some t →
  ∃ s' c cs', loadDevice (json := json) (SM := SM) (Some t) s = Ok (true, s') ∧ repr s' cs' ∧ cs' ≡ₚ c :: cs ∧
    c_uuid c = uuid ∧ c_dev c = d ∧ c_dirty c = false ∧ store s' = store s ∧ systemProperties s' = systemProperties s.
Proof.
  intros Hr Had Hs Ht. unfold loadDevice. destruct (device_text_parses d t Hs Ht) as (j & ctx & -> & -> & Hj). obind.
  rewrite Hj. obind. destruct (alloc_device_spec d (heap s) (rp_below _ _ Hr)) as (a & h & -> & Hx & Hb & Hread & _).
  destruct (load_into_cache (with_heap s h) cs a d uuid (repr_extends s cs h Hr Hx Hb) Hread Had)
    as (s1 & c & cs1 & -> & Hr1 & Hp1 & Hu & Ha & Hd & Hdirty & Hst & Hpr).
  exists s1, c, cs1. done.
Qed.

(** The devices the files named by [ks] hold, in the order of [ks]. *)
Inductive on_file files : list cstring → list device → Prop :=
  | of_nil : on_file files [] []
  | of_properties ks ds : on_file files ks ds → on_file files (SYSTEM_PROPERTIES_KEY :: ks) ds
  | of_device k ks d ds t : k ≠ SYSTEM_PROPERTIES_KEY → good_key k → files !! k = Some t →
      device_text (json := json) (SM := SM) d = Some t → d_uuid d = Some k →
      storable (json := json) STORAGE_NAMESPACE d → on_file files ks ds → on_file files (k :: ks) (d :: ds).

Lemma on_file_perm files ks ks' ds : ks ≡ₚ ks' → on_file files ks ds → ∃ ds', on_file files ks' ds' ∧ ds ≡ₚ ds'.
Proof.
  intros Hp. revert ds. induction Hp as [|k ks ks' Hp IH|k k' ks|ks1 ks2 ks3 Hp1 IH1 Hp2 IH2]; intros ds Hf.
  - eauto.
  - inversion Hf as [|? ? Hf'|? ? d ds0 t F1 F2 F3 F4 F5 F6 Hf']; subst; destruct (IH _ Hf') as (ds' & Hd & Hpd).
    + exists ds'. split; [by constructor|done].
    + exists (d :: ds'). split; [by econstructor|by rewrite Hpd].
  - inversion Hf as [|? ? Hf'|? ? d ds0 t F1 F2 F3 F4 F5 F6 Hf']; subst;
      inversion Hf' as [|? ? Hg'|? ? d' ds1 t' G1 G2 G3 G4 G5 G6 Hg']; subst; eexists;
      (split; [repeat (done || econstructor)|]); try done. apply perm_swap.
  - destruct (IH1 _ Hf) as (ds1 & Hf1 & P1), (IH2 _ Hf1) as (ds2 & Hf2 & P2). exists ds2. split; [done|by rewrite P1].
Qed.

(** The loading loop adds the devices of the files. *)
Lemma load_loop files ks ds : on_file files ks ds → ∀ s cs, repr s cs → st_model (store s) files →
  compatible (ds ++ (c_dev <$> cs)) →
  ∃ s' cs', foldM (λ key s, if decide (key = SYSTEM_PROPERTIES_KEY) then Ok s else parse_device (json := json) (SM := SM) key s) ks s
      = Ok s' ∧ repr s' cs' ∧ st_model (store s') files ∧ (c_dev <$> cs') ≡ₚ ds ++ (c_dev <$> cs) ∧
      ((∀ c, c ∈ cs → c_dirty c = false) → ∀ c, c ∈ cs' → c_dirty c = false) ∧
      systemProperties s' = systemProperties s.
Proof.
  induction 1 as [|ks ds Hf IH|k ks d ds t F1 F2 F3 F4 F5 F6 Hf IH]; intros s cs Hr Hst Hw.
  - by exists s, cs.
  - cbn [foldM]. rewrite decide_True by done. obind. by apply IH.
  - cbn [foldM]. rewrite decide_False by done.
    assert (Hw' : compatible (d :: (c_dev <$> cs))).
    { apply (compatible_app ds). change (d :: (c_dev <$> cs)) with ([d] ++ (c_dev <$> cs)).
      by rewrite app_assoc, (Permutation_app_comm ds [d]). }
    destruct (compatible_admissible _ _ Hw') as (uuid & Had). pose proof (ad_uuid _ _ _ Had) as Hu.
    assert (uuid = k) as -> by congruence.
    destruct (loadDevice_spec s cs d t k Hr Had F6 F4) as (s1 & c & cs1 & Hl & Hr1 & Hp1 & Hcu & Hcd & Hdirty & Hst1 & Hpr1).
    destruct (parse_law (store s) files k t (loadDevice (json := json) (SM := SM)) s s1 Hst F2 F3 Hl) as (st & Hparse & Hst2).
    unfold parse_device. rewrite Hparse. obind.
    destruct (IH (with_store s1 st) cs1 (repr_store s1 cs1 st Hr1) Hst2) as (s' & cs' & Hrun & Hr' & Hst' & Hp' & Hd' & Hpr').
    { rewrite Hp1. cbn [fmap list_fmap]. rewrite Hcd. by rewrite <-Permutation_middle. }
    exists s', cs'. split; [done|]. split; [done|]. split; [done|]. split; [|split].
    + rewrite Hp', Hp1. cbn [fmap list_fmap]. rewrite Hcd. by rewrite <-Permutation_middle.
    + intros Hall. apply Hd'. intros x. rewrite Hp1. intros [->|Hx]%elem_of_cons; [done|by apply Hall].
    + by rewrite Hpr'.
Qed.

Lemma initialize_spec s files ks ds ps : devices s = None → resourcesByUri s = None → systemProperties s = None →
  below (heap s) → st_model (store s) files → on_file files ks ds → ks ≡ₚ elements (dom files) → compatible ds →
  props_file files ps → Forall prop_ok ps → NoDup ps.*1 → zlen ps ≤ 65535 → Z.of_nat (size files) ≤ 65535 →
  ∃ s' cs', jsonDatabaseInitialize (json := json) (SM := SM) s = Ok (true, s') ∧ repr s' cs' ∧
    c_dev <$> cs' ≡ₚ ds ∧ (∀ c, c ∈ cs' → c_dirty c = false) ∧ st_model (store s') files ∧ props_in (systemProperties s') ps.
Proof.
  intros Hd Hu Hps Hb Hst Hf Hks Hw Hpf Pok Pnd Plen Hsize. unfold jsonDatabaseInitialize, jsonDatabaseInitializeNoLock.
  destruct (load_props_spec s ps files Hpf Pok Pnd Plen Hst Hps) as (st & pm & -> & Hst1 & Hpm). obind.
  unfold loadDevices. cbn [devices with_props with_store resourcesByUri with_devices store with_uris]. rewrite Hd, Hu.
  destruct (keys_law st files Hst1 Hsize) as (l & -> & Hl). obind. set (s1 := with_uris _ _).
  assert (Hr1 : repr s1 []).
  { split; [| |by intros ? ?%elem_of_nil|done].
    - exists km_create. split; [done|apply km_create_law].
    - exists km_create, []. split; [done|]. split; [apply km_create_law|done]. }
  destruct (on_file_perm files ks (elems l) ds) as (ds' & Hf' & Hp'); [by rewrite Hks; destruct l|done|].
  destruct (load_loop files (elems l) ds' Hf' s1 [] Hr1 Hst1) as (s' & cs' & -> & Hr' & Hst' & Hpc & Hdirty & Hpr).
  { by rewrite app_nil_r, <-Hp'. }
  obind. exists s', cs'. split; [done|]. split; [done|]. split; [by rewrite Hpc, app_nil_r, Hp'|].
  split; [apply Hdirty; by intros ? ?%elem_of_nil|]. split; [done|]. by rewrite Hpr.
Qed.

(** ** Shutdown and start *)

Definition empty_mem : mem := mkMem ∅ ∅ ∅ ∅ ∅ 1.

(** The state of a new process. *)
Definition new_process (st : ST) : state := mkDb None None None empty_mem st.

Lemma on_file_cached files cs :
  (∀ c, c ∈ cs → good_key (c_uuid c) ∧ c_uuid c ≠ SYSTEM_PROPERTIES_KEY ∧ d_uuid (c_dev c) = Some (c_uuid c) ∧
    storable (json := json) STORAGE_NAMESPACE (c_dev c) ∧ files !! c_uuid c = device_text (json := json) (SM := SM) (c_dev c)) →
  on_file files (c_uuid <$> cs) (c_dev <$> cs).
Proof.
  induction cs as [|c cs IH]; intros Hc; [constructor|]. destruct (Hc c) as (Hg & Hne & Hu & Hs & Hf); [by left|].
  destruct (device_text_some (c_dev c)) as (t & Ht & _). cbn [fmap list_fmap]. eapply of_device; [done|done|by rewrite Hf|done..|].
  apply IH. intros x Hx. apply Hc. by right.
Qed.

Lemma dom_files files cs : NoDup (c_uuid <$> cs) → SYSTEM_PROPERTIES_KEY ∉ c_uuid <$> cs →
  (∀ k, is_Some (files !! k) ↔ k = SYSTEM_PROPERTIES_KEY ∨ k ∈ c_uuid <$> cs) →
  SYSTEM_PROPERTIES_KEY :: (c_uuid <$> cs) ≡ₚ elements (dom files).
Proof.
  intros Hnd Hn Hdom. apply NoDup_Permutation; [by apply NoDup_cons|apply NoDup_elements|].
  intros k. rewrite elem_of_elements, elem_of_dom, Hdom. apply elem_of_cons.
Qed.

(** Loaded devices that are the cached ones of before, with their files. *)
Lemma reloaded_ok s cs s' cs' files : repr s cs → repr s' cs' → c_dev <$> cs' ≡ₚ c_dev <$> cs → st_model (store s') files →
  (∀ c, c ∈ cs → good_key (c_uuid c) ∧ c_uuid c ≠ SYSTEM_PROPERTIES_KEY ∧
    files !! c_uuid c = device_text (json := json) (SM := SM) (c_dev c)) →
  (∀ k, is_Some (files !! k) ↔ k = SYSTEM_PROPERTIES_KEY ∨ k ∈ c_uuid <$> cs) → db_ok (json := json) (SM := SM) s' cs'.
Proof.
  intros Hr Hr' Hp Hst Hc Hdom. split; [done|]. exists files.
  assert (Hsame : ∀ c', c' ∈ cs' → ∃ c, c ∈ cs ∧ c_dev c = c_dev c' ∧ c_uuid c = c_uuid c').
  { intros c' Hc'. assert (Hin : c_dev c' ∈ c_dev <$> cs) by (rewrite <-Hp; by apply list_elem_of_fmap_2).
    apply list_elem_of_fmap in Hin as (c & Hd & Hcs). exists c. split; [done|]. split; [done|].
    pose proof (ck_uuid _ _ (rp_ok _ _ Hr c Hcs)) as U1. pose proof (ck_uuid _ _ (rp_ok _ _ Hr' c' Hc')) as U2. congruence. }
  assert (Hu : c_uuid <$> cs' ≡ₚ c_uuid <$> cs).
  { assert (Hsome : Some <$> (c_uuid <$> cs') ≡ₚ Some <$> (c_uuid <$> cs))
      by (by rewrite <-(repr_uuids s' cs' Hr'), <-(repr_uuids s cs Hr), Hp).
    apply Permutation_map_inv in Hsome as (l & Hl & Hpl). apply (inj (fmap Some)) in Hl. by rewrite Hl, Hpl. }
  split.
  - done.
  - intros c' Hc'. destruct (Hsame c' Hc') as (c & Hcs & _ & <-). by destruct (Hc c Hcs) as (? & ? & _).
  - intros c' Hc' _ _. destruct (Hsame c' Hc') as (c & Hcs & <- & <-). by apply Hc.
  - intros c' Hc'. destruct (Hsame c' Hc') as (c & Hcs & _ & <-). apply Hdom. right. by apply list_elem_of_fmap_2.
  - intros k Hk. rewrite Hu. by apply Hdom.
Qed.

Lemma open_spec s0 s cs files ps : shut s0 → repr s cs → st_model (store s0) files → props_file files ps → Forall prop_ok ps →
  NoDup ps.*1 → zlen ps ≤ 65535 → zlen cs < 65535 →
  (∀ c, c ∈ cs → good_key (c_uuid c) ∧ c_uuid c ≠ SYSTEM_PROPERTIES_KEY ∧
    storable (json := json) STORAGE_NAMESPACE (c_dev c) ∧ files !! c_uuid c = device_text (json := json) (SM := SM) (c_dev c)) →
  (∀ k, is_Some (files !! k) ↔ k = SYSTEM_PROPERTIES_KEY ∨ k ∈ c_uuid <$> cs) →
  ∃ s' cs', jsonDatabaseInitialize (json := json) (SM := SM) s0 = Ok (true, s') ∧
    db_ok (json := json) (SM := SM) s' cs' ∧ c_dev <$> cs' ≡ₚ c_dev <$> cs ∧ props_in (systemProperties s') ps.
Proof.
  intros [Sd Su Sp Sb] Hr Hst Hpf Pok Pnd Plen Hlen Hc Hdom.
  assert (Hsys : SYSTEM_PROPERTIES_KEY ∉ c_uuid <$> cs).
  { intros (c & E & Hin)%list_elem_of_fmap. by destruct (Hc c Hin) as (_ & ? & _). }
  pose proof (repr_uuids_nodup s cs Hr) as Hnd. pose proof (dom_files files cs Hnd Hsys Hdom) as Hks.
  destruct (initialize_spec s0 files (SYSTEM_PROPERTIES_KEY :: (c_uuid <$> cs)) (c_dev <$> cs) ps)
    as (s' & cs' & Hi & Hr' & Hp & Hd & Hst' & Hps'); try done.
  - apply of_properties, on_file_cached. intros c Hin. destruct (Hc c Hin) as (? & ? & ? & ?).
    split; [done|]. split; [done|]. split; [apply (rp_ok _ _ Hr c Hin)|done].
  - by eapply repr_compatible.
  - rewrite <-size_dom. change (size (dom files)) with (length (elements (dom files))). rewrite <-Hks. simpl. rewrite length_fmap. lia.
  - exists s', cs'. split; [done|]. split; [|done]. eapply (reloaded_ok s cs); try done.
    intros c Hin. by destruct (Hc c Hin) as (? & ? & ? & ?).
Qed.

Lemma new_process_shut st : shut (new_process st).
Proof. done. Qed.

End Restart.
End JsonDatabaseRestart.
