(* ===== verification/JsonDatabaseQuery.v ===== *)
(** * Queries of the device database

    A query by URI or uuid returns the part of the devices that has it: what
    an entry of the index points to is the part with that URI, and every part
    has its entry. *)

From S2P Require Import Prelude KeyMap Json DeviceModel DeviceJson DeviceJsonSpec Storage JsonDatabase.
From S2P Require Import JsonDatabaseSpec JsonDatabaseOps JsonDatabaseMemory JsonDatabaseDevices.
Import KeyMap Json DeviceModel DeviceJson DeviceJsonSpec Storage JsonDatabase JsonDatabaseSpec JsonDatabaseOps
  JsonDatabaseMemory JsonDatabaseDevices.

Module JsonDatabaseQuery.

Definition device_endpoints (d : device) : list endpoint := elems (d_endpoints d).
Definition device_resources (d : device) : list icDeviceResource :=
  concat ((λ e, elems (e_resources e)) <$> device_endpoints d) ++ elems (d_resources d).
Definition device_metadata (d : device) : list icDeviceMetadata :=
  concat ((λ e, elems (e_metadata e)) <$> device_endpoints d) ++ elems (d_metadata d).

(** ** Entries of the index and parts *)

Section Parts.
Implicit Types (h : mem) (a ce x : addr).

Lemma res_entries h ce ep l idx (rs : list icDeviceResource) u r :
  Forall2 (λ x y, res_index h ce ep x = Ok y) l idx → Forall2 (λ a r, read_resource h a = Ok r) l rs →
  (r ∈ rs ∧ r_uri r = Some u) ↔ ∃ x, (u, LocResource ce ep x) ∈ idx ∧ m_res h !! x = Some r.
Proof.
  intros Hi Hr. split.
  - intros [Hin Hu]. destruct (Forall2_elem_r _ _ _ _ Hr Hin) as (x & Hx & Hread%of_option_Ok).
    destruct (Forall2_elem_l _ _ _ _ Hi Hx) as ([v y] & Hy & (-> & r' & Hr' & Hv)%res_index_Ok).
    exists x. assert (v = u) as -> by congruence. done.
  - intros (x & Hin & Hx). destruct (Forall2_elem_r _ _ _ _ Hi Hin) as (x' & Hx' & ([= <-] & r' & Hr' & Hv)%res_index_Ok).
    destruct (Forall2_elem_l _ _ _ _ Hr Hx') as (r2 & Hr2 & Hread%of_option_Ok). assert (r2 = r) as -> by congruence.
    split; [done|congruence].
Qed.

Lemma met_entries h ce ep l idx (rs : list icDeviceMetadata) u r :
  Forall2 (λ x y, met_index h ce ep x = Ok y) l idx → Forall2 (λ a r, read_metadata h a = Ok r) l rs →
  (r ∈ rs ∧ m_uri r = Some u) ↔ ∃ x, (u, LocMetadata ce ep x) ∈ idx ∧ m_met h !! x = Some r.
Proof.
  intros Hi Hr. split.
  - intros [Hin Hu]. destruct (Forall2_elem_r _ _ _ _ Hr Hin) as (x & Hx & Hread%of_option_Ok).
    destruct (Forall2_elem_l _ _ _ _ Hi Hx) as ([v y] & Hy & (-> & r' & Hr' & Hv)%met_index_Ok).
    exists x. assert (v = u) as -> by congruence. done.
  - intros (x & Hin & Hx). destruct (Forall2_elem_r _ _ _ _ Hi Hin) as (x' & Hx' & ([= <-] & r' & Hr' & Hv)%met_index_Ok).
    destruct (Forall2_elem_l _ _ _ _ Hr Hx') as (r2 & Hr2 & Hread%of_option_Ok). assert (r2 = r) as -> by congruence.
    split; [done|congruence].
Qed.

(** What the entries of one endpoint point to. *)
Record ep_parts h ce a (idx : list (cstring * Locator)) (e : endpoint) : Prop := {
  pa_res r u : (r ∈ elems (e_resources e) ∧ r_uri r = Some u) ↔ ∃ x, (u, LocResource ce (Some a) x) ∈ idx ∧ m_res h !! x = Some r;
  pa_met r u : (r ∈ elems (e_metadata e) ∧ m_uri r = Some u) ↔ ∃ x, (u, LocMetadata ce (Some a) x) ∈ idx ∧ m_met h !! x = Some r;
  pa_shape u l : (u, l) ∈ idx → (l = LocEndpoint ce a ∧ e_uri e = Some u) ∨
    (∃ x, l = LocResource ce (Some a) x) ∨ (∃ x, l = LocMetadata ce (Some a) x)
}.

Lemma ep_index_parts h ce a idx e : ep_index h ce a = Ok idx → read_endpoint h a = Ok e → ep_parts h ce a idx e.
Proof.
  intros (c & uri & rs & ms & Ha & Hu & -> & Hr & Hm)%ep_index_Ok Hread. unfold read_endpoint in Hread.
  rewrite Ha in Hread. simpl in Hread. apply map_endpoint_Ok in Hread as (M1 & M2 & _ & Mu & _).
  apply elems_read in M1, M2. split.
  - intros r u. rewrite (res_entries h ce (Some a) _ rs _ u r Hr M1). split; intros (x & Hin & Hx); exists x; (split; [|done]).
    + set_solver.
    + apply elem_of_cons in Hin as [?|[?|Hin]%elem_of_app]; [done|done|]. by destruct (met_locator _ _ _ _ _ _ _ Hm Hin).
  - intros r u. rewrite (met_entries h ce (Some a) _ ms _ u r Hm M2). split; intros (x & Hin & Hx); exists x; (split; [|done]).
    + set_solver.
    + apply elem_of_cons in Hin as [?|[Hin|?]%elem_of_app]; [done| |done]. by destruct (res_locator _ _ _ _ _ _ _ Hr Hin).
  - intros u l [[= -> ->]|[Hin|Hin]%elem_of_app]%elem_of_cons.
    + left. split; [done|congruence].
    + right; left. by eapply res_locator.
    + right; right. by eapply met_locator.
Qed.

(** What the entries of a device point to. *)
Record dev_parts h ce (idx : list (cstring * Locator)) (d : device) : Prop := {
  dp_res r u : (r ∈ device_resources d ∧ r_uri r = Some u) ↔ ∃ ep x, (u, LocResource ce ep x) ∈ idx ∧ m_res h !! x = Some r;
  dp_met r u : (r ∈ device_metadata d ∧ m_uri r = Some u) ↔ ∃ ep x, (u, LocMetadata ce ep x) ∈ idx ∧ m_met h !! x = Some r;
  dp_ep e u : (e ∈ device_endpoints d ∧ Some u ∈ ep_uris e) ↔
    ∃ a, read_endpoint h a = Ok e ∧ ((u, LocEndpoint ce a) ∈ idx ∨ (∃ x, (u, LocResource ce (Some a) x) ∈ idx) ∨
      (∃ x, (u, LocMetadata ce (Some a) x) ∈ idx))
}.

(** The entries of a device's index, by the list they come from. *)
Section Layout.
Context (h : mem) (ce : addr) (d : device) (uri : cstring) (es : list (list (cstring * Locator)))
  (rs ms : list (cstring * Locator)) (lr lm : list addr).
Hypothesis (Hep : ∀ e, e ∈ device_endpoints d → ∃ x i, i ∈ es ∧ ep_index h ce x = Ok i ∧ read_endpoint h x = Ok e).
Hypothesis (Hei : ∀ i, i ∈ es → ∃ x e, e ∈ device_endpoints d ∧ ep_index h ce x = Ok i ∧ read_endpoint h x = Ok e).
Hypothesis (Hr : Forall2 (λ x y, res_index h ce None x = Ok y) lr rs).
Hypothesis (M2 : Forall2 (λ a r, read_resource h a = Ok r) lr (elems (d_resources d))).
Hypothesis (Hm : Forall2 (λ x y, met_index h ce None x = Ok y) lm ms).
Hypothesis (M3 : Forall2 (λ a r, read_metadata h a = Ok r) lm (elems (d_metadata d))).
Let idx := (uri, LocDevice ce) :: concat es ++ rs ++ ms.

Lemma layout_sub i p : i ∈ es → p ∈ i → p ∈ idx.
Proof. intros Hi Hp. right. apply elem_of_app. left. apply elem_of_concat. eauto. Qed.

Lemma layout_res r u : (r ∈ device_resources d ∧ r_uri r = Some u) ↔
  ∃ ep x, (u, LocResource ce ep x) ∈ idx ∧ m_res h !! x = Some r.
Proof.
  pose proof layout_sub as Hsub.
  unfold device_resources. split.
  - intros [[Hin|Hin]%elem_of_app Hru].
    + apply elem_of_concat in Hin as (l & (e & -> & He')%list_elem_of_fmap & Hin).
      destruct (Hep e He') as (x & i & Hi & Hxi & Hxe).
      destruct (proj1 (pa_res _ _ _ _ _ (ep_index_parts h ce x i e Hxi Hxe) r u)) as (y & Hy & Hyr); [done|]. eauto.
    + destruct (proj1 (res_entries h ce None _ rs _ u r Hr M2)) as (y & Hy & Hyr); [done|]. exists None, y. set_solver.
  - intros (ep & x & Hin & Hx). apply elem_of_cons in Hin as [?|[Hin|[Hin|Hin]%elem_of_app]%elem_of_app]; [done|..].
    + apply elem_of_concat in Hin as (i & Hi & Hin). destruct (Hei i Hi) as (y & e & He' & Hyi & Hye).
      pose proof (ep_index_parts h ce y i e Hyi Hye) as Hp.
      destruct (pa_shape _ _ _ _ _ Hp _ _ Hin) as [[? _]|[(z & [= -> <-])|(z & ?)]]; [done| |done].
      destruct (proj2 (pa_res _ _ _ _ _ Hp r u)) as [H1 H2]; [eauto|]. split; [|done]. apply elem_of_app. left.
      apply elem_of_concat. eexists. split; [by apply list_elem_of_fmap_2|done].
    + destruct (res_locator _ _ _ _ _ _ _ Hr Hin) as (z & [= -> <-]).
      destruct (proj2 (res_entries h ce None _ rs _ u r Hr M2)) as [H1 H2]; [eauto|]. split; [|done]. apply elem_of_app. by right.
    + by destruct (met_locator _ _ _ _ _ _ _ Hm Hin).
Qed.

Lemma layout_met r u : (r ∈ device_metadata d ∧ m_uri r = Some u) ↔
  ∃ ep x, (u, LocMetadata ce ep x) ∈ idx ∧ m_met h !! x = Some r.
Proof.
  pose proof layout_sub as Hsub.
  unfold device_metadata. split.
  - intros [[Hin|Hin]%elem_of_app Hru].
    + apply elem_of_concat in Hin as (l & (e & -> & He')%list_elem_of_fmap & Hin).
      destruct (Hep e He') as (x & i & Hi & Hxi & Hxe).
      destruct (proj1 (pa_met _ _ _ _ _ (ep_index_parts h ce x i e Hxi Hxe) r u)) as (y & Hy & Hyr); [done|]. eauto.
    + destruct (proj1 (met_entries h ce None _ ms _ u r Hm M3)) as (y & Hy & Hyr); [done|]. exists None, y. set_solver.
  - intros (ep & x & Hin & Hx). apply elem_of_cons in Hin as [?|[Hin|[Hin|Hin]%elem_of_app]%elem_of_app]; [done|..].
    + apply elem_of_concat in Hin as (i & Hi & Hin). destruct (Hei i Hi) as (y & e & He' & Hyi & Hye).
      pose proof (ep_index_parts h ce y i e Hyi Hye) as Hp.
      destruct (pa_shape _ _ _ _ _ Hp _ _ Hin) as [[? _]|[(z & ?)|(z & [= -> <-])]]; [done|done|].
      destruct (proj2 (pa_met _ _ _ _ _ Hp r u)) as [H1 H2]; [eauto|]. split; [|done]. apply elem_of_app. left.
      apply elem_of_concat. eexists. split; [by apply list_elem_of_fmap_2|done].
    + by destruct (res_locator _ _ _ _ _ _ _ Hr Hin).
    + destruct (met_locator _ _ _ _ _ _ _ Hm Hin) as (z & [= -> <-]).
      destruct (proj2 (met_entries h ce None _ ms _ u r Hm M3)) as [H1 H2]; [eauto|]. split; [|done]. apply elem_of_app. by right.
Qed.

Lemma layout_ep e u : (e ∈ device_endpoints d ∧ Some u ∈ ep_uris e) ↔
  ∃ a, read_endpoint h a = Ok e ∧ ((u, LocEndpoint ce a) ∈ idx ∨ (∃ x, (u, LocResource ce (Some a) x) ∈ idx) ∨
    (∃ x, (u, LocMetadata ce (Some a) x) ∈ idx)).
Proof.
  pose proof layout_sub as Hsub.
  split.
  - intros [He' Hu']. destruct (Hep e He') as (x & i & Hi & Hxi & Hxe). exists x. split; [done|].
    rewrite <-(ep_index_uris h ce x i e Hxi Hxe) in Hu'. apply list_elem_of_fmap in Hu' as (u' & [= <-] & Hu').
    apply list_elem_of_fmap in Hu' as ([v l] & -> & Hin).
    destruct (pa_shape _ _ _ _ _ (ep_index_parts h ce x i e Hxi Hxe) _ _ Hin) as [[-> _]|[(z & ->)|(z & ->)]].
    + left. by eapply Hsub. + right; left. exists z. by eapply Hsub. + right; right. exists z. by eapply Hsub.
  - intros (x & Hxe & Hor).
    assert (∃ l, (u, l) ∈ (uri, LocDevice ce) :: concat es ++ rs ++ ms ∧
      (l = LocEndpoint ce x ∨ (∃ z, l = LocResource ce (Some x) z) ∨ (∃ z, l = LocMetadata ce (Some x) z))) as (l & Hin & Hl).
    { destruct Hor as [?|[[z ?]|[z ?]]]; eexists; (split; [done|]); eauto. }
    apply elem_of_cons in Hin as [[= -> ->]|[Hin|[Hin|Hin]%elem_of_app]%elem_of_app].
    + by destruct Hl as [?|[[? ?]|[? ?]]].
    + apply elem_of_concat in Hin as (i & Hi & Hin). destruct (Hei i Hi) as (y & e' & He' & Hyi & Hye).
      pose proof (ep_index_uris h ce y i e' Hyi Hye) as Hus.
      assert (y = x) as ->.
      { destruct (pa_shape _ _ _ _ _ (ep_index_parts h ce y i e' Hyi Hye) _ _ Hin) as [[-> _]|[(z & ->)|(z & ->)]];
          destruct Hl as [?|[[? ?]|[? ?]]]; by simplify_eq. }
      assert (e' = e) as -> by congruence. split; [done|]. rewrite <-Hus. apply list_elem_of_fmap_2, list_elem_of_fmap. by exists (u, l).
    + destruct (res_locator _ _ _ _ _ _ _ Hr Hin) as (z & ->). by destruct Hl as [?|[[? ?]|[? ?]]].
    + destruct (met_locator _ _ _ _ _ _ _ Hm Hin) as (z & ->). by destruct Hl as [?|[[? ?]|[? ?]]].
Qed.
End Layout.

Lemma dev_index_parts h ce a idx d : dev_index h ce a = Ok idx → read_device h a = Ok d → dev_parts h ce idx d.
Proof.
  intros (c & uri & es & rs & ms & Ha & Hu & -> & He & Hr & Hm)%dev_index_Ok Hread. unfold read_device in Hread.
  rewrite Ha in Hread. simpl in Hread. apply map_device_Ok in Hread as (M1 & M2 & M3 & _ & _ & _ & Mu & _).
  apply elems_read in M1, M2, M3.
  assert (Hep : ∀ e, e ∈ device_endpoints d → ∃ x i, i ∈ es ∧ ep_index h ce x = Ok i ∧ read_endpoint h x = Ok e).
  { intros e Hin. destruct (Forall2_elem_r _ _ _ _ M1 Hin) as (x & Hx & Hread).
    destruct (Forall2_elem_l _ _ _ _ He Hx) as (i & Hi & Hxi). eauto. }
  assert (Hei : ∀ i, i ∈ es → ∃ x e, e ∈ device_endpoints d ∧ ep_index h ce x = Ok i ∧ read_endpoint h x = Ok e).
  { intros i Hi. destruct (Forall2_elem_r _ _ _ _ He Hi) as (x & Hx & Hxi).
    destruct (Forall2_elem_l _ _ _ _ M1 Hx) as (e & Hin & Hread). eauto. }
  split; intros; [by eapply layout_res|by eapply layout_met|by eapply layout_ep].
Qed.

End Parts.
(** ** The queries *)

Section Queries.
Context {json : Type} `{JsonLaws json} `{ProtectLaws} `{Regex}.
Context {SM : Type} `{KeyMapLaws SM cstring}.
Context {DM : Type} `{KeyMapLaws DM addr}.
Context {UM : Type} `{KeyMapLaws UM Locator}.
Context {PM : Type} `{KeyMapLaws PM (option cstring)}.
Context {ST : Type} `{StoreLaws ST}.
Abbreviation state := (db DM UM PM ST).
Implicit Types (s : state) (c : cached) (cs : list cached).

Lemma repr_parts s cs c : repr s cs → c ∈ cs → dev_parts (heap s) (c_entry c) (c_idx c) (c_dev c).
Proof. intros Hr Hc. destruct (rp_ok _ _ Hr c Hc). by eapply dev_index_parts. Qed.

(** An entry of any device is what the index has for its URI. *)
Lemma lookup_is s cs c uri l o : repr s cs → c ∈ cs → (uri, l) ∈ c_idx c → map_get (resourcesByUri s) uri = Ok o → o = Some l.
Proof. intros Hr Hc Hin. rewrite (get_uri_in s cs c uri l Hr Hc Hin). by intros [= <-]. Qed.

Definition answers {A} (r : outcome (option A)) (P : A → Prop) : Prop := ∃ o, r = Ok o ∧ ∀ x, o = Some x ↔ P x.

Lemma answers_none {A} (P : A → Prop) : (∀ x, P x → False) → answers (Ok None) P.
Proof. intros Hn. exists None. split; [done|]. intros x. split; [done|]. intros Hx. by destruct (Hn x Hx). Qed.

Lemma answers_some {A} (P : A → Prop) x : P x → (∀ y, P y → y = x) → answers (Ok (Some x)) P.
Proof. intros Hx Hu. exists (Some x). split; [done|]. intros y. split; [by intros [= <-]|]. intros Hy. by rewrite (Hu y Hy). Qed.

Lemma get_resource_spec s cs uri : repr s cs → key_ok (zkey uri) →
  answers (jsonDatabaseGetResourceByUri (Some uri) s)
    (λ r, ∃ c, c ∈ cs ∧ r ∈ device_resources (c_dev c) ∧ r_uri r = Some uri).
Proof.
  intros Hr Hk. unfold jsonDatabaseGetResourceByUri.
  assert (Hall : ∀ o, map_get (resourcesByUri s) uri = Ok o →
    ∀ r, (∃ c, c ∈ cs ∧ r ∈ device_resources (c_dev c) ∧ r_uri r = Some uri) →
    ∃ c ep x, o = Some (LocResource (c_entry c) ep x) ∧ m_res (heap s) !! x = Some r).
  { intros o Ho r (c & Hc & Hp). apply (dp_res _ _ _ _ (repr_parts s cs c Hr Hc)) in Hp as (ep & x & Hin & Hx).
    exists c, ep, x. split; [|done]. by eapply lookup_is. }
  destruct (get_uri s cs uri Hr Hk) as [(c & l & Hc & Hin & Hg)|[_ Hg]]; rewrite Hg; obind.
  - destruct l as [ce|ce b|ce ep b|ce ep b]; try (apply answers_none; intros r Hp; by destruct (Hall _ Hg r Hp) as (? & ? & ? & ? & _)).
    pose proof (repr_points _ _ _ _ _ Hr Hc Hin) as Hpt. inversion Hpt as [? ? ? r Hb Hu| | |]; subst.
    unfold read_resource. rewrite Hb. oread. rewrite resourceClone_eq. apply answers_some.
    + exists c. split; [done|]. apply (dp_res _ _ _ _ (repr_parts s cs c Hr Hc)). eauto.
    + intros r' Hp. destruct (Hall _ Hg r' Hp) as (c' & ep' & x & [= _ _ ->] & Hx). congruence.
  - apply answers_none. intros r Hp. by destruct (Hall _ Hg r Hp) as (? & ? & ? & ? & _).
Qed.

Lemma get_metadata_spec s cs uri : repr s cs → key_ok (zkey uri) →
  answers (jsonDatabaseGetMetadataByUri (Some uri) s)
    (λ r, ∃ c, c ∈ cs ∧ r ∈ device_metadata (c_dev c) ∧ m_uri r = Some uri).
Proof.
  intros Hr Hk. unfold jsonDatabaseGetMetadataByUri.
  assert (Hall : ∀ o, map_get (resourcesByUri s) uri = Ok o →
    ∀ r, (∃ c, c ∈ cs ∧ r ∈ device_metadata (c_dev c) ∧ m_uri r = Some uri) →
    ∃ c ep x, o = Some (LocMetadata (c_entry c) ep x) ∧ m_met (heap s) !! x = Some r).
  { intros o Ho r (c & Hc & Hp). apply (dp_met _ _ _ _ (repr_parts s cs c Hr Hc)) in Hp as (ep & x & Hin & Hx).
    exists c, ep, x. split; [|done]. by eapply lookup_is. }
  destruct (get_uri s cs uri Hr Hk) as [(c & l & Hc & Hin & Hg)|[_ Hg]]; rewrite Hg; obind.
  - destruct l as [ce|ce b|ce ep b|ce ep b]; try (apply answers_none; intros r Hp; by destruct (Hall _ Hg r Hp) as (? & ? & ? & ? & _)).
    pose proof (repr_points _ _ _ _ _ Hr Hc Hin) as Hpt. inversion Hpt as [|? ? ? r Hb Hu| |]; subst.
    unfold read_metadata. rewrite Hb. oread. rewrite metadataClone_eq. apply answers_some.
    + exists c. split; [done|]. apply (dp_met _ _ _ _ (repr_parts s cs c Hr Hc)). eauto.
    + intros r' Hp. destruct (Hall _ Hg r' Hp) as (c' & ep' & x & [= _ _ ->] & Hx). congruence.
  - apply answers_none. intros r Hp. by destruct (Hall _ Hg r Hp) as (? & ? & ? & ? & _).
Qed.

(** The endpoint of a Locator. *)
Definition locator_ep (l : Locator) : option addr :=
  match l with
  | LocDevice _ => None
  | LocEndpoint _ a => Some a
  | LocResource _ ep _ | LocMetadata _ ep _ => ep
  end.

Lemma locator_read s cs c uri l a : repr s cs → c ∈ cs → (uri, l) ∈ c_idx c → locator_ep l = Some a →
  ∃ e, read_endpoint (heap s) a = Ok e ∧ e ∈ device_endpoints (c_dev c) ∧ Some uri ∈ ep_uris e.
Proof.
  intros Hr Hc Hin Hl. pose proof (rp_ok _ _ Hr c Hc) as [K1 K2 K3 K4 K5 K6 K7].
  pose proof (repr_points _ _ _ _ _ Hr Hc Hin) as Hpt.
  assert (∃ e, read_endpoint (heap s) a = Ok e) as (e & He).
  { pose proof K2 as (d & u0 & es & rs & ms & Hd & Hu & Hidx & Hes & Hrs & Hms)%dev_index_Ok. rewrite Hidx in Hin.
    assert (Ha : a ∈ elems (d_endpoints d)).
    { apply elem_of_cons in Hin as [[= -> ->]|[Hin|[Hin|Hin]%elem_of_app]%elem_of_app]; [done|..].
      - apply elem_of_concat in Hin as (i & Hi & Hin). destruct (Forall2_elem_r _ _ _ _ Hes Hi) as (x & Hx & Hxi).
        apply ep_index_Ok in Hxi as (e & u1 & r1 & m1 & _ & _ & -> & Hr1 & Hm1).
        apply elem_of_cons in Hin as [[= -> ->]|[Hin|Hin]%elem_of_app]; [by injection Hl as ->|..].
        + destruct (res_locator _ _ _ _ _ _ _ Hr1 Hin) as (z & ->). by injection Hl as ->.
        + destruct (met_locator _ _ _ _ _ _ _ Hm1 Hin) as (z & ->). by injection Hl as ->.
      - by destruct (res_locator _ _ _ _ _ _ _ Hrs Hin) as (z & ->).
      - by destruct (met_locator _ _ _ _ _ _ _ Hms Hin) as (z & ->). }
    unfold read_device in K3. rewrite Hd in K3. simpl in K3. apply map_device_Ok in K3 as (M1 & _). apply elems_read in M1.
    destruct (Forall2_elem_l _ _ _ _ M1 Ha) as (e & _ & He). eauto. }
  exists e. split; [done|]. apply (dp_ep _ _ _ _ (repr_parts s cs c Hr Hc)). exists a. split; [done|].
  destruct l; simpl in Hl; simplify_eq; inversion Hpt; subst; eauto.
Qed.

Lemma get_endpoint_spec s cs uri : repr s cs → key_ok (zkey uri) →
  answers (jsonDatabaseGetEndpointByUri (Some uri) s)
    (λ e, ∃ c, c ∈ cs ∧ e ∈ device_endpoints (c_dev c) ∧ Some uri ∈ ep_uris e).
Proof.
  intros Hr Hk. unfold jsonDatabaseGetEndpointByUri.
  assert (Hall : ∀ o, map_get (resourcesByUri s) uri = Ok o →
    ∀ e, (∃ c, c ∈ cs ∧ e ∈ device_endpoints (c_dev c) ∧ Some uri ∈ ep_uris e) →
    ∃ l a, o = Some l ∧ locator_ep l = Some a ∧ read_endpoint (heap s) a = Ok e).
  { intros o Ho e (c & Hc & Hp). apply (dp_ep _ _ _ _ (repr_parts s cs c Hr Hc)) in Hp as (a & He & Hor).
    assert (∃ l, (uri, l) ∈ c_idx c ∧ locator_ep l = Some a) as (l & Hin & Hl) by (destruct Hor as [?|[[? ?]|[? ?]]]; eauto).
    exists l, a. split; [|done]. by eapply lookup_is. }
  destruct (get_uri s cs uri Hr Hk) as [(c & l & Hc & Hin & Hg)|[_ Hg]]; rewrite Hg; obind;
    [|apply answers_none; intros e Hp; by destruct (Hall _ Hg e Hp) as (? & ? & ? & _)].
  destruct (locator_ep l) as [a|] eqn:El.
  - destruct (locator_read s cs c uri l a Hr Hc Hin El) as (e & He & Hpe).
    assert (Hcl : cloneable_endpoint e) by (apply (ck_clone _ _ (rp_ok _ _ Hr c Hc)); apply Hpe).
    assert (Heq : match l with
                  | LocEndpoint _ ep => clone_endpoint_at s (Some ep)
                  | LocResource _ (Some ep) _ => clone_endpoint_at s (Some ep)
                  | LocMetadata _ ep _ => clone_endpoint_at s ep
                  | _ => Ok None
                  end = Ok (Some e)).
    { destruct l as [|ce b|ce [ep|] b|ce ep b]; simpl in El; simplify_eq; unfold clone_endpoint_at; rewrite He; obind;
        by apply endpointClone_eq. }
    assert (Hans : answers (Ok (Some e)) (λ e, ∃ c, c ∈ cs ∧ e ∈ device_endpoints (c_dev c) ∧ Some uri ∈ ep_uris e)).
    { apply answers_some; [eauto|]. intros e' Hp. destruct (Hall _ Hg e' Hp) as (l' & a' & [= <-] & El' & He'). congruence. }
    rewrite <-Heq in Hans. by destruct l.
  - assert (Hn : ∀ e, (∃ c, c ∈ cs ∧ e ∈ device_endpoints (c_dev c) ∧ Some uri ∈ ep_uris e) → False).
    { intros e Hp. destruct (Hall _ Hg e Hp) as (l' & a' & [= <-] & El' & _). congruence. }
    destruct l as [ce|ce b|ce [ep|] b|ce [ep|] b]; simpl in El; simplify_eq; by apply answers_none.
Qed.

Lemma get_device_by_uri_spec s cs uri : repr s cs → key_ok (zkey uri) →
  answers (jsonDatabaseGetDeviceByUri (Some uri) s)
    (λ d, ∃ c, c ∈ cs ∧ d = c_dev c ∧ Some uri ∈ device_uris d).
Proof.
  intros Hr Hk. unfold jsonDatabaseGetDeviceByUri.
  assert (Huris : ∀ c, c ∈ cs → Some <$> (c_idx c).*1 = device_uris (c_dev c)).
  { intros c Hc. destruct (rp_ok _ _ Hr c Hc). by eapply dev_index_uris. }
  destruct (get_uri s cs uri Hr Hk) as [(c & l & Hc & Hin & Hg)|[Hn Hg]]; rewrite Hg; obind.
  - assert (Hans : answers (d ← entry_device s (c_entry c); deviceClone (Some d))
      (λ d, ∃ c, c ∈ cs ∧ d = c_dev c ∧ Some uri ∈ device_uris d)).
    { rewrite (repr_device s cs c Hr Hc). obind. rewrite deviceClone_eq by apply (ck_clone _ _ (rp_ok _ _ Hr c Hc)).
      apply answers_some.
      - exists c. split; [done|]. split; [done|]. rewrite <-(Huris c Hc). apply list_elem_of_fmap_2, list_elem_of_fmap.
        by exists (uri, l).
      - intros d (c' & Hc' & -> & Hu). rewrite <-(Huris c' Hc') in Hu. apply list_elem_of_fmap in Hu as (u & [= <-] & Hu).
        apply list_elem_of_fmap in Hu as ([v l'] & -> & Hin'). by destruct (cached_unique s cs c c' v l l' Hr Hc Hc' Hin Hin') as [-> _]. }
    pose proof (repr_points _ _ _ _ _ Hr Hc Hin) as Hpt. destruct l; inversion Hpt; subst; done.
  - apply answers_none. intros d (c & Hc & -> & Hu). apply Hn. rewrite <-(Huris c Hc) in Hu.
    apply list_elem_of_fmap in Hu as (u & [= <-] & Hu). apply list_elem_of_fmap in Hu as (x & -> & Hx).
    apply list_elem_of_fmap_2. apply all_idx_elem. eauto.
Qed.

Lemma get_device_by_id_spec s cs uuid : repr s cs → key_ok (zkey uuid) →
  answers (jsonDatabaseGetDeviceById (Some uuid) s) (λ d, ∃ c, c ∈ cs ∧ d = c_dev c ∧ d_uuid d = Some uuid).
Proof.
  intros Hr Hk. unfold jsonDatabaseGetDeviceById.
  destruct (get_device s cs uuid Hr Hk) as [(c & Hc & <- & ->)|[Hn ->]]; obind.
  - rewrite (repr_device s cs c Hr Hc). obind. pose proof (rp_ok _ _ Hr c Hc) as Hok.
    rewrite deviceClone_eq by apply (ck_clone _ _ Hok). apply answers_some.
    + exists c. split; [done|]. split; [done|]. apply Hok.
    + intros d (c' & Hc' & -> & Hu). rewrite (ck_uuid _ _ (rp_ok _ _ Hr c' Hc')) in Hu. injection Hu as Hu.
      by rewrite (repr_uuid_inj s cs c' c Hr Hc' Hc Hu).
  - apply answers_none. intros d (c & Hc & -> & Hu). rewrite (ck_uuid _ _ (rp_ok _ _ Hr c Hc)) in Hu. injection Hu as <-.
    apply Hn. by apply list_elem_of_fmap_2.
Qed.

Lemma is_known_spec s cs uuid : repr s cs → key_ok (zkey uuid) →
  jsonDatabaseIsDeviceKnown (Some uuid) s = Ok (bool_decide (uuid ∈ c_uuid <$> cs)).
Proof.
  intros Hr Hk. unfold jsonDatabaseIsDeviceKnown. destruct (rp_dev _ _ Hr) as (m & -> & Hm).
  rewrite (km_contains_law _ _ _ Hm Hk). f_equal. apply bool_decide_ext. rewrite <-list_fmap_compose, !list_elem_of_fmap.
  split; intros (c & E & Hc); exists c; (split; [|done]); [by apply zkey_inj|by subst].
Qed.

End Queries.
End JsonDatabaseQuery.
