(* ===== verification/JsonDatabaseModel.v ===== *)
(** * The device database as its clients see it

    The abstract state is the list of devices, in no particular order.  A
    request and its answer relate two such lists ([step]); [allowed] says when
    a request is within what the database can do (new URIs, keys that fit,
    room).  [run] is the database's own operation for a request. *)

From S2P Require Import Prelude KeyMap Json DeviceModel DeviceJson DeviceJsonSpec Storage JsonDatabase.
From S2P Require Import JsonDatabaseSpec JsonDatabaseOps JsonDatabaseMemory JsonDatabaseDevices.
From S2P Require Import JsonDatabaseQuery JsonDatabaseMetadata.
Import KeyMap Json DeviceModel DeviceJson DeviceJsonSpec Storage JsonDatabase JsonDatabaseSpec JsonDatabaseOps
  JsonDatabaseMemory JsonDatabaseDevices JsonDatabaseQuery JsonDatabaseMetadata.

Module JsonDatabaseModel.

Inductive request :=
  | AddDevice (d : device)
  | RemoveDevice (uuid : cstring)
  | SaveResource (r : icDeviceResource)
  | UpdateDate (now : Z) (r : icDeviceResource)
  | SaveMetadata (m : icDeviceMetadata)
  | SaveEndpoint (e : endpoint)
  | GetDevices
  | GetDevicesByClass (class : cstring)
  | GetDevicesByDriver (driver : cstring)
  | GetDevicesByProfile (profile : cstring)
  | GetDevice (uuid : cstring)
  | GetDeviceByUri (uri : cstring)
  | IsKnown (uuid : cstring)
  | GetEndpoint (uri : cstring)
  | GetEndpointById (uuid endpointId : cstring)
  | GetResource (uri : cstring)
  | GetMetadata (uri : cstring).

Inductive answer :=
  | Done (ok : bool)
  | Devices (l : list device)
  | OneDevice (o : option device)
  | OneEndpoint (o : option endpoint)
  | OneResource (o : option icDeviceResource)
  | OneMetadata (o : option icDeviceMetadata).

Implicit Types (ds : list device).

(** ** The abstract database *)

Definition has_resource ds (uri : cstring) : Prop := ∃ d r, d ∈ ds ∧ r ∈ device_resources d ∧ r_uri r = Some uri.
Definition has_metadata ds (uri : cstring) : Prop := ∃ d m, d ∈ ds ∧ m ∈ device_metadata d ∧ m_uri m = Some uri.
Definition has_endpoint ds (uri : cstring) : Prop := ∃ d e, d ∈ ds ∧ e ∈ device_endpoints d ∧ e_uri e = Some uri.

(** The URI of the structure to save, usable as a key. *)
Definition saves (u : option cstring) : Prop := ∃ uri, u = Some uri ∧ key_ok (zkey uri).

Definition allowed ds (req : request) : Prop :=
  match req with
  | AddDevice d => ∃ uuid, admissible ds d uuid ∧ good_key uuid ∧ uuid ≠ SYSTEM_PROPERTIES_KEY
  | RemoveDevice uuid | GetDevice uuid | IsKnown uuid | GetEndpointById uuid _ => key_ok (zkey uuid)
  | SaveResource r | UpdateDate _ r => saves (r_uri r)
  | SaveMetadata m => saves (m_uri m) ∧ is_Some (m_value m) ∧ (m_uri m ∉ concat (device_uris <$> ds) → metadata_fits ds m)
  | SaveEndpoint e => saves (e_uri e) ∧ ∀ d e', d ∈ ds → e' ∈ device_endpoints d → e_uri e' = e_uri e →
      e_profileVersion e' = e_profileVersion e
  | GetDevices | GetDevicesByClass _ | GetDevicesByDriver _ | GetDevicesByProfile _ => True
  | GetDeviceByUri uri | GetEndpoint uri | GetResource uri | GetMetadata uri => key_ok (zkey uri)
  end.

(** [h] holds when the storage does not fail; then a request fails only for
    what it asks. *)
Implicit Types (h : Prop).

(** A part is changed where its URI is found; without one nothing happens.
    A change that could not be written is made nevertheless. *)
Definition changes h ds (found : Prop) (g : edit) (a : answer) ds' : Prop :=
  (found ∧ (∃ ok, a = Done ok ∧ (h → ok = true)) ∧ ds' = edit_device g <$> ds) ∨ (¬ found ∧ a = Done false ∧ ds' = ds).

(** A metadata with a new URI goes to its device. *)
Definition files h ds (m : icDeviceMetadata) (a : answer) ds' : Prop :=
  (m_deviceUuid m ∈ d_uuid <$> ds ∧ (∃ ok, a = Done ok ∧ (h → ok = true)) ∧ ds' = file_metadata m <$> ds) ∨
  (m_deviceUuid m ∉ d_uuid <$> ds ∧ a = Done false ∧ ds' = ds).

Definition uri_or_empty (u : option cstring) : cstring := default [] u.

Definition step h ds (req : request) (a : answer) ds' : Prop :=
  match req with
  | AddDevice d => (a = Done true ∧ ds' ≡ₚ d :: ds) ∨ (¬ h ∧ a = Done false ∧ ds' ≡ₚ ds)
  | RemoveDevice uuid =>
      (∃ d, a = Done true ∧ d_uuid d = Some uuid ∧ ds ≡ₚ d :: ds') ∨
      (a = Done false ∧ ds' = ds ∧ (h → ∀ d, d ∈ ds → d_uuid d ≠ Some uuid))
  | SaveResource r =>
      let uri := uri_or_empty (r_uri r) in
      changes h ds (has_resource ds uri) (on_resource uri (saved_resource r)) a ds'
  | UpdateDate now r =>
      let uri := uri_or_empty (r_uri r) in
      changes h ds (has_resource ds uri) (on_resource uri (synced_at now)) a ds'
  | SaveMetadata m =>
      let uri := uri_or_empty (m_uri m) in
      (Some uri ∈ concat (device_uris <$> ds) ∧ changes h ds (has_metadata ds uri) (on_metadata uri (saved_metadata m)) a ds') ∨
      (Some uri ∉ concat (device_uris <$> ds) ∧ files h ds m a ds')
  | SaveEndpoint e =>
      let uri := uri_or_empty (e_uri e) in
      changes h ds (has_endpoint ds uri) (on_endpoint uri (e_enabled e)) a ds'
  | GetDevices => a = Devices ds ∧ ds' = ds
  | GetDevicesByClass c => a = Devices (filter (λ d, d_deviceClass d = Some c) ds) ∧ ds' = ds
  | GetDevicesByDriver n => a = Devices (filter (λ d, d_managingDeviceDriver d = Some n) ds) ∧ ds' = ds
  | GetDevicesByProfile p =>
      a = Devices (filter (λ d, Exists (λ e, e_profile e = Some p) (device_endpoints d)) ds) ∧ ds' = ds
  | GetDevice uuid => (∃ o, a = OneDevice o ∧ ∀ d, o = Some d ↔ d ∈ ds ∧ d_uuid d = Some uuid) ∧ ds' = ds
  | GetDeviceByUri uri => (∃ o, a = OneDevice o ∧ ∀ d, o = Some d ↔ d ∈ ds ∧ Some uri ∈ device_uris d) ∧ ds' = ds
  | GetEndpoint uri =>
      (∃ o, a = OneEndpoint o ∧ ∀ e, o = Some e ↔ ∃ d, d ∈ ds ∧ e ∈ device_endpoints d ∧ Some uri ∈ ep_uris e) ∧ ds' = ds
  | IsKnown uuid => a = Done (bool_decide (Some uuid ∈ d_uuid <$> ds)) ∧ ds' = ds
  | GetEndpointById uuid i =>
      (∃ o, a = OneEndpoint o ∧
        match o with
        | Some e => e_id e = Some i ∧ ∃ d, d ∈ ds ∧ d_uuid d = Some uuid ∧ e ∈ device_endpoints d
        | None => ∀ d e, d ∈ ds → d_uuid d = Some uuid → e ∈ device_endpoints d → e_id e ≠ Some i
        end) ∧ ds' = ds
  | GetResource uri =>
      (∃ o, a = OneResource o ∧ ∀ r, o = Some r ↔ ∃ d, d ∈ ds ∧ r ∈ device_resources d ∧ r_uri r = Some uri) ∧ ds' = ds
  | GetMetadata uri =>
      (∃ o, a = OneMetadata o ∧ ∀ m, o = Some m ↔ ∃ d, d ∈ ds ∧ m ∈ device_metadata d ∧ m_uri m = Some uri) ∧ ds' = ds
  end.

(** A sequence of requests with their answers. *)
Inductive steps h : list device → list (request * answer) → list device → Prop :=
  | steps_nil ds : steps h ds [] ds
  | steps_cons ds req a ds1 tr ds2 : step h ds req a ds1 → steps h ds1 tr ds2 → steps h ds ((req, a) :: tr) ds2.

(** ** The database *)

Section Run.
Context {json : Type} `{JsonLaws json} `{ProtectLaws} `{Regex}.
Context {SM : Type} `{KeyMapLaws SM cstring}.
Context {DM : Type} `{KeyMapLaws DM addr}.
Context {UM : Type} `{KeyMapLaws UM Locator}.
Context {PM : Type} `{KeyMapLaws PM (option cstring)}.
Context {ST : Type} `{StoreLaws ST}.
Abbreviation state := (db DM UM PM ST).
Implicit Types (s : state) (c : cached) (cs : list cached).

Definition told {A} (mk : A → answer) (r : outcome (A * state)) : outcome (answer * state) := '(x, s) ← r; Ok (mk x, s).
Definition asked {A} (mk : A → answer) (r : outcome A) s : outcome (answer * state) := x ← r; Ok (mk x, s).

Definition run (req : request) s : outcome (answer * state) :=
  match req with
  | AddDevice d => told Done (jsonDatabaseAddDevice (json := json) (SM := SM) (Some d) s)
  | RemoveDevice uuid => told Done (jsonDatabaseRemoveDeviceById (Some uuid) s)
  | SaveResource r => told Done (jsonDatabaseSaveResource (json := json) (SM := SM) (Some r) s)
  | UpdateDate now r => told Done (jsonDatabaseUpdateDateOfLastSyncMillis now (Some r) s)
  | SaveMetadata m => told Done (jsonDatabaseSaveMetadata (json := json) (SM := SM) (Some m) s)
  | SaveEndpoint e => told Done (jsonDatabaseSaveEndpoint (json := json) (SM := SM) (Some e) s)
  | GetDevices => asked Devices (jsonDatabaseGetDevices s) s
  | GetDevicesByClass c => asked Devices (jsonDatabaseGetDevicesByDeviceClass (Some c) s) s
  | GetDevicesByDriver n => asked Devices (jsonDatabaseGetDevicesByDeviceDriver (Some n) s) s
  | GetDevicesByProfile p => asked Devices (jsonDatabaseGetDevicesByEndpointProfile (Some p) s) s
  | GetDevice uuid => asked OneDevice (jsonDatabaseGetDeviceById (Some uuid) s) s
  | GetDeviceByUri uri => asked OneDevice (jsonDatabaseGetDeviceByUri (Some uri) s) s
  | IsKnown uuid => asked Done (jsonDatabaseIsDeviceKnown (Some uuid) s) s
  | GetEndpoint uri => asked OneEndpoint (jsonDatabaseGetEndpointByUri (Some uri) s) s
  | GetEndpointById uuid i => asked OneEndpoint (jsonDatabaseGetEndpointById (Some uuid) (Some i) s) s
  | GetResource uri => asked OneResource (jsonDatabaseGetResourceByUri (Some uri) s) s
  | GetMetadata uri => asked OneMetadata (jsonDatabaseGetMetadataByUri (Some uri) s) s
  end.

(** A run of the database, each request allowed when it is made. *)
Inductive exec : state → list (request * answer) → state → Prop :=
  | exec_nil s : exec s [] s
  | exec_cons s ds req a s1 tr s2 : jsonDatabaseGetDevices s = Ok ds → allowed ds req → run req s = Ok (a, s1) →
      exec s1 tr s2 → exec s ((req, a) :: tr) s2.

(** *** Simulation, request by request *)

Definition simulated req s cs : Prop :=
  ∃ a s' cs', run req s = Ok (a, s') ∧ db_ok s' cs' ∧ step (st_healthy (store s)) (c_dev <$> cs) req a (c_dev <$> cs') ∧
    (st_healthy (store s) → st_healthy (store s')).

Lemma edited_devices g dirty cs : c_dev <$> (edit_cached g dirty <$> cs) = edit_device g <$> (c_dev <$> cs).
Proof. by rewrite <-!list_fmap_compose. Qed.

Lemma in_devices cs d : d ∈ c_dev <$> cs ↔ ∃ c, c ∈ cs ∧ d = c_dev c.
Proof. rewrite list_elem_of_fmap. naive_solver. Qed.

Lemma found_resource s cs uri : repr s cs → has_resource (c_dev <$> cs) uri ↔
  ∃ c ep a, c ∈ cs ∧ (uri, LocResource (c_entry c) ep a) ∈ c_idx c.
Proof.
  intros Hr. split.
  - intros (d & r & (c & Hc & ->)%in_devices & Hp). apply (dp_res _ _ _ _ (repr_parts s cs c Hr Hc)) in Hp as (ep & x & Hin & _). eauto.
  - intros (c & ep & a & Hc & Hin). destruct (resource_at s cs c uri ep a Hr Hc Hin) as (r & Ha & Hu).
    exists (c_dev c), r. split; [apply in_devices; eauto|]. apply (dp_res _ _ _ _ (repr_parts s cs c Hr Hc)). eauto.
Qed.

Lemma found_metadata s cs uri : repr s cs → has_metadata (c_dev <$> cs) uri ↔
  ∃ c ep a, c ∈ cs ∧ (uri, LocMetadata (c_entry c) ep a) ∈ c_idx c.
Proof.
  intros Hr. split.
  - intros (d & r & (c & Hc & ->)%in_devices & Hp). apply (dp_met _ _ _ _ (repr_parts s cs c Hr Hc)) in Hp as (ep & x & Hin & _). eauto.
  - intros (c & ep & a & Hc & Hin). destruct (metadata_at s cs c uri ep a Hr Hc Hin) as (r & Ha & Hu).
    exists (c_dev c), r. split; [apply in_devices; eauto|]. apply (dp_met _ _ _ _ (repr_parts s cs c Hr Hc)). eauto.
Qed.

(** What the index has for a URI: an entry of kind [K], or none of that kind. *)
Lemma located s cs uri (K : Locator → Prop) `{∀ l, Decision (K l)} : repr s cs → key_ok (zkey uri) →
  (∃ c l, c ∈ cs ∧ (uri, l) ∈ c_idx c ∧ K l ∧ points (heap s) (c_entry c) uri l) ∨
  (∃ o, map_get (resourcesByUri s) uri = Ok o ∧ (∀ l, o = Some l → ¬ K l) ∧
    (∀ c l, c ∈ cs → (uri, l) ∈ c_idx c → ¬ K l) ∧ (o = None → Some uri ∉ concat (device_uris <$> (c_dev <$> cs)))).
Proof.
  intros Hr Hk. destruct (get_uri s cs uri Hr Hk) as [(c & l & Hc & Hin & Hg)|[Hn Hg]].
  - destruct (decide (K l)) as [Hl|Hl]; [left; exists c, l; split_and!; try done; by eapply repr_points|].
    right. exists (Some l). split; [done|]. split; [by intros ? [= <-]|]. split; [|done]. intros c' l' Hc' Hin'.
    by destruct (cached_unique s cs _ _ uri _ _ Hr Hc Hc' Hin Hin') as [_ <-].
  - right. exists None. split; [done|]. split; [done|]. split.
    + intros c' l' Hc' Hin' _. apply Hn. apply list_elem_of_fmap. exists (uri, l'). split; [done|]. apply all_idx_elem. eauto.
    + intros _. rewrite <-(repr_uris s cs Hr). by intros (u & [= <-] & Hu)%list_elem_of_fmap.
Qed.

Definition is_resource (l : Locator) : Prop := match l with LocResource _ _ _ => True | _ => False end.
Definition is_metadata (l : Locator) : Prop := match l with LocMetadata _ _ _ => True | _ => False end.
Definition is_endpoint (l : Locator) : Prop := match l with LocEndpoint _ _ => True | _ => False end.
#[local] Instance is_resource_dec l : Decision (is_resource l).
Proof. destruct l; apply _. Defined.
#[local] Instance is_metadata_dec l : Decision (is_metadata l).
Proof. destruct l; apply _. Defined.
#[local] Instance is_endpoint_dec l : Decision (is_endpoint l).
Proof. destruct l; apply _. Defined.

Lemma changed req s cs ok s' g dirty found : run req s = Ok (Done ok, s') → db_ok s' (edit_cached g dirty <$> cs) → works s ok s' → found →
  (∀ a ds', changes (st_healthy (store s)) (c_dev <$> cs) found g a ds' → step (st_healthy (store s)) (c_dev <$> cs) req a ds') → simulated req s cs.
Proof.
  intros Hrun Hok Hw Hf Hst. eexists _, s', _. split; [done|]. split; [done|]. split; [|by intros Hh; apply Hw]. apply Hst. left.
  split; [done|]. split; [eexists; split; [done|by intros Hh; apply Hw]|]. apply edited_devices.
Qed.

Lemma unchanged req s cs g (found : Prop) : run req s = Ok (Done false, s) → db_ok s cs → (found → False) →
  (∀ a ds', changes (st_healthy (store s)) (c_dev <$> cs) found g a ds' → step (st_healthy (store s)) (c_dev <$> cs) req a ds') → simulated req s cs.
Proof. intros Hrun Hok Hn Hst. exists (Done false), s, cs. split; [done|]. split; [done|]. split; [|done]. apply Hst. by right. Qed.

Lemma sim_save_resource r s cs : db_ok s cs → allowed (c_dev <$> cs) (SaveResource r) → simulated (SaveResource r) s cs.
Proof.
  intros Hok (uri & Hu & Hk). pose proof (proj1 Hok) as Hr. pose proof (found_resource s cs uri Hr) as Hf.
  destruct (located s cs uri is_resource Hr Hk) as [(c & l & Hc & Hin & Hl & Hp)|(o & Hg & Hno & Hnone & _)].
  - destruct l as [| |ce ep b|]; try done. inversion Hp; subst.
    destruct (save_resource_spec s cs c uri ep b r Hok Hu Hc Hin) as (ok & s' & Hs & Hok' & _ & Hw).
    eapply (changed _ _ _ ok); [unfold run; by rewrite Hs|exact Hok'|exact Hw|apply (proj2 Hf); eauto|]. intros a ds' Hch. cbn [step]. rewrite Hu. exact Hch.
  - eapply unchanged; [|done|intros (c & ep & a & Hc & Hin)%(proj1 Hf); by apply (Hnone _ _ Hc Hin)|intros a ds' Hch; cbn [step]; rewrite Hu; exact Hch].
    unfold run, jsonDatabaseSaveResource. rewrite Hu, Hg. destruct o as [[]|]; try done. by destruct (Hno _ eq_refl).
Qed.

Lemma sim_update_date now r s cs : db_ok s cs → allowed (c_dev <$> cs) (UpdateDate now r) → simulated (UpdateDate now r) s cs.
Proof.
  intros Hok (uri & Hu & Hk). pose proof (proj1 Hok) as Hr. pose proof (found_resource s cs uri Hr) as Hf.
  destruct (located s cs uri is_resource Hr Hk) as [(c & l & Hc & Hin & Hl & Hp)|(o & Hg & Hno & Hnone & _)].
  - destruct l as [| |ce ep b|]; try done. inversion Hp; subst.
    destruct (update_date_spec s cs c uri ep b r now Hok Hu Hc Hin) as (s' & Hs & Hok' & Hw).
    eapply (changed _ _ _ true); [unfold run; by rewrite Hs|exact Hok'|exact Hw|apply (proj2 Hf); eauto|]. intros a ds' Hch. cbn [step]. rewrite Hu. exact Hch.
  - eapply unchanged; [|done|intros (c & ep & a & Hc & Hin)%(proj1 Hf); by apply (Hnone _ _ Hc Hin)|intros a ds' Hch; cbn [step]; rewrite Hu; exact Hch].
    unfold run, jsonDatabaseUpdateDateOfLastSyncMillis. rewrite Hu, Hg. destruct o as [[]|]; try done. by destruct (Hno _ eq_refl).
Qed.

Lemma uri_known s cs c uri l : repr s cs → c ∈ cs → (uri, l) ∈ c_idx c → Some uri ∈ concat (device_uris <$> (c_dev <$> cs)).
Proof.
  intros Hr Hc Hin. rewrite <-(repr_uris s cs Hr). apply list_elem_of_fmap_2, list_elem_of_fmap. exists (uri, l).
  split; [done|]. apply all_idx_elem. eauto.
Qed.

Lemma sim_new_metadata m s cs uri : db_ok s cs → m_uri m = Some uri → key_ok (zkey uri) →
  Some uri ∉ concat (device_uris <$> (c_dev <$> cs)) → metadata_fits (c_dev <$> cs) m → simulated (SaveMetadata m) s cs.
Proof.
  intros Hok Hu Hk Hn Hfit. pose proof (proj1 Hok) as Hr.
  destruct (new_metadata_spec s cs m uri Hok Hu Hk Hn Hfit) as [(c & ok & s' & cs' & Hc & Hmu & Hs & Hok' & Hd & Hw)|[Hno Hs]].
  - exists (Done ok), s', cs'. split; [unfold run; by rewrite Hs|]. split; [done|]. split; [|by intros Hh; apply Hw].
    cbn [step]. rewrite Hu. right. split; [done|]. left. split; [|split; [exists ok; split; [done|by intros Hh; apply Hw]|done]].
    rewrite Hmu, (repr_uuids s cs Hr). by apply list_elem_of_fmap_2, list_elem_of_fmap_2.
  - exists (Done false), s, cs. split; [unfold run; by rewrite Hs|]. split; [done|]. split; [|done]. cbn [step]. rewrite Hu.
    right. split; [done|]. by right.
Qed.

Lemma sim_save_metadata m s cs : db_ok s cs → allowed (c_dev <$> cs) (SaveMetadata m) → simulated (SaveMetadata m) s cs.
Proof.
  intros Hok ((uri & Hu & Hk) & [v Hv] & Hnew). pose proof (proj1 Hok) as Hr. pose proof (found_metadata s cs uri Hr) as Hf.
  rewrite Hu in Hnew.
  destruct (located s cs uri is_metadata Hr Hk) as [(c & l & Hc & Hin & Hl & Hp)|(o & Hg & Hno & Hnone & Hun)].
  - destruct l as [| | |ce ep b]; try done. inversion Hp; subst.
    destruct (save_metadata_spec s cs c uri ep b m v Hok Hu Hv Hc Hin) as (ok & s' & Hs & Hok' & Hw).
    eapply (changed _ _ _ ok); [unfold run; by rewrite Hs|exact Hok'|exact Hw|apply (proj2 Hf); eauto|].
    intros a ds' Hch. cbn [step]. rewrite Hu. left. split; [by eapply uri_known|exact Hch].
  - destruct (get_uri s cs uri Hr Hk) as [(c & l & Hc & Hin & Hg')|[Hn Hg']]; rewrite Hg' in Hg; injection Hg as <-.
    + eapply unchanged; [|done|intros (c' & ep & a & Hc' & Hin')%(proj1 Hf); by apply (Hnone _ _ Hc' Hin')|].
      * unfold run, jsonDatabaseSaveMetadata. rewrite Hu, Hg'. obind. specialize (Hno _ eq_refl). by destruct l.
      * intros a ds' Hch; cbn [step]; rewrite Hu. left. split; [by eapply uri_known|exact Hch].
    + apply (sim_new_metadata m s cs uri); auto.
Qed.

(** The endpoint with a URI, in memory and as a value. *)
Lemma endpoint_value s cs c uri a : repr s cs → c ∈ cs → (uri, LocEndpoint (c_entry c) a) ∈ c_idx c →
  ∃ e0 e, m_ep (heap s) !! a = Some e0 ∧ e ∈ device_endpoints (c_dev c) ∧ e_uri e = Some uri ∧
    e_profileVersion e0 = e_profileVersion e.
Proof.
  intros Hr Hc Hin. destruct (locator_read s cs c uri _ a Hr Hc Hin eq_refl) as (e & He & Hein & _).
  destruct (endpoint_at s cs c uri a Hr Hc Hin) as (e0 & He0 & Hu0). exists e0, e. split; [done|]. split; [done|].
  unfold read_endpoint in He. rewrite He0 in He. simpl in He. apply map_endpoint_Ok in He as (_ & _ & _ & Hu & _ & Hv & _).
  split; congruence.
Qed.

Lemma found_endpoint s cs uri : repr s cs → has_endpoint (c_dev <$> cs) uri ↔
  ∃ c a, c ∈ cs ∧ (uri, LocEndpoint (c_entry c) a) ∈ c_idx c.
Proof.
  intros Hr. split.
  - intros (d & e & (c & Hc & ->)%in_devices & He & Hu). destruct (rp_ok _ _ Hr c Hc) as [_ K2 K3 _ _ _ _].
    apply dev_index_Ok in K2 as (d & u0 & es & rs & ms & Hd & Hu0 & Hidx & Hes & _). unfold read_device in K3. rewrite Hd in K3.
    simpl in K3. apply map_device_Ok in K3 as (M1 & _). apply elems_read in M1.
    destruct (Forall2_elem_r _ _ _ _ M1 He) as (x & Hx & Hread). destruct (Forall2_elem_l _ _ _ _ Hes Hx) as (i & Hi & Hxi).
    exists c, x. split; [done|]. rewrite Hidx. right. apply elem_of_app. left. apply elem_of_concat. exists i. split; [done|].
    apply ep_index_Ok in Hxi as (e0 & u1 & r1 & m1 & He0 & Hu1 & -> & _). unfold read_endpoint in Hread. rewrite He0 in Hread.
    simpl in Hread. apply map_endpoint_Ok in Hread as (_ & _ & _ & Hu2 & _). assert (u1 = uri) as -> by congruence. by left.
  - intros (c & a & Hc & Hin). destruct (endpoint_value s cs c uri a Hr Hc Hin) as (e0 & e & _ & He & Hu & _).
    exists (c_dev c), e. split; [apply in_devices; eauto|done].
Qed.

Lemma sim_save_endpoint e s cs : db_ok s cs → allowed (c_dev <$> cs) (SaveEndpoint e) → simulated (SaveEndpoint e) s cs.
Proof.
  intros Hok ((uri & Hu & Hk) & Hver). pose proof (proj1 Hok) as Hr. pose proof (found_endpoint s cs uri Hr) as Hf.
  destruct (located s cs uri is_endpoint Hr Hk) as [(c & l & Hc & Hin & Hl & Hp)|(o & Hg & Hno & Hnone & _)].
  - destruct l as [|ce b| |]; try done. inversion Hp; subst.
    destruct (endpoint_value s cs c uri b Hr Hc Hin) as (x0 & e1 & He0 & He1 & Hu1 & Hv).
    destruct (save_endpoint_spec s cs c uri b x0 e Hok Hu Hc Hin He0) as (ok & s' & Hs & Hok' & Hw).
    { rewrite Hv. symmetry. apply (Hver (c_dev c)); [apply in_devices; eauto|done|congruence]. }
    eapply (changed _ _ _ ok); [unfold run; by rewrite Hs|exact Hok'|exact Hw|apply (proj2 Hf); eauto|]. intros a ds' Hch. cbn [step]. rewrite Hu. exact Hch.
  - eapply unchanged; [|done|intros (c & a & Hc & Hin)%(proj1 Hf); by apply (Hnone _ _ Hc Hin)|intros a ds' Hch; cbn [step]; rewrite Hu; exact Hch].
    unfold run, jsonDatabaseSaveEndpoint. rewrite Hu, Hg. destruct o as [[]|]; try done. by destruct (Hno _ eq_refl).
Qed.

Lemma sim_add d s cs : db_ok s cs → allowed (c_dev <$> cs) (AddDevice d) → simulated (AddDevice d) s cs.
Proof.
  intros Hok (uuid & Had & Hg & Hne). destruct (add_device_spec s cs d uuid Hok Had Hg Hne) as (ok & s' & cs' & Hs & Hok' & Hcs & _ & Hw).
  exists (Done ok), s', cs'. split; [unfold run; by rewrite Hs|]. split; [done|]. split; [|by intros Hh; apply Hw]. cbn [step].
  destruct ok; [left; split; [done|]|right; split; [by intros [? _]%Hw|split; [done|]]].
  - destruct Hcs as (c & Hp & _ & Hd & _). rewrite Hp. cbn [fmap list_fmap]. by rewrite Hd.
  - by rewrite Hcs.
Qed.

Lemma sim_remove uuid s cs : db_ok s cs → allowed (c_dev <$> cs) (RemoveDevice uuid) → simulated (RemoveDevice uuid) s cs.
Proof.
  intros Hok Hk. pose proof (proj1 Hok) as Hr. destruct (get_device s cs uuid Hr Hk) as [(c & Hc & <- & _)|[Hn _]].
  - destruct (remove_device_spec s cs c Hok Hc) as (ok & s' & cs' & Hs & Hok' & Hcs & _ & Hw). exists (Done ok), s', cs'.
    split; [unfold run; by rewrite Hs|]. split; [done|]. split; [|by intros Hh; apply Hw]. cbn [step].
    destruct ok; [left|right; subst; split_and!; [done|done|by intros [? _]%Hw]].
    exists (c_dev c). split; [done|]. split; [apply (rp_ok _ _ Hr c Hc)|]. by rewrite Hcs.
  - exists (Done false), s, cs. split; [unfold run; by rewrite (remove_unknown s cs uuid Hr Hk Hn)|]. split; [done|].
    split; [|done]. right. split_and!; [done|done|]. intros _ d (c & Hc & ->)%in_devices.
    rewrite (ck_uuid _ _ (rp_ok _ _ Hr c Hc)). intros [= <-]. by apply Hn, list_elem_of_fmap_2.
Qed.

(** *** Queries do not change anything *)

Lemma asks {A} req (mk : A → answer) (r : outcome A) x s cs : db_ok s cs → run req s = asked mk r s → r = Ok x →
  step (st_healthy (store s)) (c_dev <$> cs) req (mk x) (c_dev <$> cs) → simulated req s cs.
Proof. intros Hok Hrun Hr Hst. exists (mk x), s, cs. rewrite Hrun, Hr. done. Qed.

Lemma asks_one {A} req (mk : option A → answer) (r : outcome (option A)) (P Q : A → Prop) s cs : db_ok s cs →
  run req s = asked mk r s → answers r P → (∀ x, P x ↔ Q x) →
  (∀ o, (∀ x, o = Some x ↔ Q x) → step (st_healthy (store s)) (c_dev <$> cs) req (mk o) (c_dev <$> cs)) → simulated req s cs.
Proof.
  intros Hok Hrun (o & Hr & Ho) HPQ Hst. eapply asks; [done|exact Hrun|exact Hr|]. apply Hst. intros x. by rewrite Ho, HPQ.
Qed.

Lemma collected accept (P : device → Prop) `{∀ d, Decision (P d)} s cs : repr s cs → (∀ d, accept d = true ↔ P d) →
  collect_devices accept s = Ok (filter P (c_dev <$> cs)).
Proof. intros Hr Hiff. rewrite (collect_spec s cs accept Hr). f_equal. apply list_filter_iff. apply Hiff. Qed.

Lemma known_spec s cs uuid : repr s cs → key_ok (zkey uuid) →
  jsonDatabaseIsDeviceKnown (Some uuid) s = Ok (bool_decide (Some uuid ∈ d_uuid <$> (c_dev <$> cs))).
Proof.
  intros Hr Hk. unfold jsonDatabaseIsDeviceKnown. destruct (rp_dev _ _ Hr) as (m & -> & Hm). rewrite (km_contains_law _ _ _ Hm Hk).
  f_equal. apply bool_decide_ext. rewrite (repr_uuids s cs Hr), <-list_fmap_compose, !list_elem_of_fmap. split.
  - intros (c & Heq & Hc). apply zkey_inj in Heq as ->. exists (c_uuid c). split; [done|by apply list_elem_of_fmap_2].
  - intros (v & [= <-] & (c & -> & Hc)%list_elem_of_fmap). by exists c.
Qed.

Lemma endpoint_by_id_spec i (l : list endpoint) : (∀ e, e ∈ l → cloneable_endpoint e) →
  ∃ o, endpoint_by_id i l = Ok o ∧
    match o with Some e => e ∈ l ∧ e_id e = Some i | None => ∀ e, e ∈ l → e_id e ≠ Some i end.
Proof.
  induction l as [|e l IH]; intros Hc; cbn [endpoint_by_id]; [exists None; split; [done|by intros e ?%elem_of_nil]|].
  case_decide as E.
  - exists (Some e). rewrite endpointClone_eq by (apply Hc; by left). split; [done|]. by split; [left|].
  - destruct IH as (o & -> & Ho); [intros x Hx; apply Hc; by right|]. exists o. split; [done|].
    destruct o as [x|]; [by destruct Ho; split; [right|]|]. by intros x [->|Hx]%elem_of_cons; [|apply Ho].
Qed.

Lemma sim_endpoint_by_id s cs uuid i : db_ok s cs → key_ok (zkey uuid) → simulated (GetEndpointById uuid i) s cs.
Proof.
  intros Hok Hk. pose proof (proj1 Hok) as Hr.
  assert (∃ o, jsonDatabaseGetEndpointById (Some uuid) (Some i) s = Ok o ∧ step (st_healthy (store s)) (c_dev <$> cs) (GetEndpointById uuid i) (OneEndpoint o) (c_dev <$> cs)) as (o & Ho & Hst).
  2:{ exists (OneEndpoint o), s, cs. unfold run. rewrite Ho. done. }
  unfold jsonDatabaseGetEndpointById. oread. destruct (get_device s cs uuid Hr Hk) as [(c & Hc & <- & ->)|[Hn ->]]; obind.
  - rewrite (repr_device s cs c Hr Hc). obind. destruct (endpoint_by_id_spec i (elems (d_endpoints (c_dev c)))) as (o & -> & Ho).
    { apply (ck_clone _ _ (rp_ok _ _ Hr c Hc)). }
    exists o. split; [done|]. split; [|done]. exists o. split; [done|]. pose proof (ck_uuid _ _ (rp_ok _ _ Hr c Hc)) as Hu.
    destruct o as [e|]; [destruct Ho as [He Hi]; split; [done|]; exists (c_dev c); split; [apply in_devices; eauto|done]|].
    intros d e (c' & Hc' & ->)%in_devices Hd He. rewrite (ck_uuid _ _ (rp_ok _ _ Hr c' Hc')) in Hd. injection Hd as Hd.
    rewrite (repr_uuid_inj s cs c' c Hr Hc' Hc Hd) in He. by apply Ho.
  - exists None. split; [done|]. split; [|done]. exists None. split; [done|]. intros d e (c & Hc & ->)%in_devices Hd.
    rewrite (ck_uuid _ _ (rp_ok _ _ Hr c Hc)) in Hd. injection Hd as <-. destruct Hn. by apply list_elem_of_fmap_2.
Qed.

Lemma sim_query req s cs : db_ok s cs → allowed (c_dev <$> cs) req →
  match req with AddDevice _ | RemoveDevice _ | SaveResource _ | UpdateDate _ _ | SaveMetadata _ | SaveEndpoint _ => True
  | _ => simulated req s cs end.
Proof.
  intros Hok Hal. pose proof (proj1 Hok) as Hr. destruct req; try done; cbn [allowed] in Hal.
  - eapply asks; [done|done|by apply get_devices_spec|done].
  - eapply asks; [done|done|apply (collected _ (λ d, d_deviceClass d = Some class)); [done|]; intros; apply bool_decide_eq_true|done].
  - eapply asks; [done|done|apply (collected _ (λ d, d_managingDeviceDriver d = Some driver)); [done|]; intros; apply bool_decide_eq_true|done].
  - eapply asks; [done|done|apply (collected _ (λ d, Exists (λ e, e_profile e = Some profile) (device_endpoints d))); [done|]|done].
    intros d. rewrite existsb_exists, Exists_exists. unfold has_profile.
    split; intros (e & He & Hp); exists e; (split; [by apply list_elem_of_In|]); by apply bool_decide_eq_true in Hp || apply bool_decide_eq_true.
  - eapply asks_one; [done|done|by apply get_device_by_id_spec| |intros o Ho; split; [exists o; split; [done|exact Ho]|done]].
    intros d. cbv beta. rewrite in_devices. naive_solver.
  - eapply asks_one; [done|done|by apply get_device_by_uri_spec| |intros o Ho; split; [exists o; split; [done|exact Ho]|done]].
    intros d. cbv beta. rewrite in_devices. naive_solver.
  - eapply asks; [done|done|by apply known_spec|done].
  - eapply asks_one; [done|done|by apply get_endpoint_spec| |intros o Ho; split; [exists o; split; [done|exact Ho]|done]].
    intros e. split; [intros (c & Hc & He); exists (c_dev c); split; [apply in_devices; eauto|done]|intros (d & (c & Hc & ->)%in_devices & He); eauto].
  - by apply sim_endpoint_by_id.
  - eapply asks_one; [done|done|by apply get_resource_spec| |intros o Ho; split; [exists o; split; [done|exact Ho]|done]].
    intros e. split; [intros (c & Hc & He); exists (c_dev c); split; [apply in_devices; eauto|done]|intros (d & (c & Hc & ->)%in_devices & He); eauto].
  - eapply asks_one; [done|done|by apply get_metadata_spec| |intros o Ho; split; [exists o; split; [done|exact Ho]|done]].
    intros e. split; [intros (c & Hc & He); exists (c_dev c); split; [apply in_devices; eauto|done]|intros (d & (c & Hc & ->)%in_devices & He); eauto].
Qed.

Lemma simulation req s cs : db_ok s cs → allowed (c_dev <$> cs) req → simulated req s cs.
Proof.
  intros Hok Hal. pose proof (sim_query req s cs Hok Hal) as Hq. destruct req; try done;
    [by apply sim_add|by apply sim_remove|by apply sim_save_resource|by apply sim_update_date|by apply sim_save_metadata|by apply sim_save_endpoint].
Qed.

(** An abstract step of a storage that does not fail is one of any storage. *)
Lemma step_weaken h h' ds req a ds' : (h → h') → step h' ds req a ds' → step h ds req a ds'.
Proof. intros Hh. destruct req; cbn [step]; unfold changes, files; try tauto; naive_solver. Qed.

Lemma steps_weaken h h' ds tr ds' : (h → h') → steps h' ds tr ds' → steps h ds tr ds'.
Proof. intros Hh. induction 1; econstructor; [by apply (step_weaken h h')|done]. Qed.

Lemma exec_steps h s tr s' : exec s tr s' → ∀ cs, db_ok s cs → (h → st_healthy (store s)) →
  ∃ cs', db_ok s' cs' ∧ steps h (c_dev <$> cs) tr (c_dev <$> cs') ∧ (h → st_healthy (store s')).
Proof.
  induction 1 as [s|s ds req a s1 tr s2 Hds Hal Hrun Hex IH]; intros cs Hok Hh; [exists cs; split_and!; [done|constructor|done]|].
  rewrite (get_devices_spec s cs (proj1 Hok)) in Hds. injection Hds as <-.
  destruct (simulation req s cs Hok Hal) as (a' & s1' & cs1 & Hrun' & Hok1 & Hst & Hh1). rewrite Hrun in Hrun'. injection Hrun' as <- <-.
  destruct (IH cs1 Hok1) as (cs' & Hok' & Hsts & Hh'); [tauto|]. exists cs'. split_and!; [done| |done]. econstructor; [|done].
  by apply (step_weaken h (st_healthy (store s))).
Qed.

End Run.
End JsonDatabaseModel.
