(* ===== verification/JsonDatabaseInstance.v ===== *)
(** * A concrete environment for the device database

    One way to satisfy the interfaces the database is built on: JSON items are
    values with a name, printed as the bits of their code number, the maps are
    the hash maps of the library, the storage is the file system.  It shows
    that the laws the theorems assume hold together, and gives the states the
    examples start from. *)

From S2P Require Import Prelude KeyMap OwnedMap Json DeviceModel DeviceJson Storage StorageSpec JsonDatabase.
Import KeyMap OwnedMap Json DeviceModel DeviceJson Storage StorageSpec JsonDatabase.

Module JsonDatabaseInstance.

(** ** JSON values as code numbers *)

Abbreviation leaf := (bool + (Z * Z) + cstring)%type.

Fixpoint tree_of (j : jval) : gen_tree leaf :=
  match j with
  | JNull => GenNode 0 []
  | JBool b => GenLeaf (inl (inl b))
  | JNumber d => GenLeaf (inl (inr (d_mant d, d_exp d)))
  | JString s => GenLeaf (inr s)
  | JArray l => GenNode 1 (map tree_of l)
  | JObject l => GenNode 2 (map (λ m, GenNode 3 [GenLeaf (inr m.1); tree_of m.2]) l)
  end.

Fixpoint of_tree (t : gen_tree leaf) : jval :=
  match t with
  | GenLeaf (inl (inl b)) => JBool b
  | GenLeaf (inl (inr (m, e))) => JNumber (mkDouble m e)
  | GenLeaf (inr s) => JString s
  | GenNode 1 l => JArray (map of_tree l)
  | GenNode 2 l => JObject (map (λ t, match t with
                                      | GenNode 3 [GenLeaf (inr k); t] => (k, of_tree t)
                                      | _ => ([], JNull)
                                      end) l)
  | _ => JNull
  end.

Lemma of_tree_of j : of_tree (tree_of j) = j.
Proof.
  revert j. fix IH 1. intros [| | [m e] | | l | l]; simpl; try done; f_equal.
  - induction l as [|x l IHl]; simpl; [done|]. by rewrite IH, IHl.
  - induction l as [|[k x] l IHl]; simpl; [done|]. by rewrite IH, IHl.
Qed.

#[global] Instance jval_eq_dec : EqDecision jval.
Proof. refine (λ a b, cast_if (decide (tree_of a = tree_of b))); [|congruence]. by rewrite <-(of_tree_of a), <-(of_tree_of b), e. Defined.

#[global] Instance jval_countable : Countable jval := inj_countable' tree_of of_tree of_tree_of.

Fixpoint bits (p : positive) : cstring :=
  match p with xH => ["e"%char] | xO p => "0"%char :: bits p | xI p => "1"%char :: bits p end.

Fixpoint unbits (t : cstring) : option positive :=
  match t with
  | ["e"%char] => Some xH
  | "0"%char :: t => xO <$> unbits t
  | "1"%char :: t => xI <$> unbits t
  | _ => None
  end.

Lemma unbits_bits p : unbits (bits p) = Some p.
Proof. induction p as [p IH|p IH|]; simpl; [| |done]; by rewrite IH. Qed.

(** ** JSON items *)

Abbreviation item := (option cstring * jval)%type.

Definition members (j : item) : list (cstring * jval) := match j.2 with JObject ms => ms | _ => [] end.
Definition add_member (j : item) (k : cstring) (v : jval) : item :=
  match j.2 with JObject ms => (j.1, JObject (ms ++ [(k, v)])) | _ => j end.

Definition parse (t : cstring) : option item :=
  p ← unbits t ≫= decode; if decide (depth p ≤ CJSON_NESTING_LIMIT)%nat then Some (None, p) else None.

#[global] Instance item_json : Json item := {
  cJSON_CreateObject := (None, JObject []);
  cJSON_AddStringToObject o k s := add_member o k (from_option JString JNull s);
  cJSON_AddNumberToObject o k d := add_member o k (JNumber d);
  cJSON_AddBoolToObject o k b := add_member o k (JBool b);
  cJSON_AddItemToObject o k v := match k with Some k => add_member o k v.2 | None => o end;
  cJSON_GetObjectItem o k := (λ v, (Some k, v)) <$> member k (members o);
  cJSON_GetArraySize o := zlen (members o);
  cJSON_GetArrayItem o i := (λ m, (Some m.1, m.2)) <$> members o !! Z.to_nat i;
  cJSON_IsString j := match j.2 with JString _ => true | _ => false end;
  cJSON_IsNumber j := match j.2 with JNumber _ => true | _ => false end;
  cJSON_IsBool j := match j.2 with JBool _ => true | _ => false end;
  cJSON_IsTrue j := match j.2 with JBool b => b | _ => false end;
  cJSON_IsObject j := is_object j.2;
  cJSON_string j := j.1;
  cJSON_valuestring j := match j.2 with JString s => Some s | _ => None end;
  cJSON_valueint j := match j.2 with JNumber d => int_of_double d | _ => 0 end;
  cJSON_valuedouble j := match j.2 with JNumber d => d | _ => mkDouble 0 0 end;
  cJSON_Parse t := match t with Some t => parse t | None => None end;
  cJSON_Print j := Some (bits (encode j.2))
}.

#[global] Instance item_json_laws : JsonLaws item.
Proof.
  refine {| contents := snd |}; try done.
  1-6: try (by intros [n v] ms k x ?; simpl in *; subst).
  - intros [n v] ms k ?; simpl in *; subst. exists [(k, JNull)]. auto.
  - intros [n v] ms k ?; simpl in *; subst. unfold members. simpl. by destruct (member k ms).
  - intros [n v] ms ?; simpl in *; by subst.
  - intros [n v] ms i ? Hi; simpl in *; subst. unfold members. simpl. by destruct (ms !! Z.to_nat i).
  - intros [n v] s ?; simpl in *; by subst.
  - intros [n v] s ?; simpl in *; by subst.
  - intros t j. simpl. unfold parse. destruct (unbits t) as [p|]; simpl; [|done].
    destruct (decode p) as [x|]; simpl; [|done]. case_decide; [|done]. by intros [= <-].
  - intros j j' Hc. simpl in *. by rewrite Hc.
  - intros j. simpl. eexists. split; [done|]. by destruct (encode j.2).
  - intros j t Hd [= <-]. simpl. unfold parse. rewrite unbits_bits. simpl. rewrite decode_encode. simpl.
    rewrite decide_True by done. eauto.
Defined.

(** ** Protection, regular expressions *)

#[global] Instance prefix_protect : Protect := {
  simpleProtectConfigData _ v := (λ v, "#"%char :: v) <$> v;
  simpleUnprotectConfigData _ v := tail <$> v
}.

#[global] Instance prefix_protect_laws : ProtectLaws.
Proof. split; [done|]. by intros ns v e [= <-]. Qed.

#[global] Instance literal_regex : Regex := {
  regex_t := cstring; regcomp p := Some p; regexec r t := bool_decide (r = t)
}.

(** ** Maps and storage *)

Abbreviation strings := (owned hash_map cstring).
Abbreviation texts := (owned hash_map (option cstring)).
Abbreviation locators := (owned hash_map Locator).

#[global] Instance device_store : Store fs := fs_store (SM := texts) STORAGE_NAMESPACE.
#[global] Instance device_store_laws : StoreLaws fs := fs_store_laws (SM := texts) STORAGE_NAMESPACE.

Abbreviation database := (db hash_map locators texts fs).

End JsonDatabaseInstance.
