(* ===== verification/DeviceTheorems.v ===== *)
(** * Properties of the device model and of the storage

    Copies of devices, their JSON form, and the files they are kept in. *)

From S2P Require Import Prelude KeyMap OwnedMap Json DeviceModel DeviceJson DeviceJsonSpec Storage StorageSpec.
From S2P Require Import StorageCrash JsonDatabase JsonDatabaseSpec JsonDatabaseInstance.
Import KeyMap OwnedMap Json DeviceModel DeviceJson DeviceJsonSpec Storage StorageSpec StorageCrash JsonDatabase
  JsonDatabaseSpec JsonDatabaseInstance.

Module DeviceTheorems.

(** ** An example *)

Definition thermostat_temp : icDeviceResource :=
  mkResource (Some (str "temp")) (Some (str "/t1/r/temp")) None (Some (str "t1")) (Some (str "21")) (Some (str "int"))
    (1 + 128) 1 1500000000000.
Definition thermostat_mode : icDeviceResource :=
  mkResource (Some (str "mode")) (Some (str "/t1/ep/1/r/mode")) (Some (str "1")) (Some (str "t1")) (Some (str "heat"))
    (Some (str "string")) 65 1 0.
Definition thermostat_label : icDeviceMetadata :=
  mkMetadata (Some (str "label")) (Some (str "/t1/ep/1/m/label")) (Some (str "1")) (Some (str "t1")) (Some (str "hall")).
Definition thermostat_ep : endpoint :=
  mkEndpoint (Some (str "1")) (Some (str "/t1/ep/1")) (Some (str "thermostat")) 2 (Some (str "t1")) true
    (Some [thermostat_mode]) (Some [thermostat_label]).
Definition thermostat : device :=
  mkDevice (Some (str "t1")) (Some (str "thermostat")) 1 (Some (str "/t1")) (Some (str "zigbee"))
    (Some [thermostat_ep]) (Some [thermostat_temp]) (Some []).

(** ** Copies *)

#[local] Instance cloneable_endpoint_dec e : Decision (cloneable_endpoint e).
Proof. unfold cloneable_endpoint. apply _. Defined.

Lemma endpointClone_cases e : endpointClone (Some e) = if decide (cloneable_endpoint e) then Ok (Some e) else Fault.
Proof.
  case_decide as Hc; [by apply endpointClone_eq|]. unfold endpointClone.
  destruct (e_resources e) as [rs|] eqn:Hr; [|done].
  rewrite (deepClone_eq cloneResourceWithContext) by (intros; unfold cloneResourceWithContext; by rewrite resourceClone_eq).
  obind. destruct (e_metadata e) as [ms|] eqn:Hm; [|done]. destruct Hc. split; by eexists.
Qed.

Lemma deepClone_fault l : ¬ Forall cloneable_endpoint l → deepClone cloneEndpointWithContext (Some l) = Fault.
Proof.
  intros Hn. unfold deepClone. oread. enough (deepClone_items cloneEndpointWithContext l = Fault) as -> by done.
  induction l as [|e l IH]; [by destruct Hn|]. cbn [deepClone_items]. change (cloneEndpointWithContext e) with (endpointClone (Some e)).
  rewrite endpointClone_cases. case_decide as Hc; [|done]. obind. rewrite IH; [done|]. intros Hl. apply Hn. by constructor.
Qed.

(** Copying a device (deviceClone, with endpointClone, resourceClone,
    metadataClone and the list copies under it) gives an equal device exactly
    when no endpoint has a NULL list of resources or metadata; otherwise
    linkedListDeepClone reads through a NULL pointer. *)
Theorem deviceClone_equal_copy d :
  deviceClone (Some d) = if decide (Forall cloneable_endpoint (elems (d_endpoints d))) then Ok (Some d) else Fault.
Proof.
  case_decide as Hc.
  - apply deviceClone_eq. intros e. rewrite Forall_forall in Hc. apply Hc.
  - unfold deviceClone. destruct (d_endpoints d) as [es|]; [|by destruct Hc]. by rewrite deepClone_fault.
Qed.

(** ** Devices read from JSON *)

(** What the fields of a resource can hold, and that it names its device and
    endpoint. *)
Definition resource_typed (uuid ep : option cstring) (r : icDeviceResource) : Prop :=
  r_deviceUuid r = uuid ∧ r_endpointId r = ep ∧ 0 ≤ r_mode r < 256 ∧
  -2147483648 ≤ r_cachingPolicy r ≤ 2147483647 ∧ 0 ≤ r_dateOfLastSyncMillis r < 2 ^ 64.
Definition metadata_typed (uuid ep : option cstring) (m : icDeviceMetadata) : Prop :=
  m_deviceUuid m = uuid ∧ m_endpointId m = ep.
Definition endpoint_typed (uuid : option cstring) (e : endpoint) : Prop :=
  e_deviceUuid e = uuid ∧ 0 ≤ e_profileVersion e < 256 ∧
  (∃ rs, e_resources e = Some rs ∧ Forall (resource_typed uuid (e_id e)) rs) ∧
  (∃ ms, e_metadata e = Some ms ∧ Forall (metadata_typed uuid (e_id e)) ms).
Definition device_typed (d : device) : Prop :=
  0 ≤ d_deviceClassVersion d < 256 ∧
  (∃ es, d_endpoints d = Some es ∧ Forall (endpoint_typed (d_uuid d)) es) ∧
  (∃ rs, d_resources d = Some rs ∧ Forall (resource_typed (d_uuid d) None) rs) ∧
  (∃ ms, d_metadata d = Some ms ∧ Forall (metadata_typed (d_uuid d) None) ms).

Section Typed.
Context {json : Type} `{JsonLaws json} `{Protect} {SM : Type} `{KeyMap SM cstring}.
Implicit Types (context : option SM) (uuid ep : option cstring).

Lemma read_members_Forall {A} (o : json) (read : option json → outcome (option A)) (P : A → Prop) l :
  (∀ item x, read item = Ok (Some x) → P x) → read_members o read = Ok l → Forall P l.
Proof.
  intros Hp. unfold read_members. assert (Hgen : ∀ is_ acc, Forall P acc →
    foldM (λ i acc, let item := cJSON_GetArrayItem o i in x ← read item;
      match x with Some x => Ok (acc ++ [x]) | None => _ ← of_option item; Ok acc end) is_ acc = Ok l → Forall P l).
  { induction is_ as [|i is_ IH]; intros acc Ha; [by intros [= <-]|]. cbn [foldM].
    intros (acc' & Hx & Hl)%bind_Ok. apply (IH acc'); [|done]. apply bind_Ok in Hx as (x & Hx & Ho). destruct x as [x|].
    - injection Ho as <-. apply Forall_app. split; [done|]. constructor; [by eapply Hp|done].
    - apply bind_Ok in Ho as (_ & _ & [= <-]). done. }
  by apply Hgen.
Qed.

Lemma u8_range z : 0 ≤ u8 z < 256.
Proof. unfold u8. apply Z.mod_pos_bound. lia. Qed.

Lemma getCJSONInt_range (j : json) k d : -2147483648 ≤ d ≤ 2147483647 →
  -2147483648 ≤ (getCJSONInt j k d).2 ≤ 2147483647.
Proof.
  intros Hd. unfold getCJSONInt. destruct (cJSON_GetObjectItem j k) as [v|]; [|done]. rewrite is_number.
  destruct (contents v) as [| |x| | |] eqn:E; try done. simpl. rewrite (proj2 (number_value v x E)). unfold int_of_double. lia.
Qed.

Lemma resource_read_typed uuid ep item context r : resourceFromJSON uuid ep item context = Ok (Some r) → resource_typed uuid ep r.
Proof.
  destruct item as [j|]; [|done]. unfold resourceFromJSON.
  intros (u & Hu%of_option_Ok & (uri & _ & (id & _ & (rv & _ & (v & _ & (ty & _ & (date & Hdate & [= <-])%bind_Ok)%bind_Ok)%bind_Ok)%bind_Ok)%bind_Ok)%bind_Ok)%bind_Ok.
  unfold resource_typed. simpl. split; [done|]. split; [apply strdup_id|]. split; [apply u8_range|].
  split; [apply getCJSONInt_range; unfold CACHING_POLICY_NEVER; lia|]. unfold u64_of_double in Hdate. case_decide; [|done].
  by injection Hdate as <-.
Qed.

Lemma resources_read_typed uuid ep o context rs : resourcesFromJSON uuid ep o context = Ok rs →
  ∃ l, rs = Some l ∧ Forall (resource_typed uuid ep) l.
Proof.
  destruct o as [o|]; simpl; [|intros [= <-]; by exists []].
  intros (l & Hl & [= <-])%bind_Ok. exists l. split; [done|]. eapply read_members_Forall; [|exact Hl].
  intros item x. apply resource_read_typed.
Qed.

Lemma metadatas_read_typed uuid ep (o : option json) ms : metadatasFromJSON uuid ep o = Ok ms →
  ∃ l, ms = Some l ∧ Forall (metadata_typed uuid ep) l.
Proof.
  destruct o as [o|]; simpl; [|intros [= <-]; by exists []].
  intros (l & Hl & [= <-])%bind_Ok. exists l. split; [done|]. eapply read_members_Forall; [|exact Hl].
  intros [j|] x; [|done]. unfold metadataFromJSON.
  intros (id & _ & (v & _ & (uri & _ & (u & Hu%of_option_Ok & [= <-])%bind_Ok)%bind_Ok)%bind_Ok)%bind_Ok.
  split; [done|apply strdup_id].
Qed.

Lemma endpoints_read_typed uuid o context es : endpointsFromJSON uuid o context = Ok es →
  ∃ l, es = Some l ∧ Forall (endpoint_typed uuid) l.
Proof.
  destruct o as [o|]; simpl; [|intros [= <-]; by exists []].
  intros (l & Hl & [= <-])%bind_Ok. exists l. split; [done|]. eapply read_members_Forall; [|exact Hl].
  intros [j|] x; [|done]. unfold endpointFromJSON.
  intros (u & Hu%of_option_Ok & (id & _ & (uri & _ & (pr & _ & (rs & Hrs & (ms & Hms & [= <-])%bind_Ok)%bind_Ok)%bind_Ok)%bind_Ok)%bind_Ok)%bind_Ok.
  unfold endpoint_typed. simpl. split; [done|]. split; [apply u8_range|].
  split; [by eapply resources_read_typed|by eapply metadatas_read_typed].
Qed.

(** C32: whatever the JSON text of a device file holds, a device read from it
    is well formed: the versions and modes fit uint8_t, the caching policy an
    int and the date uint64_t, no list is NULL, every resource, metadata and
    endpoint carries the device's uuid, and those of an endpoint the
    endpoint's id; so it can be copied. *)
Theorem deviceFromJSON_typed (j : json) context d : deviceFromJSON j context = Ok d → device_typed d ∧ cloneable d.
Proof.
  unfold deviceFromJSON.
  intros (uri & _ & (uuid & _ & (drv & _ & (cls & _ & (es & Hes & (rs & Hrs & (ms & Hms & [= <-])%bind_Ok)%bind_Ok)%bind_Ok)%bind_Ok)%bind_Ok)%bind_Ok)%bind_Ok.
  destruct (endpoints_read_typed _ _ _ _ Hes) as (l & -> & Hl). split.
  - unfold device_typed. simpl. split; [apply u8_range|]. split; [eauto|].
    split; [by eapply resources_read_typed|by eapply metadatas_read_typed].
  - intros e He. simpl in He. rewrite Forall_forall in Hl. destruct (Hl e He) as (_ & _ & (? & Hr & _) & (? & Hm & _)).
    split; [rewrite Hr|rewrite Hm]; by eexists.
Qed.

End Typed.

(** ** The JSON form of devices *)

Section RoundTrip.
Context {json : Type} `{JsonLaws json} `{ProtectLaws} {SM : Type} `{KeyMapLaws SM cstring}.

(** C9: a device written as JSON (deviceToJSON), printed, parsed and read
    (deviceFromJSON) in the same namespace is the device it was, sensitive
    values included, when its fields fit their types, its lists are not NULL,
    every part names its device and endpoint, dates are at most 2^53,
    encryption of the sensitive values works, and metadata values that are
    JSON objects are printed the way cJSON prints them and nested at most 995
    deep. *)
Theorem device_json_roundtrip (context : option SM) ns d : in_namespace context ns → storable (json := json) ns d →
  ∃ (j : json) t j', deviceToJSON d context = Ok j ∧ cJSON_Print j = Some t ∧ cJSON_Parse (Some t) = Some j' ∧
    deviceFromJSON j' context = Ok d.
Proof.
  intros Hns Hs. destruct (device_reads_back context ns d Hns Hs) as (j & Hw & Hd & Hr).
  destruct (print_some j) as (t & Ht & _). destruct (parse_print j t Hd Ht) as (j' & Hp & Hc).
  exists j, t, j'. split; [done|]. split; [done|]. split; [done|]. by apply Hr.
Qed.

End RoundTrip.

Definition example_context : option strings :=
  match namespace_context with Ok c => c | _ => None end.

Definition empty_object : item := (None, JObject [(DEVICE_UUID_KEY, JString (str "t1"))]).

Lemma deviceFromJSON_typed_witness : ∃ d, deviceFromJSON empty_object example_context = Ok d ∧ device_typed d ∧ cloneable d.
Proof.
  eexists. split; [|apply (deviceFromJSON_typed empty_object example_context)]; vm_compute; reflexivity.
Defined.

Lemma thermostat_storable : storable (json := item) STORAGE_NAMESPACE thermostat.
Proof.
  split; [simpl; lia|]. exists (str "t1"), [thermostat_ep], [thermostat_temp], []. split_and!; try done.
  - intros e ->%list_elem_of_singleton. split; [by eexists|done|by vm_compute|..].
    + exists [thermostat_mode]. split; [done|]. intros r ->%list_elem_of_singleton.
      split; [by eexists|done|done|by vm_compute|by vm_compute|by vm_compute|by intros v Hs].
    + exists [thermostat_label]. split; [done|]. intros r ->%list_elem_of_singleton. split; [by eexists|done|done|].
      intros v Hv. vm_compute in Hv. discriminate Hv.
  - intros r ->%list_elem_of_singleton.
    split; [by eexists|done|done|by vm_compute|by vm_compute|by vm_compute|intros v _ [= <-]; by eexists].
  - by intros m ?%elem_of_nil.
Qed.

Lemma device_json_roundtrip_witness :
  storable (json := item) STORAGE_NAMESPACE thermostat ∧
  ∃ (j : item) t j', deviceToJSON thermostat example_context = Ok j ∧ cJSON_Print j = Some t ∧
    cJSON_Parse (Some t) = Some j' ∧ deviceFromJSON j' example_context = Ok thermostat.
Proof.
  split; [exact thermostat_storable|].
  apply (device_json_roundtrip example_context STORAGE_NAMESPACE); [|exact thermostat_storable].
  split; vm_compute; reflexivity.
Defined.

(** ** The storage *)

(** C10: while every key has its main file and renaming, unlinking and reading
    work, the files of a namespace implement a map from keys to texts
    (storage.c over backupUtils.c and fileUtils.c), also when creating and
    writing files fails at any point: storageLoad returns the text of a key,
    storageSave stores it (always, when no write fails) or fails and changes
    nothing, storageDelete removes it, and storageGetKeys lists exactly the
    keys, not the temporary files and not the backups beside their key's file.
    (A backup whose main file is missing counts as a key for storageGetKeys and
    storageLoad, [lone_backup_is_a_key]; the conditions leave it out, and a load
    ends it by putting the main file back.) *)
Theorem storage_refinement ns f m : fs_model ns f m →
  (∀ k, good_key k → storageLoad f (Some ns) (Some k) = Ok (bool_decide (is_Some (m !! k)), m !! k, f)) ∧
  (∀ k v, good_key k → v ≠ [] → let '(ok, f') := storageSave f (Some ns) (Some k) (Some v) in
     fs_model ns f' (if ok : bool then <[k := v]> m else m) ∧ (fs_wfaults f = [] → ok = true)) ∧
  (∀ k, good_key k → is_Some (m !! k) → let '(ok, f') := storageDelete f (Some ns) (Some k) in
     ok = true ∧ fs_model ns f' (delete k m)) ∧
  (Z.of_nat (size m) ≤ 65535 →
     ∃ l, storageGetKeys (SM := texts) f (Some ns) = Ok l ∧ default [] l ≡ₚ elements (dom m)).
Proof.
  intros Hm. split; [intros k; by apply load_spec|]. split; [|split; [|by apply keys_spec]].
  - intros k v Hk Hv. pose proof (save_spec ns f m k v Hm Hk Hv) as Hs. pose proof (save_works ns f k v) as Hw.
    destruct (storageSave f (Some ns) (Some k) (Some v)). split; [done|]. intros Hf. by apply Hw.
  - intros k Hk Hs. pose proof (storage_delete_spec ns f m k Hm Hk Hs) as Hd. by destruct (storageDelete f (Some ns) (Some k)).
Qed.

(** A namespace with one key, and writes that fail after some bytes. *)
Definition one_file : fs := mkFs {[str "devicedb" := {[str "t1" := str "old"]}]} [None; None; Some 2%nat] [] [].

Lemma one_file_model : fs_model (str "devicedb") one_file {[str "t1" := str "old"]}.
Proof.
  assert (Hg : good_key (str "t1")) by (apply (bool_decide_unpack _); vm_compute; exact I).
  split; [done|..].
  - intros k _. unfold file, one_file. simpl. by rewrite lookup_singleton_eq.
  - intros k Hk Hn. unfold file, one_file. simpl. rewrite lookup_singleton_eq. apply lookup_singleton_ne.
    intros E. by apply (good_not_suffixed (str "t1") k (str ".bak")); auto with storage.
  - intros name t. unfold file, one_file. simpl. rewrite lookup_singleton_eq. intros [<- <-]%lookup_singleton_Some.
    pose proof Hg as ((_ & Hnn & _) & _). split; [done|]. split; [by vm_compute|]. split; [done|]. intros k Hk E.
    assert (Hr : regular (str "t1")) by (apply (bool_decide_unpack _); vm_compute; exact I).
    change (str "t1" = k ++ str ".bak") in E. rewrite E in Hr. by apply (regular_suffixed k (str ".bak") Hk bak_suffix) in Hr.
  - intros k v [<- <-]%lookup_singleton_Some. split; [done|by vm_compute].
Qed.

Lemma storage_refinement_witness :
  fs_model (str "devicedb") one_file {[str "t1" := str "old"]} ∧
  storageLoad one_file (Some (str "devicedb")) (Some (str "t1")) = Ok (true, Some (str "old"), one_file).
Proof.
  split; [exact one_file_model|].
  refine (proj1 (storage_refinement (str "devicedb") one_file _ one_file_model) (str "t1") _).
  apply (bool_decide_unpack _). vm_compute. exact I.
Defined.

(** C7: a loss of power during storageSave loses nothing, when every key had
    its main file before the save and renaming, unlinking and reading work: in
    every state of the directories between two system calls of the save, with
    writes that fail or not, the next storageLoad finds the old or the new
    text of the key, and leaves the key with its main file, so that the next
    save is as safe; and a storageLoad finds the texts of all other keys.
    (Without that load the next save would first remove the only copy,
    [save_over_lone_backup].) *)
Theorem storageSave_power_loss ns f m k v : fs_model ns f m → good_key k → v ≠ [] → fs_past f = [] →
  let f' := (storageSave f (Some ns) (Some k) (Some v)).2 in
  ∀ ds, ds ∈ fs_dirs f' :: fs_past f' →
    (∃ o g, storageLoad (restarted ds) (Some ns) (Some k) = Ok (bool_decide (is_Some o), o, g) ∧ (o = m !! k ∨ o = Some v) ∧
       fs_model ns g (partial_alter (λ _, o) k m)) ∧
    (∀ k', good_key k' → k' ≠ k → ∃ g, storageLoad (restarted ds) (Some ns) (Some k') =
       Ok (bool_decide (is_Some (m !! k')), m !! k', g)).
Proof.
  intros Hm Hk Hv Hpast f' ds Hds. pose proof (save_history ns f m k v Hm Hk Hv Hpast) as Hh.
  unfold history in Hh. rewrite Forall_forall in Hh. apply (midway_load ns m k v); [done|apply (fm_good _ _ _ Hm)|done|done|by apply Hh].
Qed.

(** The state after a power loss between the two renames of a save. *)
Definition lone_backup : fs := mkFs {[str "devicedb" := {[str "t1.bak" := str "old"]}]} [] [] [].

Example lone_backup_is_a_key : storageGetKeys (SM := texts) lone_backup (Some (str "devicedb")) = Ok (Some [str "t1"]).
Proof. vm_compute. reflexivity. Qed.

(** A save in that state, without a load before it, removes the backup before
    it renames the new file: a second power loss there loses the old and the
    new text. *)
Example save_over_lone_backup :
  let f' := (storageSave lone_backup (Some (str "devicedb")) (Some (str "t1")) (Some (str "new"))).2 in
  ∃ ds, ds ∈ fs_past f' ∧ storageLoad (restarted ds) (Some (str "devicedb")) (Some (str "t1")) = Ok (false, None, restarted ds).
Proof. eexists. split; [apply list_elem_of_lookup; exists 0%nat; reflexivity|]. vm_compute. reflexivity. Qed.

Lemma storageSave_power_loss_witness :
  let f' := (storageSave one_file (Some (str "devicedb")) (Some (str "t1")) (Some (str "new"))).2 in
  length (fs_past f') = 3%nat ∧
  ∀ ds, ds ∈ fs_dirs f' :: fs_past f' →
    ∃ o g, storageLoad (restarted ds) (Some (str "devicedb")) (Some (str "t1")) = Ok (bool_decide (is_Some o), o, g) ∧
      (o = Some (str "old") ∨ o = Some (str "new")).
Proof.
  split; [vm_compute; reflexivity|]. intros ds Hds.
  destruct (proj1 (storageSave_power_loss (str "devicedb") one_file _ (str "t1") (str "new") one_file_model ltac:(apply (bool_decide_unpack _); vm_compute; exact I)
    ltac:(discriminate) eq_refl ds Hds)) as (o & g & Hl & Ho & _).
  exists o, g. split; [exact Hl|exact Ho].
Defined.

(** When the copy of the backup over a missing file is cut off after [n]
    bytes, the load that made the copy still returns the whole text, but the
    next one takes the truncated file for good: chooseFileToRead only asks
    whether the file is empty, and storageLoad accepts any text. *)
Theorem interrupted_recovery_truncates ns k t n : good_key k → (0 < n)%nat → t ≠ [] →
  let f := mkFs {[ns := {[k ++ str ".bak" := t]}]} [] [None; None; None; Some n] [] in
  ∃ f1, storageLoad f (Some ns) (Some k) = Ok (true, Some t, f1) ∧
    storageLoad f1 (Some ns) (Some k) = Ok (true, Some (take n t), f1).
Proof.
  intros Hk Hn Ht f. assert (Hne : k ++ str ".bak" ≠ k) by (apply good_ne_suffixed; auto with storage).
  assert (Hlen : 0 < zlen (take n t)) by (destruct t, n; simpl; try done; lia).
  assert (Hlen' : 0 < zlen t) by (destruct t; simpl; [done|lia]).
  assert (Hno : ({[k ++ str ".bak" := t]} : dir) !! k = None) by (by apply lookup_singleton_ne).
  pose (f1 := mkFs {[ns := <[k := take n t]> (<[k := []]> {[k ++ str ".bak" := t]})]} [] []
    [ {[ns := <[k := []]> {[k ++ str ".bak" := t]}]} ; {[ns := {[k ++ str ".bak" := t]}]} ]).
  exists f1. split.
  - unfold storageLoad, loadInternalLocked, chooseFileToRead, has_content, readFileContents, copyFileByPath, copyFile, rfault, file, set_file, set_dirs.
    unfold f. cbn [getFilepaths p_main p_backup fs_dirs fs_rfaults fs_wfaults fs_past].
    rewrite lookup_singleton_eq, Hno, lookup_singleton_eq, bool_decide_eq_true_2 by done. obind.
    cbn [fs_dirs fs_rfaults fs_wfaults fs_past]. rewrite lookup_singleton_eq, lookup_singleton_eq. unfold parseAny.
    rewrite (bool_decide_eq_true_2 (is_Some (Some t))) by (by eexists). obind.
    cbn [fs_dirs fs_rfaults fs_wfaults fs_past snd]. rewrite lookup_insert_eq.
    cbn [fs_dirs fs_rfaults fs_wfaults fs_past snd]. rewrite !insert_singleton_eq. done.
  - unfold storageLoad, loadInternalLocked, chooseFileToRead, has_content, readFileContents, rfault, file.
    unfold f1. cbn [getFilepaths p_main p_backup fs_dirs fs_rfaults fs_wfaults fs_past].
    rewrite lookup_singleton_eq, lookup_insert_eq, bool_decide_eq_true_2 by done. obind. unfold parseAny.
    rewrite bool_decide_eq_true_2 by (by eexists). done.
Qed.

Lemma interrupted_recovery_truncates_witness :
  let f := mkFs {[str "devicedb" := {[str "t1" ++ str ".bak" := str "0123456789"]}]} [] [None; None; None; Some 4%nat] [] in
  ∃ f1, storageLoad f (Some (str "devicedb")) (Some (str "t1")) = Ok (true, Some (str "0123456789"), f1) ∧
    storageLoad f1 (Some (str "devicedb")) (Some (str "t1")) = Ok (true, Some (str "0123"), f1).
Proof.
  apply (interrupted_recovery_truncates (str "devicedb") (str "t1") (str "0123456789") 4).
  - apply (bool_decide_unpack _). vm_compute. exact I.
  - lia.
  - discriminate.
Defined.

(** A restore from a directory with an empty file (a backup may hold one, for
    example a temporary file of an interrupted save) fails when it comes to
    that file, since copyFile reports an empty file as not copied; by then the
    namespace was deleted, so every text that is not in the directory is lost. *)
Theorem restore_fails_at_empty_file (ns : cstring) (f : fs) (m r : dir) (n : cstring) : fs_model ns f m → fs_wfaults f = [] → r !! n = Some [] →
  ∃ f', storageRestoreNamespace f ns (Some r) = (false, f') ∧ ∀ k, r !! k = None → file f' ns k = None.
Proof.
  intros Hm Hw Hn. destruct (restore_start ns f r (fm_faults _ _ _ Hm) Hw) as (f1 & -> & B1). destruct (dir_names r) as [_ Hin].
  destruct (copy_stops ns r (map_to_list r).*1 f1 ∅) as (f' & d & -> & B2 & Hd).
  - rewrite (bc_rfaults _ _ _ _ B1). apply Hm.
  - apply B1.
  - intros i. by apply Hin.
  - apply Exists_exists. exists n. split; [apply Hin; eauto|done].
  - exists f'. split; [done|]. intros k Hk. unfold file. rewrite (bc_dir _ _ _ _ B2), Hd; [apply lookup_empty|].
    intros [t Ht]%Hin. congruence.
Qed.

End DeviceTheorems.
