(* ===== verification/JsonDatabaseTheorems.v ===== *)
(** * Properties of the device database *)

From S2P Require Import Prelude KeyMap OwnedMap Json DeviceModel DeviceJson DeviceJsonSpec Storage StorageSpec.
From S2P Require Import JsonDatabase JsonDatabaseSpec JsonDatabaseOps JsonDatabaseMemory JsonDatabaseDevices.
From S2P Require Import JsonDatabaseMetadata JsonDatabaseRestart JsonDatabaseQuery JsonDatabaseModel.
From S2P Require Import JsonDatabaseInstance DeviceTheorems.
Import KeyMap OwnedMap Json DeviceModel DeviceJson DeviceJsonSpec Storage StorageSpec JsonDatabase JsonDatabaseSpec
  JsonDatabaseOps JsonDatabaseMemory JsonDatabaseDevices JsonDatabaseGrow JsonDatabaseRestart JsonDatabaseQuery
  JsonDatabaseModel JsonDatabaseInstance DeviceTheorems.

Module JsonDatabaseTheorems.

Section Database.
Context {json : Type} `{JsonLaws json} `{ProtectLaws} `{Regex}.
Context {SM : Type} `{KeyMapLaws SM cstring}.
Context {DM : Type} `{KeyMapLaws DM addr}.
Context {UM : Type} `{KeyMapLaws UM Locator}.
Context {PM : Type} `{KeyMapLaws PM (option cstring)}.
Context {ST : Type} `{StoreLaws ST}.
Abbreviation state := (db DM UM PM ST).
Implicit Types (s : state) (c : cached) (cs : list cached) (ps : list (cstring * cstring)).

(** C3: the device database (jsonDatabase.c: cache of devices in memory, index
    of every part by URI, a file per device) implements the abstract one, a
    set of devices.  In a consistent state every allowed request (adding,
    removing, saving resources, metadata and endpoints, the queries by uuid,
    class, driver, profile and URI) returns, and after any sequence of allowed
    requests the database is consistent again and has answered as the abstract
    database does: no part is lost or duplicated, each URI leads to the part
    that has it, and a failed write to the storage leaves the device marked
    dirty (or, for adding and removing, nothing changed).  Where the storage
    does not fail, every request that names a known part succeeds. *)
Theorem database_refinement s cs : db_ok (json := json) (SM := SM) s cs →
  (∀ req, allowed (c_dev <$> cs) req → ∃ a s', run (json := json) (SM := SM) req s = Ok (a, s')) ∧
  (∀ tr s', exec (json := json) (SM := SM) s tr s' →
    ∃ cs', db_ok (json := json) (SM := SM) s' cs' ∧ steps (st_healthy (store s)) (c_dev <$> cs) tr (c_dev <$> cs')).
Proof.
  intros Hok. split.
  - intros req Hal. destruct (simulation req s cs Hok Hal) as (a & s' & cs' & Hrun & _). eauto.
  - intros tr s' Hex. destruct (exec_steps (st_healthy (store s)) s tr s' Hex cs Hok id) as (cs' & Hok' & Hst & _). eauto.
Qed.

(** C6: shutdown and start keep the devices: jsonDatabaseCleanup writes every
    device marked dirty and the system properties and releases all memory, and
    a write that fails leaves the old file.  When every device file is up to
    date, jsonDatabaseInitialize of a new process brings back exactly the
    devices that were cached, consistent with their files, and the system
    properties that are on file.  Where the storage does not fail, every device
    file is up to date and the properties on file are the ones of the database.
    This is so for devices that the JSON round trip keeps: dates are at
    most 2^53, encryption of the sensitive values works, and metadata values
    that are JSON objects are written the way cJSON prints them (a compact
    object would come back printed anew). *)
Theorem database_restart s cs ps files ps0 : repr s cs → filed (json := json) (SM := SM) None s cs files →
  props_in (systemProperties s) ps → props_file (json := json) files ps0 →
  Forall prop_ok ps0 → NoDup ps0.*1 → zlen ps0 ≤ 65535 →
  (∀ c, c ∈ cs → storable (json := json) STORAGE_NAMESPACE (c_dev c)) → zlen cs < 65535 →
  ∃ s1 files1, jsonDatabaseCleanup (json := json) (SM := SM) true s = Ok s1 ∧ st_model (store s1) files1 ∧
    (∀ c, c ∈ cs → flushed (json := json) (SM := SM) files files1 c) ∧
    ((∀ c, c ∈ cs → files1 !! c_uuid c = device_text (json := json) (SM := SM) (c_dev c)) →
     ∃ s2 cs2 ps2, jsonDatabaseInitialize (json := json) (SM := SM) (new_process (store s1) : state) = Ok (true, s2) ∧
       db_ok (json := json) (SM := SM) s2 cs2 ∧ c_dev <$> cs2 ≡ₚ c_dev <$> cs ∧
       props_in (systemProperties s2) ps2 ∧ (ps2 = ps ∨ ps2 = ps0 ∧ ¬ st_healthy (store s))) ∧
    (st_healthy (store s) → ∀ c, c ∈ cs → files1 !! c_uuid c = device_text (json := json) (SM := SM) (c_dev c)).
Proof.
  intros Hr Hf Hps Hpf Pok0 Pnd0 Plen0 Hst Hlen.
  destruct (db_cleanup_spec s cs ps files ps0 Hr Hf Hps Hpf) as (s1 & files1 & Hcl & _ & _ & _ & Hm & Hfl & Hprops & Hdom & Hw).
  exists s1, files1. split; [done|]. split; [done|]. split; [done|]. split; [|by intros Hh; apply Hw]. intros Hup.
  assert (∃ ps2, props_file (json := json) files1 ps2 ∧ (ps2 = ps ∨ ps2 = ps0 ∧ ¬ st_healthy (store s)) ∧ Forall prop_ok ps2 ∧ NoDup ps2.*1 ∧ zlen ps2 ≤ 65535)
    as (ps2 & Hpf2 & Hor & Pok & Pnd & Plen).
  { destruct Hprops as [Hp|[Hp Hnh]]; [exists ps|exists ps0]; (split; [done|]); (split; [auto|]).
    - split; [apply Hps|by eapply props_nodup].
    - done. }
  destruct (open_spec (new_process (store s1)) s cs files1 ps2 (new_process_shut _) Hr Hm Hpf2 Pok Pnd Plen Hlen) as (s2 & cs2 & Hi & Hok & Hp & Hps2); [|done|].
  - intros c Hc. destruct (so_keys _ _ _ _ Hf c Hc). split; [done|]. split; [done|]. split; [by apply Hst|by apply Hup].
  - exists s2, cs2, ps2. done.
Qed.

(** JsonDatabaseAddEndpoint adds the endpoint, whose URIs are new, to its
    device and to the index and writes the device; the other devices stay as
    they are.  When it returns true, as it does where the storage does not fail,
    the file is up to date as well; when the write fails it returns false and
    the cache has the endpoint nevertheless. *)
Theorem addEndpoint_adds s cs c e : db_ok (json := json) (SM := SM) s cs → c ∈ cs → e_deviceUuid e = Some (c_uuid c) →
  endpoint_fits (c_dev <$> cs) e → is_Some (d_endpoints (c_dev c)) →
  ∃ ok s' cs', jsonDatabaseAddEndpoint (json := json) (SM := SM) (Some e) s = Ok (ok, s') ∧ repr s' cs' ∧
    c_dev <$> cs' = (λ d, if decide (d_uuid d = e_deviceUuid e) then add_endpoint_to d e else d) <$> (c_dev <$> cs) ∧
    (ok = true → db_ok (json := json) (SM := SM) s' cs') ∧ (st_healthy (store s) → ok = true).
Proof.
  intros Hok Hc Hu Hfit Hes. pose proof (proj1 Hok) as Hr.
  destruct (add_endpoint_spec s cs c e Hok Hc Hu Hfit Hes) as (ok & s' & c2 & Hs & Hr' & Hd & _ & _ & _ & Hok' & _ & Hw).
  exists ok, s', (swap c c2 <$> cs). split; [done|]. split; [done|]. split; [|by split; [|intros Hh; apply Hw]].
  rewrite <-!list_fmap_compose. apply list_fmap_ext. intros i x Hx%list_elem_of_lookup_2. unfold compose, swap.
  rewrite (ck_uuid _ _ (rp_ok _ _ Hr x Hx)), Hu. destruct (decide (c_entry x = c_entry c)) as [E|E].
  - rewrite (repr_entries_inj s cs x c Hr Hx Hc E). by rewrite decide_True.
  - rewrite decide_False; [done|]. intros [= Eu]. apply E. by rewrite (repr_uuid_inj s cs x c Hr Hx Hc Eu).
Qed.

(** Without the file of the system properties the database starts empty:
    jsonDatabaseInitialize reports success and knows no device, whatever device
    files the storage holds. *)
Theorem missing_properties_hide_devices (st : ST) files : st_model st files → files !! SYSTEM_PROPERTIES_KEY = None →
  ∃ s, jsonDatabaseInitialize (json := json) (SM := SM) (new_process st : state) = Ok (true, s) ∧
    jsonDatabaseGetDevices s = Ok [] ∧
    (∀ uuid, key_ok (zkey uuid) → jsonDatabaseIsDeviceKnown (Some uuid) s = Ok false).
Proof.
  intros Hst Hn. unfold jsonDatabaseInitialize, jsonDatabaseInitializeNoLock, loadSystemProperties.
  cbn [systemProperties new_process store with_props]. destruct (load_law st files _ Hst sys_key_good) as (st1 & -> & Hst1).
  rewrite Hn. obind. rewrite bool_decide_eq_false_2 by (by intros [? ?]). obind. unfold jsonDatabaseSetSystemPropertyNoLock.
  cbn [systemProperties with_uris with_devices with_store with_props]. unfold map_delete, map_put.
  assert (Hk : key_ok (zkey JSON_DATABASE_SCHEMA_VERSION_KEY)) by (vm_compute; discriminate).
  rewrite (km_delete_absent (km_create : PM) [] _ km_create_law Hk) by apply not_elem_of_nil. obind.
  destruct (km_put_new (km_create : PM) [] (zkey JSON_DATABASE_SCHEMA_VERSION_KEY) (Some JSON_DATABASE_CURRENT_SCHEMA_VERSION) km_create_law Hk)
    as (pm & es & -> & Hpm & Hp); [apply not_elem_of_nil|done|]. obind.
  set (s1 := with_props _ _). assert (Hr1 : repr s1 []).
  { split; [| |by intros ? ?%elem_of_nil|split; simpl; by intros a x ?%lookup_empty_Some].
    - exists km_create. split; [done|apply km_create_law].
    - exists km_create, []. split; [done|]. split; [apply km_create_law|done]. }
  destruct (save_props_spec (json := json) s1 [(JSON_DATABASE_SCHEMA_VERSION_KEY, JSON_DATABASE_CURRENT_SCHEMA_VERSION)] files)
    as (ok & st2 & files2 & -> & _); [|done|].
  { split; [by exists pm, es|]. constructor; [|done]. split; [done|]. apply (bool_decide_unpack _). vm_compute. exact I. }
  obind. exists (with_store s1 st2). pose proof (repr_store s1 [] st2 Hr1) as Hr2. split; [done|].
  split; [by rewrite (get_devices_spec _ [] Hr2)|]. intros uuid Hku. by rewrite (is_known_spec _ [] uuid Hr2 Hku).
Qed.

(** C39: JsonDatabaseRestore replaces the database by a backup.  When the
    directory restores the files of a database that were up to date, and the
    storage does not fail, the database then holds exactly the devices and the
    system properties of that database, whatever it held before (changes that
    were not written are dropped).  When the restore of the storage fails, it
    returns false and the database stays closed: no device is known. *)
Theorem database_restore s cs : db_ok (json := json) (SM := SM) s cs →
  (∀ r files s0 cs0 ps, st_healthy (store s) → st_backup r files → repr (ST := ST) s0 cs0 →
    filed (json := json) (SM := SM) None s0 cs0 files →
    (∀ c, c ∈ cs0 → storable (json := json) STORAGE_NAMESPACE (c_dev c) ∧
      files !! c_uuid c = device_text (json := json) (SM := SM) (c_dev c)) → zlen cs0 < 65535 →
    props_file (json := json) files ps → Forall prop_ok ps → NoDup ps.*1 → zlen ps ≤ 65535 →
    ∃ s' cs', jsonDatabaseRestore (json := json) (SM := SM) (Some r) s = Ok (true, s') ∧
      db_ok (json := json) (SM := SM) s' cs' ∧ c_dev <$> cs' ≡ₚ c_dev <$> cs0 ∧ props_in (systemProperties s') ps) ∧
  (∀ restored, (st_restore (store s) restored).1 = false →
    ∃ s', jsonDatabaseRestore (json := json) (SM := SM) restored s = Ok (false, s') ∧ jsonDatabaseGetDevices s' = Ok [] ∧
      ∀ uuid, jsonDatabaseIsDeviceKnown uuid s' = Ok false).
Proof.
  intros [Hr (m & Hf)]. destruct (discard_spec (json := json) (SM := SM) s cs Hr) as (s1 & Hd & Hsh & Hst). split.
  - intros r files s0 cs0 ps Hh Hb Hr0 Hf0 Hup Hlen Hpf Pok Pnd Plen. unfold jsonDatabaseRestore. rewrite Hd. obind. rewrite Hst.
    destruct (restore_law (store s) m r files (so_model _ _ _ _ Hf) Hh Hb) as (Hok & Hm & _).
    destruct (st_restore (store s) (Some r)) as [ok st]. cbn [fst snd] in Hok, Hm. subst ok.
    apply (open_spec (with_store s1 st) s0 cs0 files ps); try done.
    + by destruct Hsh; split.
    + intros c Hc. destruct (so_keys _ _ _ _ Hf0 c Hc). by destruct (Hup c Hc).
    + intros k. split; [apply (so_only _ _ _ _ Hf0)|]. intros [->|(c & -> & Hc)%list_elem_of_fmap]; [|by apply (so_file _ _ _ _ Hf0)].
      destruct Hpf as (t & j & ms & Ht & _). by exists t.
  - intros restored Hfail. unfold jsonDatabaseRestore. rewrite Hd. obind. rewrite Hst. destruct (st_restore (store s) restored) as [ok st].
    simpl in Hfail. subst ok. exists (with_store s1 st). split; [done|].
    unfold jsonDatabaseGetDevices, collect_devices, jsonDatabaseIsDeviceKnown. cbn [devices with_store]. rewrite (sh_devices _ Hsh).
    split; [done|]. by intros [].
Qed.

End Database.

(** ** Examples *)

Definition no_files : fs := mkFs ∅ [] [] [].
Definition closed : database := new_process no_files.

(** The database after its first start, and with a device. *)
Definition opened : database :=
  match jsonDatabaseInitialize (json := item) (SM := strings) closed with Ok (_, s) => s | _ => closed end.
Definition thermostat_db : database :=
  match jsonDatabaseAddDevice (json := item) (SM := strings) (Some thermostat) opened with Ok (_, s) => s | _ => closed end.

Definition schema : list (cstring * cstring) := [(JSON_DATABASE_SCHEMA_VERSION_KEY, JSON_DATABASE_CURRENT_SCHEMA_VERSION)].
Definition schema_text : cstring := bits (encode (JObject (jprop <$> schema))).

Lemma no_files_model : fs_model STORAGE_NAMESPACE no_files ∅.
Proof.
  assert (Hno : ∀ n, file no_files STORAGE_NAMESPACE n = None).
  { intros n. unfold file, no_files. simpl. by rewrite lookup_empty. }
  split; [done|..]; try (intros k **; by rewrite Hno, ?lookup_empty).
  - intros name t Ht. by rewrite Hno in Ht.
  - intros k v Hkv. by rewrite lookup_empty in Hkv.
Qed.

Lemma schema_ok : Forall prop_ok schema.
Proof. constructor; [|done]. split; [by vm_compute|]. apply (bool_decide_unpack _). vm_compute. exact I. Qed.

Lemma opened_repr : repr opened [].
Proof.
  split; [| |by intros ? ?%elem_of_nil|split; intros a x; vm_compute; discriminate].
  - exists km_create. split; [vm_compute; reflexivity|apply km_create_law].
  - exists km_create, []. split; [vm_compute; reflexivity|]. split; [apply km_create_law|done].
Qed.

Lemma opened_props : props_in (systemProperties opened) schema.
Proof.
  split; [|exact schema_ok].
  destruct (km_put_new (km_create : texts) [] (zkey JSON_DATABASE_SCHEMA_VERSION_KEY) (Some JSON_DATABASE_CURRENT_SCHEMA_VERSION) km_create_law)
    as (m & es & Hput & Hm & Hp); [by vm_compute|apply not_elem_of_nil|done|].
  exists m, es. split; [|split; [exact Hm|exact Hp]]. vm_compute in Hput. injection Hput as <-. vm_compute. reflexivity.
Qed.

Lemma opened_store : fs_model STORAGE_NAMESPACE (store opened) (<[SYSTEM_PROPERTIES_KEY := schema_text]> ∅).
Proof.
  pose proof (save_spec STORAGE_NAMESPACE no_files ∅ SYSTEM_PROPERTIES_KEY schema_text no_files_model sys_key_good) as Hs.
  assert (Heq : storageSave no_files (Some STORAGE_NAMESPACE) (Some SYSTEM_PROPERTIES_KEY) (Some schema_text) = (true, store opened))
    by (vm_compute; reflexivity).
  rewrite Heq in Hs. apply Hs. vm_compute. discriminate.
Qed.

Lemma opened_ok : db_ok (json := item) (SM := strings) opened [].
Proof.
  split; [exact opened_repr|]. exists (<[SYSTEM_PROPERTIES_KEY := schema_text]> ∅). split; try (by intros c ?%elem_of_nil).
  - exact opened_store.
  - intros k [<-|[_ [x Hx]]]%lookup_insert_is_Some; [by left|]. by rewrite lookup_empty in Hx.
Qed.

Lemma thermostat_admissible : admissible [] thermostat (str "t1").
Proof.
  split; try done.
  - apply not_elem_of_nil.
  - unfold all_uris. apply (bool_decide_unpack _). vm_compute. exact I.
  - apply (bool_decide_unpack _). vm_compute. exact I.
  - intros u Hu. split; [apply not_elem_of_nil|]. assert (Hall : Forall (λ o, match o with Some u => key_ok (zkey u) | None => True end) (device_uris thermostat)).
    { repeat (constructor; [by vm_compute|]). constructor. }
    rewrite Forall_forall in Hall. by specialize (Hall _ Hu).
  - intros e ->%list_elem_of_singleton. split; by eexists.
Qed.

Lemma t1_key : good_key (str "t1").
Proof. apply (bool_decide_unpack _). vm_compute. exact I. Qed.

Lemma thermostat_db_ok : ∃ cs, db_ok (json := item) (SM := strings) thermostat_db cs ∧ c_dev <$> cs = [thermostat] ∧
  systemProperties thermostat_db = systemProperties opened ∧ ∀ c, c ∈ cs → c_dirty c = false.
Proof.
  destruct (add_device_spec (json := item) (SM := strings) opened [] thermostat (str "t1") opened_ok thermostat_admissible t1_key)
    as (ok & s & cs & Hadd & Hok & Hcs & Hpr & _); [vm_compute; discriminate|].
  assert (Hs : thermostat_db = s) by (unfold thermostat_db; by rewrite Hadd).
  assert (Hb : ok = true).
  { assert (Hb : match jsonDatabaseAddDevice (json := item) (SM := strings) (Some thermostat) opened with Ok (b, _) => b | _ => false end = true)
      by (vm_compute; reflexivity). by rewrite Hadd in Hb. }
  subst ok s. exists cs. split; [done|]. destruct Hcs as (c & Hp & _ & Hd & Hclean).
  apply Permutation_singleton_r in Hp as ->. simpl. rewrite Hd. split; [done|]. split; [done|]. by intros x ->%list_elem_of_singleton.
Qed.

Lemma database_refinement_witness : ∃ cs, db_ok (json := item) (SM := strings) thermostat_db cs ∧ c_dev <$> cs = [thermostat] ∧
  (∃ a s', run (json := item) (SM := strings) (RemoveDevice (str "t1")) thermostat_db = Ok (a, s')) ∧
  (∀ tr s', exec (json := item) (SM := strings) thermostat_db tr s' →
    ∃ cs', db_ok (json := item) (SM := strings) s' cs' ∧ steps True [thermostat] tr (c_dev <$> cs')).
Proof.
  destruct thermostat_db_ok as (cs & Hok & Hd & _). exists cs. split; [exact Hok|]. split; [exact Hd|].
  destruct (database_refinement (json := item) (SM := strings) thermostat_db cs Hok) as [Hrun Hex]. split.
  - apply Hrun. vm_compute. discriminate.
  - intros tr s' He. destruct (Hex tr s' He) as (cs' & Hok' & Hst). exists cs'. split; [exact Hok'|]. rewrite Hd in Hst.
    apply (steps_weaken True (st_healthy (store thermostat_db))); [intros _; vm_compute; reflexivity|exact Hst].
Defined.

Lemma thermostat_db_files cs : db_ok (json := item) (SM := strings) thermostat_db cs →
  ∃ files, filed (json := item) (SM := strings) None thermostat_db cs files ∧ props_file (json := item) files schema.
Proof.
  intros [_ (files & Hf)]. exists files. split; [exact Hf|]. exists schema_text, (None, JObject (jprop <$> schema)), (jprop <$> schema).
  split; [|split; [vm_compute; reflexivity|split; reflexivity]].
  rewrite <-(fm_main _ _ _ (so_model _ _ _ _ Hf) _ sys_key_good). vm_compute. reflexivity.
Qed.

Lemma database_restart_witness : ∃ cs files, repr thermostat_db cs ∧ filed (json := item) (SM := strings) None thermostat_db cs files ∧
  c_dev <$> cs = [thermostat] ∧
  ∃ s1 files1, jsonDatabaseCleanup (json := item) (SM := strings) true thermostat_db = Ok s1 ∧ st_model (store s1) files1 ∧
    (∀ c, c ∈ cs → flushed (json := item) (SM := strings) files files1 c) ∧
    ∃ s2 cs2, jsonDatabaseInitialize (json := item) (SM := strings) (new_process (store s1) : database) = Ok (true, s2) ∧
      db_ok (json := item) (SM := strings) s2 cs2 ∧ c_dev <$> cs2 ≡ₚ [thermostat].
Proof.
  destruct thermostat_db_ok as (cs & Hok & Hd & Hpr & _). destruct (thermostat_db_files cs Hok) as (files & Hf & Hpf).
  exists cs, files. split; [exact (proj1 Hok)|]. split; [exact Hf|]. split; [exact Hd|].
  destruct (database_restart (json := item) (SM := strings) thermostat_db cs schema files schema (proj1 Hok) Hf)
    as (s1 & files1 & Hcl & Hm & Hfl & Hinit & Hup).
  - rewrite Hpr. exact opened_props.
  - exact Hpf.
  - exact schema_ok.
  - apply (bool_decide_unpack _). vm_compute. exact I.
  - vm_compute. discriminate.
  - intros c Hc. assert (Heq : c_dev c = thermostat).
    { apply (list_elem_of_fmap_2 c_dev) in Hc. rewrite Hd in Hc. by apply list_elem_of_singleton in Hc. }
    rewrite Heq. exact thermostat_storable.
  - apply (f_equal length) in Hd. rewrite length_fmap in Hd. rewrite Hd. reflexivity.
  - exists s1, files1. split; [exact Hcl|]. split; [exact Hm|]. split; [exact Hfl|].
    destruct Hinit as (s2 & cs2 & ps2 & Hi & Hok2 & Hd2 & _).
    + apply Hup. vm_compute. reflexivity.
    + exists s2, cs2. split; [exact Hi|]. split; [exact Hok2|]. rewrite <-Hd. exact Hd2.
Defined.

(** The files of the database with the device, restored into an empty one. *)
Definition thermostat_dir : dir := default ∅ (fs_dirs (store thermostat_db) !! STORAGE_NAMESPACE).

Lemma thermostat_restorable files : fs_model STORAGE_NAMESPACE (store thermostat_db) files →
  restorable STORAGE_NAMESPACE thermostat_dir files.
Proof.
  intros Hm. split.
  - apply (fs_model_ext STORAGE_NAMESPACE (store thermostat_db)); [by rewrite (fm_faults _ _ _ Hm)| |done]. intros n. unfold file. simpl.
    rewrite lookup_singleton_eq. unfold thermostat_dir.
    destruct (fs_dirs (store thermostat_db) !! STORAGE_NAMESPACE) as [d|]; simpl; [done|apply lookup_empty].
  - assert (Hall : map_Forall (λ _ t, t ≠ []) thermostat_dir) by (apply (bool_decide_unpack _); vm_compute; exact I). exact Hall.
Qed.

Lemma database_restore_witness : db_ok (json := item) (SM := strings) opened [] ∧
  ∃ s' cs', jsonDatabaseRestore (json := item) (SM := strings) (Some thermostat_dir) opened = Ok (true, s') ∧
    db_ok (json := item) (SM := strings) s' cs' ∧ c_dev <$> cs' ≡ₚ [thermostat].
Proof.
  split; [exact opened_ok|]. destruct thermostat_db_ok as (cs & Hok & Hd & _ & Hclean).
  destruct (thermostat_db_files cs Hok) as (files & Hf & Hpf).
  destruct (proj1 (database_restore (json := item) (SM := strings) opened [] opened_ok) thermostat_dir files thermostat_db cs schema)
    as (s' & cs' & Hres & Hok' & Hd' & _).
  - vm_compute. reflexivity.
  - exact (thermostat_restorable files (so_model _ _ _ _ Hf)).
  - exact (proj1 Hok).
  - exact Hf.
  - intros c Hc. split; [|by apply (so_clean _ _ _ _ Hf); [| |apply Hclean]]. assert (Heq : c_dev c = thermostat).
    { apply (list_elem_of_fmap_2 c_dev) in Hc. rewrite Hd in Hc. by apply list_elem_of_singleton in Hc. }
    rewrite Heq. exact thermostat_storable.
  - apply (f_equal length) in Hd. rewrite length_fmap in Hd. rewrite Hd. reflexivity.
  - exact Hpf.
  - exact schema_ok.
  - apply (bool_decide_unpack _). vm_compute. exact I.
  - vm_compute. discriminate.
  - exists s', cs'. split; [exact Hres|]. split; [exact Hok'|]. rewrite <-Hd. exact Hd'.
Defined.

(** A second endpoint, with new URIs, and one whose URI is taken. *)
Definition second_ep : endpoint :=
  mkEndpoint (Some (str "2")) (Some (str "/t1/ep/2")) (Some (str "sensor")) 1 (Some (str "t1")) true (Some []) (Some []).
Definition clashing_ep : endpoint :=
  mkEndpoint (Some (str "2")) (Some (str "/t1/ep/1")) (Some (str "sensor")) 1 (Some (str "t1")) true (Some []) (Some []).

Lemma second_ep_fits : endpoint_fits [thermostat] second_ep.
Proof.
  split; [by eexists|split; by eexists|apply (bool_decide_unpack _); vm_compute; exact I..| |by vm_compute].
  intros u Hu. assert (u = str "/t1/ep/2") as -> by (apply elem_of_cons in Hu as [[= ->]|?%elem_of_nil]; done).
  split; [apply (bool_decide_unpack _); vm_compute; exact I|by vm_compute].
Qed.

Lemma addEndpoint_adds_witness : ∃ cs c, db_ok (json := item) (SM := strings) thermostat_db cs ∧ c ∈ cs ∧
  ∃ ok s' cs', jsonDatabaseAddEndpoint (json := item) (SM := strings) (Some second_ep) thermostat_db = Ok (ok, s') ∧ repr s' cs' ∧
    c_dev <$> cs' = [add_endpoint_to thermostat second_ep].
Proof.
  destruct thermostat_db_ok as (cs & Hok & Hd & _). destruct cs as [|c [|c' cs]]; [discriminate| |discriminate]. injection Hd as Hd.
  assert (Hc : c ∈ [c]) by (by left). assert (Huuid : c_uuid c = str "t1").
  { pose proof (ck_uuid _ _ (rp_ok _ _ (proj1 Hok) c Hc)) as Hu. rewrite Hd in Hu. by injection Hu as <-. }
  exists [c], c. split; [exact Hok|]. split; [exact Hc|].
  destruct (addEndpoint_adds (json := item) (SM := strings) thermostat_db [c] c second_ep Hok Hc) as (ok & s' & cs' & Hs & Hr' & Hd' & _).
  - by rewrite Huuid.
  - cbn [fmap list_fmap]. rewrite Hd. exact second_ep_fits.
  - rewrite Hd. by eexists.
  - exists ok, s', cs'. split; [exact Hs|]. split; [exact Hr'|]. rewrite Hd'. cbn [fmap list_fmap]. rewrite Hd. reflexivity.
Defined.

(** A device file, and no system properties. *)
Lemma missing_properties_hide_devices_witness :
  fs_model (str "devicedb") one_file {[str "t1" := str "old"]} ∧
  ∃ s : database, jsonDatabaseInitialize (json := item) (SM := strings) (new_process one_file) = Ok (true, s) ∧
    jsonDatabaseGetDevices s = Ok [].
Proof.
  split; [exact one_file_model|].
  assert (Hm : @st_model fs device_store device_store_laws one_file {[str "t1" := str "old"]}) by exact one_file_model.
  destruct (missing_properties_hide_devices (json := item) (SM := strings) (DM := hash_map) (UM := locators) (PM := texts)
    one_file {[str "t1" := str "old"]} Hm eq_refl) as (s & Hi & Hg & _).
  exists s. split; [exact Hi|exact Hg].
Defined.

(** The states after adding the device once more, and after the clash. *)
Definition added_twice : database :=
  match jsonDatabaseAddDevice (json := item) (SM := strings) (Some thermostat) thermostat_db with Ok (_, s) => s | _ => closed end.
Definition clashed : database :=
  match jsonDatabaseAddEndpoint (json := item) (SM := strings) (Some clashing_ep) thermostat_db with Ok (_, s) => s | _ => closed end.

(** Adding a device whose uuid is known returns false but breaks the
    index: releasing the rejected copy (destroyCacheEntry) removes the URIs of
    the device that is in the database, so it is still found by its uuid but
    no longer by any URI. *)
Theorem duplicate_device_breaks_index :
  jsonDatabaseGetDeviceByUri (Some (str "/t1")) thermostat_db = Ok (Some thermostat) ∧
  jsonDatabaseAddDevice (json := item) (SM := strings) (Some thermostat) thermostat_db = Ok (false, added_twice) ∧
  jsonDatabaseGetDeviceById (Some (str "t1")) added_twice = Ok (Some thermostat) ∧
  jsonDatabaseGetDeviceByUri (Some (str "/t1")) added_twice = Ok None ∧
  jsonDatabaseGetEndpointByUri (Some (str "/t1/ep/1")) added_twice = Ok None ∧
  jsonDatabaseGetResourceByUri (Some (str "/t1/r/temp")) added_twice = Ok None ∧
  jsonDatabaseSaveResource (json := item) (SM := strings) (Some thermostat_temp) added_twice = Ok (false, added_twice).
Proof. split_and!; vm_compute; reflexivity. Qed.

(** When an endpoint's URI is taken, jsonDatabaseAddEndpoint releases the
    new endpoint but leaves it in the device's list: it returns false, and the
    next operation that looks at the device (a query, or closing the database)
    uses released memory. *)
Theorem rejected_endpoint_dangles :
  jsonDatabaseAddEndpoint (json := item) (SM := strings) (Some clashing_ep) thermostat_db = Ok (false, clashed) ∧
  jsonDatabaseGetDevices clashed = Fault ∧ jsonDatabaseGetDeviceById (Some (str "t1")) clashed = Fault ∧
  jsonDatabaseCleanup (json := item) (SM := strings) false clashed = Fault.
Proof. split_and!; vm_compute; reflexivity. Qed.

End JsonDatabaseTheorems.
