(* ===== verification/StringKeyed.v ===== *)
(** * Maps keyed by strings, as finite maps

    A keyed map whose keys are C strings stored with their NUL (every map of
    the device service) stands for a finite map from strings to values. *)

From S2P Require Import Prelude KeyMap DeviceModel JsonDatabase JsonDatabaseSpec.
Import KeyMap DeviceModel JsonDatabase JsonDatabaseSpec.

Module StringKeyed.

Section Map.
Context {M V : Type} `{KeyMapLaws M V}.
Implicit Types (m : option M) (v : gmap cstring V) (k : cstring) (x : V).

Definition zpair (p : cstring * V) : cstring * V := (zkey p.1, p.2).

(** The map [m] is not NULL and holds exactly [v]. *)
Definition holds m v : Prop := ∃ mm es, m = Some mm ∧ km_model mm es ∧ es ≡ₚ zpair <$> map_to_list v.

Lemma pair_in v k x : (zkey k, x) ∈ zpair <$> map_to_list v ↔ v !! k = Some x.
Proof.
  rewrite list_elem_of_fmap. split.
  - intros ([j y] & [= Hk ->] & Hin%elem_of_map_to_list). by apply zkey_inj in Hk as ->.
  - intros Hv%elem_of_map_to_list. by exists (k, x).
Qed.

Lemma key_in v k : zkey k ∈ (zpair <$> map_to_list v).*1 ↔ is_Some (v !! k).
Proof.
  rewrite list_elem_of_fmap. split.
  - intros ([j x] & Hj & Hin). cbn in Hj. subst. apply pair_in in Hin. eauto.
  - intros [x Hx]. exists (zkey k, x). split; [done|by apply pair_in].
Qed.

Lemma created_holds : holds (Some km_create) ∅.
Proof. exists km_create, []. split; [done|]. split; [apply km_create_law|]. by rewrite map_to_list_empty. Qed.

Lemma holds_get m v k : holds m v → key_ok (zkey k) → map_get m k = Ok (v !! k).
Proof.
  intros (mm & es & -> & Hm & Hp) Hk. unfold map_get. rewrite (km_get_law _ _ _ Hm Hk). f_equal.
  apply option_eq. intros x. rewrite <-elem_of_list_to_map by (by eapply km_nodup). by rewrite Hp, pair_in.
Qed.

Lemma holds_contains mm v k : holds (Some mm) v → key_ok (zkey k) → km_contains mm (zkey k) = Ok (bool_decide (is_Some (v !! k))).
Proof.
  intros (m & es & [= <-] & Hm & Hp) Hk. rewrite (km_contains_law _ _ _ Hm Hk). f_equal. apply bool_decide_ext. by rewrite Hp, key_in.
Qed.

Lemma holds_put_old m v k x y : holds m v → key_ok (zkey k) → v !! k = Some y → map_put m k x = Ok (false, m).
Proof.
  intros (mm & es & -> & Hm & Hp) Hk Hv. unfold map_put. rewrite (km_put_old _ _ _ _ Hm Hk); [done|]. rewrite Hp, key_in. eauto.
Qed.

Lemma holds_put_new m v k x : holds m v → key_ok (zkey k) → v !! k = None → Z.of_nat (size v) < 65535 →
  ∃ m', map_put m k x = Ok (true, m') ∧ holds m' (<[k := x]> v).
Proof.
  intros (mm & es & -> & Hm & Hp) Hk Hv Hz. unfold map_put.
  destruct (km_put_new mm es (zkey k) x Hm Hk) as (m' & es' & -> & Hm' & Hp').
  - rewrite Hp, key_in, Hv. by intros [? ?].
  - rewrite (Permutation_length Hp), length_fmap, length_map_to_list. lia.
  - obind. exists (Some m'). split; [done|]. exists m', es'. split; [done|]. split; [done|].
    rewrite Hp', Hp, map_to_list_insert by done. done.
Qed.

Lemma holds_delete m v k : holds m v → key_ok (zkey k) → ∃ m', map_delete m k = Ok (v !! k, m') ∧ holds m' (delete k v).
Proof.
  intros (mm & es & -> & Hm & Hp) Hk. unfold map_delete. destruct (v !! k) as [x|] eqn:E.
  - destruct (km_delete_present mm es (zkey k) x Hm Hk) as (m' & es' & -> & Hm' & Hp'); [by rewrite Hp, pair_in|].
    obind. exists (Some m'). split; [done|]. exists m', es'. split; [done|]. split; [done|].
    apply (Permutation_cons_inv (a := (zkey k, x))). rewrite <-Hp', Hp, <-(insert_delete_id v k x E) at 1.
    by rewrite map_to_list_insert by apply lookup_delete_eq.
  - rewrite (km_delete_absent _ _ _ Hm Hk) by (rewrite Hp, key_in, E; by intros [? ?]). obind.
    exists (Some mm). split; [done|]. rewrite delete_id by done. by exists mm, es.
Qed.

Lemma holds_ext m v v' : holds m v → v = v' → holds m v'.
Proof. by intros ? <-. Qed.

End Map.
End StringKeyed.
