(* ===== verification/DeviceUris.v ===== *)
(** * URIs of devices and their parts

    Models the URI functions of the device service
    (src/source/services/device/core/src/deviceService.c) and of its client
    library (src/source/libs/device/helper/c/src/deviceHelper.c): how URIs are
    made, taken apart and turned into patterns.  A device is [/uuid], an
    endpoint [/uuid/ep/id], a resource [owner/r/id], a metadata [owner/m/id]. *)

From S2P Require Import Prelude StringUtils DeviceModel JsonDatabaseMemory JsonDatabaseQuery.
Import StringUtils DeviceModel JsonDatabaseMemory JsonDatabaseQuery.

Module DeviceUris.

Definition SLASH : byte := "/"%char.

(** ** The formats *)

Definition createDeviceUri (uuid : cstring) : cstring := str "/" ++ uuid.
Definition createEndpointUri (uuid endpointId : cstring) : cstring := str "/" ++ uuid ++ str "/ep/" ++ endpointId.
Definition createDeviceResourceUri (uuid resourceId : cstring) : cstring := str "/" ++ uuid ++ str "/r/" ++ resourceId.
Definition createDeviceMetadataUri (uuid metadataId : cstring) : cstring := str "/" ++ uuid ++ str "/m/" ++ metadataId.
Definition createEndpointResourceUri (uuid endpointId resourceId : cstring) : cstring :=
  createEndpointUri uuid endpointId ++ str "/r/" ++ resourceId.
Definition createEndpointMetadataUri (uuid endpointId metadataId : cstring) : cstring :=
  createEndpointUri uuid endpointId ++ str "/m/" ++ metadataId.

(** strlen and sprintf read their arguments. *)
Definition getEndpointUri (deviceUuid endpointId : option cstring) : outcome cstring :=
  u ← of_option deviceUuid; e ← of_option endpointId; Ok (str "/" ++ u ++ str "/ep/" ++ e).

Definition getMetadataUri (deviceUuid endpointId name : option cstring) : outcome cstring :=
  match endpointId with
  | None => u ← of_option deviceUuid; n ← of_option name; Ok (str "/" ++ u ++ str "/m/" ++ n)
  | Some _ => epUri ← getEndpointUri deviceUuid endpointId; n ← of_option name; Ok (epUri ++ str "/m/" ++ n)
  end.

(** The URI deviceServiceGetResourceByIdInternal looks for. *)
Definition resource_uri (deviceUuid endpointId resourceId : option cstring) : outcome cstring :=
  match endpointId with
  | None => u ← of_option deviceUuid; r ← of_option resourceId; Ok (str "/" ++ u ++ str "/r/" ++ r)
  | Some _ => epUri ← getEndpointUri deviceUuid endpointId; r ← of_option resourceId; Ok (epUri ++ str "/r/" ++ r)
  end.

(** The part of a URI before its slash number [numSlashes], from 0. *)
Fixpoint partial_loop (uri : cstring) (slashCount numSlashes : Z) : cstring :=
  match uri with
  | [] => []
  | c :: t =>
      if decide (c = SLASH) then
        if decide (slashCount = numSlashes) then [] else c :: partial_loop t (slashCount + 1) numSlashes
      else c :: partial_loop t slashCount numSlashes
  end.

Definition getPartialUri (uri : option cstring) (numSlashes : Z) : option cstring :=
  match uri with Some uri => Some (partial_loop uri 0 numSlashes) | None => None end.

(** ** Patterns *)

Definition WILDCARD : byte := "*"%char.

Definition isUriPattern (uri : cstring) : bool := bool_decide (is_Some (strchr uri WILDCARD)).

(** The loop over the characters, writing into a block of
    strlen + wildcards + 1 bytes; [room] counts what is left of it. *)
Fixpoint regex_loop (uri : cstring) (room : Z) : outcome cstring :=
  match uri with
  | [] => if decide (0 < room) then Ok [] else Fault
  | c :: t =>
      if decide (c = WILDCARD) then
        if decide (1 < room) then r ← regex_loop t (room - 2); Ok ("."%char :: c :: r) else Fault
      else if decide (0 < room) then r ← regex_loop t (room - 1); Ok (c :: r) else Fault
  end.

Definition wildcards (uri : cstring) : Z := zlen (filter (λ c, c = WILDCARD) uri).

Definition createRegexFromPattern (uri : cstring) : outcome cstring :=
  regex_loop uri (strlen uri + wildcards uri + 1).

(** ** Taking a metadata URI apart: the sscanf calls of deviceServiceSetMetadata *)

Fixpoint span (p : byte → bool) (s : cstring) : cstring * cstring :=
  match s with
  | [] => ([], [])
  | c :: t => if p c then let '(a, b) := span p t in (c :: a, b) else ([], c :: t)
  end.

(** Literal characters of the format. *)
Fixpoint scan_text (l s : cstring) : option cstring :=
  match l, s with
  | [], _ => Some s
  | c :: l, x :: s => if decide (c = x) then scan_text l s else None
  | _ :: _, [] => None
  end.

(** %[^/] *)
Definition scan_part (s : cstring) : option (cstring * cstring) :=
  match span (λ c, negb (bool_decide (c = SLASH))) s with ([], _) => None | p => Some p end.

(** %s *)
Definition scan_word (s : cstring) : option cstring :=
  match span (λ c, negb (isspace c)) (skip_space s) with ([], _) => None | (w, _) => Some w end.

(** The device, endpoint and metadata id of a URI; None when sscanf does not
    convert all of them. *)
Definition parse_metadata_uri (uri : cstring) : option (cstring * option cstring * cstring) :=
  if decide (strstr uri (str "/ep/") = None) then
    s ← scan_text (str "/") uri; '(d, s) ← scan_part s; s ← scan_text (str "/m/") s; n ← scan_word s; Some (d, None, n)
  else
    s ← scan_text (str "/") uri; '(d, s) ← scan_part s; s ← scan_text (str "/ep/") s; '(e, s) ← scan_part s;
    s ← scan_text (str "/m/") s; n ← scan_word s; Some (d, Some e, n).

(** ** The parts of a URI: deviceHelper.c *)

Definition createResourceUri (ownerUri resourceId : cstring) : cstring := ownerUri ++ str "/r/" ++ resourceId.

(** The text before the next slash, or all of it. *)
Definition up_to_slash (s : cstring) : cstring := match strchr s SLASH with Some n => take n s | None => s end.

Definition getDeviceUuidFromUri (uri : option cstring) : option cstring :=
  match uri with
  | Some (_ :: (_ :: _) as t) => Some (up_to_slash t)
  | _ => None
  end.

Definition getEndpointIdFromUri (uri : option cstring) : option cstring :=
  match uri with
  | Some (_ :: (_ :: _) as t) =>
      match strstr t (str "/ep/") with
      | Some n => Some (up_to_slash (drop (n + 4) t))
      | None => None
      end
  | _ => None
  end.

(** ** Giving a device its URIs *)

Definition with_uri (r : icDeviceResource) (uri : cstring) : icDeviceResource :=
  mkResource (r_id r) (Some uri) (r_endpointId r) (r_deviceUuid r) (r_value r) (r_type r) (r_mode r)
    (r_cachingPolicy r) (r_dateOfLastSyncMillis r).

Definition setUrisOnResources (baseUri : cstring) (resources : option (list icDeviceResource))
    : outcome (option (list icDeviceResource)) :=
  mapL (λ r, i ← of_option (r_id r); Ok (with_uri r (baseUri ++ str "/r/" ++ i))) resources.

(** The endpoint with its URI and those of its resources. *)
Definition set_endpoint_uris (deviceUuid : option cstring) (e : endpoint) : outcome endpoint :=
  uri ← getEndpointUri deviceUuid (e_id e);
  rs ← setUrisOnResources uri (e_resources e);
  Ok (mkEndpoint (e_id e) (Some uri) (e_profile e) (e_profileVersion e) (e_deviceUuid e) (e_enabled e) rs (e_metadata e)).

Definition setUris (device : device) : outcome DeviceModel.device :=
  u ← of_option (d_uuid device);
  let uri := str "/" ++ u in
  rs ← setUrisOnResources uri (d_resources device);
  es ← mapL (set_endpoint_uris (d_uuid device)) (d_endpoints device);
  Ok (mkDevice (d_uuid device) (d_deviceClass device) (d_deviceClassVersion device) (Some uri)
        (d_managingDeviceDriver device) es rs (d_metadata device)).

End DeviceUris.
