(* ===== verification/DeviceUrisSpec.v ===== *)
(** * What the URIs identify

    The URIs the service makes are distinct when ids are: within a device by
    the kind and id of the part, between devices by the uuid.  A device with
    such URIs can be added to the database, and the parts of a metadata URI
    can be read back from it. *)

From S2P Require Import Prelude StringUtils KeyMap DeviceModel JsonDatabaseSpec JsonDatabaseMemory JsonDatabaseDevices JsonDatabaseQuery.
From S2P Require Import DeviceUris.
Import StringUtils KeyMap DeviceModel JsonDatabaseSpec JsonDatabaseMemory JsonDatabaseDevices JsonDatabaseQuery DeviceUris.

Module DeviceUrisSpec.

Implicit Types (u base t i : cstring) (d : device) (e : endpoint).

(** ** Strings without a slash *)

Definition plain (s : cstring) : Prop := SLASH ∉ s.

Lemma plain_split a b s t : plain a → plain b → a ++ SLASH :: s = b ++ SLASH :: t → a = b ∧ s = t.
Proof.
  revert b. induction a as [|c a IH]; intros b Ha Hb Heq; destruct b as [|c' b]; simplify_eq/=.
  - done.
  - by destruct (Hb (list_elem_of_here _ _)).
  - by destruct (Ha (list_elem_of_here _ _)).
  - apply not_elem_of_cons in Ha as [_ Ha], Hb as [_ Hb]. by destruct (IH b Ha Hb) as [-> ->].
Qed.

Lemma plain_no_split a b s : plain a → a ≠ b ++ SLASH :: s.
Proof. intros Ha ->. apply Ha. apply elem_of_app. right. by left. Qed.

(** ** URIs below an owner *)

(** The owner's URI itself, or one that continues it with a slash. *)
Definition below_uri base (x : option cstring) : Prop := x = Some base ∨ ∃ t, x = Some (base ++ SLASH :: t).

Lemma below_disjoint p a b x : plain a → plain b → below_uri (p ++ a) x → below_uri (p ++ b) x → a = b.
Proof.
  intros Ha Hb [->|[s ->]] [Heq|[t Heq]]; injection Heq; rewrite <-?app_assoc; intros E%app_inv_head.
  - done.
  - by apply plain_no_split in E.
  - symmetry in E. by apply plain_no_split in E.
  - by apply plain_split in E as [-> _].
Qed.

Lemma not_below_self base t : Some base ≠ Some (base ++ SLASH :: t).
Proof. intros [= E]. apply (f_equal length) in E. rewrite length_app in E. cbn [length] in E. lia. Qed.

(** The URIs of the resources and metadata of an owner. *)
Definition res_uri base i : cstring := base ++ str "/r/" ++ i.
Definition met_uri base i : cstring := base ++ str "/m/" ++ i.

Definition res_canon base (l : option (list icDeviceResource)) : Prop :=
  ∀ r, r ∈ elems l → is_Some (r_id r) ∧ r_uri r = res_uri base <$> r_id r.
Definition met_canon base (l : option (list icDeviceMetadata)) : Prop :=
  ∀ m, m ∈ elems l → is_Some (m_id m) ∧ m_uri m = met_uri base <$> m_id m.

Definition ep_canon u e : Prop :=
  ∃ i, e_id e = Some i ∧ plain i ∧ e_uri e = Some (createEndpointUri u i) ∧ e_deviceUuid e = Some u ∧
    res_canon (createEndpointUri u i) (e_resources e) ∧ met_canon (createEndpointUri u i) (e_metadata e).

(** A device with the URIs the service gives it. *)
Record canonical d u : Prop := {
  cn_uuid : d_uuid d = Some u;
  cn_plain : plain u;
  cn_uri : d_uri d = Some (createDeviceUri u);
  cn_res : res_canon (createDeviceUri u) (d_resources d);
  cn_met : met_canon (createDeviceUri u) (d_metadata d);
  cn_ep e : e ∈ elems (d_endpoints d) → ep_canon u e
}.

(** The parts of a kind have distinct ids. *)
Definition owner_ids (rs : option (list icDeviceResource)) (ms : option (list icDeviceMetadata)) : Prop :=
  NoDup (r_id <$> elems rs) ∧ NoDup (m_id <$> elems ms).

Record distinct_ids d : Prop := {
  di_own : owner_ids (d_resources d) (d_metadata d);
  di_eps : NoDup (e_id <$> elems (d_endpoints d));
  di_ep e : e ∈ elems (d_endpoints d) → owner_ids (e_resources e) (e_metadata e)
}.

#[global] Instance res_uri_inj base : Inj (=) (=) (res_uri base).
Proof. intros i j. unfold res_uri. by intros E%app_inv_head%app_inv_head. Qed.
#[global] Instance met_uri_inj base : Inj (=) (=) (met_uri base).
Proof. intros i j. unfold met_uri. by intros E%app_inv_head%app_inv_head. Qed.

Lemma res_uris_canon base l : res_canon base l → res_uris l = (λ x, res_uri base <$> x) <$> (r_id <$> elems l).
Proof.
  intros Hc. unfold res_uris. rewrite <-list_fmap_compose. apply list_fmap_ext. intros k r Hr%list_elem_of_lookup_2. by apply Hc.
Qed.

Lemma met_uris_canon base l : met_canon base l → met_uris l = (λ x, met_uri base <$> x) <$> (m_id <$> elems l).
Proof.
  intros Hc. unfold met_uris. rewrite <-list_fmap_compose. apply list_fmap_ext. intros k r Hr%list_elem_of_lookup_2. by apply Hc.
Qed.

Lemma res_uris_below base l x : res_canon base l → x ∈ res_uris l → ∃ i, x = Some (res_uri base i).
Proof. intros Hc (r & -> & Hr)%list_elem_of_fmap. destruct (Hc r Hr) as [[i Hi] ->]. rewrite Hi. by exists i. Qed.

Lemma met_uris_below base l x : met_canon base l → x ∈ met_uris l → ∃ i, x = Some (met_uri base i).
Proof. intros Hc (r & -> & Hr)%list_elem_of_fmap. destruct (Hc r Hr) as [[i Hi] ->]. rewrite Hi. by exists i. Qed.

(** Resources and metadata of one owner. *)
Lemma owner_nodup base rs ms : res_canon base rs → met_canon base ms → owner_ids rs ms → NoDup (res_uris rs ++ met_uris ms).
Proof.
  intros Hr Hm [Nr Nm]. apply NoDup_app. split; [|split].
  - rewrite (res_uris_canon _ _ Hr). by apply NoDup_fmap_2; [apply _|].
  - intros x (i & ->)%(res_uris_below _ _ _ Hr) (j & [= E%app_inv_head])%(met_uris_below _ _ _ Hm). done.
  - rewrite (met_uris_canon _ _ Hm). by apply NoDup_fmap_2; [apply _|].
Qed.

Lemma owner_below base rs ms x : res_canon base rs → met_canon base ms → x ∈ res_uris rs ++ met_uris ms →
  ∃ t, x = Some (base ++ SLASH :: t).
Proof.
  intros Hr Hm [(i & ->)%(res_uris_below _ _ _ Hr)|(i & ->)%(met_uris_below _ _ _ Hm)]%elem_of_app; by eexists.
Qed.

Lemma owner_list base rs ms : res_canon base rs → met_canon base ms → owner_ids rs ms →
  NoDup (Some base :: res_uris rs ++ met_uris ms).
Proof.
  intros Hr Hm Hi. constructor; [|by apply (owner_nodup base)]. intros (t & E)%(owner_below _ _ _ _ Hr Hm).
  exact (not_below_self _ _ E).
Qed.

Lemma ep_uris_below u e i x : ep_canon u e → e_id e = Some i → x ∈ ep_uris e → below_uri (createEndpointUri u i) x.
Proof.
  intros (j & Hj & _ & Hu & _ & Hr & Hm) Hi. assert (j = i) as -> by congruence. unfold ep_uris. rewrite Hu.
  intros [->|Hin]%elem_of_cons; [by left|right]. by apply (owner_below _ _ _ _ Hr Hm).
Qed.

Lemma endpoint_uri_split u i : createEndpointUri u i = (str "/" ++ u ++ str "/ep/") ++ i.
Proof. unfold createEndpointUri. by rewrite <-!app_assoc. Qed.

(** The endpoints of a device. *)
Lemma endpoints_nodup u es : (∀ e, e ∈ es → ep_canon u e) → NoDup (e_id <$> es) →
  (∀ e, e ∈ es → owner_ids (e_resources e) (e_metadata e)) → NoDup (concat (ep_uris <$> es)).
Proof.
  intros Hc. induction es as [|e es IH]; intros Hn Hi; [constructor|]. cbn [fmap list_fmap] in Hn.
  apply NoDup_cons in Hn as [Hne Hn]. cbn [fmap list_fmap concat]. apply NoDup_app. split; [|split].
  - destruct (Hc e) as (i & Hid & _ & Hu & _ & Hr & Hm); [by left|]. unfold ep_uris. rewrite Hu. apply owner_list; try done. apply Hi. by left.
  - intros x Hx (l & Hl & Hx')%elem_of_concat. apply list_elem_of_fmap in Hl as (e' & -> & He').
    destruct (Hc e) as (i & Hid & Hp & _); [by left|]. destruct (Hc e') as (j & Hjd & Hpj & _); [by right|].
    pose proof (ep_uris_below u e i x (Hc e (list_elem_of_here _ _)) Hid Hx) as B1.
    pose proof (ep_uris_below u e' j x (Hc e' (list_elem_of_further _ _ _ He')) Hjd Hx') as B2.
    rewrite endpoint_uri_split in B1, B2. pose proof (below_disjoint _ _ _ _ Hp Hpj B1 B2) as ->.
    apply Hne. rewrite Hid, <-Hjd. by apply list_elem_of_fmap_2.
  - apply IH; [|done|]; intros e' He'; [apply Hc|apply Hi]; by right.
Qed.

Lemma eps_below u es x : (∀ e, e ∈ es → ep_canon u e) → x ∈ concat (ep_uris <$> es) →
  ∃ t, x = Some (createDeviceUri u ++ str "/ep/" ++ t).
Proof.
  intros Hc (l & Hl & Hx)%elem_of_concat. apply list_elem_of_fmap in Hl as (e & -> & He). destruct (Hc e He) as (i & Hi & _).
  destruct (ep_uris_below u e i x (Hc e He) Hi Hx) as [->|[t ->]]; eexists; unfold createEndpointUri, createDeviceUri; by rewrite <-!app_assoc.
Qed.

Lemma device_uris_below d u x : canonical d u → x ∈ device_uris d → below_uri (createDeviceUri u) x.
Proof.
  intros [C1 C2 C3 C4 C5 C6]. unfold device_uris. rewrite C3. intros [->|[Hin|Hin]%elem_of_app]%elem_of_cons; [by left|right..].
  - apply (eps_below u _ x C6) in Hin as (t & ->). by eexists.
  - by apply (owner_below _ _ _ _ C4 C5).
Qed.

Lemma canonical_nodup d u : canonical d u → distinct_ids d → NoDup (device_uris d).
Proof.
  intros [C1 C2 C3 C4 C5 C6] [D1 D2 D3]. unfold device_uris. rewrite C3. constructor.
  - intros [Hin|Hin]%elem_of_app.
    + apply (eps_below u _ _ C6) in Hin as (t & E). exact (not_below_self _ _ E).
    + apply (owner_below _ _ _ _ C4 C5) in Hin as (t & E). exact (not_below_self _ _ E).
  - apply NoDup_app. split; [by apply (endpoints_nodup u)|]. split; [|by apply (owner_nodup (createDeviceUri u))].
    intros x (t & ->)%(eps_below u _ _ C6) [(i & [= E])%(res_uris_below _ _ _ C4)|(i & [= E])%(met_uris_below _ _ _ C5)]%elem_of_app;
      by apply app_inv_head in E.
Qed.

Lemma canonical_disjoint d d' u u' x : canonical d u → canonical d' u' → u ≠ u' → x ∈ device_uris d → x ∉ device_uris d'.
Proof.
  intros Hc Hc' Hne Hx Hx'. apply (device_uris_below d u x Hc) in Hx. apply (device_uris_below d' u' x Hc') in Hx'.
  apply Hne. apply (below_disjoint (str "/") u u' x); [apply Hc|apply Hc'|done..].
Qed.

Lemma canonical_all d u : canonical d u → all_uris d.
Proof.
  intros Hc. apply Forall_forall. intros x Hx. destruct (device_uris_below d u x Hc Hx) as [->|[t ->]]; by eexists.
Qed.

(** ** Reading a metadata URI back *)

Lemma span_stop (p : byte → bool) a c b : Forall (λ x, p x = true) a → p c = false → span p (a ++ c :: b) = (a, c :: b).
Proof. intros Ha Hc. induction Ha as [|x a Hx Ha IH]; simpl; [by rewrite Hc|]. by rewrite Hx, IH. Qed.

Lemma span_all (p : byte → bool) a : Forall (λ x, p x = true) a → span p a = (a, []).
Proof. induction 1 as [|x a Hx Ha IH]; simpl; [done|]. by rewrite Hx, IH. Qed.

Lemma scan_text_app l s : scan_text l (l ++ s) = Some s.
Proof. induction l as [|c l IH]; simpl; [done|]. by rewrite decide_True. Qed.

Lemma scan_part_plain a s : plain a → a ≠ [] → scan_part (a ++ SLASH :: s) = Some (a, SLASH :: s).
Proof.
  intros Ha Hne. unfold scan_part. rewrite span_stop.
  - by destruct a.
  - apply Forall_forall. intros x Hx. rewrite bool_decide_eq_false_2; [done|]. by intros ->.
  - by rewrite bool_decide_eq_true_2.
Qed.

Lemma scan_part_before a l s : plain a → a ≠ [] → head l = Some SLASH → scan_part (a ++ l ++ s) = Some (a, l ++ s).
Proof. destruct l as [|c l]; [done|]. intros Ha Hne [= ->]. by apply scan_part_plain. Qed.

(** A word: what %s reads back as it was written. *)
Definition word (s : cstring) : Prop := s ≠ [] ∧ Forall (λ c, isspace c = false) s.

Lemma scan_word_all n : word n → scan_word n = Some n.
Proof.
  intros [Hne Hf]. unfold scan_word. assert (skip_space n = n) as ->.
  { destruct Hf as [|c n Hc Hf]; [done|]. cbn [skip_space]. by rewrite Hc. }
  rewrite span_all; [by destruct n|]. eapply Forall_impl; [exact Hf|]. intros c Hc. by rewrite Hc.
Qed.

Lemma span_spec (p : byte → bool) s : Forall (λ c, p c = true) (span p s).1.
Proof. induction s as [|c s IH]; cbn [span]; [constructor|]. destruct (p c) eqn:E; [|constructor]. destruct (span p s). by constructor. Qed.

Lemma scan_word_only n : scan_word n = Some n → word n.
Proof.
  unfold scan_word. pose proof (span_spec (λ c, negb (isspace c)) (skip_space n)) as Hs.
  destruct (span _ _) as [[|c w] r]; [done|]. intros [= <-]. split; [done|]. eapply Forall_impl; [exact Hs|]. intros x Hx. by apply negb_true_iff in Hx.
Qed.

Lemma is_prefix_app a s : is_prefix a (a ++ s) = true.
Proof. unfold is_prefix. apply bool_decide_eq_true_2. by rewrite take_app_length. Qed.

Lemma strstr_inside a n b : strstr (a ++ n ++ b) n ≠ None.
Proof.
  assert (Hp : ∀ s, is_prefix n s = true → strstr s n ≠ None) by (intros s Hs; destruct s; cbn [strstr]; by rewrite Hs).
  induction a as [|c a IH]; [apply Hp, (is_prefix_app n b)|]. cbn [app strstr]. case_match; [done|]. by destruct (strstr (a ++ n ++ b) n).
Qed.

Lemma parse_endpoint_metadata u i n : plain u → u ≠ [] → plain i → i ≠ [] →
  parse_metadata_uri (createEndpointMetadataUri u i n) = (λ w, (u, Some i, w)) <$> scan_word n.
Proof.
  intros Hu Hun Hi Hin. unfold parse_metadata_uri, createEndpointMetadataUri, createEndpointUri.
  rewrite decide_False.
  - rewrite <-!app_assoc. rewrite (scan_text_app (str "/")). cbn [mbind option_bind].
    rewrite (scan_part_before u (str "/ep/")) by done. cbn [mbind option_bind].
    rewrite (scan_text_app (str "/ep/") (i ++ str "/m/" ++ n)). cbn [mbind option_bind].
    rewrite (scan_part_before i (str "/m/")) by done. cbn [mbind option_bind]. rewrite (scan_text_app (str "/m/") n). cbn [mbind option_bind].
    by destruct (scan_word n).
  - replace ((str "/" ++ u ++ str "/ep/" ++ i) ++ str "/m/" ++ n) with ((str "/" ++ u) ++ str "/ep/" ++ (i ++ str "/m/" ++ n));
      [apply strstr_inside|by rewrite <-!app_assoc].
Qed.

Lemma parse_device_metadata u n : plain u → u ≠ [] → strstr (createDeviceMetadataUri u n) (str "/ep/") = None →
  parse_metadata_uri (createDeviceMetadataUri u n) = (λ w, (u, None, w)) <$> scan_word n.
Proof.
  intros Hu Hun Hno. unfold parse_metadata_uri. rewrite decide_True by done. unfold createDeviceMetadataUri.
  rewrite (scan_text_app (str "/")). cbn [mbind option_bind].
  rewrite (scan_part_before u (str "/m/")) by done. cbn [mbind option_bind].
  rewrite (scan_text_app (str "/m/") n). cbn [mbind option_bind]. by destruct (scan_word n).
Qed.

(** *** The parts of a URI *)

Lemma up_to_slash_end i : plain i → up_to_slash i = i.
Proof.
  intros Hi. unfold up_to_slash. assert (strchr i SLASH = None) as ->; [|done]. induction i as [|c i IH]; [done|].
  apply not_elem_of_cons in Hi as [Hc Hi]. cbn [strchr]. rewrite decide_False by congruence. by rewrite IH.
Qed.

Lemma up_to_slash_before i t : plain i → up_to_slash (i ++ SLASH :: t) = i.
Proof.
  intros Hi. unfold up_to_slash. assert (strchr (i ++ SLASH :: t) SLASH = Some (length i)) as ->; [|by rewrite take_app_length].
  induction i as [|c i IH]; cbn [app strchr]; [by rewrite decide_True|]. apply not_elem_of_cons in Hi as [Hc Hi]. rewrite decide_False by congruence. by rewrite IH.
Qed.

Lemma strstr_after u t : plain u → strstr (u ++ str "/ep/" ++ t) (str "/ep/") = Some (length u).
Proof.
  induction u as [|c u IH]; intros Hu; [by destruct t|]. apply not_elem_of_cons in Hu as [Hc Hu]. cbn [app strstr]. unfold is_prefix.
  rewrite bool_decide_eq_false_2; [by rewrite IH|]. intros E. apply Hc. by injection E as -> _.
Qed.

Lemma endpoint_of u i t : plain u → u ≠ [] → plain i → t = [] ∨ (∃ x, t = SLASH :: x) →
  getDeviceUuidFromUri (Some (createEndpointUri u i ++ t)) = Some u ∧ getEndpointIdFromUri (Some (createEndpointUri u i ++ t)) = Some i.
Proof.
  intros Hu Hn Hi Ht. set (w := u ++ str "/ep/" ++ i ++ t). assert (Hw : w ≠ []) by (unfold w; by destruct u).
  assert (createEndpointUri u i ++ t = SLASH :: w) as -> by (unfold createEndpointUri, w; by rewrite <-!app_assoc).
  assert (getDeviceUuidFromUri (Some (SLASH :: w)) = Some (up_to_slash w)) as -> by (by destruct w).
  assert (getEndpointIdFromUri (Some (SLASH :: w)) = match strstr w (str "/ep/") with Some n => Some (up_to_slash (drop (n + 4) w)) | None => None end)
    as -> by (by destruct w).
  unfold w. split; [f_equal; by apply up_to_slash_before|]. rewrite strstr_after by done. f_equal. rewrite <-drop_drop, drop_app_length.
  change (drop 4 (str "/ep/" ++ i ++ t)) with (i ++ t). destruct Ht as [->|[x ->]]; [rewrite app_nil_r; by apply up_to_slash_end|by apply up_to_slash_before].
Qed.

Lemma device_of u t : plain u → u ≠ [] → t = [] ∨ (∃ x, t = SLASH :: x) → getDeviceUuidFromUri (Some (createDeviceUri u ++ t)) = Some u.
Proof.
  intros Hu Hn Ht. assert (getDeviceUuidFromUri (Some (createDeviceUri u ++ t)) = Some (up_to_slash (u ++ t))) as -> by (by destruct u).
  destruct Ht as [->|[x ->]]; [rewrite app_nil_r; f_equal; by apply up_to_slash_end|f_equal; by apply up_to_slash_before].
Qed.

(** C29: the URIs can be taken apart again.  For a device uuid and an endpoint id
    without slashes that are not empty, and any id of a resource or metadata:
    the uuid is read back from the URI of the device, of the endpoint and of
    their resources and metadata, and the endpoint id from those of the
    endpoint.  The scanner of deviceServiceSetMetadata reads uuid and endpoint
    id back from a metadata URI, and of the metadata id the first word, which
    is the whole id exactly when it has no white space; from the URI of a
    device's metadata under the condition that /ep/ does not occur in it. *)
Theorem uri_parts_roundtrip u i n : plain u → u ≠ [] → plain i → i ≠ [] →
  (∀ uri, uri ∈ [createDeviceUri u; createDeviceResourceUri u n; createDeviceMetadataUri u n; createEndpointUri u i;
                 createEndpointResourceUri u i n; createEndpointMetadataUri u i n] → getDeviceUuidFromUri (Some uri) = Some u) ∧
  (∀ uri, uri ∈ [createEndpointUri u i; createEndpointResourceUri u i n; createEndpointMetadataUri u i n] →
     getEndpointIdFromUri (Some uri) = Some i) ∧
  parse_metadata_uri (createEndpointMetadataUri u i n) = (λ w, (u, Some i, w)) <$> scan_word n ∧
  (strstr (createDeviceMetadataUri u n) (str "/ep/") = None →
     parse_metadata_uri (createDeviceMetadataUri u n) = (λ w, (u, None, w)) <$> scan_word n) ∧
  (scan_word n = Some n ↔ word n).
Proof.
  intros Hu Hun Hi Hin. destruct (endpoint_of u i [] Hu Hun Hi) as [A1 A2]; [by left|]. rewrite app_nil_r in A1, A2.
  destruct (endpoint_of u i (str "/r/" ++ n) Hu Hun Hi) as [B1 B2]; [right; by eexists|].
  destruct (endpoint_of u i (str "/m/" ++ n) Hu Hun Hi) as [C1 C2]; [right; by eexists|].
  pose proof (device_of u [] Hu Hun) as D1. rewrite app_nil_r in D1.
  pose proof (device_of u (str "/r/" ++ n) Hu Hun) as D2. pose proof (device_of u (str "/m/" ++ n) Hu Hun) as D3.
  split_and!.
  - intros uri Hm. repeat (apply elem_of_cons in Hm as [->|Hm]; [first [done|apply D1; by left|apply D2; right; by eexists|apply D3; right; by eexists]|]). by apply elem_of_nil in Hm.
  - intros uri Hm. repeat (apply elem_of_cons in Hm as [->|Hm]; [done|]). by apply elem_of_nil in Hm.
  - by apply parse_endpoint_metadata.
  - by apply parse_device_metadata.
  - split; [apply scan_word_only|apply scan_word_all].
Qed.

Lemma uri_parts_roundtrip_witness : getEndpointIdFromUri (Some (str "/t1/ep/1/m/label")) = Some (str "1") ∧
  parse_metadata_uri (str "/t1/ep/1/m/label") = Some (str "t1", Some (str "1"), str "label") ∧
  parse_metadata_uri (str "/t1/m/my label") = Some (str "t1", None, str "my").
Proof.
  assert (Hu : plain (str "t1")) by (apply (bool_decide_unpack _); vm_compute; exact I).
  assert (Hi : plain (str "1")) by (apply (bool_decide_unpack _); vm_compute; exact I).
  destruct (uri_parts_roundtrip (str "t1") (str "1") (str "label") Hu ltac:(discriminate) Hi ltac:(discriminate)) as (_ & He & Hp & _).
  destruct (uri_parts_roundtrip (str "t1") (str "1") (str "my label") Hu ltac:(discriminate) Hi ltac:(discriminate)) as (_ & _ & _ & Hd & _).
  split; [apply He; apply (bool_decide_unpack _); vm_compute; exact I|]. split; [exact Hp|]. apply Hd. vm_compute. reflexivity.
Defined.

(** ** Patterns *)

(** The regular expression: every [*] becomes [.*]. *)
Definition star (c : byte) : cstring := if decide (c = WILDCARD) then ["."%char; c] else [c].

Lemma regex_loop_spec s room : room = strlen s + wildcards s + 1 → regex_loop s room = Ok (s ≫= star).
Proof.
  revert room. induction s as [|c s IH]; intros room ->; [done|]. cbn [regex_loop mbind list_bind]. unfold strlen, wildcards, star at 1.
  cbn [length]. destruct (decide (c = WILDCARD)) as [->|Hc].
  - rewrite filter_cons_True by done. cbn [length]. rewrite decide_True by lia. rewrite IH; [done|]. unfold strlen, wildcards. lia.
  - rewrite filter_cons_False by done. rewrite decide_True by lia. rewrite IH; [done|]. unfold strlen, wildcards. lia.
Qed.

Lemma createRegex_spec uri : createRegexFromPattern uri = Ok (uri ≫= star).
Proof. by apply regex_loop_spec. Qed.

(** ** Owners: the part of a URI before a slash *)

Lemma partial_plain s t k n : plain s → partial_loop (s ++ t) k n = s ++ partial_loop t k n.
Proof.
  intros Hs. induction s as [|c s IH]; [done|]. apply not_elem_of_cons in Hs as [Hc Hs]. cbn [app partial_loop].
  rewrite decide_False by congruence. by rewrite IH.
Qed.

Lemma partial_endpoint u i n : plain u → plain i →
  getPartialUri (Some (createEndpointMetadataUri u i n)) 3 = Some (createEndpointUri u i).
Proof.
  intros Hu Hi. unfold getPartialUri, createEndpointMetadataUri, createEndpointUri. f_equal. rewrite <-!app_assoc.
  cbn [str String.list_ascii_of_string app partial_loop]. rewrite !decide_True by done. rewrite decide_False by done. f_equal.
  rewrite (partial_plain u) by done. f_equal. cbn [partial_loop]. rewrite decide_True by done. rewrite decide_False by done. f_equal.
  cbn [partial_loop]. rewrite !(decide_False (P := _ = SLASH)) by done. f_equal. f_equal. rewrite decide_True by done. rewrite decide_False by done. f_equal.
  rewrite (partial_plain i) by done. cbn [partial_loop]. rewrite decide_True by done. rewrite decide_True by done. by rewrite app_nil_r.
Qed.

(** ** setUris *)

(** What a device needs before it gets its URIs: ids, and metadata that
    already have theirs. *)
Record prepared d u : Prop := {
  pp_uuid : d_uuid d = Some u;
  pp_plain : plain u;
  pp_res r : r ∈ elems (d_resources d) → is_Some (r_id r);
  pp_met : met_canon (createDeviceUri u) (d_metadata d);
  pp_ep e : e ∈ elems (d_endpoints d) → ∃ i, e_id e = Some i ∧ plain i ∧ e_deviceUuid e = Some u ∧
    (∀ r, r ∈ elems (e_resources e) → is_Some (r_id r)) ∧ met_canon (createEndpointUri u i) (e_metadata e)
}.

Lemma mapO_total {A B} (f : A → outcome B) l : (∀ x, x ∈ l → ∃ y, f x = Ok y) → ∃ ys, mapO f l = Ok ys.
Proof.
  induction l as [|x l IH]; intros Hf; [by exists []|]. destruct (Hf x (list_elem_of_here _ _)) as (y & Hy).
  destruct IH as (ys & Hys); [intros z Hz; apply Hf; by right|]. exists (y :: ys). cbn [mapO]. rewrite Hy. obind. by rewrite Hys.
Qed.

Lemma mapL_total {A B} (f : A → outcome B) l : (∀ x, x ∈ elems l → ∃ y, f x = Ok y) → ∃ ys, mapL f l = Ok ys.
Proof.
  destruct l as [l|]; intros Hf; [|by exists None]. destruct (mapO_total f l Hf) as (ys & Hys). exists (Some ys). cbn [mapL]. by rewrite Hys.
Qed.

(** A field that [f] does not change, over a list. *)
Lemma mapL_field {A B C} (f : A → outcome B) (g : A → C) (g' : B → C) l ys :
  (∀ x y, f x = Ok y → g' y = g x) → mapL f l = Ok ys → g' <$> elems ys = g <$> elems l.
Proof.
  intros Hf [F2 _]%mapL_Ok. induction F2 as [|x y xs ys' Hxy F2 IH]; [done|]. cbn [fmap list_fmap]. by rewrite (Hf _ _ Hxy), IH.
Qed.

Lemma set_resources base l : (∀ r, r ∈ elems l → is_Some (r_id r)) →
  ∃ l', setUrisOnResources base l = Ok l' ∧ res_canon base l' ∧ r_id <$> elems l' = r_id <$> elems l ∧ (is_Some l' ↔ is_Some l).
Proof.
  intros Hi. unfold setUrisOnResources. destruct (mapL_total (λ r, j ← of_option (r_id r); Ok (with_uri r (base ++ str "/r/" ++ j))) l) as (l' & Hl).
  { intros r Hr. destruct (Hi r Hr) as [i ->]. by eexists. }
  exists l'. split; [done|]. split; [|split].
  - intros r' Hr'. apply mapL_Ok in Hl as [F2 _]. destruct (Forall2_elem_r _ _ _ _ F2 Hr') as (r & Hr & Hm).
    destruct (Hi r Hr) as [i Hid]. rewrite Hid in Hm. cbn in Hm. injection Hm as <-. cbn [r_id r_uri with_uri]. rewrite Hid. by split; [eexists|].
  - eapply mapL_field; [|exact Hl]. intros r r' Hm. cbv beta in Hm. revert Hm. destruct (r_id r) as [c|] eqn:E; cbn; [|discriminate]. intros [= <-]. exact E.
  - by apply mapL_Ok in Hl as [_ ?].
Qed.

(** What setUris keeps of an endpoint. *)
Definition ep_kept (x y : endpoint) : Prop :=
  e_id y = e_id x ∧ e_enabled y = e_enabled x ∧ r_id <$> elems (e_resources y) = r_id <$> elems (e_resources x) ∧
  e_metadata y = e_metadata x ∧ (is_Some (e_resources y) ↔ is_Some (e_resources x)).

Lemma set_endpoint u e i : e_id e = Some i → plain i → e_deviceUuid e = Some u → (∀ r, r ∈ elems (e_resources e) → is_Some (r_id r)) →
  met_canon (createEndpointUri u i) (e_metadata e) →
  ∃ e', set_endpoint_uris (Some u) e = Ok e' ∧ ep_canon u e' ∧ ep_kept e e'.
Proof.
  intros Hid Hp Hdu Hr Hm. unfold set_endpoint_uris, getEndpointUri. rewrite Hid. oread. change (str "/" ++ u ++ str "/ep/" ++ i) with (createEndpointUri u i).
  destruct (set_resources (createEndpointUri u i) (e_resources e) Hr) as (l' & -> & Hc & Hids & Hs). obind. eexists. split; [done|]. split; [|done].
  exists i. cbn [e_id e_uri e_deviceUuid e_resources e_metadata]. done.
Qed.

Lemma setUris_spec d u : prepared d u → ∃ d', setUris d = Ok d' ∧ canonical d' u ∧
  Forall2 ep_kept (elems (d_endpoints d)) (elems (d_endpoints d')) ∧
  r_id <$> elems (d_resources d') = r_id <$> elems (d_resources d) ∧ d_metadata d' = d_metadata d ∧
  d_deviceClass d' = d_deviceClass d ∧ d_managingDeviceDriver d' = d_managingDeviceDriver d.
Proof.
  intros [P1 P2 P3 P4 P5]. unfold setUris. rewrite P1. oread. change (str "/" ++ u) with (createDeviceUri u).
  destruct (set_resources (createDeviceUri u) (d_resources d) P3) as (rs & -> & Hc & Hids & _). obind.
  assert (Ht : ∀ e, e ∈ elems (d_endpoints d) → ∃ e', set_endpoint_uris (Some u) e = Ok e' ∧ ep_canon u e' ∧ ep_kept e e').
  { intros e He. destruct (P5 e He) as (i & Hid & Hp & Hdu & Hr & Hm). by apply (set_endpoint u e i). }
  destruct (mapL_total (set_endpoint_uris (Some u)) (d_endpoints d)) as (es & Hes).
  { intros e He. destruct (Ht e He) as (e' & ? & _). by exists e'. }
  rewrite Hes. obind. apply mapL_Ok in Hes as [F2 _]. assert (Hk : Forall2 (λ e e', ep_canon u e' ∧ ep_kept e e') (elems (d_endpoints d)) (elems es)).
  { eapply Forall2_elems; [exact F2|]. intros e e' He _ Hs. destruct (Ht e He) as (e2 & Hs2 & Hrest). by assert (e2 = e') as -> by congruence. }
  eexists. split; [done|]. split; [|split; [|done]].
  - split; try done. intros e' He'. destruct (Forall2_elem_r _ _ _ _ Hk He') as (e & _ & ? & _). done.
  - eapply Forall2_impl; [exact Hk|]. by intros e e' [_ ?].
Qed.

(** ** Adding a device with the service's URIs *)

Lemma canonical_admissible (ds : list device) d u : canonical d u → distinct_ids d → cloneable d →
  (∀ d', d' ∈ ds → ∃ u', canonical d' u') → Some u ∉ d_uuid <$> ds → key_ok (zkey u) →
  (∀ v, Some v ∈ device_uris d → key_ok (zkey v)) → zlen ds < 65535 →
  zlen (device_uris d) + zlen (concat (device_uris <$> ds)) ≤ 65535 → admissible ds d u.
Proof.
  intros Hc Hi Hcl Hds Hnew Hk Hks Hz Hz2. split; try done; [apply Hc|by eapply canonical_all|by eapply canonical_nodup|].
  intros v Hv. split; [|by apply Hks]. intros (l & Hl & Hv')%elem_of_concat. apply list_elem_of_fmap in Hl as (d' & -> & Hd').
  destruct (Hds d' Hd') as (u' & Hc'). apply (canonical_disjoint d d' u u' (Some v)); try done. intros <-. apply Hnew.
  rewrite <-(cn_uuid _ _ Hc'). by apply list_elem_of_fmap_2.
Qed.

End DeviceUrisSpec.
