(* ===== verification/DeviceBuild.v ===== *)
(** * Building devices

    Models src/source/services/device/core/src/deviceModelHelper.c (creating a
    device, its endpoints, resources and metadata) and the common resources
    every device gets, fetchCommonResourcesInitialValues and
    addCommonResources of deviceService.c.  A device that is being built
    belongs to the routine that builds it, so it is a value; a routine that
    appends to it returns it with what was appended.  Allocation succeeds.

    Module InitialValues models
    src/source/services/device/core/src/device/icInitialResourceValues.c:
    while a device is being paired its driver collects the first values of its
    resources in a string map; a value of a device resource is stored under
    the resource id, a value of an endpoint resource under
    [endpointId/resourceId].  A stored value may be NULL. *)

From S2P Require Import Prelude KeyMap StringUtils DeviceModel JsonDatabase StringKeyed DeviceUris.
Import KeyMap StringUtils DeviceModel JsonDatabase StringKeyed DeviceUris.

Module InitialValues.

Section Code.
Context {VM : Type} `{KeyMap VM (option cstring)}.
Implicit Types (values : option VM) (resourceId endpointId value : option cstring).

Definition initialResourceValuesCreate : option VM := Some km_create.

(** ENDPOINT_FORMAT *)
Definition endpoint_key (e r : cstring) : cstring := e ++ str "/" ++ r.

(** stringHashMapDelete, then stringHashMapPut *)
Definition put_key values (key : cstring) value (allowReplace : bool) : outcome (bool * option VM) :=
  '(_, values) ← (if allowReplace then map_delete values key else Ok (None, values));
  map_put values key value.

Definition internalDeviceValuePut values resourceId value (allowReplace : bool) : outcome (bool * option VM) :=
  match values, resourceId with
  | Some _, Some key => put_key values key (strdup_or_null value) allowReplace
  | _, _ => Ok (false, values)
  end.

Definition initialResourceValuesPutDeviceValue values resourceId value := internalDeviceValuePut values resourceId value true.
Definition initialResourceValuesPutDeviceValueIfNotExists values resourceId value :=
  internalDeviceValuePut values resourceId value false.

Definition internalEndpointValuePut values endpointId resourceId value (allowReplace : bool) : outcome (bool * option VM) :=
  match values, endpointId, resourceId with
  | Some _, Some e, Some r => put_key values (endpoint_key e r) (strdup_or_null value) allowReplace
  | _, _, _ => Ok (false, values)
  end.

Definition initialResourceValuesPutEndpointValue values endpointId resourceId value :=
  internalEndpointValuePut values endpointId resourceId value true.
Definition initialResourceValuesPutEndpointValueIfNotExists values endpointId resourceId value :=
  internalEndpointValuePut values endpointId resourceId value false.

Definition initialResourceValuesHasDeviceValue values resourceId : outcome bool :=
  match values, resourceId with
  | Some m, Some key => km_contains m (zkey key)
  | _, _ => Ok false
  end.

Definition initialResourceValuesHasEndpointValue values endpointId resourceId : outcome bool :=
  match values, endpointId, resourceId with
  | Some m, Some e, Some r => km_contains m (zkey (endpoint_key e r))
  | _, _, _ => Ok false
  end.

(** A pointer that is absent and one that is NULL look the same. *)
Definition initialResourceValuesGetDeviceValue values resourceId : outcome (option cstring) :=
  match values, resourceId with
  | Some _, Some key => v ← map_get values key; Ok (default None v)
  | _, _ => Ok None
  end.

Definition initialResourceValuesGetEndpointValue values endpointId resourceId : outcome (option cstring) :=
  match values, endpointId, resourceId with
  | Some _, Some e, Some r => v ← map_get values (endpoint_key e r); Ok (default None v)
  | _, _, _ => Ok None
  end.

End Code.

(** ** What the map means to its users *)

Section Spec.
Context {VM : Type} `{KeyMapLaws VM (option cstring)}.
Implicit Types (values : option VM) (v : gmap cstring (option cstring)) (k : cstring) (x : option cstring).

Lemma put_replaces values v k x : holds values v → key_ok (zkey k) → Z.of_nat (size v) < 65535 →
  ∃ values', initialResourceValuesPutDeviceValue values (Some k) x = Ok (true, values') ∧ holds values' (<[k := x]> v).
Proof.
  intros Hh Hk Hz. destruct (holds_delete values v k Hh Hk) as (m1 & Hd & Hh1).
  destruct (holds_put_new m1 (delete k v) k (strdup_or_null x) Hh1 Hk) as (m2 & Hput & Hh2).
  - apply lookup_delete_eq.
  - pose proof (map_size_delete k v) as Hs. destruct (v !! k); unfold id in Hs; lia.
  - exists m2. unfold initialResourceValuesPutDeviceValue, internalDeviceValuePut, put_key.
    destruct values as [mm|]; [|by destruct Hh as (? & ? & ? & _)]. rewrite Hd. obind. rewrite Hput. split; [done|].
    eapply holds_ext; [exact Hh2|]. by rewrite insert_delete_eq; destruct x.
Qed.

Lemma has_value values v k : holds values v → key_ok (zkey k) →
  initialResourceValuesHasDeviceValue values (Some k) = Ok (bool_decide (is_Some (v !! k))).
Proof.
  intros Hh Hk. unfold initialResourceValuesHasDeviceValue. destruct values as [mm|]; [|by destruct Hh as (? & ? & ? & _)].
  by apply holds_contains.
Qed.

Lemma get_value values v k : holds values v → key_ok (zkey k) →
  initialResourceValuesGetDeviceValue values (Some k) = Ok (default None (v !! k)).
Proof.
  intros Hh Hk. unfold initialResourceValuesGetDeviceValue. destruct values as [mm|]; [|by destruct Hh as (? & ? & ? & _)].
  by rewrite (holds_get _ v k Hh Hk).
Qed.

End Spec.
End InitialValues.

Import InitialValues.

Module DeviceBuild.

(** ** Names *)

Definition COMMON_DEVICE_RESOURCE_MANUFACTURER := str "manufacturer".
Definition COMMON_DEVICE_RESOURCE_MODEL := str "model".
Definition COMMON_DEVICE_RESOURCE_HARDWARE_VERSION := str "hardwareVersion".
Definition COMMON_DEVICE_RESOURCE_FIRMWARE_VERSION := str "firmwareVersion".
Definition COMMON_DEVICE_RESOURCE_DATE_ADDED := str "dateAdded".
Definition COMMON_DEVICE_RESOURCE_DATE_LAST_CONTACTED := str "dateLastContacted".
Definition COMMON_DEVICE_RESOURCE_COMM_FAIL := str "communicationFailure".
Definition COMMON_DEVICE_RESOURCE_TIMEZONE := str "timezone".
Definition COMMON_DEVICE_RESOURCE_FIRMWARE_UPDATE_STATUS := str "firmwareUpdateStatus".
Definition COMMON_DEVICE_FUNCTION_RESET_TO_FACTORY := str "resetToFactoryDefaults".
Definition COMMON_ENDPOINT_RESOURCE_LABEL := str "label".

Definition RESOURCE_TYPE_STRING := str "com.icontrol.string".
Definition RESOURCE_TYPE_VERSION := str "com.icontrol.version".
Definition RESOURCE_TYPE_DATETIME := str "com.icontrol.dateTime".
Definition RESOURCE_TYPE_TROUBLE := str "com.icontrol.trouble".
Definition RESOURCE_TYPE_FIRMWARE_VERSION_STATUS := str "com.icontrol.firmwareVersionStatus".
Definition RESOURCE_TYPE_RESET_TO_FACTORY_OPERATION := str "com.icontrol.resetToFactoryOperation".

Definition RESOURCE_MODE_WRITEABLE : Z := 2.
Definition RESOURCE_MODE_EXECUTABLE : Z := 4.
Definition RESOURCE_MODE_DYNAMIC_CAPABLE : Z := 8.
Definition RESOURCE_MODE_DYNAMIC : Z := 16.
Definition RESOURCE_MODE_EMIT_EVENTS : Z := 32.

(** ** Fields of a device and an endpoint replaced *)

Definition set_resources (d : device) (rs : option (list icDeviceResource)) : device :=
  mkDevice (d_uuid d) (d_deviceClass d) (d_deviceClassVersion d) (d_uri d) (d_managingDeviceDriver d)
    (d_endpoints d) rs (d_metadata d).
Definition set_endpoints (d : device) (es : option (list endpoint)) : device :=
  mkDevice (d_uuid d) (d_deviceClass d) (d_deviceClassVersion d) (d_uri d) (d_managingDeviceDriver d)
    es (d_resources d) (d_metadata d).
Definition set_metadata (d : device) (ms : option (list icDeviceMetadata)) : device :=
  mkDevice (d_uuid d) (d_deviceClass d) (d_deviceClassVersion d) (d_uri d) (d_managingDeviceDriver d)
    (d_endpoints d) (d_resources d) ms.
Definition set_ep_resources (e : endpoint) (rs : option (list icDeviceResource)) : endpoint :=
  mkEndpoint (e_id e) (e_uri e) (e_profile e) (e_profileVersion e) (e_deviceUuid e) (e_enabled e) rs (e_metadata e).
Definition set_ep_metadata (e : endpoint) (ms : option (list icDeviceMetadata)) : endpoint :=
  mkEndpoint (e_id e) (e_uri e) (e_profile e) (e_profileVersion e) (e_deviceUuid e) (e_enabled e) (e_resources e) ms.

Definition snoc {A} (l : option (list A)) (x : A) : option (list A) := (λ l, l ++ [x]) <$> l.

(** ** Metadata *)

(** NULL for a NULL list or id; the uri is not set yet. *)
Definition createDeviceMetadataOnList (metadataList : option (list icDeviceMetadata))
    (endpointId metadataId deviceUuid value : option cstring) : outcome (option icDeviceMetadata) :=
  match metadataList, metadataId with
  | Some _, Some i =>
      uuid ← of_option deviceUuid;
      Ok (Some (mkMetadata (Some i) None (strdup_or_null endpointId) (Some uuid) (strdup_or_null value)))
  | _, _ => Ok None
  end.

Definition with_metadata_uri (m : icDeviceMetadata) (uri : cstring) : icDeviceMetadata :=
  mkMetadata (m_id m) (Some uri) (m_endpointId m) (m_deviceUuid m) (m_value m).

(** The result is written through without a NULL check. *)
Definition createDeviceMetadata (d : device) (metadataId value : option cstring) : outcome (icDeviceMetadata * device) :=
  result ← createDeviceMetadataOnList (d_metadata d) None metadataId (d_uuid d) value;
  m ← of_option result;
  uri ← getMetadataUri (d_uuid d) None metadataId;
  let m := with_metadata_uri m uri in
  Ok (m, set_metadata d (snoc (d_metadata d) m)).

Definition createEndpointMetadata (e : endpoint) (metadataId value : option cstring) : outcome (icDeviceMetadata * endpoint) :=
  result ← createDeviceMetadataOnList (e_metadata e) (e_id e) metadataId (e_deviceUuid e) value;
  m ← of_option result;
  uri ← getMetadataUri (e_deviceUuid e) (e_id e) metadataId;
  let m := with_metadata_uri m uri in
  Ok (m, set_ep_metadata e (snoc (e_metadata e) m)).

(** ** Devices and endpoints *)

Section Build.
Context {VM : Type} `{KeyMap VM (option cstring)}.

(** [dd_metadata] is the metadata map of the descriptor, when there is one. *)
Definition createDevice (uuid deviceClass : option cstring) (deviceClassVersion : Z) (deviceDriverName : option cstring)
    (dd_metadata : option VM) : outcome (option device) :=
  match uuid, deviceClass, deviceDriverName with
  | Some u, Some c, Some n =>
      let d := mkDevice (Some u) (Some c) deviceClassVersion None (Some n) (Some []) (Some []) (Some []) in
      d ← map_iterate dd_metadata (λ k v d, key ← c_str k; '(_, d) ← createDeviceMetadata d (Some key) v; Ok d) d;
      Ok (Some d)
  | _, _, _ => Ok None
  end.

Definition createEndpoint (d : option device) (id profile : option cstring) (enabled : bool)
    : outcome (option (endpoint * device)) :=
  match d, profile, id with
  | Some d, Some p, Some i =>
      uuid ← of_option (d_uuid d);
      let e := mkEndpoint (Some i) None (Some p) 0 (Some uuid) enabled (Some []) (Some []) in
      Ok (Some (e, set_endpoints d (snoc (d_endpoints d) e)))
  | _, _, _ => Ok None
  end.

(** ** Resources *)

(** A DYNAMIC resource is DYNAMIC_CAPABLE. *)
Definition createDeviceResourceOnList (resourceList : option (list icDeviceResource))
    (endpointId resourceId deviceUuid value type : option cstring) (mode cachingPolicy : Z)
    : outcome (option icDeviceResource) :=
  match resourceList, resourceId, type with
  | Some _, Some i, Some t =>
      if decide (mode = 0) then Ok None
      else
        uuid ← of_option deviceUuid;
        let mode := if has_mode mode RESOURCE_MODE_DYNAMIC then Z.lor mode RESOURCE_MODE_DYNAMIC_CAPABLE else mode in
        Ok (Some (mkResource (Some i) None (strdup_or_null endpointId) (Some uuid) (strdup_or_null value) (Some t) mode
                    cachingPolicy 0))
  | _, _, _ => Ok None
  end.

(** The resource and the device that has it. *)
Definition append_resource (d : device) (r : option icDeviceResource) : option icDeviceResource * device :=
  match r with Some x => (r, set_resources d (snoc (d_resources d) x)) | None => (None, d) end.

Definition createDeviceResource (d : device) (resourceId value type : option cstring) (mode cachingPolicy : Z)
    : outcome (option icDeviceResource * device) :=
  r ← createDeviceResourceOnList (d_resources d) None resourceId (d_uuid d) value type mode cachingPolicy;
  Ok (append_resource d r).

Definition createDeviceResourceIfAvailable (d : device) (resourceId : option cstring) (initialResourceValues : option VM)
    (type : option cstring) (mode cachingPolicy : Z) : outcome (option icDeviceResource * device) :=
  has ← initialResourceValuesHasDeviceValue initialResourceValues resourceId;
  if has : bool then
    value ← initialResourceValuesGetDeviceValue initialResourceValues resourceId;
    createDeviceResource d resourceId value type mode cachingPolicy
  else Ok (None, d).

Definition append_ep_resource (e : endpoint) (r : option icDeviceResource) : option icDeviceResource * endpoint :=
  match r with Some x => (r, set_ep_resources e (snoc (e_resources e) x)) | None => (None, e) end.

Definition createEndpointResource (e : endpoint) (resourceId value type : option cstring) (mode cachingPolicy : Z)
    : outcome (option icDeviceResource * endpoint) :=
  r ← createDeviceResourceOnList (e_resources e) (e_id e) resourceId (e_deviceUuid e) value type mode cachingPolicy;
  Ok (append_ep_resource e r).

Definition createEndpointResourceIfAvailable (e : endpoint) (resourceId : option cstring) (initialResourceValues : option VM)
    (type : option cstring) (mode cachingPolicy : Z) : outcome (option icDeviceResource * endpoint) :=
  has ← initialResourceValuesHasEndpointValue initialResourceValues (e_id e) resourceId;
  if has : bool then
    value ← initialResourceValuesGetEndpointValue initialResourceValues (e_id e) resourceId;
    createEndpointResource e resourceId value type mode cachingPolicy
  else Ok (None, e).

(** ** The common resources *)

(** getCurrentTimestampString; [now] is what getCurrentUnixTimeMillis returns. *)
Definition getCurrentTimestampString (now : Z) : cstring := decimal now.

(** The values of the common resources, in the order they are put. *)
Definition common_values (now : Z) (manufacturer model hardwareVersion firmwareVersion : option cstring)
    : list (cstring * option cstring) :=
  [(COMMON_DEVICE_RESOURCE_MANUFACTURER, manufacturer);
   (COMMON_DEVICE_RESOURCE_MODEL, model);
   (COMMON_DEVICE_RESOURCE_HARDWARE_VERSION, hardwareVersion);
   (COMMON_DEVICE_RESOURCE_FIRMWARE_VERSION, firmwareVersion);
   (COMMON_DEVICE_RESOURCE_FIRMWARE_UPDATE_STATUS, None);
   (COMMON_DEVICE_RESOURCE_DATE_ADDED, Some (getCurrentTimestampString now));
   (COMMON_DEVICE_RESOURCE_DATE_LAST_CONTACTED, Some (getCurrentTimestampString now));
   (COMMON_DEVICE_RESOURCE_COMM_FAIL, Some (str "false"))].

Definition fetchCommonResourcesInitialValues (now : Z) (manufacturer model hardwareVersion firmwareVersion : option cstring)
    (initialResourceValues : option VM) : outcome (bool * option VM) :=
  values ← foldM (λ p v, '(_, v) ← initialResourceValuesPutDeviceValue v (Some p.1) p.2; Ok v)
             (common_values now manufacturer model hardwareVersion firmwareVersion) initialResourceValues;
  Ok (true, values).

(** The common resources with their types and modes, in the order they are
    created. *)
Definition common_resources : list (cstring * cstring * Z) :=
  [(COMMON_DEVICE_RESOURCE_MANUFACTURER, RESOURCE_TYPE_STRING, RESOURCE_MODE_READABLE);
   (COMMON_DEVICE_RESOURCE_MODEL, RESOURCE_TYPE_STRING, RESOURCE_MODE_READABLE);
   (COMMON_DEVICE_RESOURCE_HARDWARE_VERSION, RESOURCE_TYPE_VERSION, RESOURCE_MODE_READABLE);
   (COMMON_DEVICE_RESOURCE_FIRMWARE_VERSION, RESOURCE_TYPE_VERSION,
    Z.lor (Z.lor RESOURCE_MODE_READABLE RESOURCE_MODE_DYNAMIC) RESOURCE_MODE_EMIT_EVENTS);
   (COMMON_DEVICE_RESOURCE_FIRMWARE_UPDATE_STATUS, RESOURCE_TYPE_FIRMWARE_VERSION_STATUS,
    Z.lor (Z.lor RESOURCE_MODE_READABLE RESOURCE_MODE_DYNAMIC) RESOURCE_MODE_EMIT_EVENTS);
   (COMMON_DEVICE_RESOURCE_DATE_ADDED, RESOURCE_TYPE_DATETIME, RESOURCE_MODE_READABLE);
   (COMMON_DEVICE_RESOURCE_DATE_LAST_CONTACTED, RESOURCE_TYPE_DATETIME,
    Z.lor (Z.lor RESOURCE_MODE_READABLE RESOURCE_MODE_DYNAMIC) RESOURCE_MODE_LAZY_SAVE_NEXT);
   (COMMON_DEVICE_RESOURCE_COMM_FAIL, RESOURCE_TYPE_TROUBLE,
    Z.lor (Z.lor RESOURCE_MODE_READABLE RESOURCE_MODE_DYNAMIC) RESOURCE_MODE_EMIT_EVENTS)].

(** Every resource is tried, also after one could not be created. *)
Fixpoint add_available (l : list (cstring * cstring * Z)) (initialResourceValues : option VM) (ok : bool) (d : device)
    : outcome (bool * device) :=
  match l with
  | [] => Ok (ok, d)
  | (i, t, mode) :: l =>
      '(r, d) ← createDeviceResourceIfAvailable d (Some i) initialResourceValues (Some t) mode CACHING_POLICY_ALWAYS;
      add_available l initialResourceValues (ok && bool_decide (is_Some r)) d
  end.

Definition addCommonResources (d : device) (initialResourceValues : option VM) : outcome (bool * device) :=
  '(ok, d) ← add_available common_resources initialResourceValues true d;
  '(r, d) ← createDeviceResource d (Some COMMON_DEVICE_FUNCTION_RESET_TO_FACTORY) None
              (Some RESOURCE_TYPE_RESET_TO_FACTORY_OPERATION) RESOURCE_MODE_EXECUTABLE CACHING_POLICY_NEVER;
  Ok (ok && bool_decide (is_Some r), d).

End Build.

(** deviceServiceFindDeviceResourceById: strcmp reads both ids. *)
Fixpoint find_resource (resourceId : cstring) (l : list icDeviceResource) : outcome (option icDeviceResource) :=
  match l with
  | [] => Ok None
  | r :: l => i ← of_option (r_id r); if decide (i = resourceId) then Ok (Some r) else find_resource resourceId l
  end.

Definition deviceServiceFindDeviceResourceById (d : option device) (resourceId : cstring) : outcome (option icDeviceResource) :=
  match d with Some d => find_resource resourceId (elems (d_resources d)) | None => Ok None end.

End DeviceBuild.
