(* ===== verification/DeviceDb.v ===== *)
(** * The interface between the device service and its database

    [DeviceDb] is what deviceService.c calls of jsonDatabase.h; [call] answers
    the requests of the abstract database (JsonDatabaseModel.v) with these
    operations, and [DeviceDbLaws] says that every allowed request is answered
    as the abstract database answers it.  The database of JsonDatabase.v
    implements the interface ([json_db], [json_db_laws]); the service's
    theorems are proved for any implementation. *)

From S2P Require Import Prelude KeyMap Json DeviceModel DeviceJson DeviceJsonSpec Storage JsonDatabase.
From S2P Require Import JsonDatabaseSpec JsonDatabaseOps JsonDatabaseMemory JsonDatabaseDevices JsonDatabaseQuery.
From S2P Require Import JsonDatabaseMetadata JsonDatabaseModel.
Import KeyMap Json DeviceModel DeviceJson DeviceJsonSpec Storage JsonDatabase JsonDatabaseSpec JsonDatabaseOps.
Import JsonDatabaseMemory JsonDatabaseDevices JsonDatabaseQuery JsonDatabaseMetadata JsonDatabaseModel.

Module DeviceDb.

Class DeviceDb (D : Type) := {
  db_AddDevice : option device → D → outcome (bool * D);
  db_RemoveDeviceById : option cstring → D → outcome (bool * D);
  db_GetDevices : D → outcome (list device);
  db_GetDevicesByEndpointProfile : option cstring → D → outcome (list device);
  db_GetDevicesByDeviceClass : option cstring → D → outcome (list device);
  db_GetDevicesByDeviceDriver : option cstring → D → outcome (list device);
  db_GetDeviceById : option cstring → D → outcome (option device);
  db_GetDeviceByUri : option cstring → D → outcome (option device);
  db_IsDeviceKnown : option cstring → D → outcome bool;
  db_AddEndpoint : option endpoint → D → outcome (bool * D);
  db_SaveEndpoint : option endpoint → D → outcome (bool * D);
  db_GetEndpointsByProfile : option cstring → D → outcome (list endpoint);
  db_GetEndpointById : option cstring → option cstring → D → outcome (option endpoint);
  db_GetEndpointByUri : option cstring → D → outcome (option endpoint);
  db_GetResourceByUri : option cstring → D → outcome (option icDeviceResource);
  db_SaveResource : option icDeviceResource → D → outcome (bool * D);
  db_UpdateDateOfLastSyncMillis : Z → option icDeviceResource → D → outcome (bool * D);
  db_GetMetadataByUri : option cstring → D → outcome (option icDeviceMetadata);
  db_SaveMetadata : option icDeviceMetadata → D → outcome (bool * D);
  db_GetResourcesByUriRegex : option cstring → D → outcome (list item);
  db_GetMetadataByUriRegex : option cstring → D → outcome (list item);
  db_GetSystemProperty : cstring → D → outcome (option cstring);
  db_SetSystemProperty : cstring → option cstring → D → outcome (bool * D);
  db_Reload : D → outcome (bool * D)
}.

Section Call.
Context {D : Type} `{DeviceDb D}.

Definition told {A} (mk : A → answer) (r : outcome (A * D)) : outcome (answer * D) := '(x, s) ← r; Ok (mk x, s).
Definition asked {A} (mk : A → answer) (r : outcome A) (s : D) : outcome (answer * D) := x ← r; Ok (mk x, s).

Definition call (req : request) (s : D) : outcome (answer * D) :=
  match req with
  | AddDevice d => told Done (db_AddDevice (Some d) s)
  | RemoveDevice uuid => told Done (db_RemoveDeviceById (Some uuid) s)
  | SaveResource r => told Done (db_SaveResource (Some r) s)
  | UpdateDate now r => told Done (db_UpdateDateOfLastSyncMillis now (Some r) s)
  | SaveMetadata m => told Done (db_SaveMetadata (Some m) s)
  | SaveEndpoint e => told Done (db_SaveEndpoint (Some e) s)
  | GetDevices => asked Devices (db_GetDevices s) s
  | GetDevicesByClass c => asked Devices (db_GetDevicesByDeviceClass (Some c) s) s
  | GetDevicesByDriver n => asked Devices (db_GetDevicesByDeviceDriver (Some n) s) s
  | GetDevicesByProfile p => asked Devices (db_GetDevicesByEndpointProfile (Some p) s) s
  | GetDevice uuid => asked OneDevice (db_GetDeviceById (Some uuid) s) s
  | GetDeviceByUri uri => asked OneDevice (db_GetDeviceByUri (Some uri) s) s
  | IsKnown uuid => asked Done (db_IsDeviceKnown (Some uuid) s) s
  | GetEndpoint uri => asked OneEndpoint (db_GetEndpointByUri (Some uri) s) s
  | GetEndpointById uuid i => asked OneEndpoint (db_GetEndpointById (Some uuid) (Some i) s) s
  | GetResource uri => asked OneResource (db_GetResourceByUri (Some uri) s) s
  | GetMetadata uri => asked OneMetadata (db_GetMetadataByUri (Some uri) s) s
  end.

End Call.

Class DeviceDbLaws (D : Type) `{DeviceDb D} := {
  (* the database is consistent and holds these devices *)
  db_model : D → list device → Prop;
  (* its storage does not fail *)
  db_healthy : D → Prop;
  db_uuids s ds : db_model s ds → NoDup (d_uuid <$> ds) ∧ Forall is_Some (d_uuid <$> ds);
  db_uris s ds : db_model s ds → NoDup (concat (device_uris <$> ds)) ∧ Forall is_Some (concat (device_uris <$> ds));
  db_lists s ds : db_model s ds → Forall cloneable ds;
  db_law req s ds : db_model s ds → allowed ds req →
    ∃ a s' ds', call req s = Ok (a, s') ∧ db_model s' ds' ∧ step (db_healthy s) ds req a ds' ∧
      (db_healthy s → db_healthy s')
}.

(** ** The database of jsonDatabase.c *)

Section Instance_.
Context {json : Type} `{JsonLaws json} `{ProtectLaws} `{Regex}.
Context {SM : Type} `{KeyMapLaws SM cstring}.
Context {DM : Type} `{KeyMapLaws DM addr}.
Context {UM : Type} `{KeyMapLaws UM Locator}.
Context {PM : Type} `{KeyMapLaws PM (option cstring)}.
Context {ST : Type} `{StoreLaws ST}.
Abbreviation state := (db DM UM PM ST).

Definition json_db : DeviceDb state := {|
  db_AddDevice := jsonDatabaseAddDevice (json := json) (SM := SM);
  db_RemoveDeviceById := jsonDatabaseRemoveDeviceById;
  db_GetDevices := jsonDatabaseGetDevices;
  db_GetDevicesByEndpointProfile := jsonDatabaseGetDevicesByEndpointProfile;
  db_GetDevicesByDeviceClass := jsonDatabaseGetDevicesByDeviceClass;
  db_GetDevicesByDeviceDriver := jsonDatabaseGetDevicesByDeviceDriver;
  db_GetDeviceById := jsonDatabaseGetDeviceById;
  db_GetDeviceByUri := jsonDatabaseGetDeviceByUri;
  db_IsDeviceKnown := jsonDatabaseIsDeviceKnown;
  db_AddEndpoint := jsonDatabaseAddEndpoint (json := json) (SM := SM);
  db_SaveEndpoint := jsonDatabaseSaveEndpoint (json := json) (SM := SM);
  db_GetEndpointsByProfile := jsonDatabaseGetEndpointsByProfile;
  db_GetEndpointById := jsonDatabaseGetEndpointById;
  db_GetEndpointByUri := jsonDatabaseGetEndpointByUri;
  db_GetResourceByUri := jsonDatabaseGetResourceByUri;
  db_SaveResource := jsonDatabaseSaveResource (json := json) (SM := SM);
  db_UpdateDateOfLastSyncMillis := jsonDatabaseUpdateDateOfLastSyncMillis;
  db_GetMetadataByUri := jsonDatabaseGetMetadataByUri;
  db_SaveMetadata := jsonDatabaseSaveMetadata (json := json) (SM := SM);
  db_GetResourcesByUriRegex := jsonDatabaseGetResourcesByUriRegex;
  db_GetMetadataByUriRegex := jsonDatabaseGetMetadataByUriRegex;
  db_GetSystemProperty := jsonDatabaseGetSystemProperty;
  db_SetSystemProperty := jsonDatabaseSetSystemProperty (json := json);
  db_Reload := jsonDatabaseReload (json := json) (SM := SM)
|}.

Definition json_db_laws : DeviceDbLaws state (H := json_db).
Proof.
  refine {| db_model s ds := ∃ cs, db_ok (json := json) (SM := SM) s cs ∧ ds = c_dev <$> cs;
            db_healthy s := st_healthy (store s) |}.
  - intros s ds (cs & [Hr _] & ->). rewrite (repr_uuids s cs Hr). split; [|apply Forall_fmap, Forall_true; by eexists].
    apply NoDup_fmap_2; [apply _|]. by eapply repr_uuids_nodup.
  - intros s ds (cs & [Hr _] & ->). rewrite <-(repr_uris s cs Hr). split; [|apply Forall_fmap, Forall_true; by eexists].
    apply NoDup_fmap_2; [apply _|]. by eapply repr_uris_nodup.
  - intros s ds (cs & [Hr _] & ->). apply Forall_forall. intros d (c & -> & Hc)%list_elem_of_fmap. apply (ck_clone _ _ (rp_ok _ _ Hr c Hc)).
  - intros req s ds (cs & Hok & ->) Hal. destruct (simulation (json := json) (SM := SM) req s cs Hok Hal) as (a & s' & cs' & Hrun & Hok' & Hst & Hh).
    exists a, s', (c_dev <$> cs'). split; [by destruct req|]. split; [by exists cs'|done].
Defined.

End Instance_.
End DeviceDb.
