(* ===== verification/DeviceService.v ===== *)
(** * The device service

    Models src/source/services/device/core/src/deviceService.c: reading,
    writing and executing resources, updating them from a driver, metadata,
    removing devices and endpoints, the blacklist and the readiness of the
    service.  Pairing and reconfiguring devices is DevicePairing.v.

    The state ([service]) has the database behind its interface (DeviceDb.v),
    the map of uuids marked for removal, the running discoveries, the
    properties the service reads and sets at the properties service, and the
    log of what it sent: the events and the requests to the backup service.
    A driver is a record of functions on this state ([DeviceDriver]), as it may
    call the service back; a function pointer that the code tests against
    NULL is an option.  [now] is what getCurrentUnixTimeMillis returns. *)

From S2P Require Import Prelude KeyMap StringUtils DeviceModel JsonDatabase DeviceDb DeviceUris DeviceBuild.
Import KeyMap StringUtils DeviceModel JsonDatabase DeviceDb DeviceUris DeviceBuild.

Module DeviceService.

Section Service.
Context {D : Type} `{DeviceDb D}.
Context {MM : Type} `{KeyMap MM unit}.                (* markedForRemoval *)
Context {VM : Type} `{KeyMap VM (option cstring)}.    (* string maps *)
Context {J : Type}.                                   (* cJSON metadata of an event *)
Context {DD : Type}.                                  (* DeviceDescriptor *)

Inductive event :=
  | DeviceRejected (uuid : option cstring)
  | DeviceDiscovered (uuid : option cstring)
  | ConfigureStarted (deviceClass uuid : option cstring)
  | ConfigureFailed (deviceClass uuid : option cstring)
  | ConfigureCompleted (deviceClass uuid : option cstring)
  | DiscoveryFailed (uuid deviceClass : option cstring)
  | DiscoveryCompleted (d : device)
  | DeviceAdded (uuid : option cstring)
  | DeviceRecovered (uuid : option cstring)
  | DeviceRemoved (uuid deviceClass : option cstring)
  | EndpointAdded (e : endpoint) (deviceClass : option cstring)
  | EndpointRemoved (e : endpoint) (deviceClass : option cstring)
  | ResourceUpdated (r : icDeviceResource) (metadata : option J)
  | ConfigUpdated.                       (* backupRestoreService_request_CONFIG_UPDATED *)

Record service := mkService {
  sv_db : D;
  markedForRemoval : option MM;
  activeDiscoveries : gmap cstring bool;  (* device class to findOrphanedDevices *)
  sv_props : gmap cstring cstring;
  sv_log : list event
}.
Implicit Types (s : service).

Definition with_db s x := mkService x (markedForRemoval s) (activeDiscoveries s) (sv_props s) (sv_log s).
Definition with_marked s x := mkService (sv_db s) x (activeDiscoveries s) (sv_props s) (sv_log s).
Definition with_props s x := mkService (sv_db s) (markedForRemoval s) (activeDiscoveries s) x (sv_log s).
Definition send s (e : event) := mkService (sv_db s) (markedForRemoval s) (activeDiscoveries s) (sv_props s) (sv_log s ++ [e]).

(** An operation of the database that changes it. *)
Definition on_db {A} (f : D → outcome (A * D)) s : outcome (A * service) := '(x, db) ← f (sv_db s); Ok (x, with_db s db).

(** ** Drivers *)

(** The fields of DeviceDriver that this part of the service uses. *)
Record DeviceDriver := mkDriver {
  driverName : option cstring;
  subsystemName : option cstring;
  drv_deviceRemoved : option (device → service → outcome service);
  drv_configureDevice : device → option DD → service → outcome (bool * device * service);
  drv_fetchInitialResourceValues : device → option VM → service → outcome (bool * device * option VM * service);
  drv_registerResources : device → option VM → service → outcome (bool * device * service);
  drv_devicePersisted : option (device → service → outcome service);
  drv_readResource : icDeviceResource → service → outcome (bool * option cstring * service);
  drv_writeResource : icDeviceResource → option cstring → option cstring → service → outcome (bool * service);
  drv_executeResource : option (icDeviceResource → option cstring → service → outcome (bool * option cstring * service));
  drv_processDeviceDescriptor : option (device → DD → service → outcome (bool * device * service));
  drv_communicationFailed : device → service → outcome service;
  drv_communicationRestored : device → service → outcome service;
  drv_synchronizeDevice : option (device → service → outcome service);
  drv_deviceNeedsReconfiguring : option (device → service → outcome (bool * service));
  drv_endpointDisabled : option (endpoint → service → outcome service);
  drv_getDeviceClassVersion : option (option cstring → option Z)
}.

(** The drivers in the order they were loaded; the first of a name is the one
    the map of drivers has. *)
Variable orderedDeviceDrivers : list DeviceDriver.

Definition deviceDriverManagerGetDeviceDriver (name : option cstring) : outcome (option DeviceDriver) :=
  n ← of_option name; Ok (head (filter (λ d, driverName d = Some n) orderedDeviceDrivers)).

Definition getDeviceDriverForUri (uri : option cstring) s : outcome (option DeviceDriver) :=
  device ← db_GetDeviceByUri uri (sv_db s);
  match device with
  | Some d => deviceDriverManagerGetDeviceDriver (d_managingDeviceDriver d)
  | None => Ok None
  end.

(** A callback that may be NULL. *)
Definition notify {A} (f : option (A → service → outcome service)) (x : A) s : outcome service :=
  match f with Some f => f x s | None => Ok s end.

(** ** Resources *)

Definition set_value (r : icDeviceResource) (v : option cstring) : icDeviceResource :=
  mkResource (r_id r) (r_uri r) (r_endpointId r) (r_deviceUuid r) v (r_type r) (r_mode r) (r_cachingPolicy r)
    (r_dateOfLastSyncMillis r).

Definition deviceServiceGetResourceByIdInternal (deviceUuid endpointId resourceId : option cstring) s
    : outcome (option icDeviceResource) :=
  match deviceUuid, resourceId with
  | Some _, Some _ =>
      uri ← resource_uri deviceUuid endpointId resourceId;
      db_GetResourceByUri (Some uri) (sv_db s)
  | _, _ => Ok None
  end.

Definition deviceServiceGetResourceById := deviceServiceGetResourceByIdInternal.

(** Passed on to the database. *)
Definition deviceServiceGetDevicesByProfile (profileId : option cstring) s := db_GetDevicesByEndpointProfile profileId (sv_db s).
Definition deviceServiceGetDevicesByDeviceClass (deviceClass : option cstring) s := db_GetDevicesByDeviceClass deviceClass (sv_db s).
Definition deviceServiceGetDevicesByDeviceDriver (deviceDriver : option cstring) s := db_GetDevicesByDeviceDriver deviceDriver (sv_db s).
Definition deviceServiceGetAllDevices s := db_GetDevices (sv_db s).
Definition deviceServiceGetEndpointsByProfile (profileId : option cstring) s := db_GetEndpointsByProfile profileId (sv_db s).
Definition deviceServiceGetDevice (uuid : option cstring) s := db_GetDeviceById uuid (sv_db s).
Definition deviceServiceIsDeviceKnown (uuid : option cstring) s := db_IsDeviceKnown uuid (sv_db s).
Definition deviceServiceGetDeviceByUri (uri : option cstring) s := db_GetDeviceByUri uri (sv_db s).
Definition deviceServiceGetEndpointByUri (uri : option cstring) s := db_GetEndpointByUri uri (sv_db s).
Definition deviceServiceGetEndpointById (deviceUuid endpointId : option cstring) s := db_GetEndpointById deviceUuid endpointId (sv_db s).

(** What the driver tells of a resource: a changed value is saved, an
    unchanged one only gets a new date, an uncached one is not saved. *)
Definition updateResource (now : Z) (deviceUuid endpointId resourceId newValue : option cstring) (metadata : option J) s
    : outcome service :=
  resource ← deviceServiceGetResourceByIdInternal deviceUuid endpointId resourceId s;
  match resource with
  | None => Ok s
  | Some r =>
      if bool_decide (r_cachingPolicy r = CACHING_POLICY_NEVER) && has_mode (r_mode r) RESOURCE_MODE_EMIT_EVENTS then
        Ok (send s (ResourceUpdated (set_value r newValue) metadata))
      else if decide (r_value r = newValue) then
        '(_, s) ← on_db (db_UpdateDateOfLastSyncMillis now (Some r)) s; Ok s
      else
        let r := set_date (set_value r newValue) now in
        '(_, s) ← on_db (db_SaveResource (Some r)) s;
        let s := if has_mode (r_mode r) RESOURCE_MODE_LAZY_SAVE_NEXT then s else send s ConfigUpdated in
        Ok (if has_mode (r_mode r) RESOURCE_MODE_EMIT_EVENTS then send s (ResourceUpdated r metadata) else s)
  end.

(** The resource of a URI; for one that is not known, the resource of the same
    name on the root device of the URI's endpoint. *)
Definition find_or_inherit (uri : cstring) s : outcome (option icDeviceResource) :=
  result ← db_GetResourceByUri (Some uri) (sv_db s);
  match result with
  | Some r => Ok (Some r)
  | None =>
      endpoint ← db_GetEndpointByUri (Some uri) (sv_db s);
      match endpoint with
      | Some e =>
          device ← db_GetDeviceById (e_deviceUuid e) (sv_db s);
          match device with
          | Some d =>
              epUri ← of_option (e_uri e);
              subUri ← (if decide (length epUri ≤ length uri)%nat then Ok (drop (length epUri) uri) else Fault);
              deviceUri ← of_option (d_uri d);
              db_GetResourceByUri (Some (deviceUri ++ subUri)) (sv_db s)
          | None => Ok None
          end
      | None => Ok None
      end
  end.

Definition deviceServiceGetResourceByUri (now : Z) (uri : option cstring) s : outcome (option icDeviceResource * service) :=
  match uri with
  | None => Ok (None, s)
  | Some u =>
      result ← find_or_inherit u s;
      match result with
      | None => Ok (None, s)
      | Some r =>
          if bool_decide (r_cachingPolicy r = CACHING_POLICY_NEVER) && has_mode (r_mode r) RESOURCE_MODE_READABLE then
            driver ← getDeviceDriverForUri uri s;
            match driver with
            | None => Ok (None, s)
            | Some drv =>
                '(ok, value, s) ← drv_readResource drv r s;
                if ok : bool then
                  s ← updateResource now (r_deviceUuid r) (r_endpointId r) (r_id r) value None s;
                  Ok (Some (set_value r value), s)
                else Ok (None, s)
            end
          else Ok (Some r, s)
      end
  end.

(** The driver writes; it calls updateResource when it succeeded. *)
Definition deviceServiceWriteResourceNoPattern (uri : cstring) (value : option cstring) s : outcome (bool * service) :=
  resource ← find_or_inherit uri s;
  match resource with
  | None => Ok (false, s)
  | Some r =>
      if has_mode (r_mode r) RESOURCE_MODE_WRITEABLE then
        driver ← getDeviceDriverForUri (Some uri) s;
        match driver with
        | Some drv => drv_writeResource drv r (r_value r) value s
        | None => Ok (false, s)
        end
      else Ok (false, s)
  end.

(** One resource that matched a pattern; none is written after a failure. *)
Definition write_item (value : option cstring) (i : item) (x : bool * service) : outcome (bool * service) :=
  let '(result, s) := x in
  match i with
  | ItemResource r =>
      if result : bool then u ← of_option (r_uri r); deviceServiceWriteResourceNoPattern u value s else Ok (false, s)
  | _ => Fault
  end.

Definition deviceServiceWriteResource (uri value : option cstring) s : outcome (bool * service) :=
  match uri with
  | None => Ok (false, s)
  | Some u =>
      if isUriPattern u then
        regex ← createRegexFromPattern u;
        resources ← db_GetResourcesByUriRegex (Some regex) (sv_db s);
        foldM (write_item value) resources (bool_decide (0 < zlen resources), s)
      else deviceServiceWriteResourceNoPattern u value s
  end.

Definition deviceServiceExecuteResource (uri arg : option cstring) s : outcome (bool * option cstring * service) :=
  match uri with
  | None => Ok (false, None, s)
  | Some u =>
      resource ← find_or_inherit u s;
      match resource with
      | None => Ok (false, None, s)
      | Some r =>
          if has_mode (r_mode r) RESOURCE_MODE_EXECUTABLE then
            driver ← getDeviceDriverForUri uri s;
            match driver with
            | Some drv => match drv_executeResource drv with Some f => f r arg s | None => Ok (false, None, s) end
            | None => Ok (false, None, s)
            end
          else Ok (false, None, s)
      end
  end.

Definition set_mode (r : icDeviceResource) (mode : Z) : icDeviceResource :=
  mkResource (r_id r) (r_uri r) (r_endpointId r) (r_deviceUuid r) (r_value r) (r_type r) mode (r_cachingPolicy r)
    (r_dateOfLastSyncMillis r).

(** The sensitive bit cannot be removed. *)
Definition new_mode (old newMode : Z) : Z :=
  if has_mode old RESOURCE_MODE_SENSITIVE && negb (has_mode newMode RESOURCE_MODE_SENSITIVE)
  then Z.lor newMode RESOURCE_MODE_SENSITIVE else newMode.

Definition deviceServiceChangeResourceMode (uri : option cstring) (newMode : Z) s : outcome (bool * service) :=
  match uri with
  | None => Ok (false, s)
  | Some u =>
      resource ← find_or_inherit u s;
      match resource with
      | None => Ok (false, s)
      | Some r => '(_, s) ← on_db (db_SaveResource (Some (set_mode r (new_mode (r_mode r) newMode)))) s; Ok (true, s)
      end
  end.

(** The age, computed in uint64_t. *)
Definition deviceServiceGetResourceAgeMillis (now : Z) (deviceUuid endpointId resourceId : option cstring) s
    : outcome (bool * Z) :=
  match deviceUuid, resourceId with
  | Some _, Some _ =>
      resource ← deviceServiceGetResourceByIdInternal deviceUuid endpointId resourceId s;
      match resource with
      | Some r => Ok (true, u64 (now - r_dateOfLastSyncMillis r))
      | None => Ok (false, 0)
      end
  | _, _ => Ok (false, 0)
  end.

Definition updateDeviceDateLastContacted (now : Z) (deviceUuid : option cstring) s : outcome service :=
  updateResource now deviceUuid None (Some COMMON_DEVICE_RESOURCE_DATE_LAST_CONTACTED)
    (Some (getCurrentTimestampString now)) None s.

(** strtoull reads the value. *)
Definition getDeviceDateLastContacted (deviceUuid : option cstring) s : outcome Z :=
  resource ← deviceServiceGetResourceById deviceUuid None (Some COMMON_DEVICE_RESOURCE_DATE_LAST_CONTACTED) s;
  match resource with
  | Some r => v ← of_option (r_value r); Ok (fst (fst (strtoull v 10)))
  | None => Ok 0
  end.

Definition deviceServiceIsDeviceInCommFail (deviceUuid : option cstring) s : outcome bool :=
  match deviceUuid with
  | None => Ok false
  | Some _ =>
      resource ← deviceServiceGetResourceById deviceUuid None (Some COMMON_DEVICE_RESOURCE_COMM_FAIL) s;
      match resource with Some r => Ok (stringToBool (r_value r)) | None => Ok false end
  end.

Definition deviceServiceGetDeviceFirmwareVersion (deviceUuid : option cstring) s : outcome (option cstring) :=
  match deviceUuid with
  | None => Ok None
  | Some _ =>
      resource ← deviceServiceGetResourceById deviceUuid None (Some COMMON_DEVICE_RESOURCE_FIRMWARE_VERSION) s;
      match resource with Some r => Ok (r_value r) | None => Ok None end
  end.

(** ** Metadata *)

Definition set_meta_value (m : icDeviceMetadata) (v : option cstring) : icDeviceMetadata :=
  mkMetadata (m_id m) (m_uri m) (m_endpointId m) (m_deviceUuid m) v.

Definition setMetadata (deviceUuid endpointId name value : option cstring) s : outcome service :=
  match deviceUuid, name, value with
  | Some u, Some n, Some v =>
      uri ← getMetadataUri deviceUuid endpointId name;
      metadata ← db_GetMetadataByUri (Some uri) (sv_db s);
      match metadata with
      | Some m =>
          old ← of_option (m_value m);
          if decide (old = v) then Ok s
          else '(_, s) ← on_db (db_SaveMetadata (Some (set_meta_value m (Some v)))) s; Ok s
      | None =>
          '(_, s) ← on_db (db_SaveMetadata (Some (mkMetadata (Some n) (Some uri) (strdup_or_null endpointId) (Some u) (Some v)))) s;
          Ok s
      end
  | _, _, _ => Ok s
  end.

Definition getMetadata (deviceUuid endpointId name : option cstring) s : outcome (option cstring) :=
  match deviceUuid, name with
  | Some _, Some _ =>
      uri ← getMetadataUri deviceUuid endpointId name;
      metadata ← db_GetMetadataByUri (Some uri) (sv_db s);
      Ok (match metadata with Some m => m_value m | None => None end)
  | _, _ => Ok None
  end.

Definition setBooleanMetadata (deviceUuid endpointId name : option cstring) (value : bool) s : outcome service :=
  setMetadata deviceUuid endpointId name (Some (if value then str "true" else str "false")) s.

Definition getBooleanMetadata (deviceUuid endpointId name : option cstring) s : outcome bool :=
  value ← getMetadata deviceUuid endpointId name s; Ok (bool_decide (value = Some (str "true"))).

(** The value of a metadata, NULL when there is none; [value] of the code is
    not NULL. *)
Definition deviceServiceGetMetadata (uri : option cstring) s : outcome (bool * option cstring) :=
  metadata ← db_GetMetadataByUri uri (sv_db s);
  Ok (true, match metadata with Some m => m_value m | None => None end).

(** strlen, strstr and sscanf read the URI; strcmp reads both values. *)
Definition deviceServiceSetMetadata (uri value : option cstring) s : outcome (bool * service) :=
  metadata ← db_GetMetadataByUri uri (sv_db s);
  match metadata with
  | None =>
      u ← of_option uri;
      match parse_metadata_uri u with
      | Some (deviceId, endpointId, name) =>
          on_db (db_SaveMetadata (Some (mkMetadata (Some name) (Some u) endpointId (Some deviceId) (strdup_or_null value)))) s
      | None => Ok (false, s)
      end
  | Some m =>
      u ← of_option uri;
      mu ← of_option (m_uri m);
      saveDb ← (if decide (u = mu)
                then v ← of_option value; old ← of_option (m_value m); Ok (negb (bool_decide (v = old)))
                else Ok true);
      if saveDb : bool then on_db (db_SaveMetadata (Some (set_meta_value m (strdup_or_null value)))) s else Ok (true, s)
  end.

(** The devices with a metadata, and with a given value of it if one is given. *)
Definition has_metadata (metadataId : cstring) (valueToCompare : option cstring) s (d : device) : outcome bool :=
  uuid ← of_option (d_uuid d);
  '(_, value) ← deviceServiceGetMetadata (Some (createDeviceMetadataUri uuid metadataId)) s;
  Ok (match value, valueToCompare with
      | Some _, None => true
      | Some v, Some w => bool_decide (strcasecmp v w = 0)
      | None, _ => false
      end).

Fixpoint select (p : device → outcome bool) (l : list device) : outcome (list device) :=
  match l with
  | [] => Ok []
  | d :: l => b ← p d; l ← select p l; Ok (if b : bool then d :: l else l)
  end.

Definition deviceServiceGetDevicesByMetadata (metadataId valueToCompare : option cstring) s : outcome (option (list device)) :=
  match metadataId with
  | None => Ok None
  | Some i => devices ← db_GetDevices (sv_db s); l ← select (has_metadata i valueToCompare s) devices; Ok (Some l)
  end.

Definition deviceServiceGetDevicesBySubsystem (subsystem : cstring) s : outcome (list device) :=
  devices ← db_GetDevices (sv_db s);
  select (λ d, driver ← getDeviceDriverForUri (d_uri d) s;
    Ok (match driver with Some drv => bool_decide (subsystemName drv = Some subsystem) | None => false end)) devices.

Definition deviceServiceGetMetadataByUriPattern (uriPattern : option cstring) s : outcome (option (list item)) :=
  match uriPattern with
  | None => Ok None
  | Some u =>
      if isUriPattern u then
        regex ← createRegexFromPattern u; l ← db_GetMetadataByUriRegex (Some regex) (sv_db s); Ok (Some l)
      else m ← db_GetMetadataByUri uriPattern (sv_db s); Ok (Some (option_list (ItemMetadata <$> m)))
  end.

Definition deviceServiceGetResourcesByUriPattern (uriPattern : option cstring) s : outcome (option (list item)) :=
  match uriPattern with
  | None => Ok None
  | Some u =>
      if isUriPattern u then
        regex ← createRegexFromPattern u; l ← db_GetResourcesByUriRegex (Some regex) (sv_db s); Ok (Some l)
      else r ← db_GetResourceByUri uriPattern (sv_db s); Ok (Some (option_list (ItemResource <$> r)))
  end.

(** ** Removing devices and endpoints *)

(** The events for the enabled endpoints of a device. *)
Definition send_endpoints (mk : endpoint → option cstring → event) (d : device) s : service :=
  foldl (λ s e, if e_enabled e then send s (mk e (d_deviceClass d)) else s) s (elems (d_endpoints d)).

(** A device that is not known is marked, so that a pairing in progress ends
    without it. *)
Definition deviceServiceRemoveDevice (uuid : option cstring) s : outcome (bool * service) :=
  device ← db_GetDeviceById uuid (sv_db s);
  match device with
  | Some d =>
      '(ok, s) ← on_db (db_RemoveDeviceById uuid) s;
      if ok : bool then
        let s := send_endpoints EndpointRemoved d s in
        driver ← deviceDriverManagerGetDeviceDriver (d_managingDeviceDriver d);
        s ← match driver with Some drv => notify (drv_deviceRemoved drv) d s | None => Ok s end;
        Ok (true, send s (DeviceRemoved (d_uuid d) (d_deviceClass d)))
      else Ok (false, s)
  | None =>
      match uuid with
      | Some u => '(_, m) ← map_put (markedForRemoval s) u tt; Ok (true, with_marked s m)
      | None => Ok (false, s)
      end
  end.

Definition deviceServiceGetEndpoint (deviceUuid endpointId : option cstring) s : outcome (option endpoint) :=
  match deviceUuid, endpointId with
  | Some _, Some _ =>
      result ← db_GetEndpointById deviceUuid endpointId (sv_db s);
      Ok (match result with Some e => if e_enabled e then Some e else None | None => None end)
  | _, _ => Ok None
  end.

Definition disable (e : endpoint) : endpoint :=
  mkEndpoint (e_id e) (e_uri e) (e_profile e) (e_profileVersion e) (e_deviceUuid e) false (e_resources e) (e_metadata e).

(** Another enabled endpoint; strcmp reads the ids of the enabled ones. *)
Fixpoint other_enabled (endpointId : option cstring) (l : list endpoint) : outcome bool :=
  match l with
  | [] => Ok false
  | e :: l =>
      if e_enabled e then
        i ← of_option (e_id e); j ← of_option endpointId;
        if decide (i = j) then other_enabled endpointId l else Ok true
      else other_enabled endpointId l
  end.

Definition deviceServiceRemoveEndpointById (deviceUuid endpointId : option cstring) s : outcome (bool * service) :=
  device ← db_GetDeviceById deviceUuid (sv_db s);
  endpoint ← db_GetEndpointById deviceUuid endpointId (sv_db s);
  match endpoint, device with
  | Some e, Some d =>
      if e_enabled e then
        let e := disable e in
        '(_, s) ← on_db (db_SaveEndpoint (Some e)) s;
        let s := send (send s ConfigUpdated) (EndpointRemoved e (d_deviceClass d)) in
        atLeastOneActiveEndpoint ← other_enabled (e_id e) (elems (d_endpoints d));
        if atLeastOneActiveEndpoint : bool then
          driver ← deviceDriverManagerGetDeviceDriver (d_managingDeviceDriver d);
          s ← match driver with Some drv => notify (drv_endpointDisabled drv) e s | None => Ok s end;
          Ok (true, s)
        else
          '(_, s) ← deviceServiceRemoveDevice (e_deviceUuid e) s;
          Ok (true, send s ConfigUpdated)
      else Ok (false, s)
  | _, _ => Ok (false, s)
  end.

(** ** Endpoints of known devices *)

Definition deviceServiceAddEndpoint (device : option device) (endpoint : option endpoint) s : outcome service :=
  match device, endpoint with
  | Some d, Some e =>
      e ← set_endpoint_uris (d_uuid d) e;
      '(_, s) ← on_db (db_AddEndpoint (Some e)) s;
      let s := send s ConfigUpdated in
      Ok (if e_enabled e then send s (EndpointAdded e (d_deviceClass d)) else s)
  | _, _ => Ok s
  end.

(** strcmp reads both uuids. *)
Definition deviceServiceUpdateEndpoint (device : option device) (endpoint : option endpoint) s : outcome service :=
  match device, endpoint with
  | Some d, Some e =>
      u ← of_option (d_uuid d); v ← of_option (e_deviceUuid e);
      if decide (u = v) then
        currentEp ← db_GetEndpointByUri (e_uri e) (sv_db s);
        match currentEp with
        | Some c =>
            uri ← of_option (e_uri e);
            rs ← setUrisOnResources uri (e_resources e);
            let e := set_ep_resources e rs in
            '(_, s) ← on_db (db_SaveEndpoint (Some e)) s;
            let s := send s ConfigUpdated in
            Ok (if negb (e_enabled c) && e_enabled e then send s (EndpointAdded e (d_deviceClass d)) else s)
        | None => Ok s
        end
      else Ok s
  | _, _ => Ok s
  end.

(** ** Communication failure *)

Definition deviceCommFailCallback (uuid : option cstring) s : outcome service :=
  device ← db_GetDeviceById uuid (sv_db s);
  match device with
  | Some d =>
      driver ← deviceDriverManagerGetDeviceDriver (d_managingDeviceDriver d);
      match driver with Some drv => drv_communicationFailed drv d s | None => Ok s end
  | None => Ok s
  end.

Definition deviceCommRestoreCallback (now : Z) (uuid : option cstring) s : outcome service :=
  device ← db_GetDeviceById uuid (sv_db s);
  match device with
  | Some d =>
      driver ← deviceDriverManagerGetDeviceDriver (d_managingDeviceDriver d);
      s ← match driver with Some drv => drv_communicationRestored drv d s | None => Ok s end;
      updateDeviceDateLastContacted now uuid s
  | None => Ok s
  end.

(** ** The blacklist *)

Definition CPE_BLACKLISTED_DEVICES_PROPERTY_NAME := str "cpe.blacklistedDevices".
Definition POSIX_TIME_ZONE_PROP := str "POSIX_TZ".

(** [fill]: what fresh memory holds. *)
Variable fill : nat → byte.

Definition COMMA : byte := ","%char.

(** The tokens strtok_r finds: the parts between commas that are not empty. *)
Fixpoint tokens (s acc : cstring) : list cstring :=
  match s with
  | [] => if decide (acc = []) then [] else [acc]
  | c :: t =>
      if decide (c = COMMA) then if decide (acc = []) then tokens t [] else acc :: tokens t []
      else tokens t (acc ++ [c])
  end.

Definition strtok (s : cstring) : list cstring := tokens s [].

Definition blacklist s : cstring := default [] (sv_props s !! CPE_BLACKLISTED_DEVICES_PROPERTY_NAME).

Fixpoint listed (uuid : option cstring) (l : list cstring) : outcome bool :=
  match l with
  | [] => Ok false
  | x :: l => t ← trimString fill (Some x); if decide (stringCompare uuid (Some t) true = 0) then Ok true else listed uuid l
  end.

Definition deviceServiceIsDeviceBlacklisted (uuid : option cstring) s : outcome bool :=
  if stringIsEmpty (Some (blacklist s)) then Ok false else listed uuid (strtok (blacklist s)).

(** setPropertyValue of propsHelper.c with overwrite true: a NULL value is an
    invalid request, anything else is sent to the properties service.  Whether
    that stores the value is [stored]: the request may not get there, and the
    service refuses it when a source of higher priority set the property.
    The callers drop the result. *)
Definition setPropertyValue (stored : bool) (propName : cstring) (propValue : option cstring) s : service :=
  match propValue with
  | Some v => if stored then with_props s (<[propName := v]> (sv_props s)) else s
  | None => s
  end.

Definition blacklistDevice (stored : bool) (uuid : option cstring) s : outcome service :=
  if stringIsEmpty uuid then Ok (setPropertyValue stored CPE_BLACKLISTED_DEVICES_PROPERTY_NAME uuid s)
  else
    black ← deviceServiceIsDeviceBlacklisted uuid s;
    if black : bool then Ok s
    else
      u ← of_option uuid;
      Ok (setPropertyValue stored CPE_BLACKLISTED_DEVICES_PROPERTY_NAME (Some (blacklist s ++ str "," ++ u)) s).

Definition processBlacklistedDevices (propValue : option cstring) s : outcome service :=
  match propValue with
  | Some v =>
      if stringIsEmpty propValue then Ok s
      else foldM (λ x s, t ← trimString fill (Some x); '(_, s) ← deviceServiceRemoveDevice (Some t) s; Ok s) (strtok v) s
  | None => Ok s
  end.

(** ** The time zone *)

Definition timeZoneChanged (timeZone : option cstring) s : outcome service :=
  devices ← db_GetDevices (sv_db s);
  foldM (λ d s,
    tzResource ← deviceServiceFindDeviceResourceById (Some d) COMMON_DEVICE_RESOURCE_TIMEZONE;
    match tzResource with
    | Some r => '(_, s) ← deviceServiceWriteResource (r_uri r) timeZone s; Ok s
    | None => Ok s
    end) devices s.

End Service.

(** ** Readiness

    The service is ready for devices once the subsystems and the device
    descriptors are; each callback runs under readyForDevicesMutex. *)

Record readiness := mkReady {
  subsystemsReadyForDevices : bool;
  deviceDescriptorReadyForDevices : bool;
  deviceDescriptorProcessorTask : bool;  (* a delayed task is scheduled *)
  readyEvents : nat;                     (* ReadyForDevices events sent *)
  initializations : nat                  (* startDeviceInitialization calls *)
}.

Definition deviceServiceIsReadyForDevicesInternal (r : readiness) : bool :=
  subsystemsReadyForDevices r && deviceDescriptorReadyForDevices r.

Definition deviceServiceIsReadyForDevices := deviceServiceIsReadyForDevicesInternal.

Definition sendReadyForDevicesEvent (r : readiness) : readiness :=
  mkReady (subsystemsReadyForDevices r) (deviceDescriptorReadyForDevices r) (deviceDescriptorProcessorTask r)
    (S (readyEvents r)) (initializations r).

(** scheduleDelayTask when none is scheduled *)
Definition descriptorsUpdatedCallback (r : readiness) : readiness :=
  if deviceDescriptorProcessorTask r then r
  else mkReady (subsystemsReadyForDevices r) (deviceDescriptorReadyForDevices r) true (readyEvents r) (initializations r).

Definition deviceDescriptorsReadyForDevicesCallback (r : readiness) : readiness :=
  if deviceDescriptorReadyForDevices r then r
  else
    let r := mkReady (subsystemsReadyForDevices r) true (deviceDescriptorProcessorTask r) (readyEvents r) (initializations r) in
    let r := if deviceServiceIsReadyForDevicesInternal r then sendReadyForDevicesEvent r else r in
    descriptorsUpdatedCallback r.

(** startDeviceInitialization is called each time. *)
Definition subsystemManagerReadyForDevicesCallback (r : readiness) : readiness :=
  let r :=
    if subsystemsReadyForDevices r then r
    else
      let r := mkReady true (deviceDescriptorReadyForDevices r) (deviceDescriptorProcessorTask r) (readyEvents r) (initializations r) in
      if deviceServiceIsReadyForDevicesInternal r then sendReadyForDevicesEvent r else r in
  mkReady (subsystemsReadyForDevices r) (deviceDescriptorReadyForDevices r) (deviceDescriptorProcessorTask r)
    (readyEvents r) (S (initializations r)).

(** The delayed task runs and clears its handle. *)
Definition processDeviceDescriptorsBackgroundTask (r : readiness) : readiness :=
  mkReady (subsystemsReadyForDevices r) (deviceDescriptorReadyForDevices r) false (readyEvents r) (initializations r).

(** The callbacks in any order. *)
Inductive ready_step : readiness → readiness → Prop :=
  | rs_descriptors r : ready_step r (deviceDescriptorsReadyForDevicesCallback r)
  | rs_subsystems r : ready_step r (subsystemManagerReadyForDevicesCallback r)
  | rs_updated r : ready_step r (descriptorsUpdatedCallback r)
  | rs_task r : deviceDescriptorProcessorTask r = true → ready_step r (processDeviceDescriptorsBackgroundTask r).

Definition not_ready : readiness := mkReady false false false 0 0.

Arguments event : clear implicits.
Arguments service : clear implicits.
Arguments DeviceDriver : clear implicits.

End DeviceService.
