(* ===== verification/DevicePairing.v ===== *)
(** * Pairing and reconfiguring devices

    Models the rest of src/source/services/device/core/src/deviceService.c: a
    driver found a device (deviceServiceDeviceFound), the device is built,
    configured by the driver, given its resources and added to the database
    (finalizeNewDevice); a known device is built again and takes over what the
    user changed (reconfigureDevice); the descriptors are processed again.
    Looking up a descriptor (libs/device/descriptors) is [deviceDescriptorsGet],
    which may fault, and whose metadata map is [dd_metadata];
    DeviceDescriptorsTheorems.v puts the model of that library there. *)

From S2P Require Import Prelude KeyMap StringUtils DeviceModel JsonDatabase DeviceDb DeviceUris DeviceBuild DeviceService.
Import KeyMap StringUtils DeviceModel JsonDatabase DeviceDb InitialValues DeviceUris DeviceBuild DeviceService.

Module DevicePairing.

Section Pairing.
Context {D : Type} `{DeviceDb D}.
Context {MM : Type} `{KeyMap MM unit}.
Context {VM : Type} `{KeyMap VM (option cstring)}.
Context {J DD : Type}.
Abbreviation service := (DeviceService.service D MM J).
Abbreviation driver := (DeviceDriver D MM VM J DD).
Variable orderedDeviceDrivers : list driver.
Variable fill : nat → byte.
Variable deviceDescriptorsGet : option cstring → option cstring → option cstring → option cstring → outcome (option DD).
Variable dd_metadata : DD → option VM.
Implicit Types (s : service).

Record DeviceMigrator := mkMigrator {
  mig_configureDevice : device → option DD → service → outcome (bool * device * service);
  mig_fetchInitialResourceValues : device → option VM → service → outcome (bool * device * option VM * service);
  mig_registerResources : device → option VM → service → outcome (bool * device * service);
  mig_devicePersisted : option (device → service → outcome service)
}.

Record DeviceFoundDetails := mkFound {
  df_deviceDriver : driver;
  df_deviceMigrator : option DeviceMigrator;
  df_deviceClass : option cstring;
  df_deviceClassVersion : Z;
  df_deviceUuid : option cstring;
  df_manufacturer : option cstring;
  df_model : option cstring;
  df_hardwareVersion : option cstring;
  df_firmwareVersion : option cstring
}.
Implicit Types (f : DeviceFoundDetails).

Definition DEVICE_DESCRIPTOR_BYPASS_SYSTEM_PROP := str "deviceDescriptorBypass".

Definition isDeviceDescriptorBypassed s : outcome bool :=
  flag ← db_GetSystemProperty DEVICE_DESCRIPTOR_BYPASS_SYSTEM_PROP (sv_db s);
  Ok (match flag with Some v => bool_decide (strcasecmp v (str "true") = 0) | None => false end).

(** ** Finishing a device *)

Definition finalizeNewDevice (d : option device) (sendEvents inRepairMode : bool) s : outcome (bool * option device * service) :=
  match d with
  | None => Ok (false, None, s)
  | Some d =>
      d ← setUris d;
      tzResource ← deviceServiceFindDeviceResourceById (Some d) COMMON_DEVICE_RESOURCE_TIMEZONE;
      s ← match tzResource, sv_props s !! POSIX_TIME_ZONE_PROP with
          | Some r, Some posixTZ =>
              '(_, s) ← deviceServiceWriteResource orderedDeviceDrivers (r_uri r) (Some posixTZ) s; Ok s
          | _, _ => Ok s
          end;
      '(result, s) ← (if inRepairMode then Ok (true, s)
                      else '(ok, s) ← on_db (db_AddDevice (Some d)) s; Ok (ok, send s ConfigUpdated));
      let s :=
        if sendEvents then
          if inRepairMode then send s (DeviceRecovered (d_uuid d))
          else send_endpoints EndpointAdded d (send s (DeviceAdded (d_uuid d)))
        else s in
      Ok (result, Some d, s)
  end.

(** ** A device was found *)

(** No descriptor: the device is kept when it must not be rejected, is being
    migrated, or descriptors are bypassed. *)
Definition allowPairing f (neverReject : bool) (dd : option DD) s : outcome bool :=
  match dd with
  | Some _ => Ok true
  | None => if neverReject || bool_decide (is_Some (df_deviceMigrator f)) then Ok true else isDeviceDescriptorBypassed s
  end.

(** The functions that build the device: the migrator's, or the driver's. *)
Definition configureFunc f := match df_deviceMigrator f with Some m => mig_configureDevice m | None => drv_configureDevice (df_deviceDriver f) end.
Definition fetchValuesFunc f := match df_deviceMigrator f with Some m => mig_fetchInitialResourceValues m | None => drv_fetchInitialResourceValues (df_deviceDriver f) end.
Definition registerFunc f := match df_deviceMigrator f with Some m => mig_registerResources m | None => drv_registerResources (df_deviceDriver f) end.
Definition persistedFunc f := match df_deviceMigrator f with Some m => mig_devicePersisted m | None => drv_devicePersisted (df_deviceDriver f) end.

Definition send_if (b : bool) s (e : event J) : service := if b then send s e else s.

(** Resources: the common ones, then the driver's. *)
Definition add_resources (now : Z) f (dd : option DD) (d : device) s : outcome (bool * device * service) :=
  '(ok, values) ← fetchCommonResourcesInitialValues now (df_manufacturer f) (df_model f) (df_hardwareVersion f)
                    (df_firmwareVersion f) initialResourceValuesCreate;
  '(ok, d, values, s) ← (if ok : bool then fetchValuesFunc f d values s else Ok (false, d, values, s));
  '(ok, d) ← (if ok : bool then addCommonResources d values else Ok (false, d));
  '(ok, d, s) ← (if ok : bool then registerFunc f d values s else Ok (false, d, s));
  if ok : bool then
    match drv_processDeviceDescriptor (df_deviceDriver f), dd with
    | Some process, Some x => process d x s
    | _, _ => Ok (true, d, s)
    end
  else Ok (false, d, s).

Definition configure_device (now : Z) f (dd : option DD) (sendEvents : bool) (d : device) s : outcome (bool * device * service) :=
  let s := send_if sendEvents s (ConfigureStarted (df_deviceClass f) (df_deviceUuid f)) in
  '(ok, d, s) ← configureFunc f d dd s;
  if ok : bool then
    add_resources now f dd d (send_if sendEvents s (ConfigureCompleted (df_deviceClass f) (df_deviceUuid f)))
  else Ok (false, d, send_if sendEvents s (ConfigureFailed (df_deviceClass f) (df_deviceUuid f))).

(** The mark of a removal that came while the device was being paired. *)
Definition take_mark (d : device) s : outcome (bool * service) :=
  uuid ← of_option (d_uuid d);
  '(marked, m) ← map_delete (markedForRemoval s) uuid;
  Ok (bool_decide (is_Some marked), with_marked s m).

(** The device is kept, or the driver is told to forget it. *)
Definition pair_device (now : Z) f (dd : option DD) s : outcome (bool * service) :=
  device ← createDevice (df_deviceUuid f) (df_deviceClass f) (df_deviceClassVersion f) (driverName (df_deviceDriver f)) (dd ≫= dd_metadata);
  d ← of_option device;
  let sendEvents := negb (bool_decide (is_Some (df_deviceMigrator f))) in
  let s := send_if sendEvents s (DeviceDiscovered (df_deviceUuid f)) in
  '(ok, d, s) ← configure_device now f dd sendEvents d s;
  '(ok, s) ← (if ok : bool then '(marked, s) ← take_mark d s; Ok (negb marked, s) else Ok (false, s));
  deviceClass ← of_option (df_deviceClass f);
  let inRepairMode := default false (activeDiscoveries s !! deviceClass) in
  '(ok, d, s) ← (if ok : bool then
                   '(ok, d', s) ← finalizeNewDevice (Some d) sendEvents inRepairMode s;
                   d ← of_option d'; Ok (ok, d, s)
                 else Ok (false, d, s));
  if ok : bool then
    s ← notify (persistedFunc f) d (send_if sendEvents s (DiscoveryCompleted d));
    Ok (true, s)
  else
    s ← (if sendEvents then notify (drv_deviceRemoved (df_deviceDriver f)) d s else Ok s);
    Ok (false, send_if sendEvents s (DiscoveryFailed (d_uuid d) (df_deviceClass f))).

Definition deviceServiceDeviceFound (now : Z) f (neverReject : bool) s : outcome (bool * service) :=
  black ← deviceServiceIsDeviceBlacklisted fill (df_deviceUuid f) s;
  if black : bool then Ok (false, send s (DeviceRejected (df_deviceUuid f)))
  else
    dd ← deviceDescriptorsGet (df_manufacturer f) (df_model f) (df_hardwareVersion f) (df_firmwareVersion f);
    allow ← allowPairing f neverReject dd s;
    if allow : bool then pair_device now f dd s
    else Ok (false, send s (DeviceRejected (df_deviceUuid f))).

(** ** Reconfiguring a device *)

(** The first resource with the id gets the old value; the old one loses it. *)
Fixpoint yoinkResource (oldRes : icDeviceResource) (resources : list icDeviceResource) (resourceId : cstring)
    : icDeviceResource * list icDeviceResource :=
  match resources with
  | [] => (oldRes, [])
  | r :: l =>
      if decide (stringCompare (Some resourceId) (r_id r) false = 0)
      then (DeviceService.set_value oldRes None, DeviceService.set_value r (r_value oldRes) :: l)
      else let '(o, l) := yoinkResource oldRes l resourceId in (o, r :: l)
  end.

Definition yoink_list (oldRes : icDeviceResource) (l : option (list icDeviceResource)) (resourceId : cstring)
    : icDeviceResource * option (list icDeviceResource) :=
  match l with None => (oldRes, None) | Some l => let '(o, l) := yoinkResource oldRes l resourceId in (o, Some l) end.

(** The new endpoints with the old one's id: the metadata list moves to the
    first, the label too. *)
Fixpoint yoink_endpoints (id : option cstring) (metadata : option (list icDeviceMetadata)) (label : option icDeviceResource)
    (l : list endpoint) : bool * list endpoint :=
  match l with
  | [] => (false, [])
  | e :: l =>
      if decide (stringCompare id (e_id e) false = 0) then
        let e := set_ep_metadata e metadata in
        let '(label, e) :=
          match label with
          | Some o => let '(o, rs) := yoink_list o (e_resources e) COMMON_ENDPOINT_RESOURCE_LABEL in (Some o, set_ep_resources e rs)
          | None => (None, e)
          end in
        let '(_, l) := yoink_endpoints id None label l in (true, e :: l)
      else let '(b, l) := yoink_endpoints id metadata label l in (b, e :: l)
  end.

(** The endpoints of the old device, until one has no match. *)
Fixpoint yoink_all (uuid : option cstring) (old : list endpoint) (es : option (list endpoint)) s
    : outcome (bool * option (list endpoint)) :=
  match old with
  | [] => Ok (true, es)
  | e :: old =>
      label ← deviceServiceGetResourceByIdInternal uuid (e_id e) (Some COMMON_ENDPOINT_RESOURCE_LABEL) s;
      let '(matched, l) := yoink_endpoints (e_id e) (e_metadata e) label (elems es) in
      if matched : bool then yoink_all uuid old (Some l) s else Ok (false, es)
  end.

Definition yoinkCustomizedDeviceData (oldDevice newDevice : device) s : outcome (bool * device) :=
  let d := set_metadata newDevice (d_metadata oldDevice) in
  date ← deviceServiceGetResourceByIdInternal (d_uuid oldDevice) None (Some COMMON_DEVICE_RESOURCE_DATE_ADDED) s;
  let d := match date with
           | Some o => set_resources d (snd (yoink_list o (d_resources d) COMMON_DEVICE_RESOURCE_DATE_ADDED))
           | None => d
           end in
  '(ok, es) ← yoink_all (d_uuid oldDevice) (elems (d_endpoints oldDevice)) (d_endpoints d) s;
  Ok (ok, set_endpoints d es).

(** The resources that identify the hardware of a device. *)
Definition descriptor_resources (d : device) : outcome (option (icDeviceResource * icDeviceResource * icDeviceResource * icDeviceResource)) :=
  manufacturer ← deviceServiceFindDeviceResourceById (Some d) COMMON_DEVICE_RESOURCE_MANUFACTURER;
  model ← deviceServiceFindDeviceResourceById (Some d) COMMON_DEVICE_RESOURCE_MODEL;
  hardwareVersion ← deviceServiceFindDeviceResourceById (Some d) COMMON_DEVICE_RESOURCE_HARDWARE_VERSION;
  firmwareVersion ← deviceServiceFindDeviceResourceById (Some d) COMMON_DEVICE_RESOURCE_FIRMWARE_VERSION;
  Ok (match manufacturer, model, hardwareVersion, firmwareVersion with
      | Some a, Some b, Some c, Some e => Some (a, b, c, e)
      | _, _, _, _ => None
      end).

(** The device built anew by its driver. *)
Definition rebuild_device (now : Z) (drv : driver) (ma mo hw fw : option cstring) (dd : option DD) (d : device) s
    : outcome (bool * device * service) :=
  '(ok, d, s) ← drv_configureDevice drv d dd s;
  if negb ok then Ok (false, d, s)
  else
    '(ok, values) ← fetchCommonResourcesInitialValues now ma mo hw fw initialResourceValuesCreate;
    if negb ok then Ok (false, d, s)
    else
      '(ok, d) ← addCommonResources d values;
      if negb ok then Ok (false, d, s)
      else
        '(ok, d, values, s) ← drv_fetchInitialResourceValues drv d values s;
        if negb ok then Ok (false, d, s) else drv_registerResources drv d values s.

Definition reconfigureDevice (now : Z) (d : device) (drv : driver) s : outcome (bool * service) :=
  match drv_getDeviceClassVersion drv with
  | None => Ok (false, s)
  | Some version =>
      found ← descriptor_resources d;
      match found with
      | None => Ok (false, s)
      | Some (manufacturer, model, hardwareVersion, firmwareVersion) =>
          match version (d_deviceClass d) with
          | None => Ok (false, s)
          | Some newDeviceClassVersion =>
              dd ← deviceDescriptorsGet (r_value manufacturer) (r_value model) (r_value hardwareVersion) (r_value firmwareVersion);
              newDevice ← createDevice (d_uuid d) (d_deviceClass d) newDeviceClassVersion (driverName drv) (dd ≫= dd_metadata);
              newDevice ← of_option newDevice;
              '(ok, newDevice, s) ← rebuild_device now drv (r_value manufacturer) (r_value model) (r_value hardwareVersion)
                                      (r_value firmwareVersion) dd newDevice s;
              if negb ok then Ok (false, s)
              else
                '(result, newDevice) ← yoinkCustomizedDeviceData d newDevice s;
                if result : bool then
                  '(_, s) ← on_db (db_RemoveDeviceById (d_uuid d)) s;
                  '(_, _, s) ← finalizeNewDevice (Some newDevice) false false s;
                  Ok (true, s)
                else Ok (false, s)
          end
      end
  end.

(** A device is reconfigured, or synchronized when that is not needed or
    failed. *)
Definition deviceInitializationTask (now : Z) (uuid : option cstring) s : outcome service :=
  device ← db_GetDeviceById uuid (sv_db s);
  match device with
  | Some d =>
      driver ← getDeviceDriverForUri orderedDeviceDrivers (d_uri d) s;
      match driver with
      | Some drv =>
          '(needed, s) ← match drv_deviceNeedsReconfiguring drv with Some f => f d s | None => Ok (false, s) end;
          '(initDone, s) ← (if needed : bool then reconfigureDevice now d drv s else Ok (false, s));
          if initDone : bool then Ok s else notify (drv_synchronizeDevice drv) d s
      | None => Ok s
      end
  | None => Ok s
  end.

(** ** Descriptors *)

Definition deviceServiceGetDeviceDescriptorForDevice (d : device) : outcome (option DD) :=
  found ← descriptor_resources d;
  match found with
  | Some (manufacturer, model, hardwareVersion, firmwareVersion) =>
      deviceDescriptorsGet (r_value manufacturer) (r_value model) (r_value hardwareVersion) (r_value firmwareVersion)
  | None => Ok None
  end.

Definition process_descriptor (d : device) s : outcome service :=
  driver ← getDeviceDriverForUri orderedDeviceDrivers (d_uri d) s;
  match driver with
  | Some drv =>
      match drv_processDeviceDescriptor drv with
      | Some process =>
          dd ← deviceServiceGetDeviceDescriptorForDevice d;
          match dd with Some x => '(_, _, s) ← process d x s; Ok s | None => Ok s end
      | None => Ok s
      end
  | None => Ok s
  end.

Definition deviceServiceProcessDeviceDescriptors s : outcome service :=
  devices ← db_GetDevices (sv_db s); foldM process_descriptor devices s.

End Pairing.
End DevicePairing.
