(* ===== verification/DeviceServiceSpec.v ===== *)
(** * The device service over its database

    What the operations of the database interface do, one lemma per
    operation, and the service's own operations in terms of the devices the
    database holds. *)

From S2P Require Import Prelude KeyMap StringUtils DeviceModel JsonDatabase JsonDatabaseSpec JsonDatabaseOps JsonDatabaseMemory.
From S2P Require Import JsonDatabaseDevices JsonDatabaseQuery JsonDatabaseMetadata JsonDatabaseModel DeviceDb StringKeyed.
From S2P Require Import DeviceUris DeviceUrisSpec DeviceBuild DeviceService.
Import KeyMap StringUtils DeviceModel JsonDatabase JsonDatabaseSpec JsonDatabaseOps JsonDatabaseMemory.
Import JsonDatabaseDevices JsonDatabaseQuery JsonDatabaseMetadata JsonDatabaseModel DeviceDb StringKeyed.
Import DeviceUris DeviceUrisSpec DeviceBuild DeviceService.

Module DeviceServiceSpec.

Lemma fmap_inj_in {A B} (f : A → B) l x y : NoDup (f <$> l) → x ∈ l → y ∈ l → f x = f y → x = y.
Proof.
  induction l as [|z l IH]; [by intros _ ?%elem_of_nil|]. cbn [fmap list_fmap]. intros [Hz Hn]%NoDup_cons.
  intros [->|Hx]%elem_of_cons [->|Hy]%elem_of_cons E; [done|..|by apply IH].
  - destruct Hz. rewrite E. by apply list_elem_of_fmap_2.
  - destruct Hz. rewrite <-E. by apply list_elem_of_fmap_2.
Qed.

(** ** The operations of the database *)

Section Db.
Context {D : Type} `{DeviceDbLaws D}.
Implicit Types (db : D) (ds : list device).

(** The first step of an answered request. *)
Ltac answered Hc :=
  unfold call, DeviceDb.told, DeviceDb.asked in Hc; apply bind_Ok in Hc as (?x & Hc & Heq);
  try (destruct x as [? ?]); simplify_eq/=.

Lemma get_resource db ds uri : db_model db ds → key_ok (zkey uri) →
  ∃ o, db_GetResourceByUri (Some uri) db = Ok o ∧
    ∀ r, o = Some r ↔ ∃ d, d ∈ ds ∧ r ∈ device_resources d ∧ r_uri r = Some uri.
Proof.
  intros Hm Hk. destruct (db_law (GetResource uri) db ds Hm Hk) as (a & db' & ds' & Hc & _ & ((o & -> & Ho) & _) & _).
  answered Hc. eauto.
Qed.

Lemma get_metadata db ds uri : db_model db ds → key_ok (zkey uri) →
  ∃ o, db_GetMetadataByUri (Some uri) db = Ok o ∧
    ∀ m, o = Some m ↔ ∃ d, d ∈ ds ∧ m ∈ device_metadata d ∧ m_uri m = Some uri.
Proof.
  intros Hm Hk. destruct (db_law (GetMetadata uri) db ds Hm Hk) as (a & db' & ds' & Hc & _ & ((o & -> & Ho) & _) & _).
  answered Hc. eauto.
Qed.

Lemma service_get_device db ds uuid : db_model db ds → key_ok (zkey uuid) →
  ∃ o, db_GetDeviceById (Some uuid) db = Ok o ∧ ∀ d, o = Some d ↔ d ∈ ds ∧ d_uuid d = Some uuid.
Proof.
  intros Hm Hk. destruct (db_law (GetDevice uuid) db ds Hm Hk) as (a & db' & ds' & Hc & _ & ((o & -> & Ho) & _) & _).
  answered Hc. eauto.
Qed.

Lemma get_device_by_uri db ds uri : db_model db ds → key_ok (zkey uri) →
  ∃ o, db_GetDeviceByUri (Some uri) db = Ok o ∧ ∀ d, o = Some d ↔ d ∈ ds ∧ Some uri ∈ device_uris d.
Proof.
  intros Hm Hk. destruct (db_law (GetDeviceByUri uri) db ds Hm Hk) as (a & db' & ds' & Hc & _ & ((o & -> & Ho) & _) & _).
  answered Hc. eauto.
Qed.

Lemma get_endpoint db ds uri : db_model db ds → key_ok (zkey uri) →
  ∃ o, db_GetEndpointByUri (Some uri) db = Ok o ∧
    ∀ e, o = Some e ↔ ∃ d, d ∈ ds ∧ e ∈ device_endpoints d ∧ Some uri ∈ ep_uris e.
Proof.
  intros Hm Hk. destruct (db_law (GetEndpoint uri) db ds Hm Hk) as (a & db' & ds' & Hc & _ & ((o & -> & Ho) & _) & _).
  answered Hc. eauto.
Qed.

Lemma get_endpoint_by_id db ds uuid i : db_model db ds → key_ok (zkey uuid) →
  ∃ o, db_GetEndpointById (Some uuid) (Some i) db = Ok o ∧
    match o with
    | Some e => e_id e = Some i ∧ ∃ d, d ∈ ds ∧ d_uuid d = Some uuid ∧ e ∈ device_endpoints d
    | None => ∀ d e, d ∈ ds → d_uuid d = Some uuid → e ∈ device_endpoints d → e_id e ≠ Some i
    end.
Proof.
  intros Hm Hk. destruct (db_law (GetEndpointById uuid i) db ds Hm Hk) as (a & db' & ds' & Hc & _ & ((o & -> & Ho) & _) & _).
  answered Hc. eauto.
Qed.

Lemma get_devices db ds : db_model db ds → db_GetDevices db = Ok ds.
Proof.
  intros Hm. destruct (db_law GetDevices db ds Hm I) as (a & db' & ds' & Hc & _ & (-> & _) & _). by answered Hc.
Qed.

(** A request that changes the database and answers whether it succeeded. *)
Definition answers_done (f : outcome (bool * D)) db ds (req : request) : Prop :=
  ∃ ok db' ds', f = Ok (ok, db') ∧ db_model db' ds' ∧ step (db_healthy db) ds req (Done ok) ds' ∧ (db_healthy db → db_healthy db').

Ltac done_answer H :=
  let a := fresh "a" in let db' := fresh "db'" in let ds' := fresh "ds'" in let Hc := fresh "Hc" in let Hs := fresh "Hs" in
  destruct H as (a & db' & ds' & Hc & ? & Hs & ?); unfold call, DeviceDb.told in Hc;
  apply bind_Ok in Hc as ([ok ?] & Hc & Heq); simplify_eq/=; exists ok, db', ds'; done.

Lemma save_resource db ds r : db_model db ds → allowed ds (SaveResource r) → answers_done (db_SaveResource (Some r) db) db ds (SaveResource r).
Proof. intros Hm Ha. done_answer (db_law (SaveResource r) db ds Hm Ha). Qed.

Lemma update_date db ds now r : db_model db ds → allowed ds (UpdateDate now r) →
  answers_done (db_UpdateDateOfLastSyncMillis now (Some r) db) db ds (UpdateDate now r).
Proof. intros Hm Ha. done_answer (db_law (UpdateDate now r) db ds Hm Ha). Qed.

Lemma save_metadata db ds m : db_model db ds → allowed ds (SaveMetadata m) → answers_done (db_SaveMetadata (Some m) db) db ds (SaveMetadata m).
Proof. intros Hm Ha. done_answer (db_law (SaveMetadata m) db ds Hm Ha). Qed.

Lemma save_endpoint db ds e : db_model db ds → allowed ds (SaveEndpoint e) → answers_done (db_SaveEndpoint (Some e) db) db ds (SaveEndpoint e).
Proof. intros Hm Ha. done_answer (db_law (SaveEndpoint e) db ds Hm Ha). Qed.

Lemma add_device db ds d : db_model db ds → allowed ds (AddDevice d) → answers_done (db_AddDevice (Some d) db) db ds (AddDevice d).
Proof. intros Hm Ha. done_answer (db_law (AddDevice d) db ds Hm Ha). Qed.

Lemma remove_device db ds uuid : db_model db ds → key_ok (zkey uuid) →
  answers_done (db_RemoveDeviceById (Some uuid) db) db ds (RemoveDevice uuid).
Proof. intros Hm Ha. done_answer (db_law (RemoveDevice uuid) db ds Hm Ha). Qed.

(** One device, one part per URI. *)
Lemma device_unique db ds d d' : db_model db ds → d ∈ ds → d' ∈ ds → d_uuid d = d_uuid d' → d = d'.
Proof. intros [Hn _]%db_uuids Hd Hd' E. by apply (fmap_inj_in d_uuid ds). Qed.

End Db.

(** ** Parts of devices *)

Definition resource_at (ds : list device) (uri : cstring) (r : icDeviceResource) : Prop :=
  ∃ d, d ∈ ds ∧ r ∈ device_resources d ∧ r_uri r = Some uri.
Definition metadata_at (ds : list device) (uri : cstring) (m : icDeviceMetadata) : Prop :=
  ∃ d, d ∈ ds ∧ m ∈ device_metadata d ∧ m_uri m = Some uri.

Lemma elems_map {A B} (f : A → B) l : elems (option_map (map f) l) = f <$> elems l.
Proof. by destruct l. Qed.

Lemma edit_resources g d : device_resources (edit_device g d) = ed_res g <$> device_resources d.
Proof.
  unfold device_resources, device_endpoints, edit_device. cbn [d_endpoints d_resources]. rewrite !elems_map, fmap_app. f_equal.
  rewrite <-list_fmap_compose. induction (elems (d_endpoints d)) as [|e l IH]; [done|]. cbn [fmap list_fmap concat]. rewrite fmap_app.
  f_equal; [|exact IH]. unfold compose, edit_endpoint. cbn [e_resources]. apply elems_map.
Qed.

Lemma edit_metadata g d : device_metadata (edit_device g d) = ed_met g <$> device_metadata d.
Proof.
  unfold device_metadata, device_endpoints, edit_device. cbn [d_endpoints d_metadata]. rewrite !elems_map, fmap_app. f_equal.
  rewrite <-list_fmap_compose. induction (elems (d_endpoints d)) as [|e l IH]; [done|]. cbn [fmap list_fmap concat]. rewrite fmap_app.
  f_equal; [|exact IH]. unfold compose, edit_endpoint. cbn [e_metadata]. apply elems_map.
Qed.

Lemma edited_resource_at g ds uri r : (∀ x, r_uri (ed_res g x) = r_uri x) → resource_at ds uri r →
  resource_at (edit_device g <$> ds) uri (ed_res g r).
Proof.
  intros Hg (d & Hd & Hr & Hu). exists (edit_device g d). split; [by apply list_elem_of_fmap_2|]. rewrite edit_resources, Hg.
  split; [by apply list_elem_of_fmap_2|done].
Qed.

Lemma edited_metadata_at g ds uri m : (∀ x, m_uri (ed_met g x) = m_uri x) → metadata_at ds uri m →
  metadata_at (edit_device g <$> ds) uri (ed_met g m).
Proof.
  intros Hg (d & Hd & Hr & Hu). exists (edit_device g d). split; [by apply list_elem_of_fmap_2|]. rewrite edit_metadata, Hg.
  split; [by apply list_elem_of_fmap_2|done].
Qed.

Lemma has_resource_at ds uri : has_resource ds uri ↔ ∃ r, resource_at ds uri r.
Proof. unfold has_resource, resource_at. naive_solver. Qed.

Lemma has_metadata_at ds uri : JsonDatabaseModel.has_metadata ds uri ↔ ∃ m, metadata_at ds uri m.
Proof. unfold JsonDatabaseModel.has_metadata, metadata_at. naive_solver. Qed.

(** *** A metadata added to a device *)

(** The device has the place the metadata belongs to. *)
Definition has_place (m : icDeviceMetadata) (d : device) : Prop :=
  match m_endpointId m with
  | None => is_Some (d_metadata d)
  | Some i => ∃ e, e ∈ elems (d_endpoints d) ∧ e_id e = Some i
  end.

Lemma elems_snoc {A} (l : option (list A)) (x : A) y : is_Some l → y ∈ elems ((λ l, l ++ [x]) <$> l) ↔ y ∈ elems l ∨ y = x.
Proof. intros [l0 ->]. cbn. by rewrite elem_of_app, list_elem_of_singleton. Qed.

Lemma on_first_metadata m i (l : list endpoint) x : (∀ e, e ∈ l → is_Some (e_metadata e)) →
  x ∈ concat ((λ e, elems (e_metadata e)) <$> on_first (has_id i) (append_metadata m) l) ↔
  x ∈ concat ((λ e, elems (e_metadata e)) <$> l) ∨ (x = m ∧ ∃ e, e ∈ l ∧ e_id e = Some i).
Proof.
  induction l as [|e l IH]; intros Hs; cbn [on_first fmap list_fmap concat].
  - split; [auto|]. intros [?|(_ & e & He%elem_of_nil & _)]; done.
  - assert (Hse : is_Some (e_metadata e)) by (apply Hs; by left). unfold has_id at 1. destruct (bool_decide_reflect (e_id e = Some i)) as [Hid|Hid].
    + cbn [fmap list_fmap concat]. rewrite !elem_of_app. unfold append_metadata at 1. cbn [e_metadata]. rewrite elems_snoc by done.
      split; [|naive_solver]. intros [[?| ->]|?]; [by left; left|right|by left; right]. split; [done|]. exists e. split; [by left|done].
    + cbn [fmap list_fmap concat]. rewrite !elem_of_app, IH by (intros e' He'; apply Hs; by right).
      setoid_rewrite elem_of_cons. naive_solver.
Qed.

Lemma add_metadata_in m d x : cloneable d → has_place m d →
  x ∈ device_metadata (add_metadata_to m d) ↔ x ∈ device_metadata d ∨ x = m.
Proof.
  intros Hc Hp. unfold has_place in Hp. unfold add_metadata_to, device_metadata, device_endpoints. destruct (m_endpointId m) as [i|].
  - cbn [d_endpoints d_metadata]. destruct (d_endpoints d) as [l|] eqn:El; [|destruct Hp as (e & He%elem_of_nil & _); done].
    change (elems (on_first (has_id i) (append_metadata m) <$> Some l)) with (on_first (has_id i) (append_metadata m) l).
    rewrite !elem_of_app, on_first_metadata; [|intros e He; apply Hc; by rewrite El]. cbn [elems default] in *. tauto.
  - cbn [d_endpoints d_metadata]. rewrite !elem_of_app, elems_snoc by done. tauto.
Qed.

(** ** The service *)

Section Service.
Context {D : Type} `{DeviceDbLaws D}.
Context {MM : Type} `{KeyMapLaws MM unit}.
Context {VM : Type} `{KeyMapLaws VM (option cstring)}.
Context {J DD : Type}.
Abbreviation service := (DeviceService.service D MM J).
Implicit Types (s : service) (ds : list device).

Lemma get_by_id s ds u ep i uri : db_model (sv_db s) ds → resource_uri (Some u) ep (Some i) = Ok uri → key_ok (zkey uri) →
  ∃ o, deviceServiceGetResourceByIdInternal (Some u) ep (Some i) s = Ok o ∧ ∀ r, o = Some r ↔ resource_at ds uri r.
Proof. intros Hm Hu Hk. unfold deviceServiceGetResourceByIdInternal. rewrite Hu. obind. by apply get_resource. Qed.

(** A resource is saved under its URI: the devices have the new fields. *)
Lemma resource_saved s ds uri r r0 : db_model (sv_db s) ds → r_uri r = Some uri → key_ok (zkey uri) → resource_at ds uri r0 →
  ∃ ok db', on_db (db_SaveResource (Some r)) s = Ok (ok, with_db s db') ∧
    db_model db' (edit_device (on_resource uri (saved_resource r)) <$> ds) ∧ (db_healthy (sv_db s) → db_healthy db').
Proof.
  intros Hm Hu Hk Hat. destruct (save_resource (sv_db s) ds r Hm) as (ok & db' & ds' & Hs & Hm' & Hst & Hh); [by exists uri|].
  unfold on_db. rewrite Hs. obind. exists ok, db'. split; [done|]. split; [|done]. cbn [step] in Hst. rewrite Hu in Hst. cbn in Hst.
  destruct Hst as [(_ & _ & ->)|(Hn & _)]; [done|]. destruct Hn. apply has_resource_at. eauto.
Qed.

Lemma date_saved s ds now uri r : db_model (sv_db s) ds → key_ok (zkey uri) → resource_at ds uri r →
  ∃ ok db', on_db (db_UpdateDateOfLastSyncMillis now (Some r)) s = Ok (ok, with_db s db') ∧
    db_model db' (edit_device (on_resource uri (synced_at now)) <$> ds) ∧ (db_healthy (sv_db s) → db_healthy db').
Proof.
  intros Hm Hk Hat. pose proof Hat as (d & _ & _ & Hu).
  destruct (update_date (sv_db s) ds now r Hm) as (ok & db' & ds' & Hs & Hm' & Hst & Hh); [by exists uri|].
  unfold on_db. rewrite Hs. obind. exists ok, db'. split; [done|]. split; [|done]. cbn [step] in Hst. rewrite Hu in Hst. cbn in Hst.
  destruct Hst as [(_ & _ & ->)|(Hn & _)]; [done|]. destruct Hn. apply has_resource_at. eauto.
Qed.

(** The resource after an update. *)
Definition updated (now : Z) (v : option cstring) (r : icDeviceResource) : icDeviceResource := set_date (set_value r v) now.

Definition uncached (r : icDeviceResource) : bool :=
  bool_decide (r_cachingPolicy r = CACHING_POLICY_NEVER) && has_mode (r_mode r) RESOURCE_MODE_EMIT_EVENTS.

(** What an update sends. *)
Definition update_events (now : Z) (v : option cstring) (meta : option J) (r : icDeviceResource) : list (event J) :=
  (if has_mode (r_mode r) RESOURCE_MODE_LAZY_SAVE_NEXT then [] else [ConfigUpdated]) ++
  (if has_mode (r_mode r) RESOURCE_MODE_EMIT_EVENTS then [ResourceUpdated (updated now v r) meta] else []).

Definition append_log s (l : list (event J)) : service :=
  mkService (sv_db s) (markedForRemoval s) (activeDiscoveries s) (sv_props s) (sv_log s ++ l).

Lemma append_log_app s l1 l2 : append_log (append_log s l1) l2 = append_log s (l1 ++ l2).
Proof. unfold append_log. cbn. by rewrite app_assoc. Qed.
Lemma append_log_nil s : append_log s [] = s.
Proof. unfold append_log. rewrite app_nil_r. by destruct s. Qed.
Lemma send_log s e : send s e = append_log s [e].
Proof. done. Qed.

(** The outcome of updateResource for a resource at its URI. *)
Inductive update_result (now : Z) (v : option cstring) (meta : option J) ds (uri : cstring) (r : icDeviceResource) s : service → Prop :=
  | ur_uncached : uncached r = true → update_result now v meta ds uri r s (append_log s [ResourceUpdated (set_value r v) meta])
  | ur_same db' : uncached r = false → r_value r = v → db_model db' (edit_device (on_resource uri (synced_at now)) <$> ds) →
      (db_healthy (sv_db s) → db_healthy db') → update_result now v meta ds uri r s (with_db s db')
  | ur_changed db' : uncached r = false → r_value r ≠ v →
      db_model db' (edit_device (on_resource uri (saved_resource (updated now v r))) <$> ds) →
      (db_healthy (sv_db s) → db_healthy db') →
      update_result now v meta ds uri r s (append_log (with_db s db') (update_events now v meta r)).

Lemma update_known s ds now u ep i uri v meta r : db_model (sv_db s) ds → resource_uri (Some u) ep (Some i) = Ok uri →
  key_ok (zkey uri) → resource_at ds uri r →
  ∃ s', updateResource now (Some u) ep (Some i) v meta s = Ok s' ∧ update_result now v meta ds uri r s s'.
Proof.
  intros Hm Hu Hk Hat. unfold updateResource. destruct (get_by_id s ds u ep i uri Hm Hu Hk) as (o & -> & Ho). obind.
  rewrite (proj2 (Ho r) Hat). change (bool_decide _ && has_mode _ _) with (uncached r). destruct (uncached r) eqn:Eu.
  { eexists. split; [done|]. by apply ur_uncached. }
  pose proof Hat as (d & _ & _ & Hru). case_decide as Ev.
  - destruct (date_saved s ds now uri r Hm Hk Hat) as (ok & db' & -> & Hm' & Hh). obind. eexists. split; [done|]. by apply ur_same.
  - destruct (resource_saved s ds uri (updated now v r) r Hm Hru Hk Hat) as (ok & db' & Hs & Hm' & Hh).
    change (set_date (set_value r v) now) with (updated now v r). rewrite Hs. obind. eexists. split; [done|].
    change (r_mode (updated now v r)) with (r_mode r). eapply (eq_ind _ (update_result now v meta ds uri r s)); [by apply (ur_changed _ _ _ _ _ _ _ db')|].
    unfold update_events. destruct (has_mode (r_mode r) RESOURCE_MODE_LAZY_SAVE_NEXT), (has_mode (r_mode r) RESOURCE_MODE_EMIT_EVENTS);
      rewrite ?send_log, ?append_log_app, ?append_log_nil; done.
Qed.

(** *** Metadata *)

Definition new_metadata (u : cstring) (ep : option cstring) (n uri v : cstring) : icDeviceMetadata :=
  mkMetadata (Some n) (Some uri) ep (Some u) (Some v).

(** A metadata with a value is at the URI, or nothing is and the device has a
    place for it. *)
Definition metadata_ready ds (u : cstring) (ep : option cstring) (n uri v : cstring) : Prop :=
  (∃ m, metadata_at ds uri m ∧ is_Some (m_value m)) ∨
  (Some uri ∉ concat (device_uris <$> ds) ∧ metadata_fits ds (new_metadata u ep n uri v) ∧
    ∃ d, d ∈ ds ∧ d_uuid d = Some u ∧ has_place (new_metadata u ep n uri v) d).

Lemma metadata_unique s ds uri m m' : db_model (sv_db s) ds → key_ok (zkey uri) → metadata_at ds uri m → metadata_at ds uri m' → m = m'.
Proof.
  intros Hm Hk A1 A2. destruct (get_metadata (sv_db s) ds uri Hm Hk) as (o & _ & Ho). apply Ho in A1, A2. congruence.
Qed.

Lemma metadata_known ds uri m : metadata_at ds uri m → Some uri ∈ concat (device_uris <$> ds).
Proof.
  intros (d & Hd & Hm & Hu). apply elem_of_concat. exists (device_uris d). split; [by apply list_elem_of_fmap_2|]. unfold device_uris, device_metadata in *.
  right. apply elem_of_app in Hm as [(l & Hl & Hm)%elem_of_concat|Hm]; rewrite !elem_of_app.
  - left. apply list_elem_of_fmap in Hl as (e & -> & He). apply elem_of_concat. exists (ep_uris e). split; [by apply list_elem_of_fmap_2|].
    unfold ep_uris. right. apply elem_of_app. right. rewrite <-Hu. by apply list_elem_of_fmap_2.
  - right. right. rewrite <-Hu. by apply list_elem_of_fmap_2.
Qed.

(** The metadata at [uri] is [m]; the others are as before. *)
Definition metadata_put ds ds' (uri : cstring) (m : icDeviceMetadata) : Prop :=
  metadata_at ds' uri m ∧ ∀ uri' x, uri' ≠ uri → metadata_at ds' uri' x ↔ metadata_at ds uri' x.

Lemma edit_put ds uri m0 m : metadata_at ds uri m0 →
  metadata_put ds (edit_device (on_metadata uri (saved_metadata m)) <$> ds) uri (saved_metadata m m0).
Proof.
  intros Hat. split.
  - apply (edited_metadata_at (on_metadata uri (saved_metadata m))) in Hat.
    + cbn in Hat. by destruct Hat as (d & Hd & Hin & Hu); case_decide as E; [exists d|congruence].
    + intros x. cbn. by case_decide.
  - intros uri' x Hne. split.
    + intros (d' & (d & -> & Hd)%list_elem_of_fmap & Hin & Hu). rewrite edit_metadata in Hin. apply list_elem_of_fmap in Hin as (y & -> & Hy).
      cbn in *. case_decide as E; [cbn in Hu; congruence|by exists d].
    + intros Hx. apply (edited_metadata_at (on_metadata uri (saved_metadata m))) in Hx; [|intros y; cbn; by case_decide].
      cbn in Hx. destruct Hx as (d & Hd & Hin & Hu). case_decide as E; [cbn in Hu; congruence|by exists d].
Qed.

Lemma file_put ds u m uri d : Forall cloneable ds → m_deviceUuid m = Some u → m_uri m = Some uri → d ∈ ds → d_uuid d = Some u →
  (∀ d', d' ∈ ds → d_uuid d' = Some u → d' = d) → has_place m d → metadata_put ds (file_metadata m <$> ds) uri m.
Proof.
  intros Hc Hmu Huri Hd Hdu Huni Hp. assert (Hfile : file_metadata m d = add_metadata_to m d) by (by apply (file_metadata_own m d u)).
  assert (Hcd : cloneable d) by (by apply (Forall_forall _ ds)). split.
  - exists (file_metadata m d). split; [by apply list_elem_of_fmap_2|]. rewrite Hfile, add_metadata_in by done. auto.
  - intros uri' x Hne. split.
    + intros (d' & (d0 & -> & Hd0)%list_elem_of_fmap & Hin & Hu). destruct (decide (d_uuid d0 = Some u)) as [E|E].
      * rewrite (Huni d0 Hd0 E), Hfile, add_metadata_in in Hin by done. destruct Hin as [Hin| ->]; [by exists d|congruence].
      * rewrite (file_metadata_other m d0 u Hmu E) in Hin. by exists d0.
    + intros (d0 & Hd0 & Hin & Hu). exists (file_metadata m d0). split; [by apply list_elem_of_fmap_2|]. split; [|done].
      destruct (decide (d_uuid d0 = Some u)) as [E|E].
      * rewrite (Huni d0 Hd0 E) in *. rewrite Hfile, add_metadata_in by done. by left.
      * by rewrite (file_metadata_other m d0 u Hmu E).
Qed.

(** Saving a metadata, with the devices it gives. *)
Lemma service_metadata_saved s ds m uri : db_model (sv_db s) ds → m_uri m = Some uri → key_ok (zkey uri) → is_Some (m_value m) →
  (∃ m0, metadata_at ds uri m0) →
  ∃ ok db', on_db (db_SaveMetadata (Some m)) s = Ok (ok, with_db s db') ∧
    db_model db' (edit_device (on_metadata uri (saved_metadata m)) <$> ds).
Proof.
  intros Hm Hu Hk Hv [m0 Hat]. pose proof (metadata_known ds uri m0 Hat) as Hin.
  destruct (save_metadata (sv_db s) ds m Hm) as (ok & db' & ds' & Hs & Hm' & Hst & _).
  { split; [by exists uri|]. split; [done|]. rewrite Hu. intros Hn. by destruct (Hn Hin). }
  unfold on_db. rewrite Hs. obind. exists ok, db'. split; [done|]. cbn [step] in Hst. rewrite Hu in Hst. cbn in Hst.
  destruct Hst as [(_ & [(_ & _ & ->)|(Hn & _)])|(Hn & _)]; [done| |by destruct (Hn Hin)]. destruct Hn. apply has_metadata_at. eauto.
Qed.

Lemma metadata_filed s ds m uri : db_model (sv_db s) ds → m_uri m = Some uri → key_ok (zkey uri) → is_Some (m_value m) →
  Some uri ∉ concat (device_uris <$> ds) → metadata_fits ds m → m_deviceUuid m ∈ d_uuid <$> ds →
  ∃ ok db', on_db (db_SaveMetadata (Some m)) s = Ok (ok, with_db s db') ∧ db_model db' (file_metadata m <$> ds).
Proof.
  intros Hm Hu Hk Hv Hn Hfit Hd. destruct (save_metadata (sv_db s) ds m Hm) as (ok & db' & ds' & Hs & Hm' & Hst & _).
  { split; [by exists uri|]. by split. }
  unfold on_db. rewrite Hs. obind. exists ok, db'. split; [done|]. cbn [step] in Hst. rewrite Hu in Hst. cbn in Hst.
  destruct Hst as [(Hin & _)|(_ & [(_ & _ & ->)|(Hno & _)])]; done.
Qed.

(** *** Resources of devices with the service's URIs *)

Definition all_canonical ds : Prop := ∀ d, d ∈ ds → ∃ u, canonical d u.

Lemma resource_form d u r : canonical d u → r ∈ device_resources d →
  (∃ i, r_uri r = Some (createDeviceUri u ++ str "/r/" ++ i)) ∨ (∃ t, r_uri r = Some (createDeviceUri u ++ str "/ep/" ++ t)).
Proof.
  intros Hc. unfold device_resources. intros [(l & Hl & Hr)%elem_of_concat|Hr]%elem_of_app.
  - right. apply list_elem_of_fmap in Hl as (e & -> & He). destruct (cn_ep _ _ Hc e He) as (i & _ & _ & _ & _ & Hres & _).
    destruct (Hres r Hr) as [[j Hj] ->]. rewrite Hj. cbn. eexists. unfold res_uri, createEndpointUri, createDeviceUri. by rewrite <-!app_assoc.
  - left. destruct (cn_res _ _ Hc r Hr) as [[j Hj] ->]. rewrite Hj. by exists j.
Qed.

Lemma resource_uri_known d r : r ∈ device_resources d → r_uri r ∈ device_uris d.
Proof.
  unfold device_resources, device_uris. intros [(l & Hl & Hr)%elem_of_concat|Hr]%elem_of_app; right; rewrite !elem_of_app.
  - left. apply list_elem_of_fmap in Hl as (e & -> & He). apply elem_of_concat. exists (ep_uris e). split; [by apply list_elem_of_fmap_2|].
    right. apply elem_of_app. left. by apply list_elem_of_fmap_2.
  - right. left. by apply list_elem_of_fmap_2.
Qed.

(** No resource has the URI of a device, or one of its metadata. *)
Lemma not_a_resource ds d u t r : all_canonical ds → canonical d u → d ∈ ds → NoDup (d_uuid <$> ds) →
  (t = [] ∨ ∃ j, t = str "/m/" ++ j) → ¬ resource_at ds (createDeviceUri u ++ t) r.
Proof.
  intros Hall Hc Hd Hnd Ht (d' & Hd' & Hr & Hu). destruct (Hall d' Hd') as (u' & Hc').
  assert (u' = u) as ->.
  { apply (below_disjoint (str "/") u' u (r_uri r)); [apply Hc'|apply Hc| |].
    - apply (device_uris_below d' u' _ Hc'). by apply resource_uri_known.
    - rewrite Hu. destruct Ht as [->|[j ->]]; [left; by rewrite app_nil_r|right; by eexists]. }
  assert (d' = d) as -> by (apply (fmap_inj_in d_uuid ds); try done; by rewrite (cn_uuid _ _ Hc), (cn_uuid _ _ Hc')).
  destruct (resource_form d u r Hc Hr) as [[i Hi]|[i Hi]]; rewrite Hi in Hu; injection Hu as E%app_inv_head; destruct Ht as [->|[j ->]]; done.
Qed.

Lemma shorter_key a b : key_ok (zkey a) → (length b ≤ length a)%nat → key_ok (zkey b).
Proof. unfold key_ok, strlen, zkey. rewrite !length_app. lia. Qed.

(** Looking for the resource on the root device never finds one. *)
Lemma inherit_nothing s ds uri : db_model (sv_db s) ds → all_canonical ds → key_ok (zkey uri) →
  find_or_inherit uri s = db_GetResourceByUri (Some uri) (sv_db s).
Proof.
  intros Hm Hall Hk. unfold find_or_inherit. destruct (get_resource (sv_db s) ds uri Hm Hk) as (o & -> & Ho). obind.
  destruct o as [r|]; [done|]. destruct (get_endpoint (sv_db s) ds uri Hm Hk) as (oe & -> & He). obind. destruct oe as [e|]; [|done].
  destruct (proj1 (He e) eq_refl) as (d & Hd & Hed & Hin). destruct (Hall d Hd) as (u & Hc).
  destruct (cn_ep _ _ Hc e Hed) as (i & Hid & Hpi & Hu & Hdu & Hres & Hmet). rewrite Hdu, Hu. oread.
  assert (∃ t, uri = createEndpointUri u i ++ t ∧ (t = [] ∨ ∃ j, t = str "/m/" ++ j)) as (t & -> & Ht).
  { unfold ep_uris in Hin. apply elem_of_cons in Hin as [Hin|[Hin|Hin]%elem_of_app].
    - exists []. rewrite app_nil_r. split; [congruence|by left].
    - exfalso. apply list_elem_of_fmap in Hin as (r & Hr & Hrin). assert (@None icDeviceResource = Some r) as E; [|done]. apply Ho. exists d.
      split; [done|]. split; [|done]. unfold device_resources. apply elem_of_app. left. apply elem_of_concat. eexists.
      split; [apply list_elem_of_fmap_2, Hed|done].
    - destruct (met_uris_below _ _ _ Hmet Hin) as (j & Hj). exists (str "/m/" ++ j). split; [|right; by exists j].
      apply (inj Some) in Hj. exact Hj. }
  destruct (service_get_device (sv_db s) ds u Hm) as (od & -> & Hod).
  { eapply shorter_key; [exact Hk|]. unfold createEndpointUri. rewrite !length_app. lia. }
  obind. rewrite (proj2 (Hod d)) by (split; [done|apply Hc]). rewrite decide_True by (rewrite length_app; lia). obind.
  rewrite drop_app_length, (cn_uri _ _ Hc). oread.
  destruct (get_resource (sv_db s) ds (createDeviceUri u ++ t) Hm) as (o & -> & Ho2).
  { eapply shorter_key; [exact Hk|]. unfold createEndpointUri, createDeviceUri. rewrite !length_app. lia. }
  destruct o as [r|]; [|done]. exfalso. eapply (not_a_resource ds d u t r); try done; [by apply db_uuids in Hm as [? _]|]. by apply Ho2.
Qed.

(** *** Removing devices and endpoints *)

Abbreviation driver := (DeviceDriver D MM VM J DD).
Implicit Types (drivers : list driver).

Definition endpoint_events (mk : endpoint → option cstring → event J) (d : device) : list (event J) :=
  (λ e, mk e (d_deviceClass d)) <$> filter (λ e, e_enabled e = true) (elems (d_endpoints d)).

Lemma send_endpoints_log mk d s : send_endpoints mk d s = append_log s (endpoint_events mk d).
Proof.
  unfold send_endpoints, endpoint_events. revert s. induction (elems (d_endpoints d)) as [|e l IH]; intros s; cbn [foldl];
    [by rewrite append_log_nil|]. rewrite IH, filter_cons. destruct (e_enabled e); cbn [fmap list_fmap].
  - rewrite decide_True by done. by rewrite send_log, append_log_app.
  - by rewrite decide_False.
Qed.

(** The managing driver is told that a device is gone. *)
Definition driver_removed drivers (d : device) s : outcome service :=
  driver ← deviceDriverManagerGetDeviceDriver drivers (d_managingDeviceDriver d);
  match driver with Some drv => notify (drv_deviceRemoved drv) d s | None => Ok s end.

Lemma remove_known drivers s ds d u : db_model (sv_db s) ds → db_healthy (sv_db s) → d ∈ ds → d_uuid d = Some u → key_ok (zkey u) →
  ∃ db' ds', ds ≡ₚ d :: ds' ∧ db_model db' ds' ∧ db_healthy db' ∧
    deviceServiceRemoveDevice drivers (Some u) s =
      (s' ← driver_removed drivers d (append_log (with_db s db') (endpoint_events EndpointRemoved d));
       Ok (true, append_log s' [DeviceRemoved (d_uuid d) (d_deviceClass d)])).
Proof.
  intros Hm Hh Hd Hu Hk. unfold deviceServiceRemoveDevice. destruct (service_get_device (sv_db s) ds u Hm Hk) as (o & -> & Ho). obind.
  rewrite (proj2 (Ho d)) by done. destruct (remove_device (sv_db s) ds u Hm Hk) as (ok & db' & ds' & Hs & Hm' & Hst & Hh').
  unfold on_db. rewrite Hs. obind. destruct Hst as [(d' & [= ->] & Hu' & Hp)|([= ->] & _ & Hno)].
  - assert (d' = d) as -> by (apply (device_unique (sv_db s) ds); [done|rewrite Hp; by left|done|congruence]).
    exists db', ds'. split_and!; [done|done|by apply Hh'|]. rewrite send_endpoints_log. unfold driver_removed. by destruct (deviceDriverManagerGetDeviceDriver _ _).
  - by destruct (Hno Hh d Hd).
Qed.

(** An unknown uuid is marked. *)
Lemma remove_unknown_marks drivers s ds u v : db_model (sv_db s) ds → Some u ∉ d_uuid <$> ds → key_ok (zkey u) →
  holds (markedForRemoval s) v → Z.of_nat (size v) < 65535 →
  ∃ m, deviceServiceRemoveDevice drivers (Some u) s = Ok (true, with_marked s m) ∧ holds m (<[u := tt]> v).
Proof.
  intros Hm Hn Hk Hv Hz. unfold deviceServiceRemoveDevice. destruct (service_get_device (sv_db s) ds u Hm Hk) as (o & -> & Ho). obind.
  destruct o as [d|]; [destruct Hn; destruct (proj1 (Ho d) eq_refl) as [Hd <-]; by apply list_elem_of_fmap_2|].
  destruct (v !! u) as [[]|] eqn:E.
  - rewrite (holds_put_old _ v u tt tt Hv Hk E). obind. eexists. split; [done|]. by rewrite insert_id.
  - destruct (holds_put_new _ v u tt Hv Hk E Hz) as (m & -> & Hm'). obind. by eexists.
Qed.

(** Two endpoints with one URI are one. *)
Lemma endpoint_unique s ds d d' e e' uri : db_model (sv_db s) ds → key_ok (zkey uri) → d ∈ ds → d' ∈ ds →
  e ∈ device_endpoints d → e' ∈ device_endpoints d' → e_uri e = Some uri → e_uri e' = Some uri → e = e'.
Proof.
  intros Hm Hk Hd Hd' He He' Hu Hu'. destruct (get_endpoint (sv_db s) ds uri Hm Hk) as (o & _ & Ho).
  assert (o = Some e) as Hoe by (apply Ho; exists d; split_and!; [done|done|unfold ep_uris; rewrite Hu; by left]).
  assert (o = Some e') as Hoe' by (apply Ho; exists d'; split_and!; [done|done|unfold ep_uris; rewrite Hu'; by left]). congruence.
Qed.

(** The endpoint is disabled in the database. *)
Lemma endpoint_disabled s ds d e uri : db_model (sv_db s) ds → db_healthy (sv_db s) → d ∈ ds → e ∈ device_endpoints d →
  e_uri e = Some uri → key_ok (zkey uri) →
  ∃ ok db', on_db (db_SaveEndpoint (Some (disable e))) s = Ok (ok, with_db s db') ∧
    db_model db' (edit_device (on_endpoint uri false) <$> ds) ∧ db_healthy db'.
Proof.
  intros Hm Hh Hd He Hu Hk. destruct (save_endpoint (sv_db s) ds (disable e) Hm) as (ok & db' & ds' & Hs & Hm' & Hst & Hh').
  { split; [by exists uri|]. intros d' e' Hd' He' Hu'. cbn [disable e_uri e_profileVersion] in *.
    by rewrite (endpoint_unique s ds d d' e e' uri) by congruence. }
  unfold on_db. rewrite Hs. obind. exists ok, db'. split; [done|]. cbn [step disable e_uri e_enabled] in Hst. rewrite Hu in Hst. cbn in Hst.
  destruct Hst as [(_ & _ & ->)|(Hn & _)]; [by split; [|apply Hh']|]. destruct Hn. by exists d, e.
Qed.

Lemma none_enabled i (l : list endpoint) : (∀ e, e ∈ l → is_Some (e_id e)) → (∀ e, e ∈ l → e_enabled e = true → e_id e = Some i) →
  other_enabled (Some i) l = Ok false.
Proof.
  induction l as [|e l IH]; intros Hs Hi; [done|]. cbn [other_enabled]. destruct (e_enabled e) eqn:E.
  - rewrite (Hi e (list_elem_of_here _ _) E). oread. rewrite decide_True by done. apply IH; intros x Hx; [apply Hs|apply Hi]; by right.
  - apply IH; intros x Hx; [apply Hs|apply Hi]; by right.
Qed.

(** The endpoint of an id, over devices with the service's URIs. *)
Lemma endpoint_found s ds d u e i : db_model (sv_db s) ds → all_canonical ds → d ∈ ds → d_uuid d = Some u →
  e ∈ elems (d_endpoints d) → e_id e = Some i → key_ok (zkey (createEndpointUri u i)) →
  e_uri e = Some (createEndpointUri u i) ∧ e_deviceUuid e = Some u ∧
  db_GetDeviceById (Some u) (sv_db s) = Ok (Some d) ∧ db_GetEndpointById (Some u) (Some i) (sv_db s) = Ok (Some e).
Proof.
  intros Hm Hall Hd Hu He Hi Hk. destruct (Hall d Hd) as (u' & Hc). assert (u' = u) as -> by (pose proof (cn_uuid _ _ Hc); congruence).
  assert (Hep : ∀ x, x ∈ elems (d_endpoints d) → e_id x = Some i → e_uri x = Some (createEndpointUri u i) ∧ e_deviceUuid x = Some u).
  { intros x Hx Hxi. destruct (cn_ep _ _ Hc x Hx) as (j & Hj & _ & Hux & Hdx & _). by simplify_eq. }
  assert (Hku : key_ok (zkey u)) by (eapply shorter_key; [exact Hk|unfold createEndpointUri; rewrite !length_app; lia]).
  destruct (Hep e He Hi) as [Huri Hdu]. split; [done|]. split; [done|]. split.
  - destruct (service_get_device (sv_db s) ds u Hm Hku) as (o & -> & Ho). by rewrite (proj2 (Ho d)).
  - destruct (get_endpoint_by_id (sv_db s) ds u i Hm Hku) as (o & -> & Ho). destruct o as [x|]; [|by destruct (Ho d e)].
    destruct Ho as (Hxi & d' & Hd' & Hu' & Hx). assert (d' = d) as -> by (apply (device_unique (sv_db s) ds); congruence).
    by rewrite (endpoint_unique s ds d d x e (createEndpointUri u i)) by (try done; by apply Hep).
Qed.

(** Disabling an endpoint changes its own device only. *)
Lemma edit_endpoint_other uri b (d : device) : (∀ e, e ∈ elems (d_endpoints d) → e_uri e ≠ Some uri) → edit_device (on_endpoint uri b) d = d.
Proof.
  intros Hn. destruct d as [u c cv ur dr es rs ms]. unfold edit_device. cbn [d_uuid d_deviceClass d_deviceClassVersion d_uri d_managingDeviceDriver
    d_endpoints d_resources d_metadata on_endpoint ed_res ed_met] in *. assert (Hid : ∀ {A} (l : option (list A)), option_map (map id) l = l).
  { intros A [l|]; [|done]. cbn. by rewrite map_id. }
  rewrite !Hid. f_equal. destruct es as [l|]; [|done]. cbn [option_map elems default from_option] in *. f_equal.
  transitivity (map id l); [|apply map_id]. apply map_ext_in. intros e He%list_elem_of_In. destruct e as [i eu p v du en er em].
  unfold edit_endpoint. cbn [e_id e_uri e_profile e_profileVersion e_deviceUuid e_enabled e_resources e_metadata ed_version ed_enabled ed_res ed_met].
  rewrite !Hid. cbn. rewrite decide_False; [done|]. by apply (Hn _ He).
Qed.

Lemma disabled_rest s ds d u i ds' : db_model (sv_db s) ds → all_canonical ds → d ∈ ds → d_uuid d = Some u →
  edit_device (on_endpoint (createEndpointUri u i) false) <$> ds ≡ₚ edit_device (on_endpoint (createEndpointUri u i) false) d :: ds' →
  ds ≡ₚ d :: ds'.
Proof.
  intros Hm Hall Hd Hu Hp. apply elem_of_Permutation in Hd as (rest & Hrest). rewrite Hrest in Hp. cbn [fmap list_fmap] in Hp.
  apply Permutation_cons_inv in Hp. rewrite Hrest. constructor. rewrite <-Hp. apply reflexive_eq. symmetry. rewrite <-(list_fmap_id rest) at 2.
  apply list_fmap_ext. intros k x Hx%list_elem_of_lookup_2. apply edit_endpoint_other. intros e He Hue.
  assert (Hxd : x ∈ ds) by (rewrite Hrest; by right). destruct (Hall x Hxd) as (u' & Hc).
  destruct (cn_ep _ _ Hc e He) as (j & _ & _ & Hj & _). rewrite Hue in Hj. apply (inj Some) in Hj.
  assert (u' = u) as ->.
  { apply (below_disjoint (str "/") u' u (Some (createEndpointUri u i))); [apply Hc| |..].
    - destruct (Hall d) as (u0 & Hc0); [rewrite Hrest; by left|]. pose proof (cn_uuid _ _ Hc0). replace u with u0 by congruence. apply Hc0.
    - rewrite Hj. right. by exists (str "ep/" ++ j).
    - right. by exists (str "ep/" ++ i). }
  apply db_uuids in Hm as [Hn _]. rewrite Hrest in Hn. apply NoDup_cons in Hn as [Hn _]. apply Hn. rewrite Hu, <-(cn_uuid _ _ Hc).
  by apply list_elem_of_fmap_2.
Qed.

(** A device without enabled endpoints has no events for them. *)
Lemma nothing_enabled mk (d : device) uri : (∀ e, e ∈ elems (d_endpoints d) → e_enabled e = true → e_uri e = Some uri) →
  endpoint_events mk (edit_device (on_endpoint uri false) d) = [].
Proof.
  intros Hn. unfold endpoint_events, edit_device. cbn [d_endpoints d_deviceClass]. rewrite elems_map.
  induction (elems (d_endpoints d)) as [|e l IH]; [done|]. cbn [fmap list_fmap]. rewrite filter_cons. unfold edit_endpoint at 1. cbn [e_enabled on_endpoint ed_enabled].
  rewrite decide_False; [apply IH; intros x Hx; apply Hn; by right|]. specialize (Hn e (list_elem_of_here _ _)). cbn. case_decide; [done|]. intros E. by apply Hn in E.
Qed.

(** *** Modes *)

Lemma has_sensitive n : has_mode (Z.lor n RESOURCE_MODE_SENSITIVE) RESOURCE_MODE_SENSITIVE = true.
Proof.
  unfold has_mode. assert (Z.land (Z.lor n RESOURCE_MODE_SENSITIVE) RESOURCE_MODE_SENSITIVE = RESOURCE_MODE_SENSITIVE) as ->; [|done].
  apply Z.bits_inj'. intros k _. rewrite Z.land_spec, Z.lor_spec. by destruct (Z.testbit n k), (Z.testbit RESOURCE_MODE_SENSITIVE k).
Qed.

Lemma new_mode_bits old n :
  has_mode (new_mode old n) RESOURCE_MODE_SENSITIVE = has_mode old RESOURCE_MODE_SENSITIVE || has_mode n RESOURCE_MODE_SENSITIVE ∧
  Z.lor (new_mode old n) RESOURCE_MODE_SENSITIVE = Z.lor n RESOURCE_MODE_SENSITIVE.
Proof.
  unfold new_mode. destruct (has_mode old RESOURCE_MODE_SENSITIVE), (has_mode n RESOURCE_MODE_SENSITIVE) eqn:E; cbn [andb negb orb]; rewrite ?E; try done.
  rewrite has_sensitive, <-Z.lor_assoc, Z.lor_diag. done.
Qed.

End Service.

(** ** Readiness *)

(** One event when both have reported; initialization when the subsystems have. *)
Definition ready_inv (r : readiness) : Prop :=
  readyEvents r = (if deviceServiceIsReadyForDevices r then 1%nat else 0%nat) ∧
  (initializations r = 0%nat ↔ subsystemsReadyForDevices r = false).

Lemma ready_inv_step r r' : ready_inv r → ready_step r r' → ready_inv r'.
Proof.
  intros [He Hi] Hs. unfold ready_inv in *. destruct Hs as [[[] [] [] e n]|[[] [] [] e n]|[[] [] [] e n]|[[] [] [] e n] ?]; cbn in *; subst; split; try done; try lia;
    destruct Hi; split; try done; lia.
Qed.

Lemma ready_step_mono r r' : ready_step r r' → deviceServiceIsReadyForDevices r = true → deviceServiceIsReadyForDevices r' = true.
Proof. intros Hs. destruct Hs as [[[] [] [] e n]|[[] [] [] e n]|[[] [] [] e n]|[[] [] [] e n] ?]; cbn; done. Qed.

End DeviceServiceSpec.
