(* ===== verification/DevicePairingSpec.v ===== *)
(** * What pairing does

    Building the resources of a device, adding a finished device, and what a
    reconfigured device keeps. *)

From S2P Require Import Prelude KeyMap StringUtils StringNumbers DeviceModel Storage JsonDatabase JsonDatabaseSpec JsonDatabaseOps JsonDatabaseMemory.
From S2P Require Import JsonDatabaseDevices JsonDatabaseQuery JsonDatabaseMetadata JsonDatabaseModel DeviceDb StringKeyed.
From S2P Require Import DeviceUris DeviceUrisSpec DeviceBuild DeviceService DeviceServiceSpec DevicePairing.
Import KeyMap StringUtils StringNumbers DeviceModel Storage JsonDatabase JsonDatabaseSpec JsonDatabaseOps JsonDatabaseMemory.
Import JsonDatabaseDevices JsonDatabaseQuery JsonDatabaseMetadata JsonDatabaseModel DeviceDb StringKeyed InitialValues.
Import DeviceUris DeviceUrisSpec DeviceBuild DeviceService DeviceServiceSpec DevicePairing.

Module DevicePairingSpec.

(** ** setUris and ids *)

Lemma kept_ids (l l' : list endpoint) : Forall2 ep_kept l l' → e_id <$> l' = e_id <$> l.
Proof. induction 1 as [|x y l l' Hk F IH]; [done|]. cbn [fmap list_fmap]. by rewrite IH, (proj1 Hk). Qed.

Lemma set_distinct d u d' : prepared d u → setUris d = Ok d' → distinct_ids d → distinct_ids d'.
Proof.
  intros Hp Hs [[D1 D2] D3 D4]. destruct (setUris_spec d u Hp) as (x & Hx & _ & F & Hr & Hm & _). assert (x = d') as -> by congruence. split.
  - split; [by rewrite Hr|by rewrite Hm].
  - by rewrite (kept_ids _ _ F).
  - intros e' He'. destruct (Forall2_elem_r _ _ _ _ F He') as (e & He & (_ & _ & Kr & Km & _)). unfold owner_ids. rewrite Kr, Km. by apply D4.
Qed.

Lemma set_cloneable d u d' : prepared d u → setUris d = Ok d' → cloneable d → cloneable d'.
Proof.
  intros Hp Hs Hc e' He'. destruct (setUris_spec d u Hp) as (x & Hx & _ & F & _). assert (x = d') as -> by congruence.
  destruct (Forall2_elem_r _ _ _ _ F He') as (e & He & (_ & _ & _ & Km & Ks)). destruct (Hc e He) as [Hr Hm]. split; [by apply Ks|by rewrite Km].
Qed.

Lemma find_resource_total i (l : list icDeviceResource) : (∀ r, r ∈ l → is_Some (r_id r)) →
  ∃ o, find_resource i l = Ok o ∧ match o with Some r => r ∈ l ∧ r_id r = Some i | None => ∀ r, r ∈ l → r_id r ≠ Some i end.
Proof.
  induction l as [|r l IH]; intros Hs; cbn [find_resource]; [exists None; split; [done|by intros r ?%elem_of_nil]|].
  destruct (Hs r (list_elem_of_here _ _)) as [j Hj]. rewrite Hj. oread. case_decide as E.
  - subst. exists (Some r). split; [done|]. by split; [left|].
  - destruct IH as (o & -> & Ho); [intros x Hx; apply Hs; by right|]. exists o. split; [done|]. destruct o as [x|].
    + destruct Ho. split; [by right|done].
    + intros x [->|Hx]%elem_of_cons; [congruence|by apply Ho].
Qed.

Section Pairing.
Context {D : Type} `{DeviceDbLaws D}.
Context {MM : Type} `{KeyMapLaws MM unit}.
Context {VM : Type} `{KeyMapLaws VM (option cstring)}.
Context {J DD : Type}.
Abbreviation service := (DeviceService.service D MM J).
Abbreviation driver := (DeviceDriver D MM VM J DD).
Variable drivers : list driver.
Implicit Types (s : service) (ds : list device).

(** ** Adding a finished device *)

Lemma strchr_none (c : byte) t : c ∉ t → strchr t c = None.
Proof.
  induction t as [|b t IH]; intros Hn; [done|]. apply not_elem_of_cons in Hn as [Hb Hn]. cbn [strchr].
  rewrite decide_False by congruence. by rewrite IH.
Qed.

Lemma write_unknown s ds uri v : db_model (sv_db s) ds → all_canonical ds → key_ok (zkey uri) → WILDCARD ∉ uri →
  (∀ r, ¬ resource_at ds uri r) → deviceServiceWriteResource drivers (Some uri) v s = Ok (false, s).
Proof.
  intros Hm Hall Hk Hw Hn. unfold deviceServiceWriteResource, isUriPattern. rewrite strchr_none by done.
  rewrite bool_decide_eq_false_2 by (by intros [? ?]). unfold deviceServiceWriteResourceNoPattern.
  rewrite (inherit_nothing s ds uri Hm Hall Hk). destruct (get_resource (sv_db s) ds uri Hm Hk) as (o & -> & Ho). obind.
  destruct o as [r|]; [|done]. destruct (Hn r). by apply Ho.
Qed.

(** The device [d], which becomes [d'], can be added to the devices [ds]. *)
Record pairable ds (d : device) (u : cstring) (d' : device) : Prop := {
  pa_prepared : prepared d u;
  pa_ids : distinct_ids d;
  pa_clone : cloneable d;
  pa_new : Some u ∉ d_uuid <$> ds;
  pa_key : key_ok (zkey u);
  pa_file : good_key u ∧ u ≠ SYSTEM_PROPERTIES_KEY;
  pa_star : WILDCARD ∉ u;
  pa_set : setUris d = Ok d';
  pa_uris v : Some v ∈ device_uris d' → key_ok (zkey v);
  pa_room : zlen ds < 65535;
  pa_room_uris : zlen (device_uris d') + zlen (concat (device_uris <$> ds)) ≤ 65535
}.

Lemma pairable_canonical ds d u d' : pairable ds d u d' → canonical d' u.
Proof. intros [P1 _ _ _ _ _ _ P8 _ _ _]. destruct (setUris_spec d u P1) as (x & Hx & Hc & _). by assert (x = d') as <- by congruence. Qed.

Lemma pairable_admissible ds d u d' : all_canonical ds → pairable ds d u d' → admissible ds d' u.
Proof.
  intros Hall Hp. pose proof (pairable_canonical _ _ _ _ Hp) as Hc. destruct Hp as [P1 P2 P3 P4 P5 P6 P7 P8 P9 P10 P11].
  apply canonical_admissible; try done; [by apply (set_distinct d u)|by apply (set_cloneable d u)].
Qed.

(** No resource of a known device has the URI of a new one's. *)
Lemma new_uri_unknown ds d u d' x r : all_canonical ds → pairable ds d u d' → Some x ∈ device_uris d' → ¬ resource_at ds x r.
Proof.
  intros Hall Hp Hx (d0 & Hd0 & Hr & Hu). destruct (Hall d0 Hd0) as (u0 & Hc0). pose proof (pairable_canonical _ _ _ _ Hp) as Hc.
  apply (canonical_disjoint d' d0 u u0 (Some x)); try done.
  - intros <-. apply (pa_new _ _ _ _ Hp). rewrite <-(cn_uuid _ _ Hc0). by apply list_elem_of_fmap_2.
  - rewrite <-Hu. by apply resource_uri_known.
Qed.

(** The time zone cannot be written yet: the device is not in the database. *)
Lemma timezone_skipped s ds d u d' : db_model (sv_db s) ds → all_canonical ds → pairable ds d u d' →
  ∃ o, deviceServiceFindDeviceResourceById (Some d') COMMON_DEVICE_RESOURCE_TIMEZONE = Ok o ∧
    ∀ r tz, o = Some r → deviceServiceWriteResource drivers (r_uri r) tz s = Ok (false, s).
Proof.
  intros Hm Hall Hp. pose proof (pairable_canonical _ _ _ _ Hp) as Hc. unfold deviceServiceFindDeviceResourceById.
  destruct (find_resource_total COMMON_DEVICE_RESOURCE_TIMEZONE (elems (d_resources d'))) as (o & -> & Ho).
  { intros r Hr. by apply (cn_res _ _ Hc r Hr). }
  exists o. split; [done|]. intros r tz ->. destruct Ho as [Hr Hi]. destruct (cn_res _ _ Hc r Hr) as [_ Hu]. rewrite Hi in Hu. cbn [fmap option_fmap option_map] in Hu.
  set (x := res_uri (createDeviceUri u) COMMON_DEVICE_RESOURCE_TIMEZONE) in *. rewrite Hu.
  assert (Hin : Some x ∈ device_uris d').
  { rewrite <-Hu. apply resource_uri_known. unfold device_resources. apply elem_of_app. by right. }
  apply (write_unknown s ds); try done.
  - by apply (pa_uris _ _ _ _ Hp).
  - unfold x, res_uri, createDeviceUri. rewrite !not_elem_of_app. split_and!; [|apply (pa_star _ _ _ _ Hp)|..];
      (apply (bool_decide_unpack _); vm_compute; exact I).
  - intros r'. by apply (new_uri_unknown ds d u d').
Qed.

Lemma finalize_new s ds d u d' sendEvents : db_model (sv_db s) ds → all_canonical ds → pairable ds d u d' →
  ∃ ok db' ds', finalizeNewDevice drivers (Some d) sendEvents false s =
      Ok (ok, Some d', append_log (with_db s db') (ConfigUpdated :: if sendEvents : bool then DeviceAdded (Some u) :: endpoint_events EndpointAdded d' else [])) ∧
    db_model db' ds' ∧ (if ok : bool then ds' ≡ₚ d' :: ds else ¬ db_healthy (sv_db s) ∧ ds' ≡ₚ ds) ∧
    (db_healthy (sv_db s) → db_healthy db').
Proof.
  intros Hm Hall Hp. unfold finalizeNewDevice. rewrite (pa_set _ _ _ _ Hp). obind. pose proof (pairable_canonical _ _ _ _ Hp) as Hc.
  destruct (timezone_skipped s ds d u d' Hm Hall Hp) as (o & -> & Ho). obind.
  assert (Htz : match o, sv_props s !! POSIX_TIME_ZONE_PROP with
          | Some r, Some posixTZ => '(_, s) ← deviceServiceWriteResource drivers (r_uri r) (Some posixTZ) s; Ok s
          | _, _ => Ok s
          end = Ok s).
  { destruct o as [r|]; [|done]. destruct (sv_props s !! POSIX_TIME_ZONE_PROP); [|done]. by rewrite (Ho r _ eq_refl). }
  rewrite Htz. obind. destruct (add_device (sv_db s) ds d' Hm) as (ok & db' & ds' & Hs & Hm' & Hst & Hh).
  { exists u. split; [by apply (pairable_admissible ds d)|apply (pa_file _ _ _ _ Hp)]. }
  unfold on_db. rewrite Hs. obind. exists ok, db', ds'. split.
  - rewrite (cn_uuid _ _ Hc), send_endpoints_log, !send_log, !append_log_app. destruct sendEvents; [done|]. by rewrite ?append_log_nil.
  - split; [done|]. split; [|done]. destruct Hst as [([= ->] & Hperm)|(Hn & [= ->] & Hperm)]; done.
Qed.

(** ** The common resources *)

Lemma put_all (values : option VM) (v : gmap cstring (option cstring)) l : holds values v → Forall (λ p, key_ok (zkey p.1)) l → Z.of_nat (size v + length l) ≤ 65535 →
  ∃ values', foldM (λ p v, '(_, v) ← initialResourceValuesPutDeviceValue v (Some p.1) p.2; Ok v) l values = Ok values' ∧
    holds values' (foldl (λ m p, <[p.1 := p.2]> m) v l).
Proof.
  intros Hh Hk. revert values v Hh. induction Hk as [|[k x] l Hk Hl IH]; intros values v Hh Hz; [by exists values|]. cbn [foldM foldl fst snd length] in *.
  destruct (put_replaces values v k x Hh Hk) as (values1 & -> & Hh1); [lia|]. obind. apply IH; [done|].
  pose proof (map_size_insert k x v) as Hs. destruct (v !! k); unfold id in Hs; lia.
Qed.

Definition common_map (now : Z) (ma mo hw fw : option cstring) : gmap cstring (option cstring) :=
  foldl (λ m p, <[p.1 := p.2]> m) ∅ (common_values now ma mo hw fw).

Lemma fetch_common now ma mo hw fw : ∃ values : option VM,
  fetchCommonResourcesInitialValues now ma mo hw fw initialResourceValuesCreate = Ok (true, values) ∧ holds values (common_map now ma mo hw fw).
Proof.
  unfold fetchCommonResourcesInitialValues, initialResourceValuesCreate.
  destruct (put_all (Some km_create) ∅ (common_values now ma mo hw fw) created_holds) as (values & -> & Hh).
  - repeat constructor; vm_compute; done.
  - rewrite map_size_empty. cbn. lia.
  - obind. by exists values.
Qed.

(** The resource made for an entry of [common_resources]. *)
Definition common_resource (u : cstring) (v : gmap cstring (option cstring)) (x : cstring * cstring * Z) : icDeviceResource :=
  let '(i, t, mode) := x in
  mkResource (Some i) None None (Some u) (default None (v !! i)) (Some t)
    (if has_mode mode RESOURCE_MODE_DYNAMIC then Z.lor mode RESOURCE_MODE_DYNAMIC_CAPABLE else mode) CACHING_POLICY_ALWAYS 0.

Definition reset_resource (u : cstring) : icDeviceResource :=
  mkResource (Some COMMON_DEVICE_FUNCTION_RESET_TO_FACTORY) None None (Some u) None
    (Some RESOURCE_TYPE_RESET_TO_FACTORY_OPERATION) RESOURCE_MODE_EXECUTABLE CACHING_POLICY_NEVER 0.

Lemma add_available_spec (values : option VM) v l u rs d : holds values v →
  Forall (λ x, key_ok (zkey x.1.1) ∧ is_Some (v !! x.1.1) ∧ x.2 ≠ 0) l → d_uuid d = Some u → d_resources d = Some rs →
  add_available l values true d = Ok (true, set_resources d (Some (rs ++ (common_resource u v <$> l)))).
Proof.
  intros Hh Hl. revert d rs. induction Hl as [|[[i t] mode] l (Hk & [x Hx] & Hmode) Hl IH]; intros d rs Hu Hr; cbn [add_available].
  - rewrite app_nil_r. destruct d. cbn in *. by subst.
  - cbn [fst snd] in *. unfold createDeviceResourceIfAvailable. rewrite (has_value values v i Hh Hk), bool_decide_eq_true_2 by eauto. obind.
    rewrite (get_value values v i Hh Hk). obind. unfold createDeviceResource, createDeviceResourceOnList. rewrite Hr, Hu, decide_False by done. oread.
    cbn [append_resource]. rewrite bool_decide_eq_true_2 by eauto. cbn [andb]. rewrite (IH _ (rs ++ [common_resource u v (i, t, mode)])).
    + unfold set_resources. cbn [d_uuid d_deviceClass d_deviceClassVersion d_uri d_managingDeviceDriver d_endpoints d_metadata fmap list_fmap].
      by rewrite <-app_assoc.
    + done.
    + cbn [set_resources d_resources]. unfold common_resource, snoc. rewrite Hr, Hx. cbn [fmap option_fmap option_map default from_option id]. by destruct x.
Qed.

Lemma add_common (values : option VM) v u rs d : holds values v → (∀ x, x ∈ common_resources → is_Some (v !! x.1.1)) →
  d_uuid d = Some u → d_resources d = Some rs →
  addCommonResources d values = Ok (true, set_resources d (Some (rs ++ (common_resource u v <$> common_resources) ++ [reset_resource u]))).
Proof.
  intros Hh Hv Hu Hr. unfold addCommonResources. rewrite (add_available_spec values v common_resources u rs d); try done.
  - obind. unfold createDeviceResource, createDeviceResourceOnList. cbn [set_resources d_resources d_uuid]. rewrite Hu, decide_False by done. oread.
    cbn [append_resource]. rewrite bool_decide_eq_true_2 by eauto. unfold set_resources, snoc.
    cbn [fmap option_fmap option_map d_resources d_uuid d_deviceClass d_deviceClassVersion d_uri d_managingDeviceDriver d_endpoints d_metadata andb].
    by rewrite <-app_assoc, Hu.
  - apply Forall_forall. intros x Hx. split; [|split; [by apply Hv|]]; unfold common_resources in Hx; rewrite !elem_of_cons in Hx;
      repeat (destruct Hx as [->|Hx]; [vm_compute; done|]); by apply elem_of_nil in Hx.
Qed.

Lemma inserted_all {V} (l : list (cstring * V)) (v : gmap cstring V) i : i ∈ l.*1 ∨ is_Some (v !! i) →
  is_Some (foldl (λ m p, <[p.1 := p.2]> m) v l !! i).
Proof.
  revert v. induction l as [|[k x] l IH]; intros v; cbn [foldl fmap list_fmap fst snd]; [by intros [?%elem_of_nil|?]|].
  rewrite elem_of_cons. intros Hi. apply IH. rewrite lookup_insert_is_Some. destruct (decide (k = i)); naive_solver.
Qed.

Lemma common_map_complete now ma mo hw fw x : x ∈ common_resources → is_Some (common_map now ma mo hw fw !! x.1.1).
Proof.
  intros Hx. unfold common_map. apply inserted_all. left. change ((common_values now ma mo hw fw).*1) with (common_resources.*1.*1).
  by apply list_elem_of_fmap_2, list_elem_of_fmap_2.
Qed.

(** ** What a reconfigured device takes over *)

Definition id_ok (i : option cstring) : Prop := ∀ x, i = Some x → no_nul x.

Lemma compare_ids a b : id_ok a → id_ok b → stringCompare a b false = 0 ↔ a = b.
Proof. intros Ha Hb. by destruct (stringCompare_spec a b false Ha Hb) as (_ & _ & ->). Qed.

(** An endpoint with the metadata [ms] and the label of [o]. *)
Definition taken (ms : option (list icDeviceMetadata)) (o : option icDeviceResource) (e : endpoint) : endpoint :=
  let e := set_ep_metadata e ms in
  match o with Some r => set_ep_resources e (snd (yoink_list r (e_resources e) COMMON_ENDPOINT_RESOURCE_LABEL)) | None => e end.

Lemma taken_id ms o e : e_id (taken ms o e) = e_id e.
Proof. unfold taken. by destruct o. Qed.

Lemma taken_metadata ms o e : e_metadata (taken ms o e) = ms.
Proof. unfold taken. by destruct o. Qed.

Lemma yoink_absent i ms o (l : list endpoint) : id_ok i → (∀ e, e ∈ l → id_ok (e_id e)) → i ∉ e_id <$> l → yoink_endpoints i ms o l = (false, l).
Proof.
  intros Hi. revert ms o. induction l as [|e l IH]; intros ms o Hl Hn; [done|]. cbn [yoink_endpoints fmap list_fmap] in *.
  apply not_elem_of_cons in Hn as [Hne Hn]. rewrite decide_False.
  - by rewrite IH by (try done; intros x Hx; apply Hl; by right).
  - rewrite compare_ids; [done|done|apply Hl; by left].
Qed.

Lemma yoink_endpoints_spec i ms o (l : list endpoint) : id_ok i → (∀ e, e ∈ l → id_ok (e_id e)) → NoDup (e_id <$> l) →
  yoink_endpoints i ms o l = (bool_decide (i ∈ e_id <$> l), (λ e, if decide (e_id e = i) then taken ms o e else e) <$> l).
Proof.
  intros Hi. revert ms o. induction l as [|e l IH]; intros ms o Hl Hn; [done|]. cbn [yoink_endpoints fmap list_fmap] in *.
  apply NoDup_cons in Hn as [Hne Hn]. assert (Hl' : ∀ x, x ∈ l → id_ok (e_id x)) by (intros x Hx; apply Hl; by right).
  destruct (decide (e_id e = i)) as [E|E].
  - rewrite decide_True by (rewrite compare_ids; [done|done|apply Hl; by left]). rewrite bool_decide_eq_true_2 by (rewrite E; by left).
    assert (Hrest : (λ e, if decide (e_id e = i) then taken ms o e else e) <$> l = l).
    { rewrite <-(list_fmap_id l) at 2. apply list_fmap_ext. intros k x Hx%list_elem_of_lookup_2. rewrite decide_False; [done|].
      intros Ex. apply Hne. rewrite E, <-Ex. by apply list_elem_of_fmap_2. }
    rewrite Hrest. subst i. unfold taken. destruct o as [r|].
    + destruct (yoink_list r (e_resources (set_ep_metadata e ms)) COMMON_ENDPOINT_RESOURCE_LABEL) as [r' rs]. by rewrite (yoink_absent (e_id e)).
    + by rewrite (yoink_absent (e_id e)).
  - rewrite decide_False by (rewrite compare_ids; [done|done|apply Hl; by left]). rewrite (IH ms o Hl' Hn). f_equal.
    apply bool_decide_ext. rewrite elem_of_cons. naive_solver.
Qed.

(** Every new endpoint with its old one. *)
Fixpoint take_over (labels : endpoint → option icDeviceResource) (old : list endpoint) (e : endpoint) : endpoint :=
  match old with
  | [] => e
  | x :: old => take_over labels old (if decide (e_id e = e_id x) then taken (e_metadata x) (labels x) e else e)
  end.

Lemma take_over_id labels old e : e_id (take_over labels old e) = e_id e.
Proof. revert e. induction old as [|x old IH]; intros e; [done|]. cbn [take_over]. rewrite IH. case_decide; [apply taken_id|done]. Qed.

Lemma take_over_other labels old e : e_id e ∉ e_id <$> old → take_over labels old e = e.
Proof.
  revert e. induction old as [|x old IH]; intros e Hn; [done|]. cbn [take_over fmap list_fmap] in *. apply not_elem_of_cons in Hn as [Hne Hn].
  rewrite decide_False by done. by apply IH.
Qed.

Lemma take_over_match labels old e x : NoDup (e_id <$> old) → x ∈ old → e_id e = e_id x →
  take_over labels old e = taken (e_metadata x) (labels x) e.
Proof.
  revert e. induction old as [|y old IH]; intros e Hn Hx Hid; [by apply elem_of_nil in Hx|]. cbn [take_over fmap list_fmap] in *.
  apply NoDup_cons in Hn as [Hy Hn]. apply elem_of_cons in Hx as [->|Hx].
  - rewrite decide_True by done. apply take_over_other. by rewrite taken_id, Hid.
  - rewrite decide_False; [by apply IH|]. intros E. apply Hy. rewrite <-E, Hid. by apply list_elem_of_fmap_2.
Qed.

Lemma yoink_all_spec s u labels old (l : list endpoint) :
  (∀ x, x ∈ old → id_ok (e_id x) ∧ deviceServiceGetResourceByIdInternal u (e_id x) (Some COMMON_ENDPOINT_RESOURCE_LABEL) s = Ok (labels x)) →
  (∀ e, e ∈ l → id_ok (e_id e)) → NoDup (e_id <$> l) → (∀ x, x ∈ old → e_id x ∈ e_id <$> l) →
  yoink_all u old (Some l) s = Ok (true, Some (take_over labels old <$> l)).
Proof.
  revert l. induction old as [|x old IH]; intros l Hold Hl Hn Hin; cbn [yoink_all take_over]; [by rewrite list_fmap_id|].
  destruct (Hold x (list_elem_of_here _ _)) as [Hx ->]. obind. change (elems (Some l)) with l. rewrite (yoink_endpoints_spec (e_id x)) by done.
  rewrite bool_decide_eq_true_2 by (apply Hin; by left).
  set (f := λ e, if decide (e_id e = e_id x) then taken (e_metadata x) (labels x) e else e).
  assert (Hids : e_id <$> (f <$> l) = e_id <$> l).
  { rewrite <-list_fmap_compose. apply list_fmap_ext. intros k e _. unfold compose, f. case_decide; [apply taken_id|done]. }
  rewrite IH.
  - by rewrite <-list_fmap_compose.
  - intros y Hy. apply Hold. by right.
  - intros e (e0 & -> & He0)%list_elem_of_fmap. unfold f. case_decide; [rewrite taken_id|]; by apply Hl.
  - by rewrite Hids.
  - intros y Hy. rewrite Hids. apply Hin. by right.
Qed.

(** The value a yoinked resource list has for the id. *)
Lemma yoinked_value o (l : list icDeviceResource) i r : no_nul i → (∀ x, x ∈ l → id_ok (r_id x)) → NoDup (r_id <$> l) → r ∈ l → r_id r = Some i →
  DeviceService.set_value r (r_value o) ∈ (yoinkResource o l i).2.
Proof.
  intros Hi Hl Hn Hr Hid. induction l as [|x l IH]; [by apply elem_of_nil in Hr|]. cbn [yoinkResource fmap list_fmap] in *. apply NoDup_cons in Hn as [Hx Hn].
  assert (Hc : stringCompare (Some i) (r_id x) false = 0 ↔ Some i = r_id x) by (apply compare_ids; [by intros ? [= <-]|apply Hl; by left]).
  apply elem_of_cons in Hr as [->|Hr].
  - rewrite decide_True by (by rewrite Hc). by left.
  - rewrite decide_False by (rewrite Hc; intros E; apply Hx; rewrite <-E, <-Hid; by apply list_elem_of_fmap_2).
    destruct (yoinkResource o l i) as [o' l'] eqn:E. right. apply IH; [intros y Hy; apply Hl; by right|done|done].
Qed.

(** ** The end of a pairing *)

Abbreviation found := (DeviceFoundDetails (D := D) (MM := MM) (VM := VM) (J := J) (DD := DD)).
Variable dd_metadata : DD → option VM.
Implicit Types (f : found).

Definition with_events f : bool := negb (bool_decide (is_Some (df_deviceMigrator f))).

(** The driver has configured the device [d1], which left the state [s1]. *)
Record configured (now : Z) f (dd : option DD) s (d1 : device) s1 : Prop := {
  cf_device : ∃ d0, createDevice (df_deviceUuid f) (df_deviceClass f) (df_deviceClassVersion f) (driverName (df_deviceDriver f)) (dd ≫= dd_metadata) = Ok (Some d0) ∧
    configure_device now f dd (with_events f) d0 (send_if (with_events f) s (DeviceDiscovered (df_deviceUuid f))) = Ok (true, d1, s1);
  cf_class : ∃ c, df_deviceClass f = Some c ∧ activeDiscoveries s1 !! c ≠ Some true
}.

Lemma take_mark_spec s d u v : d_uuid d = Some u → key_ok (zkey u) → holds (markedForRemoval s) v →
  ∃ m, take_mark d s = Ok (bool_decide (is_Some (v !! u)), with_marked s m) ∧ holds m (delete u v).
Proof.
  intros Hu Hk Hv. unfold take_mark. rewrite Hu. oread. destruct (holds_delete _ v u Hv Hk) as (m & -> & Hm). obind. by exists m.
Qed.

(** A marked device is not added; the driver is told to forget it. *)
Lemma pair_marked now f dd s d1 s1 u v : configured now f dd s d1 s1 → d_uuid d1 = Some u → key_ok (zkey u) →
  holds (markedForRemoval s1) v → is_Some (v !! u) →
  ∃ m, holds m (delete u v) ∧ pair_device drivers dd_metadata now f dd s =
    (s2 ← (if with_events f then notify (drv_deviceRemoved (df_deviceDriver f)) d1 (with_marked s1 m) else Ok (with_marked s1 m));
     Ok (false, send_if (with_events f) s2 (DiscoveryFailed (Some u) (df_deviceClass f)))).
Proof.
  intros [(d0 & Hd0 & Hconf) (c & Hc & Hrep)] Hu Hk Hv Hin. unfold pair_device. rewrite Hd0. oread. fold (with_events f). rewrite Hconf. obind.
  destruct (take_mark_spec s1 d1 u v Hu Hk Hv) as (m & -> & Hm). rewrite bool_decide_eq_true_2 by done. obind. exists m. split; [done|].
  rewrite Hc. oread. cbn [negb]. obind. by rewrite Hu.
Qed.

(** A device that can be added is added, and its driver told. *)
Lemma pair_kept now f dd s d1 s1 u v ds d' : configured now f dd s d1 s1 → d_uuid d1 = Some u →
  holds (markedForRemoval s1) v → v !! u = None → db_model (sv_db s1) ds → db_healthy (sv_db s1) → all_canonical ds → pairable ds d1 u d' →
  ∃ m db' ds', holds m (delete u v) ∧ db_model db' ds' ∧ ds' ≡ₚ d' :: ds ∧ db_healthy db' ∧ pair_device drivers dd_metadata now f dd s =
    (s2 ← notify (persistedFunc f) d' (append_log (with_db (with_marked s1 m) db')
            (ConfigUpdated :: if with_events f then DeviceAdded (Some u) :: endpoint_events EndpointAdded d' ++ [DiscoveryCompleted d'] else []));
     Ok (true, s2)).
Proof.
  intros [(d0 & Hd0 & Hconf) (c & Hc & Hrep)] Hu Hv Hin Hm Hh Hall Hp. unfold pair_device. rewrite Hd0. oread. fold (with_events f). rewrite Hconf. obind.
  destruct (take_mark_spec s1 d1 u v Hu (pa_key _ _ _ _ Hp) Hv) as (m & -> & Hm'). rewrite bool_decide_eq_false_2 by (rewrite Hin; by intros [? ?]). obind.
  rewrite Hc. oread. change (activeDiscoveries (with_marked s1 m)) with (activeDiscoveries s1).
  assert (default false (activeDiscoveries s1 !! c) = false) as -> by (destruct (activeDiscoveries s1 !! c) as [[]|]; done). cbn [negb].
  destruct (finalize_new (with_marked s1 m) ds d1 u d' (with_events f) Hm Hall Hp) as (ok & db' & ds' & -> & Hmd & Hok & Hh').
  destruct ok; [|by destruct Hok]. oread. exists m, db', ds'. split_and!; try done; [by apply Hh'|]. unfold send_if.
  destruct (with_events f); [|done]. rewrite send_log, append_log_app. cbn [app]. done.
Qed.

End Pairing.
End DevicePairingSpec.
