(* ===== verification/DeviceServiceTheorems.v ===== *)
(** * Theorems about the device service *)

From S2P Require Import Prelude KeyMap OwnedMap StringUtils DeviceModel Storage JsonDatabase JsonDatabaseSpec JsonDatabaseOps JsonDatabaseMemory.
From S2P Require Import JsonDatabaseDevices JsonDatabaseQuery JsonDatabaseMetadata JsonDatabaseModel JsonDatabaseInstance DeviceTheorems.
From S2P Require Import JsonDatabaseTheorems DeviceDb StringKeyed DeviceUris DeviceUrisSpec DeviceBuild DeviceService DeviceServiceSpec.
Import KeyMap OwnedMap StringUtils DeviceModel Storage JsonDatabase JsonDatabaseSpec JsonDatabaseOps JsonDatabaseMemory.
Import JsonDatabaseDevices JsonDatabaseQuery JsonDatabaseMetadata JsonDatabaseModel JsonDatabaseInstance DeviceTheorems.
Import JsonDatabaseTheorems DeviceDb StringKeyed DeviceUris DeviceUrisSpec DeviceBuild DeviceService DeviceServiceSpec.

Module DeviceServiceTheorems.

Section Service.
Context {D : Type} `{DeviceDbLaws D}.
Context {MM : Type} `{KeyMapLaws MM unit}.
Context {VM : Type} `{KeyMapLaws VM (option cstring)}.
Context {J DD : Type}.
Abbreviation service := (DeviceService.service D MM J).
Abbreviation driver := (DeviceDriver D MM VM J DD).
Implicit Types (s : service) (ds : list device) (drivers : list driver).

(** C8: updateResource, the way every driver reports a value, over a consistent
    database.  An unknown resource changes nothing.  A resource that is not
    cached and emits events only sends the event, and is not saved.  An
    unchanged value only gets a new date.  A changed value is saved with the
    time, the backup is told unless the resource is saved lazily, and the event
    is sent if the resource emits events; nothing else changes, and the
    database stays consistent. *)
Theorem updateResource_spec s ds now u ep i uri v meta : db_model (sv_db s) ds →
  resource_uri (Some u) ep (Some i) = Ok uri → key_ok (zkey uri) →
  ∃ s', updateResource now (Some u) ep (Some i) v meta s = Ok s' ∧
    (((∀ r, ¬ resource_at ds uri r) ∧ s' = s) ∨ ∃ r, resource_at ds uri r ∧ update_result now v meta ds uri r s s').
Proof.
  intros Hm Hu Hk. destruct (get_by_id s ds u ep i uri Hm Hu Hk) as (o & Hget & Ho). destruct o as [r|].
  - destruct (update_known s ds now u ep i uri v meta r Hm Hu Hk) as (s' & Hs & Hr); [by apply Ho|]. exists s'. split; [done|]. right. exists r. split; [by apply Ho|done].
  - exists s. split; [unfold updateResource; by rewrite Hget|]. left. split; [|done]. intros r Hr%Ho. done.
Qed.

(** A value that a driver reported for a cached resource can be read back,
    with the time of the report: deviceServiceGetResourceById after
    updateResource gives the resource with the new value and date, and its
    other fields as they were. *)
Theorem updateResource_get s ds now u ep i uri v meta r : db_model (sv_db s) ds →
  resource_uri (Some u) ep (Some i) = Ok uri → key_ok (zkey uri) → resource_at ds uri r → uncached r = false →
  ∃ s', updateResource now (Some u) ep (Some i) v meta s = Ok s' ∧
    deviceServiceGetResourceById (Some u) ep (Some i) s' = Ok (Some (updated now v r)).
Proof.
  intros Hm Hu Hk Hat Hc. destruct (update_known s ds now u ep i uri v meta r Hm Hu Hk Hat) as (s' & Hs & Hr). exists s'. split; [done|].
  pose proof Hat as (_ & _ & _ & Hru).
  destruct Hr as [Hn|db' _ Hv Hm' _|db' _ Hv Hm' _]; [congruence|..].
  - destruct (get_by_id (with_db s db') _ u ep i uri Hm' Hu Hk) as (o & Hget & Ho).
    unfold deviceServiceGetResourceById. rewrite Hget. f_equal. apply Ho.
    apply (edited_resource_at (on_resource uri (synced_at now))) in Hat; [|intros x; cbn; by case_decide].
    cbn in Hat. rewrite decide_True in Hat by done. unfold synced_at in Hat. rewrite Hv in Hat. exact Hat.
  - destruct (get_by_id (append_log (with_db s db') (update_events now v meta r)) _ u ep i uri Hm' Hu Hk) as (o & Hget & Ho).
    unfold deviceServiceGetResourceById. rewrite Hget. f_equal. apply Ho.
    apply (edited_resource_at (on_resource uri (saved_resource (updated now v r)))) in Hat; [|intros x; cbn; by case_decide].
    cbn in Hat. rewrite decide_True in Hat by done. exact Hat.
Qed.

(** C23: a metadata that was set can be read back: after setMetadata the value of
    getMetadata is the one that was set, whether the metadata existed or is
    new, on a device or on one of its endpoints, and every metadata with
    another URI is what it was. *)
Theorem setMetadata_get s ds u ep n uri v : db_model (sv_db s) ds → getMetadataUri (Some u) ep (Some n) = Ok uri →
  key_ok (zkey uri) → metadata_ready ds u ep n uri v →
  ∃ s' ds', setMetadata (Some u) ep (Some n) (Some v) s = Ok s' ∧ getMetadata (Some u) ep (Some n) s' = Ok (Some v) ∧
    db_model (sv_db s') ds' ∧ ∀ uri' x, uri' ≠ uri → metadata_at ds' uri' x ↔ metadata_at ds uri' x.
Proof.
  intros Hm Hu Hk Hready. unfold setMetadata, getMetadata. rewrite Hu. obind.
  assert (Hread : ∀ s' ds' m, db_model (sv_db s') ds' → metadata_at ds' uri m → m_value m = Some v →
    (metadata ← db_GetMetadataByUri (Some uri) (sv_db s'); Ok (match metadata with Some m => m_value m | None => None end)) = Ok (Some v)).
  { intros s' ds' m Hm' Hat Hv. destruct (get_metadata (sv_db s') ds' uri Hm' Hk) as (o & -> & Ho). obind. by rewrite (proj2 (Ho m) Hat), Hv. }
  destruct (get_metadata (sv_db s) ds uri Hm Hk) as (o & -> & Ho). obind. destruct Hready as [(m & Hat & [old Hold])|(Hn & Hfit & d & Hd & Hdu & Hpl)].
  - rewrite (proj2 (Ho m) Hat), Hold. oread. case_decide as E; [subst; exists s, ds; split; [done|]; split; [by apply (Hread s ds m)|done]|].
    destruct (service_metadata_saved s ds (set_meta_value m (Some v)) uri Hm) as (ok & db' & -> & Hm'); [by destruct Hat as (? & _ & _ & ?)|done|by eexists|eauto|].
    obind. exists (with_db s db'); eexists; split; [done|]. destruct (edit_put ds uri m (set_meta_value m (Some v)) Hat) as [Hput Hoth].
    split; [by eapply (Hread (with_db s db')); [exact Hm'|exact Hput|]|by split].
  - destruct o as [m|]; [destruct Hn; eapply metadata_known; by apply Ho|].
    change (mkMetadata (Some n) (Some uri) (strdup_or_null ep) (Some u) (Some v)) with (new_metadata u (strdup_or_null ep) n uri v).
    rewrite strdup_id. set (m := new_metadata u ep n uri v) in *.
    destruct (metadata_filed s ds m uri Hm) as (ok & db' & -> & Hm'); [done|done|by eexists|done|done|cbn; rewrite <-Hdu; by apply list_elem_of_fmap_2|].
    obind. exists (with_db s db'); eexists; split; [done|].
    destruct (file_put ds u m uri d) as [Hput Hoth]; try done; [by eapply db_lists|intros d' Hd' E; apply (device_unique (sv_db s) ds); congruence|].
    split; [by eapply (Hread (with_db s db')); [exact Hm'|exact Hput|]|by split].
Qed.

(** Metadata for an endpoint the device does not have is lost without a
    word: setMetadata returns as if it had been set (and the database even
    reports that it was saved), but no device has it and getMetadata finds
    nothing. *)
Theorem setMetadata_unknown_endpoint s ds u i n uri v d : db_model (sv_db s) ds → getMetadataUri (Some u) (Some i) (Some n) = Ok uri →
  key_ok (zkey uri) → Some uri ∉ concat (device_uris <$> ds) → metadata_fits ds (new_metadata u (Some i) n uri v) →
  d ∈ ds → d_uuid d = Some u → (∀ e, e ∈ elems (d_endpoints d) → e_id e ≠ Some i) →
  ∃ s', setMetadata (Some u) (Some i) (Some n) (Some v) s = Ok s' ∧ db_model (sv_db s') ds ∧
    getMetadata (Some u) (Some i) (Some n) s' = Ok None.
Proof.
  intros Hm Hu Hk Hn Hfit Hd Hdu Hno. unfold setMetadata, getMetadata. rewrite Hu. obind.
  assert (Hread : ∀ s', db_model (sv_db s') ds → db_GetMetadataByUri (Some uri) (sv_db s') = Ok None).
  { intros s' Hm'. destruct (get_metadata (sv_db s') ds uri Hm' Hk) as (o & -> & Ho). destruct o as [m|]; [|done]. destruct Hn. eapply metadata_known. by apply Ho. }
  rewrite (Hread s Hm). obind. set (m := new_metadata u (Some i) n uri v) in *. change (mkMetadata _ _ _ _ _) with m.
  destruct (metadata_filed s ds m uri Hm) as (ok & db' & -> & Hm'); [done|done|by eexists|done|done|cbn; rewrite <-Hdu; by apply list_elem_of_fmap_2|].
  obind. exists (with_db s db'). split; [done|]. assert (file_metadata m <$> ds = ds) as Hsame.
  { rewrite <-(list_fmap_id ds) at 2. apply list_fmap_ext. intros k d0 Hd0%list_elem_of_lookup_2. destruct (decide (d_uuid d0 = Some u)) as [E|E].
    - rewrite (device_unique (sv_db s) ds d0 d Hm Hd0 Hd) by congruence. rewrite (file_metadata_own m d u eq_refl Hdu). unfold add_metadata_to. cbn.
      destruct d as [? ? ? ? ? [es|] ? ?]; [|done]. cbn in Hno |- *. rewrite on_first_none; [done|]. apply Forall_forall. intros e He.
      apply bool_decide_eq_false. by apply Hno.
    - by apply (file_metadata_other m d0 u). }
  rewrite Hsame in Hm'. split; [done|]. rewrite (Hread (with_db s db')) by done. done.
Qed.

(** Inheriting resources does nothing.  When the database has no resource
    with a URI, reading, writing, executing and changing the mode look for the
    resource of the same name on the root device of the endpoint; over devices
    with the service's URIs this lookup is the plain lookup in the database
    (the database finds an endpoint for URIs of the endpoint only, never for
    those below it), so that each of them fails and nothing changes. *)
Theorem inherited_lookup_is_plain drivers s ds uri : db_model (sv_db s) ds → all_canonical ds → key_ok (zkey uri) →
  find_or_inherit uri s = db_GetResourceByUri (Some uri) (sv_db s) ∧
  ((∀ r, ¬ resource_at ds uri r) →
   (∀ now, deviceServiceGetResourceByUri drivers now (Some uri) s = Ok (None, s)) ∧
   (∀ v, deviceServiceWriteResourceNoPattern drivers uri v s = Ok (false, s)) ∧
   (∀ arg, deviceServiceExecuteResource drivers (Some uri) arg s = Ok (false, None, s)) ∧
   (∀ mode, deviceServiceChangeResourceMode (Some uri) mode s = Ok (false, s))).
Proof.
  intros Hm Hall Hk. pose proof (inherit_nothing s ds uri Hm Hall Hk) as Hi. split; [done|]. intros Hn.
  assert (Hnone : find_or_inherit uri s = Ok None).
  { rewrite Hi. destruct (get_resource (sv_db s) ds uri Hm Hk) as (o & -> & Ho). destruct o as [r|]; [|done]. destruct (Hn r). by apply Ho. }
  split_and!; intros; unfold deviceServiceGetResourceByUri, deviceServiceWriteResourceNoPattern, deviceServiceExecuteResource,
    deviceServiceChangeResourceMode; by rewrite Hnone.
Qed.

(** C26: a resource stays sensitive: after deviceServiceChangeResourceMode the
    resource has the sensitive bit (whose resources are stored encrypted) if it
    had it or the new mode has it, the other bits are those of the new mode,
    and its other fields are as before. *)
Theorem changeResourceMode_sensitive s ds uri newMode r : db_model (sv_db s) ds → key_ok (zkey uri) → resource_at ds uri r →
  ∃ s' ds' mode, deviceServiceChangeResourceMode (Some uri) newMode s = Ok (true, s') ∧ db_model (sv_db s') ds' ∧
    resource_at ds' uri (set_mode r mode) ∧
    has_mode mode RESOURCE_MODE_SENSITIVE = has_mode (r_mode r) RESOURCE_MODE_SENSITIVE || has_mode newMode RESOURCE_MODE_SENSITIVE ∧
    Z.lor mode RESOURCE_MODE_SENSITIVE = Z.lor newMode RESOURCE_MODE_SENSITIVE.
Proof.
  intros Hm Hk Hat. unfold deviceServiceChangeResourceMode, find_or_inherit.
  destruct (get_resource (sv_db s) ds uri Hm Hk) as (o & -> & Ho). obind. rewrite (proj2 (Ho r) Hat). obind. pose proof Hat as (_ & _ & _ & Hu).
  destruct (resource_saved s ds uri (set_mode r (new_mode (r_mode r) newMode)) r Hm Hu Hk Hat) as (ok & db' & -> & Hm' & _). obind.
  exists (with_db s db'); do 2 eexists. split; [done|]. split; [exact Hm'|].
  destruct (new_mode_bits (r_mode r) newMode) as [Hsens Hbits]. split; [|done].
  apply (edited_resource_at (on_resource uri (saved_resource (set_mode r (new_mode (r_mode r) newMode))))) in Hat; [|intros x; cbn; by case_decide].
  cbn in Hat. by rewrite decide_True in Hat.
Qed.

(** C19: removing the last enabled endpoint of a device removes the device: the
    endpoint is saved as disabled and reported, the device leaves the database,
    which otherwise stays as it was, its driver and the clients are told of the
    device, and no other endpoint is reported. *)
Theorem removing_last_endpoint_removes_device drivers s ds d u e i : db_model (sv_db s) ds → db_healthy (sv_db s) → all_canonical ds →
  d ∈ ds → d_uuid d = Some u → e ∈ elems (d_endpoints d) → e_id e = Some i → e_enabled e = true →
  (∀ e', e' ∈ elems (d_endpoints d) → e_enabled e' = true → e_id e' = Some i) → key_ok (zkey (createEndpointUri u i)) →
  ∃ db' ds', ds ≡ₚ d :: ds' ∧ db_model db' ds' ∧ db_healthy db' ∧
    deviceServiceRemoveEndpointById drivers (Some u) (Some i) s =
      (s' ← driver_removed drivers (edit_device (on_endpoint (createEndpointUri u i) false) d)
              (append_log (with_db s db') [ConfigUpdated; EndpointRemoved (disable e) (d_deviceClass d)]);
       Ok (true, append_log s' [DeviceRemoved (Some u) (d_deviceClass d); ConfigUpdated])).
Proof.
  intros Hm Hh Hall Hd Hu He Hi Hen Hone Hk. destruct (endpoint_found s ds d u e i Hm Hall Hd Hu He Hi Hk) as (Huri & Hdu & Hgd & Hge).
  unfold deviceServiceRemoveEndpointById. rewrite Hgd. obind. rewrite Hge. obind. rewrite Hen.
  destruct (endpoint_disabled s ds d e _ Hm Hh Hd He Huri Hk) as (ok & db1 & -> & Hm1 & Hh1). obind.
  cbn [disable e_id e_deviceUuid]. rewrite Hi, Hdu.
  rewrite (none_enabled i) by (try done; intros e' He'; destruct (Hall d Hd) as (u' & Hc); destruct (cn_ep _ _ Hc e' He') as (j & Hj & _); eauto).
  obind. rewrite !send_log, append_log_app. set (s1 := append_log _ _). set (uri := createEndpointUri u i) in *.
  set (d1 := edit_device (on_endpoint uri false) d).
  destruct (remove_known drivers s1 (edit_device (on_endpoint uri false) <$> ds) d1 u) as (db' & ds' & Hp & Hm' & Hh' & ->);
    [done|done|by apply list_elem_of_fmap_2|done|eapply shorter_key; [exact Hk|unfold uri, createEndpointUri; rewrite !length_app; lia]|].
  exists db', ds'. split; [by apply (disabled_rest s ds d u i ds')|]. split; [done|]. split; [done|].
  assert (endpoint_events (@EndpointRemoved J) d1 = []) as ->.
  { apply nothing_enabled. intros e' He' Hen'. apply (endpoint_found s ds d u e' i); [done..|by apply Hone|done]. }
  rewrite append_log_nil.
  change (d_uuid d1) with (d_uuid d). rewrite Hu. change (d_deviceClass d1) with (d_deviceClass d).
  change (with_db s1 db') with (append_log (with_db s db') ([ConfigUpdated] ++ [EndpointRemoved (disable e) (d_deviceClass d)])).
  cbn [app]. destruct (driver_removed _ _ _) as [s2| |]; [|done..]. obind. by rewrite send_log, append_log_app.
Qed.

End Service.

(** ** Readiness *)

(** The clients are told that the service is ready for devices exactly
    once: in every order of the callbacks of the subsystems and the device
    descriptors, each any number of times, one event was sent if both have
    reported, and none before; descriptors that are ready are processed, and
    the service does not become unready. *)
Theorem ready_event_once r : rtc ready_step not_ready r →
  readyEvents r = (if deviceServiceIsReadyForDevices r then 1%nat else 0%nat) ∧
  (initializations r = 0%nat ↔ subsystemsReadyForDevices r = false) ∧
  ∀ r', rtc ready_step r r' → deviceServiceIsReadyForDevices r = true → deviceServiceIsReadyForDevices r' = true.
Proof.
  intros Hr. assert (Hinv : ready_inv r).
  { revert r Hr. apply (rtc_ind_r (R := ready_step)); [by repeat split|]. intros x y _ Hxy Hx. by apply (ready_inv_step x). }
  destruct Hinv as [He Hi]. split; [exact He|]. split; [exact Hi|]. clear. intros r'. induction 1 as [|x y z Hxy _ IH]; [done|].
  intros Hx. apply IH. by apply (ready_step_mono x).
Qed.

(** ** A service with one thermostat *)

#[global] Instance home_db : DeviceDb database := json_db (json := item) (SM := strings).
#[global] Instance home_db_laws : DeviceDbLaws database := json_db_laws (json := item) (SM := strings).

Abbreviation marks := (owned hash_map unit).
Definition home : service database marks unit := mkService thermostat_db (Some km_create) ∅ ∅ [].

Lemma home_model : db_model (sv_db home) [thermostat].
Proof. destruct thermostat_db_ok as (cs & Hok & Hd & _). exists cs. split; [exact Hok|]. by rewrite Hd. Qed.

Lemma home_healthy : db_healthy (sv_db home).
Proof. vm_compute. reflexivity. Qed.

Lemma thermostat_canonical : canonical thermostat (str "t1").
Proof.
  split; try done; [by apply (bool_decide_unpack _); vm_compute|..].
  - intros r ->%list_elem_of_singleton. split; [by eexists|done].
  - intros r ?%elem_of_nil. done.
  - intros e ->%list_elem_of_singleton. exists (str "1"). split_and!; try done; [by apply (bool_decide_unpack _); vm_compute|..];
      intros r ->%list_elem_of_singleton; (split; [by eexists|done]).
Qed.

Lemma home_canonical : all_canonical [thermostat].
Proof. intros d ->%list_elem_of_singleton. exists (str "t1"). exact thermostat_canonical. Qed.

Lemma home_temp : resource_at [thermostat] (str "/t1/r/temp") thermostat_temp.
Proof. exists thermostat. split; [by left|]. split; [by right; left|done]. Qed.

(** No drivers are needed for these examples. *)
Abbreviation no_drivers := ([] : list (DeviceDriver database marks texts unit unit)).

Lemma updateResource_spec_witness : db_model (sv_db home) [thermostat] ∧
  ∃ s', updateResource 5 (Some (str "t1")) None (Some (str "temp")) (Some (str "22")) None home = Ok s' ∧
    ∃ r, resource_at [thermostat] (str "/t1/r/temp") r ∧ update_result 5 (Some (str "22")) None [thermostat] (str "/t1/r/temp") r home s'.
Proof.
  split; [exact home_model|].
  destruct (updateResource_spec home [thermostat] 5 (str "t1") None (str "temp") (str "/t1/r/temp") (Some (str "22")) None home_model)
    as (s' & Hs & [[Hn _]|Hr]); [reflexivity|vm_compute; done| |].
  - by destruct (Hn _ home_temp).
  - exists s'. by split.
Defined.

Lemma updateResource_get_witness : resource_at [thermostat] (str "/t1/r/temp") thermostat_temp ∧
  ∃ s', updateResource 5 (Some (str "t1")) None (Some (str "temp")) (Some (str "22")) None home = Ok s' ∧
    deviceServiceGetResourceById (Some (str "t1")) None (Some (str "temp")) s' = Ok (Some (updated 5 (Some (str "22")) thermostat_temp)).
Proof.
  split; [exact home_temp|].
  apply (updateResource_get home [thermostat] 5 (str "t1") None (str "temp") (str "/t1/r/temp")); 
    [exact home_model|reflexivity|vm_compute; done|exact home_temp|vm_compute; reflexivity].
Defined.

Lemma new_label_fits i uri : metadata_fits [thermostat] (new_metadata (str "t1") (Some i) (str "room") uri (str "hall")).
Proof.
  split; [exists (str "t1"); by vm_compute| |by vm_compute]. intros d ->%list_elem_of_singleton _. cbn. by repeat constructor; eexists.
Qed.

Lemma setMetadata_get_witness : db_model (sv_db home) [thermostat] ∧
  ∃ s' ds', setMetadata (Some (str "t1")) (Some (str "1")) (Some (str "room")) (Some (str "hall")) home = Ok s' ∧
    getMetadata (Some (str "t1")) (Some (str "1")) (Some (str "room")) s' = Ok (Some (str "hall")) ∧
    db_model (sv_db s') ds' ∧ metadata_at ds' (str "/t1/ep/1/m/label") thermostat_label.
Proof.
  split; [exact home_model|].
  destruct (setMetadata_get home [thermostat] (str "t1") (Some (str "1")) (str "room") (str "/t1/ep/1/m/room") (str "hall") home_model)
    as (s' & ds' & Hs & Hg & Hm & Hoth); [reflexivity|vm_compute; done|right|].
  - split; [apply (bool_decide_unpack _); vm_compute; exact I|]. split; [apply new_label_fits|]. exists thermostat. split; [by left|]. split; [done|].
    exists thermostat_ep. split; [by left|done].
  - exists s', ds'. split; [exact Hs|]. split; [exact Hg|]. split; [exact Hm|]. apply Hoth; [done|]. exists thermostat.
    split; [by left|]. split; [by left|done].
Defined.

Lemma setMetadata_unknown_endpoint_witness : db_model (sv_db home) [thermostat] ∧
  ∃ s', setMetadata (Some (str "t1")) (Some (str "9")) (Some (str "room")) (Some (str "hall")) home = Ok s' ∧ db_model (sv_db s') [thermostat] ∧
    getMetadata (Some (str "t1")) (Some (str "9")) (Some (str "room")) s' = Ok None.
Proof.
  split; [exact home_model|].
  apply (setMetadata_unknown_endpoint home [thermostat] (str "t1") (str "9") (str "room") (str "/t1/ep/9/m/room") (str "hall") thermostat home_model);
    [reflexivity|vm_compute; done|apply (bool_decide_unpack _); vm_compute; exact I| |by left|done|].
  - apply new_label_fits.
  - intros e ->%list_elem_of_singleton. done.
Defined.

Lemma inherited_lookup_is_plain_witness : db_model (sv_db home) [thermostat] ∧
  find_or_inherit (str "/t1/ep/1/r/temp") home = db_GetResourceByUri (Some (str "/t1/ep/1/r/temp")) (sv_db home) ∧
  deviceServiceGetResourceByUri no_drivers 5 (Some (str "/t1/ep/1/r/temp")) home = Ok (None, home).
Proof.
  split; [exact home_model|].
  destruct (inherited_lookup_is_plain no_drivers home [thermostat] (str "/t1/ep/1/r/temp") home_model home_canonical) as [Hf Hno]; [vm_compute; done|].
  split; [exact Hf|]. apply Hno. intros r (d & ->%list_elem_of_singleton & Hr & Hu).
  apply elem_of_cons in Hr as [->|[->|?%elem_of_nil]%elem_of_cons]; done.
Defined.

Lemma changeResourceMode_sensitive_witness : resource_at [thermostat] (str "/t1/r/temp") thermostat_temp ∧
  ∃ s' ds' mode, deviceServiceChangeResourceMode (Some (str "/t1/r/temp")) 1 home = Ok (true, s') ∧ db_model (sv_db s') ds' ∧
    resource_at ds' (str "/t1/r/temp") (set_mode thermostat_temp mode) ∧ has_mode mode RESOURCE_MODE_SENSITIVE = true.
Proof.
  split; [exact home_temp|].
  destruct (changeResourceMode_sensitive home [thermostat] (str "/t1/r/temp") 1 thermostat_temp home_model) as (s' & ds' & mode & Hs & Hm & Hat & Hb & _);
    [vm_compute; done|exact home_temp|]. exists s', ds', mode. split_and!; [exact Hs|exact Hm|exact Hat|]. rewrite Hb. reflexivity.
Defined.

Lemma removing_last_endpoint_removes_device_witness : db_model (sv_db home) [thermostat] ∧
  ∃ db' ds', [thermostat] ≡ₚ thermostat :: ds' ∧ db_model db' ds' ∧ db_healthy db' ∧
    deviceServiceRemoveEndpointById no_drivers (Some (str "t1")) (Some (str "1")) home =
      Ok (true, append_log (with_db home db') [ConfigUpdated; EndpointRemoved (disable thermostat_ep) (Some (str "thermostat"));
                                               DeviceRemoved (Some (str "t1")) (Some (str "thermostat")); ConfigUpdated]).
Proof.
  split; [exact home_model|].
  destruct (removing_last_endpoint_removes_device no_drivers home [thermostat] thermostat (str "t1") thermostat_ep (str "1") home_model home_healthy
    home_canonical) as (db' & ds' & Hp & Hm & Hh & Hr); 
    [by left|reflexivity|by left|reflexivity|reflexivity|intros e ->%list_elem_of_singleton _; reflexivity|vm_compute; done|].
  exists db', ds'. split; [exact Hp|]. split; [exact Hm|]. split; [exact Hh|]. exact Hr.
Defined.

(** The descriptors are ready, then the subsystems, twice. *)
Definition all_ready : readiness :=
  subsystemManagerReadyForDevicesCallback (subsystemManagerReadyForDevicesCallback (deviceDescriptorsReadyForDevicesCallback not_ready)).

Lemma ready_event_once_witness : rtc ready_step not_ready all_ready ∧ readyEvents all_ready = 1%nat.
Proof.
  assert (Hr : rtc ready_step not_ready all_ready).
  { eapply rtc_l; [apply rs_descriptors|]. eapply rtc_l; [apply rs_subsystems|]. eapply rtc_l; [apply rs_subsystems|]. apply rtc_refl. }
  split; [exact Hr|]. exact (proj1 (ready_event_once all_ready Hr)).
Defined.

End DeviceServiceTheorems.
