(* ===== verification/DevicePairingTheorems.v ===== *)
(** * Theorems about pairing and reconfiguring devices *)

From S2P Require Import Prelude KeyMap OwnedMap StringUtils StringUtilsTheorems StringNumbers DeviceModel Storage JsonDatabase JsonDatabaseSpec.
From S2P Require Import JsonDatabaseOps JsonDatabaseMemory JsonDatabaseDevices JsonDatabaseQuery JsonDatabaseMetadata JsonDatabaseModel.
From S2P Require Import JsonDatabaseInstance DeviceTheorems JsonDatabaseTheorems DeviceDb StringKeyed DeviceUris DeviceUrisSpec.
From S2P Require Import DeviceBuild DeviceService DeviceServiceSpec DevicePairing DevicePairingSpec DeviceServiceTheorems.
Import KeyMap OwnedMap StringUtils StringTheorems StringNumbers DeviceModel Storage JsonDatabase JsonDatabaseSpec.
Import JsonDatabaseOps JsonDatabaseMemory JsonDatabaseDevices JsonDatabaseQuery JsonDatabaseMetadata JsonDatabaseModel.
Import JsonDatabaseInstance DeviceTheorems JsonDatabaseTheorems DeviceDb StringKeyed InitialValues DeviceUris DeviceUrisSpec.
Import DeviceBuild DeviceService DeviceServiceSpec DevicePairing DevicePairingSpec DeviceServiceTheorems.

Module DevicePairingTheorems.

(** ** The blacklist *)

Lemma tokens_app a b acc : tokens (a ++ COMMA :: b) acc = tokens a acc ++ tokens b [].
Proof.
  revert acc. induction a as [|c a IH]; intros acc; cbn [app tokens].
  - rewrite decide_True by done. by case_decide.
  - case_decide; [case_decide; [done|]|]; by rewrite IH.
Qed.

Lemma tokens_plain t acc : COMMA ∉ t → acc ++ t ≠ [] → tokens t acc = [acc ++ t].
Proof.
  revert acc. induction t as [|c t IH]; intros acc Hc Hn; cbn [tokens].
  - rewrite app_nil_r in *. by rewrite decide_False.
  - apply not_elem_of_cons in Hc as [Hne Hc]. rewrite decide_False by done. rewrite IH by (try done; by destruct acc). by rewrite <-app_assoc.
Qed.

Lemma tokens_no_nul s acc x : no_nul s → no_nul acc → x ∈ tokens s acc → no_nul x.
Proof.
  revert acc. induction s as [|c s IH]; intros acc Hs Ha; cbn [tokens].
  - case_decide; [by intros ?%elem_of_nil|]. by intros ->%list_elem_of_singleton.
  - unfold no_nul in Hs. apply not_elem_of_cons in Hs as [Hc Hs]. case_decide as E.
    + case_decide; [apply IH; [done|apply not_elem_of_nil]|]. intros [->|Hx]%elem_of_cons; [done|]. eapply IH; [done|apply not_elem_of_nil|done].
    + apply IH; [done|]. apply no_nul_app; [done|]. by intros ?%list_elem_of_singleton.
Qed.

(** The list has the uuid, up to blanks around it and to ASCII case. *)
Definition names_device (u : cstring) (l : list cstring) : Prop :=
  ∃ x, x ∈ l ∧ stringToLowerCase (Some (strip x)) = stringToLowerCase (Some u).

Lemma listed_spec fill u l : no_nul u → (∀ x, x ∈ l → no_nul x) → ∃ b, listed fill (Some u) l = Ok b ∧ (b = true ↔ names_device u l).
Proof.
  intros Hu. induction l as [|x l IH]; intros Hl; cbn [listed].
  - exists false. split; [done|]. split; [done|]. intros (x & ?%elem_of_nil & _). done.
  - assert (Hx : no_nul x) by (apply Hl; by left). rewrite trimString_strip by done. obind.
    destruct (stringCompare_spec (Some u) (Some (strip x)) true) as (_ & _ & Hc); [by intros ? [= <-]|by intros ? [= <-]; apply strip_no_nul|].
    case_decide as E.
    + exists true. split; [done|]. split; [|done]. intros _. exists x. split; [by left|]. symmetry. by apply Hc.
    + destruct IH as (b & -> & Hb); [intros y Hy; apply Hl; by right|]. exists b. split; [done|]. rewrite Hb. split.
      * intros (y & Hy & He). exists y. split; [by right|done].
      * intros (y & [->|Hy]%elem_of_cons & He); [by destruct E; apply Hc|]. by exists y.
Qed.

Section Pairing.
Context {D : Type} `{DeviceDbLaws D}.
Context {MM : Type} `{KeyMapLaws MM unit}.
Context {VM : Type} `{KeyMapLaws VM (option cstring)}.
Context {J DD : Type}.
Abbreviation service := (DeviceService.service D MM J).
Abbreviation driver := (DeviceDriver D MM VM J DD).
Abbreviation found := (DeviceFoundDetails (D := D) (MM := MM) (VM := VM) (J := J) (DD := DD)).
Variable drivers : list driver.
Variable fill : nat → byte.
Variable deviceDescriptorsGet : option cstring → option cstring → option cstring → option cstring → outcome (option DD).
Variable dd_metadata : DD → option VM.
Implicit Types (s : service) (ds : list device) (f : found).

Lemma blacklisted_spec u s : no_nul u → no_nul (blacklist s) →
  ∃ b, deviceServiceIsDeviceBlacklisted fill (Some u) s = Ok b ∧ (b = true ↔ names_device u (strtok (blacklist s))).
Proof.
  intros Hu Hb. unfold deviceServiceIsDeviceBlacklisted. destruct (blacklist s) as [|c t] eqn:E; cbn [stringIsEmpty].
  - exists false. split; [done|]. split; [done|]. intros (x & ?%elem_of_nil & _). done.
  - apply listed_spec; [done|]. intros x. apply tokens_no_nul; [done|apply not_elem_of_nil].
Qed.


(** C4: pairing adds the device: once the driver has built a device that can
    be added (ids distinct and without slashes, a new uuid, room), no removal
    of it was asked for meanwhile and the storage works, the database has the
    device with its URIs beside the devices it had, all URIs still have the
    service's form, the device is found by its uuid, and the clients are told
    of the device and its enabled endpoints, in this order. *)
Theorem pairing_adds_device now f dd s d1 s1 u v ds d' : configured dd_metadata now f dd s d1 s1 → d_uuid d1 = Some u →
  holds (markedForRemoval s1) v → v !! u = None → db_model (sv_db s1) ds → db_healthy (sv_db s1) → all_canonical ds → pairable ds d1 u d' →
  ∃ m db' ds', holds m (delete u v) ∧ db_model db' ds' ∧ ds' ≡ₚ d' :: ds ∧ all_canonical ds' ∧ db_GetDeviceById (Some u) db' = Ok (Some d') ∧
    pair_device drivers dd_metadata now f dd s =
    (s2 ← notify (persistedFunc f) d' (append_log (with_db (with_marked s1 m) db')
            (ConfigUpdated :: if with_events f then DeviceAdded (Some u) :: endpoint_events EndpointAdded d' ++ [DiscoveryCompleted d'] else []));
     Ok (true, s2)).
Proof.
  intros Hcf Hu Hv Hn Hm Hh Hall Hp.
  destruct (pair_kept drivers dd_metadata now f dd s d1 s1 u v ds d' Hcf Hu Hv Hn Hm Hh Hall Hp) as (m & db' & ds' & Hm' & Hmd & Hperm & Hh' & Hpair).
  pose proof (pairable_canonical _ _ _ _ Hp) as Hc. exists m, db', ds'. split_and!; try done.
  - intros d Hd. rewrite Hperm in Hd. apply elem_of_cons in Hd as [->|Hd]; [by exists u|by apply Hall].
  - destruct (service_get_device db' ds' u Hmd (pa_key _ _ _ _ Hp)) as (o & -> & Ho). f_equal. apply Ho. split; [rewrite Hperm; by left|apply Hc].
Qed.

(** C40: removing a device that is not known blocks its next pairing.  The
    removal succeeds and only leaves a mark, which is meant for a pairing in
    progress but stays until a device with this uuid is paired: that pairing
    fails although the driver configured the device, the device is not added,
    its driver is told that it was removed, and the mark is gone. *)
Theorem removal_mark_blocks_pairing s ds u v : db_model (sv_db s) ds → Some u ∉ d_uuid <$> ds → key_ok (zkey u) →
  holds (markedForRemoval s) v → Z.of_nat (size v) < 65535 →
  ∃ m, deviceServiceRemoveDevice drivers (Some u) s = Ok (true, with_marked s m) ∧
    ∀ now f dd s0 d1 s1, configured dd_metadata now f dd s0 d1 s1 → d_uuid d1 = Some u → markedForRemoval s1 = m →
      ∃ m', holds m' (delete u v) ∧ pair_device drivers dd_metadata now f dd s0 =
        (s2 ← (if with_events f then notify (drv_deviceRemoved (df_deviceDriver f)) d1 (with_marked s1 m') else Ok (with_marked s1 m'));
         Ok (false, send_if (with_events f) s2 (DiscoveryFailed (Some u) (df_deviceClass f)))).
Proof.
  intros Hm Hn Hk Hv Hz. destruct (remove_unknown_marks drivers s ds u v Hm Hn Hk Hv Hz) as (m & Hrem & Hm'). exists m. split; [done|].
  intros now f dd s0 d1 s1 Hcf Hu <-.
  destruct (pair_marked drivers dd_metadata now f dd s0 d1 s1 u _ Hcf Hu Hk Hm') as (m' & Hm2 & Hpair); [rewrite lookup_insert_eq; by eexists|].
  exists m'. split; [|done]. by rewrite delete_insert_eq in Hm2.
Qed.

(** The resources every device has: with the values of
    fetchCommonResourcesInitialValues, addCommonResources appends the nine
    common resources to the device's, in this order and with these values, all
    of them belonging to the device. *)
Theorem common_resources_built now ma mo hw fw (d : device) u rs : d_uuid d = Some u → d_resources d = Some rs →
  ∃ (values : option VM) new,
    fetchCommonResourcesInitialValues now ma mo hw fw initialResourceValuesCreate = Ok (true, values) ∧
    addCommonResources d values = Ok (true, set_resources d (Some (rs ++ new))) ∧ Forall (λ r, r_deviceUuid r = Some u ∧ r_endpointId r = None) new ∧
    (λ r, (r_id r, r_value r)) <$> new =
      [(Some COMMON_DEVICE_RESOURCE_MANUFACTURER, ma); (Some COMMON_DEVICE_RESOURCE_MODEL, mo);
       (Some COMMON_DEVICE_RESOURCE_HARDWARE_VERSION, hw); (Some COMMON_DEVICE_RESOURCE_FIRMWARE_VERSION, fw);
       (Some COMMON_DEVICE_RESOURCE_FIRMWARE_UPDATE_STATUS, None);
       (Some COMMON_DEVICE_RESOURCE_DATE_ADDED, Some (getCurrentTimestampString now));
       (Some COMMON_DEVICE_RESOURCE_DATE_LAST_CONTACTED, Some (getCurrentTimestampString now));
       (Some COMMON_DEVICE_RESOURCE_COMM_FAIL, Some (str "false"));
       (Some COMMON_DEVICE_FUNCTION_RESET_TO_FACTORY, None)].
Proof.
  intros Hu Hr. destruct (fetch_common (VM := VM) now ma mo hw fw) as (values & Hf & Hh). exists values.
  exists ((common_resource u (common_map now ma mo hw fw) <$> common_resources) ++ [reset_resource u]). split; [done|].
  split; [by apply add_common; [|apply common_map_complete|..]|]. split; [repeat constructor|]. reflexivity.
Qed.

(** *** Reconfiguring *)

(** The label of an endpoint, as the service finds it. *)
Definition label_of (u : cstring) s (e : endpoint) : option icDeviceResource :=
  match deviceServiceGetResourceByIdInternal (Some u) (e_id e) (Some COMMON_ENDPOINT_RESOURCE_LABEL) s with Ok o => o | _ => None end.

(** A resource of a known device is found by the ids of its owner and its own. *)
Lemma own_resource_found s ds d u i r : db_model (sv_db s) ds → canonical d u → d ∈ ds → r ∈ elems (d_resources d) → r_id r = Some i →
  key_ok (zkey (res_uri (createDeviceUri u) i)) → deviceServiceGetResourceByIdInternal (Some u) None (Some i) s = Ok (Some r).
Proof.
  intros Hm Hc Hd Hr Hi Hk. destruct (get_by_id s ds u None i (res_uri (createDeviceUri u) i) Hm eq_refl Hk) as (o & -> & Ho). f_equal. apply Ho.
  exists d. split; [done|]. split; [apply elem_of_app; by right|]. destruct (cn_res _ _ Hc r Hr) as [_ ->]. by rewrite Hi.
Qed.

Lemma endpoint_resource_found s ds d u e i j : db_model (sv_db s) ds → canonical d u → d ∈ ds → e ∈ elems (d_endpoints d) → e_id e = Some i →
  key_ok (zkey (res_uri (createEndpointUri u i) j)) →
  ∃ o, deviceServiceGetResourceByIdInternal (Some u) (e_id e) (Some j) s = Ok o ∧ ∀ r, r ∈ elems (e_resources e) → r_id r = Some j → o = Some r.
Proof.
  intros Hm Hc Hd He Hi Hk. rewrite Hi.
  destruct (get_by_id s ds u (Some i) j (res_uri (createEndpointUri u i) j) Hm eq_refl Hk) as (o & -> & Ho). exists o. split; [done|].
  intros r Hr Hj. apply Ho. exists d. split; [done|]. split.
  - apply elem_of_app. left. apply elem_of_concat. eexists. split; [apply list_elem_of_fmap_2, He|done].
  - destruct (cn_ep _ _ Hc e He) as (i' & Hi' & _ & _ & _ & Hres & _). destruct (Hres r Hr) as [_ ->]. assert (i' = i) as -> by congruence. by rewrite Hj.
Qed.

(** The new device has a place for what the old one has. *)
Record takes_over (old new : device) : Prop := {
  to_ids e : e ∈ elems (d_endpoints old) → id_ok (e_id e);
  to_new_ids e : e ∈ elems (d_endpoints new) → id_ok (e_id e);
  to_res r : r ∈ elems (d_resources new) → id_ok (r_id r);
  to_distinct : distinct_ids old;
  to_new_distinct : distinct_ids new;
  to_all e : e ∈ elems (d_endpoints old) → e_id e ∈ e_id <$> elems (d_endpoints new)
}.

(** C20: a reconfigured device keeps what its user changed: the device its
    driver built anew has the metadata of the old one and the value of its date
    of adding, each endpoint that existed has its old metadata and the value of
    its label, and the other endpoints are as the driver built them. *)
Theorem reconfigured_device_keeps_customization s ds old new u es rs date : db_model (sv_db s) ds → canonical old u → old ∈ ds →
  takes_over old new → d_endpoints new = Some es → d_resources new = Some rs →
  key_ok (zkey (res_uri (createDeviceUri u) COMMON_DEVICE_RESOURCE_DATE_ADDED)) →
  (∀ e i, e ∈ elems (d_endpoints old) → e_id e = Some i → key_ok (zkey (res_uri (createEndpointUri u i) COMMON_ENDPOINT_RESOURCE_LABEL))) →
  date ∈ elems (d_resources old) → r_id date = Some COMMON_DEVICE_RESOURCE_DATE_ADDED →
  ∃ d' es' rs', yoinkCustomizedDeviceData old new s = Ok (true, d') ∧ d_metadata d' = d_metadata old ∧
    d_resources d' = Some rs' ∧ d_endpoints d' = Some es' ∧
    (∀ r, r ∈ rs → r_id r = Some COMMON_DEVICE_RESOURCE_DATE_ADDED → DeviceService.set_value r (r_value date) ∈ rs') ∧
    (∀ e, e ∈ es → e_id e ∉ e_id <$> elems (d_endpoints old) → e ∈ es') ∧
    (∀ x e, x ∈ elems (d_endpoints old) → e ∈ es → e_id e = e_id x →
       ∃ e', e' ∈ es' ∧ e_id e' = e_id x ∧ e_metadata e' = e_metadata x ∧
         ∀ lx le, lx ∈ elems (e_resources x) → r_id lx = Some COMMON_ENDPOINT_RESOURCE_LABEL →
           le ∈ elems (e_resources e) → r_id le = Some COMMON_ENDPOINT_RESOURCE_LABEL → (∀ r, r ∈ elems (e_resources e) → id_ok (r_id r)) →
           DeviceService.set_value le (r_value lx) ∈ elems (e_resources e')).
Proof.
  intros Hm Hc Hold Hto Hes Hrs Hkd Hke Hdate Hdi. unfold yoinkCustomizedDeviceData. rewrite (cn_uuid _ _ Hc).
  rewrite (own_resource_found s ds old u COMMON_DEVICE_RESOURCE_DATE_ADDED date) by done. obind.
  cbn [set_metadata set_resources d_endpoints d_resources]. rewrite Hes, Hrs.
  destruct Hto as [T1 T2 T3 [_ T4 _] [[T5 _] T6 T7] T8]. rewrite Hes in T2, T6, T7, T8. rewrite Hrs in T3, T5.
  change (elems (Some es)) with es in *. change (elems (Some rs)) with rs in *.
  assert (Hlabels : ∀ x, x ∈ elems (d_endpoints old) →
    deviceServiceGetResourceByIdInternal (Some u) (e_id x) (Some COMMON_ENDPOINT_RESOURCE_LABEL) s = Ok (label_of u s x) ∧
    ∀ r, r ∈ elems (e_resources x) → r_id r = Some COMMON_ENDPOINT_RESOURCE_LABEL → label_of u s x = Some r).
  { intros x Hx. destruct (cn_ep _ _ Hc x Hx) as (i & Hi & _). unfold label_of.
    destruct (endpoint_resource_found s ds old u x i COMMON_ENDPOINT_RESOURCE_LABEL) as (o & -> & Ho); try done. by apply (Hke x). }
  rewrite (yoink_all_spec s (Some u) (label_of u s)) by (first [intros x Hx; split; [by apply T1|by apply Hlabels]|done]). obind.
  exists (set_endpoints (set_resources (set_metadata new (d_metadata old)) (Some (yoinkResource date rs COMMON_DEVICE_RESOURCE_DATE_ADDED).2))
    (Some (take_over (label_of u s) (elems (d_endpoints old)) <$> es))); do 2 eexists.
  split; [cbn [yoink_list]; by destruct (yoinkResource date rs COMMON_DEVICE_RESOURCE_DATE_ADDED)|]. do 3 (split; [reflexivity|]). split_and!.
  - intros r Hr Hi. apply yoinked_value; try done. by auto with zilker.
  - intros e He Hno. rewrite <-(take_over_other (label_of u s) _ e Hno). by apply list_elem_of_fmap_2.
  - intros x e Hx He Hid. exists (take_over (label_of u s) (elems (d_endpoints old)) e). split; [by apply list_elem_of_fmap_2|].
    rewrite (take_over_match _ _ e x) by done. split; [by rewrite taken_id|]. split; [apply taken_metadata|].
    intros lx le Hlx Hlxi Hle Hlei Hok. rewrite (proj2 (Hlabels x Hx) lx Hlx Hlxi). unfold taken. cbn [set_ep_metadata set_ep_resources e_resources].
    destruct (e_resources e) as [l|] eqn:El; [|by apply elem_of_nil in Hle]. cbn [yoink_list].
    pose proof (yoinked_value lx l COMMON_ENDPOINT_RESOURCE_LABEL le) as Hy.
    destruct (yoinkResource lx l COMMON_ENDPOINT_RESOURCE_LABEL) as [o l']. apply Hy; try done; [by auto with zilker|].
    specialize (T7 e He) as [T7 _]. by rewrite El in T7.
Qed.

End Pairing.

(** ** A lamp is paired at the home with the thermostat *)

(** A driver whose devices have one endpoint. *)
Definition lamp_driver : DeviceDriver database marks texts unit unit :=
  mkDriver (Some (str "lamps")) None None
    (λ d _ s, r ← createEndpoint (Some d) (Some (str "1")) (Some (str "light")) true;
      Ok (match r with Some (_, d) => (true, d, s) | None => (false, d, s) end))
    (λ d v s, Ok (true, d, v, s)) (λ d _ s, Ok (true, d, s)) None
    (λ _ s, Ok (true, None, s)) (λ _ _ _ s, Ok (true, s)) None None (λ _ s, Ok s) (λ _ s, Ok s) None None None None.

Definition lamp_found : DeviceFoundDetails :=
  mkFound lamp_driver None (Some (str "light")) 1 (Some (str "l1")) (Some (str "acme")) (Some (str "bulb")) (Some (str "1")) (Some (str "2")).

Definition no_descriptor (_ _ _ _ : option cstring) : outcome (option unit) := Ok None.
Definition no_metadata (_ : unit) : option texts := None.
Definition blanks (_ : nat) : byte := " "%char.

Definition lamp_new : device :=
  match createDevice (Some (str "l1")) (Some (str "light")) 1 (Some (str "lamps")) (None : option texts) with Ok (Some d) => d | _ => thermostat end.
Definition lamp_built : device := Eval vm_compute in match configure_device 5 lamp_found None true lamp_new home with Ok (_, d, _) => d | _ => thermostat end.
Definition lamp : device := Eval vm_compute in match setUris lamp_built with Ok d => d | _ => thermostat end.

(** The state when the lamp is configured. *)
Definition configuring (s : service database marks unit) : service database marks unit :=
  append_log s [DeviceDiscovered (Some (str "l1")); ConfigureStarted (Some (str "light")) (Some (str "l1"));
                ConfigureCompleted (Some (str "light")) (Some (str "l1"))].

Lemma lamp_configured m : configured no_metadata 5 lamp_found None (with_marked home m) lamp_built (configuring (with_marked home m)).
Proof.
  split.
  - exists lamp_new. split; [reflexivity|].
    vm_compute. reflexivity.
  - exists (str "light"). split; [reflexivity|]. vm_compute. discriminate.
Qed.

Lemma decide_all {A} (P : A → Prop) `{!∀ x, Decision (P x)} l : forallb (λ x, bool_decide (P x)) l = true → ∀ x, x ∈ l → P x.
Proof. intros Hl x Hx%list_elem_of_In. eapply forallb_forall in Hl; [|done]. by apply bool_decide_eq_true in Hl. Qed.

Lemma lamp_pairable : pairable [thermostat] lamp_built (str "l1") lamp.
Proof.
  split.
  - split; [reflexivity|by apply (bool_decide_unpack _); vm_compute|..].
    + apply (decide_all (λ r, is_Some (r_id r))). vm_compute. reflexivity.
    + intros m ?%elem_of_nil. done.
    + intros e ->%list_elem_of_singleton. exists (str "1"). split_and!; [reflexivity|by apply (bool_decide_unpack _); vm_compute|reflexivity|..];
        intros r ?%elem_of_nil; done.
  - split; [split|..].
    + apply (bool_decide_unpack _). vm_compute. exact I.
    + constructor.
    + apply (bool_decide_unpack _). vm_compute. exact I.
    + intros e ->%list_elem_of_singleton. split; constructor.
  - intros e ->%list_elem_of_singleton. split; by eexists.
  - apply (bool_decide_unpack _). vm_compute. exact I.
  - vm_compute. done.
  - split; apply (bool_decide_unpack _); vm_compute; exact I.
  - apply (bool_decide_unpack _). vm_compute. exact I.
  - vm_compute. reflexivity.
  - intros v Hv. assert (Hall : ∀ x, x ∈ device_uris lamp → (length (default [] x) < 100)%nat)
      by (apply (decide_all (λ x, (length (default [] x) < 100)%nat)); vm_compute; reflexivity).
    specialize (Hall _ Hv). cbn in Hall. unfold key_ok, zkey, strlen. rewrite length_app. cbn. lia.
  - vm_compute. reflexivity.
  - vm_compute. discriminate.
Qed.

Lemma lamp_configured_home : configured no_metadata 5 lamp_found None home lamp_built (configuring home).
Proof.
  assert (Hh : home = with_marked home (markedForRemoval home)) by (generalize home; by intros []). rewrite Hh. apply lamp_configured.
Qed.

Lemma no_marks : holds (markedForRemoval home) ∅.
Proof. apply created_holds. Qed.

Lemma pairing_adds_device_witness : pairable [thermostat] lamp_built (str "l1") lamp ∧
  ∃ m db' ds', db_model db' ds' ∧ ds' ≡ₚ [lamp; thermostat] ∧ db_GetDeviceById (Some (str "l1")) db' = Ok (Some lamp) ∧
    pair_device [lamp_driver] no_metadata 5 lamp_found None home =
      Ok (true, append_log (with_db (with_marked (configuring home) m) db')
                  [ConfigUpdated; DeviceAdded (Some (str "l1")); EndpointAdded (hd thermostat_ep (elems (d_endpoints lamp))) (Some (str "light"));
                   DiscoveryCompleted lamp]).
Proof.
  split; [exact lamp_pairable|].
  destruct (pairing_adds_device [lamp_driver] no_metadata 5 lamp_found None home lamp_built (configuring home) (str "l1") ∅ [thermostat] lamp)
    as (m & db' & ds' & _ & Hm & Hp & _ & Hget & Hpair); [exact lamp_configured_home|reflexivity|exact no_marks|reflexivity|
      exact home_model|exact home_healthy|exact home_canonical|exact lamp_pairable|].
  exists m, db', ds'. split; [exact Hm|]. split; [exact Hp|]. split; [exact Hget|]. exact Hpair.
Defined.

Lemma removal_mark_blocks_pairing_witness : Some (str "l1") ∉ d_uuid <$> [thermostat] ∧
  ∃ m m', deviceServiceRemoveDevice [lamp_driver] (Some (str "l1")) home = Ok (true, with_marked home m) ∧
    pair_device [lamp_driver] no_metadata 5 lamp_found None (with_marked home m) =
      Ok (false, append_log (with_marked (configuring (with_marked home m)) m') [DiscoveryFailed (Some (str "l1")) (Some (str "light"))]).
Proof.
  assert (Hn : Some (str "l1") ∉ d_uuid <$> [thermostat]) by (apply (bool_decide_unpack _); vm_compute; exact I). split; [exact Hn|].
  destruct (removal_mark_blocks_pairing [lamp_driver] no_metadata home [thermostat] (str "l1") ∅ home_model Hn)
    as (m & Hrem & Hpair); [vm_compute; done|exact no_marks|rewrite map_size_empty; lia|].
  destruct (Hpair 5 lamp_found None (with_marked home m) lamp_built (configuring (with_marked home m)) (lamp_configured m) eq_refl eq_refl) as (m' & _ & Hp).
  exists m, m'. split; [exact Hrem|exact Hp].
Defined.


Lemma common_resources_built_witness : d_uuid lamp_new = Some (str "l1") ∧
  ∃ (values : option texts) new,
    fetchCommonResourcesInitialValues 5 (Some (str "acme")) None None None initialResourceValuesCreate = Ok (true, values) ∧
    addCommonResources lamp_new values = Ok (true, set_resources lamp_new (Some new)) ∧ length new = 9%nat.
Proof.
  split; [reflexivity|].
  destruct (common_resources_built (VM := texts) 5 (Some (str "acme")) None None None lamp_new (str "l1") [] eq_refl eq_refl) as (values & new & Hf & Ha & _ & Hv).
  exists values, new. split; [exact Hf|]. split; [exact Ha|]. apply (f_equal length) in Hv. rewrite length_fmap in Hv. exact Hv.
Defined.

(** The service after the lamp was paired. *)
Lemma lamp_home : ∃ (s : service database marks unit) ds, db_model (sv_db s) ds ∧ lamp ∈ ds.
Proof.
  destruct (pair_kept [lamp_driver] no_metadata 5 lamp_found None home lamp_built (configuring home) (str "l1") ∅ [thermostat] lamp)
    as (m & db' & ds' & _ & Hm & Hp & _); [exact lamp_configured_home|reflexivity|exact no_marks|reflexivity|
      exact home_model|exact home_healthy|exact home_canonical|exact lamp_pairable|].
  exists (with_db home db'), ds'. split; [exact Hm|]. rewrite Hp. by left.
Qed.

Lemma lamp_taken_over : takes_over lamp lamp_built.
Proof.
  split.
  - intros e ->%list_elem_of_singleton x [= <-]. by auto with zilker.
  - intros e ->%list_elem_of_singleton x [= <-]. by auto with zilker.
  - intros r Hr x Hx. assert (Hall : ∀ r, r ∈ elems (d_resources lamp_built) → NUL ∉ default [] (r_id r))
      by (apply (decide_all (λ r, NUL ∉ default [] (r_id r))); vm_compute; reflexivity).
    specialize (Hall r Hr). by rewrite Hx in Hall.
  - eapply set_distinct; [apply (pa_prepared _ _ _ _ lamp_pairable)|apply (pa_set _ _ _ _ lamp_pairable)|apply (pa_ids _ _ _ _ lamp_pairable)].
  - apply (pa_ids _ _ _ _ lamp_pairable).
  - intros e ->%list_elem_of_singleton. by left.
Qed.

Lemma reconfigured_device_keeps_customization_witness : takes_over lamp lamp_built ∧
  ∃ (s : service database marks unit) ds d', db_model (sv_db s) ds ∧ yoinkCustomizedDeviceData lamp lamp_built s = Ok (true, d') ∧
    d_metadata d' = d_metadata lamp.
Proof.
  split; [exact lamp_taken_over|]. destruct lamp_home as (s & ds & Hm & Hin). exists s, ds.
  destruct (reconfigured_device_keeps_customization s ds lamp lamp_built (str "l1") (elems (d_endpoints lamp_built)) (elems (d_resources lamp_built))
    (default thermostat_temp (elems (d_resources lamp) !! 5%nat)) Hm (pairable_canonical _ _ _ _ lamp_pairable) Hin lamp_taken_over)
    as (d' & es' & rs' & Hy & Hmet & _); [reflexivity|reflexivity|vm_compute; done|..].
  - intros e i ->%list_elem_of_singleton [= <-]. vm_compute. done.
  - cbn. do 5 right. by left.
  - reflexivity.
  - exists d'. split; [exact Hm|]. split; [exact Hy|exact Hmet].
Defined.

End DevicePairingTheorems.
