(* ===== verification/Discovery.v ===== *)
(** * Discovery of devices

    Models the discoveries of
    src/source/services/device/core/src/deviceService.c: a client starts a
    discovery (or the recovery of orphaned devices) for some device classes;
    each class gets a thread that starts the drivers of the class, waits for
    the timeout or for a stop, stops the drivers and ends.  The map of active
    discoveries is a finite map from classes to the contexts of the threads.

    The interleaving is explicit: a request of a client is one step (it holds
    discoveryControlMutex throughout), a thread makes one step per call of a
    driver, for its wait and for its end ([step]).  What a driver returns is
    part of the step.  A condition that nobody waits for does not keep a
    signal, and a wait may end at any time (the timeout, or spuriously). *)

From S2P Require Import Prelude.

Module Discovery.

(** The fields of a driver a discovery uses. *)
Record driver := mkDriver {
  driverName : cstring;
  supportedDeviceClasses : list cstring;
  recoverDevices : bool     (* the function pointer is not NULL *)
}.
#[global] Instance driver_eq : EqDecision driver.
Proof. solve_decision. Defined.

(** What a thread does. *)
Inductive phase :=
  | Starting (rest started : list driver)   (* calls the drivers in [rest] *)
  | Waiting (started : list driver)         (* in the wait *)
  | Stopping (started : list driver)        (* calls stopDiscoveringDevices *)
  | Ending.                                 (* before it takes the mutex *)

Record discoverDeviceClassContext := mkContext {
  deviceClass : cstring;
  timeoutSeconds : Z;
  findOrphanedDevices : bool;
  ctx_phase : phase
}.
Abbreviation context := discoverDeviceClassContext.

Inductive event :=
  | DiscoveryStarted (deviceClasses : list cstring) (timeout : Z)
  | DiscoveryStopped (deviceClass : cstring)
  | DriverStarted (d : driver) (deviceClass : cstring)   (* discoverDevices or recoverDevices returned true *)
  | DriverStopped (d : driver) (deviceClass : cstring).  (* stopDiscoveringDevices *)

Record state := mkState {
  activeDiscoveries : gmap cstring nat;
  contexts : gmap nat context;              (* the contexts of the running threads *)
  discoveryTimeoutSeconds : Z;
  log : list event
}.
Implicit Types (s : state) (c : cstring) (i : nat) (x : context).

Definition initial : state := mkState ∅ ∅ 0 [].

Section Code.
Variable drivers : list driver.

Definition deviceDriverManagerGetDeviceDriversByDeviceClass c : list driver := filter (λ d, c ∈ supportedDeviceClasses d) drivers.

(** The classes a request starts; [None] when one of them cannot be. *)
Fixpoint new_classes (orphaned : bool) (active : gmap cstring nat) (deviceClasses acc : list cstring) : option (list cstring) :=
  match deviceClasses with
  | [] => Some acc
  | c :: rest =>
      if decide (is_Some (active !! c)) then new_classes orphaned active rest acc
      else
        let ds := deviceDriverManagerGetDeviceDriversByDeviceClass c in
        if decide (ds = []) then None
        else if orphaned && forallb (λ d, negb (recoverDevices d)) ds then None
        else new_classes orphaned active rest (acc ++ [c])
  end.

(** A thread with a new context; hashMapPut keeps an entry the map has. *)
Definition startDiscoveryForDeviceClass (timeout : Z) (orphaned : bool) s c : state :=
  let i := fresh (dom (contexts s)) in
  let x := mkContext c timeout orphaned (Starting (deviceDriverManagerGetDeviceDriversByDeviceClass c) []) in
  mkState (match activeDiscoveries s !! c with Some _ => activeDiscoveries s | None => <[c := i]> (activeDiscoveries s) end)
    (<[i := x]> (contexts s)) (discoveryTimeoutSeconds s) (log s).

Definition with_timeout s t := mkState (activeDiscoveries s) (contexts s) t (log s).
Definition add_event s e := mkState (activeDiscoveries s) (contexts s) (discoveryTimeoutSeconds s) (log s ++ [e]).
Definition set_phase s i x p :=
  mkState (activeDiscoveries s) (<[i := mkContext (deviceClass x) (timeoutSeconds x) (findOrphanedDevices x) p]> (contexts s))
    (discoveryTimeoutSeconds s) (log s).

Definition deviceServiceDiscoverStart (deviceClasses : option (list cstring)) (timeout : Z) (orphaned : bool) s : bool * state :=
  match deviceClasses with
  | None => (false, s)
  | Some l =>
      let s := with_timeout s timeout in
      match new_classes orphaned (activeDiscoveries s) l [] with
      | Some (c :: rest) =>
          let s := add_event s (DiscoveryStarted (c :: rest) timeout) in
          (true, foldl (startDiscoveryForDeviceClass timeout orphaned) s (c :: rest))
      | _ => (false, s)
      end
  end.

(** pthread_cond_signal: only a thread that waits is woken. *)
Definition signal s i : state :=
  match contexts s !! i with
  | Some x => match ctx_phase x with Waiting started => set_phase s i x (Stopping started) | _ => s end
  | None => s
  end.

Definition deviceServiceDiscoverStop (deviceClasses : option (list cstring)) s : state :=
  match deviceClasses with
  | None => foldl signal s (map_to_list (activeDiscoveries s)).*2
  | Some l => foldl (λ s c, match activeDiscoveries s !! c with Some i => signal s i | None => s end) s l
  end.

Definition deviceServiceIsDiscoveryActive s : bool := bool_decide (activeDiscoveries s ≠ ∅).

Definition deviceServiceIsInRecoveryMode s : bool :=
  existsb (λ p, match contexts s !! p.2 with Some x => findOrphanedDevices x | None => false end) (map_to_list (activeDiscoveries s)).

(** ** discoverDeviceClassThreadProc *)

(** The next driver; [ok] is what it returns.  A driver without recovery is
    not called. *)
Definition thread_start s i x (d : driver) (rest started : list driver) (ok : bool) : state :=
  if (negb (findOrphanedDevices x) || recoverDevices d) && ok then
    set_phase (add_event s (DriverStarted d (deviceClass x))) i x (Starting rest (started ++ [d]))
  else set_phase s i x (Starting rest started).

(** All drivers were called. *)
Definition thread_started s i x (started : list driver) : state :=
  set_phase s i x (if decide (started = []) then Ending else Waiting started).

Definition thread_wakes s i x (started : list driver) : state := set_phase s i x (Stopping started).

Definition thread_stop s i x (d : driver) (rest : list driver) : state :=
  set_phase (add_event s (DriverStopped d (deviceClass x))) i x (Stopping rest).

Definition thread_stopped s i x : state := set_phase (add_event s (DiscoveryStopped (deviceClass x))) i x Ending.

(** The entry of the class is deleted, and the context released. *)
Definition thread_ends s i x : state :=
  mkState (delete (deviceClass x) (activeDiscoveries s)) (delete i (contexts s)) (discoveryTimeoutSeconds s) (log s).

(** [proper]: the lists of classes clients ask for. *)
Inductive step (proper : list cstring → Prop) : state → state → Prop :=
  | step_request s l timeout orphaned : (∀ cs, l = Some cs → proper cs) → step proper s (snd (deviceServiceDiscoverStart l timeout orphaned s))
  | step_stop s l : step proper s (deviceServiceDiscoverStop l s)
  | step_start s i x d rest started ok : contexts s !! i = Some x → ctx_phase x = Starting (d :: rest) started →
      step proper s (thread_start s i x d rest started ok)
  | step_started s i x started : contexts s !! i = Some x → ctx_phase x = Starting [] started → step proper s (thread_started s i x started)
  | step_wakes s i x started : contexts s !! i = Some x → ctx_phase x = Waiting started → step proper s (thread_wakes s i x started)
  | step_driver_stop s i x d rest : contexts s !! i = Some x → ctx_phase x = Stopping (d :: rest) → step proper s (thread_stop s i x d rest)
  | step_stopped s i x : contexts s !! i = Some x → ctx_phase x = Stopping [] → step proper s (thread_stopped s i x)
  | step_ends s i x : contexts s !! i = Some x → ctx_phase x = Ending → step proper s (thread_ends s i x).

(** ** Classes and threads *)

(** The drivers a thread has started and not stopped yet. *)
Definition running x : list driver :=
  match ctx_phase x with Starting _ l | Waiting l | Stopping l => l | Ending => [] end.

Definition running_for s c : list driver :=
  match activeDiscoveries s !! c with Some i => match contexts s !! i with Some x => running x | None => [] end | None => [] end.

Fixpoint count {A} (p : A → bool) (l : list A) : nat := match l with [] => 0 | a :: l => (if p a then 1 else 0) + count p l end.

Definition is_start (d : driver) c (e : event) : bool := match e with DriverStarted d' c' => bool_decide (d' = d ∧ c' = c) | _ => false end.
Definition is_stop (d : driver) c (e : event) : bool := match e with DriverStopped d' c' => bool_decide (d' = d ∧ c' = c) | _ => false end.

Record consistent s : Prop := {
  (* the map has exactly the threads, by their classes *)
  cs_map c i : activeDiscoveries s !! c = Some i ↔ ∃ x, contexts s !! i = Some x ∧ deviceClass x = c;
  (* drivers that were started and not stopped are held by the thread of the class *)
  cs_count d c : (count (is_start d c) (log s) = count (is_stop d c) (log s) + count (λ d', bool_decide (d' = d)) (running_for s c))%nat
}.

Lemma count_app {A} (p : A → bool) l l' : count p (l ++ l') = (count p l + count p l')%nat.
Proof. induction l as [|a l IH]; [done|]. cbn [count app]. rewrite IH. lia. Qed.

Lemma initial_consistent : consistent initial.
Proof.
  split; [|done]. intros c i. cbn. rewrite lookup_empty. split; [done|]. intros (x & Hx & _). by rewrite lookup_empty in Hx.
Qed.

(** A thread goes on to another phase; [l] is what it sends. *)
Lemma phase_consistent s i x p l : consistent s → contexts s !! i = Some x →
  (∀ d c, c ≠ deviceClass x → count (is_start d c) l = 0%nat ∧ count (is_stop d c) l = 0%nat) →
  (∀ d, (count (λ d', bool_decide (d' = d)) (running x) + count (is_start d (deviceClass x)) l =
         count (is_stop d (deviceClass x)) l + count (λ d', bool_decide (d' = d)) (running (mkContext (deviceClass x) (timeoutSeconds x) (findOrphanedDevices x) p)))%nat) →
  consistent (mkState (activeDiscoveries s) (<[i := mkContext (deviceClass x) (timeoutSeconds x) (findOrphanedDevices x) p]> (contexts s))
    (discoveryTimeoutSeconds s) (log s ++ l)).
Proof.
  intros [Hmap Hcount] Hi Hother Hown. set (y := mkContext _ _ _ p) in *. split.
  - intros c j. cbn [activeDiscoveries contexts]. rewrite Hmap. destruct (decide (j = i)) as [->|Hj].
    + rewrite lookup_insert_eq, Hi. split; intros (z & [= <-] & Hz); by eexists.
    + by rewrite lookup_insert_ne.
  - intros d c. cbn [log]. rewrite !count_app, (Hcount d c). unfold running_for. cbn [activeDiscoveries contexts].
    destruct (decide (c = deviceClass x)) as [->|Hc].
    + assert (activeDiscoveries s !! deviceClass x = Some i) as -> by (apply Hmap; eauto). rewrite lookup_insert_eq, Hi. specialize (Hown d). lia.
    + destruct (Hother d c Hc) as [-> ->]. destruct (activeDiscoveries s !! c) as [j|] eqn:Ej; [|lia]. rewrite lookup_insert_ne; [lia|].
      intros ->. apply Hmap in Ej as (z & Hz & Hzc). congruence.
Qed.

Lemma set_phase_consistent s i x p : consistent s → contexts s !! i = Some x →
  running (mkContext (deviceClass x) (timeoutSeconds x) (findOrphanedDevices x) p) = running x → consistent (set_phase s i x p).
Proof.
  intros Hs Hi Hr. unfold set_phase. rewrite <-(app_nil_r (log s)). apply phase_consistent; [done..|]. intros d. rewrite Hr. cbn. lia.
Qed.

Lemma signal_consistent s i : consistent s → consistent (signal s i).
Proof.
  intros Hs. unfold signal. destruct (contexts s !! i) as [x|] eqn:Hi; [|done]. destruct (ctx_phase x) as [r st|st|st|] eqn:Hp; try done.
  apply set_phase_consistent; [done..|]. unfold running. by rewrite Hp.
Qed.

Lemma stop_consistent l s : consistent s → consistent (deviceServiceDiscoverStop l s).
Proof.
  intros Hs. unfold deviceServiceDiscoverStop. destruct l as [l|].
  - revert s Hs. induction l as [|c l IH]; intros s Hs; [done|]. cbn [foldl]. apply IH. destruct (activeDiscoveries s !! c); [by apply signal_consistent|done].
  - generalize ((map_to_list (activeDiscoveries s)).*2). intros ids. revert s Hs. induction ids as [|i ids IH]; intros s Hs; [done|].
    cbn [foldl]. by apply IH, signal_consistent.
Qed.

(** *** Starting *)

Lemma new_classes_spec orphaned active cs acc r : new_classes orphaned active cs acc = Some r →
  r = acc ++ filter (λ c, active !! c = None) cs.
Proof.
  revert acc. induction cs as [|c cs IH]; intros acc; cbn [new_classes]; [intros [= <-]; by rewrite app_nil_r|]. rewrite filter_cons.
  case_decide as E; [destruct E as [? E]; rewrite decide_False by congruence; apply IH|].
  apply eq_None_not_Some in E. rewrite (decide_True (P := active !! c = None)) by done. case_decide; [done|]. destruct (orphaned && _); [done|]. intros Hr%IH. by rewrite <-app_assoc in Hr.
Qed.

Lemma thread_created s timeout orphaned c : consistent s → activeDiscoveries s !! c = None →
  consistent (startDiscoveryForDeviceClass timeout orphaned s c).
Proof.
  intros [Hmap Hcount] Hc. unfold startDiscoveryForDeviceClass. rewrite Hc. set (i := fresh (dom (contexts s))).
  assert (Hi : contexts s !! i = None) by (apply not_elem_of_dom, is_fresh). split.
  - intros c' j. cbn [activeDiscoveries contexts]. destruct (decide (c' = c)) as [->|Hne].
    + rewrite lookup_insert_eq. split; [intros [= <-]; rewrite lookup_insert_eq; by eexists|]. intros (x & Hx & Hxc). f_equal.
      apply lookup_insert_Some in Hx as [[-> _]|[_ Hx]]; [done|]. exfalso. assert (activeDiscoveries s !! c = Some j) by (apply Hmap; eauto). congruence.
    + rewrite lookup_insert_ne by done. rewrite Hmap. destruct (decide (j = i)) as [->|Hj].
      * rewrite lookup_insert_eq, Hi. split; [by intros (x & ? & _)|]. intros (x & [= <-] & Hx). cbn in Hx. congruence.
      * by rewrite lookup_insert_ne.
  - intros d c'. cbn [log]. rewrite (Hcount d c'). unfold running_for. cbn [activeDiscoveries contexts]. destruct (decide (c' = c)) as [->|Hne].
    + by rewrite Hc, !lookup_insert_eq.
    + rewrite lookup_insert_ne by done. destruct (activeDiscoveries s !! c') as [j|] eqn:Ej; [|done]. rewrite lookup_insert_ne; [done|].
      intros <-. apply Hmap in Ej as (x & Hx & _). congruence.
Qed.

Lemma threads_created timeout orphaned l s : consistent s → NoDup l → (∀ c, c ∈ l → activeDiscoveries s !! c = None) →
  consistent (foldl (startDiscoveryForDeviceClass timeout orphaned) s l).
Proof.
  intros Hs Hn. revert s Hs. induction Hn as [|c l Hc Hn IH]; intros s Hs Hl; [done|]. cbn [foldl]. apply IH.
  - apply thread_created; [done|]. apply Hl. by left.
  - intros c' Hc'. unfold startDiscoveryForDeviceClass. rewrite (Hl c) by (by left). cbn. rewrite lookup_insert_ne by (intros ->; done). apply Hl. by right.
Qed.

Lemma request_consistent s l timeout orphaned : consistent s → (∀ cs, l = Some cs → NoDup cs) →
  consistent (snd (deviceServiceDiscoverStart l timeout orphaned s)).
Proof.
  intros Hs Hn. unfold deviceServiceDiscoverStart. destruct l as [l|]; [|done]. set (s1 := with_timeout s timeout).
  assert (Hs1 : consistent s1) by (destruct Hs as [A B]; split; [exact A|exact B]).
  destruct (new_classes orphaned (activeDiscoveries s1) l []) as [[|c r]|] eqn:E; [done| |done]. cbn [snd].
  apply new_classes_spec in E. cbn [app] in E. rewrite E. apply threads_created.
  - destruct Hs1 as [A B]. split; [exact A|]. intros d c'. specialize (B d c'). unfold running_for in *. cbn [add_event log activeDiscoveries contexts]. rewrite !count_app. cbn [count is_start is_stop]. lia.
  - apply NoDup_filter. by apply Hn.
  - intros c' Hc'%list_elem_of_filter. by destruct Hc'.
Qed.

(** *** Ending *)

Lemma ends_consistent s i x : consistent s → contexts s !! i = Some x → ctx_phase x = Ending → consistent (thread_ends s i x).
Proof.
  intros [Hmap Hcount] Hi Hp. assert (Hact : activeDiscoveries s !! deviceClass x = Some i) by (apply Hmap; eauto). split.
  - intros c j. cbn [thread_ends activeDiscoveries contexts]. rewrite lookup_delete_Some, Hmap. setoid_rewrite lookup_delete_Some. split.
    + intros (Hc & y & Hy & Hyc). exists y. split; [|done]. split; [|done]. intros ->. congruence.
    + intros (y & (Hj & Hy) & Hyc). split; [|eauto]. intros <-. assert (activeDiscoveries s !! deviceClass x = Some j) by (apply Hmap; eauto). congruence.
  - intros d c. cbn [thread_ends log]. rewrite (Hcount d c). f_equal. unfold running_for. cbn [thread_ends activeDiscoveries contexts].
    destruct (decide (c = deviceClass x)) as [->|Hc].
    + rewrite Hact, Hi, lookup_delete_eq. unfold running. by rewrite Hp.
    + rewrite lookup_delete_ne by done. destruct (activeDiscoveries s !! c) as [j|] eqn:Ej; [|done]. rewrite lookup_delete_ne; [done|].
      intros ->. apply Hmap in Ej as (y & Hy & Hyc). congruence.
Qed.

Lemma step_consistent s s' : step NoDup s s' → consistent s → consistent s'.
Proof.
  intros Hs Hc. destruct Hs as [s l timeout orphaned Hl|s l|s i x d rest started ok Hi Hp|s i x started Hi Hp|s i x started Hi Hp|s i x d rest Hi Hp|s i x Hi Hp|s i x Hi Hp].
  - by apply request_consistent.
  - by apply stop_consistent.
  - unfold thread_start. destruct (_ && ok); [|apply set_phase_consistent; [done..|]; unfold running; by rewrite Hp].
    apply (phase_consistent s i x (Starting rest (started ++ [d])) [DriverStarted d (deviceClass x)]); [done..| |].
    + intros d' c Hne. cbn. rewrite bool_decide_eq_false_2; [done|]. by intros [_ ?].
    + intros d'. unfold running at 1 2. rewrite Hp. cbn [ctx_phase]. rewrite count_app. cbn. rewrite (bool_decide_ext (d = d' ∧ deviceClass x = deviceClass x) (d = d')) by tauto. lia.
  - unfold thread_started. apply set_phase_consistent; [done..|]. unfold running. rewrite Hp. cbn. by case_decide; subst.
  - apply set_phase_consistent; [done..|]. unfold running. by rewrite Hp.
  - apply (phase_consistent s i x (Stopping rest) [DriverStopped d (deviceClass x)]); [done..| |].
    + intros d' c Hne. cbn. rewrite bool_decide_eq_false_2; [done|]. by intros [_ ?].
    + intros d'. unfold running at 1 2. rewrite Hp. cbn [ctx_phase count is_start is_stop].
      rewrite (bool_decide_ext (d = d' ∧ deviceClass x = deviceClass x) (d = d')) by tauto. lia.
  - apply (phase_consistent s i x Ending [DiscoveryStopped (deviceClass x)]); [done..|]. intros d. unfold running at 1 2. by rewrite Hp.
  - by apply ends_consistent.
Qed.

Lemma reachable_consistent s : rtc (step NoDup) initial s → consistent s.
Proof.
  intros Hs. revert s Hs. apply (rtc_ind_r (R := step NoDup)); [exact initial_consistent|]. intros x y _ Hxy Hx. by apply (step_consistent x).
Qed.

(** C12: discoveries and their threads.  In every interleaving of clients and
    threads, when no request names a class twice, the map of active discoveries
    has exactly the classes whose threads run, each class has one thread, and
    a discovery is reported as active exactly while a thread runs.  For every
    driver and class, the driver was stopped as often as it was started, but
    for the starts the thread of the class still has to stop; so that when no
    discovery is active, no driver is left discovering. *)
Theorem discovery_threads s : rtc (step NoDup) initial s →
  (∀ c i, activeDiscoveries s !! c = Some i ↔ ∃ x, contexts s !! i = Some x ∧ deviceClass x = c) ∧
  (∀ i j x y, contexts s !! i = Some x → contexts s !! j = Some y → deviceClass x = deviceClass y → i = j) ∧
  (deviceServiceIsDiscoveryActive s = true ↔ contexts s ≠ ∅) ∧
  (∀ d c, (count (is_start d c) (log s) = count (is_stop d c) (log s) + count (λ d', bool_decide (d' = d)) (running_for s c))%nat) ∧
  (deviceServiceIsDiscoveryActive s = false → ∀ d c, count (is_start d c) (log s) = count (is_stop d c) (log s)).
Proof.
  intros Hs. destruct (reachable_consistent s Hs) as [Hmap Hcount]. split; [done|]. split; [|split; [|split; [done|]]].
  - intros i j x y Hi Hj Hxy. assert (Hx : activeDiscoveries s !! deviceClass x = Some i) by (apply Hmap; eauto).
    assert (Hy : activeDiscoveries s !! deviceClass x = Some j) by (apply Hmap; eauto). congruence.
  - unfold deviceServiceIsDiscoveryActive. rewrite bool_decide_eq_true. split; intros Hne He; apply Hne, map_eq; intros k; rewrite lookup_empty.
    + destruct (activeDiscoveries s !! k) as [i|] eqn:E; [|done]. apply Hmap in E as (x & Hx & _). by rewrite He, lookup_empty in Hx.
    + destruct (contexts s !! k) as [x|] eqn:E; [|done]. assert (Hx : activeDiscoveries s !! deviceClass x = Some k) by (apply Hmap; eauto).
      by rewrite He, lookup_empty in Hx.
  - unfold deviceServiceIsDiscoveryActive. rewrite bool_decide_eq_false. intros Hn%dec_stable d c. rewrite (Hcount d c). unfold running_for.
    rewrite Hn, lookup_empty. cbn. lia.
Qed.

(** A stop can be lost.  Stopping a discovery signals the condition of its
    thread and keeps nothing, so that a stop has no effect at all as long as no
    thread is in its wait, although its drivers may already be discovering: a
    discovery without timeout that is stopped while its drivers are started goes
    on for ever. *)
Theorem stop_before_wait_is_lost l s : (∀ i x started, contexts s !! i = Some x → ctx_phase x ≠ Waiting started) →
  deviceServiceDiscoverStop l s = s.
Proof.
  intros Hn. assert (Hsig : ∀ i, signal s i = s).
  { intros i. unfold signal. destruct (contexts s !! i) as [x|] eqn:Hi; [|done]. destruct (ctx_phase x) eqn:Hp; try done. by destruct (Hn i x _ Hi Hp). }
  unfold deviceServiceDiscoverStop. destruct l as [l|].
  - induction l as [|c l IH]; [done|]. cbn [foldl]. destruct (activeDiscoveries s !! c); [rewrite Hsig|]; exact IH.
  - induction ((map_to_list (activeDiscoveries s)).*2) as [|i ids IH]; [done|]. cbn [foldl]. by rewrite Hsig.
Qed.

End Code.

(** ** Examples *)

Definition lights : driver := mkDriver (str "lights") [str "light"] false.

(** The state after a request for the class of the lights. *)
Definition requested (classes : list cstring) : state := snd (deviceServiceDiscoverStart [lights] (Some classes) 0 false initial).
Definition light_context (p : phase) : context := mkContext (str "light") 0 false p.
(** The driver is discovering and the thread is about to wait. *)
Definition driver_running : state :=
  thread_start (requested [str "light"]) 0 (light_context (Starting [lights] [])) lights [] [] true.

Lemma driver_running_reachable : rtc (step [lights] NoDup) initial driver_running.
Proof.
  eapply rtc_l; [apply (step_request [lights] NoDup initial (Some [str "light"]) 0 false); intros cs [= <-]; apply (bool_decide_unpack _); vm_compute; exact I|].
  eapply rtc_l; [|apply rtc_refl]. apply step_start; vm_compute; reflexivity.
Qed.

Lemma discovery_threads_witness : rtc (step [lights] NoDup) initial driver_running ∧
  count (is_start lights (str "light")) (log driver_running) = 1%nat ∧ count (is_stop lights (str "light")) (log driver_running) = 0%nat ∧
  deviceServiceIsDiscoveryActive driver_running = true.
Proof.
  split; [exact driver_running_reachable|]. split; [vm_compute; reflexivity|]. split; [vm_compute; reflexivity|].
  apply (proj1 (proj2 (proj2 (discovery_threads [lights] driver_running driver_running_reachable)))).
  vm_compute. discriminate.
Defined.

Lemma stop_before_wait_is_lost_witness : deviceServiceDiscoverStop (Some [str "light"]) driver_running = driver_running ∧
  contexts (thread_started driver_running 0 (light_context (Starting [] [lights])) [lights]) !! 0%nat = Some (light_context (Waiting [lights])).
Proof.
  split; [|vm_compute; reflexivity]. apply stop_before_wait_is_lost. intros i x started Hi Hp.
  assert (Hall : map_Forall (λ _ x, match ctx_phase x with Waiting _ => false | _ => true end = true) (contexts driver_running))
    by (apply (bool_decide_unpack _); vm_compute; exact I).
  specialize (Hall i x Hi). cbn in Hall. by rewrite Hp in Hall.
Defined.

(** A class named twice gets two threads, and only one of them can be stopped. *)
Lemma duplicate_class_two_threads :
  let s := requested [str "light"; str "light"] in
  contexts s !! 0%nat = Some (light_context (Starting [lights] [])) ∧ contexts s !! 1%nat = Some (light_context (Starting [lights] [])) ∧
  activeDiscoveries s = {[str "light" := 0%nat]}.
Proof. split_and!; vm_compute; reflexivity. Qed.

(** When no driver starts, the end of the discovery is not announced. *)
Lemma failed_discovery_not_stopped :
  let s1 := thread_start (requested [str "light"]) 0 (light_context (Starting [lights] [])) lights [] [] false in
  let s2 := thread_started s1 0 (light_context (Starting [] [])) [] in
  let s3 := thread_ends s2 0 (light_context Ending) in
  rtc (step [lights] NoDup) initial s3 ∧ log s3 = [DiscoveryStarted [str "light"] 0] ∧ deviceServiceIsDiscoveryActive s3 = false.
Proof.
  split_and!; [|vm_compute; reflexivity..].
  eapply rtc_l; [apply (step_request [lights] NoDup initial (Some [str "light"]) 0 false); intros cs [= <-]; apply (bool_decide_unpack _); vm_compute; exact I|].
  eapply rtc_l; [apply (step_start [lights] NoDup _ 0 (light_context (Starting [lights] [])) lights [] [] false); vm_compute; reflexivity|].
  eapply rtc_l; [apply (step_started [lights] NoDup _ 0 (light_context (Starting [] [])) []); vm_compute; reflexivity|].
  eapply rtc_l; [apply (step_ends [lights] NoDup _ 0 (light_context Ending)); vm_compute; reflexivity|]. apply rtc_refl.
Qed.

End Discovery.
