(* ===== verification/DriverManager.v ===== *)
(** * The device driver manager

    Models src/source/services/device/core/src/deviceDriverManager.c: the
    drivers are kept in a map by their names and in a list in the order they
    were loaded.  An initialization function of a driver gives the driver or
    NULL.  Starting and shutting down call every driver; the calls are the list
    of drivers called. *)

From S2P Require Import Prelude KeyMap OwnedMap StringUtils DeviceModel JsonDatabase JsonDatabaseSpec StringKeyed.
Import KeyMap OwnedMap StringUtils DeviceModel JsonDatabase JsonDatabaseSpec StringKeyed.

Module DriverManager.

Section Code.
Context {DRV : Type}.
Variables (name subsystem : DRV → option cstring) (classes : DRV → option (list cstring)).
Context {M : Type} `{KeyMap M DRV}.

Record manager := mkManager { deviceDrivers : option M; orderedDeviceDrivers : option (list DRV) }.
Implicit Types (m : manager).

(** A driver without a name is not loaded. *)
Definition loadDriver (driver : option DRV) m : outcome manager :=
  match driver with
  | Some d =>
      match name d with
      | Some n => '(_, mm) ← map_put (deviceDrivers m) n d; Ok (mkManager mm ((λ l, l ++ [d]) <$> orderedDeviceDrivers m))
      | None => Ok m
      end
  | None => Ok m
  end.

Definition deviceDriverManagerLoadDrivers (inits : list (option DRV)) : outcome manager :=
  foldM loadDriver inits (mkManager (Some km_create) (Some [])).

Definition deviceDriverManagerInitialize := deviceDriverManagerLoadDrivers.

(** strlen reads the name. *)
Definition deviceDriverManagerGetDeviceDriver m (driverName : option cstring) : outcome (option DRV) :=
  match deviceDrivers m with
  | Some _ => n ← of_option driverName; map_get (deviceDrivers m) n
  | None => Ok None
  end.

(** linkedListClone reads the list. *)
Definition deviceDriverManagerGetDeviceDrivers m : outcome (list DRV) := of_option (orderedDeviceDrivers m).

Definition driverSupportsDeviceClass (d : DRV) (deviceClass : cstring) : bool :=
  match classes d with Some l => bool_decide (deviceClass ∈ l) | None => false end.

(** The drivers of the map that a test accepts, in the order of the map. *)
Definition collect (p : DRV → bool) m : outcome (list DRV) :=
  map_iterate (deviceDrivers m) (λ _ d l, Ok (if p d then l ++ [d] else l)) [].

Definition deviceDriverManagerGetDeviceDriversByDeviceClass m (deviceClass : option cstring) : outcome (option (list DRV)) :=
  match deviceDrivers m, deviceClass with
  | Some _, Some c => l ← collect (λ d, driverSupportsDeviceClass d c) m; Ok (Some l)
  | _, _ => Ok None
  end.

Definition deviceDriverManagerGetDeviceDriversBySubsystem m (subsystemName : option cstring) : outcome (option (list DRV)) :=
  match deviceDrivers m, subsystemName with
  | Some _, Some _ => l ← collect (λ d, bool_decide (stringCompare (subsystem d) subsystemName false = 0)) m; Ok (Some l)
  | _, _ => Ok None
  end.

(** The drivers that are started, in this order. *)
Definition deviceDriverManagerStartDeviceDrivers m : outcome (list DRV) := of_option (orderedDeviceDrivers m).

(** The drivers that are shut down, and the empty manager. *)
Definition deviceDriverManagerShutdown m : outcome (bool * list DRV * manager) :=
  match deviceDrivers m with
  | None => Ok (false, [], m)
  | Some _ => l ← collect (λ _, true) m; Ok (true, l, mkManager None None)
  end.

End Code.

Arguments manager DRV M : clear implicits.

(** ** The map and the list *)

Section Theorems.
Context {DRV : Type}.
Variables (name : DRV → option cstring).
Context {M : Type} `{KeyMapLaws M DRV}.
Implicit Types (l : list DRV).

(** The drivers that are loaded, in order. *)
Definition loadable (inits : list (option DRV)) : list DRV := filter (λ d, is_Some (name d)) (omap id inits).

Definition indexed (m : manager DRV M) l : Prop :=
  orderedDeviceDrivers m = Some l ∧ ∃ v, holds (deviceDrivers m) v ∧ (size v ≤ length l)%nat ∧
    ∀ n, v !! n = head (filter (λ d, name d = Some n) l).

Lemma head_app {A} (l l' : list A) : head (l ++ l') = match head l with Some x => Some x | None => head l' end.
Proof. by destruct l. Qed.

Lemma load_drivers_spec m l d n : indexed m l → name d = Some n → key_ok (zkey n) → Z.of_nat (length l) < 65535 →
  ∃ m', loadDriver name (Some d) m = Ok m' ∧ indexed m' (l ++ [d]).
Proof.
  intros (Ho & v & Hv & Hs & Hi) Hn Hk Hz. unfold loadDriver. rewrite Hn, Ho.
  assert (Hhead : ∀ k, head (filter (λ d, name d = Some k) (l ++ [d])) =
    match head (filter (λ d, name d = Some k) l) with Some x => Some x | None => if decide (k = n) then Some d else None end).
  { intros k. rewrite filter_app, head_app. destruct (head (filter (λ d, name d = Some k) l)); [done|]. rewrite filter_cons, filter_nil, Hn.
    destruct (decide (Some n = Some k)) as [[= ->]|E]; [by rewrite decide_True|]. rewrite decide_False; [done|]. congruence. }
  destruct (v !! n) as [d0|] eqn:E.
  - rewrite (holds_put_old _ v n d d0 Hv Hk E). obind. eexists. split; [done|]. split; [done|]. exists v. split; [done|].
    split; [rewrite length_app; lia|]. intros k. rewrite Hhead, Hi. destruct (head (filter (λ d1, name d1 = Some k) l)) eqn:Ek; [done|].
    rewrite decide_False; [done|]. intros ->. rewrite Hi in E. congruence.
  - destruct (holds_put_new _ v n d Hv Hk E) as (mm & -> & Hm); [lia|]. obind. eexists. split; [done|]. split; [done|]. eexists. split; [exact Hm|].
    split; [rewrite map_size_insert_None, length_app by done; cbn; lia|]. intros k. rewrite Hhead. destruct (decide (k = n)) as [->|Hne].
    + rewrite lookup_insert_eq. by rewrite <-Hi, E.
    + rewrite lookup_insert_ne by done. rewrite Hi. by destruct (head (filter (λ d1, name d1 = Some k) l)).
Qed.

Lemma load_all inits m l : indexed m l → (∀ d n, Some d ∈ inits → name d = Some n → key_ok (zkey n)) → Z.of_nat (length l + length inits) ≤ 65535 →
  ∃ m', foldM (loadDriver name) inits m = Ok m' ∧ indexed m' (l ++ loadable inits).
Proof.
  revert m l. induction inits as [|o inits IH]; intros m l Hm Hk Hz; cbn [foldM length] in *; [exists m; split; [done|]; by rewrite app_nil_r|].
  assert (Hk' : ∀ d n, Some d ∈ inits → name d = Some n → key_ok (zkey n)) by (intros d n Hd; apply Hk; by right).
  unfold loadable. destruct o as [d|]; cbn [omap list_omap id]; [|obind; apply IH; [done..|lia]]. rewrite filter_cons. destruct (name d) as [n|] eqn:En.
  - rewrite decide_True by eauto. destruct (load_drivers_spec m l d n Hm En) as (m1 & -> & Hm1); [by apply (Hk d); [left|]|lia|]. obind.
    destruct (IH m1 (l ++ [d]) Hm1 Hk') as (m' & -> & Hm'); [rewrite length_app; cbn; lia|]. exists m'. split; [done|]. by rewrite <-app_assoc in Hm'.
  - rewrite decide_False by (by intros [? ?]). assert (loadDriver name (Some d) m = Ok m) as -> by (unfold loadDriver; by rewrite En). obind. apply IH; [done..|lia].
Qed.

(** C24: the map and the list of drivers agree: after loading, the list has the
    drivers that have a name, in the order they were loaded, and looking up a
    name finds the first of them with that name, as if the list had been
    searched; a later driver with a name that is taken stays in the list, where
    it is started, but cannot be looked up. *)
Theorem driver_lookup_first_loaded inits n : (∀ d k, Some d ∈ inits → name d = Some k → key_ok (zkey k)) → Z.of_nat (length inits) ≤ 65535 → key_ok (zkey n) →
  ∃ m : manager DRV M, deviceDriverManagerLoadDrivers name inits = Ok m ∧ deviceDriverManagerGetDeviceDrivers m = Ok (loadable inits) ∧
    deviceDriverManagerStartDeviceDrivers m = Ok (loadable inits) ∧
    deviceDriverManagerGetDeviceDriver m (Some n) = Ok (head (filter (λ d, name d = Some n) (loadable inits))).
Proof.
  intros Hk Hz Hn. destruct (load_all inits (mkManager (Some km_create) (Some [])) []) as (m & Hm & Hord & v & Hv & _ & Hi).
  - split; [done|]. exists ∅. split; [apply created_holds|]. split; [rewrite map_size_empty; lia|]. intros k. by rewrite lookup_empty.
  - done.
  - cbn. lia.
  - exists m. split; [done|]. unfold deviceDriverManagerGetDeviceDrivers, deviceDriverManagerStartDeviceDrivers, deviceDriverManagerGetDeviceDriver.
    cbn [app] in Hord, Hi. rewrite Hord. split; [done|]. split; [done|]. pose proof Hv as (mm & es & Hmm & _). rewrite Hmm. oread. rewrite <-Hmm.
    by rewrite (holds_get _ v n Hv Hn), Hi.
Qed.

End Theorems.

(** Two drivers with one name, and one that could not be initialized. *)
Definition named_driver (d : cstring * Z) : option cstring := Some d.1.
Definition three_inits : list (option (cstring * Z)) := [Some (str "lights", 1); None; Some (str "lights", 2)].

Lemma driver_lookup_first_loaded_witness :
  ∃ m : manager (cstring * Z) (owned hash_map (cstring * Z)), deviceDriverManagerLoadDrivers named_driver three_inits = Ok m ∧
    deviceDriverManagerGetDeviceDrivers m = Ok [(str "lights", 1); (str "lights", 2)] ∧
    deviceDriverManagerGetDeviceDriver m (Some (str "lights")) = Ok (Some (str "lights", 1)).
Proof.
  destruct (driver_lookup_first_loaded (M := owned hash_map (cstring * Z)) named_driver three_inits (str "lights")) as (m & Hl & Ho & _ & Hg).
  - intros d k Hd [= <-]. apply elem_of_cons in Hd as [[= ->]|[?|[[= ->]|?%elem_of_nil]%elem_of_cons]%elem_of_cons]; by vm_compute.
  - vm_compute. discriminate.
  - vm_compute. done.
  - exists m. split; [exact Hl|]. split; [exact Ho|exact Hg].
Defined.

End DriverManager.
