(* ===== verification/Versions.v ===== *)
(** * Version numbers

    Models src/source/libs/device/descriptors/c/src/versionUtils.c: a version
    string is cut into numbers, and versions are compared number by number.
    [junk] is what the memory of a number holds that sscanf did not store. *)

From S2P Require Import Prelude StringUtils.
Import StringUtils.

Module Versions.

Definition DEFAULT_ARRAY_LEN : nat := 16.
Definition DEFAULT_BUFF_LEN : nat := 32.

Definition isdigit (b : byte) : bool := bool_decide (48 ≤ byteZ b ≤ 57).

(** (uint32_t) atoi(buffer) *)
Definition atoi (s : cstring) : Z := i32 (fst (fst (strtoll s 10))).

Section Code.
Variable junk : Z.

(** sscanf with %x or %X on a string that starts with 0x *)
Definition scan_hex (s : cstring) : Z :=
  match span_digits 16 (drop 2 s) with
  | ([], _) => junk
  | (ds, _) => u32 (digits_value 16 ds)
  end.

(** retVal[*arrayLen] = atoi(buffer) *)
Definition store_number (arr : list Z) (buffer : cstring) : outcome (list Z) :=
  if decide (length arr < DEFAULT_ARRAY_LEN)%nat then Ok (arr ++ [u32 (atoi buffer)]) else Fault.

(** A digit goes into the buffer, with the terminator behind it. *)
Fixpoint version_loop (s buffer : cstring) (arr : list Z) : outcome (list Z) :=
  match s with
  | c :: t =>
      if decide (length arr < DEFAULT_ARRAY_LEN)%nat then
        if isdigit c then
          if decide (S (length buffer) < DEFAULT_BUFF_LEN)%nat then version_loop t (buffer ++ [c]) arr else Fault
        else if decide (buffer = []) then version_loop t [] arr
        else arr ← store_number arr buffer; version_loop t [] arr
      else if decide (buffer = []) then Ok arr else store_number arr buffer
  | [] => if decide (buffer = []) then Ok arr else store_number arr buffer
  end.

Definition is_hex_version (s : cstring) : bool :=
  bool_decide (length s = 10%nat) && bool_decide (s !! 0%nat = Some "0"%char) &&
  (bool_decide (s !! 1%nat = Some "x"%char) || bool_decide (s !! 1%nat = Some "X"%char)).

Definition versionStringToInt (versionStr : cstring) : outcome (list Z) :=
  if is_hex_version versionStr then Ok [scan_hex versionStr] else version_loop versionStr [] [].

(** What is left of the right array when the left one ends. *)
Fixpoint compare_rest (rightArr : list Z) : Z :=
  match rightArr with
  | [] => 0
  | y :: rightArr => if decide (y = 0) then compare_rest rightArr else 1
  end.

Fixpoint compareVersionArrays (leftArr rightArr : list Z) : Z :=
  match leftArr with
  | [] => compare_rest rightArr
  | x :: leftArr =>
      match rightArr with
      | [] => if decide (x = 0) then compareVersionArrays leftArr [] else -1
      | y :: rightArr => if decide (y < x) then -1 else if decide (x < y) then 1 else compareVersionArrays leftArr rightArr
      end
  end.

Definition compareVersionStrings (leftVersion rightVersion : cstring) : outcome Z :=
  arrayL ← versionStringToInt leftVersion;
  arrayR ← versionStringToInt rightVersion;
  Ok (compareVersionArrays arrayL arrayR).

End Code.

(** ** Comparing *)

(** The number at a place; a missing one is 0. *)
Definition at_place (l : list Z) (i : nat) : Z := default 0 (l !! i).

(** The first place where two versions differ has the greater number on the left. *)
Definition newer (l r : list Z) : Prop := ∃ i, at_place r i < at_place l i ∧ ∀ j, (j < i)%nat → at_place l j = at_place r j.

Lemma newer_cons x y l r : newer (x :: l) (y :: r) ↔ y < x ∨ (x = y ∧ newer l r).
Proof.
  split.
  - intros ([|i] & Hi & Hj); [by left|]. right. specialize (Hj 0%nat) as H0. cbn in H0. split; [apply H0; lia|].
    exists i. split; [done|]. intros j Hlt. apply (Hj (S j)). lia.
  - intros [Hlt|(-> & i & Hi & Hj)]; [exists 0%nat; split; [done|lia]|]. exists (S i). split; [done|]. intros [|j] Hlt; [done|]. apply Hj. lia.
Qed.

Lemma zero_nil i : at_place [0] i = at_place [] i.
Proof. by destruct i as [|[]]. Qed.

Lemma newer_long x l : newer (x :: l) [] ↔ 0 < x ∨ (x = 0 ∧ newer l []).
Proof. rewrite <-(newer_cons x 0 l []). unfold newer. by setoid_rewrite zero_nil. Qed.

Lemma newer_short y r : newer [] (y :: r) ↔ y < 0 ∨ (0 = y ∧ newer [] r).
Proof. rewrite <-(newer_cons 0 y [] r). unfold newer. by setoid_rewrite zero_nil. Qed.

(** The result of a comparison of versions. *)
Inductive compared (l r : list Z) : Z → Prop :=
  | left_newer : newer l r → compared l r (-1)
  | right_newer : newer r l → compared l r 1
  | none_newer : (∀ i, at_place l i = at_place r i) → compared l r 0.

Lemma compared_cons x y l r c : x = y → compared l r c → compared (x :: l) (y :: r) c.
Proof.
  intros -> [Hn|Hn|He]; [apply left_newer|apply right_newer|apply none_newer; intros [|i]; [done|apply He]]; apply newer_cons; auto.
Qed.

Lemma compared_same l r l' r' c : (∀ i, at_place l i = at_place l' i) → (∀ i, at_place r i = at_place r' i) → compared l r c → compared l' r' c.
Proof. intros Hl Hr [Hn|Hn|He]; constructor; unfold newer in *; setoid_rewrite <-Hl; setoid_rewrite <-Hr; done. Qed.

Lemma compare_rest_spec r : Forall (λ y, 0 ≤ y) r → compared [] r (compare_rest r).
Proof.
  induction 1 as [|y r Hy Hr IH]; cbn [compare_rest]; [by apply none_newer|]. case_decide as E.
  - apply (compared_same [0] (y :: r)); [apply zero_nil|done|]. by apply compared_cons.
  - apply right_newer, newer_long. left. lia.
Qed.

Lemma compare_spec l r : Forall (λ x, 0 ≤ x) l → Forall (λ y, 0 ≤ y) r → compared l r (compareVersionArrays l r).
Proof.
  intros Hl. revert r. induction Hl as [|x l Hx Hl IH]; intros r Hr; cbn [compareVersionArrays]; [by apply compare_rest_spec|].
  destruct Hr as [|y r Hy Hr]; [|].
  - case_decide as E; [|apply left_newer, newer_long; left; lia].
    apply (compared_same (x :: l) [0]); [done|apply zero_nil|]. apply compared_cons; [done|]. by apply IH.
  - case_decide; [apply left_newer, newer_cons; by left|]. case_decide; [apply right_newer, newer_cons; by left|].
    apply compared_cons; [lia|by apply IH].
Qed.

Lemma newer_asym l r : newer l r → newer r l → False.
Proof.
  intros (i & Hi & Hli) (j & Hj & Hlj). destruct (Nat.lt_trichotomy i j) as [H|[->|H]]; [specialize (Hlj i H)|lia|specialize (Hli j H)]; lia.
Qed.

Lemma compared_swap l r c c' : compared l r c → compared r l c' → c' = - c.
Proof.
  intros [Hn|Hn|He] [Hn'|Hn'|He']; try done; exfalso; try (by apply (newer_asym l r));
    [destruct Hn as (i & Hi & _)|destruct Hn as (i & Hi & _)|destruct Hn' as (i & Hi & _)|destruct Hn' as (i & Hi & _)];
    try (specialize (He i)); try (specialize (He' i)); lia.
Qed.

(** ** Cutting a string into numbers *)

(** The runs of digits of a string, after the digits [acc]. *)
Fixpoint runs (s acc : cstring) : list cstring :=
  match s with
  | [] => if decide (acc = []) then [] else [acc]
  | c :: t => if isdigit c then runs t (acc ++ [c]) else if decide (acc = []) then runs t [] else acc :: runs t []
  end.

Definition number (s : cstring) : Z := u32 (atoi s).

Lemma number_nonneg s : 0 ≤ number s.
Proof. unfold number, u32. by apply Z.mod_pos_bound. Qed.

Lemma runs_head s acc : acc ≠ [] → ∃ x l, runs s acc = x :: l ∧ (length acc ≤ length x)%nat.
Proof.
  revert acc. induction s as [|c s IH]; intros acc Ha; cbn [runs]; [rewrite decide_False by done; by eexists _, _|].
  destruct (isdigit c); [|rewrite decide_False by done; by eexists _, _].
  destruct (IH (acc ++ [c])) as (x & l & Hx & Hlen); [by destruct acc|]. exists x, l. split; [done|]. rewrite length_app in Hlen. lia.
Qed.

(** The runs that the loop gets to fit the buffer with their terminator. *)
Definition runs_fit (n : nat) (l : list cstring) : bool := forallb (λ x, bool_decide (length x < DEFAULT_BUFF_LEN)%nat) (take n l).

Lemma version_loop_spec s buffer arr : (length arr ≤ DEFAULT_ARRAY_LEN)%nat → (length arr = DEFAULT_ARRAY_LEN → buffer = []) →
  (length buffer < DEFAULT_BUFF_LEN)%nat →
  version_loop s buffer arr =
    if runs_fit (DEFAULT_ARRAY_LEN - length arr) (runs s buffer) then Ok (take DEFAULT_ARRAY_LEN (arr ++ (number <$> runs s buffer))) else Fault.
Proof.
  revert buffer arr. induction s as [|c s IH]; intros buffer arr Hl Hb Hbuf; cbn [version_loop runs] in *.
  - case_decide as E; [by rewrite app_nil_r, take_ge by lia; unfold runs_fit; rewrite take_nil|].
    assert (length arr ≠ DEFAULT_ARRAY_LEN) by auto. unfold store_number, runs_fit. rewrite decide_True by lia.
    destruct (DEFAULT_ARRAY_LEN - length arr)%nat as [|k] eqn:Ek; [lia|]. cbn [take forallb]. rewrite take_nil, bool_decide_true by done.
    cbn [fmap list_fmap forallb andb]. rewrite take_ge; [done|]. rewrite length_app. cbn. lia.
  - destruct (decide (length arr < DEFAULT_ARRAY_LEN)%nat) as [Hlt|Hge].
    + destruct (DEFAULT_ARRAY_LEN - length arr)%nat as [|k] eqn:Ek; [lia|]. destruct (isdigit c).
      * destruct (runs_head s (buffer ++ [c])) as (x & l & Hx & Hlen); [by destruct buffer|]. rewrite length_app in Hlen. cbn in Hlen. case_decide.
        -- rewrite <-Ek. apply IH; [done|lia|]. rewrite length_app. cbn. lia.
        -- unfold runs_fit. rewrite Hx. cbn [take forallb]. by rewrite bool_decide_false by lia.
      * case_decide as E; [rewrite <-Ek; apply IH; [done|done|unfold DEFAULT_BUFF_LEN; cbn; lia]|]. unfold store_number. rewrite decide_True by done. obind.
        rewrite IH; [|rewrite length_app; cbn; lia|done|unfold DEFAULT_BUFF_LEN; cbn; lia]. rewrite length_app. cbn [length].
        replace (DEFAULT_ARRAY_LEN - (length arr + 1))%nat with k by lia. unfold runs_fit. cbn [take forallb].
        rewrite bool_decide_true by done. cbn [andb fmap list_fmap]. by rewrite <-app_assoc.
    + assert (length arr = DEFAULT_ARRAY_LEN) as Hfull by lia. rewrite decide_True by auto. unfold runs_fit.
      replace (DEFAULT_ARRAY_LEN - length arr)%nat with 0%nat by lia. rewrite take_0. cbn [forallb].
      rewrite take_app_le by lia. by rewrite take_ge by lia.
Qed.

(** The sequence of numbers of a version string: one for the hexadecimal
    versions of Zigbee, else the first 16 runs of digits. *)
Definition version_of (s : cstring) : list Z :=
  if is_hex_version s then [u32 (digits_value 16 (fst (span_digits 16 (drop 2 s))))]
  else take DEFAULT_ARRAY_LEN (number <$> runs s []).

(** A string that is read in full: a hexadecimal digit follows 0x; the runs of
    digits fit the buffer. *)
Definition readable (s : cstring) : bool :=
  if is_hex_version s then negb (bool_decide (fst (span_digits 16 (drop 2 s)) = [])) else runs_fit DEFAULT_ARRAY_LEN (runs s []).

Lemma version_read junk s : versionStringToInt junk s =
  if readable s then Ok (version_of s) else if is_hex_version s then Ok [junk] else Fault.
Proof.
  unfold versionStringToInt, readable, version_of. destruct (is_hex_version s).
  - unfold scan_hex. by destruct (span_digits 16 (drop 2 s)) as [[|d ds] r].
  - apply version_loop_spec; [unfold DEFAULT_ARRAY_LEN; cbn; lia|done|unfold DEFAULT_BUFF_LEN; cbn; lia].
Qed.

Lemma version_of_nonneg s : Forall (λ x, 0 ≤ x) (version_of s).
Proof.
  unfold version_of. destruct (is_hex_version s); [constructor; [by apply Z.mod_pos_bound|constructor]|].
  apply Forall_take, Forall_fmap, Forall_true. intros x. apply number_nonneg.
Qed.

(** C25: versions are compared as sequences of numbers.  A version string is
    the sequence of its runs of digits, the first 16 of them; a string of ten
    characters that starts with 0x is one hexadecimal number.
    compareVersionStrings returns -1, 1 or 0 when the first place where the
    sequences differ has the greater number on the left, on the right, or there
    is none, missing numbers being 0; comparing the other way round gives the
    opposite.  This is so for strings that can be read: a digit follows 0x, and
    of the first 16 runs none has 32 digits; such a run overflows the buffer. *)
Theorem compareVersionStrings_order junk a b :
  (readable a = true → readable b = true → ∃ c, compareVersionStrings junk a b = Ok c ∧ compared (version_of a) (version_of b) c ∧
     compareVersionStrings junk b a = Ok (- c)) ∧
  (is_hex_version a = false → readable a = false → compareVersionStrings junk a b = Fault).
Proof.
  unfold compareVersionStrings. rewrite !version_read. split.
  - intros -> ->. obind. eexists. split; [done|]. split; [apply compare_spec; apply version_of_nonneg|]. f_equal.
    eapply compared_swap; apply compare_spec; apply version_of_nonneg.
  - by intros -> ->.
Qed.

Lemma compareVersionStrings_order_witness :
  compareVersionStrings 0 (str "1.10.R2") (str "1.9") = Ok (-1) ∧ compareVersionStrings 7 (str "0x0084089a") (str "0x00840899") = Ok (-1) ∧
  (∃ c, compareVersionStrings 0 (str "1.10.R2") (str "1.9") = Ok c ∧ compareVersionStrings 0 (str "1.9") (str "1.10.R2") = Ok (- c)) ∧
  ∃ c, compareVersionStrings 7 (str "0x0084089a") (str "0x00840899") = Ok c ∧ compared [8652954] [8652953] c.
Proof.
  split; [vm_compute; reflexivity|]. split; [vm_compute; reflexivity|]. split.
  - destruct (proj1 (compareVersionStrings_order 0 (str "1.10.R2") (str "1.9"))) as (c & Hc & _ & Hs); [reflexivity|reflexivity|].
    exists c. split; [exact Hc|exact Hs].
  - destruct (proj1 (compareVersionStrings_order 7 (str "0x0084089a") (str "0x00840899"))) as (c & Hc & Hs & _); [reflexivity|reflexivity|].
    exists c. split; [exact Hc|exact Hs].
Defined.

(** A run of 32 digits is written past the end of the buffer. *)
Lemma version_overflow junk : versionStringToInt junk (replicate 32 "1"%char) = Fault.
Proof. vm_compute. reflexivity. Qed.

End Versions.
