(* ===== verification/DeviceDescriptors.v ===== *)
(** * Device descriptors

    Models src/source/libs/device/descriptors/c/src: the descriptors
    (deviceDescriptor.c), the parser of the white list and the black list
    (parser.c, over the XML interface of XmlHelper.v), and the search for the
    descriptor of a device (deviceDescriptors.c).  The maps of metadata are
    behind the interface of KeyMap.v.  A file is [None] when it is missing or
    empty.  long has 64 bits.  [fill] is what fresh memory holds. *)

From S2P Require Import Prelude KeyMap StringUtils XmlHelper DeviceModel JsonDatabase Versions.
Import KeyMap StringUtils Xml DeviceModel JsonDatabase Versions.

Module DeviceDescriptors.

(** ** The data *)

Inductive DeviceDescriptorType :=
  | DEVICE_DESCRIPTOR_TYPE_UNKNOWN | DEVICE_DESCRIPTOR_TYPE_LEGACY_ZIGBEE
  | DEVICE_DESCRIPTOR_TYPE_ZIGBEE | DEVICE_DESCRIPTOR_TYPE_CAMERA.
#[global] Instance DeviceDescriptorType_eq : EqDecision DeviceDescriptorType.
Proof. solve_decision. Defined.

Inductive CameraProtocol := CAMERA_PROTOCOL_UNKNOWN | CAMERA_PROTOCOL_LEGACY | CAMERA_PROTOCOL_OPENHOME.

Inductive DeviceFirmwareType :=
  | DEVICE_FIRMWARE_TYPE_UNKNOWN | DEVICE_FIRMWARE_TYPE_ZIGBEE_OTA
  | DEVICE_FIRMWARE_TYPE_ZIGBEE_LEGACY | DEVICE_FIRMWARE_TYPE_CAMERA.

Record DeviceFirmware := mkFirmware {
  fw_version : option cstring;
  fw_filenames : option (list (option cstring));
  fw_checksum : option cstring;
  fw_type : DeviceFirmwareType
}.

(** listType with the member of the union it selects. *)
Inductive version_set :=
  | DEVICE_VERSION_LIST_TYPE_UNKNOWN
  | DEVICE_VERSION_LIST_TYPE_LIST (versionList : option (list (option cstring)))
  | DEVICE_VERSION_LIST_TYPE_WILDCARD
  | DEVICE_VERSION_LIST_TYPE_RANGE (from to : option cstring).

Record DeviceVersionList := mkVersionList { vl_format : option cstring; vl_list : version_set }.

Record CameraMotionSettings := mkMotion {
  mo_enabled : bool;
  mo_sensitivity : Z * Z * Z;          (* low, medium, high *)
  mo_detectionThreshold : Z * Z * Z;
  mo_regionOfInterest : Z * Z * Z * Z * Z * Z  (* width, height, bottom, top, left, right *)
}.

Record camera_part := mkCamera { cam_protocol : CameraProtocol; cam_motion : CameraMotionSettings }.

(** What calloc gives. *)
Definition no_motion : CameraMotionSettings := mkMotion false (0, 0, 0) (0, 0, 0) (0, 0, 0, 0, 0, 0).
Definition no_versions : DeviceVersionList := mkVersionList None DEVICE_VERSION_LIST_TYPE_UNKNOWN.

Section Code.
Context {VM : Type} `{KeyMap VM (option cstring)}.
Context {xml : Type} `{LibXml xml}.
Variable fill : nat → byte.

(** The camera's fields are behind the common ones when the type is CAMERA. *)
Record DeviceDescriptor := mkDescriptor {
  deviceDescriptorType : DeviceDescriptorType;
  dd_uuid : option cstring;
  dd_description : option cstring;
  dd_manufacturer : option cstring;
  dd_model : option cstring;
  dd_hardwareVersions : option DeviceVersionList;
  dd_firmwareVersions : option DeviceVersionList;
  dd_minSupportedFirmwareVersion : option cstring;
  dd_metadata : option VM;
  dd_latestFirmware : option DeviceFirmware;
  dd_camera : camera_part
}.
Implicit Types (dd : DeviceDescriptor) (node : xml) (fw : DeviceFirmware).

Definition fresh_descriptor (t : DeviceDescriptorType) : DeviceDescriptor :=
  mkDescriptor t None None None None None None None None None (mkCamera CAMERA_PROTOCOL_UNKNOWN no_motion).

Definition with_uuid dd x := mkDescriptor (deviceDescriptorType dd) x (dd_description dd) (dd_manufacturer dd) (dd_model dd)
  (dd_hardwareVersions dd) (dd_firmwareVersions dd) (dd_minSupportedFirmwareVersion dd) (dd_metadata dd) (dd_latestFirmware dd) (dd_camera dd).
Definition with_description dd x := mkDescriptor (deviceDescriptorType dd) (dd_uuid dd) x (dd_manufacturer dd) (dd_model dd)
  (dd_hardwareVersions dd) (dd_firmwareVersions dd) (dd_minSupportedFirmwareVersion dd) (dd_metadata dd) (dd_latestFirmware dd) (dd_camera dd).
Definition with_manufacturer dd x := mkDescriptor (deviceDescriptorType dd) (dd_uuid dd) (dd_description dd) x (dd_model dd)
  (dd_hardwareVersions dd) (dd_firmwareVersions dd) (dd_minSupportedFirmwareVersion dd) (dd_metadata dd) (dd_latestFirmware dd) (dd_camera dd).
Definition with_model dd x := mkDescriptor (deviceDescriptorType dd) (dd_uuid dd) (dd_description dd) (dd_manufacturer dd) x
  (dd_hardwareVersions dd) (dd_firmwareVersions dd) (dd_minSupportedFirmwareVersion dd) (dd_metadata dd) (dd_latestFirmware dd) (dd_camera dd).
Definition with_hardware dd x := mkDescriptor (deviceDescriptorType dd) (dd_uuid dd) (dd_description dd) (dd_manufacturer dd) (dd_model dd)
  x (dd_firmwareVersions dd) (dd_minSupportedFirmwareVersion dd) (dd_metadata dd) (dd_latestFirmware dd) (dd_camera dd).
Definition with_firmware dd x := mkDescriptor (deviceDescriptorType dd) (dd_uuid dd) (dd_description dd) (dd_manufacturer dd) (dd_model dd)
  (dd_hardwareVersions dd) x (dd_minSupportedFirmwareVersion dd) (dd_metadata dd) (dd_latestFirmware dd) (dd_camera dd).
Definition with_minimum dd x := mkDescriptor (deviceDescriptorType dd) (dd_uuid dd) (dd_description dd) (dd_manufacturer dd) (dd_model dd)
  (dd_hardwareVersions dd) (dd_firmwareVersions dd) x (dd_metadata dd) (dd_latestFirmware dd) (dd_camera dd).
Definition with_metadata dd x := mkDescriptor (deviceDescriptorType dd) (dd_uuid dd) (dd_description dd) (dd_manufacturer dd) (dd_model dd)
  (dd_hardwareVersions dd) (dd_firmwareVersions dd) (dd_minSupportedFirmwareVersion dd) x (dd_latestFirmware dd) (dd_camera dd).
Definition with_latest dd x := mkDescriptor (deviceDescriptorType dd) (dd_uuid dd) (dd_description dd) (dd_manufacturer dd) (dd_model dd)
  (dd_hardwareVersions dd) (dd_firmwareVersions dd) (dd_minSupportedFirmwareVersion dd) (dd_metadata dd) x (dd_camera dd).
Definition with_camera dd x := mkDescriptor (deviceDescriptorType dd) (dd_uuid dd) (dd_description dd) (dd_manufacturer dd) (dd_model dd)
  (dd_hardwareVersions dd) (dd_firmwareVersions dd) (dd_minSupportedFirmwareVersion dd) (dd_metadata dd) (dd_latestFirmware dd) x.

(** ** deviceDescriptor.c *)

(** A copy; linkedListDeepClone reads the list. *)
Definition clone_strings (l : option (list (option cstring))) : outcome (option (list (option cstring))) :=
  x ← of_option l; Ok (Some (map strdup_or_null x)).

Definition cloneDeviceVersionList (l : option DeviceVersionList) : outcome (option DeviceVersionList) :=
  match l with
  | None => Ok None
  | Some x =>
      set ← match vl_list x with
            | DEVICE_VERSION_LIST_TYPE_LIST vs => vs ← clone_strings vs; Ok (DEVICE_VERSION_LIST_TYPE_LIST vs)
            | DEVICE_VERSION_LIST_TYPE_RANGE a b => Ok (DEVICE_VERSION_LIST_TYPE_RANGE (strdup_or_null a) (strdup_or_null b))
            | t => Ok t
            end;
      Ok (Some (mkVersionList (strdup_or_null (vl_format x)) set))
  end.

Definition clone_firmware fw : outcome DeviceFirmware :=
  names ← match fw_filenames fw with Some _ => clone_strings (fw_filenames fw) | None => Ok None end;
  Ok (mkFirmware (strdup_or_null (fw_version fw)) names (strdup_or_null (fw_checksum fw)) (fw_type fw)).

(** The map of metadata is copied too; a value of the model is its own copy. *)
Definition deviceDescriptorClone dd : outcome DeviceDescriptor :=
  hw ← cloneDeviceVersionList (dd_hardwareVersions dd);
  fw ← cloneDeviceVersionList (dd_firmwareVersions dd);
  latest ← match dd_latestFirmware dd with Some x => y ← clone_firmware x; Ok (Some y) | None => Ok None end;
  Ok (mkDescriptor (deviceDescriptorType dd) (strdup_or_null (dd_uuid dd)) (strdup_or_null (dd_description dd)) (strdup_or_null (dd_manufacturer dd))
        (strdup_or_null (dd_model dd)) hw fw (strdup_or_null (dd_minSupportedFirmwareVersion dd)) (dd_metadata dd) latest
        (if decide (deviceDescriptorType dd = DEVICE_DESCRIPTOR_TYPE_CAMERA) then dd_camera dd else mkCamera CAMERA_PROTOCOL_UNKNOWN no_motion)).

(** ** parser.c *)

Definition getTrimmedXmlNodeContentsAsString node : outcome (option cstring) :=
  match getXmlNodeContentsAsString (Some node) None with
  | Some contents => t ← trimString fill (Some contents); Ok (Some t)
  | None => Ok None
  end.

Definition named node (n : cstring) : bool := bool_decide (strcmp (xml_name node) n = 0).

(** from and to of a range; other elements are not used. *)
Definition range_item node (r : option cstring * option cstring) : outcome (option cstring * option cstring) :=
  version ← getTrimmedXmlNodeContentsAsString node;
  Ok (match version with
      | Some _ => if named node (str "from") then (version, r.2) else if named node (str "to") then (r.1, version) else r
      | None => r
      end).

(** Every branch leaves the loop: the first element decides. *)
Definition parseDeviceVersionList node (lst : DeviceVersionList) : outcome DeviceVersionList :=
  let format := getXmlNodeAttributeAsString (Some node) (str "format") None in
  match Xml.elems node with
  | [] => Ok (mkVersionList format (vl_list lst))
  | currNode :: _ =>
      if named currNode (str "list") then
        items ← mapO getTrimmedXmlNodeContentsAsString (Xml.elems currNode);
        Ok (mkVersionList format (DEVICE_VERSION_LIST_TYPE_LIST (Some items)))
      else if named currNode (str "any") then Ok (mkVersionList format DEVICE_VERSION_LIST_TYPE_WILDCARD)
      else if named currNode (str "range") then
        '(from, to) ← foldM range_item (Xml.elems currNode) (None, None);
        Ok (mkVersionList format (DEVICE_VERSION_LIST_TYPE_RANGE from to))
      else Ok (mkVersionList format (vl_list lst))
  end.

(** (int) strtol, printed with %u *)
Definition versionStringToDecimalString (version : cstring) : outcome cstring :=
  trimString fill (Some (decimal (u32 (i32 (fst (fst (strtoll version 0))))))).

(** The parts strsep finds. *)
Fixpoint separated (c : byte) (s acc : cstring) : list cstring :=
  match s with
  | [] => [acc]
  | b :: t => if decide (b = c) then acc :: separated c t [] else separated c t (acc ++ [b])
  end.

Definition version_text (forceDecimal : bool) (t : cstring) : outcome (option cstring) :=
  if forceDecimal then v ← versionStringToDecimalString t; Ok (Some v)
  else v ← trimString fill (Some t); Ok (stringToLowerCase (Some v)).

(** strlen reads the content. *)
Definition parseZigbeeDeviceVersion node (forceDecimal : bool) : outcome DeviceVersionList :=
  versions ← of_option (getXmlNodeContentsAsString (Some node) None);
  set ← (if bool_decide (head versions = Some "*"%char) then Ok DEVICE_VERSION_LIST_TYPE_WILDCARD
         else if decide (is_Some (strchr versions ","%char)) then
           l ← mapO (version_text forceDecimal) (separated ","%char versions []); Ok (DEVICE_VERSION_LIST_TYPE_LIST (Some l))
         else if decide (is_Some (strchr versions "-"%char)) then
           match separated "-"%char versions [] with
           | first :: second :: _ =>
               v1 ← version_text forceDecimal first; v2 ← version_text forceDecimal second;
               Ok (DEVICE_VERSION_LIST_TYPE_RANGE v1 v2)
           | _ => Fault
           end
         else
           v ← (if forceDecimal then versionStringToDecimalString versions else trimString fill (Some versions));
           Ok (DEVICE_VERSION_LIST_TYPE_LIST (Some [Some v])));
  Ok (mkVersionList (Some (str "Zigbee")) set).

Definition metadata_item node (map : option VM) : outcome (option VM) :=
  if named node (str "metadata") then
    match getXmlNodeAttributeAsString (Some node) (str "name") None, getXmlNodeAttributeAsString (Some node) (str "value") None with
    | Some name, Some value => '(_, map) ← map_put map name (Some value); Ok map
    | _, _ => Ok map
    end
  else Ok map.

Definition parseMetadataList node (map : option VM) : outcome (option VM) := foldM metadata_item (Xml.elems node) map.

(** A child of latestFirmware, of any type: the checksum is read from each. *)
Definition firmware_child node fw : outcome DeviceFirmware :=
  fw ← (if named node (str "version") then
          v ← getTrimmedXmlNodeContentsAsString node; Ok (mkFirmware v (fw_filenames fw) (fw_checksum fw) (fw_type fw))
        else if named node (str "filename") then
          f ← getTrimmedXmlNodeContentsAsString node;
          Ok (mkFirmware (fw_version fw) (Some (default [] (fw_filenames fw) ++ [f])) (fw_checksum fw) (fw_type fw))
        else if named node (str "type") then
          t ← of_option (getXmlNodeContentsAsString (Some node) None);
          Ok (mkFirmware (fw_version fw) (fw_filenames fw) (fw_checksum fw)
                (if decide (strcasecmp t (str "ota") = 0) then DEVICE_FIRMWARE_TYPE_ZIGBEE_OTA
                 else if decide (strcasecmp t (str "legacy") = 0) then DEVICE_FIRMWARE_TYPE_ZIGBEE_LEGACY else fw_type fw))
        else Ok fw);
  Ok (mkFirmware (fw_version fw) (fw_filenames fw) (getXmlNodeAttributeAsString (Some node) (str "checksum") None) (fw_type fw)).

Definition is_camera dd : bool := bool_decide (deviceDescriptorType dd = DEVICE_DESCRIPTOR_TYPE_CAMERA).

Definition base_child node dd : outcome DeviceDescriptor :=
  let contents := getXmlNodeContentsAsString (Some node) None in
  if named node (str "uuid") then Ok (with_uuid dd contents)
  else if named node (str "description") then Ok (with_description dd contents)
  else if named node (str "manufacturer") then Ok (with_manufacturer dd contents)
  else if named node (str "model") then Ok (with_model dd contents)
  else if named node (str "hardwareVersions") then
    l ← (if is_camera dd then parseDeviceVersionList node no_versions else parseZigbeeDeviceVersion node true);
    Ok (with_hardware dd (Some l))
  else if named node (str "firmwareVersions") then
    l ← (if is_camera dd then parseDeviceVersionList node no_versions else parseZigbeeDeviceVersion node false);
    Ok (with_firmware dd (Some l))
  else if named node (str "minSupportedFirmwareVersion") then Ok (with_minimum dd contents)
  else if named node (str "metadataList") then m ← parseMetadataList node (Some km_create); Ok (with_metadata dd m)
  else if named node (str "latestFirmware") then
    fw ← foldM firmware_child (xml_children node)
           (mkFirmware None None None (if is_camera dd then DEVICE_FIRMWARE_TYPE_CAMERA else DEVICE_FIRMWARE_TYPE_UNKNOWN));
    Ok (with_latest dd (Some fw))
  else Ok dd.

(** It always returns true. *)
Definition parseDescriptorBase node dd : outcome DeviceDescriptor := foldM base_child (Xml.elems node) dd.

(** A number of the motion settings. *)
Definition set_number node (n : cstring) (old : Z) : Z :=
  if named node n then match getXmlNodeContentsAsString (Some node) None with Some t => atoi t | None => old end else old.

(** The names are distinct, so that at most one number changes. *)
Definition set_levels node (l : Z * Z * Z) : Z * Z * Z :=
  let '(low, medium, high) := l in
  (set_number node (str "low") low, set_number node (str "med") medium, set_number node (str "high") high).

Definition set_region node (r : Z * Z * Z * Z * Z * Z) : Z * Z * Z * Z * Z * Z :=
  let '(width, height, bottom, top, leftCoord, rightCoord) := r in
  (set_number node (str "width") width, set_number node (str "height") height, set_number node (str "bottomCoord") bottom,
   set_number node (str "topCoord") top, set_number node (str "leftCoord") leftCoord, set_number node (str "rightCoord") rightCoord).

Definition motion_child (m : CameraMotionSettings) node : CameraMotionSettings :=
  if named node (str "enabled") then
    mkMotion (bool_decide (getXmlNodeContentsAsString (Some node) (Some (str "false")) = Some (str "true")))
      (mo_sensitivity m) (mo_detectionThreshold m) (mo_regionOfInterest m)
  else if named node (str "sensitivityLevel") then
    mkMotion (mo_enabled m) (foldl (λ l n, set_levels n l) (mo_sensitivity m) (Xml.elems node)) (mo_detectionThreshold m) (mo_regionOfInterest m)
  else if named node (str "detectionThreshold") then
    mkMotion (mo_enabled m) (mo_sensitivity m) (foldl (λ l n, set_levels n l) (mo_detectionThreshold m) (Xml.elems node)) (mo_regionOfInterest m)
  else if named node (str "regionOfInterest") then
    mkMotion (mo_enabled m) (mo_sensitivity m) (mo_detectionThreshold m) (foldl (λ r n, set_region n r) (mo_regionOfInterest m) (Xml.elems node))
  else m.

Definition parseCameraMotionNode node (m : CameraMotionSettings) : CameraMotionSettings := foldl motion_child m (Xml.elems node).

Definition camera_child (c : camera_part) node : camera_part :=
  if named node (str "protocol") then
    match getXmlNodeContentsAsString (Some node) None with
    | Some protocol =>
        mkCamera (if decide (strcmp protocol (str "legacy") = 0) then CAMERA_PROTOCOL_LEGACY
                  else if decide (strcmp protocol (str "openHome") = 0) then CAMERA_PROTOCOL_OPENHOME else CAMERA_PROTOCOL_UNKNOWN) (cam_motion c)
    | None => c
    end
  else if named node (str "motion") then mkCamera (cam_protocol c) (parseCameraMotionNode node (cam_motion c))
  else c.

(** It always returns true. *)
Definition parseCameraDescriptor node dd : DeviceDescriptor := with_camera dd (foldl camera_child (dd_camera dd) (Xml.elems node)).

(** currNode->children->content: an element has none. *)
Definition blacklist_child node (m : option VM) : outcome (option VM) :=
  if named node (str "uuid") then
    match xml_children node with
    | [] => Ok m
    | c :: _ =>
        uuid ← of_option (if xml_element c then None else xmlNodeGetContent c);
        '(_, m) ← map_put m uuid None; Ok m
    end
  else Ok m.

Definition getBlacklistedUuids (file : option xml_file) : outcome (option VM) :=
  match file ≫= xmlParse with
  | None => Ok None
  | Some topNode => foldM blacklist_child (Xml.elems topNode) (Some km_create)
  end.

(** The descriptor of a child of the root. *)
Definition descriptor_node node : outcome (option DeviceDescriptor) :=
  if named node (str "CameraDeviceDescriptor") then
    dd ← parseDescriptorBase node (fresh_descriptor DEVICE_DESCRIPTOR_TYPE_CAMERA); Ok (Some (parseCameraDescriptor node dd))
  else if named node (str "DeviceDescriptor") then
    dd ← parseDescriptorBase node (fresh_descriptor DEVICE_DESCRIPTOR_TYPE_ZIGBEE); Ok (Some dd)
  else Ok None.

(** stringHashMapContains reads the uuid. *)
Definition is_blacklisted (blacklistedUuids : option VM) dd : outcome bool :=
  match blacklistedUuids with
  | Some m => uuid ← of_option (dd_uuid dd); km_contains m (zkey uuid)
  | None => Ok false
  end.

Definition add_descriptor (blacklistedUuids : option VM) node (l : list DeviceDescriptor) : outcome (list DeviceDescriptor) :=
  dd ← descriptor_node node;
  match dd with
  | Some dd => black ← is_blacklisted blacklistedUuids dd; Ok (if black : bool then l else l ++ [dd])
  | None => Ok l
  end.

Definition parseDeviceDescriptors (whitelist blacklist : option xml_file) : outcome (option (list DeviceDescriptor)) :=
  match whitelist ≫= xmlParse with
  | None => Ok None
  | Some topNode =>
      blacklistedUuids ← getBlacklistedUuids blacklist;
      l ← foldM (add_descriptor blacklistedUuids) (Xml.elems topNode) [];
      Ok (Some l)
  end.

(** ** deviceDescriptors.c *)

(** The paths are set ([paths], with what the files hold), and the parsed list. *)
Record descriptors := mkDescriptors {
  paths : option (option xml_file * option xml_file);
  deviceDescriptors : option (list DeviceDescriptor)
}.

Definition versionInRange (versionInput : option cstring) (allowedVersions : option DeviceVersionList) : bool :=
  match allowedVersions with
  | None => false
  | Some l =>
      match vl_list l with
      | DEVICE_VERSION_LIST_TYPE_WILDCARD => true
      | DEVICE_VERSION_LIST_TYPE_LIST (Some vs) =>
          existsb (λ v, bool_decide (is_Some v) && bool_decide (stringCompare v versionInput true = 0)) vs
      | DEVICE_VERSION_LIST_TYPE_RANGE (Some from) (Some to) =>
          bool_decide (0 ≤ stringCompare versionInput (Some from) true) && bool_decide (stringCompare versionInput (Some to) true ≤ 0)
      | _ => false
      end
  end.

(** strcmp reads the manufacturer and, if that is equal, the model. *)
Definition matches (manufacturer model : cstring) (hardwareVersion firmwareVersion : option cstring) dd : outcome bool :=
  ma ← of_option (dd_manufacturer dd);
  if decide (strcmp manufacturer ma = 0) then
    mo ← of_option (dd_model dd);
    Ok (bool_decide (strcmp model mo = 0) && versionInRange hardwareVersion (dd_hardwareVersions dd)
          && versionInRange firmwareVersion (dd_firmwareVersions dd))
  else Ok false.

Fixpoint find_match (manufacturer model : cstring) (hardwareVersion firmwareVersion : option cstring) (l : list DeviceDescriptor)
    : outcome (option DeviceDescriptor) :=
  match l with
  | [] => Ok None
  | dd :: l =>
      b ← matches manufacturer model hardwareVersion firmwareVersion dd;
      if b : bool then dd ← deviceDescriptorClone dd; Ok (Some dd)
      else find_match manufacturer model hardwareVersion firmwareVersion l
  end.

Definition parseFiles (s : descriptors) : outcome descriptors :=
  match paths s with
  | None => Ok s
  | Some (wl, bl) => l ← parseDeviceDescriptors wl bl; Ok (mkDescriptors (paths s) l)
  end.

Definition deviceDescriptorsGet (manufacturer model hardwareVersion firmwareVersion : option cstring) (s : descriptors)
    : outcome (option DeviceDescriptor * descriptors) :=
  match manufacturer, model with
  | Some ma, Some mo =>
      s ← match deviceDescriptors s with None => parseFiles s | Some _ => Ok s end;
      match deviceDescriptors s with
      | Some l => dd ← find_match ma mo hardwareVersion firmwareVersion l; Ok (dd, s)
      | None => Ok (None, s)
      end
  | _, _ => Ok (None, s)
  end.

Definition deviceDescriptorsCleanup (s : descriptors) : descriptors := mkDescriptors (paths s) None.

Definition checkWhiteListValid (file : option xml_file) : outcome bool :=
  l ← parseDeviceDescriptors file None; Ok (bool_decide (is_Some l)).

Definition checkBlackListValid (file : option xml_file) : outcome bool :=
  m ← getBlacklistedUuids file; Ok (bool_decide (is_Some m)).

End Code.

Arguments DeviceDescriptor : clear implicits.
Arguments descriptors VM xml {_} : assert.

End DeviceDescriptors.
