(* ===== verification/DeviceDescriptorsTheorems.v ===== *)
(** * Theorems about device descriptors *)

From S2P Require Import Prelude KeyMap OwnedMap StringUtils StringUtilsTheorems StringNumbers XmlHelper DeviceModel JsonDatabase JsonDatabaseSpec JsonDatabaseInstance.
From S2P Require Import StringKeyed Versions DeviceDescriptors DeviceDb DeviceUris DeviceBuild DeviceService DeviceServiceSpec DevicePairing DevicePairingSpec.
From S2P Require Import DeviceTheorems JsonDatabaseTheorems DeviceServiceTheorems DevicePairingTheorems.
Import KeyMap OwnedMap StringUtils StringTheorems StringNumbers Xml DeviceModel JsonDatabase JsonDatabaseSpec JsonDatabaseInstance.
Import StringKeyed Versions DeviceDescriptors DeviceDb DeviceUris DeviceBuild DeviceService DeviceServiceSpec DevicePairing DevicePairingSpec.
Import DeviceTheorems JsonDatabaseTheorems DeviceServiceTheorems DevicePairingTheorems.

Module DeviceDescriptorsTheorems.

(** ** Looking for a descriptor *)

(** A version is acceptable to a list of versions. *)
Definition accepts (versions : option DeviceVersionList) (v : option cstring) : Prop :=
  match vl_list <$> versions with
  | Some DEVICE_VERSION_LIST_TYPE_WILDCARD => True
  | Some (DEVICE_VERSION_LIST_TYPE_LIST (Some vs)) => ∃ x, Some x ∈ vs ∧ stringToLowerCase (Some x) = stringToLowerCase v
  | Some (DEVICE_VERSION_LIST_TYPE_RANGE (Some a) (Some b)) => 0 ≤ stringCompare v (Some a) true ∧ stringCompare v (Some b) true ≤ 0
  | _ => False
  end.

Definition texts_ok (versions : option DeviceVersionList) : Prop :=
  ∀ vs, vl_list <$> versions = Some (DEVICE_VERSION_LIST_TYPE_LIST vs) → ∃ l, vs = Some l ∧ ∀ x, Some x ∈ l → no_nul x.

Lemma versionInRange_spec versions v : texts_ok versions → id_ok v → versionInRange v versions = true ↔ accepts versions v.
Proof.
  intros Ht Hv. unfold versionInRange, accepts. destruct versions as [[f set]|]; cbn; [|done]. destruct set as [|vs| |a b]; [done| |done|].
  - destruct (Ht vs eq_refl) as (l & -> & Hl). rewrite existsb_exists. split.
    + intros (x & Hx%list_elem_of_In & [Hs He]%andb_prop). apply bool_decide_eq_true in Hs as [y ->]. apply bool_decide_eq_true in He. exists y. split; [done|].
      apply (stringCompare_spec (Some y) v true); [intros ? [= <-]; by apply Hl|by apply Hv|done].
    + intros (y & Hy & He). exists (Some y). split; [by apply list_elem_of_In|]. apply andb_true_intro. split; apply bool_decide_eq_true; [by eexists|].
      apply (stringCompare_spec (Some y) v true); [intros ? [= <-]; by apply Hl|by apply Hv|done].
  - destruct a as [a|], b as [b|]; try done. rewrite andb_true_iff, !bool_decide_eq_true. done.
Qed.

Section Lookup.
Context {VM : Type} `{KeyMapLaws VM (option cstring)}.
Context {xml : Type} `{LibXml xml}.
Abbreviation descriptor := (DeviceDescriptor VM).
Implicit Types (dd : descriptor) (l : list descriptor).

(** A descriptor with the fields the search reads. *)
Record complete dd : Prop := {
  co_manufacturer : ∃ x, dd_manufacturer dd = Some x ∧ no_nul x;
  co_model : ∃ x, dd_model dd = Some x ∧ no_nul x;
  co_hardware : texts_ok (dd_hardwareVersions dd);
  co_firmware : texts_ok (dd_firmwareVersions dd);
  co_camera : deviceDescriptorType dd ≠ DEVICE_DESCRIPTOR_TYPE_CAMERA → dd_camera dd = mkCamera CAMERA_PROTOCOL_UNKNOWN no_motion
}.

(** The descriptor describes a device. *)
Definition describes (ma mo : cstring) (hw fw : option cstring) dd : Prop :=
  dd_manufacturer dd = Some ma ∧ dd_model dd = Some mo ∧ accepts (dd_hardwareVersions dd) hw ∧ accepts (dd_firmwareVersions dd) fw.

Lemma clone_versions versions : texts_ok versions → cloneDeviceVersionList versions = Ok versions.
Proof.
  intros Ht. destruct versions as [[f set]|]; [|done]. unfold cloneDeviceVersionList. cbn [vl_list vl_format]. rewrite strdup_id.
  destruct set as [|vs| |a b]; [done| |done|by rewrite !strdup_id]. destruct (Ht vs eq_refl) as (l & -> & _). cbn. do 5 f_equal.
  rewrite <-(map_id l) at 2. apply map_ext. apply strdup_id.
Qed.

Lemma clone_same dd : complete dd → deviceDescriptorClone dd = Ok dd.
Proof.
  intros [_ _ Hh Hf Hc]. unfold deviceDescriptorClone. rewrite (clone_versions _ Hh), (clone_versions _ Hf). obind. rewrite !strdup_id.
  assert (match dd_latestFirmware dd with Some x => y ← clone_firmware x; Ok (Some y) | None => Ok None end = Ok (dd_latestFirmware dd)) as ->.
  { destruct (dd_latestFirmware dd) as [[v names c t]|]; [|done]. unfold clone_firmware. cbn. rewrite !strdup_id. destruct names as [names|]; [|done]. cbn.
    do 4 f_equal. rewrite <-(map_id names) at 2. apply map_ext. apply strdup_id. }
  obind. f_equal. destruct dd as [t u de ma mo hw fw mi me la ca]. cbn in *. f_equal. case_decide as E; [done|]. symmetry. by apply Hc.
Qed.

Lemma matches_spec ma mo hw fw dd : no_nul ma → no_nul mo → id_ok hw → id_ok fw → complete dd →
  ∃ b, matches ma mo hw fw dd = Ok b ∧ (b = true ↔ describes ma mo hw fw dd).
Proof.
  intros Hma Hmo Hhw Hfw [(x & Hx & Hnx) (y & Hy & Hny) Hh Hf _]. unfold matches, describes. rewrite Hx, Hy. oread.
  pose proof (strcmp_eq ma x Hma Hnx) as Hcx. case_decide as E.
  - apply Hcx in E as <-. eexists. split; [done|]. rewrite !andb_true_iff, bool_decide_eq_true, (strcmp_eq mo y), !versionInRange_spec by done. naive_solver.
  - exists false. split; [done|]. split; [done|]. intros ([= ->] & _). by destruct E; apply Hcx.
Qed.

(** The descriptors a search goes through: those parsed before, or those the
    files hold; none when there is no list. *)
Definition searched fill (s s' : descriptors VM xml) l : Prop :=
  match deviceDescriptors s with None => parseFiles fill s | Some _ => Ok s end = Ok s' ∧ default [] (deviceDescriptors s') = l.

(** The first descriptor of the list that describes the device, if any. *)
Definition first_match (ma mo : cstring) (hw fw : option cstring) l (o : option descriptor) : Prop :=
  match o with
  | Some dd => ∃ l1 l2, l = l1 ++ dd :: l2 ∧ describes ma mo hw fw dd ∧ Forall (λ x, ¬ describes ma mo hw fw x) l1
  | None => Forall (λ x, ¬ describes ma mo hw fw x) l
  end.

Lemma get_first_match ma mo hw fw fill (s s' : descriptors VM xml) l : no_nul ma → no_nul mo → id_ok hw → id_ok fw →
  searched fill s s' l → Forall complete l →
  ∃ o, deviceDescriptorsGet fill (Some ma) (Some mo) hw fw s = Ok (o, s') ∧ first_match ma mo hw fw l o.
Proof.
  intros Hma Hmo Hhw Hfw [Hs Hd] Hl. unfold deviceDescriptorsGet. rewrite Hs. obind.
  assert (∃ o, find_match ma mo hw fw l = Ok o ∧ first_match ma mo hw fw l o) as (o & Ho & Hf).
  2: { exists o. destruct (deviceDescriptors s') as [l'|]; cbn in Hd; subst l; [by rewrite Ho|]. by injection Ho as <-. }
  clear Hs Hd.
  induction Hl as [|dd l Hdd Hl IH]; cbn [find_match]; [exists None; split; [done|constructor]|].
  destruct (matches_spec ma mo hw fw dd Hma Hmo Hhw Hfw Hdd) as ([] & -> & Hb); obind.
  - rewrite (clone_same dd Hdd). obind. exists (Some dd). split; [done|]. exists [], l. split; [done|]. split; [by apply Hb|constructor].
  - assert (Hn : ¬ describes ma mo hw fw dd) by (intros Hd%Hb; done). destruct IH as (o & -> & Ho). exists o. split; [done|].
    destruct o as [x|]; [|by constructor]. destruct Ho as (l1 & l2 & -> & Hx & H12). exists (dd :: l1), l2. split; [done|]. split; [done|]. by constructor.
Qed.
(** C21: the search finds the descriptor of a device: over a list of
    descriptors that have a manufacturer and a model, deviceDescriptorsGet
    returns a copy of the first one that has the device's manufacturer and
    model and accepts its hardware and firmware version (any, one of a list up
    to ASCII case, or within a range of strings), and NULL when there is none;
    the list is not changed. *)
Theorem deviceDescriptorsGet_first_match ma mo hw fw fill (s : descriptors VM xml) l : no_nul ma → no_nul mo → id_ok hw → id_ok fw →
  deviceDescriptors s = Some l → Forall complete l →
  ∃ o, deviceDescriptorsGet fill (Some ma) (Some mo) hw fw s = Ok (o, s) ∧
    match o with
    | Some dd => ∃ l1 l2, l = l1 ++ dd :: l2 ∧ describes ma mo hw fw dd ∧ Forall (λ x, ¬ describes ma mo hw fw x) l1
    | None => Forall (λ x, ¬ describes ma mo hw fw x) l
    end.
Proof. intros Hma Hmo Hhw Hfw Hs. apply get_first_match; try done. split; by rewrite Hs. Qed.

End Lookup.
(** ** Parsing *)

(** A decimal number has neither blanks nor a NUL. *)
Lemma decimal_trim fill n : 0 ≤ n < 10 ^ 20 → trimString fill (Some (decimal n)) = Ok (decimal n).
Proof.
  intros Hn. destruct (dec_digits_spec 20 n) as (Hd & _); [done|lia|].
  assert (Hall : Forall (λ c, isspace c = false ∧ c ≠ NUL) (decimal n)).
  { unfold decimal. apply Forall_fmap. eapply Forall_impl; [exact Hd|]. intros d Hdd. destruct (digit_char_plain d Hdd) as (? & _ & _ & ? & _). done. }
  assert (Hskip : ∀ t, Forall (λ c, isspace c = false ∧ c ≠ NUL) t → skip_space t = t) by (intros [|c t] Ht; [done|]; cbn; by destruct (Forall_inv Ht) as [-> _]).
  rewrite trimString_strip.
  - unfold strip, rstrip. rewrite (Hskip _ Hall), Hskip by (by apply Forall_reverse). by rewrite reverse_involutive.
  - intros Hin. rewrite Forall_forall in Hall. by destruct (Hall _ Hin).
Qed.

(** The versions of a Zigbee descriptor: the decimal text of a hardware
    version, the trimmed text of a firmware version. *)
Definition zigbee_version (forceDecimal : bool) (t : cstring) : cstring :=
  if forceDecimal then decimal (u32 (i32 (fst (fst (strtoll t 0))))) else map tolower (strip t).

Definition zigbee_versions (forceDecimal : bool) (text : cstring) : version_set :=
  if bool_decide (head text = Some "*"%char) then DEVICE_VERSION_LIST_TYPE_WILDCARD
  else if bool_decide (","%char ∈ text) then
    DEVICE_VERSION_LIST_TYPE_LIST (Some ((λ t, Some (zigbee_version forceDecimal t)) <$> separated ","%char text []))
  else if bool_decide ("-"%char ∈ text) then
    DEVICE_VERSION_LIST_TYPE_RANGE (zigbee_version forceDecimal <$> separated "-"%char text [] !! 0%nat)
      (zigbee_version forceDecimal <$> separated "-"%char text [] !! 1%nat)
  else DEVICE_VERSION_LIST_TYPE_LIST (Some [Some (if forceDecimal then zigbee_version true text else strip text)]).

Lemma strchr_in s c : is_Some (strchr s c) ↔ c ∈ s.
Proof.
  induction s as [|b s IH]; cbn [strchr].
  - split; [by intros [? ?]|by intros ?%elem_of_nil].
  - case_decide as E; [subst; split; [by left|eauto]|]. rewrite fmap_is_Some, IH, elem_of_cons. naive_solver.
Qed.

Lemma separated_no_nul c s acc x : no_nul s → no_nul acc → x ∈ separated c s acc → no_nul x.
Proof.
  revert acc. induction s as [|b s IH]; intros acc Hs Ha; cbn [separated]; [by intros ->%list_elem_of_singleton|].
  unfold no_nul in Hs. apply not_elem_of_cons in Hs as [Hb Hs]. case_decide.
  - intros [->|Hx]%elem_of_cons; [done|]. eapply IH; [done|apply not_elem_of_nil|done].
  - apply IH; [done|]. apply no_nul_app; [done|]. by intros ?%list_elem_of_singleton.
Qed.

Lemma separated_two c s acc : c ∈ s → ∃ a b l, separated c s acc = a :: b :: l.
Proof.
  assert (Hne : ∀ t a, ∃ x l, separated c t a = x :: l).
  { induction t as [|b t IH]; intros a; cbn [separated]; [eauto|]. case_decide; [eauto|apply IH]. }
  revert acc. induction s as [|b s IH]; intros acc; [by intros ?%elem_of_nil|]. cbn [separated]. case_decide as E.
  - intros _. destruct (Hne s []) as (x & l & ->). eauto.
  - intros [->|Hc]%elem_of_cons; [done|by apply IH].
Qed.

Lemma u32_digits n : 0 ≤ u32 n < 10 ^ 20.
Proof. pose proof (u32_bounds n). lia. Qed.

Lemma version_text_total fill force t : no_nul t → version_text fill force t = Ok (Some (zigbee_version force t)).
Proof.
  intros Ht. unfold version_text, versionStringToDecimalString, zigbee_version. destruct force.
  - by rewrite decimal_trim by apply u32_digits.
  - by rewrite trimString_strip by done.
Qed.

Lemma zigbee_read {xml} `{LibXml xml} fill (n : xml) force t : xmlNodeGetContent n = Some t → no_nul t →
  parseZigbeeDeviceVersion fill n force = Ok (mkVersionList (Some (str "Zigbee")) (zigbee_versions force t)).
Proof.
  intros Hc Ht. unfold parseZigbeeDeviceVersion, getXmlNodeContentsAsString, zigbee_versions. rewrite Hc. oread.
  destruct (bool_decide (head t = Some "*"%char)); [done|]. case_decide as Ec; rewrite strchr_in in Ec.
  { rewrite bool_decide_eq_true_2 by done.
    assert (mapO (version_text fill force) (separated ","%char t []) = Ok ((λ t, Some (zigbee_version force t)) <$> separated ","%char t [])) as ->; [|done].
    apply mapO_Ok, Forall2_fmap_r, Forall_Forall2_diag, Forall_forall. intros x Hx. apply version_text_total. eapply separated_no_nul; [exact Ht|apply not_elem_of_nil|exact Hx]. }
  rewrite bool_decide_eq_false_2 by done. case_decide as Em; rewrite strchr_in in Em.
  { rewrite bool_decide_eq_true_2 by done. destruct (separated_two "-"%char t [] Em) as (a & b & l & He).
    assert (no_nul a ∧ no_nul b) as [Ha Hb].
    { split; (eapply separated_no_nul; [exact Ht|apply not_elem_of_nil|rewrite He]); [by left|right; by left]. }
    rewrite He, !version_text_total by done. done. }
  rewrite bool_decide_eq_false_2 by done. unfold versionStringToDecimalString. destruct force; [by rewrite decimal_trim by apply u32_digits|by rewrite trimString_strip].
Qed.

Section Parse.
Context {VM : Type} `{KeyMapLaws VM (option cstring)}.
Context {xml : Type} `{LibXml xml}.
Variable fill : nat → byte.
Abbreviation descriptor := (DeviceDescriptor VM).
Implicit Types (dd : descriptor) (node n c : xml) (nodes : list xml) (v : gmap cstring (option cstring)).

(** *** Maps filled from a document: the first value of a key is kept *)

Definition put_first (k : cstring) (x : option cstring) v : gmap cstring (option cstring) :=
  match v !! k with Some _ => v | None => <[k := x]> v end.

Lemma put_first_put (m : option VM) v k x : holds m v → key_ok (zkey k) → Z.of_nat (size v) < 65535 →
  ∃ b m', map_put m k x = Ok (b, m') ∧ holds m' (put_first k x v) ∧ (size (put_first k x v) ≤ S (size v))%nat.
Proof.
  intros Hm Hk Hz. unfold put_first. destruct (v !! k) as [y|] eqn:E.
  - exists false, m. rewrite (holds_put_old _ _ _ _ _ Hm Hk E). split; [done|]. split; [done|lia].
  - destruct (holds_put_new m v k x Hm Hk E Hz) as (m' & Hp & Hh). exists true, m'. split; [done|]. split; [done|]. by rewrite map_size_insert, E.
Qed.

Lemma put_first_in k x v u : is_Some (put_first k x v !! u) ↔ u = k ∨ is_Some (v !! u).
Proof.
  unfold put_first. destruct (v !! k) as [y|] eqn:E.
  - split; [by right|]. intros [->|?]; [by rewrite E|done].
  - destruct (decide (u = k)) as [->|Hne]; [rewrite lookup_insert_eq; naive_solver|]. rewrite lookup_insert_ne by done. naive_solver.
Qed.

(** *** The black list *)

(** The text that a uuid element of the black list starts with. *)
Definition black_uuid c : option cstring := if named c (str "uuid") then head (xml_children c) ≫= xmlNodeGetContent else None.
Definition black_uuids (top : xml) : list cstring := omap black_uuid (Xml.elems top).

(** Every uuid element is empty or starts with a text. *)
Definition black_ok (top : xml) : Prop :=
  zlen (Xml.elems top) ≤ 65535 ∧
  ∀ c t, c ∈ Xml.elems top → named c (str "uuid") = true → head (xml_children c) = Some t →
    xml_element t = false ∧ ∃ u, xmlNodeGetContent t = Some u ∧ key_ok (zkey u).

Lemma blacklist_child_read c (m : option VM) v : holds m v → Z.of_nat (size v) < 65535 →
  (∀ t, named c (str "uuid") = true → head (xml_children c) = Some t → xml_element t = false ∧ ∃ u, xmlNodeGetContent t = Some u ∧ key_ok (zkey u)) →
  ∃ m' v', blacklist_child c m = Ok m' ∧ holds m' v' ∧ (size v' ≤ S (size v))%nat ∧ ∀ u, is_Some (v' !! u) ↔ is_Some (v !! u) ∨ black_uuid c = Some u.
Proof.
  intros Hm Hz Hok. assert (Hsame : black_uuid c = None → blacklist_child c m = Ok m →
    ∃ m' v', blacklist_child c m = Ok m' ∧ holds m' v' ∧ (size v' ≤ S (size v))%nat ∧ ∀ u, is_Some (v' !! u) ↔ is_Some (v !! u) ∨ black_uuid c = Some u).
  { intros Hn Hc. exists m, v. rewrite Hn. split; [done|]. split; [done|]. split; [lia|]. naive_solver. }
  unfold black_uuid, blacklist_child in *. destruct (named c (str "uuid")); [|by apply Hsame].
  destruct (xml_children c) as [|t ts]; [by apply Hsame|]. clear Hsame. cbn [head mbind option_bind]. destruct (Hok t) as (-> & u & -> & Hk); [done|done|]. oread.
  destruct (put_first_put m v u None Hm Hk Hz) as (b & m1 & -> & Hm1 & Hs). exists m1, (put_first u None v). split; [done|]. split; [done|]. split; [done|].
  intros x. rewrite put_first_in. naive_solver.
Qed.

Lemma blacklist_fold nodes (m : option VM) v : holds m v → Z.of_nat (size v + length nodes) ≤ 65535 →
  (∀ c t, c ∈ nodes → named c (str "uuid") = true → head (xml_children c) = Some t →
     xml_element t = false ∧ ∃ u, xmlNodeGetContent t = Some u ∧ key_ok (zkey u)) →
  ∃ m' v', foldM blacklist_child nodes m = Ok m' ∧ holds m' v' ∧ ∀ u, is_Some (v' !! u) ↔ is_Some (v !! u) ∨ u ∈ omap black_uuid nodes.
Proof.
  revert m v. induction nodes as [|c nodes IH]; intros m v Hm Hz Hok; cbn [foldM].
  - exists m, v. split; [done|]. split; [done|]. intros u. split; [by left|]. by intros [?|?%elem_of_nil].
  - cbn [length] in Hz. destruct (blacklist_child_read c m v Hm) as (m1 & v1 & -> & Hm1 & Hs & Hv1); [lia|intros t; apply Hok; by left|]. obind.
    destruct (IH m1 v1 Hm1) as (m' & v' & Hf & Hh & Hv); [lia|intros c' t Hc'; apply Hok; by right|]. exists m', v'. split; [done|]. split; [done|].
    intros u. rewrite Hv, Hv1. cbn [omap list_omap]. destruct (black_uuid c); [rewrite elem_of_cons|]; naive_solver.
Qed.

Lemma blacklist_read (bl : xml_file) top : xmlParse bl = Some top → black_ok top →
  ∃ (m : option VM) v, getBlacklistedUuids (Some bl) = Ok m ∧ holds m v ∧ ∀ u, is_Some (v !! u) ↔ u ∈ black_uuids top.
Proof.
  intros Hp [Hz Hok]. unfold getBlacklistedUuids. cbn [mbind option_bind]. rewrite Hp.
  destruct (blacklist_fold (Xml.elems top) (Some km_create) ∅ created_holds) as (m & v & Hf & Hh & Hv); [by rewrite map_size_empty|done|].
  exists m, v. split; [done|]. split; [done|]. intros u. rewrite Hv, lookup_empty. split; [by intros [[? ?]|?]|by right].
Qed.

(** *** One descriptor *)

Lemma named_inj c a b : named c a = true → named c b = true → no_nul a → no_nul b → a = b.
Proof.
  unfold named, strcmp. rewrite !bool_decide_eq_true. generalize (xml_name c) as x. intros x.
  assert (Hz : ∀ y : byte, byteZ y = 0 → y = NUL) by (intros y Hy; by apply byteZ_inj).
  revert a b. induction x as [|z x IH]; intros [|p a] [|q b] Ha Hb Hna Hnb; try done; cbn [cmp_by id] in *; unfold no_nul in *;
    rewrite ?not_elem_of_cons in Hna; rewrite ?not_elem_of_cons in Hnb; unfold id in *.
  - destruct Hnb as [Hq _]. exfalso. apply Hq. symmetry. apply Hz. lia.
  - destruct Hna as [Hq _]. exfalso. apply Hq. symmetry. apply Hz. lia.
  - destruct Hna as [Hp _]. exfalso. apply Hp. symmetry. apply Hz. lia.
  - destruct Hnb as [Hq _]. exfalso. case_decide as E; [subst; apply Hq; symmetry; by apply Hz|apply E, byteZ_inj; lia].
  - destruct Hna as [Hp _]. exfalso. case_decide as E; [subst; apply Hp; symmetry; by apply Hz|apply E, byteZ_inj; lia].
  - case_decide as E1; [|exfalso; apply E1, byteZ_inj; lia]. case_decide as E2; [|exfalso; apply E2, byteZ_inj; lia].
    subst. f_equal. apply IH; tauto.
Qed.

Lemma only_named c a b : named c a = true → no_nul a → no_nul b → a ≠ b → named c b = false.
Proof. intros Ha Hna Hnb Hne. destruct (named c b) eqn:Hb; [|done]. by destruct Hne; eapply named_inj. Qed.

(** The last of the nodes with a name, and its text. *)
Definition last_named (s : cstring) nodes : option xml := last (filter (λ c, named c s = true) nodes).
Definition text_of (s : cstring) nodes : option cstring := last_named s nodes ≫= xmlNodeGetContent.
Definition trimmed node : option cstring := strip <$> xmlNodeGetContent node.

Lemma last_named_snoc s nodes c : last_named s (nodes ++ [c]) = if named c s then Some c else last_named s nodes.
Proof.
  unfold last_named. rewrite filter_app, filter_cons, filter_nil. destruct (named c s); [by rewrite decide_True, last_snoc|].
  rewrite decide_False by done. by rewrite app_nil_r.
Qed.

Definition readable node : Prop := ∃ t, xmlNodeGetContent node = Some t ∧ no_nul t.

Lemma contents_eq c : getXmlNodeContentsAsString (Some c) None = xmlNodeGetContent c.
Proof. unfold getXmlNodeContentsAsString. by destruct (xmlNodeGetContent c). Qed.

Lemma attribute_eq c a : getXmlNodeAttributeAsString (Some c) a None = xmlGetProp c a.
Proof. unfold getXmlNodeAttributeAsString. by destruct (xmlGetProp c a). Qed.

Lemma trimmed_total c : readable c → getTrimmedXmlNodeContentsAsString fill c = Ok (trimmed c) ∧ is_Some (trimmed c).
Proof.
  intros (t & Ht & Hn). unfold getTrimmedXmlNodeContentsAsString, trimmed. rewrite contents_eq, Ht, trimString_strip by done. cbn. eauto.
Qed.

(** The versions of a camera descriptor: the first element decides. *)
Definition camera_versions c : DeviceVersionList :=
  mkVersionList (xmlGetProp c (str "format"))
    match Xml.elems c with
    | [] => DEVICE_VERSION_LIST_TYPE_UNKNOWN
    | k :: _ =>
        if named k (str "list") then DEVICE_VERSION_LIST_TYPE_LIST (Some (trimmed <$> Xml.elems k))
        else if named k (str "any") then DEVICE_VERSION_LIST_TYPE_WILDCARD
        else if named k (str "range") then
          DEVICE_VERSION_LIST_TYPE_RANGE (last_named (str "from") (Xml.elems k) ≫= trimmed) (last_named (str "to") (Xml.elems k) ≫= trimmed)
        else DEVICE_VERSION_LIST_TYPE_UNKNOWN
    end.

Lemma range_read nodes : Forall readable nodes →
  foldM (range_item fill) nodes (None, None) = Ok (last_named (str "from") nodes ≫= trimmed, last_named (str "to") nodes ≫= trimmed).
Proof.
  induction nodes as [|c nodes IH] using rev_ind; intros Hr; [done|]. apply Forall_app in Hr as [Hr Hc%Forall_inv].
  rewrite foldM_app, IH by done. obind. cbn [foldM]. unfold range_item. destruct (trimmed_total c Hc) as [-> [t Ht]]. obind. rewrite !last_named_snoc, Ht.
  destruct (named c (str "from")) eqn:E; [|by destruct (named c (str "to")); cbn; rewrite ?Ht].
  rewrite (only_named c _ (str "to") E) by (by auto with zilker). cbn. by rewrite Ht.
Qed.

Lemma camera_read c : (∀ g h, g ∈ Xml.elems c → h ∈ Xml.elems g → readable h) → parseDeviceVersionList fill c no_versions = Ok (camera_versions c).
Proof.
  intros Hr. unfold parseDeviceVersionList, camera_versions. rewrite attribute_eq. destruct (Xml.elems c) as [|k ks] eqn:E; [done|].
  assert (Hk : ∀ h, h ∈ Xml.elems k → readable h) by (intros h; apply Hr; by left).
  destruct (named k (str "list")).
  - assert (mapO (getTrimmedXmlNodeContentsAsString fill) (Xml.elems k) = Ok (trimmed <$> Xml.elems k)) as ->; [|done].
    apply mapO_Ok, Forall2_fmap_r, Forall_Forall2_diag, Forall_forall. intros h Hh. by apply trimmed_total, Hk.
  - destruct (named k (str "any")); [done|]. destruct (named k (str "range")); [|done]. rewrite range_read by (by apply Forall_forall). done.
Qed.

(** The metadata of a list: the first value of a name is kept. *)
Definition put_metadata v (g : xml) : gmap cstring (option cstring) :=
  match xmlGetProp g (str "name"), xmlGetProp g (str "value") with
  | Some name, Some value => if named g (str "metadata") then put_first name (Some value) v else v
  | _, _ => v
  end.
Definition metadata_map c : gmap cstring (option cstring) := foldl put_metadata ∅ (Xml.elems c).

Lemma metadata_read c : zlen (Xml.elems c) ≤ 65535 → (∀ g name, g ∈ Xml.elems c → xmlGetProp g (str "name") = Some name → key_ok (zkey name)) →
  ∃ m : option VM, parseMetadataList c (Some km_create) = Ok m ∧ holds m (metadata_map c).
Proof.
  intros Hz Hk. unfold parseMetadataList, metadata_map.
  assert (∃ m : option VM, foldM metadata_item (Xml.elems c) (Some km_create) = Ok m ∧
    holds m (foldl put_metadata ∅ (Xml.elems c)) ∧ (size (foldl put_metadata ∅ (Xml.elems c)) ≤ length (Xml.elems c))%nat) as (m & Hf & Hh & _); [|eauto].
  revert Hz Hk. induction (Xml.elems c) as [|g gs IH] using rev_ind; intros Hz Hk; [exists (Some km_create); split; [done|]; split; [apply created_holds|done]|].
  rewrite length_app in Hz. cbn [length] in Hz. destruct IH as (m & Hf & Hh & Hs); [lia|intros g' n' Hg'; apply Hk; apply elem_of_app; by left|].
  rewrite foldM_app, Hf. obind. rewrite foldl_snoc, length_app. cbn [length foldM]. set (v := foldl _ _ gs) in *. unfold metadata_item, put_metadata. rewrite !attribute_eq.
  assert (Hsame : ∃ m0 : option VM, Ok m = Ok m0 ∧ holds m0 v ∧ (size v ≤ length gs + 1)%nat) by (exists m; split; [done|]; split; [done|lia]).
  destruct (xmlGetProp g (str "name")) as [name|] eqn:En; [|by destruct (named g (str "metadata")); obind].
  destruct (xmlGetProp g (str "value")) as [value|]; [|by destruct (named g (str "metadata")); obind].
  destruct (named g (str "metadata")); [|by obind]. destruct (put_first_put m v name (Some value) Hh) as (b & m' & -> & Hm' & Hs').
  - eapply Hk; [apply elem_of_app; right; by left|done].
  - lia.
  - obind. exists m'. split; [done|]. split; [done|lia].
Qed.

(** The firmware image: the last version, all the file names, and the
    checksum attribute of the last child. *)
Definition firmware_type (t : DeviceFirmwareType) c : DeviceFirmwareType :=
  match xmlNodeGetContent c with
  | Some x => if named c (str "type") then
                if decide (strcasecmp x (str "ota") = 0) then DEVICE_FIRMWARE_TYPE_ZIGBEE_OTA
                else if decide (strcasecmp x (str "legacy") = 0) then DEVICE_FIRMWARE_TYPE_ZIGBEE_LEGACY else t
              else t
  | None => t
  end.
Definition firmware_names nodes : list xml := filter (λ c, named c (str "filename") = true) nodes.
Definition firmware_of (t : DeviceFirmwareType) nodes : DeviceFirmware :=
  mkFirmware (last_named (str "version") nodes ≫= trimmed)
    (if decide (firmware_names nodes = []) then None else Some (trimmed <$> firmware_names nodes))
    (last nodes ≫= λ c, xmlGetProp c (str "checksum")) (foldl firmware_type t nodes).

Lemma names_snoc nodes c : firmware_names (nodes ++ [c]) = firmware_names nodes ++ if named c (str "filename") then [c] else [].
Proof.
  unfold firmware_names. rewrite filter_app, filter_cons, filter_nil. destruct (named c (str "filename")); [by rewrite decide_True|by rewrite decide_False].
Qed.

Lemma firmware_type_other t c : named c (str "type") = false → firmware_type t c = t.
Proof. unfold firmware_type. intros ->. by destruct (xmlNodeGetContent c). Qed.

Lemma firmware_read t nodes : Forall readable nodes → foldM (firmware_child fill) nodes (mkFirmware None None None t) = Ok (firmware_of t nodes).
Proof.
  induction nodes as [|c nodes IH] using rev_ind; intros Hr; [done|]. apply Forall_app in Hr as [Hr Hc%Forall_inv].
  rewrite foldM_app, IH by done. obind. cbn [foldM]. destruct (trimmed_total c Hc) as [Ht _]. destruct Hc as (x & Hx & _).
  unfold firmware_child, firmware_of. rewrite attribute_eq, contents_eq, Ht, names_snoc, last_named_snoc, last_snoc, foldl_snoc.
  cbn [mbind option_bind fw_version fw_filenames fw_checksum fw_type].
  destruct (named c (str "version")) eqn:Ev.
  { rewrite (only_named c _ (str "filename") Ev), firmware_type_other by (try apply (only_named c _ _ Ev); by auto with zilker). obind. by rewrite app_nil_r. }
  destruct (named c (str "filename")) eqn:Ef.
  { rewrite firmware_type_other by (apply (only_named c _ _ Ef); by auto with zilker). obind. cbn. rewrite (decide_False (P := _ ++ [c] = [])) by (by intros [_ ?]%app_nil).
    rewrite fmap_app. case_decide as E; [by rewrite E|done]. }
  rewrite app_nil_r. unfold firmware_type. rewrite Hx. destruct (named c (str "type")); oread; done.
Qed.

(** What the elements below a descriptor node say. *)
Definition versions_of (camera force : bool) (s : cstring) nodes : option DeviceVersionList :=
  c ← last_named s nodes;
  if camera then Some (camera_versions c) else t ← xmlNodeGetContent c; Some (mkVersionList (Some (str "Zigbee")) (zigbee_versions force t)).

Definition metadata_of nodes (o : option VM) : Prop :=
  match last_named (str "metadataList") nodes with Some c => holds o (metadata_map c) | None => o = None end.

Record reads (t : DeviceDescriptorType) (camera : camera_part) nodes dd : Prop := {
  rd_type : deviceDescriptorType dd = t;
  rd_uuid : dd_uuid dd = text_of (str "uuid") nodes;
  rd_description : dd_description dd = text_of (str "description") nodes;
  rd_manufacturer : dd_manufacturer dd = text_of (str "manufacturer") nodes;
  rd_model : dd_model dd = text_of (str "model") nodes;
  rd_hardware : dd_hardwareVersions dd = versions_of (bool_decide (t = DEVICE_DESCRIPTOR_TYPE_CAMERA)) true (str "hardwareVersions") nodes;
  rd_firmware : dd_firmwareVersions dd = versions_of (bool_decide (t = DEVICE_DESCRIPTOR_TYPE_CAMERA)) false (str "firmwareVersions") nodes;
  rd_minimum : dd_minSupportedFirmwareVersion dd = text_of (str "minSupportedFirmwareVersion") nodes;
  rd_metadata : metadata_of nodes (dd_metadata dd);
  rd_latest : dd_latestFirmware dd =
    (λ c, firmware_of (if decide (t = DEVICE_DESCRIPTOR_TYPE_CAMERA) then DEVICE_FIRMWARE_TYPE_CAMERA else DEVICE_FIRMWARE_TYPE_UNKNOWN) (xml_children c))
      <$> last_named (str "latestFirmware") nodes;
  rd_camera : dd_camera dd = camera
}.

(** A child whose text, and that of the nodes below it, can be read. *)
Record child_ok c : Prop := {
  ch_text : readable c;
  ch_below : Forall readable (xml_children c);
  ch_deep : ∀ g h, g ∈ Xml.elems c → h ∈ Xml.elems g → readable h;
  ch_count : named c (str "metadataList") = true → zlen (Xml.elems c) ≤ 65535;
  ch_names : ∀ g name, g ∈ Xml.elems c → xmlGetProp g (str "name") = Some name → key_ok (zkey name)
}.

(** The fields that a child with another name does not touch. *)
Ltac field_read E :=
  unfold with_uuid, with_description, with_manufacturer, with_model, with_hardware, with_firmware, with_minimum, with_metadata, with_latest;
  split; cbn [deviceDescriptorType dd_uuid dd_description dd_manufacturer dd_model dd_hardwareVersions dd_firmwareVersions
              dd_minSupportedFirmwareVersion dd_metadata dd_latestFirmware dd_camera]; try done;
  unfold text_of, versions_of, metadata_of; rewrite last_named_snoc, ?E;
  repeat match goal with |- context [named ?c ?s] => rewrite (only_named c _ s E) by (by auto with zilker) end; try done.

Lemma base_child_read t k nodes c dd : child_ok c → reads t k nodes dd → ∃ dd', base_child fill c dd = Ok dd' ∧ reads t k (nodes ++ [c]) dd'.
Proof.
  intros [(x & Hx & Hn) Hbelow Hdeep Hcount Hnames] [Rt Ru Rd Rma Rmo Rh Rf Rmi Rme Rl Rc]. unfold base_child. rewrite contents_eq.
  assert (Hcam : is_camera dd = bool_decide (t = DEVICE_DESCRIPTOR_TYPE_CAMERA)) by (unfold is_camera; by rewrite Rt). rewrite Hcam.
  assert (Hversions : ∀ force, (if bool_decide (t = DEVICE_DESCRIPTOR_TYPE_CAMERA) then parseDeviceVersionList fill c no_versions else parseZigbeeDeviceVersion fill c force) =
    Ok (if bool_decide (t = DEVICE_DESCRIPTOR_TYPE_CAMERA) then camera_versions c else mkVersionList (Some (str "Zigbee")) (zigbee_versions force x))).
  { intros force. rewrite camera_read, (zigbee_read fill c force x) by done. by case_bool_decide. }
  destruct (named c (str "uuid")) eqn:E1; [eexists; split; [done|]; field_read E1|].
  destruct (named c (str "description")) eqn:E2; [eexists; split; [done|]; field_read E2|].
  destruct (named c (str "manufacturer")) eqn:E3; [eexists; split; [done|]; field_read E3|].
  destruct (named c (str "model")) eqn:E4; [eexists; split; [done|]; field_read E4|].
  destruct (named c (str "hardwareVersions")) eqn:E5.
  { rewrite Hversions. obind. eexists; split; [done|]; field_read E5. cbn [mbind option_bind]. rewrite Hx. by case_bool_decide. }
  destruct (named c (str "firmwareVersions")) eqn:E6.
  { rewrite Hversions. obind. eexists; split; [done|]; field_read E6. cbn [mbind option_bind]. rewrite Hx. by case_bool_decide. }
  destruct (named c (str "minSupportedFirmwareVersion")) eqn:E7; [eexists; split; [done|]; field_read E7|].
  destruct (named c (str "metadataList")) eqn:E8.
  { destruct (metadata_read c (Hcount eq_refl) Hnames) as (m & -> & Hm). obind. eexists; split; [done|]; field_read E8. }
  destruct (named c (str "latestFirmware")) eqn:E9.
  { rewrite firmware_read by done. obind. eexists; split; [done|]; field_read E9. cbn. do 2 f_equal. by case_bool_decide; case_decide. }
  exists dd. split; [done|]. split; try done; unfold text_of, versions_of, metadata_of; rewrite last_named_snoc, ?E1, ?E2, ?E3, ?E4, ?E5, ?E6, ?E7, ?E8, ?E9; done.
Qed.

Lemma base_read t k nodes0 nodes dd : Forall child_ok nodes → reads t k nodes0 dd → ∃ dd', foldM (base_child fill) nodes dd = Ok dd' ∧ reads t k (nodes0 ++ nodes) dd'.
Proof.
  intros Hok. revert nodes0 dd. induction Hok as [|c nodes Hc Hok IH]; intros nodes0 dd Hr; cbn [foldM]; [exists dd; by rewrite app_nil_r|].
  destruct (base_child_read t k nodes0 c dd Hc Hr) as (dd1 & -> & Hr1). obind. destruct (IH _ _ Hr1) as (dd' & Hf & Hr'). exists dd'. by rewrite <-app_assoc in Hr'.
Qed.

(** *** The list *)

Definition descriptor_type n : option DeviceDescriptorType :=
  if named n (str "CameraDeviceDescriptor") then Some DEVICE_DESCRIPTOR_TYPE_CAMERA
  else if named n (str "DeviceDescriptor") then Some DEVICE_DESCRIPTOR_TYPE_ZIGBEE else None.

Definition no_camera : camera_part := mkCamera CAMERA_PROTOCOL_UNKNOWN no_motion.

(** The descriptor says what the node says. *)
Definition node_reads n dd : Prop :=
  ∃ t, descriptor_type n = Some t ∧
    reads t (if decide (t = DEVICE_DESCRIPTOR_TYPE_CAMERA) then foldl camera_child no_camera (Xml.elems n) else no_camera) (Xml.elems n) dd.

Definition node_uuid n : option cstring := text_of (str "uuid") (Xml.elems n).

(** A descriptor node with a uuid, whose texts can be read. *)
Definition node_ok n : Prop := Forall child_ok (Xml.elems n) ∧ ∃ u, node_uuid n = Some u ∧ key_ok (zkey u).

Lemma node_read n t : descriptor_type n = Some t → node_ok n → ∃ dd, descriptor_node fill n = Ok (Some dd) ∧ node_reads n dd ∧ dd_uuid dd = node_uuid n.
Proof.
  intros Ht [Hok _]. destruct (base_read t no_camera [] (Xml.elems n) (fresh_descriptor t) Hok) as (dd & Hf & Hr); [by split|]. cbn [app] in Hr.
  unfold descriptor_node, node_reads, parseDescriptorBase in *. rewrite Ht. unfold descriptor_type in Ht.
  destruct (named n (str "CameraDeviceDescriptor")); [|destruct (named n (str "DeviceDescriptor")); [|done]]; injection Ht as <-; rewrite Hf; obind.
  - eexists. split; [done|]. destruct Hr as [? ? ? ? ? ? ? ? ? ? Hc]. split; [|done]. eexists. split; [done|].
    rewrite decide_True by done. unfold parseCameraDescriptor. rewrite Hc. by split.
  - exists dd. split; [done|]. split; [|by apply Hr]. eexists. split; [done|]. by rewrite decide_False.
Qed.

Lemma no_node n : descriptor_type n = None → descriptor_node fill n = Ok None.
Proof. unfold descriptor_type, descriptor_node. destruct (named n _); [done|]. by destruct (named n _). Qed.

(** The nodes that are kept: descriptors whose uuid [black] does not have. *)
Definition kept (black : list cstring) nodes : list xml :=
  filter (λ n, is_Some (descriptor_type n) ∧ node_uuid n ∉ Some <$> black) nodes.

Lemma add_read (black : option VM) bs n l :
  (∀ u, key_ok (zkey u) → match black with Some m => km_contains m (zkey u) | None => Ok false end = Ok (bool_decide (u ∈ bs))) →
  (is_Some (descriptor_type n) → node_ok n) →
  ∃ k, add_descriptor fill black n l = Ok (l ++ k) ∧ Forall2 node_reads (kept bs [n]) k.
Proof.
  intros Hb Hok. unfold add_descriptor, kept. rewrite filter_cons, filter_nil. destruct (descriptor_type n) as [t|] eqn:Ht.
  - destruct (Hok ltac:(by eexists)) as [Hch (u & Hu & Hk)]. destruct (node_read n t Ht (Hok ltac:(by eexists))) as (dd & -> & Hr & Hud). obind.
    assert (is_blacklisted black dd = Ok (bool_decide (u ∈ bs))) as ->.
    { rewrite <-(Hb u Hk). unfold is_blacklisted. by rewrite Hud, Hu. }
    obind. case_bool_decide as E.
    + exists []. rewrite app_nil_r, decide_False; [done|]. intros [_ Hn]. apply Hn. rewrite Hu. apply list_elem_of_fmap. by exists u.
    + exists [dd]. split; [done|]. rewrite decide_True; [by repeat constructor|]. split; [by eexists|]. rewrite Hu. intros (u' & [= <-] & Hin)%list_elem_of_fmap. done.
  - rewrite (no_node n Ht). obind. exists []. rewrite app_nil_r, decide_False by (by intros [[? ?] _]). done.
Qed.

Lemma add_all_read (black : option VM) bs nodes l :
  (∀ u, key_ok (zkey u) → match black with Some m => km_contains m (zkey u) | None => Ok false end = Ok (bool_decide (u ∈ bs))) →
  (∀ n, n ∈ nodes → is_Some (descriptor_type n) → node_ok n) →
  ∃ k, foldM (add_descriptor fill black) nodes l = Ok (l ++ k) ∧ Forall2 node_reads (kept bs nodes) k.
Proof.
  intros Hb. revert l. induction nodes as [|n nodes IH]; intros l Hok; cbn [foldM]; [exists []; by rewrite app_nil_r|].
  destruct (add_read black bs n l Hb) as (k1 & -> & Hk1); [apply Hok; by left|]. obind.
  destruct (IH (l ++ k1)) as (k2 & -> & Hk2); [intros n' Hn'; apply Hok; by right|]. exists (k1 ++ k2). rewrite <-app_assoc. split; [done|].
  change (n :: nodes) with ([n] ++ nodes). unfold kept. rewrite filter_app. by apply Forall2_app.
Qed.


Lemma firmware_child_total node (fw : DeviceFirmware) : (∃ t, xmlNodeGetContent node = Some t ∧ no_nul t) →
  ∃ fw', firmware_child fill node fw = Ok fw' ∧ fw_checksum fw' = xmlGetProp node (str "checksum").
Proof.
  intros (t & Ht & Hn). unfold firmware_child, getTrimmedXmlNodeContentsAsString, getXmlNodeContentsAsString. rewrite Ht, (trimString_strip fill t Hn). obind.
  assert (Hsum : getXmlNodeAttributeAsString (Some node) (str "checksum") None = xmlGetProp node (str "checksum"))
    by (unfold getXmlNodeAttributeAsString; by destruct (xmlGetProp node (str "checksum"))).
  rewrite Hsum. oread. destruct (named node (str "version")); [by eexists|]. destruct (named node (str "filename")); [by eexists|].
  destruct (named node (str "type")); by eexists.
Qed.

(** The checksum of a firmware image is lost.  The parser reads the
    attribute from every child of latestFirmware and keeps the last value, so
    that white space or a comment before the closing tag, or any element
    without the attribute after the one that has it, leaves the firmware
    without a checksum. *)
Theorem firmware_checksum_of_last_child nodes last (fw : DeviceFirmware) :
  (∀ x a, xml_element x = false → xmlGetProp x a = None) →
  (∀ n, n ∈ nodes ++ [last] → ∃ t, xmlNodeGetContent n = Some t ∧ no_nul t) →
  ∃ fw', foldM (firmware_child fill) (nodes ++ [last]) fw = Ok fw' ∧
    fw_checksum fw' = xmlGetProp last (str "checksum") ∧ (xml_element last = false → fw_checksum fw' = None).
Proof.
  intros Hattr Hc. assert (∃ fw', foldM (firmware_child fill) (nodes ++ [last]) fw = Ok fw' ∧ fw_checksum fw' = xmlGetProp last (str "checksum"))
    as (fw' & Hf & Hsum).
  { revert fw. induction nodes as [|n nodes IH]; intros fw; cbn [foldM app].
    - destruct (firmware_child_total last fw) as (fw' & -> & Hs); [apply Hc; by left|]. by exists fw'.
    - destruct (firmware_child_total n fw) as (fw' & -> & _); [apply Hc; by left|]. obind. apply IH. intros x Hx. apply Hc. by right. }
  exists fw'. split; [done|]. split; [done|]. intros Hel. rewrite Hsum. by apply Hattr.
Qed.

End Parse.

Definition two_to_ten : DeviceVersionList :=
  mkVersionList (Some (str "Zigbee")) (DEVICE_VERSION_LIST_TYPE_RANGE (Some (str "2")) (Some (str "10"))).

(** No text is at least "2" and at most "10". *)
Lemma above_two v : ¬ (0 ≤ stringCompare (Some v) (Some (str "2")) true) ∨ ¬ (stringCompare (Some v) (Some (str "10")) true ≤ 0).
Proof.
  assert (Hsign : ∀ rc, (0 ≤ (if decide (rc = 0) then 0 else if decide (rc < 0) then -1 else 1) ↔ 0 ≤ rc) ∧
                        ((if decide (rc = 0) then 0 else if decide (rc < 0) then -1 else 1) ≤ 0 ↔ rc ≤ 0)).
  { intros rc. repeat case_decide; lia. }
  unfold stringCompare. rewrite (proj1 (Hsign _)), (proj2 (Hsign _)). destruct v as [|c t]; [left; by vm_compute|].
  change (str "2") with ["2"%char]. change (str "10") with ["1"%char; "0"%char]. unfold strcasecmp. cbn [cmp_by].
  change (tolower "2"%char) with "2"%char. change (tolower "1"%char) with "1"%char.
  case_decide as E1; [|case_decide as E2; [left; rewrite E2; by vm_compute|]].
  - rewrite E1. rewrite decide_False by done. right; by vm_compute.
  - change (byteZ "2"%char) with 50. change (byteZ "1"%char) with 49. lia.
Qed.

(** A range of hardware versions excludes its members.  The bounds are
    turned into decimal text and compared as text, so that the range 2-10 of
    a descriptor accepts no hardware version at all, not even its bounds. *)
Theorem hardware_range_excludes_members {xml} `{LibXml xml} fill (n : xml) : xmlNodeGetContent n = Some (str "2-10") →
  parseZigbeeDeviceVersion fill n true = Ok two_to_ten ∧ ∀ v, versionInRange v (Some two_to_ten) = false.
Proof.
  intros Hn. split.
  - unfold parseZigbeeDeviceVersion, getXmlNodeContentsAsString. rewrite Hn. vm_compute. reflexivity.
  - intros [v|]; [|done]. unfold versionInRange. cbn [two_to_ten vl_list]. apply andb_false_iff. rewrite !bool_decide_eq_false. apply above_two.
Qed.

(** ** Pairing needs a descriptor *)

Section Pairing.
Context {D : Type} `{DeviceDbLaws D}.
Context {MM : Type} `{KeyMapLaws MM unit}.
Context {VM : Type} `{KeyMapLaws VM (option cstring)}.
Context {xml : Type} `{LibXml xml}.
Context {J : Type}.
Abbreviation descriptor := (DeviceDescriptor VM).
Abbreviation driver := (DeviceDriver D MM VM J descriptor).
Abbreviation found := (DeviceFoundDetails (D := D) (MM := MM) (VM := VM) (J := J) (DD := descriptor)).
Variable drivers : list driver.
Variable fill : nat → byte.
Variable st : descriptors VM xml.

(** The search the device service makes. *)
Definition lookup_descriptor (ma mo hw fw : option cstring) : outcome (option descriptor) :=
  '(o, _) ← deviceDescriptorsGet fill ma mo hw fw st; Ok o.

(** C11: a device is paired with its descriptor, and without one only if it
    may: a device that is not blacklisted goes on to pairing with the first
    of the complete descriptors that describes it; when none does it goes on
    without a descriptor if its driver says never to reject it, if it is being
    migrated or if descriptors are bypassed, and is rejected otherwise, without
    its driver being called and without any change of the service.  The
    descriptors are those parsed before or else those the files hold. *)
Theorem pairing_needs_descriptor st' l now (f : found) ma mo neverReject bypassed (s : DeviceService.service D MM J) :
  searched fill st st' l → Forall complete l → df_manufacturer f = Some ma → df_model f = Some mo → no_nul ma → no_nul mo →
  id_ok (df_hardwareVersion f) → id_ok (df_firmwareVersion f) →
  deviceServiceIsDeviceBlacklisted fill (df_deviceUuid f) s = Ok false → isDeviceDescriptorBypassed s = Ok bypassed →
  ∃ o, first_match ma mo (df_hardwareVersion f) (df_firmwareVersion f) l o ∧
    deviceServiceDeviceFound drivers fill lookup_descriptor dd_metadata now f neverReject s =
      if decide (is_Some o ∨ neverReject = true ∨ is_Some (df_deviceMigrator f) ∨ bypassed = true)
      then pair_device drivers dd_metadata now f o s
      else Ok (false, send s (DeviceRejected (df_deviceUuid f))).
Proof.
  intros Hst Hl Hma Hmo Nma Nmo Hhw Hfw Hbl Hby.
  destruct (get_first_match ma mo (df_hardwareVersion f) (df_firmwareVersion f) fill st st' l Nma Nmo Hhw Hfw Hst Hl) as (o & Hget & Ho).
  exists o. split; [done|]. unfold deviceServiceDeviceFound. rewrite Hbl. obind. unfold lookup_descriptor. rewrite Hma, Hmo, Hget. obind.
  unfold allowPairing. rewrite Hby. destruct o as [dd|]; [by rewrite decide_True by (left; by eexists)|].
  destruct neverReject; [by rewrite decide_True by (right; by left)|]. cbn [orb]. case_bool_decide as Em; [by rewrite decide_True by (right; right; by left)|].
  destruct bypassed; [by rewrite decide_True by (do 3 right; done)|]. rewrite decide_False; [done|]. intros [[? ?]|[?|[?|?]]]; done.
Qed.

End Pairing.

(** The list parsed by a search is not parsed again: as long as the files stay
    as they are, every later search finds what it would have found before. *)
Lemma lookup_keeps {VM} `{KeyMap VM (option cstring)} {xml} `{LibXml xml} fill (s s' : descriptors VM xml) ma mo hw fw o :
  deviceDescriptorsGet fill ma mo hw fw s = Ok (o, s') →
  ∀ ma' mo' hw' fw', lookup_descriptor fill s' ma' mo' hw' fw' = lookup_descriptor fill s ma' mo' hw' fw'.
Proof.
  intros Hg ma' mo' hw' fw'. assert (Hs : s' = s ∨ deviceDescriptors s = None ∧ parseFiles fill s = Ok s').
  { unfold deviceDescriptorsGet in Hg. destruct ma, mo; try (left; congruence). destruct (deviceDescriptors s) as [k|] eqn:E.
    - cbn in Hg. rewrite E in Hg. left. destruct (find_match _ _ _ _ k); cbn in Hg; congruence.
    - right. split; [done|]. destruct (parseFiles fill s) as [s1| |]; [|done|done]. cbn in Hg. destruct (deviceDescriptors s1) as [k|]; [|by injection Hg as _ <-].
      destruct (find_match _ _ _ _ k); [|done|done]. by injection Hg as _ <-. }
  destruct Hs as [->|[Hn Hp]]; [done|]. unfold lookup_descriptor, deviceDescriptorsGet. rewrite Hn, Hp. destruct ma', mo'; try done.
  assert (Hp' : match deviceDescriptors s' with None => parseFiles fill s' | Some _ => Ok s' end = Ok s').
  { destruct (deviceDescriptors s') eqn:E; [done|]. revert Hp. unfold parseFiles. destruct (paths s) as [[wl bl]|] eqn:Ep.
    - destruct (parseDeviceDescriptors fill wl bl) as [k| |] eqn:El; [|done|done]. intros [= <-]. cbn. by rewrite El.
    - intros [= <-]. by rewrite Ep. }
  by rewrite Hp'.
Qed.

(** ** A white list with a lamp and a plug, and a black list with the plug *)

Definition leaf_node (name text : cstring) : tree := TNode name [] [TText text].
Definition lamp_node : tree :=
  TNode (str "DeviceDescriptor") []
    [leaf_node (str "uuid") (str "d1"); leaf_node (str "manufacturer") (str "acme"); leaf_node (str "model") (str "bulb");
     leaf_node (str "hardwareVersions") (str "1,2"); leaf_node (str "firmwareVersions") (str "*");
     TNode (str "latestFirmware") []
       [TNode (str "filename") [(str "checksum", str "abc")] [TText (str "bulb.ota")]; TText (str " ")]].
Definition plug_node : tree :=
  TNode (str "DeviceDescriptor") []
    [leaf_node (str "uuid") (str "d2"); leaf_node (str "manufacturer") (str "acme"); leaf_node (str "model") (str "plug")].
Definition white_list : tree := TNode (str "DeviceDescriptorList") [] [lamp_node; TText (str " "); plug_node].
Definition black_list : tree := TNode (str "blackList") [] [leaf_node (str "uuid") (str "d2")].

Definition white_file : @xml_file tree tree_xml := white_list.
Definition black_file : @xml_file tree tree_xml := black_list.

Abbreviation descriptor := (DeviceDescriptor texts).
Definition read_node (n : tree) : option descriptor :=
  match descriptor_node blanks n with Ok o => o | _ => None end.
Definition lamp_dd : descriptor := Eval vm_compute in
  match read_node lamp_node with Some dd => dd | None => fresh_descriptor DEVICE_DESCRIPTOR_TYPE_UNKNOWN end.

Definition loaded : descriptors texts tree := mkDescriptors (Some (Some white_file, Some black_file)) (Some [lamp_dd]).

Lemma lamp_dd_complete : complete lamp_dd.
Proof.
  split; [exists (str "acme"); split; [reflexivity|by auto with zilker]|exists (str "bulb"); split; [reflexivity|by auto with zilker]| | |intros _; reflexivity].
  - intros vs [= <-]. eexists. split; [reflexivity|]. intros x Hx. assert (x = str "1" ∨ x = str "2") as [->| ->].
    { apply elem_of_cons in Hx as [[= ->]|[[= ->]|?%elem_of_nil]%elem_of_cons]; [by left|by right|done]. }
    all: by auto with zilker.
  - intros vs [=].
Qed.

Lemma deviceDescriptorsGet_first_match_witness : deviceDescriptors loaded = Some [lamp_dd] ∧
  ∃ o, deviceDescriptorsGet blanks (Some (str "acme")) (Some (str "bulb")) (Some (str "2")) None loaded = Ok (o, loaded) ∧ o = Some lamp_dd.
Proof.
  split; [reflexivity|].
  destruct (deviceDescriptorsGet_first_match (str "acme") (str "bulb") (Some (str "2")) None blanks loaded [lamp_dd]) as (o & Ho & Hm);
    [by auto with zilker|by auto with zilker|intros x [= <-]; by auto with zilker|done|reflexivity|constructor; [exact lamp_dd_complete|constructor]|].
  exists o. split; [exact Ho|]. enough (Some o = Some (Some lamp_dd)) by congruence.
  assert (He : match deviceDescriptorsGet blanks (Some (str "acme")) (Some (str "bulb")) (Some (str "2")) None loaded with Ok (x, _) => Some x | _ => None end
               = Some (Some lamp_dd)) by (vm_compute; reflexivity).
  rewrite Ho in He. exact He.
Defined.

(** A test of [child_ok] for a small tree. *)
Definition clean (x : tree) : bool := bool_decide (NUL ∉ tree_text x).
Definition child_clean (c : tree) : bool :=
  clean c && forallb clean (xml_children c) && forallb (λ g, forallb clean (Xml.elems g)) (Xml.elems c) &&
  bool_decide (zlen (Xml.elems c) ≤ 65535) &&
  forallb (λ g, match xmlGetProp g (str "name") with Some n => bool_decide (strlen (zkey n) ≤ 65535) | None => true end) (Xml.elems c).

Lemma clean_readable x : clean x = true → readable x.
Proof. intros Hx%bool_decide_eq_true. by exists (tree_text x). Qed.

Lemma child_clean_ok c : child_clean c = true → child_ok c.
Proof.
  unfold child_clean. rewrite !andb_true_iff, !forallb_forall. intros [[[[H1 H2] H3] H4] H5]. split.
  - by apply clean_readable.
  - apply Forall_forall. intros x Hx%list_elem_of_In. by apply clean_readable, H2.
  - intros g h Hg%list_elem_of_In Hh%list_elem_of_In. specialize (H3 g Hg). rewrite forallb_forall in H3. by apply clean_readable, H3.
  - intros _. by apply bool_decide_eq_true in H4.
  - intros g n Hg%list_elem_of_In Hn. specialize (H5 g Hg). rewrite Hn in H5. by apply bool_decide_eq_true in H5.
Qed.

Lemma node_clean_ok n u : forallb child_clean (Xml.elems n) = true → node_uuid n = Some u → key_ok (zkey u) → node_ok n.
Proof.
  intros Hc Hu Hk. split; [|by exists u]. rewrite forallb_forall in Hc. apply Forall_forall. intros c Hin%list_elem_of_In. by apply child_clean_ok, Hc.
Qed.


Lemma firmware_checksum_of_last_child_witness :
  ∃ fw', foldM (firmware_child blanks) ([TNode (str "filename") [(str "checksum", str "abc")] [TText (str "bulb.ota")]] ++ [TText (str " ")])
           (mkFirmware None None None DEVICE_FIRMWARE_TYPE_UNKNOWN) = Ok fw' ∧ fw_checksum fw' = None.
Proof.
  destruct (firmware_checksum_of_last_child blanks [TNode (str "filename") [(str "checksum", str "abc")] [TText (str "bulb.ota")]] (TText (str " "))
    (mkFirmware None None None DEVICE_FIRMWARE_TYPE_UNKNOWN)) as (fw' & Hf & _ & Hn).
  - intros [t|n a k] b; [reflexivity|discriminate].
  - intros n Hn. apply elem_of_cons in Hn as [->|[->|?%elem_of_nil]%elem_of_cons]; [exists (str "bulb.ota")|exists (str " ")|done];
      (split; [reflexivity|by auto with zilker]).
  - exists fw'. split; [exact Hf|]. apply Hn. reflexivity.
Defined.

Lemma hardware_range_excludes_members_witness :
  parseZigbeeDeviceVersion blanks (leaf_node (str "hardwareVersions") (str "2-10")) true = Ok two_to_ten ∧
  versionInRange (Some (str "3")) (Some two_to_ten) = false.
Proof.
  destruct (hardware_range_excludes_members blanks (leaf_node (str "hardwareVersions") (str "2-10"))) as [Hp Hv]; [reflexivity|].
  split; [exact Hp|apply Hv].
Defined.

(** A driver for the lamp whose descriptors are those above. *)
Definition described_driver : DeviceDriver database marks texts unit descriptor :=
  mkDriver (Some (str "lamps")) None None (λ d _ s, Ok (true, d, s)) (λ d v s, Ok (true, d, v, s)) (λ d _ s, Ok (true, d, s)) None
    (λ _ s, Ok (true, None, s)) (λ _ _ _ s, Ok (true, s)) None None (λ _ s, Ok s) (λ _ s, Ok s) None None None None.
Definition plug_found : DeviceFoundDetails :=
  mkFound described_driver None (Some (str "plug")) 1 (Some (str "p1")) (Some (str "acme")) (Some (str "plug")) (Some (str "1")) (Some (str "2")).

(** The plug has no descriptor: it is rejected, and paired all the same when
    its driver insists on it. *)
Lemma pairing_needs_descriptor_witness :
  deviceServiceDeviceFound [described_driver] blanks (lookup_descriptor blanks loaded) dd_metadata 5 plug_found false home =
    Ok (false, send home (DeviceRejected (Some (str "p1")))) ∧
  deviceServiceDeviceFound [described_driver] blanks (lookup_descriptor blanks loaded) dd_metadata 5 plug_found true home =
    pair_device [described_driver] dd_metadata 5 plug_found None home.
Proof.
  assert (Hnone : ∀ o, first_match (str "acme") (str "plug") (Some (str "1")) (Some (str "2")) [lamp_dd] o → o = None).
  { intros [dd|] Ho; [|done]. destruct Ho as (l1 & l2 & Hl & (_ & Hm & _) & _). exfalso.
    assert (Hdd : dd ∈ [lamp_dd]) by (rewrite Hl; apply elem_of_app; right; by left). apply list_elem_of_singleton in Hdd as ->. discriminate Hm. }
  assert (Hs : searched blanks loaded loaded [lamp_dd]) by done. assert (Hc : Forall complete [lamp_dd]) by (constructor; [exact lamp_dd_complete|constructor]).
  split.
  - destruct (pairing_needs_descriptor [described_driver] blanks loaded loaded [lamp_dd] 5 plug_found (str "acme") (str "plug") false false home Hs Hc)
      as (o & Ho & Hd); [reflexivity|reflexivity|by auto with zilker|by auto with zilker|
        intros x [= <-]; by auto with zilker|intros x [= <-]; by auto with zilker|reflexivity|vm_compute; reflexivity|].
    rewrite (Hnone o Ho) in Hd. exact Hd.
  - destruct (pairing_needs_descriptor [described_driver] blanks loaded loaded [lamp_dd] 5 plug_found (str "acme") (str "plug") true false home Hs Hc)
      as (o & Ho & Hd); [reflexivity|reflexivity|by auto with zilker|by auto with zilker|
        intros x [= <-]; by auto with zilker|intros x [= <-]; by auto with zilker|reflexivity|vm_compute; reflexivity|].
    rewrite (Hnone o Ho) in Hd. exact Hd.
Defined.

End DeviceDescriptorsTheorems.
