(* ===== verification/DeviceNumbers.v ===== *)
(** * Numbers of legacy security devices: deviceNumberAllocator.c

    A legacy device gets a number from 1 to 63 when it is paired, kept in a
    metadata of the device.  The numbers in use are those of the devices in
    the database and, in a 64-bit field, those allocated to devices that are
    still being paired.  The id of a Zigbee device is its EUI-64 in
    hexadecimal (zigbeeSubsystem.c). *)

From S2P Require Import Prelude KeyMap StringUtils StringUtilsTheorems StringNumbers DeviceModel JsonDatabase JsonDatabaseSpec JsonDatabaseMemory.
From S2P Require Import JsonDatabaseQuery JsonDatabaseInstance DeviceDb StringKeyed DeviceUris DeviceUrisSpec DeviceBuild DeviceService.
From S2P Require Import DeviceTheorems JsonDatabaseTheorems DeviceServiceSpec DeviceServiceTheorems.
Import KeyMap StringUtils StringTheorems StringNumbers HexNumbers DeviceModel JsonDatabase JsonDatabaseSpec JsonDatabaseMemory.
Import JsonDatabaseQuery JsonDatabaseInstance DeviceDb StringKeyed DeviceUris DeviceUrisSpec DeviceBuild DeviceService.
Import DeviceTheorems JsonDatabaseTheorems DeviceServiceSpec DeviceServiceTheorems.

Module DeviceNumbers.

Definition MAX_LEGACY_DEVICE_NUM : Z := 64.
Definition DEVICE_NUMBER_METADATA : cstring := str "legacyDevNum".

(** ** Ids of Zigbee devices *)

Definition hex_char (n : Z) : byte := if decide (n < 10) then digit_char n else byte_of (97 + (n - 10)).

Fixpoint hex_digits (k : nat) (n : Z) : cstring :=
  match k with O => [] | S k => hex_digits k (n `div` 16) ++ [hex_char (n `mod` 16)] end.

(** %016lx *)
Definition zigbeeSubsystemEui64ToId (eui64 : Z) : cstring := hex_digits 16 eui64.

(** At most 16 characters are read; 0 when there is no number. *)
Definition zigbeeSubsystemIdToEui64 (uuid : cstring) : Z := fst (fst (strtoull (take 16 (skip_space uuid)) 16)).

(** ** The allocator *)

Section Code.
Context {D : Type} `{DeviceDb D}.
Context {MM J : Type}.
Abbreviation service := (DeviceService.service D MM J).
Implicit Types (s : service).

Definition getDeviceNumberForDevice (uuid : option cstring) s : outcome Z :=
  uri ← getMetadataUri uuid None (Some DEVICE_NUMBER_METADATA);
  '(ok, devNumStr) ← deviceServiceGetMetadata (Some uri) s;
  Ok (match devNumStr with
      | Some t =>
          let devNum := fst (fst (strtoull t 10)) in
          if ok && negb (bool_decide (devNum = 0 ∨ MAX_LEGACY_DEVICE_NUM ≤ devNum)) then u8 devNum else 0
      | None => 0
      end).

Definition setDeviceNumberForDevice (d : option device) (deviceNumber : Z) : outcome (bool * option device) :=
  match d with
  | None => Ok (false, None)
  | Some d =>
      if decide (deviceNumber = 0 ∨ MAX_LEGACY_DEVICE_NUM ≤ deviceNumber) then Ok (false, Some d)
      else '(_, d) ← createDeviceMetadata d (Some DEVICE_NUMBER_METADATA) (Some (decimal deviceNumber)); Ok (true, Some d)
  end.

(** The bit of a device's number. *)
Definition mark_number s (d : device) (allocated : Z) : outcome Z :=
  devNum ← getDeviceNumberForDevice (d_uuid d) s;
  Ok (if decide (0 < devNum) then Z.lor allocated (Z.shiftl 1 devNum) else allocated).

Definition taken (field result : Z) : bool := bool_decide (0 < Z.land field (Z.shiftl 1 result)).

(** The condition of the loop shifts before it looks at the bound: a shift by
    the width of the type is undefined.  At most 64 rounds before that. *)
Fixpoint find_number (fuel : nat) (allocated tempDevNums result : Z) : outcome Z :=
  match fuel with
  | O => Hang
  | S fuel =>
      if decide (64 ≤ result) then Fault
      else if (taken allocated result || taken tempDevNums result) && bool_decide (result ≤ MAX_LEGACY_DEVICE_NUM)
      then find_number fuel allocated tempDevNums (u8 (result + 1))
      else Ok result
  end.

Definition allocateDeviceNumber (d : option device) s (tempDevNums : Z) : outcome (Z * option device * Z) :=
  devices ← deviceServiceGetDevicesByMetadata (Some DEVICE_NUMBER_METADATA) None s;
  allocated ← foldM (mark_number s) (default [] devices) 0;
  let tempDevNums := Z.land tempDevNums (Z.lnot allocated) in
  result ← find_number 65 allocated tempDevNums 1;
  let result := if decide (MAX_LEGACY_DEVICE_NUM ≤ result) then 0 else result in
  '(ok, d) ← setDeviceNumberForDevice d result;
  let result := if ok : bool then result else 0 in
  Ok (result, d, Z.lor tempDevNums (Z.shiftl 1 result)).

Definition clearTemporaryDeviceNumbers (tempDevNums : Z) : Z := 0.

(** The result is stored where [eui64] points, unless that is NULL. *)
Definition getEui64ForDeviceNumber (devNum : Z) (eui64 : option Z) s : outcome (bool * option Z) :=
  match eui64 with
  | None => Ok (false, None)
  | Some _ =>
      if decide (devNum = 0) then Ok (true, Some 0)
      else
        devices ← deviceServiceGetDevicesByMetadata (Some DEVICE_NUMBER_METADATA) (Some (decimal devNum)) s;
        match devices with
        | Some [d] => uuid ← of_option (d_uuid d); Ok (true, Some (zigbeeSubsystemIdToEui64 uuid))
        | _ => Ok (false, Some 0)
        end
  end.

End Code.

(** ** Ids *)

Lemma hex_digit_val n : 0 ≤ n < 16 → digit_in 16 (hex_char n) = Some n.
Proof.
  intros Hn. assert (forallb (λ k, bool_decide (digit_in 16 (hex_char (Z.of_nat k)) = Some (Z.of_nat k))) (seq 0 16) = true) as Ha by by vm_compute.
  rewrite forallb_forall in Ha. specialize (Ha (Z.to_nat n)). rewrite Z2Nat.id in Ha by lia.
  eapply bool_decide_eq_true_1, Ha, in_seq. lia.
Qed.

Lemma span_hex k n : 0 ≤ n < 16 ^ Z.of_nat k → ∃ ds, span_digits 16 (hex_digits k n) = (ds, []) ∧ length ds = k ∧ digits_value 16 ds = n.
Proof.
  revert n. induction k as [|k IH]; intros n Hn; cbn [hex_digits].
  - exists []. cbn in Hn |- *. split_and!; [done..|]. cbn. lia.
  - rewrite Nat2Z.inj_succ, Z.pow_succ_r in Hn by lia.
    destruct (IH (n `div` 16)) as (ds & Hs & Hl & Hv); [split; [apply Z.div_pos; lia|apply Z.div_lt_upper_bound; lia]|].
    pose proof (Z.mod_pos_bound n 16 ltac:(lia)) as Hm. exists (ds ++ [n `mod` 16]). split_and!.
    + by apply span_snoc, hex_digit_val.
    + rewrite length_app, Hl. cbn. lia.
    + unfold digits_value in *. rewrite foldl_app, Hv. cbn. pose proof (Z.div_mod n 16). lia.
Qed.

Lemma hex_length k n : length (hex_digits k n) = k.
Proof. revert n. induction k as [|k IH]; intros n; cbn [hex_digits]; [done|]. rewrite length_app, IH. cbn. lia. Qed.

(** An id gives back the EUI-64 it was made from. *)
Lemma eui64_roundtrip n : 0 ≤ n < 2 ^ 64 → zigbeeSubsystemIdToEui64 (zigbeeSubsystemEui64ToId n) = n.
Proof.
  intros Hn. change (2 ^ 64) with (16 ^ Z.of_nat 16) in Hn. destruct (span_hex 16 n Hn) as (ds & Hs & _ & Hv).
  pose proof (hex_length 16 n) as Hl. unfold zigbeeSubsystemIdToEui64, zigbeeSubsystemEui64ToId.
  destruct (parse_hex _ _ Hs) as [Hp Hk]; [lia|]. rewrite Hk, take_ge by lia. unfold strtoull. simpl valid_base. cbv iota.
  rewrite Hp, Hv. rewrite decide_False; [done|]. unfold UINT64_MAX. change (16 ^ Z.of_nat 16) with 18446744073709551616 in Hn. lia.
Qed.

(** ** The numbers of devices *)

Definition valid_number (m : icDeviceMetadata) : option Z :=
  t ← m_value m;
  let n := fst (fst (strtoull t 10)) in if decide (n = 0 ∨ MAX_LEGACY_DEVICE_NUM ≤ n) then None else Some n.

Definition numbers (d : device) : list Z :=
  omap (λ m, if decide (m_id m = Some DEVICE_NUMBER_METADATA) then valid_number m else None) (elems (d_metadata d)).

Lemma numbers_in n (d : device) : n ∈ numbers d ↔ ∃ m, m ∈ elems (d_metadata d) ∧ m_id m = Some DEVICE_NUMBER_METADATA ∧ valid_number m = Some n.
Proof.
  unfold numbers. rewrite list_elem_of_omap. split.
  - intros (m & Hm & E). case_decide; [|done]. eauto.
  - intros (m & Hm & Hi & E). exists m. by rewrite decide_True.
Qed.

Lemma strtoull_nonneg t : 0 ≤ fst (fst (strtoull t 10)).
Proof.
  unfold strtoull. simpl valid_base. cbv iota. destruct (parse_number t 10) as [[[neg v] rest]|] eqn:E; [|done].
  case_decide; [done|]. cbn [fst]. destruct neg; [apply Z.mod_pos_bound; lia|].
  unfold parse_number in E. destruct (take_sign _) as [neg s1]. destruct (detect_base 10 s1) as [b s2] eqn:Eb.
  destruct (span_digits b s2) as [ds r] eqn:Es. destruct ds as [|x ds]; simplify_eq.
  assert (0 ≤ b) as Hb by (unfold detect_base in Eb; repeat case_match; simplify_eq; lia).
  assert (Forall (λ d, 0 ≤ d) (x :: ds)) as Hf by exact (span_nonneg b s2 _ _ Es). by apply value_nonneg.
Qed.

Lemma valid_range m n : valid_number m = Some n → 1 ≤ n < MAX_LEGACY_DEVICE_NUM.
Proof.
  unfold valid_number. destruct (m_value m) as [t|]; [|done]. cbn. pose proof (strtoull_nonneg t). case_decide; [done|]. intros [= <-]. lia.
Qed.

(** ** Bits *)

Lemma bit_shift n k : 0 ≤ n → 0 ≤ k → Z.testbit (Z.shiftl 1 n) k = bool_decide (k = n).
Proof.
  intros Hn Hk. rewrite Z.shiftl_1_l. destruct (decide (k = n)) as [->|Hne].
  - rewrite bool_decide_true by done. by apply Z.pow2_bits_true.
  - rewrite bool_decide_false by done. by apply Z.pow2_bits_false.
Qed.

Lemma taken_bit field n : 0 ≤ n → taken field n = Z.testbit field n.
Proof.
  intros Hn. unfold taken. assert (Z.land field (Z.shiftl 1 n) = if Z.testbit field n then Z.shiftl 1 n else 0) as ->.
  { apply Z.bits_inj'. intros k Hk. rewrite Z.land_spec, bit_shift by done. destruct (decide (k = n)) as [->|Hne].
    - rewrite bool_decide_true by done. destruct (Z.testbit field n); [by rewrite bit_shift, bool_decide_true|by rewrite Z.testbit_0_l].
    - rewrite bool_decide_false, andb_false_r by done. destruct (Z.testbit field n); [by rewrite bit_shift, bool_decide_false|by rewrite Z.testbit_0_l]. }
  rewrite Z.shiftl_1_l. destruct (Z.testbit field n); [apply bool_decide_true; by apply Z.pow_pos_nonneg|by apply bool_decide_false].
Qed.

(** The loop ends at the first free number, or shifts too far. *)
Lemma find_number_spec allocated temp fuel r : 1 ≤ r ≤ 64 → 64 - r < Z.of_nat fuel →
  (∃ n, find_number fuel allocated temp r = Ok n ∧ r ≤ n < 64 ∧ Z.testbit allocated n = false ∧ Z.testbit temp n = false ∧
     ∀ k, r ≤ k < n → Z.testbit allocated k = true ∨ Z.testbit temp k = true) ∨
  (find_number fuel allocated temp r = Fault ∧ ∀ k, r ≤ k < 64 → Z.testbit allocated k = true ∨ Z.testbit temp k = true).
Proof.
  revert r. induction fuel as [|fuel IH]; intros r Hr Hf; [lia|]. cbn [find_number].
  case_decide as H64; [right; split; [done|lia]|]. rewrite !taken_bit by lia. rewrite (bool_decide_true (r ≤ _)), andb_true_r by (unfold MAX_LEGACY_DEVICE_NUM; lia).
  destruct (Z.testbit allocated r || Z.testbit temp r) eqn:E.
  - unfold u8. rewrite Z.mod_small by lia. apply orb_true_iff in E.
    destruct (IH (r + 1)) as [(n & Hn & Hb & Ha & Ht & Hall)|[Hn Hall]]; [lia..| |].
    + left. exists n. split_and!; [done|lia..|done|done|]. intros k Hk. destruct (decide (k = r)) as [->|]; [done|apply Hall; lia].
    + right. split; [done|]. intros k Hk. destruct (decide (k = r)) as [->|]; [done|apply Hall; lia].
  - apply orb_false_iff in E as [Ea Et]. left. exists r. split_and!; [done|lia..|done|done|lia].
Qed.

(** ** The numbers in use *)

Section Spec.
Context {D : Type} `{DeviceDbLaws D}.
Context {MM J : Type}.
Abbreviation service := (DeviceService.service D MM J).
Implicit Types (s : service) (ds : list device) (d : device).

Abbreviation number_uri u := (createDeviceMetadataUri u DEVICE_NUMBER_METADATA).

Definition numbers_fit ds : Prop := ∀ d u, d ∈ ds → d_uuid d = Some u → key_ok (zkey (number_uri u)).

Lemma metadata_uri_known d m : m ∈ device_metadata d → m_uri m ∈ device_uris d.
Proof.
  unfold device_metadata, device_uris. intros [(l & Hl & Hr)%elem_of_concat|Hr]%elem_of_app; right; rewrite !elem_of_app.
  - left. apply list_elem_of_fmap in Hl as (e & -> & He). apply elem_of_concat. exists (ep_uris e). split; [by apply list_elem_of_fmap_2|].
    right. apply elem_of_app. right. by apply list_elem_of_fmap_2.
  - right. right. by apply list_elem_of_fmap_2.
Qed.

(** The database finds the device's own metadata under the URI. *)
Lemma number_metadata ds d u m : all_canonical ds → NoDup (d_uuid <$> ds) → d ∈ ds → canonical d u →
  metadata_at ds (number_uri u) m ↔ m ∈ elems (d_metadata d) ∧ m_id m = Some DEVICE_NUMBER_METADATA.
Proof.
  intros Hall Hnd Hd Hc. split.
  - intros (d' & Hd' & Hm & Hu). destruct (Hall d' Hd') as (u' & Hc').
    assert (u' = u) as ->.
    { apply (below_disjoint (str "/") u' u (m_uri m)); [apply Hc'|apply Hc| |].
      - apply (device_uris_below d' u' _ Hc'). by apply metadata_uri_known.
      - rewrite Hu. right. by eexists. }
    assert (d' = d) as -> by (apply (fmap_inj_in d_uuid ds); try done; by rewrite (cn_uuid _ _ Hc), (cn_uuid _ _ Hc')).
    unfold device_metadata in Hm. apply elem_of_app in Hm as [(l & Hl & Hm)%elem_of_concat|Hm].
    + apply list_elem_of_fmap in Hl as (e & -> & He). destruct (cn_ep _ _ Hc e He) as (i & _ & _ & _ & _ & _ & Hmet).
      destruct (Hmet m Hm) as [[j Hj] Hmu]. rewrite Hmu, Hj in Hu. cbn in Hu. injection Hu as Hu. rewrite <-app_assoc in Hu. by apply app_inv_head in Hu.
    + split; [done|]. destruct (cn_met _ _ Hc m Hm) as [[j Hj] Hmu]. rewrite Hmu, Hj in Hu. injection Hu as Hu%app_inv_head. congruence.
  - intros [Hm Hi]. exists d. split_and!; [done|apply elem_of_app; by right|]. destruct (cn_met _ _ Hc m Hm) as [_ ->]. rewrite Hi. cbn.
    done.
Qed.

(** What the code reads for a device: its number, or 0. *)
Lemma device_number s ds d : db_model (sv_db s) ds → all_canonical ds → numbers_fit ds → d ∈ ds →
  ∃ b k, has_metadata DEVICE_NUMBER_METADATA None s d = Ok b ∧ getDeviceNumberForDevice (d_uuid d) s = Ok k ∧ 0 ≤ k < 64 ∧
    (∀ n, n ∈ numbers d ↔ k = n ∧ k ≠ 0) ∧ (b = false → k = 0).
Proof.
  intros Hm Hall Hfit Hd. destruct (Hall d Hd) as (u & Hc). pose proof (cn_uuid _ _ Hc) as Hu.
  destruct (get_metadata (sv_db s) ds (number_uri u) Hm (Hfit d u Hd Hu)) as (o & Ho & Hom).
  assert (∀ m, o = Some m ↔ m ∈ elems (d_metadata d) ∧ m_id m = Some DEVICE_NUMBER_METADATA) as Hown.
  { intros m. rewrite Hom. apply (number_metadata ds d u m); try done. by destruct (db_uuids _ _ Hm). }
  unfold has_metadata, getDeviceNumberForDevice, getMetadataUri, deviceServiceGetMetadata. rewrite Hu. oread.
  change (str "/" ++ u ++ str "/m/" ++ DEVICE_NUMBER_METADATA) with (number_uri u). rewrite Ho. obind.
  eexists _, _. split; [done|]. split; [done|].
  assert (∀ n, n ∈ numbers d ↔ ∃ m, o = Some m ∧ valid_number m = Some n) as Hn.
  { intros n. rewrite numbers_in. split; intros (m & Hx); exists m; rewrite ?Hown in *; naive_solver. }
  destruct o as [m|]; cbn [fst snd].
  - destruct (m_value m) as [t|] eqn:Ev.
    + pose proof (strtoull_nonneg t) as Hp. unfold valid_number in Hn. cbn [andb].
      destruct (decide (fst (fst (strtoull t 10)) = 0 ∨ MAX_LEGACY_DEVICE_NUM ≤ fst (fst (strtoull t 10)))) as [Hbad|Hok].
      * rewrite bool_decide_true by done. cbn [negb]. split_and!; [lia..| |done]. intros n. rewrite Hn. split; [|lia].
        intros (m' & [= <-] & E). rewrite Ev in E. cbn in E. by rewrite decide_True in E.
      * rewrite bool_decide_false by done. cbn [negb]. unfold MAX_LEGACY_DEVICE_NUM in Hok. unfold u8. rewrite Z.mod_small by lia.
        split_and!; [lia..| |done]. intros n. rewrite Hn. split.
        -- intros (m' & [= <-] & E). rewrite Ev in E. cbn in E. rewrite decide_False in E by done. split; [congruence|lia].
        -- intros [<- _]. exists m. split; [done|]. rewrite Ev. cbn. by rewrite decide_False.
    + split_and!; [lia..| |done]. intros n. rewrite Hn. split; [|lia]. intros (m' & [= <-] & E). unfold valid_number in E. by rewrite Ev in E.
  - split_and!; [lia..| |done]. intros n. rewrite Hn. split; [by intros (? & ? & _)|lia].
Qed.

Lemma mark_numbers s ds l a : db_model (sv_db s) ds → all_canonical ds → numbers_fit ds → l ⊆ ds →
  ∃ r, foldM (mark_number s) l a = Ok r ∧
    ∀ n, 0 ≤ n → Z.testbit r n = true ↔ Z.testbit a n = true ∨ ∃ d, d ∈ l ∧ n ∈ numbers d.
Proof.
  intros Hm Hall Hfit. revert a. induction l as [|d l IH]; intros a Hl.
  - exists a. split; [done|]. intros n _. split; [by left|]. intros [?|(d & Hd%elem_of_nil & _)]; done.
  - destruct (device_number s ds d Hm Hall Hfit) as (b & k & _ & Hk & Hr & Hn & _); [apply Hl; by left|].
    destruct (IH (if decide (0 < k) then Z.lor a (Z.shiftl 1 k) else a)) as (r & Hr' & Hb); [set_solver|].
    exists r. cbn [foldM]. assert (mark_number s d a = Ok (if decide (0 < k) then Z.lor a (Z.shiftl 1 k) else a)) as -> by (unfold mark_number; by rewrite Hk).
    obind. split; [done|]. intros n Hpos. rewrite Hb by done.
    assert (Z.testbit (if decide (0 < k) then Z.lor a (Z.shiftl 1 k) else a) n = true ↔ Z.testbit a n = true ∨ n ∈ numbers d) as ->.
    { rewrite Hn. case_decide; [|split; [by left|intros [?|[]]; [done|lia]]].
      rewrite Z.lor_spec, orb_true_iff, bit_shift, bool_decide_eq_true by lia. intuition lia. }
    set_solver.
Qed.

(** The devices without the metadata have no number. *)
Lemma numbered_devices s ds : db_model (sv_db s) ds → all_canonical ds → numbers_fit ds →
  ∃ l, deviceServiceGetDevicesByMetadata (Some DEVICE_NUMBER_METADATA) None s = Ok (Some l) ∧ l ⊆ ds ∧
    ∀ d n, d ∈ ds → n ∈ numbers d → d ∈ l.
Proof.
  intros Hm Hall Hfit. unfold deviceServiceGetDevicesByMetadata. rewrite (get_devices _ _ Hm). obind.
  assert (∀ l', l' ⊆ ds → ∃ l, select (has_metadata DEVICE_NUMBER_METADATA None s) l' = Ok l ∧ l ⊆ l' ∧ ∀ d n, d ∈ l' → n ∈ numbers d → d ∈ l) as Hsel.
  { induction l' as [|d l' IH]; intros Hl; [by exists []|].
    destruct IH as (l & Hs & Hin & Hn); [set_solver|].
    destruct (device_number s ds d Hm Hall Hfit) as (b & k & Hb & _ & _ & Hd & Hz); [apply Hl; by left|].
    cbn [select]. rewrite Hb. obind. rewrite Hs. obind. eexists. split; [done|]. split; [destruct b; set_solver|].
    intros d' n [->|Hd']%elem_of_cons Hn'; [|destruct b; set_solver]. apply Hd in Hn' as [_ Hk]. destruct b; [by left|by destruct Hk; apply Hz]. }
  destruct (Hsel ds) as (l & -> & Hl & Hn); [done|]. obind. eauto.
Qed.

(** A device with a number. *)
Definition number_item (u : cstring) (n : Z) : icDeviceMetadata :=
  mkMetadata (Some DEVICE_NUMBER_METADATA) (Some (number_uri u)) None (Some u) (Some (decimal n)).

Definition in_use ds (n : Z) : Prop := ∃ d, d ∈ ds ∧ n ∈ numbers d.

Lemma allocate_number s ds d u ms temp : db_model (sv_db s) ds → all_canonical ds → numbers_fit ds →
  d_uuid d = Some u → d_metadata d = Some ms →
  (∃ n temp', allocateDeviceNumber (Some d) s temp = Ok (n, Some (set_metadata d (Some (ms ++ [number_item u n]))), temp') ∧
     1 ≤ n < 64 ∧ ¬ in_use ds n ∧ Z.testbit temp n = false ∧ (∀ k, 1 ≤ k < n → in_use ds k ∨ Z.testbit temp k = true) ∧
     ∀ k, 0 ≤ k → Z.testbit temp' k = true ↔ k = n ∨ (Z.testbit temp k = true ∧ ¬ in_use ds k)) ∨
  (allocateDeviceNumber (Some d) s temp = Fault ∧ ∀ k, 1 ≤ k < 64 → in_use ds k ∨ Z.testbit temp k = true).
Proof.
  intros Hm Hall Hfit Hu Hms. unfold allocateDeviceNumber.
  destruct (numbered_devices s ds Hm Hall Hfit) as (l & -> & Hl & Hn). obind. change (default [] (Some l)) with l.
  destruct (mark_numbers s ds l 0 Hm Hall Hfit Hl) as (a & -> & Ha). obind.
  assert (∀ k, 0 ≤ k → Z.testbit a k = true ↔ in_use ds k) as Hused.
  { intros k Hk. rewrite Ha, Z.testbit_0_l by done. unfold in_use. split; [intros [|(d' & ? & ?)]; [done|]; eauto|].
    intros (d' & ? & ?). right. eauto. }
  assert (∀ k, 0 ≤ k → Z.testbit (Z.land temp (Z.lnot a)) k = Z.testbit temp k && negb (Z.testbit a k)) as Hland
    by (intros k Hk; by rewrite Z.land_spec, Z.lnot_spec).
  destruct (find_number_spec a (Z.land temp (Z.lnot a)) 65 1) as [(n & -> & Hr & Hf1 & Hf2 & Hall')|[-> Hall']]; [lia..| |].
  - left. obind. rewrite decide_False by (unfold MAX_LEGACY_DEVICE_NUM; lia). cbn [setDeviceNumberForDevice].
    rewrite decide_False by (unfold MAX_LEGACY_DEVICE_NUM; lia). unfold createDeviceMetadata, createDeviceMetadataOnList, getMetadataUri.
    rewrite Hms, Hu. oread. eexists n, _. split; [done|]. rewrite Hland, Hf1, andb_true_r in Hf2 by lia.
    split_and!; [lia|lia|intros ?%Hused; [congruence|lia]|done| |].
    + intros k Hk. destruct (Hall' k Hk) as [Hk'|Hk'].
      * left. apply Hused; [lia|done].
      * right. rewrite Hland in Hk' by lia. by apply andb_true_iff in Hk' as [? _].
    + intros k Hk. rewrite Z.lor_spec, orb_true_iff, bit_shift, bool_decide_eq_true, Hland, andb_true_iff, negb_true_iff by lia.
      rewrite <-Hused by done. destruct (Z.testbit a k); naive_solver.
  - right. split; [done|]. intros k Hk. destruct (Hall' k Hk) as [Hk'|Hk']; [left; apply Hused; [lia|done]|right].
    rewrite Hland in Hk' by lia. by apply andb_true_iff in Hk' as [? _].
Qed.

End Spec.

End DeviceNumbers.

Import DeviceNumbers.

Module DeviceNumbersTheorems.

(** ** Numbers as text *)

(** Only a digit is equal to a digit when the case is ignored. *)
Lemma digit_case c x : 48 ≤ byteZ c ≤ 57 → tolower x = tolower c → x = c.
Proof.
  intros Hc. unfold tolower. rewrite (decide_False (P := 65 ≤ byteZ c ≤ 90)) by lia. case_decide as H; [|done]. intros E.
  assert (byteZ (byte_of (byteZ x + 32)) = byteZ c) as Hz by (by rewrite E).
  unfold byte_of, byteZ in *. rewrite N_ascii_embedding in Hz by lia. lia.
Qed.

Lemma small_decimal n : 1 ≤ n < 64 → fst (fst (strtoull (decimal n) 10)) = n ∧ Forall (λ c, 48 ≤ byteZ c ≤ 57) (decimal n).
Proof.
  intros Hn. assert (forallb (λ k, bool_decide (fst (fst (strtoull (decimal (Z.of_nat k)) 10)) = Z.of_nat k ∧
    Forall (λ c, 48 ≤ byteZ c ≤ 57) (decimal (Z.of_nat k)))) (seq 1 63) = true) as Ha by by vm_compute.
  rewrite forallb_forall in Ha. specialize (Ha (Z.to_nat n)). rewrite Z2Nat.id in Ha by lia.
  eapply bool_decide_eq_true_1, Ha, in_seq. lia.
Qed.

Lemma item_number u n : 1 ≤ n < 64 → valid_number (number_item u n) = Some n.
Proof. intros Hn. unfold valid_number, number_item. cbn [m_value mbind option_bind]. destruct (small_decimal n Hn) as [-> _]. rewrite decide_False; [done|]. unfold MAX_LEGACY_DEVICE_NUM. lia. Qed.

(** ** Numbers are not shared *)

(** The devices of the database, the devices that have a number and are still
    being paired, and tempDevNums. *)
Record numbering := mkNumbering { nb_devices : list device; nb_pending : list device; nb_temp : Z }.

Definition all_numbers (w : numbering) : list Z := (nb_devices w ++ nb_pending w) ≫= numbers.

Section Numbering.
Context {D : Type} `{DeviceDbLaws D}.
Context {MM J : Type}.
Abbreviation service := (DeviceService.service D MM J).
Implicit Types (s : service) (ds p : list device) (d : device).

Inductive number_step : numbering → numbering → Prop :=
  | ns_allocate s ds p t d u ms n d' t' : db_model (sv_db s) ds → all_canonical ds → numbers_fit ds →
      d_uuid d = Some u → d_metadata d = Some ms → numbers d = [] →
      allocateDeviceNumber (Some d) s t = Ok (n, Some d', t') → number_step (mkNumbering ds p t) (mkNumbering ds (d' :: p) t')
  | ns_paired ds p1 d p2 t d' : setUris d = Ok d' →
      number_step (mkNumbering ds (p1 ++ d :: p2) t) (mkNumbering (d' :: ds) (p1 ++ p2) t)
  | ns_failed ds p1 d p2 t : number_step (mkNumbering ds (p1 ++ d :: p2) t) (mkNumbering ds (p1 ++ p2) t)
  | ns_other ds p t d : numbers d = [] → number_step (mkNumbering ds p t) (mkNumbering (d :: ds) p t)
  | ns_removed ds1 d ds2 p t : number_step (mkNumbering (ds1 ++ d :: ds2) p t) (mkNumbering (ds1 ++ ds2) p t)
  | ns_clear ds t : number_step (mkNumbering ds [] t) (mkNumbering ds [] (clearTemporaryDeviceNumbers t)).

Record number_inv (w : numbering) : Prop := {
  ni_distinct : NoDup (all_numbers w);
  ni_temp d n : d ∈ nb_pending w → n ∈ numbers d → Z.testbit (nb_temp w) n = true
}.

Lemma numbers_uris d d' : setUris d = Ok d' → numbers d' = numbers d.
Proof.
  unfold setUris. intros H1. unbind H1. unbind H1. unbind H1.
  by simplify_eq/=.
Qed.

Lemma numbers_set_metadata d u ms n : d_metadata d = Some ms → numbers d = [] → 1 ≤ n < 64 →
  numbers (set_metadata d (Some (ms ++ [number_item u n]))) = [n].
Proof.
  unfold numbers. intros Hm Hn Hr. assert (∀ l : list icDeviceMetadata, elems (Some l) = l) as He by done. rewrite Hm, He in Hn.
  unfold set_metadata. cbn [d_metadata]. rewrite He, omap_app, Hn.
  cbn [omap list_omap app number_item m_id]. rewrite decide_True by done. by rewrite item_number.
Qed.

Lemma numbers_middle (l1 l2 : list device) d : NoDup ((l1 ++ d :: l2) ≫= numbers) ↔ NoDup (numbers d ++ ((l1 ++ l2) ≫= numbers)).
Proof. by rewrite <-Permutation_middle, bind_cons. Qed.

Lemma allocate_inv s ds p t d u ms n d' t' : number_inv (mkNumbering ds p t) → db_model (sv_db s) ds → all_canonical ds → numbers_fit ds →
  d_uuid d = Some u → d_metadata d = Some ms → numbers d = [] → allocateDeviceNumber (Some d) s t = Ok (n, Some d', t') →
  number_inv (mkNumbering ds (d' :: p) t').
Proof.
  intros [Hd Ht] Hm Hc Hf Hu Hms Hn Ha. cbn [nb_devices nb_pending nb_temp] in *.
  destruct (allocate_number s ds d u ms t Hm Hc Hf Hu Hms) as [(n0 & t0 & E & Hr & Hfree & Hbit & _ & Htemp)|[E _]]; [|congruence].
  rewrite E in Ha. simplify_eq. pose proof (numbers_set_metadata d u ms n Hms Hn Hr) as Hnum. split; unfold all_numbers; cbn [nb_devices nb_pending nb_temp].
  - apply numbers_middle. rewrite Hnum. constructor; [|done].
    intros (d0 & Hin & [Hd0|Hd0]%elem_of_app)%list_elem_of_bind; [by apply Hfree; exists d0|specialize (Ht _ _ Hd0 Hin); congruence].
  - intros d0 k [->|Hd0]%elem_of_cons Hk.
    + rewrite Hnum in Hk. apply list_elem_of_singleton in Hk as ->. apply Htemp; [lia|by left].
    + assert (0 ≤ k) by (apply numbers_in in Hk as (m & _ & _ & Hk%valid_range); lia). apply Htemp; [done|]. right. split; [by apply (Ht d0)|].
      intros (d1 & Hd1 & Hk1). unfold all_numbers in Hd. cbn [nb_devices nb_pending] in Hd. rewrite bind_app in Hd.
      apply NoDup_app in Hd as (_ & Hdis & _). apply (Hdis k); apply list_elem_of_bind; eauto.
Qed.

Lemma number_inv_step w w' : number_inv w → number_step w w' → number_inv w'.
Proof.
  intros Hi Hstep. destruct Hstep as [s ds p t d u ms n d' t' Hm Hc Hf Hu Hms Hn Ha|ds p1 d p2 t d' Hs|ds p1 d p2 t|ds p t d Hn|ds1 d ds2 p t|ds t].
  { by eapply allocate_inv. }
  all: destruct Hi as [Hd Ht]; split; unfold all_numbers in *; cbn [nb_devices nb_pending nb_temp] in *; try (intros d0 n Hd0; apply Ht; set_solver).
  - cbn [app]. rewrite bind_cons, (numbers_uris _ _ Hs). revert Hd. rewrite !app_assoc. by rewrite numbers_middle.
  - revert Hd. rewrite !app_assoc, numbers_middle. by intros (_ & _ & ?)%NoDup_app.
  - cbn [app]. by rewrite bind_cons, Hn.
  - revert Hd. rewrite <-!app_assoc. cbn [app]. rewrite numbers_middle. by intros (_ & _ & ?)%NoDup_app.
  - done.
  - by intros d0 n ?%elem_of_nil.
Qed.

(** C28: no two legacy devices share a number.  From a start with distinct
    numbers, in every sequence of allocations, pairings that succeed or fail,
    removals and devices without a number, the numbers of the devices in the
    database and of those still being paired are distinct and between 1 and 63.
    As long as one of them is free, an allocation gives the device the smallest
    number that is neither in use nor was given out since, and puts it into the
    metadata of the device; when none is free, the search shifts by 64 bits,
    which is undefined. *)
Theorem device_numbers_unique ds0 w : NoDup (ds0 ≫= numbers) → rtc number_step (mkNumbering ds0 [] 0) w →
  NoDup (all_numbers w) ∧ Forall (λ n, 1 ≤ n < 64) (all_numbers w) ∧
  ∀ s d u ms, db_model (sv_db s) (nb_devices w) → all_canonical (nb_devices w) → numbers_fit (nb_devices w) →
    d_uuid d = Some u → d_metadata d = Some ms →
    let free n := 1 ≤ n < 64 ∧ ¬ in_use (nb_devices w) n ∧ Z.testbit (nb_temp w) n = false in
    (∀ n, free n → (∀ k, 1 ≤ k < n → ¬ free k) → n ∉ all_numbers w ∧
       ∃ t', allocateDeviceNumber (Some d) s (nb_temp w) = Ok (n, Some (set_metadata d (Some (ms ++ [number_item u n]))), t')) ∧
    ((∀ n, ¬ free n) → allocateDeviceNumber (Some d) s (nb_temp w) = Fault).
Proof.
  intros H0' Hr. assert (number_inv w) as [Hd Ht].
  { apply (rtc_ind_r number_inv (mkNumbering ds0 [] 0)) in Hr; [done|split; cbn; [unfold all_numbers; cbn; by rewrite app_nil_r|by intros d n ?%elem_of_nil]|].
    intros x y _ Hs Hi. by apply (number_inv_step x). }
  split_and!; [done| |].
  - apply Forall_forall. intros n (d & Hn & _)%list_elem_of_bind. apply numbers_in in Hn as (m & _ & _ & Hn%valid_range). by unfold MAX_LEGACY_DEVICE_NUM in Hn.
  - intros s d u ms Hm Hc Hf Hu Hms free.
    destruct (allocate_number s (nb_devices w) d u ms (nb_temp w) Hm Hc Hf Hu Hms) as [(n0 & t0 & E & Hr0 & Hfree & Hbit & Hleast & _)|[E Hall]]; split.
    + intros n (Hn & Hu' & Hb) Hk. assert (n0 = n) as ->.
      { destruct (Z.lt_trichotomy n0 n) as [Hlt|[?|Hlt]]; [|done|].
        - destruct (Hk n0); [lia|]. by split.
        - destruct (Hleast n); [lia|done|congruence]. }
      split; [|eauto]. intros (d0 & Hin & [Hd0|Hd0]%elem_of_app)%list_elem_of_bind; [by apply Hu'; exists d0|]. rewrite (Ht _ _ Hd0 Hin) in Hb. done.
    + intros Hno. by destruct (Hno n0).
    + intros n (Hn & Hu' & Hb) _. destruct (Hall n Hn); [done|congruence].
    + done.
Qed.

(** ** From a number to its device *)

Lemma same_number ds x y n : NoDup (ds ≫= numbers) → x ∈ ds → y ∈ ds → n ∈ numbers x → n ∈ numbers y → x = y.
Proof.
  intros Hd Hx Hy Nx Ny. apply list_elem_of_split in Hx as (l1 & l2 & ->). rewrite numbers_middle in Hd. apply NoDup_app in Hd as (_ & Hdis & _).
  apply elem_of_app in Hy as [Hy|[->|Hy]%elem_of_cons]; [|done|]; destruct (Hdis n Nx); apply list_elem_of_bind; exists y; set_solver.
Qed.

Lemma select_one (f : device → outcome bool) ds d : (∀ x, x ∈ ds → ∃ b, f x = Ok b ∧ (b = true ↔ x = d)) → NoDup ds → 
  select f ds = Ok (if decide (d ∈ ds) then [d] else []).
Proof.
  induction ds as [|x ds IH]; intros Hf Hn; [done|]. cbn [select]. destruct (Hf x) as (b & -> & Hb); [by left|]. obind.
  apply NoDup_cons in Hn as [Hx Hn]. rewrite IH by (try done; intros y Hy; apply Hf; by right). obind. destruct b.
  - destruct Hb as [Hb _]. specialize (Hb eq_refl) as ->. by rewrite decide_False, decide_True by (try done; by left).
  - destruct (decide (d ∈ ds)) as [Hd|Hd]; [rewrite decide_True by (by right); done|]. rewrite decide_False; [done|].
    intros [->|?]%elem_of_cons; [|done]. by destruct Hb as [_ Hb]; specialize (Hb eq_refl).
Qed.

Lemma decimal_equal n v : 1 ≤ n < 64 → no_nul v → strcasecmp v (decimal n) = 0 ↔ v = decimal n.
Proof.
  intros Hn Hv. destruct (small_decimal n Hn) as [_ Hd]. unfold strcasecmp.
  assert (no_nul (decimal n)) as Hz by (intros Hin; rewrite Forall_forall in Hd; specialize (Hd _ Hin); by vm_compute in Hd; destruct Hd).
  rewrite (cmp_by_zero tolower v (decimal n) tolower_nul Hv Hz). clear Hz.
  split; [|by intros ->]. generalize dependent (decimal n). intros t Hd. revert v Hv. induction t as [|c t IH]; intros [|x v] Hv; try done.
  intros [= E1 E2]. apply Forall_cons in Hd as [Hc Hd]. f_equal; [by apply digit_case|]. apply IH; [done|by apply not_elem_of_cons in Hv as [_ Hv]|done].
Qed.

Lemma has_number s ds d n : db_model (sv_db s) ds → all_canonical ds → numbers_fit ds → d ∈ ds → 1 ≤ n < 64 →
  (∀ m v, m ∈ elems (d_metadata d) → m_value m = Some v → no_nul v) →
  ∃ b, has_metadata DEVICE_NUMBER_METADATA (Some (decimal n)) s d = Ok b ∧ (b = true → n ∈ numbers d) ∧
    (∀ m, m ∈ elems (d_metadata d) → m_id m = Some DEVICE_NUMBER_METADATA → m_value m = Some (decimal n) → b = true).
Proof.
  intros Hm Hall Hfit Hd Hn Hv. destruct (Hall d Hd) as (u & Hc). pose proof (cn_uuid _ _ Hc) as Hu.
  destruct (get_metadata (sv_db s) ds _ Hm (Hfit d u Hd Hu)) as (o & Ho & Hom).
  assert (∀ m, o = Some m ↔ m ∈ elems (d_metadata d) ∧ m_id m = Some DEVICE_NUMBER_METADATA) as Hown.
  { intros m. rewrite Hom. apply (number_metadata ds d u m); try done. by destruct (db_uuids _ _ Hm). }
  unfold has_metadata, deviceServiceGetMetadata. rewrite Hu. oread. rewrite Ho. obind. eexists. split; [done|]. split.
  - destruct o as [m|]; [|done]. destruct (proj1 (Hown m) eq_refl) as [Hin Hi]. destruct (m_value m) as [v|] eqn:Ev; [|done].
    intros Hb%bool_decide_eq_true_1. apply decimal_equal in Hb; [|done|by apply (Hv m)]. apply numbers_in. exists m. split_and!; [done..|].
    unfold valid_number. rewrite Ev, Hb. cbn [mbind option_bind]. destruct (small_decimal n Hn) as [-> _]. rewrite decide_False; [done|].
    unfold MAX_LEGACY_DEVICE_NUM. lia.
  - intros m Hin Hi Ev. assert (o = Some m) as -> by (by apply Hown). rewrite Ev. apply bool_decide_true. apply decimal_equal; [done| |done].
    by apply (Hv m).
Qed.

(** The number of a device leads back to its EUI-64. *)
Theorem number_finds_device s ds d m n e old : db_model (sv_db s) ds → all_canonical ds → numbers_fit ds → NoDup (ds ≫= numbers) →
  (∀ d' m' v, d' ∈ ds → m' ∈ elems (d_metadata d') → m_value m' = Some v → no_nul v) →
  d ∈ ds → d_uuid d = Some (zigbeeSubsystemEui64ToId e) → 0 ≤ e < 2 ^ 64 → 1 ≤ n < 64 →
  m ∈ elems (d_metadata d) → m_id m = Some DEVICE_NUMBER_METADATA → m_value m = Some (decimal n) →
  getEui64ForDeviceNumber n (Some old) s = Ok (true, Some e).
Proof.
  intros Hm Hall Hfit Hnd Hv Hd Hu He Hn Hin Hi Hval. unfold getEui64ForDeviceNumber. rewrite decide_False by lia.
  unfold deviceServiceGetDevicesByMetadata. rewrite (get_devices _ _ Hm). obind.
  destruct (has_number s ds d n Hm Hall Hfit Hd Hn) as (bd & Hbd & Hd1 & Hd2); [by intros m' v; apply Hv|].
  specialize (Hd2 m Hin Hi Hval) as ->. specialize (Hd1 eq_refl).
  rewrite (select_one _ ds d); [|intros x Hx|]; cycle 1.
  - destruct (has_number s ds x n Hm Hall Hfit Hx Hn) as (b & Hb & H1 & _); [by intros m' v; apply Hv|]. exists b. split; [done|]. split.
    + intros Hbt. apply (same_number ds x d n); try done. by apply H1.
    + intros ->. congruence.
  - destruct (db_uuids _ _ Hm) as [Hun _]. by apply NoDup_fmap_1 in Hun.
  - rewrite decide_True by done. obind. rewrite Hu. oread. by rewrite eui64_roundtrip.
Qed.

End Numbering.

(** ** A run *)

(** A sensor is paired in a home with a thermostat, and gets the number 1. *)
Definition sensor : device := mkDevice (Some (str "000d6f000a90690e")) (Some (str "sensor")) 1 None None (Some []) (Some []) (Some []).

Lemma home_fits : numbers_fit [thermostat].
Proof. intros d u ->%list_elem_of_singleton [= <-]. by vm_compute. Qed.

Lemma device_numbers_unique_witness : NoDup ([thermostat] ≫= numbers) ∧
  ∃ d' t', allocateDeviceNumber (Some sensor) home 0 = Ok (1, Some d', t') ∧
    rtc (number_step (D := database) (MM := marks) (J := unit)) (mkNumbering [thermostat] [] 0) (mkNumbering [thermostat] [d'] t') ∧
    NoDup (all_numbers (mkNumbering [thermostat] [d'] t')).
Proof.
  assert (Hn : NoDup ([thermostat] ≫= numbers)) by (apply (bool_decide_unpack _); vm_compute; exact I).
  split; [exact Hn|]. eexists _, _. split; [vm_compute; reflexivity|].
  match goal with |- ?P ∧ _ => assert (Hr : P) end.
  { eapply rtc_l; [|apply rtc_refl]. eapply (ns_allocate home [thermostat] [] 0 sensor); 
      [exact home_model|exact home_canonical|exact home_fits|reflexivity|reflexivity|reflexivity|vm_compute; reflexivity]. }
  split; [exact Hr|]. exact (proj1 (device_numbers_unique _ _ Hn Hr)).
Defined.

End DeviceNumbersTheorems.
